(* ===== verification/_CoqProject ===== *)
-Q . S2P
Prelude.v
Bytes.v
Cmdu.v
Reassembly.v
Lifecycle.v
Store.v
Engine.v
EngineSafety.v
EngineLiveness.v
Payloads.v
TopologyValues.v
TopologyBindings.v
Reports.v
Channel.v
ReportSource.v
Session.v
Steering.v
Unassociated.v
Coordinator.v
ChannelCoordinator.v
LinkMetrics.v
LinkCoordinator.v
Disassociation.v
ReportingPolicy.v
Secrets.v
Digest.v
Wsc.v
WscMessages.v
WscRadio.v
Autoconfiguration.v
Bridge.v
Provisioning.v
BackhaulSteering.v
ApMetrics.v
Stats.v
PodMetrics.v
Gtp.v
Onboarding.v
OnboardingReports.v
OnboardingClients.v
OnboardingRecovery.v
Peers.v
Ovsdb.v
RadioPlan.v
RadioPlanAgent.v
Capabilities.v
EasymeshView.v
