(* ===== verification/Prelude.v ===== *)
(** * EMOSA: a verification development of the adapter's core

    EMOSA (package [src/src/emosa]) lets an EasyMesh controller manage OpenSync pods. It speaks the
    IEEE 1905 wire on one side and pod databases on the other, and keeps a journal of what it was
    asked, did and observed. This library models the parts of that package that carry its logic and
    proves the properties that make them correct.

    ** How the parts fit together

    Frames of the wire are decoded and reassembled into messages of TLVs ([Cmdu], [Reassembly]); the
    values of TLVs are those of [Payloads] and [TopologyValues]. What the agent knows of its pod is
    published to a report source ([ReportSource]) and leaves it as stamped snapshots; reports are
    built from a snapshot and transmitted only while its stamp is the source's ([Reports]). The
    coordinators of a session answer the controller from these snapshots ([Session] is their common
    interface): the report coordinator ([Coordinator]), channel procedures ([Channel],
    [ChannelCoordinator]), link metrics ([LinkMetrics], [LinkCoordinator]), client steering
    ([Steering]), backhaul steering ([BackhaulSteering]), unassociated stations ([Unassociated]), the
    reporting policy ([ReportingPolicy]), AP metrics ([ApMetrics], and [PodMetrics] from the pod's own
    statistics, [Stats]) and the reports of associations that ended ([Disassociation]). The onboarding
    session ([Onboarding]) composes them: it discovers the controller, starts each radio's exchange,
    makes the coordinators of an admitted session and gives them their messages and ticks; it is
    started again with a growing wait when it fails ([OnboardingRecovery]).

    A radio is configured by a WSC exchange: the controller is discovered and an M1 sent
    ([Autoconfiguration]), its M2 set authenticated and decoded ([Wsc] over the hash of [Digest],
    [WscMessages], [WscRadio]), the credentials stored ([Secrets]) and the result handed to the engine as one
    operation ([Bridge]); [Provisioning] is the packet session around it. An operation has its
    lifecycle ([Lifecycle]), the journal that keeps it ([Store]) and the engine that executes, observes
    and recovers it ([Engine], [EngineSafety], [EngineLiveness]). Identities of pods are pinned in a
    registry ([TopologyBindings]). Of the agents beside the wire, one writes the radio plan of a legacy
    pod ([RadioPlanAgent]) by guarded transactions ([RadioPlan]) on the pod's database ([Ovsdb]), with a
    journal and an engine of its own; an agent knows the others of its fleet by their statuses
    ([Peers]). What is reported of a pod is translated from its State tables ([EasymeshView]); what they do
    not show of its radios an operator declares ([Capabilities]). Beside the adapter, the gateway keeps a
    GRE tunnel for each leased pod ([Gtp]).

    ** Files, in dependency order

    - [Prelude]: errors ([errors.py]); the result type, the state-and-error monad [M], loops; record
      update; generic lemmas, [inv_ok] and [bools]; sums over maps; triples for stateful code.
    - [Bytes]: octets, integers in octets, slices, the bounded reader and the composition of readers
      ([reads]: what a reader consumes; [yields]: what a reader that succeeds has consumed).
    - [Cmdu] ([wire/cmdu.py]): TLVs, fragments, frames, fragmentation, [MidSequence],
      [DuplicateWindow]. Grammar of a payload, round trips, the window is exact.
    - [Reassembly] ([wire/cmdu.py], [Reassembler]): budgets are an invariant; the fragments of a
      message in any order, with repetitions, give back the message.
    - [Lifecycle] ([model.py], [operations.py], [backends/base.py]): intents, operations,
      [transition] and its guards; every life of an operation is finite.
    - [Store] ([store.py], [redact] of [secrets.py]): the journal's tables and operations; pruning,
      event numbering, redaction, keys of repeated writes.
    - [Engine] ([reconcile.py]): requests, reconciliation, recovery, and [execute] as a task cut at
      its awaits ([pc], [resume]).
    - [EngineSafety]: the engine as a transition system ([World], [step], [reachable]) in which tasks,
      requests, cancellations, observations and restarts interleave; its invariant [world_ok] and the
      properties of every reachable state.
    - [EngineLiveness]: reconciliation returns on every reachable journal, and settles an operation
      whose deadline has passed.
    - [Payloads] ([easymesh_payloads.py], [he_mcs.py], [operating_classes.py]): all eighteen value
      types; what is encoded is decoded back.
    - [TopologyValues] ([wire/topology_values.py]): the IEEE 1905 topology values and their round trip.
    - [TopologyBindings] ([topology_bindings.py], [Store.pin_topologies] of [store.py]): the registry
      never repins an identity, through any sequence of configurations.
    - [Reports] ([wire/reports.py], [PeerBinding] of [wire/autoconfiguration.py]): capability and
      topology reports and the guarded transmission.
    - [Channel] ([wire/channel.py], functions): preferences, judgement of selection requests, scan
      requests.
    - [ReportSource] ([wire/coordinator.py], [ReportSource]): publication under leases; tokens identify
      facts, invalidation is final, snapshots are fresh.
    - [Session]: the clock, source and link a coordinator sees ([World]), the laws its source obeys
      ([SourceLaws], discharged for [ReportSource] by [source_world_laws]), delivery, counters, ordered
      dictionaries; rules for invariants that hold whether a call returns or raises ([keeps]), and
      through whatever the session goes ([stable]).
    - [Steering] ([wire/steering.py]): the request parser and the steering coordinator.
    - [Unassociated] ([wire/unassociated.py]): every queried station gets a verdict.
    - [Coordinator] ([wire/coordinator.py], [ReportCoordinator]): the early notification with its
      retries and acknowledgment, topology queries within their budget.
    - [ChannelCoordinator] ([wire/channel.py], [ChannelCoordinator]): preferences, selection, scans,
      requests that wait, the operating report.
    - [LinkMetrics], [LinkCoordinator] ([wire/link_metrics.py]): the codec; the measurement source, the
      coordinator and the backhaul responder.
    - [Disassociation] ([wire/disassociation.py]): traffic counters and final-session reports.
    - [ReportingPolicy] ([wire/reporting_policy.py]): the policy request, its record, the schedule.
    - [Secrets] ([secrets.py], [SecretStore]): references, received and generated credentials.
    - [Digest]: SHA-256 and HMAC, as the standard library computes them, with their test vectors.
    - [Wsc] ([wsc.py]): attributes, key derivation, authenticators, encrypted settings.
    - [WscMessages] ([wsc_messages.py]): M1 and M2, transcripts, authentication of an M2.
    - [WscRadio] ([wsc_radio.py]): the M2 set of one radio.
    - [Autoconfiguration] ([wire/autoconfiguration.py]): Search and Response, [DiscoveryExchange],
      [WscExchange].
    - [Bridge] ([wire/operation_bridge.py]): [WscComponentBridge], from an authenticated M2 set to one
      operation of the engine.
    - [Provisioning] ([wire/provisioning_session.py]): the packet session of one exchange.
    - [BackhaulSteering] ([wire/backhaul_steering.py]): moves of the pod's uplink.
    - [ApMetrics] ([wire/ap_metrics.py]): AP, radio and station metrics of a qualified publisher.
    - [Stats] ([opensync/stats.py]): counter epochs, surveys and probe requests of the pod's reports.
    - [PodMetrics] ([wire/pod_metrics.py]): AP metrics from these statistics.
    - [Gtp] ([gtp.py]): tunnels and lease times of the GRE termination point.
    - [Onboarding] ([wire/onboarding.py], [OnboardingSession]): the session over an interface of its
      coordinators and packet sessions ([Parts]), of which nothing is assumed.
    - [OnboardingReports]: the session with the report coordinator of [Coordinator] and any other parts; an
      exchange follows the Early AP Capability Report.
    - [OnboardingClients]: the notifications of clients that joined or left.
    - [OnboardingRecovery] ([wire/onboarding.py], [OnboardingRecovery]): attempts and their waits.
    - [Peers] ([agent/peers.py]): the other agents of the fleet, and loops of upstreams.
    - [Ovsdb] ([opensync/mapping.py] functions, [opensync/stations.py]): rows, guarded operations on the
      wire, what RFC 7047 says they do, the judgement of results, the deletion of stations.
    - [RadioPlan] ([opensync/radio_plan.py], [_follow] of [agent/radio_plan.py]): what the plan changes,
      its transaction and its scope; the follow of a station that holds the radio.
    - [RadioPlanAgent] ([agent/radio_plan.py]): settling, the wanted write and the tick, on [Engine].
    - [Capabilities] ([capability_extensions.py], [_radio] of [radio_capabilities.py]): the capabilities an
      operator declares for a pod's radios, checked and made values of [Payloads].
    - [EasymeshView] ([opensync/easymesh_view.py]): the pod's State tables as a view, and the view as
      capabilities, inventory and topology of [Reports].

    ** How code is modelled

    - Fallible code returns [result]; code that also mutates is in [M S], which keeps the mutations
      made before a raise, as Python does. A [KeyError] the code does not catch is [key_error], an
      [OSError] of the link is [os_error].
    - Integers are [Z] with widths written out; times are integer milliseconds; strings are their
      UTF-8 octets, their lengths counted in characters ([chars]) where the code counts them; the strings of
      [Capabilities] whose encoding can fail are code points; tests of dynamic types ([isinstance],
      [type(x) is]) hold by typing.
    - Dictionaries are finite maps, or association lists where their order is observed.
    - A method that reads the clock several times takes its readings as arguments, or asks a [World]
      for the next one; in [Engine] an atomic stretch between two awaits reads it once.
    - What is outside the sources is a parameter: the record schema ([OperationSchema]), the vault
      ([Vault]), the pod's answers ([reply]), the executor of steering, the uplink scope, the Diffie-Hellman
      group and the cipher of WSC ([Crypto] with its laws), what happens while a coroutine awaits
      ([Awaits]), the decoder of the statistics messages, the commands of iproute2 ([Links]), the start
      of a pod's OpenSync and the vault's passphrase ([Outside]), the answers of a pod's database.
    - Coarser than the code: the store's check of an event and of a receipt against their schemas is left out (the
      records are made by this code, typed as the schemas have them), and SQLite does not fail; the number at
      the end of an idempotency key is in ASCII digits; a hand-over of [Steering] is logged at the time [handle] was called, and a tick of
      [RadioPlanAgent] reads the clock once; a source that is asked for its current snapshot answers, with a
      snapshot or none; an age is compared in exact milliseconds where [stats.py] compares floating seconds;
      reading the links of the gateway does not fail.
    - Loops are structural on the data they consume; the TLV loop is by well-founded recursion on the
      octets left. Only the loop check of [Peers] runs on fuel: one round per peer and two more, which is
      proved to be enough on every fleet ([loops_exact]).

    ** Groups of theorems

    - engine ([EngineSafety], [EngineLiveness], [Lifecycle]): durability before submission, one active
      operation per pod, evidence of outcomes, lifecycle, recovery, idempotence, no operation active past
      its deadline, the cancellation that is overwritten; every life is finite;
    - wire ([Cmdu], [Reassembly], [Payloads]): reassembly, values;
    - reports and their source ([Reports], [ReportSource]): guarded transmission, tokens identify facts;
    - coordinators ([Steering], [Coordinator], [ChannelCoordinator], [Channel], [ReportingPolicy],
      [BackhaulSteering], [Stats]). The recurring shape: what is acknowledged was sent whole and is still
      true; what is answered was stored first; queues, retries and answers are bounded; all of it for
      every run, whatever the clock, the source, the link and the database do;
    - onboarding ([OnboardingReports], [OnboardingClients], [OnboardingRecovery]): no exchange is called before
      the early report went whole, client notifications with the leave that is dropped, paced attempts;
    - provisioning ([WscMessages], [WscRadio], [Autoconfiguration], [Bridge]): what is sealed for an M1 is
      read back, and nothing else is; exchanges are pinned to their peer; one operation is handed to the
      engine;
    - pods and fleet ([RadioPlan], [RadioPlanAgent], [Peers]): one transaction settles the plan and keeps
      what is not its own, at most one operation per start and plan, loops are found exactly;
    - what is reported ([EasymeshView], [Capabilities]): every view a report can carry is accepted by the
      report builder and read back as the view; what is declared is what the values decode to;
    - gateway ([Gtp]): the tunnels are those of the leases.

    Further theorems are stated in the files and carry no number: the round trips of one fragment
    and of fragmentation, the sequence of message identifiers, the grammars of payloads and of requests,
    the duplicate window, the codecs of HE MCS maps, of topology values and of link metrics, the contiguity
    of the event log and its pruning, redaction, the registry of identities, the stability of stored
    credentials, the view of a pod and its bound radios, and others.

    ** Not modelled

    I/O (sockets, SQLite files, OVSDB sessions, processes, logs), the cryptographic primitives of WSC, the
    descriptions made for people, and status views. Of the agents, those of the pod, the fleet and the
    uplink ([agent/pod.py], [agent/fleet.py], [agent/uplink.py], [agents.py]) and the other scopes on a
    pod's database: they orchestrate sessions and processes, and their decisions are made between
    I/O calls of a database that is only partly in these sources. The reading of capability files, the laboratory
    and deployment trees, which drive the adapter from outside, and the C port, which is another program. *)

From stdpp Require Export base tactics gmap strings list fin_maps.
From Stdlib Require Export ZArith Lia.

Declare Scope emosa_scope.
Delimit Scope emosa_scope with emosa.
#[global] Open Scope Z_scope.
#[global] Open Scope emosa_scope.

(** ** Errors: [src/emosa/errors.py] *)

(** The enumeration [Reason]. *)
Inductive Reason :=
  | INVALID_INPUT
  | UNSUPPORTED_OPERATION
  | SCHEMA_MISMATCH
  | NOT_READY
  | OWNERSHIP_CONFLICT
  | PRECONDITION_FAILED
  | APPLY_TIMEOUT
  | OUTCOME_UNKNOWN
  | MISSING_PREREQUISITE
  | BUSY
  | NOT_FOUND.

#[export] Instance Reason_eq_dec : EqDecision Reason.
Proof. solve_decision. Defined.

(** The exception [EmosaError]: its code and its message. *)
Record EmosaError := mkEmosaError { code : Reason; message : string }.

#[export] Instance EmosaError_eq_dec : EqDecision EmosaError.
Proof. solve_decision. Defined.

(** ** Text, as its UTF-8 octets *)

(** An octet that continues a character. *)
Definition continues (c : Ascii.ascii) : bool := let n := Z.of_N (Ascii.N_of_ascii c) in bool_decide (128 ≤ n < 192).
(** [len(text)], in characters *)
Fixpoint chars (s : string) : Z :=
  match s with EmptyString => 0 | String c s => (if continues c then 0 else 1) + chars s end.

(** ** Fallible code: a value, or the exception it raises *)

Inductive result (A : Type) :=
  | Ok (a : A)
  | Raise (e : EmosaError).
Arguments Ok {A} a.
Arguments Raise {A} e.

#[export] Instance result_eq_dec `{EqDecision A} : EqDecision (result A).
Proof. solve_decision. Defined.

#[export] Instance result_mret : MRet result := @Ok.
#[export] Instance result_mbind : MBind result := λ A B f m,
  match m with Ok a => f a | Raise e => Raise e end.
#[export] Instance result_fmap : FMap result := λ A B f m,
  match m with Ok a => Ok (f a) | Raise e => Raise e end.

Definition is_ok {A} (r : result A) : bool :=
  match r with Ok _ => true | Raise _ => false end.

(** [if b: raise EmosaError(c, m)] *)
Definition raise_if (b : bool) (c : Reason) (m : string) : result unit :=
  if b then Raise (mkEmosaError c m) else Ok tt.

(** Python's [KeyError], which no handler of the modelled code catches. *)
Definition key_error (k : string) : EmosaError := mkEmosaError NOT_FOUND ("KeyError: " +:+ k).

(** ** Stateful fallible code

    A Python call that raises keeps the mutations made before the raise, so the state is
    returned beside the result, not inside it. *)

Definition M (S A : Type) : Type := S → result A * S.

#[export] Instance M_mret {S} : MRet (M S) := λ A a s, (Ok a, s).
#[export] Instance M_mbind {S} : MBind (M S) := λ A B f m s,
  match m s with
  | (Ok a, s') => f a s'
  | (Raise e, s') => (Raise e, s')
  end.
#[export] Instance M_fmap {S} : FMap (M S) := λ A B f m s,
  match m s with
  | (Ok a, s') => (Ok (f a), s')
  | (Raise e, s') => (Raise e, s')
  end.

Definition get {S} : M S S := λ s, (Ok s, s).
Definition put {S} (s : S) : M S unit := λ _, (Ok tt, s).
Definition modify {S} (f : S → S) : M S unit := λ s, (Ok tt, f s).
Definition lift {S A} (r : result A) : M S A := λ s, (r, s).
Definition raise {S A} (c : Reason) (m : string) : M S A :=
  λ s, (Raise (mkEmosaError c m), s).

(** [try: x = m except EmosaError as e: h(e) else: k(x)] *)
Definition try_else {S A B} (m : M S A) (k : A → M S B) (h : EmosaError → M S B) : M S B := λ s,
  match m s with
  | (Ok a, s') => k a s'
  | (Raise e, s') => h e s'
  end.

(** A Python [for] loop over a list whose body is stateful and may raise. *)
Fixpoint for_each {S A} (f : A → M S unit) (l : list A) : M S unit :=
  match l with
  | [] => mret tt
  | x :: l => f x ≫= λ _, for_each f l
  end.

(** [for index, x in enumerate(l)] whose body also reads [l[index + 1:]]. *)
Fixpoint for_tails {S A} (f : A → list A → M S unit) (l : list A) : M S unit :=
  match l with
  | [] => mret tt
  | x :: l => f x l ≫= λ _, for_tails f l
  end.

(** A comprehension over [range(n)] whose element expression is stateful and may raise. *)
Fixpoint repeat_M {S A} (n : nat) (m : M S A) : M S (list A) :=
  match n with
  | O => mret []
  | S n => x ← m; xs ← repeat_M n m; mret (x :: xs)
  end.

(** The same comprehension over a list, without state: [tuple(f(x) for x in l)]. *)
Fixpoint map_result {A B} (f : A → result B) (l : list A) : result (list B) :=
  match l with
  | [] => Ok []
  | x :: l => y ← f x; ys ← map_result f l; Ok (y :: ys)
  end.

(** [for x in l: acc = f(acc, x)] where the body may raise. *)
Fixpoint fold_result {A B} (f : B → A → result B) (acc : B) (l : list A) : result B :=
  match l with
  | [] => Ok acc
  | x :: l => acc ← f acc x; fold_result f acc l
  end.

(** [for x in l: f(x)] where only the exception matters. *)
Fixpoint check_each {A} (f : A → result unit) (l : list A) : result unit :=
  match l with
  | [] => Ok tt
  | x :: l => f x ≫= λ _, check_each f l
  end.

(** ** Record update

    [r <| f := v |>] is [r] with field [f] replaced: an assignment to an attribute. A record
    type declares its fields once, as the eta expansion [eta]. *)

Class Eta (R : Type) := eta : R → R.
Class Update {R T : Type} (f : R → T) := update : T → R → R.
Arguments update {R T} f {_} v r /.

Ltac solve_update :=
  match goal with
  | |- @Update ?R ?T ?f =>
      let e := constr:(_ : Eta R) in
      let e := eval hnf in e in
      let set := constr:(λ (v : T) (r : R),
        ltac:(let k := eval cbv beta in (e r) in
              let k := eval pattern (f r) in k in
              match k with ?F _ => let u := eval cbv beta in (F v) in exact u end)) in
      exact set
  end.
#[export] Hint Extern 1 (@Update _ _ _) => solve_update : typeclass_instances.

#[warnings="-postfix-notation-not-level-1"]
Notation "r <| f := v |>" := (update f v r)
  (at level 14, left associativity, format "r  <|  f  :=  v  |>") : emosa_scope.

(** ** Generic lemmas and automation *)

Create HintDb emosa discriminated.

(** Turn boolean tests in the context into propositions that [lia] reads. *)
Ltac bools :=
  repeat match goal with
  | H : (_ && _)%bool = true |- _ => apply andb_prop in H as [? ?]
  | H : (_ || _)%bool = false |- _ => apply orb_false_iff in H as [? ?]
  | H : negb _ = true |- _ => apply negb_true_iff in H
  | H : negb _ = false |- _ => apply negb_false_iff in H
  | H : (_ <? _) = true |- _ => apply Z.ltb_lt in H
  | H : (_ <? _) = false |- _ => apply Z.ltb_ge in H
  | H : (_ <=? _) = true |- _ => apply Z.leb_le in H
  | H : (_ <=? _) = false |- _ => apply Z.leb_gt in H
  | H : (_ =? _) = true |- _ => apply Z.eqb_eq in H
  | H : (_ =? _) = false |- _ => apply Z.eqb_neq in H
  | H : bool_decide _ = true |- _ => apply bool_decide_eq_true in H
  | H : bool_decide _ = false |- _ => apply bool_decide_eq_false in H
  end.

Lemma raise_if_Ok b c m u : raise_if b c m = Ok u → b = false.
Proof. destruct b; [discriminate | done]. Qed.

Lemma raise_if_false c m : raise_if false c m = Ok tt.
Proof. reflexivity. Qed.

Lemma result_bind_Ok {A B} (m : result A) (f : A → result B) b :
  m ≫= f = Ok b ↔ ∃ a, m = Ok a ∧ f a = Ok b.
Proof. destruct m; simpl; naive_solver. Qed.

Lemma raise_if_bind_Ok {A} b c m (k : unit → result A) a :
  raise_if b c m ≫= k = Ok a ↔ b = false ∧ k tt = Ok a.
Proof. destruct b; simpl; naive_solver. Qed.

Lemma decide_andb_false P `{Decision P} b : bool_decide P && b = false ↔ (P → b = false).
Proof. case_bool_decide; simpl; naive_solver. Qed.

Lemma result_fmap_Ok {A B} (m : result A) (f : A → B) b :
  f <$> m = Ok b ↔ ∃ a, m = Ok a ∧ f a = b.
Proof. destruct m; simpl; naive_solver. Qed.

Lemma M_bind_Ok {S A B} (m : M S A) (f : A → M S B) s b s' :
  (m ≫= f) s = (Ok b, s') ↔ ∃ a s1, m s = (Ok a, s1) ∧ f a s1 = (Ok b, s').
Proof. unfold mbind, M_mbind. destruct (m s) as [[]]; naive_solver. Qed.

(** Invert a successful run of result-monad code, one binding at a time. *)
Ltac inv_ok :=
  repeat match goal with
  | H : Raise _ = Ok _ |- _ => discriminate H
  | H : Ok _ = Ok _ |- _ => injection H as H; subst
  | H : mret _ = Ok _ |- _ => injection H as H; subst
  | H : raise_if ?b _ _ = Ok _ |- _ => apply raise_if_Ok in H
  | H : _ ≫= _ = Ok _ |- _ =>
      let x := fresh "x" in apply result_bind_Ok in H as (x & ? & H); cbn beta in H
  | H : _ <$> _ = Ok _ |- _ =>
      let x := fresh "x" in apply result_fmap_Ok in H as (x & ? & H)
  | u : unit |- _ => destruct u
  end.

(** A list that [map_result] accepts is mapped pointwise. *)
Lemma map_result_Ok {A B} (f : A → result B) l ys :
  map_result f l = Ok ys ↔ Forall2 (λ x y, f x = Ok y) l ys.
Proof.
  revert ys; induction l as [|x l IH]; intros ys; simpl.
  - split; [intros [= <-]; constructor | by inversion 1].
  - split.
    + intros H; inv_ok. constructor; [done | by apply IH].
    + inversion 1; subst. rewrite H2; simpl. apply IH in H4 as ->. done.
Qed.

(** A loop that extends a buffer appends the encodings of its elements. *)
Lemma fold_result_app {A B} (f : list B → A → result (list B)) (enc : A → list B) (P : A → Prop) l v r :
  (∀ v x r, f v x = Ok r → r = v ++ enc x ∧ P x) →
  fold_result f v l = Ok r → r = v ++ (l ≫= enc) ∧ Forall P l.
Proof.
  intros Hf. revert v; induction l as [|x l IH]; intros v; simpl.
  - intros [= <-]. by rewrite app_nil_r.
  - intros (v' & [-> Hx]%Hf & [-> Hl]%IH)%result_bind_Ok. split; [|by constructor].
    by rewrite <- app_assoc.
Qed.

(** An invariant of such a loop, over the elements consumed so far. *)
Lemma fold_result_prefix {A B} (f : B → A → result B) (P : list A → B → Prop) l b r :
  P [] b → (∀ done acc x acc', P done acc → f acc x = Ok acc' → P (done ++ [x]) acc') →
  fold_result f b l = Ok r → P l r.
Proof.
  intros H0 Hf. change l with ([] ++ l) at 2. revert b H0. generalize (@nil A). induction l as [|x l IH]; simpl; intros d b Hb.
  - intros [= <-]. by rewrite app_nil_r.
  - destruct (f b x) as [b'|e] eqn:E; [|done]. simpl. intros Hr. replace (d ++ x :: l) with ((d ++ [x]) ++ l) by by rewrite <- app_assoc.
    apply (IH (d ++ [x]) b'); [by eapply Hf|done].
Qed.

Lemma check_each_Ok {A} (f : A → result unit) l u :
  check_each f l = Ok u ↔ Forall (λ x, f x = Ok tt) l.
Proof.
  destruct u; induction l as [|x l IH]; simpl; [split; auto|].
  rewrite Forall_cons, <- IH. destruct (f x) as [[]|]; simpl; naive_solver.
Qed.

Lemma for_each_tails {S A} (f : A → M S unit) l s : for_each f l s = for_tails (λ x _, f x) l s.
Proof.
  revert s; induction l as [|x l IH]; intros s; [done|]. simpl. unfold mbind, M_mbind.
  destruct (f x s) as [[[]|] s']; [apply IH | done].
Qed.

Lemma M_bind_run {S A B} (m : M S A) (f : A → M S B) s a s' : m s = (Ok a, s') → (m ≫= f) s = f a s'.
Proof. intros Hm. unfold mbind, M_mbind. by rewrite Hm. Qed.

Lemma M_bind_snd {S A B} (m : M S A) (f : A → M S B) s :
  ((m ≫= f) s).2 = match m s with (Ok a, s') => (f a s').2 | (Raise _, s') => s' end.
Proof. unfold mbind, M_mbind. by destruct (m s) as [[a|] s']. Qed.

Lemma repeat_M_length {S A} n (m : M S A) s xs s' :
  repeat_M n m s = (Ok xs, s') → length xs = n.
Proof.
  revert s xs s'; induction n as [|n IH]; intros s xs s'; simpl.
  - by intros [= <- _].
  - intros (x & s1 & _ & (ys & s2 & Hn & [= <- _])%M_bind_Ok)%M_bind_Ok.
    simpl; f_equal; eauto.
Qed.

Lemma size_union_bound `{FinSet A C} (X Y : C) : (size (X ∪ Y) ≤ size X + size Y)%nat.
Proof.
  rewrite size_union_alt. pose proof (subseteq_size (Y ∖ X) Y ltac:(set_solver)). lia.
Qed.

(** [take] and [drop] of an explicit prefix. *)
Lemma take_app_exact {A} (l k : list A) n : n = length l → take n (l ++ k) = l.
Proof. intros ->. by rewrite take_app_length. Qed.

Lemma drop_app_exact {A} (l k : list A) n : n = length l → drop n (l ++ k) = k.
Proof. intros ->. by rewrite drop_app_length. Qed.

(** A member of a list of lists is no longer than their concatenation. *)
Lemma concat_lookup_length {A} (ls : list (list A)) i l :
  ls !! i = Some l → (length l ≤ length (concat ls))%nat.
Proof.
  revert i; induction ls as [|l' ls IH]; intros i Hi; [done|]. simpl. rewrite length_app.
  destruct i; simpl in Hi; [simplify_eq; lia|]. apply IH in Hi. lia.
Qed.

(** ** Sums over the values of a map *)

Definition map_sum `{Countable K} {A} (f : A → Z) (m : gmap K A) : Z :=
  map_fold (λ _ x acc, f x + acc) 0 m.

Section MapSum.
Context `{Countable K} {A : Type} (f : A → Z).
Implicit Types m : gmap K A.

Lemma map_sum_empty : map_sum f (∅ : gmap K A) = 0.
Proof. apply map_fold_empty. Qed.

Lemma map_sum_insert m k x : m !! k = None → map_sum f (<[k:=x]> m) = f x + map_sum f m.
Proof. intros Hk. unfold map_sum. rewrite map_fold_insert_L; [done| |done]. intros; lia. Qed.

Lemma map_sum_delete m k x : m !! k = Some x → map_sum f m = f x + map_sum f (delete k m).
Proof. intros Hk. unfold map_sum.
  rewrite (map_fold_delete_L _ _ k x m); [done| |done]. intros; lia. Qed.

(** Replacing a value changes the sum by the difference. *)
Lemma map_sum_replace m k x y :
  m !! k = Some x → map_sum f (<[k:=y]> m) = map_sum f m - f x + f y.
Proof.
  intros Hk. rewrite <- insert_delete_eq, map_sum_insert by apply lookup_delete_eq.
  rewrite (map_sum_delete m k x Hk). lia.
Qed.

Lemma map_sum_nonneg m : (∀ k x, m !! k = Some x → 0 ≤ f x) → 0 ≤ map_sum f m.
Proof.
  induction m as [|k x m Hk IH] using map_ind; intros Hf; [by rewrite map_sum_empty|].
  rewrite map_sum_insert by done.
  assert (0 ≤ f x) by (eapply Hf, lookup_insert_eq).
  assert (0 ≤ map_sum f m); [|lia]. apply IH. intros j y Hj. apply (Hf j).
  rewrite lookup_insert_ne; [done|]. by intros ->; rewrite Hk in Hj.
Qed.

Lemma map_sum_ge m k x :
  (∀ k x, m !! k = Some x → 0 ≤ f x) → m !! k = Some x → f x ≤ map_sum f m.
Proof.
  intros Hf Hk. rewrite (map_sum_delete m k x Hk).
  assert (0 ≤ map_sum f (delete k m)); [|lia]. apply map_sum_nonneg.
  intros j y [_ Hj]%lookup_delete_Some. eauto.
Qed.

Lemma map_sum_filter (P : K * A → Prop) `{!∀ kx, Decision (P kx)} m :
  map_sum f m = map_sum f (filter P m) + map_sum f (filter (λ kx, ¬ P kx) m).
Proof.
  induction m as [|k x m Hk IH] using map_ind; [rewrite !map_filter_empty; done|].
  rewrite map_sum_insert, IH by done. destruct (decide (P (k, x))).
  - rewrite map_filter_insert_True, (map_filter_insert_False (λ kx, ¬ P kx)) by (simpl; tauto).
    rewrite delete_id, map_sum_insert by (try apply map_lookup_filter_None; auto). lia.
  - rewrite map_filter_insert_False, (map_filter_insert_True (λ kx, ¬ P kx)) by (simpl; tauto).
    rewrite delete_id, map_sum_insert by (try apply map_lookup_filter_None; auto). lia.
Qed.
End MapSum.

(** ** Triples for stateful code

    From [P], [m] ends in [Q a] when it returns [a] and in [E] when it raises. *)

Definition hoare {S A} (P : S → Prop) (m : M S A) (Q : A → S → Prop) (E : EmosaError → S → Prop) : Prop :=
  ∀ s, P s → match m s with (Ok a, s') => Q a s' | (Raise e, s') => E e s' end.

Section Hoare.
Context {S : Type}.

Lemma hoare_ret {A} (P : S → Prop) (a : A) Q E : (∀ s, P s → Q a s) → hoare P (mret a) Q E.
Proof. intros H s Hs. by apply H. Qed.

Lemma hoare_bind {A B} (P : S → Prop) (m : M S A) (f : A → M S B) R Q E :
  hoare P m R E → (∀ a, hoare (R a) (f a) Q E) → hoare P (m ≫= f) Q E.
Proof.
  intros Hm Hf s Hs. specialize (Hm s Hs). unfold mbind, M_mbind.
  destruct (m s) as [[a|e] s']; [by apply Hf | done].
Qed.

Lemma hoare_lift {A} (P : S → Prop) (r : result A) (Q : A → S → Prop) E :
  (∀ a s, r = Ok a → P s → Q a s) → (∀ e s, r = Raise e → P s → E e s) → hoare P (lift r) Q E.
Proof. intros HQ HE s Hs. unfold lift. destruct r; auto. Qed.

Lemma hoare_raise {A} (P : S → Prop) c m (Q : A → S → Prop) E :
  (∀ s, P s → E (mkEmosaError c m) s) → hoare P (raise c m) Q E.
Proof. intros HE s Hs. by apply HE. Qed.

Lemma hoare_get (P : S → Prop) Q E : (∀ s, P s → Q s s) → hoare P get Q E.
Proof. intros H s Hs. by apply H. Qed.

Lemma hoare_modify (P : S → Prop) f (Q : unit → S → Prop) E :
  (∀ s, P s → Q tt (f s)) → hoare P (modify f) Q E.
Proof. intros H s Hs. by apply H. Qed.

Lemma hoare_put (P : S → Prop) s0 (Q : unit → S → Prop) E :
  (∀ s, P s → Q tt s0) → hoare P (put s0) Q E.
Proof. intros H s Hs. by eapply H. Qed.

Lemma hoare_weaken {A} (P P' : S → Prop) (m : M S A) Q Q' E E' :
  hoare P m Q E → (∀ s, P' s → P s) → (∀ a s, Q a s → Q' a s) → (∀ e s, E e s → E' e s) →
  hoare P' m Q' E'.
Proof.
  intros Hm HP HQ HE s Hs. specialize (Hm s (HP s Hs)). destruct (m s) as [[a|e] s']; auto.
Qed.
End Hoare.

Lemma filter_all {A} (P : A → Prop) `{!∀ x, Decision (P x)} (l : list A) :
  Forall P l → filter P l = l.
Proof. induction 1 as [|x l Hx _ IH]; [done|]. by rewrite filter_cons_True, IH by done. Qed.

(** Strings under append. *)
Lemma append_assoc (a b c : string) : (a +:+ b) +:+ c = a +:+ b +:+ c.
Proof. induction a as [|x a IH]; [done|]. exact (f_equal (String.String x) IH). Qed.
Lemma append_nil (s : string) : s +:+ "" = s.
Proof. induction s as [|c s IH]; [done|]. exact (f_equal (String.String c) IH). Qed.

(** Elements of a list whose images are distinct. *)
Lemma NoDup_fmap_eq {A B} (f : A → B) (l : list A) x y :
  NoDup (f <$> l) → x ∈ l → y ∈ l → f x = f y → x = y.
Proof.
  induction l as [|z l IH]; simpl; intros Hnd Hx Hy Hf; [by apply not_elem_of_nil in Hx|].
  apply NoDup_cons in Hnd as [Hz Hnd].
  apply elem_of_cons in Hx as [->|Hx], Hy as [->|Hy]; [done| | |by apply IH].
  - destruct Hz. rewrite Hf. by apply list_elem_of_fmap_2.
  - destruct Hz. rewrite <- Hf. by apply list_elem_of_fmap_2.
Qed.
