(* ===== verification/Bytes.v ===== *)
(** * Octet strings, machine integers and the bounded reader

    Python's [bytes] is a list of [Byte.byte]; [struct] and [int.to_bytes] are the big-endian
    encodings below. [Reader] is the cursor shared by the two [_Reader] classes of
    [easymesh_payloads.py] and [wire/topology_values.py]; [reads] is its compositional
    specification, from which every round trip of a value codec is derived. *)

From S2P Require Import Prelude.
From Stdlib Require Export Strings.Byte.

Abbreviation bytes := (list byte).

#[export] Instance byte_eq_dec : EqDecision byte := Byte.byte_eq_dec.
#[export] Program Instance byte_countable : Countable byte :=
  inj_countable Byte.to_N Byte.of_N _.
Next Obligation. apply Byte.of_to_N. Qed.

(** [b[i]]: an octet as an integer; and [bytes([z])] for [0 <= z < 256]. *)
Definition byte_to_Z (b : byte) : Z := Z.of_N (Byte.to_N b).
Definition Z_to_byte (z : Z) : byte :=
  default "000"%byte (Byte.of_N (Z.to_N (z mod 256))).

(** A literal octet string. *)
Definition octets (l : list Z) : bytes := Z_to_byte <$> l.

(** [len(b)] *)
Definition len {A} (l : list A) : Z := Z.of_nat (length l).

(** [b[lo:hi]] with non-negative bounds: Python clamps both to the length. *)
Definition slice {A} (lo hi : nat) (l : list A) : list A := take (hi - lo) (drop lo l).

(** Big-endian unsigned integers: [z.to_bytes(n, "big")], [int.from_bytes(b, "big")]. *)
Fixpoint be_bytes (n : nat) (z : Z) : bytes :=
  match n with
  | O => []
  | S n => be_bytes n (z / 256) ++ [Z_to_byte z]
  end.

Definition be_int (b : bytes) : Z := foldl (λ acc x, acc * 256 + byte_to_Z x) 0 b.

(** Little-endian, for the HE MCS maps. *)
Definition le_bytes (n : nat) (z : Z) : bytes := reverse (be_bytes n z).
Definition le_int (b : bytes) : Z := be_int (reverse b).

(** One octet in two's complement: [z.to_bytes(1, signed=True)] and back. *)
Definition signed_octet (z : Z) : byte := Z_to_byte z.
Definition octet_signed (b : byte) : Z :=
  let z := byte_to_Z b in if z <? 128 then z else z - 256.

(** ** Octets and integers *)

Lemma byte_to_Z_range b : 0 ≤ byte_to_Z b < 256.
Proof. unfold byte_to_Z. pose proof (Byte.to_N_bounded b). lia. Qed.

Lemma Z_to_byte_to_Z b : Z_to_byte (byte_to_Z b) = b.
Proof.
  unfold Z_to_byte. rewrite Z.mod_small by apply byte_to_Z_range.
  unfold byte_to_Z. rewrite N2Z.id, Byte.of_to_N. done.
Qed.

Lemma byte_to_Z_to_byte z : byte_to_Z (Z_to_byte z) = z mod 256.
Proof.
  unfold Z_to_byte, byte_to_Z.
  assert (Hb : 0 ≤ z mod 256 < 256) by (apply Z.mod_pos_bound; lia).
  destruct (Byte.of_N _) as [b|] eqn:E.
  - apply Byte.to_of_N in E. simpl. rewrite E. lia.
  - apply Byte.of_N_None_iff in E. lia.
Qed.

Lemma byte_to_Z_to_byte_small z : 0 ≤ z < 256 → byte_to_Z (Z_to_byte z) = z.
Proof. intros. rewrite byte_to_Z_to_byte. by apply Z.mod_small. Qed.

#[export] Instance byte_to_Z_inj : Inj (=) (=) byte_to_Z.
Proof. intros x y H. by rewrite <- (Z_to_byte_to_Z x), H, Z_to_byte_to_Z. Qed.

Lemma octet_signed_range b : -128 ≤ octet_signed b ≤ 127.
Proof. unfold octet_signed. pose proof (byte_to_Z_range b). destruct (_ <? _) eqn:?; bools; lia. Qed.

Lemma octet_signed_encode z : -128 ≤ z ≤ 127 → octet_signed (signed_octet z) = z.
Proof.
  intros. unfold octet_signed, signed_octet. rewrite byte_to_Z_to_byte.
  destruct (decide (0 ≤ z)).
  - rewrite Z.mod_small by lia. destruct (_ <? _) eqn:?; bools; lia.
  - replace (z mod 256) with (z + 256).
    + destruct (_ <? _) eqn:?; bools; lia.
    + apply Z.mod_unique with (-1); lia.
Qed.

Lemma signed_octet_decode b : signed_octet (octet_signed b) = b.
Proof.
  unfold octet_signed, signed_octet. pose proof (byte_to_Z_range b).
  destruct (_ <? _); [apply Z_to_byte_to_Z|].
  apply (inj byte_to_Z). rewrite byte_to_Z_to_byte.
  symmetry. apply Z.mod_unique with (-1); lia.
Qed.

Lemma be_bytes_length n z : length (be_bytes n z) = n.
Proof. revert z; induction n as [|n IH]; intros z; simpl; [done|]. rewrite length_app, IH. simpl. lia. Qed.

Lemma be_int_snoc l b : be_int (l ++ [b]) = be_int l * 256 + byte_to_Z b.
Proof. unfold be_int. by rewrite foldl_app. Qed.

Lemma be_int_be_bytes n z : 0 ≤ z < 256 ^ Z.of_nat n → be_int (be_bytes n z) = z.
Proof.
  revert z; induction n as [|n IH]; intros z Hz; cbn [be_bytes].
  - simpl in Hz. unfold be_int; simpl. lia.
  - rewrite be_int_snoc, byte_to_Z_to_byte, IH.
    + rewrite Z.mul_comm. symmetry. apply Z.div_mod. lia.
    + rewrite Nat2Z.inj_succ, Z.pow_succ_r in Hz by lia.
      split; [apply Z.div_pos; lia | apply Z.div_lt_upper_bound; lia].
Qed.

Lemma be_int_range l : 0 ≤ be_int l < 256 ^ Z.of_nat (length l).
Proof.
  induction l as [|b l IH] using rev_ind; [unfold be_int; simpl; lia|].
  rewrite be_int_snoc, length_app, Nat2Z.inj_add, Z.pow_add_r by lia.
  pose proof (byte_to_Z_range b). change (256 ^ Z.of_nat (length [b])) with 256. nia.
Qed.

Lemma be_bytes_be_int l n : n = length l → be_bytes n (be_int l) = l.
Proof.
  intros ->. induction l as [|b l IH] using rev_ind; [done|].
  rewrite be_int_snoc, length_app, Nat.add_comm. cbn [be_bytes length Nat.add].
  pose proof (byte_to_Z_range b).
  replace ((be_int l * 256 + byte_to_Z b) / 256) with (be_int l)
    by (apply Z.div_unique with (byte_to_Z b); lia).
  rewrite IH. do 2 f_equal. rewrite <- (Z_to_byte_to_Z b) at 2.
  apply (inj byte_to_Z). rewrite !byte_to_Z_to_byte.
  rewrite Z.add_comm, Z.mod_add by lia. done.
Qed.

Lemma le_bytes_length n z : length (le_bytes n z) = n.
Proof. unfold le_bytes. by rewrite length_reverse, be_bytes_length. Qed.

Lemma le_int_le_bytes n z : 0 ≤ z < 256 ^ Z.of_nat n → le_int (le_bytes n z) = z.
Proof. intros. unfold le_int, le_bytes. rewrite reverse_involutive. by apply be_int_be_bytes. Qed.

Lemma le_int_range l : 0 ≤ le_int l < 256 ^ Z.of_nat (length l).
Proof. unfold le_int. rewrite <- length_reverse. apply be_int_range. Qed.

Lemma le_bytes_le_int l n : n = length l → le_bytes n (le_int l) = l.
Proof.
  intros ->. unfold le_bytes, le_int. rewrite be_bytes_be_int by by rewrite length_reverse.
  apply reverse_involutive.
Qed.

Lemma slice_app {A} (l1 l2 l3 : list A) lo hi :
  lo = length l1 → hi = (length l1 + length l2)%nat → slice lo hi (l1 ++ l2 ++ l3) = l2.
Proof.
  intros -> ->. unfold slice. rewrite drop_app_length.
  apply take_app_exact. lia.
Qed.

Lemma slice_length {A} (l : list A) lo hi :
  (hi ≤ length l)%nat → length (slice lo hi l) = (hi - lo)%nat.
Proof. intros. unfold slice. rewrite length_take, length_drop. lia. Qed.

Lemma slice_join {A} (l : list A) a m c :
  (a ≤ m ≤ c)%nat → slice a m l ++ slice m c l = slice a c l.
Proof.
  intros Ho. unfold slice. replace (drop m l) with (drop (m - a) (drop a l)) by (rewrite drop_drop; f_equal; lia).
  replace (c - a)%nat with ((m - a) + (c - m))%nat by lia. apply take_take_drop.
Qed.

Lemma slice_all {A} (l : list A) n : n = length l → slice 0 n l = l.
Proof. intros ->. unfold slice. rewrite drop_0, Nat.sub_0_r. by apply take_ge. Qed.

(** Consecutive records of [k] octets. *)
Lemma chunks_join {A} (data : list A) k off n :
  concat ((λ i, slice (off + k * i) (off + k * i + k) data) <$> seq 0 n) = slice off (off + k * n) data.
Proof.
  induction n as [|n IH]; [unfold slice; simpl; by rewrite Nat.mul_0_r, Nat.add_0_r, Nat.sub_diag|].
  rewrite seq_S, fmap_app, concat_app, IH. simpl. rewrite app_nil_r, slice_join by lia. f_equal. lia.
Qed.

Lemma chunks_of {A} (pre post : list A) k (rs : list (list A)) :
  Forall (λ r, length r = k) rs →
  (λ i, slice (length pre + k * i) (length pre + k * i + k) (pre ++ concat rs ++ post)) <$> seq 0 (length rs) = rs.
Proof.
  intros Hall. revert pre. induction Hall as [|r rs Hr _ IH]; intros pre; [done|].
  cbn [length concat]. rewrite <- cons_seq, <- fmap_S_seq, fmap_cons, <- list_fmap_compose. f_equal.
  - rewrite Nat.mul_0_r, Nat.add_0_r. unfold slice. rewrite drop_app_length, <- app_assoc.
    apply take_app_exact. lia.
  - rewrite <- (IH (pre ++ r)) at 2. apply list_fmap_ext. intros i n _. simpl.
    rewrite <- !app_assoc, length_app, Hr. f_equal; lia.
Qed.

(** A field of a record laid out as consecutive fields. *)
Lemma slice_field {A} (fs : list (list A)) k f lo hi :
  fs !! k = Some f → lo = length (concat (take k fs)) → hi = (lo + length f)%nat → slice lo hi (concat fs) = f.
Proof.
  intros Hk -> ->. rewrite <- (take_drop_middle fs k f Hk) at 3. rewrite concat_app. simpl. by apply slice_app.
Qed.

Lemma len_app {A} (l1 l2 : list A) : len (l1 ++ l2) = len l1 + len l2.
Proof. unfold len. rewrite length_app. lia. Qed.

Lemma octets_length l : length (octets l) = length l.
Proof. apply length_fmap. Qed.

Create Rewrite HintDb lens.
#[export] Hint Rewrite be_bytes_length le_bytes_length octets_length @length_app @length_cons
  @length_nil @length_take @length_drop @length_fmap : lens.

(** Normalise the lengths of octet strings and decide. *)
Ltac len_lia := unfold len in *; autorewrite with lens in *; simpl in *; lia.

(** ** The bounded reader *)

(** The state of a [_Reader]: the value and the offset of the next octet. *)
Record Reader := mkReader { r_value : bytes; r_offset : nat }.

(** [take(length)]: the next octets, or the error [e] when fewer remain; a failed read leaves the
    offset where it was. *)
Definition take_or (e : EmosaError) (n : nat) : M Reader bytes := λ r,
  let stop := (r_offset r + n)%nat in
  if bool_decide (length (r_value r) < stop)%nat then (Raise e, r)
  else (Ok (slice (r_offset r) stop (r_value r)), mkReader (r_value r) stop).

(** [take(1)[0]] *)
Definition octet_or (e : EmosaError) : M Reader Z :=
  b ← take_or e 1; mret (be_int b).

(** [finish()]: every octet was read. *)
Definition finish_or (e : EmosaError) : M Reader unit := λ r,
  (if bool_decide (r_offset r = length (r_value r)) then Ok tt else Raise e, r).

(** [m] reads exactly the octets [bs] and returns [a], whatever surrounds them. *)
Definition reads {A} (m : M Reader A) (a : A) (bs : bytes) : Prop :=
  ∀ pre rest,
    m (mkReader (pre ++ bs ++ rest) (length pre)) =
    (Ok a, mkReader (pre ++ bs ++ rest) (length pre + length bs)).

(** Whatever [m] accepts is a segment of the input related to the result by [R]. *)
Definition yields {A} (m : M Reader A) (R : A → bytes → Prop) : Prop :=
  ∀ pre s a r',
    m (mkReader (pre ++ s) (length pre)) = (Ok a, r') →
    ∃ bs rest, s = bs ++ rest ∧ R a bs ∧ r' = mkReader (pre ++ s) (length pre + length bs).

Create HintDb reads discriminated.

Lemma reads_ret {A} (a : A) : reads (mret a) a [].
Proof. intros pre rest. simpl. by rewrite Nat.add_0_r. Qed.

Lemma reads_bind {A B} (m : M Reader A) (f : A → M Reader B) a b bs1 bs2 :
  reads m a bs1 → reads (f a) b bs2 → reads (m ≫= f) b (bs1 ++ bs2).
Proof.
  intros H1 H2 pre rest. unfold mbind, M_mbind.
  rewrite <- (app_assoc bs1), H1.
  specialize (H2 (pre ++ bs1) rest).
  rewrite length_app, <- !app_assoc in H2. rewrite H2.
  by rewrite length_app, Nat.add_assoc.
Qed.

(** A check that reads nothing. *)
Lemma reads_lift_bind {A B} (r : result A) (f : A → M Reader B) a b bs :
  r = Ok a → reads (f a) b bs → reads (lift r ≫= f) b bs.
Proof. intros -> H pre rest. apply H. Qed.

Lemma reads_bind_ret {A B} (m : M Reader A) (g : A → B) a bs :
  reads m a bs → reads (x ← m; mret (g x)) (g a) bs.
Proof.
  intros H. rewrite <- (app_nil_r bs). eapply reads_bind; [done|]. apply reads_ret.
Qed.

Lemma reads_eq {A} (m : M Reader A) a bs a' bs' :
  reads m a bs → a = a' → bs = bs' → reads m a' bs'.
Proof. by intros ? <- <-. Qed.

Lemma reads_take e n bs : length bs = n → reads (take_or e n) bs bs.
Proof.
  intros <- pre rest. unfold take_or; simpl.
  rewrite bool_decide_eq_false_2 by (rewrite !length_app; lia).
  by rewrite slice_app.
Qed.

Lemma reads_octet e z : 0 ≤ z < 256 → reads (octet_or e) z [Z_to_byte z].
Proof.
  intros Hz. unfold octet_or. eapply reads_eq;
    [apply reads_bind_ret, (reads_take e 1 [Z_to_byte z]); done| |done].
  unfold be_int; simpl. by rewrite byte_to_Z_to_byte_small.
Qed.

Lemma reads_octet_byte e b : reads (octet_or e) (byte_to_Z b) [b].
Proof.
  rewrite <- (Z_to_byte_to_Z b) at 2. apply reads_octet, byte_to_Z_range.
Qed.

Lemma reads_repeat_map {A B} (m : M Reader B) (g : A → B) (enc : A → bytes) (l : list A) n :
  n = length l → (∀ x, x ∈ l → reads m (g x) (enc x)) → reads (repeat_M n m) (g <$> l) (l ≫= enc).
Proof.
  intros ->. induction l as [|x l IH]; intros H; simpl; [apply reads_ret|].
  change (enc x ++ mbind enc l) with (enc x ++ (l ≫= enc)).
  eapply reads_bind; [apply H, list_elem_of_here|].
  apply reads_bind_ret with (g := cons (g x)). apply IH. intros y Hy. by apply H, list_elem_of_further.
Qed.

Lemma reads_repeat {A} (m : M Reader A) (enc : A → bytes) (l : list A) n :
  n = length l → (∀ x, x ∈ l → reads m x (enc x)) → reads (repeat_M n m) l (l ≫= enc).
Proof.
  intros Hn H. eapply reads_eq; [apply (reads_repeat_map m id enc l n Hn H)| |done].
  apply list_fmap_id.
Qed.

(** A reader over a whole value: decoding what was encoded succeeds and ends at its end. *)
Lemma reads_whole {A} (m : M Reader A) a bs e :
  reads m a bs → (x ← m; _ ← finish_or e; mret x) (mkReader bs 0) = (Ok a, mkReader bs (length bs)).
Proof.
  intros H. specialize (H [] []). rewrite app_nil_r in H. simpl in H.
  unfold mbind, M_mbind. rewrite H. unfold finish_or; simpl.
  by rewrite bool_decide_eq_true_2.
Qed.

(** ** What a reader accepts *)

Lemma yields_ret {A} (a : A) (R : A → bytes → Prop) : R a [] → yields (mret a) R.
Proof.
  intros HR pre s x r' [= <- <-]. exists [], s. simpl. by rewrite Nat.add_0_r.
Qed.

Lemma yields_bind {A B} (m : M Reader A) (f : A → M Reader B) R1 R2 (R : B → bytes → Prop) :
  yields m R1 → (∀ a, yields (f a) (R2 a)) →
  (∀ a b bs1 bs2, R1 a bs1 → R2 a b bs2 → R b (bs1 ++ bs2)) → yields (m ≫= f) R.
Proof.
  intros H1 H2 HR pre s b r' (a & r1 & Hm & Hf)%M_bind_Ok.
  apply H1 in Hm as (bs1 & rest1 & -> & HR1 & ->).
  rewrite app_assoc, <- length_app in Hf.
  apply H2 in Hf as (bs2 & rest2 & -> & HR2 & ->).
  exists (bs1 ++ bs2), rest2. rewrite <- !app_assoc, !length_app, Nat.add_assoc. eauto.
Qed.

Lemma yields_weaken {A} (m : M Reader A) (R R' : A → bytes → Prop) :
  yields m R → (∀ a bs, R a bs → R' a bs) → yields m R'.
Proof. intros H HR pre s a r' Hm. destruct (H _ _ _ _ Hm) as (bs & rest & ? & ? & ?). eauto 10. Qed.

Lemma yields_take e n : yields (take_or e n) (λ a bs, a = bs ∧ length bs = n).
Proof.
  intros pre s a r' Hm. unfold take_or in Hm; simpl in Hm.
  destruct (bool_decide _) eqn:E; [done|]. apply bool_decide_eq_false in E.
  rewrite length_app in E. injection Hm as <- <-.
  assert (Hn : (n ≤ length s)%nat) by lia.
  exists (take n s), (drop n s). rewrite take_drop, length_take_le by done.
  unfold slice. rewrite drop_app_length.
  replace (length pre + n - length pre)%nat with n by lia. auto.
Qed.

Lemma yields_octet e : yields (octet_or e) (λ z bs, 0 ≤ z < 256 ∧ bs = [Z_to_byte z]).
Proof.
  unfold octet_or. eapply yields_bind; [apply yields_take | intros; by apply yields_ret with (R := λ z bs, z = be_int a ∧ bs = [])|].
  intros a b bs1 bs2 [-> Hl] [-> ->]. destruct bs1 as [|x [|]]; try done.
  change (be_int [x]) with (byte_to_Z x). rewrite Z_to_byte_to_Z.
  split; [apply byte_to_Z_range | done].
Qed.

Lemma yields_repeat {A} n (m : M Reader A) (R : A → bytes → Prop) :
  yields m R →
  yields (repeat_M n m) (λ l bs, length l = n ∧ ∃ bss, bs = concat bss ∧ Forall2 R l bss).
Proof.
  intros Hm. induction n as [|n IH]; simpl.
  - apply yields_ret. split; [done|]. exists []. auto.
  - eapply yields_bind with (R2 := λ x l bs, ∃ l', l = x :: l' ∧ length l' = n ∧
      ∃ bss, bs = concat bss ∧ Forall2 R l' bss); [apply Hm| |].
    + intros x. eapply yields_bind; [apply IH|intros; by apply yields_ret with (R := λ l bs, l = x :: a ∧ bs = [])|].
      intros l' l bs1 bs2 (? & bss & -> & ?) [-> ->]. exists l'. split; [done|]. split; [done|].
      exists bss. by rewrite app_nil_r.
    + intros x l bs1 bs2 HR (l' & -> & ? & bss & -> & ?). split; [simpl; lia|].
      exists (bs1 :: bss). split; [done|]. by constructor.
Qed.

Lemma yields_whole {A} (m : M Reader A) R bs e a r' :
  yields m R → (x ← m; _ ← finish_or e; mret x) (mkReader bs 0) = (Ok a, r') → R a bs.
Proof.
  intros H (x & r1 & Hm & Hf)%M_bind_Ok. apply (H []) in Hm as (b & rest & -> & HR & ->).
  apply M_bind_Ok in Hf as ([] & r2 & Hf & [= <- _]). unfold finish_or in Hf; simpl in Hf.
  destruct (bool_decide _) eqn:E; [|done]. apply bool_decide_eq_true in E.
  rewrite length_app in E. destruct rest; [|simpl in E; lia]. by rewrite app_nil_r.
Qed.

#[export] Hint Resolve reads_ret reads_octet_byte : reads.
