(* ===== verification/Cmdu.v ===== *)
(** * The IEEE 1905.1 / EasyMesh envelope: [src/emosa/wire/cmdu.py]

    TLVs, Ethernet fragments, TLV-boundary fragmentation, the MID sequence and the duplicate
    window. The reassembler of the same file is in [Reassembly]. *)

From Equations Require Import Equations.
From S2P Require Import Prelude Bytes.

(** Time is in milliseconds: [5.0] seconds is [seconds 5]. *)
Definition seconds (n : Z) : Z := 1000 * n.

Definition ETHERTYPE : Z := 0x893A.
Definition MULTICAST : bytes := octets [0x01; 0x80; 0xc2; 0x00; 0x00; 0x13].
Definition HEADER_SIZE : Z := 8.
Definition MAX_CMDU : Z := 1500.
Definition MAX_VALUE : Z := 0x3FFF.
Definition MAX_TLVS : Z := 256.
Definition END : bytes := octets [0; 0; 0].

Definition invalid {A} (m : string) : result A := Raise (mkEmosaError INVALID_INPUT m).

Definition uint (value bits : Z) (label : string) : result Z :=
  if bool_decide (0 ≤ value < 2 ^ bits) then Ok value else invalid ("invalid " +:+ label).

Definition mac (value : bytes) : result bytes :=
  if bool_decide (length value = 6%nat) then Ok value
  else invalid "MAC address must contain six octets".

(** An octet of a string at an index the caller has checked. *)
Definition octet_at (i : nat) (b : bytes) : Z := from_option byte_to_Z 0 (b !! i).

(** ** TLVs *)

Record Tlv := mkTlv { kind : Z; tlv_value : bytes }.

#[export] Instance Tlv_eq_dec : EqDecision Tlv.
Proof. solve_decision. Defined.

(** [Tlv.encode] *)
Definition encode_tlv (t : Tlv) : result bytes :=
  _ ← uint (kind t) 8 "TLV type";
  _ ← raise_if (bool_decide (kind t = 0) || bool_decide (MAX_VALUE < len (tlv_value t)))
        INVALID_INPUT "invalid TLV value or explicit end marker";
  Ok (be_bytes 1 (kind t) ++ be_bytes 2 (len (tlv_value t)) ++ tlv_value t).

(** [parse_tlvs]: the [while offset < len(payload)] loop with its accumulator. *)
Equations? parse_tlvs_from (payload : bytes) (final : bool) (offset : nat) (tlvs : list Tlv) :
    result (list Tlv) by wf (length payload - offset)%nat lt :=
  parse_tlvs_from payload final offset tlvs with decide (offset < length payload)%nat => {
    | right _ =>
        if final then invalid "missing final end marker"
        else if bool_decide (tlvs = []) then invalid "empty non-final fragment"
        else Ok tlvs;
    | left _ with decide (length payload - offset < 3)%nat => {
        | left _ => invalid "truncated TLV header";
        | right _ =>
            let k := octet_at offset payload in
            let n := Z.land (be_int (slice (offset + 1) (offset + 3) payload)) MAX_VALUE in
            let start := (offset + 3)%nat in
            if bool_decide (k = 0) then
              if bool_decide (n ≠ 0) || negb final then invalid "invalid or non-final end marker"
              else Ok tlvs
            else if bool_decide (len payload < Z.of_nat start + n) then
              invalid "truncated TLV value or unsupported octet-boundary fragmentation"
            else if bool_decide (MAX_TLVS ≤ len tlvs) then
              invalid "TLV count exceeds local budget"
            else
              let stop := (start + Z.to_nat n)%nat in
              parse_tlvs_from payload final stop (tlvs ++ [mkTlv k (slice start stop payload)])
        } }.
Proof. lia. Qed.

Definition parse_tlvs (payload : bytes) (final : bool) : result (list Tlv) :=
  parse_tlvs_from payload final 0 [].

(** ** Fragments *)

Record Fragment := mkFragment {
  destination : bytes;
  source : bytes;
  message_type : Z;
  mid : Z;
  fid : Z;
  last : bool;
  relay : bool;
  payload : bytes;
  version : Z
}.

(** [HEADER.pack(version, reserved, type, mid, fid, flags)] *)
Definition pack_header (version reserved message_type mid fid flags : Z) : bytes :=
  be_bytes 1 version ++ be_bytes 1 reserved ++ be_bytes 2 message_type ++ be_bytes 2 mid
    ++ be_bytes 1 fid ++ be_bytes 1 flags.

(** [Fragment.encode] *)
Definition encode_fragment (f : Fragment) : result bytes :=
  _ ← mac (destination f);
  _ ← mac (source f);
  _ ← uint (message_type f) 16 "message type";
  _ ← uint (mid f) 16 "MID";
  _ ← uint (fid f) 8 "FID";
  _ ← raise_if (bool_decide (version f ≠ 0)) INVALID_INPUT
        "cannot transmit reserved version or invalid flags";
  _ ← raise_if (bool_decide (MAX_CMDU - HEADER_SIZE < len (payload f))) INVALID_INPUT
        "fragment exceeds Ethernet CMDU budget";
  let header := pack_header 0 0 (message_type f) (mid f) (fid f)
    (Z.lor (if last f then 0x80 else 0) (if relay f then 0x40 else 0)) in
  Ok (destination f ++ source f ++ be_bytes 2 ETHERTYPE ++ header ++ payload f).

(** [decode_frame] *)
Definition decode_frame (frame : bytes) : result Fragment :=
  _ ← raise_if (negb (bool_decide (22 ≤ len frame ≤ 14 + MAX_CMDU))) INVALID_INPUT
        "truncated or oversized Ethernet frame";
  _ ← raise_if (bool_decide (be_int (slice 12 14 frame) ≠ ETHERTYPE)) INVALID_INPUT
        "not an untagged IEEE 1905 Ethernet frame";
  let flags := octet_at 21 frame in
  Ok (mkFragment (slice 0 6 frame) (slice 6 12 frame)
        (be_int (slice 16 18 frame)) (be_int (slice 18 20 frame)) (octet_at 20 frame)
        (bool_decide (Z.land flags 0x80 ≠ 0)) (bool_decide (Z.land flags 0x40 ≠ 0))
        (drop 22 frame) (octet_at 14 frame)).

(** ** TLV-boundary fragmentation *)

(** The loop of [fragment_message]: the closed chunks and the current one. *)
Fixpoint fragment_chunks (budget : Z) (tlvs : list Tlv) (chunks : list bytes) (current : bytes) :
    result (list bytes * bytes) :=
  match tlvs with
  | [] => Ok (chunks, current)
  | tlv :: tlvs =>
      encoded ← encode_tlv tlv;
      _ ← raise_if (bool_decide (budget < len encoded + len END)) INVALID_INPUT
            "TLV too large for supported TLV-boundary fragmentation";
      if bool_decide (budget < len current + len encoded + len END) then
        fragment_chunks budget tlvs (chunks ++ [current]) encoded
      else fragment_chunks budget tlvs chunks (current ++ encoded)
  end.

(** [fragment_message] *)
Definition fragment_message (destination source : bytes) (message_type mid : Z) (tlvs : list Tlv)
    (relay : bool) (mtu : Z) : result (list bytes) :=
  _ ← raise_if (negb (bool_decide (14 ≤ mtu ≤ MAX_CMDU))) INVALID_INPUT "invalid CMDU MTU";
  _ ← raise_if (bool_decide (MAX_TLVS < len tlvs)) INVALID_INPUT "TLV count exceeds local budget";
  '(closed, current) ← fragment_chunks (mtu - HEADER_SIZE) tlvs [] [];
  let chunks := closed ++ [current ++ END] in
  _ ← raise_if (bool_decide (64 < len chunks)) INVALID_INPUT "fragment count exceeds local budget";
  map_result (λ p : nat * bytes,
      encode_fragment (mkFragment destination source message_type mid (Z.of_nat (fst p))
        (bool_decide (Z.of_nat (fst p) = len chunks - 1)) relay (snd p) 0))
    (imap pair chunks).

(** ** A complete message *)

Record Message := mkMessage {
  m_destination : bytes;
  m_source : bytes;
  m_message_type : Z;
  m_mid : Z;
  m_relay : bool;
  m_tlvs : list Tlv;
  m_fragments : Z
}.

(** ** Message identifiers: [MidSequence] *)

(** Its state is [previous]. *)
Definition MidSequence_init (previous : Z) : result Z := uint previous 16 "previous MID".

(** [next] *)
Definition next_mid (previous : Z) : Z := Z.land (previous + 1) 0xFFFF.

(** ** The duplicate window: [DuplicateWindow] *)

Record DuplicateWindow := mkDuplicateWindow {
  dw_timeout : Z;
  dw_capacity : Z;
  dw_entries : gmap (bytes * Z) Z
}.
#[export] Instance eta_DuplicateWindow : Eta DuplicateWindow := λ w,
  mkDuplicateWindow (dw_timeout w) (dw_capacity w) (dw_entries w).

Definition DuplicateWindow_init (timeout capacity : Z) : result DuplicateWindow :=
  _ ← raise_if (negb (bool_decide (0 < timeout ≤ seconds 3600))
                || negb (bool_decide (1 ≤ capacity ≤ 65536))) INVALID_INPUT
        "invalid duplicate window";
  Ok (mkDuplicateWindow timeout capacity ∅).

(** [seen(origin_al, mid)], with the clock reading [now]. *)
Definition seen (now : Z) (origin_al : bytes) (mid : Z) : M DuplicateWindow bool :=
  _ ← modify (λ w, w <| dw_entries := filter (λ kv, now < snd kv) (dw_entries w) |>);
  al ← lift (mac origin_al);
  id ← lift (uint mid 16 "MID");
  w ← get;
  if bool_decide (is_Some (dw_entries w !! (al, id))) then mret true
  else if bool_decide (dw_capacity w ≤ Z.of_nat (size (dw_entries w))) then
    raise BUSY "duplicate window budget exhausted"
  else
    _ ← put (w <| dw_entries := <[(al, id) := now + dw_timeout w]> (dw_entries w) |>);
    mret false.

(** * Theory *)

(** ** TLVs *)

(** What [Tlv.encode] accepts, and what it then writes. *)
Definition tlv_ok (t : Tlv) : Prop := 0 < kind t < 256 ∧ len (tlv_value t) ≤ MAX_VALUE.

Definition tlv_bytes (t : Tlv) : bytes :=
  be_bytes 1 (kind t) ++ be_bytes 2 (len (tlv_value t)) ++ tlv_value t.

Lemma uint_Ok v bits l x : uint v bits l = Ok x ↔ x = v ∧ 0 ≤ v < 2 ^ bits.
Proof. unfold uint. case_bool_decide; naive_solver. Qed.

Lemma uint_fits v bits l : 0 ≤ v < 2 ^ bits → uint v bits l = Ok v.
Proof. intros. by apply uint_Ok. Qed.

Lemma mac_Ok b x : mac b = Ok x ↔ x = b ∧ length b = 6%nat.
Proof. unfold mac. case_bool_decide; naive_solver. Qed.

Lemma encode_tlv_Ok t b : encode_tlv t = Ok b ↔ tlv_ok t ∧ b = tlv_bytes t.
Proof.
  unfold encode_tlv, tlv_ok. split.
  - intros H. inv_ok. match goal with H : uint _ _ _ = Ok _ |- _ => apply uint_Ok in H as [-> ?] end.
    bools. split; [|done]. change (2 ^ 8) with 256 in *. lia.
  - intros [[Hk Hl] ->]. rewrite uint_fits by (change (2 ^ 8) with 256; lia). simpl.
    rewrite !bool_decide_eq_false_2 by lia. done.
Qed.

Lemma tlv_bytes_length t : length (tlv_bytes t) = (3 + length (tlv_value t))%nat.
Proof. unfold tlv_bytes. autorewrite with lens. lia. Qed.

Lemma slice_one (data : bytes) i : (i < length data)%nat → slice i (i + 1) data = octets [octet_at i data].
Proof.
  intros Hi. unfold slice. replace (i + 1 - i)%nat with 1%nat by lia.
  destruct (lookup_lt_is_Some_2 _ _ Hi) as [b Hb]. unfold octet_at. rewrite Hb. simpl.
  rewrite Z_to_byte_to_Z. rewrite <- (take_drop_middle _ _ _ Hb) at 1.
  rewrite drop_app_exact; [done|]. rewrite length_take. lia.
Qed.

(** The grammar of a fragment payload: a sequence of TLVs whose two length octets carry the length
    in their low fourteen bits, closed by an end marker and any padding when final. *)
Inductive layout : bool → bytes → list Tlv → Prop :=
  | layout_end hdr pad :
      length hdr = 2%nat → Z.land (be_int hdr) MAX_VALUE = 0 →
      layout true (Z_to_byte 0 :: hdr ++ pad) []
  | layout_stop : layout false [] []
  | layout_tlv final k hdr v rest tlvs :
      k ≠ Z_to_byte 0 → length hdr = 2%nat → Z.land (be_int hdr) MAX_VALUE = len v →
      layout final rest tlvs →
      layout final (k :: hdr ++ v ++ rest) (mkTlv (byte_to_Z k) v :: tlvs).
#[export] Hint Constructors layout : emosa.

Lemma octet_at_app pre b rest n : n = length pre → octet_at n (pre ++ b :: rest) = byte_to_Z b.
Proof. intros ->. unfold octet_at. by rewrite list_lookup_middle. Qed.

(** One turn of the loop, on the octets from its offset on. *)
Lemma parse_tlvs_from_step pre s final acc :
  parse_tlvs_from (pre ++ s) final (length pre) acc =
  match s with
  | [] => if final then invalid "missing final end marker"
          else if bool_decide (acc = []) then invalid "empty non-final fragment" else Ok acc
  | k :: h1 :: h2 :: body =>
      let n := Z.land (be_int [h1; h2]) MAX_VALUE in
      if bool_decide (byte_to_Z k = 0) then
        if bool_decide (n ≠ 0) || negb final then invalid "invalid or non-final end marker"
        else Ok acc
      else if bool_decide (len body < n) then
        invalid "truncated TLV value or unsupported octet-boundary fragmentation"
      else if bool_decide (MAX_TLVS ≤ len acc) then invalid "TLV count exceeds local budget"
      else
        let v := take (Z.to_nat n) body in
        parse_tlvs_from ((pre ++ k :: h1 :: h2 :: v) ++ drop (Z.to_nat n) body) final
          (length (pre ++ k :: h1 :: h2 :: v)) (acc ++ [mkTlv (byte_to_Z k) v])
  | _ => invalid "truncated TLV header"
  end.
Proof.
  rewrite parse_tlvs_from_equation_1. unfold parse_tlvs_from_unfold_clause_1.
  pose proof (length_app pre s) as Happ. destruct (decide _) as [Hlt|Hge].
  2:{ destruct s; simpl in *; [done|lia]. }
  unfold parse_tlvs_from_unfold_clause_1_clause_2. destruct (decide _) as [H3|H3].
  { destruct s as [|? [|? [|]]]; simpl in *; try done; lia. }
  destruct s as [|k [|h1 [|h2 body]]]; try (simpl in Happ; lia).
  rewrite octet_at_app by done.
  replace (slice (length pre + 1) (length pre + 3) (pre ++ k :: h1 :: h2 :: body)) with [h1; h2].
  2:{ symmetry. rewrite (cons_middle k), app_assoc. apply (slice_app _ [h1; h2]); len_lia. }
  set (n := Z.land _ _).
  assert (Hn : 0 ≤ n) by (apply Z.land_nonneg; by right).
  destruct (bool_decide (byte_to_Z k = 0)); [done|].
  rewrite (bool_decide_ext (len _ < _) (len body < n)) by len_lia.
  case_bool_decide as Hl; [done|]. case_bool_decide; [done|].
  set (v := take (Z.to_nat n) body).
  assert (Hv : length v = Z.to_nat n) by (unfold v, len in *; rewrite length_take; lia).
  assert (Hbody : v ++ drop (Z.to_nat n) body = body) by apply take_drop.
  rewrite <- app_assoc. simpl. rewrite Hbody. f_equal; [len_lia|].
  do 3 f_equal. rewrite <- Hbody.
  change (k :: h1 :: h2 :: ?x) with ([k; h1; h2] ++ x). rewrite app_assoc.
  apply slice_app; len_lia.
Qed.

Lemma layout_header_inv final k h1 h2 body l :
  layout final (k :: h1 :: h2 :: body) l ↔
  let n := Z.land (be_int [h1; h2]) MAX_VALUE in
  (byte_to_Z k = 0 ∧ final = true ∧ n = 0 ∧ l = []) ∨
  (byte_to_Z k ≠ 0 ∧ n ≤ len body ∧ ∃ l', l = mkTlv (byte_to_Z k) (take (Z.to_nat n) body) :: l'
     ∧ layout final (drop (Z.to_nat n) body) l').
Proof.
  cbv zeta. set (n := Z.land _ _). assert (Hn : 0 ≤ n) by (apply Z.land_nonneg; by right). split.
  - inversion 1 as [hdr ? Hh| |? ? hdr ? ? ? ? Hh];
      subst; destruct hdr as [|? [|? [|]]]; simplify_eq/=; [left|right].
    + rewrite byte_to_Z_to_byte. auto.
    + unfold n. match goal with H : Z.land _ _ = len ?v |- _ => rewrite H; unfold len end.
      rewrite Nat2Z.id, take_app_length, drop_app_length, length_app.
      split; [|split; [lia|eauto]].
      intros Hk0. by apply (inj byte_to_Z k (Z_to_byte 0)) in Hk0.
  - intros [(Hk & -> & Hn0 & ->)|(Hk & Hl & l' & -> & Hlay)].
    + replace k with (Z_to_byte 0) by (by rewrite <- Hk, Z_to_byte_to_Z).
      by apply (layout_end [h1; h2]).
    + rewrite <- (take_drop (Z.to_nat n) body) at 1.
      apply (layout_tlv _ _ [h1; h2]); [|done| |done].
      * intros ->. by rewrite byte_to_Z_to_byte in Hk.
      * fold n. unfold len in *. rewrite length_take. lia.
Qed.

(** The loop accepts exactly the grammar, within the TLV budget. *)
Lemma parse_tlvs_from_layout pre s final acc r :
  len acc ≤ MAX_TLVS →
  parse_tlvs_from (pre ++ s) final (length pre) acc = Ok r ↔
  ∃ l, r = acc ++ l ∧ layout final s l ∧ (final = false → r ≠ []) ∧ len r ≤ MAX_TLVS.
Proof.
  remember (length s) as m eqn:Hm. assert (Hle : (length s ≤ m)%nat) by lia. clear Hm.
  revert pre s acc r Hle. induction m as [m IH] using lt_wf_ind; intros pre s acc r Hle Hacc.
  rewrite parse_tlvs_from_step. destruct s as [|k [|h1 [|h2 body]]].
  - split.
    + destruct final; [done|]. case_bool_decide; [done|]. intros [= <-].
      exists []. rewrite app_nil_r. auto using layout.
    + intros (l & -> & Hlay & Hne & _). inversion Hlay; subst. rewrite app_nil_r in *.
      by rewrite bool_decide_eq_false_2 by auto.
  - split; [done|]. intros (l & _ & Hlay & _).
    inversion Hlay as [hdr ? Hh| |? ? hdr ? ? ? ? Hh]; subst; destruct hdr; simplify_eq/=.
  - split; [done|]. intros (l & _ & Hlay & _).
    inversion Hlay as [hdr ? Hh| |? ? hdr ? ? ? ? Hh];
      subst; destruct hdr as [|? []]; simplify_eq/=.
  - setoid_rewrite layout_header_inv. cbv zeta. set (n := Z.land _ _).
    assert (Hn : 0 ≤ n) by (apply Z.land_nonneg; by right).
    set (v := take (Z.to_nat n) body). set (t := mkTlv (byte_to_Z k) v).
    case_bool_decide as Hk; [|case_bool_decide as Hl; [|case_bool_decide as Hb]].
    + destruct (_ || _)%bool eqn:E; bools.
      * split; [done|]. intros (l & -> & [(_ & -> & Hn0 & _)|[]] & _); [|done].
        rewrite bool_decide_eq_false_2 in E by (intros ?; done). done.
      * destruct final; [|done]. split.
        -- intros [= <-]. exists []. rewrite app_nil_r. split; [done|]. split; [|done].
           left. split; [done|]. split; [done|]. split; [|done]. by apply dec_stable.
        -- intros (l & -> & [(_ & _ & _ & ->)|[]] & _); [|done]. by rewrite app_nil_r.
    + split; [done|]. intros (l & _ & [[]|(_ & ? & _)] & _); [done|lia].
    + split; [done|]. intros (l & -> & [[]|(_ & _ & l' & -> & _)] & _ & Hlen); [done|]. len_lia.
    + rewrite (IH (length (drop (Z.to_nat n) body))); [|simpl in Hle; rewrite length_drop; lia|done|len_lia].
      split.
      * intros (l & -> & Hlay & Hne & Hlen). exists (t :: l). rewrite <- app_assoc in *.
        split; [done|]. split; [|done]. right. split; [done|]. split; [lia|]. eauto.
      * intros (l & -> & [[]|(_ & _ & l' & -> & Hlay)] & Hne & Hlen); [done|].
        exists l'. rewrite <- app_assoc. auto.
Qed.

Lemma parse_tlvs_layout p final l :
  parse_tlvs p final = Ok l ↔
  layout final p l ∧ (final = false → l ≠ []) ∧ len l ≤ MAX_TLVS.
Proof.
  pose proof (parse_tlvs_from_layout [] p final [] l) as H. simpl in H.
  unfold parse_tlvs. rewrite H by done. naive_solver.
Qed.

Lemma land_max_value z : Z.land z MAX_VALUE ≤ MAX_VALUE.
Proof.
  change MAX_VALUE with (Z.ones 14). rewrite Z.land_ones by lia.
  pose proof (Z.mod_pos_bound z (2 ^ 14) ltac:(lia)). change (Z.ones 14) with (2 ^ 14 - 1). lia.
Qed.

Lemma layout_cons_bytes final t rest l :
  tlv_ok t → layout final rest l → layout final (tlv_bytes t ++ rest) (t :: l).
Proof.
  intros [Hk Hv] Hlay. destruct t as [k v]; cbn [kind tlv_value] in *.
  unfold tlv_bytes; cbn [kind tlv_value]. rewrite <- !app_assoc.
  change (be_bytes 1 k) with [Z_to_byte k].
  replace (mkTlv k v) with (mkTlv (byte_to_Z (Z_to_byte k)) v)
    by (by rewrite byte_to_Z_to_byte_small by lia).
  apply (layout_tlv _ _ (be_bytes 2 (len v))); [|apply be_bytes_length| |done].
  - intros Hk0%(f_equal byte_to_Z). rewrite !byte_to_Z_to_byte_small in Hk0; lia.
  - unfold MAX_VALUE in *. rewrite be_int_be_bytes by (unfold len in *; simpl; lia).
    change 0x3FFF with (Z.ones 14). rewrite Z.land_ones by lia.
    apply Z.mod_small. unfold len in *; lia.
Qed.

Lemma layout_encoded final l tail :
  Forall tlv_ok l → layout final tail [] → layout final ((l ≫= tlv_bytes) ++ tail) l.
Proof.
  induction 1 as [|t l Ht Hl IH]; intros Htail; simpl; [done|].
  rewrite <- app_assoc. apply layout_cons_bytes; auto.
Qed.

Lemma layout_tlv_ok final p l : layout final p l → Forall tlv_ok l.
Proof.
  induction 1 as [| |final k hdr v rest tlvs Hk Hh Hn Hlay IH]; constructor; [|done].
  pose proof (byte_to_Z_range k). split; simpl.
  - assert (byte_to_Z k ≠ 0); [|lia]. intros Hk0. by apply (inj byte_to_Z k (Z_to_byte 0)) in Hk0.
  - rewrite <- Hn. apply land_max_value.
Qed.

Lemma parse_tlvs_final l pad :
  Forall tlv_ok l → len l ≤ MAX_TLVS → parse_tlvs ((l ≫= tlv_bytes) ++ END ++ pad) true = Ok l.
Proof.
  intros Hl Hn. apply parse_tlvs_layout. split; [|done]. apply layout_encoded; [done|].
  by apply (layout_end (octets [0; 0])).
Qed.

Lemma parse_tlvs_nonfinal l :
  Forall tlv_ok l → l ≠ [] → len l ≤ MAX_TLVS → parse_tlvs (l ≫= tlv_bytes) false = Ok l.
Proof.
  intros Hl Hne Hn. apply parse_tlvs_layout. split; [|done].
  rewrite <- (app_nil_r (l ≫= _)). apply layout_encoded; [done|constructor].
Qed.

(** ** Fragments *)

Definition fragment_ok (f : Fragment) : Prop :=
  length (destination f) = 6%nat ∧ length (source f) = 6%nat ∧ 0 ≤ message_type f < 2 ^ 16 ∧
  0 ≤ mid f < 2 ^ 16 ∧ 0 ≤ fid f < 2 ^ 8 ∧ version f = 0 ∧
  len (payload f) ≤ MAX_CMDU - HEADER_SIZE.

Definition frame_bytes (f : Fragment) : bytes :=
  destination f ++ source f ++ be_bytes 2 ETHERTYPE ++
  pack_header 0 0 (message_type f) (mid f) (fid f)
    (Z.lor (if last f then 0x80 else 0) (if relay f then 0x40 else 0)) ++ payload f.

Lemma encode_fragment_Ok f b : encode_fragment f = Ok b ↔ fragment_ok f ∧ b = frame_bytes f.
Proof.
  unfold encode_fragment, fragment_ok. split.
  - intros H. inv_ok.
    repeat match goal with
    | H : uint _ _ _ = Ok _ |- _ => apply uint_Ok in H as [-> ?]
    | H : mac _ = Ok _ |- _ => apply mac_Ok in H as [-> ?]
    end. bools. split; [|done]. repeat split; try lia; by apply dec_stable.
  - intros [(Hd & Hs & Ht & Hm & Hf & Hv & Hp) ->].
    do 2 (rewrite (proj2 (mac_Ok _ _)) by eauto; simpl). rewrite !uint_fits by done. simpl.
    by rewrite Hv, (bool_decide_eq_false_2 (_ < _)) by lia.
Qed.

Lemma decode_frame_bytes f : fragment_ok f → decode_frame (frame_bytes f) = Ok f.
Proof.
  intros (Hd & Hs & Ht & Hm & Hf & Hv & Hp).
  destruct f as [d s t m i l r p v]; simpl in *; subst v.
  assert (Hlen : len (frame_bytes (mkFragment d s t m i l r p 0)) = 22 + len p)
    by (unfold frame_bytes, pack_header; len_lia).
  unfold decode_frame. rewrite Hlen, (bool_decide_eq_true_2 (22 ≤ 22 + _ ≤ _))
    by (unfold len, HEADER_SIZE, MAX_CMDU in *; lia).
  assert (Ht2 := be_int_be_bytes 2 t Ht). assert (Hm2 := be_int_be_bytes 2 m Hm).
  unfold frame_bytes, pack_header; simpl in *.
  destruct d as [|? [|? [|? [|? [|? [|? [|]]]]]]]; try done.
  destruct s as [|? [|? [|? [|? [|? [|? [|]]]]]]]; try done.
  simpl. unfold octet_at, slice; simpl in *. rewrite Ht2, Hm2, !byte_to_Z_to_byte.
  rewrite (Z.mod_small i) by lia. destruct l, r; reflexivity.
Qed.

Lemma octet_at_range i b : 0 ≤ octet_at i b < 256.
Proof. unfold octet_at. destruct (b !! i); simpl; [apply byte_to_Z_range|lia]. Qed.

Lemma decode_frame_fid b f : decode_frame b = Ok f → 0 ≤ fid f < 256.
Proof. unfold decode_frame. intros H. inv_ok. apply octet_at_range. Qed.

Lemma frame_bytes_length f :
  length (destination f) = 6%nat → length (source f) = 6%nat →
  len (frame_bytes f) = 22 + len (payload f).
Proof. intros. unfold frame_bytes, pack_header. len_lia. Qed.

(** ** Fragmentation *)

(** The octets of a group of TLVs, and the fragment that carries group [i] of [n]. *)
Definition group_bytes (g : list Tlv) : bytes := g ≫= tlv_bytes.

Lemma group_bytes_one t : group_bytes [t] = tlv_bytes t.
Proof. unfold group_bytes. cbn [mbind list_bind]. apply app_nil_r. Qed.

Lemma group_bytes_app g1 g2 : group_bytes (g1 ++ g2) = group_bytes g1 ++ group_bytes g2.
Proof. apply bind_app. Qed.

Section Fragmentation.
Context (dst src : bytes) (mtype id : Z) (rly : bool).

Definition part (n i : nat) (g : list Tlv) : Fragment :=
  let final := bool_decide (S i = n) in
  mkFragment dst src mtype id (Z.of_nat i) final rly
    (group_bytes g ++ if final then END else []) 0.

(** Greedy grouping: what the loop has closed and what is open are groups of whole TLVs, in
    order, and every group leaves room for the end marker. *)
Lemma fragment_chunks_groups budget tlvs gs g closed current :
  Forall tlv_ok (concat gs ++ g) →
  Forall (λ g, g ≠ [] ∧ len (group_bytes g) + 3 ≤ budget) gs →
  (g ≠ [] ∨ (gs = [] ∧ 3 ≤ budget)) → len (group_bytes g) + 3 ≤ budget →
  fragment_chunks budget tlvs (group_bytes <$> gs) (group_bytes g) = Ok (closed, current) →
  ∃ gs' g', closed = group_bytes <$> gs' ∧ current = group_bytes g' ∧
    concat gs' ++ g' = concat gs ++ g ++ tlvs ∧
    Forall tlv_ok (concat gs' ++ g') ∧
    Forall (λ g, g ≠ [] ∧ len (group_bytes g) + 3 ≤ budget) gs' ∧
    len (group_bytes g') + 3 ≤ budget.
Proof.
  revert gs g. induction tlvs as [|t tlvs IH]; intros gs g Hok Hgs Hg Hlen H; cbn [fragment_chunks] in H.
  { inv_ok. simplify_eq. exists gs, g. rewrite app_nil_r. auto 10. }
  apply result_bind_Ok in H as (e & [Ht ->]%encode_tlv_Ok & H).
  apply result_bind_Ok in H as ([] & Hfit%raise_if_Ok & H). bools.
  change (len END) with 3 in *.
  case_bool_decide as Hfull.
  - replace ((group_bytes <$> gs) ++ [group_bytes g]) with (group_bytes <$> (gs ++ [g])) in H
      by (by rewrite fmap_app).
    rewrite <- group_bytes_one in H.
    apply IH in H as (gs' & g' & ? & ? & Heq & ?).
    + exists gs', g'. split; [done|]. split; [done|]. split; [|done].
      rewrite Heq, concat_app. simpl. by rewrite app_nil_r, <- app_assoc.
    + rewrite concat_app; simpl. rewrite app_nil_r. apply Forall_app; auto.
    + apply Forall_app. split; [done|]. repeat constructor; [|done].
      destruct Hg as [Hg|[-> _]]; [done|]. intros ->.
      change (len (group_bytes [])) with 0 in Hfull. lia.
    + by left.
    + rewrite group_bytes_one. lia.
  - rewrite <- group_bytes_one, <- group_bytes_app in H.
    apply IH in H as (gs' & g' & ? & ? & Heq & ?).
    + exists gs', g'. split; [done|]. split; [done|]. split; [|done].
      by rewrite Heq, <- app_assoc.
    + rewrite app_assoc. apply Forall_app; auto.
    + done.
    + left. by destruct g.
    + rewrite group_bytes_app, group_bytes_one. unfold len in *. rewrite length_app. lia.
Qed.

Lemma fragment_message_groups tlvs mtu frames :
  fragment_message dst src mtype id tlvs rly mtu = Ok frames →
  ∃ groups, concat groups = tlvs ∧ Forall tlv_ok tlvs ∧ len tlvs ≤ MAX_TLVS ∧
    (1 ≤ length groups ≤ 64)%nat ∧
    frames = imap (λ i g, frame_bytes (part (length groups) i g)) groups ∧
    ∀ i g, groups !! i = Some g →
      fragment_ok (part (length groups) i g) ∧ (S i ≠ length groups → g ≠ []) ∧
      len (payload (part (length groups) i g)) ≤ mtu - 8.
Proof.
  unfold fragment_message. intros H. inv_ok. destruct x1 as [closed current].
  apply result_bind_Ok in H as ([] & Hn%raise_if_Ok & H). bools.
  match goal with H : fragment_chunks _ _ [] [] = _ |- _ =>
    apply (fragment_chunks_groups _ _ [] []) in H end.
  2-3: constructor. 2: right; split; [done|unfold HEADER_SIZE; lia].
  2: change (len (group_bytes [])) with 0; unfold HEADER_SIZE; lia.
  match goal with H : ∃ _, _ |- _ =>
    destruct H as (gs & g & -> & -> & Heq & Hok & Hgs & Hg) end. simpl in Heq.
  apply map_result_Ok in H.
  set (chunks := (group_bytes <$> gs) ++ [group_bytes g ++ END]) in *.
  assert (Hchunks : length chunks = S (length gs)) by (unfold chunks; len_lia).
  exists (gs ++ [g]). rewrite length_app; simpl.
  replace (length gs + 1)%nat with (S (length gs)) by lia.
  assert (Hpay : ∀ i g', (gs ++ [g]) !! i = Some g' →
    chunks !! i = Some (payload (part (S (length gs)) i g')) ∧
    (S i ≠ S (length gs) → g' ≠ []) ∧ len (payload (part (S (length gs)) i g')) ≤ mtu - 8).
  { intros i g' Hi. unfold part, chunks; cbn [payload]. apply lookup_app_Some in Hi as [Hi|[Hge Hi]].
    - pose proof (lookup_lt_Some _ _ _ Hi). rewrite bool_decide_eq_false_2, app_nil_r by lia.
      rewrite lookup_app_l by len_lia. rewrite list_lookup_fmap, Hi.
      eapply (Forall_lookup_1 _ gs) in Hgs as [? ?]; [|done]. unfold HEADER_SIZE in *.
      split; [done|]. split; [done|lia].
    - apply list_lookup_singleton_Some in Hi as [Hi ->].
      assert (i = length gs) as -> by lia. rewrite bool_decide_eq_true_2 by done.
      rewrite lookup_app_r by len_lia. rewrite length_fmap, Nat.sub_diag.
      split; [done|]. split; [done|]. unfold HEADER_SIZE, len in *. rewrite length_app.
      change (length END) with 3%nat. lia. }
  rewrite concat_app; simpl; rewrite app_nil_r, Heq in *.
  split; [done|]. split; [done|]. split; [lia|]. split; [unfold len in *; lia|].
  assert (Henc : ∀ i g', (gs ++ [g]) !! i = Some g' →
    frames !! i = Some (frame_bytes (part (S (length gs)) i g')) ∧
    fragment_ok (part (S (length gs)) i g')).
  { intros i g' Hi. apply Hpay in Hi as [Hi _].
    apply Forall2_lookup_l with (i := i) (x := (i, payload (part (S (length gs)) i g'))) in H
      as (b & Hb & [? ->]%encode_fragment_Ok); [|by rewrite list_lookup_imap, Hi].
    cbn [fst snd] in *. rewrite Hb. unfold part in *. cbn [payload] in *.
    replace (bool_decide (Z.of_nat i = len chunks - 1)) with (bool_decide (S i = S (length gs))) in *
      by (apply bool_decide_ext; unfold len; lia). done. }
  split.
  - apply list_eq. intros i. rewrite list_lookup_imap.
    destruct ((gs ++ [g]) !! i) as [g'|] eqn:Hi; simpl; [by apply Henc|].
    apply lookup_ge_None. apply Forall2_length in H. rewrite length_imap in H.
    apply lookup_ge_None in Hi. rewrite length_app in Hi. simpl in Hi. lia.
  - intros i g' Hi. split; [by apply Henc|]. by apply Hpay in Hi as [_ ?].
Qed.

(** What the receiver parses out of each fragment is its group. *)
Lemma parse_part n i g :
  Forall tlv_ok g → len g ≤ MAX_TLVS → (S i ≠ n → g ≠ []) →
  parse_tlvs (payload (part n i g)) (last (part n i g)) = Ok g.
Proof.
  intros Hok Hlen Hne. unfold part; cbn [payload last]. case_bool_decide.
  - rewrite <- (app_nil_r END). by apply parse_tlvs_final.
  - rewrite app_nil_r. apply parse_tlvs_nonfinal; auto.
Qed.
End Fragmentation.

(** ** Message identifiers and the duplicate window *)

Lemma next_mid_mod p : next_mid p = (p + 1) mod 65536.
Proof. unfold next_mid. change 0xFFFF with (Z.ones 16). by rewrite Z.land_ones by lia. Qed.

Lemma next_mid_iter n p :
  0 ≤ p < 65536 → Nat.iter n next_mid p = (p + Z.of_nat n) mod 65536.
Proof.
  intros Hp. induction n as [|n IH]; [rewrite Z.add_0_r, Z.mod_small; done|].
  rewrite Nat.iter_succ, IH, next_mid_mod, Z.add_mod_idemp_l by lia. f_equal. lia.
Qed.

(** The window after a sequence of calls [(now, origin, mid)]. *)
Definition run_seen (calls : list (Z * bytes * Z)) (w : DuplicateWindow) : DuplicateWindow :=
  foldl (λ w '(t, al, id), snd (seen t al id w)) w calls.

(** The four outcomes of a call; every other part of the window is left alone. *)
Lemma seen_cases t al id w :
  let live := filter (λ kv, t < snd kv) (dw_entries w) in
  let w' e := w <| dw_entries := e |> in
  (∃ e, seen t al id w = (Raise e, w' live)) ∨
  (is_Some (live !! (al, id)) ∧ seen t al id w = (Ok true, w' live)) ∨
  (live !! (al, id) = None ∧ Z.of_nat (size live) < dw_capacity w ∧
   seen t al id w = (Ok false, w' (<[(al, id) := t + dw_timeout w]> live))).
Proof.
  cbv zeta. unfold seen, mbind, M_mbind, modify, lift, get, put, raise; simpl.
  destruct (mac al) as [al'|] eqn:Ha; [|eauto]. apply mac_Ok in Ha as [-> _].
  destruct (uint id 16 "MID") as [id'|] eqn:Hi; [|eauto]. apply uint_Ok in Hi as [-> _].
  repeat case_bool_decide; [eauto..|]. right; right.
  split; [by apply eq_None_not_Some|]. split; [lia|done].
Qed.

Lemma seen_keeps k t t0 al id w :
  t < t0 → dw_entries w !! k = Some t0 → dw_entries (snd (seen t al id w)) !! k = Some t0.
Proof.
  intros Ht Hk.
  assert (Hf : filter (λ kv, t < snd kv) (dw_entries w) !! k = Some t0)
    by (by apply map_lookup_filter_Some).
  destruct (seen_cases t al id w) as [(e & ->)|[(_ & ->)|(Hn & _ & ->)]]; simpl; [done..|].
  rewrite lookup_insert_ne; [done|]. intros <-. by rewrite Hn in Hf.
Qed.

Lemma run_seen_keeps k t0 calls w :
  Forall (λ c, fst (fst c) < t0) calls → dw_entries w !! k = Some t0 →
  dw_entries (run_seen calls w) !! k = Some t0.
Proof.
  intros Hc. revert w. induction Hc as [|[[t al] id] calls Ht _ IH]; intros w Hk; simpl; [done|].
  by apply IH, seen_keeps.
Qed.

Lemma seen_bounded t al id w :
  Z.of_nat (size (dw_entries w)) ≤ dw_capacity w →
  let w' := snd (seen t al id w) in
  dw_capacity w' = dw_capacity w ∧ Z.of_nat (size (dw_entries w')) ≤ dw_capacity w'.
Proof.
  intros Hw. cbv zeta.
  assert (Hf : (size (filter (λ kv, (t < snd kv)%Z) (dw_entries w)) ≤ size (dw_entries w))%nat)
    by (apply map_subseteq_size, map_filter_subseteq).
  destruct (seen_cases t al id w) as [(e & ->)|[(_ & ->)|(Hn & Hlt & ->)]]; simpl;
    (split; [done|]); [lia..|]. rewrite map_size_insert_None by done. lia.
Qed.

(** * Properties *)

(** [parse_tlvs] accepts exactly the payload grammar. A payload parses into [l] precisely when
    it is laid out as those TLVs in order (reserved length bits ignored, every value complete),
    closed by an end marker followed by arbitrary padding when it is the final fragment and by
    nothing when it is not, with at most 256 TLVs and no empty non-final fragment. *)
Theorem parse_tlvs_grammar (p : bytes) (final : bool) (l : list Tlv) :
  parse_tlvs p final = Ok l ↔
  layout final p l ∧ (final = false → l ≠ []) ∧ len l ≤ MAX_TLVS.
Proof. apply parse_tlvs_layout. Qed.

(** Every frame the structural encoder emits is decoded back into the same fragment, with no
    field lost or changed, and is within the Ethernet limits the decoder enforces. *)
Theorem fragment_roundtrip (f : Fragment) (b : bytes) :
  encode_fragment f = Ok b → decode_frame b = Ok f ∧ 22 ≤ len b ≤ 14 + MAX_CMDU.
Proof.
  intros [Hok ->]%encode_fragment_Ok. split; [by apply decode_frame_bytes|].
  destruct Hok as (Hd & Hs & _ & _ & _ & _ & Hp). rewrite frame_bytes_length by done.
  unfold HEADER_SIZE, MAX_CMDU, len in *. lia.
Qed.

Definition example_fragment : Fragment :=
  mkFragment MULTICAST (octets [2; 0; 0; 0; 0; 1]) 7 0x1234 3 true false
    (octets [0x80; 0; 1; 0; 0; 0; 0]) 0.

Lemma fragment_roundtrip_witness :
  ∃ b, encode_fragment example_fragment = Ok b ∧ decode_frame b = Ok example_fragment.
Proof.
  eexists. split; [vm_compute; reflexivity|].
  apply (fragment_roundtrip example_fragment). vm_compute. reflexivity.
Defined.

(** Fragmentation of a TLV list at TLV boundaries loses nothing: there is a split of the list
    into consecutive groups, one per frame, at most 64, such that frame [i] decodes to the
    fragment numbered [i], final exactly when it is the last one, whose payload parses to group
    [i], and whose CMDU fits the MTU. *)
Theorem fragment_message_faithful (d s : bytes) (t id : Z) (tlvs : list Tlv) (r : bool) (mtu : Z)
    (frames : list bytes) :
  fragment_message d s t id tlvs r mtu = Ok frames →
  ∃ groups : list (list Tlv),
    concat groups = tlvs ∧ length groups = length frames ∧ (1 ≤ length frames ≤ 64)%nat ∧
    ∀ i frame g, frames !! i = Some frame → groups !! i = Some g →
      len frame ≤ 14 + mtu ∧
      ∃ f, decode_frame frame = Ok f ∧ fid f = Z.of_nat i ∧
        last f = bool_decide (S i = length frames) ∧ relay f = r ∧
        parse_tlvs (payload f) (last f) = Ok g.
Proof.
  intros (groups & Hcat & Hok & Hmax & Hn & -> & Hpart)%fragment_message_groups.
  exists groups. rewrite length_imap. do 3 (split; [done|]). intros i frame g Hf Hg.
  rewrite list_lookup_imap, Hg in Hf. injection Hf as <-.
  destruct (Hpart i g Hg) as (Hfok & Hne & Hlen).
  split.
  { destruct Hfok as (Hd & Hs & _). rewrite frame_bytes_length by done. lia. }
  exists (part d s t id r (length groups) i g). split; [by apply decode_frame_bytes|].
  do 3 (split; [done|]). apply parse_part; [|  |done].
  - subst tlvs. apply Forall_concat in Hok. by eapply Forall_lookup_1 in Hok.
  - apply concat_lookup_length in Hg. rewrite Hcat in Hg. unfold len in *. lia.
Qed.

Definition example_tlvs : list Tlv :=
  [mkTlv 0x80 (octets [1; 0]); mkTlv 0x81 (octets [1; 0]); mkTlv 0xB3 (octets [3])].

Lemma fragment_message_faithful_witness :
  ∃ frames groups, fragment_message MULTICAST (octets [2; 0; 0; 0; 0; 1]) 7 9 example_tlvs false 20
      = Ok frames ∧ concat groups = example_tlvs ∧ length groups = 2%nat.
Proof.
  assert (H : is_ok (fragment_message MULTICAST (octets [2; 0; 0; 0; 0; 1]) 7 9 example_tlvs false 20)
    = true) by (vm_compute; reflexivity).
  destruct (fragment_message _ _ _ _ _ _ _) as [frames|] eqn:E; [|discriminate H].
  destruct (fragment_message_faithful _ _ _ _ _ _ _ _ E) as (groups & Hc & Hl & _).
  exists frames, groups. split; [done|]. split; [done|]. rewrite Hl.
  vm_compute in E. injection E as <-. reflexivity.
Defined.

(** The message identifiers of one sequence are 16-bit values that wrap around, and no
    identifier is handed out twice within 65536 consecutive messages. *)
Theorem mid_sequence_distinct (p : Z) (i j : nat) :
  0 ≤ p < 65536 → (i < j)%nat → Z.of_nat j - Z.of_nat i < 65536 →
  0 ≤ Nat.iter j next_mid p < 65536 ∧ Nat.iter i next_mid p ≠ Nat.iter j next_mid p.
Proof.
  intros Hp Hij Hd. rewrite !next_mid_iter by done. split; [apply Z.mod_pos_bound; lia|].
  intros Heq. pose proof (Z.div_mod (p + Z.of_nat i) 65536 ltac:(lia)).
  pose proof (Z.div_mod (p + Z.of_nat j) 65536 ltac:(lia)). lia.
Qed.

Lemma mid_sequence_distinct_witness :
  Nat.iter 1 next_mid 65535 = 0 ∧ Nat.iter 1 next_mid 65535 ≠ Nat.iter 3 next_mid 65535.
Proof. split; [vm_compute; reflexivity|]. apply (mid_sequence_distinct 65535 1 3); lia. Defined.

(** The duplicate window is exact. Once a (originator, MID) pair was accepted as new at time
    [t0], it is recognised as a duplicate on every later call before [t0 + timeout] whatever other
    calls were made in between, it is never refreshed by them, it is never called a duplicate from
    [t0 + timeout] on, and the window never holds more than its capacity. *)
Theorem duplicate_window_exact (w w' : DuplicateWindow) (t0 : Z) (al : bytes) (id : Z)
    (calls : list (Z * bytes * Z)) (t : Z) :
  Z.of_nat (size (dw_entries w)) ≤ dw_capacity w →
  seen t0 al id w = (Ok false, w') →
  Forall (λ c, fst (fst c) < t0 + dw_timeout w) calls →
  let w'' := run_seen calls w' in
  (t < t0 + dw_timeout w → fst (seen t al id w'') = Ok true) ∧
  (t0 + dw_timeout w ≤ t → fst (seen t al id w'') ≠ Ok true) ∧
  Z.of_nat (size (dw_entries w'')) ≤ dw_capacity w.
Proof.
  intros Hw Hseen Hcalls. cbv zeta.
  assert (Hb := seen_bounded t0 al id w Hw). rewrite Hseen in Hb. cbn in Hb. destruct Hb as [Hc Hb].
  assert (Hk : dw_entries w' !! (al, id) = Some (t0 + dw_timeout w) ∧ length al = 6%nat ∧ 0 ≤ id < 2 ^ 16).
  { destruct (seen_cases t0 al id w) as [(e & He)|[(_ & He)|(_ & _ & He)]];
      pose proof Hseen as Hs; rewrite He in Hs; simplify_eq.
    simpl. split; [apply lookup_insert_eq|].
    unfold seen, mbind, M_mbind, modify, lift in Hseen; simpl in Hseen.
    destruct (mac al) eqn:Ha; [|done]. apply mac_Ok in Ha as [-> ?].
    destruct (uint id 16 "MID") eqn:Hi; [|done]. apply uint_Ok in Hi as [-> ?]. done. }
  destruct Hk as (Hk & Hal & Hid).
  pose proof (run_seen_keeps (al, id) _ calls w' Hcalls Hk) as Hrun.
  split; [|split].
  - intros Ht. destruct (seen_cases t al id (run_seen calls w')) as [(e & He)|[(_ & ->)|(Hn & _)]].
    + exfalso. revert He. unfold seen, mbind, M_mbind, modify, lift, get, raise; simpl.
      rewrite (proj2 (mac_Ok al al)), uint_fits by done.
      rewrite (bool_decide_eq_true_2 (is_Some _)); [done|]. eexists. by apply map_lookup_filter_Some.
    + done.
    + exfalso. eapply map_lookup_filter_None_1 in Hn as [Hn|Hn]; [by rewrite Hrun in Hn|].
      by apply (Hn _ Hrun).
  - intros Ht. destruct (seen_cases t al id (run_seen calls w')) as [(e & ->)|[([x Hx] & _)|(_ & _ & ->)]];
      [done| |done].
    apply map_lookup_filter_Some in Hx as [Hx Hlt]. simplify_eq. simpl in Hlt. lia.
  - rewrite <- Hc. clear -Hb. revert w' Hb. induction calls as [|[[t al] id] calls IH]; intros w' Hb; [done|].
    simpl. destruct (seen_bounded t al id w' Hb) as [Hc Hb']. rewrite <- Hc. by apply IH.
Qed.

Lemma duplicate_window_exact_witness :
  fst (seen (seconds 30) MULTICAST 7 (run_seen [(seconds 10, MULTICAST, 8)]
    (snd (seen 0 MULTICAST 7 (mkDuplicateWindow (seconds 60) 4 ∅))))) = Ok true.
Proof.
  apply (duplicate_window_exact (mkDuplicateWindow (seconds 60) 4 ∅) _ 0 MULTICAST 7
    [(seconds 10, MULTICAST, 8)] (seconds 30)).
  - vm_compute. discriminate.
  - vm_compute. reflexivity.
  - repeat constructor.
  - vm_compute. reflexivity.
Defined.
