(* ===== verification/Reassembly.v ===== *)
(** * Bounded fragment reassembly: class [Reassembler] of [src/emosa/wire/cmdu.py]

    The contexts are a finite map from (ingress, source, destination, type, MID) to the mutable
    [Assembly]; [feed] is the whole handler, with the two clock readings it makes. The accounting
    invariant holds after every call, accepted or raising, and reassembly inverts fragmentation
    for any arrival order. *)

From S2P Require Import Prelude Bytes Cmdu.

(** [Assembly]: [parts] maps a fragment index to (is final, its TLVs). *)
Record Assembly := mkAssembly {
  started : Z;
  a_relay : bool;
  parts : gmap Z (bool * list Tlv);
  a_last : option Z;
  a_size : Z;
  poisoned : bool
}.
#[export] Instance eta_Assembly : Eta Assembly := λ a,
  mkAssembly (started a) (a_relay a) (parts a) (a_last a) (a_size a) (poisoned a).

(** The key of a context. *)
Abbreviation context_key := (string * bytes * bytes * Z * Z)%type.

Record Reassembler := mkReassembler {
  timeout : Z;
  max_contexts : Z;
  max_bytes : Z;
  max_message_bytes : Z;
  max_fragments : Z;
  contexts : gmap context_key Assembly;
  buffered : Z
}.
#[export] Instance eta_Reassembler : Eta Reassembler := λ r,
  mkReassembler (timeout r) (max_contexts r) (max_bytes r) (max_message_bytes r) (max_fragments r)
    (contexts r) (buffered r).

(** [Reassembler.__init__] *)
Definition Reassembler_init (timeout max_contexts max_bytes max_message_bytes max_fragments : Z) :
    result Reassembler :=
  _ ← raise_if (negb (bool_decide (0 < timeout ≤ seconds 60))
                || negb (bool_decide (1 ≤ max_contexts ≤ 1024))) INVALID_INPUT
        "invalid reassembly timeout or context budget";
  _ ← raise_if (negb (bool_decide (1 ≤ max_fragments ≤ 256))
                || negb (bool_decide (1 ≤ max_message_bytes ≤ max_bytes ∧ max_bytes ≤ 16777216)))
        INVALID_INPUT "invalid reassembly size budget";
  Ok (mkReassembler timeout max_contexts max_bytes max_message_bytes max_fragments ∅ 0).

(** The defaults of the constructor. *)
Definition default_Reassembler : result Reassembler :=
  Reassembler_init (seconds 5) 64 (2 * 1024 * 1024) 65536 64.

(** [expire()]: contexts whose deadline has passed go, with the bytes they buffered. *)
Definition expire (now : Z) : M Reassembler Z := λ self,
  let expired := filter (λ kv, timeout self ≤ now - started (snd kv)) (contexts self) in
  (Ok (Z.of_nat (size expired)),
   self <| contexts := filter (λ kv, ¬ timeout self ≤ now - started (snd kv)) (contexts self) |>
        <| buffered := buffered self - map_sum a_size expired |>).

(** [_poison(state, reason)]: the context stays, empty and quarantined, and the call raises. *)
Definition poison {A} (key : context_key) (state : Assembly) (reason : string) : M Reassembler A :=
  _ ← modify (λ self, self
        <| buffered := buffered self - a_size state |>
        <| contexts := <[key := state <| parts := ∅ |> <| a_size := 0 |> <| poisoned := true |>]>
                         (contexts self) |>);
  raise INVALID_INPUT reason.

(** [sum(len(tlv.value) + 3 for tlv in tlvs)] *)
Definition tlvs_size (l : list Tlv) : Z := foldr (λ t acc, len (tlv_value t) + 3 + acc) 0 l.

(** [sum(len(item[1]) for item in state.parts.values())] *)
Definition parts_count (ps : gmap Z (bool * list Tlv)) : Z := map_sum (λ p, len (snd p)) ps.

(** [tuple(tlv for fid in range(n) for tlv in parts[fid][1])] *)
Definition parts_values (ps : gmap Z (bool * list Tlv)) (n : nat) : list Tlv :=
  concat ((λ i, from_option snd [] (ps !! Z.of_nat i)) <$> seq 0 n).

(** [self.contexts.get(key)], or the new context the call creates. *)
Definition open_context (key : context_key) (relay : bool) (now : Z) : M Reassembler Assembly :=
  self ← get;
  match contexts self !! key with
  | Some state => mret state
  | None =>
      if bool_decide (max_contexts self ≤ Z.of_nat (size (contexts self))) then
        raise BUSY "reassembly context budget exhausted"
      else
        let state := mkAssembly now relay ∅ None 0 false in
        _ ← put (self <| contexts := <[key := state]> (contexts self) |>);
        mret state
  end.

(** The end of [feed], once the fragment is accepted: store it, and deliver a complete message. *)
Definition store_part (key : context_key) (state : Assembly) (part : Fragment) (tlvs : list Tlv) :
    M Reassembler (option Message) :=
  let size := tlvs_size tlvs in
  let state := state <| parts := <[fid part := (last part, tlvs)]> (parts state) |>
                     <| a_size := a_size state + size |>
                     <| a_last := if last part then Some (fid part) else a_last state |> in
  _ ← modify (λ self, self <| contexts := <[key := state]> (contexts self) |>
                           <| buffered := buffered self + size |>);
  match a_last state with
  | None => mret None
  | Some l =>
      if bool_decide (Z.of_nat (base.size (parts state)) ≠ l + 1) then mret None
      else
        _ ← modify (λ self, self <| buffered := buffered self - a_size state |>
                                 <| contexts := delete key (contexts self) |>);
        mret (Some (mkMessage (destination part) (source part) (message_type part) (mid part)
          (relay part) (parts_values (parts state) (Z.to_nat (l + 1))) (l + 1)))
  end.

(** [feed(frame, ingress=ingress)]; [now0] is the clock read by [expire], [now1] the one read when
    a context is created. *)
Definition feed (now0 now1 : Z) (frame : bytes) (ingress : string) :
    M Reassembler (option Message) :=
  _ ← expire now0;
  part ← lift (decode_frame frame);
  _ ← lift (raise_if (bool_decide (version part ≠ 0)) UNSUPPORTED_OPERATION
              "reserved CMDU version; no dispatch");
  let key := (ingress, source part, destination part, message_type part, mid part) in
  state ← open_context key (relay part) now1;
  self ← get;
  if poisoned state then
    raise INVALID_INPUT "conflicting message is quarantined until its original deadline"
  else if bool_decide (max_fragments self ≤ fid part)
          || negb (bool_decide (relay part = a_relay state)) then
    poison key state "fragment index or relay mismatch"
  else
    match parse_tlvs (payload part) (last part) with
    | Raise _ => poison key state "invalid fragment TLV boundaries or end marker"
    | Ok tlvs =>
        match parts state !! fid part with
        | Some stored =>
            if bool_decide (stored ≠ (last part, tlvs)) then
              poison key state "conflicting duplicate fragment"
            else mret None
        | None =>
            if match a_last state with
               | None => false
               | Some l => bool_decide (l < fid part)
                           || (last part && bool_decide (fid part ≠ l))
               end
            then poison key state "inconsistent final fragment"
            else if last part && bool_decide (map_Exists (λ f _, fid part < f) (parts state)) then
              poison key state "final fragment precedes stored fragments"
            else if bool_decide (max_message_bytes self < a_size state + tlvs_size tlvs)
                    || bool_decide (max_bytes self < buffered self + tlvs_size tlvs) then
              poison key state "reassembly byte budget exhausted"
            else if bool_decide (MAX_TLVS < parts_count (parts state) + len tlvs) then
              poison key state "reassembled TLV count exceeds local budget"
            else store_part key state part tlvs
        end
    end.

(** * Theory *)

(** ** The accounting invariant *)

(** Every stored part is in range, and the final one, when known, is the greatest and the only one
    marked final. *)
Definition parts_ok (r : Reassembler) (a : Assembly) : Prop :=
  ∀ f p, parts a !! f = Some p →
    0 ≤ f < max_fragments r ∧ Forall tlv_ok (snd p) ∧
    match a_last a with None => fst p = false | Some l => f ≤ l ∧ (fst p = true ↔ f = l) end.

Definition assembly_ok (r : Reassembler) (a : Assembly) : Prop :=
  a_size a = map_sum (λ p, tlvs_size (snd p)) (parts a) ∧
  a_size a ≤ max_message_bytes r ∧
  parts_count (parts a) ≤ MAX_TLVS ∧
  parts_ok r a ∧
  (poisoned a = true → parts a = ∅) ∧
  (poisoned a = false → ∀ l, a_last a = Some l →
     is_Some (parts a !! l) ∧ Z.of_nat (size (parts a)) ≠ l + 1).

(** The invariant of the reassembler: what is buffered is what the contexts hold, and every budget
    is respected. *)
Definition reassembler_ok (r : Reassembler) : Prop :=
  buffered r = map_sum a_size (contexts r) ∧
  0 ≤ buffered r ≤ max_bytes r ∧
  Z.of_nat (size (contexts r)) ≤ max_contexts r ∧
  map_Forall (λ _ a, assembly_ok r a) (contexts r) ∧
  0 ≤ max_message_bytes r.

(** What no call changes. *)
Definition same_limits (r r' : Reassembler) : Prop :=
  timeout r' = timeout r ∧ max_contexts r' = max_contexts r ∧ max_bytes r' = max_bytes r ∧
  max_message_bytes r' = max_message_bytes r ∧ max_fragments r' = max_fragments r.

Lemma tlvs_size_nonneg l : 0 ≤ tlvs_size l.
Proof. induction l as [|t l IH]; simpl; [lia|]. unfold len. lia. Qed.

Lemma tlvs_size_app l1 l2 : tlvs_size (l1 ++ l2) = tlvs_size l1 + tlvs_size l2.
Proof. induction l1 as [|t l1 IH]; simpl; [done|]. rewrite IH. lia. Qed.

Lemma assembly_size_nonneg r a : assembly_ok r a → 0 ≤ a_size a.
Proof. intros (-> & _). apply map_sum_nonneg. intros. apply tlvs_size_nonneg. Qed.

Lemma assembly_ok_limits r r' a : same_limits r r' → assembly_ok r a → assembly_ok r' a.
Proof.
  intros (_ & _ & _ & Hm & Hf). unfold assembly_ok, parts_ok. rewrite Hm, Hf. auto.
Qed.

Lemma fresh_assembly_ok r now rly :
  0 ≤ max_message_bytes r → assembly_ok r (mkAssembly now rly ∅ None 0 false).
Proof.
  intros Hm. unfold assembly_ok, parts_ok, parts_count; simpl. rewrite !map_sum_empty.
  repeat split; try done; try lia; intros; simplify_map_eq.
Qed.

Lemma map_sum_contexts_nonneg r : reassembler_ok r → ∀ k a, contexts r !! k = Some a → 0 ≤ a_size a.
Proof. intros (_ & _ & _ & Hall & _) k a Ha. eapply assembly_size_nonneg, Hall, Ha. Qed.

(** Replacing the context at a key, with the matching adjustment of [buffered]. *)
Lemma reassembler_ok_replace r k a a' :
  reassembler_ok r → contexts r !! k = Some a → assembly_ok r a' →
  buffered r - a_size a + a_size a' ≤ max_bytes r →
  reassembler_ok (r <| contexts := <[k := a']> (contexts r) |>
                    <| buffered := buffered r - a_size a + a_size a' |>).
Proof.
  intros Hr Hk Ha' Hb. pose proof Hr as (Hbuf & Hrange & Hn & Hall & Hmax).
  assert (Hge : a_size a ≤ map_sum a_size (contexts r))
    by (eapply map_sum_ge; [by apply map_sum_contexts_nonneg|done]).
  pose proof (assembly_size_nonneg _ _ Ha').
  split; [|split; [|split; [|split]]]; simpl; [| | | |done].
  - by rewrite (map_sum_replace _ _ _ _ _ Hk), Hbuf.
  - lia.
  - by rewrite map_size_insert_Some by eauto.
  - apply map_Forall_insert_2; [done|]. eapply map_Forall_impl; [done|]. auto.
Qed.

Lemma reassembler_ok_delete r k a :
  reassembler_ok r → contexts r !! k = Some a →
  reassembler_ok (r <| buffered := buffered r - a_size a |> <| contexts := delete k (contexts r) |>).
Proof.
  intros Hr Hk. pose proof Hr as (Hbuf & Hrange & Hn & Hall & Hmax).
  pose proof (map_sum_delete a_size _ _ _ Hk) as Hdel.
  assert (0 ≤ map_sum a_size (delete k (contexts r))).
  { apply map_sum_nonneg. intros j b [_ Hj]%lookup_delete_Some.
    by eapply map_sum_contexts_nonneg. }
  pose proof (assembly_size_nonneg _ _ (Hall _ _ Hk)).
  split; [|split; [|split; [|split]]]; simpl; [lia|lia| | |done].
  - rewrite map_size_delete_Some by eauto. lia.
  - apply map_Forall_delete. eapply map_Forall_impl; [done|]. auto.
Qed.

Lemma expire_ok now : hoare reassembler_ok (expire now) (λ _, reassembler_ok) (λ _, reassembler_ok).
Proof.
  intros r Hr. pose proof Hr as (Hbuf & Hrange & Hn & Hall & Hmax). unfold expire.
  set (P := λ kv : context_key * Assembly, timeout r ≤ now - started (snd kv)).
  pose proof (map_sum_filter a_size P (contexts r)) as Hsplit.
  assert (0 ≤ map_sum a_size (filter (λ kv, ¬ P kv) (contexts r)) ∧
          0 ≤ map_sum a_size (filter P (contexts r))) as [? ?].
  { split; apply map_sum_nonneg; intros k a [Ha _]%map_lookup_filter_Some;
      by eapply map_sum_contexts_nonneg. }
  unfold P in *. split; [|split; [|split; [|split]]]; simpl; [lia|lia| | |done].
  - etrans; [|exact Hn]. apply inj_le, map_subseteq_size, map_filter_subseteq.
  - intros k a [Ha _]%map_lookup_filter_Some. by apply (Hall k).
Qed.

(** The context a fragment is fed to. *)
Definition at_context (key : context_key) (state : Assembly) (r : Reassembler) : Prop :=
  reassembler_ok r ∧ contexts r !! key = Some state.

Lemma open_context_ok key rly now :
  hoare reassembler_ok (open_context key rly now) (at_context key) (λ _, reassembler_ok).
Proof.
  unfold open_context. eapply hoare_bind; [by apply hoare_get with (Q := λ r s, reassembler_ok r ∧ s = r)|].
  intros r. cbn beta. destruct (contexts r !! key) as [state|] eqn:Hk.
  { apply hoare_ret. intros s [Hr ->]. done. }
  case_bool_decide as Hfull; [apply hoare_raise; by intros s [Hr ->]|].
  eapply hoare_bind with (R := λ _, at_context key (mkAssembly now rly ∅ None 0 false)).
  2:{ intros _. apply hoare_ret. auto. }
  apply hoare_put. intros s [Hr ->]. pose proof Hr as (Hbuf & Hrange & Hn & Hall & Hmax).
  split; [|by apply lookup_insert_eq]. split; [|split; [|split; [|split]]]; simpl; [|done| | |done].
  - rewrite map_sum_insert by done. simpl. lia.
  - rewrite map_size_insert_None by done. lia.
  - apply map_Forall_insert_2; [by apply fresh_assembly_ok|]. eapply map_Forall_impl; [done|]. auto.
Qed.

Lemma poison_ok {A} key state reason (Q : A → Reassembler → Prop) :
  hoare (at_context key state) (poison key state reason) Q (λ _, reassembler_ok).
Proof.
  unfold poison. eapply hoare_bind with (R := λ _, reassembler_ok).
  2:{ intros _. apply hoare_raise. auto. }
  apply hoare_modify. intros r [Hr Hk].
  set (dead := state <| parts := ∅ |> <| a_size := 0 |> <| poisoned := true |>).
  assert (Hdead : assembly_ok r dead).
  { unfold assembly_ok, parts_ok, parts_count; simpl. rewrite !map_sum_empty.
    destruct Hr as (_ & _ & _ & _ & ?). repeat split; try done; try lia; intros; simplify_map_eq. }
  pose proof (reassembler_ok_replace r key state dead Hr Hk Hdead) as H'.
  pose proof (map_sum_contexts_nonneg r Hr _ _ Hk). simpl in H'. rewrite Z.add_0_r in H'.
  destruct Hr as (_ & Hrange & _). apply H'. lia.
Qed.

(** The guards [feed] has passed when it stores a fragment. *)
Definition storable (r : Reassembler) (state : Assembly) (p : Fragment) (tlvs : list Tlv) : Prop :=
  poisoned state = false ∧ 0 ≤ fid p < max_fragments r ∧ Forall tlv_ok tlvs ∧
  parts state !! fid p = None ∧
  (∀ l, a_last state = Some l → fid p ≤ l ∧ last p = false ∧ fid p ≠ l) ∧
  (last p = true → ∀ f q, parts state !! f = Some q → f < fid p) ∧
  a_size state + tlvs_size tlvs ≤ max_message_bytes r ∧
  buffered r + tlvs_size tlvs ≤ max_bytes r ∧
  parts_count (parts state) + len tlvs ≤ MAX_TLVS.

(** The context once the fragment is stored. *)
Definition stored (state : Assembly) (p : Fragment) (tlvs : list Tlv) : Assembly :=
  state <| parts := <[fid p := (last p, tlvs)]> (parts state) |>
        <| a_size := a_size state + tlvs_size tlvs |>
        <| a_last := if last p then Some (fid p) else a_last state |>.

Lemma stored_parts_ok r state p tlvs :
  assembly_ok r state → storable r state p tlvs → parts_ok r (stored state p tlvs).
Proof.
  intros (_ & _ & _ & Hparts & _) (_ & Hf & Htlvs & Hnone & Hlast & Hgt & _) f q Hq. simpl in *.
  apply lookup_insert_Some in Hq as [[<- <-]|[Hne Hq]]; simpl.
  - split; [done|]. split; [done|]. destruct (last p) eqn:Hl; [split; [lia|done]|].
    destruct (a_last state) as [l|]; [|done]. destruct (Hlast l eq_refl) as (? & _ & ?).
    split; [lia|]. split; [done|lia].
  - destruct (Hparts f q Hq) as (Hr & Hq' & Hm). split; [done|]. split; [done|].
    destruct (last p) eqn:Hl; [|done]. specialize (Hgt eq_refl _ _ Hq). split; [lia|].
    destruct (a_last state) as [l|]; [by destruct (Hlast l eq_refl) as (_ & ? & _)|].
    rewrite Hm. split; [done|lia].
Qed.

(** All the indexes up to the final one, and no other: the message is complete. *)
Lemma parts_complete (ps : gmap Z (bool * list Tlv)) l :
  (∀ f p, ps !! f = Some p → 0 ≤ f ≤ l) → Z.of_nat (size ps) = l + 1 →
  ∀ i, 0 ≤ i ≤ l → is_Some (ps !! i).
Proof.
  intros Hr Hn i Hi. rewrite <- elem_of_dom.
  set (all := list_to_set (seqZ 0 (l + 1)) : gset Z).
  assert (Hsub : dom ps ⊆ all).
  { intros f [p Hp]%elem_of_dom. apply elem_of_list_to_set, elem_of_seqZ.
    specialize (Hr f p Hp). lia. }
  assert (Hsize : size all = Z.to_nat (l + 1)).
  { unfold all. rewrite size_list_to_set by apply NoDup_seqZ. by rewrite length_seqZ. }
  assert (Heq : dom ps = all).
  { apply set_eq_subseteq. split; [done|]. apply set_subseteq_size_equiv in Hsub as Heq.
    - set_solver.
    - rewrite Hsize, size_dom. lia. }
  rewrite Heq. apply elem_of_list_to_set, elem_of_seqZ. lia.
Qed.

Lemma parts_values_S ps n :
  parts_values ps (S n) = parts_values ps n ++ from_option snd [] (ps !! Z.of_nat n).
Proof.
  unfold parts_values. rewrite seq_S, fmap_app, concat_app; simpl. by rewrite app_nil_r.
Qed.

Lemma parts_values_ext ps ps' n :
  (∀ i, (i < n)%nat → ps !! Z.of_nat i = ps' !! Z.of_nat i) → parts_values ps n = parts_values ps' n.
Proof.
  induction n as [|n IH]; intros Heq; [done|]. rewrite !parts_values_S, IH, Heq; auto with lia.
Qed.

(** An additive measure of the delivered TLVs is its sum over the parts. *)
Lemma parts_values_measure (μ : list Tlv → Z) ps n :
  μ [] = 0 → (∀ l1 l2, μ (l1 ++ l2) = μ l1 + μ l2) →
  (∀ f p, ps !! f = Some p → 0 ≤ f < Z.of_nat n) →
  μ (parts_values ps n) = map_sum (λ p, μ (snd p)) ps.
Proof.
  intros H0 Happ. revert ps. induction n as [|n IH]; intros ps Hr.
  - replace ps with (∅ : gmap Z (bool * list Tlv)); [by rewrite map_sum_empty|].
    symmetry. apply map_empty. intros f. apply eq_None_not_Some. intros [p Hp].
    specialize (Hr f p Hp). lia.
  - rewrite parts_values_S, Happ.
    rewrite (parts_values_ext ps (delete (Z.of_nat n) ps))
      by (intros i Hi; rewrite lookup_delete_ne; [done|lia]).
    rewrite IH.
    + destruct (ps !! Z.of_nat n) as [p|] eqn:Hp; simpl.
      * rewrite (map_sum_delete _ _ _ _ Hp). lia.
      * by rewrite delete_id, H0, Z.add_0_r by done.
    + intros f p [Hne Hp]%lookup_delete_Some. specialize (Hr f p Hp). lia.
Qed.

Lemma parts_values_tlv_ok ps n :
  (∀ f p, ps !! f = Some p → Forall tlv_ok (snd p)) → Forall tlv_ok (parts_values ps n).
Proof.
  intros Hok. induction n as [|n IH]; [constructor|]. rewrite parts_values_S.
  apply Forall_app. split; [done|]. destruct (ps !! Z.of_nat n) eqn:Hp; [by eapply Hok|constructor].
Qed.

(** What the reassembler promises of a message it delivers. *)
Definition delivered_ok (r : Reassembler) (m : Message) : Prop :=
  Forall tlv_ok (m_tlvs m) ∧ len (m_tlvs m) ≤ MAX_TLVS ∧
  tlvs_size (m_tlvs m) ≤ max_message_bytes r ∧ 1 ≤ m_fragments m ≤ max_fragments r.

Lemma stored_ok r state p tlvs :
  assembly_ok r state → storable r state p tlvs →
  let a := stored state p tlvs in
  a_size a = map_sum (λ q, tlvs_size (snd q)) (parts a) ∧ a_size a ≤ max_message_bytes r ∧
  parts_count (parts a) ≤ MAX_TLVS ∧ parts_ok r a ∧
  (∀ l, a_last a = Some l → is_Some (parts a !! l)).
Proof.
  intros Hok Hst. pose proof (stored_parts_ok _ _ _ _ Hok Hst) as Hparts.
  destruct Hok as (Hsize & Hmsg & Hcount & _ & _ & Hlast).
  destruct Hst as (Hpoi & Hf & Htlvs & Hnone & Hl & Hgt & Hs & Hb & Hc).
  unfold stored, parts_count in *; simpl. rewrite !map_sum_insert by done. simpl.
  split; [lia|]. split; [lia|]. split; [unfold len in *; lia|]. split; [done|].
  intros l Hll. destruct (last p); [simplify_eq; by rewrite lookup_insert_eq|].
  destruct (Hlast Hpoi l Hll) as [Hin _]. destruct (decide (fid p = l)) as [->|].
  - by rewrite lookup_insert_eq.
  - by rewrite lookup_insert_ne.
Qed.

Lemma stored_delivers r state p tlvs l :
  assembly_ok r state → storable r state p tlvs →
  let a := stored state p tlvs in
  a_last a = Some l → Z.of_nat (size (parts a)) = l + 1 →
  delivered_ok r (mkMessage (destination p) (source p) (message_type p) (mid p) (relay p)
    (parts_values (parts a) (Z.to_nat (l + 1))) (l + 1)).
Proof.
  intros Hok Hst a Hl Hn. destruct (stored_ok _ _ _ _ Hok Hst) as (Hsize & Hmsg & Hcount & Hparts & Hlast).
  fold a in Hsize, Hmsg, Hcount, Hparts, Hlast. destruct (Hlast l Hl) as [q Hq].
  assert (Hr : ∀ f q, parts a !! f = Some q → 0 ≤ f < Z.of_nat (Z.to_nat (l + 1))).
  { intros f q' Hq'. destruct (Hparts f q' Hq') as (? & _ & Hm). rewrite Hl in Hm. lia. }
  unfold delivered_ok; cbn [m_tlvs m_fragments]. split; [|split; [|split]].
  - apply parts_values_tlv_ok. intros f q' Hq'. by destruct (Hparts f q' Hq') as (_ & ? & _).
  - rewrite (parts_values_measure len); [done|done|apply len_app|done].
  - rewrite (parts_values_measure tlvs_size); [by rewrite <- Hsize|done|apply tlvs_size_app|done].
  - destruct (Hparts l q Hq) as (? & _). lia.
Qed.

Lemma store_part_ok key state p tlvs :
  hoare (λ r, at_context key state r ∧ storable r state p tlvs) (store_part key state p tlvs)
    (λ res r, reassembler_ok r ∧ ∀ m, res = Some m → delivered_ok r m) (λ _, reassembler_ok).
Proof.
  intros r [[Hr Hk] Hst]. pose proof Hr as (_ & _ & _ & Hall & _).
  pose proof (Hall key state Hk) as Hok. cbn beta in Hok.
  destruct (stored_ok r state p tlvs Hok Hst) as (Hsize & Hmsg & Hcount & Hparts & Hlast).
  unfold store_part. fold (stored state p tlvs). set (a := stored state p tlvs) in *.
  unfold mbind, M_mbind, modify, mret, M_mret.
  assert (Hbuf : buffered r + tlvs_size tlvs = buffered r - a_size state + a_size a)
    by (unfold a; simpl; lia).
  assert (Hle : buffered r - a_size state + a_size a ≤ max_bytes r)
    by (rewrite <- Hbuf; apply Hst).
  assert (Hpoi : poisoned a = false) by apply Hst.
  set (r1 := r <| contexts := <[key := a]> (contexts r) |> <| buffered := buffered r + tlvs_size tlvs |>).
  assert (Hr1 : (∀ l, a_last a = Some l → Z.of_nat (size (parts a)) ≠ l + 1) → reassembler_ok r1).
  { intros Hinc. unfold r1. rewrite Hbuf. apply reassembler_ok_replace; [done|done| |done].
    unfold assembly_ok. rewrite Hpoi. do 4 (split; [done|]). split; [done|]. intros _ l Hl. auto. }
  destruct (a_last a) as [l|] eqn:Hl; [case_bool_decide as Hn|].
  - split; [|done]. apply Hr1. intros l' [= <-]. done.
  - split; [|intros m [= <-]].
    + pose proof (reassembler_ok_delete r key state Hr Hk) as Hdel. simpl in Hdel |- *.
      rewrite delete_insert_eq.
      replace (buffered r + tlvs_size tlvs - (a_size state + tlvs_size tlvs))
        with (buffered r - a_size state) by lia. exact Hdel.
    + exact (stored_delivers r state p tlvs l Hok Hst Hl Hn).
  - split; [|done]. apply Hr1. done.
Qed.

(** When no guard of [feed] fires, the fragment is storable. *)
Lemma storable_intro r state p tlvs :
  poisoned state = false → 0 ≤ fid p →
  (bool_decide (max_fragments r ≤ fid p) || negb (bool_decide (relay p = a_relay state))) = false →
  parse_tlvs (payload p) (last p) = Ok tlvs → parts state !! fid p = None →
  match a_last state with
  | None => false
  | Some l => bool_decide (l < fid p) || (last p && bool_decide (fid p ≠ l))
  end = false →
  parts_ok r state → (∀ l, a_last state = Some l → is_Some (parts state !! l)) →
  (last p && bool_decide (map_Exists (λ f _, fid p < f) (parts state))) = false →
  (bool_decide (max_message_bytes r < a_size state + tlvs_size tlvs)
   || bool_decide (max_bytes r < buffered r + tlvs_size tlvs)) = false →
  bool_decide (MAX_TLVS < parts_count (parts state) + len tlvs) = false →
  storable r state p tlvs.
Proof.
  intros Hpoi H0 Hidx Hparse Hnone Hlast Hparts Hpres Hgt Hsize Hcount. bools.
  apply parse_tlvs_layout in Hparse as (Hlay & _).
  split; [done|]. split; [lia|]. split; [by eapply layout_tlv_ok|]. split; [done|].
  split; [|split; [|split; [lia|split; lia]]].
  - intros l Hl. rewrite Hl in Hlast. bools. destruct (Hpres l Hl) as [q Hq].
    assert (fid p ≠ l) by (intros Heq; rewrite Heq, Hq in Hnone; done).
    split; [lia|]. split; [|done]. destruct (last p); [|done]. simpl in *. bools. done.
  - intros Hl f q Hq. rewrite Hl in Hgt. simpl in Hgt. bools.
    destruct (decide (f = fid p)) as [->|]; [by rewrite Hnone in Hq|].
    destruct (decide (fid p < f)); [|lia]. exfalso. apply Hgt. exists f. eauto.
Qed.

(** Case split on the outermost guard of the running code. *)
Ltac split_guard H :=
  match goal with |- context [(if ?b then _ else _) ?s] => destruct b eqn:H end.

(** [feed] keeps the invariant whatever the frame, and delivers only bounded messages. *)
Lemma feed_ok now0 now1 frame ingress :
  hoare reassembler_ok (feed now0 now1 frame ingress)
    (λ res r, reassembler_ok r ∧ ∀ m, res = Some m → delivered_ok r m) (λ _, reassembler_ok).
Proof.
  unfold feed. eapply hoare_bind with (R := λ _, reassembler_ok); [apply expire_ok|]. intros _.
  eapply hoare_bind with (R := λ p r, decode_frame frame = Ok p ∧ reassembler_ok r);
    [apply hoare_lift; auto|]. intros p.
  eapply hoare_bind with (R := λ _ r, decode_frame frame = Ok p ∧ reassembler_ok r);
    [apply hoare_lift; [auto|by intros ? ? ? []]|]. intros _. cbv zeta.
  set (key := (ingress, _, _, _, _)).
  eapply hoare_bind with (R := λ st r, decode_frame frame = Ok p ∧ at_context key st r).
  { intros r [Hd Hr]. pose proof (open_context_ok key (relay p) now1 r Hr).
    destruct (open_context _ _ _ r) as [[]]; auto. }
  intros st. eapply hoare_bind with (R := λ r s, s = r ∧ decode_frame frame = Ok p ∧ at_context key st r);
    [by apply hoare_get|]. intros self s (-> & Hd & Hat).
  assert (Hpoison : ∀ reason, let '(res, r') := poison key st reason self in
    match res with Ok a => reassembler_ok r' ∧ (∀ m, a = Some m → delivered_ok r' m)
    | Raise _ => reassembler_ok r' end).
  { intros reason. pose proof (poison_ok (A := option Message) key st reason (λ _ _, False) self Hat).
    destruct (poison _ _ _ _) as [[]]; [done|done]. }
  destruct (poisoned st) eqn:Hpoi; [apply Hat|].
  destruct (_ || _)%bool eqn:Hidx; [apply Hpoison|].
  destruct (parse_tlvs _ _) as [tlvs|] eqn:Hparse; [|apply Hpoison].
  destruct (parts st !! fid p) as [q|] eqn:Hq.
  { destruct (bool_decide (q ≠ _)); [apply Hpoison|]. split; [apply Hat|done]. }
  split_guard Hlast; [apply Hpoison|]. split_guard Hgt; [apply Hpoison|].
  split_guard Hsize; [apply Hpoison|]. split_guard Hcount; [apply Hpoison|].
  apply store_part_ok. split; [done|].
  destruct Hat as [(_ & _ & _ & Hall & _) Hk]. destruct (Hall _ _ Hk) as (_ & _ & _ & Hparts & _ & Hl).
  apply storable_intro; try done.
  - apply decode_frame_fid in Hd. lia.
  - intros l Hll. by apply Hl.
Qed.

(** ** Running [feed] on an acceptable fragment *)

Lemma expire_facts now self :
  ∃ c self1, expire now self = (Ok c, self1) ∧ same_limits self self1 ∧
    (reassembler_ok self → reassembler_ok self1 ∧ buffered self1 ≤ buffered self) ∧
    (size (contexts self1) ≤ size (contexts self))%nat ∧
    (∀ k, contexts self !! k = None → contexts self1 !! k = None) ∧
    (∀ k st, contexts self !! k = Some st → now - started st < timeout self →
       contexts self1 !! k = Some st).
Proof.
  eexists _, _. split; [reflexivity|]. split; [done|]. split; [|split; [|split]].
  - intros Hok. split; [by apply (expire_ok now self)|]. simpl.
    assert (0 ≤ map_sum a_size (filter (λ kv, timeout self ≤ now - started kv.2) (contexts self)));
      [|lia].
    apply map_sum_nonneg. intros k a [Ha _]%map_lookup_filter_Some. by eapply map_sum_contexts_nonneg.
  - apply map_subseteq_size, map_filter_subseteq.
  - intros k Hk. simpl. apply map_lookup_filter_None. by left.
  - intros k st Hk Hlive. simpl. apply map_lookup_filter_Some. split; [done|]. simpl. lia.
Qed.

Section Feed.
Context (now0 now1 : Z) (frame : bytes) (ingress : string).
Context (self self1 self2 : Reassembler) (c : Z) (p : Fragment) (tlvs : list Tlv) (st : Assembly).
Let key : context_key := (ingress, source p, destination p, message_type p, mid p).
Hypothesis Hexp : expire now0 self = (Ok c, self1).
Hypothesis Hdec : decode_frame frame = Ok p.
Hypothesis Hver : version p = 0.
Hypothesis Hopen : open_context key (relay p) now1 self1 = (Ok st, self2).
Hypothesis Hpoi : poisoned st = false.
Hypothesis Hfid : fid p < max_fragments self2.
Hypothesis Hrel : relay p = a_relay st.
Hypothesis Hparse : parse_tlvs (payload p) (last p) = Ok tlvs.

Lemma feed_duplicate :
  parts st !! fid p = Some (last p, tlvs) → feed now0 now1 frame ingress self = (Ok None, self2).
Proof.
  intros Hst. unfold feed, mbind, M_mbind, lift, get. rewrite Hexp, Hdec, Hver; simpl.
  fold key. rewrite Hopen, Hpoi, Hparse, Hst, bool_decide_eq_false_2 by lia.
  rewrite bool_decide_eq_true_2 by done. simpl. by rewrite bool_decide_eq_false_2 by naive_solver.
Qed.

Lemma feed_stores :
  storable self2 st p tlvs →
  feed now0 now1 frame ingress self = store_part key st p tlvs self2.
Proof.
  intros (_ & _ & _ & Hnone & Hl & Hgt & Hm & Hb & Hc).
  unfold feed, mbind, M_mbind, lift, get. rewrite Hexp, Hdec, Hver; simpl.
  fold key. rewrite Hopen, Hpoi, Hparse, Hnone, bool_decide_eq_false_2 by lia.
  rewrite bool_decide_eq_true_2 by done. simpl.
  rewrite (bool_decide_eq_false_2 (max_message_bytes self2 < _)) by lia.
  rewrite (bool_decide_eq_false_2 (max_bytes self2 < _)) by lia.
  rewrite (bool_decide_eq_false_2 (MAX_TLVS < _)) by lia. simpl.
  replace (match a_last st with Some l => _ | None => false end) with false.
  2:{ destruct (a_last st) as [l|]; [|done]. destruct (Hl l eq_refl) as (? & -> & _). simpl.
      by rewrite bool_decide_eq_false_2 by lia. }
  destruct (last p) eqn:Hlast; [|done]. simpl. rewrite bool_decide_eq_false_2; [done|].
  intros (f & q & Hq & Hlt). specialize (Hgt eq_refl f q Hq). lia.
Qed.
End Feed.

(** ** Reassembly inverts fragmentation *)

(** One arrival: the two clock readings and the index of the frame. *)
Definition arrival : Type := Z * Z * nat.

(** Feed a sequence of arrivals of the given frames; the results in order and the final state. *)
Fixpoint feed_all (frames : list bytes) (ingress : string) (arrivals : list arrival)
    (self : Reassembler) : list (result (option Message)) * Reassembler :=
  match arrivals with
  | [] => ([], self)
  | (now0, now1, i) :: arrivals =>
      let '(res, self') := feed now0 now1 (frames !!! i) ingress self in
      let '(rs, self'') := feed_all frames ingress arrivals self' in (res :: rs, self'')
  end.

Lemma map_sum_subseteq `{Countable K} {A} (f : A → Z) (m1 m2 : gmap K A) :
  (∀ k x, m2 !! k = Some x → 0 ≤ f x) → m1 ⊆ m2 → map_sum f m1 ≤ map_sum f m2.
Proof.
  revert m2. induction m1 as [|k x m1 Hk IH] using map_ind; intros m2 Hf Hsub.
  - rewrite map_sum_empty. by apply map_sum_nonneg.
  - assert (Hx : m2 !! k = Some x) by (eapply lookup_weaken, Hsub; apply lookup_insert_eq).
    rewrite map_sum_insert, (map_sum_delete _ _ _ _ Hx) by done.
    assert (map_sum f m1 ≤ map_sum f (delete k m2)); [|lia]. apply IH.
    + intros j y [_ Hj]%lookup_delete_Some. eauto.
    + apply map_subseteq_spec. intros j y Hj. apply lookup_delete_Some.
      assert (k ≠ j) by (intros ->; by rewrite Hk in Hj). split; [done|].
      eapply lookup_weaken; [|done]. by rewrite lookup_insert_ne.
Qed.

Section AnyOrder.
Context (dst src : bytes) (mtype id : Z) (rly : bool) (ingress : string).
Context (groups : list (list Tlv)).
Let n : nat := length groups.
Let key : context_key := (ingress, src, dst, mtype, id).
Let tlvs : list Tlv := concat groups.

Hypothesis Hn : (1 ≤ n)%nat.
Hypothesis Htlvs : Forall tlv_ok tlvs.
Hypothesis Hmax : len tlvs ≤ MAX_TLVS.
Hypothesis Hpart : ∀ i g, groups !! i = Some g →
  fragment_ok (part dst src mtype id rly n i g) ∧ (S i ≠ n → g ≠ []).

(** Every part of the message, by index. *)
Definition full_entry (i : nat) (g : list Tlv) : Z * (bool * list Tlv) :=
  (Z.of_nat i, (bool_decide (S i = n), g)).
Definition full : gmap Z (bool * list Tlv) := list_to_map (imap full_entry groups).

Lemma full_lookup i : full !! Z.of_nat i = (λ g, (bool_decide (S i = n), g)) <$> groups !! i.
Proof.
  unfold full. destruct (groups !! i) as [g|] eqn:Hg; simpl.
  - apply elem_of_list_to_map_1.
    + apply NoDup_fmap_fst.
      * intros x y1 y2 Hx Hy. apply elem_of_lookup_imap_1 in Hx as (j & gj & [= -> ->] & Hj).
        apply elem_of_lookup_imap_1 in Hy as (j' & gj' & [= Hjj ->] & Hj').
        assert (j = j') as -> by lia. by simplify_eq.
      * apply NoDup_alt. intros j k x Hj Hk. rewrite list_lookup_imap_Some in Hj, Hk.
        destruct Hj as (? & _ & ->), Hk as (? & _ & [= ? _]). lia.
    + by apply (elem_of_lookup_imap_2 full_entry).
  - apply not_elem_of_list_to_map_1. intros Hin.
    apply list_elem_of_fmap in Hin as ([j p] & Heq & Hin). simpl in Heq. subst j.
    apply elem_of_lookup_imap_1 in Hin as (j & gj & [= Hj _] & Hgj).
    assert (i = j) as -> by lia. by rewrite Hg in Hgj.
Qed.

Lemma full_inv f p : full !! f = Some p →
  ∃ i g, f = Z.of_nat i ∧ groups !! i = Some g ∧ p = (bool_decide (S i = n), g).
Proof.
  intros Hf. apply elem_of_list_to_map_2 in Hf.
  apply elem_of_lookup_imap_1 in Hf as (i & g & [= -> ->] & Hg). eauto.
Qed.

Lemma full_size : size full = n.
Proof.
  assert (Hdom : dom full = list_to_set (Z.of_nat <$> seq 0 n) :> gset Z).
  { apply set_eq. intros f. rewrite elem_of_dom, elem_of_list_to_set, list_elem_of_fmap. split.
    - intros [p (i & g & -> & Hg%lookup_lt_Some & _)%full_inv]. exists i.
      split; [done|]. apply elem_of_seq. unfold n. lia.
    - intros (i & -> & Hi%elem_of_seq). rewrite full_lookup.
      destruct (lookup_lt_is_Some_2 groups i) as [g ->]; [unfold n in Hi; lia|]. eauto. }
  rewrite <- size_dom, Hdom, size_list_to_set.
  - by rewrite length_fmap, length_seq.
  - apply NoDup_fmap_2; [apply _|]. apply NoDup_seq.
Qed.

Lemma full_values : parts_values full n = tlvs.
Proof.
  unfold parts_values, tlvs. f_equal. apply list_eq. intros i.
  rewrite list_lookup_fmap. destruct (decide (i < n)%nat) as [Hi|Hi].
  - rewrite lookup_seq_lt by done. simpl. rewrite full_lookup.
    destruct (lookup_lt_is_Some_2 groups i) as [g ->]; [done|]. done.
  - rewrite lookup_seq_ge by lia. symmetry. apply lookup_ge_None. unfold n in Hi. lia.
Qed.

Lemma full_measure (μ : list Tlv → Z) :
  μ [] = 0 → (∀ l1 l2, μ (l1 ++ l2) = μ l1 + μ l2) →
  map_sum (λ p : bool * list Tlv, μ (snd p)) full = μ tlvs.
Proof.
  intros H0 Happ. rewrite <- full_values. symmetry. apply parts_values_measure; [done|done|].
  intros f p (i & g & -> & Hg%lookup_lt_Some & _)%full_inv. unfold n. lia.
Qed.

(** The parts received so far. *)
Definition received (idx : list nat) : gmap Z (bool * list Tlv) :=
  filter (λ kv, Z.to_nat (fst kv) ∈ idx) full.

Lemma received_subseteq idx : received idx ⊆ full.
Proof. apply map_filter_subseteq. Qed.

Lemma received_insert i g idx :
  groups !! i = Some g →
  <[Z.of_nat i := (bool_decide (S i = n), g)]> (received idx) = received (i :: idx).
Proof.
  intros Hg. unfold received. apply map_eq. intros f. destruct (decide (f = Z.of_nat i)) as [->|Hne].
  - rewrite lookup_insert_eq. symmetry. apply map_lookup_filter_Some. rewrite full_lookup, Hg.
    split; [done|]. simpl. rewrite Nat2Z.id. apply list_elem_of_here.
  - rewrite lookup_insert_ne by done. apply option_eq. intros p.
    rewrite !map_lookup_filter_Some. simpl. rewrite elem_of_cons. split; [naive_solver|].
    intros [Hf [Heq|?]]; [|done]. destruct (full_inv f p Hf) as (j & ? & -> & _). lia.
Qed.

Lemma received_none i idx : i ∉ idx → received idx !! Z.of_nat i = None.
Proof.
  intros Hi. apply map_lookup_filter_None. right. intros p _. simpl. by rewrite Nat2Z.id.
Qed.

Lemma received_some i g idx :
  groups !! i = Some g → i ∈ idx → received idx !! Z.of_nat i = Some (bool_decide (S i = n), g).
Proof.
  intros Hg Hi. apply map_lookup_filter_Some. rewrite full_lookup, Hg. simpl. by rewrite Nat2Z.id.
Qed.

Lemma received_all idx : (∀ i, (i < n)%nat → i ∈ idx) → received idx = full.
Proof.
  intros Hall. apply map_filter_id. intros f p (i & g & -> & Hg%lookup_lt_Some & _)%full_inv.
  simpl. rewrite Nat2Z.id. by apply Hall.
Qed.

Lemma received_partial idx i : (i < n)%nat → i ∉ idx → (size (received idx) < n)%nat.
Proof.
  intros Hi Hni. rewrite <- full_size. apply map_subset_size. apply map_subset_alt.
  split; [apply received_subseteq|]. exists (Z.of_nat i). split; [by apply received_none|].
  rewrite full_lookup. destruct (lookup_lt_is_Some_2 groups i Hi) as [g ->]. eauto.
Qed.

(** A context that holds exactly the parts received so far. *)
Definition gathered (idx : list nat) (st : Assembly) : Prop :=
  poisoned st = false ∧ a_relay st = rly ∧ parts st = received idx ∧
  a_last st = (if decide ((n - 1)%nat ∈ idx) then Some (Z.of_nat (n - 1)) else None).

(** The state of the reassembler while the message is arriving: room for the rest of it. *)
Definition arriving (t : Z) (idx : list nat) (self : Reassembler) : Prop :=
  reassembler_ok self ∧ Z.of_nat n ≤ max_fragments self ∧ tlvs_size tlvs ≤ max_message_bytes self ∧
  ∃ st, contexts self !! key = Some st ∧ started st = t ∧ gathered idx st ∧
    buffered self + tlvs_size tlvs - a_size st ≤ max_bytes self.

(** Before the first arrival: no context, but room for one. *)
Definition ready (self : Reassembler) : Prop :=
  reassembler_ok self ∧ Z.of_nat n ≤ max_fragments self ∧ tlvs_size tlvs ≤ max_message_bytes self ∧
  contexts self !! key = None ∧ Z.of_nat (size (contexts self)) < max_contexts self ∧
  buffered self + tlvs_size tlvs ≤ max_bytes self.

Abbreviation frag i g := (part dst src mtype id rly n i g).

Lemma parse_group i g : groups !! i = Some g →
  parse_tlvs (payload (frag i g)) (last (frag i g)) = Ok g.
Proof.
  intros Hg. destruct (Hpart i g Hg) as [_ Hne]. apply parse_part; [| |done].
  - pose proof Htlvs as Hok. apply Forall_concat in Hok. by eapply Forall_lookup_1 in Hok.
  - apply concat_lookup_length in Hg. unfold tlvs, len in *. lia.
Qed.

Lemma gathered_stored idx st i g :
  gathered idx st → groups !! i = Some g → i ∉ idx →
  gathered (i :: idx) (stored st (frag i g) g).
Proof.
  intros (Hpoi & Hrel & Hps & Hl) Hg Hi. pose proof (lookup_lt_Some _ _ _ Hg) as Hlt. fold n in Hlt.
  unfold gathered, stored; simpl. do 2 (split; [done|]). split.
  - rewrite Hps. by apply received_insert.
  - rewrite Hl. case_bool_decide as Hfin.
    + rewrite decide_True; [f_equal; lia|]. replace (n - 1)%nat with i by lia. apply list_elem_of_here.
    + apply decide_ext. rewrite elem_of_cons. split; [auto|]. intros [|]; [lia|done].
Qed.

(** Room for the missing parts makes the next one storable. *)
Lemma gathered_storable idx st i g self :
  reassembler_ok self → contexts self !! key = Some st → gathered idx st →
  Z.of_nat n ≤ max_fragments self → tlvs_size tlvs ≤ max_message_bytes self →
  buffered self + tlvs_size tlvs - a_size st ≤ max_bytes self →
  groups !! i = Some g → i ∉ idx → storable self st (frag i g) g.
Proof.
  intros Hok Hk Hga Hfr Hmsg Hbuf Hg Hi. pose proof Hga as (Hpoi & Hrel & Hps & Hl).
  pose proof (lookup_lt_Some _ _ _ Hg) as Hlt. fold n in Hlt.
  destruct Hok as (_ & _ & _ & Hall & _). destruct (Hall _ _ Hk) as (Hsize & _).
  pose proof (gathered_stored idx st i g Hga Hg Hi) as (_ & _ & Hps' & _). simpl in Hps'.
  assert (Hnone : parts st !! Z.of_nat i = None) by (rewrite Hps; by apply received_none).
  assert (Hsub : ∀ (μ : list Tlv → Z), μ [] = 0 → (∀ l1 l2, μ (l1 ++ l2) = μ l1 + μ l2) →
    (∀ l, 0 ≤ μ l) → μ g + map_sum (λ p, μ (snd p)) (parts st) ≤ μ tlvs).
  { intros μ H0 Happ Hpos. rewrite <- (full_measure μ H0 Happ).
    pose proof (map_sum_insert (λ p : bool * list Tlv, μ (snd p)) (parts st) (Z.of_nat i)
      (bool_decide (S i = n), g) Hnone) as Hins. simpl in Hins. rewrite <- Hins, Hps'.
    apply map_sum_subseteq; [by intros|apply received_subseteq]. }
  pose proof (Hsub tlvs_size eq_refl tlvs_size_app tlvs_size_nonneg) as Hts.
  pose proof (Hsub len eq_refl len_app ltac:(intros; unfold len; lia)) as Hlen.
  unfold storable, parts_count; cbn [fid last part]. split; [done|]. split; [lia|].
  split; [pose proof Htlvs as Hok'; apply Forall_concat in Hok'; by eapply Forall_lookup_1 in Hok'|].
  split; [done|]. split; [|split; [|split; [lia|split; lia]]].
  - intros l Hll. rewrite Hl in Hll. case_decide as Hin; [|done]. injection Hll as <-.
    assert (i ≠ n - 1)%nat by (by intros ->). split; [lia|]. split; [|lia].
    apply bool_decide_eq_false_2. lia.
  - intros Hfin%bool_decide_eq_true f q Hq. rewrite Hps in Hq.
    apply map_lookup_filter_Some in Hq as [(j & gj & -> & Hj & _)%full_inv Hin].
    simpl in Hin. rewrite Nat2Z.id in Hin. assert (j ≠ i) by (by intros ->).
    apply lookup_lt_Some in Hj. fold n in Hj. lia.
Qed.

(** What the reassembler delivers. *)
Definition whole : Message := mkMessage dst src mtype id rly tlvs (Z.of_nat n).

Section Store.
Context (idx : list nat) (st : Assembly) (i : nat) (g : list Tlv) (self : Reassembler).
Hypothesis Hok : reassembler_ok self.
Hypothesis Hk : contexts self !! key = Some st.
Hypothesis Hga : gathered idx st.
Hypothesis Hfr : Z.of_nat n ≤ max_fragments self.
Hypothesis Hmsg : tlvs_size tlvs ≤ max_message_bytes self.
Hypothesis Hbuf : buffered self + tlvs_size tlvs - a_size st ≤ max_bytes self.
Hypothesis Hg : groups !! i = Some g.
Hypothesis Hi : i ∉ idx.

Lemma store_last :
  (∀ j, (j < n)%nat → j ∈ i :: idx) →
  ∃ self', store_part key st (frag i g) g self = (Ok (Some whole), self').
Proof.
  intros Hall. destruct (gathered_stored idx st i g Hga Hg Hi) as (_ & _ & Hps & Hl).
  unfold store_part. fold (stored st (frag i g) g). set (a := stored st (frag i g) g) in *.
  rewrite Hl, decide_True by (apply Hall; lia). rewrite Hps, received_all, full_size by done.
  rewrite bool_decide_eq_false_2 by lia. unfold mbind, M_mbind, modify, mret, M_mret.
  eexists. do 3 f_equal. unfold whole. replace (Z.of_nat (n - 1) + 1) with (Z.of_nat n) by lia.
  rewrite Nat2Z.id, full_values. done.
Qed.

Lemma store_more j :
  (j < n)%nat → j ∉ i :: idx →
  ∃ self', store_part key st (frag i g) g self = (Ok None, self') ∧
    timeout self' = timeout self ∧ arriving (started st) (i :: idx) self'.
Proof.
  intros Hj Hnj. pose proof (gathered_stored idx st i g Hga Hg Hi) as Hga'.
  pose proof Hga' as (_ & _ & Hps & Hl).
  pose proof (store_part_ok key st (frag i g) g self (conj (conj Hok Hk)
    (gathered_storable idx st i g self Hok Hk Hga Hfr Hmsg Hbuf Hg Hi))) as Hpost.
  pose proof (received_partial (i :: idx) j Hj Hnj) as Hsize.
  unfold store_part in *. fold (stored st (frag i g) g) in *.
  set (a := stored st (frag i g) g) in *. rewrite Hl, Hps in *.
  unfold mbind, M_mbind, modify, mret, M_mret in *.
  set (self1 := self <| contexts := _ |> <| buffered := _ |>) in *.
  assert (Hbuf1 : buffered self1 + tlvs_size tlvs - a_size a ≤ max_bytes self1)
    by (unfold self1, a; simpl; lia).
  exists self1. split; [|split; [done|]].
  - case_decide; [|done]. by rewrite bool_decide_eq_true_2 by lia.
  - assert (Hok1 : reassembler_ok self1).
    { revert Hpost. case_decide; [|by intros [? _]].
      rewrite bool_decide_eq_true_2 by lia. by intros [? _]. }
    split; [done|]. split; [done|]. split; [done|]. exists a.
    split; [apply lookup_insert_eq|]. done.
Qed.
End Store.

(** One arrival into the context [st], already there or just created. *)
Lemma arrive_at idx st self self1 self2 c now0 now1 i g :
  expire now0 self = (Ok c, self1) → open_context key rly now1 self1 = (Ok st, self2) →
  reassembler_ok self2 → contexts self2 !! key = Some st → gathered idx st →
  Z.of_nat n ≤ max_fragments self2 → tlvs_size tlvs ≤ max_message_bytes self2 →
  buffered self2 + tlvs_size tlvs - a_size st ≤ max_bytes self2 → groups !! i = Some g →
  ∃ self', (i ∈ idx ∨ (∃ j, (j < n)%nat ∧ j ∉ i :: idx) →
      feed now0 now1 (frame_bytes (frag i g)) ingress self = (Ok None, self') ∧
      timeout self' = timeout self2 ∧
      arriving (started st) (if decide (i ∈ idx) then idx else i :: idx) self') ∧
    (i ∉ idx → (∀ j, (j < n)%nat → j ∈ i :: idx) →
      feed now0 now1 (frame_bytes (frag i g)) ingress self = (Ok (Some whole), self')).
Proof.
  intros Hexp Hopen Hok Hk Hga Hfr Hmsg Hbuf Hg.
  destruct (Hpart i g Hg) as [Hfok _]. pose proof (decode_frame_bytes _ Hfok) as Hdec.
  assert (Hver : version (frag i g) = 0) by done.
  pose proof Hga as (Hpoi & Hrel & Hps & Hl). pose proof (lookup_lt_Some _ _ _ Hg) as Hlt. fold n in Hlt.
  assert (Hfid : fid (frag i g) < max_fragments self2) by (simpl; lia).
  assert (Hrel' : relay (frag i g) = a_relay st) by done.
  pose proof (parse_group i g Hg) as Hparse.
  destruct (decide (i ∈ idx)) as [Hi|Hi].
  - exists self2. split; [|done]. intros _. split; [|split; [done|]].
    + eapply feed_duplicate; try done. rewrite Hps. by apply received_some.
    + split; [done|]. do 2 (split; [done|]). exists st. done.
  - assert (Hstor : storable self2 st (frag i g) g) by (by eapply gathered_storable).
    pose proof (feed_stores now0 now1 _ ingress self self1 self2 c (frag i g) g st Hexp Hdec Hver Hopen
      Hpoi Hfid Hrel' Hparse Hstor) as Hfeed.
    destruct (decide (Forall (λ j, j ∈ i :: idx) (seq 0 n))) as [Hall|Hmiss].
    + assert (Hall' : ∀ j, (j < n)%nat → j ∈ i :: idx).
      { intros j Hj. rewrite Forall_forall in Hall. apply Hall, elem_of_seq. lia. }
      destruct (store_last idx st i g self2) as [self' Hs]; try done. exists self'. split.
      * intros [?|(j & Hj & Hnj)]; [done|]. by destruct Hnj; auto.
      * intros _ _. by rewrite Hfeed.
    + apply not_Forall_Exists, Exists_exists in Hmiss as (j & Hj%elem_of_seq & Hnj); [|apply _].
      destruct (store_more idx st i g self2) with j as (self' & Hs & Hto & Harr); try done; try lia.
      exists self'. split.
      * intros _. by rewrite Hfeed.
      * intros _ Hall. destruct Hnj. apply Hall. lia.
Qed.

(** An arrival before the deadline of the message. *)
Lemma arrive t idx self now0 now1 i g :
  arriving t idx self → now0 - t < timeout self → groups !! i = Some g →
  ∃ self', (i ∈ idx ∨ (∃ j, (j < n)%nat ∧ j ∉ i :: idx) →
      feed now0 now1 (frame_bytes (frag i g)) ingress self = (Ok None, self') ∧
      timeout self' = timeout self ∧ arriving t (if decide (i ∈ idx) then idx else i :: idx) self') ∧
    (i ∉ idx → (∀ j, (j < n)%nat → j ∈ i :: idx) →
      feed now0 now1 (frame_bytes (frag i g)) ingress self = (Ok (Some whole), self')).
Proof.
  intros (Hok & Hfr & Hmsg & st & Hk & <- & Hga & Hbuf) Htime Hg.
  destruct (expire_facts now0 self) as (c & self1 & Hexp & Hlim & Hok1 & _ & _ & Hkeep).
  destruct (Hok1 Hok) as [Hok1' Hbuf1]. destruct Hlim as (Ht & _ & Hmb & Hmm & Hmf).
  rewrite <- Ht. assert (Hk1 : contexts self1 !! key = Some st) by (apply Hkeep; [done|lia]).
  eapply arrive_at; try done; try lia.
  unfold open_context, mbind, M_mbind, get. by rewrite Hk1.
Qed.

(** The first arrival opens the context, which starts at the clock reading [now1]. *)
Lemma arrive_first self now0 now1 i g :
  ready self → groups !! i = Some g →
  ∃ self', ((∃ j, (j < n)%nat ∧ j ≠ i) →
      feed now0 now1 (frame_bytes (frag i g)) ingress self = (Ok None, self') ∧
      timeout self' = timeout self ∧ arriving now1 [i] self') ∧
    ((∀ j, (j < n)%nat → j = i) →
      feed now0 now1 (frame_bytes (frag i g)) ingress self = (Ok (Some whole), self')).
Proof.
  intros (Hok & Hfr & Hmsg & Hk & Hroom & Hbuf) Hg.
  destruct (expire_facts now0 self) as (c & self1 & Hexp & Hlim & Hok1 & Hsize & Hnone & _).
  destruct (Hok1 Hok) as [Hok1' Hbuf1]. destruct Hlim as (Ht & Hmc & Hmb & Hmm & Hmf).
  set (st := mkAssembly now1 rly ∅ None 0 false).
  set (self2 := self1 <| contexts := <[key := st]> (contexts self1) |>).
  assert (Hopen : open_context key rly now1 self1 = (Ok st, self2)).
  { unfold open_context, mbind, M_mbind, get. rewrite Hnone by done.
    by rewrite bool_decide_eq_false_2 by lia. }
  pose proof (open_context_ok key rly now1 self1 Hok1') as Hopened. rewrite Hopen in Hopened.
  destruct Hopened as [Hok2 Hk2].
  assert (Hga : gathered [] st).
  { split; [done|]. split; [done|]. split; simpl.
    - symmetry. apply map_empty. intros f. apply map_lookup_filter_None. right. intros p _.
      apply not_elem_of_nil.
    - done. }
  destruct (arrive_at [] st self self1 self2 c now0 now1 i g) as (self' & Hmore & Hall);
    try done; [simpl; lia..|].
  exists self'. split.
  - intros (j & Hj & Hne). rewrite <- Ht. apply Hmore. right. exists j. split; [done|].
    rewrite elem_of_cons. intros [|?%not_elem_of_nil]; done.
  - intros Heq. apply Hall; [apply not_elem_of_nil|]. intros j Hj. rewrite (Heq j Hj). apply list_elem_of_here.
Qed.
End AnyOrder.

Lemma Reassembler_init_ok t mc mb mm mf r : Reassembler_init t mc mb mm mf = Ok r → reassembler_ok r.
Proof.
  unfold Reassembler_init. intros H. inv_ok. bools.
  unfold reassembler_ok; simpl. rewrite map_sum_empty, map_size_empty.
  split_and!; try lia. apply map_Forall_empty.
Qed.

Section Runs.
Context (dst src : bytes) (mtype id : Z) (rly : bool) (ingress : string) (groups : list (list Tlv)).
Abbreviation n := (length groups).
Abbreviation frames :=
  (imap (λ i g, frame_bytes (part dst src mtype id rly (length groups) i g)) groups).
Hypothesis Hn : (1 ≤ n)%nat.
Hypothesis Htlvs : Forall tlv_ok (concat groups).
Hypothesis Hmax : len (concat groups) ≤ MAX_TLVS.
Hypothesis Hpart : ∀ i g, groups !! i = Some g →
  fragment_ok (part dst src mtype id rly n i g) ∧ (S i ≠ n → g ≠ []).

Lemma frames_lookup i g :
  groups !! i = Some g → frames !!! i = frame_bytes (part dst src mtype id rly n i g).
Proof. intros Hg. apply list_lookup_total_correct. by rewrite list_lookup_imap, Hg. Qed.

(** The rest of the run, once the context is open: [idx] has arrived. *)
Lemma feed_all_arriving t idx before now0 now1 i self :
  arriving dst src mtype id rly ingress groups t idx self →
  Forall (λ a, (snd a < n)%nat) (before ++ [(now0, now1, i)]) →
  (∀ j, (j < n)%nat → j ∈ idx ∨ j ∈ snd <$> (before ++ [(now0, now1, i)])) →
  i ∉ idx → i ∉ snd <$> before →
  Forall (λ a, fst (fst a) - t < timeout self) (before ++ [(now0, now1, i)]) →
  fst (feed_all frames ingress (before ++ [(now0, now1, i)]) self) =
    replicate (length before) (Ok None) ++ [Ok (Some (whole dst src mtype id rly groups))].
Proof.
  revert idx self. induction before as [|[[m0 m1] k] before IH];
    intros idx self Harr Hrange Hcover Hidx Hbef Htime; cbn [app] in *;
    apply Forall_cons in Hrange as [Hk Hrange]; apply Forall_cons in Htime as [Hm Htime]; simpl in Hk, Hm;
    destruct (lookup_lt_is_Some_2 groups _ Hk) as [g Hg].
  - destruct (arrive dst src mtype id rly ingress groups Hn Htlvs Hmax Hpart t idx self now0 now1 i g
      Harr Hm Hg) as (self' & _ & Hlast).
    cbn [feed_all]. rewrite (frames_lookup i g Hg), Hlast; [done|done|].
    intros j Hj. rewrite elem_of_cons. destruct (Hcover j Hj) as [|Hin]; [by right|].
    simpl in Hin. apply elem_of_cons in Hin as [->|?%not_elem_of_nil]; [by left|done].
  - destruct (arrive dst src mtype id rly ingress groups Hn Htlvs Hmax Hpart t idx self m0 m1 k g
      Harr Hm Hg) as (self' & Hmore & _).
    simpl in Hbef. apply not_elem_of_cons in Hbef as [Hki Hbef].
    assert (Hi : (i < n)%nat) by (by apply Forall_app in Hrange as [_ [? _]%Forall_cons]).
    destruct Hmore as (Hfeed & Hto & Harr').
    { right. exists i. split; [done|]. by apply not_elem_of_cons. }
    cbn [feed_all]. rewrite (frames_lookup k g Hg), Hfeed.
    specialize (IH _ self' Harr' Hrange). destruct (feed_all _ _ _ self') as [rs self''] eqn:E.
    simpl in IH |- *. f_equal. apply IH.
    + intros j Hj. destruct (Hcover j Hj) as [Hin|Hin].
      * left. case_decide; [done|]. by apply list_elem_of_further.
      * cbn in Hin. apply elem_of_cons in Hin as [->|Hin]; [|by right].
        left. case_decide; [done|]. apply list_elem_of_here.
    + case_decide; [done|]. by apply not_elem_of_cons.
    + done.
    + by rewrite Hto.
Qed.

Lemma feed_all_any_order before now0 now1 i self :
  ready dst src mtype id ingress groups self →
  Forall (λ a, (snd a < n)%nat) (before ++ [(now0, now1, i)]) →
  (∀ j, (j < n)%nat → j ∈ snd <$> (before ++ [(now0, now1, i)])) →
  i ∉ snd <$> before →
  (∀ first, head (before ++ [(now0, now1, i)]) = Some first →
     Forall (λ a, fst (fst a) - snd (fst first) < timeout self) (before ++ [(now0, now1, i)])) →
  fst (feed_all frames ingress (before ++ [(now0, now1, i)]) self) =
    replicate (length before) (Ok None) ++ [Ok (Some (whole dst src mtype id rly groups))].
Proof.
  intros Hready Hrange Hcover Hbef Htime. destruct before as [|[[m0 m1] k] before]; cbn [app] in *;
    apply Forall_cons in Hrange as [Hk Hrange]; simpl in Hk;
    destruct (lookup_lt_is_Some_2 groups _ Hk) as [g Hg].
  - destruct (arrive_first dst src mtype id rly ingress groups Hn Htlvs Hmax Hpart self now0 now1 i g
      Hready Hg) as (self' & _ & Hlast).
    cbn [feed_all]. rewrite (frames_lookup i g Hg), Hlast; [done|].
    intros j Hj. specialize (Hcover j Hj). simpl in Hcover.
    by apply elem_of_cons in Hcover as [->|?%not_elem_of_nil].
  - destruct (arrive_first dst src mtype id rly ingress groups Hn Htlvs Hmax Hpart self m0 m1 k g
      Hready Hg) as (self' & Hmore & _).
    simpl in Hbef. apply not_elem_of_cons in Hbef as [Hki Hbef].
    assert (Hi : (i < n)%nat) by (by apply Forall_app in Hrange as [_ [? _]%Forall_cons]).
    destruct Hmore as (Hfeed & Hto & Harr); [by exists i|].
    cbn [feed_all]. rewrite (frames_lookup k g Hg), Hfeed.
    specialize (Htime _ eq_refl). apply Forall_cons in Htime as [_ Htime]. simpl in Htime.
    pose proof (feed_all_arriving m1 [k] before now0 now1 i self' Harr Hrange) as Hrest.
    destruct (feed_all _ _ _ self') as [rs self''] eqn:E. simpl in Hrest |- *. f_equal. apply Hrest.
    + intros j Hj. specialize (Hcover j Hj). cbn in Hcover. rewrite elem_of_cons in Hcover.
      rewrite elem_of_cons. tauto.
    + apply not_elem_of_cons. split; [done|apply not_elem_of_nil].
    + done.
    + by rewrite Hto.
Qed.
End Runs.

(** * Properties *)

(** C10: whatever octets arrive, from whatever peer and at whatever times, and whether a call returns
    or raises, the reassembler's accounting stays exact and its budgets hold: the buffered byte
    count is the sum of what the contexts hold and at most [max_bytes], there are at most
    [max_contexts] contexts, each holds at most [max_message_bytes] octets and 256 TLVs, a poisoned
    context holds nothing, and no context holds a complete message. A delivered message obeys the
    same limits. *)
Theorem reassembler_invariant (self : Reassembler) (now0 now1 : Z) (frame : bytes) (ingress : string) :
  reassembler_ok self →
  let '(res, self') := feed now0 now1 frame ingress self in
  reassembler_ok self' ∧ ∀ m, res = Ok (Some m) → delivered_ok self' m.
Proof.
  intros Hok. pose proof (feed_ok now0 now1 frame ingress self Hok) as H.
  destruct (feed _ _ _ _ _) as [[m|e] self']; [|split; [done|congruence]].
  destruct H as [H1 H2]. split; [done|]. intros m' [= ->]. auto.
Qed.

Definition example_reassembler : Reassembler :=
  mkReassembler (seconds 5) 64 (2 * 1024 * 1024) 65536 64 ∅ 0.

Lemma reassembler_invariant_witness :
  default_Reassembler = Ok example_reassembler ∧
  reassembler_ok (snd (feed 0 0 (octets [1; 2; 3]) "offline" example_reassembler)).
Proof.
  split; [vm_compute; reflexivity|].
  pose proof (reassembler_invariant example_reassembler 0 0 (octets [1; 2; 3]) "offline") as H.
  destruct (feed _ _ _ _ _) as [res self']. apply H.
  apply (Reassembler_init_ok (seconds 5) 64 (2 * 1024 * 1024) 65536 64). vm_compute. reflexivity.
Defined.

(** C9: reassembly inverts fragmentation in any order. Take the frames [fragment_message] made of a
    TLV list and let them arrive, with any repetitions, in any order, before the deadline that the
    first arrival starts, at a reassembler that has room for the message and no context for it.
    Every arrival but the one that completes the set returns nothing, and that one returns the
    message with exactly the original TLVs in the original order. *)
Theorem reassembly_any_order (d s : bytes) (t id : Z) (tlvs : list Tlv) (r : bool) (mtu : Z)
    (frames : list bytes) (self : Reassembler) (ingress : string)
    (before : list arrival) (now0 now1 : Z) (i : nat) :
  fragment_message d s t id tlvs r mtu = Ok frames →
  reassembler_ok self →
  contexts self !! (ingress, s, d, t, id) = None →
  Z.of_nat (size (contexts self)) < max_contexts self →
  len frames ≤ max_fragments self →
  tlvs_size tlvs ≤ max_message_bytes self →
  buffered self + tlvs_size tlvs ≤ max_bytes self →
  let arrivals := before ++ [(now0, now1, i)] in
  Forall (λ a, (snd a < length frames)%nat) arrivals →
  (∀ j, (j < length frames)%nat → j ∈ snd <$> arrivals) →
  i ∉ snd <$> before →
  (∀ first, head arrivals = Some first →
     Forall (λ a, fst (fst a) - snd (fst first) < timeout self) arrivals) →
  fst (feed_all frames ingress arrivals self) =
    replicate (length before) (Ok None) ++ [Ok (Some (mkMessage d s t id r tlvs (len frames)))].
Proof.
  intros Hfrag Hok Hnone Hroom Hfr Hmsg Hbuf arrivals Hrange Hcover Hi Htime.
  apply fragment_message_groups in Hfrag as (groups & <- & Htlvs & Hmax & Hn & -> & Hpart).
  rewrite length_imap in *. assert (Hlen : len (imap (λ i g, frame_bytes (part d s t id r (length groups) i g)) groups)
    = Z.of_nat (length groups)) by (unfold len; by rewrite length_imap). rewrite Hlen in *.
  assert (Hpart' : ∀ i g, groups !! i = Some g →
    fragment_ok (part d s t id r (length groups) i g) ∧ (S i ≠ length groups → g ≠ [])).
  { intros j g Hg. destruct (Hpart j g Hg) as (? & ? & _). done. }
  apply (feed_all_any_order d s t id r ingress groups); try done; try lia.
Qed.

Definition example_message_tlvs : list Tlv :=
  [mkTlv 0x80 (octets [1; 0]); mkTlv 0x81 (octets [1; 0]); mkTlv 0xB3 (octets [3])].

Definition example_frames : list bytes :=
  match fragment_message MULTICAST (octets [2; 0; 0; 0; 0; 1]) 7 9 example_message_tlvs false 20 with
  | Ok frames => frames
  | Raise _ => []
  end.

Lemma reassembly_any_order_witness :
  length example_frames = 2%nat ∧
  fst (feed_all example_frames "eth0" [(0, 0, 1%nat); (5, 5, 1%nat); (10, 10, 0%nat)] example_reassembler) =
    [Ok None; Ok None;
     Ok (Some (mkMessage MULTICAST (octets [2; 0; 0; 0; 0; 1]) 7 9 false example_message_tlvs 2))].
Proof.
  split; [vm_compute; reflexivity|].
  apply (reassembly_any_order MULTICAST (octets [2; 0; 0; 0; 0; 1]) 7 9 example_message_tlvs false 20
    example_frames example_reassembler "eth0" [(0, 0, 1%nat); (5, 5, 1%nat)] 10 10 0%nat).
  - vm_compute. reflexivity.
  - apply (Reassembler_init_ok (seconds 5) 64 (2 * 1024 * 1024) 65536 64). vm_compute. reflexivity.
  - vm_compute. reflexivity.
  - vm_compute. reflexivity.
  - vm_compute. discriminate.
  - vm_compute. discriminate.
  - vm_compute. discriminate.
  - repeat constructor; vm_compute; lia.
  - intros j Hj. vm_compute in Hj. destruct j as [|[|]]; [| |lia]; apply list_elem_of_In; simpl; auto.
  - intros H%list_elem_of_In. simpl in H. lia.
  - intros first [= <-]. repeat constructor; vm_compute; done.
Defined.
