(* ===== verification/Lifecycle.v ===== *)
(** * Intents, observations, operations and their lifecycle guard

    [src/emosa/model.py] and [src/emosa/operations.py]: the intents a scope accepts (behind the
    interface [IntentType], since the engine is generic in its [intent_type]), the observation a
    backend reports, the durable operation record and the guarded [transition]. *)

From stdpp Require Import sorting.
From S2P Require Import Prelude.

(** ** JSON-like values and dictionaries *)

#[warnings="-register-all"]
Inductive value :=
  | VNone
  | VBool (b : bool)
  | VInt (z : Z)
  | VStr (s : string)
  | VList (l : list value)
  | VDict (d : list (string * value)).

(** [a == b] on values. *)
Fixpoint value_eqb (x y : value) {struct x} : bool :=
  match x, y with
  | VNone, VNone => true
  | VBool a, VBool b => bool_decide (a = b)
  | VInt a, VInt b => bool_decide (a = b)
  | VStr a, VStr b => bool_decide (a = b)
  | VList a, VList b =>
      (fix go (l1 l2 : list value) : bool :=
         match l1, l2 with
         | [], [] => true
         | x :: l1, y :: l2 => value_eqb x y && go l1 l2
         | _, _ => false
         end) a b
  | VDict a, VDict b =>
      (fix go (l1 l2 : list (string * value)) : bool :=
         match l1, l2 with
         | [], [] => true
         | (k1, x) :: l1, (k2, y) :: l2 => bool_decide (k1 = k2) && value_eqb x y && go l1 l2
         | _, _ => false
         end) a b
  | _, _ => false
  end.

(** Induction that reaches the elements of lists and dictionaries. *)
Lemma value_strong_ind (P : value → Prop) :
  P VNone → (∀ b, P (VBool b)) → (∀ z, P (VInt z)) → (∀ s, P (VStr s)) →
  (∀ l, Forall P l → P (VList l)) → (∀ d, Forall (λ kv, P kv.2) d → P (VDict d)) → ∀ v, P v.
Proof.
  intros HN HB HI HS HL HD. fix IH 1. intros [|b|z|s|l|d].
  - exact HN.
  - exact (HB b).
  - exact (HI z).
  - exact (HS s).
  - apply HL. induction l as [|x l IHl]; constructor; [exact (IH x)|exact IHl].
  - apply HD. induction d as [|[k x] d IHd]; constructor; [exact (IH x)|exact IHd].
Qed.

Lemma value_eqb_eq x y : value_eqb x y = true ↔ x = y.
Proof.
  revert y. induction x as [|b|z|s|l IH|d IH] using value_strong_ind; intros [|b'|z'|s'|l'|d']; simpl;
    rewrite ?bool_decide_eq_true; try (split; [intros; by simplify_eq|intros; by simplify_eq]).
  - transitivity (l = l'); [|split; congruence].
    revert l'. induction IH as [|x l Hx _ IHl]; intros [|y l']; [done|done|done|].
    rewrite andb_true_iff, Hx, IHl. split; [intros [-> ->]|intros [= -> ->]]; done.
  - transitivity (d = d'); [|split; congruence].
    revert d'. induction IH as [|[k x] d Hx _ IHd]; intros [|[k' y] d']; [done|done|done|].
    simpl in Hx. rewrite !andb_true_iff, bool_decide_eq_true, Hx, IHd.
    split; [intros [[-> ->] ->]|intros [= -> -> ->]]; done.
Qed.

#[export] Instance value_eq_dec : EqDecision value.
Proof.
  intros x y. destruct (value_eqb x y) eqn:E; [left|right].
  - by apply value_eqb_eq.
  - intros H. apply value_eqb_eq in H. by rewrite H in E.
Defined.

(** A dictionary with string keys. *)
Abbreviation dict := (gmap string value).

(** Python truth of a value, and of [d.get(k)]. *)
Definition truthy (v : value) : bool :=
  match v with
  | VNone => false
  | VBool b => b
  | VInt z => negb (bool_decide (z = 0))
  | VStr s => negb (bool_decide (s = ""))
  | VList l => negb (bool_decide (l = []))
  | VDict d => negb (bool_decide (d = []))
  end.
Definition truthy_at (k : string) (d : dict) : bool := from_option truthy false (d !! k).

(** An optional string that is present and not empty. *)
Definition given (s : option string) : bool :=
  match s with Some s => negb (bool_decide (s = "")) | None => false end.

(** [all(values.get(k) == v for k, v in target.items())]: [Engine._matches]. *)
Definition matches (values target : dict) : bool :=
  bool_decide (map_Forall (λ k v, default VNone (values !! k) = v) target).

(** ** The secret store an intent is resolved against *)

Record Vault := mkVault {
  resolve : string → result string;
  fingerprint : value → string
}.

(** ** Intents *)

(** An [additional] BSS: role, SSID and secret reference. Strings are their UTF-8 octets. *)
Record Bss := mkBss { role : string; b_ssid : string; b_secret_ref : string }.

Definition has_nul (s : string) : bool :=
  existsb (λ c, bool_decide (c = Ascii.zero)) (String.list_ascii_of_string s).

Definition ssid_ok (s : string) : bool :=
  bool_decide (1 ≤ Z.of_nat (String.length s) ≤ 32) && negb (has_nul s).

(** [check_additional] *)
Definition check_additional (additional : list Bss) : result unit :=
  _ ← raise_if (bool_decide (7 < length additional)%nat) INVALID_INPUT
        "at most seven additional BSSes";
  check_each (λ bss,
    raise_if (negb (bool_decide (role bss = "fronthaul" ∨ role bss = "backhaul"))
              || negb (ssid_ok (b_ssid bss)) || bool_decide (b_secret_ref bss = ""))
      INVALID_INPUT "invalid additional BSS") additional.

(** Lexicographic order of [role, ssid, fingerprint], and [sorted]. *)
Definition triple : Type := string * string * string.
Definition triple_le (a b : triple) : Prop :=
  if decide (a.1.1 = b.1.1) then
    if decide (a.1.2 = b.1.2) then String.le a.2 b.2 else String.le a.1.2 b.1.2
  else String.le a.1.1 b.1.1.
#[export] Instance triple_le_dec : RelDecision triple_le.
Proof. intros a b. unfold triple_le. repeat case_decide; apply _. Defined.
Definition sorted (l : list triple) : list triple := merge_sort triple_le l.

(** [additional_target] *)
Definition additional_target (vault : Vault) (additional : list Bss) : result value :=
  triples ← map_result (λ b,
    secret ← resolve vault (b_secret_ref b);
    Ok (role b, b_ssid b, fingerprint vault (VStr secret))) additional;
  Ok (VList ((λ t, VList [VStr t.1.1; VStr t.1.2; VStr t.2]) <$> sorted triples)).

Record Intent := mkIntent {
  pod_id : string;
  radio_id : string;
  bss_id : string;
  ssid : string;
  secret_ref : string;
  enabled : bool;
  security_mode : string;
  additional : option (list Bss)
}.

#[export] Instance eta_Intent : Eta Intent := λ i,
  mkIntent (pod_id i) (radio_id i) (bss_id i) (ssid i) (secret_ref i) (enabled i) (security_mode i)
    (additional i).

(** [Intent.validate] *)
Definition validate_intent (self : Intent) : result unit :=
  _ ← raise_if (negb (ssid_ok (ssid self))) INVALID_INPUT
        "SSID must contain 1-32 UTF-8 bytes, no NUL";
  _ ← match additional self with Some l => check_additional l | None => Ok tt end;
  _ ← raise_if (bool_decide (security_mode self ≠ "wpa2-psk") || negb (enabled self))
        UNSUPPORTED_OPERATION "only enabled existing WPA2-PSK APs";
  raise_if (existsb (λ x, bool_decide (x = ""))
              [pod_id self; radio_id self; bss_id self; secret_ref self])
    INVALID_INPUT "explicit resource and secret references required".

(** [Intent.target] *)
Definition target_intent (vault : Vault) (self : Intent) : result dict :=
  _ ← validate_intent self;
  secret ← resolve vault (secret_ref self);
  let base : dict := <["ssid" := VStr (ssid self)]> (<["enabled" := VBool (enabled self)]>
    (<["mode" := VStr "ap"]> (<["security_mode" := VStr (security_mode self)]>
    {["credential_fingerprint" := VStr (fingerprint vault (VStr secret))]}))) in
  match additional self with
  | None => Ok base
  | Some l => t ← additional_target vault l; Ok (<["additional" := t]> base)
  end.

Definition bss_value (b : Bss) : value :=
  VDict [("role", VStr (role b)); ("ssid", VStr (b_ssid b)); ("secret_ref", VStr (b_secret_ref b))].

(** [Intent.record]: an absent [additional] is omitted. *)
Definition record_intent (self : Intent) : list (string * value) :=
  [("pod_id", VStr (pod_id self)); ("radio_id", VStr (radio_id self));
   ("bss_id", VStr (bss_id self)); ("ssid", VStr (ssid self));
   ("secret_ref", VStr (secret_ref self)); ("enabled", VBool (enabled self));
   ("security_mode", VStr (security_mode self))]
  ++ match additional self with
     | None => []
     | Some l => [("additional", VList (bss_value <$> l))]
     end.

(** [RadioIntent]: the BSSes of a further radio. *)
Record RadioIntent := mkRadioIntent {
  ri_pod_id : string;
  ri_radio_id : string;
  ri_additional : list Bss
}.

Definition validate_radio (self : RadioIntent) : result unit :=
  _ ← raise_if (existsb (λ x, bool_decide (x = "")) [ri_pod_id self; ri_radio_id self])
        INVALID_INPUT "explicit pod and radio references required";
  check_additional (ri_additional self).

Definition target_radio (vault : Vault) (self : RadioIntent) : result dict :=
  _ ← validate_radio self;
  t ← additional_target vault (ri_additional self);
  Ok {["additional" := t]}.

Definition record_radio (self : RadioIntent) : list (string * value) :=
  [("pod_id", VStr (ri_pod_id self)); ("radio_id", VStr (ri_radio_id self));
   ("additional", VList (bss_value <$> ri_additional self))].

(** What the engine asks of a scope's intent. *)
Class IntentType (I : Type) := {
  i_pod_id : I → string;
  i_validate : I → result unit;
  i_target : Vault → I → result dict;
  i_record : I → list (string * value)
}.
#[export] Instance Intent_type : IntentType Intent :=
  {| i_pod_id := pod_id; i_validate := validate_intent; i_target := target_intent;
     i_record := record_intent |}.
#[export] Instance RadioIntent_type : IntentType RadioIntent :=
  {| i_pod_id := ri_pod_id; i_validate := validate_radio; i_target := target_radio;
     i_record := record_radio |}.

(** ** Observations and snapshots ([model.py], [backends/base.py]) *)

Record Observation := mkObservation {
  values : dict;
  o_source : string;
  received_at : Z;
  fresh : bool;
  provenance : string;
  revision : Z
}.

(** [Observation.satisfies] *)
Definition satisfies (self : Observation) (target : dict) : bool :=
  fresh self && bool_decide (map_Forall (λ k v, values self !! k = Some v) target).

Record Snapshot := mkSnapshot {
  config : dict;
  observed : Observation;
  ready : bool;
  generation : Z;
  s_schema_fingerprint : string;
  instance : option string
}.

(** [SubmitResult] *)
Record SubmitResult := mkSubmitResult { status : string; evidence : dict; sr_reason : option string }.

(** ** Operations *)

Inductive State :=
  | REQUESTED
  | VALIDATED
  | SUBMITTED
  | CONFIG_COMMITTED
  | OBSERVED_APPLIED
  | REJECTED
  | FAILED
  | TIMED_OUT
  | INDETERMINATE
  | STATE_OWNERSHIP_CONFLICT
  | CANCELLED.

#[export] Instance State_eq_dec : EqDecision State.
Proof. solve_decision. Defined.

(** The string values of the enumerations. *)
Definition state_name (s : State) : string :=
  match s with
  | REQUESTED => "REQUESTED"
  | VALIDATED => "VALIDATED"
  | SUBMITTED => "SUBMITTED"
  | CONFIG_COMMITTED => "CONFIG_COMMITTED"
  | OBSERVED_APPLIED => "OBSERVED_APPLIED"
  | REJECTED => "REJECTED"
  | FAILED => "FAILED"
  | TIMED_OUT => "TIMED_OUT"
  | INDETERMINATE => "INDETERMINATE"
  | STATE_OWNERSHIP_CONFLICT => "OWNERSHIP_CONFLICT"
  | CANCELLED => "CANCELLED"
  end.

Definition reason_name (r : Reason) : string :=
  match r with
  | INVALID_INPUT => "INVALID_INPUT"
  | UNSUPPORTED_OPERATION => "UNSUPPORTED_OPERATION"
  | SCHEMA_MISMATCH => "SCHEMA_MISMATCH"
  | NOT_READY => "NOT_READY"
  | OWNERSHIP_CONFLICT => "OWNERSHIP_CONFLICT"
  | PRECONDITION_FAILED => "PRECONDITION_FAILED"
  | APPLY_TIMEOUT => "APPLY_TIMEOUT"
  | OUTCOME_UNKNOWN => "OUTCOME_UNKNOWN"
  | MISSING_PREREQUISITE => "MISSING_PREREQUISITE"
  | BUSY => "BUSY"
  | NOT_FOUND => "NOT_FOUND"
  end.

(** [ACTIVE] of [model.py]. *)
Definition ACTIVE (s : State) : bool :=
  match s with
  | REQUESTED | VALIDATED | SUBMITTED | CONFIG_COMMITTED | INDETERMINATE => true
  | _ => false
  end.

(** A prepared submission. *)
Record Attempt := mkAttempt {
  attempt_id : string;
  transaction_id : string;
  session_generation : Z;
  prepared_at : Z
}.

(** [Operation]; the fields with a constant value ([schema_version], [mapping_version],
    [application_predicate], [client_verification]) are left out. UTC times are milliseconds. *)
Record Operation (I : Type) := mkOperation {
  operation_id : string;
  run_id : string;
  request_source : string;
  initiating_interface : string;
  intent : I;
  intent_fingerprint : string;
  idempotency_key : string;
  created_at : Z;
  updated_at : Z;
  deadline_at : Z;
  state : State;
  reason : option string;
  schema_fingerprint : option string;
  attempts : list Attempt;
  commit_evidence : dict;
  application_evidence : option dict;
  changed : option bool;
  deadline_elapsed : bool;
  original_outcome : option State;
  late_resolution : option string;
  blocked_for_resubmission : bool;
  plan : option dict;
  timings : gmap string (Z * string)
}.
Arguments mkOperation {I}.
Arguments operation_id {I}. Arguments run_id {I}. Arguments request_source {I}.
Arguments initiating_interface {I}. Arguments intent {I}. Arguments intent_fingerprint {I}.
Arguments idempotency_key {I}. Arguments created_at {I}. Arguments updated_at {I}.
Arguments deadline_at {I}. Arguments state {I}. Arguments reason {I}.
Arguments schema_fingerprint {I}. Arguments attempts {I}. Arguments commit_evidence {I}.
Arguments application_evidence {I}. Arguments changed {I}. Arguments deadline_elapsed {I}.
Arguments original_outcome {I}. Arguments late_resolution {I}.
Arguments blocked_for_resubmission {I}. Arguments plan {I}. Arguments timings {I}.

#[export] Instance eta_Operation {I} : Eta (Operation I) := λ o,
  mkOperation (operation_id o) (run_id o) (request_source o) (initiating_interface o) (intent o)
    (intent_fingerprint o) (idempotency_key o) (created_at o) (updated_at o) (deadline_at o)
    (state o) (reason o) (schema_fingerprint o) (attempts o) (commit_evidence o)
    (application_evidence o) (changed o) (deadline_elapsed o) (original_outcome o)
    (late_resolution o) (blocked_for_resubmission o) (plan o) (timings o).

(** [op.pod_id] *)
Definition op_pod {I} `{IntentType I} (op : Operation I) : string := i_pod_id (intent op).

(** The table [TRANSITIONS] of [operations.py]. *)
Definition TRANSITIONS (s : State) : list State :=
  match s with
  | REQUESTED => [VALIDATED; REJECTED; CANCELLED]
  | VALIDATED => [SUBMITTED; REJECTED; STATE_OWNERSHIP_CONFLICT; CANCELLED; OBSERVED_APPLIED]
  | SUBMITTED => [CONFIG_COMMITTED; INDETERMINATE; FAILED; STATE_OWNERSHIP_CONFLICT]
  | CONFIG_COMMITTED => [OBSERVED_APPLIED; FAILED; TIMED_OUT; STATE_OWNERSHIP_CONFLICT]
  | INDETERMINATE =>
      [CONFIG_COMMITTED; OBSERVED_APPLIED; STATE_OWNERSHIP_CONFLICT; FAILED; TIMED_OUT]
  | _ => []
  end.

(** [transition(op, target, evidence=evidence)]: every guard, then the assignment. *)
Definition transition {I} (op : Operation I) (target : State) (ev : dict) : result (Operation I) :=
  _ ← raise_if (negb (bool_decide (target ∈ TRANSITIONS (state op)))) PRECONDITION_FAILED
        "invalid transition";
  _ ← raise_if (bool_decide (target = SUBMITTED) && bool_decide (attempts op = []))
        PRECONDITION_FAILED "durable attempt association required";
  _ ← raise_if (bool_decide (target = CONFIG_COMMITTED) && negb (truthy_at "transaction_validated" ev))
        PRECONDITION_FAILED "validated transaction results required";
  _ ← raise_if (bool_decide (target = OBSERVED_APPLIED)
                && negb (truthy_at "fresh" ev && truthy_at "predicate_satisfied" ev))
        PRECONDITION_FAILED "fresh application evidence required";
  _ ← raise_if (bool_decide (target = OBSERVED_APPLIED) && bool_decide (state op = VALIDATED)
                && negb (truthy_at "observed_noop" ev))
        PRECONDITION_FAILED "no-op needs observed evidence";
  _ ← raise_if (bool_decide (target = TIMED_OUT) && negb (deadline_elapsed op))
        PRECONDITION_FAILED "application deadline has not elapsed";
  Ok (op <| state := target |>).

(** ** Theory *)

#[export] Instance Attempt_eq_dec : EqDecision Attempt.
Proof. solve_decision. Defined.

(** What a successful transition shows. *)
Lemma transition_Ok {I} (op op' : Operation I) t ev :
  transition op t ev = Ok op' ↔
  op' = op <| state := t |> ∧ t ∈ TRANSITIONS (state op) ∧
  (t = SUBMITTED → attempts op ≠ []) ∧
  (t = CONFIG_COMMITTED → truthy_at "transaction_validated" ev = true) ∧
  (t = OBSERVED_APPLIED → truthy_at "fresh" ev = true ∧ truthy_at "predicate_satisfied" ev = true ∧
     (state op = VALIDATED → truthy_at "observed_noop" ev = true)) ∧
  (t = TIMED_OUT → deadline_elapsed op = true).
Proof.
  unfold transition. rewrite !raise_if_bind_Ok, <- !andb_assoc, !decide_andb_false.
  rewrite !negb_false_iff, bool_decide_eq_true, bool_decide_eq_false, andb_true_iff.
  naive_solver.
Qed.

Lemma transition_fails {I} (op : Operation I) t ev :
  t ∉ TRANSITIONS (state op) → ∃ e, transition op t ev = Raise e.
Proof.
  intros Ht. destruct (transition op t ev) as [op'|e] eqn:E; [|eauto].
  apply transition_Ok in E. naive_solver.
Qed.

#[export] Instance triple_le_total : Total triple_le.
Proof.
  intros [[a1 a2] a3] [[b1 b2] b3]. unfold triple_le; simpl.
  repeat case_decide; subst; try done; apply (total String.le).
Qed.

#[export] Instance triple_le_antisymm : AntiSymm (=) triple_le.
Proof.
  intros [[a1 a2] a3] [[b1 b2] b3]. unfold triple_le; simpl.
  destruct (decide (a1 = b1)) as [->|H1]; [rewrite !(decide_True (P := b1 = b1)) by done|].
  - destruct (decide (a2 = b2)) as [->|H2]; [rewrite !(decide_True (P := b2 = b2)) by done|].
    + intros Ha Hb. do 2 f_equal. by apply (anti_symm String.le).
    + rewrite !decide_False by done. intros Ha Hb. destruct H2. by apply (anti_symm String.le).
  - rewrite !decide_False by done. intros Ha Hb. destruct H1. by apply (anti_symm String.le).
Qed.

#[export] Instance triple_le_trans : Transitive triple_le.
Proof.
  intros [[a1 a2] a3] [[b1 b2] b3] [[c1 c2] c3]. unfold triple_le; simpl.
  repeat case_decide; subst; try done; intros Ha Hb; try (by etrans);
    try (match goal with H : _ ≠ _ |- _ => solve [destruct H; by apply (anti_symm String.le)] end).
Qed.

(** The target does not depend on the order in which the further BSSes are listed. *)
Lemma sorted_perm l1 l2 : l1 ≡ₚ l2 → sorted l1 = sorted l2.
Proof.
  intros Hp. apply (Sorted_unique triple_le); [apply Sorted_merge_sort, _..|].
  unfold sorted. by rewrite !merge_sort_Permutation.
Qed.

Lemma map_result_perm {A B} (f : A → result B) l1 l2 ys1 :
  l1 ≡ₚ l2 → map_result f l1 = Ok ys1 → ∃ ys2, map_result f l2 = Ok ys2 ∧ ys1 ≡ₚ ys2.
Proof.
  intros Hp H%map_result_Ok.
  destruct (Permutation_Forall2 Hp H) as (ys2 & Hys & H2). exists ys2.
  split; [by apply map_result_Ok|done].
Qed.

(** How far along the lifecycle a state is. *)
Definition rank (s : State) : nat :=
  match s with
  | REQUESTED => 0
  | VALIDATED => 1
  | SUBMITTED => 2
  | INDETERMINATE => 3
  | CONFIG_COMMITTED => 4
  | _ => 5
  end.

Lemma transitions_rank s t : t ∈ TRANSITIONS s → (rank s < rank t)%nat.
Proof.
  intros H%list_elem_of_In. destruct s; simpl in H; destruct_or?; subst; simpl; try lia; done.
Qed.

(** An operation and the records its successive transitions made of it. *)
Inductive lifecycle {I} : Operation I → list (Operation I) → Prop :=
  | lifecycle_end op : lifecycle op []
  | lifecycle_step op t ev op' op'' rest :
      transition op t ev = Ok op' → state op'' = state op' → lifecycle op'' rest →
      lifecycle op (op'' :: rest).

Lemma lifecycle_length {I} (op : Operation I) l :
  lifecycle op l → (length l + rank (state op) ≤ 5)%nat.
Proof.
  induction 1 as [op|op t ev op' op'' rest Ht Hs _ IH]; simpl.
  - destruct (state op); simpl; lia.
  - apply transition_Ok in Ht as (-> & Hin & _). simpl in Hs. rewrite Hs in IH.
    apply transitions_rank in Hin. lia.
Qed.

(** * Properties *)

(** The guard of every lifecycle change is exactly the documented one: [transition] succeeds
    precisely when the target is in the table for the current state and the evidence rules hold (an
    attempt recorded before SUBMITTED, validated transaction results for CONFIG_COMMITTED, fresh
    and satisfied evidence for OBSERVED_APPLIED, observed no-op evidence when it comes straight
    from VALIDATED, an elapsed deadline for TIMED_OUT), and then it changes the state and nothing
    else. *)
Theorem transition_guard {I} (op op' : Operation I) (t : State) (ev : dict) :
  transition op t ev = Ok op' ↔
  op' = op <| state := t |> ∧ t ∈ TRANSITIONS (state op) ∧
  (t = SUBMITTED → attempts op ≠ []) ∧
  (t = CONFIG_COMMITTED → truthy_at "transaction_validated" ev = true) ∧
  (t = OBSERVED_APPLIED → truthy_at "fresh" ev = true ∧ truthy_at "predicate_satisfied" ev = true ∧
     (state op = VALIDATED → truthy_at "observed_noop" ev = true)) ∧
  (t = TIMED_OUT → deadline_elapsed op = true).
Proof. apply transition_Ok. Qed.

Definition example_intent : Intent :=
  mkIntent "pod-1" "radio-1" "bss-1" "lab" "secret-1" true "wpa2-psk" None.

Definition example_operation : Operation Intent :=
  mkOperation "op-1" "run-1" "lab" "semantic" example_intent "fp" "key-1" 0 0 30000 REQUESTED None
    None [] {["attribution" := VStr "not_submitted"]} None None false None None false None ∅.

(** C22: every lifecycle ends: whatever else is changed in between, an operation goes through at
    most five transitions, and from a state that is not active there is none. *)
Theorem lifecycle_terminates {I} (op : Operation I) (l : list (Operation I)) :
  lifecycle op l → (length l ≤ 5)%nat ∧ (ACTIVE (state op) = false → l = []).
Proof.
  intros H. pose proof (lifecycle_length op l H). split; [lia|]. intros Ha.
  destruct H as [|op t ev op' op'' rest Ht _ _]; [done|].
  apply transition_Ok in Ht as (_ & Hin & _). destruct (state op); try done; by apply not_elem_of_nil in Hin.
Qed.

Lemma lifecycle_terminates_witness :
  ∃ l, lifecycle example_operation l ∧ length l = 1%nat ∧ (length l ≤ 5)%nat.
Proof.
  assert (H : lifecycle example_operation [example_operation <| state := CANCELLED |>]).
  { apply lifecycle_step with (t := CANCELLED) (ev := ∅) (op' := example_operation <| state := CANCELLED |>);
      [vm_compute; reflexivity|reflexivity|constructor]. }
  eexists. split; [exact H|]. split; [reflexivity|]. apply (lifecycle_terminates _ _ H).
Defined.

(** What a pod is asked to serve does not depend on the order in which the controller listed a
    radio's further BSSes: two intents that differ only by a permutation of [additional] have the
    same target, whatever the secret store holds. *)
Theorem target_permutation (vault : Vault) (i : Intent) (l1 l2 : list Bss) (d : dict) :
  l1 ≡ₚ l2 →
  target_intent vault (i <| additional := Some l1 |>) = Ok d →
  target_intent vault (i <| additional := Some l2 |>) = Ok d.
Proof.
  intros Hp H. unfold target_intent in *.
  assert (Hv : validate_intent (i <| additional := Some l2 |>) = Ok tt).
  { apply result_bind_Ok in H as ([] & H & _). unfold validate_intent in *; simpl in *.
    rewrite !raise_if_bind_Ok in *. destruct H as [Hs H]. split; [done|].
    apply result_bind_Ok in H as ([] & Hc & H). apply result_bind_Ok. exists tt. split; [|done].
    unfold check_additional in *. rewrite !raise_if_bind_Ok in *.
    rewrite <- (Permutation_length Hp). destruct Hc as [? Hc].
    split; [done|]. apply check_each_Ok. apply check_each_Ok in Hc. by rewrite <- Hp. }
  apply result_bind_Ok in H as ([] & _ & H). rewrite Hv.
  apply result_bind_Ok in H as (sec & Hsec & H). simpl in Hsec, H |- *. rewrite Hsec; simpl.
  apply result_bind_Ok in H as (t & Ht & H). unfold additional_target in *.
  apply result_bind_Ok in Ht as (ts & Hts & Ht).
  destruct (map_result_perm _ l1 l2 ts Hp Hts) as (ts2 & Hts2 & Hperm).
  injection Ht as <-. injection H as <-.
  apply result_bind_Ok. eexists. split; [|reflexivity].
  apply result_bind_Ok. exists ts2. split; [exact Hts2|]. by rewrite (sorted_perm ts ts2 Hperm).
Qed.

Definition example_vault : Vault := mkVault (λ r, Ok ("psk of " +:+ r)) (λ _, "fingerprint").

Lemma target_permutation_witness :
  let a := mkBss "backhaul" "net-b" "s1" in let b := mkBss "fronthaul" "net-f" "s2" in
  ∃ d, target_intent example_vault (example_intent <| additional := Some [b; a] |>) = Ok d ∧
       target_intent example_vault (example_intent <| additional := Some [a; b] |>) = Ok d.
Proof.
  intros a b. eexists. split; [vm_compute; reflexivity|].
  apply (target_permutation _ _ [b; a] [a; b]); [apply perm_swap|vm_compute; reflexivity].
Defined.
