(* ===== verification/Store.v ===== *)
(** * The durable journal: [src/emosa/store.py]

    The tables of the SQLite journal as one record: operations in rowid order, events per run,
    ownership conflicts, WSC receipts and runs. Every method that changes a table is a definition
    in the state monad; redaction ([secrets.py]) is applied where the code applies it. The JSON
    Schema check of the third-party validator is the parameter [validate_operation]. *)

From stdpp Require Import pretty.
From S2P Require Import Prelude Lifecycle.

(** ** Redaction: [redact] of [src/emosa/secrets.py] *)

Definition SENSITIVE : list string :=
  ["psk"; "password"; "wpa_psks"; "security"; "private_key"; "credential_fingerprint"].

Fixpoint redact (v : value) : value :=
  match v with
  | VList l => VList (redact <$> l)
  | VDict d => VDict ((λ kv, (kv.1,
      if bool_decide (kv.1 ∈ SENSITIVE) then VStr "[REDACTED]" else redact kv.2)) <$> d)
  | v => v
  end.

(** The first value of a key. *)
Definition assoc (k : string) (d : list (string * value)) : option value :=
  match list_find (λ kv, kv.1 = k) d with Some (_, kv) => Some kv.2 | None => None end.

(** ** Keys of writes: [start_write] *)

(** [s.rpartition("#")]: what precedes and follows the last hash sign. *)
Fixpoint rpartition_hash (s : string) : option (string * string) :=
  match s with
  | EmptyString => None
  | String c s =>
      match rpartition_hash s with
      | Some (base, n) => Some (String c base, n)
      | None => if bool_decide (c = Ascii.ascii_of_N 35) then Some ("", s) else None
      end
  end.

Definition digit (c : Ascii.ascii) : option N :=
  let n := Ascii.N_of_ascii c in
  if bool_decide (48 ≤ n ≤ 57)%N then Some (n - 48)%N else None.

(** [int(n)] for a string of decimal digits; [None] when [n.isdigit()] is false. *)
Fixpoint digits_value (acc : N) (s : string) : option N :=
  match s with
  | EmptyString => Some acc
  | String c s => d ← digit c; digits_value (acc * 10 + d)%N s
  end.
Definition parse_digits (s : string) : option N :=
  if bool_decide (s = "") then None else digits_value 0 s.

(** The key without its number, and the number. *)
Definition split_key (key : string) : string * N :=
  match rpartition_hash key with
  | Some (base, n) => match parse_digits n with Some k => (base, k) | None => (key, 0%N) end
  | None => (key, 0%N)
  end.

(** The operations and the parameters of the journal. *)
Section Store.
Context {I : Type} `{IntentType I}.

(** [start_write(latest, tag, same)] *)
Definition start_write (latest : option (Operation I)) (tag : string)
    (same : option (string → bool)) : option (Operation I) * option string :=
  match latest with
  | None => (None, Some tag)
  | Some op =>
      let '(base, n) := split_key (idempotency_key op) in
      if match same with None => bool_decide (base = tag) | Some f => f base end then (Some op, None)
      else (None, Some (tag +:+ "#" +:+ pretty (n + 1)%N))
  end.

(** ** The tables *)

(** An event row of one run. *)
Record Event := mkEvent {
  sequence : Z;
  ev_timestamp : Z;
  ev_operation_id : option string;
  ev_pod_id : option string;
  phase : string;
  ev_reason : option value;
  ev_payload : value
}.

(** The fields of a WSC receipt that bind it to its operation. *)
Record Receipt := mkReceipt {
  rc_process_id : string;
  exchange_id : string;
  rc_pod_id : string;
  rc_radio_id : string;
  rc_bss_id : string;
  controller_al : string
}.

Record Store := mkStore {
  process_id : string;
  max_operations : Z;
  max_events : Z;
  rows : list (Operation I);
  wsc_receipts : gmap string Receipt;
  event_rows : gmap string (list Event);
  ownership_rows : gmap string (list (string * value));
  run_rows : gmap string (list (string * value))
}.
#[local] Instance eta_Store : Eta Store := λ s,
  mkStore (process_id s) (max_operations s) (max_events s) (rows s) (wsc_receipts s) (event_rows s)
    (ownership_rows s) (run_rows s).

(** The third-party check of a record against its JSON Schema. *)
Variable validate_operation : Operation I → result unit.

Definition RETAINED_RECENT : nat := 16.

(** [holds_rows] *)
Definition holds_rows (op : Operation I) : bool :=
  truthy_at "created" (commit_evidence op) && negb (truthy_at "released" (commit_evidence op)).

(** [RECONCILED] *)
Definition RECONCILED (s : State) : bool :=
  match s with
  | SUBMITTED | CONFIG_COMMITTED | OBSERVED_APPLIED | INDETERMINATE | TIMED_OUT
  | STATE_OWNERSHIP_CONFLICT => true
  | _ => false
  end.

(** ** Reading *)

(** [get(operation_id)] *)
Definition get_operation (id : string) (s : Store) : result (Operation I) :=
  match list_find (λ op, operation_id op = id) (rows s) with
  | Some (_, op) => Ok op
  | None => Raise (mkEmosaError NOT_FOUND "operation not found")
  end.

(** [lookup(source, pod, key)] *)
Definition lookup_key (source pod key : string) (s : Store) : option (Operation I) :=
  snd <$> list_find (λ op, request_source op = source ∧ op_pod op = pod ∧ idempotency_key op = key)
            (rows s).

(** [start_latest(source, pod, prefix)] *)
Definition start_latest (source pod prefix : string) (s : Store) : option (Operation I) :=
  snd <$> list_find (λ op, request_source op = source ∧ op_pod op = pod
                           ∧ String.prefix prefix (idempotency_key op) = true) (reverse (rows s)).

(** [operations()] *)
Definition operations (s : Store) : list (Operation I) := rows s.

(** [ownership(pod_id)], [wsc_receipt(operation_id)] *)
Definition ownership (pod : string) (s : Store) : option (list (string * value)) :=
  ownership_rows s !! pod.
Definition wsc_receipt (id : string) (s : Store) : option Receipt := wsc_receipts s !! id.

(** ** Writing *)

(** [_event]: the next number of the run, the redacted payload, and the retention window. *)
Definition append_event (run : string) (op pod : option string) (ph : string)
    (payload : list (string * value)) (now : Z) (s : Store) : Store :=
  let old := default [] (event_rows s !! run) in
  let seq := foldr (λ e m, Z.max (sequence e) m) 0 old + 1 in
  let reason := match assoc "reason" payload with
                | Some (VDict d) => Some (default (VStr "NOT_READY") (assoc "code" d))
                | r => r
                end in
  let e := mkEvent seq now op pod ph reason (redact (VDict payload)) in
  s <| event_rows := <[run := filter (λ e, seq - max_events s < sequence e) (old ++ [e])]>
         (event_rows s) |>.

(** [events(run_id, after, limit)] *)
Definition events (run : string) (after limit : Z) (s : Store) : list Event :=
  take (Z.to_nat (Z.min (Z.max limit 1) 500))
    (filter (λ e, after < sequence e) (default [] (event_rows s !! run))).

(** The latest operation per pod in a state reconciliation follows. *)
Definition latest_reconciled (ops : list (Operation I)) : gmap string string :=
  foldl (λ m op, if RECONCILED (state op) then <[op_pod op := operation_id op]> m else m) ∅ ops.

(** [_prune]: the identifiers kept, and the deletion of the others with their receipts. *)
Definition kept (ops : list (Operation I)) : gset string :=
  list_to_set (operation_id <$> drop (length ops - RETAINED_RECENT) ops)
  ∪ list_to_set (operation_id <$> filter (λ op, ACTIVE (state op) || holds_rows op) ops)
  ∪ list_to_set (snd <$> map_to_list (latest_reconciled ops)).

Definition prune (s : Store) : Store :=
  if bool_decide (length (rows s) ≤ RETAINED_RECENT)%nat then s
  else
    let keep := kept (rows s) in
    let removed := operation_id <$> filter (λ op, operation_id op ∉ keep) (rows s) in
    s <| rows := filter (λ op, operation_id op ∈ keep) (rows s) |>
      <| wsc_receipts := filter (λ kv, kv.1 ∉ removed) (wsc_receipts s) |>.

(** A string member of the persisted intent. *)
Definition intent_member (k : string) (op : Operation I) : option value := assoc k (i_record (intent op)).

(** The receipt of a WSC operation names that very operation. *)
Definition receipt_bound (s : Store) (op : Operation I) (r : Receipt) : bool :=
  bool_decide (initiating_interface op = "wsc-component")
  && bool_decide (rc_process_id r = process_id s)
  && bool_decide (exchange_id r = idempotency_key op)
  && bool_decide (rc_pod_id r = op_pod op)
  && bool_decide (Some (VStr (rc_radio_id r)) = intent_member "radio_id" op)
  && bool_decide (Some (VStr (rc_bss_id r)) =
       match intent_member "bss_id" op with Some v => Some v | None => intent_member "radio_id" op end)
  && bool_decide (request_source op = "wsc-component:" +:+ controller_al r).

(** [add(op, wsc_receipt=receipt)] *)
Definition add (op : Operation I) (receipt : option Receipt) : M Store unit :=
  _ ← lift (validate_operation op);
  s ← get;
  _ ← lift (match receipt with
            | Some r => raise_if (negb (receipt_bound s op r)) INVALID_INPUT
                          "WSC receipt and operation binding differ"
            | None => raise_if (bool_decide (initiating_interface op = "wsc-component")) INVALID_INPUT
                        "WSC operation requires its atomic receipt"
            end);
  _ ← lift (raise_if (bool_decide (max_operations s ≤ Z.of_nat (length (rows s)))) BUSY
              "journal operation budget exhausted; archive before reuse");
  modify (λ s,
    let s := s <| rows := rows s ++ [op] |> in
    let s := append_event (run_id op) (Some (operation_id op)) (Some (op_pod op))
               (state_name (state op)) [] (created_at op) s in
    let s := match receipt with
             | Some r => s <| wsc_receipts := <[operation_id op := r]> (wsc_receipts s) |>
             | None => s
             end in
    prune s).

(** [UPDATE operations SET record=? WHERE id=?] *)
Definition update_row (op : Operation I) (ops : list (Operation I)) : list (Operation I) :=
  (λ o, if bool_decide (operation_id o = operation_id op) then op else o) <$> ops.

(** [save(op, payload)] *)
Definition save (op : Operation I) (payload : list (string * value)) : M Store unit :=
  _ ← lift (validate_operation op);
  modify (λ s,
    append_event (run_id op) (Some (operation_id op)) (Some (op_pod op)) (state_name (state op))
      (payload ++ [("reason", match reason op with Some r => VStr r | None => VNone end)])
      (updated_at op) (s <| rows := update_row op (rows s) |>)).

(** [event(run_id, phase, payload, pod_id)] *)
Definition event (run ph : string) (payload : list (string * value)) (pod : option string) (now : Z) :
    M Store unit := modify (append_event run None pod ph payload now).

(** [conflict(pod_id, evidence)] and [release(pod_id)] *)
Definition conflict (pod : string) (evidence : list (string * value)) : M Store unit :=
  modify (λ s, s <| ownership_rows :=
    <[pod := match redact (VDict evidence) with VDict d => d | _ => [] end]> (ownership_rows s) |>).
Definition release (pod : string) : M Store unit :=
  modify (λ s, s <| ownership_rows := delete pod (ownership_rows s) |>).

(** [save_run(record)] and [run(run_id)]; [id] is the record's [run_id]. *)
Definition save_run (id : string) (record : list (string * value)) : M Store unit :=
  s ← get;
  _ ← lift (match run_rows s !! id with
            | Some prior => raise_if (negb (bool_decide (assoc "execution_status" prior = Some (VStr "running"))))
                PRECONDITION_FAILED "completed run records are immutable"
            | None => Ok tt
            end);
  modify (λ s, s <| run_rows :=
    <[id := match redact (VDict record) with VDict d => d | _ => [] end]> (run_rows s) |>).
Definition run (id : string) (s : Store) : result (list (string * value)) :=
  match run_rows s !! id with
  | Some r => Ok r
  | None => Raise (mkEmosaError NOT_FOUND "run not found")
  end.

End Store.
Arguments Store I : clear implicits.
#[export] Existing Instance eta_Store.

(** * Theory *)

(** ** Redaction *)

(** No value under a sensitive key survives, at any depth. *)
#[warnings="-register-all"]
Inductive clean : value → Prop :=
  | clean_list l : Forall clean l → clean (VList l)
  | clean_dict d :
      Forall (λ kv, (kv.1 ∈ SENSITIVE ∧ kv.2 = VStr "[REDACTED]")
                    ∨ (¬ (kv.1 ∈ SENSITIVE) ∧ clean kv.2)) d →
      clean (VDict d)
  | clean_none : clean VNone
  | clean_bool b : clean (VBool b)
  | clean_int z : clean (VInt z)
  | clean_str s : clean (VStr s).

Lemma redact_is_clean v : clean (redact v).
Proof.
  induction v as [|b|z|s|l IH|d IH] using value_strong_ind; try constructor.
  - by apply Forall_fmap.
  - apply Forall_fmap. eapply Forall_impl; [exact IH|]. intros [k x] Hx; simpl in *.
    case_bool_decide; auto.
Qed.

Lemma redact_idempotent v : redact (redact v) = redact v.
Proof.
  induction v as [|b|z|s|l IH|d IH] using value_strong_ind; simpl; try done.
  - f_equal. induction IH as [|x l Hx _ IHl]; [done|]. cbn. by f_equal.
  - f_equal. induction IH as [|[k x] d Hx _ IHd]; [done|]. cbn in *. f_equal; [|exact IHd].
    f_equal. by destruct (bool_decide (k ∈ SENSITIVE)).
Qed.

Section Theory.
Context {I : Type} `{IntentType I}.
Implicit Types (op : Operation I) (s : Store I).

(** ** The pruned journal *)

Lemma latest_reconciled_snoc ops op :
  latest_reconciled (ops ++ [op]) =
  if RECONCILED (state op) then <[op_pod op := operation_id op]> (latest_reconciled ops)
  else latest_reconciled ops.
Proof. unfold latest_reconciled. by rewrite foldl_app. Qed.

(** The last operation of a pod that reconciliation follows is the one recorded for the pod. *)
Lemma latest_reconciled_lookup ops pod before op after :
  ops = before ++ op :: after → op_pod op = pod → RECONCILED (state op) = true →
  Forall (λ o, op_pod o = pod → RECONCILED (state o) = false) after →
  latest_reconciled ops !! pod = Some (operation_id op).
Proof.
  intros -> Hpod Hrec. induction after as [|o after IH] using rev_ind; intros Hall.
  - rewrite latest_reconciled_snoc, Hrec, <- Hpod. apply lookup_insert_eq.
  - apply Forall_app in Hall as [Hall [Ho _]%Forall_cons].
    rewrite app_comm_cons, app_assoc, latest_reconciled_snoc.
    destruct (RECONCILED (state o)) eqn:Hr; [|by apply IH].
    rewrite lookup_insert_ne; [by apply IH|]. intros Heq. specialize (Ho Heq). congruence.
Qed.

Lemma prune_rows s :
  rows (prune s) = if bool_decide (length (rows s) ≤ RETAINED_RECENT)%nat then rows s
                   else filter (λ op, operation_id op ∈ kept (rows s)) (rows s).
Proof. unfold prune. by case_bool_decide. Qed.

Lemma prune_sublist s : rows (prune s) `sublist_of` rows s.
Proof. rewrite prune_rows. case_bool_decide; [done|]. apply sublist_filter. Qed.

Lemma prune_elem_of s op : op ∈ rows (prune s) → op ∈ rows s.
Proof. rewrite prune_rows. case_bool_decide; [done|]. by intros [_ ?]%list_elem_of_filter. Qed.

Lemma prune_keeps s op :
  op ∈ rows s →
  ACTIVE (state op) = true ∨ holds_rows op = true ∨
  op ∈ drop (length (rows s) - RETAINED_RECENT) (rows s) ∨
  latest_reconciled (rows s) !! op_pod op = Some (operation_id op) →
  op ∈ rows (prune s).
Proof.
  intros Hin Hkeep. rewrite prune_rows. case_bool_decide; [done|]. apply list_elem_of_filter.
  split; [|done]. unfold kept. rewrite !elem_of_union, !elem_of_list_to_set.
  destruct Hkeep as [Ha|[Hh|[Hd|Hl]]].
  - left; right. apply list_elem_of_fmap. exists op. split; [done|]. apply list_elem_of_filter.
    split; [by rewrite Ha|done].
  - left; right. apply list_elem_of_fmap. exists op. split; [done|]. apply list_elem_of_filter.
    split; [by rewrite Hh, orb_true_r|done].
  - left; left. by apply list_elem_of_fmap_2.
  - right. apply list_elem_of_fmap. exists (op_pod op, operation_id op). split; [done|].
    by apply elem_of_map_to_list.
Qed.

(** ** Unique identifiers and idempotency keys *)

(** The journal's UNIQUE constraints. *)
Definition op_key op : string * string * string := (request_source op, op_pod op, idempotency_key op).
Definition store_ok s : Prop := NoDup (operation_id <$> rows s) ∧ NoDup (op_key <$> rows s).

Lemma get_operation_Ok s id op :
  get_operation id s = Ok op → op ∈ rows s ∧ operation_id op = id.
Proof.
  unfold get_operation. destruct (list_find _ _) as [[i o]|] eqn:E; [|done]. intros [= ->].
  apply list_find_Some in E as (Hi & Hid & _). split; [by eapply list_elem_of_lookup_2|done].
Qed.

Lemma get_operation_elem s op :
  store_ok s → op ∈ rows s → get_operation (operation_id op) s = Ok op.
Proof.
  intros [Hids _] Hin. destruct (get_operation _ s) as [o|] eqn:E.
  - apply get_operation_Ok in E as [Ho Heq]. f_equal. by eapply NoDup_fmap_eq.
  - unfold get_operation in E. destruct (list_find _ _) as [[]|] eqn:F; [done|].
    apply list_find_None in F. rewrite Forall_forall in F. by destruct (F op Hin).
Qed.

Lemma lookup_key_Some s so po ke op :
  lookup_key so po ke s = Some op → op ∈ rows s ∧ op_key op = (so, po, ke).
Proof.
  unfold lookup_key. destruct (list_find _ _) as [[i o]|] eqn:E; [|done]. intros [= ->].
  apply list_find_Some in E as (Hi & (? & ? & ?) & _). split; [by eapply list_elem_of_lookup_2|].
  unfold op_key. congruence.
Qed.

Lemma lookup_key_None s so po ke :
  lookup_key so po ke s = None → (so, po, ke) ∉ op_key <$> rows s.
Proof.
  unfold lookup_key. destruct (list_find _ _) as [[i o]|] eqn:E; [done|]. intros _.
  apply list_find_None in E. rewrite Forall_forall in E. intros (op & Heq & Hin)%list_elem_of_fmap.
  unfold op_key in Heq. apply (E op Hin). naive_solver.
Qed.

(** A saved operation replaces the record of its identifier and nothing else. *)
Lemma update_row_ids op ops : operation_id <$> update_row op ops = operation_id <$> ops.
Proof.
  unfold update_row. rewrite <- list_fmap_compose. apply list_fmap_ext. intros i o _. simpl.
  case_bool_decide; congruence.
Qed.

Lemma update_row_keys op ops :
  (∀ o, o ∈ ops → operation_id o = operation_id op → op_key o = op_key op) →
  op_key <$> update_row op ops = op_key <$> ops.
Proof.
  intros Hsame. unfold update_row. rewrite <- list_fmap_compose. apply list_fmap_ext.
  intros i o Hi. simpl. case_bool_decide as Heq; [|done].
  symmetry. apply Hsame; [by eapply list_elem_of_lookup_2|done].
Qed.

Lemma update_row_elem op ops o :
  o ∈ update_row op ops ↔
  (o = op ∧ ∃ o', o' ∈ ops ∧ operation_id o' = operation_id op) ∨
  (o ∈ ops ∧ operation_id o ≠ operation_id op).
Proof.
  unfold update_row. rewrite list_elem_of_fmap. split.
  - intros (o' & -> & Hin). case_bool_decide; eauto.
  - intros [(-> & o' & Hin & Heq)|[Hin Hne]].
    + exists o'. by rewrite bool_decide_eq_true_2.
    + exists o. by rewrite bool_decide_eq_false_2.
Qed.

(** ** The retention bound *)

Lemma prune_ids_unique s : store_ok s → store_ok (prune s).
Proof.
  intros [Hi Hk]. split.
  - eapply sublist_NoDup; [exact Hi|]. apply fmap_sublist, prune_sublist.
  - eapply sublist_NoDup; [exact Hk|]. apply fmap_sublist, prune_sublist.
Qed.

Lemma size_list_to_set_le (l : list string) : (size (list_to_set l : gset string) ≤ length l)%nat.
Proof.
  induction l as [|x l IH]; [done|]. rewrite list_to_set_cons. simpl.
  pose proof (size_union_bound {[x]} (list_to_set l : gset string)) as Hu.
  rewrite size_singleton in Hu. lia.
Qed.

Lemma prune_length s :
  store_ok s →
  (length (rows (prune s)) ≤ RETAINED_RECENT
     + length (filter (λ op, ACTIVE (state op) || holds_rows op) (rows s))
     + size (latest_reconciled (rows s)))%nat.
Proof.
  intros Hok. pose proof (prune_ids_unique s Hok) as [Hids _].
  destruct (decide (length (rows s) ≤ RETAINED_RECENT)%nat) as [Hle|Hgt].
  { rewrite prune_rows, bool_decide_eq_true_2 by done. lia. }
  rewrite <- (length_fmap operation_id (rows (prune s))), <- (size_list_to_set (C := gset string)) by done.
  etrans; [apply (subseteq_size _ (kept (rows s)))|].
  - intros id (op & -> & Hin)%elem_of_list_to_set%list_elem_of_fmap.
    rewrite prune_rows, bool_decide_eq_false_2 in Hin by done.
    by apply list_elem_of_filter in Hin as [? _].
  - unfold kept. 
    pose proof (size_union_bound (C := gset string)) as Hu.
    etrans; [apply Hu|]. etrans; [apply Nat.add_le_mono_r, Hu|].
    pose proof (size_list_to_set_le (operation_id <$> drop (length (rows s) - RETAINED_RECENT) (rows s))) as H1.
    pose proof (size_list_to_set_le (operation_id <$> filter (λ op, ACTIVE (state op) || holds_rows op) (rows s))) as H2.
    pose proof (size_list_to_set_le (snd <$> map_to_list (latest_reconciled (rows s)))) as H3.
    rewrite length_fmap in H1. rewrite length_fmap in H2. rewrite length_fmap in H3. rewrite length_drop in H1. rewrite length_map_to_list in H3. lia.
Qed.
End Theory.

(** ** Event numbering *)

Section Events.
Context {I : Type} `{IntentType I}.
Implicit Types (s : Store I).

(** The rows of a run are numbered without gaps, and there are at most [max_events] of them. *)
Definition events_ok (limit : Z) (l : list Event) : Prop :=
  ∃ first, 1 ≤ first ∧ sequence <$> l = seqZ first (Z.of_nat (length l)) ∧ Z.of_nat (length l) ≤ limit.

Lemma seqZ_max first (n : nat) l :
  1 ≤ first → sequence <$> l = seqZ first (Z.of_nat n) →
  foldr (λ e m, Z.max (sequence e) m) 0 l = if bool_decide (n = 0%nat) then 0 else first + Z.of_nat n - 1.
Proof.
  revert first l. induction n as [|n IH]; intros first l Hf Hl.
  - by apply fmap_nil_inv in Hl as ->.
  - rewrite seqZ_cons in Hl by lia. destruct l as [|e l]; [done|]. simpl in Hl |- *.
    injection Hl as He Hl. replace (Z.pred (Z.of_nat (S n))) with (Z.of_nat n) in Hl by lia.
    rewrite (IH (Z.succ first) l), He by (done || lia). case_bool_decide; lia.
Qed.

Lemma filter_seqZ (l : list Event) first n bound :
  sequence <$> l = seqZ first (Z.of_nat n) → first - 1 ≤ bound →
  sequence <$> filter (λ e, bound < sequence e) l =
    seqZ (bound + 1) (Z.of_nat n - (bound + 1 - first)).
Proof.
  revert first n. induction l as [|e l IH]; intros first n Hl Hb.
  - destruct n; [|rewrite seqZ_cons in Hl by lia; done]. symmetry. apply seqZ_nil. lia.
  - destruct n as [|n]; [done|]. rewrite fmap_cons, seqZ_cons in Hl by lia. injection Hl as He Hl.
    replace (Z.pred (Z.of_nat (S n))) with (Z.of_nat n) in Hl by lia.
    destruct (decide (bound < sequence e)) as [Hlt|Hge].
    + rewrite filter_cons_True, fmap_cons by done. assert (bound = first - 1) as -> by lia.
      rewrite He, (seqZ_cons (first - 1 + 1)) by lia. f_equal; [lia|].
      assert (Hall : filter (λ e, first - 1 < sequence e) l = l).
      { apply filter_all, Forall_forall. intros x Hx. apply (list_elem_of_fmap_2 sequence) in Hx.
        rewrite Hl in Hx. apply elem_of_seqZ in Hx. lia. }
      rewrite Hall, Hl. f_equal; lia.
    + rewrite filter_cons_False by done. rewrite (IH (Z.succ first) n Hl) by lia. f_equal. lia.
Qed.

Lemma append_event_rows run op pod ph payload now s :
  event_rows (append_event run op pod ph payload now s) !! run =
    Some (let old := default [] (event_rows s !! run) in
          let seq := foldr (λ e m, Z.max (sequence e) m) 0 old + 1 in
          filter (λ e, seq - max_events s < sequence e)
            (old ++ [mkEvent seq now op pod ph
               match assoc "reason" payload with
               | Some (VDict d) => Some (default (VStr "NOT_READY") (assoc "code" d))
               | r => r
               end (redact (VDict payload))])).
Proof. unfold append_event; simpl. apply lookup_insert_eq. Qed.

Lemma append_event_ok limit run op pod ph payload now s :
  max_events s = limit → 1 ≤ limit →
  events_ok limit (default [] (event_rows s !! run)) →
  events_ok limit (default [] (event_rows (append_event run op pod ph payload now s) !! run)).
Proof.
  intros Hlim Hpos (first & Hf & Hseq & Hlen). rewrite append_event_rows, Hlim. cbv zeta. simpl.
  set (old := default [] _) in *. set (n := length old) in *.
  rewrite (seqZ_max first n old Hf Hseq).
  set (seq := (if bool_decide (n = 0%nat) then 0 else first + Z.of_nat n - 1) + 1).
  set (e := mkEvent seq _ _ _ _ _ _).
  set (first' := if bool_decide (n = 0%nat) then 1 else first).
  assert (Hseq' : sequence <$> (old ++ [e]) = seqZ first' (Z.of_nat (S n))).
  { rewrite fmap_app, Hseq. unfold first', seq. simpl. case_bool_decide as Hn; [by rewrite Hn|].
    rewrite Nat2Z.inj_succ, <- Z.add_1_r, seqZ_app by lia. f_equal. rewrite seqZ_cons by lia.
    rewrite seqZ_nil by lia. unfold e, seq; simpl. f_equal. lia. }
  assert (Hl : seq = first' + Z.of_nat n) by (unfold seq, first'; case_bool_decide; lia).
  destruct (decide (first' - 1 ≤ seq - limit)) as [Hd|Hd].
  - exists (seq - limit + 1).
    pose proof (filter_seqZ (old ++ [e]) first' (S n) (seq - limit) Hseq' Hd) as Hfil.
    assert (Hlen' : length (filter (λ e, seq - limit < sequence e) (old ++ [e])) = Z.to_nat limit).
    { rewrite <- (length_fmap sequence), Hfil, length_seqZ. lia. }
    rewrite Hfil, Hlen'. split; [unfold first' in *; case_bool_decide; lia|]. split; [f_equal; lia|lia].
  - rewrite filter_all.
    + exists first'. split; [unfold first'; case_bool_decide; lia|].
      rewrite Hseq', length_app; simpl. fold n. split; [f_equal; lia|].
      unfold first' in *. case_bool_decide; lia.
    + apply Forall_forall. intros x Hx. apply (list_elem_of_fmap_2 sequence) in Hx.
      rewrite Hseq' in Hx. apply elem_of_seqZ in Hx. lia.
Qed.
End Events.

(** ** Numbered keys *)

Lemma digits_no_hash acc str v : digits_value acc str = Some v → rpartition_hash str = None.
Proof.
  revert acc. induction str as [|c str IH]; intros acc Hv; simpl in *; [done|].
  apply bind_Some in Hv as (d & Hd & Hv). rewrite (IH _ Hv).
  case_bool_decide as Hc; [|done]. subst c. vm_compute in Hd. done.
Qed.

Lemma rpartition_hash_app base n :
  rpartition_hash n = None → rpartition_hash (base +:+ "#" +:+ n) = Some (base, n).
Proof.
  intros Hn. induction base as [|c base IH].
  - change ("" +:+ "#" +:+ n) with (String (Ascii.ascii_of_N 35) n). simpl. by rewrite Hn.
  - change (String c base +:+ "#" +:+ n) with (String c (base +:+ "#" +:+ n)).
    cbn [rpartition_hash]. by rewrite IH.
Qed.

Lemma digit_pretty_char d : (d < 10)%N → digit (pretty_N_char d) = Some d.
Proof.
  intros Hd. destruct d as [|d]; [done|].
  do 4 (destruct d as [d|d|]; try lia; try done).
Qed.

Lemma digits_value_pretty_go x str : digits_value 0 (pretty_N_go x str) = digits_value x str.
Proof.
  revert str. induction (N.lt_wf_0 x) as [x _ IH]. intros str.
  destruct (decide (0 < x)%N) as [Hx|Hx].
  - rewrite pretty_N_go_step by done. rewrite IH by (apply N.div_lt; lia). simpl.
    rewrite digit_pretty_char by (apply N.mod_lt; lia). simpl.
    f_equal. rewrite N.mul_comm. symmetry. apply N.div_mod. lia.
  - assert (x = 0%N) as -> by lia. by rewrite pretty_N_go_0.
Qed.

Lemma parse_digits_pretty (n : N) : parse_digits (pretty n) = Some n.
Proof.
  unfold parse_digits. rewrite bool_decide_eq_false_2.
  - unfold pretty, pretty_N. case_decide as Hn; [by subst|]. apply digits_value_pretty_go.
  - intros Hp. assert (Hz : digits_value 0 (pretty n) = Some n).
    { unfold pretty, pretty_N. case_decide as Hn; [by subst|]. apply digits_value_pretty_go. }
    rewrite Hp in Hz. simpl in Hz. injection Hz as <-. done.
Qed.

Lemma split_key_numbered tag n : split_key (tag +:+ "#" +:+ pretty n) = (tag, n).
Proof.
  unfold split_key. pose proof (parse_digits_pretty n) as Hp.
  rewrite rpartition_hash_app, Hp; [done|]. unfold parse_digits in Hp. case_bool_decide; [done|].
  by eapply digits_no_hash.
Qed.

(** * Properties *)

(** Nothing secret reaches the journal's events, conflicts and runs: redaction leaves no value
    under a sensitive key at any depth of lists and dictionaries, and redacting again changes
    nothing. *)
Theorem redaction_complete (v : value) : clean (redact v) ∧ redact (redact v) = redact v.
Proof. split; [apply redact_is_clean|apply redact_idempotent]. Qed.

(** Pruning the journal keeps what the adapter still acts on. Every active operation, every one
    that still holds rows in its pod, the sixteen most recent, and for each pod the last one in a
    state reconciliation follows stay, in their order, with unique identifiers and keys; the rest
    goes, so that the journal stays bounded by these. *)
Theorem prune_retention {I} `{IntentType I} (s : Store I) :
  store_ok s →
  rows (prune s) `sublist_of` rows s ∧ store_ok (prune s) ∧
  (∀ op, op ∈ rows s →
     ACTIVE (state op) = true ∨ holds_rows op = true ∨
     op ∈ drop (length (rows s) - RETAINED_RECENT) (rows s) → op ∈ rows (prune s)) ∧
  (∀ before op after, rows s = before ++ op :: after → RECONCILED (state op) = true →
     Forall (λ o, op_pod o = op_pod op → RECONCILED (state o) = false) after →
     op ∈ rows (prune s)) ∧
  (length (rows (prune s)) ≤ RETAINED_RECENT
     + length (filter (λ op, ACTIVE (state op) || holds_rows op) (rows s))
     + size (latest_reconciled (rows s)))%nat.
Proof.
  intros Hok. split; [apply prune_sublist|]. split; [by apply prune_ids_unique|].
  split; [|split; [|by apply prune_length]].
  - intros op Hin Hk. apply prune_keeps; [done|]. tauto.
  - intros before op after Hrows Hrec Hafter. apply prune_keeps.
    + rewrite Hrows. apply elem_of_app. right. apply list_elem_of_here.
    + do 3 right. by eapply latest_reconciled_lookup.
Qed.

Definition example_journal : Store Intent :=
  mkStore "process-1" 10000 10000
    ((λ i : nat, example_operation
        <| operation_id := "op" +:+ pretty (N.of_nat i) |>
        <| idempotency_key := "key" +:+ pretty (N.of_nat i) |>
        <| state := if bool_decide (i = 0%nat) then INDETERMINATE else FAILED |>) <$> seq 0 20)
    ∅ ∅ ∅ ∅.

Lemma prune_retention_witness :
  length (rows (prune example_journal)) = 17%nat ∧
  rows (prune example_journal) `sublist_of` rows example_journal.
Proof.
  split; [vm_compute; reflexivity|]. apply (prune_retention example_journal).
  split; apply (bool_decide_unpack (NoDup _)); vm_compute; exact Logic.I.
Defined.

(** The events of a run are numbered consecutively, without gaps or reuse, and at most
    [max_events] of them are retained: writing an event keeps the retained rows a contiguous range
    that ends at the new event. *)
Theorem event_log_contiguous {I} `{IntentType I} (s : Store I) (run : string) (op pod : option string)
    (ph : string) (payload : list (string * value)) (now : Z) :
  1 ≤ max_events s →
  events_ok (max_events s) (default [] (event_rows s !! run)) →
  events_ok (max_events s)
    (default [] (event_rows (append_event run op pod ph payload now s) !! run)).
Proof. intros. by apply append_event_ok. Qed.

Lemma event_log_contiguous_witness :
  events_ok 10000 (default [] (event_rows
    (append_event "run-1" None None "OBSERVATION" [] 7 example_journal) !! "run-1")).
Proof.
  apply (event_log_contiguous example_journal); [simpl; lia|].
  exists 1. split; [lia|]. split; [reflexivity|vm_compute; discriminate].
Defined.

(** One write per OpenSync start and configuration, a revert included. The write a scope wants
    is either the one its latest operation already stands for, or gets a key that carries the
    wanted tag and a number one past the latest one's, and so differs from every key numbered up
    to it: going back to an earlier configuration is never taken for the earlier write. *)
Theorem start_write_fresh_key {I} `{IntentType I} (latest : Operation I) (tag : string) :
  let '(base, n) := split_key (idempotency_key latest) in
  (base = tag → start_write (Some latest) tag None = (Some latest, None)) ∧
  (base ≠ tag → ∃ key, start_write (Some latest) tag None = (None, Some key) ∧
     split_key key = (tag, (n + 1)%N) ∧
     ∀ k, ((split_key k).2 ≤ n)%N → key ≠ k).
Proof.
  destruct (split_key (idempotency_key latest)) as [base n] eqn:E. unfold start_write. rewrite E.
  split; intros Hb.
  - by rewrite bool_decide_eq_true_2.
  - rewrite bool_decide_eq_false_2 by done. eexists. split; [done|].
    rewrite split_key_numbered. split; [done|]. intros k Hk <-.
    rewrite split_key_numbered in Hk. simpl in Hk. lia.
Qed.
