(* ===== verification/Engine.v ===== *)
(** * The operation engine: class [Engine] of [src/emosa/reconcile.py]

    The engine's process-local state and its journal, one definition per method. [execute] awaits
    the pod four times: it is a coroutine whose suspension points are the constructors of [pc];
    [start_execute] runs it to its first one and [resume] from one to the next with the answer the
    environment gives, so that any other call may run in between. Each atomic stretch reads the
    clock once. The secret store, the JSON Schema check and the mapping name of each pod's backend
    are parameters; what a backend answers is an argument of [resume] and [reconcile]. *)

From S2P Require Import Prelude Lifecycle Store.

(** One reading of the monotonic and of the UTC clock, in milliseconds. *)
Record Clock := mkClock { monotonic : Z; utc : Z }.

Section Engine.
Context {I : Type} `{IntentType I}.
Variable validate_operation : Operation I → result unit.
Variable vault : Vault.
(** The configured pods, and [getattr(backend, "mapping", None)] of each. *)
Variable backends : gmap string (option string).

(** What [reconcile] remembers of the last observation of an operation. *)
Definition signature : Type := dict * dict * Z * bool.

Record Engine := mkEngine {
  store : Store I;
  deadlines : gmap string Z;
  busy : gset string;
  quiesced : bool;
  instances : gmap string string;
  starts : gmap string Z;
  last_observations : gmap string signature;
  wsc_guards : gset string
}.
#[local] Instance eta_Engine : Eta Engine := λ e,
  mkEngine (store e) (deadlines e) (busy e) (quiesced e) (instances e) (starts e)
    (last_observations e) (wsc_guards e).

(** A method of the journal, called by the engine. *)
Definition on_store {A} (m : M (Store I) A) : M Engine A := λ e,
  let '(r, s) := m (store e) in (r, e <| store := s |>).

Definition reason_of (r : Reason) : option string := Some (reason_name r).

(** What [_save] assigns to the operation before it writes it. *)
Definition touch (clk : Clock) (e : Engine) (op : Operation I) : Operation I :=
  let op := op <| updated_at := utc clk |> in
  match starts e !! operation_id op, timings op !! state_name (state op) with
  | Some t, None => op <| timings :=
      <[state_name (state op) := (monotonic clk - t, process_id (store e))]> (timings op) |>
  | _, _ => op
  end.

(** [_save(op, payload)]; the operation as saved. *)
Definition save_op (clk : Clock) (op : Operation I) (payload : list (string * value)) :
    M Engine (Operation I) :=
  e ← get;
  _ ← on_store (save validate_operation (touch clk e op) payload);
  mret (touch clk e op).

(** [_evidence(snap, **extra)] *)
Definition evidence_of (snap : Snapshot) (extra : dict) : dict :=
  let o := observed snap in
  let base : dict := extra ∪ list_to_map [
    ("fresh", VBool (fresh o)); ("predicate_satisfied", VBool true);
    ("generation", VInt (generation snap)); ("revision", VInt (revision o));
    ("received_at", VInt (received_at o)); ("source", VStr (o_source o));
    ("provenance", VStr (provenance o))] in
  match instance snap with
  | Some i => if given (instance snap) && bool_decide (base !! "instance" = None)
              then <["instance" := VStr i]> base else base
  | None => base
  end.

(** [_written_on_another_start(op, current)] *)
Definition written_on_another_start (op : Operation I) (current : option string) : bool :=
  let a := default VNone (default ∅ (application_evidence op) !! "instance") in
  let written := if truthy a then a else default VNone (commit_evidence op !! "instance") in
  match current with
  | Some c => truthy written && given current && negb (bool_decide (written = VStr c))
  | None => false
  end.

(** [_remapped(op, pod_id)] *)
Definition remapped (op : Operation I) (pod : string) : bool :=
  match default None (backends !! pod), default ∅ (plan op) !! "mapping" with
  | Some m, Some p => given (Some m) && truthy p && negb (bool_decide (p = VStr m))
  | _, _ => false
  end.

(** [_remember(pod_id, snap)] *)
Definition remember (pod : string) (snap : Snapshot) : M Engine unit :=
  match instance snap with
  | Some i => if given (instance snap) then modify (λ e, e <| instances := <[pod := i]> (instances e) |>)
              else mret tt
  | None => mret tt
  end.

(** A recorded conflict counts when it is not empty. *)
Definition owned_truth (o : option (list (string * value))) : bool :=
  match o with Some d => negb (bool_decide (d = [])) | None => false end.

(** [_owned(pod_id, run_id)] *)
Definition owned (clk : Clock) (pod : string) (run : option string) :
    M Engine (option (list (string * value))) :=
  e ← get;
  let o := ownership pod (store e) in
  match o, instances e !! pod with
  | Some d, Some current =>
      if owned_truth o && from_option truthy false (assoc "instance" d) && given (Some current)
         && negb (bool_decide (assoc "instance" d = Some (VStr current)))
      then
        _ ← on_store (release pod);
        _ ← match run with
            | Some r => if given run then
                on_store (event r "OWNERSHIP_RELEASED"
                  [("reason", VStr "the pod's OpenSync started again"); ("instance", VStr current)]
                  None (utc clk)) else mret tt
            | None => mret tt
            end;
        mret None
      else mret o
  | _, _ => mret o
  end.

(** [_settle_restarted(op, current)] *)
Definition settle_restarted (clk : Clock) (op : Operation I) (current : option string) : M Engine bool :=
  if negb (bool_decide (state op = CONFIG_COMMITTED ∨ state op = INDETERMINATE)) then mret false
  else if negb (written_on_another_start op current) then mret false
  else
    op ← lift (transition op FAILED ∅);
    _ ← save_op clk (op <| reason := reason_of NOT_READY |>)
          [("restarted", VDict [("instance", from_option VStr VNone current)])];
    mret true.

(** ** Requests *)

(** The operation [_request] makes; [id] is the fresh UUID. *)
Definition new_operation (id run source interface : string) (i : I) (fp key : string) (now deadline : Z) :
    Operation I :=
  mkOperation id run source interface i fp key now now (now + deadline) REQUESTED None
    None [] {["attribution" := VStr "not_submitted"]} None None false None None false None ∅.

(** [transition(op, REJECTED); op.reason = r; self._save(op)] *)
Definition reject (clk : Clock) (op : Operation I) (r : Reason) : M Engine (Operation I) :=
  op ← lift (transition op REJECTED ∅);
  save_op clk (op <| reason := reason_of r |>) [].

(** [_request] once the operation is in the journal: whether the pod is free. *)
Definition place (clk : Clock) (op : Operation I) : M Engine (Operation I) :=
  let id := operation_id op in
  let pod := op_pod op in
  e ← get;
  let current := instances e !! pod in
  _ ← for_each (λ p,
        if bool_decide (op_pod p = pod) && negb (bool_decide (operation_id p = id)) then
          _ ← settle_restarted clk p current; mret tt
        else mret tt) (operations (store e));
  e ← get;
  if quiesced e || bool_decide (pod ∈ busy e)
     || existsb (λ p, bool_decide (op_pod p = pod) && ACTIVE (state p)
                      && negb (bool_decide (operation_id p = id))) (operations (store e))
  then reject clk op BUSY
  else
    o ← owned clk pod (Some (run_id op));
    if owned_truth o then reject clk op OWNERSHIP_CONFLICT else mret op.

(** [_request] from [self.store.add] on; [deadline] is in milliseconds. *)
Definition enter (clk : Clock) (op : Operation I) (deadline : Z) (receipt : option Receipt) :
    M Engine (Operation I) :=
  _ ← on_store (add validate_operation op receipt);
  _ ← modify (λ e, e <| starts := <[operation_id op := monotonic clk]> (starts e) |>
                     <| deadlines := <[operation_id op := monotonic clk + deadline]> (deadlines e) |>);
  place clk op.

(** The checks of [_request] and the fingerprint of the intent. *)
Definition request_checks (i : I) (source key : string) (deadline : Z) (interface : string)
    (receipt : option Receipt) : result string :=
  _ ← i_validate i;
  _ ← raise_if (bool_decide (interface ≠ "semantic")
                && (bool_decide (interface ≠ "wsc-component")
                    || match receipt with None => true | Some _ => false end))
        MISSING_PREREQUISITE "missing component WSC receipt";
  _ ← raise_if (bool_decide (source = "") || bool_decide (key = "")
                || bool_decide (128 < chars key)
                || negb (bool_decide (0 < deadline ≤ 3600000)))
        INVALID_INPUT "invalid source, idempotency key or deadline";
  _ ← raise_if (bool_decide (backends !! i_pod_id i = None)) UNSUPPORTED_OPERATION
        "pod outside configured allowlist";
  target ← i_target vault i;
  Ok (fingerprint vault (VDict (i_record i ++ [("target", VDict (map_to_list target))]))).

(** [_request(...)] *)
Definition request_internal (clk : Clock) (id : string) (i : I) (source key run : string) (deadline : Z)
    (interface : string) (receipt : option Receipt) : M Engine (Operation I) :=
  fp ← lift (request_checks i source key deadline interface receipt);
  e ← get;
  match lookup_key source (i_pod_id i) key (store e) with
  | Some old =>
      _ ← lift (raise_if (negb (bool_decide (intent_fingerprint old = fp))) INVALID_INPUT
                  "idempotency key reused for different intent");
      mret old
  | None => enter clk (new_operation id run source interface i fp key (utc clk) deadline) deadline receipt
  end.

(** [request(...)], the public entry. *)
Definition request (clk : Clock) (id : string) (i : I) (source key run : string) (deadline : Z)
    (interface : string) : M Engine (Operation I) :=
  _ ← lift (raise_if (bool_decide (interface ≠ "semantic")) MISSING_PREREQUISITE
              "P0 wire binding is not implemented");
  request_internal clk id i source key run deadline interface None.

(** [cancel(operation_id)] *)
Definition cancel (clk : Clock) (id : string) : M Engine (Operation I) :=
  e ← get;
  op ← lift (get_operation id (store e));
  op ← lift (transition op CANCELLED ∅);
  save_op clk op [].

(** ** Reconciliation *)

(** [_expired(op)] *)
Definition expired (clk : Clock) (op : Operation I) : M Engine bool :=
  e ← get;
  let deadline := match deadlines e !! operation_id op with
                  | Some d => d
                  | None => monotonic clk + Z.max 0 (deadline_at op - utc clk)
                  end in
  _ ← put (e <| deadlines := <[operation_id op := deadline]> (deadlines e) |>);
  mret (bool_decide (deadline ≤ monotonic clk)).

(** Past the deadline: the outcome so far is recorded, and a committed write times out. *)
Definition elapse (op : Operation I) : result (Operation I * bool) :=
  if bool_decide (state op = CONFIG_COMMITTED ∨ state op = INDETERMINATE) then
    let changed := negb (deadline_elapsed op) in
    let op := if changed then op <| original_outcome := Some (state op) |> <| deadline_elapsed := true |>
              else op in
    if bool_decide (state op = CONFIG_COMMITTED) then
      op ← transition op TIMED_OUT ∅;
      Ok (op <| reason := reason_of APPLY_TIMEOUT |>, changed)
    else Ok (op, changed)
  else Ok (op, false).

(** [asdict(snap.observed)] *)
Definition observation_record (o : Observation) : value :=
  VDict [("values", VDict (map_to_list (values o))); ("source", VStr (o_source o));
         ("received_at", VInt (received_at o)); ("fresh", VBool (fresh o));
         ("provenance", VStr (provenance o)); ("revision", VInt (revision o))].

(** The entries of the target the observation does not show. *)
Definition desired_observed_diff (target : dict) (o : Observation) : value :=
  VDict ((λ kv, (kv.1, VDict [("desired", kv.2); ("observed", default VNone (values o !! kv.1))]))
         <$> filter (λ kv, default VNone (values o !! kv.1) ≠ kv.2) (map_to_list target)).

(** The OBSERVATION event, once per changed signature. *)
Definition log_observation (clk : Clock) (pod : string) (snap : Snapshot) (op : Operation I) (target : dict) :
    M Engine unit :=
  e ← get;
  let sig := (values (observed snap), config snap, generation snap, fresh (observed snap)) in
  if bool_decide (last_observations e !! operation_id op = Some sig) then mret tt
  else
    _ ← put (e <| last_observations := <[operation_id op := sig]> (last_observations e) |>);
    on_store (event (run_id op) "OBSERVATION"
      [("operation_id", VStr (operation_id op)); ("observation", observation_record (observed snap));
       ("config", VDict (map_to_list (config snap)));
       ("desired_observed_diff", desired_observed_diff target (observed snap))]
      (Some pod) (utc clk)).

(** An indeterminate write that is not applied when its deadline has passed times out. *)
Definition give_up_waiting (snap : Snapshot) (target : dict) (op : Operation I) (changed : bool) :
    result (Operation I * bool) :=
  if ready snap && bool_decide (state op = INDETERMINATE) && deadline_elapsed op
     && negb (matches (config snap) target && fresh (observed snap) && satisfies (observed snap) target)
  then
    op ← transition op TIMED_OUT ∅;
    Ok (op <| reason := reason_of APPLY_TIMEOUT |>, true)
  else Ok (op, changed).

(** [op.commit_evidence["attribution"] == "unknown"], a [KeyError] where there is none. *)
Definition attribution_unknown (op : Operation I) : result bool :=
  match commit_evidence op !! "attribution" with
  | Some a => Ok (bool_decide (a = VStr "unknown"))
  | None => Raise (key_error "attribution")
  end.

(** The configuration and application evidence of a ready snapshot with fresh observations. *)
Definition judge (pod : string) (snap : Snapshot) (target : dict) (op : Operation I) (changed : bool) :
    M Engine (Operation I * bool) :=
  if negb (ready snap && fresh (observed snap)) then mret (op, changed)
  else
    let config_matches := matches (config snap) target in
    if negb config_matches
       && bool_decide (state op = CONFIG_COMMITTED ∨ state op = OBSERVED_APPLIED ∨ state op = TIMED_OUT)
       && negb (written_on_another_start op (instance snap)) && negb (remapped op pod)
    then
      _ ← on_store (conflict pod
            ([("operation_id", VStr (operation_id op)); ("reason", VStr "owned configuration changed")]
             ++ match instance snap with
                | Some i => if given (instance snap) then [("instance", VStr i)] else []
                | None => []
                end));
      op ← (if bool_decide (state op = CONFIG_COMMITTED)
            then lift (transition op STATE_OWNERSHIP_CONFLICT ∅) else mret op);
      if bool_decide (reason op = reason_of OWNERSHIP_CONFLICT) then mret (op, changed)
      else mret (op <| reason := reason_of OWNERSHIP_CONFLICT |>, true)
    else if config_matches && satisfies (observed snap) target
            && bool_decide (application_evidence op = None)
    then
      let ev := evidence_of snap ∅ in
      let op := op <| application_evidence := Some ev |> in
      let op := if deadline_elapsed op then op <| late_resolution := Some "applied_after_deadline" |>
                else op in
      op ← (if bool_decide (state op = TIMED_OUT) then mret op
            else lift (transition op OBSERVED_APPLIED ev));
      unknown ← lift (attribution_unknown op);
      mret (if unknown : bool
            then op <| application_evidence :=
                   Some (<["attribution" := VStr "current_condition_only"]> ev) |>
            else op <| reason := if deadline_elapsed op then reason_of APPLY_TIMEOUT else None |>, true)
    else mret (op, changed).

(** The body of [reconcile]'s loop; [later] are the operations after this one. *)
Definition reconcile_one (clk : Clock) (pod : string) (snap : Snapshot) (op : Operation I)
    (later : list (Operation I)) : M Engine unit :=
  if negb (bool_decide (op_pod op = pod))
     || negb (bool_decide (state op = CONFIG_COMMITTED ∨ state op = INDETERMINATE
                           ∨ state op = TIMED_OUT ∨ state op = OBSERVED_APPLIED))
     || existsb (λ p, bool_decide (op_pod p = pod) && RECONCILED (state p)) later
  then mret tt
  else
    settled ← settle_restarted clk op (instance snap);
    if settled : bool then mret tt
    else
      late ← expired clk op;
      '(op, changed) ← lift (if late : bool then elapse op else Ok (op, false));
      '(op, changed) ← match i_target vault (intent op) with
                       | Raise _ => mret (op <| blocked_for_resubmission := true |>,
                                          changed || negb (blocked_for_resubmission op))
                       | Ok target =>
                           _ ← log_observation clk pod snap op target;
                           '(op, changed) ← lift (give_up_waiting snap target op changed);
                           judge pod snap target op changed
                       end;
      if changed : bool then
        _ ← save_op clk op [("observation", observation_record (observed snap))]; mret tt
      else mret tt.

(** [reconcile(pod_id)] from the answer of [backend.snapshot()] on. *)
Definition reconcile (clk : Clock) (pod : string) (snap : Snapshot) : M Engine Snapshot :=
  _ ← remember pod snap;
  e ← get;
  _ ← for_tails (reconcile_one clk pod snap) (operations (store e));
  mret snap.

(** [drifted(pod_id)]; [snapshot] is the backend's answer. *)
Definition drifted (pod : string) (snapshot : Snapshot) (e : Engine) : bool :=
  match last (filter (λ op, op_pod op = pod) (operations (store e))) with
  | Some op =>
      bool_decide (state op = OBSERVED_APPLIED) && ready snapshot
      && match i_target vault (intent op) with
         | Ok target => negb (matches (config snapshot) target)
         | Raise _ => false
         end
  | None => false
  end.

(** ** Recovery *)

(** The body of [recover]'s loop. *)
Definition recover_one (clk : Clock) (op : Operation I) : M Engine unit :=
  if bool_decide (initiating_interface op = "wsc-component") && bool_decide (state op = REQUESTED) then
    op ← lift (transition op CANCELLED ∅);
    _ ← save_op clk op [("recovery", VStr "unsent WSC component request; new exchange required")];
    mret tt
  else if bool_decide (state op = SUBMITTED) then
    op ← lift (transition op INDETERMINATE ∅);
    _ ← save_op clk (op <| commit_evidence := {["attribution" := VStr "unknown"]} |>
                        <| reason := reason_of OUTCOME_UNKNOWN |>)
          [("recovery", VStr "possibly sent; observation required before action")];
    mret tt
  else if bool_decide (state op = VALIDATED) then
    op ← lift (transition op CANCELLED ∅);
    _ ← save_op clk op [("recovery", VStr "unsent intent; explicit new request required")];
    mret tt
  else mret tt.

(** [recover()] *)
Definition recover (clk : Clock) : M Engine unit :=
  e ← get; for_each (recover_one clk) (operations (store e)).

(** ** Execution *)

(** Where [execute] is suspended: in a WSC guard, the backend's [plan], its [snapshot], the second
    guard with the snapshot taken, or the backend's [submit]. *)
Inductive pc := PGuard | PPlan | PSnapshot | PGuard2 (snap : Snapshot) | PSubmit.

(** A suspended [execute]: its local operation, and where it waits. *)
Record Task := mkTask { t_op : Operation I; t_pc : pc }.

(** What the awaited call does: it returns, or raises an [EmosaError], a [ConnectionError] or
    [TimeoutError], or any other exception (a cancellation of the task included). *)
Inductive answer (A : Type) :=
  | Returned (a : A)
  | RaisedEmosa (err : EmosaError)
  | RaisedIO
  | RaisedOther.
Arguments Returned {A} a.
Arguments RaisedEmosa {A} err.
Arguments RaisedIO {A}.
Arguments RaisedOther {A}.

(** An answer for each suspension point. *)
Inductive reply :=
  | RGuard (a : answer unit)
  | RPlan (a : answer dict)
  | RSnapshot (a : answer Snapshot)
  | RSubmit (a : answer SubmitResult).

(** How a stretch of [execute] ends: it waits, it returns an operation, or an exception that is
    not an [EmosaError] leaves it. *)
Inductive progress :=
  | Waits (t : Task)
  | Returns (op : Operation I)
  | Crashes.

(** The handler of [except EmosaError]. *)
Definition fail (clk : Clock) (op : Operation I) (err : EmosaError) : M Engine progress :=
  op ← lift (transition op REJECTED ∅);
  op ← save_op clk (op <| reason := reason_of (code err) |>) [];
  mret (Returns op).

(** [_check_wsc(op)] up to [await guard()]: whether there is a guard to await. *)
Definition check_wsc (op : Operation I) : M Engine bool :=
  if bool_decide (initiating_interface op ≠ "wsc-component") then mret false
  else
    e ← get;
    match wsc_receipt (operation_id op) (store e) with
    | Some r =>
        _ ← lift (raise_if (negb (bool_decide (rc_process_id r = process_id (store e)))
                            || negb (bool_decide (operation_id op ∈ wsc_guards e)))
                    NOT_READY "WSC exchange authority is no longer live");
        mret true
    | None => raise NOT_READY "WSC exchange authority is no longer live"
    end.

(** [plan(intent)] up to the backend's call. *)
Definition plan_checks (clk : Clock) (pod : string) : M Engine unit :=
  _ ← lift (raise_if (bool_decide (backends !! pod = None)) UNSUPPORTED_OPERATION "unknown pod");
  o ← owned clk pod None;
  lift (raise_if (owned_truth o) OWNERSHIP_CONFLICT "ownership must be re-qualified").

Definition begin_plan (clk : Clock) (op : Operation I) : M Engine progress :=
  try_else (plan_checks clk (op_pod op)) (λ _, mret (Waits (mkTask op PPlan))) (fail clk op).

(** [_refused(op, result)] *)
Definition refused (op : Operation I) (r : SubmitResult) : Operation I :=
  if bool_decide (evidence r !! "attribution" = Some (VStr "reply")) && truthy_at "database_error" (evidence r)
  then op <| commit_evidence := evidence r |> else op.

(** From the validated operation to the awaited [submit]; [aid] and [tid] are fresh UUIDs. *)
Definition prepare (clk : Clock) (aid tid : string) (snap : Snapshot) (op : Operation I) :
    M Engine progress :=
  target ← lift (i_target vault (intent op));
  if satisfies (observed snap) target && matches (config snap) target then
    let ev := evidence_of snap {["observed_noop" := VBool true]} in
    op ← lift (transition op OBSERVED_APPLIED ev);
    op ← save_op clk (op <| changed := Some false |> <| application_evidence := Some ev |>) [];
    mret (Returns op)
  else
    let attempt := mkAttempt aid tid (generation snap) (utc clk) in
    let op := op <| attempts := attempts op ++ [attempt] |> in
    op ← lift (transition op SUBMITTED ∅);
    op ← save_op clk (op <| commit_evidence := {["attribution" := VStr "unknown"]} |>)
           [("attempt", VDict [("attempt_id", VStr aid); ("transaction_id", VStr tid);
                               ("session_generation", VInt (generation snap));
                               ("prepared_at", VInt (utc clk))])];
    mret (Waits (mkTask op PSubmit)).

(** From the second guard's return on. *)
Definition after_guard (clk : Clock) (aid tid : string) (snap : Snapshot) (op : Operation I) :
    M Engine progress :=
  e ← get;
  try_else (lift (get_operation (operation_id op) (store e))) (λ stored,
    if negb (bool_decide (state stored = REQUESTED)) then mret (Returns stored)
    else
      let op := op <| schema_fingerprint := Some (s_schema_fingerprint snap) |> in
      try_else (lift (transition op VALIDATED ∅)) (λ op,
        try_else (save_op clk op [("plan", VDict (map_to_list (default ∅ (plan op))))])
          (prepare clk aid tid snap) (fail clk (touch clk e op)))
        (fail clk op))
    (fail clk op).

(** From the snapshot's arrival on. *)
Definition after_snapshot (clk : Clock) (aid tid : string) (snap : Snapshot) (op : Operation I) :
    M Engine progress :=
  _ ← remember (op_pod op) snap;
  if negb (ready snap) then fail clk op (mkEmosaError NOT_READY "fresh complete snapshot required")
  else try_else (check_wsc op) (λ guarded : bool,
         if guarded then mret (Waits (mkTask op (PGuard2 snap)))
         else after_guard clk aid tid snap op) (fail clk op).

(** From the end of [submit] on. *)
Definition after_submit (clk : Clock) (a : answer SubmitResult) (op : Operation I) : M Engine progress :=
  match a with
  | RaisedOther => mret Crashes
  | RaisedEmosa _ | RaisedIO =>
      op ← lift (transition op INDETERMINATE ∅);
      op ← save_op clk (op <| reason := reason_of OUTCOME_UNKNOWN |>) [];
      mret (Returns op)
  | Returned r =>
      op ← (if bool_decide (status r = "committed") then
              op ← lift (transition op CONFIG_COMMITTED (evidence r));
              mret (op <| commit_evidence := evidence r |> <| changed := Some true |>)
            else if bool_decide (status r = "conflict") then
              op ← lift (transition op STATE_OWNERSHIP_CONFLICT ∅);
              let op := refused (op <| reason := reason_of OWNERSHIP_CONFLICT |>) r in
              _ ← on_store (conflict (op_pod op)
                    [("operation_id", VStr (operation_id op));
                     ("reason", from_option VStr VNone (sr_reason r))]);
              mret op
            else if bool_decide (status r = "rejected") then
              op ← lift (transition op FAILED ∅);
              mret (refused (op <| reason := sr_reason r |>) r)
            else
              op ← lift (transition op INDETERMINATE ∅);
              mret (op <| reason := reason_of OUTCOME_UNKNOWN |>));
      op ← save_op clk op [];
      mret (Returns op)
  end.

(** The [finally] of [execute]: nothing while it waits. *)
Definition finally (op : Operation I) (m : M Engine progress) : M Engine progress := λ e,
  match m e with
  | (Ok (Waits t), e) => (Ok (Waits t), e)
  | (r, e) =>
      let e := e <| busy := busy e ∖ {[op_pod op]} |> in
      match get_operation (operation_id op) (store e) with
      | Raise err => (Raise err, e)
      | Ok stored =>
          (r, if bool_decide (state stored = REQUESTED) then e
              else e <| wsc_guards := wsc_guards e ∖ {[operation_id op]} |>)
      end
  end.

(** [execute(operation_id)] up to its first await. *)
Definition start_execute (clk : Clock) (id : string) : M Engine progress :=
  e ← get;
  op ← lift (get_operation id (store e));
  if negb (bool_decide (state op = REQUESTED)) then mret (Returns op)
  else
    _ ← lift (raise_if (bool_decide (op_pod op ∈ busy e)) BUSY "pod already executing");
    _ ← modify (λ e, e <| busy := {[op_pod op]} ∪ busy e |>);
    finally op (
      _ ← lift (if bool_decide (backends !! op_pod op = None) then Raise (key_error (op_pod op)) else Ok tt);
      try_else (check_wsc op) (λ guarded : bool,
        if guarded then mret (Waits (mkTask op PGuard)) else begin_plan clk op) (fail clk op)).

(** An awaited call inside the [try]: an [EmosaError] is handled, another exception leaves. *)
Definition awaited {A} (clk : Clock) (op : Operation I) (a : answer A) (k : A → M Engine progress) :
    M Engine progress :=
  match a with
  | Returned x => k x
  | RaisedEmosa err => fail clk op err
  | RaisedIO | RaisedOther => mret Crashes
  end.

(** [execute] from one await to the next; a reply for another suspension point is no step. *)
Definition resume (clk : Clock) (aid tid : string) (t : Task) (r : reply) : option (M Engine progress) :=
  let op := t_op t in
  finally op <$>
  match t_pc t, r with
  | PGuard, RGuard a => Some (awaited clk op a (λ _, begin_plan clk op))
  | PPlan, RPlan a => Some (awaited clk op a (λ p,
      mret (Waits (mkTask (op <| plan := Some p |>) PSnapshot))))
  | PSnapshot, RSnapshot a => Some (awaited clk op a (λ snap, after_snapshot clk aid tid snap op))
  | PGuard2 snap, RGuard a => Some (awaited clk op a (λ _, after_guard clk aid tid snap op))
  | PSubmit, RSubmit a => Some (after_submit clk a op)
  | _, _ => None
  end.

End Engine.
Arguments Engine I : clear implicits.
Arguments Task I : clear implicits.
Arguments progress I : clear implicits.
#[export] Existing Instance eta_Engine.
Arguments Returned {A} a.
Arguments RaisedEmosa {A} err.
Arguments RaisedIO {A}.
Arguments RaisedOther {A}.
