(* ===== verification/EngineSafety.v ===== *)
(** * What the operation engine guarantees under every interleaving

    The engine of [Engine.v] as a transition system: requests, executions between their awaits,
    reconciliations, cancellations and process restarts in any order, with any answers of the pods.
    The invariant [world_ok] and what follows from it; the lifecycle of each journal row; what
    reconciliation and recovery achieve. *)

From S2P Require Import Prelude Lifecycle Store Engine.

(** ** What the record schema promises

    [schemas/operation.schema.json]: validity of a record depends on the members fixed when it is
    made, its attempts, the attribution of its commit evidence and its timings. *)

Section Identity.
Context {I : Type} `{IntentType I}.

(** The members of an operation that are never assigned after its creation. *)
Definition identity (op : Operation I) :=
  (operation_id op, run_id op, request_source op, initiating_interface op, intent op,
   (intent_fingerprint op, idempotency_key op, created_at op, deadline_at op)).

Class OperationSchema (validate_operation : Operation I → result unit) := {
  schema_edit : ∀ op op',
    validate_operation op = Ok tt → identity op' = identity op → attempts op' = attempts op →
    commit_evidence op' = commit_evidence op ∨ commit_evidence op' = {["attribution" := VStr "unknown"]} →
    (∀ k t, timings op' !! k = Some t → timings op !! k = Some t ∨ (0 ≤ t.1 ∧ t.2 ≠ "")) →
    validate_operation op' = Ok tt;
  schema_attribution : ∀ op, validate_operation op = Ok tt → is_Some (commit_evidence op !! "attribution")
}.

(** The contract [schemas/operation.schema.json] as a check; the [oneOf] of the intents is the
    argument [intent_contract]. *)
Definition hex64 (s : string) : bool :=
  bool_decide (String.length s = 64%nat)
  && forallb (λ c, let n := Ascii.nat_of_ascii c in
       bool_decide (48 ≤ n ≤ 57)%nat || bool_decide (97 ≤ n ≤ 102)%nat) (String.list_ascii_of_string s).

Definition operation_contract (intent_contract : I → bool) (op : Operation I) : result unit :=
  raise_if (negb (
    forallb (λ s, negb (bool_decide (s = "")))
      [operation_id op; run_id op; request_source op; initiating_interface op; idempotency_key op]
    && intent_contract (intent op) && hex64 (intent_fingerprint op)
    && forallb (λ a, negb (bool_decide (attempt_id a = "")) && negb (bool_decide (transaction_id a = ""))
                     && bool_decide (1 ≤ session_generation a)) (attempts op)
    && match commit_evidence op !! "attribution" with
       | Some (VStr a) => bool_decide (a ∈ ["not_submitted"; "unknown"; "reply"])
       | _ => false
       end
    && bool_decide (map_Forall (λ _ t, 0 ≤ t.1 ∧ t.2 ≠ "") (timings op))))
    INVALID_INPUT "invalid operation contract".

#[export] Instance operation_contract_schema (ic : I → bool) : OperationSchema (operation_contract ic).
Proof.
  split.
  2:{ intros op. unfold operation_contract. intros Hv%raise_if_Ok%negb_false_iff. rewrite !andb_true_iff in Hv.
      destruct Hv as [[_ Hc] _]. by destruct (commit_evidence op !! "attribution"). }
  intros op op' Hv Hid Hatt Hce Htm. unfold operation_contract in *.
  apply raise_if_Ok, negb_false_iff in Hv. rewrite !andb_true_iff in Hv.
  destruct Hv as [[[[[Hs Hi] Hf] Ha] Hc] Ht].
  unfold identity in Hid. injection Hid as H1 H2 H3 H4 H5 H6 H7 _ _.
  rewrite H1, H2, H3, H4, H5, H6, H7, Hatt, Hs, Hi, Hf, Ha. cbn [andb].
  assert (match commit_evidence op' !! "attribution" with
          | Some (VStr a) => bool_decide (a ∈ ["not_submitted"; "unknown"; "reply"])
          | _ => false end = true) as ->.
  { destruct Hce as [-> | ->]; [done|]. by rewrite lookup_singleton_eq. }
  rewrite bool_decide_eq_true_2; [done|]. apply bool_decide_eq_true in Ht.
  intros k tm Hk. destruct (Htm k tm Hk) as [Hold|?]; [|done]. exact (Ht k tm Hold).
Qed.
End Identity.

(** Membership in a row of [TRANSITIONS], by computation. *)
Ltac table := apply (bool_decide_unpack _); vm_compute; exact Logic.I.

(** ** The transition system *)

Section World.
Context {I : Type} `{IntentType I}.
Variable validate_operation : Operation I → result unit.
Variable vault : Vault.
Variable backends : gmap string (option string).

(** A process: its engine, the executions waiting on a pod, and the last reading of its clock. *)
Record World := mkWorld { engine : Engine I; tasks : list (Task I); now : Z }.

Definition task_ids (ts : list (Task I)) : list string := operation_id ∘ t_op <$> ts.

(** The tasks after a stretch of an execution. *)
Definition continue (r : result (progress I)) (others : list (Task I)) : list (Task I) :=
  match r with Ok (Waits t) => t :: others | _ => others end.

(** A new process on the journal; [pid] is its fresh identity. *)
Definition new_process (pid : string) (s : Store I) : Engine I :=
  mkEngine (s <| process_id := pid |>) ∅ ∅ false ∅ ∅ ∅ ∅.

Inductive step (w : World) : World → Prop :=
  | step_request clk id i source key run deadline interface receipt :
      now w ≤ monotonic clk → id ∉ operation_id <$> rows (store (engine w)) → id ∉ task_ids (tasks w) →
      step w (mkWorld
        (request_internal validate_operation vault backends clk id i source key run deadline interface
           receipt (engine w)).2 (tasks w) (monotonic clk))
  | step_execute clk id r e :
      now w ≤ monotonic clk → start_execute validate_operation backends clk id (engine w) = (r, e) →
      step w (mkWorld e (continue r (tasks w)) (monotonic clk))
  | step_resume clk aid tid before t after rep m r e :
      now w ≤ monotonic clk → tasks w = before ++ t :: after →
      resume validate_operation vault backends clk aid tid t rep = Some m → m (engine w) = (r, e) →
      step w (mkWorld e (continue r (before ++ after)) (monotonic clk))
  | step_reconcile clk pod snap :
      now w ≤ monotonic clk →
      step w (mkWorld (reconcile validate_operation vault backends clk pod snap (engine w)).2 (tasks w)
                (monotonic clk))
  | step_cancel clk id :
      now w ≤ monotonic clk →
      step w (mkWorld (cancel validate_operation clk id (engine w)).2 (tasks w) (monotonic clk))
  | step_guard id live :
      step w (mkWorld (engine w <| wsc_guards := if live : bool then {[id]} ∪ wsc_guards (engine w)
                                                 else wsc_guards (engine w) ∖ {[id]} |>) (tasks w) (now w))
  | step_quiesce b : step w (mkWorld (engine w <| quiesced := b |>) (tasks w) (now w))
  | step_restart clk pid :
      pid ≠ "" →
      step w (mkWorld (recover validate_operation clk (new_process pid (store (engine w)))).2 []
                (monotonic clk)).

(** A first process on an empty journal. *)
Definition initial (w : World) : Prop :=
  ∃ pid maxo maxe t, pid ≠ "" ∧
    w = mkWorld (new_process pid (mkStore pid maxo maxe [] ∅ ∅ ∅ ∅)) [] t.

Definition reachable (w : World) : Prop := ∃ w0, initial w0 ∧ rtc step w0 w.

(** ** The invariant *)

(** What the record of every journal row shows. *)
Record row_shape (op : Operation I) : Prop := {
  row_pod : backends !! op_pod op ≠ None;
  row_unattempted : state op = REQUESTED ∨ state op = VALIDATED → attempts op = [];
  row_attempted : state op ∈ [SUBMITTED; CONFIG_COMMITTED; INDETERMINATE; TIMED_OUT; FAILED; STATE_OWNERSHIP_CONFLICT] →
    attempts op ≠ [];
  row_committed : state op = CONFIG_COMMITTED →
    truthy_at "transaction_validated" (commit_evidence op) = true;
  row_unapplied : ACTIVE (state op) = true → application_evidence op = None;
  row_applied : state op = OBSERVED_APPLIED → ∃ ev, application_evidence op = Some ev ∧
    truthy_at "fresh" ev = true ∧ truthy_at "predicate_satisfied" ev = true ∧
    (attempts op ≠ [] ∨ truthy_at "observed_noop" ev = true);
  row_timed_out : state op = TIMED_OUT → deadline_elapsed op = true;
  row_in_time : state op ∈ [REQUESTED; VALIDATED; SUBMITTED; CONFIG_COMMITTED] → deadline_elapsed op = false
}.
Definition row_ok (op : Operation I) : Prop := validate_operation op = Ok tt ∧ row_shape op.

(** How a stored state may change in one write: along [TRANSITIONS], or an execution that fails
    after a concurrent cancellation writes its rejection over it. *)
Definition moves (s t : State) : Prop :=
  s = t ∨ t ∈ TRANSITIONS s ∨ (s = CANCELLED ∧ t = REJECTED).

(** One write of a row that satisfied [P]. *)
Inductive edit (P : Operation I → Prop) : list (Operation I) → list (Operation I) → Prop :=
  edit_row rs o op :
    o ∈ rs → P o → identity op = identity o → moves (state o) (state op) → row_ok op →
    edit P rs (update_row op rs).

(** What only requests, executions and restarts change. *)
Definition frame (e e' : Engine I) : Prop :=
  process_id (store e') = process_id (store e) ∧ busy e' = busy e ∧ starts e' = starts e.

Definition edits (P : Operation I → Prop) (e e' : Engine I) : Prop :=
  frame e e' ∧ rtc (edit P) (rows (store e)) (rows (store e')).

(** At most one operation of a pod is active, not counting [id]. *)
Definition one_active_but (id : option string) (rs : list (Operation I)) : Prop :=
  ∀ o1 o2, o1 ∈ rs → o2 ∈ rs → id ≠ Some (operation_id o1) → id ≠ Some (operation_id o2) →
    ACTIVE (state o1) = true → ACTIVE (state o2) = true →
    op_pod o1 = op_pod o2 → operation_id o1 = operation_id o2.

(** The engine's part of the invariant, at clock reading [t]. *)
Record engine_ok (id : option string) (t : Z) (e : Engine I) : Prop := {
  ok_store : store_ok (store e);
  ok_rows : Forall row_ok (rows (store e));
  ok_active : one_active_but id (rows (store e));
  ok_process : process_id (store e) ≠ "";
  ok_starts : ∀ i s, starts e !! i = Some s → s ≤ t
}.

(** A waiting execution and the journal. *)
Definition task_ok (rs : list (Operation I)) (t : Task I) : Prop :=
  match t_pc t with
  | PSubmit => t_op t ∈ rs ∧ state (t_op t) = SUBMITTED
  | _ => state (t_op t) = REQUESTED ∧ row_ok (t_op t) ∧
         ∀ o, o ∈ rs → operation_id o = operation_id (t_op t) →
              identity o = identity (t_op t) ∧ (state o = REQUESTED ∨ state o = CANCELLED)
  end.

Definition task_pod (t : Task I) : string := op_pod (t_op t).

Record world_ok (w : World) : Prop := {
  ok_engine : engine_ok None (now w) (engine w);
  ok_pods : NoDup (task_pod <$> tasks w);
  ok_ids : NoDup (task_ids (tasks w));
  ok_busy : ∀ pod, pod ∈ busy (engine w) ↔ pod ∈ task_pod <$> tasks w;
  ok_tasks : Forall (task_ok (rows (store (engine w)))) (tasks w)
}.

(** ** Writes of rows *)

Implicit Types (op o x : Operation I) (rs : list (Operation I)) (e : Engine I).

#[global] Instance frame_preorder : PreOrder frame.
Proof. split; [done|]. intros e1 e2 e3 (?&?&?) (?&?&?). repeat split; congruence. Qed.

#[global] Instance edits_preorder P : PreOrder (edits P).
Proof. split; [done|]. intros e1 e2 e3 [? ?] [? ?]. split; by etrans. Qed.

Lemma edits_weaken (P Q : Operation I → Prop) e e' : (∀ o, P o → Q o) → edits P e e' → edits Q e e'.
Proof.
  intros HPQ [Hf Hr]. split; [done|]. induction Hr as [|rs1 rs2 rs3 He _ IH]; [done|].
  etrans; [|exact IH]. destruct He. apply rtc_once. econstructor; eauto.
Qed.

Lemma identity_id op o : identity op = identity o → operation_id op = operation_id o.
Proof. unfold identity. congruence. Qed.
Lemma identity_pod op o : identity op = identity o → op_pod op = op_pod o.
Proof. unfold identity, op_pod. congruence. Qed.
Lemma identity_key op o : identity op = identity o → op_key op = op_key o.
Proof. unfold identity, op_key, op_pod. congruence. Qed.

Lemma moves_active s t : moves s t → ACTIVE t = true → ACTIVE s = true.
Proof.
  intros [->|[Ht|[-> ->]]]; [done| |done]. by destruct s; try (apply not_elem_of_nil in Ht; done).
Qed.

Definition unique (rs : list (Operation I)) : Prop := NoDup (operation_id <$> rs) ∧ NoDup (op_key <$> rs).

(** Each row after a write is the written one, or was there before under another identifier. *)
Lemma edit_inv P rs rs' :
  unique rs → edit P rs rs' →
  unique rs' ∧ operation_id <$> rs' = operation_id <$> rs ∧
  ∃ o op, o ∈ rs ∧ P o ∧ identity op = identity o ∧ moves (state o) (state op) ∧ row_ok op ∧ op ∈ rs' ∧
    ∀ x, x ∈ rs' ↔ x = op ∨ (x ∈ rs ∧ operation_id x ≠ operation_id op).
Proof.
  intros Hu He. destruct He as [rs0 o op Ho HP Hid Hm Hok]. destruct Hu as [Hi Hk].
  assert (Hkeys : op_key <$> update_row op rs0 = op_key <$> rs0).
  { apply update_row_keys. intros x Hx Hxid.
    assert (x = o) as ->.
    { apply (NoDup_fmap_eq operation_id rs0 x o); try done.
rewrite Hxid. by apply identity_id. }
    symmetry. by apply identity_key. }
  split; [split; [by rewrite update_row_ids|by rewrite Hkeys]|]. split; [apply update_row_ids|].
  assert (Hx : ∀ x, x ∈ update_row op rs0 ↔ x = op ∨ (x ∈ rs0 ∧ operation_id x ≠ operation_id op)).
  { intros x. rewrite update_row_elem. split; [naive_solver|]. intros [->|?]; [|by right].
    left. split; [done|]. exists o. split; [done|]. symmetry. by apply identity_id. }
  exists o, op. do 5 (split; [done|]). split; [apply Hx; by left|done].
Qed.

(** What holds of a journal stays so under writes of rows. *)
Lemma edits_ok P id t e e' : engine_ok id t e → edits P e e' → engine_ok id t e'.
Proof.
  intros [Hs Hr Ha Hp Ht] [(Hf1 & Hf2 & Hf3) Hrtc].
  assert (Hall : unique (rows (store e')) ∧ Forall row_ok (rows (store e')) ∧
                 one_active_but id (rows (store e'))).
  { assert (H0 : unique (rows (store e)) ∧ Forall row_ok (rows (store e)) ∧
                 one_active_but id (rows (store e))) by done.
    revert H0. clear -Hrtc. induction Hrtc as [|rs1 rs2 rs3 He _ IH]; [done|].
    intros (Hu & Hr & Ha). apply IH. apply edit_inv in He as (Hu' & _ & o & op & Ho & _ & Hid & Hm & Hok & _ & Hx);
      [|done]. split; [done|]. split.
    - apply Forall_forall. intros x [->|[Hx' _]]%Hx; [done|]. rewrite Forall_forall in Hr. auto.
    - assert (Hback : ∀ x, x ∈ rs2 → ACTIVE (state x) = true →
                ∃ y, y ∈ rs1 ∧ operation_id y = operation_id x ∧ op_pod y = op_pod x ∧ ACTIVE (state y) = true).
      { intros x [->|[Hx' _]]%Hx Hact; [|eauto]. exists o.
        rewrite (identity_id op o), (identity_pod op o) by done. eauto using moves_active. }
      intros o1 o2 H1 H2 N1 N2 A1 A2 Hpod.
      destruct (Hback o1 H1 A1) as (y1 & ? & E1 & P1 & ?), (Hback o2 H2 A2) as (y2 & ? & E2 & P2 & ?).
      rewrite <- E1, <- E2 in *. apply Ha; try done. congruence. }
  destruct Hall as ((? & ?) & ? & ?). split; [done|done|done|congruence|].
  rewrite Hf3. exact Ht.
Qed.

(** A row out of the reach of the writes stays. *)
Lemma edits_keep P e e' o :
  store_ok (store e) → edits P e e' → o ∈ rows (store e) →
  (∀ x, P x → operation_id x = operation_id o → x ≠ o) → o ∈ rows (store e').
Proof.
  intros Hs [_ Hr] Ho HP. change (unique (rows (store e))) in Hs.
  induction Hr as [|rs1 rs2 rs3 He _ IH]; [done|].
  apply edit_inv in He as (Hu & _ & x & op & Hx & HPx & Hid & _ & _ & _ & Hin); [|done].
  apply IH; [done|]. apply Hin. right. split; [done|]. intros Heq.
  apply (HP x HPx); [rewrite Heq; symmetry; by apply identity_id|].
  destruct Hs as [Hs _]. eapply NoDup_fmap_eq; [exact Hs|done..|].
  rewrite Heq. symmetry. by apply identity_id.
Qed.

(** A waiting execution does not see writes of other rows, nor of rows it does not depend on. *)
Lemma edits_task P e e' t :
  store_ok (store e) → edits P e e' →
  (∀ o, P o → operation_id o ≠ operation_id (t_op t) ∨ state o ∉ [REQUESTED; CANCELLED; SUBMITTED]) →
  task_ok (rows (store e)) t → task_ok (rows (store e')) t.
Proof.
  intros Hs [_ Hr] HP. change (unique (rows (store e))) in Hs.
  induction Hr as [|rs1 rs2 rs3 He _ IH]; [done|].
  apply edit_inv in He as (Hu & _ & x & op & Hx & HPx & Hid & _ & _ & Hop & Hin); [|done].
  intros Hok. apply IH; [done|]. clear IH. pose proof (identity_id _ _ Hid) as Hids.
  assert (Ha : t_op t ∈ rs1 → state (t_op t) = SUBMITTED → t_op t ∈ rs2).
  { intros Ht Hsub. apply Hin. right. split; [done|]. intros Heq.
    assert (x = t_op t) as ->.
    { destruct Hs as [Hs _]. apply (NoDup_fmap_eq operation_id rs1); congruence. }
    destruct (HP _ HPx) as [?|Hst]; [done|]. rewrite Hsub in Hst. set_solver. }
  assert (Hb : (∀ o, o ∈ rs1 → operation_id o = operation_id (t_op t) →
      identity o = identity (t_op t) ∧ (state o = REQUESTED ∨ state o = CANCELLED)) →
    ∀ o, o ∈ rs2 → operation_id o = operation_id (t_op t) →
      identity o = identity (t_op t) ∧ (state o = REQUESTED ∨ state o = CANCELLED)).
  { intros Hq o [->|[Ho _]]%Hin Hoid; [|by apply Hq]. rewrite Hids in Hoid.
    destruct (HP _ HPx) as [?|Hst]; [done|]. destruct (Hq x Hx Hoid) as [_ [Hx1|Hx1]];
      rewrite Hx1 in Hst; set_solver. }
  unfold task_ok in *. destruct (t_pc t); naive_solver.
Qed.

(** ** The methods that write rows *)

Lemma touch_eq clk e op : ∃ u ts, touch clk e op = op <| updated_at := u |> <| timings := ts |>.
Proof.
  unfold touch; simpl. repeat case_match; eexists _, _; try reflexivity.
  all: destruct op; simpl; reflexivity.
Qed.

Lemma touch_identity clk e op : identity (touch clk e op) = identity op.
Proof. destruct (touch_eq clk e op) as (u & ts & ->). done. Qed.
Lemma touch_id clk e op : operation_id (touch clk e op) = operation_id op.
Proof. by apply identity_id, touch_identity. Qed.
Lemma touch_state clk e op : state (touch clk e op) = state op.
Proof. destruct (touch_eq clk e op) as (u & ts & ->). done. Qed.
Lemma touch_shape clk e op : row_shape op → row_shape (touch clk e op).
Proof. destruct (touch_eq clk e op) as (u & ts & ->). intros []. by split. Qed.

(** A journal method that leaves the rows alone. *)
Definition quiet (e e' : Engine I) : Prop := frame e e' ∧ rows (store e') = rows (store e).

#[global] Instance quiet_preorder : PreOrder quiet.
Proof. split; [done|]. intros e1 e2 e3 [? ?] [? ?]. split; [by etrans|congruence]. Qed.

Lemma quiet_edits P e e' : quiet e e' → edits P e e'.
Proof. intros [Hf Hr]. split; [done|]. by rewrite Hr. Qed.

Lemma save_op_run clk op payload e :
  (∃ e', save_op validate_operation clk op payload e = (Ok (touch clk e op), e') ∧
     validate_operation (touch clk e op) = Ok tt ∧
     rows (store e') = update_row (touch clk e op) (rows (store e)) ∧ frame e e') ∨
  (∃ err e', save_op validate_operation clk op payload e = (Raise err, e') ∧
     validate_operation (touch clk e op) = Raise err ∧ quiet e e').
Proof.
  unfold save_op, on_store, save, mbind, M_mbind, get, lift, modify. simpl.
  destruct (validate_operation (touch clk e op)) as [[]|err] eqn:E; simpl; [left|right].
  - eexists. done.
  - eexists _, _. done.
Qed.

(** The write of a row by [_save]. *)
Lemma save_op_edits (P : Operation I → Prop) clk o op payload e :
  o ∈ rows (store e) → P o → identity op = identity o → moves (state o) (state op) → row_shape op →
  edits P e (save_op validate_operation clk op payload e).2.
Proof.
  intros Ho HP Hid Hm Hs.
  destruct (save_op_run clk op payload e) as [(e' & -> & Hv & Hr & Hf)|(err & e' & -> & _ & Hq)]; simpl.
  - split; [done|]. rewrite Hr. apply rtc_once. econstructor; [exact Ho|done|..].
    + by rewrite touch_identity.
    + by rewrite touch_state.
    + split; [done|by apply touch_shape].
  - by apply quiet_edits.
Qed.

(** A loop over journal rows, each iteration writing at most its own. *)
Lemma for_tails_edits (f : Operation I → list (Operation I) → M (Engine I) unit)
    (Q : Operation I → Prop) id t :
  (∀ e op later, engine_ok id t e → op ∈ rows (store e) →
     edits (λ x, x = op ∧ Q x) e (f op later e).2) →
  ∀ ops e, engine_ok id t e → NoDup (operation_id <$> ops) → (∀ op, op ∈ ops → op ∈ rows (store e)) →
    edits Q e (for_tails f ops e).2.
Proof.
  intros Hf ops. induction ops as [|op ops IH]; intros e Hok Hnd Hin; [done|].
  simpl. rewrite M_bind_snd. pose proof (Hf e op ops Hok (Hin op (list_elem_of_here _ _))) as He.
  assert (HeQ : edits Q e (f op ops e).2) by (eapply edits_weaken; [|exact He]; naive_solver).
  destruct (f op ops e) as [[[]|err] e1]; simpl in *; [|done].
  etrans; [exact HeQ|]. apply NoDup_cons in Hnd as [Hop Hnd]. apply IH; [by eapply edits_ok|done|].
  intros o Ho. eapply edits_keep; [apply Hok|exact He|apply Hin; by right|].
  intros x [-> _] Hid ->. apply Hop. by apply list_elem_of_fmap_2.
Qed.

Lemma row_of id t e op : engine_ok id t e → op ∈ rows (store e) → row_ok op.
Proof. intros Hok. pose proof (ok_rows _ _ _ Hok) as Hr. rewrite Forall_forall in Hr. auto. Qed.

Lemma settle_restarted_edits id t clk op current e :
  engine_ok id t e → op ∈ rows (store e) →
  edits (λ x, x = op ∧ state x ∈ [CONFIG_COMMITTED; INDETERMINATE]) e
    (settle_restarted validate_operation clk op current e).2.
Proof.
  intros Hok Hop. destruct (row_of _ _ _ _ Hok Hop) as [_ Hs]. unfold settle_restarted.
  destruct (bool_decide _) eqn:Hst; simpl; [|done]. apply bool_decide_eq_true in Hst.
  destruct (written_on_another_start op current); simpl; [|done].
  unfold lift, mbind, M_mbind. destruct (transition op FAILED ∅) as [op'|] eqn:Ht; [|done].
  apply transition_Ok in Ht as (-> & Hin & _).
  match goal with |- edits ?P e (match ?m with _ => _ end).2 =>
    assert (Hed : edits P e m.2); [|by destruct m as [[]]] end.
  apply (save_op_edits _ clk op); [done|split; [done|]|done|by right; left|].
  - destruct Hst as [-> | ->]; set_solver.
  - destruct Hs as [? ? Hatt ? ? ? ? ?]. split; simpl; try done; [naive_solver| |set_solver].
    intros _. apply Hatt.
    destruct Hst as [-> | ->]; set_solver.
Qed.

(** ** Reconciliation writes at most one transition of the rows it follows *)

(** [op'] is the working copy of the journal row [op]: at most one transition away from it. *)
Definition pending (op op' : Operation I) : Prop :=
  identity op' = identity op ∧ row_shape op' ∧
  (state op' = state op ∨ (state op' ∈ TRANSITIONS (state op) ∧ ACTIVE (state op') = false)).

Lemma pending_transition op op1 op2 s ev :
  pending op op1 → transition op1 s ev = Ok op2 → ACTIVE s = false → row_shape (op1 <| state := s |>) →
  op2 = op1 <| state := s |> ∧ pending op op2.
Proof.
  intros (Hid & _ & Hst) (-> & Hin & _)%transition_Ok Hact Hs. split; [done|].
  split; [done|]. split; [done|]. right. simpl. split; [|done].
  destruct Hst as [<-|[_ Hna]]; [done|].
  destruct (state op1); try done; by apply not_elem_of_nil in Hin.
Qed.

Lemma pending_moves op op' : pending op op' → moves (state op) (state op').
Proof. intros (_ & _ & [->|[? _]]); [by left|by right; left]. Qed.

(** The final states that say nothing of the rest of the record. *)
Lemma shape_final op :
  backends !! op_pod op ≠ None →
  state op = REJECTED ∨ state op = CANCELLED ∨ state op = STATE_OWNERSHIP_CONFLICT ∧ attempts op ≠ [] → row_shape op.
Proof.
  intros Hp Hs. split; try done; try (destruct Hs as [-> | [-> | [-> ?]]]; done).
  - destruct Hs as [-> | [-> | [-> ?]]]; by intros [].
  - destruct Hs as [-> | [-> | [-> ?]]]; intros Hin; [exfalso; set_solver..|done].
  - destruct Hs as [-> | [-> | [-> ?]]]; intros Hin; exfalso; set_solver.
Qed.

Lemma elapse_pending op op' c :
  row_shape op → elapse op = Ok (op', c) → pending op op' ∧ (c = false → op' = op ∨ deadline_elapsed op = true).
Proof.
  intros Hs. unfold elapse. case_bool_decide as Hst; [|intros [= <- <-]; repeat split; auto; apply Hs].
  set (op1 := if negb (deadline_elapsed op) then _ else op).
  assert (H1 : state op1 = state op ∧ deadline_elapsed op1 = true ∧ identity op1 = identity op ∧
    attempts op1 = attempts op ∧ application_evidence op1 = application_evidence op ∧ commit_evidence op1 = commit_evidence op).
  { unfold op1. destruct (deadline_elapsed op) eqn:Hd; done. }
  destruct H1 as (Hst1 & Hd1 & Hid & Hatt & Hae & Hce). clearbody op1.
  assert (Hpod : op_pod op1 = op_pod op) by by apply identity_pod. case_bool_decide as Hcc.
  - intros (op2 & (-> & Hin & _)%transition_Ok & [= <- <-])%result_bind_Ok.
    split; [|by intros ?%negb_false_iff; right]. rewrite Hst1 in Hcc, Hin. split; [done|]. split.
    + destruct Hs. split; simpl; try done; [|naive_solver| |set_solver].
      * by change (backends !! op_pod op1 ≠ None); rewrite Hpod.
      * intros _. rewrite Hatt. apply row_attempted0. rewrite Hcc. set_solver.
    + right. by split.
  - intros [= <- <-]. split; [|by intros ?%negb_false_iff; right]. rewrite Hst1 in Hcc.
    assert (Hi : state op = INDETERMINATE) by naive_solver. split; [done|]. split; [|by left].
    destruct Hs. split; rewrite ?Hst1, ?Hpod, ?Hatt, ?Hae, ?Hce; try done. rewrite Hi. set_solver.
Qed.

Lemma give_up_waiting_pending op op1 snap target c op2 c2 :
  pending op op1 → give_up_waiting snap target op1 c = Ok (op2, c2) → pending op op2.
Proof.
  intros Hp. unfold give_up_waiting. destruct (_ && _ && _ && _) eqn:E; [|by intros [= <- _]].
  bools. intros (op3 & Ht & [= <- _])%result_bind_Ok.
  destruct (pending_transition op op1 op3 TIMED_OUT ∅ Hp Ht eq_refl) as [-> (? & [] & ?)]; [|done].
  destruct Hp as (_ & [] & _). split; simpl; try done; [naive_solver| |set_solver].
  intros _. apply row_attempted0. match goal with E : state op1 = _ |- _ => rewrite E end. set_solver.
Qed.

Lemma judge_pending op op1 pod snap target c e :
  pending op op1 →
  quiet e (judge backends pod snap target op1 c e).2 ∧
  ∀ op2 c2, (judge backends pod snap target op1 c e).1 = Ok (op2, c2) → pending op op2.
Proof.
  intros Hp. unfold judge. destruct (negb (ready snap && _)); [split; [done|]; by intros ?? [= <- _]|].
  cbv zeta. destruct (_ && _ && _ && _) eqn:Econf; [|destruct (matches (config snap) target && satisfies (observed snap) target
      && bool_decide (application_evidence op1 = None)) eqn:Eapp].
  - clear Econf. unfold mbind, M_mbind, on_store, conflict, modify; simpl.
    assert (Hr : ∀ op2, pending op op2 → pending op (op2 <| reason := reason_of OWNERSHIP_CONFLICT |>)).
    { intros op2 (? & [] & ?). done. }
    case_bool_decide as Hcc; unfold lift, mret, M_mret.
    + destruct (transition op1 _ ∅) as [op2|] eqn:Ht; [|by split].
      destruct (pending_transition _ _ _ _ _ Hp Ht eq_refl) as [_ Hp2];
        [destruct Hp as (_ & [] & _); apply shape_final; [done|]; right; right; split; [done|]; apply row_attempted0; simpl in Hcc; rewrite Hcc; set_solver|].
      case_bool_decide; (split; [done|]); intros ?? [= <- _]; first [done | by apply Hr].
    + case_bool_decide; (split; [done|]); intros ?? [= <- _]; first [done | by apply Hr].
  - clear Econf. bools. unfold mbind, M_mbind.
    set (op2 := if deadline_elapsed _ then _ else _).
    assert (Hop2 : op2 = op1 <| application_evidence := Some (evidence_of snap ∅) |>
      <| late_resolution := if deadline_elapsed op1 then Some "applied_after_deadline"
                            else late_resolution op1 |>).
    { unfold op2; simpl. destruct (deadline_elapsed op1); [done|by destruct op1]. }
    clearbody op2. subst op2.
    match goal with |- context [if bool_decide ?P then ?a else ?b] =>
      assert (Hm : (∃ err, (if bool_decide P then a else b) e = (Raise err, e)) ∨
                   ∃ op3, (if bool_decide P then a else b) e = (Ok op3, e) ∧ pending op op3 ∧
                     application_evidence op3 = Some (evidence_of snap ∅) ∧
                     (state op3 = OBSERVED_APPLIED → truthy_at "fresh" (evidence_of snap ∅) = true ∧
                        truthy_at "predicate_satisfied" (evidence_of snap ∅) = true ∧
                        (attempts op3 ≠ [] ∨ truthy_at "observed_noop" (evidence_of snap ∅) = true))) end.
    { destruct Hp as (Hid & Hs & Hst). case_bool_decide as Hto; simpl in Hto.
      - right. eexists. split; [done|]. split; [|split; [done|simpl; congruence]].
        split; [done|]. split; [|done]. destruct Hs. by split; simpl; try done; rewrite Hto.
      - unfold lift. destruct (transition _ OBSERVED_APPLIED _) as [op3|err] eqn:Ht; [right|left; eauto].
        eexists. split; [done|]. apply transition_Ok in Ht as (-> & Hin & _ & _ & Hev & _).
        simpl in Hin. destruct (Hev eq_refl) as (Hf & Hpr & Hno). simpl in Hno.
        assert (Hwhy : attempts op1 ≠ [] ∨ truthy_at "observed_noop" (evidence_of snap ∅) = true).
        { pose proof (row_attempted _ Hs) as Ha. rewrite <- (bool_decide_eq_true (OBSERVED_APPLIED ∈ _)) in Hin.
          destruct (state op1); try done; [right; by apply Hno|left; apply Ha; by apply (bool_decide_unpack _)..]. }
        split; [|done]. split; [done|]. split.
        + destruct Hs; split; simpl; try done; [by intros []|set_solver| |set_solver]. eauto 6.
        + right. split; [|done]. simpl. destruct Hst as [<-|[_ Hna]]; [done|].
          destruct (state op1); try done; by apply not_elem_of_nil in Hin. }
    destruct Hm as [[err ->]|(op3 & -> & (Hid & Hs & Hst) & Hev3 & Hoa)]; [by split|].
    unfold lift. destruct (attribution_unknown op3) as [u|]; [|by split].
    split; [done|]. intros ?? [= <- _]. destruct u.
    + split; [done|]. split; [|done]. destruct Hs as [? ? ? ? Hun ? ? ?]. split; simpl; try done.
      * intros Ha. rewrite (Hun Ha) in Hev3. done.
      * intros Hs3. destruct (Hoa Hs3) as (Hf & Hpr & Hno). eexists. split; [done|].
        unfold truthy_at in *. by rewrite !lookup_insert_ne.
    + split; [done|]. split; [|done]. by destruct Hs.
  - split; [done|]. by intros ?? [= <- _].
Qed.

Lemma log_observation_quiet clk pod snap op target e :
  ∃ e', log_observation clk pod snap op target e = (Ok tt, e') ∧ quiet e e'.
Proof.
  unfold log_observation, mbind, M_mbind, get, put, on_store, event, modify; simpl.
  case_bool_decide; eexists; done.
Qed.

(** What reconciliation follows. *)
Definition followed (op : Operation I) : Prop :=
  state op ∈ [CONFIG_COMMITTED; INDETERMINATE; TIMED_OUT; OBSERVED_APPLIED].

Lemma followed_unwatched op : followed op → state op ∉ [REQUESTED; CANCELLED; SUBMITTED].
Proof.
  unfold followed. rewrite !elem_of_cons, !elem_of_nil.
  intros [-> |[-> |[-> |[-> |[]]]]]; by intros [?|[?|[?|[]]]].
Qed.

Lemma reconcile_one_edits id t clk pod snap op later e :
  engine_ok id t e → op ∈ rows (store e) →
  edits (λ x, x = op ∧ followed x) e
    (reconcile_one validate_operation vault backends clk pod snap op later e).2.
Proof.
  intros Hok Hop. pose proof (row_of _ _ _ _ Hok Hop) as [_ Hs]. unfold reconcile_one.
  destruct (_ || _ || _) eqn:Eg; [done|]. bools.
  assert (Hfol : followed op) by (unfold followed; set_solver).
  rewrite M_bind_snd. pose proof (settle_restarted_edits _ _ clk op (instance snap) e Hok Hop) as Hset.
  assert (Hset' : edits (λ x, x = op ∧ followed x) e
                    (settle_restarted validate_operation clk op (instance snap) e).2).
  { eapply edits_weaken; [|exact Hset]. intros x [-> ?]. done. }
  destruct (settle_restarted _ _ _ _ e) as [[settled|err] e1] eqn:Est; simpl in Hset'; [|done].
  destruct settled; [done|].
  assert (e1 = e) as ->.
  { revert Est. unfold settle_restarted. destruct (negb _); [by intros [= <-]|].
    destruct (negb _); [by intros [= <-]|]. unfold mbind, M_mbind, lift.
    destruct (transition _ _ _); [|done]. by destruct (save_op _ _ _ _ _) as [[]]. }
  clear Hset Hset' Est. rewrite M_bind_snd.
  destruct (expired clk op e) as [[late|err] e1] eqn:Eex; [|done].
  assert (Hq1 : quiet e e1) by (injection Eex as _ <-; done). clear Eex.
  rewrite M_bind_snd. unfold lift at 1.
  destruct (if late : bool then elapse op else Ok (op, false)) as [[op1 c1]|err] eqn:Eel;
    [|by apply quiet_edits].
  assert (Hp1 : pending op op1).
  { destruct late; [by eapply elapse_pending|]. injection Eel as <- _. split; [done|]. auto. }
  clear Eel. rewrite M_bind_snd.
  match goal with |- edits _ e (match ?m with _ => _ end) =>
    assert (Hm : quiet e m.2 ∧ ∀ op2 c2, m.1 = Ok (op2, c2) → pending op op2) end.
  { destruct (i_target vault (intent op1)) as [target|err].
    - destruct (log_observation_quiet clk pod snap op1 target e1) as (e2 & Hl & Hq2).
      unfold mbind, M_mbind. rewrite Hl. unfold lift.
      destruct (give_up_waiting snap target op1 c1) as [[op2 c2]|err] eqn:Eg;
        [|split; [by etrans|done]].
      destruct (judge_pending op op2 pod snap target c2 e2) as [Hq3 Hp3];
        [by eapply give_up_waiting_pending|].
      split; [by etrans; [|etrans]|done].
    - split; [done|]. intros ?? [= <- _]. destruct Hp1 as (? & [] & ?). done. }
  match goal with |- edits _ e (match ?m with _ => _ end) => destruct m as [[[op2 c2]|err] e2] end;
    destruct Hm as [Hq2 Hp2]; simpl in Hq2, Hp2; [|by apply quiet_edits].
  destruct c2; [|by apply quiet_edits]. specialize (Hp2 op2 true eq_refl).
  etrans; [apply quiet_edits, Hq2|]. rewrite M_bind_snd.
  match goal with |- edits ?P e2 (match ?m with _ => _ end) =>
    assert (Hed : edits P e2 m.2); [|by destruct m as [[]]] end.
  destruct Hp2 as (? & ? & ?) eqn:E. destruct Hq2 as [_ Hr].
  eapply save_op_edits; [by rewrite Hr|done|done|by apply pending_moves|done].
Qed.

Lemma reconcile_edits id t clk pod snap e :
  engine_ok id t e →
  edits followed e (reconcile validate_operation vault backends clk pod snap e).2.
Proof.
  intros Hok. unfold reconcile. rewrite M_bind_snd.
  assert (Hq : ∃ e', remember pod snap e = (Ok tt, e') ∧ quiet e e').
  { unfold remember. repeat case_match; eexists; done. }
  destruct Hq as (e1 & -> & Hq). etrans; [apply quiet_edits, Hq|].
  unfold get. rewrite M_bind_snd. rewrite M_bind_snd.
  assert (Hok1 : engine_ok id t e1) by (eapply edits_ok; [exact Hok|apply (quiet_edits (λ _, True)), Hq]).
  match goal with |- edits ?P e1 (match ?m with _ => _ end) =>
    assert (Hed : edits P e1 m.2); [|by destruct m as [[]]] end.
  eapply for_tails_edits; [|exact Hok1|apply Hok1|done].
  intros e2 op later Hok2 Hop. by eapply reconcile_one_edits.
Qed.

Lemma cancel_edits id' t clk id e :
  engine_ok id' t e →
  edits (λ x, operation_id x = id ∧ state x ∈ [REQUESTED; VALIDATED]) e
    (cancel validate_operation clk id e).2.
Proof.
  intros Hok. unfold cancel, mbind, M_mbind, get, lift. 
  destruct (get_operation id (store e)) as [op|] eqn:Eg; [|done].
  apply get_operation_Ok in Eg as [Hop Hid].
  destruct (transition op CANCELLED ∅) as [op'|] eqn:Ht; [|done].
  apply transition_Ok in Ht as (-> & Hin & _). destruct (row_of _ _ _ _ Hok Hop) as [_ Hs].
  apply (save_op_edits _ clk op); [done| |done|by right; left|].
  - split; [done|]. destruct (state op); simpl in Hin; set_solver.
  - apply shape_final; [apply Hs|by right; left].
Qed.

Lemma recover_one_edits id t clk op e :
  engine_ok id t e → op ∈ rows (store e) →
  edits (λ x, x = op) e (recover_one validate_operation clk op e).2.
Proof.
  intros Hok Hop. destruct (row_of _ _ _ _ Hok Hop) as [_ Hs]. unfold recover_one, lift.
  assert (Hsave : ∀ op' payload, identity op' = identity op → moves (state op) (state op') → row_shape op' →
    edits (λ x, x = op) e ((_ ← save_op validate_operation clk op' payload; mret tt) e).2).
  { intros op' payload Hid Hm Hs'. rewrite M_bind_snd.
    assert (edits (λ x, x = op) e (save_op validate_operation clk op' payload e).2)
      by by apply (save_op_edits _ clk op).
    by destruct (save_op _ _ _ _ _) as [[]]. }
  destruct (_ && _); [|case_bool_decide as Hsub; [|case_bool_decide; [|done]]].
  - rewrite M_bind_snd. destruct (transition op _ ∅) as [op'|] eqn:Ht; [|done].
    apply transition_Ok in Ht as (-> & Hin & _). apply Hsave; [done|by right; left|].
    apply shape_final; [apply Hs|by right; left].
  - rewrite M_bind_snd. destruct (transition op _ ∅) as [op'|] eqn:Ht; [|done].
    apply transition_Ok in Ht as (-> & Hin & _). apply Hsave; [done|by right; left|].
    destruct Hs as [? ? Hatt ? Hun ? ? ?]. split; simpl; try done; [by intros []| | |set_solver].
    + intros _. apply Hatt. rewrite Hsub. set_solver.
    + intros _. apply Hun. by rewrite Hsub.
  - rewrite M_bind_snd. destruct (transition op _ ∅) as [op'|] eqn:Ht; [|done].
    apply transition_Ok in Ht as (-> & Hin & _). apply Hsave; [done|by right; left|].
    apply shape_final; [apply Hs|by right; left].
Qed.

Lemma recover_edits id t clk e :
  engine_ok id t e → edits (λ _, True) e (recover validate_operation clk e).2.
Proof.
  intros Hok. unfold recover, mbind, M_mbind, get. rewrite for_each_tails.
  eapply for_tails_edits; [|exact Hok|apply Hok|done].
  intros e' op later Hok' Hop. eapply edits_weaken; [|by eapply recover_one_edits]. naive_solver.
Qed.

(** ** Where the rows come from *)

(** A row is a later record of one of [rs]. *)
Definition from (rs : list (Operation I)) (o' : Operation I) : Prop :=
  ∃ o, o ∈ rs ∧ identity o' = identity o ∧ rtc moves (state o) (state o').

Lemma edits_from P e e' o' :
  store_ok (store e) → edits P e e' → o' ∈ rows (store e') → from (rows (store e)) o'.
Proof.
  intros Hs [_ Hr] Ho. change (unique (rows (store e))) in Hs.
  induction Hr as [|rs1 rs2 rs3 He _ IH]; [by exists o'|].
  apply edit_inv in He as (Hu & _ & x & op & Hx & _ & Hid & Hm & _ & _ & Hin); [|done].
  destruct (IH Hu Ho) as (o2 & Ho2 & Hid2 & Hm2). apply Hin in Ho2 as [->|[Ho2 _]].
  - exists x. split; [done|]. split; [congruence|]. by eapply rtc_l.
  - by exists o2.
Qed.

Lemma edits_ids P e e' :
  store_ok (store e) → edits P e e' → operation_id <$> rows (store e') = operation_id <$> rows (store e).
Proof.
  intros Hs [_ Hr]. change (unique (rows (store e))) in Hs.
  induction Hr as [|rs1 rs2 rs3 He _ IH]; [done|].
  apply edit_inv in He as (Hu & Hi & _); [|done]. rewrite <- Hi. by apply IH.
Qed.

(** What identifies the rows, and their order, stays under writes. *)
Lemma edits_identities P e e' :
  store_ok (store e) → edits P e e' → identity <$> rows (store e') = identity <$> rows (store e).
Proof.
  intros Hs [_ Hr]. change (unique (rows (store e))) in Hs.
  induction Hr as [|rs1 rs2 rs3 He _ IH]; [done|].
  pose proof (edit_inv _ _ _ Hs He) as (Hu & _). rewrite (IH Hu).
  destruct He as [rs1 o op Ho _ Hid _ _]. unfold update_row. rewrite <- list_fmap_compose. apply list_fmap_ext.
  intros j x Hx%list_elem_of_lookup_2. simpl. case_bool_decide as Hxid; [|done].
  rewrite <- (NoDup_fmap_eq operation_id rs1 o x); [done|apply Hs|done|done|]. by rewrite Hxid, (identity_id _ _ Hid).
Qed.

(** What depends on the identity of a row is the same for rows of the same identities. *)
Lemma identities_fmap {A} (f : Operation I → A) rs rs' :
  (∀ x y, identity x = identity y → f x = f y) → identity <$> rs = identity <$> rs' → f <$> rs = f <$> rs'.
Proof.
  intros Hf. revert rs'. induction rs as [|x rs IH]; intros [|y rs'] Hrs; try done.
  rewrite !fmap_cons in Hrs. injection Hrs as Hx Hrs. rewrite !fmap_cons. f_equal; [|by apply IH]. apply Hf. unfold identity. congruence.
Qed.

Lemma engine_ok_later id t t' e : engine_ok id t e → t ≤ t' → engine_ok id t' e.
Proof. intros [? ? ? ? Hs] Ht. split; try done. intros i st Hi. apply Hs in Hi. lia. Qed.

Lemma quiet_ok id t e e' : engine_ok id t e → quiet e e' → engine_ok id t e'.
Proof. intros Hok Hq. eapply edits_ok; [exact Hok|]. by apply (quiet_edits (λ _, True)). Qed.

(** The operation that was not counted may be, once it blocks nothing. *)
Lemma engine_ok_counted id t e :
  engine_ok (Some id) t e →
  (∀ o, o ∈ rows (store e) → operation_id o = id → ACTIVE (state o) = true →
     ∀ o', o' ∈ rows (store e) → ACTIVE (state o') = true → op_pod o' = op_pod o → operation_id o' = id) →
  engine_ok None t e.
Proof.
  intros [? ? Ha ? ?] Hid. split; try done. intros o1 o2 H1 H2 _ _ A1 A2 Hp.
  destruct (decide (operation_id o1 = id)) as [E1|N1].
  - rewrite E1. symmetry. by apply (Hid o1 H1 E1 A1 o2).
  - destruct (decide (operation_id o2 = id)) as [E2|N2].
    + rewrite E2. by apply (Hid o2 H2 E2 A2 o1).
    + apply Ha; try done; congruence.
Qed.

Lemma owned_quiet clk pod run e : ∃ r e', owned clk pod run e = (Ok r, e') ∧ quiet e e'.
Proof.
  unfold owned, mbind, M_mbind, mret, M_mret, get, on_store, release, event, modify; simpl.
  repeat (case_match; simpl; simplify_eq; try (eexists _, _; done)).
Qed.

(** ** Requests *)

(** What [add] does to the rows. *)
Lemma add_run op receipt s s' :
  add validate_operation op receipt s = (Ok tt, s') →
  validate_operation op = Ok tt ∧ process_id s' = process_id s ∧
  rows s' = rows (prune (s <| rows := rows s ++ [op] |>)).
Proof.
  unfold add, mbind, M_mbind, get, lift, modify. destruct (validate_operation op) as [[]|]; [|done].
  destruct (match receipt with Some _ => _ | None => _ end) as [[]|]; [|done].
  destruct (raise_if _ _ _) as [[]|]; [|done]. intros [= <-]. split; [done|].
  destruct receipt; rewrite !prune_rows; unfold prune; simpl; split; try done; by case_bool_decide.
Qed.

Lemma prune_active s o : o ∈ rows s → ACTIVE (state o) = true → o ∈ rows (prune s).
Proof. intros Ho Ha. apply prune_keeps; auto. Qed.

Lemma task_ok_add (s : Store I) op tk :
  operation_id op ≠ operation_id (t_op tk) → task_ok (rows s) tk →
  task_ok (rows (prune (s <| rows := rows s ++ [op] |>))) tk.
Proof.
  intros Hne Hok. set (s1 := s <| rows := _ |>).
  assert (Hin : ∀ o, o ∈ rows (prune s1) → o ∈ rows s ∨ o = op).
  { intros o Ho%prune_elem_of. simpl in Ho. set_solver. }
  assert (Hkeep : ∀ o, o ∈ rows s → ACTIVE (state o) = true → o ∈ rows (prune s1)).
  { intros o Ho Ha. apply prune_active; [|done]. simpl. set_solver. }
  unfold task_ok in *. destruct (t_pc tk);
    try (destruct Hok as (? & ? & Hall); split; [done|]; split; [done|];
         intros o [Ho| ->]%Hin Hid; [by apply Hall|done]).
  destruct Hok as [Ho Hst]. split; [|done]. apply Hkeep; [done|]. by rewrite Hst.
Qed.

(** ** Stretches of an execution *)

(** A stretch writes only the row of its own operation, and where it waits it may go on. *)
Definition stretch (op : Operation I) (m : M (Engine I) (progress I)) (e : Engine I) : Prop :=
  edits (λ x, operation_id x = operation_id op) e (m e).2 ∧
  match (m e).1 with
  | Ok (Waits tk) => identity (t_op tk) = identity op ∧ task_ok (rows (store (m e).2)) tk
  | _ => True
  end.

(** What a waiting execution knows of its row before it submits. *)
Definition held (op : Operation I) (rs : list (Operation I)) : Prop :=
  ∀ o, o ∈ rs → operation_id o = operation_id op →
    identity o = identity op ∧ (state o = REQUESTED ∨ state o = CANCELLED).

(** A write of the row of one's own operation, if the row is still there. *)
Lemma save_own_edits clk op payload e :
  (∀ o, o ∈ rows (store e) → operation_id o = operation_id op →
     identity op = identity o ∧ moves (state o) (state op)) → row_shape op →
  edits (λ x, operation_id x = operation_id op) e (save_op validate_operation clk op payload e).2.
Proof.
  intros Hown Hs. destruct (list_find (λ o, operation_id o = operation_id op) (rows (store e)))
    as [[k o]|] eqn:E.
  - apply list_find_Some in E as (Ho%list_elem_of_lookup_2 & Hid & _).
    destruct (Hown o Ho Hid). by apply (save_op_edits _ clk o).
  - apply list_find_None in E. apply quiet_edits.
    destruct (save_op_run clk op payload e) as [(e' & -> & _ & Hr & Hf)|(err & e' & -> & _ & Hq)]; [|done].
    split; [done|]. simpl. rewrite Hr. unfold update_row. rewrite <- (list_fmap_id (rows (store e))) at 2.
    apply list_fmap_ext. intros i o Hi. rewrite touch_id. rewrite bool_decide_eq_false_2; [done|].
    rewrite Forall_lookup in E. by eapply E.
Qed.

Lemma fail_stretch op0 clk op err e :
  identity op = identity op0 → held op0 (rows (store e)) → backends !! op_pod op ≠ None →
  stretch op0 (fail validate_operation clk op err) e.
Proof.
  intros Hid Hheld Hpod. pose proof (identity_id _ _ Hid) as Hids. unfold stretch, fail.
  unfold mbind, M_mbind, lift.
  destruct (transition op REJECTED ∅) as [op1|] eqn:Ht; [|done].
  apply transition_Ok in Ht as (-> & _).
  pose proof (save_own_edits clk (op <| state := REJECTED |> <| reason := reason_of (code err) |>) [] e) as Hed.
  destruct (save_op _ _ _ _ e) as [[op'|] e']; simpl in *; (split; [|done]); rewrite <- Hids; apply Hed.
  all: try (apply shape_final; [done|by left]).
  all: intros o Ho Hoid; destruct (Hheld o Ho) as [Hi Hst]; [by rewrite <- Hids|].
  all: split; [by rewrite Hi|]; destruct Hst as [-> | ->]; [right; left; table|by right; right].
Qed.

Lemma stretch_after (P : Operation I → Prop) op m e e1 :
  edits P e e1 → (∀ x, P x → operation_id x = operation_id op) → stretch op m e1 → stretch op (λ _, m e1) e.
Proof.
  intros Hq HP [Hed Hout]. split; [|done]. etrans; [by eapply edits_weaken|done].
Qed.

Lemma stretch_quiet op m e e1 : quiet e e1 → stretch op m e1 → stretch op (λ _, m e1) e.
Proof. intros Hq. apply (stretch_after (λ _, False)); [by apply quiet_edits|done]. Qed.

Lemma plan_checks_quiet clk pod e : quiet e (plan_checks backends clk pod e).2.
Proof.
  unfold plan_checks. rewrite M_bind_snd. unfold lift. destruct (raise_if _ _ _); [|done].
  rewrite M_bind_snd. destruct (owned_quiet clk pod None e) as (o & e' & -> & Hq). done.
Qed.

(** The local operation of an execution that has not validated yet. *)
Definition fresh_op (op : Operation I) (rs : list (Operation I)) : Prop :=
  state op = REQUESTED ∧ row_ok op ∧ held op rs.

Lemma begin_plan_stretch clk op e :
  fresh_op op (rows (store e)) → stretch op (begin_plan validate_operation backends clk op) e.
Proof.
  intros (Hst & Hok & Hheld). pose proof (plan_checks_quiet clk (op_pod op) e) as Hq.
  unfold stretch, begin_plan, try_else.
  destruct (plan_checks backends clk (op_pod op) e) as [[[]|err] e1]; simpl in Hq.
  - split; [by apply quiet_edits|]. destruct Hq as [_ Hr]. unfold task_ok; simpl. rewrite Hr. auto.
  - refine (stretch_quiet op (fail validate_operation clk op err) e e1 Hq _).
    apply fail_stretch; [done|by destruct Hq as [_ ->]|apply Hok].
Qed.

Lemma prepare_stretch id t clk aid tid snap op e :
  engine_ok id t e → op ∈ rows (store e) → state op = VALIDATED →
  stretch op (prepare validate_operation vault clk aid tid snap op) e.
Proof.
  intros Hok Hop Hst. destruct (row_of _ _ _ _ Hok Hop) as [_ Hs]. unfold stretch, prepare.
  unfold mbind, M_mbind, lift. destruct (i_target vault (intent op)) as [target|]; [|done].
  destruct (_ && _).
  - destruct (transition op OBSERVED_APPLIED _) as [op1|] eqn:Ht; [|done].
    apply transition_Ok in Ht as (-> & Hin & _ & _ & Hev & _). destruct (Hev eq_refl) as (Hf & Hpr & Hno). specialize (Hno Hst).
    match goal with |- context [save_op _ clk ?o ?p e] =>
      pose proof (save_op_edits (λ x, operation_id x = operation_id op) clk op o p e) as Hed;
      destruct (save_op validate_operation clk o p e) as [[]] end;
      (split; [|done]); apply Hed; try done; try (by right; left).
    all: destruct Hs; split; simpl; try done; [by intros []|set_solver|eauto 7|set_solver].
  - set (op1 := op <| attempts := _ |>). destruct (transition op1 SUBMITTED ∅) as [op2|] eqn:Ht; [|done].
    apply transition_Ok in Ht as (-> & Hin & _).
    match goal with |- context [save_op _ clk ?o ?p e] =>
      pose proof (save_op_edits (λ x, operation_id x = operation_id op) clk op o p e) as Hed;
      destruct (save_op_run clk o p e) as [(e' & Hrun & _ & Hr & _)|(err & e' & Hrun & _)] end;
      rewrite Hrun in Hed |- *; simpl in Hed |- *.
    all: assert (Hed' : edits (λ x, operation_id x = operation_id op) e e');
      [apply Hed; try done; [by right; left|];
       destruct Hs as [? ? ? ? Hun ? ? Hin']; split; simpl; try done; [by intros []|
         by intros _ [_ ?]%app_eq_nil|intros _; apply Hun; by rewrite Hst|intros _; apply Hin'; rewrite Hst; set_solver]|].
    + split; [done|]. split; [by rewrite touch_identity|]. unfold task_ok; simpl.
      split; [|by rewrite touch_state]. rewrite Hr. apply update_row_elem. left. split; [done|].
      exists op. split; [done|]. by rewrite touch_id.
    + by split.
Qed.

Lemma after_guard_stretch id t clk aid tid snap op e :
  engine_ok id t e → fresh_op op (rows (store e)) →
  stretch op (after_guard validate_operation vault clk aid tid snap op) e.
Proof.
  intros Hok (Hst & [Hv Hs] & Hheld). unfold stretch, after_guard.
  rewrite (M_bind_run get _ e e e eq_refl). unfold try_else, lift.
  destruct (get_operation (operation_id op) (store e)) as [stored|err] eqn:Eg;
    [|by apply fail_stretch; [..|apply Hs]].
  apply get_operation_Ok in Eg as [Hstored Hsid].
  case_bool_decide as Hreq; cbn [negb]; [|by split].
  set (op1 := op <| schema_fingerprint := _ |>).
  assert (Htr : transition op1 VALIDATED ∅ = Ok (op1 <| state := VALIDATED |>)).
  { apply transition_Ok. split; [done|]. split; [|done]. unfold op1; simpl. rewrite Hst. table. }
  rewrite Htr. set (op2 := op1 <| state := VALIDATED |>).
  assert (Hs2 : row_shape op2).
  { destruct Hs. split; simpl; try done; [auto|set_solver| |]; rewrite Hst in *; [auto|].
    intros _. apply row_in_time0. set_solver. }
  match goal with |- context [save_op _ clk op2 ?p e] =>
    destruct (save_op_run clk op2 p e) as [(e' & Hrun & Hv2 & Hr & Hf)|(err & e' & Hrun & _ & Hq)];
    pose proof (save_op_edits (λ x, operation_id x = operation_id op) clk stored op2 p e Hstored Hsid) as Hed
    end; rewrite Hrun in Hed |- *; simpl in Hed.
  - assert (Hed' : edits (λ x, operation_id x = operation_id op) e e').
    { apply Hed; [symmetry; by apply Hheld|right; left; rewrite Hreq; table|done]. }
    refine (stretch_after _ op (prepare validate_operation vault clk aid tid snap (touch clk e op2)) e e' Hed' _ _);
      [done|].
    assert (Hop : touch clk e op2 ∈ rows (store e')).
    { rewrite Hr. apply update_row_elem. left. split; [done|]. exists stored. by rewrite touch_id. }
    destruct (prepare_stretch id t clk aid tid snap (touch clk e op2) e') as [Hp1 Hp2];
      [by eapply edits_ok|done|by rewrite touch_state|].
    unfold stretch. rewrite touch_id, touch_identity in *. by split.
  - refine (stretch_quiet op (fail validate_operation clk (touch clk e op2) err) e e' Hq _).
    apply fail_stretch; [by rewrite touch_identity|by destruct Hq as [_ ->]|].
    rewrite (identity_pod _ op) by by rewrite touch_identity. apply Hs.
Qed.

Lemma check_wsc_state op e : (check_wsc op e).2 = e.
Proof.
  unfold check_wsc. case_bool_decide; [done|]. rewrite M_bind_snd. simpl.
  destruct (wsc_receipt _ _); [|done]. rewrite M_bind_snd. unfold lift. by destruct (raise_if _ _ _).
Qed.

Lemma remember_quiet pod snap e : ∃ e', remember pod snap e = (Ok tt, e') ∧ quiet e e'.
Proof. unfold remember. repeat case_match; eexists; done. Qed.

Lemma after_snapshot_stretch id t clk aid tid snap op e :
  engine_ok id t e → fresh_op op (rows (store e)) →
  stretch op (after_snapshot validate_operation vault clk aid tid snap op) e.
Proof.
  intros Hok Hfresh. unfold stretch, after_snapshot.
  destruct (remember_quiet (op_pod op) snap e) as (e1 & Hrem & Hq). rewrite (M_bind_run _ _ _ _ _ Hrem).
  assert (Hok1 : engine_ok id t e1) by by eapply quiet_ok.
  assert (Hfresh1 : fresh_op op (rows (store e1))) by by destruct Hq as [_ ->].
  destruct Hfresh1 as (Hst & Hrow & Hheld).
  refine (stretch_quiet op _ e e1 Hq _).
  destruct (ready snap); simpl; [|by apply fail_stretch; [..|apply Hrow]].
  unfold stretch, try_else. pose proof (check_wsc_state op e1) as He.
  destruct (check_wsc op e1) as [[[]|err] e2]; simpl in He; subst e2.
  - split; [done|]. split; [done|]. by split.
  - by eapply after_guard_stretch.
  - by apply fail_stretch; [..|apply Hrow].
Qed.

Lemma refused_same op r :
  identity (refused op r) = identity op ∧ state (refused op r) = state op ∧
  attempts (refused op r) = attempts op ∧ application_evidence (refused op r) = application_evidence op ∧
  deadline_elapsed (refused op r) = deadline_elapsed op.
Proof. unfold refused. by destruct (_ && _). Qed.

Lemma save_done_stretch id t clk o op payload e :
  engine_ok id t e → o ∈ rows (store e) → identity op = identity o → moves (state o) (state op) →
  row_shape op →
  stretch o (op ← save_op validate_operation clk op payload; mret (Returns op)) e.
Proof.
  intros Hok Ho Hid Hm Hs. unfold stretch.
  pose proof (save_op_edits (λ x, operation_id x = operation_id o) clk o op payload e Ho eq_refl Hid Hm Hs) as Hed.
  unfold mbind, M_mbind. by destruct (save_op _ _ _ _ e) as [[]].
Qed.

(** A final or indeterminate record of a submitted operation. *)
Lemma shape_submitted op op' :
  row_shape op → state op = SUBMITTED → identity op' = identity op → attempts op' = attempts op →
  application_evidence op' = application_evidence op → deadline_elapsed op' = deadline_elapsed op →
  state op' ∈ [INDETERMINATE; FAILED; STATE_OWNERSHIP_CONFLICT; CONFIG_COMMITTED] →
  (state op' = CONFIG_COMMITTED → truthy_at "transaction_validated" (commit_evidence op') = true) →
  row_shape op'.
Proof.
  intros Hs Hst Hid Hatt Hae Hde Hin Hcc. rewrite !elem_of_cons, elem_of_nil in Hin.
  destruct Hs as [Hp _ Ha _ Hu _ _ Hi]. rewrite Hst in *.
  split; rewrite ?Hatt, ?Hae, ?Hde, ?(identity_pod op' op Hid); auto.
  - intros [E|E]; rewrite E in Hin; naive_solver.
  - intros _. apply Ha. set_solver.
  - intros E; rewrite E in Hin; naive_solver.
  - intros E; rewrite E in Hin; naive_solver.
  - intros _. apply Hi. set_solver.
Qed.

Lemma after_submit_stretch id t clk a op e :
  engine_ok id t e → op ∈ rows (store e) → state op = SUBMITTED →
  stretch op (after_submit validate_operation clk a op) e.
Proof.
  intros Hok Hop Hst. destruct (row_of _ _ _ _ Hok Hop) as [_ Hs].
  assert (Hsave : ∀ op' e', quiet e e' → identity op' = identity op → attempts op' = attempts op →
    application_evidence op' = application_evidence op → deadline_elapsed op' = deadline_elapsed op →
    state op' ∈ [INDETERMINATE; FAILED; STATE_OWNERSHIP_CONFLICT; CONFIG_COMMITTED] →
    (state op' = CONFIG_COMMITTED → truthy_at "transaction_validated" (commit_evidence op') = true) →
    stretch op (λ _, (op1 ← save_op validate_operation clk op' []; mret (Returns op1)) e') e).
  { intros op' e' Hq Hid Hatt Hae Hde Hin Hcc. apply stretch_quiet; [done|].
    eapply save_done_stretch; [by eapply quiet_ok|by destruct Hq as [_ ->]|done| |by eapply shape_submitted].
    right; left. rewrite Hst. rewrite !elem_of_cons in Hin. simpl. set_solver. }
  assert (Hind : stretch op (op ← lift (transition op INDETERMINATE ∅);
                   op ← save_op validate_operation clk (op <| reason := reason_of OUTCOME_UNKNOWN |>) [];
                   mret (Returns op)) e).
  { unfold stretch. unfold lift, mbind at 1 4, M_mbind at 1 4.
    destruct (transition op INDETERMINATE ∅) as [op1|] eqn:Ht; [|done].
    apply transition_Ok in Ht as (-> & _). apply (Hsave _ e); try done. simpl. table. }
  destruct a as [r|err| |]; try exact Hind; [|by split].
  unfold stretch, after_submit.
  case_bool_decide; [|case_bool_decide; [|case_bool_decide]]; unfold lift; unfold mbind at 1 4, M_mbind at 1 4.
  - unfold mbind at 1 3, M_mbind at 1 3.
    destruct (transition op CONFIG_COMMITTED _) as [op1|] eqn:Ht; [|done].
    apply transition_Ok in Ht as (-> & _ & _ & Hev & _).
    apply (Hsave (op <| state := CONFIG_COMMITTED |> <| commit_evidence := evidence r |>
                     <| changed := Some true |>) e); try done. simpl. table.
  - unfold mbind at 1 3, M_mbind at 1 3.
    destruct (transition op STATE_OWNERSHIP_CONFLICT _) as [op1|] eqn:Ht; [|done].
    apply transition_Ok in Ht as (-> & _). cbv zeta.
    set (op2 := refused _ r). destruct (refused_same (op <| state := STATE_OWNERSHIP_CONFLICT |>
      <| reason := reason_of OWNERSHIP_CONFLICT |>) r) as (R1 & R2 & R3 & R4 & R5). fold op2 in R1, R2, R3, R4, R5.
    unfold on_store, conflict, modify. unfold mbind at 1 3, M_mbind at 1 3.
    match goal with |- context [update store ?s e] => set (e1 := update store s e) end.
    apply (Hsave op2 e1); try done; rewrite R2; simpl; [table|done].
  - unfold mbind at 1 3, M_mbind at 1 3.
    destruct (transition op FAILED _) as [op1|] eqn:Ht; [|done].
    apply transition_Ok in Ht as (-> & _).
    destruct (refused_same (op <| state := FAILED |> <| reason := sr_reason r |>) r) as (R1 & R2 & R3 & R4 & R5).
    apply (Hsave (refused (op <| state := FAILED |> <| reason := sr_reason r |>) r) e); try done;
      rewrite R2; simpl; [table|done].
  - unfold mbind at 1 3, M_mbind at 1 3. 
    destruct (transition op INDETERMINATE _) as [op1|] eqn:Ht; [|done].
    apply transition_Ok in Ht as (-> & _).
    apply (Hsave (op <| state := INDETERMINATE |> <| reason := reason_of OUTCOME_UNKNOWN |>) e);
      try done; simpl. table.
Qed.
(** The [finally] block frees the pod, unless the execution waits. *)
Lemma finally_run op m e :
  (∃ tk, m e = (Ok (Waits tk), (m e).2) ∧ finally op m e = m e) ∨
  ((∀ tk, (finally op m e).1 ≠ Ok (Waits tk)) ∧
   rows (store (finally op m e).2) = rows (store (m e).2) ∧
   process_id (store (finally op m e).2) = process_id (store (m e).2) ∧
   starts (finally op m e).2 = starts (m e).2 ∧
   busy (finally op m e).2 = busy (m e).2 ∖ {[op_pod op]}).
Proof.
  unfold finally. destruct (m e) as [[[tk|op'|]|err] e']; simpl.
  1: left; by exists tk.
  all: right; destruct (get_operation _ _) as [stored|]; simpl; [|done]; by case_bool_decide.
Qed.

(** A stretch of an execution and the other executions of the process. *)
Lemma stretch_world t op m e ts :
  engine_ok None t e → stretch op m e →
  (∀ pod, pod ∈ busy e ↔ pod = op_pod op ∨ pod ∈ task_pod <$> ts) →
  NoDup (op_pod op :: (task_pod <$> ts)) → NoDup (operation_id op :: task_ids ts) →
  Forall (task_ok (rows (store e))) ts →
  world_ok (mkWorld (finally op m e).2 (continue (finally op m e).1 ts) t) ∧
  ∀ o', o' ∈ rows (store (finally op m e).2) → from (rows (store e)) o'.
Proof.
  intros Hok [Hed Hout] Hbusy [Hp Hpods]%NoDup_cons [Hi Hids]%NoDup_cons Hts.
  assert (Hok' : engine_ok None t (m e).2) by by eapply edits_ok.
  assert (Hts' : Forall (task_ok (rows (store (m e).2))) ts).
  { rewrite Forall_forall in Hts |- *. intros tk Htk. eapply edits_task; [apply Hok|exact Hed| |auto].
    intros o Ho. left. intros Heq. apply Hi. unfold task_ids. apply list_elem_of_fmap. exists tk.
    split; [|done]. simpl. congruence. }
  assert (Hfrom : ∀ o', o' ∈ rows (store (m e).2) → from (rows (store e)) o').
  { intros o'. apply edits_from with (1 := ok_store _ _ _ Hok) (2 := Hed). }
  destruct (finally_run op m e) as [(tk & Hm & ->)|(Hnw & Hr & Hpid & Hst & Hb)].
  - split; [|done]. rewrite Hm in Hout |- *. simpl in *. destruct Hout as [Hid Htk].
    assert (Hpt : task_pod tk = op_pod op) by by apply identity_pod.
    assert (Hit : operation_id (t_op tk) = operation_id op) by by apply identity_id.
    destruct Hed as [(_ & Hbe & _) _].
    split; simpl; [done|by rewrite Hpt; constructor|unfold task_ids; simpl; rewrite Hit; by constructor| |by constructor].
    intros pod. rewrite Hbe, Hbusy, elem_of_cons, Hpt. done.
  - split; [|by rewrite Hr].
    assert (continue (finally op m e).1 ts = ts) as ->.
    { unfold continue. destruct ((finally op m e).1) as [[]|]; try done. by destruct (Hnw t0). }
    destruct Hok' as [A B C D E]. split; simpl; [split; rewrite ?Hr, ?Hpid, ?Hst; try done|done|done| |by rewrite Hr].
    + unfold store_ok in *. by rewrite Hr.
    + destruct Hed as [(_ & Hbe & _) _]. intros pod.
      rewrite Hb, Hbe, elem_of_difference, elem_of_singleton, Hbusy. split; [naive_solver|].
      intros Hpod. split; [by right|]. intros ->. done.
Qed.

(** ** No write of the engine's own is refused by the schema *)

Section Schema.
Context `{!OperationSchema validate_operation}.

Lemma touch_timings id t clk e op k tm :
  engine_ok id t e → t ≤ monotonic clk → timings (touch clk e op) !! k = Some tm →
  timings op !! k = Some tm ∨ (0 ≤ tm.1 ∧ tm.2 ≠ "").
Proof.
  intros Hok Ht. unfold touch; simpl.
  destruct (starts e !! operation_id op) as [st|] eqn:Es; [|by left].
  destruct (timings op !! state_name (state op)); [by left|]. simpl.
  intros [[_ <-]|[_ ?]]%lookup_insert_Some; [|by left]. right. simpl.
  apply (ok_starts _ _ _ Hok) in Es. split; [lia|]. apply Hok.
Qed.

Lemma save_op_Ok id t clk o op payload e :
  engine_ok id t e → t ≤ monotonic clk → validate_operation o = Ok tt → identity op = identity o →
  attempts op = attempts o →
  commit_evidence op = commit_evidence o ∨ commit_evidence op = {["attribution" := VStr "unknown"]} →
  timings op = timings o →
  ∃ e', save_op validate_operation clk op payload e = (Ok (touch clk e op), e') ∧
    validate_operation (touch clk e op) = Ok tt ∧
    rows (store e') = update_row (touch clk e op) (rows (store e)) ∧ frame e e'.
Proof.
  intros Hok Ht Hv Hid Hatt Hce Htm.
  destruct (save_op_run clk op payload e) as [?|(err & e' & _ & Hbad & _)]; [done|].
  exfalso. assert (validate_operation (touch clk e op) = Ok tt); [|congruence].
  apply (schema_edit o); [done|by rewrite touch_identity|..].
  - by destruct (touch_eq clk e op) as (u & ts & ->).
  - by destruct (touch_eq clk e op) as (u & ts & ->).
  - intros k tm Hk. rewrite <- Htm. by eapply touch_timings.
Qed.

Lemma settle_restarted_Ok id t clk op current e :
  engine_ok id t e → t ≤ monotonic clk → op ∈ rows (store e) →
  ∃ b e', settle_restarted validate_operation clk op current e = (Ok b, e') ∧
    edits (λ x, x = op ∧ state x ∈ [CONFIG_COMMITTED; INDETERMINATE]) e e'.
Proof.
  intros Hok Ht Hop. pose proof (settle_restarted_edits id t clk op current e Hok Hop) as Hed.
  destruct (settle_restarted _ _ _ _ e) as [[b|err] e'] eqn:E; [by exists b, e'|]. exfalso.
  revert E. unfold settle_restarted. case_bool_decide as Hst; simpl; [|done].
  destruct (written_on_another_start op current); simpl; [|done].
  assert (Htr : transition op FAILED ∅ = Ok (op <| state := FAILED |>)).
  { apply transition_Ok. split; [done|]. split; [|done]. destruct Hst as [-> | ->]; set_solver. }
  unfold mbind, M_mbind, lift. rewrite Htr.
  destruct (row_of _ _ _ _ Hok Hop) as [Hv _].
  edestruct (save_op_Ok id t clk op) as (e1 & -> & _); [exact Hok|done..|by left|done|done].
Qed.

(** The loop of [_request] over the other operations of the pod. *)
Lemma settle_loop id t clk (f : Operation I → bool) current ops e :
  engine_ok id t e → t ≤ monotonic clk → NoDup (operation_id <$> ops) →
  (∀ op, op ∈ ops → op ∈ rows (store e)) →
  ∃ e', for_each (λ p, if f p then _ ← settle_restarted validate_operation clk p current; mret tt
                       else mret tt) ops e = (Ok tt, e') ∧
    edits (λ x, state x ∈ [CONFIG_COMMITTED; INDETERMINATE]) e e'.
Proof.
  revert e. induction ops as [|op ops IH]; intros e Hok Ht Hnd Hin; [by exists e|].
  apply NoDup_cons in Hnd as [Hop Hnd]. simpl.
  assert (Hstep : ∃ e1, (if f op then _ ← settle_restarted validate_operation clk op current; mret tt
                         else mret tt) e = (Ok tt, e1) ∧
      edits (λ x, x = op ∧ state x ∈ [CONFIG_COMMITTED; INDETERMINATE]) e e1).
  { destruct (f op); [|by exists e].
    destruct (settle_restarted_Ok id t clk op current e) as (b & e1 & Hs & He); [done..|set_solver|].
    exists e1. unfold mbind, M_mbind. by rewrite Hs. }
  destruct Hstep as (e1 & Hs & He). unfold mbind at 1, M_mbind at 1. rewrite Hs.
  destruct (IH e1) as (e2 & -> & He2); [by eapply edits_ok|done|done| |].
  - intros o Ho. eapply edits_keep; [apply Hok|exact He|set_solver|].
    intros x [-> _] Hid ->. apply Hop. by apply list_elem_of_fmap_2.
  - exists e2. split; [done|]. etrans; [|exact He2]. eapply edits_weaken; [|exact He]. naive_solver.
Qed.

Lemma reject_Ok t clk op r e :
  engine_ok (Some (operation_id op)) t e → t ≤ monotonic clk → op ∈ rows (store e) → state op = REQUESTED →
  ∃ op' e', reject validate_operation clk op r e = (Ok op', e') ∧ edits (λ x, x = op) e e' ∧
    engine_ok None t e'.
Proof.
  intros Hok Ht Hop Hst. destruct (row_of _ _ _ _ Hok Hop) as [Hv Hs].
  assert (Htr : transition op REJECTED ∅ = Ok (op <| state := REJECTED |>)).
  { apply transition_Ok. rewrite Hst. split; [done|]. split; [set_solver|done]. }
  set (op1 := op <| state := REJECTED |> <| reason := reason_of r |>).
  destruct (save_op_Ok _ t clk op op1 [] e Hok Ht Hv) as (e' & Hsave & _ & Hr & Hf);
    [done|done|by left|done|].
  assert (Hed : edits (λ x, x = op) e e').
  { replace e' with (save_op validate_operation clk op1 [] e).2 by by rewrite Hsave.
    apply (save_op_edits _ clk op); [done..|right; left; rewrite Hst; set_solver|].
    apply shape_final; [apply Hs|by left]. }
  exists (touch clk e op1), e'. split; [unfold reject, mbind, M_mbind, lift; by rewrite Htr|].
  split; [done|]. apply engine_ok_counted with (operation_id op); [by eapply edits_ok|].
  intros o Ho Hid Hact. rewrite Hr in Ho. apply update_row_elem in Ho as [[-> _]|[_ Hne]].
  - by rewrite touch_state in Hact.
  - destruct Hne. by rewrite touch_id.
Qed.

Lemma place_inv t clk op e :
  engine_ok (Some (operation_id op)) t e → t ≤ monotonic clk → op ∈ rows (store e) → state op = REQUESTED →
  ∃ op' e', place validate_operation clk op e = (Ok op', e') ∧ engine_ok None t e' ∧
    edits (λ x, state x ∈ [CONFIG_COMMITTED; INDETERMINATE] ∨ operation_id x = operation_id op) e e'.
Proof.
  intros Hok Ht Hop Hst. unfold place. cbv zeta. rewrite (M_bind_run get _ e e e eq_refl).
  destruct (settle_loop _ t clk
    (λ p, bool_decide (op_pod p = op_pod op) && negb (bool_decide (operation_id p = operation_id op)))
    (instances e !! op_pod op) (operations (store e)) e Hok Ht) as (e1 & Hl & He1); [apply Hok|done|].
  rewrite (M_bind_run _ _ _ _ _ Hl), (M_bind_run get _ e1 e1 e1 eq_refl).
  assert (Hok1 : engine_ok (Some (operation_id op)) t e1) by by eapply edits_ok.
  assert (Hop1 : op ∈ rows (store e1)).
  { eapply edits_keep; [apply Hok|exact He1|done|]. intros x Hx _ ->. rewrite Hst in Hx. set_solver. }
  assert (Hout : ∀ e', edits (λ x, x = op) e1 e' →
    edits (λ x, state x ∈ [CONFIG_COMMITTED; INDETERMINATE] ∨ operation_id x = operation_id op) e e').
  { intros e' He'. etrans; (eapply edits_weaken; [|done]); naive_solver. }
  assert (Hrej : ∀ r e2, quiet e1 e2 → ∃ op' e',
    reject validate_operation clk op r e2 = (Ok op', e') ∧ engine_ok None t e' ∧
    edits (λ x, state x ∈ [CONFIG_COMMITTED; INDETERMINATE] ∨ operation_id x = operation_id op) e e').
  { intros r e2 Hq. destruct (reject_Ok t clk op r e2) as (op' & e' & Hrun & Hed & Hok');
      [by eapply quiet_ok|done|by destruct Hq as [_ ->]|done|].
    exists op', e'. split; [done|]. split; [done|]. apply Hout. etrans; [by apply quiet_edits|done]. }
  destruct (_ || _ || _) eqn:Ebusy; [by apply Hrej|]. bools.
  destruct (owned_quiet clk (op_pod op) (Some (run_id op)) e1) as (o & e2 & Ho & Hq2).
  rewrite (M_bind_run _ _ _ _ _ Ho).
  destruct (owned_truth o); [by apply Hrej|]. exists op, e2. split; [done|].
  split; [|apply Hout; by apply quiet_edits].
  apply (quiet_ok _ _ e1); [|done]. apply engine_ok_counted with (operation_id op); [done|].
  intros o1 Ho1 Hid1 _ o' Ho' Hact Hpod.
  assert (o1 = op) as -> by (apply (NoDup_fmap_eq operation_id (rows (store e1))); try done; apply Hok1).
  destruct (decide (operation_id o' = operation_id op)) as [|Hne]; [done|]. exfalso.
  match goal with Hx : existsb _ _ = false |- _ => apply not_true_iff_false in Hx; apply Hx end.
  apply existsb_exists. exists o'. split; [by apply list_elem_of_In|].
  cbv beta. by rewrite Hact, (bool_decide_eq_true_2 (op_pod o' = op_pod op)),
    (bool_decide_eq_false_2 (operation_id o' = operation_id op)).
Qed.

Lemma place_keeps t clk op e :
  engine_ok (Some (operation_id op)) t e → t ≤ monotonic clk → op ∈ rows (store e) → state op = REQUESTED →
  ∀ op' e', place validate_operation clk op e = (Ok op', e') →
  op' ∈ rows (store e') ∧ identity op' = identity op.
Proof.
  intros Hok Ht Hop Hst op' e'. unfold place. cbv zeta. rewrite (M_bind_run get _ e e e eq_refl).
  destruct (settle_loop _ t clk
    (λ p, bool_decide (op_pod p = op_pod op) && negb (bool_decide (operation_id p = operation_id op)))
    (instances e !! op_pod op) (operations (store e)) e Hok Ht) as (e1 & Hl & He1); [apply Hok|done|].
  rewrite (M_bind_run _ _ _ _ _ Hl), (M_bind_run get _ e1 e1 e1 eq_refl).
  assert (Hop1 : op ∈ rows (store e1)).
  { eapply edits_keep; [apply Hok|exact He1|done|]. intros x Hx _ ->. rewrite Hst in Hx. set_solver. }
  assert (Hrej : ∀ r e2, op ∈ rows (store e2) → reject validate_operation clk op r e2 = (Ok op', e') →
    op' ∈ rows (store e') ∧ identity op' = identity op).
  { intros r e2 Hop2. unfold reject, mbind, M_mbind, lift.
    destruct (transition op REJECTED ∅) as [op2|] eqn:Htr; [|done]. apply transition_Ok in Htr as (-> & _).
    match goal with |- save_op _ clk ?o ?p e2 = _ → _ =>
      destruct (save_op_run clk o p e2) as [(e3 & -> & _ & Hr & _)|(err & e3 & -> & _)]; [|done] end.
    intros [= <- <-]. rewrite touch_identity. split; [|done]. rewrite Hr. apply update_row_elem. left.
    split; [done|]. exists op. by rewrite touch_id. }
  destruct (_ || _ || _); [by apply Hrej|].
  destruct (owned_quiet clk (op_pod op) (Some (run_id op)) e1) as (o & e2 & Ho & [_ Hq2]).
  rewrite (M_bind_run _ _ _ _ _ Ho). destruct (owned_truth o); [apply Hrej; by rewrite Hq2|].
  intros [= <- <-]. by rewrite Hq2.
Qed.

(** An operation that is new to the journal. *)
Definition novel (op : Operation I) (rs : list (Operation I)) : Prop :=
  (operation_id op ∉ operation_id <$> rs) ∧ (op_key op ∉ op_key <$> rs) ∧ row_shape op ∧ state op = REQUESTED.

(** [enter] once the journal has taken the operation, or refused it. *)
Lemma enter_added t clk op deadline receipt e :
  engine_ok None t e → t ≤ monotonic clk → novel op (rows (store e)) →
  (∃ err e1, enter validate_operation clk op deadline receipt e = (Raise err, e1) ∧ quiet e e1) ∨
  ∃ e1, enter validate_operation clk op deadline receipt e = place validate_operation clk op e1 ∧
    engine_ok (Some (operation_id op)) (monotonic clk) e1 ∧ op ∈ rows (store e1) ∧ busy e1 = busy e ∧
    rows (store e1) = rows (prune (store e <| rows := rows (store e) ++ [op] |>)).
Proof.
  intros Hok Ht (Hid & Hkey & Hs & Hst). unfold enter.
  destruct (add validate_operation op receipt (store e)) as [[[]|err] s1] eqn:Eadd.
  2:{ left. assert (s1 = store e) as ->.
      { revert Eadd. unfold add, mbind, M_mbind, get, lift, modify.
        repeat case_match; intros [=]; simplify_eq; done. }
      eexists err, _. unfold mbind, M_mbind, on_store. rewrite Eadd. done. }
  right. rewrite (M_bind_run _ _ e tt (e <| store := s1 |>)) by (unfold on_store; by rewrite Eadd).
  apply add_run in Eadd as (Hv & Hpid & Hrows).
  set (e1 := e <| store := s1 |> <| starts := <[operation_id op := monotonic clk]> (starts e) |>
    <| deadlines := <[operation_id op := monotonic clk + deadline]> (deadlines e) |>).
  exists e1. split; [by rewrite (M_bind_run _ _ _ tt e1)|].
  set (s0 := store e <| rows := rows (store e) ++ [op] |>) in Hrows.
  assert (Hfrom1 : ∀ o, o ∈ rows s1 → o ∈ rows (store e) ∨ o = op).
  { intros o Ho. rewrite Hrows in Ho. apply prune_elem_of in Ho. simpl in Ho. set_solver. }
  split; [|split; [simpl; rewrite Hrows; apply prune_active; [simpl; set_solver|by rewrite Hst]|done]].
  split; simpl.
  - destruct (ok_store _ _ _ Hok) as [Hi Hk]. assert (store_ok s0) as Hs0.
    { split; simpl; rewrite fmap_app; apply NoDup_app; (split; [done|]); (split; [|by apply NoDup_singleton]);
        intros x Hx ->%list_elem_of_singleton; done. }
    apply prune_ids_unique in Hs0. unfold store_ok in *. by rewrite Hrows.
  - apply Forall_forall. intros o [Ho| ->]%Hfrom1; [by eapply row_of|done].
  - intros o1 o2 [H1| ->]%Hfrom1 [H2| ->]%Hfrom1 N1 N2; try congruence.
    by apply (ok_active _ _ _ Hok).
  - rewrite Hpid. apply Hok.
  - intros i st [[_ <-]|[_ Hst0]]%lookup_insert_Some; [done|]. apply (ok_starts _ _ _ Hok) in Hst0. lia.
Qed.

Lemma enter_inv t clk op deadline receipt e :
  engine_ok None t e → t ≤ monotonic clk → novel op (rows (store e)) →
  let e' := (enter validate_operation clk op deadline receipt e).2 in
  engine_ok None (monotonic clk) e' ∧ busy e' = busy e ∧
  (∀ tk, operation_id op ≠ operation_id (t_op tk) → task_ok (rows (store e)) tk →
     task_ok (rows (store e')) tk) ∧
  (∀ o', o' ∈ rows (store e') → from (rows (store e) ++ [op]) o').
Proof.
  intros Hok Ht Hnew. pose proof Hnew as (_ & _ & _ & Hst).
  destruct (enter_added t clk op deadline receipt e Hok Ht Hnew)
    as [(err & e1 & -> & Hq)|(e1 & -> & Hok1 & Hop & Hb & Hrows)]; simpl.
  - split; [by eapply engine_ok_later; [eapply quiet_ok|]|]. destruct Hq as [(_ & Hb & _) Hr].
    rewrite Hb, Hr. split; [done|]. split; [done|]. intros o' Ho'. exists o'. split; [set_solver|done].
  - destruct (place_inv (monotonic clk) clk op e1) as (op' & e2 & -> & Hok2 & Hed); [done..|]. simpl.
    split; [done|]. split; [rewrite <- Hb; apply Hed|]. split.
    + intros tk Hne Htk. eapply edits_task; [apply Hok1|exact Hed| |].
      * intros o [Ho|Ho]; [right; apply followed_unwatched|left; congruence].
        unfold followed. set_solver.
      * rewrite Hrows. by apply task_ok_add.
    + intros o' Ho'. apply (edits_from _ _ _ _ (ok_store _ _ _ Hok1) Hed) in Ho' as (o & Ho & ?).
      exists o. split; [|done]. rewrite Hrows in Ho. by apply prune_elem_of in Ho.
Qed.

(** What [enter] answers is in the journal. *)
Lemma enter_keeps t clk op deadline receipt e op' e' :
  engine_ok None t e → t ≤ monotonic clk → novel op (rows (store e)) →
  enter validate_operation clk op deadline receipt e = (Ok op', e') →
  op' ∈ rows (store e') ∧ identity op' = identity op.
Proof.
  intros Hok Ht Hnew. pose proof Hnew as (_ & _ & _ & Hst).
  destruct (enter_added t clk op deadline receipt e Hok Ht Hnew)
    as [(err & e1 & -> & _)|(e1 & -> & Hok1 & Hop & _)]; [done|]. by eapply place_keeps.
Qed.

Lemma novel_request id run source interface i fp key now deadline receipt e :
  request_checks vault backends i source key deadline interface receipt = Ok fp →
  id ∉ operation_id <$> rows (store e) → lookup_key source (i_pod_id i) key (store e) = None →
  novel (new_operation id run source interface i fp key now deadline) (rows (store e)).
Proof.
  intros Hc Hid El%lookup_key_None. repeat split; simpl; try done; [|set_solver].
  unfold request_checks in Hc. inv_ok. bools. done.
Qed.

Lemma request_inv t clk id i source key run deadline interface receipt e :
  engine_ok None t e → t ≤ monotonic clk → id ∉ operation_id <$> rows (store e) →
  let e' := (request_internal validate_operation vault backends clk id i source key run deadline
               interface receipt e).2 in
  engine_ok None (monotonic clk) e' ∧ busy e' = busy e ∧
  (∀ tk, id ≠ operation_id (t_op tk) → task_ok (rows (store e)) tk → task_ok (rows (store e')) tk) ∧
  (∀ o', o' ∈ rows (store e') → operation_id o' ≠ id → from (rows (store e)) o').
Proof.
  intros Hok Ht Hid. unfold request_internal. rewrite M_bind_snd. unfold lift at 1.
  assert (Hsame : engine_ok None (monotonic clk) e ∧ busy e = busy e ∧
    (∀ tk, id ≠ operation_id (t_op tk) → task_ok (rows (store e)) tk → task_ok (rows (store e)) tk) ∧
    (∀ o', o' ∈ rows (store e) → operation_id o' ≠ id → from (rows (store e)) o')).
  { split; [by eapply engine_ok_later|]. split; [done|]. split; [done|]. intros o' Ho' _. by exists o'. }
  destruct (request_checks _ _ _ _ _ _ _ _) as [fp|err] eqn:Ec; [|done].
  unfold mbind, M_mbind, get, lift.
  destruct (lookup_key _ _ _ _) as [old|] eqn:El; [by destruct (raise_if _ _ _)|].
  set (op := new_operation id run source interface i fp key (utc clk) deadline).
  destruct (enter_inv t clk op deadline receipt e) as (Hok' & Hb & Htk & Hfrom);
    [done|done|by eapply novel_request|].
  split; [done|]. split; [done|]. split; [done|].
  intros o' Ho' Hne. destruct (Hfrom o' Ho') as (o & Ho & Hido & Hm). exists o. split; [|done].
  apply elem_of_app in Ho as [Ho|Ho%list_elem_of_singleton]; [done|]. subst o.
  destruct Hne. by rewrite (identity_id _ _ Hido).
Qed.


(** ** Every step keeps the invariant *)

(** Each row after a step is a later record of one before, or of the requested operation. *)
Definition rows_from (w w' : World) : Prop :=
  ∀ o', o' ∈ rows (store (engine w')) →
    from (rows (store (engine w))) o' ∨ operation_id o' ∉ operation_id <$> rows (store (engine w)).

Lemma edits_world P w e t :
  world_ok w → now w ≤ t → edits P (engine w) e →
  (∀ tk, tk ∈ tasks w → task_ok (rows (store (engine w))) tk → task_ok (rows (store e)) tk) →
  world_ok (mkWorld e (tasks w) t) ∧ rows_from w (mkWorld e (tasks w) t).
Proof.
  intros [Hok Hp Hi Hb Ht] Hnow Hed Htk. split.
  - split; simpl; [eapply engine_ok_later; [by eapply edits_ok|done]|done|done| |].
    + destruct Hed as [(_ & -> & _) _]. done.
    + rewrite Forall_forall in Ht |- *. auto.
  - intros o' Ho'. left. eapply edits_from; [apply Hok|exact Hed|done].
Qed.

Lemma reconcile_world w clk pod snap :
  world_ok w → now w ≤ monotonic clk →
  let w' := mkWorld (reconcile validate_operation vault backends clk pod snap (engine w)).2 (tasks w)
              (monotonic clk) in
  world_ok w' ∧ rows_from w w'.
Proof.
  intros Hw Hnow. pose proof (reconcile_edits _ _ clk pod snap _ (ok_engine _ Hw)) as Hed.
  eapply edits_world; [done|done|exact Hed|]. intros tk _ Htk.
  eapply edits_task; [apply Hw|exact Hed| |done]. intros o Ho. right. by apply followed_unwatched.
Qed.

(** A cancellation of an operation that is being validated is what its execution expects. *)
Lemma cancel_task id' t clk id e tk :
  engine_ok id' t e → task_ok (rows (store e)) tk →
  task_ok (rows (store (cancel validate_operation clk id e).2)) tk.
Proof.
  intros Hok Htk. unfold cancel, mbind, M_mbind, get, lift.
  destruct (get_operation id (store e)) as [op|] eqn:Eg; [|done].
  apply get_operation_Ok in Eg as [Hop Hid].
  destruct (transition op CANCELLED ∅) as [op'|] eqn:Ht; [|done].
  apply transition_Ok in Ht as (-> & Hin & _).
  destruct (save_op_run clk (op <| state := CANCELLED |>) [] e)
    as [(e' & -> & _ & Hr & _)|(err & e' & -> & _ & [_ Hr])]; simpl; rewrite Hr; [|done].
  unfold task_ok in *. destruct (t_pc tk).
  5:{ destruct Htk as [Ho Hst]. split; [|done]. apply update_row_elem. right. split; [done|].
      rewrite touch_id. simpl. intros Heq.
      assert (t_op tk = op) as Htop.
      { apply (NoDup_fmap_eq operation_id (rows (store e))); try done. apply Hok. }
      rewrite <- Htop, Hst in Hin. set_solver. }
  all: destruct Htk as (Hst & Hrow & Hall); split; [done|]; split; [done|];
    intros o [[-> _]|[Ho _]]%update_row_elem Hoid; [|by apply Hall];
    rewrite touch_id in Hoid; simpl in Hoid; destruct (Hall op Hop Hoid) as [Hidn _];
    rewrite touch_identity, touch_state; simpl; split; [exact Hidn|by right].
Qed.

(** The first stretch of an execution: it leaves the journal alone, or is a stretch of an operation no other execution has. *)
Lemma execute_run w clk id r e :
  world_ok w → now w ≤ monotonic clk →
  start_execute validate_operation backends clk id (engine w) = (r, e) →
  (e = engine w ∧ continue r (tasks w) = tasks w) ∨
  ∃ op body, let e1 := (engine w <| busy := {[op_pod op]} ∪ busy (engine w) |>) in
    finally op body e1 = (r, e) ∧ stretch op body e1 ∧ engine_ok None (monotonic clk) e1 ∧
    (op_pod op ∉ task_pod <$> tasks w) ∧ (operation_id op ∉ task_ids (tasks w)).
Proof.
  intros Hw Hnow Hrun. pose proof (engine_ok_later _ _ _ _ (ok_engine _ Hw) Hnow) as Hok.
  revert Hrun. unfold start_execute, mbind at 1 2, M_mbind at 1 2, get, lift at 1.
  destruct (get_operation id (store (engine w))) as [op|] eqn:Eg; [|by intros [= <- <-]; left].
  apply get_operation_Ok in Eg as [Hop Hid].
  case_bool_decide as Hreq; cbn [negb]; [|by intros [= <- <-]; left].
  unfold mbind at 1 2, M_mbind at 1 2, lift at 1, modify.
  case_bool_decide as Hbusy; cbn [raise_if]; [by intros [= <- <-]; left|].
  set (e1 := engine w <| busy := _ |>).
  match goal with |- finally op ?m e1 = _ → _ => set (body := m) end. intros Hfin. right. exists op, body. cbv zeta. fold e1.
  assert (Hok1 : engine_ok None (monotonic clk) e1) by (destruct Hok; by split).
  pose proof (ok_tasks _ Hw) as Htasks. rewrite Forall_forall in Htasks.
  assert (Hsamepod : ∀ tk, tk ∈ tasks w → operation_id (t_op tk) = operation_id op → task_pod tk = op_pod op).
  { intros tk Htk Hids. specialize (Htasks tk Htk). unfold task_ok in Htasks.
    assert (Ho : identity op = identity (t_op tk)); [|symmetry; by apply identity_pod].
    destruct (t_pc tk); try (by apply Htasks).
    f_equal. apply (NoDup_fmap_eq operation_id (rows (store (engine w)))); try done; [apply Hok|].
    apply Htasks. }
  assert (Hfree : op_pod op ∉ task_pod <$> tasks w) by (by rewrite <- (ok_busy _ Hw)).
  assert (Hfresh : fresh_op op (rows (store e1))).
  { split; [done|]. split; [by eapply row_of|]. intros o Ho Hoid.
    assert (o = op) as -> by (apply (NoDup_fmap_eq operation_id (rows (store e1))); try done; apply Hok1).
    auto. }
  split; [done|]. split; [|split; [done|split; [done|]]].
  - unfold stretch, body. destruct Hfresh as (? & Hrow & ?). destruct Hrow as [Hv Hs].
    rewrite (bool_decide_eq_false_2 (backends !! op_pod op = None)) by apply Hs.
    unfold lift, mbind, M_mbind, try_else. pose proof (check_wsc_state op e1) as He.
    destruct (check_wsc op e1) as [[[]|err] e2]; simpl in He; subst e2.
    + by split.
    + by apply begin_plan_stretch.
    + by apply fail_stretch; [..|apply Hs].
  - intros (tk & Hids & Htk)%list_elem_of_fmap. simpl in Hids.
    apply Hfree. rewrite <- (Hsamepod tk Htk (eq_sym Hids)). by apply list_elem_of_fmap_2.
Qed.

Lemma execute_world w clk id r e :
  world_ok w → now w ≤ monotonic clk →
  start_execute validate_operation backends clk id (engine w) = (r, e) →
  let w' := mkWorld e (continue r (tasks w)) (monotonic clk) in world_ok w' ∧ rows_from w w'.
Proof.
  intros Hw Hnow Hrun. destruct (execute_run w clk id r e Hw Hnow Hrun) as [[-> ->]|(op & body & Hfin & Hbody & Hok1 & Hp & Hi)].
  { by eapply (edits_world (λ _, False)). }
  cbv zeta in *. set (e1 := engine w <| busy := _ |>) in *.
  destruct (stretch_world (monotonic clk) op body e1 (tasks w) Hok1 Hbody) as [Hw' Hfrom].
  - intros pod. simpl. rewrite elem_of_union, elem_of_singleton, (ok_busy _ Hw). done.
  - constructor; [done|apply Hw].
  - constructor; [done|apply Hw].
  - apply Hw.
  - rewrite Hfin in Hw', Hfrom. split; [done|]. intros o' Ho'. left. by apply Hfrom.
Qed.

Lemma awaited_stretch {A} clk op (a : answer A) (k : A → M (Engine I) (progress I)) e :
  fresh_op op (rows (store e)) → (∀ v, stretch op (k v) e) →
  stretch op (awaited validate_operation clk op a k) e.
Proof.
  intros (Hst & [Hv Hs] & Hheld) Hk. destruct a; simpl; [done|by apply fail_stretch; [..|apply Hs]|by split..].
Qed.

Lemma resume_stretch t clk aid tid tk rep m e :
  engine_ok None t e → task_ok (rows (store e)) tk → t ≤ monotonic clk →
  resume validate_operation vault backends clk aid tid tk rep = Some m →
  ∃ m0, m = finally (t_op tk) m0 ∧ stretch (t_op tk) m0 e.
Proof.
  intros Hok Htk Hnow Hres. unfold resume in Hres. apply fmap_Some in Hres as (m0 & Hm0 & ->).
  exists m0. split; [done|]. unfold task_ok in Htk.
  destruct (t_pc tk), rep; simplify_eq; try (apply awaited_stretch; [exact Htk|intros x]).
  - by apply begin_plan_stretch.
  - destruct Htk as (Hst & [Hv Hs] & Hheld). split; [done|]. split; [done|].
    split; [done|]. split; [|done]. split; [|by destruct Hs].
    apply (schema_edit (t_op tk)); [done..|by left|by left].
  - by eapply after_snapshot_stretch.
  - by eapply after_guard_stretch.
  - destruct Htk. by eapply after_submit_stretch.
Qed.

Lemma resume_world w clk aid tid before tk after rep m r e :
  world_ok w → now w ≤ monotonic clk → tasks w = before ++ tk :: after →
  resume validate_operation vault backends clk aid tid tk rep = Some m → m (engine w) = (r, e) →
  let w' := mkWorld e (continue r (before ++ after)) (monotonic clk) in world_ok w' ∧ rows_from w w'.
Proof.
  intros Hw Hnow Htasks Hres Hrun.
  pose proof (engine_ok_later _ _ _ _ (ok_engine _ Hw) Hnow) as Hok.
  assert (Hperm : tasks w ≡ₚ tk :: (before ++ after)) by (rewrite Htasks; symmetry; apply Permutation_middle).
  pose proof (ok_tasks _ Hw) as Hall. rewrite Hperm in Hall. apply Forall_cons in Hall as [Htk Hall].
  destruct (resume_stretch (monotonic clk) clk aid tid tk rep m (engine w)) as (m0 & -> & Hstr); try done.
  destruct (stretch_world (monotonic clk) (t_op tk) m0 (engine w) (before ++ after) Hok Hstr) as [Hw' Hfrom].
  - intros pod. rewrite (ok_busy _ Hw), Hperm. by rewrite fmap_cons, elem_of_cons.
  - pose proof (ok_pods _ Hw) as Hp. by rewrite Hperm in Hp.
  - pose proof (ok_ids _ Hw) as Hp. unfold task_ids in *. by rewrite Hperm in Hp.
  - done.
  - rewrite Hrun in Hw', Hfrom. split; [done|]. intros o' Ho'. left. by apply Hfrom.
Qed.

(** Executions change the identity of no row. *)
Lemma finally_identities op m e : store_ok (store e) → stretch op m e → identity <$> rows (store (finally op m e).2) = identity <$> rows (store e).
Proof.
  intros Hs [Hed _]. rewrite <- (edits_identities _ _ _ Hs Hed). destruct (finally_run op m e) as [(tk & _ & ->)|(_ & -> & _)]; done.
Qed.

Lemma execute_identities w clk id r e :
  world_ok w → now w ≤ monotonic clk → start_execute validate_operation backends clk id (engine w) = (r, e) →
  identity <$> rows (store e) = identity <$> rows (store (engine w)).
Proof.
  intros Hw Hnow Hrun. destruct (execute_run w clk id r e Hw Hnow Hrun) as [[-> _]|(op & body & Hfin & Hbody & Hok1 & _)]; [done|].
  cbv zeta in *. set (e1 := engine w <| busy := _ |>) in *. pose proof (finally_identities op body e1 (ok_store _ _ _ Hok1) Hbody) as Hk. by rewrite Hfin in Hk.
Qed.

Lemma resume_identities t clk aid tid tk rep m e :
  engine_ok None t e → task_ok (rows (store e)) tk → t ≤ monotonic clk →
  resume validate_operation vault backends clk aid tid tk rep = Some m →
  identity <$> rows (store (m e).2) = identity <$> rows (store e).
Proof.
  intros Hok Htk Ht Hm. destruct (resume_stretch t clk aid tid tk rep m e Hok Htk Ht Hm) as (m0 & -> & Hs). apply finally_identities; [apply Hok|done].
Qed.

(** The rows after a request: as they were, or those the journal keeps with the new operation, which is the last. *)
Lemma request_identities t clk id i source key run deadline interface receipt e :
  engine_ok None t e → t ≤ monotonic clk → id ∉ operation_id <$> rows (store e) →
  let rs := rows (store (request_internal validate_operation vault backends clk id i source key run deadline interface receipt e).2) in
  rs = rows (store e) ∨
  backends !! i_pod_id i ≠ None ∧
  ∃ kept fp, identity <$> rs = identity <$> kept ++ [new_operation id run source interface i fp key (utc clk) deadline].
Proof.
  intros Hok Ht Hid. cbv zeta. unfold request_internal. rewrite M_bind_snd. unfold lift at 1.
  destruct (request_checks _ _ _ _ _ _ _ _) as [fp|err] eqn:Ec; [|by left]. unfold mbind, M_mbind, get, lift.
  destruct (lookup_key _ _ _ _) as [old|] eqn:El; [by destruct (raise_if _ _ _); left|].
  set (op := new_operation id run source interface i fp key (utc clk) deadline).
  assert (Hnew : novel op (rows (store e))) by by eapply novel_request. pose proof Hnew as (_ & _ & Hs & Hst).
  destruct (enter_added t clk op deadline receipt e Hok Ht Hnew) as [(err & e1 & -> & [_ Hr])|(e1 & -> & Hok1 & Hop & _ & Hrows)]; [left; cbn; by rewrite Hr|].
  right. split; [apply Hs|]. destruct (place_inv (monotonic clk) clk op e1) as (op' & e2 & -> & _ & Hed); [done..|]. cbn [snd].
  rewrite (edits_identities _ _ _ (ok_store _ _ _ Hok1) Hed), Hrows, prune_rows.
  set (rs := rows (store e)). change (rows (store e <| rows := _ |>)) with (rs ++ [op]).
  case_bool_decide; [by eexists _, fp|]. rewrite filter_app, filter_cons_True, filter_nil; [by eexists _, fp|].
  unfold kept. apply elem_of_union_l, elem_of_union_l, elem_of_list_to_set, list_elem_of_fmap_2.
  rewrite drop_app. apply elem_of_app. right. rewrite length_app. cbn. by replace (_ - _ - _)%nat with 0%nat by (unfold RETAINED_RECENT; lia); left.
Qed.

Lemma request_world w clk id i source key run deadline interface receipt :
  world_ok w → now w ≤ monotonic clk → id ∉ operation_id <$> rows (store (engine w)) →
  id ∉ task_ids (tasks w) →
  let w' := mkWorld (request_internal validate_operation vault backends clk id i source key run deadline
                       interface receipt (engine w)).2 (tasks w) (monotonic clk) in
  world_ok w' ∧ rows_from w w'.
Proof.
  intros [Hok Hp Hi Hb Ht] Hnow Hid Htid.
  destruct (request_inv _ clk id i source key run deadline interface receipt _ Hok Hnow Hid)
    as (Hok' & Hbusy & Htk & Hfrom). split.
  - split; simpl; [done..|by rewrite Hbusy|]. rewrite Forall_forall in Ht |- *.
    intros tk Hin. apply Htk; [|by apply Ht]. intros ->. apply Htid.
    unfold task_ids. apply list_elem_of_fmap. by exists tk.
  - intros o' Ho'. destruct (decide (operation_id o' = id)) as [->|Hne]; [by right|left]. by apply Hfrom.
Qed.

Lemma restart_world w clk pid :
  world_ok w → pid ≠ "" →
  let w' := mkWorld (recover validate_operation clk (new_process pid (store (engine w)))).2 []
              (monotonic clk) in
  world_ok w' ∧ rows_from w w'.
Proof.
  intros Hw Hpid. set (e := new_process pid (store (engine w))).
  assert (Hok : engine_ok None (monotonic clk) e).
  { destruct (ok_engine _ Hw) as [? ? ? ? ?]. split; try done. }
  pose proof (recover_edits _ _ clk e Hok) as Hed. split.
  - split; simpl; [by eapply edits_ok|constructor|constructor| |constructor].
    intros pod. destruct Hed as [(_ & -> & _) _]. unfold e; simpl. set_solver.
  - intros o' Ho'. left. eapply (edits_from _ e); [apply Hok|exact Hed|done].
Qed.

Lemma step_inv w w' :
  world_ok w → step w w' → world_ok w' ∧ rows_from w w'.
Proof.
  intros Hw Hstep. destruct Hstep.
  - by apply request_world.
  - by eapply execute_world.
  - by eapply resume_world.
  - by apply reconcile_world.
  - eapply edits_world; [done|done|apply (cancel_edits None (now w)), Hw|].
    intros tk _. eapply cancel_task, Hw.
  - eapply (edits_world (λ _, False)); [done|done| |done]. by apply quiet_edits.
  - eapply (edits_world (λ _, False)); [done|done| |done]. by apply quiet_edits.
  - by apply restart_world.
Qed.

Lemma reachable_ok w : reachable w → world_ok w.
Proof.
  intros (w0 & (pid & maxo & maxe & t & Hpid & ->) & Hrtc).
  assert (Hw0 : world_ok (mkWorld (new_process pid (mkStore pid maxo maxe [] ∅ ∅ ∅ ∅)) [] t)).
  { split; simpl; [|constructor|constructor|set_solver|constructor].
    split; simpl; [split; constructor|constructor| |done|done].
    intros o1 o2 Ho1. by apply not_elem_of_nil in Ho1. }
  induction Hrtc as [|w1 w2 w3 Hstep _ IH]; [done|]. apply IH. by eapply step_inv.
Qed.

(** ** What recovery leaves *)

(** The state [recover] gives a row. *)
Definition recovered_state (op : Operation I) : State :=
  if bool_decide (initiating_interface op = "wsc-component") && bool_decide (state op = REQUESTED)
  then CANCELLED
  else match state op with SUBMITTED => INDETERMINATE | VALIDATED => CANCELLED | s => s end.

Lemma recover_one_Ok id t clk op e :
  engine_ok id t e → t ≤ monotonic clk → op ∈ rows (store e) →
  ∃ e' op', recover_one validate_operation clk op e = (Ok tt, e') ∧ op' ∈ rows (store e') ∧
    identity op' = identity op ∧ state op' = recovered_state op.
Proof.
  intros Hok Ht Hop. destruct (row_of _ _ _ _ Hok Hop) as [Hv _].
  assert (Hsave : ∀ op1 payload, identity op1 = identity op → attempts op1 = attempts op →
    commit_evidence op1 = commit_evidence op ∨ commit_evidence op1 = {["attribution" := VStr "unknown"]} →
    timings op1 = timings op → state op1 = recovered_state op →
    ∃ e' op', (_ ← save_op validate_operation clk op1 payload; mret tt) e = (Ok tt, e') ∧
      op' ∈ rows (store e') ∧ identity op' = identity op ∧ state op' = recovered_state op).
  { intros op1 payload Hid Ha Hc Htm Hst.
    destruct (save_op_Ok id t clk op op1 payload e Hok Ht Hv Hid Ha Hc Htm) as (e' & Hrun & _ & Hr & _).
    exists e', (touch clk e op1). rewrite (M_bind_run _ _ _ _ _ Hrun), touch_identity, touch_state.
    split; [done|]. split; [|done]. rewrite Hr. apply update_row_elem. left. split; [done|].
    exists op. split; [done|]. rewrite touch_id. symmetry. by apply identity_id. }
  unfold recover_one. unfold recovered_state in *.
  destruct (bool_decide (initiating_interface op = "wsc-component") && _) eqn:E.
  - apply andb_prop in E as [_ Hreq%bool_decide_eq_true].
    assert (Htr : transition op CANCELLED ∅ = Ok (op <| state := CANCELLED |>)).
    { apply transition_Ok. split; [done|]. split; [|done]. rewrite Hreq. table. }
    unfold lift. rewrite (M_bind_run _ _ e (op <| state := CANCELLED |>) e) by by rewrite Htr.
    apply Hsave; auto.
  - clear E. case_bool_decide as Hsub; [|case_bool_decide as Hval].
    + assert (Htr : transition op INDETERMINATE ∅ = Ok (op <| state := INDETERMINATE |>)).
      { apply transition_Ok. split; [done|]. split; [|done]. rewrite Hsub. table. }
      unfold lift. rewrite (M_bind_run _ _ e (op <| state := INDETERMINATE |>) e) by by rewrite Htr.
      apply Hsave; auto. by rewrite Hsub.
    + assert (Htr : transition op CANCELLED ∅ = Ok (op <| state := CANCELLED |>)).
      { apply transition_Ok. split; [done|]. split; [|done]. rewrite Hval. table. }
      unfold lift. rewrite (M_bind_run _ _ e (op <| state := CANCELLED |>) e) by by rewrite Htr.
      apply Hsave; auto. by rewrite Hval.
    + exists e, op. do 3 (split; [done|]). by destruct (state op).
Qed.

Lemma recover_loop id t clk ops e :
  engine_ok id t e → t ≤ monotonic clk → NoDup (operation_id <$> ops) →
  (∀ op, op ∈ ops → op ∈ rows (store e)) →
  ∃ e', for_each (recover_one validate_operation clk) ops e = (Ok tt, e') ∧
    edits (λ x, operation_id x ∈ operation_id <$> ops) e e' ∧
    ∀ op, op ∈ ops → ∃ op', op' ∈ rows (store e') ∧ identity op' = identity op ∧
      state op' = recovered_state op.
Proof.
  revert e. induction ops as [|op ops IH]; intros e Hok Ht Hnd Hin.
  { exists e. split; [done|]. split; [done|]. by intros op Hop%not_elem_of_nil. }
  apply NoDup_cons in Hnd as [Hop Hnd].
  destruct (recover_one_Ok id t clk op e) as (e1 & op1 & Hrun & Hop1 & Hid1 & Hst1); [done..|set_solver|].
  pose proof (recover_one_edits id t clk op e Hok (Hin op ltac:(set_solver))) as Hed. rewrite Hrun in Hed.
  simpl in Hed. destruct (IH e1) as (e2 & Hrun2 & Hed2 & Hall); [by eapply edits_ok|done|done| |].
  { intros o Ho. eapply edits_keep; [apply Hok|exact Hed|set_solver|].
    intros x -> Hid ->. apply Hop. by apply list_elem_of_fmap_2. }
  exists e2. simpl. rewrite (M_bind_run _ _ _ _ _ Hrun). split; [done|]. split.
  - etrans; (eapply edits_weaken; [|done]); set_solver.
  - intros o [->|Ho]%elem_of_cons; [|auto]. exists op1. split; [|done].
    eapply edits_keep; [eapply edits_ok; [exact Hok|exact Hed]|exact Hed2|done|].
    intros x Hx Hxid ->. apply Hop. by rewrite <- (identity_id _ _ Hid1).
Qed.

(** ** Repeated requests *)

(** What an answered request leaves in the journal. *)
Lemma request_answer t clk id i source key run deadline interface receipt e op e' :
  engine_ok None t e → t ≤ monotonic clk → id ∉ operation_id <$> rows (store e) →
  request_internal validate_operation vault backends clk id i source key run deadline interface receipt e
    = (Ok op, e') →
  ∃ fp, request_checks vault backends i source key deadline interface receipt = Ok fp ∧
    lookup_key source (i_pod_id i) key (store e') = Some op ∧ intent_fingerprint op = fp.
Proof.
  intros Hok Ht Hid. pose proof (request_inv t clk id i source key run deadline interface receipt e Hok Ht Hid)
    as (Hok' & _). revert Hok'. unfold request_internal.
  destruct (request_checks _ _ _ _ _ _ _ _) as [fp|err] eqn:Ec; [|done].
  unfold mbind at 1 2 4 5, M_mbind at 1 2 4 5, lift at 1 3, get.
  destruct (lookup_key _ _ _ _) as [old|] eqn:El.
  - unfold mbind, M_mbind, lift. case_bool_decide as Hf; cbn; [|done].
    intros _ [= <- <-]. exists fp. by rewrite El.
  - set (op0 := new_operation id run source interface i fp key (utc clk) deadline).
    intros Hok' Hrun. rewrite Hrun in Hok'. simpl in Hok'. exists fp. split; [done|].
    assert (Hop : op ∈ rows (store e') ∧ identity op = identity op0).
    { eapply (enter_keeps t clk op0); [done|done|by eapply novel_request|exact Hrun]. }
    destruct Hop as [Hop Hidn]. unfold identity in Hidn. simpl in Hidn.
    injection Hidn as ? ? Hso ? Hin Hfp Hkey _ _. split; [|done].
    destruct (lookup_key source (i_pod_id i) key (store e')) as [o|] eqn:El'.
    + f_equal. apply lookup_key_Some in El' as [Ho Hk].
      apply (NoDup_fmap_eq op_key (rows (store e'))); try done; [apply Hok'|].
      rewrite Hk. unfold op_key, op_pod. congruence.
    + apply lookup_key_None in El'. destruct El'. apply list_elem_of_fmap. exists op.
      split; [|done]. unfold op_key, op_pod. congruence.
Qed.

(** ** What the journal keeps *)

(** Pruning leaves at least the most recent operations. *)
Lemma prune_recent (s : Store I) : (RETAINED_RECENT < length (rows s))%nat → (RETAINED_RECENT ≤ length (rows (prune s)))%nat.
Proof.
  intros Hl. rewrite prune_rows, bool_decide_eq_false_2 by lia. set (n := (length (rows s) - RETAINED_RECENT)%nat).
  set (P := λ op : Operation I, operation_id op ∈ kept (rows s)).
  assert (E : filter P (rows s) = filter P (take n (rows s)) ++ filter P (drop n (rows s))) by by rewrite <- filter_app, take_drop.
  rewrite E, length_app, (filter_all P (drop n (rows s))).
  - rewrite length_drop. unfold n. lia.
  - apply Forall_forall. intros o Ho. unfold kept. apply elem_of_union_l, elem_of_union_l, elem_of_list_to_set, list_elem_of_fmap_2. done.
Qed.

(** A row is there, as it was but for its progress. *)
Definition present (op : Operation I) (w : World) : Prop := ∃ o, o ∈ rows (store (engine w)) ∧ identity o = identity op.

(** The step at which a row left the journal: it was over, held no rows of its pod, and at least the most recent operations the journal
    retains were there without it. *)
Definition retires (op : Operation I) (w w' : World) : Prop :=
  step w w' ∧ (∃ o, o ∈ rows (store (engine w)) ∧ identity o = identity op ∧ ACTIVE (state o) = false ∧ holds_rows o = false)
  ∧ (RETAINED_RECENT ≤ length (rows (store (engine w'))))%nat.

Lemma same_present rs op w : identity <$> rows (store (engine w)) = identity <$> rs → op ∈ rs → present op w.
Proof. intros E Ho%(list_elem_of_fmap_2 identity). rewrite <- E in Ho. apply list_elem_of_fmap in Ho as (o & Ho & ?). by exists o. Qed.

Lemma request_keeps t clk id i source key run deadline interface receipt e o :
  engine_ok None t e → t ≤ monotonic clk → id ∉ operation_id <$> rows (store e) → o ∈ rows (store e) →
  let rs := rows (store (request_internal validate_operation vault backends clk id i source key run deadline interface receipt e).2) in
  (∃ o', o' ∈ rs ∧ identity o' = identity o) ∨ (ACTIVE (state o) = false ∧ holds_rows o = false ∧ (RETAINED_RECENT ≤ length rs)%nat).
Proof.
  intros Hok Ht Hid Ho. cbv zeta. unfold request_internal. rewrite M_bind_snd. unfold lift at 1 3.
  destruct (request_checks _ _ _ _ _ _ _ _) as [fp|err] eqn:Ec; [|left; by exists o]. unfold mbind, M_mbind, get, lift.
  destruct (lookup_key _ _ _ _) as [old|] eqn:El; [destruct (raise_if _ _ _); left; by exists o|].
  set (op := new_operation id run source interface i fp key (utc clk) deadline).
  assert (Hnew : novel op (rows (store e))) by by eapply novel_request. pose proof Hnew as (_ & _ & Hs & Hst).
  destruct (enter_added t clk op deadline receipt e Hok Ht Hnew) as [(err & e1 & -> & [_ Hr])|(e1 & -> & Hok1 & Hop & _ & Hrows)]; [left; cbn; rewrite Hr; by exists o|].
  destruct (place_inv (monotonic clk) clk op e1) as (op' & e2 & -> & _ & Hed); [done..|]. cbn [snd].
  pose proof (edits_identities _ _ _ (ok_store _ _ _ Hok1) Hed) as Hids. rewrite Hrows in Hids.
  set (s1 := store e <| rows := rows (store e) ++ [op] |>) in *. assert (Ho1 : o ∈ rows s1) by (apply elem_of_app; by left).
  assert (Hkept : o ∈ rows (prune s1) → ∃ o', o' ∈ rows (store e2) ∧ identity o' = identity o).
  { intros Hin%(list_elem_of_fmap_2 identity). rewrite <- Hids in Hin. apply list_elem_of_fmap in Hin as (o' & ? & ?). by exists o'. }
  destruct (decide (length (rows s1) ≤ RETAINED_RECENT)%nat) as [Hle|Hgt].
  { left. apply Hkept. by rewrite prune_rows, bool_decide_eq_true_2. }
  destruct (ACTIVE (state o)) eqn:Ea; [left; apply Hkept, prune_keeps; auto|].
  destruct (holds_rows o) eqn:Eh; [left; apply Hkept, prune_keeps; auto|].
  right. split; [done|]. split; [done|]. rewrite <- (length_fmap identity), Hids, length_fmap. apply prune_recent. lia.
Qed.

Lemma step_keeps w w' op : world_ok w → step w w' → present op w → present op w' ∨ retires op w w'.
Proof.
  intros Hw Hstep (o & Ho & Hio). pose proof Hstep as Hst. pose proof (ok_engine _ Hw) as Hok. pose proof (ok_store _ _ _ Hok) as Hs.
  assert (Hsame : identity <$> rows (store (engine w')) = identity <$> rows (store (engine w)) → present op w' ∨ retires op w w').
  { intros E. left. destruct (same_present _ o w' E Ho) as (o' & ? & ?). exists o'. split; [done|]. congruence. }
  destruct Hst as [clk id i source key run deadline interface receipt Hn Hid _|clk id r e Hn Hr|clk aid tid before t after rep m r e Hn Ht Hm Hr|clk pod snap Hn|clk id Hn|id live|b|clk pid Hp].
  - pose proof (request_keeps (now w) clk id i source key run deadline interface receipt (engine w) o Hok Hn Hid Ho) as [(o' & ? & ?)|(Ha & Hh & Hl)].
    + left. exists o'. split; [done|congruence].
    + right. split; [done|]. split; [by exists o|done].
  - apply Hsame. by eapply execute_identities.
  - apply Hsame. pose proof (resume_identities (now w) clk aid tid t rep m (engine w) Hok) as Hid. rewrite Hr in Hid. apply Hid; [|done..].
    pose proof (ok_tasks _ Hw) as Htk. rewrite Ht in Htk. rewrite Forall_forall in Htk. apply Htk. apply elem_of_app. right. by left.
  - apply Hsame. eapply edits_identities; [done|by eapply reconcile_edits].
  - apply Hsame. eapply edits_identities; [done|by eapply cancel_edits].
  - by apply Hsame.
  - by apply Hsame.
  - apply Hsame. apply (edits_identities (λ _, True) (new_process pid (store (engine w)))); [done|]. apply (recover_edits None (monotonic clk)).
    destruct Hok as [? ? ? ? ?]. by split.
Qed.

Lemma run_ok w w' : world_ok w → rtc step w w' → world_ok w'.
Proof. intros Hw Hr. revert Hw. induction Hr as [|a b c Hab _ IH]; [done|]. intros Ha. apply IH. by eapply step_inv. Qed.

Lemma run_keeps w w' op : world_ok w → rtc step w w' → present op w →
  world_ok w' ∧ (present op w' ∨ ∃ w1 w2, rtc step w w1 ∧ retires op w1 w2 ∧ rtc step w2 w').
Proof.
  intros Hw Hr. revert Hw. induction Hr as [w|w w1 w2 Hstep Hr IH]; intros Hw Hp; [by split; [|left]|].
  pose proof (step_inv _ _ Hw Hstep) as [Hw1 _]. pose proof (run_ok _ _ Hw1 Hr) as Hw2.
  split; [done|]. destruct (step_keeps _ _ _ Hw Hstep Hp) as [Hp1|Hret]; [|right; by exists w, w1].
  destruct (IH Hw1 Hp1) as [_ [?|(a & b & Ha & Hb & Hc)]]; [by left|right]. exists a, b. split; [by eapply rtc_l|done].
Qed.

(** While its row is there, a repeated request is answered with it. *)
Lemma request_repeated w op o clk id i source key run deadline interface receipt fp :
  world_ok w → o ∈ rows (store (engine w)) → identity o = identity op → op_key op = (source, i_pod_id i, key) → intent_fingerprint op = fp →
  request_checks vault backends i source key deadline interface receipt = Ok fp →
  request_internal validate_operation vault backends clk id i source key run deadline interface receipt (engine w) = (Ok o, engine w)
  ∧ ∀ j fp', request_checks vault backends j source key deadline interface receipt = Ok fp' → i_pod_id j = i_pod_id i → fp' ≠ fp →
      ∃ err, code err = INVALID_INPUT ∧
        request_internal validate_operation vault backends clk id j source key run deadline interface receipt (engine w) = (Raise err, engine w).
Proof.
  intros Hw Ho Hio Hk Hfp Hc. assert (Hko : op_key o = (source, i_pod_id i, key)) by (rewrite <- Hk; by apply identity_key).
  assert (Hfo : intent_fingerprint o = fp) by (rewrite <- Hfp; unfold identity in Hio; by injection Hio).
  assert (Hlook : lookup_key source (i_pod_id i) key (store (engine w)) = Some o).
  { destruct (lookup_key source (i_pod_id i) key (store (engine w))) as [x|] eqn:El.
    - apply lookup_key_Some in El as [Hx Hkx]. f_equal. apply (NoDup_fmap_eq op_key (rows (store (engine w)))); try done; [apply (ok_store _ _ _ (ok_engine _ Hw))|congruence].
    - apply lookup_key_None in El. destruct El. apply list_elem_of_fmap. by exists o. }
  unfold request_internal. split.
  - rewrite Hc. unfold mbind, M_mbind, lift, get. rewrite Hlook, Hfo. by rewrite bool_decide_eq_true_2.
  - intros j fp' Hc' Hpod Hne. rewrite Hc'. unfold mbind, M_mbind, lift, get. rewrite Hpod, Hlook, Hfo.
    rewrite (bool_decide_eq_false_2 (fp = fp')) by congruence. simpl. eexists. split; [|reflexivity]. reflexivity.
Qed.

End Schema.
End World.
Arguments World I : clear implicits.

(** ** Example runs *)

Ltac later := apply Z.leb_le; vm_compute; reflexivity.


Definition ex_backends : gmap string (option string) := {["pod-1" := None]}.
Definition ex_vault : Vault :=
  mkVault (λ r, Ok ("psk of " +:+ r)) (λ _, String.string_of_list_ascii (repeat (Ascii.ascii_of_N 97) 64)).
Definition ex_contract : Operation Intent → result unit := operation_contract (λ _, true).
Definition ex_clock (t : Z) : Clock := mkClock t t.
Definition ex_snapshot (instance : option string) : Snapshot :=
  mkSnapshot ∅ (mkObservation ∅ "pod" 0 true "live" 1) true 1 "schema-1" instance.

Abbreviation ex_step := (step ex_contract ex_vault ex_backends).
Abbreviation ex_reachable := (reachable ex_contract ex_vault ex_backends).

Definition ex_initial : World Intent :=
  mkWorld (new_process "process-1" (mkStore "process-1" 10000 10000 [] ∅ ∅ ∅ ∅)) [] 0.
Definition ex_request (id key : string) (t : Z) (w : World Intent) : World Intent :=
  mkWorld (request_internal ex_contract ex_vault ex_backends (ex_clock t) id example_intent "lab" key
             "run-1" 30000 "semantic" None (engine w)).2 (tasks w) t.
Definition ex_execute (id : string) (t : Z) (w : World Intent) : World Intent :=
  let '(r, e) := start_execute ex_contract ex_backends (ex_clock t) id (engine w) in
  mkWorld e (continue r (tasks w)) t.
Definition ex_reply (rep : reply) (t : Z) (w : World Intent) : World Intent :=
  match tasks w with
  | tk :: ts =>
      match resume ex_contract ex_vault ex_backends (ex_clock t) "attempt-1" "transaction-1" tk rep with
      | Some m => let '(r, e) := m (engine w) in mkWorld e (continue r ts) t
      | None => w
      end
  | [] => w
  end.
Definition ex_cancel (id : string) (t : Z) (w : World Intent) : World Intent :=
  mkWorld (cancel ex_contract (ex_clock t) id (engine w)).2 (tasks w) t.

Lemma ex_initial_reachable : ex_reachable ex_initial.
Proof. exists ex_initial. split; [|done]. by exists "process-1", 10000, 10000, 0. Qed.

Lemma reachable_step w w' : ex_reachable w → ex_step w w' → ex_reachable w'.
Proof. intros (w0 & Hi & Hr) Hs. exists w0. split; [done|]. by eapply rtc_r. Qed.

Lemma ex_request_step id key t w :
  now w ≤ t → id ∉ operation_id <$> rows (store (engine w)) → id ∉ task_ids (tasks w) →
  ex_step w (ex_request id key t w).
Proof. intros. by apply (step_request _ _ _ w (ex_clock t)). Qed.

Lemma ex_execute_step id t w : now w ≤ t → ex_step w (ex_execute id t w).
Proof.
  intros Ht. unfold ex_execute. destruct (start_execute _ _ _ _ _) as [r e] eqn:E.
  by apply (step_execute _ _ _ w (ex_clock t) id).
Qed.

Lemma ex_reply_step rep t w :
  now w ≤ t →
  (match tasks w with
   | tk :: _ => match resume ex_contract ex_vault ex_backends (ex_clock t) "attempt-1" "transaction-1" tk rep with
                | Some _ => True | None => False end
   | [] => False end) →
  ex_step w (ex_reply rep t w).
Proof.
  intros Ht Hw. unfold ex_reply. destruct (tasks w) as [|tk ts] eqn:Etasks; [done|].
  destruct (resume _ _ _ _ _ _ _ _) as [m|] eqn:Em; [|done].
  destruct (m (engine w)) as [r e] eqn:Er.
  apply (step_resume _ _ _ w (ex_clock t) "attempt-1" "transaction-1" [] tk ts rep m r e); done.
Qed.

(** A first operation, requested and started; the same, planned; and on its way to the pod. *)
Definition ex_started : World Intent := ex_execute "op-1" 2 (ex_request "op-1" "key-1" 1 ex_initial).
Definition ex_planned : World Intent := ex_reply (RPlan (Returned ∅)) 3 ex_started.
Definition ex_submitting : World Intent := ex_reply (RSnapshot (Returned (ex_snapshot None))) 4 ex_planned.

Lemma ex_started_reachable : ex_reachable ex_started.
Proof.
  apply (reachable_step (ex_request "op-1" "key-1" 1 ex_initial));
    [eapply reachable_step; [apply ex_initial_reachable|]|].
  - apply ex_request_step; [later|..]; apply (bool_decide_unpack _); vm_compute; exact Logic.I.
  - apply ex_execute_step. later.
Qed.

Lemma ex_planned_reachable : ex_reachable ex_planned.
Proof.
  apply (reachable_step ex_started); [apply ex_started_reachable|].
  apply ex_reply_step; [later|vm_compute; exact Logic.I].
Qed.

Lemma ex_submitting_reachable : ex_reachable ex_submitting.
Proof.
  apply (reachable_step ex_planned); [apply ex_planned_reachable|].
  apply ex_reply_step; [later|vm_compute; exact Logic.I].
Qed.

Lemma ex_submitting_pc : Forall (λ t, t_pc t = PSubmit) (tasks ex_submitting).
Proof. vm_compute. repeat constructor. Qed.
Lemma ex_submitting_rows : Forall (λ op, state op = SUBMITTED) (rows (store (engine ex_submitting))).
Proof. vm_compute. repeat constructor. Qed.

(** * Properties *)

(** C2: whatever is requested, executed, reconciled, cancelled or restarted, in any interleaving
    and with any answers of the pods, a pod has at most one active operation in the journal and at
    most one execution under way, and the engine's [busy] set is exactly the pods being executed. *)
Theorem one_active_operation_per_pod {I} `{IntentType I} (validate_operation : Operation I → result unit)
    `{!OperationSchema validate_operation} (vault : Vault) (backends : gmap string (option string))
    (w : World I) :
  reachable validate_operation vault backends w →
  (∀ o1 o2, o1 ∈ rows (store (engine w)) → o2 ∈ rows (store (engine w)) → op_pod o1 = op_pod o2 →
     ACTIVE (state o1) = true → ACTIVE (state o2) = true → o1 = o2) ∧
  (∀ i j t1 t2, tasks w !! i = Some t1 → tasks w !! j = Some t2 →
     op_pod (t_op t1) = op_pod (t_op t2) → i = j) ∧
  (∀ pod, pod ∈ busy (engine w) ↔ ∃ t, t ∈ tasks w ∧ op_pod (t_op t) = pod).
Proof.
  intros [Hok Hpods _ Hbusy _]%reachable_ok; [|done]. split; [|split].
  - intros o1 o2 H1 H2 Hp A1 A2. apply (NoDup_fmap_eq operation_id (rows (store (engine w)))); try done;
      [apply Hok|]. by apply (ok_active _ _ _ _ _ Hok).
  - intros i j t1 t2 Hi Hj Hp. apply (NoDup_lookup (task_pod <$> tasks w) i j (task_pod t1)); [done|..];
      rewrite list_lookup_fmap; [by rewrite Hi|]. rewrite Hj. simpl. unfold task_pod. by rewrite Hp.
  - intros pod. rewrite Hbusy, list_elem_of_fmap. unfold task_pod. naive_solver.
Qed.

Lemma one_active_operation_per_pod_witness :
  busy (engine ex_submitting) = {["pod-1"]} ∧
  ∀ pod, pod ∈ busy (engine ex_submitting) ↔ ∃ t, t ∈ tasks ex_submitting ∧ op_pod (t_op t) = pod.
Proof.
  split; [vm_compute; reflexivity|].
  apply (one_active_operation_per_pod ex_contract ex_vault ex_backends ex_submitting).
  apply ex_submitting_reachable.
Defined.

(** C1: a write is in the journal before it is on the wire. While an execution waits for the pod's
    answer to its submission, the journal holds exactly that operation, SUBMITTED, with its
    attempt recorded; no cancellation, reconciliation or other request changes it meanwhile. *)
Theorem submission_is_durable_first {I} `{IntentType I} (validate_operation : Operation I → result unit)
    `{!OperationSchema validate_operation} (vault : Vault) (backends : gmap string (option string))
    (w : World I) (t : Task I) :
  reachable validate_operation vault backends w → t ∈ tasks w → t_pc t = PSubmit →
  get_operation (operation_id (t_op t)) (store (engine w)) = Ok (t_op t) ∧
  state (t_op t) = SUBMITTED ∧ attempts (t_op t) ≠ [].
Proof.
  intros [Hok _ _ _ Htasks]%reachable_ok Ht Hpc; [|done].
  rewrite Forall_forall in Htasks. specialize (Htasks t Ht). unfold task_ok in Htasks.
  rewrite Hpc in Htasks. destruct Htasks as [Hin Hst]. destruct (row_of _ _ _ _ _ _ Hok Hin) as [_ Hs].
  split; [by apply get_operation_elem; [apply Hok|]|]. split; [done|].
  apply Hs. rewrite Hst. set_solver.
Qed.

Lemma submission_is_durable_first_witness :
  length (tasks ex_submitting) = 1%nat ∧
  Forall (λ t, get_operation (operation_id (t_op t)) (store (engine ex_submitting)) = Ok (t_op t) ∧
               state (t_op t) = SUBMITTED ∧ attempts (t_op t) ≠ []) (tasks ex_submitting).
Proof.
  split; [vm_compute; reflexivity|]. apply Forall_forall. intros t Ht.
  pose proof ex_submitting_pc as Hpc. rewrite Forall_forall in Hpc.
  exact (submission_is_durable_first ex_contract ex_vault ex_backends ex_submitting t
           ex_submitting_reachable Ht (Hpc t Ht)).
Defined.

(** C3: what an outcome in the journal stands for. A row that says OBSERVED_APPLIED carries fresh and satisfied
    application evidence, and either a recorded attempt or the mark of an observation that found nothing to write; one
    that says CONFIG_COMMITTED carries validated transaction results; TIMED_OUT has its deadline elapsed. SUBMITTED,
    INDETERMINATE, CONFIG_COMMITTED, TIMED_OUT, FAILED and OWNERSHIP_CONFLICT all have a recorded attempt, and REQUESTED and
    VALIDATED have none. Of REJECTED and CANCELLED it says nothing. *)
Theorem outcomes_have_evidence {I} `{IntentType I} (validate_operation : Operation I → result unit)
    `{!OperationSchema validate_operation} (vault : Vault) (backends : gmap string (option string))
    (w : World I) (op : Operation I) :
  reachable validate_operation vault backends w → op ∈ rows (store (engine w)) →
  match state op with
  | REQUESTED | VALIDATED => attempts op = [] ∧ application_evidence op = None
  | SUBMITTED | INDETERMINATE => attempts op ≠ [] ∧ application_evidence op = None
  | CONFIG_COMMITTED => attempts op ≠ [] ∧ truthy_at "transaction_validated" (commit_evidence op) = true
  | OBSERVED_APPLIED => ∃ ev, application_evidence op = Some ev ∧
      truthy_at "fresh" ev = true ∧ truthy_at "predicate_satisfied" ev = true ∧
      (attempts op ≠ [] ∨ truthy_at "observed_noop" ev = true)
  | TIMED_OUT => attempts op ≠ [] ∧ deadline_elapsed op = true
  | FAILED | STATE_OWNERSHIP_CONFLICT => attempts op ≠ []
  | REJECTED | CANCELLED => True
  end.
Proof.
  intros [Hok _ _ _ _]%reachable_ok Hin; [|done]. destruct (row_of _ _ _ _ _ _ Hok Hin) as [_ Hs].
  destruct Hs as [_ Hun Hatt Hcc Huna Hap Hto].
  destruct (state op); auto; try (split; [|by auto]); auto; apply Hatt; by apply (bool_decide_unpack _).
Qed.

Lemma outcomes_have_evidence_witness :
  length (rows (store (engine ex_submitting))) = 1%nat ∧
  Forall (λ op, attempts op ≠ [] ∧ application_evidence op = None) (rows (store (engine ex_submitting))).
Proof.
  split; [vm_compute; reflexivity|]. apply Forall_forall. intros op Hop.
  pose proof (outcomes_have_evidence ex_contract ex_vault ex_backends ex_submitting op
    ex_submitting_reachable Hop) as Hev.
  pose proof ex_submitting_rows as Hst. rewrite Forall_forall in Hst. by rewrite (Hst op Hop) in Hev.
Defined.

(** C4: the journal's history. In one step of anything, a row of the journal keeps its identity
    (identifiers, intent, fingerprint, key, creation and deadline) and its state only moves along
    the table of transitions; the one exception is an execution that fails after its operation was
    cancelled, which turns CANCELLED into REJECTED. *)
Theorem journal_follows_lifecycle {I} `{IntentType I} (validate_operation : Operation I → result unit)
    `{!OperationSchema validate_operation} (vault : Vault) (backends : gmap string (option string))
    (w w' : World I) (o o' : Operation I) :
  reachable validate_operation vault backends w → step validate_operation vault backends w w' →
  o ∈ rows (store (engine w)) → o' ∈ rows (store (engine w')) → operation_id o' = operation_id o →
  identity o' = identity o ∧
  rtc (λ s t, t ∈ TRANSITIONS s ∨ (s = CANCELLED ∧ t = REJECTED)) (state o) (state o').
Proof.
  intros Hw%reachable_ok Hstep Ho Ho' Hid; [|done].
  destruct (step_inv _ _ _ w w' Hw Hstep) as [_ Hfrom].
  destruct (Hfrom o' Ho') as [(o1 & Ho1 & Hid1 & Hm)|Hnew].
  - assert (o1 = o) as ->.
    { apply (NoDup_fmap_eq operation_id (rows (store (engine w)))); try done; [apply Hw|].
      rewrite <- Hid. symmetry. by apply identity_id. }
    split; [done|]. clear -Hm. induction Hm as [|s1 s2 s3 [->|Hm] _ IH]; [done|done|by eapply rtc_l].
  - destruct Hnew. rewrite Hid. by apply list_elem_of_fmap_2.
Qed.

Lemma journal_follows_lifecycle_witness :
  Forall (λ o, Forall (λ o', operation_id o' = operation_id o → identity o' = identity o)
                 (rows (store (engine ex_submitting)))) (rows (store (engine ex_planned))) ∧
  state <$> rows (store (engine ex_planned)) = [REQUESTED] ∧
  state <$> rows (store (engine ex_submitting)) = [SUBMITTED].
Proof.
  split; [|split; vm_compute; reflexivity].
  assert (Hstep : ex_step ex_planned ex_submitting).
  { apply ex_reply_step; [later|vm_compute; exact Logic.I]. }
  apply Forall_forall. intros o Ho. apply Forall_forall. intros o' Ho' Hid.
  apply (journal_follows_lifecycle ex_contract ex_vault ex_backends ex_planned ex_submitting o o'
    ex_planned_reachable Hstep Ho Ho' Hid).
Defined.

(** C5: after a restart nothing is sent twice. Recovery always completes; every operation that was
    possibly sent is INDETERMINATE and waits for an observation, every one that was only validated
    and every unsent request of a WSC exchange is CANCELLED, and every other keeps its state: no
    row is left SUBMITTED or VALIDATED. *)
Theorem recovery_resubmits_nothing {I} `{IntentType I} (validate_operation : Operation I → result unit)
    `{!OperationSchema validate_operation} (vault : Vault) (backends : gmap string (option string))
    (w : World I) (pid : string) (clk : Clock) :
  reachable validate_operation vault backends w → pid ≠ "" →
  ∃ e, recover validate_operation clk (new_process pid (store (engine w))) = (Ok tt, e) ∧
    operation_id <$> rows (store e) = operation_id <$> rows (store (engine w)) ∧
    (∀ o o', o ∈ rows (store (engine w)) → o' ∈ rows (store e) → operation_id o' = operation_id o →
       identity o' = identity o ∧ state o' = recovered_state o) ∧
    (∀ o', o' ∈ rows (store e) → state o' ≠ SUBMITTED ∧ state o' ≠ VALIDATED).
Proof.
  intros Hw%reachable_ok Hpid; [|done]. set (e0 := new_process pid (store (engine w))).
  assert (Hok : engine_ok validate_operation backends None (monotonic clk) e0)
    by (destruct (ok_engine _ _ _ Hw); by split).
  destruct (recover_loop validate_operation backends None (monotonic clk) clk (rows (store e0)) e0)
    as (e & Hrun & Hed & Hall); [done|done|apply Hok|done|].
  exists e. split; [done|].
  assert (Hok' := edits_ok _ _ _ _ _ _ _ Hok Hed).
  assert (Hids : operation_id <$> rows (store e) = operation_id <$> rows (store e0)).
  { eapply edits_ids; [apply Hok|exact Hed]. }
  assert (Hsame : ∀ o o', o ∈ rows (store e0) → o' ∈ rows (store e) → operation_id o' = operation_id o →
    identity o' = identity o ∧ state o' = recovered_state o).
  { intros o o' Ho Ho' Hid. destruct (Hall o Ho) as (o1 & Ho1 & Hid1 & Hst1).
    assert (o' = o1) as ->; [|done].
    apply (NoDup_fmap_eq operation_id (rows (store e))); try done; [apply Hok'|].
    rewrite Hid. symmetry. by apply identity_id. }
  split; [done|]. split; [done|]. intros o' Ho'.
  assert (Hin : operation_id o' ∈ operation_id <$> rows (store e0))
    by (rewrite <- Hids; by apply list_elem_of_fmap_2).
  apply list_elem_of_fmap in Hin as (o & Hid & Ho). destruct (Hsame o o' Ho Ho' Hid) as [_ ->].
  unfold recovered_state. destruct (_ && _); [done|]. by destruct (state o).
Qed.

Lemma recovery_resubmits_nothing_witness :
  ∃ e, recover ex_contract (ex_clock 0) (new_process "process-2" (store (engine ex_submitting))) = (Ok tt, e) ∧
    (∀ o', o' ∈ rows (store e) → state o' ≠ SUBMITTED ∧ state o' ≠ VALIDATED).
Proof.
  destruct (recovery_resubmits_nothing ex_contract ex_vault ex_backends ex_submitting "process-2"
    (ex_clock 0) ex_submitting_reachable) as (e & Hrun & _ & _ & Hnone); [discriminate|].
  exists e. split; [exact Hrun|exact Hnone].
Defined.


Definition ex_answer : result (Operation Intent) * Engine Intent :=
  request_internal ex_contract ex_vault ex_backends (ex_clock 1) "op-1" example_intent "lab" "key-1"
    "run-1" 30000 "semantic" None (engine ex_initial).


(** C8: the execution of an operation that was cancelled meanwhile may still overwrite the
    cancellation: in a reachable run the journal row of one operation goes from CANCELLED to
    REJECTED, which is no transition of the lifecycle. *)
Theorem cancellation_overwritten :
  ∃ w w' : World Intent, ex_reachable w ∧ ex_step w w' ∧
    (state <$> rows (store (engine w))) = [CANCELLED] ∧
    (state <$> rows (store (engine w'))) = [REJECTED] ∧
    (operation_id <$> rows (store (engine w'))) = (operation_id <$> rows (store (engine w))) ∧
    REJECTED ∉ TRANSITIONS CANCELLED.
Proof.
  exists (ex_cancel "op-1" 3 ex_started),
    (ex_reply (RPlan (RaisedEmosa (mkEmosaError NOT_READY "no session"))) 4 (ex_cancel "op-1" 3 ex_started)).
  split.
  { apply (reachable_step ex_started); [apply ex_started_reachable|].
    apply (step_cancel _ _ _ ex_started (ex_clock 3) "op-1"). later. }
  split; [apply ex_reply_step; [later|vm_compute; exact Logic.I]|].
  do 3 (split; [vm_compute; reflexivity|]). apply not_elem_of_nil.
Qed.
