(* ===== verification/EngineLiveness.v ===== *)
(** * What reconciliation achieves: an operation does not stay active past its deadline

    Reconciliation of [Engine] is total on the journals a run can reach, and the first one after the
    deadline with a ready snapshot of the pod settles a committed or possibly sent operation, so that
    it no longer holds its pod. *)

From S2P Require Import Prelude Lifecycle Store Engine EngineSafety.

Section Liveness.
Context {I : Type} `{IntentType I}.
Variable validate_operation : Operation I → result unit.
Variable vault : Vault.
Variable backends : gmap string (option string).
Context `{!OperationSchema validate_operation}.
Implicit Types (op : Operation I) (e : Engine I).

(** The working copy [op'] differs from [op] in members the schema does not constrain. *)
Definition same_members op op' : Prop :=
  identity op' = identity op ∧ attempts op' = attempts op ∧ commit_evidence op' = commit_evidence op ∧
  timings op' = timings op.

#[local] Instance same_members_refl : PreOrder same_members.
Proof. split; [done|]. intros x y z (?&?&?&?) (?&?&?&?). unfold same_members. intuition congruence. Qed.

(** A call that touches neither the rows nor the deadlines. *)
Definition still e e' : Prop := quiet e e' ∧ deadlines e' = deadlines e.

#[local] Instance still_preorder : PreOrder still.
Proof. split; [done|]. intros x y z [? ?] [? ?]. split; [by etrans|congruence]. Qed.

(** ** The parts of the loop body *)

Lemma elapse_run op :
  row_shape backends op →
  ∃ op1 c, elapse op = Ok (op1, c) ∧ same_members op op1 ∧ application_evidence op1 = application_evidence op ∧
    (state op = CONFIG_COMMITTED → state op1 = TIMED_OUT ∧ c = true) ∧
    (state op = INDETERMINATE → state op1 = INDETERMINATE ∧ deadline_elapsed op1 = true) ∧
    (state op ∉ [CONFIG_COMMITTED; INDETERMINATE] → op1 = op).
Proof.
  intros Hs. unfold elapse. case_bool_decide as Hst; [|eexists _, _; split; [done|]; set_solver].
  set (op1 := if negb (deadline_elapsed op) then _ else op).
  assert (H1 : same_members op op1 ∧ application_evidence op1 = application_evidence op ∧ state op1 = state op ∧
    deadline_elapsed op1 = true) by (unfold op1; destruct (deadline_elapsed op) eqn:Hd; done).
  clearbody op1. destruct H1 as (Hm & Ha & Hst1 & Hd). case_bool_decide as Hcc.
  - assert (Ht : transition op1 TIMED_OUT ∅ = Ok (op1 <| state := TIMED_OUT |>)).
    { apply transition_Ok. split; [done|]. split; [rewrite Hcc; table|]. done. }
    rewrite Ht. cbn [mbind result_mbind]. eexists _, _. split; [reflexivity|]. split; [done|]. split; [done|].
    rewrite Hst1 in Hcc. split; [|split; [congruence|rewrite Hcc; set_solver]]. intros _. split; [done|].
    rewrite (row_in_time _ _ Hs); [done|rewrite Hcc; set_solver].
  - eexists _, _. split; [reflexivity|]. split; [done|]. split; [done|]. rewrite Hst1 in Hcc.
    split; [done|]. split; [by rewrite Hst1|]. destruct Hst as [E|E]; [done|]. rewrite E. set_solver.
Qed.

Lemma give_up_run snap target op c :
  ∃ op2 c2, give_up_waiting snap target op c = Ok (op2, c2) ∧ same_members op op2 ∧
    application_evidence op2 = application_evidence op ∧ (c = true → c2 = true) ∧
    (state op ≠ INDETERMINATE → op2 = op) ∧
    (ready snap = true → state op = INDETERMINATE → deadline_elapsed op = true →
       matches (config snap) target && fresh (observed snap) && satisfies (observed snap) target = false →
       state op2 = TIMED_OUT ∧ c2 = true) ∧
    (state op2 = state op ∨ state op2 = TIMED_OUT).
Proof.
  unfold give_up_waiting. destruct (_ && _ && _ && _) eqn:E.
  - bools. assert (Ht : transition op TIMED_OUT ∅ = Ok (op <| state := TIMED_OUT |>)).
    { apply transition_Ok. split; [done|]. split; [|done].
      match goal with E : state op = _ |- _ => rewrite E end. table. }
    rewrite Ht. cbn [mbind result_mbind]. eexists _, _. split; [reflexivity|]. repeat (split; [done|]). by right.
  - eexists _, _. split; [reflexivity|]. do 4 (split; [done|]). split; [|by left]. intros Hr Hi Hd Hm. exfalso.
    rewrite Hr, Hm, Hd, (bool_decide_eq_true_2 (state op = INDETERMINATE)) in E by done. done.
Qed.

Lemma evidence_truthy snap :
  fresh (observed snap) = true →
  truthy_at "fresh" (evidence_of snap ∅) = true ∧ truthy_at "predicate_satisfied" (evidence_of snap ∅) = true.
Proof.
  intros Hf. unfold evidence_of, truthy_at. rewrite Hf. rewrite (left_id_L ∅ (∪)).
  destruct (instance snap); [|done]. destruct (_ && _); [|done]. by rewrite !lookup_insert_ne.
Qed.

(** The states that reach the judgement, with their application evidence. *)
Definition judged op : Prop :=
  state op ∈ [CONFIG_COMMITTED; INDETERMINATE; TIMED_OUT] ∨
  (state op = OBSERVED_APPLIED ∧ application_evidence op ≠ None).

Lemma applied_run snap op e :
  judged op → fresh (observed snap) = true → application_evidence op = None →
  is_Some (commit_evidence op !! "attribution") →
  let op1 := op <| application_evidence := Some (evidence_of snap ∅) |> in
  let op1 := if deadline_elapsed op1 then op1 <| late_resolution := Some "applied_after_deadline" |> else op1 in
  ∃ op2, (op ← (if bool_decide (state op1 = TIMED_OUT) then mret op1
                else lift (transition op1 OBSERVED_APPLIED (evidence_of snap ∅)));
          unknown ← lift (attribution_unknown op);
          mret (if unknown : bool
                then op <| application_evidence :=
                       Some (<["attribution" := VStr "current_condition_only"]> (evidence_of snap ∅)) |>
                else op <| reason := if deadline_elapsed op then reason_of APPLY_TIMEOUT else None |>, true)) e
         = (Ok (op2, true), e) ∧ same_members op op2 ∧
    state op2 = (if bool_decide (state op = TIMED_OUT) then TIMED_OUT else OBSERVED_APPLIED).
Proof.
  intros Hj Hf Ha [a Hattr] op0 op1.
  assert (H1 : same_members op op1 ∧ state op1 = state op)
    by (unfold op1; simpl; destruct (deadline_elapsed op) eqn:Hd; done).
  clearbody op1. destruct H1 as [Hm Hst]. rewrite Hst. unfold mbind, M_mbind, lift, mret, M_mret.
  assert (Hat : ∀ o, same_members op o → attribution_unknown o = Ok (bool_decide (a = VStr "unknown"))).
  { intros o (_ & _ & Hc & _). unfold attribution_unknown. by rewrite Hc, Hattr. }
  destruct (decide (state op = TIMED_OUT)) as [Ht|Ht];
    [rewrite !(bool_decide_eq_true_2 (state op = TIMED_OUT)) by done|rewrite !(bool_decide_eq_false_2 (state op = TIMED_OUT)) by done].
  - cbn beta iota. rewrite (Hat op1 Hm). eexists. split; [reflexivity|]. split; [by case_bool_decide|].
    rewrite <- Ht, <- Hst. by case_bool_decide.
  - assert (Htr : transition op1 OBSERVED_APPLIED (evidence_of snap ∅) = Ok (op1 <| state := OBSERVED_APPLIED |>)).
    { destruct (evidence_truthy snap Hf) as [? ?]. apply transition_Ok. split; [done|]. rewrite Hst.
      destruct Hj as [Hj|[_ ?]]; [|done]. rewrite !elem_of_cons, elem_of_nil in Hj.
      destruct Hj as [E|[E|[E|[]]]]; [| |done]; rewrite E; (split; [table|]); (split; [done|]); (split; [done|]); done. }
    rewrite Htr. cbn beta iota. rewrite (Hat (op1 <| state := OBSERVED_APPLIED |>)) by done. eexists. split; [reflexivity|].
    split; by case_bool_decide.
Qed.

Lemma judge_run pod snap target op c e :
  judged op → is_Some (commit_evidence op !! "attribution") →
  ∃ op2 c2 e2, judge backends pod snap target op c e = (Ok (op2, c2), e2) ∧ same_members op op2 ∧ still e e2 ∧
    (c = true → c2 = true) ∧ (state op = TIMED_OUT → state op2 = TIMED_OUT) ∧
    (ready snap = true → state op = INDETERMINATE → application_evidence op = None →
       matches (config snap) target && fresh (observed snap) && satisfies (observed snap) target = true →
       state op2 = OBSERVED_APPLIED ∧ c2 = true).
Proof.
  intros Hj Hattr. unfold judge.
  destruct (ready snap && fresh (observed snap)) eqn:Erf; cbn [negb].
  2:{ eexists _, _, _. split; [reflexivity|]. do 4 (split; [done|]). intros Hr _ _ Hm. rewrite Hr in Erf. simpl in Erf.
      rewrite Erf, andb_false_r in Hm. done. }
  apply andb_true_iff in Erf as [Hr Hf]. destruct (negb (matches (config snap) target) && _ && _ && _) eqn:Ec.
  - bools. assert (Hnm : matches (config snap) target = false) by done.
    unfold mbind at 1, M_mbind at 1, on_store, conflict, modify. cbn beta iota.
    assert (Ho : ∃ op1, (if bool_decide (state op = CONFIG_COMMITTED) then transition op STATE_OWNERSHIP_CONFLICT ∅
                         else Ok op) = Ok op1 ∧ same_members op op1 ∧ (state op = TIMED_OUT → state op1 = TIMED_OUT)).
    { case_bool_decide as Hcc; [|by eexists]. exists (op <| state := STATE_OWNERSHIP_CONFLICT |>).
      split; [apply transition_Ok; split; [done|]; split; [rewrite Hcc; table|done]|]. split; [done|]. congruence. }
    destruct Ho as (op1 & Ho & Hm & Hto).
    match goal with |- context [update store ?s e] => set (e1 := update store s e) end.
    assert (Hst : still e e1) by done.
    assert (Hm' : (if bool_decide (state op = CONFIG_COMMITTED) then lift (transition op STATE_OWNERSHIP_CONFLICT ∅)
                   else mret op) e1 = (Ok op1, e1)) by (revert Ho; case_bool_decide; unfold lift, mret, M_mret; congruence).
    unfold mbind, M_mbind. rewrite Hm'. clear Ho Hm'. cbn beta iota. case_bool_decide; eexists _, _, _; (split; [reflexivity|]);
      (do 4 (split; [done|])); intros _ _ _; rewrite Hnm; done.
  - clear Ec. destruct (matches (config snap) target && satisfies (observed snap) target
      && bool_decide (application_evidence op = None)) eqn:Ea.
    + bools. destruct (applied_run snap op e) as (op2 & Hrun & Hm & Hst); [done..|]. cbv zeta in Hrun.
      eexists op2, true, e. split; [exact Hrun|]. split; [done|]. split; [done|]. split; [done|].
      split; [intros Ht; rewrite Hst, bool_decide_eq_true_2; done|]. intros _ Hi _ _. split; [|done].
      rewrite Hst, bool_decide_eq_false_2; [done|]. congruence.
    + eexists _, _, _. split; [reflexivity|]. do 4 (split; [done|]). intros _ _ Han Hall. exfalso.
      apply andb_true_iff in Hall as [[Hm _]%andb_true_iff Hsat].
      rewrite Hm, Hsat, bool_decide_eq_true_2 in Ea by done. done.
Qed.

(** ** The loop body *)

Lemma save_deadlines clk op payload e :
  deadlines (save_op validate_operation clk op payload e).2 = deadlines e.
Proof.
  unfold save_op, mbind, M_mbind, get, on_store. simpl. by destruct (save _ _ _ _) as [[] ?].
Qed.

(** A working copy of a row is saved, under its identity and in its state. *)
Lemma save_run id t clk op op' payload e :
  engine_ok validate_operation backends id t e → t ≤ monotonic clk → op ∈ rows (store e) → same_members op op' →
  ∃ e', save_op validate_operation clk op' payload e = (Ok (touch clk e op'), e') ∧ deadlines e' = deadlines e ∧
    touch clk e op' ∈ rows (store e').
Proof.
  intros Hok Ht Hop (Hid & Hatt & Hce & Htm). destruct (row_of _ _ _ _ _ _ Hok Hop) as [Hv _].
  destruct (save_op_Ok validate_operation backends id t clk op op' payload e) as (e' & Hr & _ & Hrows & _);
    [done..|by left|done|].
  exists e'. split; [done|]. pose proof (save_deadlines clk op' payload e) as Hd. rewrite Hr in Hd. split; [done|].
  rewrite Hrows. apply update_row_elem. left. split; [done|]. exists op. split; [done|].
  rewrite touch_id. symmetry. by apply identity_id.
Qed.

(** [_expired] at that reading of the clocks. *)
Definition deadline_passed (clk : Clock) e op : Prop :=
  match deadlines e !! operation_id op with
  | Some d => d ≤ monotonic clk
  | None => deadline_at op ≤ utc clk
  end.

(** The row is settled by a transition of the table: it no longer holds its pod. *)
Definition settled op op' : Prop :=
  operation_id op' = operation_id op ∧ ACTIVE (state op') = false ∧ state op' ∈ TRANSITIONS (state op).

Lemma settle_restarted_run id t clk op current e :
  engine_ok validate_operation backends id t e → t ≤ monotonic clk → op ∈ rows (store e) →
  settle_restarted validate_operation clk op current e = (Ok false, e) ∨
  ∃ e' op', settle_restarted validate_operation clk op current e = (Ok true, e') ∧ deadlines e' = deadlines e ∧
    op' ∈ rows (store e') ∧ settled op op'.
Proof.
  intros Hok Ht Hop. unfold settle_restarted. case_bool_decide as Hst; cbn [negb]; [|by left].
  destruct (written_on_another_start op current); cbn [negb]; [|by left]. right.
  assert (Hin : FAILED ∈ TRANSITIONS (state op)) by (destruct Hst as [-> | ->]; table).
  assert (Htr : transition op FAILED ∅ = Ok (op <| state := FAILED |>)) by (apply transition_Ok; done).
  unfold mbind, M_mbind, lift. rewrite Htr.
  destruct (save_run id t clk op (op <| state := FAILED |> <| reason := reason_of NOT_READY |>)
    [("restarted", VDict [("instance", from_option VStr VNone current)])] e) as (e' & Hr & Hd & Hrow); [done..|].
  rewrite Hr. eexists e', _. split; [reflexivity|]. split; [done|]. split; [exact Hrow|].
  split; [by rewrite touch_id|]. by rewrite touch_state.
Qed.

Lemma expired_run clk op e :
  ∃ late e1, expired clk op e = (Ok late, e1) ∧ quiet e e1 ∧
    (∀ i, i ≠ operation_id op → deadlines e1 !! i = deadlines e !! i) ∧ (deadline_passed clk e op → late = true).
Proof.
  unfold expired, mbind, M_mbind, get, put, deadline_passed. eexists _, _. split; [reflexivity|]. split; [done|]. split.
  - intros i Hi. simpl. by rewrite lookup_insert_ne.
  - intros Hp. apply bool_decide_eq_true. destruct (deadlines e !! operation_id op); lia.
Qed.

(** The target of the operation is known: log, give up waiting, judge. *)
Lemma targeted_run clk pod snap target op op1 c1 e :
  judged op1 → is_Some (commit_evidence op1 !! "attribution") → same_members op op1 →
  ∃ op2 c2 e2, (_ ← log_observation clk pod snap op1 target;
                '(op, changed) ← lift (give_up_waiting snap target op1 c1);
                judge backends pod snap target op changed) e = (Ok (op2, c2), e2) ∧ same_members op op2 ∧ still e e2 ∧
    (state op1 = TIMED_OUT → c1 = true → state op2 = TIMED_OUT ∧ c2 = true) ∧
    (ready snap = true → state op1 = INDETERMINATE → deadline_elapsed op1 = true → application_evidence op1 = None →
       state op2 ∈ [TIMED_OUT; OBSERVED_APPLIED] ∧ c2 = true).
Proof.
  intros Hj Hattr Hm.
  assert (Hlog : ∃ e1, log_observation clk pod snap op1 target e = (Ok tt, e1) ∧ still e e1).
  { unfold log_observation, mbind, M_mbind, get, put, on_store, event, modify; simpl. case_bool_decide; eexists; done. }
  destruct Hlog as (e1 & Hl & Hs1).
  destruct (give_up_run snap target op1 c1) as (op2 & c2 & Hg & Hm2 & Ha2 & Hc2 & Hne & Hto & Hst2).
  destruct (judge_run pod snap target op2 c2 e1) as (op3 & c3 & e3 & Hjr & Hm3 & Hs3 & Hc3 & Hto3 & Hap3).
  { destruct Hst2 as [E|E]; [|left; rewrite E; table]. unfold judged. rewrite E, Ha2. exact Hj. }
  { destruct Hm2 as (_ & _ & -> & _). done. }
  exists op3, c3, e3. unfold mbind, M_mbind, lift. rewrite Hl, Hg. split; [exact Hjr|].
  split; [by etrans; [|etrans]|]. split; [by etrans|]. split.
  - intros Ht Hc. rewrite (Hne ltac:(congruence)) in Hto3. auto.
  - intros Hr Hi Hd Han.
    destruct (matches (config snap) target && fresh (observed snap) && satisfies (observed snap) target) eqn:Eall.
    + destruct Hst2 as [E|E].
      * rewrite E, Ha2 in *. destruct (Hap3 Hr Hi Han eq_refl) as [-> ->]. split; [table|done].
      * assert (Hno : give_up_waiting snap target op1 c1 = Ok (op1, c1))
          by (unfold give_up_waiting; by rewrite Eall, andb_false_r).
        rewrite Hno in Hg. injection Hg as <- <-. congruence.
    + destruct (Hto Hr Hi Hd eq_refl) as [Ht2 Hc]. rewrite (Hto3 Ht2), (Hc3 Hc). split; [table|done].
Qed.

(** The deadline: an operation that waited is marked, a committed one times out. *)
Lemma elapsed_run late op :
  row_shape backends op → followed op →
  ∃ op1 c1, (if late : bool then elapse op else Ok (op, false)) = Ok (op1, c1) ∧ same_members op op1 ∧
    application_evidence op1 = application_evidence op ∧ judged op1 ∧
    (late = true → (state op = CONFIG_COMMITTED → state op1 = TIMED_OUT ∧ c1 = true) ∧
      (state op = INDETERMINATE → state op1 = INDETERMINATE ∧ deadline_elapsed op1 = true)).
Proof.
  intros Hs Hf. unfold followed in Hf.
  assert (Hjop : judged op).
  { destruct (decide (state op = OBSERVED_APPLIED)) as [E|E]; [right|left; set_solver].
    split; [done|]. destruct (row_applied _ _ Hs E) as (ev & -> & _). done. }
  destruct late; [|by exists op, false]. destruct (elapse_run op Hs) as (op1 & c1 & He & Hm & Ha & Hcc & Hin & Hoth).
  exists op1, c1. split; [done|]. split; [done|]. split; [done|]. split; [|done].
  destruct (decide (state op = CONFIG_COMMITTED)) as [E|E]; [left; destruct (Hcc E) as [-> _]; table|].
  destruct (decide (state op = INDETERMINATE)) as [E'|E']; [left; destruct (Hin E') as [-> _]; table|].
  rewrite Hoth by set_solver. done.
Qed.

(** The loop body returns, and settles an operation whose deadline has passed. *)
Lemma reconcile_one_run id t clk pod snap op later e :
  engine_ok validate_operation backends id t e → t ≤ monotonic clk → op ∈ rows (store e) →
  ∃ e', reconcile_one validate_operation vault backends clk pod snap op later e = (Ok tt, e') ∧
    (∀ i, i ≠ operation_id op → deadlines e' !! i = deadlines e !! i) ∧
    (op_pod op = pod → state op ∈ [CONFIG_COMMITTED; INDETERMINATE] →
     existsb (λ p, bool_decide (op_pod p = pod) && RECONCILED (state p)) later = false →
     deadline_passed clk e op → ready snap = true → is_ok (i_target vault (intent op)) = true →
     ∃ op', op' ∈ rows (store e') ∧ settled op op').
Proof.
  intros Hok Ht Hop. destruct (row_of _ _ _ _ _ _ Hok Hop) as [Hv Hs]. unfold reconcile_one.
  destruct (_ || _ || _) eqn:Eg.
  { exists e. split; [done|]. split; [done|]. intros Hp Hst Hl. exfalso. rewrite Hl, bool_decide_eq_true_2 in Eg by done.
    rewrite bool_decide_eq_true_2 in Eg; [done|]. set_solver. }
  bools. unfold mbind at 1, M_mbind at 1.
  destruct (settle_restarted_run id t clk op (instance snap) e Hok Ht Hop) as [->|(e1 & op' & -> & Hd & Hrow & Hset)].
  2:{ exists e1. split; [done|]. split; [by rewrite Hd|]. intros. by exists op'. }
  destruct (expired_run clk op e) as (late & e1 & Hex & Hq1 & Hd1 & Hlate). unfold mbind at 1, M_mbind at 1. rewrite Hex.
  destruct (elapsed_run late op Hs) as (op1 & c1 & Hel & Hm1 & Ha1 & Hj1 & Hdue); [unfold followed; set_solver|].
  unfold mbind at 1, M_mbind at 1, lift at 1. rewrite Hel. cbn beta iota.
  replace (intent op1) with (intent op) by (destruct Hm1 as [Hid _]; unfold identity in Hid; congruence).
  match goal with |- context [(?m ≫= _) e1] => assert (Hmid : ∃ op2 c2 e2, m e1 = (Ok (op2, c2), e2) ∧ same_members op op2 ∧
    still e1 e2 ∧ (state op ∈ [CONFIG_COMMITTED; INDETERMINATE] → deadline_passed clk e op → ready snap = true →
      is_ok (i_target vault (intent op)) = true → state op2 ∈ [TIMED_OUT; OBSERVED_APPLIED] ∧ c2 = true)) end.
  { destruct (i_target vault (intent op)) as [target|err]; [|eexists _, _, _; split; [reflexivity|]; done].
    destruct (targeted_run clk pod snap target op op1 c1 e1) as (op2 & c2 & e2 & Hr & Hm2 & Hs2 & Hto & Hin); [done| |done|].
    { destruct Hm1 as (_ & _ & -> & _). by apply schema_attribution. }
    exists op2, c2, e2. split; [exact Hr|]. split; [done|]. split; [done|]. intros Hst Hp Hrd _.
    destruct (Hdue (Hlate Hp)) as [Hcc Hind]. destruct (decide (state op = CONFIG_COMMITTED)) as [E|E].
    - destruct (Hcc E) as [? ?]. destruct Hto as [-> ->]; [done..|]. split; [table|done].
    - assert (E' : state op = INDETERMINATE) by set_solver. destruct (Hind E') as [? ?]. apply Hin; try done.
      rewrite Ha1. apply (row_unapplied _ _ Hs). by rewrite E'. }
  destruct Hmid as (op2 & c2 & e2 & Hr & Hm2 & [Hq2 Hd2] & Hset). unfold mbind at 1, M_mbind at 1. rewrite Hr.
  assert (Hd : ∀ i, i ≠ operation_id op → deadlines e2 !! i = deadlines e !! i) by (intros i Hi; rewrite Hd2; by apply Hd1).
  destruct c2.
  2:{ exists e2. split; [done|]. split; [done|]. intros _ Hst _ Hp Hrd Hok'. by destruct (Hset Hst Hp Hrd Hok'). }
  assert (Hq : quiet e e2) by by etrans.
  destruct (save_run id t clk op op2 [("observation", observation_record (observed snap))] e2) as (e3 & Hsv & Hd3 & Hrow);
    [by eapply quiet_ok|done|by destruct Hq as [_ ->]|done|].
  unfold mbind, M_mbind. rewrite Hsv. exists e3. split; [done|]. split; [by rewrite Hd3|].
  intros _ Hst _ Hp Hrd Hok'. destruct (Hset Hst Hp Hrd Hok') as [Hin _]. eexists. split; [exact Hrow|].
  split; [rewrite touch_id; by apply identity_id, Hm2|]. rewrite touch_state.
  rewrite !elem_of_cons, elem_of_nil in Hin, Hst.
  destruct Hin as [->|[->|[]]], Hst as [->|[->|[]]]; (split; [done|table]).
Qed.
(** ** The loop *)

(** One turn on [op]: the rows and deadlines of other operations stay. *)
Lemma turn_run id t clk pod snap op later e :
  engine_ok validate_operation backends id t e → t ≤ monotonic clk → op ∈ rows (store e) →
  ∃ e', reconcile_one validate_operation vault backends clk pod snap op later e = (Ok tt, e') ∧
    engine_ok validate_operation backends id t e' ∧
    (∀ i, i ≠ operation_id op → deadlines e' !! i = deadlines e !! i) ∧
    (∀ o, o ∈ rows (store e) → operation_id o ≠ operation_id op → o ∈ rows (store e')).
Proof.
  intros Hok Ht Hop. destruct (reconcile_one_run id t clk pod snap op later e Hok Ht Hop) as (e' & Hr & Hd & _).
  pose proof (reconcile_one_edits validate_operation vault backends id t clk pod snap op later e Hok Hop) as Hed.
  rewrite Hr in Hed. exists e'. split; [done|]. split; [by eapply edits_ok|]. split; [done|].
  intros o Ho Hne. eapply edits_keep; [apply Hok|exact Hed|done|]. intros x [-> _] E. congruence.
Qed.

Lemma loop_run id t clk pod snap ops e :
  engine_ok validate_operation backends id t e → t ≤ monotonic clk → NoDup (operation_id <$> ops) →
  (∀ op, op ∈ ops → op ∈ rows (store e)) →
  ∃ e', for_tails (reconcile_one validate_operation vault backends clk pod snap) ops e = (Ok tt, e') ∧
    (∀ o, o ∈ rows (store e) → operation_id o ∉ operation_id <$> ops → o ∈ rows (store e')).
Proof.
  revert e. induction ops as [|op ops IH]; intros e Hok Ht Hn Hin; [by exists e|]. cbn [for_tails].
  apply NoDup_cons in Hn as [Hop Hn].
  destruct (turn_run id t clk pod snap op ops e Hok Ht) as (e1 & Hr & Hok1 & _ & Hk1); [apply Hin; left|].
  destruct (IH e1 Hok1 Ht Hn) as (e2 & Hr2 & Hk2).
  { intros o Ho. apply Hk1; [apply Hin; by right|]. intros E. apply Hop. rewrite <- E. by apply list_elem_of_fmap_2. }
  exists e2. unfold mbind, M_mbind. rewrite Hr. split; [done|]. intros o Ho Hni. simpl in Hni.
  apply not_elem_of_cons in Hni as [? ?]. apply Hk2; [|done]. by apply Hk1.
Qed.

Lemma loop_settles id t clk pod snap before op later e :
  engine_ok validate_operation backends id t e → t ≤ monotonic clk → NoDup (operation_id <$> before ++ op :: later) →
  (∀ o, o ∈ before ++ op :: later → o ∈ rows (store e)) →
  op_pod op = pod → state op ∈ [CONFIG_COMMITTED; INDETERMINATE] →
  existsb (λ p, bool_decide (op_pod p = pod) && RECONCILED (state p)) later = false →
  deadline_passed clk e op → ready snap = true → is_ok (i_target vault (intent op)) = true →
  ∃ e' op', for_tails (reconcile_one validate_operation vault backends clk pod snap) (before ++ op :: later) e = (Ok tt, e') ∧
    op' ∈ rows (store e') ∧ settled op op'.
Proof.
  intros Hok Ht Hn Hin Hp Hst Hl Hdue Hrd Htg. revert e Hok Hin Hdue.
  induction before as [|o before IH]; intros e Hok Hin Hdue; cbn [app for_tails] in *.
  - destruct (reconcile_one_run id t clk pod snap op later e Hok Ht) as (e1 & Hr & _ & Hset); [apply Hin; left|].
    destruct (Hset Hp Hst Hl Hdue Hrd Htg) as (op' & Hrow & Hs).
    destruct (turn_run id t clk pod snap op later e Hok Ht) as (e1' & Hr' & Hok1 & _ & Hk1); [apply Hin; left|].
    rewrite Hr in Hr'. injection Hr' as <-. apply NoDup_cons in Hn as [Hop Hn].
    destruct (loop_run id t clk pod snap later e1 Hok1 Ht Hn) as (e2 & Hr2 & Hk2).
    { intros x Hx. apply Hk1; [apply Hin; by right|]. intros E. apply Hop. rewrite <- E. by apply list_elem_of_fmap_2. }
    exists e2, op'. unfold mbind, M_mbind. rewrite Hr. split; [done|]. split; [|done]. apply Hk2; [done|].
    by destruct Hs as [-> _].
  - apply NoDup_cons in Hn as [Ho Hn]. fold (operation_id <$> before ++ op :: later) in Ho.
    destruct (turn_run id t clk pod snap o (before ++ op :: later) e Hok Ht) as (e1 & Hr & Hok1 & Hd1 & Hk1); [apply Hin; left|].
    assert (Hne : ∀ x, x ∈ before ++ op :: later → operation_id x ≠ operation_id o).
    { intros x Hx E. apply Ho. rewrite <- E. by apply list_elem_of_fmap_2. }
    destruct (IH Hn e1 Hok1) as (e2 & op' & Hr2 & Hrow & Hs).
    + intros x Hx. apply Hk1; [apply Hin; by right|by apply Hne].
    + unfold deadline_passed in *. rewrite Hd1; [done|]. apply Hne, elem_of_app. right. left.
    + exists e2, op'. unfold mbind, M_mbind. by rewrite Hr.
Qed.
End Liveness.

(** C7: an operation does not stay active past its deadline. In any state a run can reach, with any
    interleaving of requests, executions, cancellations and restarts before it: when the deadline of
    a committed or possibly sent operation has passed, no later operation of the pod owns its scope,
    and its target can be computed, the next reconciliation with a ready snapshot of the pod returns,
    whatever else is in the journal, and the operation's row has left the active states by a
    transition of the lifecycle: it is applied, timed out, failed or in conflict, and no longer keeps
    the pod busy. *)
Theorem deadline_settles {I} `{IntentType I} validate_operation vault backends `{!OperationSchema validate_operation}
    (w : World I) clk pod snap before op later :
  reachable validate_operation vault backends w → now w ≤ monotonic clk →
  rows (store (engine w)) = before ++ op :: later → op_pod op = pod → state op ∈ [CONFIG_COMMITTED; INDETERMINATE] →
  existsb (λ p, bool_decide (op_pod p = pod) && RECONCILED (state p)) later = false →
  deadline_passed clk (engine w) op → ready snap = true → is_ok (i_target vault (intent op)) = true →
  ∃ e' op', reconcile validate_operation vault backends clk pod snap (engine w) = (Ok snap, e') ∧
    op' ∈ rows (store e') ∧ settled op op'.
Proof.
  intros Hw Ht Hrows Hp Hst Hl Hdue Hrd Htg. apply reachable_ok in Hw; [|done]. pose proof (ok_engine _ _ _ Hw) as Hok.
  unfold reconcile, mbind, M_mbind. destruct (remember_quiet pod snap (engine w)) as (e1 & Hr & Hq). rewrite Hr.
  assert (Hd : deadlines e1 = deadlines (engine w)).
  { revert Hr. unfold remember. destruct (instance snap); [destruct (given _)|]; by intros [= <-]. }
  unfold get. destruct Hq as [Hf Hrq]. change (operations (store e1)) with (rows (store e1)).
  destruct (loop_settles validate_operation vault backends None (now w) clk pod snap before op later e1)
    as (e2 & op' & Hr2 & Hrow & Hs); try done.
  - eapply quiet_ok; [exact Hok|]. by split.
  - rewrite <- Hrows. apply (ok_store _ _ _ _ _ Hok).
  - intros o Ho. by rewrite Hrq, Hrows.
  - unfold deadline_passed in *. by rewrite Hd.
  - exists e2, op'. rewrite Hrq, Hrows, Hr2. done.
Qed.

(** The pod did not answer the submission. *)
Definition ex_lost : World Intent := ex_reply (RSubmit RaisedIO) 5 ex_submitting.

Lemma ex_lost_reachable : reachable ex_contract ex_vault ex_backends ex_lost.
Proof.
  apply (reachable_step ex_submitting); [apply ex_submitting_reachable|].
  apply ex_reply_step; [later|vm_compute; exact Logic.I].
Qed.

(** Its only row is of an operation that is possibly sent, and due. *)
Definition ex_due (w : World Intent) (t : Z) : bool :=
  match rows (store (engine w)) with
  | [op] => bool_decide (op_pod op = "pod-1") && bool_decide (state op = INDETERMINATE)
            && bool_decide (default (deadline_at op) (deadlines (engine w) !! operation_id op) ≤ t)
            && is_ok (i_target ex_vault (intent op))
  | _ => false
  end.

Lemma ex_lost_row :
  ∃ op, rows (store (engine ex_lost)) = [op] ∧ op_pod op = "pod-1" ∧ state op = INDETERMINATE ∧
    deadline_passed (ex_clock 40000) (engine ex_lost) op ∧ is_ok (i_target ex_vault (intent op)) = true.
Proof.
  assert (E : ex_due ex_lost 40000 = true) by (vm_compute; reflexivity). revert E. unfold ex_due.
  destruct (rows _) as [|op [|]]; [done| |done]. intros E. bools. exists op. split; [done|]. split; [done|]. split; [done|].
  split; [|done]. unfold deadline_passed. by destruct (deadlines _ !! _).
Qed.

Lemma deadline_settles_witness :
  ∃ op e' op', rows (store (engine ex_lost)) = [op] ∧ state op = INDETERMINATE ∧
    reconcile ex_contract ex_vault ex_backends (ex_clock 40000) "pod-1" (ex_snapshot None) (engine ex_lost)
      = (Ok (ex_snapshot None), e') ∧ op' ∈ rows (store e') ∧ settled op op'.
Proof.
  destruct ex_lost_row as (op & Hrows & Hp & Hst & Hd & Htg).
  destruct (deadline_settles ex_contract ex_vault ex_backends ex_lost (ex_clock 40000) "pod-1" (ex_snapshot None) [] op [])
    as (e' & op' & Hr & Hrow & Hs);
    [apply ex_lost_reachable|later|exact Hrows|exact Hp|rewrite Hst; table|reflexivity|exact Hd|reflexivity|exact Htg|].
  exists op, e', op'. split; [exact Hrows|]. split; [exact Hst|]. split; [exact Hr|]. split; [exact Hrow|exact Hs].
Defined.
