(* ===== verification/Payloads.v ===== *)
(** * EasyMesh TLV values: [src/emosa/easymesh_payloads.py]

    The eighteen value types with their encoder and tolerant decoder, the IEEE HE MCS field
    ([src/emosa/he_mcs.py]) and the audited operating classes ([src/emosa/operating_classes.py]).
    An [int] field is a [Z] (its range is checked where the code checks it), a [bytes] field an
    octet string, a [tuple] a list; the checks of dynamic types hold by typing. *)

From S2P Require Import Prelude Bytes.

Definition MAX_VALUE_BYTES : Z := 16384.

Definition invalid_value : EmosaError := mkEmosaError INVALID_INPUT "invalid EasyMesh TLV value".

(** ** The audited operating classes *)

Definition range (lo hi : Z) : list Z := seqZ lo (hi - lo).

Definition GLOBAL_OPERATING_CLASSES (c : Z) : option (string * list Z) :=
  if bool_decide (c = 81) then Some ("2.4G", range 1 14)
  else if bool_decide (c = 82) then Some ("2.4G", [14])
  else if bool_decide (c = 83) then Some ("2.4G", range 1 10)
  else if bool_decide (c = 84) then Some ("2.4G", range 5 14)
  else if bool_decide (c = 115) then Some ("5G", [36; 40; 44; 48])
  else if bool_decide (c = 116) then Some ("5G", [36; 44])
  else if bool_decide (c = 117) then Some ("5G", [40; 48])
  else if bool_decide (c = 124) then Some ("5G", [149; 153; 157; 161])
  else if bool_decide (c = 125) then Some ("5G", [149; 153; 157; 161; 165; 169; 173; 177])
  else if bool_decide (c = 128) then Some ("5G", [42; 58; 106; 122; 138; 155; 171])
  else None.

Definition CENTER_CHANNEL_CLASSES : list Z := [128].

(** ** The HE MCS field *)

Record HEMCSPair := mkHEMCSPair { rx : list Z; tx : list Z }.
Record HESupportedMCS := mkHESupportedMCS {
  up_to_80 : HEMCSPair;
  mhz160 : option HEMCSPair;
  mhz80plus80 : option HEMCSPair
}.

Definition invalid_mcs : EmosaError := mkEmosaError INVALID_INPUT "invalid supported HE MCS field".

(** [sum(code << (2 * n) for n, code in enumerate(codes))], from index [n] on. *)
Fixpoint sum_codes (n : Z) (codes : list Z) : Z :=
  match codes with
  | [] => 0
  | code :: codes => Z.shiftl code (2 * n) + sum_codes (n + 1) codes
  end.

(** [_map_bytes] *)
Definition map_bytes (codes : list Z) : result bytes :=
  if negb (bool_decide (length codes = 8%nat)) then Raise invalid_mcs
  else if existsb (λ code, negb (bool_decide (0 ≤ code ≤ 3))) codes then Raise invalid_mcs
  else Ok (le_bytes 2 (sum_codes 0 codes)).

(** [encode_he_mcs] *)
Definition encode_he_mcs (value : HESupportedMCS) : result bytes :=
  fold_result (λ acc pair,
    match pair with
    | None => Ok acc
    | Some p => r ← map_bytes (rx p); t ← map_bytes (tx p); Ok (acc ++ r ++ t)
    end) [] [Some (up_to_80 value); mhz160 value; mhz80plus80 value].

(** The eight two-bit codes of a map. *)
Definition codes_of (map : Z) : list Z :=
  (λ n : nat, Z.land (Z.shiftr map (2 * Z.of_nat n)) 3) <$> seq 0 8.

(** The pair at an offset of the field. *)
Definition pair_at (value : bytes) (offset : nat) : HEMCSPair :=
  mkHEMCSPair (codes_of (le_int (slice offset (offset + 2) value)))
              (codes_of (le_int (slice (offset + 2) (offset + 4) value))).

(** [decode_he_mcs] *)
Definition decode_he_mcs (value : bytes) (he160 he8080 : bool) : result HESupportedMCS :=
  if negb (bool_decide (len value = 4 + 4 * Z.b2z he160 + 4 * Z.b2z he8080)) then Raise invalid_mcs
  else
    let pairs := pair_at value <$> ((λ i, 4 * i)%nat <$> seq 0 (length value / 4)) in
    match pairs with
    | [] => Raise invalid_mcs
    | first :: _ =>
        Ok (mkHESupportedMCS first
              (if he160 then pairs !! 1%nat else None)
              (if he8080 then last pairs else None))
    end.

(** ** The values *)

Record OperationalBss := mkOperationalBss { ap_mac : bytes; ob_ssid : bytes }.
Record OperationalRadio := mkOperationalRadio { or_ruid : bytes; or_bsses : list OperationalBss }.
Record ConfiguredBss := mkConfiguredBss { cb_bssid : bytes; cb_flags : Z; cb_ssid : bytes }.
Record ConfiguredRadio := mkConfiguredRadio { cr_ruid : bytes; cr_bsses : list ConfiguredBss }.
Record AssociatedClient := mkAssociatedClient { c_mac : bytes; association_seconds : Z }.
Record BssClients := mkBssClients { bc_bssid : bytes; clients : list AssociatedClient }.
Record BasicOperatingClass := mkBasicOperatingClass {
  operating_class : Z;
  max_eirp_dbm : Z;
  non_operable_channels : list Z
}.
Record Wifi6Role := mkWifi6Role {
  w_role : Z;
  w_mcs : HESupportedMCS;
  beamforming_flags : Z;
  mu_mimo_users : Z;
  max_dl_ofdma_tx : Z;
  max_ul_ofdma_rx : Z;
  w_feature_flags : Z
}.
Record InventoryRadio := mkInventoryRadio { ir_ruid : bytes; chipset_vendor : bytes }.

Inductive Payload :=
  | SupportedServices (services : list Z)
  | SearchedServices (services : list Z)
  | RadioIdentifier (ruid : bytes)
  | APOperationalBss (radios : list OperationalRadio)
  | APRadioBasicCapabilities (ruid : bytes) (max_bss : Z) (operating_classes : list BasicOperatingClass)
  | APHTCapabilities (ruid : bytes) (flags : Z)
  | APVHTCapabilities (ruid : bytes) (tx_mcs rx_mcs stream_flags feature_flags : Z)
  | APHECapabilities (ruid mcs : bytes) (stream_flags feature_flags : Z)
  | APWifi6Capabilities (ruid : bytes) (roles : list Wifi6Role)
  | DeviceInventory (serial_number software_version execution_env : bytes) (radios : list InventoryRadio)
  | APCapability (flags : Z)
  | Profile2APCapability (max_prioritization_rules reserved_octet flags max_vids : Z)
  | APRadioAdvancedCapabilities (ruid : bytes) (flags : Z)
  | MultiAPProfile (profile : Z)
  | BssConfigurationReport (radios : list ConfiguredRadio)
  | AssociatedClients (bsses : list BssClients)
  | AKMSuiteCapabilities (backhaul fronthaul : list bytes)
  | SupportedCipherSuites (selectors : list bytes).

(** The [kind] of each class. *)
Definition kind (p : Payload) : Z :=
  match p with
  | SupportedServices _ => 0x80
  | SearchedServices _ => 0x81
  | RadioIdentifier _ => 0x82
  | APOperationalBss _ => 0x83
  | AssociatedClients _ => 0x84
  | APRadioBasicCapabilities _ _ _ => 0x85
  | APHTCapabilities _ _ => 0x86
  | APVHTCapabilities _ _ _ _ _ => 0x87
  | APHECapabilities _ _ _ _ => 0x88
  | APCapability _ => 0xA1
  | APWifi6Capabilities _ _ => 0xAA
  | MultiAPProfile _ => 0xB3
  | Profile2APCapability _ _ _ _ => 0xB4
  | BssConfigurationReport _ => 0xB7
  | APRadioAdvancedCapabilities _ _ => 0xBE
  | AKMSuiteCapabilities _ _ => 0xCC
  | DeviceInventory _ _ _ _ => 0xD4
  | SupportedCipherSuites _ => 0xED
  end.

(** [SupportedServices.known_services], [SearchedServices.known_services] *)
Definition supported_known (services : list Z) : list Z := filter (λ s, s ∈ [0; 1]) services.
Definition searched_known (services : list Z) : list Z := filter (λ s, s = 0) services.

(** [Profile2APCapability.byte_counter_units] *)
Definition byte_counter_units (flags : Z) : Z := Z.land (Z.shiftr flags 6) 3.

(** [MultiAPProfile.effective_profile] *)
Definition effective_profile (profile receiver_profile : Z) : result Z :=
  if negb (bool_decide (0 ≤ profile ≤ 255)) then Raise invalid_value
  else if negb (bool_decide (receiver_profile ∈ [1; 2; 3])) then Raise invalid_value
  else Ok (if bool_decide (profile ∈ [1; 2; 3]) then profile else receiver_profile).

(** ** Decoding *)

Definition read (n : Z) : M Reader bytes := take_or invalid_value (Z.to_nat n).
Definition octet : M Reader Z := octet_or invalid_value.
Definition u16 : M Reader Z := b ← read 2; mret (be_int b).
Definition reject_if (b : bool) : M Reader unit := lift (if b then Raise invalid_value else Ok tt).

(** [_Reader.ssid], [_Reader.inventory_string] *)
Definition bounded_string (limit : Z) : M Reader bytes :=
  length ← octet; _ ← reject_if (bool_decide (limit < length)); read length.
Definition ssid : M Reader bytes := bounded_string 32.
Definition inventory_string : M Reader bytes := bounded_string 64.

(** [tuple(m for _ in range(n))] *)
Definition times {A} (n : Z) (m : M Reader A) : M Reader (list A) := repeat_M (Z.to_nat n) m.

(** A counted tuple: [tuple(m for _ in range(reader.octet()))] *)
Definition counted {A} (m : M Reader A) : M Reader (list A) := n ← octet; times n m.

Definition octet_tuple : M Reader (list Z) := n ← octet; b ← read n; mret (byte_to_Z <$> b).

Definition read_client : M Reader AssociatedClient :=
  m ← read 6; s ← u16; mret (mkAssociatedClient m s).
Definition read_bss_clients : M Reader BssClients :=
  bssid ← read 6; count ← u16; cs ← times count read_client; mret (mkBssClients bssid cs).
Definition read_configured_bss : M Reader ConfiguredBss :=
  bssid ← read 6; f ← octet; _ ← octet; s ← ssid; mret (mkConfiguredBss bssid (Z.land f 0xFC) s).
Definition read_configured_radio : M Reader ConfiguredRadio :=
  ruid ← read 6; bsses ← counted read_configured_bss; mret (mkConfiguredRadio ruid bsses).
Definition read_operational_bss : M Reader OperationalBss :=
  m ← read 6; s ← ssid; mret (mkOperationalBss m s).
Definition read_operational_radio : M Reader OperationalRadio :=
  ruid ← read 6; bsses ← counted read_operational_bss; mret (mkOperationalRadio ruid bsses).
Definition read_inventory_radio : M Reader InventoryRadio :=
  ruid ← read 6; v ← inventory_string; mret (mkInventoryRadio ruid v).
Definition read_basic_class : M Reader BasicOperatingClass :=
  identifier ← octet; power ← read 1; channels ← octet_tuple;
  mret (mkBasicOperatingClass identifier (from_option octet_signed 0 (head power)) channels).
Definition read_wifi6_role : M Reader Wifi6Role :=
  flags ← octet;
  field ← read (Z.land flags 15);
  m ← lift (decode_he_mcs field (bool_decide (Z.land flags 32 ≠ 0)) (bool_decide (Z.land flags 16 ≠ 0)));
  a ← octet; b ← octet; c ← octet; d ← octet; e ← octet;
  mret (mkWifi6Role (Z.shiftr flags 6) m a b c d e).

(** The [match kind] of [decode_value]. *)
Definition decode_body (k : Z) : M Reader Payload :=
  if bool_decide (k = 0xCC) then
    backhaul ← counted (read 4); fronthaul ← counted (read 4); mret (AKMSuiteCapabilities backhaul fronthaul)
  else if bool_decide (k = 0xED) then s ← counted (read 4); mret (SupportedCipherSuites s)
  else if bool_decide (k = 0x84) then b ← counted read_bss_clients; mret (AssociatedClients b)
  else if bool_decide (k = 0xB7) then r ← counted read_configured_radio; mret (BssConfigurationReport r)
  else if bool_decide (k = 0x80) then s ← octet_tuple; mret (SupportedServices s)
  else if bool_decide (k = 0x81) then s ← octet_tuple; mret (SearchedServices s)
  else if bool_decide (k = 0x82) then r ← read 6; mret (RadioIdentifier r)
  else if bool_decide (k = 0x83) then r ← counted read_operational_radio; mret (APOperationalBss r)
  else if bool_decide (k = 0xB3) then p ← octet; mret (MultiAPProfile p)
  else if bool_decide (k = 0xA1) then f ← octet; mret (APCapability f)
  else if bool_decide (k = 0xB4) then
    a ← octet; b ← octet; c ← octet; d ← octet; mret (Profile2APCapability a b c d)
  else if bool_decide (k = 0xBE) then r ← read 6; f ← octet; mret (APRadioAdvancedCapabilities r f)
  else if bool_decide (k = 0x86) then r ← read 6; f ← octet; mret (APHTCapabilities r f)
  else if bool_decide (k = 0x87) then
    r ← read 6; t ← u16; x ← u16; s ← octet; f ← octet; mret (APVHTCapabilities r t x s f)
  else if bool_decide (k = 0x88) then
    r ← read 6; length ← octet; _ ← reject_if (negb (bool_decide (length ∈ [4; 8; 12])));
    m ← read length; s ← octet; f ← octet; mret (APHECapabilities r m s f)
  else if bool_decide (k = 0xAA) then
    r ← read 6; roles ← counted read_wifi6_role; mret (APWifi6Capabilities r roles)
  else if bool_decide (k = 0xD4) then
    serial ← inventory_string; version ← inventory_string; env ← inventory_string;
    count ← octet; _ ← reject_if (bool_decide (count = 0));
    radios ← times count read_inventory_radio; mret (DeviceInventory serial version env radios)
  else if bool_decide (k = 0x85) then
    r ← read 6; max_bss ← octet; _ ← reject_if (bool_decide (max_bss = 0));
    classes ← counted read_basic_class; mret (APRadioBasicCapabilities r max_bss classes)
  else raise UNSUPPORTED_OPERATION "EasyMesh value type is not implemented".

(** [_bounded] *)
Definition bounded (value : bytes) : result bytes :=
  if bool_decide (MAX_VALUE_BYTES < len value) then
    Raise (mkEmosaError UNSUPPORTED_OPERATION "EasyMesh value exceeds local byte budget")
  else Ok value.

(** [decode_value(kind, value)] *)
Definition decode_value (k : Z) (value : bytes) : result Payload :=
  if negb (bool_decide (0 ≤ k ≤ 255)) then Raise invalid_value
  else
    value ← bounded value;
    ((p ← decode_body k; _ ← finish_or invalid_value; mret p) (mkReader value 0)).1.

(** ** Encoding *)

(** [_octet], [_u16], [_octets(length=n)], [_count], [_inventory_string] *)
Definition enc_octet (z : Z) : result bytes :=
  if bool_decide (0 ≤ z ≤ 255) then Ok [Z_to_byte z] else Raise invalid_value.
Definition enc_u16 (z : Z) : result bytes :=
  if bool_decide (0 ≤ z ≤ 65535) then Ok (be_bytes 2 z) else Raise invalid_value.
Definition enc_octets (n : nat) (b : bytes) : result bytes :=
  if bool_decide (length b = n) then Ok b else Raise invalid_value.
Definition enc_count {A} (l : list A) : result bytes := enc_octet (len l).
Definition enc_inventory_string (b : bytes) : result bytes :=
  if bool_decide (64 < len b) then Raise invalid_value
  else c ← enc_octet (len b); Ok (c ++ b).
Definition refuse_if (b : bool) : result unit := if b then Raise invalid_value else Ok tt.

(** [b"".join(...)] over one list of selectors. *)
Definition enc_selectors (l : list bytes) : result bytes :=
  c ← enc_count l; s ← map_result (enc_octets 4) l; Ok (c ++ concat s).

(** The loops over an accumulated [bytearray]. *)
Definition extend_client (value : bytes) (c : AssociatedClient) : result bytes :=
  _ ← refuse_if (bool_decide (association_seconds c < 0));
  m ← enc_octets 6 (c_mac c);
  s ← enc_u16 (Z.min (association_seconds c) 65535);
  bounded (value ++ m ++ s).
Definition extend_bss_clients (value : bytes) (b : BssClients) : result bytes :=
  m ← enc_octets 6 (bc_bssid b); n ← enc_u16 (len (clients b));
  fold_result extend_client (value ++ m ++ n) (clients b).
Definition extend_configured_bss (value : bytes) (b : ConfiguredBss) : result bytes :=
  _ ← refuse_if (bool_decide (32 < len (cb_ssid b)));
  f ← enc_octet (cb_flags b);
  _ ← refuse_if (bool_decide (Z.land (cb_flags b) 3 ≠ 0));
  m ← enc_octets 6 (cb_bssid b);
  bounded (value ++ m ++ octets [cb_flags b; 0; len (cb_ssid b)] ++ cb_ssid b).
Definition extend_configured_radio (value : bytes) (r : ConfiguredRadio) : result bytes :=
  m ← enc_octets 6 (cr_ruid r); n ← enc_count (cr_bsses r);
  fold_result extend_configured_bss (value ++ m ++ n) (cr_bsses r).
Definition extend_service (allowed : list Z) (value : bytes) (s : Z) : result bytes :=
  o ← enc_octet s; _ ← refuse_if (negb (bool_decide (s ∈ allowed))); Ok (value ++ o).
Definition extend_inventory_radio (value : bytes) (r : InventoryRadio) : result bytes :=
  m ← enc_octets 6 (ir_ruid r); v ← enc_inventory_string (chipset_vendor r); bounded (value ++ m ++ v).
Definition extend_octet (value : bytes) (z : Z) : result bytes := o ← enc_octet z; Ok (value ++ o).
Definition extend_wifi6_role (value : bytes) (r : Wifi6Role) : result bytes :=
  _ ← enc_octet (w_role r);
  _ ← refuse_if (negb (bool_decide (w_role r ∈ [0; 1])));
  m ← encode_he_mcs (w_mcs r);
  let flags := Z.lor (Z.lor (Z.lor (Z.shiftl (w_role r) 6)
                 (match mhz160 (w_mcs r) with Some _ => 32 | None => 0 end))
                 (match mhz80plus80 (w_mcs r) with Some _ => 16 | None => 0 end)) (len m) in
  f ← enc_octet flags;
  value ← fold_result extend_octet (value ++ f ++ m)
            [beamforming_flags r; mu_mimo_users r; max_dl_ofdma_tx r; max_ul_ofdma_rx r; w_feature_flags r];
  bounded value.
Definition extend_channel (allowed : list Z) (value : bytes) (c : Z) : result bytes :=
  o ← enc_octet c; _ ← refuse_if (negb (bool_decide (c ∈ allowed))); Ok (value ++ o).
Definition extend_basic_class (value : bytes) (op : BasicOperatingClass) : result bytes :=
  o ← enc_octet (operating_class op);
  match GLOBAL_OPERATING_CLASSES (operating_class op) with
  | None => Raise (mkEmosaError UNSUPPORTED_OPERATION "operating class is outside the audited subset")
  | Some (_, allowed) =>
      _ ← refuse_if (negb (bool_decide (-128 ≤ max_eirp_dbm op ≤ 127)));
      n ← enc_count (non_operable_channels op);
      value ← fold_result (extend_channel allowed) (value ++ o ++ [signed_octet (max_eirp_dbm op)] ++ n)
                (non_operable_channels op);
      bounded value
  end.
Definition extend_operational_bss (value : bytes) (b : OperationalBss) : result bytes :=
  m ← enc_octets 6 (ap_mac b);
  _ ← refuse_if (bool_decide (32 < len (ob_ssid b)));
  n ← enc_octet (len (ob_ssid b));
  bounded (value ++ m ++ n ++ ob_ssid b).
Definition extend_operational_radio (value : bytes) (r : OperationalRadio) : result bytes :=
  m ← enc_octets 6 (or_ruid r); n ← enc_count (or_bsses r);
  fold_result extend_operational_bss (value ++ m ++ n) (or_bsses r).

(** The dispatch of [encode_value] on the class. *)
Definition encode_body (p : Payload) : result bytes :=
  match p with
  | AKMSuiteCapabilities backhaul fronthaul =>
      a ← enc_selectors backhaul; b ← enc_selectors fronthaul; Ok (a ++ b)
  | SupportedCipherSuites selectors => enc_selectors selectors
  | AssociatedClients bsses => n ← enc_count bsses; fold_result extend_bss_clients n bsses
  | BssConfigurationReport radios => n ← enc_count radios; fold_result extend_configured_radio n radios
  | SupportedServices services => n ← enc_count services; fold_result (extend_service [0; 1]) n services
  | SearchedServices services => n ← enc_count services; fold_result (extend_service [0]) n services
  | RadioIdentifier ruid => enc_octets 6 ruid
  | MultiAPProfile profile =>
      v ← enc_octet profile; _ ← refuse_if (negb (bool_decide (profile ∈ [1; 2; 3]))); Ok v
  | APHTCapabilities ruid flags =>
      r ← enc_octets 6 ruid; f ← enc_octet flags;
      _ ← refuse_if (bool_decide (Z.land flags 1 ≠ 0)); Ok (r ++ f)
  | APVHTCapabilities ruid tx_mcs rx_mcs stream_flags feature_flags =>
      r ← enc_octets 6 ruid; t ← enc_u16 tx_mcs; x ← enc_u16 rx_mcs;
      s ← enc_octet stream_flags; f ← enc_octet feature_flags;
      _ ← refuse_if (bool_decide (Z.land feature_flags 15 ≠ 0)); Ok (r ++ t ++ x ++ s ++ f)
  | APHECapabilities ruid mcs stream_flags feature_flags =>
      r ← enc_octets 6 ruid;
      _ ← refuse_if (negb (bool_decide (len mcs ∈ [4; 8; 12])));
      n ← enc_octet (len mcs); s ← enc_octet stream_flags; f ← enc_octet feature_flags;
      _ ← refuse_if (bool_decide (Z.land feature_flags 1 ≠ 0));
      _ ← refuse_if (negb (bool_decide (len mcs =
            4 + 4 * (if bool_decide (Z.land stream_flags 1 ≠ 0) then 1 else 0)
              + 4 * (if bool_decide (Z.land stream_flags 2 ≠ 0) then 1 else 0))));
      Ok (r ++ n ++ mcs ++ s ++ f)
  | DeviceInventory serial_number software_version execution_env radios =>
      a ← enc_inventory_string serial_number; b ← enc_inventory_string software_version;
      c ← enc_inventory_string execution_env; n ← enc_count radios;
      _ ← refuse_if (bool_decide (length radios = 0%nat));
      fold_result extend_inventory_radio (a ++ b ++ c ++ n) radios
  | APWifi6Capabilities ruid roles =>
      r ← enc_octets 6 ruid; n ← enc_count roles; fold_result extend_wifi6_role (r ++ n) roles
  | APCapability flags =>
      f ← enc_octet flags; _ ← refuse_if (bool_decide (Z.land flags 7 ≠ 0)); Ok f
  | APRadioAdvancedCapabilities ruid flags =>
      f ← enc_octet flags; _ ← refuse_if (bool_decide (Z.land flags 1 ≠ 0));
      r ← enc_octets 6 ruid; Ok (r ++ f)
  | Profile2APCapability max_prioritization_rules reserved_octet flags max_vids =>
      f ← enc_octet flags; _ ← refuse_if (bool_decide (Z.land flags 7 ≠ 0));
      a ← enc_octet max_prioritization_rules; b ← enc_octet reserved_octet; d ← enc_octet max_vids;
      _ ← refuse_if (bool_decide (reserved_octet ≠ 0) || bool_decide (byte_counter_units flags = 3));
      Ok (a ++ b ++ f ++ d)
  | APRadioBasicCapabilities ruid max_bss operating_classes =>
      r ← enc_octets 6 ruid; m ← enc_octet max_bss; _ ← refuse_if (bool_decide (max_bss = 0));
      n ← enc_count operating_classes; fold_result extend_basic_class (r ++ m ++ n) operating_classes
  | APOperationalBss radios => n ← enc_count radios; fold_result extend_operational_radio n radios
  end.

(** [encode_value(payload)] *)
Definition encode_value (p : Payload) : result bytes := value ← encode_body p; bounded value.

(** ** Theory: what the encoders produce *)

Lemma Ok_inj {A} (a b : A) : Ok a = Ok b → a = b.
Proof. congruence. Qed.

Lemma enc_octet_Ok z b : enc_octet z = Ok b ↔ b = [Z_to_byte z] ∧ 0 ≤ z ≤ 255.
Proof. unfold enc_octet. case_bool_decide; naive_solver. Qed.
Lemma enc_u16_Ok z b : enc_u16 z = Ok b ↔ b = be_bytes 2 z ∧ 0 ≤ z ≤ 65535.
Proof. unfold enc_u16. case_bool_decide; naive_solver. Qed.
Lemma enc_octets_Ok n b b' : enc_octets n b = Ok b' ↔ b' = b ∧ length b = n.
Proof. unfold enc_octets. case_bool_decide; naive_solver. Qed.
Lemma enc_count_Ok {A} (l : list A) b : enc_count l = Ok b ↔ b = [Z_to_byte (len l)] ∧ len l ≤ 255.
Proof. unfold enc_count. rewrite enc_octet_Ok. unfold len. naive_solver lia. Qed.
Lemma refuse_if_Ok b u : refuse_if b = Ok u ↔ b = false.
Proof. destruct b, u; naive_solver. Qed.
Lemma bounded_Ok v r : bounded v = Ok r ↔ r = v ∧ len v ≤ MAX_VALUE_BYTES.
Proof. unfold bounded. case_bool_decide; naive_solver lia. Qed.
Lemma enc_inventory_string_Ok b r :
  enc_inventory_string b = Ok r ↔ r = Z_to_byte (len b) :: b ∧ len b ≤ 64.
Proof.
  unfold enc_inventory_string. case_bool_decide; [naive_solver lia|].
  rewrite result_bind_Ok. setoid_rewrite enc_octet_Ok. split.
  - intros (c & [-> ?] & [= <-]). split; [done|lia].
  - intros [-> ?]. eexists. split; [split; [done|unfold len in *; lia]|done].
Qed.

(** Invert a successful encoding into its octets and its checks. *)
Ltac enc_inv :=
  repeat match goal with
  | H : enc_octet _ = Ok _ |- _ => apply enc_octet_Ok in H as [? ?]; subst
  | H : enc_u16 _ = Ok _ |- _ => apply enc_u16_Ok in H as [? ?]; subst
  | H : enc_octets _ _ = Ok _ |- _ => apply enc_octets_Ok in H as [? ?]; subst
  | H : enc_count _ = Ok _ |- _ => apply enc_count_Ok in H as [? ?]; subst
  | H : enc_inventory_string _ = Ok _ |- _ => apply enc_inventory_string_Ok in H as [? ?]; subst
  | H : refuse_if _ = Ok _ |- _ => apply refuse_if_Ok in H
  | H : bounded _ = Ok _ |- _ => apply bounded_Ok in H as [? ?]; subst
  | H : Ok _ = Ok _ |- _ => apply Ok_inj in H; subst
  | H : _ ≫= _ = Ok _ |- _ =>
      let x := fresh "x" in apply result_bind_Ok in H as (x & ? & H); cbn beta in H
  end; bools.

(** ** Reading back *)

Lemma reads_taken n bs : len bs = n → reads (read n) bs bs.
Proof. intros H. apply reads_take. unfold len in H. lia. Qed.
Lemma reads_mac bs : length bs = 6%nat → reads (read 6) bs bs.
Proof. intros H. by apply reads_take. Qed.
Lemma reads_oct z : 0 ≤ z ≤ 255 → reads octet z [Z_to_byte z].
Proof. intros. apply reads_octet. lia. Qed.
Lemma reads_u16 z : 0 ≤ z ≤ 65535 → reads u16 z (be_bytes 2 z).
Proof.
  intros Hz. unfold u16. eapply reads_eq; [apply reads_bind_ret, (reads_taken 2 (be_bytes 2 z)); done| |done].
  apply be_int_be_bytes. simpl. lia.
Qed.
Lemma reads_reject b : b = false → reads (reject_if b) tt [].
Proof. intros ->. apply reads_ret. Qed.

Lemma reads_bounded_string limit b :
  len b ≤ limit → limit ≤ 255 → reads (bounded_string limit) b (Z_to_byte (len b) :: b).
Proof.
  intros Hb Hl. unfold bounded_string.
  change (Z_to_byte (len b) :: b) with ([Z_to_byte (len b)] ++ [] ++ b).
  eapply reads_bind; [apply reads_oct; unfold len; unfold len in Hb; lia|].
  eapply reads_bind; [apply reads_reject; rewrite bool_decide_eq_false; lia|].
  by apply reads_taken.
Qed.

Lemma reads_counted {A B} (m : M Reader B) (g : A → B) (enc : A → bytes) (l : list A) :
  len l ≤ 255 → (∀ x, x ∈ l → reads m (g x) (enc x)) →
  reads (counted m) (g <$> l) (Z_to_byte (len l) :: (l ≫= enc)).
Proof.
  intros Hl Hm. change (Z_to_byte (len l) :: ?t) with ([Z_to_byte (len l)] ++ t).
  eapply reads_bind; [apply reads_oct; unfold len in *; lia|].
  apply reads_repeat_map; [unfold len; lia|done].
Qed.

Lemma reads_octet_tuple (l : list Z) :
  len l ≤ 255 → Forall (λ z, 0 ≤ z ≤ 255) l → reads octet_tuple l (Z_to_byte (len l) :: octets l).
Proof.
  intros Hl Hall. change (Z_to_byte (len l) :: ?t) with ([Z_to_byte (len l)] ++ t). unfold octet_tuple.
  eapply reads_bind; [apply reads_oct; unfold len in *; lia|].
  eapply reads_eq; [apply reads_bind_ret, reads_taken; unfold len; by rewrite octets_length| |done].
  unfold octets. rewrite <- list_fmap_compose. rewrite <- (list_fmap_id l) at 2.
  apply list_fmap_ext. intros i z Hz. simpl. apply byte_to_Z_to_byte_small.
  apply (Forall_lookup_1 _ _ _ _ Hall) in Hz. lia.
Qed.

(** Split the octets at the reader's next binding. *)
Ltac reads_step :=
  eapply reads_bind;
    [first [apply reads_mac; done | apply reads_oct; solve [done | unfold len in *; lia]
           | apply reads_u16; solve [done | unfold len in *; lia]
           | apply reads_bounded_string; [done|lia]]|cbn beta].

(** ** The HE MCS field *)

(** Two-bit digits, least significant first. *)
Fixpoint base4 (codes : list Z) : Z :=
  match codes with [] => 0 | c :: codes => c + 4 * base4 codes end.

Lemma sum_codes_base4 n codes : 0 ≤ n → sum_codes n codes = 4 ^ n * base4 codes.
Proof.
  revert n; induction codes as [|c codes IH]; intros n Hn; simpl; [lia|].
  rewrite IH, Z.shiftl_mul_pow2, Z.pow_mul_r by lia. change (2 ^ 2) with 4.
  rewrite Z.pow_add_r by lia. lia.
Qed.

Lemma base4_range codes :
  Forall (λ c, 0 ≤ c ≤ 3) codes → 0 ≤ base4 codes < 4 ^ Z.of_nat (length codes).
Proof.
  induction 1 as [|c codes Hc _ IH]; [simpl; lia|]. cbn [base4 length].
  rewrite Nat2Z.inj_succ, Z.pow_succ_r by lia. lia.
Qed.

Lemma base4_digit codes n c :
  Forall (λ c, 0 ≤ c ≤ 3) codes → codes !! n = Some c →
  Z.land (Z.shiftr (base4 codes) (2 * Z.of_nat n)) 3 = c.
Proof.
  intros Hall. revert n; induction Hall as [|x codes Hx _ IH]; intros n Hn; [done|].
  destruct n as [|n]; simpl in Hn.
  - injection Hn as ->. cbn [base4]. rewrite Z.shiftr_0_r.
    change 3 with (Z.ones 2). rewrite Z.land_ones by lia. change (2 ^ 2) with 4.
    rewrite Z.mul_comm, Z.mod_add by lia. apply Z.mod_small. lia.
  - rewrite <- (IH n Hn). f_equal.
    replace (2 * Z.of_nat (S n)) with (2 + 2 * Z.of_nat n) by lia.
    rewrite <- Z.shiftr_shiftr by lia. f_equal. cbn [base4].
    rewrite Z.shiftr_div_pow2 by lia. change (2 ^ 2) with 4.
    symmetry. apply Z.div_unique with x; lia.
Qed.

Lemma codes_of_base4 codes :
  length codes = 8%nat → Forall (λ c, 0 ≤ c ≤ 3) codes → codes_of (base4 codes) = codes.
Proof.
  intros Hl Hall. unfold codes_of. apply list_eq. intros n. rewrite list_lookup_fmap.
  destruct (codes !! n) as [c|] eqn:Hn.
  - pose proof (lookup_lt_Some _ _ _ Hn) as Hlt.
    rewrite lookup_seq_lt by lia. simpl. f_equal. by apply base4_digit.
  - apply lookup_ge_None in Hn. rewrite lookup_seq_ge by lia. done.
Qed.

Lemma map_bytes_Ok codes b :
  map_bytes codes = Ok b →
  length b = 2%nat ∧ codes_of (le_int b) = codes.
Proof.
  unfold map_bytes. case_bool_decide as Hl; simpl; [|done].
  destruct (existsb _ codes) eqn:He; [done|]. intros [= <-].
  assert (Hall : Forall (λ c, 0 ≤ c ≤ 3) codes).
  { apply Forall_forall. intros c Hc. destruct (decide (0 ≤ c ≤ 3)) as [|Hbad]; [done|].
    exfalso. apply not_true_iff_false in He. apply He. apply existsb_exists. exists c.
    split; [by apply list_elem_of_In|]. by rewrite bool_decide_eq_false_2. }
  split; [apply le_bytes_length|]. rewrite sum_codes_base4 by lia.
  change (4 ^ 0) with 1. rewrite Z.mul_1_l.
  rewrite le_int_le_bytes; [by apply codes_of_base4|].
  apply base4_range in Hall. rewrite Hl in Hall. exact Hall.
Qed.

Lemma pair_at_app pre p r t rest :
  map_bytes (rx p) = Ok r → map_bytes (tx p) = Ok t →
  pair_at (pre ++ r ++ t ++ rest) (length pre) = p.
Proof.
  intros [Hr Hrc]%map_bytes_Ok [Ht Htc]%map_bytes_Ok. unfold pair_at.
  rewrite (slice_app pre r (t ++ rest)) by lia.
  assert (slice (length pre + 2) (length pre + 4) (pre ++ r ++ t ++ rest) = t) as ->.
  { rewrite app_assoc. apply slice_app; rewrite length_app; lia. }
  rewrite Hrc, Htc. by destruct p.
Qed.

(** The octets of one pair. *)
Definition pair_octets (p : HEMCSPair) (b : bytes) : Prop :=
  ∃ r t, map_bytes (rx p) = Ok r ∧ map_bytes (tx p) = Ok t ∧ b = r ++ t.

Lemma pair_octets_length p b : pair_octets p b → length b = 4%nat.
Proof.
  intros (r & t & [Hr _]%map_bytes_Ok & [Ht _]%map_bytes_Ok & ->). rewrite length_app. lia.
Qed.

Lemma pairs_length ps bss : Forall2 pair_octets ps bss → length (concat bss) = (4 * length ps)%nat.
Proof.
  induction 1 as [|p b ps bss Hp _ IH]; [done|]. simpl. rewrite length_app, IH.
  rewrite (pair_octets_length p b Hp). lia.
Qed.

Lemma pairs_decode ps bss :
  Forall2 pair_octets ps bss →
  pair_at (concat bss) <$> ((λ i, 4 * i)%nat <$> seq 0 (length (concat bss) / 4)) = ps.
Proof.
  intros Hps. rewrite (pairs_length ps bss Hps), Nat.mul_comm, Nat.div_mul by lia.
  apply list_eq. intros i. rewrite !list_lookup_fmap.
  destruct (ps !! i) as [p|] eqn:Hi.
  - pose proof (lookup_lt_Some _ _ _ Hi) as Hlt. rewrite lookup_seq_lt by lia. simpl. f_equal.
    destruct (Forall2_lookup_l _ _ _ _ _ Hps Hi) as (b & Hb & r & t & Hr & Ht & ->).
    rewrite <- (take_drop_middle bss i _ Hb), concat_app. simpl.
    rewrite <- (app_assoc r t). 
    assert (Hl : length (concat (take i bss)) = (4 * i)%nat).
    { rewrite (pairs_length (take i ps)) by by apply Forall2_take. rewrite length_take. lia. }
    replace (i + (i + (i + (i + 0))))%nat with (length (concat (take i bss))) by lia.
    by apply pair_at_app.
  - apply lookup_ge_None in Hi. rewrite lookup_seq_ge by lia. done.
Qed.

Lemma encode_he_mcs_pairs v b :
  encode_he_mcs v = Ok b →
  ∃ bss, b = concat bss ∧
    Forall2 pair_octets (up_to_80 v :: option_list (mhz160 v) ++ option_list (mhz80plus80 v)) bss.
Proof.
  assert (Hgen : ∀ l acc b, fold_result (λ acc pair,
      match pair with
      | None => Ok acc
      | Some p => r ← map_bytes (rx p); t ← map_bytes (tx p); Ok (acc ++ r ++ t)
      end) acc l = Ok b → ∃ bss, b = acc ++ concat bss ∧ Forall2 pair_octets (l ≫= option_list) bss).
  { intros l. induction l as [|[p|] l IH]; intros acc b0; simpl.
    - intros [= <-]. exists []. rewrite app_nil_r. auto.
    - intros (acc' & (r & Hr & (t & Ht & [= <-])%result_bind_Ok)%result_bind_Ok & Hl)%result_bind_Ok.
      apply IH in Hl as (bss & -> & Hl). exists ((r ++ t) :: bss). simpl. rewrite <- !app_assoc.
      split; [done|]. constructor; [|done]. by exists r, t.
    - apply IH. }
  intros (bss & -> & H)%Hgen. exists bss. split; [done|]. simpl in H. by rewrite app_nil_r in H.
Qed.

(** Decoding the field, with the widths it was built for, gives back the pairs. *)
Lemma he_mcs_roundtrip v b :
  encode_he_mcs v = Ok b →
  (len b = 4 ∨ len b = 8 ∨ len b = 12) ∧
  decode_he_mcs b (match mhz160 v with Some _ => true | None => false end)
                  (match mhz80plus80 v with Some _ => true | None => false end) = Ok v.
Proof.
  intros (bss & -> & Hps)%encode_he_mcs_pairs. unfold decode_he_mcs.
  rewrite (pairs_decode _ _ Hps). apply pairs_length in Hps. unfold len. rewrite Hps.
  destruct v as [p0 [p1|] [p2|]]; simpl; (split; [lia|done]).
Qed.

(** ** The elements of the counted lists

    For each element: its octets, that its loop body appends them, and that they are read back. *)

Definition client_octets (c : AssociatedClient) : bytes :=
  c_mac c ++ be_bytes 2 (Z.min (association_seconds c) 65535).
(** A client's association time saturates in its sixteen bits. *)
Definition saturated_client (c : AssociatedClient) : AssociatedClient :=
  mkAssociatedClient (c_mac c) (Z.min (association_seconds c) 65535).

Lemma extend_client_Ok v c r :
  extend_client v c = Ok r → r = v ++ client_octets c ∧ reads read_client (saturated_client c) (client_octets c).
Proof.
  unfold extend_client. intros H. enc_inv. split; [done|]. unfold read_client, client_octets.
  reads_step. apply reads_bind_ret with (g := mkAssociatedClient _). apply reads_u16. lia.
Qed.

Definition bss_clients_octets (b : BssClients) : bytes :=
  bc_bssid b ++ be_bytes 2 (len (clients b)) ++ (clients b ≫= client_octets).
Definition saturated_bss (b : BssClients) : BssClients :=
  mkBssClients (bc_bssid b) (saturated_client <$> clients b).

Lemma extend_bss_clients_Ok v b r :
  extend_bss_clients v b = Ok r →
  r = v ++ bss_clients_octets b ∧ reads read_bss_clients (saturated_bss b) (bss_clients_octets b).
Proof.
  unfold extend_bss_clients. intros H. enc_inv.
  apply (fold_result_app extend_client client_octets _ _ _ _ extend_client_Ok) in H as [-> Hall].
  rewrite Forall_forall in Hall. unfold bss_clients_octets. split; [by rewrite <- !app_assoc|].
  unfold read_bss_clients. reads_step. reads_step.
  apply reads_bind_ret with (g := mkBssClients _). apply reads_repeat_map; [unfold len; lia|done].
Qed.

Definition configured_bss_octets (b : ConfiguredBss) : bytes :=
  cb_bssid b ++ octets [cb_flags b; 0; len (cb_ssid b)] ++ cb_ssid b.

Lemma land_fc f : 0 ≤ f ≤ 255 → Z.land f 3 = 0 → Z.land f 0xFC = f.
Proof.
  intros Hf H3. assert (H255 : Z.land f 255 = f).
  { change 255 with (Z.ones 8). rewrite Z.land_ones by lia. apply Z.mod_small. lia. }
  change 255 with (Z.lor 0xFC 3) in H255. rewrite Z.land_lor_distr_r, H3, Z.lor_0_r in H255. done.
Qed.

Lemma extend_configured_bss_Ok v b r :
  extend_configured_bss v b = Ok r →
  r = v ++ configured_bss_octets b ∧ reads read_configured_bss b (configured_bss_octets b).
Proof.
  unfold extend_configured_bss. intros H. enc_inv. split; [done|].
  unfold read_configured_bss, configured_bss_octets.
  reads_step. change (octets [?a; ?b; ?c] ++ ?t) with ([Z_to_byte a] ++ [Z_to_byte b] ++ (Z_to_byte c :: t)).
  reads_step. reads_step.
  eapply reads_eq; [apply reads_bind_ret, (reads_bounded_string 32 (cb_ssid b)); lia| |done].
  rewrite land_fc; [by destruct b|lia|lia].
Qed.

Definition configured_radio_octets (r : ConfiguredRadio) : bytes :=
  cr_ruid r ++ Z_to_byte (len (cr_bsses r)) :: (cr_bsses r ≫= configured_bss_octets).

Lemma extend_configured_radio_Ok v x r :
  extend_configured_radio v x = Ok r →
  r = v ++ configured_radio_octets x ∧ reads read_configured_radio x (configured_radio_octets x).
Proof.
  unfold extend_configured_radio. intros H. enc_inv.
  apply (fold_result_app _ configured_bss_octets _ _ _ _ extend_configured_bss_Ok) in H as [-> Hall].
  rewrite Forall_forall in Hall. unfold configured_radio_octets. split; [by rewrite <- !app_assoc|].
  unfold read_configured_radio. reads_step.
  eapply reads_eq; [apply reads_bind_ret, (reads_counted read_configured_bss id configured_bss_octets); done| |done].
  rewrite list_fmap_id. by destruct x.
Qed.

Definition operational_bss_octets (b : OperationalBss) : bytes :=
  ap_mac b ++ Z_to_byte (len (ob_ssid b)) :: ob_ssid b.

Lemma extend_operational_bss_Ok v b r :
  extend_operational_bss v b = Ok r →
  r = v ++ operational_bss_octets b ∧ reads read_operational_bss b (operational_bss_octets b).
Proof.
  unfold extend_operational_bss. intros H. enc_inv. split; [done|].
  unfold read_operational_bss, operational_bss_octets. reads_step.
  eapply reads_eq; [apply reads_bind_ret, (reads_bounded_string 32 (ob_ssid b)); lia|by destruct b|done].
Qed.

Definition operational_radio_octets (r : OperationalRadio) : bytes :=
  or_ruid r ++ Z_to_byte (len (or_bsses r)) :: (or_bsses r ≫= operational_bss_octets).

Lemma extend_operational_radio_Ok v x r :
  extend_operational_radio v x = Ok r →
  r = v ++ operational_radio_octets x ∧ reads read_operational_radio x (operational_radio_octets x).
Proof.
  unfold extend_operational_radio. intros H. enc_inv.
  apply (fold_result_app _ operational_bss_octets _ _ _ _ extend_operational_bss_Ok) in H as [-> Hall].
  rewrite Forall_forall in Hall. unfold operational_radio_octets. split; [by rewrite <- !app_assoc|].
  unfold read_operational_radio. reads_step.
  eapply reads_eq; [apply reads_bind_ret, (reads_counted read_operational_bss id operational_bss_octets); done| |done].
  rewrite list_fmap_id. by destruct x.
Qed.

Definition inventory_radio_octets (r : InventoryRadio) : bytes :=
  ir_ruid r ++ Z_to_byte (len (chipset_vendor r)) :: chipset_vendor r.

Lemma extend_inventory_radio_Ok v x r :
  extend_inventory_radio v x = Ok r →
  r = v ++ inventory_radio_octets x ∧ reads read_inventory_radio x (inventory_radio_octets x).
Proof.
  unfold extend_inventory_radio. intros H. enc_inv. split; [done|].
  unfold read_inventory_radio, inventory_radio_octets. reads_step.
  eapply reads_eq; [apply reads_bind_ret, (reads_bounded_string 64 (chipset_vendor x)); lia|by destruct x|done].
Qed.

Lemma bind_octets (l : list Z) : l ≫= (λ z, [Z_to_byte z]) = octets l.
Proof. induction l as [|z l IH]; [done|]. cbn. by f_equal. Qed.

Definition basic_class_octets (op : BasicOperatingClass) : bytes :=
  Z_to_byte (operating_class op) :: signed_octet (max_eirp_dbm op)
    :: Z_to_byte (len (non_operable_channels op)) :: octets (non_operable_channels op).

Lemma extend_basic_class_Ok v op r :
  extend_basic_class v op = Ok r →
  r = v ++ basic_class_octets op ∧ reads read_basic_class op (basic_class_octets op).
Proof.
  unfold extend_basic_class. intros H. apply result_bind_Ok in H as (o & Ho & H).
  destruct (GLOBAL_OPERATING_CLASSES (operating_class op)) as [[band allowed]|]; [|done]. enc_inv.
  match goal with Hf : fold_result _ _ _ = Ok _ |- _ =>
    apply (fold_result_app _ (λ z, [Z_to_byte z]) (λ z, 0 ≤ z ≤ 255)) in Hf as [-> Hall] end.
  2:{ intros v' c r' Hc. unfold extend_channel in Hc. enc_inv. done. }
  rewrite bind_octets, <- !app_assoc. split; [done|].
  unfold read_basic_class, basic_class_octets.
  change (?a :: ?b :: ?t) with ([a] ++ [b] ++ t). reads_step.
  eapply reads_bind; [by apply reads_taken|]. cbn beta.
  eapply reads_eq; [apply reads_bind_ret, reads_octet_tuple; done| |done].
  cbn [head from_option]. rewrite octet_signed_encode by done. by destruct op.
Qed.

Definition wifi6_flags (r : Wifi6Role) (m : bytes) : Z :=
  Z.lor (Z.lor (Z.lor (Z.shiftl (w_role r) 6)
    (match mhz160 (w_mcs r) with Some _ => 32 | None => 0 end))
    (match mhz80plus80 (w_mcs r) with Some _ => 16 | None => 0 end)) (len m).

(** The flags octet of a Wi-Fi 6 role tells its parts apart. *)
Lemma wifi6_flags_parts r m :
  w_role r ∈ [0; 1] → len m = 4 ∨ len m = 8 ∨ len m = 12 →
  let flags := wifi6_flags r m in
  Z.land flags 15 = len m ∧ Z.shiftr flags 6 = w_role r ∧
  bool_decide (Z.land flags 32 ≠ 0) = (match mhz160 (w_mcs r) with Some _ => true | None => false end) ∧
  bool_decide (Z.land flags 16 ≠ 0) = (match mhz80plus80 (w_mcs r) with Some _ => true | None => false end).
Proof.
  unfold wifi6_flags. rewrite !elem_of_cons, elem_of_nil. intros [-> |[-> |[]]] [-> |[-> | ->]];
    destruct (mhz160 (w_mcs r)), (mhz80plus80 (w_mcs r)); repeat split; vm_compute; reflexivity.
Qed.

Definition role_tail (r : Wifi6Role) : list Z :=
  [beamforming_flags r; mu_mimo_users r; max_dl_ofdma_tx r; max_ul_ofdma_rx r; w_feature_flags r].
Definition wifi6_role_octets (r : Wifi6Role) : bytes :=
  match encode_he_mcs (w_mcs r) with
  | Ok m => [Z_to_byte (wifi6_flags r m)] ++ m ++ octets (role_tail r)
  | Raise _ => []
  end.

Lemma extend_wifi6_role_Ok v x r :
  extend_wifi6_role v x = Ok r →
  r = v ++ wifi6_role_octets x ∧ reads read_wifi6_role x (wifi6_role_octets x).
Proof.
  unfold extend_wifi6_role, wifi6_role_octets. intros H. enc_inv.
  match goal with Hm : encode_he_mcs _ = Ok ?m |- _ =>
    rewrite Hm; apply he_mcs_roundtrip in Hm as [Hlen Hdec]; rename m into mb end.
  fold (wifi6_flags x mb) in *. fold (role_tail x) in *.
  match goal with Hf : fold_result _ _ _ = Ok _ |- _ =>
    apply (fold_result_app _ (λ z, [Z_to_byte z]) (λ z, 0 ≤ z ≤ 255)) in Hf as [-> Hall] end.
  2:{ intros v' c r' Hc. unfold extend_octet in Hc. enc_inv. done. }
  rewrite bind_octets, <- !app_assoc. split; [done|].
  destruct (wifi6_flags_parts x mb) as (F1 & F2 & F3 & F4); [done|done|].
  unfold read_wifi6_role. reads_step.
  eapply reads_bind; [by apply reads_taken; rewrite F1|]. cbn beta.
  rewrite F3, F4. apply (reads_lift_bind _ _ (w_mcs x)); [done|].
  unfold role_tail in *. repeat (apply Forall_cons in Hall as [? Hall]).
  change (octets [?a; ?b; ?c; ?d; ?e]) with
    ([Z_to_byte a] ++ [Z_to_byte b] ++ [Z_to_byte c] ++ [Z_to_byte d] ++ [Z_to_byte e]).
  do 4 reads_step. eapply reads_eq; [by apply reads_bind_ret, reads_oct| |done].
  rewrite F2. by destruct x.
Qed.

Lemma enc_selectors_Ok l b :
  enc_selectors l = Ok b →
  b = Z_to_byte (len l) :: concat l ∧ reads (counted (read 4)) l (Z_to_byte (len l) :: concat l).
Proof.
  unfold enc_selectors. intros H. enc_inv.
  match goal with Hm : map_result _ _ = Ok ?ss |- _ =>
    apply map_result_Ok in Hm; rename Hm into Hall; rename ss into sl end.
  assert (Hs : sl = l ∧ Forall (λ s, length s = 4%nat) l).
  { clear -Hall. induction Hall as [|s s' l l' Hs _ [-> IH]]; [done|].
    apply enc_octets_Ok in Hs as [-> ?]. split; [done|]. by constructor. }
  destruct Hs as [-> Hlens]. split; [done|].
  assert (concat l = l ≫= id) as -> by (clear; induction l as [|s l IH]; simpl; [done|by rewrite IH]).
  rewrite Forall_forall in Hlens. rewrite <- (list_fmap_id l) at 1.
  apply (reads_counted (read 4) id id); [done|]. intros s Hs. apply reads_taken. unfold len.
  by rewrite Hlens.
Qed.

Lemma services_Ok allowed l n r :
  fold_result (extend_service allowed) n l = Ok r → r = n ++ octets l ∧ Forall (λ z, 0 ≤ z ≤ 255) l.
Proof.
  intros H. apply (fold_result_app _ (λ z, [Z_to_byte z]) (λ z, 0 ≤ z ≤ 255)) in H as [-> Hall].
  - by rewrite bind_octets.
  - intros v c r' Hc. unfold extend_service in Hc. enc_inv. done.
Qed.

(** ** The round trip *)

(** What comes back: association times are saturated, everything else is as it was. *)
Definition received (p : Payload) : Payload :=
  match p with AssociatedClients bsses => AssociatedClients (saturated_bss <$> bsses) | p => p end.

(** The reader of one counted list of elements that come back as they were. *)
Lemma reads_list {A P} (m : M Reader A) (enc : A → bytes) (g : list A → P) (l : list A) :
  len l ≤ 255 → Forall (λ x, reads m x (enc x)) l →
  reads (xs ← counted m; mret (g xs)) (g l) (Z_to_byte (len l) :: (l ≫= enc)).
Proof.
  intros Hl Hall. rewrite Forall_forall in Hall. apply reads_bind_ret.
  rewrite <- (list_fmap_id l) at 1. by apply (reads_counted m id).
Qed.

Lemma reads_payload p bs : encode_body p = Ok bs → reads (decode_body (kind p)) (received p) bs.
Proof.
  destruct p; cbn [encode_body kind received]; intros H.
  - enc_inv. apply services_Ok in H as [-> Hall].
    change (decode_body _) with (s ← octet_tuple; mret (SupportedServices s)).
    apply reads_bind_ret. by apply reads_octet_tuple.
  - enc_inv. apply services_Ok in H as [-> Hall].
    change (decode_body _) with (s ← octet_tuple; mret (SearchedServices s)).
    apply reads_bind_ret. by apply reads_octet_tuple.
  - enc_inv. change (decode_body _) with (r ← read 6; mret (RadioIdentifier r)).
    apply reads_bind_ret. by apply reads_mac.
  - enc_inv. apply (fold_result_app _ _ _ _ _ _ extend_operational_radio_Ok) in H as [-> Hall].
    by apply reads_list.
  - enc_inv. apply (fold_result_app _ _ _ _ _ _ extend_basic_class_Ok) in H as [-> Hall].
    change (decode_body _) with (r ← read 6; max_bss ← octet; _ ← reject_if (bool_decide (max_bss = 0));
      classes ← counted read_basic_class; mret (APRadioBasicCapabilities r max_bss classes)).
    rewrite <- !app_assoc. reads_step. reads_step.
    apply (reads_lift_bind _ _ tt); [by rewrite bool_decide_eq_false_2|]. by apply reads_list.
  - enc_inv. change (decode_body _) with (r ← read 6; f ← octet; mret (APHTCapabilities r f)).
    reads_step. apply reads_bind_ret. by apply reads_oct.
  - enc_inv. change (decode_body _) with (r ← read 6; t ← u16; x ← u16; s ← octet; f ← octet;
      mret (APVHTCapabilities r t x s f)).
    do 4 reads_step. apply reads_bind_ret. by apply reads_oct.
  - enc_inv. change (decode_body _) with (r ← read 6; length ← octet;
      _ ← reject_if (negb (bool_decide (length ∈ [4; 8; 12])));
      m ← read length; s ← octet; f ← octet; mret (APHECapabilities r m s f)).
    reads_step. reads_step. apply (reads_lift_bind _ _ tt); [by rewrite bool_decide_eq_true_2|].
    eapply reads_bind; [by apply reads_taken|]. cbn beta. reads_step. apply reads_bind_ret. by apply reads_oct.
  - enc_inv. apply (fold_result_app _ _ _ _ _ _ extend_wifi6_role_Ok) in H as [-> Hall].
    change (decode_body _) with (r ← read 6; roles ← counted read_wifi6_role; mret (APWifi6Capabilities r roles)).
    rewrite <- !app_assoc. reads_step. by apply reads_list.
  - enc_inv. apply (fold_result_app _ _ _ _ _ _ extend_inventory_radio_Ok) in H as [-> Hall].
    change (decode_body _) with (serial ← inventory_string; version ← inventory_string; env ← inventory_string;
      count ← octet; _ ← reject_if (bool_decide (count = 0));
      radios ← times count read_inventory_radio; mret (DeviceInventory serial version env radios)).
    rewrite <- !app_assoc. do 3 (eapply reads_bind; [by apply (reads_bounded_string 64)|cbn beta]).
    reads_step. apply (reads_lift_bind _ _ tt).
    { rewrite bool_decide_eq_false_2; [done|]. unfold len. lia. }
    apply reads_bind_ret. rewrite Forall_forall in Hall. apply reads_repeat; [unfold len; lia|done].
  - enc_inv. change (decode_body _) with (f ← octet; mret (APCapability f)).
    apply reads_bind_ret. by apply reads_oct.
  - enc_inv. change (decode_body _) with (a ← octet; b ← octet; c ← octet; d ← octet;
      mret (Profile2APCapability a b c d)).
    do 3 reads_step. apply reads_bind_ret. by apply reads_oct.
  - enc_inv. change (decode_body _) with (r ← read 6; f ← octet; mret (APRadioAdvancedCapabilities r f)).
    reads_step. apply reads_bind_ret. by apply reads_oct.
  - enc_inv. change (decode_body _) with (p ← octet; mret (MultiAPProfile p)).
    apply reads_bind_ret. by apply reads_oct.
  - enc_inv. apply (fold_result_app _ _ _ _ _ _ extend_configured_radio_Ok) in H as [-> Hall].
    by apply reads_list.
  - enc_inv. apply (fold_result_app _ _ _ _ _ _ extend_bss_clients_Ok) in H as [-> Hall].
    rewrite Forall_forall in Hall.
    change (decode_body _) with (b ← counted read_bss_clients; mret (AssociatedClients b)).
    apply reads_bind_ret. by apply reads_counted.
  - apply result_bind_Ok in H as (a & [-> Ha]%enc_selectors_Ok & H).
    apply result_bind_Ok in H as (b & [-> Hb]%enc_selectors_Ok & <-%Ok_inj).
    change (decode_body _) with (backhaul ← counted (read 4); fronthaul ← counted (read 4);
      mret (AKMSuiteCapabilities backhaul fronthaul)).
    eapply reads_bind; [exact Ha|]. by apply reads_bind_ret.
  - apply enc_selectors_Ok in H as [-> Ha].
    change (decode_body _) with (s ← counted (read 4); mret (SupportedCipherSuites s)).
    by apply reads_bind_ret.
Qed.

(** The digits of a map are its two-bit groups. *)
Lemma base4_codes_of (k : nat) z :
  0 ≤ z < 4 ^ Z.of_nat k →
  base4 ((λ n : nat, Z.land (Z.shiftr z (2 * Z.of_nat n)) 3) <$> seq 0 k) = z.
Proof.
  revert z. induction k as [|k IH]; intros z Hz; [simpl in *; lia|].
  rewrite <- cons_seq, <- fmap_S_seq, fmap_cons, <- list_fmap_compose. cbn [base4].
  rewrite Nat2Z.inj_succ, Z.pow_succ_r in Hz by lia.
  assert (Hd : 0 ≤ z / 4 < 4 ^ Z.of_nat k).
  { split; [apply Z.div_pos; lia|apply Z.div_lt_upper_bound; lia]. }
  specialize (IH (z / 4) Hd).
  assert (((λ n : nat, Z.land (Z.shiftr z (2 * Z.of_nat n)) 3) ∘ S <$> seq 0 k) =
          ((λ n : nat, Z.land (Z.shiftr (z / 4) (2 * Z.of_nat n)) 3) <$> seq 0 k)) as ->.
  { apply list_fmap_ext. intros i n _. simpl. f_equal.
    replace (2 * Z.of_nat (S n)) with (2 + 2 * Z.of_nat n) by lia.
    rewrite <- Z.shiftr_shiftr by lia. f_equal. rewrite Z.shiftr_div_pow2 by lia. done. }
  rewrite IH. change (2 * Z.of_nat 0) with 0. rewrite Z.shiftr_0_r.
  change 3 with (Z.ones 2). rewrite Z.land_ones by lia. change (2 ^ 2) with 4.
  pose proof (Z.div_mod z 4 ltac:(lia)). lia.
Qed.

Lemma land_3 x : Z.land x 3 = x mod 4.
Proof. change 3 with (Z.ones 2). by rewrite Z.land_ones. Qed.

Lemma codes_of_ok z : length (codes_of z) = 8%nat ∧ Forall (λ c, 0 ≤ c ≤ 3) (codes_of z).
Proof.
  split; [by unfold codes_of; rewrite length_fmap, length_seq|]. apply Forall_fmap, Forall_forall.
  intros n _. simpl. rewrite land_3.
  pose proof (Z.mod_pos_bound (Z.shiftr z (2 * Z.of_nat n)) 4 ltac:(lia)). lia.
Qed.

Lemma map_bytes_codes_of b : length b = 2%nat → map_bytes (codes_of (le_int b)) = Ok b.
Proof.
  intros Hb. destruct (codes_of_ok (le_int b)) as [Hl Hall]. unfold map_bytes.
  rewrite bool_decide_eq_true_2 by done. cbn [negb].
  assert (existsb (λ code, negb (bool_decide (0 ≤ code ≤ 3))) (codes_of (le_int b)) = false) as ->.
  { apply not_true_iff_false. intros (c & Hc & Hbad)%existsb_exists.
    rewrite Forall_forall in Hall. specialize (Hall c). rewrite list_elem_of_In in Hall.
    rewrite bool_decide_eq_true_2 in Hbad by auto. done. }
  rewrite sum_codes_base4 by lia. change (4 ^ 0) with 1. rewrite Z.mul_1_l. unfold codes_of.
  rewrite base4_codes_of; [by rewrite le_bytes_le_int|].
  pose proof (le_int_range b) as Hr. rewrite Hb in Hr. exact Hr.
Qed.

Lemma map_rx_at b o : (o + 4 ≤ length b)%nat → map_bytes (rx (pair_at b o)) = Ok (slice o (o + 2) b).
Proof. intros Ho. apply map_bytes_codes_of. rewrite slice_length; lia. Qed.
Lemma map_tx_at b o :
  (o + 4 ≤ length b)%nat → map_bytes (tx (pair_at b o)) = Ok (slice (o + 2) (o + 4) b).
Proof. intros Ho. apply map_bytes_codes_of. rewrite slice_length; lia. Qed.

Lemma he_mcs_reencode b h160 h8080 v :
  decode_he_mcs b h160 h8080 = Ok v →
  encode_he_mcs v = Ok b ∧
  h160 = (match mhz160 v with Some _ => true | None => false end) ∧
  h8080 = (match mhz80plus80 v with Some _ => true | None => false end).
Proof.
  unfold decode_he_mcs. case_bool_decide as Hlen; cbn [negb]; [|done]. unfold len in Hlen.
  assert (Hcase : length b = 4%nat ∧ h160 = false ∧ h8080 = false ∨
                  length b = 8%nat ∧ h160 = true ∧ h8080 = false ∨
                  length b = 8%nat ∧ h160 = false ∧ h8080 = true ∨
                  length b = 12%nat ∧ h160 = true ∧ h8080 = true)
    by (destruct h160, h8080; simpl in Hlen; lia).
  destruct Hcase as [(Hl & -> & ->)|[(Hl & -> & ->)|[(Hl & -> & ->)|(Hl & -> & ->)]]];
    rewrite Hl; cbn -[pair_at]; intros <-%Ok_inj; (split; [|done]);
    unfold encode_he_mcs; cbn [fold_result up_to_80 mhz160 mhz80plus80];
    rewrite ?map_rx_at, ?map_tx_at by lia; cbn -[slice pair_at map_bytes];
    rewrite ?map_rx_at, ?map_tx_at by lia; cbn -[slice pair_at map_bytes];
    rewrite ?map_rx_at, ?map_tx_at by lia; cbn -[slice pair_at map_bytes];
    rewrite <- ?app_assoc, ?slice_join, slice_all by lia; done.
Qed.

(** Reading back what was encoded. *)
Lemma payload_read p bs :
  encode_value p = Ok bs → len bs ≤ MAX_VALUE_BYTES ∧ decode_value (kind p) bs = Ok (received p).
Proof.
  intros (b & Hb & [-> Hl]%bounded_Ok)%result_bind_Ok. split; [done|]. unfold decode_value.
  rewrite bool_decide_eq_true_2 by (destruct p; done). cbn [negb].
  assert (bounded b = Ok b) as -> by (by apply bounded_Ok). simpl.
  by rewrite (reads_whole _ _ _ _ (reads_payload p b Hb)).
Qed.

(** * Properties *)

(** C11: every EasyMesh value the adapter builds is read back. Whatever [encode_value] accepts it
    encodes within the local budget, and [decode_value] of those octets under the value's type
    returns the same value; only association times come back saturated to their sixteen bits. *)
Theorem payload_roundtrip (p : Payload) (bs : bytes) :
  encode_value p = Ok bs → len bs ≤ MAX_VALUE_BYTES ∧ decode_value (kind p) bs = Ok (received p).
Proof.
  apply payload_read.
Qed.

Definition example_he : HESupportedMCS :=
  mkHESupportedMCS (mkHEMCSPair [2; 2; 3; 3; 3; 3; 3; 3] [1; 2; 3; 3; 3; 3; 3; 3])
    (Some (mkHEMCSPair [0; 3; 3; 3; 3; 3; 3; 3] [0; 3; 3; 3; 3; 3; 3; 3])) None.
Definition example_wifi6 : Payload :=
  APWifi6Capabilities (octets [2; 0; 0; 0; 0; 1]) [mkWifi6Role 1 example_he 9 8 7 6 5].

Lemma payload_roundtrip_witness :
  ∃ bs, encode_value example_wifi6 = Ok bs ∧ decode_value 0xAA bs = Ok example_wifi6.
Proof.
  eexists. split; [vm_compute; reflexivity|].
  apply (payload_roundtrip example_wifi6). vm_compute. reflexivity.
Defined.

(** The HE MCS field and its two-bit codes are in exact correspondence: what is encoded is
    decoded back under the widths it has pairs for, and what decodes under some widths re-encodes
    to the very octets and has pairs for exactly those widths. *)
Theorem he_mcs_correspondence (v : HESupportedMCS) (b : bytes) (h160 h8080 : bool) :
  (encode_he_mcs v = Ok b ∧
   h160 = (match mhz160 v with Some _ => true | None => false end) ∧
   h8080 = (match mhz80plus80 v with Some _ => true | None => false end)) ↔
  decode_he_mcs b h160 h8080 = Ok v.
Proof.
  split; [|apply he_mcs_reencode]. intros (He & -> & ->). by apply he_mcs_roundtrip.
Qed.
