(* ===== verification/TopologyValues.v ===== *)
(** * IEEE 1905 topology values: [src/emosa/wire/topology_values.py]

    Device information, bridging capability and the two neighbour lists, with the media table.
    The reader is the one of [Bytes], with this module's error. *)

From S2P Require Import Prelude Bytes Cmdu.

Record LocalInterface := mkLocalInterface {
  li_mac : bytes;
  media_type : Z;
  media_specific : bytes
}.
Record Neighbor := mkNeighbor { n_al_mac : bytes; bridges_present : bool }.

Inductive Topology :=
  | DeviceInformation (al_mac : bytes) (interfaces : list LocalInterface)
  | BridgingCapability (tuples : list (list bytes))
  | Non1905Neighbors (local_interface : bytes) (neighbors : list bytes)
  | Neighbors1905 (local_interface : bytes) (neighbors : list Neighbor).

Definition topology_kind (v : Topology) : Z :=
  match v with
  | DeviceInformation _ _ => 3
  | BridgingCapability _ => 4
  | Non1905Neighbors _ _ => 6
  | Neighbors1905 _ _ => 7
  end.

(** The table [lengths] of [_media]. *)
Definition media_lengths (k : Z) : option Z :=
  if bool_decide (k ∈ [0; 1; 0x108; 0x109; 0x300; 0xFFFF]) then Some 0
  else if bool_decide (k ∈ [0x200; 0x201]) then Some 7
  else if bool_decide (0x100 ≤ k < 0x108) then Some 10
  else None.

(** [_media(interface, sending=sending)] *)
Definition media (i : LocalInterface) (sending : bool) : result unit :=
  let k := media_type i in
  let value := media_specific i in
  _ ← uint k 16 "media type";
  match media_lengths k with
  | None => Raise (mkEmosaError UNSUPPORTED_OPERATION "reserved media value; ignore entire TLV")
  | Some n =>
      _ ← raise_if (negb (bool_decide (len value = n))) INVALID_INPUT
            "incorrect media-specific information length";
      if bool_decide (0x100 ≤ k ≤ 0x107) then
        let role := octet_at 6 value in
        _ ← raise_if (negb (bool_decide (Z.shiftr role 4 ∈ [0; 4; 8; 9; 10]))) UNSUPPORTED_OPERATION
              "reserved Wi-Fi role; ignore entire TLV";
        raise_if (sending && bool_decide (Z.land role 15 ≠ 0)) INVALID_INPUT
          "reserved Wi-Fi role bits must be zero on transmission"
      else Ok tt
  end.

(** ** Encoding *)

(** [_count] *)
Definition topology_count {A} (items : list A) : result bytes :=
  n ← uint (len items) 8 "topology count"; Ok [Z_to_byte n].

Definition extend_interface (data : bytes) (i : LocalInterface) : result bytes :=
  _ ← media i true;
  m ← mac (li_mac i);
  Ok (data ++ m ++ be_bytes 2 (media_type i) ++ [Z_to_byte (len (media_specific i))] ++ media_specific i).
Definition extend_mac (data : bytes) (a : bytes) : result bytes := m ← mac a; Ok (data ++ m).
Definition extend_group (data : bytes) (g : list bytes) : result bytes :=
  n ← topology_count g; fold_result extend_mac (data ++ n) g.
Definition extend_neighbor (data : bytes) (n : Neighbor) : result bytes :=
  m ← mac (n_al_mac n); Ok (data ++ m ++ [Z_to_byte (if bridges_present n then 0x80 else 0)]).

(** The budget of a neighbour list. *)
Definition neighbor_budget {A} (size : Z) (l : list A) : result unit :=
  raise_if (bool_decide ((MAX_VALUE - 6) / size < len l)) INVALID_INPUT
    "neighbor list exceeds the TLV value budget".

(** [encode_topology(value)] *)
Definition encode_topology (v : Topology) : result bytes :=
  data ← match v with
         | DeviceInformation al_mac interfaces =>
             m ← mac al_mac; n ← topology_count interfaces; fold_result extend_interface (m ++ n) interfaces
         | BridgingCapability tuples => n ← topology_count tuples; fold_result extend_group n tuples
         | Non1905Neighbors local neighbors =>
             m ← mac local; _ ← neighbor_budget 6 neighbors; fold_result extend_mac m neighbors
         | Neighbors1905 local neighbors =>
             m ← mac local; _ ← neighbor_budget 7 neighbors; fold_result extend_neighbor m neighbors
         end;
  _ ← raise_if (bool_decide (MAX_VALUE < len data)) INVALID_INPUT
        "topology value exceeds the TLV length budget";
  Ok data.

(** ** Decoding *)

Definition truncated : EmosaError := mkEmosaError INVALID_INPUT "truncated topology value".
Definition t_take (n : Z) : M Reader bytes := take_or truncated (Z.to_nat n).
Definition t_octet : M Reader Z := octet_or truncated.

Definition read_interface : M Reader LocalInterface :=
  address ← t_take 6; m ← t_take 2; n ← t_octet; value ← t_take n;
  let i := mkLocalInterface address (be_int m) value in
  _ ← lift (media i false);
  mret i.
Definition read_group : M Reader (list bytes) := n ← t_octet; repeat_M (Z.to_nat n) (t_take 6).
Definition read_neighbor : M Reader Neighbor :=
  m ← t_take 6; f ← t_octet; mret (mkNeighbor m (bool_decide (Z.land f 0x80 ≠ 0))).

(** The records of [size] octets that fill the rest of the value. *)
Definition remaining_records {A} (size : Z) (m : M Reader A) : M Reader (list A) :=
  r ← get;
  let remaining := len (r_value r) - Z.of_nat (r_offset r) in
  _ ← lift (raise_if (bool_decide (remaining mod size ≠ 0)) INVALID_INPUT
              "partial topology neighbor record");
  repeat_M (Z.to_nat (remaining / size)) m.

(** The branches of [decode_topology]. *)
Definition topology_body (k : Z) : M Reader Topology :=
  if bool_decide (k = 3) then
    al ← t_take 6; count ← t_octet; interfaces ← repeat_M (Z.to_nat count) read_interface;
    mret (DeviceInformation al interfaces)
  else if bool_decide (k = 4) then
    n ← t_octet; groups ← repeat_M (Z.to_nat n) read_group; mret (BridgingCapability groups)
  else if bool_decide (k = 6) then
    local ← t_take 6; ns ← remaining_records 6 (t_take 6); mret (Non1905Neighbors local ns)
  else if bool_decide (k = 7) then
    local ← t_take 6; ns ← remaining_records 7 read_neighbor; mret (Neighbors1905 local ns)
  else raise UNSUPPORTED_OPERATION "topology TLV is not implemented".

(** [decode_topology(kind, data)] *)
Definition decode_topology (k : Z) (data : bytes) : result Topology :=
  _ ← raise_if (bool_decide (MAX_VALUE < len data)) INVALID_INPUT "invalid topology input size";
  ((v ← topology_body k;
    _ ← finish_or (mkEmosaError INVALID_INPUT "trailing topology value bytes"); mret v)
   (mkReader data 0)).1.

(** ** Theory *)

Lemma address_Ok a m : mac a = Ok m ↔ m = a ∧ length a = 6%nat.
Proof. unfold mac. case_bool_decide; unfold invalid; naive_solver. Qed.

Lemma topology_count_Ok {A} (l : list A) b :
  topology_count l = Ok b → b = [Z_to_byte (len l)] ∧ 0 ≤ len l < 256.
Proof.
  unfold topology_count, uint, invalid. case_bool_decide as Hb; [|intros Hx; discriminate Hx]. change (2 ^ 8) with 256 in Hb.
  by intros [= <-].
Qed.

(** Reception is at most stricter than transmission by the reserved role bits. *)
Lemma media_receive i : media i true = Ok tt → media i false = Ok tt ∧ 0 ≤ media_type i < 65536 ∧
  len (media_specific i) < 256.
Proof.
  unfold media, uint, invalid. change (2 ^ 16) with 65536.
  destruct (bool_decide (0 ≤ media_type i < 65536)) eqn:Hr; simpl; [|intros Hx; discriminate Hx].
  apply bool_decide_eq_true in Hr.
  destruct (media_lengths (media_type i)) as [n|] eqn:En; [|done]. intros H.
  rewrite raise_if_bind_Ok in H |- *. destruct H as [Hl H]. apply negb_false_iff, bool_decide_eq_true in Hl.
  assert (Hn : n < 256).
  { unfold media_lengths in En. repeat case_bool_decide; simplify_eq; lia. }
  split; [|split; [done|lia]]. split; [by rewrite bool_decide_eq_true_2|].
  case_bool_decide; [|done]. rewrite raise_if_bind_Ok in H |- *. destruct H as [Hr2 _]. by split.
Qed.

Lemma extend_interface_Ok v i r :
  extend_interface v i = Ok r →
  let bs := li_mac i ++ be_bytes 2 (media_type i) ++ [Z_to_byte (len (media_specific i))] ++ media_specific i in
  r = v ++ bs ∧ reads read_interface i bs.
Proof.
  unfold extend_interface. intros H. apply result_bind_Ok in H as ([] & Hm & H).
  apply result_bind_Ok in H as (m & [-> Hlen]%address_Ok & H). injection H as <-.
  apply media_receive in Hm as (Hm & Hk & Hs). split; [done|].
  unfold read_interface. eapply reads_bind; [by apply reads_take|]. cbn beta.
  eapply reads_bind; [by apply reads_take|]. cbn beta.
  eapply reads_bind; [apply reads_octet; unfold len in *; lia|]. cbn beta.
  apply (reads_eq _ i (media_specific i ++ [])); [|done|apply app_nil_r].
  eapply reads_bind; [apply reads_take; unfold len; lia|]. cbn beta.
  rewrite be_int_be_bytes by (simpl; lia).
  destruct i as [a k s]. apply (reads_lift_bind _ _ tt); [done|]. apply reads_ret.
Qed.

Lemma extend_address_Ok v a r : extend_mac v a = Ok r → r = v ++ a ∧ length a = 6%nat.
Proof. unfold extend_mac. intros (m & [-> ?]%address_Ok & [= <-])%result_bind_Ok. done. Qed.

Lemma macs_Ok l v r :
  fold_result extend_mac v l = Ok r →
  r = v ++ concat l ∧ Forall (λ a, length a = 6%nat) l ∧ reads (repeat_M (length l) (t_take 6)) l (concat l).
Proof.
  intros H. apply (fold_result_app _ id _ _ _ _ extend_address_Ok) in H as [-> Hall].
  assert (Hc : l ≫= id = concat l) by (clear; induction l as [|s l IH]; simpl; [done|by rewrite <- IH]).
  rewrite Hc. split; [done|]. split; [done|]. rewrite <- Hc. rewrite Forall_forall in Hall.
  apply reads_repeat; [done|]. intros a Ha. by apply reads_take; apply Hall.
Qed.

Lemma extend_group_Ok v g r :
  extend_group v g = Ok r →
  r = v ++ (Z_to_byte (len g) :: concat g) ∧ reads read_group g (Z_to_byte (len g) :: concat g).
Proof.
  unfold extend_group. intros (n & [-> Hn]%topology_count_Ok & H)%result_bind_Ok.
  apply macs_Ok in H as (-> & _ & Hr). rewrite <- app_assoc. split; [done|].
  change (Z_to_byte (len g) :: concat g) with ([Z_to_byte (len g)] ++ concat g).
  eapply reads_bind; [by apply reads_octet|]. unfold len. by rewrite Nat2Z.id.
Qed.

Lemma extend_neighbor_Ok v n r :
  extend_neighbor v n = Ok r →
  let bs := n_al_mac n ++ [Z_to_byte (if bridges_present n then 0x80 else 0)] in
  r = v ++ bs ∧ (length bs = 7%nat ∧ reads read_neighbor n bs).
Proof.
  unfold extend_neighbor. intros (m & [-> Hl]%address_Ok & [= <-])%result_bind_Ok. split; [done|].
  split; [rewrite length_app; simpl; lia|].
  unfold read_neighbor. eapply reads_bind; [by apply reads_take|]. cbn beta.
  eapply reads_eq; [apply reads_bind_ret, (reads_octet truncated (if bridges_present n then 0x80 else 0));
    destruct (bridges_present n); lia| |done].
  by destruct n as [a []].
Qed.

(** The records that fill the rest of the value. *)
Lemma remaining_records_Ok {A} size (m : M Reader A) l pre bs :
  0 < size → len bs = size * len l → reads (repeat_M (length l) m) l bs →
  remaining_records size m (mkReader (pre ++ bs) (length pre)) =
  (Ok l, mkReader (pre ++ bs) (length pre + length bs)).
Proof.
  intros Hs Hl Hr. unfold remaining_records. rewrite (M_bind_run get _ _ _ _ eq_refl).
  cbn [r_value r_offset].
  assert (len (pre ++ bs) - Z.of_nat (length pre) = size * len l) as ->.
  { rewrite len_app, Hl. unfold len. lia. }
  rewrite Z.mul_comm, Z.mod_mul, Z.div_mul by lia. unfold lift, mbind, M_mbind. simpl.
  specialize (Hr pre []). rewrite app_nil_r in Hr. unfold len. rewrite Nat2Z.id. done.
Qed.

(** A value whose body consumes it all. *)
Lemma topology_whole k v bs :
  len bs ≤ MAX_VALUE → topology_body k (mkReader bs 0) = (Ok v, mkReader bs (length bs)) →
  decode_topology k bs = Ok v.
Proof.
  intros Hl Hb. unfold decode_topology. rewrite bool_decide_eq_false_2 by lia. simpl.
  rewrite (M_bind_run _ _ _ _ _ Hb). unfold finish_or, mbind, M_mbind; simpl.
  by rewrite bool_decide_eq_true_2.
Qed.

Lemma reads_run {A} (m : M Reader A) a bs :
  reads m a bs → m (mkReader bs 0) = (Ok a, mkReader bs (length bs)).
Proof. intros H. specialize (H [] []). by rewrite app_nil_r in H. Qed.

(** A neighbour list: the local interface and the records. *)
Lemma neighbors_run {A} size (m : M Reader A) (g : bytes → list A → Topology) local l bs :
  length local = 6%nat → reads (repeat_M (length l) m) l bs → len bs = size * len l → 0 < size →
  (local ← t_take 6; ns ← remaining_records size m; mret (g local ns)) (mkReader (local ++ bs) 0) =
  (Ok (g local l), mkReader (local ++ bs) (length (local ++ bs))).
Proof.
  intros Hal Hr Hl Hs. pose proof (reads_take truncated 6 local Hal [] bs) as Ht. simpl in Ht.
  rewrite (M_bind_run _ _ _ _ _ Ht).
  rewrite (M_bind_run _ _ _ _ _ (remaining_records_Ok size m l local bs Hs Hl Hr)).
  by rewrite length_app.
Qed.

(** Reading back what was encoded. *)
Lemma topology_read (v : Topology) (bs : bytes) :
  encode_topology v = Ok bs → len bs ≤ MAX_VALUE ∧ decode_topology (topology_kind v) bs = Ok v.
Proof.
  unfold encode_topology. intros H. apply result_bind_Ok in H as (data & Hd & H).
  apply raise_if_bind_Ok in H as [Hmax%bool_decide_eq_false H]. injection H as ->.
  split; [lia|]. apply topology_whole; [lia|]. destruct v as [al ifs|ts|local ns|local ns].
  - apply result_bind_Ok in Hd as (m & [-> Hal]%address_Ok & Hd).
    apply result_bind_Ok in Hd as (n & [-> Hn]%topology_count_Ok & Hd).
    apply (fold_result_app _ _ _ _ _ _ extend_interface_Ok) in Hd as [-> Hall].
    apply reads_run. change (topology_body _) with (al ← t_take 6; count ← t_octet;
      interfaces ← repeat_M (Z.to_nat count) read_interface; mret (DeviceInformation al interfaces)).
    rewrite <- app_assoc. eapply reads_bind; [by apply reads_take|]. cbn beta.
    eapply reads_bind; [by apply reads_octet|]. apply reads_bind_ret. rewrite Forall_forall in Hall.
    apply reads_repeat; [unfold len; lia|done].
  - apply result_bind_Ok in Hd as (n & [-> Hn]%topology_count_Ok & Hd).
    apply (fold_result_app _ _ _ _ _ _ extend_group_Ok) in Hd as [-> Hall].
    apply reads_run. change (topology_body _) with (n ← t_octet;
      groups ← repeat_M (Z.to_nat n) read_group; mret (BridgingCapability groups)).
    eapply reads_bind; [by apply reads_octet|]. apply reads_bind_ret. rewrite Forall_forall in Hall.
    apply reads_repeat; [unfold len; lia|done].
  - apply result_bind_Ok in Hd as (m & [-> Hal]%address_Ok & Hd). apply result_bind_Ok in Hd as ([] & _ & Hd).
    apply macs_Ok in Hd as (-> & Hall & Hr).
    change (topology_body _) with (local ← t_take 6; ns ← remaining_records 6 (t_take 6);
      mret (Non1905Neighbors local ns)).
    eapply (neighbors_run 6 (t_take 6) Non1905Neighbors); [done|done| |lia].
    clear -Hall. induction Hall as [|a ns Ha _ IH]; [done|]. simpl. rewrite len_app, IH.
    unfold len. simpl. lia.
  - apply result_bind_Ok in Hd as (m & [-> Hal]%address_Ok & Hd). apply result_bind_Ok in Hd as ([] & _ & Hd).
    apply (fold_result_app _ _ _ _ _ _ extend_neighbor_Ok) in Hd as [-> Hall].
    change (topology_body _) with (local ← t_take 6; ns ← remaining_records 7 read_neighbor;
      mret (Neighbors1905 local ns)).
    rewrite Forall_forall in Hall.
    eapply (neighbors_run 7 read_neighbor Neighbors1905); [done| | |lia].
    + apply reads_repeat; [done|]. intros n Hn. apply Hall, Hn.
    + clear -Hall. induction ns as [|n ns IH]; [done|].
      rewrite bind_cons, len_app, IH by (intros; apply Hall; by right).
      destruct (Hall n (list_elem_of_here _ _)) as [Hn _]. unfold len in *. rewrite Hn. simpl. lia.
Qed.

(** * Properties *)

(** Every topology value the adapter sends is read back exactly as it was, and fits a TLV. *)
Theorem topology_roundtrip (v : Topology) (bs : bytes) :
  encode_topology v = Ok bs → len bs ≤ MAX_VALUE ∧ decode_topology (topology_kind v) bs = Ok v.
Proof. apply topology_read. Qed.

Definition example_topology : Topology :=
  DeviceInformation (octets [2; 0; 0; 0; 0; 1])
    [mkLocalInterface (octets [2; 0; 0; 0; 0; 2]) 1 [];
     mkLocalInterface (octets [2; 0; 0; 0; 0; 3]) 0x105 (octets [2; 0; 0; 0; 0; 4; 0x40; 0; 36; 0])].

Lemma topology_roundtrip_witness :
  ∃ bs, encode_topology example_topology = Ok bs ∧ decode_topology 3 bs = Ok example_topology.
Proof.
  eexists. split; [vm_compute; reflexivity|].
  apply (topology_roundtrip example_topology). vm_compute. reflexivity.
Defined.
