(* ===== verification/TopologyBindings.v ===== *)
(** * The registry of virtual-agent identities: [src/emosa/topology_bindings.py]

    The identities a configuration binds to each pod, pinned in the journal: canonical form,
    uniqueness across pods and the merge that keeps every pinned identity. The registry is the
    insertion-ordered dictionary of the code, as an association list. Strings are their UTF-8
    octets, so that their order is Python's. *)

From stdpp Require Import sorting.
From S2P Require Import Prelude.

Definition MAX_INTERFACES : nat := 64.
Definition MAX_RETAINED_PODS : nat := 32.

Record Interface := mkInterface {
  interface_id : string;
  v_if_name : string;
  mode : string;
  v_expected_mac : string
}.
Record Radio := mkRadio {
  r_radio_id : string;
  r_if_name : string;
  ruid : string;
  r_expected_mac : string;
  interfaces : list Interface
}.
(** A [virtual_agent]; its topology is optional. *)
Record VirtualAgent := mkVirtualAgent {
  al_mac : string;
  expected_serial : string;
  topology : option (list Radio)
}.
Record Pod := mkPod {
  pod_id : string;
  radio_id : string;
  radio_name : string;
  bss_id : string;
  if_name : string;
  virtual_agent : option VirtualAgent
}.
(** What [canonical_binding] returns: the agent with its pod and its sorted topology. *)
Record Binding := mkBinding {
  b_pod_id : string;
  b_al_mac : string;
  b_serial : string;
  b_radios : list Radio
}.

#[export] Instance Interface_eq_dec : EqDecision Interface.
Proof. solve_decision. Defined.
#[export] Instance Radio_eq_dec : EqDecision Radio.
Proof. solve_decision. Defined.
#[export] Instance Binding_eq_dec : EqDecision Binding.
Proof. solve_decision. Defined.

Definition require (condition : bool) (m : string) : result unit := raise_if (negb condition) INVALID_INPUT m.

(** [list.sort(key=key)] *)
Definition key_le {A} (key : A → string) (x y : A) : Prop := String.le (key x) (key y).
#[export] Instance key_le_dec {A} (key : A → string) : RelDecision (key_le key).
Proof. intros x y. unfold key_le. apply _. Defined.
Definition sort_by {A} (key : A → string) (l : list A) : list A := merge_sort (key_le key) l.

Definition sort_radio (r : Radio) : Radio :=
  mkRadio (r_radio_id r) (r_if_name r) (ruid r) (r_expected_mac r) (sort_by interface_id (interfaces r)).

(** [canonical_binding(pod)] *)
Definition canonical_binding (pod : Pod) : option Binding :=
  agent ← virtual_agent pod;
  radios ← topology agent;
  Some (mkBinding (pod_id pod) (al_mac agent) (expected_serial agent)
          (sort_radio <$> sort_by r_radio_id radios)).

Definition distinct (l : list string) : bool := bool_decide (NoDup l).

Definition all_interfaces (b : Binding) : list Interface := b_radios b ≫= interfaces.

(** The checks of one profile. *)
Definition check_profile (b : Binding) : result unit :=
  let radios := b_radios b in
  let vs := all_interfaces b in
  _ ← require (bool_decide (length vs ≤ MAX_INTERFACES)%nat) "topology interface budget exhausted";
  check_each (λ values, require (distinct values) "duplicate topology identity or interface name")
    [r_radio_id <$> radios; r_if_name <$> radios; interface_id <$> vs; v_if_name <$> vs].

(** [validate_profiles(profiles, other_al_macs=others)], on the dictionary's values. *)
Definition validate_profiles (profiles : list Binding) (others : list string) : result unit :=
  _ ← require (bool_decide (length profiles ≤ MAX_RETAINED_PODS)%nat) "topology registry pod budget exhausted";
  _ ← require (distinct (b_serial <$> profiles)) "duplicate retained topology serial binding";
  _ ← check_each check_profile profiles;
  check_each (λ values,
      _ ← require (distinct values) "topology address collision";
      require (negb (bool_decide ("00:00:00:00:00:00" ∈ values))) "zero topology address")
    [(others ++ (b_al_mac <$> profiles)) ++ (profiles ≫= λ b, ruid <$> b_radios b);
     profiles ≫= λ b, r_expected_mac <$> b_radios b;
     profiles ≫= λ b, v_expected_mac <$> all_interfaces b].

(** ** The registry: an insertion-ordered dictionary *)

Definition registry : Type := list (string * Binding).

Definition reg_get (k : string) (m : registry) : option Binding :=
  snd <$> (snd <$> list_find (λ kv, kv.1 = k) m).

(** [m[k] = v] *)
Definition reg_set (k : string) (v : Binding) (m : registry) : registry :=
  if bool_decide (k ∈ m.*1) then (λ kv, if bool_decide (kv.1 = k) then (k, v) else kv) <$> m
  else m ++ [(k, v)].

(** The AL MACs of agents that have no retained topology. *)
Definition other_al_macs (pods : list Pod) (m : registry) : list string :=
  omap (λ p, if bool_decide (pod_id p ∈ m.*1) then None else al_mac <$> virtual_agent p) pods.

(** One iteration of [merge_registry]'s loop. *)
Definition merge_pod (saved : registry) (merged : registry) (pod : Pod) : result registry :=
  let value := canonical_binding pod in
  let prior := reg_get (pod_id pod) saved in
  _ ← raise_if (bool_decide (prior ≠ None) && negb (bool_decide (prior = value))) PRECONDITION_FAILED
        "persisted topology binding differs; explicit migration is required";
  Ok (match value with Some v => reg_set (pod_id pod) v merged | None => merged end).

(** [merge_registry(saved, pods)] *)
Definition merge_registry (saved : registry) (pods : list Pod) : result registry :=
  merged ← fold_result (merge_pod saved) saved pods;
  _ ← validate_profiles merged.*2 (other_al_macs pods merged);
  Ok merged.

(** [validate_config_topologies(pods)] *)
Definition config_profiles (pods : list Pod) : registry :=
  foldl (λ m p, match canonical_binding p with Some b => reg_set (pod_id p) b m | None => m end) [] pods.

Definition check_designated (profiles : registry) (pod : Pod) : result unit :=
  match reg_get (pod_id pod) profiles with
  | None => Ok tt
  | Some b =>
      match filter (λ r, r_radio_id r = radio_id pod) (b_radios b) with
      | [r] =>
          _ ← require (bool_decide (r_if_name r = radio_name pod)) "topology does not bind designated radio";
          require (existsb (λ v, bool_decide (interface_id v = bss_id pod)
                                 && bool_decide (v_if_name v = if_name pod)
                                 && bool_decide (mode v = "ap")) (interfaces r))
            "topology does not bind designated BSS"
      | _ => require false "topology does not bind designated radio"
      end
  end.

Definition validate_config_topologies (pods : list Pod) : result unit :=
  let profiles := config_profiles pods in
  _ ← validate_profiles profiles.*2 (other_al_macs pods profiles);
  check_each (check_designated profiles) pods.

(** ** The registry in the journal: [Store.pin_topologies] of [store.py] *)

(** What the method sees of the journal: whether it is read-only, and the row of the metadata table: none, a text
    that is no dictionary, or a registry (only this method writes one). *)
Record Journal := mkJournal { read_only : bool; registry_row : option (option registry) }.
#[export] Instance eta_Journal : Eta Journal := λ j, mkJournal (read_only j) (registry_row j).

(** [json.dumps(merged, sort_keys=True)], as it is read back *)
Definition dumped (m : registry) : registry := sort_by fst m.

(** [pin_topologies(pods)]: the bindings of the configured pods *)
Definition pin_topologies (pods : list Pod) : M Journal registry :=
  j ← get;
  _ ← lift (raise_if (read_only j) UNSUPPORTED_OPERATION "read-only journal");
  saved ← lift match registry_row j with
               | None => Ok []
               | Some None => Raise (mkEmosaError SCHEMA_MISMATCH "invalid persisted topology registry")
               | Some (Some m) => Ok m
               end;
  merged ← lift (merge_registry saved pods);
  _ ← (if bool_decide (list_to_map merged = (list_to_map saved : gmap string Binding)) then mret tt
       else modify (λ j, j <| registry_row := Some (Some (dumped merged)) |>));
  mret (foldl (λ m p, from_option (λ b, reg_set (pod_id p) b m) m (reg_get (pod_id p) merged)) [] pods).

(** ** Theory *)

Lemma sort_by_elem {A} (key : A → string) (l : list A) x : x ∈ sort_by key l ↔ x ∈ l.
Proof. unfold sort_by. by rewrite merge_sort_Permutation. Qed.

Lemma reg_get_Some k m v : reg_get k m = Some v → (k, v) ∈ m.
Proof.
  unfold reg_get. destruct (list_find _ m) as [[i [k' v']]|] eqn:E; [|done]. simpl. intros [= ->].
  apply list_find_Some in E as (Hi & Hk & _). simpl in Hk. subst. by eapply list_elem_of_lookup_2.
Qed.

Lemma reg_get_None k m : reg_get k m = None ↔ k ∉ m.*1.
Proof.
  unfold reg_get. destruct (list_find _ m) as [[i kv]|] eqn:E; simpl.
  - apply list_find_Some in E as (Hi & Hk & _). split; [done|]. intros Hn. destruct Hn.
    rewrite <- Hk. apply list_elem_of_fmap_2. by eapply list_elem_of_lookup_2.
  - apply list_find_None in E. rewrite Forall_forall in E. split; [|done]. intros _ (kv & -> & Hin)%list_elem_of_fmap.
    by apply (E kv Hin).
Qed.

Lemma reg_get_elem k v m : NoDup m.*1 → (k, v) ∈ m → reg_get k m = Some v.
Proof.
  intros Hnd Hin. destruct (reg_get k m) as [v'|] eqn:E.
  - apply reg_get_Some in E. f_equal.
    by assert ((k, v') = (k, v)) as [= ->] by (by apply (NoDup_fmap_eq fst m)).
  - apply reg_get_None in E. destruct E. by apply (list_elem_of_fmap_2 fst _ _ Hin).
Qed.

Lemma reg_set_keys k v m : (reg_set k v m).*1 = if bool_decide (k ∈ m.*1) then m.*1 else m.*1 ++ [k].
Proof.
  unfold reg_set. case_bool_decide as Hk; [|by rewrite fmap_app].
  rewrite <- list_fmap_compose. apply list_fmap_ext. intros i [k' v'] _. simpl.
  case_bool_decide; naive_solver.
Qed.

Lemma reg_set_NoDup k v m : NoDup m.*1 → NoDup (reg_set k v m).*1.
Proof.
  intros Hnd. rewrite reg_set_keys. case_bool_decide; [done|]. apply NoDup_app. split; [done|].
  split; [|by apply NoDup_singleton]. intros x Hx ->%list_elem_of_singleton. done.
Qed.

Lemma reg_set_elem k v m k' v' :
  NoDup m.*1 → (k', v') ∈ reg_set k v m ↔ (k' = k ∧ v' = v) ∨ (k' ≠ k ∧ (k', v') ∈ m).
Proof.
  intros Hnd. unfold reg_set. case_bool_decide as Hk.
  - rewrite list_elem_of_fmap. split.
    + intros ([k0 v0] & Heq & Hin). simpl in Heq. case_bool_decide; simplify_eq; auto.
    + intros [[-> ->]|[Hne Hin]].
      * apply list_elem_of_fmap in Hk as ([k0 v0] & Hk0 & Hin). simpl in Hk0. subst. exists (k0, v0).
        by rewrite bool_decide_eq_true_2.
      * exists (k', v'). simpl. by rewrite bool_decide_eq_false_2.
  - rewrite elem_of_app, list_elem_of_singleton. split.
    + intros [Hin|[= -> ->]]; [|by left]. right. split; [|done]. intros ->.
      destruct Hk. by apply (list_elem_of_fmap_2 fst _ _ Hin).
    + naive_solver.
Qed.

(** Setting what is there changes nothing. *)
Lemma reg_set_same k v m : NoDup m.*1 → (k, v) ∈ m → reg_set k v m = m.
Proof.
  intros Hnd Hin. unfold reg_set.
  rewrite bool_decide_eq_true_2 by by apply (list_elem_of_fmap_2 fst _ _ Hin).
  rewrite <- (list_fmap_id m) at 2. apply list_fmap_ext. intros i [k' v'] Hi. simpl.
  case_bool_decide as Hk; [|done]. subst k'. f_equal.
  apply list_elem_of_lookup_2 in Hi. apply reg_get_elem in Hin; [|done]. apply reg_get_elem in Hi; [|done].
  congruence.
Qed.

(** The bindings of the pods whose topology was merged. *)
Record merge_ok (saved merged : registry) (pods : list Pod) : Prop := {
  m_keys : NoDup merged.*1;
  m_saved : ∀ k v, (k, v) ∈ saved → (k, v) ∈ merged;
  m_from : ∀ k v, (k, v) ∈ merged →
    (k, v) ∈ saved ∨ ∃ p, p ∈ pods ∧ pod_id p = k ∧ canonical_binding p = Some v;
  m_bound : ∀ p v, p ∈ pods → canonical_binding p = Some v → (pod_id p, v) ∈ merged
}.

(** One pod more. *)
Lemma merge_pod_ok saved merged dn p merged' :
  NoDup saved.*1 → NoDup (pod_id <$> dn ++ [p]) → merge_ok saved merged dn →
  merge_pod saved merged p = Ok merged' →
  merge_ok saved merged' (dn ++ [p]) ∧
  (reg_get (pod_id p) saved = None ∨ reg_get (pod_id p) saved = canonical_binding p).
Proof.
  intros Hsaved Hpods [Hnd Hsub Hfrom Hbound]. unfold merge_pod. intros (Hc & [= <-])%raise_if_bind_Ok.
  rewrite decide_andb_false, negb_false_iff, bool_decide_eq_true in Hc.
  assert (Hp : reg_get (pod_id p) saved = None ∨ reg_get (pod_id p) saved = canonical_binding p).
  { destruct (reg_get (pod_id p) saved); [right; by apply Hc|by left]. }
  split; [|done]. rewrite fmap_app in Hpods. apply NoDup_app in Hpods as (_ & Hdisj & _).
  destruct (canonical_binding p) as [v|] eqn:Ev; split.
  - by apply reg_set_NoDup.
  - intros k v' Hin. rewrite reg_set_elem by done. destruct (decide (k = pod_id p)) as [->|]; [|auto].
    left. split; [done|]. apply (reg_get_elem _ _ _ Hsaved) in Hin. destruct Hp; congruence.
  - intros k v'. rewrite reg_set_elem by done. intros [[-> ->]|[_ Hin]].
    + right. exists p. rewrite Ev. set_solver.
    + apply Hfrom in Hin as [?|(q & Hq & ?)]; [by left|]. right. exists q. set_solver.
  - intros q v' [Hq|Hq%list_elem_of_singleton]%elem_of_app Hv'; rewrite reg_set_elem by done.
    + right. split; [|by apply Hbound]. intros Heq. apply (Hdisj (pod_id q)); [by apply list_elem_of_fmap_2|].
      rewrite Heq. by apply list_elem_of_singleton.
    + subst q. left. split; [done|congruence].
  - done.
  - done.
  - intros k v' Hin. apply Hfrom in Hin as [?|(q & Hq & ?)]; [by left|]. right. exists q. set_solver.
  - intros q v' [Hq|Hq%list_elem_of_singleton]%elem_of_app Hv'; [by apply Hbound|]. congruence.
Qed.

Lemma merge_loop saved pods dn merged merged' :
  NoDup saved.*1 → NoDup (pod_id <$> dn ++ pods) → merge_ok saved merged dn →
  fold_result (merge_pod saved) merged pods = Ok merged' →
  merge_ok saved merged' (dn ++ pods) ∧
  (∀ p, p ∈ pods → reg_get (pod_id p) saved = None ∨ reg_get (pod_id p) saved = canonical_binding p).
Proof.
  intros Hsaved. revert dn merged. induction pods as [|p pods IH]; intros dn merged Hnd Hok; simpl.
  - intros [= <-]. rewrite app_nil_r. split; [done|]. by intros p Hp%not_elem_of_nil.
  - intros (m1 & Hm1 & Hl)%result_bind_Ok.
    rewrite (cons_middle p dn pods), app_assoc in Hnd.
    apply (merge_pod_ok saved merged dn p) in Hm1 as [Hok1 Hp]; [|done| |done].
    + apply (IH (dn ++ [p])) in Hl as [Hm Hall]; [|done|done].
      rewrite <- app_assoc in Hm. split; [done|]. intros q [->|Hq]%elem_of_cons; auto.
    + rewrite fmap_app in Hnd. by apply NoDup_app in Hnd as (? & _).
Qed.

(** After a merge every configured pod has its canonical binding, or none. *)
Lemma merged_binding saved merged pods p :
  NoDup saved.*1 → NoDup (pod_id <$> pods) → merge_ok saved merged pods → p ∈ pods →
  reg_get (pod_id p) saved = None ∨ reg_get (pod_id p) saved = canonical_binding p →
  reg_get (pod_id p) merged = canonical_binding p.
Proof.
  intros Hsaved Hpods [Hnd Hsub Hfrom Hbound] Hp Hprior.
  destruct (canonical_binding p) as [v|] eqn:Ev; [by apply reg_get_elem; auto|].
  apply reg_get_None. intros ([k v] & Hk & Hin)%list_elem_of_fmap. simpl in Hk. apply Hfrom in Hin as [Hin|(q & Hq & Hqk & Hqv)].
  - apply (reg_get_elem _ _ _ Hsaved) in Hin. rewrite Hk in Hprior. destruct Hprior; congruence.
  - assert (q = p) as -> by (apply (NoDup_fmap_eq pod_id pods); congruence). congruence.
Qed.

#[export] Instance key_le_total {A} (key : A → string) : Total (key_le key).
Proof. intros x y. apply (total String.le). Qed.
#[export] Instance key_le_trans {A} (key : A → string) : Transitive (key_le key).
Proof. intros x y z. unfold key_le. by etrans. Qed.

(** Sorting by a key that is unique does not see the order of the input. *)
Lemma sort_by_perm {A} (key : A → string) (l1 l2 : list A) :
  l1 ≡ₚ l2 → NoDup (key <$> l1) → sort_by key l1 = sort_by key l2.
Proof.
  intros Hp Hnd. unfold sort_by.
  assert (H1 : merge_sort (key_le key) l1 ≡ₚ l1) by apply merge_sort_Permutation.
  assert (H2 : merge_sort (key_le key) l2 ≡ₚ l1) by (rewrite Hp; apply merge_sort_Permutation).
  apply (StronglySorted_unique_strong (key_le key)).
  - intros x y Hx Hy Hxy Hyx. rewrite H1 in Hx. rewrite H2 in Hy.
    apply (NoDup_fmap_eq key l1); try done. by apply (anti_symm String.le).
  - apply StronglySorted_merge_sort; apply _.
  - apply StronglySorted_merge_sort; apply _.
  - by rewrite H1, H2.
Qed.

Lemma NoDup_bind_disjoint {A B} (f : A → list B) l i j x y z :
  NoDup (l ≫= f) → l !! i = Some x → l !! j = Some y → i ≠ j → z ∈ f x → z ∉ f y.
Proof.
  revert i j. induction l as [|a l IH]; intros i j Hnd Hi Hj Hne Hz; [done|].
  rewrite bind_cons in Hnd. apply NoDup_app in Hnd as (_ & Hd & Hnd).
  destruct i as [|i], j as [|j]; simpl in Hi, Hj; simplify_eq.
  - intros Hz2. apply (Hd z Hz). apply list_elem_of_bind. exists y. split; [done|]. by eapply list_elem_of_lookup_2.
  - intros Hz2. apply (Hd z Hz2). apply list_elem_of_bind. exists x. split; [done|]. by eapply list_elem_of_lookup_2.
  - apply (IH i j); auto.
Qed.

Lemma validate_profiles_Ok profiles others :
  validate_profiles profiles others = Ok tt →
  (length profiles ≤ MAX_RETAINED_PODS)%nat ∧ NoDup (b_serial <$> profiles) ∧
  NoDup ((others ++ (b_al_mac <$> profiles)) ++ (profiles ≫= λ b, ruid <$> b_radios b)) ∧
  NoDup (profiles ≫= λ b, r_expected_mac <$> b_radios b) ∧
  NoDup (profiles ≫= λ b, v_expected_mac <$> all_interfaces b).
Proof.
  unfold validate_profiles, require. rewrite !raise_if_bind_Ok, !negb_false_iff.
  unfold distinct. rewrite !bool_decide_eq_true. intros (Hl & Hs & H).
  apply result_bind_Ok in H as ([] & _ & H). apply check_each_Ok in H.
  repeat (apply Forall_cons in H as [?H H]).
  repeat match goal with X : raise_if _ _ _ ≫= _ = Ok _ |- _ =>
    apply raise_if_bind_Ok in X as [?X%negb_false_iff%bool_decide_eq_true _] end.
  done.
Qed.

(** The binding of a pod in the journal. *)
Definition pinned (k : string) (j : Journal) : option Binding :=
  match registry_row j with Some (Some m) => reg_get k m | _ => None end.
(** The journal's row is a dictionary. *)
Definition journal_ok (j : Journal) : Prop := match registry_row j with Some (Some m) => NoDup m.*1 | _ => True end.

Lemma dumped_get k m : NoDup m.*1 → NoDup (dumped m).*1 ∧ reg_get k (dumped m) = reg_get k m.
Proof.
  intros Hnd. assert (Hp : dumped m ≡ₚ m) by apply merge_sort_Permutation.
  assert (Hnd' : NoDup (dumped m).*1) by by rewrite Hp. split; [done|].
  destruct (reg_get k m) as [v|] eqn:E; [apply reg_get_elem; [done|]; rewrite Hp; by apply reg_get_Some|].
  apply reg_get_None. apply reg_get_None in E. by rewrite Hp.
Qed.

(** A run of the adapter on a journal: configurations pinned one after another, a refused one ending its process. *)
Definition pin_all (l : list (list Pod)) (j : Journal) : Journal := foldl (λ j pods, (pin_topologies pods j).2) j l.

(** * Properties *)

(** A pinned identity is never silently replaced. When a configuration is merged, every binding
    the registry held is still there unchanged (of pods that left the configuration too), a pod
    whose declared topology differs from its pinned one, or was dropped, is refused, every other
    entry is the canonical binding of a configured pod; and merging the same configuration again
    changes nothing. *)
Theorem registry_never_repins (saved : registry) (pods : list Pod) (m : registry) :
  NoDup saved.*1 → NoDup (pod_id <$> pods) → merge_registry saved pods = Ok m →
  (∀ k v, reg_get k saved = Some v → reg_get k m = Some v) ∧
  (∀ p, p ∈ pods → reg_get (pod_id p) saved = None ∨ reg_get (pod_id p) saved = canonical_binding p) ∧
  (∀ k v, reg_get k m = Some v → reg_get k saved = Some v ∨
     ∃ p, p ∈ pods ∧ pod_id p = k ∧ canonical_binding p = Some v) ∧
  merge_registry m pods = Ok m.
Proof.
  intros Hnd Hpods. unfold merge_registry. intros (m' & Hm & H)%result_bind_Ok.
  apply result_bind_Ok in H as ([] & Hv & [= ->]).
  destruct (merge_loop saved pods [] saved m Hnd Hpods) as [Hok Hpr]; [|done|].
  { split; [done|done|auto|]. by intros p v Hp%not_elem_of_nil. }
  pose proof Hok as [Hnd' Hsub Hfrom _].
  split; [intros k v ?%reg_get_Some; by apply reg_get_elem; auto|]. split; [done|]. split.
  - intros k v [Hin|Hin]%reg_get_Some%Hfrom; [left; by apply reg_get_elem|by right].
  - assert (Hall : ∀ p, p ∈ pods → reg_get (pod_id p) m = canonical_binding p).
    { intros p Hp. apply (merged_binding saved m pods p Hnd Hpods); [exact Hok|done|by apply Hpr]. }
    assert (Hfix : fold_result (merge_pod m) m pods = Ok m).
    { clear -Hall Hnd'. induction pods as [|p pods IH]; [done|]. cbn [fold_result].
      assert (Hp : merge_pod m m p = Ok m).
      { unfold merge_pod. rewrite (Hall p) by apply list_elem_of_here.
        rewrite (bool_decide_eq_true_2 (canonical_binding p = canonical_binding p)) by done.
        rewrite andb_false_r. simpl. destruct (canonical_binding p) as [v|] eqn:Ev; [|done].
        rewrite reg_set_same; [done|done|]. apply reg_get_Some. rewrite (Hall p) by apply list_elem_of_here. done. }
      rewrite Hp. simpl. apply IH. intros; by apply Hall, list_elem_of_further. }
    rewrite Hfix. simpl. by rewrite Hv.
Qed.

Definition example_radio (n : string) : Radio :=
  mkRadio ("radio-" +:+ n) ("wifi" +:+ n) ("02:00:00:00:01:0" +:+ n) ("00:00:00:00:02:0" +:+ n)
    [mkInterface ("vif-" +:+ n) ("home-" +:+ n) "ap" ("00:00:00:00:03:0" +:+ n)].
Definition example_pod (radios : list Radio) : Pod :=
  mkPod "pod-1" "radio-1" "wifi1" "vif-1" "home-1"
    (Some (mkVirtualAgent "02:00:00:00:00:01" "serial-1" (Some radios))).
Definition example_pods : list Pod := [example_pod [example_radio "2"; example_radio "1"]].

Lemma registry_never_repins_witness :
  ∃ m, merge_registry [] example_pods = Ok m ∧ length m = 1%nat ∧ merge_registry m example_pods = Ok m.
Proof.
  eexists. split; [vm_compute; reflexivity|]. split; [reflexivity|].
  apply (registry_never_repins [] example_pods);
    [constructor|apply (bool_decide_unpack _); vm_compute; exact Logic.I|vm_compute; reflexivity].
Defined.

(** Identities of different pods never collide. In a merged registry two entries have different
    AL MAC addresses and serials, their radios have different RUIDs and hardware addresses, no
    radio's RUID is another entry's AL MAC, and no agent without topology shares an AL MAC either. *)
Theorem registry_identities_unique (saved : registry) (pods : list Pod) (m : registry)
    (i j : nat) (b1 b2 : Binding) :
  merge_registry saved pods = Ok m → m.*2 !! i = Some b1 → m.*2 !! j = Some b2 → i ≠ j →
  b_al_mac b1 ≠ b_al_mac b2 ∧ b_serial b1 ≠ b_serial b2 ∧
  (b_al_mac b1 ∉ other_al_macs pods m) ∧
  ∀ r1, r1 ∈ b_radios b1 → ruid r1 ≠ b_al_mac b2 ∧
    ∀ r2, r2 ∈ b_radios b2 → ruid r1 ≠ ruid r2 ∧ r_expected_mac r1 ≠ r_expected_mac r2.
Proof.
  unfold merge_registry. intros (m' & _ & H)%result_bind_Ok Hi Hj Hne.
  apply result_bind_Ok in H as ([] & Hv & [= ->]).
  apply validate_profiles_Ok in Hv as (_ & Hser & Hal & Hmac & _).
  apply NoDup_app in Hal as (Hal & Hdisj & Hru). apply NoDup_app in Hal as (_ & Hoth & Hal).
  assert (Hal1 : ∀ k b, m.*2 !! k = Some b → b_al_mac b ∈ b_al_mac <$> m.*2).
  { intros k b Hk. apply list_elem_of_fmap_2. by eapply list_elem_of_lookup_2. }
  assert (Hlook : ∀ (f : Binding → string), NoDup (f <$> m.*2) → f b1 ≠ f b2).
  { intros f Hf Heq. apply Hne. apply (NoDup_lookup (f <$> m.*2) i j (f b1)); [done|..];
      rewrite list_lookup_fmap; [by rewrite Hi|by rewrite Hj; simpl; rewrite Heq]. }
  split; [by apply Hlook|]. split; [by apply Hlook|]. split.
  { intros Hin. by apply (Hoth _ Hin), (Hal1 i). }
  intros r1 Hr1. split.
  - intros Heq. apply (Hdisj (b_al_mac b2)); [apply elem_of_app; right; by apply (Hal1 j)|].
    rewrite <- Heq. apply list_elem_of_bind. exists b1. split; [by apply list_elem_of_fmap_2|].
    by eapply list_elem_of_lookup_2.
  - intros r2 Hr2. split; intros Heq.
    + eapply (NoDup_bind_disjoint (λ b, ruid <$> b_radios b)); [exact Hru|exact Hi|exact Hj|done|..].
      * by apply (list_elem_of_fmap_2 ruid _ _ Hr1).
      * rewrite Heq. by apply list_elem_of_fmap_2.
    + eapply (NoDup_bind_disjoint (λ b, r_expected_mac <$> b_radios b)); [exact Hmac|exact Hi|exact Hj|done|..].
      * by apply (list_elem_of_fmap_2 r_expected_mac _ _ Hr1).
      * rewrite Heq. by apply list_elem_of_fmap_2.
Qed.

Definition second_pod : Pod :=
  mkPod "pod-2" "radio-1" "wifi1" "vif-1" "home-1"
    (Some (mkVirtualAgent "02:00:00:00:00:02" "serial-2" (Some [example_radio "3"]))).

Lemma registry_identities_unique_witness :
  ∃ m b1 b2, merge_registry [] (example_pods ++ [second_pod]) = Ok m ∧ m.*2 = [b1; b2] ∧
    b_al_mac b1 ≠ b_al_mac b2.
Proof.
  eexists _, _, _. split; [vm_compute; reflexivity|]. split; [vm_compute; reflexivity|].
  eapply (registry_identities_unique [] (example_pods ++ [second_pod]) _ 0 1);
    [vm_compute; reflexivity|vm_compute; reflexivity|vm_compute; reflexivity|discriminate].
Defined.

(** The order in which a configuration lists a pod's radios is no change of identity: with
    distinct radio identifiers, every order has the same canonical binding. *)
Theorem canonical_order_irrelevant (pod : Pod) (agent : VirtualAgent) (l1 l2 : list Radio) :
  l1 ≡ₚ l2 → NoDup (r_radio_id <$> l1) →
  canonical_binding (mkPod (pod_id pod) (radio_id pod) (radio_name pod) (bss_id pod) (if_name pod)
    (Some (mkVirtualAgent (al_mac agent) (expected_serial agent) (Some l1)))) =
  canonical_binding (mkPod (pod_id pod) (radio_id pod) (radio_name pod) (bss_id pod) (if_name pod)
    (Some (mkVirtualAgent (al_mac agent) (expected_serial agent) (Some l2)))).
Proof.
  intros Hp Hnd. unfold canonical_binding; simpl. by rewrite (sort_by_perm r_radio_id l1 l2 Hp Hnd).
Qed.

Lemma canonical_order_irrelevant_witness :
  canonical_binding (example_pod [example_radio "2"; example_radio "1"]) =
  canonical_binding (example_pod [example_radio "1"; example_radio "2"]).
Proof.
  apply (canonical_order_irrelevant (example_pod [])
    (mkVirtualAgent "02:00:00:00:00:01" "serial-1" None) [example_radio "2"; example_radio "1"]
    [example_radio "1"; example_radio "2"]); [apply perm_swap|].
  apply (bool_decide_unpack _). vm_compute. exact Logic.I.
Defined.

(** One call: it keeps what was pinned; when it returns, every configured pod has its canonical binding, or none, pinned and
    returned; when it raises, nothing was written. *)
Lemma pin_topologies_run pods j r j' :
  journal_ok j → NoDup (pod_id <$> pods) → pin_topologies pods j = (r, j') →
  journal_ok j' ∧ (∀ k b, pinned k j = Some b → pinned k j' = Some b)
  ∧ match r with
    | Ok m => ∀ p, p ∈ pods → pinned (pod_id p) j' = canonical_binding p
    | Raise _ => j' = j
    end.
Proof.
  intros Hok Hpods E. unfold pin_topologies, mbind, M_mbind, get, lift in E. cbn in E.
  destruct (raise_if _ _ _) as [[]|err]; [|by injection E as <- <-].
  set (saved := match registry_row j with Some (Some m) => m | _ => [] end).
  assert (Hs : NoDup saved.*1 ∧ ∀ k, reg_get k saved = pinned k j).
  { unfold saved, pinned, journal_ok in *. destruct (registry_row j) as [[m|]|]; [done| |]; split; (done || constructor). }
  destruct Hs as [Hnd Hget].
  destruct (match registry_row j with None => Ok [] | Some None => _ | Some (Some m) => Ok m end) as [m|err] eqn:Er; [|by injection E as <- <-].
  assert (m = saved) as -> by (unfold saved; destruct (registry_row j) as [[?|]|]; congruence). clear Er.
  destruct (merge_registry saved pods) as [m|err] eqn:Em; [|by injection E as <- <-].
  unfold merge_registry in Em. apply result_bind_Ok in Em as (m' & Hm & Em). apply result_bind_Ok in Em as ([] & _ & [= ->]).
  destruct (merge_loop saved pods [] saved m Hnd Hpods) as [Hmo Hpr]; [split; [done|done|auto|set_solver]|done|].
  assert (Hb : ∀ p, p ∈ pods → reg_get (pod_id p) m = canonical_binding p) by (intros p Hp; apply (merged_binding saved m pods); auto).
  pose proof Hmo as [Hmk Hsub _ _].
  case_bool_decide as Heq; cbn in E; injection E as <- <-.
  - split; [done|]. split; [done|]. intros p Hp. rewrite <- Hget, <- (Hb p Hp).
    assert (Hl : ∀ l : registry, NoDup l.*1 → (list_to_map l : gmap string Binding) !! pod_id p = reg_get (pod_id p) l).
    { intros l Hl. destruct (reg_get _ l) as [v|] eqn:Ev; [by apply elem_of_list_to_map, reg_get_Some|].
      apply not_elem_of_list_to_map. by apply reg_get_None. }
    by rewrite <- (Hl saved Hnd), <- (Hl m Hmk), Heq.
  - unfold journal_ok, pinned at 2 3. cbn. destruct (dumped_get "" m Hmk) as [Hd _]. split; [done|].
    split; [|intros p Hp; destruct (dumped_get (pod_id p) m Hmk) as [_ ->]; auto].
    intros k b Hk. destruct (dumped_get k m Hmk) as [_ ->]. apply reg_get_elem; [done|]. apply Hsub, reg_get_Some. by rewrite Hget.
Qed.

(** Whatever configurations the adapter is started with, an identity once pinned stays. *)
Theorem pins_persist l j k b :
  journal_ok j → Forall (λ pods, NoDup (pod_id <$> pods)) l → pinned k j = Some b → pinned k (pin_all l j) = Some b.
Proof.
  intros Hok Hl. revert j Hok. induction Hl as [|pods l Hp _ IH]; intros j Hok Hk; [done|]. cbn.
  destruct (pin_topologies pods j) as [r j'] eqn:E. destruct (pin_topologies_run pods j r j' Hok Hp E) as (Hok' & Hkeep & _).
  apply IH; auto.
Qed.
