(* ===== verification/Reports.v ===== *)
(** * Reports: [src/emosa/wire/reports.py] and the peer binding of [src/emosa/wire/autoconfiguration.py]

    The facts a report is made of, the judgement of their completeness and consistency before they
    are encoded, the stamps that tie a prepared report to the observation it was made from, and its
    guarded transmission. Times are integer milliseconds. *)

From stdpp Require Import pretty.
From S2P Require Import Prelude Bytes Cmdu Payloads TopologyValues.

(** ** The peer binding *)

Record PeerBinding := mkPeerBinding {
  ingress : string;
  generation : Z;
  local_al : bytes;
  controller_al : bytes;
  source_macs : list bytes
}.

#[export] Instance PeerBinding_eq_dec : EqDecision PeerBinding.
Proof. solve_decision. Defined.

(** [PeerBinding.check], for a message or a fragment with that destination and source *)
Definition binding_check (self : PeerBinding) (dst src : bytes) (ing : string) (gen : Z) : result unit :=
  raise_if (negb (bool_decide (ing = ingress self)) || negb (bool_decide (gen = generation self))
            || negb (bool_decide (dst = local_al self)) || negb (bool_decide (src ∈ source_macs self)))
    INVALID_INPUT "message does not match the selected peer/link generation".

Definition EASYMESH_61 : string := "easymesh-6.1".
Definition R1 : string := "r1".
Definition SECURITY_ENVELOPES : list Z := [0xAB; 0xAC].

(** [check_message_set(value)] *)
Definition check_message_set (value : string) : result string :=
  if bool_decide (value ∈ [EASYMESH_61; R1]) then Ok value else invalid "unknown EasyMesh message set".

(** ** Checks *)

(** [_require(condition, detail)] *)
Definition need (condition : bool) (detail : string) : result unit := raise_if (negb condition) NOT_READY detail.

(** A nonzero unicast MAC address. *)
Definition unicast_mac (v : bytes) : bool :=
  bool_decide (length v = 6%nat) && negb (bool_decide (v = octets [0; 0; 0; 0; 0; 0]))
  && bool_decide (Z.land (octet_at 0 v) 1 = 0).

(** [_identity(value)] *)
Definition check_identity (v : bytes) : result unit :=
  raise_if (negb (unicast_mac v)) INVALID_INPUT "report identity must be a nonzero unicast MAC".

(** [_unique(values)] *)
Definition check_unique (values : list bytes) : result unit :=
  _ ← check_each check_identity values;
  need (bool_decide (NoDup values)) "duplicate identity in report inventory".

(** ** Stamps and guarded transmission *)

Record ReportStamp := mkReportStamp { token : string; observed_at : Z; valid_until : Z }.
#[export] Instance eta_ReportStamp : Eta ReportStamp := λ s, mkReportStamp (token s) (observed_at s) (valid_until s).

#[export] Instance ReportStamp_eq_dec : EqDecision ReportStamp.
Proof. solve_decision. Defined.

(** [ReportStamp.__post_init__] *)
Definition stamp_init (tok : string) (obs valid : Z) : result ReportStamp :=
  _ ← raise_if (negb (bool_decide (1 ≤ String.length tok ≤ 256)%nat)) INVALID_INPUT "invalid report source token";
  _ ← raise_if (negb (bool_decide (0 < valid - obs ≤ seconds 2))) INVALID_INPUT
        "report freshness budget must be positive and at most two seconds";
  Ok (mkReportStamp tok obs valid).

(** [ReportStamp.check(current, now)]; [None] is the source that is not available *)
Definition stamp_check (self : ReportStamp) (current : option ReportStamp) (now : Z) : result unit :=
  match current with
  | None => Raise (mkEmosaError NOT_READY "report source is unavailable")
  | Some current =>
      need (bool_decide (token current = token self)
            && bool_decide (observed_at self ≤ now < valid_until self)
            && bool_decide (observed_at current ≤ now < valid_until current))
        "report source changed or expired before delivery"
  end.

Record PreparedReport := mkPreparedReport {
  pr_type : Z;
  pr_mid : Z;
  stamp : ReportStamp;
  deadline : Z;
  frames : list bytes
}.
#[export] Instance eta_PreparedReport : Eta PreparedReport := λ r,
  mkPreparedReport (pr_type r) (pr_mid r) (stamp r) (deadline r) (frames r).

(** One pass of the loop of [PreparedReport.send]: the callbacks act on the caller's state. *)
Definition send_one {S} (send_frame : bytes → M S unit) (current_stamp : M S (option ReportStamp))
    (clock : M S Z) (self : PreparedReport) (frame : bytes) : M S unit :=
  current ← current_stamp;
  now ← clock;
  _ ← lift (stamp_check (stamp self) current now);
  _ ← lift (need (bool_decide (now < deadline self)) "report response deadline expired");
  _ ← send_frame frame;
  current ← current_stamp;
  now ← clock;
  _ ← lift (stamp_check (stamp self) current now);
  lift (need (bool_decide (now < deadline self)) "report transmission exceeded its response deadline").

(** [PreparedReport.send] *)
Definition send {S} (send_frame : bytes → M S unit) (current_stamp : M S (option ReportStamp))
    (clock : M S Z) (self : PreparedReport) : M S nat :=
  _ ← for_each (send_one send_frame current_stamp clock self) (frames self);
  mret (length (frames self)).

(** ** The capability inventory *)

(** The fields of [APRadioBasicCapabilities], [APHTCapabilities], [APRadioAdvancedCapabilities]. *)
Record Basic := mkBasic { basic_ruid : bytes; max_bss : Z; basic_classes : list BasicOperatingClass }.
#[export] Instance eta_Basic : Eta Basic := λ b, mkBasic (basic_ruid b) (max_bss b) (basic_classes b).
Inductive Ht := HtCapabilities (ruid : bytes) (flags : Z) | HtKnown (supported : bool).
Record Advanced := mkAdvanced { adv_ruid : bytes; adv_flags : Z }.

Record EarlyRadio := mkEarlyRadio {
  basic : Basic;
  ht : Ht;
  advanced : Advanced;
  vht : bool;
  he : bool;
  eht : bool
}.
#[export] Instance eta_EarlyRadio : Eta EarlyRadio := λ r,
  mkEarlyRadio (basic r) (ht r) (advanced r) (vht r) (he r) (eht r).

(** The fields of [Profile2APCapability] and [AKMSuiteCapabilities]. *)
Record Profile2 := mkProfile2 {
  max_prioritization_rules : Z; reserved_octet : Z; p2_flags : Z; max_vids : Z }.
Record Akm := mkAkm { akm_backhaul : list bytes; akm_fronthaul : list bytes }.

Record EarlyCapabilities := mkEarlyCapabilities {
  cap_radios : list EarlyRadio;
  ap : Z;
  profile2 : Profile2;
  akm : Akm;
  ciphers : list bytes;
  cap_complete : bool
}.
#[export] Instance eta_EarlyCapabilities : Eta EarlyCapabilities := λ c,
  mkEarlyCapabilities (cap_radios c) (ap c) (profile2 c) (akm c) (ciphers c) (cap_complete c).

#[export] Instance BasicOperatingClass_eq_dec : EqDecision BasicOperatingClass.
Proof. solve_decision. Defined.
#[export] Instance Basic_eq_dec : EqDecision Basic.
Proof. solve_decision. Defined.
#[export] Instance Ht_eq_dec : EqDecision Ht.
Proof. solve_decision. Defined.
#[export] Instance Advanced_eq_dec : EqDecision Advanced.
Proof. solve_decision. Defined.
#[export] Instance EarlyRadio_eq_dec : EqDecision EarlyRadio.
Proof. solve_decision. Defined.
#[export] Instance Profile2_eq_dec : EqDecision Profile2.
Proof. solve_decision. Defined.
#[export] Instance Akm_eq_dec : EqDecision Akm.
Proof. solve_decision. Defined.
#[export] Instance EarlyCapabilities_eq_dec : EqDecision EarlyCapabilities.
Proof. solve_decision. Defined.

(** [_em(value)] *)
Definition em (p : Payload) : result Tlv := v ← encode_value p; Ok (mkTlv (Payloads.kind p) v).

(** [capabilities_identity(facts)] *)
Definition capabilities_identity (facts : EarlyCapabilities) : EarlyCapabilities :=
  facts <| cap_radios := (λ r, r <| basic := basic r <| basic_classes :=
    (λ c, mkBasicOperatingClass (operating_class c) (max_eirp_dbm c) []) <$> basic_classes (basic r) |> |>)
    <$> cap_radios facts |>.

(** [value.hex(":")], [str(n)] and a list joined by commas *)
Definition hex_digit (n : Z) : string :=
  default "" ((λ c, String c EmptyString) <$> String.get (Z.to_nat n) "0123456789abcdef").
Definition hex_octet (z : Z) : string := hex_digit (z / 16) +:+ hex_digit (z mod 16).
Definition hex_colon (b : bytes) : string := String.concat ":" ((λ x, hex_octet (byte_to_Z x)) <$> b).
Definition joined (l : list Z) : string := String.concat "," (pretty <$> l).

(** The maximum EIRP of one pair of classes: the body of the inner loop. *)
Definition class_difference (ruid : string) (cd : BasicOperatingClass * BasicOperatingClass) : option string :=
  let '(c, d) := cd in
  if negb (bool_decide (max_eirp_dbm c = max_eirp_dbm d)) then
    Some ("radio " +:+ ruid +:+ " class " +:+ pretty (operating_class c) +:+ " max EIRP "
          +:+ pretty (max_eirp_dbm c) +:+ " -> " +:+ pretty (max_eirp_dbm d) +:+ " dBm")
  else None.

(** [for x in l: ... return f(x)]: the first element with something to return *)
Fixpoint first_of {A B} (f : A → option B) (l : list A) : option B :=
  match l with
  | [] => None
  | x :: l => match f x with Some b => Some b | None => first_of f l end
  end.

(** The parts of a radio compared by [RADIO_CAPABILITIES], with their names. *)
Definition radio_parts (a b : EarlyRadio) : list (bool * string) :=
  [(bool_decide (ht a = ht b), "HT"); (bool_decide (vht a = vht b), "VHT"); (bool_decide (he a = he b), "HE");
   (bool_decide (eht a = eht b), "EHT"); (bool_decide (advanced a = advanced b), "advanced")].

(** The body of the loop over the radios. *)
Definition radio_difference (ab : EarlyRadio * EarlyRadio) : option string :=
  let '(a, b) := ab in
  let ruid := hex_colon (basic_ruid (basic a)) in
  if negb (bool_decide (basic_ruid (basic a) = basic_ruid (basic b))) then
    Some ("radio " +:+ ruid +:+ " -> " +:+ hex_colon (basic_ruid (basic b)))
  else if negb (bool_decide (max_bss (basic a) = max_bss (basic b))) then
    Some ("radio " +:+ ruid +:+ " max BSS " +:+ pretty (max_bss (basic a)) +:+ " -> " +:+ pretty (max_bss (basic b)))
  else
    let classes := operating_class <$> basic_classes (basic a) in
    let others := operating_class <$> basic_classes (basic b) in
    if negb (bool_decide (classes = others)) then
      Some ("radio " +:+ ruid +:+ " operating classes " +:+ joined classes +:+ " -> " +:+ joined others)
    else
      match first_of (class_difference ruid) (zip (basic_classes (basic a)) (basic_classes (basic b))) with
      | Some s => Some s
      | None => first_of (λ p : bool * string, if p.1 then None
                                               else Some ("radio " +:+ ruid +:+ " " +:+ p.2 +:+ " capabilities"))
                  (radio_parts a b)
      end.

(** [identity_difference(before, after)] *)
Definition identity_difference (before after : EarlyCapabilities) : string :=
  let old := capabilities_identity before in
  let new := capabilities_identity after in
  if negb (bool_decide (length (cap_radios old) = length (cap_radios new))) then
    "radios " +:+ pretty (length (cap_radios old)) +:+ " -> " +:+ pretty (length (cap_radios new))
  else
    match first_of radio_difference (zip (cap_radios old) (cap_radios new)) with
    | Some s => s
    | None =>
        if negb (bool_decide (ap old = ap new)) then "TLV 0xa1"
        else if negb (bool_decide (profile2 old = profile2 new)) then "TLV 0xb4"
        else if negb (bool_decide (akm old = akm new)) then "TLV 0xcc"
        else if negb (bool_decide (ciphers old = ciphers new)) then "TLV 0xed"
        else ""
    end.

(** [operable_channels_moved(before, after)]; [zip(strict=True)] raises on different lengths *)
Definition operable_channels_moved (before after : EarlyCapabilities) : result (list bytes) :=
  if bool_decide (length (cap_radios before) = length (cap_radios after)) then
    Ok (omap (λ ba : EarlyRadio * EarlyRadio,
          if bool_decide (basic_classes (basic ba.1) = basic_classes (basic ba.2)) then None
          else Some (basic_ruid (basic ba.2)))
        (zip (cap_radios before) (cap_radios after)))
  else Raise (mkEmosaError INVALID_INPUT "ValueError: zip() arguments of different lengths").

Definition PSK : bytes := octets [0x00; 0x0f; 0xac; 0x02].
Definition CCMP128 : bytes := octets [0x00; 0x0f; 0xac; 0x04].

Definition basic_payload (b : Basic) : Payload :=
  APRadioBasicCapabilities (basic_ruid b) (max_bss b) (basic_classes b).
Definition advanced_payload (a : Advanced) : Payload := APRadioAdvancedCapabilities (adv_ruid a) (adv_flags a).
Definition profile2_payload (p : Profile2) : Payload :=
  Profile2APCapability (max_prioritization_rules p) (reserved_octet p) (p2_flags p) (max_vids p).

(** The body of the loop of [capability_tlvs] over the radios. *)
Definition radio_tlvs (tlvs : list Tlv) (radio : EarlyRadio) : result (list Tlv) :=
  _ ← need (negb (vht radio) && negb (he radio) && negb (eht radio))
        "unknown or unsupported technology needs its complete companion report";
  _ ← need (negb (bool_decide (length (basic_classes (basic radio)) = 0%nat))
            && forallb (λ op, bool_decide (operating_class op ∈ [81; 82; 83; 84; 115; 124; 125]))
                 (basic_classes (basic radio)))
        "early report currently requires explicit non-DFS 2.4 GHz, UNII-1 or UNII-3 capability";
  _ ← need (bool_decide (adv_ruid (advanced radio) = basic_ruid (basic radio))
            && bool_decide (adv_flags (advanced radio) = 0))
        "advanced capability does not match the supported radio scope";
  b ← em (basic_payload (basic radio));
  h ← match ht radio with
      | HtKnown false => Ok []
      | HtKnown true => Raise (mkEmosaError NOT_READY "HT support must be explicit and bound to the same radio")
      | HtCapabilities ruid flags =>
          _ ← need (bool_decide (ruid = basic_ruid (basic radio)))
                "HT support must be explicit and bound to the same radio";
          t ← em (APHTCapabilities ruid flags);
          Ok [t]
      end;
  a ← em (advanced_payload (advanced radio));
  Ok (tlvs ++ [b] ++ h ++ [a]).

(** [capability_tlvs(facts)] *)
Definition capability_tlvs (facts : EarlyCapabilities) : result (list Tlv) :=
  _ ← need (cap_complete facts) "complete capability inventory is required";
  _ ← need (bool_decide (1 ≤ length (cap_radios facts) ≤ 32)%nat) "invalid radio inventory";
  _ ← need (bool_decide (ap facts = 0)
            && bool_decide (max_prioritization_rules (profile2 facts) = 0)
            && bool_decide (max_vids (profile2 facts) = 0)
            && bool_decide (p2_flags (profile2 facts) ∈ [0; 0x40; 0x80])
            && bool_decide (akm facts = mkAkm [] [PSK])
            && bool_decide (ciphers facts = [CCMP128]))
        "capabilities exceed the implemented fronthaul report contract";
  _ ← check_unique ((λ r, basic_ruid (basic r)) <$> cap_radios facts);
  a ← em (APCapability (ap facts));
  tlvs ← fold_result radio_tlvs [a] (cap_radios facts);
  k ← em (AKMSuiteCapabilities (akm_backhaul (akm facts)) (akm_fronthaul (akm facts)));
  p ← em (profile2_payload (profile2 facts));
  c ← em (SupportedCipherSuites (ciphers facts));
  Ok (tlvs ++ [k; p; c]).

Definition EARLY_AP_REPORT : Z := 0x8043.

(** [early_report]: the report and the identifier it took *)
Definition early_report (binding : PeerBinding) (facts : EarlyCapabilities) (s : ReportStamp)
    (previous_mid now : Z) : result PreparedReport * Z :=
  match (_ ← stamp_check s (Some s) now; capability_tlvs facts) with
  | Raise e => (Raise e, previous_mid)
  | Ok tlvs =>
      let m := next_mid previous_mid in
      (fs ← fragment_message (controller_al binding) (local_al binding) EARLY_AP_REPORT m tlvs false MAX_CMDU;
       Ok (mkPreparedReport EARLY_AP_REPORT m s (valid_until s) fs), m)
  end.

(** ** The topology *)

(** The fields of [DeviceInformation]. *)
Record Device := mkDevice { al_mac : bytes; device_interfaces : list LocalInterface }.

Record TopologyFacts := mkTopologyFacts {
  device : Device;
  bridges : list (list bytes);
  non1905 : list (bytes * list bytes);
  neighbors1905 : list (bytes * list Neighbor);
  operational : list OperationalRadio;
  configuration : list ConfiguredRadio;
  tf_clients : list BssClients;
  inventory_complete : bool;
  powered_off_interfaces_absent : bool;
  l2_neighbor_records_absent : bool;
  mld_backhaul_vbss_tid_policy_absent : bool;
  backhaul_stations : list (bytes * bytes);
  backhaul_radios : list (bytes * option bytes);
  associated_at : list (bytes * Z)
}.
#[export] Instance eta_TopologyFacts : Eta TopologyFacts := λ t,
  mkTopologyFacts (device t) (bridges t) (non1905 t) (neighbors1905 t) (operational t) (configuration t)
    (tf_clients t) (inventory_complete t) (powered_off_interfaces_absent t) (l2_neighbor_records_absent t)
    (mld_backhaul_vbss_tid_policy_absent t) (backhaul_stations t) (backhaul_radios t) (associated_at t).

#[export] Instance LocalInterface_eq_dec : EqDecision LocalInterface.
Proof. solve_decision. Defined.
#[export] Instance Neighbor_eq_dec : EqDecision Neighbor.
Proof. solve_decision. Defined.
#[export] Instance OperationalBss_eq_dec : EqDecision OperationalBss.
Proof. solve_decision. Defined.
#[export] Instance OperationalRadio_eq_dec : EqDecision OperationalRadio.
Proof. solve_decision. Defined.
#[export] Instance ConfiguredBss_eq_dec : EqDecision ConfiguredBss.
Proof. solve_decision. Defined.
#[export] Instance ConfiguredRadio_eq_dec : EqDecision ConfiguredRadio.
Proof. solve_decision. Defined.
#[export] Instance AssociatedClient_eq_dec : EqDecision AssociatedClient.
Proof. solve_decision. Defined.
#[export] Instance BssClients_eq_dec : EqDecision BssClients.
Proof. solve_decision. Defined.
#[export] Instance Device_eq_dec : EqDecision Device.
Proof. solve_decision. Defined.
#[export] Instance TopologyFacts_eq_dec : EqDecision TopologyFacts.
Proof. solve_decision. Defined.

(** A Python dictionary built from pairs: a later pair of the same key replaces an earlier one. *)
Definition dict_of `{Countable K} {V} (l : list (K * V)) : gmap K V := list_to_map (reverse l).

(** [set(a) == set(b)] *)
Definition same_set (a b : list bytes) : bool := bool_decide (list_to_set a =@{gset bytes} list_to_set b).

(** [aged_clients(facts, now)] *)
Definition aged_clients (facts : TopologyFacts) (now : Z) : list BssClients :=
  let since := dict_of (associated_at facts) in
  (λ bss, mkBssClients (bc_bssid bss)
    ((λ c, match since !! c_mac c with
           | Some t => mkAssociatedClient (c_mac c) (Z.min 65535 (Z.max 0 (Z.quot (now - t) 1000)))
           | None => c
           end) <$> clients bss)) <$> tf_clients facts.

(** The rows of one neighbour list: their local interfaces and the addresses of their neighbours. *)
Definition check_neighbor_rows (interfaces : list bytes) (rows : list (bytes * list bytes)) : result unit :=
  _ ← check_unique rows.*1;
  check_each (λ row,
    _ ← need (bool_decide (row.1 ∈ interfaces)) "neighbor list uses an absent interface";
    _ ← check_unique row.2;
    need (bool_decide (length row.2 ≤ 256)%nat) "neighbor inventory exceeds local budget") rows.

(** The BSSs of the two inventories. *)
Definition operational_bsses (facts : TopologyFacts) : list bytes :=
  operational facts ≫= λ r, ap_mac <$> or_bsses r.
Definition configured_bsses (facts : TopologyFacts) : list bytes :=
  configuration facts ≫= λ r, cb_bssid <$> cr_bsses r.
Definition operational_ssids (facts : TopologyFacts) : list ((bytes * bytes) * bytes) :=
  operational facts ≫= λ r, (λ b, ((or_ruid r, ap_mac b), ob_ssid b)) <$> or_bsses r.
Definition configured_ssids (facts : TopologyFacts) : list ((bytes * bytes) * bytes) :=
  configuration facts ≫= λ r, (λ b, ((cr_ruid r, cb_bssid b), cb_ssid b)) <$> cr_bsses r.

(** The local interface of an active BSS. *)
Definition check_bss_interface (facts : TopologyFacts) (bssid : bytes) : result unit :=
  need (match filter (λ i, li_mac i = bssid) (device_interfaces (device facts)) with
        | [i] => bool_decide (0x100 ≤ media_type i ≤ 0x107) && bool_decide (length (media_specific i) = 10%nat)
                 && bool_decide (take 6 (media_specific i) = bssid)
                 && bool_decide (octet_at 6 (media_specific i) = 0)
        | _ => false
        end) "active BSS is missing its matching local AP interface".

(** The checks of [_topology], in their order. *)
Definition check_topology (facts : TopologyFacts) (binding : PeerBinding) : result unit :=
  let interfaces := li_mac <$> device_interfaces (device facts) in
  let bsses := operational_bsses facts in
  let macs := tf_clients facts ≫= λ b, c_mac <$> clients b in
  _ ← need (inventory_complete facts && powered_off_interfaces_absent facts && l2_neighbor_records_absent facts
            && mld_backhaul_vbss_tid_policy_absent facts)
        "topology inventory or conditional procedure facts are unavailable";
  _ ← need (bool_decide (al_mac (device facts) = local_al binding)) "topology AL differs from represented agent";
  _ ← need (bool_decide (1 ≤ length interfaces ≤ 64)%nat) "local interface inventory exceeds selected scope";
  _ ← check_unique interfaces;
  _ ← check_unique (concat (bridges facts));
  _ ← need (forallb (λ m, bool_decide (m ∈ interfaces)) (concat (bridges facts)))
        "bridging tuple references an absent interface";
  _ ← check_neighbor_rows interfaces (non1905 facts);
  _ ← check_neighbor_rows interfaces ((λ row : bytes * list Neighbor, (row.1, n_al_mac <$> row.2)) <$> neighbors1905 facts);
  _ ← need (bool_decide (1 ≤ length (operational facts) ≤ 32)%nat
            && bool_decide (length (configuration facts) = length (operational facts)))
        "complete operational/configured radio inventories are required";
  _ ← check_unique (or_ruid <$> operational facts);
  _ ← check_unique (cr_ruid <$> configuration facts);
  _ ← check_unique bsses;
  _ ← check_unique (configured_bsses facts);
  _ ← need (bool_decide (dict_of (operational_ssids facts) = dict_of (configured_ssids facts))
            && same_set (or_ruid <$> operational facts) (cr_ruid <$> configuration facts))
        "operational and BSS configuration reports disagree";
  _ ← need (forallb (λ r, forallb (λ b, bool_decide (cb_flags b ∈ [0x40; 0x80])) (cr_bsses r)) (configuration facts))
        "topology report supports pure fronthaul or backhaul non-MBSSID BSSs";
  _ ← check_each (check_bss_interface facts) bsses;
  _ ← check_unique (bc_bssid <$> tf_clients facts);
  _ ← need (same_set (bc_bssid <$> tf_clients facts) bsses)
        "explicit client inventory required for every active BSS (including empty lists)";
  _ ← check_unique macs;
  need (bool_decide (length macs ≤ 256)%nat) "client inventory exceeds local report budget".

(** The topology values of the report, in order. *)
Definition topology_values (facts : TopologyFacts) : list Topology :=
  [DeviceInformation (al_mac (device facts)) (device_interfaces (device facts))]
  ++ (if bool_decide (1 < length (device_interfaces (device facts)))%nat
         || negb (bool_decide (length (bridges facts) = 0%nat))
      then [BridgingCapability (bridges facts)] else [])
  ++ ((λ r, Non1905Neighbors r.1 r.2) <$> non1905 facts)
  ++ ((λ r, Neighbors1905 r.1 r.2) <$> neighbors1905 facts).

(** The backhaul station radio capabilities of the first such radio. *)
Definition backhaul_tlvs (facts : TopologyFacts) : list Tlv :=
  match backhaul_radios facts with
  | [] => []
  | (ruid, Some (m :: mac)) :: _ => [mkTlv 0xCB (ruid ++ octets [0x80] ++ m :: mac)]
  | (ruid, _) :: _ => [mkTlv 0xCB (ruid ++ octets [0x00])]
  end.

(** [_topology(facts, binding, message_set, now)] *)
Definition topology_tlvs (facts : TopologyFacts) (binding : PeerBinding) (message_set : string)
    (now : option Z) : result (list Tlv) :=
  let facts := match associated_at facts, now with
               | _ :: _, Some t => facts <| tf_clients := aged_clients facts t |>
               | _, _ => facts
               end in
  _ ← check_topology facts binding;
  values ← map_result (λ v, d ← encode_topology v; Ok (mkTlv (topology_kind v) d)) (topology_values facts);
  s ← em (SupportedServices [1]);
  o ← em (APOperationalBss (operational facts));
  c ← (if bool_decide (message_set = R1) then Ok [] else t ← em (BssConfigurationReport (configuration facts)); Ok [t]);
  a ← em (AssociatedClients (tf_clients facts));
  p ← (if bool_decide (message_set = R1) then Ok [] else t ← em (MultiAPProfile 1); Ok [t]);
  Ok (values ++ [s; o] ++ c ++ [a] ++ backhaul_tlvs facts ++ p).

(** [topology_response(query, binding, facts, stamp, ...)] at clock [now] *)
Definition topology_response (query : Message) (binding : PeerBinding) (facts : TopologyFacts) (s : ReportStamp)
    (ing : string) (gen received_at now : Z) (message_set : string) : result PreparedReport :=
  _ ← stamp_check s (Some s) now;
  _ ← need (bool_decide (received_at ≤ now < received_at + seconds 1)) "Topology Query response window expired";
  _ ← binding_check binding (m_destination query) (m_source query) ing gen;
  _ ← need (bool_decide (m_message_type query = 2) && negb (m_relay query)) "expected a unicast Topology Query";
  _ ← check_message_set message_set;
  let profiles := tlv_value <$> filter (λ t, Cmdu.kind t = 0xB3) (m_tlvs query) in
  _ ← need (bool_decide (length profiles = 1%nat)
            || (bool_decide (message_set = R1) && bool_decide (length profiles = 0%nat)))
        "Topology Query requires one Multi-AP Profile";
  _ ← match profiles with
      | [] => Ok tt
      | p :: _ => v ← decode_value 0xB3 p;
                  match v with
                  | MultiAPProfile profile => _ ← effective_profile profile 1; Ok tt
                  | _ => Ok tt
                  end
      end;
  _ ← need (negb (existsb (λ t, bool_decide (Cmdu.kind t ∈ SECURITY_ENVELOPES)) (m_tlvs query)))
        "DPP security processing is required before query dispatch";
  tlvs ← topology_tlvs facts binding message_set (Some now);
  fs ← fragment_message (controller_al binding) (local_al binding) 3 (m_mid query) tlvs false MAX_CMDU;
  Ok (mkPreparedReport 3 (m_mid query) s (received_at + seconds 1) fs).

(** ** The outside of a report

    The clock, the source of the stamps and the link are outside the code that sends a report: the
    [n]th thing it asks of them is answered by the [n]th element of each. *)

Class Outside := {
  clock_at : nat → Z;
  stamp_at : nat → result (option ReportStamp);
  link_at : nat → result unit
}.

(** How much was asked so far, and the frames handed to the link, with the number of the asking. *)
Record Io := mkIo { asked : nat; sent : list (nat * bytes) }.
#[export] Instance eta_Io : Eta Io := λ io, mkIo (asked io) (sent io).

Definition io_clock `{Outside} : M Io Z := λ io, (Ok (clock_at (asked io)), io <| asked := S (asked io) |>).
Definition io_stamp `{Outside} : M Io (option ReportStamp) := λ io,
  (stamp_at (asked io), io <| asked := S (asked io) |>).
Definition io_send `{Outside} (frame : bytes) : M Io unit := λ io,
  (link_at (asked io), mkIo (S (asked io)) (sent io ++ [(asked io, frame)])).

(** * Theory *)

Lemma need_Ok b d u : need b d = Ok u → b = true.
Proof. destruct b; [done|discriminate]. Qed.
Lemma need_bind_Ok {A} b d (k : unit → result A) a : need b d ≫= k = Ok a ↔ b = true ∧ k tt = Ok a.
Proof. destruct b; unfold need; simpl; naive_solver. Qed.

(** ** Guarded transmission *)

Section Send.
Context `{Outside}.

(** The check made with the stamp of asking [i] and the clock of asking [j]. *)
Definition authorised (self : PreparedReport) (i j : nat) : Prop :=
  ∃ s, stamp_at i = Ok (Some s) ∧ token s = token (stamp self) ∧
    observed_at (stamp self) ≤ clock_at j < valid_until (stamp self) ∧
    observed_at s ≤ clock_at j < valid_until s ∧ clock_at j < deadline self.

Lemma stamp_check_Ok (self : ReportStamp) c now u :
  stamp_check self c now = Ok u →
  ∃ s, c = Some s ∧ token s = token self ∧ observed_at self ≤ now < valid_until self ∧
    observed_at s ≤ now < valid_until s.
Proof. destruct c as [s|]; [|done]. simpl. intros Hn%need_Ok. bools. eauto 10. Qed.

(** Asking for the stamp and the time, and checking them. *)
Definition guard (self : PreparedReport) (d : string) : M Io unit :=
  current ← io_stamp; now ← io_clock; _ ← lift (stamp_check (stamp self) current now);
  lift (need (bool_decide (now < deadline self)) d).

Lemma guard_run self d io :
  ∃ r n, guard self d io = (r, mkIo n (sent io)) ∧
    (r = Ok tt → n = (2 + asked io)%nat ∧ authorised self (asked io) (S (asked io))).
Proof.
  unfold guard, io_stamp, io_clock, mbind, M_mbind, lift. destruct io as [n fs]. simpl.
  destruct (stamp_at n) as [c|e] eqn:Es; [|do 2 eexists; split; [reflexivity|done]]. simpl.
  destruct (stamp_check _ _ _) as [[]|e] eqn:Ec; [|do 2 eexists; split; [reflexivity|done]].
  do 2 eexists. split; [reflexivity|]. intros Hn%need_Ok%bool_decide_eq_true. split; [done|].
  apply stamp_check_Ok in Ec as (s & -> & ?). exists s. naive_solver.
Qed.

(** One frame: refused before it is sent, or sent under a check, and then checked again. *)
Lemma send_one_run self f io :
  ∃ r n new, send_one io_send io_stamp io_clock self f io = (r, mkIo n (sent io ++ new)) ∧
    (new = [] ∧ r ≠ Ok tt ∨
     new = [((2 + asked io)%nat, f)] ∧ authorised self (asked io) (S (asked io)) ∧
     (r = Ok tt → n = (5 + asked io)%nat ∧ authorised self (3 + asked io) (4 + asked io))).
Proof.
  destruct (guard_run self "report response deadline expired" io) as (r1 & n1 & E1 & H1).
  set (rest := _ ← io_send f; guard self "report transmission exceeded its response deadline").
  assert (Hs : send_one io_send io_stamp io_clock self f io =
    match guard self "report response deadline expired" io with
    | (Ok _, io') => rest io'
    | (Raise e, io') => (Raise e, io')
    end).
  { unfold send_one, guard, rest, guard, mbind, M_mbind.
    destruct (io_stamp io) as [[c|] io1]; [|done]. destruct (io_clock io1) as [[t|] io2]; [|done].
    unfold lift. by destruct (stamp_check _ _ _) as [[]|]. }
  rewrite Hs, E1. destruct r1 as [[]|e].
  - destruct (H1 eq_refl) as [-> Ha]. unfold rest, mbind, M_mbind, io_send. simpl.
    destruct (link_at (S (S (asked io)))) as [[]|e].
    + destruct (guard_run self "report transmission exceeded its response deadline"
        (mkIo (3 + asked io) (sent io ++ [((2 + asked io)%nat, f)]))) as (r2 & n2 & E2 & H2).
      simpl in E2, H2. rewrite E2. exists r2, n2, [((2 + asked io)%nat, f)]. split; [done|]. right. auto.
    + exists (Raise e), (3 + asked io)%nat, [((2 + asked io)%nat, f)]. split; [done|]. right. done.
  - exists (Raise e), n1, []. rewrite app_nil_r. split; [done|]. left. done.
Qed.

Lemma send_frames_run self fs io :
  ∃ r n new, for_each (send_one io_send io_stamp io_clock self) fs io = (r, mkIo n (sent io ++ new)) ∧
    new.*2 `prefix_of` fs ∧
    (∀ k f, (k, f) ∈ new → (2 ≤ k)%nat ∧ authorised self (k - 2) (k - 1)) ∧
    (r = Ok tt → new.*2 = fs ∧ ∀ k f, (k, f) ∈ new → authorised self (k + 1) (k + 2)).
Proof.
  revert io. induction fs as [|f fs IH]; intros io.
  { exists (Ok tt), (asked io), []. simpl. rewrite app_nil_r. destruct io. split; [done|].
    repeat split; set_solver. }
  simpl. destruct (send_one_run self f io) as (r1 & n1 & new1 & E1 & H1).
  unfold mbind, M_mbind. rewrite E1.
  destruct H1 as [[-> Hr]|(-> & Ha & Hr)].
  - destruct r1 as [[]|e]; [done|]. exists (Raise e), n1, []. split; [done|].
    split; [apply prefix_nil|]. split; [set_solver|done].
  - assert (Hhd : ∀ k g, (k, g) ∈ [((2 + asked io)%nat, f)] → (2 ≤ k)%nat ∧ authorised self (k - 2) (k - 1)).
    { intros k g [= -> ->]%list_elem_of_singleton. split; [lia|].
      by replace (S (S (asked io)) - 2)%nat with (asked io) by lia. }
    destruct r1 as [[]|e].
    + destruct (Hr eq_refl) as [-> Hafter].
      destruct (IH (mkIo (5 + asked io) (sent io ++ [((2 + asked io)%nat, f)]))) as (r & n & new & E & Hp & Hb & Hk).
      cbn [asked sent] in *. rewrite E. exists r, n, (((2 + asked io)%nat, f) :: new).
      rewrite <- app_assoc. split; [done|]. split; [by apply prefix_cons|]. split.
      * intros k g [Hkg|Hin]%elem_of_cons; [apply (Hhd k g); rewrite Hkg; apply list_elem_of_here|by apply (Hb k g)].
      * intros Hok. destruct (Hk Hok) as [Hall Hafters]. split; [by rewrite fmap_cons, Hall|].
        intros k g [[= -> ->]|Hin]%elem_of_cons; [|by apply (Hafters k g)].
        replace (S (S (asked io)) + 1)%nat with (3 + asked io)%nat by lia.
        by replace (S (S (asked io)) + 2)%nat with (4 + asked io)%nat by lia.
    + exists (Raise e), n1, [((2 + asked io)%nat, f)]. split; [done|].
      split; [apply prefix_cons, prefix_nil|]. split; [done|done].
Qed.
End Send.

(** ** The identity of the capabilities *)

Lemma first_of_None {A B} (f : A → option B) l : first_of f l = None ↔ Forall (λ x, f x = None) l.
Proof.
  induction l as [|x l IH]; simpl; [split; auto|]. rewrite Forall_cons.
  destruct (f x); simpl; naive_solver.
Qed.

Lemma Forall_zip_eq {A B} (P : A * B → Prop) (l : list A) (k : list B) :
  length l = length k → Forall P (zip l k) ↔ Forall2 (λ a b, P (a, b)) l k.
Proof.
  revert k. induction l as [|a l IH]; intros [|b k] Hl; try done; simpl in *.
  rewrite Forall_cons, Forall2_cons, IH; [done|lia].
Qed.

Lemma Forall2_same {A} (l k : list A) : Forall2 eq l k ↔ l = k.
Proof. split; [induction 1; congruence|]. intros ->. induction k; by constructor. Qed.

(** Classes without their operable channels. *)
Definition bare (c : BasicOperatingClass) : Prop := non_operable_channels c = [].
Definition bare_radio (r : EarlyRadio) : Prop := Forall bare (basic_classes (basic r)).

Lemma class_difference_None ruid c d :
  operating_class c = operating_class d → bare c → bare d →
  class_difference ruid (c, d) = None ↔ c = d.
Proof.
  unfold bare. destruct c, d; simpl. intros -> -> ->. case_bool_decide; simpl; naive_solver.
Qed.

Lemma classes_difference ruid (l k : list BasicOperatingClass) :
  operating_class <$> l = operating_class <$> k → Forall bare l → Forall bare k →
  first_of (class_difference ruid) (zip l k) = None ↔ l = k.
Proof.
  intros Hc Hl Hk. assert (length l = length k) as Hlen by (by rewrite <- (length_fmap operating_class), Hc, length_fmap).
  rewrite first_of_None, Forall_zip_eq, <- Forall2_same by done.
  revert k Hc Hk Hlen. induction Hl as [|c l Hcb Hl IH]; intros [|d k] Hc Hk Hlen; try done.
  rewrite !Forall2_cons. simpl in Hc. injection Hc as Hcd Hc. apply Forall_cons in Hk as [Hd Hk].
  rewrite class_difference_None by done. rewrite IH; [done|done|done|simpl in Hlen; lia].
Qed.

Lemma radio_difference_None a b :
  bare_radio a → bare_radio b → radio_difference (a, b) = None ↔ a = b.
Proof.
  intros Ha Hb. unfold radio_difference. split.
  - case_bool_decide as E1; cbn [negb]; [|done]. case_bool_decide as E2; cbn [negb]; [|done].
    case_bool_decide as E3; cbn [negb]; [|done].
    destruct (first_of _ (zip _ _)) eqn:E4; [done|].
    apply classes_difference in E4; [|done|done|done]. intros Hp%first_of_None.
    unfold radio_parts in Hp. rewrite !Forall_cons in Hp. simpl in Hp.
    destruct a as [[] ? ? ? ? ?], b as [[] ? ? ? ? ?]; simpl in *. subst.
    repeat case_bool_decide; naive_solver.
  - intros <-. rewrite !bool_decide_eq_true_2 by done. cbn [negb].
    assert (first_of (class_difference (hex_colon (basic_ruid (basic a))))
      (zip (basic_classes (basic a)) (basic_classes (basic a))) = None) as ->
      by by apply classes_difference.
    unfold radio_parts. rewrite !bool_decide_eq_true_2 by done. done.
Qed.

Lemma identity_bare c : Forall bare_radio (cap_radios (capabilities_identity c)).
Proof. simpl. apply Forall_fmap, Forall_forall. intros r _. apply Forall_fmap, Forall_forall. done. Qed.

Lemma radios_difference l k :
  length l = length k → Forall bare_radio l → Forall bare_radio k →
  first_of radio_difference (zip l k) = None ↔ l = k.
Proof.
  intros Hlen Hl Hk. rewrite first_of_None, Forall_zip_eq, <- Forall2_same by done.
  revert k Hk Hlen. induction Hl as [|a l Ha Hl IH]; intros [|b k] Hk Hlen; try done.
  apply Forall_cons in Hk as [Hb Hk]. rewrite !Forall2_cons, radio_difference_None by done.
  rewrite IH; [done|done|simpl in Hlen; lia].
Qed.

(** A difference is described by a text. *)
Lemma class_difference_text ruid cd s : class_difference ruid cd = Some s → s ≠ "".
Proof. destruct cd. unfold class_difference. case_match; [intros [= <-]; done|done]. Qed.

Lemma first_of_text {A} (f : A → option string) l s :
  (∀ x s, f x = Some s → s ≠ "") → first_of f l = Some s → s ≠ "".
Proof.
  intros Hf. induction l as [|x l IH]; simpl; [done|]. destruct (f x) eqn:E; [intros [= <-]; eauto|done].
Qed.

Lemma radio_difference_text ab s : radio_difference ab = Some s → s ≠ "".
Proof.
  destruct ab as [a b]. unfold radio_difference.
  repeat (case_bool_decide; cbn [negb]; [|intros [= <-]; done]).
  destruct (first_of (class_difference _) _) eqn:E.
  - intros [= <-]. eapply first_of_text; [|exact E]. apply class_difference_text.
  - intros Hs. eapply first_of_text; [|exact Hs]. intros [[] n] s'; simpl; [done|]. by intros [= <-].
Qed.

(** ** What a report carries *)

(** The values a capability report is made of. *)
Definition radio_payloads (r : EarlyRadio) : list Payload :=
  [basic_payload (basic r)]
  ++ (match ht r with HtCapabilities ruid flags => [APHTCapabilities ruid flags] | HtKnown _ => [] end)
  ++ [advanced_payload (advanced r)].
Definition capability_payloads (facts : EarlyCapabilities) : list Payload :=
  APCapability (ap facts) :: (cap_radios facts ≫= radio_payloads)
  ++ [AKMSuiteCapabilities (akm_backhaul (akm facts)) (akm_fronthaul (akm facts));
      profile2_payload (profile2 facts); SupportedCipherSuites (ciphers facts)].

(** A TLV that carries a value: a receiver reads the value back. *)
Definition carries (t : Tlv) (p : Payload) : Prop := decode_value (Cmdu.kind t) (tlv_value t) = Ok p.

Lemma em_carries p t : em p = Ok t → carries t (received p).
Proof. intros (v & Hv & [= <-])%result_bind_Ok. by apply payload_read in Hv as [_ Hv]. Qed.

Lemma radio_tlvs_carry tlvs r tlvs' :
  radio_tlvs tlvs r = Ok tlvs' → ∃ new, tlvs' = tlvs ++ new ∧ Forall2 carries new (radio_payloads r).
Proof.
  unfold radio_tlvs. rewrite !need_bind_Ok. intros (_ & _ & _ & H).
  apply result_bind_Ok in H as (b & Hb & H). apply result_bind_Ok in H as (h & Hh & H).
  apply result_bind_Ok in H as (a & Ha & [= <-]). eexists. split; [reflexivity|].
  unfold radio_payloads. apply Forall2_cons. split; [by apply (em_carries (basic_payload (basic r)))|].
  apply Forall2_app; [|constructor; [by apply (em_carries (advanced_payload (advanced r)))|constructor]].
  destruct (ht r) as [ruid flags|[]]; [|done|injection Hh as <-; constructor].
  apply need_bind_Ok in Hh as (_ & Hh). apply result_bind_Ok in Hh as (t & Ht & [= <-]).
  constructor; [|constructor]. by apply (em_carries (APHTCapabilities ruid flags)).
Qed.

Lemma radios_tlvs_carry rs tlvs tlvs' :
  fold_result radio_tlvs tlvs rs = Ok tlvs' →
  ∃ new, tlvs' = tlvs ++ new ∧ Forall2 carries new (rs ≫= radio_payloads).
Proof.
  revert tlvs. induction rs as [|r rs IH]; intros tlvs; cbn [fold_result].
  { intros [= <-]. exists []. rewrite app_nil_r. split; [done|constructor]. }
  intros (t & (n1 & -> & H1)%radio_tlvs_carry & (n2 & -> & H2)%IH)%result_bind_Ok.
  exists (n1 ++ n2). rewrite app_assoc, bind_cons. split; [done|]. by apply Forall2_app.
Qed.

Lemma check_unique_Ok l u : check_unique l = Ok u → NoDup l ∧ Forall (λ v, unicast_mac v = true) l.
Proof.
  unfold check_unique. intros (u' & Hi%check_each_Ok & Hn%need_Ok%bool_decide_eq_true)%result_bind_Ok.
  split; [done|]. eapply Forall_impl; [exact Hi|]. intros v Hv. unfold check_identity in Hv.
  apply raise_if_Ok in Hv. by apply negb_false_iff.
Qed.

(** ** Consistency of the topology *)

Lemma dict_of_elem `{Countable K} {V} (l : list (K * V)) k v :
  NoDup l.*1 → dict_of l !! k = Some v ↔ (k, v) ∈ l.
Proof.
  intros Hnd. unfold dict_of. rewrite <- elem_of_list_to_map, elem_of_reverse; [done|].
  rewrite fmap_reverse. by rewrite reverse_Permutation.
Qed.

Lemma ssids_bsses_operational facts : (λ x, x.1.2) <$> operational_ssids facts = operational_bsses facts.
Proof.
  unfold operational_ssids, operational_bsses. induction (operational facts) as [|r rs IH]; [done|].
  rewrite !bind_cons, fmap_app, IH, <- list_fmap_compose. done.
Qed.
Lemma ssids_bsses_configured facts : (λ x, x.1.2) <$> configured_ssids facts = configured_bsses facts.
Proof.
  unfold configured_ssids, configured_bsses. induction (configuration facts) as [|r rs IH]; [done|].
  rewrite !bind_cons, fmap_app, IH, <- list_fmap_compose. done.
Qed.

Lemma NoDup_keys (l : list ((bytes * bytes) * bytes)) : NoDup ((λ x, x.1.2) <$> l) → NoDup l.*1.
Proof. intros Hnd. apply (NoDup_fmap_1 snd). by rewrite <- list_fmap_compose. Qed.

Lemma same_set_elem a b x : same_set a b = true → x ∈ a ↔ x ∈ b.
Proof.
  unfold same_set. rewrite bool_decide_eq_true. intros Hs.
  rewrite <- (elem_of_list_to_set (C := gset bytes) x a), Hs. apply elem_of_list_to_set.
Qed.

Lemma check_neighbor_rows_Ok interfaces rows u row :
  check_neighbor_rows interfaces rows = Ok u → row ∈ rows → row.1 ∈ interfaces ∧ NoDup row.2.
Proof.
  unfold check_neighbor_rows. intros (u' & _ & Hr%check_each_Ok)%result_bind_Ok Hin.
  rewrite Forall_forall in Hr. specialize (Hr _ Hin). apply need_bind_Ok in Hr as (Hi%bool_decide_eq_true & Hr).
  apply result_bind_Ok in Hr as (u2 & [? _]%check_unique_Ok & _). done.
Qed.

(** What the facts of a report promise its reader. *)
Record consistent (facts : TopologyFacts) (binding : PeerBinding) : Prop := {
  cons_agent : al_mac (device facts) = local_al binding;
  cons_interfaces : NoDup (li_mac <$> device_interfaces (device facts));
  (** the two BSS inventories tell the same radio, BSSID and SSID of every BSS *)
  cons_bsses : ∀ x, x ∈ operational_ssids facts ↔ x ∈ configured_ssids facts;
  cons_distinct : NoDup (operational_bsses facts);
  (** every BSS is a local AP interface and has its list of clients, and no client is in two lists *)
  cons_local : ∀ b, b ∈ operational_bsses facts → ∃ i, i ∈ device_interfaces (device facts) ∧ li_mac i = b ∧
                 take 6 (media_specific i) = b;
  cons_clients : ∀ b, b ∈ operational_bsses facts ↔ b ∈ (bc_bssid <$> tf_clients facts);
  cons_lists : NoDup (bc_bssid <$> tf_clients facts);
  cons_stations : NoDup (tf_clients facts ≫= λ b, c_mac <$> clients b);
  (** bridges and neighbours are behind local interfaces *)
  cons_bridged : ∀ m, m ∈ concat (bridges facts) → m ∈ (li_mac <$> device_interfaces (device facts));
  cons_non1905 : ∀ r, r ∈ non1905 facts → r.1 ∈ (li_mac <$> device_interfaces (device facts));
  cons_1905 : ∀ r, r ∈ neighbors1905 facts → r.1 ∈ (li_mac <$> device_interfaces (device facts))
}.

Lemma check_bss_interface_Ok facts b u :
  check_bss_interface facts b = Ok u →
  ∃ i, i ∈ device_interfaces (device facts) ∧ li_mac i = b ∧ take 6 (media_specific i) = b.
Proof.
  unfold check_bss_interface. intros Hb%need_Ok. destruct (filter _ _) as [|i [|]] eqn:Ef; [done| |done].
  assert (Hi : i ∈ filter (λ i, li_mac i = b) (device_interfaces (device facts)))
    by (rewrite Ef; apply list_elem_of_here).
  apply list_elem_of_filter in Hi as [Hm Hi]. bools. eauto.
Qed.

Lemma check_topology_Ok facts binding u : check_topology facts binding = Ok u → consistent facts binding.
Proof.
  unfold check_topology. rewrite !need_bind_Ok. intros (_ & Hal%bool_decide_eq_true & _ & H).
  apply result_bind_Ok in H as (u1 & [Hif _]%check_unique_Ok & H).
  apply result_bind_Ok in H as (u2 & _ & H). apply need_bind_Ok in H as (Hbr & H).
  apply result_bind_Ok in H as (u3 & Hnon & H). apply result_bind_Ok in H as (u4 & Hnei & H).
  apply need_bind_Ok in H as (_ & H). apply result_bind_Ok in H as (u5 & _ & H).
  apply result_bind_Ok in H as (u6 & _ & H). apply result_bind_Ok in H as (u7 & [Hob _]%check_unique_Ok & H).
  apply result_bind_Ok in H as (u8 & [Hcb _]%check_unique_Ok & H). apply need_bind_Ok in H as (Hd & H).
  apply andb_prop in Hd as [Hd%bool_decide_eq_true _]. apply need_bind_Ok in H as (_ & H).
  apply result_bind_Ok in H as (u9 & Hloc%check_each_Ok & H).
  apply result_bind_Ok in H as (u10 & [Hcl _]%check_unique_Ok & H). apply need_bind_Ok in H as (Hsame & H).
  apply result_bind_Ok in H as (u11 & [Hst _]%check_unique_Ok & _).
  split; [done|done| |done| | |done|done| | |].
  - intros [k v]. rewrite <- !dict_of_elem, Hd; [done| |]; apply NoDup_keys;
      [by rewrite ssids_bsses_configured|by rewrite ssids_bsses_operational].
  - intros b Hb. rewrite Forall_forall in Hloc. by eapply check_bss_interface_Ok, Hloc.
  - intros b. symmetry. by apply same_set_elem.
  - intros m Hm. rewrite forallb_forall in Hbr. apply list_elem_of_In in Hm. apply Hbr in Hm.
    by apply bool_decide_eq_true in Hm.
  - intros r Hr. by apply (check_neighbor_rows_Ok _ _ _ r) in Hnon as [Hr1 _].
  - intros r Hr. apply (check_neighbor_rows_Ok _ _ _ (r.1, n_al_mac <$> r.2)) in Hnei as [Hr1 _]; [done|].
    apply list_elem_of_fmap. by exists r.
Qed.

(** The facts as of [now]: the ones of [_topology] after its first statement. *)
Definition aged (facts : TopologyFacts) (now : option Z) : TopologyFacts :=
  match associated_at facts, now with
  | _ :: _, Some t => facts <| tf_clients := aged_clients facts t |>
  | _, _ => facts
  end.

Definition carries_topology (t : Tlv) (v : Topology) : Prop :=
  decode_topology (Cmdu.kind t) (tlv_value t) = Ok v.

(** The EasyMesh values of a topology response; R1 has neither BSS configuration nor profile. *)
Definition topology_payloads (facts : TopologyFacts) (message_set : string) : list Payload :=
  let r1 := bool_decide (message_set = R1) in
  [SupportedServices [1]; APOperationalBss (operational facts)]
  ++ (if r1 then [] else [BssConfigurationReport (configuration facts)])
  ++ [AssociatedClients (saturated_bss <$> tf_clients facts)]
  ++ (if r1 then [] else [MultiAPProfile 1]).

Lemma values_carried vs ts :
  map_result (λ v, d ← encode_topology v; Ok (mkTlv (topology_kind v) d)) vs = Ok ts →
  Forall2 carries_topology ts vs.
Proof.
  rewrite map_result_Ok. induction 1 as [|v t vs ts Ht _ IH]; constructor; [|done].
  apply result_bind_Ok in Ht as (d & Hd & [= <-]). by apply topology_read in Hd as [_ Hd].
Qed.

Lemma topology_tlvs_Ok facts binding message_set now tlvs :
  topology_tlvs facts binding message_set now = Ok tlvs →
  consistent (aged facts now) binding ∧
  ∃ ts s o c a p, tlvs = ts ++ ([s; o] ++ c ++ [a]) ++ backhaul_tlvs (aged facts now) ++ p ∧
    Forall2 carries_topology ts (topology_values (aged facts now)) ∧
    Forall2 carries ([s; o] ++ c ++ [a] ++ p) (topology_payloads (aged facts now) message_set).
Proof.
  unfold topology_tlvs. fold (aged facts now). set (f := aged facts now).
  intros (u & Hc%check_topology_Ok & H)%result_bind_Ok. split; [done|].
  apply result_bind_Ok in H as (ts & Hts%values_carried & H). apply result_bind_Ok in H as (s & Hs & H).
  apply result_bind_Ok in H as (o & Ho & H). apply result_bind_Ok in H as (c & Hcf & H).
  apply result_bind_Ok in H as (a & Ha & H). apply result_bind_Ok in H as (p & Hp & [= <-]).
  exists ts, s, o, c, a, p. split; [by rewrite <- !app_assoc|]. split; [done|].
  apply em_carries in Hs, Ho, Ha. unfold topology_payloads. cbv zeta.
  do 2 (apply Forall2_cons; split; [done|]). apply Forall2_app.
  - case_bool_decide; [injection Hcf as <-; constructor|].
    apply result_bind_Ok in Hcf as (t & Ht%em_carries & [= <-]). by constructor.
  - apply Forall2_cons. split; [done|]. case_bool_decide; [injection Hp as <-; constructor|].
    apply result_bind_Ok in Hp as (t & Ht%em_carries & [= <-]). by constructor.
Qed.

(** * Properties *)

(** C12: transmission is guarded. Whatever the clock, the source and the link do, the frames handed to
    the link are a prefix of the report's frames, in order, and each was handed over right after a
    check that found the source's stamp to be the report's (same token, both leases running) and the
    deadline ahead. When [send] returns, it returns the number of frames, all of them were handed
    over, and the same check held right after each of them. *)
Theorem transmission_guarded `{Outside} (self : PreparedReport) (io : Io) :
  ∃ r n new, send io_send io_stamp io_clock self io = (r, mkIo n (sent io ++ new)) ∧
    new.*2 `prefix_of` frames self ∧
    (∀ k f, (k, f) ∈ new → (2 ≤ k)%nat ∧ authorised self (k - 2) (k - 1)) ∧
    (∀ count, r = Ok count → count = length (frames self) ∧ new.*2 = frames self ∧
       ∀ k f, (k, f) ∈ new → authorised self (k + 1) (k + 2)).
Proof.
  destruct (send_frames_run self (frames self) io) as (r & n & new & E & Hp & Hb & Ha).
  exists (match r with Ok _ => Ok (length (frames self)) | Raise e => Raise e end), n, new.
  unfold send, mbind, M_mbind. rewrite E. destruct r as [[]|e]; split; [done| |done|].
  - split; [done|]. split; [done|]. intros count [= <-]. destruct (Ha eq_refl). auto.
  - split; [done|]. split; [done|]. done.
Qed.

(** The description of a capability change is complete. [identity_difference] returns the empty
    text exactly when the two inventories have the same identity: every radio, its maximum number of
    BSSs, its operating classes and their maximum EIRP, its technologies, and every device-wide value.
    The one field it does not compare is the flag that says the inventory is complete. *)
Theorem identity_difference_decides (a b : EarlyCapabilities) :
  identity_difference a b = "" ↔
  capabilities_identity (a <| cap_complete := true |>) = capabilities_identity (b <| cap_complete := true |>).
Proof.
  pose proof (identity_bare a) as Ba. pose proof (identity_bare b) as Bb.
  assert (Heq : capabilities_identity (a <| cap_complete := true |>) = capabilities_identity (b <| cap_complete := true |>) ↔
    cap_radios (capabilities_identity a) = cap_radios (capabilities_identity b) ∧ ap a = ap b ∧
    profile2 a = profile2 b ∧ akm a = akm b ∧ ciphers a = ciphers b).
  { unfold capabilities_identity. destruct a, b; simpl. split.
    - intros Hi. repeat split; [apply (f_equal cap_radios Hi)|apply (f_equal ap Hi)|apply (f_equal profile2 Hi)
        |apply (f_equal akm Hi)|apply (f_equal ciphers Hi)].
    - intros (-> & -> & -> & -> & ->). done. }
  rewrite Heq. clear Heq. unfold identity_difference. case_bool_decide as Hl; cbn [negb].
  2:{ split; [done|]. intros [Hr _]. by rewrite Hr in Hl. }
  pose proof (radios_difference _ _ Hl Ba Bb) as Hd. destruct (first_of radio_difference _) as [s|] eqn:Es.
  { apply first_of_text in Es; [|apply radio_difference_text]. split; [done|]. intros [Hr _].
    apply Hd in Hr. done. }
  destruct Hd as [Hd _]. specialize (Hd eq_refl).
  change (ap (capabilities_identity a)) with (ap a). change (ap (capabilities_identity b)) with (ap b).
  change (profile2 (capabilities_identity a)) with (profile2 a).
  change (profile2 (capabilities_identity b)) with (profile2 b).
  change (akm (capabilities_identity a)) with (akm a). change (akm (capabilities_identity b)) with (akm b).
  change (ciphers (capabilities_identity a)) with (ciphers a).
  change (ciphers (capabilities_identity b)) with (ciphers b).
  repeat (case_bool_decide; cbn [negb]; [|split; [done|naive_solver]]). naive_solver.
Qed.

(** A capability report is complete and readable. When [capability_tlvs] returns, a receiver that
    decodes the TLVs gets back, in order, the device's AP capability, for every radio its basic, HT
    (when it has any) and advanced capabilities, and the device's AKM, profile and cipher values;
    there are between one and 32 radios, each with its own unicast identifier. *)
Theorem capability_report_readable (facts : EarlyCapabilities) (tlvs : list Tlv) :
  capability_tlvs facts = Ok tlvs →
  map_result (λ t, decode_value (Cmdu.kind t) (tlv_value t)) tlvs = Ok (capability_payloads facts) ∧
  (1 ≤ length (cap_radios facts) ≤ 32)%nat ∧
  NoDup ((λ r, basic_ruid (basic r)) <$> cap_radios facts) ∧
  Forall (λ r, unicast_mac (basic_ruid (basic r)) = true) (cap_radios facts).
Proof.
  unfold capability_tlvs. rewrite !need_bind_Ok. intros (_ & Hn%bool_decide_eq_true & _ & H).
  apply result_bind_Ok in H as (u & [Hnd Hu]%check_unique_Ok & H).
  apply result_bind_Ok in H as (a & Ha & H). apply result_bind_Ok in H as (rs & Hrs & H).
  apply result_bind_Ok in H as (k & Hk & H). apply result_bind_Ok in H as (p & Hp & H).
  apply result_bind_Ok in H as (c & Hc & [= <-]). apply radios_tlvs_carry in Hrs as (new & -> & Hnew).
  split; [|split; [done|split; [done|by apply Forall_fmap in Hu]]].
  apply map_result_Ok. change (Forall2 carries ((a :: new) ++ [k; p; c]) (capability_payloads facts)).
  unfold capability_payloads. simpl. constructor; [by apply (em_carries (APCapability (ap facts)))|].
  apply Forall2_app; [done|].
  constructor; [by apply (em_carries (AKMSuiteCapabilities _ _))|].
  constructor; [by apply (em_carries (profile2_payload _))|].
  constructor; [by apply (em_carries (SupportedCipherSuites _))|constructor].
Qed.

Definition example_radio_caps : EarlyRadio :=
  mkEarlyRadio
    (mkBasic (octets [2; 0; 0; 0; 0; 1]) 4 [mkBasicOperatingClass 81 20 [1; 2; 3; 4; 5; 7; 8; 9; 10; 11; 12; 13]])
    (HtCapabilities (octets [2; 0; 0; 0; 0; 1]) 0) (mkAdvanced (octets [2; 0; 0; 0; 0; 1]) 0) false false false.
Definition example_caps : EarlyCapabilities :=
  mkEarlyCapabilities [example_radio_caps] 0 (mkProfile2 0 0 0x40 0) (mkAkm [] [PSK]) [CCMP128] true.

Lemma capability_report_readable_witness :
  ∃ tlvs, capability_tlvs example_caps = Ok tlvs ∧
    map_result (λ t, decode_value (Cmdu.kind t) (tlv_value t)) tlvs = Ok (capability_payloads example_caps).
Proof.
  eexists. split; [vm_compute; reflexivity|].
  apply (capability_report_readable example_caps). vm_compute. reflexivity.
Defined.

(** A Topology Response is timely, consistent and readable. When [topology_response] prepares one,
    it answers the query's identifier within one second of its receipt, from facts that are consistent
    (the operational and configured inventories tell the same BSSs, every BSS is a local AP interface
    with exactly one client list, no station is in two BSSs, bridges and neighbours are behind local
    interfaces); its frames are the fragments of TLVs from which a receiver reads back every topology
    value and every EasyMesh value, with association times as of now (and, when there is a backhaul
    radio, its one TLV between them). *)
Theorem topology_response_consistent query binding facts s ing gen received_at now message_set r :
  topology_response query binding facts s ing gen received_at now message_set = Ok r →
  let facts := aged facts (Some now) in
  consistent facts binding ∧
  pr_mid r = m_mid query ∧ stamp r = s ∧ received_at ≤ now < deadline r ∧ deadline r = received_at + seconds 1 ∧
  ∃ ts es ps, Forall2 carries_topology ts (topology_values facts) ∧
    Forall2 carries (es ++ ps) (topology_payloads facts message_set) ∧
    fragment_message (controller_al binding) (local_al binding) 3 (m_mid query)
      (ts ++ es ++ backhaul_tlvs facts ++ ps) false MAX_CMDU = Ok (frames r).
Proof.
  unfold topology_response. intros H. apply result_bind_Ok in H as (u1 & _ & H).
  apply need_bind_Ok in H as (Hw%bool_decide_eq_true & H). apply result_bind_Ok in H as (u2 & _ & H).
  apply need_bind_Ok in H as (_ & H). apply result_bind_Ok in H as (u3 & _ & H).
  apply need_bind_Ok in H as (_ & H). apply result_bind_Ok in H as (u4 & _ & H).
  apply need_bind_Ok in H as (_ & H).
  apply result_bind_Ok in H as (tlvs & (Hc & ts & s' & o & c & a & p & -> & Hts & Hes)%topology_tlvs_Ok & H).
  apply result_bind_Ok in H as (fs & Hf & [= <-]). split; [done|]. do 2 (split; [done|]). simpl.
  split; [lia|]. split; [done|]. exists ts, ([s'; o] ++ c ++ [a]), p. split; [done|]. split; [|done].
  by rewrite <- !app_assoc.
Qed.

Definition example_binding : PeerBinding :=
  mkPeerBinding "eth0" 1 (octets [2; 0; 0; 0; 0; 9]) (octets [2; 0; 0; 0; 0; 8]) [octets [2; 0; 0; 0; 0; 8]].
Definition example_bss : bytes := octets [2; 0; 0; 0; 0; 2].
Definition example_facts : TopologyFacts :=
  mkTopologyFacts (mkDevice (octets [2; 0; 0; 0; 0; 9])
      [mkLocalInterface example_bss 0x103 (example_bss ++ octets [0; 0; 6; 0])]) [] [] []
    [mkOperationalRadio (octets [2; 0; 0; 0; 0; 1]) [mkOperationalBss example_bss (octets [104; 105])]]
    [mkConfiguredRadio (octets [2; 0; 0; 0; 0; 1]) [mkConfiguredBss example_bss 0x40 (octets [104; 105])]]
    [mkBssClients example_bss [mkAssociatedClient (octets [2; 0; 0; 0; 0; 7]) 0]]
    true true true true [] [] [(octets [2; 0; 0; 0; 0; 7], 1000)].
Definition example_query : Message :=
  mkMessage (octets [2; 0; 0; 0; 0; 9]) (octets [2; 0; 0; 0; 0; 8]) 2 77 false [mkTlv 0xB3 (octets [1])] 1.
Definition example_stamp : ReportStamp := mkReportStamp "s/0/1/1" 60000 61000.

Lemma topology_response_consistent_witness :
  ∃ r, topology_response example_query example_binding example_facts example_stamp "eth0" 1 60000 60500 EASYMESH_61 = Ok r
    ∧ consistent (aged example_facts (Some 60500)) example_binding ∧ pr_mid r = 77.
Proof.
  eexists. split; [vm_compute; reflexivity|].
  assert (Hr := λ r, topology_response_consistent example_query example_binding example_facts example_stamp
    "eth0" 1 60000 60500 EASYMESH_61 r). cbv zeta in Hr. split; [|reflexivity].
  eapply Hr. vm_compute. reflexivity.
Defined.
