(* ===== verification/Channel.v ===== *)
(** * Channel preferences, selection and scan requests: the functions of [src/emosa/wire/channel.py]

    The operating classes a reported radio may be on, the preferences a moved radio reports, the
    judgement of a Channel Selection Request ([selected_policy]) and the parser of a Channel Scan
    Request. The coordinator of the same file is in [ChannelCoordinator]. *)

From S2P Require Import Prelude Bytes Cmdu Payloads TopologyValues Reports.

(** ** Operating classes *)

Definition CLASS_CHANNELS (c : Z) : option (list Z) :=
  if bool_decide (c = 81) then Some (range 1 14)
  else if bool_decide (c = 115) then Some [36; 40; 44; 48]
  else if bool_decide (c = 124) then Some [149; 153; 157; 161]
  else if bool_decide (c = 125) then Some [149; 153; 157; 161; 165; 169; 173; 177]
  else None.

Definition BAND_CLASSES : list (list Z) := [[81]; [115; 124; 125]].

Definition SHARED_RADIO_BACKHAUL : Z := 8.

(** [advertised(operating_class)] *)
Definition advertised (c : Z) : list Z :=
  match list_find (λ classes, c ∈ classes) BAND_CLASSES with Some (_, l) => l | None => [] end.

(** The octets of the preference groups of one radio. *)
Definition preference_groups (groups : list (Z * list Z)) : bytes :=
  groups ≫= λ g, octets (g.1 :: len g.2 :: g.2 ++ [SHARED_RADIO_BACKHAUL]).

(** [moved_preferences(capabilities, ruids, held)] *)
Definition moved_preferences (capabilities : EarlyCapabilities) (ruids held : list bytes) : list Tlv :=
  omap (λ r,
    let ruid := basic_ruid (basic r) in
    if bool_decide (ruid ∉ ruids) || bool_decide (ruid ∉ held) then None
    else
      let groups := (λ c, (operating_class c, non_operable_channels c)) <$>
                    filter (λ c, non_operable_channels c ≠ []) (basic_classes (basic r)) in
      Some (mkTlv 0x8B (ruid ++ octets [len groups] ++ preference_groups groups))) (cap_radios capabilities).

(** ** Operating radios *)

Record OperatingRadio := mkOperatingRadio {
  o_ruid : bytes;
  o_class : Z;
  o_channel : Z;
  tx_power_dbm : Z;
  bound : bool
}.

#[export] Instance OperatingRadio_eq_dec : EqDecision OperatingRadio.
Proof. solve_decision. Defined.

(** [OperatingRadio.__post_init__] *)
Definition operating_radio_check (r : OperatingRadio) : result unit :=
  raise_if (negb (bool_decide (length (o_ruid r) = 6%nat))
            || forallb (λ b, bool_decide (byte_to_Z b = 0)) (o_ruid r)
            || bool_decide (Z.land (octet_at 0 (o_ruid r)) 1 ≠ 0)
            || negb (bool_decide (o_channel r ∈ default [] (CLASS_CHANNELS (o_class r))))
            || negb (bool_decide (-128 ≤ tx_power_dbm r ≤ 127)))
    INVALID_INPUT "operating parameters outside the selected sole-channel contract".

(** [OperatingRadio.tlv] *)
Definition operating_tlv (r : OperatingRadio) : Tlv :=
  mkTlv 0x8F (o_ruid r ++ octets [1; o_class r; o_channel r; Z.land (tx_power_dbm r) 255]).

(** ** Channel Selection Requests *)

Record Preference := mkPreference {
  p_class : Z;
  p_channels : list Z;
  preference : Z;
  p_reason : Z
}.

(** The policy of one radio while the request is read. *)
Record Entry := mkEntry {
  preferences : option (list Preference);
  power_limit_dbm : option Z;
  ignored : list (Z * list Z);
  decline : option string
}.
#[export] Instance eta_Entry : Eta Entry := λ e,
  mkEntry (preferences e) (power_limit_dbm e) (ignored e) (decline e).

Definition fresh_entry : Entry := mkEntry None None [] None.

(** [named]: an insertion-ordered dictionary. *)
Definition policies : Type := list (bytes * Entry).

Definition named_get (ruid : bytes) (named : policies) : option Entry :=
  snd <$> (snd <$> list_find (λ kv, kv.1 = ruid) named).
(** The entry of [policy(ruid)], and its write-back. *)
Definition policy_entry (ruid : bytes) (named : policies) : Entry := default fresh_entry (named_get ruid named).
Definition named_set (ruid : bytes) (e : Entry) (named : policies) : policies :=
  if bool_decide (ruid ∈ named.*1) then (λ kv, if bool_decide (kv.1 = ruid) then (ruid, e) else kv) <$> named
  else named ++ [(ruid, e)].

(** [by_ruid[ruid]] *)
Definition by_ruid (radios : list OperatingRadio) (ruid : bytes) : option OperatingRadio :=
  list.last (filter (λ r, o_ruid r = ruid) radios).

(** What a preference group applies to: its channels, or every channel of its class. *)
Definition applies (c : Z) (channels own : list Z) : list (Z * Z) :=
  pair c <$> (if bool_decide (channels = []) then own else channels).

Definition FORBIDDEN : string := "controller forbids the sole advertised operable channel".
Definition POWER : string := "power actuation requires a qualified mapping".

(** The loop over the preference groups of one TLV. *)
Fixpoint preference_loop (radio : OperatingRadio) (count : nat) (body : bytes) (entry : Entry)
    (prefs : list Preference) (specified : list (Z * Z)) : result (bytes * Entry * list Preference) :=
  match count with
  | O => Ok (body, entry, prefs)
  | S count =>
      _ ← raise_if (bool_decide (length body < 3)%nat) INVALID_INPUT "truncated channel preference group";
      let opclass := octet_at 0 body in
      let n := Z.to_nat (octet_at 1 body) in
      _ ← raise_if (bool_decide (13 < n)%nat || bool_decide (length body < 3 + n)%nat) INVALID_INPUT
            "invalid channel preference count";
      let channels := byte_to_Z <$> slice 2 (2 + n) body in
      let value := octet_at (2 + n) body in
      let body := drop (3 + n) body in
      let score := Z.shiftr value 4 in
      let reason := Z.land value 15 in
      _ ← raise_if (bool_decide (score = 15) || bool_decide (13 < reason)
                    || bool_decide (reason ∈ [6; 7; 8; 9; 10])) INVALID_INPUT
            "reserved preference or agent-only reason in controller request";
      if negb (bool_decide (opclass ∈ advertised (o_class radio))) then
        preference_loop radio count body (entry <| ignored := ignored entry ++ [(opclass, channels)] |>)
          prefs specified
      else
        let own := default [] (CLASS_CHANNELS opclass) in
        _ ← raise_if (negb (bool_decide (NoDup channels))
                      || existsb (λ c, negb (bool_decide (c ∈ own))) channels) INVALID_INPUT
              "channels outside the operating class";
        let applied := applies opclass channels own in
        _ ← raise_if (existsb (λ x, bool_decide (x ∈ specified)) applied) INVALID_INPUT
              "overlapping controller channel preferences";
        let entry := if bool_decide ((opclass, o_channel radio) ∈ applied) && bool_decide (score = 0)
                     then entry <| decline := Some FORBIDDEN |> else entry in
        preference_loop radio count body entry (prefs ++ [mkPreference opclass channels score reason])
          (specified ++ applied)
  end.

(** The body of the loop over the request's TLVs. *)
Definition policy_tlv (radios : list OperatingRadio) (named : policies) (t : Tlv) : result policies :=
  let value := tlv_value t in
  let ruid := take 6 value in
  let entry := policy_entry ruid named in
  if bool_decide (Cmdu.kind t = 0x8B) then
    match by_ruid radios ruid with
    | Some radio =>
        _ ← raise_if (bool_decide (length value < 7)%nat || negb (bool_decide (preferences entry = None)))
              INVALID_INPUT "duplicate, truncated or foreign channel preferences";
        let count := Z.to_nat (octet_at 6 value) in
        _ ← raise_if (bool_decide (8 < count)%nat) INVALID_INPUT "channel preference group budget exceeded";
        '(body, entry, prefs) ← preference_loop radio count (drop 7 value) entry [] [];
        _ ← raise_if (negb (bool_decide (body = []))) INVALID_INPUT "trailing channel preference octets";
        Ok (named_set ruid (entry <| preferences := Some prefs |>) named)
    | None => invalid "duplicate, truncated or foreign channel preferences"
    end
  else if bool_decide (Cmdu.kind t = 0x8D) then
    match by_ruid radios ruid with
    | Some radio =>
        _ ← raise_if (negb (bool_decide (length value = 7%nat)) || negb (bool_decide (power_limit_dbm entry = None)))
              INVALID_INPUT "duplicate, truncated or foreign power limit";
        let limit := from_option octet_signed 0 (value !! 6%nat) in
        let entry := entry <| power_limit_dbm := Some limit |> in
        let entry := if bool_decide (limit < tx_power_dbm radio)
                     then entry <| decline := Some (default POWER (decline entry)) |> else entry in
        Ok (named_set ruid entry named)
    | None => invalid "duplicate, truncated or foreign power limit"
    end
  else Raise (mkEmosaError UNSUPPORTED_OPERATION "unimplemented channel configuration companion").

(** One element of the result. *)
Record Policy := mkPolicy { pl_ruid : bytes; pl_preferences : list Preference; pl_limit : option Z;
                            pl_ignored : list (Z * list Z); pl_decline : option string }.
Definition policy_of (kv : bytes * Entry) : Policy :=
  mkPolicy kv.1 (default [] (preferences kv.2)) (power_limit_dbm kv.2) (ignored kv.2) (decline kv.2).

(** [selected_policy(tlvs, radios)] *)
Definition selected_policy (tlvs : list Tlv) (radios : list OperatingRadio) : result (list Policy) :=
  named ← fold_result (policy_tlv radios) [] tlvs;
  let named := if bool_decide (length named = 0%nat)
               then foldl (λ m r, named_set (o_ruid r) (policy_entry (o_ruid r) m) m) [] radios
               else named in
  Ok (policy_of <$> named).

(** ** Channel Scan Requests *)

(** The loop over the operating classes of one radio: the classes and the offset after them. *)
Fixpoint scan_classes (data : bytes) (count : nat) (offset : nat) : result (list (Z * list Z) * nat) :=
  match count with
  | O => Ok ([], offset)
  | S count =>
      let n := Z.to_nat (octet_at (offset + 1) data) in
      _ ← raise_if (bool_decide (length data < offset + 2)%nat || bool_decide (length data < offset + 2 + n)%nat)
            INVALID_INPUT "truncated channel scan operating class";
      '(rest, stop) ← scan_classes data count (offset + 2 + n);
      Ok ((octet_at offset data, byte_to_Z <$> slice (offset + 2) (offset + 2 + n) data) :: rest, stop)
  end.

(** The loop over the radios. *)
Fixpoint scan_radios (data : bytes) (count : nat) (offset : nat) :
    result (list (bytes * list (Z * list Z)) * nat) :=
  match count with
  | O => Ok ([], offset)
  | S count =>
      _ ← raise_if (bool_decide (length data < offset + 7)%nat) INVALID_INPUT "truncated channel scan radio";
      let ruid := slice offset (offset + 6) data in
      '(classes, next) ← scan_classes data (Z.to_nat (octet_at (offset + 6) data)) (offset + 7);
      '(rest, stop) ← scan_radios data count next;
      Ok ((ruid, classes) :: rest, stop)
  end.

(** [decode_scan_request(tlvs)] *)
Definition decode_scan_request (tlvs : list Tlv) : result (list (bytes * list (Z * list Z))) :=
  match filter (λ t, Cmdu.kind t = 0xA6) tlvs with
  | [t] =>
      let data := tlv_value t in
      _ ← raise_if (bool_decide (length data < 2)%nat) INVALID_INPUT "one Channel Scan Request TLV required";
      '(radios, offset) ← scan_radios data (Z.to_nat (octet_at 1 data)) 2;
      _ ← raise_if (negb (bool_decide (offset = length data))) INVALID_INPUT
            "trailing channel scan request octets";
      Ok radios
  | _ => invalid "one Channel Scan Request TLV required"
  end.

(** ** Theory: the judgement of a selection request *)

(** The (class, channel) pairs a preference is about. *)
Definition covered (p : Preference) : list (Z * Z) :=
  applies (p_class p) (p_channels p) (default [] (CLASS_CHANNELS (p_class p))).

(** A preference forbids the channel the radio operates on. *)
Definition forbids (r : OperatingRadio) (p : Preference) : bool :=
  bool_decide ((p_class p, o_channel r) ∈ covered p) && bool_decide (preference p = 0).

(** What the radio cannot honour: its channel is forbidden, or its power is above the limit. *)
Definition conflicts (r : OperatingRadio) (prefs : list Preference) (limit : option Z) : bool :=
  existsb (forbids r) prefs || (match limit with Some l => bool_decide (l < tx_power_dbm r) | None => false end).

Definition judged (r : OperatingRadio) (prefs : list Preference) (e : Entry) : Prop :=
  decline e = None ↔ conflicts r prefs (power_limit_dbm e) = false.

Lemma class_channels_NoDup c : NoDup (default [] (CLASS_CHANNELS c)).
Proof.
  unfold CLASS_CHANNELS. repeat case_bool_decide; simpl; try constructor;
    apply (bool_decide_unpack _); vm_compute; exact Logic.I.
Qed.

Lemma applies_NoDup c channels own : NoDup channels → NoDup own → NoDup (applies c channels own).
Proof.
  intros Hc Ho. unfold applies. apply NoDup_fmap; [intros x y [=]; done|]. by case_bool_decide.
Qed.

Lemma preference_loop_ok r count body entry prefs body' entry' prefs' :
  preference_loop r count body entry prefs (prefs ≫= covered) = Ok (body', entry', prefs') →
  judged r prefs entry → NoDup (prefs ≫= covered) →
  judged r prefs' entry' ∧ NoDup (prefs' ≫= covered) ∧
  power_limit_dbm entry' = power_limit_dbm entry ∧ preferences entry' = preferences entry.
Proof.
  revert body entry prefs. induction count as [|count IH]; intros body entry prefs; cbn [preference_loop].
  { intros [= <- <- <-]. auto. }
  rewrite !raise_if_bind_Ok. intros (_ & _ & _ & H) Hj Hnd.
  set (opclass := octet_at 0 body) in *. set (n := Z.to_nat (octet_at 1 body)) in *.
  set (channels := byte_to_Z <$> slice 2 (2 + n) body) in *. set (value := octet_at (2 + n) body) in *.
  destruct (negb (bool_decide (opclass ∈ advertised (o_class r)))).
  - apply IH in H; auto.
  - rewrite !raise_if_bind_Ok in H. destruct H as (Hch & Hov & H).
    set (p := mkPreference opclass channels (Z.shiftr value 4) (Z.land value 15)) in *.
    change (applies opclass channels (default [] (CLASS_CHANNELS opclass))) with (covered p) in *.
    assert (Hcov : (prefs ++ [p]) ≫= covered = (prefs ≫= covered) ++ covered p)
      by (rewrite bind_app; simpl; by rewrite app_nil_r).
    rewrite <- Hcov in H.
    apply IH in H as (Hj' & Hnd' & Hp' & Hpr').
    + split; [done|]. split; [done|]. split; [rewrite Hp'|rewrite Hpr']; by destruct (_ && _).
    + unfold judged in *. fold (preference p) in *. change (Z.shiftr value 4) with (preference p).
      change opclass with (p_class p). fold (forbids r p). unfold conflicts in *. rewrite existsb_app.
      simpl. rewrite orb_false_r. destruct (forbids r p) eqn:Ef; simpl.
      * split; [done|]. rewrite orb_true_r. simpl. done.
      * rewrite orb_false_r. done.
    + rewrite Hcov. apply NoDup_app. split; [done|]. split.
      * intros x Hx Hx'. apply not_true_iff_false in Hov. apply Hov. apply existsb_exists.
        exists x. split; [by apply list_elem_of_In|]. by rewrite bool_decide_eq_true_2.
      * apply orb_false_iff in Hch as [Hch%negb_false_iff%bool_decide_eq_true _].
        apply applies_NoDup; [done|apply class_channels_NoDup].
Qed.

Lemma named_get_elem ruid e named : NoDup named.*1 → (ruid, e) ∈ named → named_get ruid named = Some e.
Proof.
  intros Hnd Hin. unfold named_get. destruct (list_find _ named) as [[i [k x]]|] eqn:E; simpl.
  - apply list_find_Some in E as (Hi & Hk & _). simpl in Hk. subst k. apply list_elem_of_lookup_2 in Hi.
    f_equal. by assert ((ruid, x) = (ruid, e)) as [= ->] by by apply (NoDup_fmap_eq fst named).
  - apply list_find_None in E. rewrite Forall_forall in E. by destruct (E _ Hin).
Qed.

Lemma named_get_Some ruid e named : named_get ruid named = Some e → (ruid, e) ∈ named.
Proof.
  unfold named_get. destruct (list_find _ named) as [[i [k x]]|] eqn:E; simpl; [|done]. intros [= ->].
  apply list_find_Some in E as (Hi & Hk & _). simpl in Hk. subst k. by eapply list_elem_of_lookup_2.
Qed.

Lemma named_set_keys ruid e named :
  (named_set ruid e named).*1 = if bool_decide (ruid ∈ named.*1) then named.*1 else named.*1 ++ [ruid].
Proof.
  unfold named_set. case_bool_decide; [|by rewrite fmap_app]. rewrite <- list_fmap_compose.
  apply list_fmap_ext. intros i [k x] _. simpl. case_bool_decide; naive_solver.
Qed.

Lemma named_set_NoDup ruid e named : NoDup named.*1 → NoDup (named_set ruid e named).*1.
Proof.
  intros Hnd. rewrite named_set_keys. case_bool_decide; [done|]. apply NoDup_app. split; [done|].
  split; [|by apply NoDup_singleton]. intros x Hx ->%list_elem_of_singleton. done.
Qed.

Lemma named_set_elem ruid e named k x :
  (k, x) ∈ named_set ruid e named → (k = ruid ∧ x = e) ∨ (k, x) ∈ named.
Proof.
  unfold named_set. case_bool_decide as Hk.
  - intros ([k' x'] & Heq & Hin)%list_elem_of_fmap. simpl in Heq. case_bool_decide; simplify_eq; auto.
  - rewrite elem_of_app, list_elem_of_singleton. naive_solver.
Qed.

(** The state of the reading: every named radio is judged by what was read of it. *)
Definition entry_ok (radios : list OperatingRadio) (kv : bytes * Entry) : Prop :=
  ∃ r, by_ruid radios kv.1 = Some r ∧ judged r (default [] (preferences kv.2)) kv.2 ∧
    NoDup (default [] (preferences kv.2) ≫= covered).

Definition named_ok (radios : list OperatingRadio) (named : policies) : Prop :=
  NoDup named.*1 ∧ Forall (entry_ok radios) named.

Lemma policy_entry_ok radios named ruid r :
  named_ok radios named → by_ruid radios ruid = Some r → entry_ok radios (ruid, policy_entry ruid named).
Proof.
  intros [Hnd Hall] Hr. unfold policy_entry. destruct (named_get ruid named) as [e|] eqn:E; simpl.
  - apply named_get_Some in E. rewrite Forall_forall in Hall. by apply Hall.
  - exists r. split; [done|]. split; [|constructor]. split; done.
Qed.

Lemma named_set_ok radios named ruid e :
  named_ok radios named → entry_ok radios (ruid, e) → named_ok radios (named_set ruid e named).
Proof.
  intros [Hnd Hall] He. split; [by apply named_set_NoDup|]. rewrite Forall_forall in Hall |- *.
  intros [k x] [[-> ->]|Hin]%named_set_elem; auto.
Qed.

Lemma policy_tlv_ok radios named t named' :
  named_ok radios named → policy_tlv radios named t = Ok named' →
  named_ok radios named' ∧ length named' ≠ 0%nat.
Proof.
  intros Hok. unfold policy_tlv. set (ruid := take 6 (tlv_value t)).
  assert (Hne : ∀ e, length (named_set ruid e named) ≠ 0%nat).
  { intros e. rewrite <- (length_fmap fst), named_set_keys. case_bool_decide as Hk.
    - destruct named; [by apply not_elem_of_nil in Hk|done].
    - rewrite length_app. simpl. lia. }
  case_bool_decide as Hk; [|case_bool_decide; [|done]].
  - destruct (by_ruid radios ruid) as [r|] eqn:Er; [|done].
    destruct (policy_entry_ok radios named ruid r Hok Er) as (r' & Hr' & Hj & Hnd). simpl in Hr', Hj, Hnd.
    assert (r' = r) as -> by congruence.
    rewrite !raise_if_bind_Ok. intros (Hpre & _ & H).
    apply orb_false_iff in Hpre as [_ Hpre%negb_false_iff%bool_decide_eq_true].
    apply result_bind_Ok in H as ([[body e] prefs] & Hl & (_ & [= <-])%raise_if_bind_Ok).
    rewrite Hpre in Hj, Hnd. simpl in Hj, Hnd.
    apply (preference_loop_ok r _ _ _ []) in Hl as (Hj' & Hnd' & _); [|done|done].
    split; [|done]. apply named_set_ok; [done|]. by exists r.
  - destruct (by_ruid radios ruid) as [r|] eqn:Er; [|done].
    destruct (policy_entry_ok radios named ruid r Hok Er) as (r' & Hr' & Hj & Hnd). simpl in Hr', Hj, Hnd.
    assert (r' = r) as -> by congruence.
    rewrite !raise_if_bind_Ok. intros (Hpre & [= <-]).
    apply orb_false_iff in Hpre as [_ Hpre%negb_false_iff%bool_decide_eq_true].
    split; [|done]. apply named_set_ok; [done|]. exists r. split; [done|].
    unfold judged, conflicts in *. rewrite Hpre in Hj. simpl in *.
    case_bool_decide as Hlim; simpl; (split; [|done]).
    + rewrite (bool_decide_eq_true_2 _ Hlim), orb_true_r. split; done.
    + rewrite (bool_decide_eq_false_2 _ Hlim). done.
Qed.

Lemma fold_policies radios tlvs named named' :
  named_ok radios named → fold_result (policy_tlv radios) named tlvs = Ok named' →
  named_ok radios named' ∧ (length named ≠ 0%nat ∨ tlvs ≠ [] → length named' ≠ 0%nat).
Proof.
  revert named. induction tlvs as [|t tlvs IH]; intros named Hok; simpl.
  - intros [= <-]. split; [done|]. naive_solver.
  - intros (m & Hm & Hf)%result_bind_Ok. apply policy_tlv_ok in Hm as [Hm Hne]; [|done].
    apply IH in Hf as [? Hl]; [|done]. auto.
Qed.

(** A request naming no radio names each of them, with nothing against it. *)
Lemma name_all radios rs named :
  (∀ r, r ∈ rs → is_Some (by_ruid radios (o_ruid r))) → named_ok radios named →
  Forall (λ kv, kv.2 = fresh_entry) named →
  let m := foldl (λ m r, named_set (o_ruid r) (policy_entry (o_ruid r) m) m) named rs in
  named_ok radios m ∧ Forall (λ kv, kv.2 = fresh_entry) m.
Proof.
  revert named. induction rs as [|r rs IH]; intros named Hrs Hok Hfresh; simpl; [done|].
  destruct (Hrs r (list_elem_of_here _ _)) as [r' Hr'].
  assert (He : policy_entry (o_ruid r) named = fresh_entry).
  { unfold policy_entry. destruct (named_get _ named) as [e|] eqn:E; [|done]. simpl.
    apply named_get_Some in E. rewrite Forall_forall in Hfresh. by apply (Hfresh _ E). }
  apply IH.
  - intros; by apply Hrs, list_elem_of_further.
  - apply named_set_ok; [done|]. by eapply policy_entry_ok.
  - rewrite Forall_forall in Hfresh |- *. intros [k x] [[_ ->]|Hin]%named_set_elem; [done|by apply (Hfresh (k, x))].
Qed.

Lemma by_ruid_Some radios ruid r : by_ruid radios ruid = Some r → r ∈ radios ∧ o_ruid r = ruid.
Proof.
  unfold by_ruid. intros H. apply last_Some_elem_of in H. by apply list_elem_of_filter in H as [? ?].
Qed.

Lemma by_ruid_elem radios r : r ∈ radios → is_Some (by_ruid radios (o_ruid r)).
Proof.
  intros Hr. unfold by_ruid. destruct (list.last _) eqn:E; [done|]. apply last_None in E.
  assert (Hin : r ∈ filter (λ x, o_ruid x = o_ruid r) radios) by by apply list_elem_of_filter.
  rewrite E in Hin. by apply not_elem_of_nil in Hin.
Qed.

(** Every radio of the list is named by the loop. *)
Lemma every_named rs named r :
  r ∈ rs ∨ o_ruid r ∈ named.*1 →
  o_ruid r ∈ (foldl (λ m r, named_set (o_ruid r) (policy_entry (o_ruid r) m) m) named rs).*1.
Proof.
  revert named. induction rs as [|r' rs IH]; intros named H; simpl.
  { destruct H as [H|H]; [by apply not_elem_of_nil in H|done]. }
  apply IH. rewrite named_set_keys. destruct H as [[->|H]%elem_of_cons|H]; [right|by left|right].
  - case_bool_decide; [done|]. rewrite elem_of_app. right. by apply list_elem_of_singleton.
  - case_bool_decide; [done|]. rewrite elem_of_app. by left.
Qed.

(** ** Theory: the layout of a scan request *)

Definition class_octets (c : Z * list Z) : bytes := Z_to_byte c.1 :: Z_to_byte (len c.2) :: octets c.2.
Definition radio_octets (r : bytes * list (Z * list Z)) : bytes :=
  r.1 ++ Z_to_byte (len r.2) :: (r.2 ≫= class_octets).
Definition scan_octets (radios : list (bytes * list (Z * list Z))) : bytes :=
  Z_to_byte (len radios) :: (radios ≫= radio_octets).

(** Counts and values fit their octets. *)
Definition class_ok (c : Z * list Z) : Prop :=
  0 ≤ c.1 < 256 ∧ len c.2 < 256 ∧ Forall (λ z, 0 ≤ z < 256) c.2.
Definition radio_ok (r : bytes * list (Z * list Z)) : Prop :=
  length r.1 = 6%nat ∧ len r.2 < 256 ∧ Forall class_ok r.2.
Definition scan_ok (radios : list (bytes * list (Z * list Z))) : Prop :=
  len radios < 256 ∧ Forall radio_ok radios.

Lemma octet_at_shift pre s i : octet_at (length pre + i) (pre ++ s) = octet_at i s.
Proof. unfold octet_at. rewrite lookup_app_r by lia. do 2 f_equal. lia. Qed.

Lemma slice_app_r (pre s : bytes) a b :
  slice (length pre + a) (length pre + b) (pre ++ s) = slice a b s.
Proof.
  unfold slice. replace (length pre + b - (length pre + a))%nat with (b - a)%nat by lia.
  by rewrite <- drop_drop, drop_app_length.
Qed.

Lemma slice_app_r_0 (pre s : bytes) b : slice (length pre) (length pre + b) (pre ++ s) = slice 0 b s.
Proof. rewrite <- (slice_app_r pre s 0 b). by rewrite Nat.add_0_r. Qed.

Lemma octets_of_bytes (b : bytes) : octets (byte_to_Z <$> b) = b.
Proof.
  unfold octets. rewrite <- list_fmap_compose. rewrite <- (list_fmap_id b) at 2.
  apply list_fmap_ext. intros i x _. simpl. apply Z_to_byte_to_Z.
Qed.

Lemma bytes_of_octets l : Forall (λ z, 0 ≤ z < 256) l → byte_to_Z <$> octets l = l.
Proof.
  intros Hall. unfold octets. rewrite <- list_fmap_compose. rewrite <- (list_fmap_id l) at 2.
  apply list_fmap_ext. intros i x Hx. simpl. apply byte_to_Z_to_byte_small.
  by apply (Forall_lookup_1 _ _ _ _ Hall Hx).
Qed.

Lemma byte_values_ok (b : bytes) : Forall (λ z, 0 ≤ z < 256) (byte_to_Z <$> b).
Proof. apply Forall_fmap, Forall_forall. intros x _. apply byte_to_Z_range. Qed.

Lemma scan_classes_sound pre s count l stop :
  scan_classes (pre ++ s) count (length pre) = Ok (l, stop) →
  length l = count ∧ Forall class_ok l ∧
  ∃ rest, s = (l ≫= class_octets) ++ rest ∧ stop = (length pre + length (l ≫= class_octets))%nat.
Proof.
  revert pre s l stop. induction count as [|count IH]; intros pre s l stop; cbn [scan_classes].
  { intros [= <- <-]. split; [done|]. split; [constructor|]. exists s. simpl. by rewrite Nat.add_0_r. }
  rewrite raise_if_bind_Ok, octet_at_shift. intros (Hlen & H).
  apply orb_false_iff in Hlen as [H1%bool_decide_eq_false H2%bool_decide_eq_false].
  rewrite length_app in H1, H2. destruct s as [|b0 [|b1 s]]; [simpl in H1; lia..|].
  change (octet_at 1 (b0 :: b1 :: s)) with (byte_to_Z b1) in *. set (n := Z.to_nat (byte_to_Z b1)) in *.
  simpl in H2. apply result_bind_Ok in H as ([rest stop'] & Hrec & [= <- <-]).
  rewrite <- Nat.add_assoc, slice_app_r.
  replace (octet_at (length pre) (pre ++ b0 :: b1 :: s)) with (byte_to_Z b0)
    by (rewrite <- (Nat.add_0_r (length pre)) at 1; by rewrite octet_at_shift).
  change (slice 2 (2 + n) (b0 :: b1 :: s)) with (take (n - 0) s). rewrite Nat.sub_0_r.
  assert (Hn : length (take n s) = n) by (rewrite length_take; lia).
  pose proof (byte_to_Z_range b0). pose proof (byte_to_Z_range b1).
  assert (Hcl : class_octets (byte_to_Z b0, byte_to_Z <$> take n s) = b0 :: b1 :: take n s).
  { unfold class_octets; simpl. rewrite Z_to_byte_to_Z, octets_of_bytes. do 2 f_equal.
    unfold len. rewrite length_fmap, Hn. unfold n. rewrite Z2Nat.id by lia. apply Z_to_byte_to_Z. }
  replace (pre ++ b0 :: b1 :: s) with ((pre ++ b0 :: b1 :: take n s) ++ drop n s) in Hrec
    by (rewrite <- app_assoc; simpl; by rewrite take_drop).
  replace (length pre + (2 + n))%nat with (length (pre ++ b0 :: b1 :: take n s)) in Hrec
    by (rewrite length_app; simpl; lia).
  replace (length pre + 2 + n)%nat with (length (pre ++ b0 :: b1 :: take n s)) in Hrec
    by (rewrite length_app; simpl; lia).
  apply IH in Hrec as (Hl & Hok & rs & Hs & ->). split; [simpl; lia|]. split.
  { constructor; [|done]. split; [done|]. simpl. split; [|apply byte_values_ok].
    unfold len. rewrite length_fmap, Hn. unfold n. lia. }
  exists rs. rewrite bind_cons, Hcl. split.
  - rewrite <- (take_drop n s) at 1. rewrite Hs. by rewrite <- app_assoc.
  - rewrite !length_app. simpl. lia.
Qed.

(** What a class record looks like to the parser, whatever comes before and after it. *)
Lemma class_octets_read pre c chs s :
  class_ok (c, chs) →
  octet_at (length pre) (pre ++ class_octets (c, chs) ++ s) = c ∧
  octet_at (length pre + 1) (pre ++ class_octets (c, chs) ++ s) = len chs ∧
  slice (length pre + 2) (length pre + 2 + length chs) (pre ++ class_octets (c, chs) ++ s) = octets chs.
Proof.
  intros (Hc & Hn & Hch). simpl in Hc, Hn. unfold class_octets; simpl.
  repeat split.
  - rewrite <- (Nat.add_0_r (length pre)), octet_at_shift. by apply byte_to_Z_to_byte_small.
  - rewrite octet_at_shift. apply byte_to_Z_to_byte_small. unfold len in *. lia.
  - rewrite <- Nat.add_assoc, slice_app_r. unfold slice. simpl. rewrite Nat.sub_0_r.
    rewrite <- octets_length. apply take_app_length.
Qed.

Lemma class_octets_length c chs : length (class_octets (c, chs)) = (2 + length chs)%nat.
Proof. unfold class_octets; simpl. by rewrite octets_length. Qed.

Lemma scan_classes_complete pre l rest :
  Forall class_ok l →
  scan_classes (pre ++ (l ≫= class_octets) ++ rest) (length l) (length pre) =
  Ok (l, (length pre + length (l ≫= class_octets))%nat).
Proof.
  intros Hall. revert pre. induction Hall as [|[c chs] l Hok _ IH]; intros pre.
  { cbn. by rewrite Nat.add_0_r. }
  cbn [length scan_classes]. rewrite bind_cons, <- app_assoc.
  destruct (class_octets_read pre c chs ((l ≫= class_octets) ++ rest) Hok) as (-> & -> & Hs).
  replace (Z.to_nat (len chs)) with (length chs) by (unfold len; lia). rewrite Hs.
  rewrite bytes_of_octets by apply Hok.
  pose proof (class_octets_length c chs) as Hl.
  rewrite !bool_decide_eq_false_2 by (rewrite !length_app, Hl; lia). cbn [orb raise_if mbind result_mbind].
  specialize (IH (pre ++ class_octets (c, chs))). rewrite <- app_assoc in IH.
  replace (length pre + 2 + length chs)%nat with (length (pre ++ class_octets (c, chs)))
    by (rewrite length_app, Hl; lia).
  rewrite IH. cbn [mbind result_mbind]. rewrite !length_app, Nat.add_assoc. done.
Qed.

Lemma scan_radios_sound pre s count l stop :
  scan_radios (pre ++ s) count (length pre) = Ok (l, stop) →
  length l = count ∧ Forall radio_ok l ∧
  ∃ rest, s = (l ≫= radio_octets) ++ rest ∧ stop = (length pre + length (l ≫= radio_octets))%nat.
Proof.
  revert pre s l stop. induction count as [|count IH]; intros pre s l stop; cbn [scan_radios].
  { intros [= <- <-]. split; [done|]. split; [constructor|]. exists s. simpl. by rewrite Nat.add_0_r. }
  rewrite raise_if_bind_Ok, octet_at_shift, slice_app_r_0. intros (Hlen%bool_decide_eq_false & H).
  rewrite length_app in Hlen. apply result_bind_Ok in H as ([classes next] & Hc & H).
  apply result_bind_Ok in H as ([rest stop'] & Hrec & [= <- <-]).
  assert (∃ ruid b s', s = ruid ++ b :: s' ∧ length ruid = 6%nat) as (ruid & b & s' & -> & H6).
  { destruct (drop 6 s) as [|b s'] eqn:Ed.
    { apply (f_equal length) in Ed. rewrite length_drop in Ed. simpl in Ed. lia. }
    exists (take 6 s), b, s'. rewrite <- Ed, take_drop, length_take. split; [done|]. lia. }
  assert (Hb : octet_at 6 (ruid ++ b :: s') = byte_to_Z b).
  { rewrite <- H6, <- (Nat.add_0_r (length ruid)). by rewrite octet_at_shift. }
  assert (Hs : slice 0 6 (ruid ++ b :: s') = ruid).
  { unfold slice. rewrite drop_0, Nat.sub_0_r, <- H6. apply take_app_length. }
  rewrite Hb in Hc. rewrite Hs. pose proof (byte_to_Z_range b). clear Hb Hs Hlen.
  replace (pre ++ ruid ++ b :: s') with ((pre ++ ruid ++ [b]) ++ s') in Hc, Hrec
    by (by rewrite <- !app_assoc).
  replace (length pre + 7)%nat with (length (pre ++ ruid ++ [b])) in Hc
    by (rewrite !length_app; simpl; lia).
  apply scan_classes_sound in Hc as (Hlc & Hcok & rc & -> & ->).
  rewrite app_assoc, <- length_app in Hrec. apply IH in Hrec as (Hl & Hok & rs & -> & ->).
  assert (Hr : radio_octets (ruid, classes) = ruid ++ b :: (classes ≫= class_octets)).
  { unfold radio_octets, len; simpl. rewrite Hlc, Z2Nat.id by lia. by rewrite Z_to_byte_to_Z. }
  split; [simpl; lia|]. split.
  { constructor; [|done]. split; [done|]. split; [|done]. simpl. unfold len. rewrite Hlc. lia. }
  exists rs. rewrite bind_cons, Hr. split.
  - by rewrite <- !app_assoc.
  - rewrite !length_app. simpl. lia.
Qed.

Lemma radio_octets_read pre ruid classes s :
  radio_ok (ruid, classes) →
  slice (length pre) (length pre + 6) (pre ++ radio_octets (ruid, classes) ++ s) = ruid ∧
  octet_at (length pre + 6) (pre ++ radio_octets (ruid, classes) ++ s) = len classes.
Proof.
  intros (H6 & Hn & _). simpl in H6, Hn. unfold radio_octets; simpl. split.
  - rewrite slice_app_r_0. unfold slice. rewrite drop_0, Nat.sub_0_r, <- H6, <- app_assoc. apply take_app_length.
  - rewrite octet_at_shift, <- H6, <- app_assoc. rewrite <- (Nat.add_0_r (length ruid)), octet_at_shift.
    apply byte_to_Z_to_byte_small. unfold len in *. lia.
Qed.

Lemma scan_radios_complete pre l rest :
  Forall radio_ok l →
  scan_radios (pre ++ (l ≫= radio_octets) ++ rest) (length l) (length pre) =
  Ok (l, (length pre + length (l ≫= radio_octets))%nat).
Proof.
  intros Hall. revert pre. induction Hall as [|[ruid classes] l Hok _ IH]; intros pre.
  { cbn. by rewrite Nat.add_0_r. }
  cbn [length scan_radios]. rewrite bind_cons, <- app_assoc.
  destruct (radio_octets_read pre ruid classes ((l ≫= radio_octets) ++ rest) Hok) as (-> & ->).
  destruct Hok as (H6 & Hn & Hcl). simpl in H6, Hn, Hcl.
  assert (Hr : radio_octets (ruid, classes) = (ruid ++ [Z_to_byte (len classes)]) ++ (classes ≫= class_octets))
    by (unfold radio_octets; simpl; by rewrite <- app_assoc).
  assert (Hl : length (ruid ++ [Z_to_byte (len classes)]) = 7%nat) by (rewrite length_app; simpl; lia).
  rewrite bool_decide_eq_false_2 by (rewrite Hr, !length_app in *; lia). cbn [raise_if mbind result_mbind].
  set (hd := ruid ++ [Z_to_byte (len classes)]) in *.
  replace (Z.to_nat (len classes)) with (length classes) by (unfold len; lia).
  pose proof (scan_classes_complete (pre ++ hd) classes ((l ≫= radio_octets) ++ rest) Hcl) as Hc.
  rewrite <- app_assoc in Hc. rewrite Hr, <- (app_assoc hd).
  replace (length pre + 7)%nat with (length (pre ++ hd)) by (rewrite length_app, Hl; lia).
  rewrite Hc. cbn [mbind result_mbind].
  specialize (IH (pre ++ hd ++ (classes ≫= class_octets))). rewrite <- !app_assoc in IH.
  replace (length (pre ++ hd) + length (classes ≫= class_octets))%nat
    with (length (pre ++ hd ++ (classes ≫= class_octets))) by (rewrite !length_app; lia).
  rewrite IH. cbn [mbind result_mbind]. rewrite !length_app. do 2 f_equal. lia.
Qed.

(** ** Properties *)

(** The parser of a Channel Scan Request accepts exactly one layout: one 0xA6 TLV, whose value is
    the flag octet, the number of radios and for each radio its six-octet RUID, the number of
    operating classes and, for each, the class, the number of channels and the channels. The radios it
    returns are the ones laid out, no octet is left over, and any other request is refused. *)
Theorem decode_scan_request_grammar tlvs radios :
  decode_scan_request tlvs = Ok radios ↔
  ∃ t flags, filter (λ t, Cmdu.kind t = 0xA6) tlvs = [t] ∧
    tlv_value t = flags :: scan_octets radios ∧ scan_ok radios.
Proof.
  unfold decode_scan_request. destruct (filter _ tlvs) as [|t [|]] eqn:Ef; [naive_solver..| | naive_solver].
  rewrite raise_if_bind_Ok, bool_decide_eq_false. split.
  - intros (Hlen & H). apply result_bind_Ok in H as ([rs off] & Hr & H).
    apply raise_if_bind_Ok in H as (Hoff%negb_false_iff%bool_decide_eq_true & [= ->]). subst off.
    destruct (tlv_value t) as [|f [|n s]] eqn:Et; [simpl in Hlen; lia..|].
    change (octet_at 1 (f :: n :: s)) with (byte_to_Z n) in Hr.
    pose proof (byte_to_Z_range n).
    apply (scan_radios_sound [f; n] s) in Hr as (Hl & Hok & rest & -> & Hstop).
    assert (rest = []) as -> by (apply length_zero_iff_nil; simpl in Hstop; rewrite length_app in Hstop; lia).
    exists t, f. split; [done|]. unfold scan_octets, scan_ok, len. rewrite Hl, Z2Nat.id by lia.
    rewrite Z_to_byte_to_Z, Et, app_nil_r. split; [done|]. split; [lia|done].
  - intros (t' & flags & [= <-] & Ht & [Hn Hok]). rewrite Ht. unfold scan_octets. split; [simpl; lia|].
    change (octet_at 1 _) with (byte_to_Z (Z_to_byte (len radios))).
    rewrite byte_to_Z_to_byte_small by (unfold len in *; lia).
    replace (Z.to_nat (len radios)) with (length radios) by (unfold len; lia).
    pose proof (scan_radios_complete [flags; Z_to_byte (len radios)] radios [] Hok) as Hr.
    rewrite app_nil_r in Hr. simpl app in Hr. simpl length in Hr. rewrite Hr. cbn [mbind result_mbind].
    rewrite bool_decide_eq_true_2 by done. done.
Qed.

(** C19: the judgement of a Channel Selection Request. When the request is accepted as well formed, each
    radio is named at most once and is one of the Agent's radios; no (class, channel) pair is covered
    by two of its preferences; and the radio declines exactly when one of those preferences forbids
    the channel it operates on (in any class it advertises) or the power limit is below its transmit
    power. A request with no TLV names every radio, and none of them declines. *)
Theorem selection_judgement tlvs radios ps :
  selected_policy tlvs radios = Ok ps →
  NoDup (pl_ruid <$> ps) ∧
  (∀ p, p ∈ ps → ∃ r, by_ruid radios (pl_ruid p) = Some r ∧ NoDup (pl_preferences p ≫= covered) ∧
     (pl_decline p = None ↔ conflicts r (pl_preferences p) (pl_limit p) = false)) ∧
  (tlvs = [] → (∀ r, r ∈ radios → o_ruid r ∈ (pl_ruid <$> ps)) ∧ Forall (λ p, pl_decline p = None) ps).
Proof.
  unfold selected_policy. intros (named & Hf & [= <-])%result_bind_Ok.
  assert (Hnil : named_ok radios []) by (split; constructor).
  destruct (fold_policies _ _ _ _ Hnil Hf) as [Hok Hne].
  destruct (name_all radios radios [] (by_ruid_elem radios) Hnil (Forall_nil_2 _)) as [Hall Hfresh].
  cbv zeta in *.
  set (every := foldl (λ m r, named_set (o_ruid r) (policy_entry (o_ruid r) m) m) [] radios) in *.
  assert (Hfin : named_ok radios (if bool_decide (length named = 0%nat) then every else named))
    by (by case_bool_decide).
  assert (Hkeys : ∀ m : policies, pl_ruid <$> (policy_of <$> m) = m.*1)
    by (intros m; by rewrite <- list_fmap_compose).
  rewrite Hkeys. destruct Hfin as [Hnd Hent]. split; [done|]. split.
  - intros p ([k e] & -> & Hin)%list_elem_of_fmap. rewrite Forall_forall in Hent.
    destruct (Hent _ Hin) as (r & Hr & Hj & Hn). exists r. auto.
  - intros ->. simpl in Hf. injection Hf as <-. rewrite bool_decide_eq_true_2 by done. split.
    + intros r Hr. apply every_named. by left.
    + apply Forall_fmap. eapply Forall_impl; [exact Hfresh|]. intros [k e] Hke. simpl in *. by rewrite Hke.
Qed.

(** A 2.4 GHz and a 5 GHz radio; the request forbids channel 6 to the first and asks nothing else. *)
Example two_radios : list OperatingRadio :=
  [mkOperatingRadio (octets [2; 0; 0; 0; 0; 1]) 81 6 20 true;
   mkOperatingRadio (octets [2; 0; 0; 0; 0; 2]) 115 36 20 true].

Lemma selection_judgement_witness :
  ∃ ps, selected_policy [mkTlv 0x8B (octets [2; 0; 0; 0; 0; 1; 1; 81; 1; 6; 0])] two_radios = Ok ps ∧
    NoDup (pl_ruid <$> ps) ∧ pl_decline <$> ps = [Some FORBIDDEN].
Proof.
  eexists. split; [vm_compute; reflexivity|]. split.
  - refine (proj1 (selection_judgement
      [mkTlv 0x8B (octets [2; 0; 0; 0; 0; 1; 1; 81; 1; 6; 0])] two_radios _ _)). vm_compute. reflexivity.
  - reflexivity.
Defined.
