(* ===== verification/ReportSource.v ===== *)
(** * The report source: [ReportSnapshot] and [ReportSource] of [src/emosa/wire/coordinator.py]

    Publication of complete facts under a bounded lease, their invalidation, and what the rest of the
    agent sees of them ([current]). A method that reads the clock several times takes its readings as
    arguments, in their order. *)

From stdpp Require Import pretty.
From S2P Require Import Prelude Bytes Cmdu Payloads TopologyValues Reports Channel.

Record ReportSnapshot := mkReportSnapshot {
  s_stamp : ReportStamp;
  capabilities : EarlyCapabilities;
  topology : TopologyFacts;
  context_token : string;
  operating_radios : list OperatingRadio;
  telemetry_valid_until : option Z;
  topology_valid_until : option Z;
  s_generation : option Z;
  held_radios : list bytes
}.
#[export] Instance eta_ReportSnapshot : Eta ReportSnapshot := λ s,
  mkReportSnapshot (s_stamp s) (capabilities s) (topology s) (context_token s) (operating_radios s)
    (telemetry_valid_until s) (topology_valid_until s) (s_generation s) (held_radios s).

(** The tuple [facts] of [publish]. *)
Record Facts := mkFacts {
  f_capabilities : EarlyCapabilities;
  f_topology : TopologyFacts;
  f_radios : list OperatingRadio;
  f_telemetry : option Z;
  f_topology_until : option Z
}.
#[export] Instance Facts_eq_dec : EqDecision Facts.
Proof. solve_decision. Defined.

Record ReportSource := mkReportSource {
  rs_binding : PeerBinding;
  pod_id : string;
  inputs_digest : string;
  rs_identity : PeerBinding * string * string;
  instance : string;
  epoch : N;
  snapshot : option ReportSnapshot;
  revision : option (Z * Z);
  last_facts : option Facts;
  last_observed : option Z
}.
#[export] Instance eta_ReportSource : Eta ReportSource := λ s,
  mkReportSource (rs_binding s) (pod_id s) (inputs_digest s) (rs_identity s) (instance s) (epoch s)
    (snapshot s) (revision s) (last_facts s) (last_observed s).

(** Lower-case hexadecimal. *)
Definition hexadecimal (s : string) : bool :=
  forallb (λ c, bool_decide (c ∈ String.list_ascii_of_string "0123456789abcdef")) (String.list_ascii_of_string s).

(** [ReportSource.__init__]; [uuid] is [uuid.uuid4().hex] *)
Definition ReportSource_init (binding : PeerBinding) (pod digest uuid : string) : result ReportSource :=
  _ ← raise_if (negb (bool_decide (1 ≤ String.length pod ≤ 64)%nat)
                || negb (bool_decide (String.length digest = 64%nat)) || negb (hexadecimal digest))
        INVALID_INPUT "invalid report source identity or input digest";
  Ok (mkReportSource binding pod digest (binding, pod, digest) uuid 0 None None None None).

(** [invalidate()] *)
Definition invalidate (s : ReportSource) : ReportSource := s <| snapshot := None |> <| epoch := N.succ (epoch s) |>.

(** The three attributes are the ones the source was made with. *)
Definition identity_kept (s : ReportSource) : bool :=
  bool_decide ((rs_binding s, pod_id s, inputs_digest s) = rs_identity s).

(** [a < b] on pairs *)
Definition pair_lt (a b : Z * Z) : bool :=
  bool_decide (a.1 < b.1) || (bool_decide (a.1 = b.1) && bool_decide (a.2 < b.2)).

(** [f"{instance}/{epoch}/{revision[0]}/{revision[1]}"] *)
Definition source_token (inst : string) (e : N) (rev : Z * Z) : string :=
  inst +:+ "/" +:+ pretty e +:+ "/" +:+ pretty rev.1 +:+ "/" +:+ pretty rev.2.

(** The arguments of [publish]. *)
Record Publication := mkPublication {
  p_revision : Z * Z;
  p_facts : Facts;
  p_observed : Z;
  p_lifetime : Z;
  p_lineage : option Z;
  p_held : list bytes
}.

(** The checks of [publish] before it looks at the clock. *)
Definition publication_checks (s : ReportSource) (p : Publication) : result unit :=
  let caps := f_capabilities (p_facts p) in
  let radios := operational (f_topology (p_facts p)) in
  let capacities : gmap bytes Z := dict_of ((λ r, (basic_ruid (basic r), max_bss (basic r))) <$> cap_radios caps) in
  let ruids := o_ruid <$> f_radios (p_facts p) in
  _ ← raise_if (negb (identity_kept s)
                || (match p_lineage p with Some l => bool_decide (l < 0) | None => false end)
                || bool_decide ((p_revision p).1 < 0) || bool_decide ((p_revision p).2 < 0)
                || negb (bool_decide (0 < p_lifetime p ≤ seconds 2))
                || (match last_observed s with Some t => bool_decide (p_observed p < t) | None => false end)
                || (match revision s with Some r => pair_lt (p_revision p) r | None => false end)
                || negb (bool_decide (al_mac (device (f_topology (p_facts p))) = local_al (rs_binding s))))
        INVALID_INPUT "invalid or out-of-order report publication";
  _ ← raise_if (negb (bool_decide (NoDup ruids))
                || existsb (λ r, bool_decide (capacities !! r = None)) ruids)
        INVALID_INPUT "operating radio inventory does not match capabilities";
  _ ← raise_if (existsb (λ r, bool_decide (capacities !! r = None)) (p_held p))
        INVALID_INPUT "held radios are not reported radios";
  _ ← raise_if (negb (same_set ((λ r, basic_ruid (basic r)) <$> cap_radios caps) (or_ruid <$> radios))
                || existsb (λ r, bool_decide (default 0 (capacities !! or_ruid r) < len (or_bsses r))) radios)
        INVALID_INPUT "capability and topology radio inventories disagree";
  raise_if (bool_decide (revision s = Some (p_revision p)) && negb (bool_decide (last_facts s = Some (p_facts p))))
    INVALID_INPUT "report facts changed without a new source revision".

(** [stamp.valid_until = min(stamp.valid_until, t)], which [replace] validates again *)
Definition shorten (s : ReportStamp) (t : Z) : result ReportStamp :=
  stamp_init (token s) (observed_at s) (Z.min (valid_until s) t).
Definition marked (s : ReportStamp) (suffix : string) : result ReportStamp :=
  stamp_init (token s +:+ suffix) (observed_at s) (valid_until s).

(** The topology lease of [current]. *)
Definition topology_lease (snap : ReportSnapshot) (now : Z) : result ReportSnapshot :=
  match topology_valid_until snap with
  | None => Ok snap
  | Some t =>
      if bool_decide (t ≤ now) then
        st ← marked (s_stamp snap) "/topology-expired";
        Ok (snap <| s_stamp := st |> <| topology := topology snap <| inventory_complete := false |> |>
                 <| topology_valid_until := None |>)
      else
        st ← shorten (s_stamp snap) t;
        Ok (snap <| s_stamp := st |>)
  end.

(** The telemetry lease of [current]. *)
Definition telemetry_lease (snap : ReportSnapshot) (now : Z) : result ReportSnapshot :=
  match telemetry_valid_until snap with
  | None => Ok snap
  | Some t =>
      if bool_decide (t ≤ now) then
        st ← marked (s_stamp snap) "/telemetry-expired";
        Ok (snap <| s_stamp := st |>
                 <| topology := topology snap <| inventory_complete := false |>
                      <| tf_clients := (λ b, mkBssClients (bc_bssid b) []) <$> tf_clients (topology snap) |> |>
                 <| operating_radios := [] |> <| telemetry_valid_until := None |>)
      else
        st ← shorten (s_stamp snap) t;
        Ok (snap <| s_stamp := st |>)
  end.

(** [current()], with its clock readings *)
Definition current (t1 t2 t3 : Z) : M ReportSource (option ReportSnapshot) := λ s,
  if negb (identity_kept s) then (Ok None, invalidate s)
  else
    match snapshot s with
    | None => (Ok None, s)
    | Some snap =>
        match stamp_check (s_stamp snap) (Some (s_stamp snap)) t1 with
        | Raise _ => (Ok None, invalidate s)
        | Ok _ => (snap ← topology_lease snap t2; snap ← telemetry_lease snap t3; Ok (Some snap), s)
        end
    end.

(** The body of the [try] of [publish]: the stamp of the publication. *)
Definition publish_stamp (p : Publication) (t1 t2 : Z) : M ReportSource ReportStamp :=
  s ← get;
  _ ← lift (publication_checks s p);
  _ ← (match snapshot s with
       | Some snap => if bool_decide (valid_until (s_stamp snap) ≤ t1) then modify invalidate else mret tt
       | None => mret tt
       end);
  s ← get;
  st ← lift (stamp_init (source_token (instance s) (epoch s) (p_revision p)) (p_observed p)
               (p_observed p + p_lifetime p));
  _ ← lift (stamp_check st (Some st) t2);
  mret st.

(** [publish(...)], with its clock readings and the ones of [current] *)
Definition publish (p : Publication) (t1 t2 t3 t4 t5 : Z) : M ReportSource (option ReportSnapshot) :=
  try_else (publish_stamp p t1 t2)
    (λ st,
      s ← get;
      let context := match p_lineage p with
                     | None => instance s +:+ "/" +:+ pretty (epoch s) +:+ "/" +:+ pretty (p_revision p).1
                     | Some l => instance s +:+ "/lineage-" +:+ pretty l
                     end in
      let f := p_facts p in
      _ ← put (s <| revision := Some (p_revision p) |> <| last_observed := Some (p_observed p) |>
                 <| last_facts := Some f |>
                 <| snapshot := Some (mkReportSnapshot st (f_capabilities f) (f_topology f) context (f_radios f)
                      (f_telemetry f) (f_topology_until f) (Some (p_revision p).1) (p_held p)) |>);
      current t3 t4 t5)
    (λ e, _ ← modify invalidate; lift (Raise e)).

(** * Theory *)

(** ** Tokens are read back *)

Definition slash : Ascii.ascii := Ascii.ascii_of_N 47.

Fixpoint no_slash (s : string) : bool :=
  match s with
  | EmptyString => true
  | String c s => negb (bool_decide (c = slash)) && no_slash s
  end.

(** A text that is empty or begins with a slash. *)
Definition slashed (s : string) : Prop :=
  match s with EmptyString => True | String c _ => c = slash end.

Lemma slash_split a b x y :
  no_slash a = true → no_slash b = true → slashed x → slashed y → a +:+ x = b +:+ y → a = b ∧ x = y.
Proof.
  revert b. induction a as [|c a IH]; intros [|d b] Ha Hb Hx Hy Heq; simpl in *.
  - done.
  - destruct x as [|c x]; [done|]. injection Heq as -> _. simpl in Hx. subst d.
    apply andb_prop in Hb as [Hb _]. by rewrite bool_decide_eq_true_2 in Hb.
  - destruct y as [|d y]; [done|]. injection Heq as -> _. simpl in Hy. subst d.
    apply andb_prop in Ha as [Ha _]. by rewrite bool_decide_eq_true_2 in Ha.
  - injection Heq as -> Heq. apply andb_prop in Ha as [_ Ha]. apply andb_prop in Hb as [_ Hb].
    apply IH in Heq as [-> ->]; auto.
Qed.

Lemma no_slash_char d : (d < 10)%N → negb (bool_decide (pretty_N_char d = slash)) = true.
Proof. intros Hd. destruct d as [|d]; [done|]. do 4 (destruct d as [d|d|]; try lia; try done). Qed.

Lemma no_slash_go x str : no_slash str = true → no_slash (pretty_N_go x str) = true.
Proof.
  revert str. induction (N.lt_wf_0 x) as [x _ IH]. intros str Hs.
  destruct (decide (0 < x)%N) as [Hx|Hx].
  - rewrite pretty_N_go_step by done. apply IH; [apply N.div_lt; lia|]. cbn [no_slash].
    by rewrite no_slash_char, Hs by (apply N.mod_lt; lia).
  - assert (x = 0%N) as -> by lia. by rewrite pretty_N_go_0.
Qed.

Lemma no_slash_N (n : N) : no_slash (pretty n) = true.
Proof. unfold pretty, pretty_N. case_decide; [done|]. by apply no_slash_go. Qed.

Lemma pretty_Z_nonneg (z : Z) : 0 ≤ z → pretty z = pretty (Z.to_N z).
Proof. intros Hz. unfold pretty at 1, pretty_Z. by destruct z; [done|done|lia]. Qed.

Lemma pretty_Z_eq a b : 0 ≤ a → 0 ≤ b → pretty a = pretty b → a = b.
Proof.
  intros Ha Hb. rewrite !pretty_Z_nonneg by done. intros Hp%(inj pretty). apply Z2N.inj; done.
Qed.

Definition nonneg (r : Z * Z) : Prop := 0 ≤ r.1 ∧ 0 ≤ r.2.

Lemma append_cancel inst x y : inst +:+ x = inst +:+ y → x = y.
Proof. induction inst as [|c inst IH]; simpl; [done|]. intros [= H]. auto. Qed.

Lemma source_token_inj inst e e' r r' x y :
  nonneg r → nonneg r' → slashed x → slashed y →
  source_token inst e r +:+ x = source_token inst e' r' +:+ y → e = e' ∧ r = r' ∧ x = y.
Proof.
  intros [H1 H2] [H1' H2'] Hx Hy. unfold source_token. rewrite !append_assoc.
  intros H%append_cancel%append_cancel.
  apply slash_split in H as [E0%(inj pretty) H%append_cancel]; [|apply no_slash_N|apply no_slash_N|done|done].
  rewrite (pretty_Z_nonneg r.1), (pretty_Z_nonneg r'.1) in H by done.
  apply slash_split in H as [E1 H%append_cancel]; [|apply no_slash_N|apply no_slash_N|done|done].
  rewrite (pretty_Z_nonneg r.2), (pretty_Z_nonneg r'.2) in H by done.
  apply slash_split in H as [E2 H]; [|apply no_slash_N|apply no_slash_N|done|done].
  split; [done|]. split; [|done]. apply (inj pretty) in E1, E2. apply Z2N.inj in E1, E2; try done.
  destruct r, r'; simpl in *. congruence.
Qed.

(** ** Runs of a source *)

(** What happens to a source: its methods are called, or its attributes are assigned from outside. *)
Inductive event :=
  | EPublish (p : Publication) (t1 t2 t3 t4 t5 : Z)
  | ECurrent (t1 t2 t3 : Z)
  | EInvalidate
  | ERebind (binding : PeerBinding) (pod digest : string).

Definition happen (e : event) : M ReportSource (option ReportSnapshot) :=
  match e with
  | EPublish p t1 t2 t3 t4 t5 => publish p t1 t2 t3 t4 t5
  | ECurrent t1 t2 t3 => current t1 t2 t3
  | EInvalidate => _ ← modify invalidate; mret None
  | ERebind b pod digest =>
      _ ← modify (λ s, s <| rs_binding := b |> <| pod_id := pod |> <| inputs_digest := digest |>); mret None
  end.

(** The snapshots seen in a run, and the source after it. *)
Fixpoint run (es : list event) (s : ReportSource) : list ReportSnapshot * ReportSource :=
  match es with
  | [] => ([], s)
  | e :: es =>
      let '(r, s') := happen e s in
      let '(seen, s'') := run es s' in
      (match r with Ok (Some snap) => snap :: seen | _ => seen end, s'')
  end.

(** What a snapshot shows of published facts, when its topology or telemetry lease has lapsed. *)
Definition mark (b1 b2 : bool) : string :=
  (if b1 then "/topology-expired" else "") +:+ (if b2 then "/telemetry-expired" else "").
Definition shown_topology (b1 b2 : bool) (t : TopologyFacts) : TopologyFacts :=
  let t := if b1 then t <| inventory_complete := false |> else t in
  if b2 then t <| inventory_complete := false |>
               <| tf_clients := (λ b, mkBssClients (bc_bssid b) []) <$> tf_clients t |> else t.
Definition shows (f : Facts) (b1 b2 : bool) (a : ReportSnapshot) : Prop :=
  capabilities a = f_capabilities f ∧ topology a = shown_topology b1 b2 (f_topology f) ∧
  operating_radios a = (if b2 then [] else f_radios f).

(** A snapshot is of published facts, under a token of their revision and of an epoch in the bounds. *)
Definition traced (inst : string) (lo hi : N) (pub : list ((Z * Z) * Facts)) (a : ReportSnapshot) : Prop :=
  ∃ r f e b1 b2, (r, f) ∈ pub ∧ (lo ≤ e ≤ hi)%N ∧ token (s_stamp a) = source_token inst e r +:+ mark b1 b2 ∧
    shows f b1 b2 a.

(** The source after the publications [pub], the latest first, since the epoch [lo]. *)
Record source_ok (inst : string) (lo : N) (pub : list ((Z * Z) * Facts)) (s : ReportSource) : Prop := {
  ok_instance : instance s = inst;
  ok_epoch : (lo ≤ epoch s)%N;
  ok_last : revision s = fst <$> head pub ∧ last_facts s = snd <$> head pub;
  ok_nonneg : ∀ r f, (r, f) ∈ pub → nonneg r;
  ok_latest : ∀ r f l, (r, f) ∈ pub → revision s = Some l → pair_lt l r = false;
  ok_once : ∀ r f f', (r, f) ∈ pub → (r, f') ∈ pub → f = f';
  ok_snapshot : ∀ snap, snapshot s = Some snap →
    valid_until (s_stamp snap) ≤ observed_at (s_stamp snap) + seconds 2 ∧
    ∃ r f e, (r, f) ∈ pub ∧ (lo ≤ e ≤ epoch s)%N ∧ token (s_stamp snap) = source_token inst e r ∧
      shows f false false snap
}.

Lemma stamp_init_Ok tok o v st :
  stamp_init tok o v = Ok st → st = mkReportStamp tok o v ∧ 0 < v - o ≤ seconds 2.
Proof.
  unfold stamp_init. rewrite !raise_if_bind_Ok. intros (_ & Hv%negb_false_iff%bool_decide_eq_true & [= <-]). done.
Qed.

Lemma topology_lease_Ok snap now snap' :
  topology_lease snap now = Ok snap' →
  ∃ b1, token (s_stamp snap') = token (s_stamp snap) +:+ mark b1 false ∧
    capabilities snap' = capabilities snap ∧ operating_radios snap' = operating_radios snap ∧
    topology snap' = shown_topology b1 false (topology snap) ∧
    telemetry_valid_until snap' = telemetry_valid_until snap ∧
    observed_at (s_stamp snap') = observed_at (s_stamp snap) ∧
    valid_until (s_stamp snap') ≤ valid_until (s_stamp snap) ∧
    (now < valid_until (s_stamp snap) → now < valid_until (s_stamp snap')).
Proof.
  unfold topology_lease. destruct (topology_valid_until snap) as [t|].
  - case_bool_decide.
    + intros (st & (-> & _)%stamp_init_Ok & [= <-])%result_bind_Ok. exists true. done.
    + intros (st & (-> & _)%stamp_init_Ok & [= <-])%result_bind_Ok. exists false. simpl.
      rewrite append_nil. repeat split; lia.
  - intros [= <-]. exists false. simpl. rewrite append_nil. repeat split; lia.
Qed.

Lemma telemetry_lease_Ok snap now snap' :
  telemetry_lease snap now = Ok snap' →
  ∃ b2, token (s_stamp snap') = token (s_stamp snap) +:+ mark false b2 ∧
    capabilities snap' = capabilities snap ∧
    operating_radios snap' = (if b2 then [] else operating_radios snap) ∧
    topology snap' = shown_topology false b2 (topology snap) ∧
    observed_at (s_stamp snap') = observed_at (s_stamp snap) ∧
    valid_until (s_stamp snap') ≤ valid_until (s_stamp snap) ∧
    (now < valid_until (s_stamp snap) → now < valid_until (s_stamp snap')).
Proof.
  unfold telemetry_lease. destruct (telemetry_valid_until snap) as [t|].
  - case_bool_decide.
    + intros (st & (-> & _)%stamp_init_Ok & [= <-])%result_bind_Ok. exists true. done.
    + intros (st & (-> & _)%stamp_init_Ok & [= <-])%result_bind_Ok. exists false. simpl.
      rewrite append_nil. repeat split; lia.
  - intros [= <-]. exists false. simpl. rewrite append_nil. repeat split; lia.
Qed.

(** What [current] answers. *)
Lemma current_cases t1 t2 t3 s r s' :
  current t1 t2 t3 s = (r, s') →
  (s' = s ∨ s' = invalidate s) ∧
  (∀ a, r = Ok (Some a) → s' = s ∧ ∃ snap b1 b2, snapshot s = Some snap ∧
     token (s_stamp a) = token (s_stamp snap) +:+ mark b1 b2 ∧
     capabilities a = capabilities snap ∧ topology a = shown_topology b1 b2 (topology snap) ∧
     operating_radios a = (if b2 then [] else operating_radios snap) ∧
     observed_at (s_stamp a) = observed_at (s_stamp snap) ∧ observed_at (s_stamp snap) ≤ t1 ∧
     valid_until (s_stamp a) ≤ valid_until (s_stamp snap) ∧ t1 < valid_until (s_stamp snap) ∧
     (t1 = t2 → t2 = t3 → t3 < valid_until (s_stamp a))).
Proof.
  unfold current. destruct (negb (identity_kept s)); [intros [= <- <-]; split; [auto|done]|].
  destruct (snapshot s) as [snap|] eqn:Es; [|intros [= <- <-]; naive_solver].
  destruct (stamp_check _ _ _) as [u|] eqn:Ec; [|intros [= <- <-]; naive_solver].
  intros [= <- <-]. split; [by left|]. intros a Ha. split; [done|].
  apply result_bind_Ok in Ha as (s1 & H1 & Ha). apply result_bind_Ok in Ha as (s2 & H2 & [= ->]).
  apply topology_lease_Ok in H1 as (b1 & T1 & C1 & R1 & P1 & _ & O1 & V1 & L1).
  apply telemetry_lease_Ok in H2 as (b2 & T2 & C2 & R2 & P2 & O2 & V2 & L2).
  simpl in Ec. unfold need in Ec. apply raise_if_Ok in Ec. apply negb_false_iff in Ec. bools.
  exists snap, b1, b2. split; [done|]. rewrite T2, T1, C2, C1, R2, R1, P2, P1, O2, O1, append_assoc.
  split; [by unfold mark; simpl; rewrite append_nil|]. split; [done|].
  split; [by destruct b1, b2|]. split; [done|]. repeat split; lia.
Qed.

Lemma invalidate_ok inst lo pub s : source_ok inst lo pub s → source_ok inst lo pub (invalidate s).
Proof. intros []. split; simpl; try done. lia. Qed.

Lemma invalidate_ok_after inst lo pub s :
  source_ok inst lo pub s → source_ok inst (N.succ (epoch s)) pub (invalidate s).
Proof. intros []. by split. Qed.

Lemma pair_lt_antisymm a b : pair_lt a b = false → pair_lt b a = false → a = b.
Proof.
  unfold pair_lt. intros Ha Hb. destruct a as [a1 a2], b as [b1 b2]. simpl in *.
  apply orb_false_iff in Ha as [Ha1%bool_decide_eq_false Ha2].
  apply orb_false_iff in Hb as [Hb1%bool_decide_eq_false Hb2].
  assert (a1 = b1) as -> by lia. rewrite (bool_decide_eq_true_2 (b1 = b1)) in Ha2, Hb2 by done. simpl in *.
  apply bool_decide_eq_false in Ha2, Hb2. f_equal. lia.
Qed.

Lemma pair_lt_le a b c : pair_lt b a = false → pair_lt c b = false → pair_lt c a = false.
Proof.
  unfold pair_lt. intros Ha Hb. destruct a as [a1 a2], b as [b1 b2], c as [c1 c2]. simpl in *.
  apply orb_false_iff in Ha as [Ha1%bool_decide_eq_false Ha2].
  apply orb_false_iff in Hb as [Hb1%bool_decide_eq_false Hb2].
  apply orb_false_iff. split; [apply bool_decide_eq_false; lia|].
  destruct (decide (c1 = a1)) as [->|]; [|by rewrite (bool_decide_eq_false_2 (c1 = a1))].
  assert (b1 = a1) as -> by lia. rewrite (bool_decide_eq_true_2 (a1 = a1)) in Ha2, Hb2 |- * by done. simpl in *.
  apply bool_decide_eq_false in Ha2, Hb2. apply bool_decide_eq_false. lia.
Qed.

Lemma pair_lt_irrefl a : pair_lt a a = false.
Proof.
  unfold pair_lt. rewrite (bool_decide_eq_false_2 (a.1 < a.1)), (bool_decide_eq_false_2 (a.2 < a.2)) by lia.
  by rewrite andb_false_r.
Qed.

(** The part of the checks the order of publications rests on. *)
Lemma publication_checks_order s p u :
  publication_checks s p = Ok u →
  nonneg (p_revision p) ∧ (∀ l, revision s = Some l → pair_lt (p_revision p) l = false) ∧
  (revision s = Some (p_revision p) → last_facts s = Some (p_facts p)).
Proof.
  unfold publication_checks. rewrite !raise_if_bind_Ok. intros (Ho & _ & _ & _ & Hs%raise_if_Ok).
  bools. split; [split; lia|]. split.
  - intros l Hl. by rewrite Hl in *.
  - intros Hr. apply andb_false_iff in Hs as [Hs%bool_decide_eq_false|Hs%negb_false_iff%bool_decide_eq_true]; done.
Qed.

(** A stamp is made of an accepted publication; until then only the lease may end. *)
Lemma publish_stamp_cases p t1 t2 s r s' :
  publish_stamp p t1 t2 s = (r, s') →
  (s' = s ∨ s' = invalidate s) ∧
  (∀ st, r = Ok st → publication_checks s p = Ok tt ∧
     st = mkReportStamp (source_token (instance s') (epoch s') (p_revision p)) (p_observed p)
            (p_observed p + p_lifetime p) ∧ p_lifetime p ≤ seconds 2).
Proof.
  unfold publish_stamp, get, lift, mbind, M_mbind, modify, mret, M_mret.
  destruct (publication_checks s p) as [[]|e] eqn:Ec; [|intros [= <- <-]; split; [by left|done]].
  set (s1 := match snapshot s with Some snap => if bool_decide (valid_until (s_stamp snap) ≤ t1)
                                               then invalidate s else s | None => s end).
  assert (Hs1 : s1 = s ∨ s1 = invalidate s) by (unfold s1; destruct (snapshot s); [case_bool_decide|]; auto).
  intros H. assert (H' : match stamp_init (source_token (instance s1) (epoch s1) (p_revision p)) (p_observed p)
      (p_observed p + p_lifetime p) with
    | Ok st => match stamp_check st (Some st) t2 with Ok _ => (Ok st, s1) | Raise e => (Raise e, s1) end
    | Raise e => (Raise e, s1) end = (r, s')).
  { rewrite <- H. unfold s1. destruct (snapshot s); [case_bool_decide|]; done. }
  clear H. destruct (stamp_init _ _ _) as [st|] eqn:Est; [|injection H' as <- <-; split; [done|done]].
  destruct (stamp_check st _ _); injection H' as <- <-; (split; [done|]); [|done].
  intros st' [= <-]. split; [done|]. apply stamp_init_Ok in Est as [-> Hl]. split; [done|lia].
Qed.

Lemma shows_lapsed f snap b1 b2 a :
  shows f false false snap → capabilities a = capabilities snap →
  topology a = shown_topology b1 b2 (topology snap) →
  operating_radios a = (if b2 then [] else operating_radios snap) → shows f b1 b2 a.
Proof. intros (Hc & Ht & Hr) Hc' Ht' Hr'. unfold shows. by rewrite Hc', Ht', Hr', Hc, Ht, Hr. Qed.

Lemma current_ok inst lo pub t1 t2 t3 s r s' :
  source_ok inst lo pub s → current t1 t2 t3 s = (r, s') →
  source_ok inst lo pub s' ∧ (epoch s ≤ epoch s')%N ∧ ∀ a, r = Ok (Some a) → traced inst lo (epoch s') pub a.
Proof.
  intros Hok Hc. apply current_cases in Hc as [Hs Ha]. split.
  { destruct Hs as [-> | ->]; [done|by apply invalidate_ok]. }
  split; [destruct Hs as [-> | ->]; simpl; lia|].
  intros a Hr. destruct (Ha a Hr) as (-> & snap & b1 & b2 & Hsnap & Ht & Hcap & Htop & Hrad & _).
  destruct (ok_snapshot _ _ _ _ Hok snap Hsnap) as (_ & rv & f & e & Hin & He & Htok & Hsh).
  exists rv, f, e, b1, b2. split; [done|]. split; [done|]. split; [by rewrite Ht, Htok|]. by eapply shows_lapsed.
Qed.

(** An accepted publication extends the record of publications. *)
Lemma accept_ok inst lo pub s p st context :
  source_ok inst lo pub s → publication_checks s p = Ok tt →
  token st = source_token inst (epoch s) (p_revision p) → valid_until st ≤ observed_at st + seconds 2 →
  source_ok inst lo ((p_revision p, p_facts p) :: pub)
    (s <| revision := Some (p_revision p) |> <| last_observed := Some (p_observed p) |>
       <| last_facts := Some (p_facts p) |>
       <| snapshot := Some (mkReportSnapshot st (f_capabilities (p_facts p)) (f_topology (p_facts p)) context
            (f_radios (p_facts p)) (f_telemetry (p_facts p)) (f_topology_until (p_facts p))
            (Some (p_revision p).1) (p_held p)) |>).
Proof.
  intros [Hi Hlo [Hr Hf] Hnn Hlat Honce _] (Hp & Hle & Hsame)%publication_checks_order Htok Hst.
  generalize dependent (p_facts p). intros f Hsame.
  assert (Hpast : ∀ r g, (r, g) ∈ pub → pair_lt (p_revision p) r = false).
  { intros r g Hin. destruct pub as [|[l lf] pub]; [by apply not_elem_of_nil in Hin|].
    apply (pair_lt_le r l); [by eapply Hlat|by apply Hle]. }
  assert (Hnow : ∀ g, (p_revision p, g) ∈ pub → f = g).
  { intros g Hin. destruct pub as [|[l lf] pub]; [by apply not_elem_of_nil in Hin|]. simpl in *.
    assert (p_revision p = l) as Hl by (apply pair_lt_antisymm; [by apply Hle|by eapply Hlat]).
    rewrite Hl in *. specialize (Hsame Hr). rewrite Hf in Hsame. injection Hsame as ->.
    apply (Honce l); [apply list_elem_of_here|done]. }
  split; simpl; [done|done|done| | | |].
  - intros r g [[= -> ->]|Hin]%elem_of_cons; [done|by eapply Hnn].
  - intros r g l Hin [= <-]. apply elem_of_cons in Hin as [[= -> ->]|Hin]; [apply pair_lt_irrefl|by eapply Hpast].
  - intros r g g' H1 H2. apply elem_of_cons in H1 as [H1|H1]; apply elem_of_cons in H2 as [H2|H2].
    + congruence.
    + injection H1 as -> ->. by apply Hnow.
    + injection H2 as -> ->. symmetry. by apply Hnow.
    + by eapply Honce.
  - intros snap [= <-]. split; [done|]. exists (p_revision p), f, (epoch s). split; [apply list_elem_of_here|].
    split; [lia|]. by split.
Qed.

Lemma publish_ok inst lo pub p t1 t2 t3 t4 t5 s r s' :
  source_ok inst lo pub s → publish p t1 t2 t3 t4 t5 s = (r, s') →
  ∃ pub', pub `suffix_of` pub' ∧ source_ok inst lo pub' s' ∧ (epoch s ≤ epoch s')%N ∧
    ∀ a, r = Ok (Some a) → traced inst lo (epoch s') pub' a.
Proof.
  intros Hok. unfold publish, try_else. destruct (publish_stamp p t1 t2 s) as [rst s1] eqn:Est.
  apply publish_stamp_cases in Est as [Hs1 Hst].
  assert (Hok1 : source_ok inst lo pub s1) by (destruct Hs1 as [-> | ->]; [done|by apply invalidate_ok]).
  assert (He1 : (epoch s ≤ epoch s1)%N) by (destruct Hs1 as [-> | ->]; simpl; lia).
  destruct rst as [st|e].
  - destruct (Hst st eq_refl) as (Hck & Heq & Hl).
    assert (Hck1 : publication_checks s1 p = Ok tt) by (by destruct Hs1 as [-> | ->]).
    unfold get, put, mbind, M_mbind. intros Hc. eapply current_ok in Hc as (Hok' & He' & Ha).
    2:{ apply (accept_ok inst lo pub s1 p st); [done|done| |]; rewrite Heq; simpl.
        - by rewrite (ok_instance _ _ _ _ Hok1).
        - lia. }
    exists ((p_revision p, p_facts p) :: pub). split; [by apply suffix_cons_r|].
    split; [done|]. split; [simpl in He'; lia|done].
  - unfold modify, lift, mbind, M_mbind. intros [= <- <-]. exists pub. split; [done|].
    split; [by apply invalidate_ok|]. split; [simpl; lia|done].
Qed.

Lemma happen_ok inst lo pub e s r s' :
  source_ok inst lo pub s → happen e s = (r, s') →
  ∃ pub', pub `suffix_of` pub' ∧ source_ok inst lo pub' s' ∧ (epoch s ≤ epoch s')%N ∧
    ∀ a, r = Ok (Some a) → traced inst lo (epoch s') pub' a.
Proof.
  intros Hok. destruct e; cbn [happen].
  - by apply publish_ok.
  - intros Hc. exists pub. split; [done|]. by eapply current_ok.
  - intros [= <- <-]. exists pub. split; [done|]. split; [by apply invalidate_ok|]. split; [simpl; lia|done].
  - intros [= <- <-]. exists pub. split; [done|]. split; [|done]. destruct Hok. by split.
Qed.

Lemma traced_weaken inst lo hi hi' pub pub' a :
  pub `suffix_of` pub' → (hi ≤ hi')%N → traced inst lo hi pub a → traced inst lo hi' pub' a.
Proof.
  intros [k ->] Hhi (r & f & e & b1 & b2 & Hin & He & H). exists r, f, e, b1, b2.
  split; [apply elem_of_app; by right|]. split; [lia|done].
Qed.

Lemma run_traced inst lo es s pub :
  source_ok inst lo pub s →
  ∃ pub', pub `suffix_of` pub' ∧ source_ok inst lo pub' (run es s).2 ∧ (epoch s ≤ epoch (run es s).2)%N ∧
    Forall (traced inst lo (epoch (run es s).2) pub') (run es s).1.
Proof.
  revert s pub. induction es as [|e es IH]; intros s pub Hok; simpl.
  { exists pub. split; [done|]. split; [done|]. split; [done|constructor]. }
  destruct (happen e s) as [r s'] eqn:Eh. destruct (run es s') as [seen s''] eqn:Er.
  destruct (happen_ok _ _ _ _ _ _ _ Hok Eh) as (pub1 & Hpub & Hok1 & He1 & Ha).
  destruct (IH s' pub1 Hok1) as (pub2 & Hpub2 & Hok2 & He2 & Hall). rewrite Er in Hok2, He2, Hall. simpl in *.
  exists pub2. split; [by etrans|]. split; [done|]. split; [lia|].
  destruct r as [[a|]|]; [|done|done]. constructor; [|done].
  eapply traced_weaken; [exact Hpub2|exact He2|]. by apply Ha.
Qed.

Lemma init_ok binding pod digest uuid s :
  ReportSource_init binding pod digest uuid = Ok s → source_ok uuid 0 [] s.
Proof.
  unfold ReportSource_init. rewrite raise_if_bind_Ok. intros [_ [= <-]].
  split; simpl; try done; intros * Hin; by apply not_elem_of_nil in Hin.
Qed.

Lemma mark_slashed b1 b2 : slashed (mark b1 b2).
Proof. by destruct b1, b2. Qed.
Lemma mark_inj b1 b2 c1 c2 : mark b1 b2 = mark c1 c2 → b1 = c1 ∧ b2 = c2.
Proof. by destruct b1, b2, c1, c2. Qed.

(** Two snapshots of one run with one token show the same facts. *)
Lemma run_same_facts binding pod digest uuid s es a b :
  ReportSource_init binding pod digest uuid = Ok s →
  a ∈ (run es s).1 → b ∈ (run es s).1 → token (s_stamp a) = token (s_stamp b) →
  capabilities a = capabilities b ∧ topology a = topology b ∧ operating_radios a = operating_radios b.
Proof.
  intros Hinit%init_ok Ha Hb Htok. destruct (run_traced _ _ es _ _ Hinit) as (pub & _ & Hok & _ & Hall).
  rewrite Forall_forall in Hall.
  destruct (Hall a Ha) as (r & f & e & b1 & b2 & Hin & _ & Ht & Hc & Hto & Hr).
  destruct (Hall b Hb) as (r' & f' & e' & b1' & b2' & Hin' & _ & Ht' & Hc' & Hto' & Hr').
  rewrite Ht, Ht' in Htok.
  apply source_token_inj in Htok as (_ & <- & [<- <-]%mark_inj);
    [|by eapply (ok_nonneg _ _ _ _ Hok)|by eapply (ok_nonneg _ _ _ _ Hok)|apply mark_slashed|apply mark_slashed].
  assert (f' = f) as -> by (by eapply (ok_once _ _ _ _ Hok)).
  by rewrite Hc, Hto, Hr, Hc', Hto', Hr'.
Qed.

Lemma run_fresh binding pod digest uuid s es t a s' :
  ReportSource_init binding pod digest uuid = Ok s →
  current t t t (run es s).2 = (Ok (Some a), s') →
  observed_at (s_stamp a) ≤ t < valid_until (s_stamp a) ∧
  valid_until (s_stamp a) ≤ observed_at (s_stamp a) + seconds 2.
Proof.
  intros Hinit%init_ok Hc. destruct (run_traced _ _ es _ _ Hinit) as (pub & _ & Hok & _).
  apply current_cases in Hc as [_ Ha].
  destruct (Ha a eq_refl) as (_ & snap & b1 & b2 & Hsnap & _ & _ & _ & _ & Ho & Ho' & Hv & _ & Hl).
  destruct (ok_snapshot _ _ _ _ Hok snap Hsnap) as [Hw _]. specialize (Hl eq_refl eq_refl). lia.
Qed.

Lemma run_app es es' s : run (es ++ es') s =
  ((run es s).1 ++ (run es' (run es s).2).1, (run es' (run es s).2).2).
Proof.
  revert s. induction es as [|e es IH]; intros s; simpl; [by destruct (run es' s)|].
  destruct (happen e s) as [r s']. rewrite IH. destruct (run es s') as [seen s'']. simpl.
  by destruct r as [[a|]|].
Qed.

(** * Properties *)

(** C13: a token identifies what it stamps. In any run of a source (publications accepted or refused,
    invalidations, reassigned attributes, lapsed leases, polls at any times), two snapshots it ever
    returned under the same token have the same capabilities, topology and operating radios: the
    token moves whenever the facts do. *)
Theorem token_identifies_facts binding pod digest uuid s es a b :
  ReportSource_init binding pod digest uuid = Ok s →
  a ∈ (run es s).1 → b ∈ (run es s).1 → token (s_stamp a) = token (s_stamp b) →
  capabilities a = capabilities b ∧ topology a = topology b ∧ operating_radios a = operating_radios b.
Proof.
  apply run_same_facts.
Qed.

(** Invalidation is final. A snapshot returned before an invalidation never has the token of one
    returned after it, even when the same revision with the same facts is published again: a report
    prepared before the invalidation passes no later stamp check. *)
Theorem invalidation_final binding pod digest uuid s es es' a b now :
  ReportSource_init binding pod digest uuid = Ok s →
  a ∈ (run es s).1 → b ∈ (run es' (invalidate (run es s).2)).1 →
  token (s_stamp a) ≠ token (s_stamp b) ∧ is_ok (stamp_check (s_stamp a) (Some (s_stamp b)) now) = false.
Proof.
  intros Hinit%init_ok Ha Hb. destruct (run_traced _ _ es _ _ Hinit) as (pub & _ & Hok & _ & Hall).
  apply invalidate_ok_after in Hok as Hok'.
  destruct (run_traced _ _ es' _ _ Hok') as (pub' & Hpub & Hok2 & _ & Hall').
  assert (Hne : token (s_stamp a) ≠ token (s_stamp b)).
  { rewrite Forall_forall in Hall, Hall'.
    destruct (Hall a Ha) as (r & f & e & b1 & b2 & Hin & [_ He] & Ht & _).
    destruct (Hall' b Hb) as (r' & f' & e' & b1' & b2' & Hin' & [He' _] & Ht' & _).
    rewrite Ht, Ht'. intros Htok.
    apply source_token_inj in Htok as (<- & _);
      [|by eapply (ok_nonneg _ _ _ _ Hok)|by eapply (ok_nonneg _ _ _ _ Hok2)|apply mark_slashed|apply mark_slashed].
    simpl in He'. lia. }
  split; [done|]. simpl. rewrite bool_decide_eq_false_2 by congruence. done.
Qed.

(** What is shown is fresh. In any reachable state of a source, a snapshot that a poll at time [t]
    returns was observed no later than [t] and its lease is still running at [t]; the lease is never
    longer than two seconds after the observation. *)
Theorem snapshots_fresh binding pod digest uuid s es t a s' :
  ReportSource_init binding pod digest uuid = Ok s →
  current t t t (run es s).2 = (Ok (Some a), s') →
  observed_at (s_stamp a) ≤ t < valid_until (s_stamp a) ∧
  valid_until (s_stamp a) ≤ observed_at (s_stamp a) + seconds 2.
Proof.
  apply run_fresh.
Qed.

(** A source that publishes, is invalidated and publishes the same revision again. *)
Definition example_source_facts : Facts := mkFacts example_caps example_facts [] None None.
Definition example_publication (t : Z) : event :=
  EPublish (mkPublication (1, 1) example_source_facts t 1000 None []) t t t t t.
Definition example_digest : string := "0123456789abcdef0123456789abcdef0123456789abcdef0123456789abcdef".
Definition example_source : ReportSource :=
  mkReportSource example_binding "pod-1" example_digest (example_binding, "pod-1", example_digest) "i" 0
    None None None None.

Lemma token_identifies_facts_witness :
  ∃ a b, a ∈ (run [example_publication 0; example_publication 500; ECurrent 600 600 600] example_source).1 ∧
    b ∈ (run [example_publication 0; example_publication 500; ECurrent 600 600 600] example_source).1 ∧
    s_stamp a ≠ s_stamp b ∧ topology a = topology b.
Proof.
  set (es := [example_publication 0; example_publication 500; ECurrent 600 600 600]).
  destruct (run es example_source).1 as [|a [|b l]] eqn:E; [vm_compute in E; discriminate E..|].
  assert (Ha : a ∈ (run es example_source).1) by (rewrite E; left).
  assert (Hb : b ∈ (run es example_source).1) by (rewrite E; right; left).
  rewrite E in Ha, Hb. exists a, b. split; [done|]. split; [done|].
  assert (Hd : ∃ a b l, (run es example_source).1 = a :: b :: l ∧ token (s_stamp a) = token (s_stamp b) ∧
    s_stamp a ≠ s_stamp b).
  { do 3 eexists. split; [vm_compute; reflexivity|]. split; [reflexivity|discriminate]. }
  destruct Hd as (a' & b' & l' & E' & Ht & Hs). rewrite E in E'. injection E' as <- <- <-. split; [done|].
  refine (proj1 (proj2 (token_identifies_facts example_binding "pod-1" example_digest "i" example_source es a b
    _ _ _ Ht))); [reflexivity|rewrite E; done|rewrite E; done].
Defined.

Lemma invalidation_final_witness :
  ∃ a b, a ∈ (run [example_publication 0] example_source).1 ∧
    b ∈ (run [example_publication 500] (invalidate (run [example_publication 0] example_source).2)).1 ∧
    topology a = topology b ∧ token (s_stamp a) ≠ token (s_stamp b).
Proof.
  do 2 eexists. split; [vm_compute; left|]. split; [vm_compute; left|]. split; [reflexivity|].
  apply (invalidation_final example_binding "pod-1" example_digest "i" example_source
    [example_publication 0] [example_publication 500] _ _ 600); [reflexivity|vm_compute; left|vm_compute; left].
Defined.

Lemma snapshots_fresh_witness :
  ∃ a, (current 600 600 600 (run [example_publication 0] example_source).2).1 = Ok (Some a) ∧
    observed_at (s_stamp a) ≤ 600 < valid_until (s_stamp a).
Proof.
  eexists. split; [vm_compute; reflexivity|].
  eapply (snapshots_fresh example_binding "pod-1" example_digest "i" example_source [example_publication 0] 600);
    [reflexivity|vm_compute; reflexivity].
Defined.
