(* ===== verification/Session.v ===== *)
(** * What the coordinators of a session share

    The coordinators of [src/emosa/wire/] look at a clock, poll the report source, hand frames to a
    link and count events. The clock, the source and the link are outside their code: the [n]th thing
    a session asks of them is answered by the [n]th element of a [World]. What the source promises is
    the interface [SourceLaws], which [ReportSource] discharges. *)

From S2P Require Import Prelude Bytes Cmdu Payloads TopologyValues Reports Channel ReportSource.

Class World := {
  world_clock : nat → Z;
  world_binding : nat → PeerBinding;
  world_source : nat → option ReportSnapshot;
  world_link : nat → bool
}.

(** A failed write to the link is an [OSError], which [except EmosaError] does not catch. *)
Definition os_error : EmosaError := mkEmosaError NOT_FOUND "OSError".

(** [Reason(...).value] *)
Definition reason_value (r : Reason) : string :=
  match r with
  | INVALID_INPUT => "INVALID_INPUT"
  | UNSUPPORTED_OPERATION => "UNSUPPORTED_OPERATION"
  | SCHEMA_MISMATCH => "SCHEMA_MISMATCH"
  | NOT_READY => "NOT_READY"
  | OWNERSHIP_CONFLICT => "OWNERSHIP_CONFLICT"
  | PRECONDITION_FAILED => "PRECONDITION_FAILED"
  | APPLY_TIMEOUT => "APPLY_TIMEOUT"
  | OUTCOME_UNKNOWN => "OUTCOME_UNKNOWN"
  | MISSING_PREREQUISITE => "MISSING_PREREQUISITE"
  | BUSY => "BUSY"
  | NOT_FOUND => "NOT_FOUND"
  end.

(** What the source promises its clients: a snapshot it shows is of a running lease of at most two
    seconds, and tokens identify facts. *)
Class SourceLaws (W : World) : Prop := {
  source_fresh : ∀ n a, world_source n = Some a →
    observed_at (s_stamp a) ≤ world_clock n < valid_until (s_stamp a) ∧
    valid_until (s_stamp a) ≤ observed_at (s_stamp a) + seconds 2;
  source_tokens : ∀ n m a b, world_source n = Some a → world_source m = Some b →
    token (s_stamp a) = token (s_stamp b) →
    capabilities a = capabilities b ∧ topology a = topology b ∧ operating_radios a = operating_radios b
}.

Section Session.
Context `{World}.

(** [self.clock()], [self.source.current()], [self.source.binding] *)
Definition clock : M Io Z := λ io, (Ok (world_clock (asked io)), io <| asked := S (asked io) |>).
Definition poll : M Io (option ReportSnapshot) := λ io,
  (Ok (world_source (asked io)), io <| asked := S (asked io) |>).
Definition poll_binding : M Io PeerBinding := λ io,
  (Ok (world_binding (asked io)), io <| asked := S (asked io) |>).

(** [self.send_frame(frame)] *)
Definition send_frame (frame : bytes) : M Io unit := λ io,
  (if world_link (asked io) then Ok tt else Raise os_error,
   mkIo (S (asked io)) (sent io ++ [(asked io, frame)])).

(** [PreparedReport(...).send(self.send_frame, stamp, clock=self.clock)], where [stamp] is
    [snapshot().stamp] for the caller's [snapshot]. *)
Definition deliver (binding : PeerBinding) (snap : M Io ReportSnapshot) (kind mid : Z) (tlvs : list Tlv)
    (from : ReportSnapshot) (limit : Z) : M Io unit :=
  fs ← lift (fragment_message (controller_al binding) (local_al binding) kind mid tlvs false MAX_CMDU);
  _ ← send send_frame (a ← snap; mret (Some (s_stamp a))) clock
        (mkPreparedReport kind mid (s_stamp from) (Z.min limit (valid_until (s_stamp from))) fs);
  mret tt.
End Session.

(** ** Counters: [self.counts[event] = self.counts.get(event, 0) + 1] *)

Definition count (event : string) (counts : gmap string Z) : gmap string Z :=
  <[event := default 0 (counts !! event) + 1]> counts.

(** [deque(maxlen=n).append(x)] *)
Definition deque_append {A} (n : nat) (l : list A) (x : A) : list A :=
  drop (length l + 1 - n) (l ++ [x]).

(** ** A coordinator that holds its session's [Io] *)

Class HasIo (S : Type) := { io_of : S → Io; with_io : Io → S → S }.
Class HasIoLaws (S : Type) `{HasIo S} : Prop := { io_with : ∀ i (s : S), io_of (with_io i s) = i }.

Definition on_io {S A} `{HasIo S} (m : M Io A) : M S A := λ s,
  let '(r, i) := m (io_of s) in (r, with_io i s).

(** ** Dictionaries whose order of insertion is observed *)

Section Ordered.
Context {K V : Type} `{EqDecision K}.

(** [d[k] = v], [d.pop(k, None)] *)
Definition od_set (k : K) (v : V) (d : list (K * V)) : list (K * V) :=
  if bool_decide (k ∈ d.*1) then (λ kv, if bool_decide (kv.1 = k) then (k, v) else kv) <$> d else d ++ [(k, v)].
Definition od_pop (k : K) (d : list (K * V)) : list (K * V) := filter (λ kv, kv.1 ≠ k) d.
End Ordered.

(** * Theory *)

Lemma deque_append_length {A} n (l : list A) x : (length l ≤ n)%nat → (length (deque_append n l x) ≤ n)%nat.
Proof. intros Hl. unfold deque_append. rewrite length_drop, length_app. simpl. lia. Qed.

Section OrderedTheory.
Context {K V : Type} `{EqDecision K}.
Implicit Types (d : list (K * V)) (k : K) (v : V).

Lemma od_set_keys k v d : (od_set k v d).*1 = if bool_decide (k ∈ d.*1) then d.*1 else d.*1 ++ [k].
Proof.
  unfold od_set. case_bool_decide; [|by rewrite fmap_app]. rewrite <- list_fmap_compose. apply list_fmap_ext.
  intros i [k' v'] _. simpl. by case_bool_decide; subst.
Qed.
Lemma od_set_NoDup k v d : NoDup d.*1 → NoDup (od_set k v d).*1.
Proof.
  intros Hd. rewrite od_set_keys. case_bool_decide as Hk; [done|]. apply NoDup_app. split; [done|].
  split; [|apply NoDup_singleton]. intros x Hx ->%list_elem_of_singleton. done.
Qed.
Lemma od_set_elem k v d e : e ∈ od_set k v d → e = (k, v) ∨ e ∈ d ∧ e.1 ≠ k.
Proof.
  unfold od_set. case_bool_decide as Hk.
  - intros (e' & -> & He')%list_elem_of_fmap. case_bool_decide; [by left|by right].
  - intros [He| ->%list_elem_of_singleton]%elem_of_app; [|by left]. right. split; [done|].
    intros <-. apply Hk. apply list_elem_of_fmap. by exists e.
Qed.
Lemma od_set_length k v d : (length (od_set k v d) ≤ S (length d))%nat.
Proof. unfold od_set. case_bool_decide; [rewrite length_fmap; lia|rewrite length_app; simpl; lia]. Qed.
Lemma od_set_same_length k v d : k ∈ d.*1 → length (od_set k v d) = length d.
Proof. intros Hk. unfold od_set. by rewrite bool_decide_eq_true_2, length_fmap. Qed.
Lemma od_set_here k v d : (k, v) ∈ od_set k v d.
Proof.
  unfold od_set. case_bool_decide as Hk; [|apply elem_of_app; right; by apply list_elem_of_singleton].
  apply list_elem_of_fmap in Hk as (e & -> & He). apply list_elem_of_fmap. exists e. split; [|done].
  by rewrite bool_decide_eq_true_2.
Qed.

Lemma od_set_other k v d e : e ∈ d → e.1 ≠ k → e ∈ od_set k v d.
Proof.
  intros He Hk. unfold od_set. case_bool_decide; [|apply elem_of_app; by left]. apply list_elem_of_fmap.
  exists e. split; [|done]. by rewrite bool_decide_eq_false_2.
Qed.

Lemma od_pop_elem k d e : e ∈ od_pop k d ↔ e.1 ≠ k ∧ e ∈ d.
Proof. unfold od_pop. by rewrite list_elem_of_filter. Qed.
Lemma od_pop_gone k d : k ∉ (od_pop k d).*1.
Proof. intros (e & He & [Hn _]%od_pop_elem)%list_elem_of_fmap. congruence. Qed.
Lemma od_pop_length k d : (length (od_pop k d) ≤ length d)%nat.
Proof. apply length_filter. Qed.
Lemma od_pop_NoDup k d : NoDup d.*1 → NoDup (od_pop k d).*1.
Proof. intros Hd. eapply sublist_NoDup; [exact Hd|]. apply fmap_sublist, sublist_filter. Qed.
End OrderedTheory.

(** A delivery hands over a prefix of the frames; one that returns handed over all of them. *)
Section Deliver.
Context `{World}.

(** Polling for a snapshot sends nothing. *)
Definition silent {A} (m : M Io A) : Prop := ∀ io, sent (m io).2 = sent io.

Lemma send_frames_silent (cur : M Io (option ReportStamp)) self fs io :
  silent cur →
  ∃ r n new, for_each (send_one send_frame cur clock self) fs io = (r, mkIo n (sent io ++ new)) ∧
    new.*2 `prefix_of` fs ∧ (r = Ok tt → new.*2 = fs).
Proof.
  intros Hcur.
  assert (Hg : ∀ d io, ∃ r n, (current ← cur; now ← clock;
      _ ← lift (stamp_check (stamp self) current now);
      lift (need (bool_decide (now < deadline self)) d)) io = (r, mkIo n (sent io))).
  { intros d io1. unfold mbind, M_mbind, mret, M_mret, clock, lift.
    specialize (Hcur io1). destruct (cur io1) as [[a|e] [n fs1]]; simpl in Hcur; subst fs1.
    - destruct (stamp_check _ _ _); eauto.
    - eauto. }
  revert io. induction fs as [|f fs IH]; intros io.
  { exists (Ok tt), (asked io), []. rewrite app_nil_r. destruct io. split; [done|]. done. }
  cbn [for_each].
  assert (Hone : ∃ r n new, send_one send_frame cur clock self f io =
    (r, mkIo n (sent io ++ new)) ∧ (new = [] ∧ r ≠ Ok tt ∨ new.*2 = [f])).
  { set (rest := _ ← send_frame f; current ← cur; now ← clock;
        _ ← lift (stamp_check (stamp self) current now);
        lift (need (bool_decide (now < deadline self)) "report transmission exceeded its response deadline")).
    assert (Hs : send_one send_frame cur clock self f io =
      match (current ← cur; now ← clock;
        _ ← lift (stamp_check (stamp self) current now);
        lift (need (bool_decide (now < deadline self)) "report response deadline expired")) io with
      | (Ok _, io') => rest io' | (Raise e, io') => (Raise e, io') end).
    { unfold send_one, rest, mbind, M_mbind, mret, M_mret, clock, lift.
      destruct (cur io) as [[a|] io1]; [|done]. by destruct (stamp_check _ _ _) as [[]|]. }
    rewrite Hs. destruct (Hg "report response deadline expired" io) as (r1 & n1 & ->).
    destruct r1 as [u|e]; [|exists (Raise e), n1, []; rewrite app_nil_r; split; [done|by left]].
    unfold rest. unfold mbind at 1, M_mbind at 1. unfold send_frame at 1. simpl.
    destruct (world_link n1).
    - destruct (Hg "report transmission exceeded its response deadline" (mkIo (S n1) (sent io ++ [(n1, f)])))
        as (r2 & n2 & E2). rewrite E2. simpl. do 3 eexists. split; [reflexivity|by right].
    - do 3 eexists. split; [reflexivity|by right]. }
  destruct Hone as (r1 & n1 & new1 & E1 & H1). unfold mbind at 1, M_mbind at 1. rewrite E1.
  destruct r1 as [[]|e].
  - destruct H1 as [[_ H1]|H1]; [done|]. destruct (IH (mkIo n1 (sent io ++ new1))) as (r & n & new & E & Hp & Ho).
    rewrite E. simpl. exists r, n, (new1 ++ new). rewrite app_assoc. split; [done|]. rewrite fmap_app, H1.
    split; [by apply prefix_cons|]. intros Hr. by rewrite (Ho Hr).
  - exists (Raise e), n1, new1. split; [done|]. split; [|done].
    destruct H1 as [[-> _]|H1]; [apply prefix_nil|]. rewrite H1. apply prefix_cons, prefix_nil.
Qed.

(** A report that was sent was sent whole. *)
Lemma send_run (cur : M Io (option ReportStamp)) self io :
  silent cur →
  ∃ r n new, send send_frame cur clock self io = (r, mkIo n (sent io ++ new)) ∧
    new.*2 `prefix_of` frames self ∧ ∀ k, r = Ok k → new.*2 = frames self.
Proof.
  intros Hcur. destruct (send_frames_silent cur self (frames self) io Hcur) as (r & n & new & E & Hp & Ho).
  unfold send, mbind, M_mbind. rewrite E. destruct r as [[]|e]; do 3 eexists; (split; [reflexivity|]);
    (split; [done|]); [|done]. intros k _. by apply Ho.
Qed.

Lemma silent_stamp (snap : M Io ReportSnapshot) : silent snap → silent (a ← snap; mret (Some (s_stamp a))).
Proof. intros Hs io. rewrite M_bind_snd. specialize (Hs io). by destruct (snap io) as [[]]. Qed.

Lemma deliver_run binding snap kind mid tlvs from limit io :
  silent snap →
  ∃ r n new, deliver binding snap kind mid tlvs from limit io = (r, mkIo n (sent io ++ new)) ∧
    (new = [] ∨ ∃ fs, fragment_message (controller_al binding) (local_al binding) kind mid tlvs false MAX_CMDU = Ok fs ∧
       new.*2 `prefix_of` fs) ∧
    (r = Ok tt → fragment_message (controller_al binding) (local_al binding) kind mid tlvs false MAX_CMDU = Ok new.*2).
Proof.
  intros Hsnap. unfold deliver, mbind at 1, M_mbind at 1, lift.
  destruct (fragment_message _ _ _ _ _ _ _) as [fs|e].
  2:{ exists (Raise e), (asked io), []. rewrite app_nil_r. destruct io. split; [done|]. split; [by left|done]. }
  set (self := mkPreparedReport _ _ _ _ fs).
  destruct (send_run (a ← snap; mret (Some (s_stamp a))) self io (silent_stamp snap Hsnap)) as (r & n & new & E & Hp & Ho).
  unfold mbind at 1, M_mbind at 1. rewrite E.
  destruct r as [k|e]; [exists (Ok tt), n, new|exists (Raise e), n, new];
    (split; [done|]); (split; [right; by exists fs|]); [|done].
  intros _. by rewrite (Ho k eq_refl).
Qed.
End Deliver.

(** The same for a coordinator whose stamp changes its state: [out] is what it has handed over. *)
Section SendOut.
Context {S : Type} (out : S → list bytes) (sf : bytes → M S unit) (cur : M S (option ReportStamp)) (clk : M S Z).
Hypothesis sf_out : ∀ f s, out (sf f s).2 = out s ++ [f].
Hypothesis cur_out : ∀ s, out (cur s).2 = out s.
Hypothesis clk_out : ∀ s, out (clk s).2 = out s.

Lemma check_out self d s :
  out ((current ← cur; now ← clk; _ ← lift (stamp_check (stamp self) current now);
        lift (need (bool_decide (now < deadline self)) d)) s).2 = out s.
Proof.
  rewrite M_bind_snd. specialize (cur_out s). destruct (cur s) as [[c|e] s1]; [|done].
  rewrite M_bind_snd. specialize (clk_out s1). destruct (clk s1) as [[n|e] s2]; simpl in *; [|congruence].
  unfold mbind, M_mbind, lift. destruct (stamp_check _ _ _); simpl; congruence.
Qed.

Lemma send_one_out self f s :
  ∃ new, out (send_one sf cur clk self f s).2 = out s ++ new ∧ new `prefix_of` [f] ∧
    (∀ u, (send_one sf cur clk self f s).1 = Ok u → new = [f]).
Proof.
  set (guard d := current ← cur; now ← clk; _ ← lift (stamp_check (stamp self) current now);
        lift (need (bool_decide (now < deadline self)) d) : M S unit).
  set (rest := _ ← sf f; guard "report transmission exceeded its response deadline").
  assert (Hs : send_one sf cur clk self f s = (guard "report response deadline expired" ≫= λ _, rest) s).
  { unfold send_one, rest, guard, mbind, M_mbind, lift. destruct (cur s) as [[c|e] s1]; [|done].
    destruct (clk s1) as [[n|e] s2]; [|done]. destruct (stamp_check _ _ _); [|done]. done. }
  rewrite Hs. pose proof (check_out self "report response deadline expired" s) as H1.
  fold (guard "report response deadline expired") in H1. 
  change ((guard "report response deadline expired" ≫= λ _, rest) s) with
    (match guard "report response deadline expired" s with (Ok a, s') => rest s' | (Raise e, s') => (Raise e, s') end).
  destruct (guard "report response deadline expired" s) as [[u|e] s1]; simpl in H1.
  2:{ exists []. rewrite app_nil_r. split; [done|]. split; [apply prefix_nil|done]. }
  exists [f]. split; [|done]. unfold rest. rewrite M_bind_snd. pose proof (sf_out f s1) as H2.
  destruct (sf f s1) as [[v|e] s2]; simpl in *; [|congruence].
  pose proof (check_out self "report transmission exceeded its response deadline" s2) as H3.
  fold (guard "report transmission exceeded its response deadline") in H3. congruence.
Qed.

Lemma send_out self s :
  ∃ new, out (send sf cur clk self s).2 = out s ++ new ∧ new `prefix_of` frames self ∧
    (∀ k, (send sf cur clk self s).1 = Ok k → new = frames self).
Proof.
  assert (Hall : ∀ fs s, ∃ new, out (for_each (send_one sf cur clk self) fs s).2 = out s ++ new ∧ new `prefix_of` fs ∧
    (∀ u, (for_each (send_one sf cur clk self) fs s).1 = Ok u → new = fs)).
  { induction fs as [|f fs IH]; intros s0; [exists []; rewrite app_nil_r; done|]. cbn [for_each].
    destruct (send_one_out self f s0) as (new1 & H1 & Hp & Ho). unfold mbind, M_mbind.
    destruct (send_one sf cur clk self f s0) as [[u|e] s1]; simpl in *.
    - rewrite (Ho u eq_refl) in H1. destruct (IH s1) as (new2 & H2 & Hp2 & Ho2). exists (f :: new2).
      rewrite H2, H1, <- app_assoc. split; [done|]. split; [by apply prefix_cons|]. intros v Hv. by rewrite (Ho2 v Hv).
    - exists new1. split; [done|]. split; [|done]. etrans; [exact Hp|]. by apply prefix_cons, prefix_nil. }
  destruct (Hall (frames self) s) as (new & H1 & Hp & Ho). exists new. unfold send, mbind, M_mbind.
  destruct (for_each _ _ s) as [[u|e] s1]; simpl in *; (split; [done|]); (split; [done|]); [|done].
  intros k _. by apply (Ho u).
Qed.
End SendOut.

(** ** Asking goes forward, and what was sent stays sent *)

Definition later (i i' : Io) : Prop := (asked i ≤ asked i')%nat ∧ sent i `prefix_of` sent i'.

#[export] Instance later_preorder : PreOrder later.
Proof.
  split; [by intros i; split|]. intros i1 i2 i3 [? ?] [? ?]. split; [lia|by etrans].
Qed.

(** The frames were handed to the link, in one run. *)
Definition handed_over (io : Io) (fs : list bytes) : Prop := ∃ pre post, (sent io).*2 = pre ++ fs ++ post.

Lemma handed_over_later i i' fs : later i i' → handed_over i fs → handed_over i' fs.
Proof.
  intros [_ [new Hn]] (pre & post & Hs). exists pre, (post ++ new.*2).
  by rewrite Hn, fmap_app, Hs, !app_assoc.
Qed.

Lemma handed_over_now n old (new : list (nat * bytes)) : handed_over (mkIo n (old ++ new)) new.*2.
Proof. exists old.*2, []. simpl. by rewrite app_nil_r, fmap_app. Qed.

Definition forward {A} (m : M Io A) : Prop := ∀ io, later io (m io).2.

Section Forward.
Context `{World}.

Lemma forward_mret {A} (a : A) : forward (mret a).
Proof. intros io. done. Qed.
Lemma forward_lift {A} (r : result A) : forward (lift r).
Proof. intros io. done. Qed.
Lemma forward_bind {A B} (m : M Io A) (k : A → M Io B) : forward m → (∀ a, forward (k a)) → forward (m ≫= k).
Proof.
  intros Hm Hk io. specialize (Hm io). rewrite M_bind_snd. destruct (m io) as [[a|e] io']; [|done].
  specialize (Hk a io'). simpl in *. by etrans.
Qed.
Lemma forward_for_each {A} (f : A → M Io unit) l : (∀ a, forward (f a)) → forward (for_each f l).
Proof.
  intros Hf. induction l as [|x l IH]; [apply forward_mret|]. cbn [for_each]. by apply forward_bind.
Qed.
Lemma forward_clock : forward clock.
Proof. intros io. split; simpl; [lia|done]. Qed.
Lemma forward_poll : forward poll.
Proof. intros io. split; simpl; [lia|done]. Qed.
Lemma forward_poll_binding : forward poll_binding.
Proof. intros io. split; simpl; [lia|done]. Qed.
Lemma forward_send_frame f : forward (send_frame f).
Proof. intros io. split; simpl; [lia|by apply prefix_app_r]. Qed.

Lemma forward_send cur r : forward cur → forward (send send_frame cur clock r).
Proof.
  intros Hcur. unfold send, send_one.
  repeat (first [apply forward_mret|apply forward_lift|apply forward_clock|apply forward_send_frame|exact Hcur
                |apply forward_bind; [|intros ?]|apply forward_for_each; intros ?]).
Qed.

Lemma forward_deliver binding snap kind mid tlvs from limit :
  forward snap → forward (deliver binding snap kind mid tlvs from limit).
Proof.
  intros Hsnap. unfold deliver.
  repeat (first [apply forward_mret|apply forward_lift|exact Hsnap|apply forward_send|apply forward_bind; [|intros ?]]).
Qed.
End Forward.

(** ** Keeping an invariant, whether the call returns or raises *)

Definition keeps {S A} (J : S → Prop) (m : M S A) : Prop := hoare J m (λ _, J) (λ _, J).

Section Keeps.
Context {S : Type} (J : S → Prop).

Lemma keeps_mret {A} (a : A) : keeps J (mret a).
Proof. by apply hoare_ret. Qed.
Lemma keeps_lift {A} (r : result A) : keeps J (lift r).
Proof. by apply hoare_lift. Qed.
Lemma keeps_raise {A} c m : keeps J (raise c m : M S A).
Proof. by apply hoare_raise. Qed.
Lemma keeps_bind {A B} (m : M S A) (k : A → M S B) : keeps J m → (∀ a, keeps J (k a)) → keeps J (m ≫= k).
Proof. intros Hm Hk. by eapply hoare_bind. Qed.
Lemma keeps_modify f : (∀ s, J s → J (f s)) → keeps J (modify f).
Proof. intros Hf. by apply hoare_modify. Qed.
Lemma keeps_try {A B} (m : M S A) (k : A → M S B) h :
  keeps J m → (∀ a, keeps J (k a)) → (∀ e, keeps J (h e)) → keeps J (try_else m k h).
Proof.
  intros Hm Hk Hh s Hs. specialize (Hm s Hs). unfold try_else.
  destruct (m s) as [[a|e] s']; [by apply Hk|by apply Hh].
Qed.
Lemma keeps_for_each {A} (f : A → M S unit) l : (∀ a, keeps J (f a)) → keeps J (for_each f l).
Proof. intros Hf. induction l as [|x l IH]; [apply keeps_mret|]. cbn [for_each]. by apply keeps_bind. Qed.
Lemma keeps_get {B} (k : S → M S B) : (∀ s, keeps J (k s)) → keeps J (get ≫= k).
Proof. intros Hk s Hs. exact (Hk s s Hs). Qed.
Lemma keeps_get_with {B} (k : S → M S B) : (∀ s, J s → keeps J (k s)) → keeps J (get ≫= k).
Proof. intros Hk s Hs. exact (Hk s Hs s Hs). Qed.
Lemma keeps_lift_bind {A B} (r : result A) (k : A → M S B) : (∀ a, r = Ok a → keeps J (k a)) → keeps J (lift r ≫= k).
Proof. intros Hk s Hs. unfold mbind, M_mbind, lift. destruct r as [a|e]; [by apply Hk|done]. Qed.
Lemma keeps_bind_ret {A B} (m : M S A) (k : A → M S B) :
  keeps J m → (∀ s a s', m s = (Ok a, s') → keeps J (k a)) → keeps J (m ≫= k).
Proof.
  intros Hm Hk s Hs. specialize (Hm s Hs). unfold mbind, M_mbind. destruct (m s) as [[a|e] s'] eqn:E; [|done]. by apply (Hk s a s').
Qed.
Lemma keeps_for_each_in {A} (f : A → M S unit) l : (∀ a, a ∈ l → keeps J (f a)) → keeps J (for_each f l).
Proof.
  intros Hf. induction l as [|x l IH]; [apply keeps_mret|]. cbn [for_each]. apply keeps_bind; [apply Hf; by left|].
  intros _. apply IH. intros a Ha. apply Hf. by right.
Qed.
Lemma keeps_fmap {A B} (f : A → B) (m : M S A) : keeps J m → keeps J (f <$> m).
Proof. intros Hm s Hs. specialize (Hm s Hs). unfold fmap, M_fmap. by destruct (m s) as [[a|e] s']. Qed.
Lemma keeps_snd {A} (m : M S A) s : keeps J m → J s → J (m s).2.
Proof. intros Hm Hs. specialize (Hm s Hs). by destruct (m s) as [[]]. Qed.
End Keeps.

(** One step of a proof that a call keeps an invariant; [leaf] is for the calls the invariant is about. *)
Ltac keeps_step leaf :=
  match goal with
  | |- keeps _ (mret _) => apply keeps_mret
  | |- keeps _ (lift _) => apply keeps_lift
  | |- keeps _ (raise _ _) => apply keeps_raise
  | |- keeps _ (modify _) => apply keeps_modify; intros ? Hs; exact Hs
  | |- keeps _ (get ≫= _) => apply keeps_get; intros ?
  | |- keeps _ (_ ≫= _) => apply keeps_bind; [|intros ?]
  | |- keeps _ (_ <$> _) => apply keeps_fmap
  | |- keeps _ (try_else _ _ _) => apply keeps_try; [|intros ?|intros ?]
  | |- keeps _ (for_each _ _) => apply keeps_for_each; intros ?
  | |- keeps _ (if ?b then _ else _) => destruct b
  | |- keeps _ (match ?x with _ => _ end) => destruct x
  | |- keeps _ _ => first [assumption|leaf]
  end.
Ltac keeps_walk leaf := cbv zeta; repeat (keeps_step leaf; cbv zeta).

Lemma keeps_send {S} (J : S → Prop) sf cur clk r :
  (∀ f, keeps J (sf f)) → keeps J cur → keeps J clk → keeps J (send sf cur clk r).
Proof.
  intros Hf Hc Hk. unfold send. apply keeps_bind; [|intros; apply keeps_mret].
  apply keeps_for_each. intros f. unfold send_one.
  repeat (first [apply keeps_lift|exact Hc|exact Hk|apply Hf|apply keeps_bind; [|intros ?]]).
Qed.

(** The state that [get] returns is the one the rest starts in. *)
Lemma hoare_get_bind {S B} (P : S → Prop) (k : S → M S B) Q E :
  (∀ s0, P s0 → hoare (λ s, s = s0) (k s0) Q E) → hoare P (get ≫= k) Q E.
Proof. intros Hk s Hs. exact (Hk s Hs s eq_refl). Qed.

Lemma hoare_pre {S A} (P P' : S → Prop) (m : M S A) Q E :
  hoare P m Q E → (∀ s, P' s → P s) → hoare P' m Q E.
Proof. intros Hm HP s Hs. apply Hm. by apply HP. Qed.

Lemma hoare_try {S A B} (P : S → Prop) (m : M S A) (k : A → M S B) h R F Q E :
  hoare P m R F → (∀ a, hoare (R a) (k a) Q E) → (∀ e, hoare (F e) (h e) Q E) → hoare P (try_else m k h) Q E.
Proof.
  intros Hm Hk Hh s Hs. specialize (Hm s Hs). unfold try_else.
  destruct (m s) as [[a|e] s']; [by apply Hk|by apply Hh].
Qed.

(** A loop whose invariant speaks of what is left. *)
Lemma hoare_for_each_left {S A} (f : A → M S unit) (J : list A → S → Prop) (E : EmosaError → S → Prop) l :
  (∀ x l, hoare (J (x :: l)) (f x) (λ _, J l) E) → hoare (J l) (for_each f l) (λ _, J []) E.
Proof.
  intros Hf. induction l as [|x l IH]; [by apply hoare_ret|]. cbn [for_each].
  apply hoare_bind with (R := λ _, J l); [apply Hf|]. intros _. exact IH.
Qed.

(** ** What holds of a coordinator whatever its session went through since *)

Section OnIo.
Context `{World} {S : Type} `{HasIoLaws S}.

Definition stable (J : S → Prop) : Prop := ∀ s i, J s → later (io_of s) i → J (with_io i s).

Lemma keeps_on {A} J (m : M Io A) : stable J → forward m → keeps J (on_io m).
Proof.
  intros HJ Hm s Hs. unfold on_io. specialize (Hm (io_of s)). destruct (m (io_of s)) as [[a|e] i]; by apply HJ.
Qed.
Lemma keeps_clock J : stable J → keeps J (on_io clock).
Proof. intros HJ. apply keeps_on; [done|apply forward_clock]. Qed.

Lemma deliver_ok J binding snap kind mid tlvs a limit :
  stable J → silent snap → forward snap →
  hoare J (on_io (deliver binding snap kind mid tlvs a limit))
    (λ _ s, J s ∧ ∃ fs, fragment_message (controller_al binding) (local_al binding) kind mid tlvs false MAX_CMDU = Ok fs ∧
       handed_over (io_of s) fs) (λ _, J).
Proof.
  intros HJ Hq Hf s Hs. unfold on_io. destruct (deliver_run binding snap kind mid tlvs a limit (io_of s) Hq)
    as (r & n & new & E & _ & Ho).
  pose proof (forward_deliver binding snap kind mid tlvs a limit Hf (io_of s)) as Hl. rewrite E in *.
  assert (J (with_io (mkIo n (sent (io_of s) ++ new)) s)) by (by apply HJ).
  destruct r as [[]|e]; [|done]. split; [done|]. exists new.*2. split; [by apply Ho|]. rewrite io_with. apply handed_over_now.
Qed.
End OnIo.

(** ** The source of a session

    A [ReportSource] serves a session whatever is published to it between the session's polls: the
    world it makes satisfies the laws. *)

Section SourceWorld.
Context (s : ReportSource) (plan : nat → list event) (clk : nat → Z) (bind : nat → PeerBinding) (ln : nat → bool).

(** What happened to the source before the [n]th asking, and with it. *)
Fixpoint served (n : nat) : list event :=
  match n with
  | O => []
  | S n => (served n ++ plan n) ++ [ECurrent (clk n) (clk n) (clk n)]
  end.

Definition shown (n : nat) : option ReportSnapshot :=
  match (current (clk n) (clk n) (clk n) (run (served n ++ plan n) s).2).1 with
  | Ok a => a
  | Raise _ => None
  end.

Definition source_world : World :=
  {| world_clock := clk; world_binding := bind; world_source := shown; world_link := ln |}.

Lemma shown_seen n m a : (n < m)%nat → shown n = Some a → a ∈ (run (served m) s).1.
Proof.
  intros Hlt Ha. induction m as [|m IH]; [lia|]. cbn [served]. rewrite run_app. apply elem_of_app.
  destruct (decide (n = m)) as [->|Hne].
  - right. unfold shown in Ha. simpl. destruct (current _ _ _ _) as [[o|] s']; simpl in *; [subst o; left|done].
  - left. rewrite run_app. apply elem_of_app. left. apply IH. lia.
Qed.

Lemma source_world_laws binding pod digest uuid :
  ReportSource_init binding pod digest uuid = Ok s → SourceLaws source_world.
Proof.
  intros Hinit. split; simpl.
  - intros n a Ha. unfold shown in Ha.
    destruct (current (clk n) (clk n) (clk n) (run (served n ++ plan n) s).2) as [[o|] s'] eqn:Ec; [|done].
    simpl in Ha. subst o. by eapply run_fresh.
  - intros n m a b Ha Hb.
    assert (Hmax : ∃ k, (n < k)%nat ∧ (m < k)%nat) by (exists (S (n + m)); lia). destruct Hmax as (k & Hn & Hm).
    apply (run_same_facts _ _ _ _ _ (served k) a b Hinit); [by apply (shown_seen n)|by apply (shown_seen m)].
Qed.
End SourceWorld.
