(* ===== verification/Steering.v ===== *)
(** * Client steering: [src/emosa/wire/steering.py]

    The parser of a Client Steering Request, the judgement of what the agent can carry out, and the
    coordinator that acknowledges requests and hands the executable ones to the pod. *)

From S2P Require Import Prelude Bytes Cmdu Payloads TopologyValues Reports Channel ReportSource Session.

Definition REQUEST : Z := 0x8014.
Definition COMPLETED : Z := 0x8017.
Definition ACK : Z := 0x8000.
Definition STEERING_REQUEST_TLV : Z := 0x9B.
Definition ERROR_CODE_TLV : Z := 0xA3.
Definition STA_NOT_ASSOCIATED : Z := 0x02.
Definition WILDCARD : bytes := octets [0xff; 0xff; 0xff; 0xff; 0xff; 0xff].
Definition MANDATE : Z := 0x80.
Definition DISASSOC_IMMINENT : Z := 0x40.
Definition ABRIDGED : Z := 0x20.

(** [unicast(value, label)] *)
Definition unicast (value : bytes) (label : string) : result bytes :=
  _ ← raise_if (negb (bool_decide (length value = 6%nat))
                || forallb (λ b, bool_decide (byte_to_Z b = 0)) value
                || bool_decide (Z.land (octet_at 0 value) 1 ≠ 0))
        INVALID_INPUT (label +:+ " must be a unicast MAC address");
  Ok value.

Record SteeringRequest := mkSteeringRequest {
  source_bssid : bytes;
  mandate : bool;
  disassoc_imminent : bool;
  abridged : bool;
  window : Z;
  disassoc_timer : Z;
  stations : list bytes;
  targets : list (bytes * Z * Z)
}.

Definition flag (flags bit : Z) : bool := bool_decide (Z.land flags bit ≠ 0).

(** The station and target records of the lists, from [offset] on. *)
Definition station_at (data : bytes) (offset i : nat) : result bytes :=
  unicast (slice (offset + 6 * i) (offset + 6 * i + 6) data) "station".
Definition target_at (data : bytes) (offset i : nat) : bytes * Z * Z :=
  (slice (offset + 8 * i) (offset + 8 * i + 6) data, octet_at (offset + 8 * i + 6) data,
   octet_at (offset + 8 * i + 7) data).

(** [decode_request(tlvs)] *)
Definition decode_request (tlvs : list Tlv) : result SteeringRequest :=
  match filter (λ t, Cmdu.kind t = STEERING_REQUEST_TLV) tlvs with
  | [t] =>
      let data := tlv_value t in
      _ ← raise_if (bool_decide (length data < 12)%nat) INVALID_INPUT "truncated Steering Request TLV";
      let flags := octet_at 6 data in
      let count := Z.to_nat (octet_at 11 data) in
      _ ← raise_if (bool_decide (length data < 12 + 6 * count + 1)%nat) INVALID_INPUT "truncated station list";
      stations ← map_result (station_at data 12) (seq 0 count);
      let offset := (12 + 6 * count)%nat in
      let count := Z.to_nat (octet_at offset data) in
      let offset := S offset in
      _ ← raise_if (negb (bool_decide (length data = (offset + 8 * count)%nat))) INVALID_INPUT
            "malformed target BSS list";
      let targets := target_at data offset <$> seq 0 count in
      _ ← raise_if (negb (bool_decide (NoDup stations))) INVALID_INPUT "duplicate station";
      source ← unicast (take 6 data) "source BSSID";
      Ok (mkSteeringRequest source (flag flags MANDATE) (flag flags DISASSOC_IMMINENT) (flag flags ABRIDGED)
            (be_int (slice 7 9 data)) (be_int (slice 9 11 data)) stations targets)
  | _ => invalid "one Steering Request TLV required"
  end.

(** [refusal(request, associated)] *)
Definition refusal (request : SteeringRequest) (associated : list bytes) : result (option string) :=
  if negb (mandate request) then Ok (Some "opportunity")
  else
    match stations request with
    | [station] =>
        if negb (bool_decide (station ∈ associated)) then Ok (Some "station_not_associated")
        else
          match targets request with
          | [(bssid, _, channel)] =>
              if bool_decide (bssid = WILDCARD) then Ok (Some "agent_selected_target")
              else
                _ ← unicast bssid "target BSSID";
                if bool_decide (bssid = source_bssid request) || bool_decide (channel = 0)
                then Ok (Some "invalid_target") else Ok None
          | _ => Ok (Some "not_one_target")
          end
    | _ => Ok (Some "not_one_station")
    end.

(** ** The coordinator *)

Record Last := mkLast { l_mid : Z; l_request : SteeringRequest; l_refused : option string }.

Record Steering := mkSteering {
  io : Io;
  previous_mid : Z;                                  (* self.mids *)
  counts : gmap string Z;
  recent : gmap Z Z;
  last : option Last;
  closed : bool;                                     (* the executor is the one of [close] *)
  handed : list (Z * Z * SteeringRequest)            (* the calls of the executor: time, MID, request *)
}.
#[export] Instance eta_Steering : Eta Steering := λ s,
  mkSteering (io s) (previous_mid s) (counts s) (recent s) (last s) (closed s) (handed s).

Definition on_io {A} (m : M Io A) : M Steering A := λ s,
  let '(r, i) := m (io s) in (r, s <| io := i |>).

Section Coordinator.
(** [executor], outside: the pod's answer to the [n]th thing asked. *)
Context `{World} (binding : PeerBinding) (executor : nat → SteeringRequest → Z → option string).

(** [_record(event)] *)
Definition record (event : string) : M Steering string :=
  _ ← modify (λ s, s <| counts := count event (counts s) |>); mret event.

(** [_snapshot()] *)
Definition take_snapshot : M Io ReportSnapshot :=
  a ← poll;
  match a with
  | Some a => mret a
  | None => raise NOT_READY "the pod's state is not available"
  end.

(** [_send(message_type, mid, tlvs, snapshot, deadline)] *)
Definition steering_send (kind mid : Z) (tlvs : list Tlv) (from : ReportSnapshot) (limit : Z) : M Steering unit :=
  on_io (deliver binding take_snapshot kind mid tlvs from limit).

(** [executor(request, mid)] at clock [now] *)
Definition execute (now : Z) (request : SteeringRequest) (mid : Z) : M Steering (option string) := λ s,
  if closed s then (Ok (Some "session_closed"), s)
  else (Ok (executor (asked (io s)) request mid),
        s <| io := io s <| asked := S (asked (io s)) |> |>
          <| handed := handed s ++ [(now, mid, request)] |>).

(** The stations on the BSS the request names. *)
Definition associated_with (a : ReportSnapshot) (bssid : bytes) : list bytes :=
  filter (λ b, bc_bssid b = bssid) (tf_clients (topology a)) ≫= λ b, c_mac <$> clients b.

(** What follows the decision: the record, and the report that ends an opportunity. *)
Definition conclude (mid : Z) (a : ReportSnapshot) (request : SteeringRequest) (reason : option string) :
    M Steering string :=
  _ ← modify (λ s, s <| last := Some (mkLast mid request reason) |>);
  match reason with
  | None => record "client_steering_started"
  | Some reason =>
      if bool_decide (reason = "opportunity") then
        s ← get;
        let mid := next_mid (previous_mid s) in
        _ ← put (s <| previous_mid := mid |>);
        t ← on_io clock;
        _ ← steering_send COMPLETED mid [] a (t + seconds 1);
        record "client_steering_opportunity_completed"
      else record ("client_steering_refused_" +:+ reason)
  end.

(** What follows the acknowledgment of a new request. *)
Definition carry_out (now : Z) (message : Message) (a : ReportSnapshot) (request : SteeringRequest)
    (associated : list bytes) : M Steering string :=
  s ← get;
  _ ← lift (raise_if (bool_decide (64 ≤ size (recent s))%nat) NOT_READY "steering request budget exhausted");
  _ ← modify (λ s, s <| recent := <[m_mid message := now + seconds 5]> (recent s) |>);
  reason ← lift (refusal request associated);
  reason ← match reason with None => execute now request (m_mid message) | Some r => mret (Some r) end;
  conclude (m_mid message) a request reason.

(** [handle(message, received_at)] *)
Definition handle (message : Message) (received_at : Z) : M Steering (option string) :=
  if negb (bool_decide (m_message_type message = REQUEST)) then mret None
  else
    _ ← lift (raise_if (negb (bool_decide (m_source message = controller_al binding))
                        || negb (bool_decide (m_destination message = local_al binding)) || m_relay message)
                INVALID_INPUT "steering request from an unbound controller or envelope");
    now ← on_io clock;
    _ ← lift (raise_if (bool_decide (received_at + seconds 1 ≤ now)) NOT_READY "steering Ack deadline expired");
    _ ← modify (λ s, s <| recent := filter (λ mt, now < mt.2) (recent s) |>);
    request ← lift (decode_request (m_tlvs message));
    a ← on_io take_snapshot;
    let associated := associated_with a (source_bssid request) in
    let errors := (λ st, mkTlv ERROR_CODE_TLV (octets [STA_NOT_ASSOCIATED] ++ st)) <$>
                  filter (λ st, st ∉ associated) (stations request) in
    s ← get;
    let repeated := bool_decide (is_Some (recent s !! m_mid message)) in
    _ ← steering_send ACK (m_mid message) errors a (received_at + seconds 1);
    if repeated then Some <$> record "client_steering_repeated_ack_sent"
    else Some <$> carry_out now message a request associated.

(** [close()] *)
Definition close (s : Steering) : Steering := s <| closed := true |> <| recent := ∅ |>.
End Coordinator.

(** * Theory *)

(** ** What a request may be handed over for *)

(** A mandate for one station and one named target, on another BSS and a real channel. *)
Definition executable (request : SteeringRequest) (associated : list bytes) : Prop :=
  mandate request = true ∧
  ∃ station bssid class channel, stations request = [station] ∧ station ∈ associated ∧
    targets request = [(bssid, class, channel)] ∧ bssid ≠ WILDCARD ∧ is_ok (unicast bssid "target BSSID") = true ∧
    bssid ≠ source_bssid request ∧ channel ≠ 0.

Lemma refusal_None request associated :
  refusal request associated = Ok None ↔ executable request associated.
Proof.
  unfold refusal, executable. destruct (mandate request); cbn [negb]; [|naive_solver].
  destruct (stations request) as [|station [|]]; [naive_solver| |naive_solver].
  destruct (bool_decide (station ∈ associated)) eqn:Ha; cbn [negb].
  2:{ apply bool_decide_eq_false in Ha. naive_solver. }
  apply bool_decide_eq_true in Ha.
  destruct (targets request) as [|[[bssid class] channel] [|]]; [naive_solver| |naive_solver].
  destruct (bool_decide (bssid = WILDCARD)) eqn:Hw.
  { apply bool_decide_eq_true in Hw. naive_solver. }
  apply bool_decide_eq_false in Hw. destruct (unicast bssid "target BSSID") eqn:Hu; simpl.
  2:{ split; [done|]. intros (_ & st & b & c & ch & _ & _ & [= -> -> ->] & _ & Hok & _). by rewrite Hu in Hok. }
  destruct (bool_decide (bssid = source_bssid request)) eqn:Hs; simpl.
  { apply bool_decide_eq_true in Hs. naive_solver. }
  apply bool_decide_eq_false in Hs. destruct (bool_decide (channel = 0)) eqn:Hc.
  { apply bool_decide_eq_true in Hc. naive_solver. }
  apply bool_decide_eq_false in Hc. split; [|done]. intros _. split; [done|].
  exists station, bssid, class, channel. by rewrite Hu.
Qed.

(** ** The layout of a request *)

Definition target_octets (t : bytes * Z * Z) : bytes := t.1.1 ++ octets [t.1.2; t.2].

(** The value of the TLV of a request whose flags octet is [flags]. *)
Definition request_octets (flags : Z) (r : SteeringRequest) : bytes :=
  (source_bssid r ++ octets [flags] ++ be_bytes 2 (window r) ++ be_bytes 2 (disassoc_timer r)
   ++ octets [len (stations r)])
  ++ concat (stations r) ++ octets [len (targets r)] ++ concat (target_octets <$> targets r).

Record request_ok (flags : Z) (r : SteeringRequest) : Prop := {
  ro_flags : 0 ≤ flags < 256 ∧ mandate r = flag flags MANDATE ∧
             disassoc_imminent r = flag flags DISASSOC_IMMINENT ∧ abridged r = flag flags ABRIDGED;
  ro_source : is_ok (unicast (source_bssid r) "source BSSID") = true;
  ro_numbers : 0 ≤ window r < 65536 ∧ 0 ≤ disassoc_timer r < 65536;
  ro_stations : len (stations r) < 256 ∧ NoDup (stations r) ∧
                Forall (λ s, is_ok (unicast s "station") = true) (stations r);
  ro_targets : len (targets r) < 256 ∧
               Forall (λ t, length t.1.1 = 6%nat ∧ 0 ≤ t.1.2 < 256 ∧ 0 ≤ t.2 < 256) (targets r)
}.

Lemma unicast_Ok v label w : unicast v label = Ok w ↔ w = v ∧ is_ok (unicast v label) = true.
Proof. unfold unicast. destruct (raise_if _ _ _); simpl; naive_solver. Qed.
Lemma unicast_length v label : is_ok (unicast v label) = true → length v = 6%nat.
Proof.
  unfold unicast. destruct (bool_decide (length v = 6%nat)) eqn:E; simpl; [|done].
  by apply bool_decide_eq_true in E.
Qed.

Lemma stations_Ok (f : nat → bytes) n l :
  map_result (λ i, unicast (f i) "station") (seq 0 n) = Ok l ↔
  l = f <$> seq 0 n ∧ Forall (λ s, is_ok (unicast s "station") = true) l.
Proof.
  rewrite map_result_Ok. generalize (seq 0 n). intros is0. revert l. induction is0 as [|i is0 IH]; intros l.
  - split; [inversion 1; split; [done|constructor]|]. intros [-> _]. constructor.
  - split.
    + inversion 1 as [|? x ? l' [-> Hu]%unicast_Ok H']; subst. apply IH in H' as [-> H']. split; [done|by constructor].
    + intros [-> [Hu H']%Forall_cons]. constructor; [by apply unicast_Ok|]. by apply IH.
Qed.

Lemma target_at_slice data off i :
  (off + 8 * i + 8 ≤ length data)%nat →
  target_octets (target_at data off i) = slice (off + 8 * i) (off + 8 * i + 8) data.
Proof.
  intros Hl. unfold target_octets, target_at. cbn [fst snd].
  change (octets [?a; ?b]) with (octets [a] ++ octets [b]).
  rewrite <- !slice_one by lia.
  replace (off + 8 * i + 7)%nat with (off + 8 * i + 6 + 1)%nat by lia.
  rewrite !slice_join by lia. f_equal. lia.
Qed.

(** A list of targets is told by its octets. *)
Lemma targets_inj l k :
  Forall (λ t, length t.1.1 = 6%nat ∧ 0 ≤ t.1.2 < 256 ∧ 0 ≤ t.2 < 256) k →
  Forall (λ t, length t.1.1 = 6%nat ∧ 0 ≤ t.1.2 < 256 ∧ 0 ≤ t.2 < 256) l →
  target_octets <$> l = target_octets <$> k → l = k.
Proof.
  intros Hk Hl. revert k Hk. induction Hl as [|[[b c] n] l (Hb & Hc & Hn) _ IH]; intros [|[[b' c'] n'] k] Hk; try done.
  apply Forall_cons in Hk as [(Hb' & Hc' & Hn') Hk]. simpl in *. intros [= Heq Heqs].
  apply IH in Heqs as ->; [|done]. unfold target_octets in Heq. simpl in Heq.
  apply app_inj_1 in Heq as [-> Heq]; [|congruence]. injection Heq as H1 H2.
  apply (f_equal byte_to_Z) in H1, H2. rewrite !byte_to_Z_to_byte_small in H1, H2 by done. by subst.
Qed.

(** The parser of the value alone. *)
Definition decode_data (data : bytes) : result SteeringRequest :=
  decode_request [mkTlv STEERING_REQUEST_TLV data].

Lemma decode_data_sound data r :
  decode_data data = Ok r → data = request_octets (octet_at 6 data) r ∧ request_ok (octet_at 6 data) r.
Proof.
  unfold decode_data, decode_request. rewrite filter_cons_True by done. cbn [filter list_filter tlv_value].
  rewrite raise_if_bind_Ok, bool_decide_eq_false. intros (H12 & H).
  set (c := Z.to_nat (octet_at 11 data)) in *. pose proof (octet_at_range 11 data) as R11.
  apply raise_if_bind_Ok in H as (Hst%bool_decide_eq_false & H).
  apply result_bind_Ok in H as (sts & Hsts & H).
  unfold station_at in Hsts. apply (stations_Ok (λ i, slice (12 + 6 * i) (12 + 6 * i + 6) data)) in Hsts as [-> Hu].
  set (off := (12 + 6 * c)%nat) in *. pose proof (octet_at_range off data) as Roff.
  set (c2 := Z.to_nat (octet_at off data)) in *.
  apply raise_if_bind_Ok in H as (Hlen%negb_false_iff%bool_decide_eq_true & H).
  apply raise_if_bind_Ok in H as (Hnd%negb_false_iff%bool_decide_eq_true & H).
  apply result_bind_Ok in H as (src & [-> Hsrc]%unicast_Ok & <-%Ok_inj).
  pose proof (octet_at_range 6 data) as R6.
  assert (L7 : length (slice 7 9 data) = 2%nat) by (rewrite slice_length; lia).
  assert (L9 : length (slice 9 11 data) = 2%nat) by (rewrite slice_length; lia).
  assert (Hcnt : octet_at 11 data = Z.of_nat c) by (unfold c; lia).
  assert (Hcnt2 : octet_at off data = Z.of_nat c2) by (unfold c2; lia).
  split.
  - unfold request_octets. cbn [source_bssid window disassoc_timer stations targets].
    unfold len. rewrite !length_fmap, !length_seq, <- Hcnt, <- Hcnt2.
    rewrite (be_bytes_be_int (slice 7 9 data)) by done.
    rewrite (be_bytes_be_int (slice 9 11 data)) by done.
    rewrite <- (slice_one data 6), <- (slice_one data 11), <- (slice_one data off) by lia.
    rewrite (chunks_join data 6 12 c). fold off.
    assert (Ht : concat (target_octets <$> (target_at data (S off) <$> seq 0 c2)) =
      slice (S off) (S off + 8 * c2) data).
    { rewrite <- (chunks_join data 8), <- list_fmap_compose. f_equal. apply list_fmap_ext. intros i x Hx.
      apply lookup_seq in Hx as [-> Hi]. apply (target_at_slice data (S off) (0 + i)). lia. }
    rewrite Ht. change (take 6 data) with (slice 0 6 data).
    change (6 + 1)%nat with 7%nat. change (11 + 1)%nat with 12%nat. replace (off + 1)%nat with (S off) by lia.
    rewrite !slice_join by (unfold off; lia). symmetry. by apply slice_all.
  - split; cbn [source_bssid window disassoc_timer stations targets mandate disassoc_imminent abridged]; [done|done| | |].
    + pose proof (be_int_range (slice 7 9 data)) as B1. pose proof (be_int_range (slice 9 11 data)) as B2.
      rewrite L7 in B1. rewrite L9 in B2. simpl in B1, B2. lia.
    + unfold len. rewrite length_fmap, length_seq. split; [lia|done].
    + unfold len. rewrite length_fmap, length_seq. split; [lia|]. apply Forall_fmap, Forall_forall.
      intros i Hi%elem_of_seq. simpl. rewrite slice_length by lia. split; [lia|].
      split; apply octet_at_range.
Qed.

Lemma decode_data_complete flags r : request_ok flags r → decode_data (request_octets flags r) = Ok r.
Proof.
  intros [[Hf (Hm & Hd & Ha)] Hsrc [Hw Hti] (Hsl & Hnd & Hsu) [Htl Ht]].
  pose proof (unicast_length _ _ Hsrc) as H6.
  assert (Hs6 : Forall (λ s, length s = 6%nat) (stations r))
    by (eapply Forall_impl; [exact Hsu|]; intros x; apply unicast_length).
  assert (Ht8 : Forall (λ t, length t = 8%nat) (target_octets <$> targets r)).
  { apply Forall_fmap. eapply Forall_impl; [exact Ht|]. intros t (Hl & _). unfold target_octets. simpl.
    rewrite length_app, Hl. done. }
  set (hd := source_bssid r ++ octets [flags] ++ be_bytes 2 (window r) ++ be_bytes 2 (disassoc_timer r)
             ++ octets [len (stations r)]).
  assert (Hhd : length hd = 12%nat) by (unfold hd; rewrite !length_app, !be_bytes_length; simpl; lia).
  set (ts := octets [len (targets r)] ++ concat (target_octets <$> targets r)).
  assert (Hdata : request_octets flags r = hd ++ concat (stations r) ++ ts) by done.
  assert (Hcs : length (concat (stations r)) = (6 * length (stations r))%nat).
  { clear -Hs6. induction Hs6 as [|x l Hx _ IH]; [done|]. simpl. rewrite length_app, IH. lia. }
  assert (Hct : length (concat (target_octets <$> targets r)) = (8 * length (targets r))%nat).
  { rewrite <- (length_fmap target_octets). clear -Ht8. induction Ht8 as [|x l Hx _ IH]; [done|].
    simpl. rewrite length_app, IH. lia. }
  unfold decode_data, decode_request. rewrite filter_cons_True by done. cbn [filter list_filter tlv_value].
  rewrite Hdata. set (data := hd ++ concat (stations r) ++ ts).
  assert (Hlen : length data = (12 + 6 * length (stations r) + 1 + 8 * length (targets r))%nat).
  { unfold data, ts. rewrite !length_app, Hhd, Hcs, Hct. simpl. lia. }
  assert (Hat : ∀ pre b post i, data = pre ++ octets [b] ++ post → length pre = i → 0 ≤ b < 256 → octet_at i data = b).
  { intros pre b post i -> <- Hb. rewrite (octet_at_app pre (Z_to_byte b) post) by done.
    by apply byte_to_Z_to_byte_small. }
  assert (H6b : octet_at 6 data = flags).
  { apply (Hat (source_bssid r) flags (be_bytes 2 (window r) ++ be_bytes 2 (disassoc_timer r)
      ++ octets [len (stations r)] ++ concat (stations r) ++ ts)); [|done|done].
    unfold data, hd. by rewrite <- !app_assoc. }
  assert (H11 : octet_at 11 data = len (stations r)).
  { apply (Hat (source_bssid r ++ octets [flags] ++ be_bytes 2 (window r) ++ be_bytes 2 (disassoc_timer r))
      _ (concat (stations r) ++ ts)); [|by rewrite !length_app, !be_bytes_length; simpl; lia|unfold len in *; lia].
    unfold data, hd. by rewrite <- !app_assoc. }
  rewrite H6b, H11. replace (Z.to_nat (len (stations r))) with (length (stations r)) by (unfold len; lia).
  assert (Hoff : octet_at (12 + 6 * length (stations r)) data = len (targets r)).
  { apply (Hat (hd ++ concat (stations r)) _ (concat (target_octets <$> targets r)));
      [|rewrite length_app, Hhd, Hcs; lia|unfold len in *; lia].
    unfold data, ts. by rewrite <- !app_assoc. }
  rewrite (bool_decide_eq_false_2 (length data < 12)%nat) by lia. cbn [raise_if mbind result_mbind].
  rewrite (bool_decide_eq_false_2 (length data < 12 + 6 * length (stations r) + 1)%nat) by lia.
  cbn [raise_if mbind result_mbind].
  assert (Hst : map_result (station_at data 12) (seq 0 (length (stations r))) = Ok (stations r)).
  { unfold station_at. apply (stations_Ok (λ i, slice (12 + 6 * i) (12 + 6 * i + 6) data)). split; [|done].
    symmetry. rewrite <- Hhd. by apply (chunks_of hd ts 6). }
  rewrite Hst. cbn [mbind result_mbind]. rewrite Hoff.
  replace (Z.to_nat (len (targets r))) with (length (targets r)) by (unfold len; lia).
  rewrite (bool_decide_eq_true_2 (length data = _)) by lia. cbn [negb raise_if].
  rewrite (bool_decide_eq_true_2 (NoDup (stations r))) by done. cbn [negb raise_if].
  assert (Htake : take 6 data = source_bssid r).
  { unfold data, hd. rewrite <- !app_assoc. by apply take_app_exact. }
  rewrite Htake.
  assert (Hus : unicast (source_bssid r) "source BSSID" = Ok (source_bssid r)) by by apply unicast_Ok.
  rewrite Hus. cbn [mbind result_mbind].
  assert (Hwin : slice 7 9 data = be_bytes 2 (window r)).
  { unfold data, hd. rewrite <- !app_assoc. rewrite (app_assoc (source_bssid r)).
    rewrite (slice_app (source_bssid r ++ octets [flags]) (be_bytes 2 (window r)));
      [done|rewrite length_app; simpl; lia|rewrite !length_app, be_bytes_length; simpl; lia]. }
  assert (Htim : slice 9 11 data = be_bytes 2 (disassoc_timer r)).
  { unfold data, hd. rewrite <- !app_assoc. rewrite (app_assoc (source_bssid r)), (app_assoc (_ ++ _)).
    rewrite (slice_app ((source_bssid r ++ octets [flags]) ++ be_bytes 2 (window r)) (be_bytes 2 (disassoc_timer r)));
      [done|rewrite !length_app, be_bytes_length; simpl; lia|rewrite !length_app, !be_bytes_length; simpl; lia]. }
  rewrite Hwin, Htim, !be_int_be_bytes by (simpl; lia).
  assert (Htg : target_at data (S (12 + 6 * length (stations r))) <$> seq 0 (length (targets r)) = targets r).
  { apply targets_inj; [done| |].
    - apply Forall_fmap, Forall_forall. intros i Hi%elem_of_seq. simpl. rewrite slice_length by lia. split; [lia|].
      split; apply octet_at_range.
    - set (pre := hd ++ concat (stations r) ++ octets [len (targets r)]).
      assert (Hpre : length pre = S (12 + 6 * length (stations r)))
        by (unfold pre; rewrite !length_app, Hhd, Hcs; simpl; lia).
      assert (Hd' : data = pre ++ concat (target_octets <$> targets r) ++ [])
        by (unfold data, pre, ts; rewrite app_nil_r, <- !app_assoc; done).
      rewrite <- (chunks_of pre [] 8 (target_octets <$> targets r)) at 1 by done.
      rewrite <- Hd', length_fmap, <- list_fmap_compose. apply list_fmap_ext. intros i x Hx.
      apply lookup_seq in Hx as [-> Hi]. rewrite Hpre.
      apply (target_at_slice data (S (12 + 6 * length (stations r))) (0 + i)). lia. }
  rewrite Htg, <- Hm, <- Hd, <- Ha. by destruct r.
Qed.

(** ** The coordinator over time *)

Section Theory.
Context `{World} (binding : PeerBinding) (executor : nat → SteeringRequest → Z → option string).

(** Only what was asked changes. *)
Definition same (s s' : Steering) : Prop :=
  recent s' = recent s ∧ handed s' = handed s ∧ closed s' = closed s ∧ (asked (io s) ≤ asked (io s'))%nat.

Lemma same_trans s1 s2 s3 : same s1 s2 → same s2 s3 → same s1 s3.
Proof. intros (?&?&?&?) (?&?&?&?). repeat split; try congruence. lia. Qed.

Lemma on_io_same {A} (m : M Io A) s r s' : forward m → on_io m s = (r, s') → same s s'.
Proof.
  unfold on_io. intros Hf. destruct (Hf (io s)) as [Ha _]. destruct (m (io s)) as [r' i]. intros [= <- <-].
  by repeat split.
Qed.

Lemma forward_take_snapshot : forward take_snapshot.
Proof. apply forward_bind; [apply forward_poll|]. intros [a|]; [apply forward_mret|apply forward_lift]. Qed.

Lemma steering_send_same kind mid tlvs a limit s r s' :
  steering_send binding kind mid tlvs a limit s = (r, s') → same s s'.
Proof. apply on_io_same, forward_deliver, forward_take_snapshot. Qed.

Lemma record_same ev s r s' : record ev s = (r, s') → r = Ok ev ∧ same s s'.
Proof. intros [= <- <-]. by repeat split. Qed.

Lemma conclude_same mid a request reason s r s' :
  conclude binding mid a request reason s = (r, s') → same s s'.
Proof.
  unfold conclude. set (s0 := s <| last := Some (mkLast mid request reason) |>).
  assert (Hs0 : same s s0) by (by repeat split).
  unfold mbind at 1, M_mbind at 1, modify. cbn beta iota. fold s0.
  destruct reason as [reason|]; [|intros [_ ?]%record_same; by eapply same_trans].
  case_bool_decide; [|intros [_ ?]%record_same; by eapply same_trans].
  set (m := next_mid (previous_mid s0)). set (s1 := s0 <| previous_mid := m |>).
  assert (Hs1 : same s s1) by (by repeat split).
  change ((t ← on_io clock; _ ← steering_send binding COMPLETED m [] a (t + seconds 1);
    record "client_steering_opportunity_completed") s1 = (r, s') → same s s').
  unfold mbind, M_mbind. destruct (on_io clock s1) as [[t|e] s2] eqn:E2.
  - apply on_io_same in E2; [|apply forward_clock].
    destruct (steering_send _ _ _ _ _ _ s2) as [[u|e] s3] eqn:E3; apply steering_send_same in E3.
    + intros [_ H4]%record_same. eauto using same_trans.
    + intros [= <- <-]. eauto using same_trans.
  - apply on_io_same in E2; [|apply forward_clock]. intros [= <- <-]. eauto using same_trans.
Qed.

Definition admitted (now mid : Z) (s s' : Steering) : Prop :=
  (size (recent s) < 64)%nat ∧ recent s' = <[mid := now + seconds 5]> (recent s).

Lemma carry_out_cases now message a request associated s r s' :
  carry_out binding executor now message a request associated s = (r, s') →
  closed s' = closed s ∧ (asked (io s) ≤ asked (io s'))%nat ∧
  ((recent s' = recent s ∧ handed s' = handed s) ∨
   admitted now (m_mid message) s s' ∧
   (handed s' = handed s ∨
    closed s = false ∧ executable request associated ∧
    handed s' = handed s ++ [(now, m_mid message, request)])).
Proof.
  unfold carry_out. unfold mbind at 1 2 3 4, M_mbind at 1 2 3 4, get, modify, lift.
  destruct (bool_decide (64 ≤ size (recent s))%nat) eqn:Hsz; simpl.
  { intros [= <- <-]. auto. }
  apply bool_decide_eq_false in Hsz.
  set (s1 := s <| recent := <[m_mid message := now + seconds 5]> (recent s) |>).
  destruct (refusal request associated) as [[reason|]|e] eqn:Hr.
  - intros (Hre & Hha & Hcl & Has)%conclude_same. rewrite Hcl, Hha, Hre. repeat split; [done|].
    right. split; [split; [lia|done]|]. by left.
  - unfold execute, mbind, M_mbind. simpl. destruct (closed s) eqn:Ecl;
      intros (Hre & Hha & Hcl & Has)%conclude_same; simpl in *; rewrite Hha, Hre.
    + split; [congruence|]. split; [done|]. right. split; [split; [lia|done]|]. by left.
    + split; [congruence|]. split; [lia|]. right. split; [split; [lia|done]|]. right.
      split; [done|]. split; [by apply refusal_None|done].
  - intros [= <- <-]. repeat split; [done|]. right. split; [split; [lia|done]|]. by left.
Qed.

Lemma take_snapshot_Ok i a i' : take_snapshot i = (Ok a, i') → world_source (asked i) = Some a.
Proof. unfold take_snapshot, poll, mbind, M_mbind. by destruct (world_source (asked i)); intros [= ->]. Qed.

(** A request was handed over on a snapshot the source showed. *)
Definition justified (request : SteeringRequest) : Prop :=
  ∃ n a, world_source n = Some a ∧ executable request (associated_with a (source_bssid request)).

Definition live (now : Z) (s : Steering) : gmap Z Z := filter (λ mt, now < mt.2) (recent s).

Lemma handle_cases message received_at s r s' :
  handle binding executor message received_at s = (r, s') →
  let now := world_clock (asked (io s)) in
  closed s' = closed s ∧ (asked (io s) ≤ asked (io s'))%nat ∧
  ((recent s' = recent s ∧ handed s' = handed s) ∨
   (recent s' = live now s ∧ handed s' = handed s) ∨
   live now s !! m_mid message = None ∧ (size (live now s) < 64)%nat ∧
   recent s' = <[m_mid message := now + seconds 5]> (live now s) ∧
   (handed s' = handed s ∨
    closed s = false ∧ ∃ request, justified request ∧ decode_request (m_tlvs message) = Ok request ∧
      handed s' = handed s ++ [(now, m_mid message, request)])).
Proof.
  intros Hh now. unfold handle in Hh.
  destruct (negb (bool_decide (m_message_type message = REQUEST))).
  { injection Hh as <- <-. auto 10. }
  unfold mbind at 1, M_mbind at 1, lift in Hh. destruct (raise_if _ INVALID_INPUT _) as [u|e].
  2:{ injection Hh as <- <-. auto 10. }
  unfold mbind at 1, M_mbind at 1 in Hh. unfold on_io at 1, clock at 1 in Hh. cbn beta iota zeta in Hh.
  fold now in Hh. set (s1 := s <| io := io s <| asked := S (asked (io s)) |> |>) in Hh.
  unfold mbind at 1, M_mbind at 1 in Hh. destruct (raise_if _ NOT_READY _) as [u'|e].
  2:{ injection Hh as <- <-. split; [done|]. split; [simpl; lia|]. by left. }
  unfold mbind at 1, M_mbind at 1, modify in Hh. cbn beta iota in Hh.
  set (s2 := s1 <| recent := filter (λ mt, now < mt.2) (recent s1) |>) in Hh.
  assert (H2 : recent s2 = live now s ∧ handed s2 = handed s ∧ closed s2 = closed s ∧
    (asked (io s) ≤ asked (io s2))%nat) by (repeat split; simpl; lia).
  clearbody s2. destruct H2 as (Hr2 & Hh2 & Hc2 & Ha2).
  unfold mbind at 1, M_mbind at 1 in Hh. destruct (decode_request (m_tlvs message)) as [request|e].
  2:{ injection Hh as <- <-. rewrite Hr2, Hh2, Hc2. auto 10. }
  unfold mbind at 1, M_mbind at 1 in Hh.
  destruct (on_io take_snapshot s2) as [[a|e] s3] eqn:E3.
  2:{ apply on_io_same in E3 as (Hr3 & Hh3 & Hc3 & Ha3); [|apply forward_take_snapshot].
      injection Hh as <- <-. rewrite Hr3, Hh3, Hc3, Hr2, Hh2, Hc2. split; [done|]. split; [lia|]. auto. }
  assert (Hsrc : world_source (asked (io s2)) = Some a).
  { unfold on_io in E3. destruct (take_snapshot (io s2)) as [[a'|] i] eqn:Et; [|done].
    injection E3 as -> _. by eapply take_snapshot_Ok. }
  apply on_io_same in E3 as (Hr3 & Hh3 & Hc3 & Ha3); [|apply forward_take_snapshot].
  unfold mbind at 1, M_mbind at 1, get in Hh. cbn beta iota zeta in Hh.
  unfold mbind at 1, M_mbind at 1 in Hh.
  destruct (steering_send _ _ _ _ _ _ s3) as [[u2|e] s4] eqn:E4; apply steering_send_same in E4 as (Hr4 & Hh4 & Hc4 & Ha4).
  2:{ injection Hh as <- <-. rewrite Hr4, Hh4, Hc4, Hr3, Hh3, Hc3, Hr2, Hh2, Hc2. split; [done|]. split; [lia|]. auto. }
  rewrite Hr3, Hr2 in Hr4. rewrite Hh3, Hh2 in Hh4. rewrite Hc3, Hc2 in Hc4.
  destruct (bool_decide (is_Some (recent s3 !! m_mid message))) eqn:Erep.
  - unfold record, modify, mbind, M_mbind, fmap, M_fmap, mret, M_mret in Hh. injection Hh as <- <-. simpl.
    split; [done|]. split; [lia|]. auto.
  - apply bool_decide_eq_false in Erep. rewrite Hr3, Hr2 in Erep. apply eq_None_not_Some in Erep.
    unfold fmap, M_fmap in Hh.
    destruct (carry_out _ _ _ _ _ _ _ s4) as [rc s5] eqn:E5.
    assert (s5 = s') as -> by (by destruct rc; injection Hh as _ ->).
    apply carry_out_cases in E5 as (Hc5 & Ha5 & H5). rewrite Hc5, Hc4. split; [done|]. split; [lia|].
    unfold admitted in H5. rewrite Hr4, Hh4, Hc4 in H5.
    destruct H5 as [H5|[[Hsz Hrc] H5]]; [by right; left|]. right; right.
    split; [done|]. split; [done|]. split; [done|]. destruct H5 as [H5|(Hcl & Hex & H5)]; [by left|].
    right. split; [done|]. exists request. split; [by exists (asked (io s2)), a|done].
Qed.

(** ** Sequences of inputs *)

Inductive input := Receive (message : Message) (received_at : Z) | Close.

Definition serve (s : Steering) (i : input) : Steering :=
  match i with
  | Receive message received_at => (handle binding executor message received_at s).2
  | Close => close s
  end.

Hypothesis clock_monotone : ∀ n m, (n ≤ m)%nat → world_clock n ≤ world_clock m.

(** Two hand-overs of one identifier are at least five seconds apart, and the identifier of one is
    remembered for as long. *)
Record steering_ok (s : Steering) : Prop := {
  so_bound : (size (recent s) ≤ 64)%nat;
  so_spaced : ∀ i j t t' mid req req', (i < j)%nat → handed s !! i = Some (t, mid, req) →
    handed s !! j = Some (t', mid, req') → t + seconds 5 ≤ t';
  so_justified : Forall (λ h, justified h.2) (handed s);
  so_covered : closed s = false → ∀ t mid req, (t, mid, req) ∈ handed s →
    (∃ u, recent s !! mid = Some u ∧ t + seconds 5 ≤ u) ∨ t + seconds 5 ≤ world_clock (asked (io s))
}.

Lemma covered_live s now :
  (∀ t mid req, (t, mid, req) ∈ handed s →
     (∃ u, recent s !! mid = Some u ∧ t + seconds 5 ≤ u) ∨ t + seconds 5 ≤ now) →
  ∀ t mid req, (t, mid, req) ∈ handed s →
    (∃ u, live now s !! mid = Some u ∧ t + seconds 5 ≤ u) ∨ t + seconds 5 ≤ now.
Proof.
  intros Hc t mid req Hin. destruct (Hc t mid req Hin) as [(u & Hu & Ht)|]; [|by right].
  destruct (decide (now < u)) as [Hlt|Hge]; [|right; lia].
  left. exists u. split; [|done]. unfold live. by apply map_lookup_filter_Some.
Qed.

Lemma live_size now s : (size (live now s) ≤ size (recent s))%nat.
Proof. unfold live. apply map_subseteq_size, map_filter_subseteq. Qed.

Lemma serve_ok s i : steering_ok s → steering_ok (serve s i).
Proof.
  intros [Hb Hsp Hj Hc]. destruct i as [message received_at|]; simpl.
  2:{ split; simpl; [rewrite map_size_empty; lia|done|done|done]. }
  destruct (handle binding executor message received_at s) as [r s'] eqn:Eh.
  apply handle_cases in Eh as (Hcl & Has & H1). simpl. set (now := world_clock (asked (io s))) in *.
  assert (Hlater : now ≤ world_clock (asked (io s'))) by (by apply clock_monotone).
  pose proof (live_size now s) as Hls.
  assert (Hcov : closed s = false → ∀ t mid req, (t, mid, req) ∈ handed s →
    (∃ u, live now s !! mid = Some u ∧ t + seconds 5 ≤ u) ∨ t + seconds 5 ≤ now).
  { intros Hcs. apply covered_live. by apply Hc. }
  destruct H1 as [[Hr Hh]|[[Hr Hh]|(Hnone & Hsz & Hr & Hh)]].
  - split; rewrite ?Hr, ?Hh, ?Hcl; [done|done|done|].
    intros Hcs t mid req Hin. destruct (Hc Hcs t mid req Hin); [by left|]. right. lia.
  - split; rewrite ?Hr, ?Hh, ?Hcl; [lia|done|done|].
    intros Hcs t mid req Hin. destruct (Hcov Hcs t mid req Hin); [by left|]. right. lia.
  - assert (Hsize : (size (recent s') ≤ 64)%nat) by (rewrite Hr, map_size_insert_None by done; lia).
    assert (Hold : closed s = false → ∀ t mid req, (t, mid, req) ∈ handed s →
      (∃ u, recent s' !! mid = Some u ∧ t + seconds 5 ≤ u) ∨ t + seconds 5 ≤ world_clock (asked (io s'))).
    { intros Hcs t mid req Hin. rewrite Hr. destruct (Hcov Hcs t mid req Hin) as [(u & Hu & Ht)|Ht]; [|right; lia].
      left. exists u. split; [|done]. rewrite lookup_insert_ne; [done|]. intros <-. by rewrite Hnone in Hu. }
    destruct Hh as [Hh|(Hcs & req0 & Hjust & _ & Hh)].
    + split; rewrite ?Hh, ?Hcl; [done|done|done|done].
    + split; rewrite ?Hh, ?Hcl; [done| |by apply Forall_app; split; [|constructor]|].
      * intros i j t t' mid req req' Hij Hi Hj'.
        apply lookup_app_Some in Hj' as [Hj'|[Hlen Hj']].
        { apply (Hsp i j t t' mid req req'); [done| |done]. apply lookup_lt_Some in Hj'.
          by rewrite lookup_app_l in Hi by lia. }
        apply list_lookup_singleton_Some in Hj' as [Hj0 [= <- <- <-]].
        rewrite lookup_app_l in Hi by lia. apply list_elem_of_lookup_2 in Hi.
        destruct (Hcov Hcs _ _ _ Hi) as [(u & Hu & _)|Ht]; [|done]. by rewrite Hnone in Hu.
      * intros _ t mid req [Hin|Hin]%elem_of_app; [by apply (Hold Hcs t mid req)|].
        apply list_elem_of_singleton in Hin as [= -> -> ->]. left. exists (now + seconds 5).
        split; [rewrite Hr; apply lookup_insert_eq|lia].
Qed.

Lemma serve_all_ok s l : steering_ok s → steering_ok (foldl serve s l).
Proof. revert s. induction l as [|i l IH]; intros s Hs; [done|]. apply IH. by apply serve_ok. Qed.
End Theory.

Definition steering_init (previous : Z) (n : nat) : Steering := mkSteering (mkIo n []) previous ∅ ∅ None false [].

(** * Properties *)

(** The parser of a Client Steering Request accepts exactly the Profile-1 layout: one Steering
    Request TLV, whose value is the source BSSID, the flags, the window and the timer, the counted
    stations and the counted targets, with nothing left over, the source and every station unicast
    and no station twice; the request it returns is the one laid out. *)
Theorem decode_request_grammar tlvs r :
  decode_request tlvs = Ok r ↔
  ∃ t flags, filter (λ t, Cmdu.kind t = STEERING_REQUEST_TLV) tlvs = [t] ∧
    tlv_value t = request_octets flags r ∧ request_ok flags r.
Proof.
  assert (Hone : ∀ t, filter (λ t, Cmdu.kind t = STEERING_REQUEST_TLV) tlvs = [t] →
    decode_request tlvs = decode_data (tlv_value t)).
  { intros t Ht. unfold decode_data, decode_request. rewrite Ht, filter_cons_True by done. done. }
  split.
  - destruct (filter (λ t, Cmdu.kind t = STEERING_REQUEST_TLV) tlvs) as [|t [|]] eqn:Ef.
    1,3: unfold decode_request; rewrite Ef; done.
    intros Hd. rewrite (Hone t eq_refl) in Hd. apply decode_data_sound in Hd as [Hd Hok]. eauto.
  - intros (t & flags & Ht & Hv & Hok). rewrite (Hone t Ht), Hv. by apply decode_data_complete.
Qed.

(** C14: a steering mandate reaches the pod once. Whatever requests arrive, well formed or not, repeated
    or not, and whatever the source, the link and the pod do: the identifiers remembered are at most
    64; a request is handed to the pod only when it is a mandate for one station, associated with the
    source BSS in a snapshot the source showed, and one named target on another BSS; and two
    hand-overs under the same message identifier are at least five seconds apart. *)
Theorem mandates_handed_once `{World} binding executor previous n inputs :
  (∀ i j, (i ≤ j)%nat → world_clock i ≤ world_clock j) →
  let s := foldl (serve binding executor) (steering_init previous n) inputs in
  (size (recent s) ≤ 64)%nat ∧ Forall (λ h, justified h.2) (handed s) ∧
  ∀ i j t t' mid req req', (i < j)%nat → handed s !! i = Some (t, mid, req) →
    handed s !! j = Some (t', mid, req') → t + seconds 5 ≤ t'.
Proof.
  intros Hmono s. assert (Hok : steering_ok s).
  { apply serve_all_ok; [done|]. split; simpl; [rewrite map_size_empty; lia|done|constructor|].
    intros _ t mid req Hin. by apply not_elem_of_nil in Hin. }
  destruct Hok. auto.
Qed.

(** A mandate, repeated within a second and again after seven: handed over the first and the third time. *)
Definition ex_snapshot : ReportSnapshot :=
  mkReportSnapshot (mkReportStamp "i/0/1/1" 0 100000) example_caps example_facts "i/0/1" [] None None (Some 1) [].
Definition ex_world : World :=
  {| world_clock := λ n, 100 * Z.of_nat n + (if bool_decide (15 ≤ n)%nat then 6000 else 0); world_binding := λ _, example_binding;
     world_source := λ _, Some ex_snapshot; world_link := λ _, true |}.
Definition ex_mandate : Message :=
  mkMessage (octets [2; 0; 0; 0; 0; 9]) (octets [2; 0; 0; 0; 0; 8]) 0x8014 7 false
    [mkTlv 0x9B (example_bss ++ octets ([0x80; 0; 0; 0; 0; 1] ++ [2; 0; 0; 0; 0; 7] ++ [1]
       ++ [2; 0; 0; 0; 0; 3; 81; 6]))] 1.
Definition ex_inputs : list input :=
  [Receive ex_mandate 0; Receive ex_mandate 800; Receive ex_mandate 7500].

Lemma mandates_handed_once_witness :
  (∀ i j, (i ≤ j)%nat → @world_clock ex_world i ≤ @world_clock ex_world j) ∧
  let s := foldl (@serve ex_world example_binding (λ _ _ _, None)) (steering_init 0 0) ex_inputs in
  (size (recent s) ≤ 64)%nat ∧ (λ h, h.1.1) <$> handed s = [0; 7500].
Proof.
  assert (Hmono : ∀ i j, (i ≤ j)%nat → @world_clock ex_world i ≤ @world_clock ex_world j) by (intros; simpl; repeat case_bool_decide; lia).
  split; [exact Hmono|]. split.
  - exact (proj1 (@mandates_handed_once ex_world example_binding (λ _ _ _, None) 0 0 ex_inputs Hmono)).
  - vm_compute. reflexivity.
Defined.
