(* ===== verification/Unassociated.v ===== *)
(** * Unassociated station metrics: [src/emosa/wire/unassociated.py]

    The parser of an Unassociated STA Link Metrics Query and the coordinator that answers it from the
    probe requests the pod heard. The statistics cache, the wall clock and the watch are outside. *)

From S2P Require Import Prelude Bytes Cmdu Payloads TopologyValues Reports Channel ReportSource Session.

Definition QUERY : Z := 0x800F.
Definition RESPONSE : Z := 0x8010.
Definition UNASSOCIATED_ACK : Z := 0x8000.
Definition QUERY_TLV : Z := 0x97.
Definition RESPONSE_TLV : Z := 0x98.
Definition UNASSOCIATED_ERROR_TLV : Z := 0xA3.
Definition STA_ASSOCIATED : Z := 0x01.
Definition STA_NOT_HEARD : Z := 0x02.
Definition PROBE_LIFETIME : Z := seconds 120.
Definition MAX_STATIONS : nat := 64.

(** [rcpi(snr_db)] of [src/emosa/wire/pod_metrics.py] *)
Definition NOISE_FLOOR_DBM : Z := -96.
Definition rcpi (snr_db : Z) : Z := Z.max 0 (Z.min 220 (2 * ((snr_db + NOISE_FLOOR_DBM) + 110))).

(** ** The query *)

(** The loop over the stations of one channel: the new ones, in order, and all those seen. *)
Fixpoint query_stations (body : bytes) (at_ n : nat) (stations seen : list bytes) :
    result (list bytes * list bytes) :=
  match n with
  | O => Ok (stations, seen)
  | S n =>
      let mac := slice at_ (at_ + 6) body in
      _ ← raise_if (forallb (λ b, bool_decide (byte_to_Z b = 0)) mac || bool_decide (Z.land (octet_at 0 mac) 1 ≠ 0))
            INVALID_INPUT "queried station must be a unicast MAC address";
      if bool_decide (mac ∈ seen) then query_stations body (at_ + 6) n stations seen
      else query_stations body (at_ + 6) n (stations ++ [mac]) (seen ++ [mac])
  end.

(** The loop over the channels. *)
Fixpoint query_channels (body : bytes) (at_ count : nat) (channels : list (Z * list bytes)) (seen : list bytes) :
    result (nat * list (Z * list bytes) * list bytes) :=
  match count with
  | O => Ok (at_, channels, seen)
  | S count =>
      _ ← raise_if (bool_decide (length body < at_ + 2)%nat) INVALID_INPUT
            "truncated unassociated station query channel";
      let channel := octet_at at_ body in
      let n := Z.to_nat (octet_at (at_ + 1) body) in
      _ ← raise_if (bool_decide (length body < at_ + 2 + 6 * n)%nat) INVALID_INPUT
            "truncated unassociated station list";
      '(stations, seen) ← query_stations body (at_ + 2) n [] seen;
      query_channels body (at_ + 2 + 6 * n) count (channels ++ [(channel, stations)]) seen
  end.

(** [decode_query(tlvs)] *)
Definition decode_query (tlvs : list Tlv) : result (Z * list (Z * list bytes)) :=
  match tlv_value <$> filter (λ t, Cmdu.kind t = QUERY_TLV) tlvs with
  | [body] =>
      _ ← raise_if (bool_decide (length body < 2)%nat) INVALID_INPUT "truncated unassociated station query";
      '(at_, channels, seen) ← query_channels body 2 (Z.to_nat (octet_at 1 body)) [] [];
      _ ← raise_if (negb (bool_decide (at_ = length body))) INVALID_INPUT
            "trailing unassociated station query octets";
      _ ← raise_if (bool_decide (length seen = 0%nat)) INVALID_INPUT "unassociated station query names no station";
      _ ← raise_if (bool_decide (MAX_STATIONS < length seen)%nat) INVALID_INPUT
            "unassociated station query exceeds the station bound";
      Ok (octet_at 0 body, channels)
  | _ => invalid "one Unassociated STA Link Metrics Query TLV required"
  end.

(** ** The coordinator *)

(** A probe request the pod recorded. *)
Record Probe := mkProbe { band : string; measured_at : Z; snr_db : Z }.

(** (channel, age in milliseconds, RCPI), or the reason of the refusal *)
Inductive measurement := Refused (reason : Z) | Measured (channel age rcpi : Z).

Record UnassociatedLast := mkUnassociatedLast { u_mid : Z; u_class : Z; queried : Z; u_measured : Z }.

Record Unassociated := mkUnassociated {
  u_io : Io;
  u_counts : gmap string Z;
  u_last : option UnassociatedLast;
  u_closed : bool;
  watched : list (list bytes)                         (* the calls of [watch] *)
}.
#[export] Instance eta_Unassociated : Eta Unassociated := λ s,
  mkUnassociated (u_io s) (u_counts s) (u_last s) (u_closed s) (watched s).

Definition u_on_io {A} (m : M Io A) : M Unassociated A := λ s,
  let '(r, i) := m (u_io s) in (r, s <| u_io := i |>).

(** [measure(op_class, channel, station, ...)]; [probe] is [self.probes.probe], when there are probes *)
Definition measure (probe : option (bytes → option Probe)) (op_class channel : Z) (station : bytes)
    (associated : list bytes) (heard : bool) (now : Z) : measurement :=
  if bool_decide (station ∈ associated) then Refused STA_ASSOCIATED
  else if negb heard then Refused STA_NOT_HEARD
  else
    match probe ≫= λ p, p station with
    | None => Refused STA_NOT_HEARD
    | Some p =>
        if negb (bool_decide (Some (band p) = fst <$> GLOBAL_OPERATING_CLASSES op_class))
           || negb (bool_decide (0 ≤ now - measured_at p ≤ PROBE_LIFETIME))
        then Refused STA_NOT_HEARD
        else Measured channel (now - measured_at p) (rcpi (snr_db p))
    end.

(** A radio of the pod operates on the channel, in a class of its band. *)
Definition hears (radios : list OperatingRadio) (op_class channel : Z) : bool :=
  existsb (λ r, bool_decide (op_class ∈ advertised (o_class r)) && bool_decide (channel = o_channel r)) radios.

(** What the loops of [handle] gather: the verdict of each station, in the order of the query. *)
Definition verdicts (probe : option (bytes → option Probe)) (op_class : Z) (radios : list OperatingRadio)
    (associated : list bytes) (now : Z) (channels : list (Z * list bytes)) : list (bytes * measurement) :=
  channels ≫= λ cs, (λ st, (st, measure probe op_class cs.1 st associated (hears radios op_class cs.1) now)) <$> cs.2.

Definition refusals (vs : list (bytes * measurement)) : list Tlv :=
  omap (λ v, match v.2 with
             | Refused r => Some (mkTlv UNASSOCIATED_ERROR_TLV (octets [r] ++ v.1))
             | Measured _ _ _ => None
             end) vs.

(** The measured stations, as octets of the response. *)
Definition measured_octets (vs : list (bytes * measurement)) : list bytes :=
  omap (λ v, match v.2 with
             | Refused _ => None
             | Measured channel age value => Some (v.1 ++ octets [channel] ++ be_bytes 4 age ++ octets [value])
             end) vs.

(** [heard_here] *)
Definition heard_here (op_class : Z) (radios : list OperatingRadio) (associated : list bytes)
    (channels : list (Z * list bytes)) : list bytes :=
  channels ≫= λ cs, if hears radios op_class cs.1 then filter (λ m, m ∉ associated) cs.2 else [].

Section Coordinator.
Context `{World} (binding : PeerBinding) (wall : nat → Z) (watching : bool)
  (probes : nat → option (bytes → option Probe)).

(** [record(event)] *)
Definition u_record (event : string) : M Unassociated string :=
  _ ← modify (λ s, s <| u_counts := count event (u_counts s) |>); mret event.

(** [snapshot()] *)
Definition u_snapshot (closed : bool) : M Io ReportSnapshot :=
  a ← poll;
  match a with
  | Some a => if closed then raise NOT_READY "the pod's state is not available" else mret a
  | None => raise NOT_READY "the pod's state is not available"
  end.

(** [send(message_type, mid, tlvs, snapshot, deadline)] *)
Definition u_send (kind mid : Z) (tlvs : list Tlv) (from : ReportSnapshot) (limit : Z) : M Unassociated unit :=
  s ← get; u_on_io (deliver binding (u_snapshot (u_closed s)) kind mid tlvs from limit).

(** [self.wall()], and the probes the cache holds then *)
Definition read_wall : M Io (Z * option (bytes → option Probe)) := λ io,
  (Ok (wall (asked io), probes (asked io)), io <| asked := S (asked io) |>).

(** What [handle] does with the verdicts. *)
Definition u_answer (message : Message) (received_at : Z) (a : ReportSnapshot) (op_class : Z)
    (channels : list (Z * list bytes)) (vs : list (bytes * measurement)) (here : list bytes) :
    M Unassociated string :=
  let measured := measured_octets vs in
  _ ← u_send UNASSOCIATED_ACK (m_mid message) (refusals vs) a (received_at + seconds 1);
  _ ← (if watching && negb (bool_decide (length here = 0%nat))
       then modify (λ s, s <| watched := watched s ++ [here] |>) else mret tt);
  _ ← modify (λ s, s <| u_last := Some (mkUnassociatedLast (m_mid message) op_class
                (len (channels ≫= snd)) (len measured)) |>);
  if bool_decide (length measured = 0%nat) then u_record "unassociated_query_refused"
  else
    t ← u_on_io clock;
    _ ← u_send RESPONSE (m_mid message)
          [mkTlv RESPONSE_TLV (octets [op_class; len measured] ++ concat measured)] a (t + seconds 1);
    u_record "unassociated_metrics_response_sent".

(** [handle(message, received_at)] *)
Definition u_handle (message : Message) (received_at : Z) : M Unassociated (option string) :=
  if negb (bool_decide (m_message_type message = QUERY)) then mret None
  else
    _ ← lift (raise_if (negb (bool_decide (m_source message = controller_al binding))
                        || negb (bool_decide (m_destination message = local_al binding)) || m_relay message
                        || existsb (λ t, bool_decide (Cmdu.kind t ∈ SECURITY_ENVELOPES)) (m_tlvs message))
                INVALID_INPUT "unassociated station query from an unbound controller or envelope");
    t ← u_on_io clock;
    _ ← lift (raise_if (bool_decide (received_at + seconds 1 ≤ t)) NOT_READY
                "unassociated station query Ack deadline expired");
    '(op_class, channels) ← lift (decode_query (m_tlvs message));
    s ← get;
    a ← u_on_io (u_snapshot (u_closed s));
    let associated := tf_clients (topology a) ≫= λ b, c_mac <$> clients b in
    '(now, probe) ← u_on_io read_wall;
    Some <$> u_answer message received_at a op_class channels
      (verdicts probe op_class (operating_radios a) associated now channels)
      (heard_here op_class (operating_radios a) associated channels).

(** [close()] *)
Definition u_close (s : Unassociated) : Unassociated := s <| u_closed := true |>.
End Coordinator.

(** * Theory *)

(** ** What the parser accepts *)

Definition unicast_address (m : bytes) : Prop :=
  ¬ Forall (λ b, byte_to_Z b = 0) m ∧ Z.land (octet_at 0 m) 1 = 0.

Lemma query_stations_Ok body at_ n stations seen stations' seen' :
  NoDup seen → query_stations body at_ n stations seen = Ok (stations', seen') →
  ∃ new, stations' = stations ++ new ∧ seen' = seen ++ new ∧ NoDup seen' ∧ Forall unicast_address new ∧
    (length new ≤ n)%nat.
Proof.
  revert at_ stations seen. induction n as [|n IH]; intros at_ stations seen Hnd; cbn [query_stations].
  { intros Hq. apply Ok_inj in Hq. injection Hq as <- <-. exists []. rewrite !app_nil_r. auto. }
  set (mac := slice _ _ _). rewrite raise_if_bind_Ok. intros [Hu Hq]. bools.
  assert (Hmac : unicast_address mac).
  { split; [|by destruct (decide (Z.land (octet_at 0 mac) 1 = 0))]. intros Hz.
    apply Bool.diff_false_true. rewrite <- H. apply Is_true_true, forallb_True, Forall_forall. intros b Hb. apply bool_decide_spec.
    rewrite Forall_forall in Hz. by apply Hz. }
  case_bool_decide as Hin.
  - apply IH in Hq as (new & ? & ? & ? & ? & ?); [|done]. exists new. repeat split; auto with lia.
  - apply IH in Hq as (new & -> & -> & ? & ? & ?); [|apply NoDup_app; repeat split;
      [done| |apply NoDup_singleton]; intros x Hx Hx'; apply list_elem_of_singleton in Hx' as ->; done].
    exists (mac :: new). rewrite <- !app_assoc. repeat split; [|by constructor|simpl; lia].
    by rewrite <- app_assoc in H1.
Qed.

Lemma query_channels_Ok body at_ count channels seen r :
  NoDup seen → Forall unicast_address seen → channels ≫= snd = seen →
  query_channels body at_ count channels seen = Ok r →
  NoDup r.2 ∧ Forall unicast_address r.2 ∧ r.1.2 ≫= snd = r.2.
Proof.
  revert at_ channels seen. induction count as [|count IH]; intros at_ channels seen Hnd Hf Hs; cbn [query_channels].
  { intros Hq. apply Ok_inj in Hq as <-. auto. }
  rewrite !raise_if_bind_Ok, result_bind_Ok. intros (_ & _ & [stations seen'] & Hst & Hq).
  apply query_stations_Ok in Hst as (new & -> & -> & Hnd' & Hnew & _); [|done].
  apply IH in Hq; [done|done|by apply Forall_app|].
  rewrite bind_app, Hs. simpl. by rewrite app_nil_r.
Qed.

Lemma decode_query_Ok tlvs op_class channels :
  decode_query tlvs = Ok (op_class, channels) →
  NoDup (channels ≫= snd) ∧ Forall unicast_address (channels ≫= snd) ∧
  (1 ≤ length (channels ≫= snd) ≤ MAX_STATIONS)%nat.
Proof.
  unfold decode_query. destruct (tlv_value <$> _) as [|body [|]]; [done| |done].
  rewrite raise_if_bind_Ok, result_bind_Ok. intros (_ & [[at_ chs] seen] & Hq & Hd).
  rewrite !raise_if_bind_Ok in Hd. destruct Hd as (_ & H0 & Hm & Hr).
  apply Ok_inj in Hr. injection Hr as _ <-. bools.
  apply query_channels_Ok in Hq as (Hnd & Hf & Hs); [|constructor|constructor|done]. simpl in *. rewrite Hs.
  repeat split; [done|done|lia|lia].
Qed.

(** ** The verdict on a station *)

Lemma verdicts_stations probe op_class radios associated now channels :
  (verdicts probe op_class radios associated now channels).*1 = channels ≫= snd.
Proof.
  unfold verdicts. induction channels as [|[c l] channels IH]; [done|].
  rewrite !bind_cons, fmap_app, IH. f_equal. rewrite <- list_fmap_compose. apply list_fmap_id.
Qed.

(** The station probed the pod on the class and channel, within the lifetime. *)
Definition measurable (probe : option (bytes → option Probe)) (op_class : Z) (radios : list OperatingRadio)
    (now : Z) (st : bytes) (channel : Z) (p : Probe) : Prop :=
  hears radios op_class channel = true ∧ (probe ≫= λ f, f st) = Some p ∧
  Some (band p) = fst <$> GLOBAL_OPERATING_CLASSES op_class ∧ 0 ≤ now - measured_at p ≤ PROBE_LIFETIME.

(** A station is refused as associated exactly when it is, and measured exactly when it is not and it
    is measurable. *)
Definition verdict_right (probe : option (bytes → option Probe)) (op_class : Z) (radios : list OperatingRadio)
    (associated : list bytes) (now : Z) (st : bytes) (channel : Z) (v : measurement) : Prop :=
  match v with
  | Refused reason =>
      (reason = STA_ASSOCIATED ∧ st ∈ associated) ∨
      (reason = STA_NOT_HEARD ∧ (st ∉ associated) ∧ ∀ p, ¬ measurable probe op_class radios now st channel p)
  | Measured channel' age value =>
      (st ∉ associated) ∧ channel' = channel ∧
      ∃ p, measurable probe op_class radios now st channel p ∧ age = now - measured_at p ∧
        value = rcpi (snr_db p) ∧ 0 ≤ value ≤ 220
  end.

Lemma measure_right probe op_class radios associated now st channel :
  verdict_right probe op_class radios associated now st channel
    (measure probe op_class channel st associated (hears radios op_class channel) now).
Proof.
  unfold measure. case_bool_decide as Ha; [by left|].
  destruct (hears _ _ _) eqn:Hh; simpl.
  2:{ right. split; [done|]. split; [done|]. intros p (? & _). congruence. }
  destruct (probe ≫= _) as [p|] eqn:Hp; simpl.
  2:{ right. split; [done|]. split; [done|]. intros p (_ & ? & _). congruence. }
  case_bool_decide as Hb; simpl; [case_bool_decide as Ht; simpl|].
  - split; [done|]. split; [done|]. exists p. unfold measurable, rcpi. repeat split; [done|done|done|lia..].
  - right. split; [done|]. split; [done|]. intros q (_ & Hq & _ & ?). by simplify_eq.
  - right. split; [done|]. split; [done|]. intros q (_ & Hq & ? & _). by simplify_eq.
Qed.

Lemma verdicts_right probe op_class radios associated now channels :
  Forall (λ v, ∃ channel stations, (channel, stations) ∈ channels ∧ v.1 ∈ stations ∧
    verdict_right probe op_class radios associated now v.1 channel v.2)
    (verdicts probe op_class radios associated now channels).
Proof.
  apply Forall_forall. intros v Hv. unfold verdicts in Hv.
  apply list_elem_of_bind in Hv as ([c l] & Hv & Hc). apply list_elem_of_fmap in Hv as (st & -> & Hst).
  exists c, l. simpl in *. repeat split; [done|done|apply measure_right].
Qed.

(** ** What an answered query sent *)

Section Theory.
Context `{World} (binding : PeerBinding) (wall : nat → Z) (watching : bool)
  (probes : nat → option (bytes → option Probe)).

Lemma u_snapshot_silent c : silent (u_snapshot c).
Proof. intros io. unfold u_snapshot, mbind, M_mbind, poll. by destruct (world_source _), c. Qed.

Lemma u_snapshot_Ok c io a io' : u_snapshot c io = (Ok a, io') → c = false ∧ world_source (asked io) = Some a.
Proof.
  unfold u_snapshot, mbind, M_mbind, poll. destruct (world_source _) as [b|]; [|done].
  destruct c; [done|]. simpl. by intros [= -> _].
Qed.

Lemma u_send_Ok kind mid tlvs a limit s s' :
  u_send binding kind mid tlvs a limit s = (Ok tt, s') →
  ∃ new, sent (u_io s') = sent (u_io s) ++ new ∧
    fragment_message (controller_al binding) (local_al binding) kind mid tlvs false MAX_CMDU = Ok new.*2.
Proof.
  unfold u_send, mbind, M_mbind, get, u_on_io.
  destruct (deliver_run binding _ kind mid tlvs a limit (u_io s) (u_snapshot_silent (u_closed s)))
    as (r & n & new & -> & _ & Ho). intros [= -> <-]. exists new. split; [done|by apply Ho].
Qed.

(** The frames of an answer: the Ack, then the response when there is something to respond. *)
Definition answered (mid op_class : Z) (vs : list (bytes * measurement)) (frames : list bytes) : Prop :=
  ∃ f1 f2, frames = f1 ++ f2 ∧
    fragment_message (controller_al binding) (local_al binding) UNASSOCIATED_ACK mid (refusals vs) false MAX_CMDU = Ok f1 ∧
    (measured_octets vs = [] ∧ f2 = [] ∨
     measured_octets vs ≠ [] ∧
     fragment_message (controller_al binding) (local_al binding) RESPONSE mid
       [mkTlv RESPONSE_TLV (octets [op_class; len (measured_octets vs)] ++ concat (measured_octets vs))]
       false MAX_CMDU = Ok f2).

Lemma u_answer_Ok message received_at a op_class channels vs here s ev s' :
  u_answer binding watching message received_at a op_class channels vs here s = (Ok ev, s') →
  ∃ new, sent (u_io s') = sent (u_io s) ++ new ∧ answered (m_mid message) op_class vs new.*2.
Proof.
  unfold u_answer. rewrite M_bind_Ok. intros ([] & s1 & (new1 & H1 & F1)%u_send_Ok & Hr).
  rewrite M_bind_Ok in Hr. destruct Hr as ([] & s2 & H2 & Hr).
  assert (E2 : u_io s2 = u_io s1) by (destruct (_ && _); by injection H2 as <-). clear H2.
  rewrite M_bind_Ok in Hr. destruct Hr as ([] & s3 & [= <-] & Hr).
  case_bool_decide as Hm.
  - apply nil_length_inv in Hm. unfold u_record, mbind, M_mbind, modify in Hr. injection Hr as _ <-. simpl.
    rewrite E2. exists new1. split; [done|]. exists new1.*2, []. rewrite app_nil_r. auto.
  - rewrite M_bind_Ok in Hr. destruct Hr as (t & s4 & [= <- <-] & Hr).
    rewrite M_bind_Ok in Hr. destruct Hr as ([] & s5 & (new2 & H5 & F5)%u_send_Ok & Hr).
    unfold u_record, mbind, M_mbind, modify in Hr. injection Hr as _ <-. simpl in *.
    rewrite H5, E2, H1, <- app_assoc. exists (new1 ++ new2). split; [done|].
    exists new1.*2, new2.*2. rewrite fmap_app. split; [done|]. split; [done|]. right.
    split; [|done]. intros E. apply Hm. by rewrite E.
Qed.
End Theory.

(** * Properties *)

(** Every queried station is answered exactly once. When [handle] answers a query, the stations
    asked for are distinct unicast addresses, between one and 64; each has one verdict, taken on one
    snapshot the source showed: refused with reason 1 when it is associated with the pod, measured when
    it is not and it probed a radio of the pod on the asked class and channel in the last 120 seconds,
    refused with reason 2 otherwise; and the frames sent are those of the Ack that carries the refusals
    and, when some station is measured, of the response that carries the measurements, both under the
    query's identifier. *)
Theorem every_station_answered `{World} binding wall watching probes message received_at s ev s' :
  u_handle binding wall watching probes message received_at s = (Ok (Some ev), s') →
  ∃ op_class channels a n k vs new,
    decode_query (m_tlvs message) = Ok (op_class, channels) ∧ world_source n = Some a ∧
    vs.*1 = channels ≫= snd ∧ NoDup vs.*1 ∧ (1 ≤ length vs ≤ 64)%nat ∧ Forall unicast_address vs.*1 ∧
    Forall (λ v, ∃ channel stations, (channel, stations) ∈ channels ∧ v.1 ∈ stations ∧
      verdict_right (probes k) op_class (operating_radios a)
        (tf_clients (topology a) ≫= λ b, c_mac <$> clients b) (wall k) v.1 channel v.2) vs ∧
    sent (u_io s') = sent (u_io s) ++ new ∧ answered binding (m_mid message) op_class vs new.*2.
Proof.
  unfold u_handle. destruct (negb _); [done|].
  rewrite M_bind_Ok. intros ([] & s1 & [= _ <-] & Hr).
  rewrite M_bind_Ok in Hr. destruct Hr as (t & s2 & [= <- <-] & Hr).
  rewrite M_bind_Ok in Hr. destruct Hr as ([] & s3 & [= _ <-] & Hr).
  rewrite M_bind_Ok in Hr. destruct Hr as ([op_class channels] & s4 & Hd & Hr).
  unfold lift in Hd. injection Hd as Hd <-.
  rewrite M_bind_Ok in Hr. destruct Hr as (s5 & s6 & [= <- <-] & Hr).
  rewrite M_bind_Ok in Hr. destruct Hr as (a & s7 & Ha & Hr).
  rewrite M_bind_Ok in Hr. destruct Hr as ([now probe] & s8 & Hw & Hr).
  unfold u_on_io in Ha. cbn [u_io u_closed] in Ha. set (io1 := mkIo (S _) _) in Ha.
  destruct (u_snapshot (u_closed s) io1) as [ra i] eqn:Es. injection Ha as -> <-.
  pose proof (u_snapshot_silent (u_closed s) io1) as Hsil. rewrite Es in Hsil.
  apply u_snapshot_Ok in Es as [_ Es]. injection Hw as <- <- <-.
  unfold fmap, M_fmap in Hr. destruct (u_answer _ _ _ _ _ _ _ _ _ _) as [[ev'|] s9] eqn:Hu; [|done].
  injection Hr as -> <-. apply u_answer_Ok in Hu as (new & Hs & Ha).
  destruct (decode_query_Ok _ _ _ Hd) as (Hnd & Hf & Hl).
  eexists op_class, channels, a, (asked io1), (asked i), _, new.
  rewrite verdicts_stations. repeat split; try done.
  - rewrite <- (length_fmap fst), verdicts_stations. lia.
  - rewrite <- (length_fmap fst), verdicts_stations. apply Hl.
  - apply verdicts_right.
  - rewrite Hs. simpl in *. by rewrite Hsil.
Qed.

(** Three stations on channel 6: one associated, one that probed two seconds ago, one not heard. *)
Definition uex_snapshot : ReportSnapshot :=
  mkReportSnapshot (mkReportStamp "i/0/1/1" 0 100000) example_caps example_facts "i/0/1"
    [mkOperatingRadio (octets [2; 0; 0; 0; 0; 1]) 81 6 20 true] None None (Some 1) [].
Definition uex_world : World :=
  {| world_clock := λ n, 10 * Z.of_nat n; world_binding := λ _, example_binding;
     world_source := λ _, Some uex_snapshot; world_link := λ _, true |}.
Definition uex_query : Message :=
  mkMessage (octets [2; 0; 0; 0; 0; 9]) (octets [2; 0; 0; 0; 0; 8]) 0x800F 7 false
    [mkTlv 0x97 (octets ([81; 1; 6; 3] ++ [2; 0; 0; 0; 0; 7] ++ [2; 0; 0; 0; 0; 5] ++ [2; 0; 0; 0; 0; 4]))] 1.
Definition uex_probe (station : bytes) : option Probe :=
  if bool_decide (station = octets [2; 0; 0; 0; 0; 5]) then Some (mkProbe "2.4G" 58000 40) else None.
Definition uex_run : result (option string) * Unassociated :=
  @u_handle uex_world example_binding (λ _, 60000) true (λ _, Some uex_probe) uex_query 0
    (mkUnassociated (mkIo 0 []) ∅ None false []).

Lemma every_station_answered_witness :
  uex_run.1 = Ok (Some "unassociated_metrics_response_sent") ∧ length (sent (u_io uex_run.2)) = 2%nat ∧
  watched uex_run.2 = [[octets [2; 0; 0; 0; 0; 5]; octets [2; 0; 0; 0; 0; 4]]] ∧
  ∃ op_class channels vs new, decode_query (m_tlvs uex_query) = Ok (op_class, channels) ∧
    vs.*1 = channels ≫= snd ∧ @answered example_binding 7 op_class vs new.
Proof.
  assert (E : uex_run = (Ok (Some "unassociated_metrics_response_sent"), uex_run.2)) by (vm_compute; reflexivity).
  split; [by rewrite E|]. split; [vm_compute; reflexivity|]. split; [vm_compute; reflexivity|].
  destruct (@every_station_answered uex_world example_binding (λ _, 60000) true (λ _, Some uex_probe) uex_query 0
    _ _ _ E) as (c & chs & a & n & k & vs & new & Hd & _ & Hvs & _ & _ & _ & _ & _ & Ha).
  exists c, chs, vs, new.*2. repeat split; [exact Hd|exact Hvs|exact Ha].
Defined.
