(* ===== verification/Coordinator.v ===== *)
(** * The report coordinator: class [ReportCoordinator] of [src/emosa/wire/coordinator.py]

    One bound peer: the Early AP Capability Report with its retries and its acknowledgment, and the
    answers to Topology Queries with their budget. The clock, the source and the link are the
    [World] of [Session]; every exception the code catches is caught here, with the state as it was
    left. *)

From S2P Require Import Prelude Bytes Cmdu Reassembly Payloads TopologyValues Reports Channel ReportSource Session.

(** [_Notification] *)
Record Notification := mkNotification {
  n_snapshot : ReportSnapshot;
  n_deadline : Z;
  next_retry : Z;
  n_mids : gset Z;
  transmissions : Z
}.
#[export] Instance eta_Notification : Eta Notification := λ n,
  mkNotification (n_snapshot n) (n_deadline n) (next_retry n) (n_mids n) (transmissions n).

(** The coordinator; [tokens] is in thousandths, as time is in milliseconds. *)
Record Coordinator := mkCoordinator {
  c_io : Io;
  c_mids : Z;                                         (* self.mids *)
  c_assembly : Reassembler;
  c_pending : option Notification;
  c_closed : bool;
  c_events : list (string * option Z);
  c_counts : gmap string Z;
  c_queries : gmap Z Z;
  tokens : Z;
  token_time : Z
}.
#[export] Instance eta_Coordinator : Eta Coordinator := λ s,
  mkCoordinator (c_io s) (c_mids s) (c_assembly s) (c_pending s) (c_closed s) (c_events s) (c_counts s)
    (c_queries s) (tokens s) (token_time s).

Definition c_on_io {A} (m : M Io A) : M Coordinator A := λ s,
  let '(r, i) := m (c_io s) in (r, s <| c_io := i |>).
Definition c_on_assembly {A} (m : M Reassembler A) : M Coordinator A := λ s,
  let '(r, a) := m (c_assembly s) in (r, s <| c_assembly := a |>).

(** [Reassembler(clock=clock)]: the defaults are within its limits. *)
Definition new_assembly : Reassembler := mkReassembler (seconds 5) 64 (2 * 1024 * 1024) 65536 64 ∅ 0.

Section Coordinator.
Context `{World} (binding : PeerBinding) (message_set : string).

(** [_record(event, mid=mid)] *)
Definition c_record (event : string) (mid : option Z) : M Coordinator string :=
  _ ← modify (λ s, s <| c_counts := count event (c_counts s) |>
                     <| c_events := deque_append 64 (c_events s) (event, mid) |>);
  mret event.

(** [self.pending = None], and the reason *)
Definition drop_pending (event : string) : M Coordinator unit :=
  _ ← modify (λ s, s <| c_pending := None |>);
  _ ← c_record event None;
  mret tt.

(** [_stamp()] *)
Definition c_stamp : M Io (option ReportStamp) :=
  b ← poll_binding;
  if negb (bool_decide (b = binding)) then mret None
  else a ← poll; mret (s_stamp <$> a).

(** [_facts()] *)
Definition c_facts (closed : bool) : M Io ReportSnapshot :=
  if closed then raise NOT_READY "report coordinator is closed"
  else
    b ← poll_binding;
    if negb (bool_decide (b = binding)) then raise NOT_READY "report peer binding changed"
    else
      a ← poll;
      match a with
      | None => raise NOT_READY "report source is unavailable"
      | Some a => mret a
      end.

(** [early_report(...)] with the coordinator's own sequence of identifiers *)
Definition c_early_report (pending : Notification) : M Coordinator PreparedReport :=
  now ← c_on_io clock;
  s ← get;
  let '(r, m) := early_report binding (capabilities (n_snapshot pending)) (s_stamp (n_snapshot pending)) (c_mids s) now in
  _ ← put (s <| c_mids := m |>);
  lift r.

(** [_transmit_early()]; [pending] is [self.pending] *)
Definition transmit_early (pending : Notification) : M Coordinator unit :=
  current ← c_on_io c_stamp;
  now ← c_on_io clock;
  _ ← lift (stamp_check (s_stamp (n_snapshot pending)) current now);
  report ← c_early_report pending;
  _ ← c_on_io (send send_frame c_stamp clock (report <| deadline := n_deadline pending |>));
  now ← c_on_io clock;
  _ ← modify (λ s, s <| c_pending := (λ p, p
          <| n_mids := {[pr_mid report]} ∪ n_mids p |>
          <| transmissions := transmissions p + 1 |>
          <| next_retry := now + 250 |>) <$> c_pending s |>);
  _ ← c_record "early_sent" (Some (pr_mid report));
  mret tt.

(** [notify_early()] *)
Definition notify_early : M Coordinator unit :=
  s ← get;
  match c_pending s with
  | Some _ => raise BUSY "an Early Report is already awaiting acknowledgment"
  | None =>
      a ← c_on_io (c_facts (c_closed s));
      now ← c_on_io clock;
      let pending := mkNotification a (Z.min (now + seconds 1) (valid_until (s_stamp a))) now ∅ 0 in
      _ ← modify (λ s, s <| c_pending := Some pending |>);
      try_else (transmit_early pending) mret
        (λ e, _ ← drop_pending "early_send_failed"; lift (Raise e))
  end.

(** The retry of [tick]. *)
Definition retry_early (pending : Notification) : M Coordinator unit :=
  try_else (transmit_early pending) mret (λ _, drop_pending "early_send_failed").

(** [tick()] *)
Definition tick : M Coordinator unit :=
  s ← get;
  if c_closed s then mret tt
  else
    now ← c_on_io clock;
    _ ← c_on_assembly (expire now);
    now ← c_on_io clock;
    _ ← modify (λ s, s <| c_queries := filter (λ me, now < me.2) (c_queries s) |>);
    s ← get;
    match c_pending s with
    | None => mret tt
    | Some pending =>
        current ← c_on_io c_stamp;
        now ← c_on_io clock;
        match stamp_check (s_stamp (n_snapshot pending)) current now with
        | Raise _ => drop_pending "early_source_invalidated"
        | Ok _ =>
            now ← c_on_io clock;
            if bool_decide (n_deadline pending ≤ now) then drop_pending "early_ack_timeout"
            else
              now ← c_on_io clock;
              if bool_decide (next_retry pending ≤ now) && bool_decide (transmissions pending < 3)
              then retry_early pending else mret tt
        end
    end.

(** The first half of [_ack]: a notification whose source or time has gone is dropped. *)
Definition ack_expire : M Coordinator unit :=
  s ← get;
  match c_pending s with
  | None => mret tt
  | Some pending =>
      current ← c_on_io c_stamp;
      now ← c_on_io clock;
      match stamp_check (s_stamp (n_snapshot pending)) current now with
      | Raise _ => drop_pending "early_source_invalidated"
      | Ok _ =>
          now ← c_on_io clock;
          if bool_decide (n_deadline pending ≤ now) then drop_pending "early_ack_timeout" else mret tt
      end
  end.

(** [_ack(message)] *)
Definition c_ack (message : Message) : M Coordinator string :=
  _ ← ack_expire;
  s ← get;
  match c_pending s with
  | None => c_record "unmatched_ack" (Some (m_mid message))
  | Some pending =>
      if negb (bool_decide (m_mid message ∈ n_mids pending))
      then c_record "unmatched_ack" (Some (m_mid message))
      else if existsb (λ t, bool_decide (Cmdu.kind t ∈ [0xA3; 0xBC])) (m_tlvs message)
      then c_record "ack_error_rejected" (Some (m_mid message))
      else
        _ ← modify (λ s, s <| c_pending := None |>);
        c_record "early_acknowledged" (Some (m_mid message))
  end.

(** The answer of [_query], once the query is charged. *)
Definition answer_query (message : Message) (received_at : Z) (ingress : string) (generation : Z) :
    M Coordinator string :=
  s ← get;
  a ← c_on_io (c_facts (c_closed s));
  now ← c_on_io clock;
  report ← lift (topology_response message binding (topology a) (s_stamp a) ingress generation received_at now
                   message_set);
  try_else (c_on_io (send send_frame c_stamp clock report))
    (λ _, c_record "topology_response_sent" (Some (m_mid message)))
    (λ e, _ ← c_record "topology_send_failed" (Some (m_mid message)); lift (Raise e)).

(** [_query(message, received_at, ingress, generation)] *)
Definition c_query (message : Message) (received_at : Z) (ingress : string) (generation : Z) : M Coordinator string :=
  _ ← tick;
  s ← get;
  if bool_decide (is_Some (c_queries s !! m_mid message)) then c_record "duplicate_query" (Some (m_mid message))
  else
    now ← c_on_io clock;
    _ ← modify (λ s, s <| tokens := Z.min (seconds 8) (tokens s + Z.max 0 (now - token_time s) * 4) |>
                       <| token_time := now |>);
    s ← get;
    if bool_decide (tokens s < seconds 1) || bool_decide (128 ≤ size (c_queries s))%nat
    then c_record "query_budget_exhausted" None
    else
      _ ← modify (λ s, s <| tokens := tokens s - seconds 1 |>
                         <| c_queries := <[m_mid message := now + seconds 5]> (c_queries s) |>);
      answer_query message received_at ingress generation.

(** The body of [receive]. The second reading of the clock is the one [feed] makes when it opens a
    context. *)
Definition c_dispatch (frame : bytes) (ingress : string) (generation : Z) : M Coordinator string :=
  fragment ← lift (decode_frame frame);
  _ ← lift (binding_check binding (destination fragment) (source fragment) ingress generation);
  if negb (bool_decide (message_type fragment ∈ [2; 0x8000])) then c_record "unsupported_message" None
  else
    t0 ← c_on_io clock;
    t1 ← c_on_io clock;
    message ← c_on_assembly (feed t0 t1 frame ingress);
    match message with
    | None => mret "incomplete"
    | Some message =>
        received_at ← c_on_io clock;
        _ ← lift (raise_if (m_relay message
                            || existsb (λ t, bool_decide (Cmdu.kind t ∈ SECURITY_ENVELOPES)) (m_tlvs message))
                    INVALID_INPUT "unsupported report input envelope");
        if bool_decide (m_message_type message = 0x8000) then c_ack message
        else c_query message received_at ingress generation
    end.

(** [receive(frame, ingress=ingress, generation=generation)] *)
Definition receive (frame : bytes) (ingress : string) (generation : Z) : M Coordinator string :=
  s ← get;
  if c_closed s then c_record "closed_input" None
  else
    try_else (c_dispatch frame ingress generation) mret
      (λ e, if bool_decide (e = os_error) then mret "topology_send_failed"
            else c_record "input_or_source_rejected" None).

(** [close()] *)
Definition c_close (s : Coordinator) : Coordinator :=
  s <| c_closed := true |> <| c_pending := None |> <| c_assembly := new_assembly |> <| c_queries := ∅ |>.

(** [__init__]: [previous] is the sequence it is given *)
Definition c_init (previous : Z) (io : Io) : Coordinator :=
  mkCoordinator (io <| asked := S (asked io) |>) previous new_assembly None false [] ∅ ∅ (seconds 8)
    (world_clock (asked io)).
End Coordinator.

(** * Theory *)

Create HintDb quiet discriminated.

Lemma new_assembly_ok : reassembler_ok new_assembly.
Proof. apply (Reassembler_init_ok (seconds 5) 64 (2 * 1024 * 1024) 65536 64). vm_compute. reflexivity. Qed.

Section Theory.
Context `{World} (binding : PeerBinding) (message_set : string).

(** ** The invariant *)

(** The whole report was handed to the link under identifier [m], in one run of frames. *)
Definition report_sent (io : Io) (p : Notification) (m : Z) : Prop :=
  ∃ tlvs fs, capability_tlvs (capabilities (n_snapshot p)) = Ok tlvs ∧
    fragment_message (controller_al binding) (local_al binding) EARLY_AP_REPORT m tlvs false MAX_CMDU = Ok fs ∧
    handed_over io fs.

(** A notification: of facts the source showed, sent at most three times, and eligible for an
    acknowledgment only under identifiers it was wholly sent with. *)
Record notification_ok (io : Io) (p : Notification) : Prop := {
  no_transmissions : 0 ≤ transmissions p ≤ 3;
  no_mids : Z.of_nat (size (n_mids p)) ≤ transmissions p;
  no_deadline : n_deadline p ≤ valid_until (s_stamp (n_snapshot p));
  no_shown : ∃ n, world_source n = Some (n_snapshot p);
  no_sent : ∀ m, m ∈ n_mids p → report_sent io p m
}.

Record coordinator_ok (s : Coordinator) : Prop := {
  co_queries : (size (c_queries s) ≤ 128)%nat;
  co_tokens : 0 ≤ tokens s ≤ seconds 8;
  co_events : (length (c_events s) ≤ 64)%nat;
  co_assembly : reassembler_ok (c_assembly s);
  co_pending : ∀ p, c_pending s = Some p → notification_ok (c_io s) p;
  co_closed : c_closed s = true → c_pending s = None
}.

Lemma report_sent_later i i' p m : later i i' → report_sent i p m → report_sent i' p m.
Proof. intros Hl (tlvs & fs & ? & ? & ?). exists tlvs, fs. eauto using handed_over_later. Qed.

Lemma notification_ok_later i i' p : later i i' → notification_ok i p → notification_ok i' p.
Proof. intros Hl [? ? ? ? Hs]. split; eauto using report_sent_later. Qed.

(** What the input and the output of the coordinator leave as it is. *)
Definition stable (J : Coordinator → Prop) : Prop :=
  ∀ s i, J s → later (c_io s) i → J (s <| c_io := i |>).

Lemma coordinator_ok_stable : stable coordinator_ok.
Proof. intros s i [] Hl. split; simpl; eauto using notification_ok_later. Qed.

Lemma keeps_on_io {A} J (m : M Io A) : stable J → forward m → keeps J (c_on_io m).
Proof.
  intros HJ Hm s Hs. unfold c_on_io. specialize (Hm (c_io s)). destruct (m (c_io s)) as [[a|e] i]; by apply HJ.
Qed.

Lemma forward_c_stamp : forward (c_stamp binding).
Proof.
  apply forward_bind; [apply forward_poll_binding|]. intros b. destruct (negb _); [apply forward_mret|].
  apply forward_bind; [apply forward_poll|]. intros a. apply forward_mret.
Qed.
Lemma forward_c_facts closed : forward (c_facts binding closed).
Proof.
  unfold c_facts. destruct closed; [apply forward_lift|].
  apply forward_bind; [apply forward_poll_binding|]. intros b. destruct (negb _); [apply forward_lift|].
  apply forward_bind; [apply forward_poll|]. intros [a|]; [apply forward_mret|apply forward_lift].
Qed.
Lemma silent_c_stamp : silent (c_stamp binding).
Proof. intros io. unfold c_stamp, mbind, M_mbind, poll_binding, poll. by destruct (negb _). Qed.

Lemma keeps_record event mid : keeps coordinator_ok (c_record event mid).
Proof.
  apply keeps_bind; [apply keeps_modify|intros; apply keeps_mret].
  intros s []. split; simpl; auto. by apply deque_append_length.
Qed.

Lemma drop_pending_ok event :
  hoare coordinator_ok (drop_pending event) (λ _ s, coordinator_ok s ∧ c_pending s = None) (λ _, coordinator_ok).
Proof.
  intros s []. unfold drop_pending, c_record, modify, mbind, M_mbind, mret, M_mret. cbn beta iota.
  split; [|done]. split; simpl; auto; [by apply deque_append_length|done].
Qed.
Lemma keeps_drop event : keeps coordinator_ok (drop_pending event).
Proof. eapply hoare_weaken; [apply drop_pending_ok|done|naive_solver|done]. Qed.

Lemma keeps_assembly {A} (m : M Reassembler A) :
  keeps reassembler_ok m → keeps coordinator_ok (c_on_assembly m).
Proof.
  intros Hm s []. unfold c_on_assembly. specialize (Hm (c_assembly s) co_assembly0).
  destruct (m (c_assembly s)) as [[a|e] r]; split; done.
Qed.

(** ** The early report *)

Lemma c_facts_shown closed i a i' : c_facts binding closed i = (Ok a, i') → closed = false ∧ ∃ n, world_source n = Some a.
Proof.
  unfold c_facts, mbind, M_mbind, poll_binding, poll. destruct closed; [done|].
  destruct (negb _); [done|]. simpl. destruct (world_source _) as [b|] eqn:Eb; [|done].
  intros [= -> _]. eauto.
Qed.

(** The notification on its way: it is the pending one, and may be sent once more. *)
Definition sending (pending : Notification) (s : Coordinator) : Prop :=
  coordinator_ok s ∧ c_pending s = Some pending ∧ transmissions pending < 3.

Lemma sending_stable pending : stable (sending pending).
Proof. intros s i (Hok & Hp & Ht) Hl. split; [by apply coordinator_ok_stable|done]. Qed.

(** The report made for it. *)
Definition made (pending : Notification) (report : PreparedReport) : Prop :=
  ∃ tlvs, capability_tlvs (capabilities (n_snapshot pending)) = Ok tlvs ∧
    fragment_message (controller_al binding) (local_al binding) EARLY_AP_REPORT (pr_mid report) tlvs false MAX_CMDU
      = Ok (frames report).

Lemma early_report_made pending previous now report m :
  early_report binding (capabilities (n_snapshot pending)) (s_stamp (n_snapshot pending)) previous now
    = (Ok report, m) → made pending report.
Proof.
  unfold early_report. destruct (_ ≫= _) as [tlvs|e] eqn:Et; [|done].
  apply result_bind_Ok in Et as (u & _ & Et). intros [= Hr _]. apply result_bind_Ok in Hr as (fs & Hf & Hr).
  apply Ok_inj in Hr as <-. exists tlvs. done.
Qed.

Lemma c_early_report_ok pending :
  hoare (sending pending) (c_early_report binding pending) (λ report s, sending pending s ∧ made pending report)
    (λ _, sending pending).
Proof.
  unfold c_early_report. eapply hoare_bind.
  { apply keeps_on_io; [apply sending_stable|apply forward_clock]. }
  intros now. apply hoare_get_bind. intros s Hs.
  destruct (early_report _ _ _ _ _) as [r m] eqn:Er. intros s' ->. unfold mbind, M_mbind, put, lift.
  assert (Hs' : sending pending (s <| c_mids := m |>)).
  { destruct Hs as ([] & Hp & Ht). split; [by split|done]. }
  destruct r as [report|e]; [|done]. split; [done|]. by eapply early_report_made.
Qed.

Lemma send_early_ok pending report :
  made pending report →
  hoare (sending pending) (c_on_io (send send_frame (c_stamp binding) clock (report <| deadline := n_deadline pending |>)))
    (λ _ s, sending pending s ∧ report_sent (c_io s) pending (pr_mid report)) (λ _, sending pending).
Proof.
  intros (tlvs & Ht & Hf) s Hs. unfold c_on_io.
  destruct (send_run (c_stamp binding) (report <| deadline := n_deadline pending |>) (c_io s) silent_c_stamp)
    as (r & n & new & E & _ & Ho).
  pose proof (forward_send (c_stamp binding) (report <| deadline := n_deadline pending |>) forward_c_stamp (c_io s)) as Hl.
  rewrite E in *. assert (Hs' : sending pending (s <| c_io := mkIo n (sent (c_io s) ++ new) |>)) by (by apply sending_stable).
  destruct r as [k|e]; [|done]. split; [done|]. exists tlvs, (frames report).
  split; [done|]. split; [done|]. specialize (Ho k eq_refl). simpl in Ho. rewrite <- Ho. apply handed_over_now.
Qed.

Lemma transmit_early_ok pending :
  hoare (sending pending) (transmit_early binding pending) (λ _, coordinator_ok) (λ _, coordinator_ok).
Proof.
  assert (Hw : ∀ s, sending pending s → coordinator_ok s) by (by intros s []).
  unfold transmit_early.
  eapply hoare_bind with (R := λ _, sending pending).
  { eapply hoare_weaken; [apply keeps_on_io; [apply sending_stable|apply forward_c_stamp]|done|done|auto]. }
  intros current. eapply hoare_bind with (R := λ _, sending pending).
  { eapply hoare_weaken; [apply keeps_on_io; [apply sending_stable|apply forward_clock]|done|done|auto]. }
  intros now. eapply hoare_bind with (R := λ _, sending pending); [by apply hoare_lift; auto|]. intros _.
  eapply hoare_bind.
  { eapply hoare_weaken; [apply c_early_report_ok|done|intros report s Hs; exact Hs|auto]. }
  intros report. eapply hoare_bind with (R := λ _ s, sending pending s ∧ report_sent (c_io s) pending (pr_mid report)).
  { intros s [Hs Hm]. specialize (send_early_ok pending report Hm s Hs) as He.
    destruct (c_on_io _ s) as [[k|e] s']; [done|auto]. }
  intros _. eapply hoare_bind with (R := λ _ s, sending pending s ∧ report_sent (c_io s) pending (pr_mid report)).
  { eapply hoare_weaken; [apply (keeps_on_io (λ s, sending pending s ∧ report_sent (c_io s) pending (pr_mid report)))| | |].
    - intros s i [? ?] ?. split; [by apply sending_stable|by eapply report_sent_later].
    - apply forward_clock.
    - done.
    - done.
    - naive_solver. }
  intros t. eapply hoare_bind with (R := λ _, coordinator_ok).
  { apply hoare_modify. intros s [([] & Hp & Ht) Hr]. specialize (co_pending0 _ Hp). destruct co_pending0.
    split; simpl; auto.
    - rewrite Hp. intros p [= <-]. split; simpl; auto; [lia| |].
      + assert (size ({[pr_mid report]} ∪ n_mids pending) ≤ 1 + size (n_mids pending))%nat; [|lia].
        rewrite size_union_alt, size_singleton. apply Nat.add_le_mono_l, subseteq_size. set_solver.
      + intros m [->%elem_of_singleton|Hm]%elem_of_union; [done|]. by apply no_sent0.
    - intros Hc. specialize (co_closed0 Hc). congruence. }
  intros _. eapply hoare_bind; [apply keeps_record|]. intros; apply keeps_mret.
Qed.

(** ** Every operation keeps the invariant *)

Lemma keeps_io {A} (m : M Io A) : forward m → keeps coordinator_ok (c_on_io m).
Proof. apply keeps_on_io, coordinator_ok_stable. Qed.

Lemma start_ok a s limit now :
  coordinator_ok s → c_closed s = false → (∃ n, world_source n = Some a) → limit ≤ valid_until (s_stamp a) →
  sending (mkNotification a limit now ∅ 0) (s <| c_pending := Some (mkNotification a limit now ∅ 0) |>).
Proof.
  intros [] Hc Ha Hl. split; [|done]. split; simpl; auto; [|congruence].
  intros p [= <-]. split; simpl; auto; [lia|set_solver|set_solver].
Qed.

Lemma notify_early_ok : keeps coordinator_ok (notify_early binding).
Proof.
  apply hoare_get_bind. intros s0 Hs0. destruct (c_pending s0) as [p|]; [by intros s ->|].
  set (J := λ s, coordinator_ok s ∧ c_closed s = false).
  assert (HJ : stable J) by (intros s i [? ?] ?; split; [by apply coordinator_ok_stable|done]).
  apply hoare_bind with (R := λ a s, J s ∧ ∃ n, world_source n = Some a).
  { intros s ->. pose proof (keeps_io (c_facts binding (c_closed s0)) (forward_c_facts _) s0 Hs0) as Hk.
    unfold c_on_io in *. destruct (c_facts binding (c_closed s0) (c_io s0)) as [[a|e] i] eqn:Ef; [|done].
    apply c_facts_shown in Ef as [? ?]. done. }
  intros a. apply hoare_bind with (R := λ _ s, J s ∧ ∃ n, world_source n = Some a).
  { intros s [Hs Ha]. pose proof (keeps_on_io J clock HJ forward_clock s Hs) as Hk. simpl in *. done. }
  intros now.
  apply hoare_bind with (R := λ _, sending (mkNotification a (Z.min (now + seconds 1) (valid_until (s_stamp a))) now ∅ 0)).
  { apply hoare_modify. intros s [[? ?] ?]. apply start_ok; [done|done|done|lia]. }
  intros _. eapply hoare_try; [apply transmit_early_ok|intros; apply keeps_mret|].
  intros e. apply keeps_bind; [apply keeps_drop|]. intros. apply keeps_lift.
Qed.

Lemma live_queries_ok s now :
  coordinator_ok s → coordinator_ok (s <| c_queries := filter (λ me, now < me.2) (c_queries s) |>).
Proof.
  intros []. split; simpl; auto.
  etrans; [|exact co_queries0]. apply map_subseteq_size, map_filter_subseteq.
Qed.

(** The guard shared by [tick] and [_ack]: a stale notification is dropped. *)
Lemma guard_ok pending (k : M Coordinator unit) :
  hoare (λ s, coordinator_ok s ∧ c_pending s = Some pending) k (λ _, coordinator_ok) (λ _, coordinator_ok) →
  hoare (λ s, coordinator_ok s ∧ c_pending s = Some pending)
    (current ← c_on_io (c_stamp binding); now ← c_on_io clock;
     match stamp_check (s_stamp (n_snapshot pending)) current now with
     | Raise _ => drop_pending "early_source_invalidated"
     | Ok _ => now ← c_on_io clock;
               if bool_decide (n_deadline pending ≤ now) then drop_pending "early_ack_timeout" else k
     end) (λ _, coordinator_ok) (λ _, coordinator_ok).
Proof.
  intros Hk. set (J := λ s, coordinator_ok s ∧ c_pending s = Some pending).
  assert (HJ : stable J) by (intros s i [? ?] ?; split; [by apply coordinator_ok_stable|done]).
  assert (Hio : ∀ A (m : M Io A), forward m → hoare J (c_on_io m) (λ _, J) (λ _, coordinator_ok)).
  { intros A m Hm. eapply hoare_weaken; [apply (keeps_on_io J m HJ Hm)|done|done|by intros e s []]. }
  eapply hoare_bind; [apply Hio, forward_c_stamp|]. intros current.
  eapply hoare_bind; [apply Hio, forward_clock|]. intros now.
  destruct (stamp_check _ _ _).
  - eapply hoare_bind; [apply Hio, forward_clock|]. intros t. case_bool_decide; [|done].
    eapply hoare_pre; [apply keeps_drop|by intros s []].
  - eapply hoare_pre; [apply keeps_drop|by intros s []].
Qed.

Lemma tick_ok : keeps coordinator_ok (tick binding).
Proof.
  apply hoare_get_bind. intros s0 Hs0. eapply hoare_pre; [|intros s ->; exact Hs0].
  destruct (c_closed s0); [apply keeps_mret|].
  apply keeps_bind; [apply keeps_io, forward_clock|]. intros now.
  apply keeps_bind; [apply keeps_assembly, expire_ok|]. intros _.
  apply keeps_bind; [apply keeps_io, forward_clock|]. intros t.
  apply keeps_bind; [apply keeps_modify; intros s; apply live_queries_ok|]. intros _.
  apply hoare_get_bind. intros s1 Hs1. destruct (c_pending s1) as [p|] eqn:Hp; [|by intros s ->].
  eapply hoare_pre; [apply guard_ok|by intros s ->].
  eapply hoare_bind with (R := λ _ s, coordinator_ok s ∧ c_pending s = Some p).
  { intros s [Hs Hsp]. pose proof (keeps_io clock forward_clock s Hs). done. }
  intros t2. destruct (bool_decide (next_retry p ≤ t2) && bool_decide (transmissions p < 3)) eqn:Et.
  - bools. eapply hoare_try; [|intros; apply keeps_mret|intros; apply keeps_drop].
    eapply hoare_pre; [apply transmit_early_ok|]. by intros s [? ?].
  - by intros s [? ?].
Qed.

Lemma ack_expire_ok : keeps coordinator_ok (ack_expire binding).
Proof.
  apply hoare_get_bind. intros s0 Hs0. destruct (c_pending s0) as [p|] eqn:Hp; [|by intros s ->].
  eapply hoare_pre; [apply guard_ok|by intros s ->]. by intros s [? ?].
Qed.

Lemma c_ack_ok message : keeps coordinator_ok (c_ack binding message).
Proof.
  apply keeps_bind; [apply ack_expire_ok|]. intros _.
  apply hoare_get_bind. intros s0 Hs0. eapply hoare_pre; [|intros s ->; exact Hs0].
  destruct (c_pending s0) as [p|]; [|apply keeps_record].
  destruct (negb _); [apply keeps_record|]. destruct (existsb _ _); [apply keeps_record|].
  apply keeps_bind; [apply keeps_modify|intros; apply keeps_record].
  intros s []. by split; simpl; auto.
Qed.

Lemma answer_query_ok message at_ ing gen : keeps coordinator_ok (answer_query binding message_set message at_ ing gen).
Proof.
  apply hoare_get_bind. intros s0 Hs0. eapply hoare_pre; [|intros s ->; exact Hs0].
  apply keeps_bind; [apply keeps_io, forward_c_facts|]. intros a.
  apply keeps_bind; [apply keeps_io, forward_clock|]. intros now.
  apply keeps_bind; [apply keeps_lift|]. intros report.
  apply keeps_try; [apply keeps_io, forward_send, forward_c_stamp|intros; apply keeps_record|].
  intros e. apply keeps_bind; [apply keeps_record|intros; apply keeps_lift].
Qed.

Lemma charge_ok s now :
  coordinator_ok s → coordinator_ok (s <| tokens := Z.min (seconds 8) (tokens s + Z.max 0 (now - token_time s) * 4) |>
                                       <| token_time := now |>).
Proof. intros []. split; simpl; auto. unfold seconds in *. lia. Qed.

Lemma admit_ok s mid until :
  coordinator_ok s → seconds 1 ≤ tokens s → (size (c_queries s) < 128)%nat →
  coordinator_ok (s <| tokens := tokens s - seconds 1 |> <| c_queries := <[mid := until]> (c_queries s) |>).
Proof.
  intros [] Ht Hq. split; simpl; auto.
  - destruct (c_queries s !! mid) eqn:E; [rewrite map_size_insert_Some by eauto|rewrite map_size_insert_None by done]; lia.
  - unfold seconds in *. lia.
Qed.

Lemma c_query_ok message at_ ing gen : keeps coordinator_ok (c_query binding message_set message at_ ing gen).
Proof.
  apply keeps_bind; [apply tick_ok|]. intros _. apply keeps_get. intros s0.
  case_bool_decide; [apply keeps_record|].
  apply keeps_bind; [apply keeps_io, forward_clock|]. intros now.
  apply keeps_bind; [apply keeps_modify; intros s; apply charge_ok|]. intros _.
  apply hoare_get_bind. intros s Hs. destruct (_ || _) eqn:Eb.
  - eapply hoare_pre; [apply keeps_record|by intros ? ->].
  - bools. eapply hoare_bind with (R := λ _, coordinator_ok); [|intros _; apply answer_query_ok].
    apply hoare_modify. intros ? ->. apply admit_ok; [done|lia|lia].
Qed.

Lemma receive_ok frame ing gen : keeps coordinator_ok (receive binding message_set frame ing gen).
Proof.
  apply keeps_get. intros s0. destruct (c_closed s0); [apply keeps_record|].
  apply keeps_try; [|intros; apply keeps_mret|intros e; case_bool_decide; [apply keeps_mret|apply keeps_record]].
  unfold c_dispatch. apply keeps_bind; [apply keeps_lift|]. intros fragment.
  apply keeps_bind; [apply keeps_lift|]. intros _. destruct (negb _); [apply keeps_record|].
  do 2 (apply keeps_bind; [apply keeps_io, forward_clock|]; intros ?).
  apply keeps_bind.
  { apply keeps_assembly. eapply hoare_weaken; [apply feed_ok|done|naive_solver|done]. }
  intros [message|]; [|apply keeps_mret]. apply keeps_bind; [apply keeps_io, forward_clock|]. intros at_.
  apply keeps_bind; [apply keeps_lift|]. intros _. case_bool_decide; [apply c_ack_ok|apply c_query_ok].
Qed.

(** ** Sequences of inputs *)

Inductive c_input := Frame (frame : bytes) (ingress : string) (generation : Z) | Tick | NotifyEarly | CloseReports.

Definition c_serve (s : Coordinator) (i : c_input) : Coordinator :=
  match i with
  | Frame frame ing gen => (receive binding message_set frame ing gen s).2
  | Tick => (tick binding s).2
  | NotifyEarly => (notify_early binding s).2
  | CloseReports => c_close s
  end.

Lemma c_serve_ok s i : coordinator_ok s → coordinator_ok (c_serve s i).
Proof.
  intros Hs. destruct i; simpl; [by apply keeps_snd, Hs; apply receive_ok|by apply keeps_snd, Hs; apply tick_ok
    |by apply keeps_snd, Hs; apply notify_early_ok|].
  destruct Hs. split; simpl; auto; [rewrite map_size_empty; lia|apply new_assembly_ok|done].
Qed.

Lemma c_init_ok previous io : coordinator_ok (c_init previous io).
Proof. split; simpl; try done; [rewrite map_size_empty; lia|lia]. Qed.

Lemma c_serve_all_ok s l : coordinator_ok s → coordinator_ok (foldl c_serve s l).
Proof. revert s. induction l as [|i l IH]; intros s Hs; [done|]. apply IH. by apply c_serve_ok. Qed.

(** ** The acknowledgment *)

(** What [ack_expire] leaves pending is what was pending, checked at a time before its deadline. *)
Lemma c_stamp_run io :
  ∃ current i, c_stamp binding io = (Ok current, i) ∧
    ∀ st, current = Some st → world_binding (asked io) = binding ∧ asked i = (2 + asked io)%nat ∧
      ∃ a, world_source (1 + asked io) = Some a ∧ st = s_stamp a.
Proof.
  unfold c_stamp, mbind, M_mbind, poll_binding, poll. case_bool_decide as Hb; simpl.
  - eexists _, _. split; [reflexivity|]. intros st Hst. split; [done|]. split; [done|].
    destruct (world_source _) as [a|] eqn:Ea; [|done]. injection Hst as <-. eauto.
  - by eexists _, _.
Qed.

(** The notification stands at the readings from [n] on: the peer is still bound, the source shows a
    snapshot with the token of the report, both leases run, and the deadline is not reached. *)
Definition stands_at (n : nat) (p : Notification) : Prop :=
  let st := s_stamp (n_snapshot p) in
  world_binding n = binding ∧
  (∃ a, world_source (1 + n) = Some a ∧ token (s_stamp a) = token st ∧
    observed_at st ≤ world_clock (2 + n) < valid_until st ∧
    observed_at (s_stamp a) ≤ world_clock (2 + n) < valid_until (s_stamp a)) ∧
  world_clock (3 + n) < n_deadline p.

Lemma drop_pending_pending event s s' : drop_pending event s = (Ok tt, s') → c_pending s' = None.
Proof. by intros [= <-]. Qed.

Lemma ack_expire_pending s s' p :
  ack_expire binding s = (Ok tt, s') → c_pending s' = Some p →
  c_pending s = Some p ∧ stands_at (asked (c_io s)) p.
Proof.
  unfold ack_expire, mbind at 1, M_mbind at 1, get. destruct (c_pending s) as [q|] eqn:Hq; [|intros [= <-]; congruence].
  unfold mbind at 1, M_mbind at 1, c_on_io at 1.
  destruct (c_stamp_run (c_io s)) as (current & i & -> & Hcur).
  cbn beta iota zeta. unfold mbind at 1, M_mbind at 1, c_on_io at 1, clock at 1. cbn beta iota zeta.
  destruct (stamp_check _ _ _) as [u|e] eqn:Es; [|intros ->%drop_pending_pending; done].
  apply stamp_check_Ok in Es as (st & Hst & Htok & Hown & Hcurr).
  apply Hcur in Hst as (Hb & Hi & a & Ha & ->).
  unfold mbind at 1, M_mbind at 1, c_on_io at 1, clock at 1. cbn beta iota zeta.
  case_bool_decide as Hd; [intros ->%drop_pending_pending; done|].
  intros [= <-]. simpl in *. rewrite Hq. intros [= <-]. rewrite Hi in *.
  split; [done|]. split; [done|]. split; [eauto|by apply Z.nle_gt].
Qed.

(** The TLVs that report an error in an acknowledgment. *)
Definition error_tlv (t : Tlv) : Prop := Cmdu.kind t ∈ [0xA3; 0xBC].

Lemma c_ack_acknowledged message s s' :
  c_ack binding message s = (Ok "early_acknowledged", s') →
  c_pending s' = None ∧ ∃ p, c_pending s = Some p ∧ m_mid message ∈ n_mids p ∧
    Forall (λ t, ¬ error_tlv t) (m_tlvs message) ∧ stands_at (asked (c_io s)) p.
Proof.
  unfold c_ack. rewrite M_bind_Ok. intros ([] & s1 & He & Hr).
  unfold mbind at 1, M_mbind at 1, get in Hr. cbn beta iota in Hr.
  destruct (c_pending s1) as [p|] eqn:Hp; [|by injection Hr].
  case_bool_decide as Hm; simpl in Hr; [|by injection Hr].
  destruct (existsb _ _) eqn:Ex; [by injection Hr|].
  injection Hr as <-. split; [done|]. destruct (ack_expire_pending _ _ _ He Hp) as [Hs Ht].
  exists p. split; [done|]. split; [done|]. split; [|done]. apply Forall_forall. intros t Hin Herr.
  apply not_true_iff_false in Ex. apply Ex, existsb_exists. exists t.
  split; [by apply list_elem_of_In|by apply bool_decide_eq_true].
Qed.

(** A query is not taken for an acknowledgment. *)
Lemma c_query_result message at_ ing gen s ev s' :
  c_query binding message_set message at_ ing gen s = (Ok ev, s') → ev ≠ "early_acknowledged".
Proof.
  unfold c_query. intros (u & s1 & _ & Hr)%M_bind_Ok. apply M_bind_Ok in Hr as (s2 & s3 & [= <- <-] & Hr).
  destruct (bool_decide _); [by injection Hr as <-|].
  apply M_bind_Ok in Hr as (now & s4 & _ & Hr). apply M_bind_Ok in Hr as (u1 & s5 & _ & Hr).
  apply M_bind_Ok in Hr as (s6 & s7 & [= <- <-] & Hr). destruct (_ || _); [by injection Hr as <-|].
  apply M_bind_Ok in Hr as (u2 & s8 & _ & Hr). unfold answer_query in Hr.
  apply M_bind_Ok in Hr as (s9 & s10 & _ & Hr). apply M_bind_Ok in Hr as (a & s11 & _ & Hr).
  apply M_bind_Ok in Hr as (t & s12 & _ & Hr). apply M_bind_Ok in Hr as (report & s13 & _ & Hr).
  unfold try_else in Hr. destruct (c_on_io _ s13) as [[k|e] s14]; [by injection Hr as <-|done].
Qed.

(** What [receive] took for an acknowledgment. *)
Lemma receive_acknowledged frame ing gen s s' :
  receive binding message_set frame ing gen s = (Ok "early_acknowledged", s') →
  let n := asked (c_io s) in
  c_pending s' = None ∧
  ∃ p message,
    (feed (world_clock n) (world_clock (1 + n)) frame ing (c_assembly s)).1 = Ok (Some message) ∧
    m_message_type message = 0x8000 ∧ m_relay message = false ∧
    Forall (λ t, ¬ error_tlv t ∧ Cmdu.kind t ∉ SECURITY_ENVELOPES) (m_tlvs message) ∧
    c_pending s = Some p ∧ m_mid message ∈ n_mids p ∧ stands_at (3 + n) p.
Proof.
  intros Hr n. unfold receive, mbind at 1, M_mbind at 1, get in Hr. cbn beta iota in Hr.
  destruct (c_closed s); [by injection Hr|]. unfold try_else in Hr.
  destruct (c_dispatch binding message_set frame ing gen s) as [[ev|e] s1] eqn:Ed.
  2:{ destruct (bool_decide _); by injection Hr. }
  injection Hr as -> <-. revert Ed. unfold c_dispatch.
  intros (fragment & s2 & [= _ <-] & Hr)%M_bind_Ok. apply M_bind_Ok in Hr as ([] & s3 & [= _ <-] & Hr).
  destruct (negb _); [by injection Hr|].
  apply M_bind_Ok in Hr as (t0 & s4 & [= <- <-] & Hr). apply M_bind_Ok in Hr as (t1 & s5 & [= <- <-] & Hr).
  apply M_bind_Ok in Hr as ([message|] & s6 & Hf & Hr); [|by injection Hr].
  unfold c_on_assembly in Hf. simpl in Hf. destruct (feed _ _ _ _ _) as [rf ra] eqn:Ef. injection Hf as -> <-.
  apply M_bind_Ok in Hr as (at_ & s7 & [= <- <-] & Hr). apply M_bind_Ok in Hr as ([] & s8 & [= Henv <-] & Hr).
  apply raise_if_Ok, orb_false_iff in Henv as [Hrel Henv].
  case_bool_decide as Hty; [|by apply c_query_result in Hr].
  apply c_ack_acknowledged in Hr as (Hn & p & Hp & Hm & Herr & Ht). split; [done|].
  exists p, message. split; [by apply (f_equal fst) in Ef|]. do 2 (split; [done|]). split; [|done].
  apply Forall_forall. intros t Hin. split; [by eapply Forall_forall in Herr|]. intros Hk.
  apply not_true_iff_false in Henv. apply Henv, existsb_exists. exists t.
  split; [by apply list_elem_of_In|by apply bool_decide_eq_true].
Qed.

(** ** The budget of responses *)

Definition responses (s : Coordinator) : Z := default 0 (c_counts s !! "topology_response_sent").

(** Neither the budget nor the responses change. *)
Definition quiet (s0 s : Coordinator) : Prop :=
  tokens s = tokens s0 ∧ token_time s = token_time s0 ∧ responses s = responses s0 ∧ later (c_io s0) (c_io s).

Lemma quiet_stable s0 : stable (quiet s0).
Proof. intros s i (? & ? & ? & ?) ?. split; [done|]. split; [done|]. split; [done|]. by etrans. Qed.

Lemma quiet_record s0 event mid :
  event ≠ "topology_response_sent" → keeps (quiet s0) (c_record event mid).
Proof.
  intros He. apply keeps_bind; [apply keeps_modify|intros; apply keeps_mret].
  intros s (? & ? & Hr & ?). split; [done|]. split; [done|]. split; [|done].
  rewrite <- Hr. unfold responses, count. simpl. by rewrite lookup_insert_ne.
Qed.

Lemma quiet_assembly {A} s0 (m : M Reassembler A) : keeps (quiet s0) (c_on_assembly m).
Proof. intros s Hs. unfold c_on_assembly. by destruct (m (c_assembly s)) as [[a|e] r]. Qed.

Lemma quiet_modify s0 f :
  (∀ s, tokens (f s) = tokens s ∧ token_time (f s) = token_time s ∧ c_counts (f s) = c_counts s ∧ c_io (f s) = c_io s) →
  keeps (quiet s0) (modify f).
Proof.
  intros Hf. apply keeps_modify. intros s. destruct (Hf s) as (E1 & E2 & E3 & E4).
  unfold quiet, responses. by rewrite E1, E2, E3, E4.
Qed.

(** Walk through code that spends nothing. *)
Ltac solve_quiet :=
  repeat match goal with
  | |- keeps _ (mret _) => apply keeps_mret
  | |- keeps _ (lift _) => apply keeps_lift
  | |- keeps _ (raise _ _) => apply keeps_raise
  | |- keeps _ (c_on_assembly _) => apply quiet_assembly
  | |- keeps _ (c_record _ _) => apply quiet_record; first [discriminate|assumption]
  | |- keeps _ (c_on_io _) =>
      apply keeps_on_io; [apply quiet_stable|first [apply forward_clock|apply forward_c_stamp|apply forward_c_facts
        |apply forward_send, forward_c_stamp]]
  | |- keeps _ (modify _) => apply quiet_modify; done
  | |- keeps _ (put _) => fail 1
  | |- keeps _ (get ≫= _) => apply keeps_get; intros ?
  | |- keeps _ (_ ≫= _) => apply keeps_bind; [|intros ?]
  | |- keeps _ (try_else _ _ _) => apply keeps_try; [|intros ?|intros ?]
  | |- keeps _ (match ?x with _ => _ end) => destruct x eqn:?
  | |- keeps _ _ => solve [eauto with quiet]
  end.

Lemma quiet_drop s0 event : event ≠ "topology_response_sent" → keeps (quiet s0) (drop_pending event).
Proof. intros He. unfold drop_pending. solve_quiet. Qed.
#[local] Hint Extern 1 (keeps (quiet _) (drop_pending _)) => apply quiet_drop; discriminate : quiet.

Lemma quiet_early_report s0 p : keeps (quiet s0) (c_early_report binding p).
Proof.
  unfold c_early_report. apply keeps_bind; [solve_quiet|]. intros now.
  apply hoare_get_bind. intros s Hs. destruct (early_report _ _ _ _ _) as [[r|e] m]; by intros s' ->.
Qed.
#[local] Hint Resolve quiet_early_report : quiet.

Lemma quiet_transmit s0 p : keeps (quiet s0) (transmit_early binding p).
Proof. unfold transmit_early. solve_quiet. Qed.
#[local] Hint Resolve quiet_transmit : quiet.

Lemma quiet_notify s0 : keeps (quiet s0) (notify_early binding).
Proof. unfold notify_early. solve_quiet. Qed.
Lemma quiet_tick s0 : keeps (quiet s0) (tick binding).
Proof. unfold tick, retry_early. solve_quiet. Qed.
Lemma quiet_ack s0 message : keeps (quiet s0) (c_ack binding message).
Proof. unfold c_ack, ack_expire. solve_quiet. Qed.
#[local] Hint Resolve quiet_tick quiet_ack : quiet.

(** The bucket of [_query]: four tokens a second from eight, one for each response; [k] tokens are
    taken for responses not yet sent. *)
Hypothesis clock_monotone : ∀ n m, (n ≤ m)%nat → world_clock n ≤ world_clock m.

Definition rate_ok (t0 k : Z) (s : Coordinator) : Prop :=
  seconds (responses s + k) + tokens s ≤ seconds 8 + 4 * (token_time s - t0) ∧
  token_time s ≤ world_clock (asked (c_io s)).

Lemma rate_quiet t0 k s0 s : rate_ok t0 k s0 → quiet s0 s → rate_ok t0 k s.
Proof.
  intros [Hr Ht] (E1 & E2 & E3 & [E4 _]). unfold rate_ok. rewrite E1, E2, E3. split; [done|].
  etrans; [exact Ht|by apply clock_monotone].
Qed.

Lemma quiet_refl s : quiet s s.
Proof. by split. Qed.

Lemma rate_keeps {A} t0 k (m : M Coordinator A) : (∀ s0, keeps (quiet s0) m) → keeps (rate_ok t0 k) m.
Proof.
  intros Hm s Hs. specialize (Hm s s (quiet_refl s)). destruct (m s) as [[a|e] s']; by eapply rate_quiet.
Qed.

Lemma rate_weaken t0 s : rate_ok t0 1 s → rate_ok t0 0 s.
Proof. intros [? ?]. split; [unfold seconds in *; lia|done]. Qed.

Lemma answer_query_rate t0 message at_ ing gen :
  hoare (rate_ok t0 1) (answer_query binding message_set message at_ ing gen) (λ _, rate_ok t0 0) (λ _, rate_ok t0 0).
Proof.
  assert (Hq : ∀ {A} (m : M Coordinator A), (∀ s0, keeps (quiet s0) m) →
    hoare (rate_ok t0 1) m (λ _, rate_ok t0 1) (λ _, rate_ok t0 0)).
  { intros A m Hm. eapply hoare_weaken; [by apply (rate_keeps t0 1)|done|done|intros e; apply rate_weaken]. }
  unfold answer_query. apply hoare_get_bind. intros s Hs. eapply hoare_pre; [|intros ? ->; exact Hs].
  eapply hoare_bind; [apply Hq; intros; solve_quiet|]. intros a.
  eapply hoare_bind; [apply Hq; intros; solve_quiet|]. intros now.
  eapply hoare_bind; [apply Hq; intros; solve_quiet|]. intros report.
  eapply hoare_try; [apply (rate_keeps t0 1); intros; solve_quiet| |].
  - intros k. eapply hoare_bind with (R := λ _, rate_ok t0 0); [|intros; apply keeps_mret].
    apply hoare_modify. intros s1 [Hr Ht]. split; [|done]. unfold responses, count in *. simpl.
    rewrite lookup_insert_eq. simpl. unfold seconds in *. lia.
  - intros e. eapply hoare_pre; [|intros ?; apply rate_weaken]. apply (rate_keeps t0 0). intros. solve_quiet.
Qed.

Lemma c_query_rate t0 message at_ ing gen : keeps (rate_ok t0 0) (c_query binding message_set message at_ ing gen).
Proof.
  apply keeps_bind; [apply rate_keeps, quiet_tick|]. intros _. apply keeps_get. intros s0.
  case_bool_decide; [apply rate_keeps; intros; solve_quiet|].
  apply hoare_bind with (R := λ now s, rate_ok t0 0 s ∧ token_time s ≤ now ≤ world_clock (asked (c_io s))).
  { intros s [Hr Ht]. unfold c_on_io, clock. simpl.
    assert (world_clock (asked (c_io s)) ≤ world_clock (S (asked (c_io s)))) by (apply clock_monotone; lia).
    repeat split; simpl; [done|lia|done|done]. }
  intros now. apply hoare_bind with (R := λ _, rate_ok t0 0).
  { apply hoare_modify. intros s [[Hr _] Ht]. split; unfold responses in *; simpl in *; [unfold seconds in *; lia|lia]. }
  intros _. apply hoare_get_bind. intros s Hs. destruct (_ || _).
  - eapply hoare_pre; [apply rate_keeps; intros; solve_quiet|by intros ? ->].
  - eapply hoare_bind with (R := λ _, rate_ok t0 1); [|intros _; apply answer_query_rate].
    apply hoare_modify. intros ? ->. destruct Hs as [Hr Ht]. split; [|done].
    unfold responses in *. simpl in *. unfold seconds in *. lia.
Qed.

Lemma receive_rate t0 frame ing gen : keeps (rate_ok t0 0) (receive binding message_set frame ing gen).
Proof.
  apply keeps_get. intros s0. destruct (c_closed s0); [apply rate_keeps; intros; solve_quiet|].
  apply keeps_try; [|intros; apply keeps_mret|intros e; apply rate_keeps; intros; solve_quiet].
  unfold c_dispatch. apply keeps_bind; [apply keeps_lift|]. intros fragment.
  apply keeps_bind; [apply keeps_lift|]. intros _. destruct (negb _); [apply rate_keeps; intros; solve_quiet|].
  do 3 (apply keeps_bind; [apply rate_keeps; intros; solve_quiet|]; intros ?).
  match goal with m : option Message |- _ => destruct m as [message|] end; [|apply keeps_mret].
  apply keeps_bind; [apply rate_keeps; intros; solve_quiet|]. intros at_.
  apply keeps_bind; [apply keeps_lift|]. intros _.
  case_bool_decide; [apply rate_keeps; intros; apply quiet_ack|apply c_query_rate].
Qed.

Lemma c_serve_rate t0 s l : rate_ok t0 0 s → rate_ok t0 0 (foldl c_serve s l).
Proof.
  revert s. induction l as [|i l IH]; intros s Hs; [done|]. simpl. apply IH.
  destruct i; simpl; [apply keeps_snd, Hs; apply receive_rate| | |done]; apply keeps_snd, Hs; apply rate_keeps;
    intros; [apply quiet_tick|apply quiet_notify].
Qed.
End Theory.

(** * Properties *)

(** C15: an early report is acknowledged only when it was sent, and only by an acknowledgment of it
    in time. Whatever frames arrive and whatever the source, the clock and the link do, from the start
    of a coordinator on: when [receive] counts an acknowledgment, the frame it was given completes a
    message of type 0x8000 that has no error TLV (0xA3, 0xBC) and no relay or security envelope; the
    identifier of that very message is one the pending notification was sent under, at most three of
    them, and under it the whole report had been handed to the link, in one run of frames; the facts of
    the report were shown by the source; and at the readings this call makes after taking the message,
    in order, the peer is still the bound one, the source shows a snapshot with the token of the
    report, the leases of the report and of that snapshot run, and the deadline, which is not after the
    end of the lease, is not reached. Nothing is pending afterwards. *)
Theorem acknowledged_report_was_sent `{World} binding message_set previous io inputs frame ing gen s' :
  let s := foldl (c_serve binding message_set) (c_init previous io) inputs in
  let n := asked (c_io s) in
  receive binding message_set frame ing gen s = (Ok "early_acknowledged", s') →
  c_pending s' = None ∧
  ∃ p message,
    (feed (world_clock n) (world_clock (1 + n)) frame ing (c_assembly s)).1 = Ok (Some message) ∧
    m_message_type message = 0x8000 ∧ m_relay message = false ∧
    Forall (λ t, ¬ error_tlv t ∧ Cmdu.kind t ∉ SECURITY_ENVELOPES) (m_tlvs message) ∧
    c_pending s = Some p ∧ 1 ≤ transmissions p ≤ 3 ∧ Z.of_nat (size (n_mids p)) ≤ transmissions p ∧
    m_mid message ∈ n_mids p ∧ report_sent binding (c_io s) p (m_mid message) ∧
    (∃ k, world_source k = Some (n_snapshot p)) ∧
    stands_at binding (3 + n) p ∧ n_deadline p ≤ valid_until (s_stamp (n_snapshot p)).
Proof.
  intros s n Hr. assert (Hok : coordinator_ok binding s) by (apply c_serve_all_ok, c_init_ok).
  clearbody s. destruct (receive_acknowledged _ _ _ _ _ _ _ Hr) as (Hn & p & message & Hf & Hty & Hrel & Htl & Hp & Hm & Hst).
  split; [done|]. exists p, message. destruct Hok as [_ _ _ _ Hpend _].
  destruct (Hpend p Hp) as [Htr Hsz Hdl Hsh Hs].
  assert (size (n_mids p) ≠ 0%nat) by (intros E%size_empty_inv; set_solver).
  do 5 (split; [done|]). split; [lia|]. split; [done|]. split; [done|]. split; [by apply Hs|]. by split.
Qed.

(** A report is sent at start, its acknowledgment arrives 300 milliseconds later. *)
Definition cex_snapshot : ReportSnapshot :=
  mkReportSnapshot (mkReportStamp "i/0/1/1" 0 2000) example_caps example_facts "i/0/1" [] None None (Some 1) [].
Definition cex_world : World :=
  {| world_clock := λ n, 10 * Z.of_nat n; world_binding := λ _, example_binding;
     world_source := λ _, Some cex_snapshot; world_link := λ _, true |}.
Definition cex_frames (kind mid : Z) (tlvs : list Tlv) : list bytes :=
  match fragment_message (octets [2; 0; 0; 0; 0; 9]) (octets [2; 0; 0; 0; 0; 8]) kind mid tlvs false MAX_CMDU with
  | Ok fs => fs
  | Raise _ => []
  end.
Definition cex_ack : bytes := default [] (head (cex_frames 0x8000 7 [])).
Definition cex_start : Coordinator :=
  foldl (@c_serve cex_world example_binding EASYMESH_61) (@c_init cex_world 6 (mkIo 0 [])) [NotifyEarly].
Definition cex_run : result string * Coordinator :=
  @receive cex_world example_binding EASYMESH_61 cex_ack "eth0" 1 cex_start.

Lemma acknowledged_report_was_sent_witness :
  cex_run.1 = Ok "early_acknowledged" ∧ c_pending cex_run.2 = None ∧
  ∃ p message, c_pending cex_start = Some p ∧ m_mid message ∈ n_mids p ∧
    @report_sent example_binding (c_io cex_start) p (m_mid message) ∧
    @stands_at cex_world example_binding (3 + asked (c_io cex_start)) p.
Proof.
  assert (E : @receive cex_world example_binding EASYMESH_61 cex_ack "eth0" 1
      (foldl (@c_serve cex_world example_binding EASYMESH_61) (@c_init cex_world 6 (mkIo 0 [])) [NotifyEarly])
    = (Ok "early_acknowledged", cex_run.2)) by (vm_compute; reflexivity).
  split; [vm_compute; reflexivity|].
  destruct (@acknowledged_report_was_sent cex_world example_binding EASYMESH_61 6 (mkIo 0 []) [NotifyEarly]
    cex_ack "eth0" 1 _ E) as (Hn & p & message & _ & _ & _ & _ & Hp & _ & _ & Hm & Hs & _ & Hst & _).
  split; [exact Hn|]. exists p, message. split; [exact Hp|]. split; [exact Hm|]. split; [exact Hs|exact Hst].
Defined.

(** C16: the budget of Topology Responses. However many queries arrive, a coordinator sends at most
    eight responses and four more for each second since it was made; it remembers at most 128 queries
    and 64 events, and its reassembler stays within its own budgets. *)
Theorem responses_within_budget `{World} binding message_set previous io inputs :
  (∀ n m, (n ≤ m)%nat → world_clock n ≤ world_clock m) →
  let s := foldl (c_serve binding message_set) (c_init previous io) inputs in
  1000 * responses s ≤ 8000 + 4 * (world_clock (asked (c_io s)) - world_clock (asked io)) ∧
  (size (c_queries s) ≤ 128)%nat ∧ (length (c_events s) ≤ 64)%nat ∧ reassembler_ok (c_assembly s).
Proof.
  intros Hmono s. assert (Hok : coordinator_ok binding s) by (apply c_serve_all_ok, c_init_ok).
  assert (Hr : rate_ok (world_clock (asked io)) 0 s).
  { apply c_serve_rate; [done|]. split; [unfold seconds, responses; simpl; rewrite lookup_empty; simpl; unfold seconds; lia|]. simpl. apply Hmono. lia. }
  clearbody s. destruct Hok as [? Htk ? ? _ _], Hr as [Hr Ht]. unfold seconds in *. split; [lia|done].
Qed.

(** Nine queries at once: eight are answered, the ninth is over the budget. *)
Definition cex_query (mid : Z) : bytes := default [] (head (cex_frames 2 mid [mkTlv 0xB3 (octets [1])])).
Definition cex_still : World :=
  {| world_clock := λ _, 0; world_binding := λ _, example_binding; world_source := λ _, Some cex_snapshot;
     world_link := λ _, true |}.
Definition cex_queries : list c_input := (λ n, Frame (cex_query (Z.of_nat n)) "eth0" 1) <$> seq 100 9.

Lemma responses_within_budget_witness :
  let s := foldl (@c_serve cex_still example_binding EASYMESH_61) (@c_init cex_still 6 (mkIo 0 [])) cex_queries in
  responses s = 8 ∧ c_counts s !! "query_budget_exhausted" = Some 1 ∧ 1000 * responses s ≤ 8000 + 4 * (0 - 0).
Proof.
  intros s. split; [vm_compute; reflexivity|]. split; [vm_compute; reflexivity|].
  exact (proj1 (@responses_within_budget cex_still example_binding EASYMESH_61 6 (mkIo 0 []) cex_queries
    (λ _ _ _, Z.le_refl 0))).
Defined.
