(* ===== verification/ChannelCoordinator.v ===== *)
(** * The channel coordinator: class [ChannelCoordinator] of [src/emosa/wire/channel.py]

    Channel preference queries, selection and scan requests, the requests that wait for the first
    measurement, and the Operating Channel Report with its retries and its acknowledgment. The clock,
    the source and the link are the [World] of [Session]; the database and the encoder of
    [ChannelPolicyStore] are outside. *)

From S2P Require Import Prelude Bytes Cmdu Reassembly Payloads TopologyValues Reports Channel ReportSource Session.

(** [PendingOperating] *)
Record PendingOperating := mkPendingOperating {
  po_radios : list OperatingRadio;
  po_context : string;
  po_deadline : Z;
  retry_at : Z;
  po_mids : gset Z;
  po_transmissions : Z
}.
#[export] Instance eta_PendingOperating : Eta PendingOperating := λ p,
  mkPendingOperating (po_radios p) (po_context p) (po_deadline p) (retry_at p) (po_mids p) (po_transmissions p).

(** The record [ChannelPolicyStore] keeps: the default, or the accepted policies of a request. *)
Inductive SavedPolicy :=
  | RebootDefault
  | AcceptedPolicy (mid : Z) (radios : list Policy) (context : string).

Definition request_key : Type := Z * Z.

Record ChannelState := mkChannelState {
  k_io : Io;
  k_mids : Z;
  k_pending : option PendingOperating;
  last_decline : option (Z * option string);
  last_operating : option (list OperatingRadio);
  k_queries : gmap request_key Z;
  waiting : list (request_key * (Message * Z * string));   (* in the order of insertion *)
  k_counts : gmap string Z;
  k_closed : bool;
  k_assembly : Reassembler;
  stored : SavedPolicy
}.
#[export] Instance eta_ChannelState : Eta ChannelState := λ s,
  mkChannelState (k_io s) (k_mids s) (k_pending s) (last_decline s) (last_operating s) (k_queries s) (waiting s)
    (k_counts s) (k_closed s) (k_assembly s) (stored s).

Definition k_on_io {A} (m : M Io A) : M ChannelState A := λ s,
  let '(r, i) := m (k_io s) in (r, s <| k_io := i |>).
Definition k_on_assembly {A} (m : M Reassembler A) : M ChannelState A := λ s,
  let '(r, a) := m (k_assembly s) in (r, s <| k_assembly := a |>).

(** [del self.waiting[key]], [self.waiting.pop(key, None)] *)
Definition waiting_drop (key : request_key) (s : ChannelState) : ChannelState :=
  s <| waiting := filter (λ kv, kv.1 ≠ key) (waiting s) |>.

(** [self.waiting[key] = value] *)
Definition waiting_set (key : request_key) (value : Message * Z * string) (s : ChannelState) : ChannelState :=
  s <| waiting := if bool_decide (key ∈ (waiting s).*1)
                  then (λ kv, if bool_decide (kv.1 = key) then (key, value) else kv) <$> waiting s
                  else waiting s ++ [(key, value)] |>.

(** [unmeasured(snapshot)] *)
Definition unmeasured (a : ReportSnapshot) : bool :=
  existsb (λ c, negb (bool_decide (basic_ruid (basic c) ∈ (o_ruid <$> operating_radios a)))) (cap_radios (capabilities a)).

(** The loop body of [radios]: one capability with its measurement. *)
Definition sole_channel_radio (measured : list OperatingRadio) (cap : EarlyRadio) : result OperatingRadio :=
  match by_ruid measured (basic_ruid (basic cap)) with
  | None => Raise (key_error "ruid")
  | Some radio =>
      let classes := basic_classes (basic cap) in
      _ ← raise_if (negb (bool_decide (operating_class <$> classes = advertised (o_class radio)))
                    || existsb (λ c, negb (bool_decide
                         (list_to_set (non_operable_channels c) =@{gset Z}
                          list_to_set (default [] (CLASS_CHANNELS (operating_class c))) ∖ {[o_channel radio]}))) classes)
            UNSUPPORTED_OPERATION "a sole-channel capability contract is required";
      _ ← raise_if (existsb (λ c, bool_decide (max_eirp_dbm c < tx_power_dbm radio)) classes)
            NOT_READY "observed power exceeds advertised capability";
      Ok radio
  end.

(** [radios(snapshot)] *)
Definition snapshot_radios (a : ReportSnapshot) : result (list OperatingRadio) :=
  _ ← raise_if (bool_decide (length (operating_radios a) = 0%nat) || unmeasured a)
        NOT_READY "measured operating parameters unavailable";
  _ ← raise_if (negb (bool_decide (size (list_to_set (o_ruid <$> operating_radios a) : gset bytes)
                                   = length (cap_radios (capabilities a)))))
        NOT_READY "channel capability identity mismatch";
  map_result (sole_channel_radio (operating_radios a)) (cap_radios (capabilities a)).

(** The results of [scan]: "scan not supported" for every requested channel of a radio of the agent. *)
Definition scan_results (radios : list OperatingRadio) (requested : list (bytes * list (Z * list Z))) : list Tlv :=
  requested ≫= λ rc,
    match by_ruid radios rc.1 with
    | None => []
    | Some radio =>
        (if bool_decide (length rc.2 = 0%nat) then [(o_class radio, [o_channel radio])] else rc.2) ≫= λ oc,
          (λ channel, mkTlv 0xA7 (rc.1 ++ octets [oc.1; channel; 0x01])) <$>
            (if bool_decide (length oc.2 = 0%nat)
             then (if bool_decide (oc.1 = o_class radio) then [o_channel radio] else []) else oc.2)
    end.

Section Coordinator.
(** Outside: [encoded_length], the length of the JSON text of a record; [disk], whether the database
    takes the write; [utc], the octets of the time stamp. *)
Context `{World} (binding : PeerBinding) (encoded_length : SavedPolicy → Z) (disk : nat → bool) (utc : nat → bytes).

(** [record(event)] *)
Definition k_record (event : string) : M ChannelState string :=
  _ ← modify (λ s, s <| k_counts := count event (k_counts s) |>); mret event.

(** [snapshot()] *)
Definition k_snapshot_of (closed : bool) : M Io ReportSnapshot :=
  current ← poll;
  if closed then raise NOT_READY "channel report source lost"
  else
    b ← poll_binding;
    match current with
    | Some a => if bool_decide (b = binding) then mret a else raise NOT_READY "channel report source lost"
    | None => raise NOT_READY "channel report source lost"
    end.
Definition k_snapshot : M ChannelState ReportSnapshot := s ← get; k_on_io (k_snapshot_of (k_closed s)).

(** [send(kind, mid, tlvs, snapshot, deadline)] *)
Definition k_send (kind mid : Z) (tlvs : list Tlv) (from : ReportSnapshot) (limit : Z) : M ChannelState unit :=
  s ← get; k_on_io (deliver binding (k_snapshot_of (k_closed s)) kind mid tlvs from limit).

(** [self.mids.next()] *)
Definition k_next_mid : M ChannelState Z := λ s,
  let m := next_mid (k_mids s) in (Ok m, s <| k_mids := m |>).

(** [ChannelPolicyStore.save(value)]; a database error is re-raised by the caller as [NOT_READY] *)
Definition save (value : SavedPolicy) : M ChannelState unit :=
  _ ← lift (raise_if (bool_decide (8192 < encoded_length value)) INVALID_INPUT
              "channel policy exceeds durable record budget");
  s ← get;
  if disk (asked (k_io s))
  then put (s <| k_io := k_io s <| asked := S (asked (k_io s)) |> |> <| stored := value |>)
  else _ ← put (s <| k_io := k_io s <| asked := S (asked (k_io s)) |> |>);
       raise NOT_READY "channel preference persistence failed".

(** [transmit(snapshot)] *)
Definition transmit (a : ReportSnapshot) (pending : PendingOperating) : M ChannelState unit :=
  mid ← k_next_mid;
  _ ← k_send 0x8008 mid (operating_tlv <$> po_radios pending) a (po_deadline pending);
  now ← k_on_io clock;
  _ ← modify (λ s, s <| k_pending := (λ p, p <| po_mids := {[mid]} ∪ po_mids p |>
                                             <| po_transmissions := po_transmissions p + 1 |>
                                             <| retry_at := now + 300 |>) <$> k_pending s |>);
  _ ← k_record "operating_channel_report_sent";
  mret tt.

(** [notify(snapshot, radios)] *)
Definition notify (a : ReportSnapshot) (radios : list OperatingRadio) : M ChannelState unit :=
  _ ← for_each (λ r, if bound r then _ ← k_record "operating_power_bound_reported"; mret tt else mret tt) radios;
  now ← k_on_io clock;
  let pending := mkPendingOperating radios (context_token a) (now + seconds 1) now ∅ 0 in
  _ ← modify (λ s, s <| k_pending := Some pending |>);
  _ ← transmit a pending;
  modify (λ s, s <| last_operating := Some radios |>).

(** [moved()] *)
Definition moved (s : ChannelState) : ChannelState :=
  match last_operating s with None => s <| last_operating := Some [] |> | Some _ => s end.

(** The answer to a Channel Preference Query. *)
Definition answer_preference (message : Message) (received_at : Z) (a : ReportSnapshot) : M ChannelState string :=
  _ ← lift (raise_if (negb (bool_decide (length (m_tlvs message) = 0%nat))) INVALID_INPUT
              "channel preference query must not carry configuration");
  _ ← k_send 0x8005 (m_mid message) [] a (received_at + seconds 1);
  now ← k_on_io clock;
  _ ← modify (λ s, s <| k_queries := <[(m_message_type message, m_mid message) := now + seconds 5]> (k_queries s) |>);
  k_record "channel_preference_report_sent".

(** [p["decline"]] *)
Definition is_declined (p : Policy) : bool := match pl_decline p with Some _ => true | None => false end.

(** [b"\x02" if p["decline"] else b"\0"] *)
Definition selection_response (p : Policy) : Tlv :=
  mkTlv 0x8E (pl_ruid p ++ octets [if is_declined p then 0x02 else 0x00]).

(** The answer to a Channel Selection Request, once it is judged. *)
Definition answer_selected (message : Message) (received_at : Z) (a : ReportSnapshot) (radios : list OperatingRadio)
    (policies : list Policy) : M ChannelState string :=
  current ← k_snapshot;
  now ← k_on_io clock;
  _ ← lift (stamp_check (s_stamp a) (Some (s_stamp current)) now);
  now ← k_on_io clock;
  _ ← lift (raise_if (bool_decide (received_at + seconds 1 ≤ now)) NOT_READY "channel response deadline expired");
  let accepted := filter (λ p, is_declined p = false) policies in
  let declined := filter (λ p, is_declined p = true) policies in
  _ ← (if bool_decide (length accepted = 0%nat) then mret tt
       else save (AcceptedPolicy (m_mid message) accepted (context_token a)));
  _ ← match declined with
      | [] => mret tt
      | p :: _ => modify (λ s, s <| last_decline := Some (m_mid message, pl_decline p) |>)
      end;
  _ ← k_send 0x8007 (m_mid message) (selection_response <$> policies) a (received_at + seconds 1);
  now ← k_on_io clock;
  _ ← modify (λ s, s <| k_queries := <[(m_message_type message, m_mid message) := now + seconds 5]> (k_queries s) |>);
  result ← k_record (if bool_decide (length declined = 0%nat) then "channel_selection_accepted"
                     else "channel_selection_declined");
  _ ← notify a radios;
  mret result.

(** The answer to a Channel Selection Request. *)
Definition answer_selection (message : Message) (received_at : Z) (a : ReportSnapshot) : M ChannelState string :=
  radios ← lift (snapshot_radios a);
  policies ← lift (selected_policy (m_tlvs message) radios);
  answer_selected message received_at a radios policies.

(** [answer(message, received_at, snapshot)] *)
Definition answer (message : Message) (received_at : Z) (a : ReportSnapshot) : M ChannelState string :=
  if bool_decide (m_message_type message = 0x8004) then answer_preference message received_at a
  else answer_selection message received_at a.

(** [except EmosaError]: an [OSError] passes. *)
Definition catch_emosa {A} (m : M ChannelState A) (h : EmosaError → M ChannelState A) : M ChannelState A :=
  try_else m mret (λ e, if bool_decide (e = os_error) then lift (Raise e) else h e).

(** One request of the loop of [tick] over those that wait. *)
Definition tick_waiting (now : Z) (entry : request_key * (Message * Z * string)) : M ChannelState unit :=
  let '(key, (message, received_at, context)) := entry in
  if bool_decide (received_at + seconds 1 ≤ now) then
    _ ← modify (waiting_drop key);
    _ ← k_record "channel_observation_wait_expired";
    mret tt
  else
    catch_emosa
      (a ← k_snapshot;
       _ ← lift (raise_if (negb (bool_decide (context_token a = context))) NOT_READY "queued channel context changed");
       if unmeasured a then mret tt
       else
         _ ← modify (waiting_drop key);
         _ ← answer message received_at a;
         mret tt)
      (λ e, _ ← modify (waiting_drop key);
            _ ← k_record ("queued_channel_rejected_" +:+ reason_value (code e));
            mret tt).

(** The end of [tick] when nothing is pending: an operating change is reported. *)
Definition tick_idle : M ChannelState unit :=
  s ← get;
  match last_operating s with
  | None => mret tt
  | Some before =>
      if k_closed s then mret tt
      else
        found ← catch_emosa (a ← k_snapshot; radios ← lift (snapshot_radios a); mret (Some (a, radios))) (λ _, mret None);
        match found with
        | None => mret tt
        | Some (a, radios) =>
            if bool_decide (radios = before) then mret tt
            else
              _ ← notify a radios;
              _ ← k_record "autonomous_operating_change_reported";
              mret tt
        end
  end.

(** The end of [tick] when a report is pending. *)
Definition tick_pending (now : Z) (pending : PendingOperating) : M ChannelState unit :=
  found ← catch_emosa
    (a ← k_snapshot;
     radios ← lift (snapshot_radios a);
     _ ← lift (raise_if (negb (bool_decide (context_token a = po_context pending))
                         || negb (bool_decide (radios = po_radios pending))) NOT_READY "operating report context changed");
     mret (Some a)) (λ _, mret None);
  match found with
  | None =>
      _ ← modify (λ s, s <| k_pending := None |>);
      _ ← k_record "operating_report_source_lost";
      mret tt
  | Some a =>
      if bool_decide (po_deadline pending ≤ now) then
        _ ← modify (λ s, s <| k_pending := None |>);
        _ ← k_record "operating_channel_ack_timeout";
        mret tt
      else if bool_decide (retry_at pending ≤ now) && bool_decide (po_transmissions pending < 3)
      then transmit a pending
      else mret tt
  end.

(** [tick()] *)
Definition k_tick : M ChannelState unit :=
  now ← k_on_io clock;
  _ ← modify (λ s, s <| k_queries := filter (λ kv, now < kv.2) (k_queries s) |>);
  t ← k_on_io clock;
  _ ← k_on_assembly (expire t);
  s ← get;
  _ ← for_each (tick_waiting now) (waiting s);
  s ← get;
  match k_pending s with
  | None => tick_idle
  | Some pending => tick_pending now pending
  end.

(** [scan(message, received_at)] *)
Definition scan (message : Message) (received_at : Z) : M ChannelState string :=
  _ ← k_tick;
  a ← k_snapshot;
  s ← get;
  let key := (m_message_type message, m_mid message) in
  if bool_decide (is_Some (k_queries s !! key)) then k_record "duplicate_channel_request"
  else
    now ← k_on_io clock;
    _ ← lift (raise_if (bool_decide (received_at + seconds 1 ≤ now)) NOT_READY "channel scan Ack deadline expired");
    radios ← lift (snapshot_radios a);
    requested ← lift (decode_scan_request (m_tlvs message));
    s ← get;
    let stamp := utc (asked (k_io s)) in
    _ ← k_send 0x8000 (m_mid message) [] a (received_at + seconds 1);
    now ← k_on_io clock;
    _ ← modify (λ s, s <| k_queries := <[key := now + seconds 5]> (k_queries s) |>);
    mid ← k_next_mid;
    now ← k_on_io clock;
    _ ← k_send 0x801C mid (mkTlv 0xA8 (octets [len stamp] ++ stamp) :: scan_results radios requested) a (now + seconds 1);
    k_record "channel_scan_not_supported_reported".

(** [handle(message, received_at)] *)
Definition k_handle (message : Message) (received_at : Z) : M ChannelState (option string) :=
  if bool_decide (m_message_type message = 0x801B) then Some <$> scan message received_at
  else if negb (bool_decide (m_message_type message ∈ [0x8004; 0x8006])) then mret None
  else
    _ ← k_tick;
    a ← k_snapshot;
    s ← get;
    let key := (m_message_type message, m_mid message) in
    if bool_decide (is_Some (k_queries s !! key)) || bool_decide (key ∈ (waiting s).*1)
    then Some <$> k_record "duplicate_channel_request"
    else if bool_decide (64 ≤ size (k_queries s) + length (waiting s))%nat
    then Some <$> k_record "channel_request_budget_exhausted"
    else
      now ← k_on_io clock;
      _ ← lift (raise_if (bool_decide (received_at + seconds 1 ≤ now)) NOT_READY "channel response deadline expired");
      if bool_decide (m_message_type message = 0x8006) && unmeasured a then
        if bool_decide (4 ≤ length (waiting s))%nat then Some <$> k_record "channel_observation_wait_budget_exhausted"
        else
          _ ← modify (waiting_set key (message, received_at, context_token a));
          Some <$> k_record "channel_waiting_for_observation"
      else Some <$> answer message received_at a.

(** [ack(frame, ingress=ingress, generation=generation)] *)
Definition k_ack (frame : bytes) (ingress : string) (generation : Z) : M ChannelState (option string) :=
  t0 ← k_on_io clock;
  t1 ← k_on_io clock;
  message ← k_on_assembly (feed t0 t1 frame ingress);
  match message with
  | None => mret None
  | Some message =>
      _ ← lift (binding_check binding (m_destination message) (m_source message) ingress generation);
      s ← get;
      match k_pending s with
      | None => mret None
      | Some pending =>
          if negb (bool_decide (m_mid message ∈ po_mids pending)) then mret None
          else
            a ← k_snapshot;
            now ← k_on_io clock;
            stale ← (if bool_decide (po_deadline pending ≤ now)
                        || negb (bool_decide (context_token a = po_context pending)) then mret true
                     else radios ← lift (snapshot_radios a); mret (negb (bool_decide (radios = po_radios pending))));
            if stale : bool then
              _ ← modify (λ s, s <| k_pending := None |>);
              Some <$> k_record "stale_operating_ack_rejected"
            else
              _ ← lift (raise_if (negb (bool_decide (m_message_type message = 0x8000)) || m_relay message
                                  || existsb (λ t, bool_decide (Cmdu.kind t ∈ SECURITY_ENVELOPES ++ [0xA3; 0xBC]))
                                       (m_tlvs message)) INVALID_INPUT "invalid operating channel acknowledgment");
              _ ← modify (λ s, s <| k_pending := None |>);
              Some <$> k_record "operating_channel_acknowledged"
      end
  end.

(** [close()] *)
Definition k_close (s : ChannelState) : ChannelState :=
  s <| k_closed := true |> <| k_pending := None |> <| waiting := [] |>.

(** [Reassembler(clock=clock, max_contexts=2, max_fragments=4, max_message_bytes=2048, max_bytes=4096)] *)
Definition k_assembly_init : Reassembler := mkReassembler (seconds 5) 2 4096 2048 4 ∅ 0.

(** [__init__], once the store took the default: [held] is what it holds *)
Definition k_init (previous : Z) (io : Io) (held : SavedPolicy) (reset_policy : bool) : ChannelState :=
  mkChannelState io previous None None None ∅ [] ∅ false k_assembly_init (if reset_policy then RebootDefault else held).
End Coordinator.

(** * Theory *)

Section Theory.
Context `{World} (binding : PeerBinding) (encoded_length : SavedPolicy → Z) (disk : nat → bool) (utc : nat → bytes).

(** ** The invariant *)

Definition operating_sent (io : Io) (p : PendingOperating) (m : Z) : Prop :=
  ∃ fs, fragment_message (controller_al binding) (local_al binding) 0x8008 m (operating_tlv <$> po_radios p) false MAX_CMDU
      = Ok fs ∧ handed_over io fs.

(** The radios are those of a snapshot the source showed, each on its sole channel. *)
Definition radios_shown (radios : list OperatingRadio) (context : string) : Prop :=
  ∃ n a, world_source n = Some a ∧ snapshot_radios a = Ok radios ∧ context_token a = context.

Record operating_ok (io : Io) (p : PendingOperating) : Prop := {
  oo_transmissions : 0 ≤ po_transmissions p ≤ 3;
  oo_mids : Z.of_nat (size (po_mids p)) ≤ po_transmissions p;
  oo_shown : radios_shown (po_radios p) (po_context p);
  oo_sent : ∀ m, m ∈ po_mids p → operating_sent io p m
}.

(** A stored policy is one of accepted radios. *)
Definition stored_ok (v : SavedPolicy) : Prop :=
  match v with
  | RebootDefault => True
  | AcceptedPolicy _ policies _ => policies ≠ [] ∧ Forall (λ p, is_declined p = false) policies
  end.

(** What waits: selection requests, each under its own key. *)
Definition waiting_ok (w : list (request_key * (Message * Z * string))) : Prop :=
  NoDup w.*1 ∧ Forall (λ e, e.1 = (0x8006, m_mid e.2.1.1) ∧ m_message_type e.2.1.1 = 0x8006) w ∧ (length w ≤ 4)%nat.

(** The requests the budget counts: scans are not among them. *)
Definition counted (q : gmap request_key Z) : gmap request_key Z := filter (λ kv, kv.1.1 ≠ 0x801B) q.
Definition used (s : ChannelState) : nat := size (counted (k_queries s)) + length (waiting s).

(** The invariant with [n] requests used, the waiting ones being [w]. *)
Record channel_core (w : list (request_key * (Message * Z * string))) (n : nat) (s : ChannelState) : Prop := {
  ko_waiting : waiting s = w;
  ko_waits : waiting_ok w;
  ko_used : (used s ≤ n)%nat;
  ko_pending : ∀ p, k_pending s = Some p → operating_ok (k_io s) p;
  ko_assembly : reassembler_ok (k_assembly s);
  ko_stored : stored_ok (stored s)
}.

(** An open coordinator in that state, and the invariant of the component. *)
Definition channel_open w n (s : ChannelState) : Prop := channel_core w n s ∧ k_closed s = false.
Definition channel_ok (s : ChannelState) : Prop :=
  channel_core (waiting s) 64 s ∧ (k_closed s = true → k_pending s = None ∧ waiting s = []).

Definition k_stable (J : ChannelState → Prop) : Prop :=
  ∀ s i, J s → later (k_io s) i → J (s <| k_io := i |>).

Lemma operating_ok_later i i' p : later i i' → operating_ok i p → operating_ok i' p.
Proof.
  intros Hl [? ? ? Hs]. split; auto. intros m Hm. destruct (Hs m Hm) as (fs & ? & ?).
  exists fs. eauto using handed_over_later.
Qed.

Lemma channel_core_stable w n : k_stable (channel_core w n).
Proof. intros s i [] Hl. split; simpl; eauto using operating_ok_later. Qed.
Lemma channel_open_stable w n : k_stable (channel_open w n).
Proof. intros s i [? ?] Hl. split; [by apply channel_core_stable|done]. Qed.
Lemma channel_ok_stable : k_stable channel_ok.
Proof. intros s i [? ?] Hl. split; [by apply channel_core_stable|done]. Qed.

Lemma keeps_kio {A} J (m : M Io A) : k_stable J → forward m → keeps J (k_on_io m).
Proof.
  intros HJ Hm s Hs. unfold k_on_io. specialize (Hm (k_io s)). destruct (m (k_io s)) as [[a|e] i]; by apply HJ.
Qed.

Lemma forward_k_snapshot closed : forward (k_snapshot_of binding closed).
Proof.
  apply forward_bind; [apply forward_poll|]. intros current. destruct closed; [apply forward_lift|].
  apply forward_bind; [apply forward_poll_binding|]. intros b. destruct current; [|apply forward_lift].
  destruct (bool_decide _); [apply forward_mret|apply forward_lift].
Qed.

Lemma silent_k_snapshot closed : silent (k_snapshot_of binding closed).
Proof.
  intros io. unfold k_snapshot_of, mbind, M_mbind, poll, poll_binding. destruct closed; [done|].
  destruct (world_source _); [|done]. cbn beta iota. by destruct (bool_decide _).
Qed.

(** A snapshot that is returned was shown, to an open coordinator. *)
Lemma k_snapshot_ok J :
  k_stable J → hoare J (k_snapshot binding) (λ a s, J s ∧ k_closed s = false ∧ ∃ n, world_source n = Some a) (λ _, J).
Proof.
  intros HJ. apply hoare_get_bind. intros s0 Hs s ->.
  pose proof (keeps_kio J _ HJ (forward_k_snapshot (k_closed s0)) s0 Hs) as Hk. revert Hk.
  unfold k_on_io, k_snapshot_of, mbind, M_mbind, poll, poll_binding.
  destruct (k_closed s0) eqn:Hc; [done|]. destruct (world_source _) as [a|] eqn:Ea; [|done]. cbn beta iota.
  destruct (bool_decide _); [|done]. simpl. eauto.
Qed.

Lemma k_send_ok J kind mid tlvs a limit :
  k_stable J →
  hoare J (k_send binding kind mid tlvs a limit)
    (λ _ s, J s ∧ ∃ fs, fragment_message (controller_al binding) (local_al binding) kind mid tlvs false MAX_CMDU = Ok fs ∧
       handed_over (k_io s) fs) (λ _, J).
Proof.
  intros HJ. apply hoare_get_bind. intros s0 Hs s ->. unfold k_on_io.
  destruct (deliver_run binding _ kind mid tlvs a limit (k_io s0) (silent_k_snapshot (k_closed s0)))
    as (r & n & new & E & _ & Ho).
  pose proof (forward_deliver binding _ kind mid tlvs a limit (forward_k_snapshot (k_closed s0)) (k_io s0)) as Hl.
  rewrite E in *. assert (J (s0 <| k_io := mkIo n (sent (k_io s0) ++ new) |>)) by (by apply HJ).
  destruct r as [[]|e]; [|done]. split; [done|]. exists new.*2. split; [by apply Ho|]. apply handed_over_now.
Qed.
Lemma keeps_k_send J kind mid tlvs a limit : k_stable J → keeps J (k_send binding kind mid tlvs a limit).
Proof. intros HJ. eapply hoare_weaken; [by apply k_send_ok|done|by intros ? ? []|done]. Qed.

Lemma open_record w n event : keeps (channel_open w n) (k_record event).
Proof.
  apply keeps_bind; [apply keeps_modify|intros; apply keeps_mret]. intros s [[] ?]. split; [|done]. by split.
Qed.
Lemma ok_record event : keeps channel_ok (k_record event).
Proof.
  apply keeps_bind; [apply keeps_modify|intros; apply keeps_mret]. intros s [[] ?]. split; [|done]. by split.
Qed.
Lemma keeps_k_assembly w n {A} (m : M Reassembler A) :
  keeps reassembler_ok m → keeps (channel_core w n) (k_on_assembly m).
Proof.
  intros Hm s []. unfold k_on_assembly. specialize (Hm (k_assembly s) ko_assembly0).
  destruct (m (k_assembly s)) as [[a|e] r]; by split.
Qed.

(** ** The operating report *)

Definition reporting w n (p : PendingOperating) (s : ChannelState) : Prop :=
  channel_open w n s ∧ k_pending s = Some p ∧ po_transmissions p < 3.
Lemma reporting_stable w n p : k_stable (reporting w n p).
Proof. intros s i (? & ? & ?) Hl. split; [by apply channel_open_stable|done]. Qed.

Lemma transmitted_ok w n p mid now s :
  reporting w n p s → operating_sent (k_io s) p mid →
  channel_open w n (s <| k_pending := (λ p, p <| po_mids := {[mid]} ∪ po_mids p |>
    <| po_transmissions := po_transmissions p + 1 |> <| retry_at := now + 300 |>) <$> k_pending s |>).
Proof.
  intros ([[] Hc] & Hp & Ht) Hs. split; [|done]. specialize (ko_pending0 _ Hp). destruct ko_pending0.
  split; simpl; auto. rewrite Hp. intros q [= <-]. split; simpl; auto; [lia| |].
  - assert (size ({[mid]} ∪ po_mids p) ≤ 1 + size (po_mids p))%nat; [|lia].
    rewrite size_union_alt, size_singleton. apply Nat.add_le_mono_l, subseteq_size. set_solver.
  - intros m [->%elem_of_singleton|Hm]%elem_of_union; [done|]. by apply oo_sent0.
Qed.

Lemma transmit_ok w n a p :
  hoare (reporting w n p) (transmit binding a p) (λ _, channel_open w n) (λ _, channel_open w n).
Proof.
  assert (Hw : ∀ s, reporting w n p s → channel_open w n s) by (by intros s []).
  unfold transmit. eapply hoare_bind with (R := λ _, reporting w n p).
  { intros s Hs. unfold k_next_mid. destruct Hs as ([[] ?] & ?). split; [|done]. split; [|done]. by split. }
  intros mid. eapply hoare_bind.
  { eapply hoare_weaken; [apply k_send_ok, reporting_stable|done|intros u s Hs; exact Hs|auto]. }
  intros u. eapply hoare_bind with (R := λ _ s, reporting w n p s ∧ operating_sent (k_io s) p mid).
  { intros s [Hs Ho]. unfold k_on_io, clock. simpl. split; [apply reporting_stable; [done|split; simpl; [lia|done]]|].
    destruct Ho as (fs & ? & ?). exists fs. split; [done|]. eapply handed_over_later; [|done]. split; simpl; [lia|done]. }
  intros now. eapply hoare_bind with (R := λ _, channel_open w n).
  { apply hoare_modify. intros s [? ?]. by apply (transmitted_ok w n p). }
  intros _. eapply hoare_bind; [apply open_record|intros; apply keeps_mret].
Qed.

Lemma notify_ok w n a radios :
  (∃ k, world_source k = Some a) → snapshot_radios a = Ok radios →
  keeps (channel_open w n) (notify binding a radios).
Proof.
  intros [k Ha] Hr. unfold notify.
  apply keeps_bind.
  { apply keeps_for_each. intros r. destruct (bound r); [|apply keeps_mret].
    apply keeps_bind; [apply open_record|intros; apply keeps_mret]. }
  intros _. apply keeps_bind; [apply keeps_kio; [apply channel_open_stable|apply forward_clock]|]. intros now.
  set (p := mkPendingOperating radios (context_token a) (now + seconds 1) now ∅ 0).
  apply hoare_bind with (R := λ _, reporting w n p).
  { apply hoare_modify. intros s [[] Hc]. split; [|done]. split; [|done]. split; simpl; auto.
    intros q [= <-]. split; simpl; auto; [lia|set_solver|by exists k, a|set_solver]. }
  intros _. apply hoare_bind with (R := λ _, channel_open w n); [apply transmit_ok|]. intros _. apply keeps_modify. intros s [[] ?]. split; [|done]. by split.
Qed.

(** ** The answers *)

Lemma counted_insert q key t : (size (counted (<[key := t]> q)) ≤ S (size (counted q)))%nat.
Proof.
  unfold counted. destruct (decide (key.1 ≠ 0x801B)).
  - rewrite map_filter_insert_True by done.
    destruct (filter (λ kv, kv.1.1 ≠ 0x801B) q !! key) eqn:E;
      [rewrite map_size_insert_Some by eauto|rewrite map_size_insert_None by done]; lia.
  - rewrite map_filter_insert_False by done. etrans; [apply map_subseteq_size|apply Nat.le_succ_diag_r].
    apply map_filter_subseteq_mono, delete_subseteq.
Qed.
Lemma counted_insert_scan q key t : key.1 = 0x801B → (size (counted (<[key := t]> q)) ≤ size (counted q))%nat.
Proof.
  intros Hk. unfold counted. rewrite map_filter_insert_False by (intros Hn; by destruct (Hn Hk)).
  apply map_subseteq_size, map_filter_subseteq_mono, delete_subseteq.
Qed.

Lemma answered_ok w n key t s :
  channel_open w n s → channel_open w (S n) (s <| k_queries := <[key := t]> (k_queries s) |>).
Proof.
  intros [[] Hc]. split; [|done]. split; simpl; auto. unfold used in *. simpl.
  pose proof (counted_insert (k_queries s) key t). lia.
Qed.

Lemma channel_open_mono w n n' s : (n ≤ n')%nat → channel_open w n s → channel_open w n' s.
Proof. intros Hn [[] ?]. split; [|done]. split; auto. lia. Qed.

Lemma open_clock w n : keeps (channel_open w n) (k_on_io clock).
Proof. apply keeps_kio; [apply channel_open_stable|apply forward_clock]. Qed.

(** Code that keeps [n] requests used, in code that may use one more. *)
Lemma open_step {A} w n (m : M ChannelState A) :
  keeps (channel_open w n) m → hoare (channel_open w n) m (λ _, channel_open w n) (λ _, channel_open w (S n)).
Proof. intros Hm. eapply hoare_weaken; [exact Hm|done|done|]. intros e s. apply channel_open_mono. lia. Qed.

Lemma answer_preference_ok w n message at_ a :
  hoare (channel_open w n) (answer_preference binding message at_ a)
    (λ _, channel_open w (S n)) (λ _, channel_open w (S n)).
Proof.
  unfold answer_preference. eapply hoare_bind; [apply open_step, keeps_lift|]. intros u1.
  eapply hoare_bind; [apply open_step, keeps_k_send, channel_open_stable|]. intros u2.
  eapply hoare_bind; [apply open_step, open_clock|]. intros now.
  apply hoare_bind with (R := λ _, channel_open w (S n)); [apply hoare_modify; intros s; apply answered_ok|].
  intros _. apply open_record.
Qed.

Lemma save_ok w n v : stored_ok v → keeps (channel_open w n) (save encoded_length disk v).
Proof.
  intros Hv. unfold save. apply keeps_bind; [apply keeps_lift|]. intros _.
  apply hoare_get_bind. intros s0 Hs0 s ->.
  assert (Hl : later (k_io s0) (k_io s0 <| asked := S (asked (k_io s0)) |>)) by (split; simpl; [lia|done]).
  pose proof (channel_open_stable w n s0 _ Hs0 Hl) as Hs1.
  destruct (disk _); [|exact Hs1]. destruct Hs1 as [[] Hc]. split; [|done]. by split.
Qed.

Lemma filter_declined_ok (policies : list Policy) mid context :
  let accepted := filter (λ p, is_declined p = false) policies in
  length accepted ≠ 0%nat → stored_ok (AcceptedPolicy mid accepted context).
Proof.
  intros accepted Hl. split; [by intros E; rewrite E in Hl|]. apply Forall_forall. by intros p [? _]%list_elem_of_filter.
Qed.

Lemma answer_selected_ok w n message at_ a radios policies :
  (∃ k, world_source k = Some a) → snapshot_radios a = Ok radios →
  hoare (channel_open w n) (answer_selected binding encoded_length disk message at_ a radios policies)
    (λ _, channel_open w (S n)) (λ _, channel_open w (S n)).
Proof.
  intros Ha Hr. unfold answer_selected. eapply hoare_bind; [apply open_step|].
  { eapply hoare_weaken; [apply k_snapshot_ok, channel_open_stable|done|by intros ? ? []|done]. }
  intros current. eapply hoare_bind; [apply open_step, open_clock|]. intros now.
  eapply hoare_bind; [apply open_step, keeps_lift|]. intros u1.
  eapply hoare_bind; [apply open_step, open_clock|]. intros now2.
  eapply hoare_bind; [apply open_step, keeps_lift|]. intros u2. cbv zeta.
  eapply hoare_bind; [apply open_step|].
  { case_bool_decide; [apply keeps_mret|]. by apply save_ok, filter_declined_ok. }
  intros u3. eapply hoare_bind; [apply open_step|].
  { destruct (filter _ _); [apply keeps_mret|]. apply keeps_modify. intros s [[] ?]. split; [|done]. by split. }
  intros u4. eapply hoare_bind; [apply open_step, keeps_k_send, channel_open_stable|]. intros u5.
  eapply hoare_bind; [apply open_step, open_clock|]. intros now3.
  apply hoare_bind with (R := λ _, channel_open w (S n)); [apply hoare_modify; intros s; apply answered_ok|].
  intros _. eapply hoare_bind; [apply open_record|]. intros r.
  eapply hoare_bind; [by apply notify_ok|intros; apply keeps_mret].
Qed.

Lemma answer_selection_ok w n message at_ a :
  (∃ k, world_source k = Some a) →
  hoare (channel_open w n) (answer_selection binding encoded_length disk message at_ a)
    (λ _, channel_open w (S n)) (λ _, channel_open w (S n)).
Proof.
  intros Ha s Hs. assert (Hm : channel_open w (S n) s) by (eapply channel_open_mono; [|exact Hs]; lia).
  unfold answer_selection, mbind, M_mbind, lift. destruct (snapshot_radios a) as [radios|e] eqn:Hr; [|done].
  destruct (selected_policy _ radios) as [policies|e]; [|done]. by apply answer_selected_ok.
Qed.

Lemma answer_ok w n message at_ a :
  (∃ k, world_source k = Some a) →
  hoare (channel_open w n) (answer binding encoded_length disk message at_ a)
    (λ _, channel_open w (S n)) (λ _, channel_open w (S n)).
Proof. intros Ha. unfold answer. case_bool_decide; [apply answer_preference_ok|by apply answer_selection_ok]. Qed.

(** ** The requests that wait *)

Lemma open_ok w s : channel_open w 64 s → channel_ok s.
Proof. intros [[Hw ? ? ? ? ?] Hc]. split; [|by rewrite Hc]. rewrite Hw. by split. Qed.
Lemma ok_open s : channel_ok s → k_closed s = false → channel_open (waiting s) 64 s.
Proof. by intros [? _]. Qed.

Lemma hoare_open {A} (m : M ChannelState A) :
  (∀ w, keeps (channel_open w 64) m) →
  hoare (λ s, channel_ok s ∧ k_closed s = false) m (λ _, channel_ok) (λ _, channel_ok).
Proof.
  intros Hm s [Hs Hc]. specialize (Hm (waiting s) s (ok_open s Hs Hc)).
  destruct (m s) as [[a|e] s']; by eapply open_ok.
Qed.

Lemma waiting_ok_filter key w : waiting_ok w → waiting_ok (filter (λ kv, kv.1 ≠ key) w).
Proof.
  intros (Hn & Hf & Hl). split; [|split].
  - eapply sublist_NoDup; [exact Hn|]. apply fmap_sublist, sublist_filter.
  - apply Forall_forall. intros x [_ Hx]%list_elem_of_filter. rewrite Forall_forall in Hf. by apply Hf.
  - etrans; [apply length_filter|done].
Qed.

Lemma drop_ok key s : channel_ok s → channel_ok (waiting_drop key s).
Proof.
  intros [[] Hc]. split.
  - split; simpl; auto; [by apply waiting_ok_filter|]. unfold used in *. simpl.
    pose proof (length_filter (λ kv, kv.1 ≠ key) (waiting s)). lia.
  - intros Hcl. destruct (Hc Hcl) as [? Hw]. simpl. by rewrite Hw.
Qed.

Lemma drop_used key s :
  channel_ok s → k_closed s = false → key ∈ (waiting s).*1 →
  channel_open (filter (λ kv, kv.1 ≠ key) (waiting s)) 63 (waiting_drop key s).
Proof.
  intros [[] _] Hcl ([k x] & -> & Hin)%list_elem_of_fmap. split; [|done].
  split; simpl; auto; [by apply waiting_ok_filter|]. unfold used in *. simpl.
  assert (length (filter (λ kv, kv.1 ≠ k) (waiting s)) < length (waiting s))%nat; [|lia].
  apply (length_filter_lt _ _ (k, x)); [done|]. by intros Hn.
Qed.

(** The state of the loop: what is left of it still waits. *)
Definition left_ok (l : list (request_key * (Message * Z * string))) (s : ChannelState) : Prop :=
  channel_ok s ∧ (∀ e, e ∈ l → e ∈ waiting s) ∧ NoDup l.*1.
Lemma left_ok_stable l : k_stable (left_ok l).
Proof. intros s i (? & ? & ?) Hl. split; [by apply channel_ok_stable|done]. Qed.

Lemma left_ok_tail x l s : left_ok (x :: l) s → left_ok l s ∧ x.1 ∉ l.*1.
Proof.
  intros (? & Hin & [? ?]%NoDup_cons). split; [|done]. split; [done|]. split; [|done].
  intros e He. by apply Hin, list_elem_of_further.
Qed.

Lemma left_ok_filter l s key : (∀ e, e ∈ l → e ∈ waiting s) → key ∉ l.*1 →
  ∀ e, e ∈ l → e ∈ filter (λ kv, kv.1 ≠ key) (waiting s).
Proof.
  intros Hin Hk e He. apply list_elem_of_filter. split; [|by apply Hin]. intros <-.
  by apply Hk, list_elem_of_fmap_2.
Qed.

Lemma left_ok_drop l key : key ∉ l.*1 → keeps (left_ok l) (modify (waiting_drop key)).
Proof.
  intros Hk. apply keeps_modify. intros s (? & ? & ?). split; [by apply drop_ok|]. split; [|done].
  by apply left_ok_filter.
Qed.
Lemma left_ok_record l event : keeps (left_ok l) (k_record event).
Proof.
  intros s (? & ? & ?). pose proof (ok_record event s H0) as Hr.
  unfold k_record, mbind, M_mbind, modify, mret, M_mret in *. done.
Qed.

Lemma hoare_catch {A} (P : ChannelState → Prop) (m : M ChannelState A) h Q F E :
  hoare P m Q F → (∀ e, hoare (F e) (h e) Q E) → (∀ e s, F e s → E e s) → hoare P (catch_emosa m h) Q E.
Proof.
  intros Hm Hh HF. eapply hoare_try; [exact Hm|by intros; apply hoare_ret|]. intros e.
  case_bool_decide; [by apply hoare_lift; [|intros e' s [= <-]; apply HF]|apply Hh].
Qed.

(** Dropping a request and answering it uses no more than it did. *)
Lemma drop_answer_ok l key message at_ a :
  key ∉ l.*1 → (∃ k, world_source k = Some a) →
  hoare (λ s, left_ok l s ∧ k_closed s = false ∧ key ∈ (waiting s).*1)
    (_ ← modify (waiting_drop key); _ ← answer binding encoded_length disk message at_ a; mret tt)
    (λ _, left_ok l) (λ _, left_ok l).
Proof.
  intros Hk Ha s ((Hok & Hin & Hnd) & Hcl & Hkey). pose proof (drop_used key s Hok Hcl Hkey) as Hd.
  unfold mbind at 1, M_mbind at 1, modify. cbn beta iota.
  pose proof (answer_ok _ 63 message at_ a Ha _ Hd) as Hans. unfold mbind, M_mbind.
  assert (Hend : ∀ s', channel_open (filter (λ kv, kv.1 ≠ key) (waiting s)) 64 s' → left_ok l s').
  { intros s' Hs'. split; [by eapply open_ok|]. split; [|done]. intros e He. destruct Hs' as [[-> _ _ _ _ _] _].
    by apply (left_ok_filter l s). }
  destruct (answer _ _ _ _ _ _ _) as [[r|e] s']; by apply Hend.
Qed.

Lemma tick_waiting_ok now x l :
  hoare (left_ok (x :: l)) (tick_waiting binding encoded_length disk now x) (λ _, left_ok l) (λ _, channel_ok).
Proof.
  intros s0 Hs0. pose proof (left_ok_tail _ _ _ Hs0) as [Hs Hk]. revert s0 Hs0 Hs.
  destruct x as [key [[message at_] context]]. simpl in Hk.
  assert (Hrec : ∀ ev, hoare (left_ok l) (_ ← modify (waiting_drop key); _ ← k_record ev; mret tt)
    (λ _, left_ok l) (λ _, channel_ok)).
  { intros ev. apply hoare_weaken with (P := left_ok l) (Q := λ _, left_ok l) (E := λ _, left_ok l);
      [|done|done|by intros e s []].
    apply keeps_bind; [by apply left_ok_drop|]. intros _.
    apply keeps_bind; [apply left_ok_record|intros; apply keeps_mret]. }
  intros s0 Hs0 Hs. unfold tick_waiting. case_bool_decide; [by apply Hrec|].
  revert s0 Hs0 Hs. match goal with |- ∀ s0, _ → _ → match ?m s0 with _ => _ end =>
    change (∀ s0, left_ok ((key, (message, at_, context)) :: l) s0 → left_ok l s0 →
      match m s0 with (Ok a, s') => (λ _, left_ok l) a s' | (Raise e, s') => channel_ok s' end) end.
  intros s0 Hs0 _. revert s0 Hs0.
  apply hoare_catch with (F := λ _, left_ok l); [|intros e; apply Hrec|by intros e s []].
  eapply hoare_bind.
  { eapply hoare_weaken; [apply k_snapshot_ok, left_ok_stable|done|intros a s Ha; exact Ha|].
    intros e s [? _]%left_ok_tail. done. }
  intros a. eapply hoare_bind with (R := λ _ s, left_ok ((key, (message, at_, context)) :: l) s ∧ k_closed s = false ∧
    ∃ n, world_source n = Some a).
  { apply hoare_lift; [done|]. intros e s _ [[? _]%left_ok_tail _]. done. }
  intros _. destruct (unmeasured a); [apply hoare_ret; by intros s [[? _]%left_ok_tail _]|].
  intros s (Hl & Hcl & Ha). apply (drop_answer_ok l key message at_ a Hk Ha).
  pose proof (left_ok_tail _ _ _ Hl) as [? _]. destruct Hl as (_ & Hin & _). split; [done|]. split; [done|].
  apply list_elem_of_fmap. eexists. split; [|apply Hin, list_elem_of_here]. done.
Qed.

(** ** The handlers *)

Lemma ok_clock : keeps channel_ok (k_on_io clock).
Proof. apply keeps_kio; [apply channel_ok_stable|apply forward_clock]. Qed.
Lemma ok_assembly {A} (m : M Reassembler A) : keeps reassembler_ok m → keeps channel_ok (k_on_assembly m).
Proof.
  intros Hm s [[] Hc]. unfold k_on_assembly. specialize (Hm (k_assembly s) ko_assembly0).
  destruct (m (k_assembly s)) as [[a|e] r]; (split; [by split|done]).
Qed.
Lemma ok_forget : keeps channel_ok (modify (λ s, s <| k_pending := None |>)).
Proof. apply keeps_modify. intros s [[] Hc]. split; [by split|]. intros Hcl. by destruct (Hc Hcl). Qed.
Lemma ok_snapshot : hoare channel_ok (k_snapshot binding)
  (λ a s, channel_ok s ∧ k_closed s = false ∧ ∃ n, world_source n = Some a) (λ _, channel_ok).
Proof. apply k_snapshot_ok, channel_ok_stable. Qed.

Lemma live_ok now s : channel_ok s → channel_ok (s <| k_queries := filter (λ kv, now < kv.2) (k_queries s) |>).
Proof.
  intros [[] Hc]. split; [|done]. split; simpl; auto. unfold used in *. simpl.
  assert (size (counted (filter (λ kv, (now < kv.2)%Z) (k_queries s))) ≤ size (counted (k_queries s)))%nat; [|lia].
  apply map_subseteq_size, map_filter_subseteq_mono, map_filter_subseteq.
Qed.

Lemma tick_idle_ok : keeps channel_ok (tick_idle binding).
Proof.
  apply keeps_get. intros s0. destruct (last_operating s0) as [before|]; [|apply keeps_mret].
  destruct (k_closed s0); [apply keeps_mret|].
  apply hoare_bind with (R := λ found s, channel_ok s ∧ ∀ a radios, found = Some (a, radios) →
    k_closed s = false ∧ (∃ n, world_source n = Some a) ∧ snapshot_radios a = Ok radios).
  { apply hoare_catch with (F := λ _, channel_ok); [|intros e; apply hoare_ret; naive_solver|done].
    eapply hoare_bind; [apply ok_snapshot|]. intros a. eapply hoare_bind with (R := λ radios s,
      channel_ok s ∧ k_closed s = false ∧ (∃ n, world_source n = Some a) ∧ snapshot_radios a = Ok radios).
    - apply hoare_lift; [naive_solver|by intros e s _ []].
    - intros radios. apply hoare_ret. naive_solver. }
  intros [[a radios]|]; [|apply hoare_ret; by intros s []]. case_bool_decide; [apply hoare_ret; by intros s []|].
  intros s [Hs Hf]. destruct (Hf a radios eq_refl) as (Hcl & Ha & Hr).
  apply hoare_open; [|done]. intros w.
  apply keeps_bind; [by apply notify_ok|]. intros _.
  apply keeps_bind; [apply open_record|intros; apply keeps_mret].
Qed.

Lemma tick_pending_ok now p :
  hoare (λ s, channel_ok s ∧ k_pending s = Some p) (tick_pending binding now p) (λ _, channel_ok) (λ _, channel_ok).
Proof.
  set (J := λ s, channel_ok s ∧ k_pending s = Some p).
  assert (HJ : k_stable J) by (intros s i [? ?] ?; split; [by apply channel_ok_stable|done]).
  apply hoare_bind with (R := λ (found : option ReportSnapshot) s, J s ∧ (found ≠ None → k_closed s = false)).
  { apply hoare_catch with (F := λ _, J); [|intros e; apply hoare_ret; by intros s ?|by intros e s []].
    eapply hoare_bind; [by apply k_snapshot_ok|]. intros a.
    do 2 (eapply hoare_bind with (R := λ _ s, J s ∧ k_closed s = false);
      [apply hoare_lift; intros ? s _ Hs; tauto|]; intros ?).
    apply hoare_ret. by intros s [? ?]. }
  intros [a|].
  - case_bool_decide; [|destruct (bool_decide (retry_at p ≤ now) && bool_decide (po_transmissions p < 3)) eqn:Et].
    + eapply hoare_pre; [|by intros s [[? ?] ?]].
      apply keeps_bind; [apply ok_forget|]. intros _.
      apply keeps_bind; [apply ok_record|intros; apply keeps_mret].
    + bools. intros s [[Hs Hp] Hcl]. specialize (Hcl (λ H, ltac:(discriminate))).
      assert (Hrep : reporting (waiting s) 64 p s) by (split; [by apply ok_open|done]).
      pose proof (transmit_ok (waiting s) 64 a p s Hrep) as Htr.
      destruct (transmit binding a p s) as [[u|e] s']; by eapply open_ok.
    + apply hoare_ret. by intros s [[? ?] ?].
  - eapply hoare_pre; [|by intros s [[? ?] ?]]. apply keeps_bind; [apply ok_forget|]. intros _.
    apply keeps_bind; [apply ok_record|intros; apply keeps_mret].
Qed.

Lemma k_tick_ok : keeps channel_ok (k_tick binding encoded_length disk).
Proof.
  unfold k_tick. apply keeps_bind; [apply ok_clock|]. intros now.
  apply keeps_bind; [apply keeps_modify; intros s; apply live_ok|]. intros _.
  apply keeps_bind; [apply ok_clock|]. intros t.
  apply keeps_bind; [apply ok_assembly, expire_ok|]. intros _.
  apply hoare_get_bind. intros s0 Hs0. apply hoare_bind with (R := λ _, channel_ok).
  { eapply hoare_weaken; [apply (hoare_for_each_left _ left_ok (λ _, channel_ok)); intros; apply tick_waiting_ok
      | |by intros u s []|done].
    intros s ->. split; [done|]. split; [done|]. by destruct Hs0 as [[_ (? & _) _ _ _ _] _]. }
  intros _. apply hoare_get_bind. intros s Hs. destruct (k_pending s) as [p|] eqn:Hp.
  - eapply hoare_pre; [apply tick_pending_ok|by intros ? ->].
  - eapply hoare_pre; [apply tick_idle_ok|by intros ? ->].
Qed.

Lemma open_mid w n : keeps (channel_open w n) k_next_mid.
Proof. intros s [[] ?]. split; [|done]. by split. Qed.

Lemma scan_ok message at_ :
  m_message_type message = 0x801B → keeps channel_ok (scan binding encoded_length disk utc message at_).
Proof.
  intros Hk. unfold scan. apply keeps_bind; [apply k_tick_ok|]. intros _.
  eapply hoare_bind; [apply ok_snapshot|]. intros a.
  eapply hoare_pre; [apply hoare_open|by intros s (? & ? & ?)]. intros w. apply keeps_get. intros s.
  destruct (bool_decide _); [apply open_record|]. apply keeps_bind; [apply open_clock|]. intros now.
  do 3 (apply keeps_bind; [apply keeps_lift|]; intros ?).
  apply keeps_get. intros s1. apply keeps_bind; [apply keeps_k_send, channel_open_stable|]. intros _.
  apply keeps_bind; [apply open_clock|]. intros t. apply keeps_bind.
  { apply keeps_modify. intros s2 [[] ?]. split; [|done]. split; simpl; auto. unfold used in *. simpl.
    pose proof (counted_insert_scan (k_queries s2) (m_message_type message, m_mid message) (t + seconds 5) Hk). lia. }
  intros _. apply keeps_bind; [apply open_mid|]. intros mid. apply keeps_bind; [apply open_clock|]. intros t2.
  apply keeps_bind; [apply keeps_k_send, channel_open_stable|intros; apply open_record].
Qed.

Lemma counted_size q : (size (counted q) ≤ size q)%nat.
Proof. apply map_subseteq_size, map_filter_subseteq. Qed.

Lemma wait_ok s message at_ context :
  channel_open (waiting s) 63 s → m_message_type message = 0x8006 → (length (waiting s) < 4)%nat →
  (m_message_type message, m_mid message) ∉ (waiting s).*1 →
  channel_ok (waiting_set (m_message_type message, m_mid message) (message, at_, context) s).
Proof.
  intros [[_ (Hn & Hf & Hl) ? ? ? ?] Hcl] Ht Hlen Hk. unfold waiting_set. rewrite bool_decide_eq_false_2 by done.
  split; [|simpl; by rewrite Hcl]. split; simpl; auto.
  - split; [|split].
    + rewrite fmap_app. apply NoDup_app. split; [done|]. split; [|apply NoDup_singleton].
      intros k Hin ->%list_elem_of_singleton. done.
    + apply Forall_app. split; [done|]. constructor; [|done]. simpl. by rewrite Ht.
    + rewrite length_app. simpl. lia.
  - unfold used in *. simpl. rewrite length_app. simpl. lia.
Qed.

(** A handler that answers with an event. *)
(** The end of [handle], with room for one more request. *)
Lemma handle_new_ok message at_ a s0 :
  channel_open (waiting s0) 63 s0 → (∃ k, world_source k = Some a) →
  (m_message_type message, m_mid message) ∉ (waiting s0).*1 →
  hoare (λ s, s = s0) (
      now ← k_on_io clock;
      _ ← lift (raise_if (bool_decide (at_ + seconds 1 ≤ now)) NOT_READY "channel response deadline expired");
      if bool_decide (m_message_type message = 0x8006) && unmeasured a then
        if bool_decide (4 ≤ length (waiting s0))%nat then Some <$> k_record "channel_observation_wait_budget_exhausted"
        else
          _ ← modify (waiting_set (m_message_type message, m_mid message) (message, at_, context_token a));
          Some <$> k_record "channel_waiting_for_observation"
      else Some <$> answer binding encoded_length disk message at_ a)
    (λ _, channel_ok) (λ _, channel_ok).
Proof.
  intros Hs0 Ha Hkey. set (w := waiting s0) in *.
  assert (Hmono : ∀ s, channel_open w 63 s → channel_ok s).
  { intros s Hs. eapply open_ok, channel_open_mono; [|exact Hs]. lia. }
  eapply hoare_bind with (R := λ _, channel_open w 63).
  { intros s ->. pose proof (open_clock w 63 s0 Hs0). simpl in *. done. }
  intros now. eapply hoare_bind with (R := λ _, channel_open w 63); [apply hoare_lift; auto|].
  intros _. destruct (bool_decide _ && unmeasured a) eqn:Eb; [bools; case_bool_decide as Hl|].
  - eapply hoare_weaken; [apply keeps_fmap, open_record|done|auto|auto].
  - eapply hoare_bind with (R := λ _, channel_ok); [|intros _; apply keeps_fmap, ok_record].
    apply hoare_modify. intros s Hs. assert (Hw : waiting s = w) by apply Hs.
    apply wait_ok; rewrite ?Hw; [done|done|lia|done].
  - intros s Hs. pose proof (answer_ok w 63 message at_ a Ha s Hs) as Hans. unfold fmap, M_fmap.
    destruct (answer _ _ _ _ _ _ _) as [[r|e] s']; by eapply open_ok.
Qed.

Lemma k_handle_ok message at_ : keeps channel_ok (k_handle binding encoded_length disk utc message at_).
Proof.
  unfold k_handle. case_bool_decide; [by apply keeps_fmap, scan_ok|]. destruct (negb _); [apply keeps_mret|].
  apply keeps_bind; [apply k_tick_ok|]. intros _. eapply hoare_bind; [apply ok_snapshot|]. intros a.
  apply hoare_get_bind. intros s0 (Hs0 & Hcl & Ha). destruct (_ || _) eqn:Eb.
  { eapply hoare_pre; [apply keeps_fmap, ok_record|by intros s ->]. }
  bools. case_bool_decide as Hu.
  { eapply hoare_pre; [apply keeps_fmap, ok_record|by intros s ->]. }
  apply handle_new_ok; [|done|done]. destruct Hs0 as [[] _]. split; [|done]. split; auto. unfold used.
  pose proof (counted_size (k_queries s0)). lia.
Qed.

Lemma k_ack_ok frame ing gen : keeps channel_ok (k_ack binding frame ing gen).
Proof.
  unfold k_ack. do 2 (apply keeps_bind; [apply ok_clock|]; intros ?). apply keeps_bind.
  { apply ok_assembly. eapply hoare_weaken; [apply feed_ok|done|naive_solver|done]. }
  intros [message|]; [|apply keeps_mret]. apply keeps_bind; [apply keeps_lift|]. intros _.
  apply keeps_get. intros s. destruct (k_pending s) as [p|]; [|apply keeps_mret].
  destruct (negb _); [apply keeps_mret|].
  apply keeps_bind; [eapply hoare_weaken; [apply ok_snapshot|done|naive_solver|done]|]. intros snap.
  apply keeps_bind; [apply ok_clock|]. intros now. apply keeps_bind.
  { destruct (_ || _); [apply keeps_mret|]. apply keeps_bind; [apply keeps_lift|intros; apply keeps_mret]. }
  intros [|].
  - apply keeps_bind; [apply ok_forget|]. intros _. apply keeps_fmap, ok_record.
  - apply keeps_bind; [apply keeps_lift|]. intros _. apply keeps_bind; [apply ok_forget|]. intros _.
    apply keeps_fmap, ok_record.
Qed.

(** ** Sequences of inputs *)

Inductive k_input := Handle (message : Message) (received_at : Z) | AckFrame (frame : bytes) (ingress : string) (generation : Z)
  | KTick | Moved | KClose.

Definition k_serve (s : ChannelState) (i : k_input) : ChannelState :=
  match i with
  | Handle message received_at => (k_handle binding encoded_length disk utc message received_at s).2
  | AckFrame frame ing gen => (k_ack binding frame ing gen s).2
  | KTick => (k_tick binding encoded_length disk s).2
  | Moved => moved s
  | KClose => k_close s
  end.

Lemma waiting_ok_nil : waiting_ok [].
Proof. split; [constructor|]. split; [constructor|simpl; lia]. Qed.

Lemma k_serve_ok s i : channel_ok s → channel_ok (k_serve s i).
Proof.
  intros Hs. destruct i; simpl.
  - apply keeps_snd, Hs; apply k_handle_ok.
  - apply keeps_snd, Hs; apply k_ack_ok.
  - apply keeps_snd, Hs; apply k_tick_ok.
  - unfold moved. destruct (last_operating s); [done|]. destruct Hs as [[] ?]. split; [|done]. by split.
  - destruct Hs as [[] ?]. split; [|done]. split; simpl; auto; [apply waiting_ok_nil| |done].
    unfold used in *. simpl. lia.
Qed.

Lemma k_init_ok previous io held reset : stored_ok held → channel_ok (k_init previous io held reset).
Proof.
  intros Hh. split; [|done]. split; simpl; try done.
  - apply waiting_ok_nil.
  - unfold used, counted. simpl. rewrite map_filter_empty, map_size_empty. lia.
  - by destruct reset.
Qed.

Lemma k_serve_all_ok s l : channel_ok s → channel_ok (foldl k_serve s l).
Proof. revert s. induction l as [|i l IH]; intros s Hs; [done|]. apply IH. by apply k_serve_ok. Qed.

(** ** The acknowledgment *)

Lemma k_snapshot_run s a s' :
  k_snapshot binding s = (Ok a, s') → k_closed s = false ∧ (∃ n, world_source n = Some a) ∧ k_pending s' = k_pending s.
Proof.
  unfold k_snapshot, k_on_io, k_snapshot_of, mbind, M_mbind, get, poll, poll_binding.
  destruct (k_closed s); [done|]. destruct (world_source _) as [b|] eqn:Eb; [|done]. cbn beta iota.
  destruct (bool_decide _); [|done]. intros [= -> <-]. eauto.
Qed.

Lemma k_ack_acknowledged frame ing gen s s' :
  k_ack binding frame ing gen s = (Ok (Some "operating_channel_acknowledged"), s') →
  k_pending s' = None ∧ ∃ p m, k_pending s = Some p ∧ m ∈ po_mids p ∧
    ∃ i n a, world_source i = Some a ∧ snapshot_radios a = Ok (po_radios p) ∧ context_token a = po_context p ∧
      world_clock n < po_deadline p.
Proof.
  unfold k_ack. intros (t0 & s1 & [= <- <-] & Hr)%M_bind_Ok. apply M_bind_Ok in Hr as (t1 & s2 & [= <- <-] & Hr).
  apply M_bind_Ok in Hr as ([message|] & s3 & Hf & Hr); [|done].
  unfold k_on_assembly in Hf. destruct (feed _ _ _ _ _) as [rf ra]. injection Hf as _ <-.
  apply M_bind_Ok in Hr as ([] & s4 & [= _ <-] & Hr). apply M_bind_Ok in Hr as (s5 & s6 & [= <- <-] & Hr).
  simpl in Hr. destruct (k_pending s) as [p|] eqn:Hp; [|done]. case_bool_decide as Hm; simpl in Hr; [|done].
  apply M_bind_Ok in Hr as (a & s7 & (_ & [i Ha] & Hp7)%k_snapshot_run & Hr).
  apply M_bind_Ok in Hr as (now & s8 & [= <- <-] & Hr). apply M_bind_Ok in Hr as (stale & s9 & Hst & Hr).
  destruct stale; [by injection Hr|].
  apply M_bind_Ok in Hr as ([] & s10 & [= _ <-] & Hr). apply M_bind_Ok in Hr as ([] & s11 & [= <-] & Hr).
  injection Hr as <-. split; [done|]. exists p, (m_mid message). split; [done|]. split; [done|].
  destruct (_ || _) eqn:Eb; [done|]. bools. apply M_bind_Ok in Hst as (radios & s12 & [= Hrad <-] & [= Hn _]).
  apply negb_false_iff, bool_decide_eq_true in Hn. subst radios. exists i, (asked (k_io s7)), a.
  repeat split; try done. lia.
Qed.

(** ** What is stored before the response leaves *)

Definition unsent (sigma : list (nat * bytes)) (v : SavedPolicy) (s : ChannelState) : Prop :=
  sent (k_io s) = sigma ∧ stored s = v.
Definition holding (v : SavedPolicy) (s : ChannelState) : Prop := stored s = v.

Lemma holding_io {A} v (m : M Io A) : keeps (holding v) (k_on_io m).
Proof. intros s Hs. unfold k_on_io. by destruct (m (k_io s)) as [[a|e] i]. Qed.
Lemma unsent_io {A} sigma v (m : M Io A) : silent m → keeps (unsent sigma v) (k_on_io m).
Proof.
  intros Hm s [Hs Hv]. specialize (Hm (k_io s)). unfold k_on_io.
  destruct (m (k_io s)) as [[a|e] i]; (split; [simpl in *; congruence|done]).
Qed.
Lemma holding_record v event : keeps (holding v) (k_record event).
Proof. apply keeps_bind; [by apply keeps_modify|intros; apply keeps_mret]. Qed.
Lemma silent_clock : silent clock.
Proof. by intros io. Qed.
Lemma holding_send v kind mid tlvs a limit : keeps (holding v) (k_send binding kind mid tlvs a limit).
Proof. apply keeps_get. intros s. apply holding_io. Qed.

Lemma holding_notify v a radios : keeps (holding v) (notify binding a radios).
Proof.
  unfold notify. apply keeps_bind.
  { apply keeps_for_each. intros r. destruct (bound r); [|apply keeps_mret].
    apply keeps_bind; [apply holding_record|intros; apply keeps_mret]. }
  intros _. apply keeps_bind; [apply holding_io|]. intros now.
  apply keeps_bind; [by apply keeps_modify|]. intros _. apply keeps_bind; [|intros; by apply keeps_modify].
  unfold transmit. apply keeps_bind; [by intros s Hs|]. intros mid.
  apply keeps_bind; [apply holding_send|]. intros _. apply keeps_bind; [apply holding_io|]. intros t.
  apply keeps_bind; [by apply keeps_modify|]. intros _.
  apply keeps_bind; [apply holding_record|intros; apply keeps_mret].
Qed.

(** What the store holds once the response may leave. *)
Definition kept (before : SavedPolicy) (mid : Z) (context : string) (policies : list Policy) : SavedPolicy :=
  let accepted := filter (λ p, is_declined p = false) policies in
  if bool_decide (length accepted = 0%nat) then before else AcceptedPolicy mid accepted context.

Lemma save_unsent sigma v w :
  hoare (unsent sigma v) (save encoded_length disk w) (λ _, unsent sigma w) (λ _, unsent sigma v).
Proof.
  unfold save. apply hoare_bind with (R := λ _, unsent sigma v); [apply keeps_lift|]. intros _.
  apply hoare_get_bind. intros s0 [Hs Hv] s ->. by destruct (disk _).
Qed.

Lemma answer_selected_stores sigma v message at_ a radios policies :
  let post := holding (kept v (m_mid message) (context_token a) policies) in
  hoare (unsent sigma v) (answer_selected binding encoded_length disk message at_ a radios policies)
    (λ _, post) (λ _ s, sent (k_io s) = sigma ∨ post s).
Proof.
  intros post. unfold answer_selected.
  assert (Hu : ∀ A (m : M ChannelState A), keeps (unsent sigma v) m →
    hoare (unsent sigma v) m (λ _, unsent sigma v) (λ _ s, sent (k_io s) = sigma ∨ post s)).
  { intros A m Hm. eapply hoare_weaken; [exact Hm|done|done|]. intros e s [? _]. by left. }
  assert (Hk : ∀ A (m : M ChannelState A), keeps post m → hoare post m (λ _, post) (λ _ s, sent (k_io s) = sigma ∨ post s)).
  { intros A m Hm. eapply hoare_weaken; [exact Hm|done|done|]. intros e s ?. by right. }
  eapply hoare_bind; [apply Hu, keeps_get; intros s; apply unsent_io, silent_k_snapshot|]. intros current.
  eapply hoare_bind; [apply Hu, unsent_io, silent_clock|]. intros now.
  eapply hoare_bind; [apply Hu, keeps_lift|]. intros u1.
  eapply hoare_bind; [apply Hu, unsent_io, silent_clock|]. intros now2.
  eapply hoare_bind; [apply Hu, keeps_lift|]. intros u2. cbv zeta.
  apply hoare_bind with (R := λ _, post).
  { unfold post, holding, kept. case_bool_decide.
    - apply hoare_ret. by intros s [_ ?].
    - eapply hoare_weaken; [apply save_unsent|done|by intros u s [_ ?]|]. intros e s [? _]. by left. }
  intros u3. eapply hoare_bind; [apply Hk; destruct (filter _ _); [apply keeps_mret|by apply keeps_modify]|]. intros u4.
  eapply hoare_bind; [apply Hk, holding_send|]. intros u5. eapply hoare_bind; [apply Hk, holding_io|]. intros t.
  eapply hoare_bind; [by apply Hk, keeps_modify|]. intros u6. eapply hoare_bind; [apply Hk, holding_record|]. intros r.
  eapply hoare_bind; [apply Hk, holding_notify|]. intros u7. apply Hk, keeps_mret.
Qed.
End Theory.

(** * Properties *)

(** A pod on channel 6, its sole operable channel; a selection request without preferences, answered at
    once, and the acknowledgment of the report that follows. *)
Definition kex_snapshot : ReportSnapshot :=
  mkReportSnapshot (mkReportStamp "i/0/1/1" 0 2000) example_caps example_facts "i/0/1"
    [mkOperatingRadio (octets [2; 0; 0; 0; 0; 1]) 81 6 20 false] None None (Some 1) [].
Definition kex_world : World :=
  {| world_clock := λ n, 10 * Z.of_nat n; world_binding := λ _, example_binding;
     world_source := λ _, Some kex_snapshot; world_link := λ _, true |}.
Definition kex_request : Message :=
  mkMessage (octets [2; 0; 0; 0; 0; 9]) (octets [2; 0; 0; 0; 0; 8]) 0x8006 33 false [] 1.
Definition kex_ack : bytes :=
  match fragment_message (octets [2; 0; 0; 0; 0; 9]) (octets [2; 0; 0; 0; 0; 8]) 0x8000 7 [] false MAX_CMDU with
  | Ok (f :: _) => f
  | _ => []
  end.
Definition kex_inputs : list k_input := [Handle kex_request 0].
Definition kex_start : ChannelState := k_init 6 (mkIo 0 []) RebootDefault true.
Definition kex_state : ChannelState :=
  foldl (@k_serve kex_world example_binding (λ _, 100) (λ _, true) (λ _, [])) kex_start kex_inputs.

(** The channel coordinator stays within its bounds. Whatever requests, acknowledgments, ticks
    and moves arrive, and whatever the source, the clock, the link and the database do: at most four
    requests wait, each a selection request under its own key; the preference and selection requests
    remembered or waiting are at most 64; a pending Operating Channel Report is of radios the source
    showed on their sole channels, was sent at most three times, and is eligible for an
    acknowledgment only under identifiers it was wholly sent with; the stored policy is of accepted
    radios; and a closed coordinator has nothing pending or waiting. *)
Theorem channel_coordinator_bounded `{World} binding encoded_length disk utc previous io held reset inputs :
  stored_ok held →
  let s := foldl (k_serve binding encoded_length disk utc) (k_init previous io held reset) inputs in
  waiting_ok (waiting s) ∧ (size (counted (k_queries s)) + length (waiting s) ≤ 64)%nat ∧
  (∀ p, k_pending s = Some p → operating_ok binding (k_io s) p) ∧ stored_ok (stored s) ∧
  (k_closed s = true → k_pending s = None ∧ waiting s = []).
Proof.
  intros Hh s. assert (Hok : channel_ok binding s) by (apply k_serve_all_ok; by apply k_init_ok).
  destruct Hok as [[] Hc]. done.
Qed.

Lemma channel_coordinator_bounded_witness :
  let s := foldl (@k_serve kex_world example_binding (λ _, 100) (λ _, true) (λ _, []))
             (k_init 6 (mkIo 0 []) RebootDefault true) kex_inputs in
  stored_ok RebootDefault ∧ k_queries s !! (0x8006, 33) = Some 5170 ∧
  ∀ p, k_pending s = Some p → @operating_ok kex_world example_binding (k_io s) p.
Proof.
  intros s. split; [exact I|]. split; [vm_compute; reflexivity|].
  exact (proj1 (proj2 (proj2 (@channel_coordinator_bounded kex_world example_binding (λ _, 100) (λ _, true) (λ _, []) 6
    (mkIo 0 []) RebootDefault true kex_inputs I)))).
Defined.

(** An Operating Channel Report is acknowledged only while it is true. When [ack] counts an
    acknowledgment, the report that was pending had been handed to the link whole, under one of its
    identifiers; the time is before its deadline; the source shows the context and exactly the radios
    the report said; and nothing is pending afterwards. *)
Theorem operating_report_acknowledged `{World} binding encoded_length disk utc previous io held reset inputs frame ing gen s' :
  stored_ok held →
  let s := foldl (k_serve binding encoded_length disk utc) (k_init previous io held reset) inputs in
  k_ack binding frame ing gen s = (Ok (Some "operating_channel_acknowledged"), s') →
  k_pending s' = None ∧
  ∃ p m, k_pending s = Some p ∧ m ∈ po_mids p ∧ operating_sent binding (k_io s) p m ∧
    ∃ i n a, world_source i = Some a ∧ snapshot_radios a = Ok (po_radios p) ∧ context_token a = po_context p ∧
      world_clock n < po_deadline p.
Proof.
  intros Hh s Hr. assert (Hok : channel_ok binding s) by (apply k_serve_all_ok; by apply k_init_ok).
  destruct (k_ack_acknowledged _ _ _ _ _ _ Hr) as (Hn & p & m & Hp & Hm & Ht). split; [done|].
  exists p, m. split; [done|]. split; [done|]. split; [|done].
  destruct Hok as [[_ _ _ Hpend _ _] _]. by apply (oo_sent _ _ _ (Hpend p Hp)).
Qed.

Lemma operating_report_acknowledged_witness :
  let s := foldl (@k_serve kex_world example_binding (λ _, 100) (λ _, true) (λ _, []))
    (k_init 6 (mkIo 0 []) RebootDefault true) kex_inputs in
  let run := @k_ack kex_world example_binding kex_ack "eth0" 1 s in
  run.1 = Ok (Some "operating_channel_acknowledged") ∧ k_pending run.2 = None ∧
  ∃ p m, k_pending s = Some p ∧ m ∈ po_mids p ∧ operating_sent example_binding (k_io s) p m.
Proof.
  intros s run. assert (E : run.1 = Ok (Some "operating_channel_acknowledged")) by (vm_compute; reflexivity).
  split; [exact E|].
  destruct (@operating_report_acknowledged kex_world example_binding (λ _, 100) (λ _, true) (λ _, []) 6 (mkIo 0 [])
    RebootDefault true kex_inputs kex_ack "eth0" 1 run.2 I) as (Hn & p & m & Hp & Hm & Hs & _).
  - rewrite <- E. exact (surjective_pairing run).
  - split; [exact Hn|]. exists p, m. split; [exact Hp|]. split; [exact Hm|exact Hs].
Defined.

(** C17: an acceptance is stored before it is answered. Whenever handling a Channel Selection Request
    has put any frame on the link, whether the handler then returned or failed, the store holds the
    policies of the radios the request is accepted for; a radio it is declined for never replaces
    what is stored, and when it is declined for all of them the store is as it was. *)
Theorem acceptance_stored_first `{World} binding encoded_length disk message received_at a s r s' :
  answer_selection binding encoded_length disk message received_at a s = (r, s') →
  sent (k_io s') ≠ sent (k_io s) →
  ∃ radios policies, snapshot_radios a = Ok radios ∧ selected_policy (m_tlvs message) radios = Ok policies ∧
    let accepted := filter (λ p, is_declined p = false) policies in
    (accepted ≠ [] → stored s' = AcceptedPolicy (m_mid message) accepted (context_token a)) ∧
    (accepted = [] → stored s' = stored s).
Proof.
  unfold answer_selection, mbind, M_mbind, lift. intros Hr Hs.
  destruct (snapshot_radios a) as [radios|e]; [|by injection Hr as _ <-].
  destruct (selected_policy (m_tlvs message) radios) as [policies|e] eqn:Ep; [|by injection Hr as _ <-].
  exists radios, policies. split; [done|]. split; [done|].
  pose proof (answer_selected_stores binding encoded_length disk (sent (k_io s)) (stored s) message received_at a radios
    policies s (conj eq_refl eq_refl)) as Hp. cbv zeta in Hp.
  assert (Hk : stored s' = kept (stored s) (m_mid message) (context_token a) policies).
  { rewrite Hr in Hp. destruct r as [r|e]; [done|]. by destruct Hp. }
  rewrite Hk. unfold kept. case_bool_decide as Hl.
  - apply nil_length_inv in Hl. done.
  - split; [done|]. intros E. by rewrite E in Hl.
Qed.

Lemma acceptance_stored_first_witness :
  let run := @answer_selection kex_world example_binding (λ _, 100) (λ _, true) kex_request 0 kex_snapshot kex_start in
  length (sent (k_io run.2)) = 2%nat ∧
  ∃ radios policies, snapshot_radios kex_snapshot = Ok radios ∧ selected_policy [] radios = Ok policies ∧
    (filter (λ p, is_declined p = false) policies ≠ [] →
     stored run.2 = AcceptedPolicy 33 (filter (λ p, is_declined p = false) policies) "i/0/1").
Proof.
  intros run. split; [vm_compute; reflexivity|].
  destruct (@acceptance_stored_first kex_world example_binding (λ _, 100) (λ _, true) kex_request 0 kex_snapshot kex_start
    run.1 run.2) as (radios & policies & Hr & Hp & Ha & _).
  - exact (surjective_pairing run).
  - vm_compute. discriminate.
  - exists radios, policies. split; [exact Hr|]. split; [exact Hp|exact Ha].
Defined.
