(* ===== verification/LinkMetrics.v ===== *)
(** * Neighbour link metrics: [src/emosa/wire/link_metrics.py]

    The link metric values and their TLVs, the source of measured samples and the coordinator that
    answers Link Metric Queries from them. The report source, the clock and the link are the [World]
    of [Session]; the tokens of samples are given. *)

From S2P Require Import Prelude Bytes Cmdu Payloads TopologyValues Reports Channel ReportSource Session.

Definition MEDIA (v : Z) : bool :=
  bool_decide (v ∈ [0; 1]) || bool_decide (0x100 ≤ v < 0x10A) || bool_decide (v ∈ [0x200; 0x201; 0x300; 0xFFFF]).
Definition MAX_LINKS : nat := 32.

(** [unavailable(detail)] *)
Definition unavailable {A} (detail : string) : result A := Raise (mkEmosaError NOT_READY detail).

(** [identity(value)] *)
Definition link_identity (value : bytes) : result bytes :=
  _ ← mac value;
  _ ← raise_if (forallb (λ b, bool_decide (byte_to_Z b = 0)) value || bool_decide (Z.land (octet_at 0 value) 1 ≠ 0))
        INVALID_INPUT "link identity must be a nonzero unicast MAC";
  Ok value.

(** [media(value)] *)
Definition link_media (value : Z) : result Z :=
  _ ← uint value 16 "link media type";
  _ ← raise_if (negb (MEDIA value)) UNSUPPORTED_OPERATION "reserved media type; ignore entire TLV";
  Ok value.

(** ** Queries *)

Record LinkMetricQuery := mkLinkMetricQuery { q_neighbor : option bytes; direction : Z }.
#[export] Instance LinkMetricQuery_eq_dec : EqDecision LinkMetricQuery.
Proof. solve_decision. Defined.

(** [LinkMetricQuery.tlv] *)
Definition query_tlv (q : LinkMetricQuery) : result Tlv :=
  _ ← uint (direction q) 8 "metric direction";
  _ ← raise_if (bool_decide (2 < direction q)) UNSUPPORTED_OPERATION "reserved direction; ignore query TLV";
  scope ← match q_neighbor q with
          | None => Ok (octets [0])
          | Some n => m ← mac n; Ok (octets [1] ++ m)
          end;
  Ok (mkTlv 8 (scope ++ octets [direction q])).

(** [decode_query(tlvs)] *)
Definition decode_link_query (tlvs : list Tlv) : result LinkMetricQuery :=
  match filter (λ t, Cmdu.kind t = 8) tlvs with
  | [t] =>
      let raw := tlv_value t in
      _ ← raise_if (bool_decide (length raw = 0%nat)) INVALID_INPUT "truncated link metric query";
      _ ← raise_if (bool_decide (1 < octet_at 0 raw)) UNSUPPORTED_OPERATION "reserved scope; ignore query TLV";
      _ ← raise_if (negb (bool_decide (length raw = if bool_decide (octet_at 0 raw = 0) then 2%nat else 8%nat)))
            INVALID_INPUT "incorrect conditional link query length";
      let query := mkLinkMetricQuery (if bool_decide (octet_at 0 raw = 0) then None else Some (slice 1 7 raw))
                     (octet_at (length raw - 1) raw) in
      _ ← query_tlv query;
      Ok query
  | _ => invalid "exactly one link metric query TLV required"
  end.

(** ** Link values *)

Record TxLink := mkTxLink {
  tx_local : bytes;
  tx_neighbor : bytes;
  tx_media : Z;
  tx_bridges : bool;
  tx_errors : Z;
  transmitted_packets : Z;
  mac_throughput_mbps : Z;
  availability_percent : Z;
  phy_rate_mbps : Z
}.
Record RxLink := mkRxLink {
  rx_local : bytes;
  rx_neighbor : bytes;
  rx_media : Z;
  rx_errors : Z;
  received_packets : Z;
  rssi_db : Z
}.
#[export] Instance TxLink_eq_dec : EqDecision TxLink.
Proof. solve_decision. Defined.
#[export] Instance RxLink_eq_dec : EqDecision RxLink.
Proof. solve_decision. Defined.

(** [TX.pack(...)], [RX.pack(...)] and the fields [iter_unpack] gives *)
Definition tx_octets (l : TxLink) : bytes :=
  tx_local l ++ tx_neighbor l ++ be_bytes 2 (tx_media l) ++ be_bytes 1 (if tx_bridges l then 1 else 0)
    ++ be_bytes 4 (tx_errors l) ++ be_bytes 4 (transmitted_packets l) ++ be_bytes 2 (mac_throughput_mbps l)
    ++ be_bytes 2 (availability_percent l) ++ be_bytes 2 (phy_rate_mbps l).
Definition rx_octets (l : RxLink) : bytes :=
  rx_local l ++ rx_neighbor l ++ be_bytes 2 (rx_media l) ++ be_bytes 4 (rx_errors l)
    ++ be_bytes 4 (received_packets l) ++ be_bytes 1 (rssi_db l).

(** [TxLink.encode] *)
Definition encode_tx (l : TxLink) : result bytes :=
  _ ← link_identity (tx_local l);
  _ ← link_identity (tx_neighbor l);
  _ ← link_media (tx_media l);
  _ ← uint (tx_errors l) 32 "transmit packet errors";
  _ ← uint (transmitted_packets l) 32 "transmitted packets";
  _ ← uint (mac_throughput_mbps l) 16 "MAC throughput capacity";
  _ ← uint (availability_percent l) 16 "link availability";
  _ ← uint (phy_rate_mbps l) 16 "PHY rate";
  _ ← raise_if (bool_decide (100 < availability_percent l)) INVALID_INPUT "link availability exceeds 100 percent";
  _ ← raise_if (negb (bool_decide (Z.shiftr (tx_media l) 8 ∈ [0; 2; 3; 255]))
                && negb (bool_decide (phy_rate_mbps l = 65535))) INVALID_INPUT
        "this media type requires the unspecified PHY-rate sentinel";
  Ok (tx_octets l).

(** [RxLink.encode] *)
Definition encode_rx (l : RxLink) : result bytes :=
  _ ← link_identity (rx_local l);
  _ ← link_identity (rx_neighbor l);
  _ ← link_media (rx_media l);
  _ ← uint (rx_errors l) 32 "receive packet errors";
  _ ← uint (received_packets l) 32 "received packets";
  _ ← uint (rssi_db l) 8 "link RSSI";
  _ ← raise_if (negb (bool_decide (Z.shiftr (rx_media l) 8 ∈ [1; 255])) && negb (bool_decide (rssi_db l = 255)))
        INVALID_INPUT "this media type requires the unspecified RSSI sentinel";
  Ok (rx_octets l).

(** [links]: one direction by its type. *)
Inductive Links := TxLinks (l : list TxLink) | RxLinks (l : list RxLink).
Record LinkMetrics := mkLinkMetrics { lm_local : bytes; lm_neighbor : bytes; links : Links }.
#[export] Instance Links_eq_dec : EqDecision Links.
Proof. solve_decision. Defined.
#[export] Instance LinkMetrics_eq_dec : EqDecision LinkMetrics.
Proof. solve_decision. Defined.

Definition links_kind (l : Links) : Z := match l with TxLinks _ => 9 | RxLinks _ => 10 end.
Definition links_pairs (l : Links) : list (bytes * bytes) :=
  match l with
  | TxLinks l => (λ r, (tx_local r, tx_neighbor r)) <$> l
  | RxLinks l => (λ r, (rx_local r, rx_neighbor r)) <$> l
  end.
Definition links_encode (l : Links) : result (list bytes) :=
  match l with TxLinks l => map_result encode_tx l | RxLinks l => map_result encode_rx l end.

(** [LinkMetrics.tlv] *)
Definition link_tlv (m : LinkMetrics) : result Tlv :=
  _ ← link_identity (lm_local m);
  _ ← link_identity (lm_neighbor m);
  _ ← raise_if (bool_decide (lm_local m = lm_neighbor m)) INVALID_INPUT
        "a device cannot be its own link-metric neighbor";
  _ ← raise_if (negb (bool_decide (1 ≤ length (links_pairs (links m)) ≤ MAX_LINKS)%nat)) INVALID_INPUT
        "link metric interface-pair budget exceeded or empty";
  encoded ← links_encode (links m);
  _ ← raise_if (negb (bool_decide (NoDup (links_pairs (links m))))) INVALID_INPUT "duplicate interface pair";
  Ok (mkTlv (links_kind (links m)) (lm_local m ++ lm_neighbor m ++ concat encoded)).

(** One record of [layout.iter_unpack(raw[12:])]. *)
Definition unpack_tx (b : bytes) : result TxLink :=
  let flag := octet_at 14 b in
  _ ← raise_if (bool_decide (1 < flag)) UNSUPPORTED_OPERATION "reserved bridge flag; ignore TLV";
  Ok (mkTxLink (slice 0 6 b) (slice 6 12 b) (be_int (slice 12 14 b)) (negb (bool_decide (flag = 0)))
        (be_int (slice 15 19 b)) (be_int (slice 19 23 b)) (be_int (slice 23 25 b)) (be_int (slice 25 27 b))
        (be_int (slice 27 29 b))).
Definition unpack_rx (b : bytes) : RxLink :=
  mkRxLink (slice 0 6 b) (slice 6 12 b) (be_int (slice 12 14 b)) (be_int (slice 14 18 b)) (be_int (slice 18 22 b))
    (be_int (slice 22 23 b)).

(** [layout.size] *)
Definition layout_size (kind : Z) : nat := if bool_decide (kind = 9) then 29 else 23.

(** The records of a value, [layout.size] octets each. *)
Definition link_records (kind : Z) (raw : bytes) : list bytes :=
  (λ i, slice (12 + layout_size kind * i) (12 + layout_size kind * i + layout_size kind) raw)
    <$> seq 0 ((length raw - 12) / layout_size kind).

(** [decode_metrics(tlv)] *)
Definition decode_metrics (t : Tlv) : result LinkMetrics :=
  _ ← raise_if (negb (bool_decide (Cmdu.kind t ∈ [9; 10]))) UNSUPPORTED_OPERATION
        "not a transmitter/receiver metric TLV";
  let raw := tlv_value t in
  let size := layout_size (Cmdu.kind t) in
  _ ← raise_if (negb (bool_decide (12 + size ≤ length raw ≤ 12 + MAX_LINKS * size)%nat)
                || negb (bool_decide ((length raw - 12) mod size = 0)%nat)) INVALID_INPUT
        "truncated or partial link-metric interface pair";
  let rows := link_records (Cmdu.kind t) raw in
  links ← (if bool_decide (Cmdu.kind t = 9) then l ← map_result unpack_tx rows; Ok (TxLinks l)
           else Ok (RxLinks (unpack_rx <$> rows)));
  let result := mkLinkMetrics (slice 0 6 raw) (slice 6 12 raw) links in
  _ ← link_tlv result;
  Ok result.

(** ** Theory of the codec *)

Lemma link_identity_Ok v x : link_identity v = Ok x → x = v ∧ length v = 6%nat.
Proof. unfold link_identity. intros Hv. inv_ok. apply mac_Ok in H as [-> Hl]. auto. Qed.

Lemma link_media_Ok v x : link_media v = Ok x → x = v ∧ 0 ≤ v < 65536.
Proof. unfold link_media. intros Hv. inv_ok. by apply uint_Ok in H as [-> ?]. Qed.

Ltac fields_ok :=
  repeat match goal with
  | H : link_identity _ = Ok _ |- _ => apply link_identity_Ok in H as [-> ?]
  | H : link_media _ = Ok _ |- _ => apply link_media_Ok in H as [-> ?]
  | H : uint _ _ _ = Ok _ |- _ => apply uint_Ok in H as [-> ?]
  end.

(** The fields of a record, in order. *)
Definition tx_fields (l : TxLink) : list bytes :=
  [tx_local l; tx_neighbor l; be_bytes 2 (tx_media l); be_bytes 1 (if tx_bridges l then 1 else 0);
   be_bytes 4 (tx_errors l); be_bytes 4 (transmitted_packets l); be_bytes 2 (mac_throughput_mbps l);
   be_bytes 2 (availability_percent l); be_bytes 2 (phy_rate_mbps l)].
Definition rx_fields (l : RxLink) : list bytes :=
  [rx_local l; rx_neighbor l; be_bytes 2 (rx_media l); be_bytes 4 (rx_errors l); be_bytes 4 (received_packets l);
   be_bytes 1 (rssi_db l)].
Lemma tx_octets_fields l : tx_octets l = concat (tx_fields l).
Proof. unfold tx_octets, tx_fields. cbn [concat]. by rewrite app_nil_r. Qed.
Lemma rx_octets_fields l : rx_octets l = concat (rx_fields l).
Proof. unfold rx_octets, rx_fields. cbn [concat]. by rewrite app_nil_r. Qed.

Lemma octet_at_slice i b : (i < length b)%nat → octet_at i b = be_int (slice i (i + 1) b).
Proof.
  intros Hi. rewrite slice_one by done. unfold octets, octet_at. destruct (b !! i); simpl;
    unfold be_int; simpl; [by rewrite Z_to_byte_to_Z|by rewrite byte_to_Z_to_byte].
Qed.

(** Read the [k]th field of a record made of the fields [fs]. *)
Ltac field fs k :=
  rewrite (slice_field fs k _ _ _ eq_refl)
    by (unfold tx_fields, rx_fields; cbn [take concat]; autorewrite with lens; lia).

Lemma encode_tx_Ok l b : encode_tx l = Ok b → b = tx_octets l ∧ unpack_tx b = Ok l ∧ length b = 29%nat.
Proof.
  unfold encode_tx. intros He. inv_ok. fields_ok. split; [done|].
  assert (Hb : length (tx_octets l) = 29%nat) by (unfold tx_octets; autorewrite with lens; lia).
  split; [|done]. unfold unpack_tx. rewrite octet_at_slice by lia. rewrite tx_octets_fields.
  field (tx_fields l) 0%nat. field (tx_fields l) 1%nat. field (tx_fields l) 2%nat. field (tx_fields l) 3%nat.
  field (tx_fields l) 4%nat. field (tx_fields l) 5%nat. field (tx_fields l) 6%nat. field (tx_fields l) 7%nat.
  field (tx_fields l) 8%nat. rewrite !be_int_be_bytes by (try destruct (tx_bridges l); simpl; lia).
  destruct l as [lo ne md [] er pk th av ph]; done.
Qed.

Lemma encode_rx_Ok l b : encode_rx l = Ok b → b = rx_octets l ∧ unpack_rx b = l ∧ length b = 23%nat.
Proof.
  unfold encode_rx. intros He. inv_ok. fields_ok. split; [done|].
  assert (Hb : length (rx_octets l) = 23%nat) by (unfold rx_octets; autorewrite with lens; lia).
  split; [|done]. unfold unpack_rx. rewrite rx_octets_fields.
  field (rx_fields l) 0%nat. field (rx_fields l) 1%nat. field (rx_fields l) 2%nat. field (rx_fields l) 3%nat.
  field (rx_fields l) 4%nat. field (rx_fields l) 5%nat. rewrite !be_int_be_bytes by (simpl; lia). by destruct l.
Qed.

Lemma be_bytes_slice n lo hi b : (hi ≤ length b)%nat → (lo + n = hi)%nat → be_bytes n (be_int (slice lo hi b)) = slice lo hi b.
Proof. intros. apply be_bytes_be_int. rewrite slice_length; lia. Qed.

(** What is unpacked packs into the same octets. *)
Lemma unpack_tx_octets b l : length b = 29%nat → unpack_tx b = Ok l → tx_octets l = b.
Proof.
  intros Hb. unfold unpack_tx. rewrite raise_if_bind_Ok. intros [Hf Hl]. apply Ok_inj in Hl as <-.
  unfold tx_octets. cbn [tx_local tx_neighbor tx_media tx_bridges tx_errors transmitted_packets mac_throughput_mbps
    availability_percent phy_rate_mbps]. rewrite !be_bytes_slice by lia.
  replace (be_bytes 1 _) with (slice 14 15 b).
  2:{ rewrite <- (be_bytes_slice 1 14 15 b) by lia. rewrite <- octet_at_slice by lia. f_equal. bools.
      assert (0 ≤ octet_at 14 b) by (unfold octet_at; destruct (b !! 14%nat); simpl; [apply byte_to_Z_range|lia]).
      case_bool_decide; simpl; lia. }
  rewrite !slice_join by lia. by apply slice_all.
Qed.

Lemma unpack_rx_octets b : length b = 23%nat → rx_octets (unpack_rx b) = b.
Proof.
  intros Hb. unfold rx_octets, unpack_rx.
  cbn [rx_local rx_neighbor rx_media rx_errors received_packets rssi_db]. rewrite !be_bytes_slice by lia.
  rewrite !slice_join by lia. by apply slice_all.
Qed.

(** The records of a whole value. *)
Lemma link_records_concat kind lo ne (rs : list bytes) :
  length lo = 6%nat → length ne = 6%nat → Forall (λ r, length r = layout_size kind) rs →
  link_records kind (lo ++ ne ++ concat rs) = rs.
Proof.
  intros Hlo Hne Hrs. unfold link_records.
  assert (Hl : length (concat rs) = (layout_size kind * length rs)%nat).
  { induction Hrs as [|r rs Hr _ IH]; simpl; [lia|]. rewrite length_app, IH, Hr. lia. }
  rewrite !length_app, Hlo, Hne, Hl. replace (6 + (6 + layout_size kind * length rs) - 12)%nat
    with (length rs * layout_size kind)%nat by lia.
  rewrite Nat.div_mul by (unfold layout_size; case_bool_decide; lia).
  pose proof (chunks_of (lo ++ ne) [] (layout_size kind) rs Hrs) as Hc.
  rewrite length_app, Hlo, Hne, app_nil_r, <- app_assoc in Hc. exact Hc.
Qed.

Lemma link_records_join kind raw :
  (12 ≤ length raw)%nat → ((length raw - 12) mod layout_size kind = 0)%nat →
  raw = slice 0 6 raw ++ slice 6 12 raw ++ concat (link_records kind raw) ∧
  Forall (λ r, length r = layout_size kind) (link_records kind raw).
Proof.
  intros Hl Hm. unfold link_records. set (k := layout_size kind) in *.
  assert (Hk : (k ≠ 0)%nat) by (unfold k, layout_size; case_bool_decide; lia).
  set (n := ((length raw - 12) / k)%nat).
  assert (Hn : (length raw = 12 + k * n)%nat).
  { pose proof (Nat.div_mod_eq (length raw - 12) k). lia. }
  split.
  - rewrite chunks_join, !slice_join by lia. symmetry. apply slice_all. lia.
  - apply Forall_fmap, Forall_forall. intros i Hi. apply elem_of_seq in Hi. unfold compose. rewrite slice_length; nia.
Qed.

Lemma map_result_Forall {A B} (f : A → result B) (P : A → B → Prop) l ys :
  map_result f l = Ok ys → (∀ x y, f x = Ok y → P x y) → Forall2 P l ys.
Proof. intros Hm HP. apply map_result_Ok in Hm. eapply Forall2_impl; [exact Hm|auto]. Qed.

Definition links_octets (l : Links) : list bytes :=
  match l with TxLinks l => tx_octets <$> l | RxLinks l => rx_octets <$> l end.
Definition unpack_links (kind : Z) (rows : list bytes) : result Links :=
  if bool_decide (kind = 9) then l ← map_result unpack_tx rows; Ok (TxLinks l) else Ok (RxLinks (unpack_rx <$> rows)).

Lemma links_encode_Ok l enc :
  links_encode l = Ok enc →
  enc = links_octets l ∧ unpack_links (links_kind l) enc = Ok l ∧
  Forall (λ r, length r = layout_size (links_kind l)) enc ∧ length enc = length (links_pairs l).
Proof.
  destruct l as [l|l]; simpl; intros He.
  - apply map_result_Forall with (P := λ x y, y = tx_octets x ∧ unpack_tx y = Ok x ∧ length y = 29%nat) in He;
      [|intros x y; apply encode_tx_Ok].
    unfold unpack_links. simpl. rewrite length_fmap.
    induction He as [|x y l enc (-> & Hu & Hl) _ (-> & IHu & IHf & IHl)]; [done|]. simpl.
    split; [done|]. split; [|split; [by constructor|lia]]. rewrite Hu. simpl.
    destruct (map_result unpack_tx _); [|done]. simpl in *. apply Ok_inj in IHu. by injection IHu as ->.
  - apply map_result_Forall with (P := λ x y, y = rx_octets x ∧ unpack_rx y = x ∧ length y = 23%nat) in He;
      [|intros x y; apply encode_rx_Ok].
    unfold unpack_links. simpl. rewrite length_fmap.
    induction He as [|x y l enc (-> & Hu & Hl) _ (-> & IHu & IHf & IHl)]; [done|]. simpl.
    split; [done|]. split; [|split; [by constructor|lia]]. apply Ok_inj in IHu. injection IHu as IHu.
    f_equal. f_equal. f_equal; [exact Hu|exact IHu].
Qed.

Lemma unpack_links_octets kind rows l :
  kind ∈ [9; 10] → unpack_links kind rows = Ok l → Forall (λ r, length r = layout_size kind) rows →
  links_octets l = rows ∧ links_kind l = kind.
Proof.
  intros Hk Hu Hf. unfold unpack_links, layout_size in *. case_bool_decide as Hk9.
  - apply result_bind_Ok in Hu as (xs & Hm & Hl). apply Ok_inj in Hl as <-. split; [|done].
    apply map_result_Ok in Hm. simpl. clear Hk. induction Hm as [|b x rows xs Hx _ IH]; [done|].
    apply Forall_cons in Hf as [Hb Hf]. rewrite fmap_cons, (IH Hf). f_equal. by apply unpack_tx_octets.
  - apply Ok_inj in Hu as <-. split; [|simpl; set_solver]. simpl. clear Hk. induction Hf as [|b rows Hb _ IH]; [done|].
    rewrite !fmap_cons, IH. f_equal. by apply unpack_rx_octets.
Qed.

(** What [tlv] emits. *)
Lemma link_tlv_Ok m t :
  link_tlv m = Ok t →
  t = mkTlv (links_kind (links m)) (lm_local m ++ lm_neighbor m ++ concat (links_octets (links m))) ∧
  length (lm_local m) = 6%nat ∧ length (lm_neighbor m) = 6%nat ∧ (1 ≤ length (links_octets (links m)) ≤ MAX_LINKS)%nat ∧
  Forall (λ r, length r = layout_size (links_kind (links m))) (links_octets (links m)) ∧
  unpack_links (links_kind (links m)) (links_octets (links m)) = Ok (links m).
Proof.
  unfold link_tlv. intros Ht. inv_ok. bools.
  match goal with H : links_encode _ = Ok _ |- _ => apply links_encode_Ok in H as (-> & Hu & Hf & Hl) end.
  fields_ok. rewrite Hl. done.
Qed.

Lemma links_kind_in l : links_kind l ∈ [9; 10].
Proof. destruct l; simpl; set_solver. Qed.

Lemma concat_length {A} (rs : list (list A)) k : Forall (λ r, length r = k) rs → length (concat rs) = (k * length rs)%nat.
Proof. induction 1 as [|r rs Hr _ IH]; simpl; [lia|]. rewrite length_app, IH, Hr. lia. Qed.

Lemma decode_link_tlv m t : link_tlv m = Ok t → decode_metrics t = Ok m.
Proof.
  intros Ht. pose proof (link_tlv_Ok m t Ht) as (-> & Hlo & Hne & Hn & Hf & Hu).
  unfold decode_metrics. cbn [Cmdu.kind tlv_value]. set (k := links_kind (links m)) in *.
  set (rs := links_octets (links m)) in *. set (raw := lm_local m ++ _).
  assert (Hk : (layout_size k ≠ 0)%nat) by (unfold layout_size; case_bool_decide; lia).
  assert (Hraw : length raw = (12 + length rs * layout_size k)%nat).
  { unfold raw. rewrite !length_app, Hlo, Hne, (concat_length _ _ Hf). lia. }
  rewrite (bool_decide_eq_true_2 (k ∈ [9; 10])) by (unfold k; apply links_kind_in). cbn [negb raise_if mbind result_mbind].
  rewrite Hraw. rewrite (bool_decide_eq_true_2 (_ ≤ _ ≤ _)%nat) by nia.
  rewrite (bool_decide_eq_true_2 (_ `mod` _ = 0)%nat) by (replace (12 + length rs * layout_size k - 12)%nat with (length rs * layout_size k)%nat by lia;
    by apply Nat.Div0.mod_mul). cbn [negb orb raise_if mbind result_mbind].
  assert (Hrec : link_records k raw = rs) by (by apply link_records_concat). rewrite Hrec.
  fold (unpack_links k rs). rewrite Hu. cbn [mbind result_mbind].
  assert (Hs0 : slice 0 6 raw = lm_local m).
  { unfold raw, slice. rewrite drop_0. apply take_app_exact. lia. }
  assert (Hs1 : slice 6 12 raw = lm_neighbor m) by (unfold raw; apply slice_app; lia).
  rewrite Hs0, Hs1. replace (mkLinkMetrics _ _ _) with m by (by destruct m). by rewrite Ht.
Qed.

Lemma link_tlv_decode m t : decode_metrics t = Ok m → link_tlv m = Ok t.
Proof.
  unfold decode_metrics. rewrite raise_if_bind_Ok. intros [Hk Hd]. bools.
  rewrite raise_if_bind_Ok in Hd. destruct Hd as [Hl Hd]. bools.
  set (raw := tlv_value t) in *. set (k := Cmdu.kind t) in *.
  destruct (link_records_join k raw) as [Hraw Hf]; [lia|done|].
  fold (unpack_links k (link_records k raw)) in Hd. apply result_bind_Ok in Hd as (l & Hu & Hd).
  apply result_bind_Ok in Hd as (t' & Ht & Hm). apply Ok_inj in Hm as <-.
  destruct (unpack_links_octets k _ l Hk Hu Hf) as [Ho Hkind].
  pose proof (link_tlv_Ok _ _ Ht) as (Et & _). rewrite Ht, Et. simpl. rewrite Ho, Hkind, <- Hraw. by destruct t.
Qed.

(** * Properties *)

(** The link metric codec is exact. [decode_metrics] accepts a TLV exactly when it is the TLV
    [LinkMetrics.tlv] emits for some metrics, and returns those: nothing that is emitted is misread,
    and nothing is accepted that would not be emitted octet for octet. *)
Theorem link_metrics_codec t m : decode_metrics t = Ok m ↔ link_tlv m = Ok t.
Proof. split; [apply link_tlv_decode|apply decode_link_tlv]. Qed.

Example link_metrics_emitted :
  decode_metrics (mkTlv 10 (octets ([2; 0; 0; 0; 0; 9] ++ [2; 0; 0; 0; 0; 8] ++ [2; 0; 0; 0; 0; 1] ++ [2; 0; 0; 0; 0; 2]
    ++ [1; 3] ++ [0; 0; 0; 5] ++ [0; 0; 1; 0] ++ [40]))) =
  Ok (mkLinkMetrics (octets [2; 0; 0; 0; 0; 9]) (octets [2; 0; 0; 0; 0; 8])
        (RxLinks [mkRxLink (octets [2; 0; 0; 0; 0; 1]) (octets [2; 0; 0; 0; 0; 2]) 0x103 5 256 40])).
Proof. vm_compute. reflexivity. Qed.
