(* ===== verification/LinkCoordinator.v ===== *)
(** * Link measurements and their coordinator: [src/emosa/wire/link_metrics.py]

    [LinkMetricSource], [LinkMetricCoordinator] and [BackhaulLinkMetrics]. The report source, the clock
    and the link are the [World] of [Session]; the token of a sample is given. *)

From stdpp Require Import sorting.
From S2P Require Import Prelude Bytes Cmdu Payloads TopologyValues Reports Channel ReportSource Session LinkMetrics.

Record LinkBinding := mkLinkBinding {
  lb_neighbor_al : bytes;
  lb_local : bytes;
  lb_remote : bytes;
  lb_media : Z;
  lb_bridges : bool
}.

(** [topology_key(snapshot)] *)
Definition topology_key_t : Type := Device * list (bytes * list Neighbor).
Definition topology_key (a : ReportSnapshot) : topology_key_t := (device (topology a), neighbors1905 (topology a)).

Record LinkSample := mkLinkSample {
  sm_context : string;
  sm_topology : topology_key_t;
  counter_epoch : string;
  interval_started : Z;
  sm_stamp : ReportStamp;
  inventory : list LinkBinding;
  sm_metrics : list LinkMetrics
}.

(** The source and the coordinator on it. *)
Definition link_key : Type := Z * LinkMetricQuery.
Record LinkState := mkLinkState {
  l_io : Io;
  sample : option LinkSample;
  watermark : option LinkSample;
  l_counts : gmap string Z;
  l_closed : bool;
  l_waiting : list (link_key * (Message * Z * string * topology_key_t))
}.
#[export] Instance eta_LinkState : Eta LinkState := λ s,
  mkLinkState (l_io s) (sample s) (watermark s) (l_counts s) (l_closed s) (l_waiting s).

Definition l_on_io {A} (m : M Io A) : M LinkState A := λ s, let '(r, i) := m (l_io s) in (r, s <| l_io := i |>).

(** ** Publication *)

(** The arguments of [publish]. *)
Record Measurement := mkMeasurement {
  me_context : string;
  me_epoch : string;
  me_started : Z;
  me_observed : Z;
  me_inventory : list LinkBinding;
  me_metrics : list LinkMetrics;
  me_complete : bool;
  me_lifetime : Z
}.

Definition pair_key : Type := bytes * bytes * bytes.
Definition binding_key (row : LinkBinding) : pair_key := (lb_neighbor_al row, lb_local row, lb_remote row).

(** [local] and [expected] *)
Definition local_media (a : ReportSnapshot) : gmap bytes Z :=
  dict_of ((λ i, (li_mac i, media_type i)) <$> device_interfaces (device (topology a))).
Definition expected_links (a : ReportSnapshot) : gmap (bytes * bytes) bool :=
  dict_of (neighbors1905 (topology a) ≫= λ r, (λ n, ((r.1, n_al_mac n), bridges_present n)) <$> r.2).

(** One row of the inventory; [pairs] are those accepted so far. *)
Definition publish_row (local : gmap bytes Z) (expected : gmap (bytes * bytes) bool) (local_al : bytes)
    (pairs : list LinkBinding) (row : LinkBinding) : result (list LinkBinding) :=
  _ ← link_identity (lb_neighbor_al row);
  _ ← link_identity (lb_local row);
  _ ← link_identity (lb_remote row);
  _ ← raise_if (bool_decide (binding_key row ∈ binding_key <$> pairs) || bool_decide (lb_neighbor_al row = local_al))
        INVALID_INPUT "duplicate or self neighbor binding";
  m ← link_media (lb_media row);
  _ ← raise_if (negb (bool_decide (local !! lb_local row = Some m))
                || negb (bool_decide (expected !! (lb_local row, lb_neighbor_al row) = Some (lb_bridges row))))
        NOT_READY "measured interface/bridge binding differs from current topology";
  Ok (pairs ++ [row]).

(** The media and bridge fields of the rows of a report, against the bindings. *)
Definition rows_agree (pairs : list LinkBinding) (m : LinkMetrics) : bool :=
  let bound local remote := list_find (λ b, binding_key b = (lm_neighbor m, local, remote)) pairs in
  match links m with
  | TxLinks l => forallb (λ r, match bound (tx_local r) (tx_neighbor r) with
                               | Some (_, b) => bool_decide (tx_media r = lb_media b) && bool_decide (tx_bridges r = lb_bridges b)
                               | None => false
                               end) l
  | RxLinks l => forallb (λ r, match bound (rx_local r) (rx_neighbor r) with
                               | Some (_, b) => bool_decide (rx_media r = lb_media b)
                               | None => false
                               end) l
  end.

(** The pairs a report must cover, and those it has. *)
Definition wanted_pairs (pairs : list LinkBinding) (m : LinkMetrics) : gset pair_key :=
  list_to_set (binding_key <$> filter (λ b, lb_neighbor_al b = lm_neighbor m) pairs).
Definition supplied_pairs (m : LinkMetrics) : gset pair_key :=
  list_to_set ((λ p, (lm_neighbor m, p.1, p.2)) <$> links_pairs (links m)).

(** One report of the metrics; [seen] are the neighbours and directions reported so far. *)
Definition publish_metrics (pairs : list LinkBinding) (local_al : bytes) (seen : list (bytes * Z)) (m : LinkMetrics) :
    result (list (bytes * Z)) :=
  t ← link_tlv m;
  _ ← raise_if (negb (bool_decide (lm_local m = local_al))) INVALID_INPUT "foreign reporting AL identity";
  let key := (lm_neighbor m, Cmdu.kind t) in
  _ ← raise_if (bool_decide (key ∈ seen)) INVALID_INPUT "duplicate neighbor/direction metrics";
  _ ← raise_if (bool_decide (wanted_pairs pairs m = ∅) || negb (bool_decide (supplied_pairs m = wanted_pairs pairs m)))
        NOT_READY "metric report must cover all observed pairs for its neighbor";
  _ ← raise_if (negb (rows_agree pairs m)) NOT_READY "metric media/bridge fields differ from measured binding";
  Ok (seen ++ [key]).

(** The order of samples within a context. *)
Definition publish_order (p : Measurement) (previous : option LinkSample) : result unit :=
  match previous with
  | Some w =>
      if bool_decide (sm_context w = me_context p) then
        _ ← raise_if (bool_decide (me_observed p ≤ observed_at (sm_stamp w))) INVALID_INPUT
              "duplicate or out-of-order link sample";
        raise_if (bool_decide (me_epoch p = counter_epoch w) && bool_decide (me_started p < interval_started w))
          INVALID_INPUT "measurement interval moved backwards within one counter epoch"
      else Ok tt
  | None => Ok tt
  end.

(** The body of [publish]: [now1] and [now2] are its clock readings, [tok] the new token. *)
Definition publish_sample (p : Measurement) (current : option ReportSnapshot) (now1 now2 : Z) (local_al : bytes)
    (previous : option LinkSample) (tok : string) : result LinkSample :=
  match current with
  | None => unavailable "link measurement does not belong to the live control context"
  | Some a =>
      _ ← raise_if (negb (bool_decide (context_token a = me_context p))) NOT_READY
            "link measurement does not belong to the live control context";
      _ ← raise_if (negb (me_complete p)) NOT_READY "complete independently observed neighbor inventory required";
      _ ← raise_if (negb (bool_decide (0 ≤ me_started p < me_observed p ∧ me_observed p ≤ now1))
                    || negb (bool_decide (0 < me_lifetime p ≤ seconds 2))) INVALID_INPUT
            "invalid link measurement interval or lifetime";
      _ ← raise_if (bool_decide (me_observed p + me_lifetime p ≤ now2)) NOT_READY "link measurements already expired";
      _ ← raise_if (negb (bool_decide (1 ≤ String.length (me_epoch p) ≤ 128)%nat)) INVALID_INPUT
            "explicit bounded link-counter epoch required";
      _ ← raise_if (bool_decide (MAX_LINKS < length (me_inventory p))%nat) INVALID_INPUT
            "neighbor inventory exceeds local budget";
      _ ← raise_if (bool_decide (2 * MAX_LINKS < length (me_metrics p))%nat) INVALID_INPUT
            "link metrics exceed local budget";
      pairs ← fold_result (publish_row (local_media a) (expected_links a) local_al) [] (me_inventory p);
      _ ← raise_if (negb (bool_decide (list_to_set ((λ b, (lb_local b, lb_neighbor_al b)) <$> me_inventory p)
                                       =@{gset (bytes * bytes)} dom (expected_links a)))) NOT_READY
            "measured neighbor inventory omits current topology";
      _ ← fold_result (publish_metrics pairs local_al) [] (me_metrics p);
      _ ← publish_order p previous;
      st ← stamp_init tok (me_observed p) (me_observed p + me_lifetime p);
      Ok (mkLinkSample (me_context p) (topology_key a) (me_epoch p) (me_started p) st (me_inventory p) (me_metrics p))
  end.

(** Orders of [sorted]: octet strings, then (octet string, integer) pairs. *)
Fixpoint bytes_le (a b : bytes) : bool :=
  match a, b with
  | [], _ => true
  | _ :: _, [] => false
  | x :: a, y :: b =>
      if byte_to_Z x <? byte_to_Z y then true else if byte_to_Z y <? byte_to_Z x then false else bytes_le a b
  end.
Definition key_le (x y : bytes * Z) : Prop := if bool_decide (x.1 = y.1) then x.2 ≤ y.2 else bytes_le x.1 y.1 = true.
#[export] Instance key_le_dec : RelDecision key_le.
Proof. intros x y. unfold key_le. destruct (bool_decide _); apply _. Defined.

Section Coordinator.
Context `{World} (binding : PeerBinding).

(** [LinkMetricSource.invalidate] *)
Definition invalidate_sample (s : LinkState) : LinkState := s <| sample := None |>.

(** [LinkMetricSource.publish] *)
Definition publish_link (p : Measurement) (tok : string) : M LinkState LinkSample :=
  current ← l_on_io poll;
  now1 ← l_on_io clock;
  now2 ← l_on_io clock;
  b ← l_on_io poll_binding;
  s ← get;
  match publish_sample p current now1 now2 (local_al b) (watermark s) tok with
  | Ok sm => _ ← put (s <| sample := Some sm |> <| watermark := Some sm |>); mret sm
  | Raise e => _ ← put (invalidate_sample s); lift (Raise e)
  end.

(** [LinkMetricSource.current] *)
Definition current_sample : M LinkState (option LinkSample) :=
  a ← l_on_io poll;
  s ← get;
  match sample s with
  | None => mret None
  | Some sm =>
      expired ← match a with
                | None => mret true
                | Some a =>
                    if negb (bool_decide (context_token a = sm_context sm)) || negb (bool_decide (topology_key a = sm_topology sm))
                    then mret true
                    else now ← l_on_io clock; mret (bool_decide (valid_until (sm_stamp sm) ≤ now))
                end;
      if expired : bool then _ ← modify invalidate_sample; mret None else mret (Some sm)
  end.

(** [LinkMetricCoordinator._stamp] *)
Definition l_stamp : M LinkState (option ReportStamp) :=
  s ← get;
  if l_closed s then mret None else sm ← current_sample; mret (sm_stamp <$> sm).

Definition l_count (event : string) : M LinkState unit :=
  modify (λ s, s <| l_counts := count event (l_counts s) |>).

(** [available]: the TLV of each neighbour and direction *)
Definition available_tlvs (sm : LinkSample) : result (list ((bytes * Z) * Tlv)) :=
  map_result (λ r, t ← link_tlv r; Ok ((lm_neighbor r, Cmdu.kind t), t)) (sm_metrics sm).

(** [wanted]: the neighbours and directions the query asks for *)
Definition wanted_keys (sm : LinkSample) (query : LinkMetricQuery) : list (bytes * Z) :=
  let selected := match q_neighbor query with None => lb_neighbor_al <$> inventory sm | Some n => [n] end in
  let kinds := if bool_decide (direction query = 2) then [9; 10] else [9 + direction query] in
  remove_dups (selected ≫= λ n, pair n <$> kinds).

(** The TLVs of the response, or [None] when a measurement is missing. *)
Definition response_tlvs (sm : LinkSample) (query : LinkMetricQuery) : result (option (list Tlv)) :=
  if match q_neighbor query with
     | Some n => negb (bool_decide (n ∈ lb_neighbor_al <$> inventory sm))
     | None => false
     end
  then Ok (Some [mkTlv 12 (octets [0])])
  else
    available ← available_tlvs sm;
    let table := dict_of available in
    let wanted := wanted_keys sm query in
    if forallb (λ k, bool_decide (is_Some (table !! k))) wanted
    then Ok (Some (omap (λ k, table !! k) (merge_sort key_le wanted)))
    else Ok None.

(** [_answer(message, query, received_at)] *)
Definition l_answer (message : Message) (query : LinkMetricQuery) (received_at : Z) : M LinkState bool :=
  sm ← current_sample;
  match sm with
  | None => mret false
  | Some sm =>
      tlvs ← lift (response_tlvs sm query);
      match tlvs with
      | None => mret false
      | Some tlvs =>
          fs ← lift (fragment_message (controller_al binding) (local_al binding) 6 (m_mid message) tlvs false MAX_CMDU);
          _ ← send (λ f, l_on_io (send_frame f)) l_stamp (l_on_io clock)
                (mkPreparedReport 6 (m_mid message) (sm_stamp sm)
                   (Z.min (received_at + seconds 1) (valid_until (sm_stamp sm))) fs);
          _ ← l_count "response_sent";
          mret true
      end
  end.

(** [self.waiting.get(key)], [self.waiting.pop(key, None)], [self.waiting[key] = entry] *)
Definition l_get (key : link_key) (s : LinkState) : option (Message * Z * string * topology_key_t) :=
  snd <$> (snd <$> list_find (λ kv, kv.1 = key) (l_waiting s)).
Definition l_drop (key : link_key) (s : LinkState) : LinkState :=
  s <| l_waiting := filter (λ kv, kv.1 ≠ key) (l_waiting s) |>.
Definition l_wait (key : link_key) (entry : Message * Z * string * topology_key_t) (s : LinkState) : LinkState :=
  s <| l_waiting := l_waiting s ++ [(key, entry)] |>.

(** A queued query whose context or deadline has gone. *)
Definition l_stale (a : option ReportSnapshot) (received_at : Z) (context : string) (top : topology_key_t) :
    M LinkState bool :=
  match a with
  | None => mret true
  | Some a =>
      if negb (bool_decide (context_token a = context)) || negb (bool_decide (topology_key a = top)) then mret true
      else now ← l_on_io clock; mret (bool_decide (received_at + seconds 1 ≤ now))
  end.

(** The receipt time of a query: that of the first one queued under its key. *)
Definition l_first_receipt (key : link_key) (received_at : Z) : M LinkState Z :=
  s ← get;
  match l_get key s with
  | None => mret received_at
  | Some (_, first, context, top) =>
      a ← l_on_io poll;
      stale ← l_stale a first context top;
      if stale : bool then
        _ ← modify (l_drop key);
        lift (unavailable "queued link query context or deadline expired")
      else mret first
  end.

(** [handle(message, received_at, ingress=ingress, generation=generation)] *)
Definition l_handle (message : Message) (received_at : Z) (ingress : string) (generation : Z) :
    M LinkState (option string) :=
  if negb (bool_decide (m_message_type message = 5)) then mret None
  else
    s ← get;
    if l_closed s then lift (unavailable "link metric coordinator closed")
    else
      _ ← lift (binding_check binding (m_destination message) (m_source message) ingress generation);
      _ ← lift (raise_if (m_relay message || existsb (λ t, bool_decide (Cmdu.kind t ∈ SECURITY_ENVELOPES)) (m_tlvs message))
                  INVALID_INPUT "link metric query must not be relayed");
      now ← l_on_io clock;
      _ ← lift (raise_if (negb (bool_decide (received_at ≤ now < received_at + seconds 1))) NOT_READY
                  "link metric query response deadline expired");
      query ← lift (decode_link_query (m_tlvs message));
      let key := (m_mid message, query) in
      first ← l_first_receipt key received_at;
      _ ← modify (l_drop key);
      done ← l_answer message query first;
      if done : bool then mret (Some "neighbor_link_metric_response_sent")
      else
        a ← l_on_io poll;
        s ← get;
        _ ← match a with
            | Some a =>
                if bool_decide (length (l_waiting s) < 4)%nat
                then modify (l_wait key (message, first, context_token a, topology_key a)) else mret tt
            | None => mret tt
            end;
        _ ← l_count "measurement_unavailable";
        mret (Some "neighbor_measurement_unavailable").

(** One queued query of [tick]; [a] is the snapshot it read. *)
Definition l_tick_one (a : option ReportSnapshot) (entry : link_key * (Message * Z * string * topology_key_t)) :
    M LinkState unit :=
  let '(key, (message, received_at, context, top)) := entry in
  s ← get;
  stale ← (if l_closed s then mret true else l_stale a received_at context top);
  if stale : bool then
    _ ← modify (l_drop key); l_count "waiting_query_withdrawn"
  else
    try_else (l_answer message key.2 received_at)
      (λ done : bool, if done then modify (l_drop key) else mret tt)
      (λ _, _ ← modify (l_drop key); l_count "waiting_query_send_failed").

(** [tick()] *)
Definition l_tick : M LinkState unit :=
  a ← l_on_io poll;
  s ← get;
  for_each (l_tick_one a) (l_waiting s).

(** [close()] *)
Definition l_close (s : LinkState) : LinkState := s <| l_closed := true |> <| l_waiting := [] |>.

Definition l_init (io : Io) : LinkState := mkLinkState io None None ∅ false [].
End Coordinator.

(** ** The backhaul neighbours *)

Definition COUNTER : Z := 0xFFFFFFFF.

(** [BackhaulPair]: [tx] is (errors, packets, rate), [rx] is (errors, packets, SNR) *)
Record BackhaulPair := mkBackhaulPair {
  bp_neighbor : bytes;
  bp_local : bytes;
  bp_remote : bytes;
  bp_media : Z;
  bp_tx : option (Z * Z * Z);
  bp_rx : option (Z * Z * Z)
}.

Definition backhaul_tx (p : BackhaulPair) (tx : Z * Z * Z) : TxLink :=
  let '(errors, packets, rate) := tx in
  mkTxLink (bp_local p) (bp_remote p) (bp_media p) false (Z.min errors COUNTER) (Z.min packets COUNTER)
    (Z.min rate 65535) 100 65535.
Definition backhaul_rx (p : BackhaulPair) (rx : Z * Z * Z) : RxLink :=
  let '(errors, packets, snr) := rx in
  mkRxLink (bp_local p) (bp_remote p) (bp_media p) (Z.min errors COUNTER) (Z.min packets COUNTER)
    (Z.max 0 (Z.min snr 254)).

(** The metrics of one pair the query asks for. *)
Definition backhaul_pair_metrics (local : bytes) (query : LinkMetricQuery) (p : BackhaulPair) : list LinkMetrics :=
  if match q_neighbor query with Some n => negb (bool_decide (bp_neighbor p = n)) | None => false end then []
  else
    (if bool_decide (direction query ∈ [0; 2]) then
       match bp_tx p with Some tx => [mkLinkMetrics local (bp_neighbor p) (TxLinks [backhaul_tx p tx])] | None => [] end
     else [])
    ++ (if bool_decide (direction query ∈ [1; 2]) then
          match bp_rx p with Some rx => [mkLinkMetrics local (bp_neighbor p) (RxLinks [backhaul_rx p rx])] | None => [] end
        else []).

(** [BackhaulLinkMetrics.handle] *)
Definition backhaul_handle `{World} (local controller : bytes) (pairs : list BackhaulPair) (message : Message) :
    M Io (option string) :=
  if negb (bool_decide (m_message_type message = 5)) then mret None
  else
    query ← lift (decode_link_query (m_tlvs message));
    tlvs ← lift (map_result link_tlv (pairs ≫= backhaul_pair_metrics local query));
    if bool_decide (length tlvs = 0%nat) then mret None
    else
      fs ← lift (fragment_message controller local 6 (m_mid message) tlvs false MAX_CMDU);
      _ ← for_each send_frame fs;
      mret (Some "backhaul_link_metric_response_sent").

(** * Theory *)

(** ** Published samples *)

Lemma publish_rows_Ok local expected al rows pairs :
  fold_result (publish_row local expected al) [] rows = Ok pairs →
  pairs = rows ∧ NoDup (binding_key <$> rows) ∧
  Forall (λ r, expected !! (lb_local r, lb_neighbor_al r) = Some (lb_bridges r) ∧ lb_neighbor_al r ≠ al) rows.
Proof.
  assert (Hgen : ∀ acc, NoDup (binding_key <$> acc) →
    fold_result (publish_row local expected al) acc rows = Ok pairs →
    pairs = acc ++ rows ∧ NoDup (binding_key <$> (acc ++ rows)) ∧
    Forall (λ r, expected !! (lb_local r, lb_neighbor_al r) = Some (lb_bridges r) ∧ lb_neighbor_al r ≠ al) rows).
  { induction rows as [|r rows IH]; intros acc Hnd; simpl.
    - intros Hp. apply Ok_inj in Hp as <-. rewrite app_nil_r. auto.
    - intros (acc' & Hr & Hp)%result_bind_Ok. unfold publish_row in Hr. inv_ok. bools.
      apply IH in Hp as (-> & Hn & Hf).
      + rewrite <- app_assoc in *. split; [done|]. split; [done|]. by constructor.
      + rewrite fmap_app. apply NoDup_app. split; [done|]. split; [|apply NoDup_singleton].
        intros k Hk ->%list_elem_of_singleton. done. }
  intros Hp. by apply Hgen in Hp; [|constructor].
Qed.

(** A report of a sample: complete for its neighbour. *)
Definition metrics_ok (rows : list LinkBinding) (al : bytes) (m : LinkMetrics) : Prop :=
  is_ok (link_tlv m) = true ∧ lm_local m = al ∧ wanted_pairs rows m ≠ ∅ ∧ supplied_pairs m = wanted_pairs rows m ∧
  rows_agree rows m = true.
Definition metrics_key (m : LinkMetrics) : bytes * Z := (lm_neighbor m, links_kind (links m)).

Lemma publish_metrics_Ok rows al ms seen :
  fold_result (publish_metrics rows al) [] ms = Ok seen →
  NoDup (metrics_key <$> ms) ∧ Forall (metrics_ok rows al) ms.
Proof.
  assert (Hgen : ∀ acc, NoDup acc → fold_result (publish_metrics rows al) acc ms = Ok seen →
    NoDup (acc ++ (metrics_key <$> ms)) ∧ Forall (metrics_ok rows al) ms).
  { induction ms as [|m ms IH]; intros acc Hnd; simpl.
    - intros Hp. rewrite app_nil_r. auto.
    - intros (acc' & Hr & Hp)%result_bind_Ok. unfold publish_metrics in Hr.
      apply result_bind_Ok in Hr as (t & Ht & Hr). pose proof (link_tlv_Ok m t Ht) as (Et & _).
      rewrite Et in Hr. cbn [Cmdu.kind] in Hr. clear Et. inv_ok. bools.
      apply IH in Hp as (Hn & Hf).
      + rewrite <- app_assoc in Hn. split; [exact Hn|]. constructor; [|done]. unfold metrics_ok. by rewrite Ht.
      + apply NoDup_app. split; [done|]. split; [|apply NoDup_singleton].
        intros k Hin ->%list_elem_of_singleton. done. }
  intros Hp. by apply (Hgen []) in Hp; [|constructor].
Qed.

(** What a publication shows: the sample is of the live context, its rows are exactly the neighbours of
    the topology, and its reports cover their neighbours. *)
Record sample_ok (a : ReportSnapshot) (al : bytes) (sm : LinkSample) : Prop := {
  sk_context : context_token a = sm_context sm;
  sk_topology : sm_topology sm = topology_key a;
  sk_inventory : ∀ iface neighbor b, expected_links a !! (iface, neighbor) = Some b ↔
    ∃ row, row ∈ inventory sm ∧ lb_local row = iface ∧ lb_neighbor_al row = neighbor ∧ lb_bridges row = b;
  sk_rows : NoDup (binding_key <$> inventory sm);
  sk_reports : NoDup (metrics_key <$> sm_metrics sm);
  sk_covered : Forall (metrics_ok (inventory sm) al) (sm_metrics sm);
  sk_lease : 0 < valid_until (sm_stamp sm) - observed_at (sm_stamp sm) ≤ seconds 2
}.

Lemma publish_order_Ok p w :
  publish_order p w = Ok tt → ∀ old, w = Some old → sm_context old = me_context p →
  observed_at (sm_stamp old) < me_observed p ∧ (me_epoch p = counter_epoch old → interval_started old ≤ me_started p).
Proof.
  intros Ho old -> Hc. unfold publish_order in Ho. rewrite bool_decide_eq_true_2 in Ho by done. inv_ok. bools.
  rewrite decide_andb_false in Ho. split; [lia|]. intros He. specialize (Ho He). bools. lia.
Qed.

Lemma publish_sample_Ok p cur now1 now2 al w tok sm :
  publish_sample p cur now1 now2 al w tok = Ok sm →
  ∃ a, cur = Some a ∧ sample_ok a al sm ∧ observed_at (sm_stamp sm) ≤ now1 ∧ now2 < valid_until (sm_stamp sm) ∧
    ∀ old, w = Some old → sm_context old = sm_context sm → observed_at (sm_stamp old) < observed_at (sm_stamp sm) ∧
      (counter_epoch sm = counter_epoch old → interval_started old ≤ interval_started sm).
Proof.
  destruct cur as [a|]; [|done]. unfold publish_sample. rewrite !raise_if_bind_Ok.
  intros (Hctx & Hcomp & Htime & Hexp & _ & _ & _ & Hp). bools.
  apply result_bind_Ok in Hp as (pairs & Hrows & Hp). apply publish_rows_Ok in Hrows as (-> & Hnd & Hf).
  rewrite raise_if_bind_Ok in Hp. destruct Hp as [Hdom Hp]. bools.
  apply result_bind_Ok in Hp as (seen & Hm & Hp). apply publish_metrics_Ok in Hm as [Hn Hms].
  apply result_bind_Ok in Hp as ([] & Hord & Hp). apply result_bind_Ok in Hp as (st & Hst & Hp).
  unfold stamp_init in Hst. rewrite !raise_if_bind_Ok in Hst. destruct Hst as (_ & Hlease & Hst). bools.
  apply Ok_inj in Hst as <-. apply Ok_inj in Hp as <-. exists a. split; [done|]. simpl.
  split; [|split; [lia|split; [lia|exact (publish_order_Ok p w Hord)]]].
  split; simpl; try done. intros iface neighbor b. split.
  - intros He. assert (Hin : (iface, neighbor) ∈ dom (expected_links a)) by (apply elem_of_dom; eauto).
    rewrite <- Hdom in Hin. apply elem_of_list_to_set, list_elem_of_fmap in Hin as (row & [= -> ->] & Hrow).
    exists row. repeat split; [done|]. rewrite Forall_forall in Hf. destruct (Hf row Hrow) as [E _].
    rewrite E in He. by injection He.
  - intros (row & Hrow & <- & <- & <-). rewrite Forall_forall in Hf. by apply Hf.
Qed.

(** ** The responses *)

Lemma bytes_le_total a b : bytes_le a b = true ∨ bytes_le b a = true.
Proof.
  revert b. induction a as [|x a IH]; intros [|y b]; simpl; auto.
  destruct (byte_to_Z x <? byte_to_Z y) eqn:E1; [auto|]. destruct (byte_to_Z y <? byte_to_Z x) eqn:E2; auto.
Qed.
#[export] Instance key_le_total : Total key_le.
Proof.
  intros x y. unfold key_le. destruct (decide (x.1 = y.1)) as [E|E].
  - rewrite !bool_decide_eq_true_2 by done. lia.
  - rewrite !bool_decide_eq_false_2 by done. apply bytes_le_total.
Qed.

(** The TLVs of a response: of the wanted neighbours and directions, in order. *)
Definition answers (sm : LinkSample) (query : LinkMetricQuery) (tlvs : list Tlv) : Prop :=
  (∃ n, q_neighbor query = Some n ∧ (n ∉ lb_neighbor_al <$> inventory sm) ∧ tlvs = [mkTlv 12 (octets [0])]) ∨
  (∀ n, q_neighbor query = Some n → n ∈ lb_neighbor_al <$> inventory sm) ∧
  ∃ keys, Sorted key_le keys ∧ NoDup keys ∧
    (∀ n k, (n, k) ∈ keys ↔
       n ∈ lb_neighbor_al <$> inventory sm ∧ (q_neighbor query = None ∨ q_neighbor query = Some n) ∧
       (if bool_decide (direction query = 2) then k = 9 ∨ k = 10 else k = 9 + direction query)) ∧
    Forall2 (λ key t, ∃ m, m ∈ sm_metrics sm ∧ metrics_key m = key ∧ link_tlv m = Ok t) keys tlvs.

Lemma wanted_keys_elem sm query n k :
  (∀ m, q_neighbor query = Some m → m ∈ lb_neighbor_al <$> inventory sm) →
  (n, k) ∈ wanted_keys sm query ↔
    n ∈ lb_neighbor_al <$> inventory sm ∧ (q_neighbor query = None ∨ q_neighbor query = Some n) ∧
    (if bool_decide (direction query = 2) then k = 9 ∨ k = 10 else k = 9 + direction query).
Proof.
  intros Hq. unfold wanted_keys. rewrite elem_of_remove_dups, list_elem_of_bind. split.
  - intros (m & Hk & Hm). apply list_elem_of_fmap in Hk as (k' & [= -> ->] & Hk).
    assert (Hs : m ∈ lb_neighbor_al <$> inventory sm ∧ (q_neighbor query = None ∨ q_neighbor query = Some m)).
    { destruct (q_neighbor query) as [n0|]; [|auto]. apply list_elem_of_singleton in Hm as ->. auto. }
    destruct Hs. split; [done|]. split; [done|]. destruct (bool_decide _); set_solver.
  - intros (Hn & Hs & Hk). exists n. split.
    + apply list_elem_of_fmap. exists k. split; [done|]. destruct (bool_decide _); set_solver.
    + destruct Hs as [->| ->]; [done|]. set_solver.
Qed.

Lemma dict_of_Some {K V} `{Countable K} (l : list (K * V)) k v : dict_of l !! k = Some v → (k, v) ∈ l.
Proof. intros Hl. apply elem_of_list_to_map_2 in Hl. by rewrite elem_of_reverse in Hl. Qed.

Lemma available_Some sm table k t :
  available_tlvs sm = Ok table → (k, t) ∈ table → ∃ m, m ∈ sm_metrics sm ∧ metrics_key m = k ∧ link_tlv m = Ok t.
Proof.
  intros Ha Hin. apply map_result_Ok in Ha. apply list_elem_of_lookup in Hin as [i Hi].
  destruct (Forall2_lookup_r _ _ _ _ _ Ha Hi) as (m & Hm & Hr). apply result_bind_Ok in Hr as (t' & Ht & Hr).
  apply Ok_inj in Hr. injection Hr as <- <-. exists m. split; [by eapply list_elem_of_lookup_2|].
  pose proof (link_tlv_Ok m t' Ht) as (-> & _). done.
Qed.

Lemma Forall2_omap {A B} (f : A → option B) (P : A → B → Prop) l :
  Forall (λ x, is_Some (f x)) l → (∀ x y, f x = Some y → P x y) → Forall2 P l (omap f l).
Proof.
  intros Hl HP. induction Hl as [|x l [y Hy] _ IH]; [constructor|]. simpl. rewrite Hy. constructor; [by apply HP|exact IH].
Qed.

Lemma response_tlvs_answers sm query tlvs : response_tlvs sm query = Ok (Some tlvs) → answers sm query tlvs.
Proof.
  unfold response_tlvs. intros Hr.
  destruct (match q_neighbor query with Some n => _ | None => false end) eqn:Eq.
  { left. destruct (q_neighbor query) as [n|]; [|done]. bools. apply Ok_inj in Hr as [= <-]. eauto. }
  right. assert (Hq : ∀ m, q_neighbor query = Some m → m ∈ lb_neighbor_al <$> inventory sm).
  { intros m Hm. rewrite Hm in Eq. by bools. }
  split; [done|]. apply result_bind_Ok in Hr as (table & Ha & Hr).
  destruct (forallb _ _) eqn:Ef; [|by apply Ok_inj in Hr]. apply Ok_inj in Hr as [= <-].
  exists (merge_sort key_le (wanted_keys sm query)). split; [apply (Sorted_merge_sort _)|].
  pose proof (merge_sort_Permutation key_le (wanted_keys sm query)) as Hp.
  split; [rewrite Hp; apply NoDup_remove_dups|]. split; [intros n k; rewrite Hp; by apply wanted_keys_elem|].
  assert (Hall : Forall (λ k, is_Some (dict_of table !! k)) (merge_sort key_le (wanted_keys sm query))).
  { rewrite Hp. apply Forall_forall. intros k Hk. apply Is_true_true, forallb_True in Ef.
    rewrite Forall_forall in Ef. by apply Ef, bool_decide_unpack in Hk. }
  apply Forall2_omap; [done|]. intros k t Hk. by eapply available_Some, dict_of_Some.
Qed.

(** ** The coordinator over time *)

Section Theory.
Context `{World} (binding : PeerBinding).

Definition l_out (s : LinkState) : list bytes := (sent (l_io s)).*2.

(** A sample of a publication that was complete. *)
Definition sample_published (sm : LinkSample) : Prop :=
  ∃ n b a, world_source n = Some a ∧ sample_ok a (local_al b) sm.

(** A sample shown: its context and topology are the source's, and its lease runs. *)
Definition sample_fresh (sm : LinkSample) : Prop :=
  ∃ n m a, world_source n = Some a ∧ context_token a = sm_context sm ∧ topology_key a = sm_topology sm ∧
    world_clock m < valid_until (sm_stamp sm).

(** The invariant, with the queries that wait. *)
Record link_core (w : list (link_key * (Message * Z * string * topology_key_t))) (s : LinkState) : Prop := {
  lk_sample : ∀ sm, sample s = Some sm → sample_published sm;
  lk_waiting : l_waiting s = w
}.
Definition link_ok (s : LinkState) : Prop :=
  (∀ sm, sample s = Some sm → sample_published sm) ∧ NoDup (l_waiting s).*1 ∧ (length (l_waiting s) ≤ 4)%nat.

Lemma core_io {A} w (m : M Io A) : keeps (link_core w) (l_on_io m).
Proof. intros s []. unfold l_on_io. by destruct (m (l_io s)) as [[a|e] i]. Qed.
Lemma core_modify w f :
  (∀ s, sample (f s) = sample s ∧ l_waiting (f s) = l_waiting s) → keeps (link_core w) (modify f).
Proof. intros Hf. apply keeps_modify. intros s []. destruct (Hf s) as [E1 E2]. split; [by rewrite E1|by rewrite E2]. Qed.
Lemma core_current w : keeps (link_core w) current_sample.
Proof.
  unfold current_sample. apply keeps_bind; [apply core_io|]. intros a. apply keeps_get. intros s.
  destruct (sample s) as [sm|]; [|apply keeps_mret]. apply keeps_bind.
  - destruct a; [|apply keeps_mret]. destruct (_ || _); [apply keeps_mret|].
    apply keeps_bind; [apply core_io|intros; apply keeps_mret].
  - intros [|]; [|apply keeps_mret]. apply keeps_bind; [|intros; apply keeps_mret].
    apply keeps_modify. intros s' []. by split.
Qed.
Lemma core_stamp w : keeps (link_core w) l_stamp.
Proof.
  apply keeps_get. intros s. destruct (l_closed s); [apply keeps_mret|].
  apply keeps_bind; [apply core_current|intros; apply keeps_mret].
Qed.
Lemma core_answer w message query at_ : keeps (link_core w) (l_answer binding message query at_).
Proof.
  unfold l_answer. apply keeps_bind; [apply core_current|]. intros [sm|]; [|apply keeps_mret].
  apply keeps_bind; [apply keeps_lift|]. intros [tlvs|]; [|apply keeps_mret].
  apply keeps_bind; [apply keeps_lift|]. intros fs.
  apply keeps_bind; [apply keeps_send; [intros; apply core_io|apply core_stamp|apply core_io]|]. intros k.
  apply keeps_bind; [by apply core_modify|intros; apply keeps_mret].
Qed.

(** What is handed over, and when. *)
Lemma out_io {A} (m : M Io A) s : silent m → l_out (l_on_io m s).2 = l_out s.
Proof. intros Hm. specialize (Hm (l_io s)). unfold l_out, l_on_io. destruct (m (l_io s)) as [r i]. simpl in *. by rewrite Hm. Qed.

Lemma current_sample_run s :
  ∃ r s', current_sample s = (Ok r, s') ∧ l_out s' = l_out s ∧
    ∀ sm, r = Some sm → sample s = Some sm ∧ sample_fresh sm.
Proof.
  unfold current_sample. unfold mbind at 1, M_mbind at 1. unfold l_on_io at 1, poll. cbn beta iota zeta.
  unfold mbind at 1, M_mbind at 1, get. cbn beta iota.
  set (s1 := s <| l_io := l_io s <| asked := S (asked (l_io s)) |> |>).
  assert (Ho1 : l_out s1 = l_out s) by done. assert (Hs1 : sample s1 = sample s) by done. rewrite Hs1.
  destruct (sample s) as [sm|] eqn:Es; [|eexists _, _; split; [reflexivity|done]].
  destruct (world_source _) as [a|] eqn:Ea; [|eexists _, _; split; [reflexivity|done]].
  destruct (_ || _) eqn:Eb; [eexists _, _; split; [reflexivity|done]|]. bools.
  unfold mbind at 1, M_mbind at 1. unfold mbind at 1, M_mbind at 1. unfold l_on_io, clock.
  cbn beta iota zeta. unfold mret, M_mret. cbn beta iota zeta.
  case_bool_decide as Hd; [eexists _, _; split; [reflexivity|done]|].
  eexists _, _. split; [reflexivity|]. split; [done|]. intros sm' [= <-]. split; [done|].
  eexists _, _, a. repeat split; [done|done|done|]. by apply Z.nle_gt.
Qed.

Lemma stamp_out s : l_out (l_stamp s).2 = l_out s.
Proof.
  unfold l_stamp, mbind at 1, M_mbind at 1, get. destruct (l_closed s); [done|].
  unfold mbind, M_mbind. by destruct (current_sample_run s) as (r & s' & -> & Ho & _).
Qed.

Lemma l_answer_run message query at_ s :
  let '(r, s') := l_answer binding message query at_ s in
  ∃ new, l_out s' = l_out s ++ new ∧ (r = Ok false → new = []) ∧
    (r = Ok true → ∃ sm tlvs, sample s = Some sm ∧ sample_fresh sm ∧ response_tlvs sm query = Ok (Some tlvs) ∧
       fragment_message (controller_al binding) (local_al binding) 6 (m_mid message) tlvs false MAX_CMDU = Ok new).
Proof.
  unfold l_answer. unfold mbind at 1, M_mbind at 1.
  destruct (current_sample_run s) as (r & s1 & -> & Ho & Hr).
  destruct r as [sm|]; [|exists []; rewrite app_nil_r; done].
  destruct (Hr sm eq_refl) as [Hsm Hfresh]. unfold mbind at 1, M_mbind at 1, lift at 1.
  destruct (response_tlvs sm query) as [[tlvs|]|e] eqn:Et; [|exists []; rewrite app_nil_r; done..].
  unfold mbind at 1, M_mbind at 1, lift at 1.
  destruct (fragment_message _ _ _ _ _ _ _) as [fs|e] eqn:Ef; [|exists []; rewrite app_nil_r; done].
  set (report := mkPreparedReport _ _ _ _ fs).
  destruct (send_out l_out (λ f, l_on_io (send_frame f)) l_stamp (l_on_io clock)) with (self := report) (s := s1)
    as (new & Hn & Hp & Hk).
  - intros f s0. unfold l_out, l_on_io, send_frame. simpl. by rewrite fmap_app.
  - apply stamp_out.
  - intros s0. by apply out_io.
  - unfold mbind, M_mbind, l_count, modify, mret, M_mret.
    destruct (send _ _ _ report s1) as [[k|e] s2]; simpl in Hn, Hk; exists new.
    + split; [unfold l_out in *; simpl; by rewrite Hn, Ho|]. split; [done|].
      intros _. exists sm, tlvs. rewrite (Hk k eq_refl). done.
    + split; [by rewrite Hn, Ho|done].
Qed.

(** ** The handlers *)

Lemma core_ok w s : link_core w s → NoDup w.*1 → (length w ≤ 4)%nat → link_ok s.
Proof. intros [? Hw] ? ?. unfold link_ok. by rewrite Hw. Qed.
Lemma ok_core s : link_ok s → link_core (l_waiting s) s.
Proof. by intros (? & _). Qed.

Lemma keeps_ok {A} (m : M LinkState A) : (∀ w, keeps (link_core w) m) → keeps link_ok m.
Proof.
  intros Hm s (Hs & Hn & Hl). specialize (Hm (l_waiting s) s (ok_core s (conj Hs (conj Hn Hl)))).
  destruct (m s) as [[a|e] s']; by eapply core_ok.
Qed.

Lemma drop_link_ok key : keeps link_ok (modify (l_drop key)).
Proof.
  apply keeps_modify. intros s (Hs & Hn & Hl). split; [done|]. split; simpl; [by apply od_pop_NoDup|].
  etrans; [apply length_filter|done].
Qed.

Lemma core_stale w a at_ context top : keeps (link_core w) (l_stale a at_ context top).
Proof.
  unfold l_stale. destruct a; [|apply keeps_mret]. destruct (_ || _); [apply keeps_mret|].
  apply keeps_bind; [apply core_io|intros; apply keeps_mret].
Qed.

Lemma first_receipt_ok key at_ : keeps link_ok (l_first_receipt key at_).
Proof.
  unfold l_first_receipt. apply keeps_get. intros s. destruct (l_get key s) as [[[[? ?] ?] ?]|]; [|apply keeps_mret].
  apply keeps_bind; [apply keeps_ok; intros; apply core_io|]. intros a.
  apply keeps_bind; [apply keeps_ok; intros; apply core_stale|]. intros [|]; [|apply keeps_mret].
  apply keeps_bind; [apply drop_link_ok|intros; apply keeps_lift].
Qed.

(** The query is dropped, answered or queued again: it is queued at most once. *)
Definition l_settle (message : Message) (query : LinkMetricQuery) (first : Z) : M LinkState (option string) :=
  let key := (m_mid message, query) in
  _ ← modify (l_drop key);
  done ← l_answer binding message query first;
  if done : bool then mret (Some "neighbor_link_metric_response_sent")
  else
    a ← l_on_io poll;
    s ← get;
    _ ← match a with
        | Some a =>
            if bool_decide (length (l_waiting s) < 4)%nat
            then modify (l_wait key (message, first, context_token a, topology_key a)) else mret tt
        | None => mret tt
        end;
    _ ← l_count "measurement_unavailable";
    mret (Some "neighbor_measurement_unavailable").

Lemma settle_ok message query first : keeps link_ok (l_settle message query first).
Proof.
  intros s Hs. unfold l_settle. set (key := (m_mid message, query)). set (w := filter (λ kv, kv.1 ≠ key) (l_waiting s)).
  pose proof Hs as (_ & Hn & Hl).
  assert (Hw : NoDup w.*1 ∧ (length w ≤ 4)%nat).
  { split; [by apply od_pop_NoDup|]. etrans; [apply length_filter|done]. }
  assert (Hk : key ∉ w.*1).
  { intros ([k x] & -> & [Hne _]%list_elem_of_filter)%list_elem_of_fmap. done. }
  assert (Hd : link_core w (l_drop key s)) by (split; [apply Hs|done]).
  unfold mbind at 1, M_mbind at 1, modify at 1. cbn beta iota. revert Hd. generalize (l_drop key s).
  clearbody w. clear s Hs Hn Hl.
  assert (Hcw : ∀ s, link_core w s → link_ok s) by (intros s Hs; destruct Hw; by apply (core_ok w)).
  assert (Hend : ∀ (e : EmosaError) s, link_core w s → link_ok s) by auto.
  apply (hoare_bind (link_core w) _ _ (λ _, link_core w)).
  { eapply hoare_weaken; [apply core_answer|done|done|exact Hend]. }
  intros [|]; [apply hoare_ret; exact Hcw|].
  apply (hoare_bind _ _ _ (λ _, link_core w)); [eapply hoare_weaken; [apply core_io|done|done|exact Hend]|].
  intros a. apply hoare_get_bind. intros s1 Hs1.
  apply (hoare_bind _ _ _ (λ _, link_ok)); [|intros _; apply keeps_ok; intros w'; apply keeps_bind;
    [by apply core_modify|intros; apply keeps_mret]].
  destruct a as [a|]; [case_bool_decide as Hlen|]; [|apply hoare_ret; intros s ->; by apply Hcw..].
  apply hoare_modify. intros s ->. destruct Hs1 as [Hs1 Hw1]. rewrite Hw1 in Hlen. split; [done|]. simpl. rewrite Hw1.
  split; [|rewrite length_app; simpl; lia]. rewrite fmap_app. apply NoDup_app. split; [apply Hw|].
  split; [|apply NoDup_singleton]. intros x Hx ->%list_elem_of_singleton. done.
Qed.

Lemma l_handle_ok message at_ ing gen : keeps link_ok (l_handle binding message at_ ing gen).
Proof.
  unfold l_handle. destruct (negb _); [apply keeps_mret|]. apply keeps_get. intros s.
  destruct (l_closed s); [apply keeps_lift|]. do 2 (apply keeps_bind; [apply keeps_lift|]; intros ?).
  apply keeps_bind; [apply keeps_ok; intros; apply core_io|]. intros now.
  do 2 (apply keeps_bind; [apply keeps_lift|]; intros ?).
  apply keeps_bind; [apply first_receipt_ok|]. intros first. apply settle_ok.
Qed.

Lemma l_tick_one_ok a entry : keeps link_ok (l_tick_one binding a entry).
Proof.
  destruct entry as [key [[[message at_] context] top]]. unfold l_tick_one. apply keeps_get. intros s.
  assert (Hcount : ∀ ev, keeps link_ok (l_count ev)) by (intros ev; apply keeps_ok; intros; by apply core_modify).
  apply keeps_bind; [destruct (l_closed s); [apply keeps_mret|apply keeps_ok; intros; apply core_stale]|].
  intros [|]; [apply keeps_bind; [apply drop_link_ok|intros; apply Hcount]|].
  apply keeps_try; [apply keeps_ok; intros; apply core_answer| |].
  - intros [|]; [apply drop_link_ok|apply keeps_mret].
  - intros e. apply keeps_bind; [apply drop_link_ok|intros; apply Hcount].
Qed.

Lemma publish_link_ok p tok : keeps link_ok (publish_link p tok).
Proof.
  intros s Hs. unfold publish_link, l_on_io, poll, poll_binding, clock, mbind, M_mbind, get, put, lift, mret, M_mret.
  cbn beta iota zeta. destruct (publish_sample _ _ _ _ _ _ _) as [sm|e] eqn:Ep.
  - apply publish_sample_Ok in Ep as (a & Ha & Hok & _). destruct Hs as (_ & ? & ?). split; [|done]. simpl.
    intros sm' [= <-]. eexists _, _, a. split; [exact Ha|exact Hok].
  - destruct Hs as (_ & ? & ?). by split.
Qed.

(** What leads to the answer neither sends nor changes the sample. *)
Lemma first_receipt_run key at_ s first s' :
  l_first_receipt key at_ s = (Ok first, s') → l_out s' = l_out s ∧ sample s' = sample s.
Proof.
  unfold l_first_receipt, mbind at 1, M_mbind at 1, get. cbn beta iota.
  destruct (l_get key s) as [[[[? at0] context] top]|]; [|by intros [= _ <-]].
  intros (a & s1 & [= _ <-] & Hr)%M_bind_Ok. apply M_bind_Ok in Hr as (stale & s2 & Hst & Hr).
  assert (H2 : l_out s2 = l_out s ∧ sample s2 = sample s).
  { unfold l_stale in Hst. destruct a as [a|]; [|by injection Hst as _ <-].
    destruct (_ || _); [by injection Hst as _ <-|].
    unfold mbind, M_mbind, l_on_io, clock, mret, M_mret in Hst. by injection Hst as _ <-. }
  destruct stale; [|by injection Hr as _ <-].
  unfold mbind, M_mbind, modify, lift in Hr. discriminate.
Qed.

Lemma settle_run message query first s ev s' :
  (∀ sm, sample s = Some sm → sample_published sm) → l_settle message query first s = (Ok (Some ev), s') →
  ev = "neighbor_measurement_unavailable" ∧ l_out s' = l_out s ∨
  ev = "neighbor_link_metric_response_sent" ∧ ((m_mid message, query) ∉ (l_waiting s').*1) ∧
  ∃ sm tlvs fs, sample s = Some sm ∧ sample_fresh sm ∧ response_tlvs sm query = Ok (Some tlvs) ∧
    fragment_message (controller_al binding) (local_al binding) 6 (m_mid message) tlvs false MAX_CMDU = Ok fs ∧
    l_out s' = l_out s ++ fs.
Proof.
  unfold l_settle. intros Hs ([] & s1 & [= <-] & Hr)%M_bind_Ok. set (key := (m_mid message, query)) in *.
  set (s1 := l_drop key s) in *. set (w := l_waiting s1).
  assert (Hk : key ∉ w.*1).
  { intros ([k x] & -> & [Hne _]%list_elem_of_filter)%list_elem_of_fmap. done. }
  apply M_bind_Ok in Hr as (answered & s2 & Ha & Hr).
  pose proof (l_answer_run message query first s1) as Hrun. rewrite Ha in Hrun. destruct Hrun as (new & Ho & Hf & Ht).
  destruct answered.
  - injection Hr as <- <-. right. split; [done|]. destruct (Ht eq_refl) as (sm & tlvs & ? & ? & ? & ?). split.
    + pose proof (core_answer w message query first s1) as Hc. rewrite Ha in Hc.
      destruct Hc as [_ ->]; [by split|done].
    + exists sm, tlvs, new. done.
  - left. rewrite (Hf eq_refl), app_nil_r in Ho. apply M_bind_Ok in Hr as (a & s3 & [= _ <-] & Hr).
    apply M_bind_Ok in Hr as (s4 & s5 & [= <- <-] & Hr). apply M_bind_Ok in Hr as ([] & s6 & H6 & Hr).
    unfold l_count in Hr. apply M_bind_Ok in Hr as ([] & s7 & [= <-] & [= <- <-]). split; [done|].
    destruct a as [a|]; [destruct (bool_decide _)|]; injection H6 as <-; exact Ho.
Qed.

Inductive l_input := Publish (p : Measurement) (tok : string) | LHandle (message : Message) (received_at : Z)
  (ingress : string) (generation : Z) | LTick | LInvalidate | LClose.

Definition l_serve (s : LinkState) (i : l_input) : LinkState :=
  match i with
  | Publish p tok => (publish_link p tok s).2
  | LHandle message at_ ing gen => (l_handle binding message at_ ing gen s).2
  | LTick => (l_tick binding s).2
  | LInvalidate => invalidate_sample s
  | LClose => l_close s
  end.

Lemma l_serve_all_ok s l : link_ok s → link_ok (foldl l_serve s l).
Proof.
  revert s. induction l as [|i l IH]; intros s Hs; [done|]. apply IH. destruct i; simpl.
  - apply keeps_snd, Hs; apply publish_link_ok.
  - apply keeps_snd, Hs; apply l_handle_ok.
  - apply keeps_snd, Hs. unfold l_tick. apply keeps_bind; [apply keeps_ok; intros; apply core_io|]. intros a.
    apply keeps_get. intros s1. apply keeps_for_each. intros e. apply l_tick_one_ok.
  - destruct Hs as (? & ? & ?). by split.
  - destruct Hs as (? & ? & ?). split; [done|]. split; simpl; [constructor|lia].
Qed.
End Theory.

(** * Properties *)

(** A published link sample is complete. When [publish] returns a sample, it belongs to a snapshot
    the source showed: the sample's rows are exactly the interface pairs and bridge flags of the
    topology's neighbours, each once; every report is of the local agent, covers every pair of its
    neighbour and agrees with its media and bridges, and no neighbour has two reports of a direction;
    the sample was observed before and expires after the time of publication, at most two seconds
    later; within a context, it is newer than the last one published. When it raises, no sample is
    shown. *)
Theorem published_sample_complete `{World} p tok s r s' :
  publish_link p tok s = (r, s') →
  match r with
  | Ok sm =>
      sample s' = Some sm ∧ watermark s' = Some sm ∧
      ∃ n b a t1 t2, world_source n = Some a ∧ sample_ok a (local_al b) sm ∧
        observed_at (sm_stamp sm) ≤ world_clock t1 ∧ world_clock t2 < valid_until (sm_stamp sm) ∧
        ∀ old, watermark s = Some old → sm_context old = sm_context sm → observed_at (sm_stamp old) < observed_at (sm_stamp sm)
  | Raise _ => sample s' = None ∧ watermark s' = watermark s
  end.
Proof.
  unfold publish_link, l_on_io, poll, poll_binding, clock, mbind, M_mbind, get, put, lift, mret, M_mret. cbn beta iota zeta.
  destruct (publish_sample _ _ _ _ _ _ _) as [sm|e] eqn:Ep; intros [= <- <-]; [|done]. split; [done|]. split; [done|].
  apply publish_sample_Ok in Ep as (a & Ha & Hok & H1 & H2 & Hw). eexists _, _, a, _, _.
  split; [exact Ha|]. split; [exact Hok|]. split; [exact H1|]. split; [exact H2|].
  intros old Ho Hc. by apply (Hw old).
Qed.

(** One neighbour, behind the wireless interface, measured in both directions. *)
Definition lex_neighbor : bytes := octets [2; 0; 0; 0; 0; 8].
Definition lex_remote : bytes := octets [2; 0; 0; 0; 0; 34].
Definition lex_snapshot : ReportSnapshot :=
  mkReportSnapshot (mkReportStamp "i/0/1/1" 0 2000) example_caps
    (example_facts <| neighbors1905 := [(example_bss, [mkNeighbor lex_neighbor false])] |>) "i/0/1" [] None None (Some 1) [].
Definition lex_world : World :=
  {| world_clock := λ n, 200 + Z.of_nat n; world_binding := λ _, example_binding;
     world_source := λ _, Some lex_snapshot; world_link := λ _, true |}.
Definition lex_measurement : Measurement :=
  mkMeasurement "i/0/1" "boot" 0 100 [mkLinkBinding lex_neighbor example_bss lex_remote 0x103 false]
    [mkLinkMetrics (octets [2; 0; 0; 0; 0; 9]) lex_neighbor (RxLinks [mkRxLink example_bss lex_remote 0x103 0 12 40]);
     mkLinkMetrics (octets [2; 0; 0; 0; 0; 9]) lex_neighbor
       (TxLinks [mkTxLink example_bss lex_remote 0x103 false 0 11 100 100 65535])] true (seconds 2).
Definition lex_query : Message :=
  mkMessage (octets [2; 0; 0; 0; 0; 9]) (octets [2; 0; 0; 0; 0; 8]) 5 7 false [mkTlv 8 (octets [0; 2])] 1.

Lemma published_sample_complete_witness :
  let run := @publish_link lex_world lex_measurement "token" (l_init (mkIo 0 [])) in
  is_ok run.1 = true ∧ match run.1 with Ok sm => sample run.2 = Some sm | Raise _ => True end.
Proof.
  intros run. split; [vm_compute; reflexivity|].
  pose proof (@published_sample_complete lex_world lex_measurement "token" (l_init (mkIo 0 [])) run.1 run.2
    (surjective_pairing run)) as Hp. destruct run.1 as [sm|e]; [exact (proj1 Hp)|exact I].
Defined.

(** A Link Metric Query is answered from one complete and current sample, or not at all. Whatever
    was published and asked before: when [handle] answers, it says whether a response was sent; a
    response is, whole and under the query's identifier, the TLVs the query asks for (of every
    neighbour or of the one named, of one direction or both, in order of neighbour and direction), or
    the invalid-neighbour result exactly when the named neighbour is not one; they are of a sample
    that was published complete, whose context and topology the source shows and whose lease runs;
    otherwise nothing was sent. At most four queries wait, each once. *)
Theorem link_query_answered `{World} binding io inputs message at_ ing gen ev s' :
  let s := foldl (l_serve binding) (l_init io) inputs in
  l_handle binding message at_ ing gen s = (Ok (Some ev), s') →
  (length (l_waiting s') ≤ 4)%nat ∧ NoDup (l_waiting s').*1 ∧
  ∃ query, decode_link_query (m_tlvs message) = Ok query ∧
  (ev = "neighbor_measurement_unavailable" ∧ l_out s' = l_out s ∨
   ev = "neighbor_link_metric_response_sent" ∧ ((m_mid message, query) ∉ (l_waiting s').*1) ∧
   ∃ sm tlvs fs, sample_published sm ∧ sample_fresh sm ∧ answers sm query tlvs ∧
     fragment_message (controller_al binding) (local_al binding) 6 (m_mid message) tlvs false MAX_CMDU = Ok fs ∧
     l_out s' = l_out s ++ fs).
Proof.
  intros s Hh. assert (Hok : link_ok s).
  { apply l_serve_all_ok. split; [done|]. split; simpl; [constructor|lia]. }
  assert (Hok' : link_ok s').
  { pose proof (keeps_snd link_ok _ s (l_handle_ok binding message at_ ing gen) Hok) as Hk. by rewrite Hh in Hk. }
  split; [apply Hok'|]. split; [apply Hok'|]. clearbody s. clear Hok'.
  unfold l_handle in Hh. destruct (negb _); [done|].
  apply M_bind_Ok in Hh as (s0 & s1 & [= <- <-] & Hh). destruct (l_closed s); [done|].
  apply M_bind_Ok in Hh as ([] & s2 & [= _ <-] & Hh). apply M_bind_Ok in Hh as ([] & s3 & [= _ <-] & Hh).
  apply M_bind_Ok in Hh as (now & s4 & [= <- <-] & Hh). apply M_bind_Ok in Hh as ([] & s5 & [= _ <-] & Hh).
  apply M_bind_Ok in Hh as (query & s6 & [= Hq <-] & Hh). exists query. split; [done|].
  apply M_bind_Ok in Hh as (first & s7 & [Ho Hs]%first_receipt_run & Hh).
  apply settle_run in Hh as [[-> Hn]|(-> & Hk & sm & tlvs & fs & Hsm & Hfresh & Hr & Hfs & Hout)];
    [left; by rewrite Hn, Ho| |rewrite Hs; apply Hok].
  right. split; [done|]. split; [done|]. exists sm, tlvs, fs. rewrite Hs in Hsm. split; [by apply Hok|]. split; [done|].
  split; [by apply response_tlvs_answers|]. split; [done|]. by rewrite Hout, Ho.
Qed.

Lemma link_query_answered_witness :
  let s := foldl (@l_serve lex_world example_binding) (l_init (mkIo 0 [])) [Publish lex_measurement "token"] in
  let run := @l_handle lex_world example_binding lex_query 200 "eth0" 1 s in
  run.1 = Ok (Some "neighbor_link_metric_response_sent") ∧ length (l_out run.2) = 1%nat ∧ (length (l_waiting run.2) ≤ 4)%nat.
Proof.
  intros s run.
  assert (E : run = (Ok (Some "neighbor_link_metric_response_sent"), run.2)) by (vm_compute; reflexivity).
  split; [vm_compute; reflexivity|]. split; [vm_compute; reflexivity|].
  exact (proj1 (@link_query_answered lex_world example_binding (mkIo 0 []) [Publish lex_measurement "token"] lex_query 200
    "eth0" 1 _ _ E)).
Defined.
