(* ===== verification/Disassociation.v ===== *)
(** * Final-session reports: [src/emosa/wire/disassociation.py]

    The traffic counters of an association that ended and their TLV, the record of the association
    ([FinalSession]), and the coordinator that reports it: a bounded queue, at most three
    transmissions, withdrawn when the source is lost or the station is associated again. The clock,
    the source and the link are the [World] of [Session]. *)

From S2P Require Import Prelude Bytes Cmdu Reassembly Payloads TopologyValues Reports Channel ReportSource Session.

(** ** Traffic counters *)

(** [REASONS] *)
Definition REASONS (reason : Z) : bool :=
  bool_decide (1 ≤ reason < 40) || bool_decide (46 ≤ reason < 70) || bool_decide (reason = 71).

(** [unicast(address)] *)
Definition d_unicast (address : bytes) : result unit :=
  raise_if (negb (unicast_mac address)) INVALID_INPUT "expected a unicast station/BSS address".

Record TrafficCounters := mkTrafficCounters {
  tx_bytes : Z; rx_bytes : Z; tx_packets : Z; rx_packets : Z; tx_errors : Z; rx_errors : Z; tx_retries : Z
}.
#[export] Instance TrafficCounters_eq_dec : EqDecision TrafficCounters.
Proof. solve_decision. Defined.

(** [values()] *)
Definition counter_values (c : TrafficCounters) : list Z :=
  [tx_bytes c; rx_bytes c; tx_packets c; rx_packets c; tx_errors c; rx_errors c; tx_retries c].

(** [__post_init__] *)
Definition TrafficCounters_init (c : TrafficCounters) : result TrafficCounters :=
  _ ← raise_if (existsb (λ v, negb (bool_decide (0 ≤ v < 2 ^ 64))) (counter_values c)) INVALID_INPUT
        "seven explicit unsigned counters are required";
  Ok c.

(** A statistics message of the publisher: the name of its type, and the fields that are present. *)
Record ProtoStats := mkProtoStats { full_name : option string; proto_fields : gmap string Z }.

(** [from_qualified_opensync(stats)] *)
Definition from_qualified_opensync (stats : ProtoStats) : result TrafficCounters :=
  let not_ready := Raise (mkEmosaError NOT_READY "complete qualified traffic counters unavailable") in
  if negb (bool_decide (full_name stats = Some "sts.Client.Stats")) then not_ready
  else
    match proto_fields stats !! "tx_bytes", proto_fields stats !! "rx_bytes", proto_fields stats !! "tx_frames",
          proto_fields stats !! "rx_frames", proto_fields stats !! "tx_errors", proto_fields stats !! "rx_errors",
          proto_fields stats !! "tx_retries" with
    | Some tb, Some rb, Some tp, Some rp, Some te, Some re, Some tr =>
        TrafficCounters_init (mkTrafficCounters tb rb tp rp te re tr)
    | _, _, _, _, _, _, _ => not_ready
    end.

(** The scale of the byte counters, [(1, 1024, 1024 * 1024)[byte_units]]. *)
Definition unit_scale (byte_units : Z) : Z :=
  if bool_decide (byte_units = 0) then 1 else if bool_decide (byte_units = 1) then 1024 else 1024 * 1024.

(** The tuple [counts] of [tlv]. *)
Definition scaled_counts (c : TrafficCounters) (byte_units : Z) : list Z :=
  [tx_bytes c / unit_scale byte_units; rx_bytes c / unit_scale byte_units] ++ drop 2 (counter_values c).

(** [tlv(station, profile=profile, byte_units=byte_units)] *)
Definition counters_tlv (c : TrafficCounters) (station : bytes) (profile byte_units : Z) : result Tlv :=
  _ ← d_unicast station;
  _ ← raise_if (negb (bool_decide (profile ∈ [1; 2; 3]))) INVALID_INPUT "explicit selected Multi-AP profile required";
  _ ← raise_if (negb (bool_decide (byte_units ∈ [0; 1; 2]))) INVALID_INPUT "reserved byte counter units";
  _ ← raise_if (bool_decide (profile = 1) && negb (bool_decide (byte_units = 0))) UNSUPPORTED_OPERATION
        "Profile-1 requires byte counters";
  Ok (mkTlv 0xA2 (station ++ concat ((λ v, be_bytes 4 (Z.land v 0xFFFFFFFF)) <$> scaled_counts c byte_units))).

(** ** The record of an association that ended *)

Record FinalSession := mkFinalSession {
  context : string;
  session : string;
  fs_bssid : bytes;
  fs_station : bytes;
  fs_observed_at : Z;
  fs_reason : Z;
  counters : TrafficCounters
}.
#[export] Instance FinalSession_eq_dec : EqDecision FinalSession.
Proof. solve_decision. Defined.

(** [__post_init__] *)
Definition FinalSession_init (e : FinalSession) : result FinalSession :=
  _ ← d_unicast (fs_bssid e);
  _ ← d_unicast (fs_station e);
  _ ← raise_if (negb (bool_decide (1 ≤ String.length (context e) ≤ 512)%nat)
                || negb (bool_decide (1 ≤ String.length (session e) ≤ 128)%nat) || negb (REASONS (fs_reason e)))
        INVALID_INPUT "complete, session-bound final traffic and actual reason required";
  Ok e.

(** [key] *)
Definition final_key : Type := string * bytes * bytes * string.
Definition key_of (e : FinalSession) : final_key := (context e, fs_bssid e, fs_station e, session e).

(** [tlvs(profile=profile, byte_units=byte_units)] *)
Definition final_tlvs (e : FinalSession) (profile byte_units : Z) : result (list Tlv) :=
  t ← counters_tlv (counters e) (fs_station e) profile byte_units;
  Ok [mkTlv 0x95 (fs_station e); mkTlv 0xCA (be_bytes 2 (fs_reason e)); t].

(** ** The coordinator *)

Record PendingFinal := mkPendingFinal {
  pf_event : FinalSession;
  pf_units : Z;
  pf_deadline : Z;
  pf_retry_at : Z;
  pf_mids : gset Z;
  pf_transmissions : Z
}.
#[export] Instance eta_PendingFinal : Eta PendingFinal := λ p,
  mkPendingFinal (pf_event p) (pf_units p) (pf_deadline p) (pf_retry_at p) (pf_mids p) (pf_transmissions p).

Record FinalState := mkFinalState {
  d_io : Io;
  d_mids : Z;
  d_pending : list (final_key * PendingFinal);       (* in the order of insertion *)
  d_seen : gmap final_key FinalSession;
  d_closed : bool;
  d_counts : gmap string Z;
  d_events : list string;
  d_assembly : Reassembler
}.
#[export] Instance eta_FinalState : Eta FinalState := λ s,
  mkFinalState (d_io s) (d_mids s) (d_pending s) (d_seen s) (d_closed s) (d_counts s) (d_events s) (d_assembly s).

#[export] Instance FinalState_io : HasIo FinalState := {| io_of := d_io; with_io i s := s <| d_io := i |> |}.
#[export] Instance FinalState_io_laws : HasIoLaws FinalState.
Proof. by split. Qed.

Definition d_on_assembly {A} (m : M Reassembler A) : M FinalState A := λ s,
  let '(r, a) := m (d_assembly s) in (r, s <| d_assembly := a |>).

Definition units_of (a : ReportSnapshot) : Z := byte_counter_units (p2_flags (profile2 (capabilities a))).

(** The station is associated to some BSS of the snapshot. *)
Definition associated (a : ReportSnapshot) (station : bytes) : bool :=
  existsb (λ b, existsb (λ c, bool_decide (c_mac c = station)) (clients b)) (tf_clients (topology a)).

(** The checks of [snapshot(event, expected_units=expected)] on the snapshot [a] at time [now]. *)
Definition final_checks (e : FinalSession) (expected : option Z) (now : Z) (a : ReportSnapshot) : result unit :=
  _ ← raise_if (negb (bool_decide (0 ≤ now - fs_observed_at e < seconds 2))) NOT_READY
        "final counters are stale or future-dated";
  _ ← raise_if (negb (bool_decide (fs_bssid e ∈ (operational (topology a) ≫= λ r, ap_mac <$> or_bsses r)))
                || negb (inventory_complete (topology a)))
        NOT_READY "final-session BSS/membership unavailable";
  _ ← raise_if (associated a (fs_station e)) NOT_READY "station is associated again; withdraw old final report";
  raise_if (match expected with Some u => negb (bool_decide (units_of a = u)) | None => false end) NOT_READY
    "counter-unit advertisement changed".

Section Coordinator.
Context `{World} (binding : PeerBinding) (profile : Z).

(** [record(name)] *)
Definition d_record (name : string) : M FinalState string :=
  _ ← modify (λ s, s <| d_counts := count name (d_counts s) |> <| d_events := deque_append 32 (d_events s) name |>);
  mret name.

(** [snapshot(event, expected_units=expected)] *)
Definition d_snapshot_of (closed : bool) (e : FinalSession) (expected : option Z) : M Io ReportSnapshot :=
  b ← poll_binding;
  a ← (if bool_decide (b = binding) then poll else mret None);
  match a with
  | Some a =>
      if closed || negb (bool_decide (context_token a = context e))
      then raise NOT_READY "final-session source context lost"
      else now ← clock; _ ← lift (final_checks e expected now a); mret a
  | None => raise NOT_READY "final-session source context lost"
  end.
Definition d_snapshot (e : FinalSession) (expected : option Z) : M FinalState ReportSnapshot :=
  s ← get; on_io (d_snapshot_of (d_closed s) e expected).

(** [self.mids.next()] *)
Definition d_next_mid : M FinalState Z := λ s,
  let m := next_mid (d_mids s) in (Ok m, s <| d_mids := m |>).

(** [self.pending.pop(key)] *)
Definition d_drop (key : final_key) (s : FinalState) : FinalState := s <| d_pending := od_pop key (d_pending s) |>.

(** [transmit(pending, snapshot)]; [pending] is the object the queue holds under [key] *)
Definition d_transmit (key : final_key) (pending : PendingFinal) (a : ReportSnapshot) : M FinalState unit :=
  mid ← d_next_mid;
  tlvs ← lift (final_tlvs (pf_event pending) profile (units_of a));
  s ← get;
  _ ← on_io (deliver binding (d_snapshot_of (d_closed s) (pf_event pending) (Some (pf_units pending))) 0x8022 mid tlvs a
                 (pf_deadline pending));
  now ← on_io clock;
  _ ← modify (λ s, s <| d_pending := od_set key (pending <| pf_mids := {[mid]} ∪ pf_mids pending |>
                                                         <| pf_transmissions := pf_transmissions pending + 1 |>
                                                         <| pf_retry_at := now + 300 |>) (d_pending s) |>);
  _ ← d_record "final_session_report_sent";
  mret tt.

(** The loop body of [tick], for an entry of the queue. *)
Definition d_tick_one (now : Z) (entry : final_key * PendingFinal) : M FinalState unit :=
  let '(key, pending) := entry in
  try_else (d_snapshot (pf_event pending) (Some (pf_units pending)))
    (λ a,
      if bool_decide (pf_deadline pending ≤ now)
      then _ ← modify (d_drop key); _ ← d_record "final_session_ack_timeout"; mret tt
      else if bool_decide (pf_retry_at pending ≤ now) && bool_decide (pf_transmissions pending < 3)
      then try_else (d_transmit key pending a) mret
             (λ _, _ ← modify (d_drop key); _ ← d_record "final_session_send_failed"; mret tt)
      else mret tt)
    (λ _, _ ← modify (d_drop key); _ ← d_record "final_session_source_lost"; mret tt).

(** [tick()] *)
Definition d_tick : M FinalState unit :=
  now ← on_io clock;
  t ← on_io clock;
  _ ← d_on_assembly (expire t);
  _ ← modify (λ s, s <| d_seen := filter (λ ke, now < fs_observed_at ke.2 + seconds 2) (d_seen s) |>);
  s ← get;
  for_each (d_tick_one now) (d_pending s).

(** The last part of [submit]: the record is queued and sent. *)
Definition d_enqueue (e : FinalSession) (a : ReportSnapshot) : M FinalState string :=
  now ← on_io clock;
  let pending := mkPendingFinal e (units_of a) (Z.min (now + seconds 1) (fs_observed_at e + seconds 2)) now ∅ 0 in
  _ ← modify (λ s, s <| d_seen := <[key_of e := e]> (d_seen s) |>
                     <| d_pending := od_set (key_of e) pending (d_pending s) |>);
  try_else (d_transmit (key_of e) pending a) (λ _, mret "final_session_report_sent")
    (λ err, _ ← modify (d_drop (key_of e)); _ ← d_record "final_session_send_failed"; lift (Raise err)).

(** [submit(event)] *)
Definition d_submit (e : FinalSession) : M FinalState string :=
  _ ← d_tick;
  a ← d_snapshot e None;
  _ ← lift (final_tlvs e profile (units_of a));
  s ← get;
  match d_seen s !! key_of e with
  | Some other =>
      if bool_decide (other = e) then d_record "duplicate_final_session"
      else raise INVALID_INPUT "conflicting final records for the same association"
  | None =>
      if bool_decide (16 ≤ length (d_pending s))%nat || bool_decide (64 ≤ size (d_seen s))%nat
      then d_record "final_session_budget_exhausted"
      else d_enqueue e a
  end.

(** The end of [ack], for the entry whose report the message acknowledges. *)
Definition d_settle (message : Message) (pending : PendingFinal) : M FinalState (option string) :=
  _ ← d_snapshot (pf_event pending) (Some (pf_units pending));
  now ← on_io clock;
  if bool_decide (pf_deadline pending ≤ now) then
    _ ← modify (d_drop (key_of (pf_event pending)));
    Some <$> d_record "final_session_late_ack"
  else
    _ ← lift (raise_if (m_relay message || existsb (λ t, bool_decide (Cmdu.kind t ∈ SECURITY_ENVELOPES ++ [0xA3; 0xBC]))
                                             (m_tlvs message))
                INVALID_INPUT "invalid final-session acknowledgment");
    _ ← modify (d_drop (key_of (pf_event pending)));
    Some <$> d_record "final_session_acknowledged".

(** [ack(frame, ingress=ingress, generation=generation)] *)
Definition d_ack (frame : bytes) (ingress : string) (generation : Z) : M FinalState (option string) :=
  fragment ← lift (decode_frame frame);
  _ ← lift (binding_check binding (destination fragment) (source fragment) ingress generation);
  if negb (bool_decide (message_type fragment = 0x8000)) then mret None
  else
    t0 ← on_io clock;
    t1 ← on_io clock;
    message ← d_on_assembly (feed t0 t1 frame ingress);
    match message with
    | None => mret None
    | Some message =>
        s ← get;
        match list_find (λ kp, m_mid message ∈ pf_mids kp.2) (d_pending s) with
        | None => mret None
        | Some (_, (_, pending)) => d_settle message pending
        end
    end.

(** [close()] *)
Definition d_close (s : FinalState) : FinalState :=
  s <| d_closed := true |> <| d_pending := [] |> <| d_seen := ∅ |>.

(** [Reassembler(clock=clock, max_contexts=2, max_fragments=4, max_message_bytes=2048, max_bytes=4096)] *)
Definition d_assembly_init : Reassembler := mkReassembler (seconds 5) 2 4096 2048 4 ∅ 0.

(** [__init__] *)
Definition d_init (previous : Z) (io : Io) : FinalState := mkFinalState io previous [] ∅ false ∅ [] d_assembly_init.
End Coordinator.

(** * Theory *)

(** ** The counters on the wire *)

(** The [i]th counter of a traffic statistics TLV, as a receiver reads it. *)
Definition counter_field (i : nat) (t : Tlv) : Z := be_int (slice (6 + 4 * i) (6 + 4 * i + 4) (tlv_value t)).

Lemma counters_tlv_Ok c station profile byte_units t :
  counters_tlv c station profile byte_units = Ok t →
  length station = 6%nat ∧
  t = mkTlv 0xA2 (station ++ concat ((λ v, be_bytes 4 (Z.land v 0xFFFFFFFF)) <$> scaled_counts c byte_units)).
Proof.
  unfold counters_tlv, d_unicast. intros ([] & Hu & Hr)%result_bind_Ok. apply raise_if_Ok in Hu.
  repeat (apply result_bind_Ok in Hr as ([] & _ & Hr)). apply Ok_inj in Hr.
  unfold unicast_mac in Hu. by bools.
Qed.

Lemma counter_field_eq c station profile byte_units t i v :
  counters_tlv c station profile byte_units = Ok t → scaled_counts c byte_units !! i = Some v →
  counter_field i t = v mod 2 ^ 32.
Proof.
  intros (Hl & ->)%counters_tlv_Ok Hv. unfold counter_field. cbn [tlv_value].
  set (fs := (λ v, be_bytes 4 (Z.land v 0xFFFFFFFF)) <$> scaled_counts c byte_units).
  assert (Hf : Forall (λ r, length r = 4%nat) fs)
    by (apply Forall_fmap, Forall_true; intros x; apply be_bytes_length).
  pose proof (chunks_of station [] 4 fs Hf) as Hc. rewrite app_nil_r, Hl in Hc.
  assert (Hi : fs !! i = Some (be_bytes 4 (Z.land v 0xFFFFFFFF))) by (unfold fs; by rewrite list_lookup_fmap, Hv).
  rewrite <- Hc in Hi. rewrite list_lookup_fmap in Hi.
  destruct (seq 0 (length fs) !! i) as [j|] eqn:Ej; [|done]. apply lookup_seq in Ej as [-> _].
  clearbody fs. apply (inj Some) in Hi. rewrite Nat.add_0_l in Hi. rewrite Hi. change 0xFFFFFFFF with (Z.ones 32). rewrite Z.land_ones by lia. apply be_int_be_bytes.
  change (256 ^ Z.of_nat 4) with (2 ^ 32). apply Z.mod_pos_bound. lia.
Qed.

(** ** The queue *)

(** What the source showed when [snapshot(event, expected_units=...)] returned. *)
Definition final_shown `{World} (e : FinalSession) (a : ReportSnapshot) : Prop :=
  (∃ n, world_source n = Some a) ∧ context_token a = context e ∧
  (∃ t, 0 ≤ world_clock t - fs_observed_at e < seconds 2) ∧
  fs_bssid e ∈ (operational (topology a) ≫= λ r, ap_mac <$> or_bsses r) ∧
  inventory_complete (topology a) = true ∧ associated a (fs_station e) = false.

Section Theory.
Context `{World} (binding : PeerBinding) (profile : Z).

(** The report of the association under an identifier was handed to the link whole. *)
Definition final_sent (io : Io) (p : PendingFinal) (m : Z) : Prop :=
  ∃ tlvs fs, final_tlvs (pf_event p) profile (pf_units p) = Ok tlvs ∧
    fragment_message (controller_al binding) (local_al binding) 0x8022 m tlvs false MAX_CMDU = Ok fs ∧ handed_over io fs.

Record pending_final_ok (io : Io) (p : PendingFinal) : Prop := {
  pfo_valid : is_ok (FinalSession_init (pf_event p)) = true;
  pfo_transmissions : 0 ≤ pf_transmissions p ≤ 3;
  pfo_mids : Z.of_nat (size (pf_mids p)) ≤ pf_transmissions p;
  pfo_deadline : pf_deadline p ≤ fs_observed_at (pf_event p) + seconds 2;
  pfo_sent : ∀ m, m ∈ pf_mids p → final_sent io p m
}.

Record final_core (s : FinalState) : Prop := {
  dc_keys : NoDup (d_pending s).*1;
  dc_pending : ∀ k p, (k, p) ∈ d_pending s → k = key_of (pf_event p) ∧ pending_final_ok (d_io s) p;
  dc_length : (length (d_pending s) ≤ 16)%nat;
  dc_seen : (size (d_seen s) ≤ 64)%nat;
  dc_events : (length (d_events s) ≤ 32)%nat;
  dc_assembly : reassembler_ok (d_assembly s)
}.

(** An open coordinator that still holds the entries [l], and the invariant of the component. *)
Definition holds (l : list (final_key * PendingFinal)) (s : FinalState) : Prop :=
  ∀ e, e ∈ l → e ∈ d_pending s.
Definition final_open l (s : FinalState) : Prop := final_core s ∧ d_closed s = false ∧ holds l s.
Definition final_ok (s : FinalState) : Prop :=
  final_core s ∧ (d_closed s = true → d_pending s = [] ∧ d_seen s = ∅).

Lemma pending_final_later i i' p : later i i' → pending_final_ok i p → pending_final_ok i' p.
Proof.
  intros Hl []. split; auto. intros m Hm. destruct (pfo_sent0 m Hm) as (tlvs & fs & ? & ? & ?).
  exists tlvs, fs. eauto using handed_over_later.
Qed.
Lemma final_core_stable : stable final_core.
Proof.
  intros s i [] Hl. split; simpl; auto. intros k p [? ?]%dc_pending0. split; [done|].
  by eapply pending_final_later.
Qed.
Lemma final_open_stable l : stable (final_open l).
Proof. intros s i (? & ? & ?) Hl. split; [by apply final_core_stable|done]. Qed.
Lemma final_ok_stable : stable final_ok.
Proof. intros s i (? & ?) Hl. split; [by apply final_core_stable|done]. Qed.

Lemma forward_d_snapshot closed e expected : forward (d_snapshot_of binding closed e expected).
Proof.
  apply forward_bind; [apply forward_poll_binding|]. intros b.
  apply forward_bind; [destruct (bool_decide _); [apply forward_poll|apply forward_mret]|]. intros [a|]; [|apply forward_lift].
  destruct (_ || _); [apply forward_lift|]. apply forward_bind; [apply forward_clock|]. intros now.
  apply forward_bind; [apply forward_lift|]. intros u. apply forward_mret.
Qed.
Lemma silent_d_snapshot closed e expected : silent (d_snapshot_of binding closed e expected).
Proof.
  intros io. unfold d_snapshot_of, mbind, M_mbind, poll_binding, poll, clock, lift. case_bool_decide; simpl; [|done].
  destruct (world_source _); [|done]. destruct (_ || _); [done|]. simpl. by destruct (final_checks _ _ _ _).
Qed.

Lemma final_checks_Ok e expected now a u :
  final_checks e expected now a = Ok u →
  0 ≤ now - fs_observed_at e < seconds 2 ∧ fs_bssid e ∈ (operational (topology a) ≫= λ r, ap_mac <$> or_bsses r) ∧
  inventory_complete (topology a) = true ∧ associated a (fs_station e) = false ∧
  (∀ v, expected = Some v → units_of a = v).
Proof.
  unfold final_checks. intros ([] & H1%raise_if_Ok & Hr)%result_bind_Ok.
  apply result_bind_Ok in Hr as ([] & H2%raise_if_Ok & Hr). apply result_bind_Ok in Hr as ([] & H3%raise_if_Ok & Hr).
  apply raise_if_Ok in Hr. bools. split; [done|]. split; [done|]. split; [done|]. split; [done|].
  intros v ->. by bools.
Qed.

Lemma d_snapshot_run closed e expected io a io' :
  d_snapshot_of binding closed e expected io = (Ok a, io') →
  closed = false ∧ final_shown e a ∧ ∀ v, expected = Some v → units_of a = v.
Proof.
  unfold d_snapshot_of, mbind, M_mbind, poll_binding, poll, clock, lift. case_bool_decide; simpl; [|done].
  destruct (world_source _) as [b|] eqn:Eb; [|done]. destruct closed; [done|]. simpl. case_bool_decide; [|done]. simpl.
  destruct (final_checks _ _ _ _) as [u|] eqn:Ec; [|done]. intros [= -> <-].
  apply final_checks_Ok in Ec as (? & ? & ? & ? & ?). split; [done|]. split; [|done]. split; [eauto|].
  split; [done|]. split; eauto.
Qed.

(** A snapshot that is returned was shown, to an open coordinator. *)
Lemma d_snapshot_ok J e expected :
  stable J →
  hoare J (d_snapshot binding e expected)
    (λ a s, J s ∧ d_closed s = false ∧ final_shown e a ∧ ∀ v, expected = Some v → units_of a = v) (λ _, J).
Proof.
  intros HJ. apply hoare_get_bind. intros s0 Hs s ->.
  pose proof (keeps_on J _ HJ (forward_d_snapshot (d_closed s0) e expected) s0 Hs) as Hk. revert Hk. unfold on_io.
  destruct (d_snapshot_of _ _ _ _ _) as [[a|err] i] eqn:E; [|done]. apply d_snapshot_run in E as (Hc & Hsh & Hu). done.
Qed.

Lemma open_d_record l name : keeps (final_open l) (d_record name).
Proof.
  apply keeps_bind; [apply keeps_modify|intros; apply keeps_mret]. intros s ([] & ? & ?). split; [|done].
  split; simpl; auto. by apply deque_append_length.
Qed.
Lemma ok_d_record name : keeps final_ok (d_record name).
Proof.
  apply keeps_bind; [apply keeps_modify|intros; apply keeps_mret]. intros s ([] & ?). split; [|done].
  split; simpl; auto. by apply deque_append_length.
Qed.
Lemma final_open_mono l l' s : (∀ e, e ∈ l' → e ∈ l) → final_open l s → final_open l' s.
Proof. intros Hl (? & ? & Hh). split; [done|]. split; [done|]. intros e He. by apply Hh, Hl. Qed.

Lemma core_drop key s : final_core s → final_core (d_drop key s).
Proof.
  intros []. split; simpl; auto; [by apply od_pop_NoDup| |].
  - intros k p [_ Hp]%od_pop_elem. by apply dc_pending0.
  - etrans; [apply od_pop_length|done].
Qed.
Lemma open_drop l key s : key ∉ l.*1 → final_open l s → final_open l (d_drop key s).
Proof.
  intros Hk (? & ? & Hh). split; [by apply core_drop|]. split; [done|]. intros e He. apply od_pop_elem.
  split; [|by apply Hh]. intros Ek. apply Hk, list_elem_of_fmap. by exists e.
Qed.

(** An entry leaves the queue, and the reason is counted. *)
Lemma dropped_ok l key name :
  key ∉ l.*1 → keeps (final_open l) (_ ← modify (d_drop key); _ ← d_record name; mret tt).
Proof.
  intros Hk. apply keeps_bind; [apply keeps_modify; intros s; by apply open_drop|]. intros _.
  apply keeps_bind; [apply open_d_record|intros; apply keeps_mret].
Qed.

Lemma transmitted_final_ok l key p mid now s :
  key ∉ l.*1 → pf_transmissions p < 3 → final_open ((key, p) :: l) s → final_sent (d_io s) p mid →
  final_open l (s <| d_pending := od_set key (p <| pf_mids := {[mid]} ∪ pf_mids p |>
    <| pf_transmissions := pf_transmissions p + 1 |> <| pf_retry_at := now + 300 |>) (d_pending s) |>).
Proof.
  intros Hk Ht ([] & Hc & Hh) Hs. assert (Hp : (key, p) ∈ d_pending s) by (apply Hh; left).
  destruct (dc_pending0 _ _ Hp) as [Hkey []]. split; [|split; [done|]].
  - split; simpl; auto; [by apply od_set_NoDup| |].
    2:{ rewrite od_set_same_length; [done|]. apply list_elem_of_fmap. by exists (key, p). }
    intros k q [[= -> ->]|[Hq _]]%od_set_elem; [|by apply dc_pending0]. split; [done|].
    split; simpl; auto; [lia| |].
    + assert (size ({[mid]} ∪ pf_mids p) ≤ 1 + size (pf_mids p))%nat; [|lia].
      rewrite size_union_alt, size_singleton. apply Nat.add_le_mono_l, subseteq_size. set_solver.
    + intros m [->%elem_of_singleton|Hm]%elem_of_union; [done|]. by apply pfo_sent0.
  - intros e He. apply od_set_other; [apply Hh; by right|]. intros <-. apply Hk, list_elem_of_fmap. by exists e.
Qed.

Lemma d_transmit_ok l key p a :
  key ∉ l.*1 → pf_transmissions p < 3 → units_of a = pf_units p →
  hoare (final_open ((key, p) :: l)) (d_transmit binding profile key p a) (λ _, final_open l) (λ _, final_open l).
Proof.
  intros Hk Ht Hu. set (J := final_open ((key, p) :: l)).
  assert (Hw : ∀ s, J s → final_open l s) by (intros s; apply final_open_mono; intros e ?; by right).
  assert (HJ : stable J) by apply final_open_stable.
  unfold d_transmit. apply hoare_bind with (R := λ _, J).
  { intros s ([] & ?). unfold d_next_mid. split; [|done]. by split. }
  intros mid. apply hoare_bind with (R := λ tlvs s, J s ∧ final_tlvs (pf_event p) profile (pf_units p) = Ok tlvs).
  { apply hoare_lift; [|by auto]. intros tlvs s Htl Hs. split; [done|]. by rewrite <- Hu. }
  intros tlvs s1 [Hs1 Htl]. revert s1 Hs1. apply hoare_get_bind. intros s0 Hs0.
  apply hoare_pre with (P := J); [|by intros s ->]. eapply hoare_bind.
  { eapply hoare_weaken; [apply (deliver_ok J); [done|apply silent_d_snapshot|apply forward_d_snapshot]|done|
      intros u s Hs; exact Hs|auto]. }
  intros u. eapply hoare_bind with (R := λ _ s, J s ∧ final_sent (d_io s) p mid).
  { intros s [Hs (fs & Hf & Hh)]. assert (Hl : later (d_io s) (d_io s <| asked := S (asked (d_io s)) |>))
      by (split; simpl; [lia|done]).
    split; [by apply HJ|]. exists tlvs, fs. split; [done|]. split; [done|]. by eapply handed_over_later. }
  intros now. eapply hoare_bind with (R := λ _, final_open l).
  { apply hoare_modify. intros s [? ?]. by apply transmitted_final_ok. }
  intros _. eapply hoare_bind; [apply open_d_record|intros; apply keeps_mret].
Qed.

Lemma d_tick_one_ok now key p l :
  NoDup ((key, p) :: l).*1 →
  hoare (final_open ((key, p) :: l)) (d_tick_one binding profile now (key, p)) (λ _, final_open l) (λ _, final_open l).
Proof.
  intros [Hk _]%NoDup_cons. unfold d_tick_one.
  assert (Hw : ∀ s, final_open ((key, p) :: l) s → final_open l s)
    by (intros s; apply final_open_mono; intros e ?; by right).
  eapply hoare_try; [apply d_snapshot_ok, final_open_stable| |].
  - intros a. apply hoare_pre with (P := λ s, final_open ((key, p) :: l) s ∧ units_of a = pf_units p).
    2:{ intros s (Hs & _ & _ & Hu). split; [done|]. by apply Hu. }
    case_bool_decide.
    { eapply hoare_pre; [by apply dropped_ok|]. intros s [Hs _]. by apply Hw. }
    destruct (_ && _) eqn:Eb; [|apply hoare_ret; intros s [Hs _]; by apply Hw]. bools. intros s [Hs Hu].
    revert s Hs. eapply hoare_try; [by apply d_transmit_ok|intros u; apply keeps_mret|]. intros e. by apply dropped_ok.
  - intros e. eapply hoare_pre; [by apply dropped_ok|exact Hw].
Qed.

Lemma open_final_ok l s : final_open l s → final_ok s.
Proof. intros (? & Hc & _). split; [done|]. by rewrite Hc. Qed.

Lemma ok_core_modify f :
  (∀ s, final_core s → final_core (f s)) → (∀ s, d_closed (f s) = d_closed s) →
  (∀ s, d_pending s = [] → d_seen s = ∅ → d_pending (f s) = [] ∧ d_seen (f s) = ∅) →
  keeps final_ok (modify f).
Proof.
  intros Hf Hc He. apply keeps_modify. intros s [? Hcl]. split; [auto|]. rewrite Hc. intros Hs.
  destruct (Hcl Hs). by apply He.
Qed.
Lemma ok_d_assembly {A} (m : M Reassembler A) : keeps reassembler_ok m → keeps final_ok (d_on_assembly m).
Proof.
  intros Hm s [[] ?]. unfold d_on_assembly. specialize (Hm (d_assembly s) dc_assembly0).
  destruct (m (d_assembly s)) as [[a|e] r]; (split; [by split|done]).
Qed.

Lemma d_tick_loop_ok now l :
  NoDup l.*1 → hoare (final_open l) (for_each (d_tick_one binding profile now) l) (λ _, final_open []) (λ _, final_ok).
Proof.
  intros Hn. set (J := λ l s, final_open l s ∧ NoDup l.*1).
  eapply hoare_weaken; [apply (hoare_for_each_left _ J (λ _, final_ok))|intros s ?; by split|by intros u s []|done].
  intros [k p] l' s [Hs Hd]. pose proof (d_tick_one_ok now k p l' Hd s Hs) as Hp.
  apply NoDup_cons in Hd as [_ Hd]. destruct (d_tick_one _ _ _ _ s) as [[u|e] s']; [by split|]. by eapply open_final_ok.
Qed.

Lemma d_tick_ok : keeps final_ok (d_tick binding profile).
Proof.
  unfold d_tick. apply keeps_bind; [apply keeps_clock, final_ok_stable|]. intros now.
  apply keeps_bind; [apply keeps_clock, final_ok_stable|]. intros t.
  apply keeps_bind; [apply ok_d_assembly; intros ra ?; by apply (expire_ok t ra)|]. intros _.
  apply keeps_bind.
  { apply ok_core_modify; [|done|].
    - intros s []. split; simpl; auto. etrans; [apply map_subseteq_size, map_filter_subseteq|done].
    - intros s Hp Hs. split; [done|]. simpl. by rewrite Hs, map_filter_empty. }
  intros _. apply hoare_get_bind. intros s0 [Hc Hcl] s ->. destruct (d_closed s0) eqn:Ec.
  - destruct (Hcl eq_refl) as [Hp Hs]. rewrite Hp. simpl. split; [done|]. by rewrite Ec.
  - assert (Ho : final_open (d_pending s0) s0) by (split; [done|]; split; [done|]; by intros e).
    pose proof (d_tick_loop_ok now (d_pending s0) (dc_keys _ Hc) s0 Ho) as Hr.
    destruct (for_each _ _ s0) as [[u|e] s']; [|done]. by eapply open_final_ok.
Qed.

Lemma d_enqueue_ok e a :
  is_ok (FinalSession_init e) = true →
  hoare (λ s, final_open [] s ∧ (length (d_pending s) < 16)%nat ∧ (size (d_seen s) < 64)%nat)
    (d_enqueue binding profile e a) (λ _, final_ok) (λ _, final_ok).
Proof.
  intros Hv. unfold d_enqueue.
  set (J := λ s, final_open [] s ∧ (length (d_pending s) < 16)%nat ∧ (size (d_seen s) < 64)%nat).
  assert (HJ : stable J) by (intros s i [? ?] Hl; split; [by apply final_open_stable|done]).
  apply hoare_bind with (R := λ _, J).
  { eapply hoare_weaken; [by apply (keeps_clock J)|done|done|]. intros err s [? _]. by eapply open_final_ok. }
  intros now. set (p := mkPendingFinal _ _ _ _ _ _).
  apply hoare_bind with (R := λ _, final_open [(key_of e, p)]).
  { apply hoare_modify. intros s (([] & Hc & _) & Hl & Hs). split; [|split; [done|]].
    - split; simpl; auto; [by apply od_set_NoDup| | |].
      + intros k q [[= -> ->]|[Hq _]]%od_set_elem; [|by apply dc_pending0]. split; [done|].
        split; simpl; [done|lia|done|lia|set_solver].
      + pose proof (od_set_length (key_of e) p (d_pending s)). lia.
      + destruct (d_seen s !! key_of e) eqn:E; [rewrite map_size_insert_Some by eauto|rewrite map_size_insert_None by done]; lia.
    - intros x ->%list_elem_of_singleton. apply od_set_here. }
  intros _. eapply hoare_try; [apply (d_transmit_ok []); [set_solver|simpl; lia|done]| |].
  - intros u. apply hoare_ret. intros s. apply open_final_ok.
  - intros err. apply hoare_bind with (R := λ _, final_open []).
    { apply hoare_modify. intros s. apply open_drop. set_solver. }
    intros _. apply hoare_bind with (R := λ _, final_open []).
    { eapply hoare_weaken; [apply open_d_record|done|done|]. intros ? s. apply open_final_ok. }
    intros _. by apply hoare_lift; [|intros ? s _; apply open_final_ok].
Qed.

Lemma d_submit_ok e : is_ok (FinalSession_init e) = true → keeps final_ok (d_submit binding profile e).
Proof.
  intros Hv. unfold d_submit. apply keeps_bind; [apply d_tick_ok|]. intros _.
  set (J := λ s, final_ok s ∧ d_closed s = false).
  apply hoare_bind with (R := λ _, J).
  { eapply hoare_weaken; [apply d_snapshot_ok, final_ok_stable|done| |done]. by intros a s (? & ? & _). }
  intros a. apply hoare_bind with (R := λ _, J); [apply hoare_lift; [done|by intros ? s _ []]|]. intros u.
  apply hoare_get_bind. intros s0 Hs0. apply hoare_pre with (P := λ s, s = s0); [|done].
  destruct Hs0 as [Hok Hc]. destruct (d_seen s0 !! key_of e) as [other|].
  - case_bool_decide; [|apply hoare_raise; by intros s ->].
    eapply hoare_pre; [apply ok_d_record|by intros s ->].
  - destruct (_ || _) eqn:Eb; [eapply hoare_pre; [apply ok_d_record|by intros s ->]|]. bools.
    eapply hoare_pre; [by apply d_enqueue_ok|]. intros s ->. split; [|split; lia].
    split; [apply Hok|]. split; [done|]. intros x. set_solver.
Qed.

Lemma ok_d_drop key : keeps final_ok (modify (d_drop key)).
Proof. apply ok_core_modify; [apply core_drop|done|]. intros s Hp Hs. simpl. by rewrite Hp. Qed.

Lemma d_ack_ok frame ing gen : keeps final_ok (d_ack binding frame ing gen).
Proof.
  unfold d_ack. apply keeps_bind; [apply keeps_lift|]. intros fragment. apply keeps_bind; [apply keeps_lift|]. intros _.
  destruct (negb _); [apply keeps_mret|]. apply keeps_bind; [apply keeps_clock, final_ok_stable|]. intros t0.
  apply keeps_bind; [apply keeps_clock, final_ok_stable|]. intros t1.
  apply keeps_bind; [apply ok_d_assembly; eapply hoare_weaken; [apply feed_ok|done|naive_solver|done]|].
  intros [message|]; [|apply keeps_mret].
  apply keeps_get. intros s. destruct (list_find _ _) as [[i [k p]]|]; [|apply keeps_mret]. unfold d_settle.
  apply keeps_bind.
  { eapply hoare_weaken; [apply d_snapshot_ok, final_ok_stable|done|by intros ? ? []|done]. }
  intros a. apply keeps_bind; [apply keeps_clock, final_ok_stable|]. intros now. case_bool_decide.
  - apply keeps_bind; [apply ok_d_drop|]. intros _. apply keeps_fmap, ok_d_record.
  - apply keeps_bind; [apply keeps_lift|]. intros _. apply keeps_bind; [apply ok_d_drop|]. intros _.
    apply keeps_fmap, ok_d_record.
Qed.

(** ** Every run *)

Inductive final_input :=
  | DSubmit (e : FinalSession)
  | DAck (frame : bytes) (ing : string) (gen : Z)
  | DTick
  | DClose.

(** One call; a record that cannot be constructed is not submitted. *)
Definition d_serve (s : FinalState) (i : final_input) : FinalState :=
  match i with
  | DSubmit e => match FinalSession_init e with Ok e => (d_submit binding profile e s).2 | Raise _ => s end
  | DAck frame ing gen => (d_ack binding frame ing gen s).2
  | DTick => (d_tick binding profile s).2
  | DClose => d_close s
  end.

Lemma FinalSession_init_same e e' : FinalSession_init e = Ok e' → e' = e ∧ is_ok (FinalSession_init e) = true.
Proof.
  intros He. split; [|by rewrite He]. unfold FinalSession_init in He.
  repeat (apply result_bind_Ok in He as ([] & _ & He)). by apply Ok_inj in He.
Qed.

Lemma d_serve_ok s i : final_ok s → final_ok (d_serve s i).
Proof.
  intros Hs. destruct i; simpl.
  - destruct (FinalSession_init e) as [e'|] eqn:E; [|done]. apply FinalSession_init_same in E as [-> Hv].
    apply keeps_snd, Hs. by apply d_submit_ok.
  - apply keeps_snd, Hs; apply d_ack_ok.
  - apply keeps_snd, Hs; apply d_tick_ok.
  - destruct Hs as [[] ?]. split; [|done]. split; simpl; auto; [constructor|set_solver|lia|rewrite map_size_empty; lia].
Qed.

Lemma d_init_ok previous io : final_ok (d_init previous io).
Proof.
  split; [|done]. split; simpl; [constructor|set_solver|lia|rewrite map_size_empty; lia|lia|].
  apply (Reassembler_init_ok (seconds 5) 2 4096 2048 4). vm_compute. reflexivity.
Qed.

Lemma d_serve_all_ok s l : final_ok s → final_ok (foldl d_serve s l).
Proof. revert s. induction l as [|i l IH]; intros s Hs; [done|]. apply IH. by apply d_serve_ok. Qed.

(** ** The acknowledgment *)

Lemma d_settle_run message p s r s' :
  d_settle binding message p s = (Ok r, s') →
  (∃ a, final_shown (pf_event p) a) ∧ d_pending s' = od_pop (key_of (pf_event p)) (d_pending s) ∧
  (r = Some "final_session_acknowledged" → ∃ n, world_clock n < pf_deadline p).
Proof.
  unfold d_settle, d_snapshot. intros (a & s1 & Hsn & Hr)%M_bind_Ok.
  apply M_bind_Ok in Hsn as (s0 & s00 & [= <- <-] & Hsn). unfold on_io in Hsn.
  destruct (d_snapshot_of _ _ _ _ _) as [rs io] eqn:Es. injection Hsn as -> <-.
  apply d_snapshot_run in Es as (_ & Hsh & _). apply M_bind_Ok in Hr as (now & s2 & [= <- <-] & Hr).
  split; [by exists a|]. case_bool_decide.
  - apply M_bind_Ok in Hr as ([] & s3 & [= <-] & Hr). injection Hr as <- <-. split; [done|]. by intros [=].
  - apply M_bind_Ok in Hr as ([] & s3 & [= _ <-] & Hr). apply M_bind_Ok in Hr as ([] & s4 & [= <-] & Hr).
    injection Hr as <- <-. split; [done|]. intros _. exists (asked io). lia.
Qed.

Lemma d_ack_run frame ing gen s r s' :
  d_ack binding frame ing gen s = (Ok (Some r), s') →
  ∃ m k p, (k, p) ∈ d_pending s ∧ m ∈ pf_mids p ∧ (∃ a, final_shown (pf_event p) a) ∧
    d_pending s' = od_pop (key_of (pf_event p)) (d_pending s) ∧
    (r = "final_session_acknowledged" → ∃ n, world_clock n < pf_deadline p).
Proof.
  unfold d_ack. intros (fragment & s1 & [= _ <-] & Hr)%M_bind_Ok. apply M_bind_Ok in Hr as ([] & s2 & [= _ <-] & Hr).
  destruct (negb _); [done|]. apply M_bind_Ok in Hr as (t0 & s3 & [= <- <-] & Hr).
  apply M_bind_Ok in Hr as (t1 & s4 & [= <- <-] & Hr). apply M_bind_Ok in Hr as ([message|] & s5 & Hf & Hr); [|done].
  unfold d_on_assembly in Hf. destruct (feed _ _ _ _ _) as [rf ra]. injection Hf as _ <-.
  apply M_bind_Ok in Hr as (s6 & s7 & [= <- <-] & Hr). simpl in Hr.
  destruct (list_find _ _) as [[i [k p]]|] eqn:El; [|done]. apply list_find_Some in El as (El & Hm & _).
  apply d_settle_run in Hr as (Ha & Hp & Hd). exists (m_mid message), k, p.
  split; [by apply list_elem_of_lookup_2 in El|]. split; [done|]. split; [done|]. split; [done|].
  intros ->. by apply Hd.
Qed.
End Theory.

(** A session in which the report of station [02:00:00:00:00:06] is sent and acknowledged. *)
Definition dex_snapshot : ReportSnapshot :=
  mkReportSnapshot (mkReportStamp "i/0/1/1" 0 2000) example_caps example_facts "i/0/1" [] None None (Some 1) [].
Definition dex_world : World :=
  {| world_clock := λ n, 10 * Z.of_nat n; world_binding := λ _, example_binding;
     world_source := λ _, Some dex_snapshot; world_link := λ _, true |}.
Definition dex_final : FinalSession :=
  mkFinalSession "i/0/1" "assoc-1" example_bss (octets [2; 0; 0; 0; 0; 6]) 0 8 (mkTrafficCounters 1 2 3 4 5 6 7).
Definition dex_ack : bytes :=
  match fragment_message (octets [2; 0; 0; 0; 0; 9]) (octets [2; 0; 0; 0; 0; 8]) 0x8000 7 [] false MAX_CMDU with
  | Ok (f :: _) => f
  | _ => []
  end.

(** An acknowledged final report was sent and still true. When [ack] counts an acknowledgment, in
    any run, an association was pending under one of whose identifiers the report of its final
    counters and reason had been handed to the link whole; its record is a valid one; the clock is
    before its deadline, which is within two seconds of the observation; the source shows the same
    context, the BSS operating, its membership complete and the station not associated again; and the
    association is no longer pending. *)
Theorem final_report_acknowledged `{World} binding profile previous io inputs frame ing gen s' :
  let s := foldl (d_serve binding profile) (d_init previous io) inputs in
  d_ack binding frame ing gen s = (Ok (Some "final_session_acknowledged"), s') →
  ∃ m p, (key_of (pf_event p), p) ∈ d_pending s ∧ (key_of (pf_event p) ∉ (d_pending s').*1) ∧
    m ∈ pf_mids p ∧ final_sent binding profile (d_io s) p m ∧ is_ok (FinalSession_init (pf_event p)) = true ∧
    (∃ n, world_clock n < pf_deadline p) ∧ pf_deadline p ≤ fs_observed_at (pf_event p) + seconds 2 ∧
    ∃ a, final_shown (pf_event p) a.
Proof.
  intros s Hr. assert (Hok : final_ok binding profile s) by (apply d_serve_all_ok, d_init_ok).
  apply d_ack_run in Hr as (m & k & p & Hp & Hm & Ha & Hs & Hd). destruct Hok as [[_ Hpend _ _ _ _] _].
  destruct (Hpend _ _ Hp) as [-> []]. exists m, p. split; [done|].
  split; [rewrite Hs; apply od_pop_gone|]. split; [done|]. split; [auto|]. split; [done|]. split; [auto|]. done.
Qed.

Lemma final_report_acknowledged_witness :
  let s := foldl (@d_serve dex_world example_binding 2) (d_init 6 (mkIo 0 [])) [DSubmit dex_final; DTick] in
  let run := @d_ack dex_world example_binding dex_ack "eth0" 1 s in
  run.1 = Ok (Some "final_session_acknowledged") ∧
  ∃ m p, m ∈ pf_mids p ∧ final_sent example_binding 2 (d_io s) p m ∧
    (key_of (pf_event p) ∉ (d_pending run.2).*1).
Proof.
  intros s run. assert (E : run.1 = Ok (Some "final_session_acknowledged")) by (vm_compute; reflexivity).
  split; [exact E|].
  destruct (@final_report_acknowledged dex_world example_binding 2 6 (mkIo 0 []) [DSubmit dex_final; DTick] dex_ack "eth0" 1
    run.2) as (m & p & _ & Hg & Hm & Hs & _).
  - rewrite <- E. exact (surjective_pairing run).
  - exists m, p. split; [exact Hm|]. split; [exact Hs|exact Hg].
Defined.

(** The queue of final reports is bounded, in any run: at most sixteen associations wait, each
    under its own key, at most sixty-four are remembered and thirty-two events kept; each that waits
    was transmitted at most three times, under at most as many identifiers, and is given up within
    two seconds of its observation; the fragments held for acknowledgments are within the budget of
    the reassembler; and a closed coordinator holds nothing. *)
Theorem final_sessions_bounded `{World} binding profile previous io inputs :
  let s := foldl (d_serve binding profile) (d_init previous io) inputs in
  (length (d_pending s) ≤ 16)%nat ∧ NoDup (d_pending s).*1 ∧ (size (d_seen s) ≤ 64)%nat ∧
  (length (d_events s) ≤ 32)%nat ∧ reassembler_ok (d_assembly s) ∧
  (∀ k p, (k, p) ∈ d_pending s → k = key_of (pf_event p) ∧ Z.of_nat (size (pf_mids p)) ≤ pf_transmissions p ≤ 3 ∧
     pf_deadline p ≤ fs_observed_at (pf_event p) + seconds 2) ∧
  (d_closed s = true → d_pending s = [] ∧ d_seen s = ∅).
Proof.
  intros s. assert (Hok : final_ok binding profile s) by (apply d_serve_all_ok, d_init_ok).
  destruct Hok as [[] Hc]. split; [done|]. split; [done|]. split; [done|]. split; [done|]. split; [done|]. split; [|done].
  intros k p Hp. destruct (dc_pending0 k p Hp) as [-> []]. split; [done|]. split; [lia|done].
Qed.

(** The counters of a final report survive their truncation to 32 bits. Whoever reads two traffic
    statistics TLVs of a station, made under the same profile and unit, and subtracts a counter of the
    first from the same counter of the second modulo 2^32, gets the growth of the scaled counter
    itself, whatever the 64-bit counters are, as long as the growth fits 32 bits: the scale is applied
    to the lifetime counter before the truncation, and nothing saturates. *)
Theorem counters_survive_rollover c1 c2 station profile byte_units t1 t2 i v1 v2 :
  counters_tlv c1 station profile byte_units = Ok t1 →
  counters_tlv c2 station profile byte_units = Ok t2 →
  scaled_counts c1 byte_units !! i = Some v1 →
  scaled_counts c2 byte_units !! i = Some v2 →
  0 ≤ v2 - v1 < 2 ^ 32 →
  (counter_field i t2 - counter_field i t1) mod 2 ^ 32 = v2 - v1.
Proof.
  intros H1 H2 Hv1 Hv2 Hd.
  rewrite (counter_field_eq c1 _ _ _ _ _ _ H1 Hv1), (counter_field_eq c2 _ _ _ _ _ _ H2 Hv2).
  rewrite <- Zminus_mod. by apply Z.mod_small.
Qed.

Lemma counters_survive_rollover_witness :
  let c1 := mkTrafficCounters (2 ^ 42 - 1024) 7 8 9 10 11 12 in
  let c2 := mkTrafficCounters (2 ^ 42 + 4096) 7 8 9 10 11 12 in
  let station := octets [2; 0; 0; 0; 0; 9] in
  ∃ t1 t2, counters_tlv c1 station 2 1 = Ok t1 ∧ counters_tlv c2 station 2 1 = Ok t2 ∧
    counter_field 0 t2 < counter_field 0 t1 ∧ (counter_field 0 t2 - counter_field 0 t1) mod 2 ^ 32 = 5.
Proof.
  do 2 eexists. split; [vm_compute; reflexivity|]. split; [vm_compute; reflexivity|]. split; [vm_compute; reflexivity|].
  eapply (counters_survive_rollover (mkTrafficCounters (2 ^ 42 - 1024) 7 8 9 10 11 12)
    (mkTrafficCounters (2 ^ 42 + 4096) 7 8 9 10 11 12) (octets [2; 0; 0; 0; 0; 9]) 2 1 _ _ 0 (2 ^ 32 - 1) (2 ^ 32 + 4));
    [vm_compute; reflexivity..|lia].
Defined.
