(* ===== verification/ReportingPolicy.v ===== *)
(** * The reporting policy: [src/emosa/wire/reporting_policy.py]

    The parser of a Multi-AP Policy Config Request, the one record that is kept of the policies
    received, and the coordinator: it persists a receipt before it acknowledges it, and accounts every
    reporting period before it tries to report. An address is its octets, of which [hex()] is a
    rendering. Outside: the database, the JSON text of the record, the digest of a request, and the
    reporter (an interface, [Reporter]). *)

From stdpp Require Import pretty.
From Stdlib Require Import Sorting.Sorted.
From S2P Require Import Prelude Bytes Cmdu Payloads TopologyValues Reports Channel ReportSource Session.

(** ** The request *)

(** [address(value)] *)
Definition p_address (value : bytes) : result bytes :=
  _ ← raise_if (negb (unicast_mac value)) INVALID_INPUT "policy requires a unicast MAC address";
  Ok value.

(** [addresses(data)]: the list, and what follows it *)
Definition addresses (data : bytes) : result (list bytes * bytes) :=
  let n := Z.to_nat (octet_at 0 data) in
  _ ← raise_if (bool_decide (length data = 0%nat) || bool_decide (length data < 1 + 6 * n)%nat) INVALID_INPUT
        "truncated policy station list";
  values ← map_result (λ i, p_address (slice (1 + 6 * i) (1 + 6 * i + 6) data)) (seq 0 n);
  _ ← raise_if (negb (bool_decide (NoDup values))) INVALID_INPUT "duplicate policy station identity";
  Ok (values, drop (1 + 6 * n) data).

Record MetricRadio := mkMetricRadio {
  mr_ruid : bytes;
  rcpi_threshold : Z;
  rcpi_hysteresis_db : Z;
  mr_utilization : Z;
  include_traffic : bool;
  include_link : bool;
  include_wifi6_status : bool
}.
Record SteeringRadio := mkSteeringRadio { sr_ruid : bytes; sr_policy : Z; sr_utilization : Z; sr_rcpi : Z }.
Record MetricPolicy := mkMetricPolicy { interval_seconds : Z; mp_radios : list MetricRadio }.
Record SteeringPolicy := mkSteeringPolicy {
  local_disallowed : list bytes; btm_disallowed : list bytes; sp_radios : list SteeringRadio }.
Record QosPolicy := mkQosPolicy { mscs_disallowed : list bytes; scs_disallowed : list bytes }.

(** The dictionary [result]: a key that is absent is [None]. *)
Record ReceivedPolicy := mkReceivedPolicy {
  p_metrics : option MetricPolicy;
  p_steering : option SteeringPolicy;
  p_qos : option (list QosPolicy);
  not_applied : option (list (Z * Z))                (* kind and length *)
}.
#[export] Instance eta_ReceivedPolicy : Eta ReceivedPolicy := λ p,
  mkReceivedPolicy (p_metrics p) (p_steering p) (p_qos p) (not_applied p).
#[export] Instance MetricRadio_eq_dec : EqDecision MetricRadio.
Proof. solve_decision. Defined.
#[export] Instance MetricPolicy_eq_dec : EqDecision MetricPolicy.
Proof. solve_decision. Defined.

Definition bit_set (flags bit : Z) : bool := bool_decide (Z.land flags bit ≠ 0).

(** The loop body over the radios of a metric policy. *)
Definition metric_radio (ruids : list bytes) (data : bytes) (radios : list MetricRadio) (i : nat) :
    result (list MetricRadio) :=
  let offset := (2 + 10 * i)%nat in
  let radio := slice offset (offset + 6) data in
  let rcpi := octet_at (offset + 6) data in
  let flags := octet_at (offset + 9) data in
  let refused := "foreign or repeated radio, or reserved RCPI threshold" in
  _ ← raise_if (negb (bool_decide (radio ∈ ruids)) || bool_decide (220 < rcpi)) INVALID_INPUT refused;
  radio ← p_address radio;
  _ ← raise_if (bool_decide (radio ∈ (mr_ruid <$> radios))) INVALID_INPUT refused;
  Ok (radios ++ [mkMetricRadio radio rcpi (octet_at (offset + 7) data) (octet_at (offset + 8) data)
                   (bit_set flags 0x80) (bit_set flags 0x40) (bit_set flags 0x20)]).

(** The branch of kind [0x8A]. *)
Definition metric_policy (ruids : list bytes) (data : bytes) : result MetricPolicy :=
  let n := Z.to_nat (octet_at 1 data) in
  _ ← raise_if (bool_decide (length data < 2)%nat || negb (bool_decide (length data = (2 + n * 10)%nat))) INVALID_INPUT
        "duplicate or malformed metric reporting policy";
  _ ← raise_if (bool_decide (length ruids < n)%nat) UNSUPPORTED_OPERATION "more radios than the agent has";
  radios ← fold_result (metric_radio ruids data) [] (seq 0 n);
  Ok (mkMetricPolicy (octet_at 0 data) radios).

(** The loop body over the radios of a steering policy. *)
Definition steering_radio (ruids : list bytes) (data : bytes) (radios : list SteeringRadio) (i : nat) :
    result (list SteeringRadio) :=
  let offset := (1 + 9 * i)%nat in
  let radio := slice offset (offset + 6) data in
  let policy := octet_at (offset + 6) data in
  let rcpi := octet_at (offset + 8) data in
  let refused := "foreign or repeated radio, or reserved steering field" in
  _ ← raise_if (negb (bool_decide (radio ∈ ruids)) || bool_decide (2 < policy) || bool_decide (220 < rcpi)) INVALID_INPUT
        refused;
  radio ← p_address radio;
  _ ← raise_if (bool_decide (radio ∈ (sr_ruid <$> radios))) INVALID_INPUT refused;
  Ok (radios ++ [mkSteeringRadio radio policy (octet_at (offset + 7) data) rcpi]).

(** The branch of kind [0x89]. *)
Definition steering_policy (ruids : list bytes) (data : bytes) : result SteeringPolicy :=
  '(local, data) ← addresses data;
  '(btm, data) ← addresses data;
  let n := Z.to_nat (octet_at 0 data) in
  _ ← raise_if (bool_decide (length data = 0%nat) || negb (bool_decide (length data = (1 + 9 * n)%nat))) INVALID_INPUT
        "malformed steering radio list";
  _ ← raise_if (bool_decide (length ruids < n)%nat) UNSUPPORTED_OPERATION "more radios than the agent has";
  radios ← fold_result (steering_radio ruids data) [] (seq 0 n);
  Ok (mkSteeringPolicy local btm radios).

(** The branch of kind [0xDB]. *)
Definition qos_policy (data : bytes) : result QosPolicy :=
  '(mscs, data) ← addresses data;
  '(scs, reserved) ← addresses data;
  _ ← raise_if (negb (bool_decide (length reserved = 20%nat))) INVALID_INPUT
        "malformed QoS management policy reserved field";
  Ok (mkQosPolicy mscs scs).

(** The loop body of [decode_policy]. *)
Definition policy_entry (ruids : list bytes) (p : ReceivedPolicy) (t : Tlv) : result ReceivedPolicy :=
  let data := tlv_value t in
  if bool_decide (Cmdu.kind t = 0x8A) then
    _ ← raise_if (bool_decide (is_Some (p_metrics p))) INVALID_INPUT "duplicate or malformed metric reporting policy";
    m ← metric_policy ruids data;
    Ok (p <| p_metrics := Some m |>)
  else if bool_decide (Cmdu.kind t = 0x89) then
    _ ← raise_if (bool_decide (is_Some (p_steering p))) INVALID_INPUT "duplicate steering policy";
    m ← steering_policy ruids data;
    Ok (p <| p_steering := Some m |>)
  else if bool_decide (Cmdu.kind t = 0xDB) then
    q ← qos_policy data;
    Ok (p <| p_qos := Some (default [] (p_qos p) ++ [q]) |>)
  else Ok (p <| not_applied := Some (default [] (not_applied p) ++ [(Cmdu.kind t, len data)]) |>).

Definition no_policy : ReceivedPolicy := mkReceivedPolicy None None None None.

(** [decode_policy(tlvs, ruids)] *)
Definition decode_policy (tlvs : list Tlv) (ruids : list bytes) : result ReceivedPolicy :=
  fold_result (policy_entry ruids) no_policy tlvs.

(** [{**old, **update}] *)
Definition merge_policy (old update : ReceivedPolicy) : ReceivedPolicy :=
  mkReceivedPolicy (union (p_metrics update) (p_metrics old)) (union (p_steering update) (p_steering old))
    (union (p_qos update) (p_qos old)) (union (not_applied update) (not_applied old)).

(** ** The record *)

Record PolicyIdentity := mkPolicyIdentity { pi_controller : bytes; pi_local_al : bytes; pi_ruid : bytes }.
#[export] Instance PolicyIdentity_eq_dec : EqDecision PolicyIdentity.
Proof. solve_decision. Defined.

(** [latest_report_attempt] *)
Record Attempt := mkAttempt { at_due : Z; at_status : string; at_reason : option string }.

Record PolicyRecord := mkPolicyRecord {
  pr_identity : PolicyIdentity;
  pr_policy : ReceivedPolicy;
  receipt_count : Z;
  next_due : option Z;
  periods_due_without_report : Z;
  last_unfulfilled_due : option Z;
  boot_id : string;
  schedule_rebases : Z;
  latest_mid : option Z;
  latest_request : option (list Tlv);
  latest_report_attempt : option Attempt;
  reports_transmitted : option Z
}.
#[export] Instance eta_PolicyRecord : Eta PolicyRecord := λ r,
  mkPolicyRecord (pr_identity r) (pr_policy r) (receipt_count r) (next_due r) (periods_due_without_report r)
    (last_unfulfilled_due r) (boot_id r) (schedule_rebases r) (latest_mid r) (latest_request r) (latest_report_attempt r)
    (reports_transmitted r).

(** [value["policy"].get("metrics", {}).get("interval_seconds", 0)] *)
Definition interval_of (p : ReceivedPolicy) : Z := from_option interval_seconds 0 (p_metrics p).

(** [now + interval if interval else None] *)
Definition due_after (now interval : Z) : option Z :=
  if bool_decide (interval = 0) then None else Some (now + seconds interval).

(** [len(json.dumps(raw))] for the TLVs of a request: [{"kind": K, "value": "HEX"}] joined by [", "]. *)
Definition raw_length (tlvs : list Tlv) : Z :=
  2 + foldr (λ t n, Z.of_nat (String.length (pretty (Z.to_N (Cmdu.kind t)))) + 2 * len (tlv_value t) + 23 + n) 0 tlvs
  + 2 * Z.max 0 (len tlvs - 1).

(** ** The coordinator *)

Record PolicyState := mkPolicyState {
  rp_io : Io;
  rp_closed : bool;
  rp_recent : gmap Z (string * Z);                   (* digest and expiry of the requests of the last five seconds *)
  rp_counts : gmap string Z;
  rp_value : option PolicyRecord;
  rp_stored : option PolicyRecord;                   (* the row of [ReportingPolicyStore] *)
  rp_periodic : list (nat * Z)                       (* the calls of the reporter: when asked, and the period due *)
}.
#[export] Instance eta_PolicyState : Eta PolicyState := λ s,
  mkPolicyState (rp_io s) (rp_closed s) (rp_recent s) (rp_counts s) (rp_value s) (rp_stored s) (rp_periodic s).
#[export] Instance PolicyState_io : HasIo PolicyState := {| io_of := rp_io; with_io i s := s <| rp_io := i |> |}.
#[export] Instance PolicyState_io_laws : HasIoLaws PolicyState.
Proof. by split. Qed.

(** What the coordinator asks of a reporter: one report for the period that is due. *)
Class Reporter := { periodic : ReceivedPolicy → Z → M Io unit; periodic_forward : ∀ p due, forward (periodic p due) }.

Section Coordinator.
(** Outside: [encoded_length], the length of the JSON text of a record; [disk], whether the database
    takes the write; [digest], the hash of a request. *)
Context `{World} (binding : PeerBinding) (boot : string) (encoded_length : PolicyRecord → Z) (disk : nat → bool)
  (digest : list Tlv → string) (reporter : option Reporter).

(** [_started(value)] *)
Definition rp_started (value : option PolicyRecord) : M Io (option PolicyRecord) :=
  match value with
  | None => mret None
  | Some v =>
      let interval := interval_of (pr_policy v) in
      due ← (if bool_decide (interval = 0) then mret None else now ← clock; mret (due_after now interval));
      mret (Some (v <| boot_id := boot |> <| next_due := due |> <| periods_due_without_report := 0 |>
                    <| last_unfulfilled_due := None |> <| schedule_rebases := schedule_rebases v + 1 |>
                    <| latest_report_attempt := None |> <| reports_transmitted := None |>))
  end.

(** [__init__] *)
Definition rp_init (io : Io) (held : option PolicyRecord) : PolicyState :=
  match rp_started held io with
  | (Ok v, io) => mkPolicyState io false ∅ ∅ v held []
  | (Raise _, io) => mkPolicyState io false ∅ ∅ None held []
  end.

(** [record(key)] *)
Definition rp_record (key : string) : M PolicyState string :=
  _ ← modify (λ s, s <| rp_counts := count key (rp_counts s) |>); mret key.

(** [snapshot()] *)
Definition rp_snapshot_of (closed : bool) : M Io ReportSnapshot :=
  current ← poll;
  if closed then raise NOT_READY "reporting policy source unavailable"
  else
    b ← poll_binding;
    match current with
    | Some a => if bool_decide (b = binding) then mret a else raise NOT_READY "reporting policy source unavailable"
    | None => raise NOT_READY "reporting policy source unavailable"
    end.
Definition rp_snapshot : M PolicyState ReportSnapshot := s ← get; on_io (rp_snapshot_of (rp_closed s)).

(** [identity(snapshot)]; [radios[0]] of an empty list is an [IndexError] *)
Definition rp_identity (a : ReportSnapshot) : result PolicyIdentity :=
  match cap_radios (capabilities a) with
  | r :: _ => Ok (mkPolicyIdentity (controller_al binding) (local_al binding) (basic_ruid (basic r)))
  | [] => Raise (key_error "radios[0]")
  end.

(** [ReportingPolicyStore.save(value)], and [persist(value)], which re-raises a database error *)
Definition rp_persist (value : PolicyRecord) : M PolicyState unit :=
  _ ← lift (raise_if (bool_decide (32768 < encoded_length value)) INVALID_INPUT "reporting policy record exceeds budget");
  s ← get;
  if disk (asked (rp_io s))
  then put (s <| rp_io := rp_io s <| asked := S (asked (rp_io s)) |> |> <| rp_stored := Some value |> <| rp_value := Some value |>)
  else _ ← put (s <| rp_io := rp_io s <| asked := S (asked (rp_io s)) |> |>);
       raise NOT_READY "reporting policy persistence failed".

(** [self.reporter.periodic(policy, due)] *)
Definition rp_report (r : Reporter) (policy : ReceivedPolicy) (due : Z) : M PolicyState unit :=
  _ ← modify (λ s, s <| rp_periodic := rp_periodic s ++ [(asked (rp_io s), due)] |>);
  on_io (periodic policy due).

(** The record once the periods up to [now] are accounted. *)
Definition accounted (v : PolicyRecord) (due periods : Z) : PolicyRecord :=
  let interval := seconds (interval_of (pr_policy v)) in
  let v := v <| periods_due_without_report := periods_due_without_report v + periods |>
             <| next_due := Some (due + periods * interval) |>
             <| last_unfulfilled_due := Some (due + (periods - 1) * interval) |> in
  match reporter with
  | None => v
  | Some _ => v <| latest_report_attempt := Some (mkAttempt (due + (periods - 1) * interval) "reserved_outcome_unknown" None) |>
  end.

(** The record once the report of the last period has been handed over, or has failed. *)
Definition fulfilled (v : PolicyRecord) (due periods : Z) : PolicyRecord :=
  let interval := seconds (interval_of (pr_policy v)) in
  accounted v due periods
    <| periods_due_without_report := periods_due_without_report v + periods - 1 |>
    <| reports_transmitted := Some (default 0 (reports_transmitted v) + 1) |>
    <| last_unfulfilled_due := if bool_decide (1 < periods) then Some (due + (periods - 2) * interval)
                               else last_unfulfilled_due v |>
    <| latest_report_attempt := Some (mkAttempt (due + (periods - 1) * interval)
                                        "transmitted_controller_receipt_unverified" None) |>.
Definition unfulfilled (v : PolicyRecord) (due periods : Z) (e : EmosaError) : PolicyRecord :=
  let interval := seconds (interval_of (pr_policy v)) in
  accounted v due periods
    <| latest_report_attempt := Some (mkAttempt (due + (periods - 1) * interval) "unavailable_or_send_incomplete"
         (Some (if bool_decide (e = os_error) then "IO_ERROR" else reason_value (code e)))) |>.

(** The part of [tick] from [if due is not None and now >= due] on. *)
Definition rp_account (now : Z) (v : PolicyRecord) : M PolicyState unit :=
  match next_due v with
  | None => mret tt
  | Some due =>
      if negb (bool_decide (due ≤ now)) then mret tt
      else
        let interval := interval_of (pr_policy v) in
        _ ← lift (raise_if (bool_decide (interval = 0)) NOT_FOUND "ZeroDivisionError");
        let periods := (now - due) / seconds interval + 1 in
        let unreported := _ ← rp_record "metric_reporting_due_without_qualified_source"; mret tt in
        _ ← modify (λ s, s <| rp_value := Some (accounted v due periods) |>);
        match reporter with
        | None => unreported
        | Some r =>
            try_else (rp_report r (pr_policy v) (due + (periods - 1) * seconds interval))
              (λ _, _ ← modify (λ s, s <| rp_value := Some (fulfilled v due periods) |>);
                    _ ← rp_record "periodic_metric_report_transmitted"; mret tt)
              (λ e, _ ← modify (λ s, s <| rp_value := Some (unfulfilled v due periods e) |>); unreported)
        end
  end.

(** The part of [tick] from [if self.closed or self.value is None] on. *)
Definition rp_schedule (now : Z) : M PolicyState unit :=
  s ← get;
  match rp_value s with
  | None => mret tt
  | Some v =>
      if rp_closed s then mret tt
      else
        try_else rp_snapshot
          (λ a, identity ← lift (rp_identity a);
                if negb (bool_decide (pr_identity v = identity)) then mret tt else rp_account now v)
          (λ _, mret tt)
  end.

(** [tick()] *)
Definition rp_tick : M PolicyState unit :=
  now ← on_io clock;
  _ ← modify (λ s, s <| rp_recent := filter (λ kv, now < kv.2.2) (rp_recent s) |>);
  rp_schedule now.

(** The record an empty store starts from. *)
Definition fresh_record (identity : PolicyIdentity) : PolicyRecord :=
  mkPolicyRecord identity no_policy 0 None 0 None boot 0 None None None None.

(** The record the request is merged into: one kept for another identity is never used. *)
Definition rp_base (a : ReportSnapshot) : M PolicyState PolicyRecord :=
  s ← get;
  identity ← lift (rp_identity a);
  match rp_value s with
  | None => mret (fresh_record identity)
  | Some v =>
      if bool_decide (pr_identity v = identity) then mret v
      else _ ← rp_record "stored_policy_superseded"; mret (fresh_record identity)
  end.

(** When the next report is due under the merged policy. *)
Definition rp_due (v : PolicyRecord) (policy : ReceivedPolicy) : M PolicyState (option Z) :=
  if bool_decide (p_metrics policy = p_metrics (pr_policy v)) then mret (next_due v)
  else
    match p_metrics policy with
    | None => lift (Raise (key_error "metrics"))
    | Some m =>
        if bool_decide (interval_seconds m = 0) then mret None
        else now ← on_io clock; mret (due_after now (interval_seconds m))
    end.

(** The request is merged into the record [v] and persisted. *)
Definition rp_merge (message : Message) (update : ReceivedPolicy) (a : ReportSnapshot) (v : PolicyRecord) :
    M PolicyState unit :=
  let policy := merge_policy (pr_policy v) update in
  due ← rp_due v policy;
  let value := v <| pr_policy := policy |> <| latest_mid := Some (m_mid message) |>
                 <| latest_request := Some (m_tlvs message) |> <| receipt_count := receipt_count v + 1 |>
                 <| next_due := due |> in
  current ← rp_snapshot;
  now ← on_io clock;
  _ ← lift (stamp_check (s_stamp a) (Some (s_stamp current)) now);
  _ ← rp_persist value;
  now ← on_io clock;
  modify (λ s, s <| rp_recent := <[m_mid message := (digest (m_tlvs message), now + seconds 5)]> (rp_recent s) |>).

(** The part of [handle] for a request not seen in the last five seconds. *)
Definition rp_receive (message : Message) (update : ReceivedPolicy) (a : ReportSnapshot) : M PolicyState unit :=
  s ← get;
  _ ← lift (raise_if (bool_decide (64 ≤ size (rp_recent s))%nat) NOT_READY "policy request budget exhausted");
  v ← rp_base a;
  rp_merge message update a v.

(** The part of [handle] for the decoded request: it is recorded, or known, and acknowledged. *)
Definition rp_acknowledge (message : Message) (received_at : Z) (update : ReceivedPolicy) (a : ReportSnapshot) :
    M PolicyState string :=
  s ← get;
  _ ← match rp_recent s !! m_mid message with
      | Some (d, _) => lift (raise_if (negb (bool_decide (d = digest (m_tlvs message)))) INVALID_INPUT
                               "conflicting policy request MID")
      | None => rp_receive message update a
      end;
  s ← get;
  _ ← on_io (deliver binding (rp_snapshot_of (rp_closed s)) 0x8000 (m_mid message) [] a (received_at + seconds 1));
  rp_record "policy_receipt_ack_sent".

(** The checks of [handle] before the request is decoded. *)
Definition rp_admit (message : Message) (received_at : Z) : M PolicyState unit :=
  _ ← lift (raise_if (negb (bool_decide (m_source message = controller_al binding))
                      || negb (bool_decide (m_destination message = local_al binding)) || m_relay message)
              INVALID_INPUT "policy from an unbound controller or envelope");
  now ← on_io clock;
  _ ← lift (raise_if (bool_decide (received_at + seconds 1 ≤ now)) NOT_READY "policy Ack deadline expired");
  lift (raise_if (bool_decide (8192 < raw_length (m_tlvs message))) INVALID_INPUT "policy request exceeds budget").

(** [handle(message, received_at)] once [tick()] has returned *)
Definition rp_answer (message : Message) (received_at : Z) : M PolicyState string :=
  a ← rp_snapshot;
  _ ← rp_admit message received_at;
  update ← lift (decode_policy (m_tlvs message) ((λ r, basic_ruid (basic r)) <$> cap_radios (capabilities a)));
  rp_acknowledge message received_at update a.

(** [handle(message, received_at)] *)
Definition rp_handle (message : Message) (received_at : Z) : M PolicyState (option string) :=
  if negb (bool_decide (m_message_type message = 0x8003)) then mret None
  else _ ← rp_tick; Some <$> rp_answer message received_at.

(** [close()] *)
Definition rp_close (s : PolicyState) : PolicyState := s <| rp_closed := true |> <| rp_recent := ∅ |>.
End Coordinator.

(** * Theory *)

(** ** What is decoded *)

Definition stations_wf (l : list bytes) : Prop := NoDup l ∧ Forall (λ a, unicast_mac a = true) l.

(** The radios of a policy are the agent's, each named once. *)
Definition radios_wf (ruids named : list bytes) : Prop :=
  NoDup named ∧ Forall (λ r, r ∈ ruids ∧ unicast_mac r = true) named.

Definition metrics_wf (ruids : list bytes) (m : MetricPolicy) : Prop :=
  0 ≤ interval_seconds m < 256 ∧ radios_wf ruids (mr_ruid <$> mp_radios m) ∧
  Forall (λ r, 0 ≤ rcpi_threshold r ≤ 220) (mp_radios m).
Definition steering_wf (ruids : list bytes) (p : SteeringPolicy) : Prop :=
  stations_wf (local_disallowed p) ∧ stations_wf (btm_disallowed p) ∧ radios_wf ruids (sr_ruid <$> sp_radios p) ∧
  Forall (λ r, 0 ≤ sr_policy r ≤ 2 ∧ 0 ≤ sr_rcpi r ≤ 220) (sp_radios p).
Definition qos_wf (q : QosPolicy) : Prop := stations_wf (mscs_disallowed q) ∧ stations_wf (scs_disallowed q).

Lemma p_address_Ok v w : p_address v = Ok w → w = v ∧ unicast_mac v = true.
Proof.
  unfold p_address. intros ([] & Hu%raise_if_Ok & <-%Ok_inj)%result_bind_Ok. split; [done|]. by apply negb_false_iff.
Qed.

Lemma addresses_wf data vs rest : addresses data = Ok (vs, rest) → stations_wf vs.
Proof.
  unfold addresses. intros ([] & _ & Hr)%result_bind_Ok. apply result_bind_Ok in Hr as (l & Hl & Hr).
  apply result_bind_Ok in Hr as ([] & Hn%raise_if_Ok & [= <- <-]%Ok_inj). bools. split; [done|].
  apply map_result_Ok in Hl. clear -Hl. induction Hl as [|i v is0 l [-> Hu]%p_address_Ok _ IH]; by constructor.
Qed.

Lemma radios_wf_snoc ruids l r :
  radios_wf ruids l → r ∈ ruids → unicast_mac r = true → r ∉ l → radios_wf ruids (l ++ [r]).
Proof.
  intros [Hn Hf] Hr Hu Hl. split; [|apply Forall_app; by repeat constructor].
  apply NoDup_app. split; [done|]. split; [|apply NoDup_singleton]. by intros x Hx ->%list_elem_of_singleton.
Qed.

Lemma metric_policy_wf ruids data m : metric_policy ruids data = Ok m → metrics_wf ruids m.
Proof.
  unfold metric_policy. intros ([] & _ & Hr)%result_bind_Ok. apply result_bind_Ok in Hr as ([] & _ & Hr).
  apply result_bind_Ok in Hr as (radios & Hf & <-%Ok_inj). split; [apply octet_at_range|].
  revert Hf. apply (fold_result_prefix (metric_radio ruids data) (λ _ l, radios_wf ruids (mr_ruid <$> l) ∧
    Forall (λ r, 0 ≤ rcpi_threshold r ≤ 220) l)); [by repeat constructor|]. clear.
  intros dn acc i acc' [Hw Hc]. unfold metric_radio. intros ([] & H1%raise_if_Ok & Hr)%result_bind_Ok.
  apply result_bind_Ok in Hr as (r & [-> Hu]%p_address_Ok & Hr).
  apply result_bind_Ok in Hr as ([] & H2%raise_if_Ok & <-%Ok_inj). bools. rewrite fmap_app. split.
  - by apply radios_wf_snoc.
  - apply Forall_app. split; [done|]. constructor; [|constructor]. cbn [rcpi_threshold]. pose proof (octet_at_range (2 + 10 * i + 6) data). lia.
Qed.

Lemma steering_policy_wf ruids data p : steering_policy ruids data = Ok p → steering_wf ruids p.
Proof.
  unfold steering_policy. intros ([local d1] & Hlo & Hr)%result_bind_Ok.
  apply result_bind_Ok in Hr as ([btm d2] & Hb & Hr). apply result_bind_Ok in Hr as ([] & _ & Hr).
  apply result_bind_Ok in Hr as ([] & _ & Hr). apply result_bind_Ok in Hr as (radios & Hf & <-%Ok_inj).
  split; [by eapply addresses_wf|]. split; [by eapply addresses_wf|].
  revert Hf. apply (fold_result_prefix (steering_radio ruids d2) (λ _ l, radios_wf ruids (sr_ruid <$> l) ∧
    Forall (λ r, 0 ≤ sr_policy r ≤ 2 ∧ 0 ≤ sr_rcpi r ≤ 220) l)); [by repeat constructor|]. clear.
  intros dn acc i acc' [Hw Hc]. unfold steering_radio. intros ([] & H1%raise_if_Ok & Hr)%result_bind_Ok.
  apply result_bind_Ok in Hr as (r & [-> Hu]%p_address_Ok & Hr).
  apply result_bind_Ok in Hr as ([] & H2%raise_if_Ok & <-%Ok_inj). bools. rewrite fmap_app. split.
  - by apply radios_wf_snoc.
  - apply Forall_app. split; [done|]. constructor; [|constructor]. cbn [sr_policy sr_rcpi].
    pose proof (octet_at_range (1 + 9 * i + 6) d2). pose proof (octet_at_range (1 + 9 * i + 8) d2). lia.
Qed.

Lemma qos_policy_wf data q : qos_policy data = Ok q → qos_wf q.
Proof.
  unfold qos_policy. intros ([mscs d1] & Hm & Hr)%result_bind_Ok. apply result_bind_Ok in Hr as ([scs d2] & Hs & Hr).
  apply result_bind_Ok in Hr as ([] & _ & <-%Ok_inj). split; by eapply addresses_wf.
Qed.

(** The TLVs of a request by what becomes of them. *)
Definition of_kind (k : Z) (tlvs : list Tlv) : list Tlv := filter (λ t, Cmdu.kind t = k) tlvs.
Definition companions (tlvs : list Tlv) : list Tlv :=
  filter (λ t, Cmdu.kind t ≠ 0x8A ∧ Cmdu.kind t ≠ 0x89 ∧ Cmdu.kind t ≠ 0xDB) tlvs.

(** What a request of those TLVs decodes to: each policy TLV gives the policy of its value, at most one
    metric and one steering policy; every other TLV is listed with its length. *)
Record decodes (ruids : list bytes) (tlvs : list Tlv) (p : ReceivedPolicy) : Prop := {
  dp_metrics : (λ t, metric_policy ruids (tlv_value t)) <$> of_kind 0x8A tlvs = Ok <$> option_list (p_metrics p);
  dp_steering : (λ t, steering_policy ruids (tlv_value t)) <$> of_kind 0x89 tlvs = Ok <$> option_list (p_steering p);
  dp_qos : (λ t, qos_policy (tlv_value t)) <$> of_kind 0xDB tlvs = Ok <$> default [] (p_qos p);
  dp_companions : default [] (not_applied p) = (λ t, (Cmdu.kind t, len (tlv_value t))) <$> companions tlvs
}.

Lemma of_kind_snoc k l t : of_kind k (l ++ [t]) = of_kind k l ++ (if decide (Cmdu.kind t = k) then [t] else []).
Proof. unfold of_kind. rewrite filter_app, filter_cons. by case_decide. Qed.
Lemma companions_snoc l t :
  companions (l ++ [t]) = companions l ++ (if decide (Cmdu.kind t ≠ 0x8A ∧ Cmdu.kind t ≠ 0x89 ∧ Cmdu.kind t ≠ 0xDB) then [t] else []).
Proof. unfold companions. rewrite filter_app, filter_cons. by case_decide. Qed.

(** The TLV at hand is of one kind, and the other lists are as they were. *)
Ltac by_kind :=
  split; rewrite ?of_kind_snoc, ?companions_snoc; repeat (case_decide; try (exfalso; lia)); rewrite ?app_nil_r; try done.

Lemma policy_entry_decodes ruids l p t p' :
  decodes ruids l p → policy_entry ruids p t = Ok p' → decodes ruids (l ++ [t]) p'.
Proof.
  intros []. unfold policy_entry.
  destruct (decide (Cmdu.kind t = 0x8A)) as [Hk|Hk]; [rewrite (bool_decide_eq_true_2 (_ = 0x8A)) by done|
    rewrite (bool_decide_eq_false_2 (_ = 0x8A)) by done; destruct (decide (Cmdu.kind t = 0x89)) as [Hs|Hs];
    [rewrite (bool_decide_eq_true_2 (_ = 0x89)) by done|
     rewrite (bool_decide_eq_false_2 (_ = 0x89)) by done; destruct (decide (Cmdu.kind t = 0xDB)) as [Hq|Hq];
     [rewrite (bool_decide_eq_true_2 (_ = 0xDB)) by done|rewrite (bool_decide_eq_false_2 (_ = 0xDB)) by done]]].
  - intros ([] & Hn%raise_if_Ok & Hr)%result_bind_Ok. apply result_bind_Ok in Hr as (m & Hm & <-%Ok_inj).
    apply bool_decide_eq_false, eq_None_not_Some in Hn. rewrite Hn in dp_metrics0. by_kind. rewrite fmap_app, dp_metrics0. simpl. by rewrite Hm.
  - intros ([] & Hn%raise_if_Ok & Hr)%result_bind_Ok. apply result_bind_Ok in Hr as (m & Hm & <-%Ok_inj).
    apply bool_decide_eq_false, eq_None_not_Some in Hn. rewrite Hn in dp_steering0. by_kind. rewrite fmap_app, dp_steering0. simpl. by rewrite Hm.
  - intros (q & Hp & <-%Ok_inj)%result_bind_Ok. by_kind. rewrite fmap_app, dp_qos0. simpl. by rewrite fmap_app, Hp.
  - intros <-%Ok_inj. by_kind. rewrite fmap_app, <- dp_companions0. done.
Qed.

Lemma decode_policy_decodes tlvs ruids p : decode_policy tlvs ruids = Ok p → decodes ruids tlvs p.
Proof.
  apply (fold_result_prefix (policy_entry ruids) (decodes ruids)); [by split|]. intros dn acc t acc'. apply policy_entry_decodes.
Qed.

Lemma decoded_metrics ruids tlvs p m : decodes ruids tlvs p → p_metrics p = Some m → metrics_wf ruids m.
Proof.
  intros [Hm _ _ _] Hp. rewrite Hp in Hm. simpl in Hm. destruct (of_kind 0x8A tlvs) as [|t [|]]; [done| |done].
  injection Hm as Hm. by eapply metric_policy_wf.
Qed.

(** ** One tick of the schedule *)

(** The periods that fell due so far: reported or missed. *)
Definition periods_total (v : PolicyRecord) : Z := periods_due_without_report v + default 0 (reports_transmitted v).

Section Schedule.
Context `{World} (binding : PeerBinding) (reporter : option Reporter).

Lemma rp_snapshot_run closed io a io' :
  rp_snapshot_of binding closed io = (Ok a, io') → closed = false ∧ world_source (asked io) = Some a.
Proof.
  unfold rp_snapshot_of, mbind, M_mbind, poll, poll_binding. destruct closed; [done|].
  destruct (world_source _) as [b|] eqn:Eb; [|done]. cbn beta iota. destruct (bool_decide _); [|done].
  intros [= -> _]. done.
Qed.

Lemma forward_rp_snapshot closed : forward (rp_snapshot_of binding closed).
Proof.
  apply forward_bind; [apply forward_poll|]. intros current. destruct closed; [apply forward_lift|].
  apply forward_bind; [apply forward_poll_binding|]. intros b. destruct current; [|apply forward_lift].
  destruct (bool_decide _); [apply forward_mret|apply forward_lift].
Qed.
Lemma silent_rp_snapshot closed : silent (rp_snapshot_of binding closed).
Proof.
  intros io. unfold rp_snapshot_of, mbind, M_mbind, poll, poll_binding. destruct closed; [done|].
  destruct (world_source _); [|done]. cbn beta iota. by destruct (bool_decide _).
Qed.

(** The last period due at [now] is the last multiple of the interval reached. *)
Lemma periods_reached due now I :
  0 < I → due ≤ now → let k := (now - due) / I + 1 in 0 < k ∧ due + (k - 1) * I ≤ now < due + k * I.
Proof.
  intros HI Hd. cbv zeta. pose proof (Z.div_pos (now - due) I ltac:(lia) HI).
  pose proof (Z.mul_div_le (now - due) I HI). pose proof (Z.mul_succ_div_gt (now - due) I HI). nia.
Qed.

(** What accounting the periods up to [now] does to the record and to the calls of the reporter. *)
Lemma rp_account_run now v due s :
  next_due v = Some due → 0 < interval_of (pr_policy v) → rp_value s = Some v →
  let I := seconds (interval_of (pr_policy v)) in
  let s' := (rp_account reporter now v s).2 in
  ∃ v' k, rp_value s' = Some v' ∧ pr_policy v' = pr_policy v ∧ pr_identity v' = pr_identity v ∧
    next_due v' = Some (due + k * I) ∧ 0 ≤ k ∧
    periods_total v' = periods_total v + k ∧ periods_due_without_report v ≤ periods_due_without_report v' ∧
    later (rp_io s) (rp_io s') ∧ rp_recent s' = rp_recent s ∧
    (k = 0 → now < due ∧ s' = s) ∧
    (0 < k → due + (k - 1) * I ≤ now < due + k * I ∧
       rp_periodic s' = rp_periodic s ++
         match reporter with Some _ => [(asked (rp_io s), due + (k - 1) * I)] | None => [] end).
Proof.
  intros Hn Hi Hv I s'. unfold s', rp_account. rewrite Hn. destruct (decide (due ≤ now)) as [Hd|Hd];
    [rewrite (bool_decide_eq_true_2 (due ≤ now)) by done|rewrite (bool_decide_eq_false_2 (due ≤ now)) by done]; cbn [negb].
  2:{ exists v, 0. rewrite Z.mul_0_l, !Z.add_0_r. do 9 (split; [done|]). split; [intros _|lia]. split; [lia|done]. }
  rewrite (bool_decide_eq_false_2 (interval_of (pr_policy v) = 0)) by lia.
  destruct (periods_reached due now I) as (Hk & Hr); [unfold I, seconds; lia|done|].
  fold I. set (k := (now - due) / I + 1) in *. clearbody k. exists (match reporter with
    | None => accounted None v due k
    | Some r => match (@periodic r (pr_policy v) (due + (k - 1) * I) (rp_io s)).1 with
                | Ok _ => fulfilled reporter v due k | Raise e => unfulfilled reporter v due k e end
    end), k.
  unfold rp_report, rp_record, mbind, M_mbind, lift, raise_if, modify, try_else, on_io, mret, M_mret. cbn -[Z.add Z.mul Z.sub].
  destruct reporter as [r|]; cbn -[Z.add Z.mul Z.sub].
  all: unfold periods_total; cbn -[Z.add Z.mul Z.sub]; fold I.
  - pose proof (@periodic_forward r (pr_policy v) (due + (k - 1) * I) (rp_io s)) as Hf.
    destruct (@periodic r _ _ (rp_io s)) as [[u|e] io]; cbn -[Z.add Z.mul Z.sub];
      (do 9 (split; [done || lia|])); (split; [intros; exfalso; lia|done]).
  - rewrite app_nil_r. do 9 (split; [done || lia|]). split; [intros; exfalso; lia|done].
Qed.

(** The record and the calls of the reporter are untouched. *)
Definition undisturbed (s s' : PolicyState) : Prop :=
  rp_value s' = rp_value s ∧ rp_periodic s' = rp_periodic s ∧ rp_stored s' = rp_stored s.

(** A tick leaves the record as it is, or accounts it while the source shows its identity. *)
Lemma rp_schedule_run now s :
  undisturbed s (rp_schedule binding reporter now s).2 ∨
  ∃ v s1 a n, rp_value s = Some v ∧ undisturbed s s1 ∧ (asked (rp_io s) ≤ asked (rp_io s1))%nat ∧
    world_source n = Some a ∧ rp_identity binding a = Ok (pr_identity v) ∧
    rp_schedule binding reporter now s = rp_account reporter now v s1.
Proof.
  unfold rp_schedule, mbind at 1 3, M_mbind at 1 3, get. cbn iota beta.
  destruct (rp_value s) as [v|] eqn:Ev; [|by left]. destruct (rp_closed s) eqn:Ec; [by left|].
  unfold try_else, rp_snapshot, mbind, M_mbind, get, on_io, lift.
  pose proof (forward_rp_snapshot (rp_closed s) (io_of s)) as [Hl _].
  destruct (rp_snapshot_of binding (rp_closed s) (io_of s)) as [[a|e] io] eqn:Es; [|by left].
  apply rp_snapshot_run in Es as [_ Ha]. destruct (rp_identity binding a) as [i|e] eqn:Ei; [|by left].
  case_bool_decide as Hi; cbn [negb]; [|by left]. subst i.
  right. exists v, (with_io io s), a, (asked (io_of s)). done.
Qed.

Lemma rp_tick_run s :
  let now := world_clock (asked (rp_io s)) in
  let s' := (rp_tick binding reporter s).2 in
  undisturbed s s' ∨
  ∃ v s1 a n, rp_value s = Some v ∧ undisturbed s s1 ∧ (asked (rp_io s) < asked (rp_io s1))%nat ∧
    world_source n = Some a ∧ rp_identity binding a = Ok (pr_identity v) ∧
    rp_tick binding reporter s = rp_account reporter now v s1.
Proof.
  intros now s'. set (s0 := s <| rp_io := rp_io s <| asked := S (asked (rp_io s)) |> |>
                              <| rp_recent := filter (λ kv, now < kv.2.2) (rp_recent s) |>).
  assert (E : rp_tick binding reporter s = rp_schedule binding reporter now s0) by reflexivity.
  unfold s'. rewrite E. destruct (rp_schedule_run now s0) as [Hu|(v & s1 & a & n & Hv & Hu & Hl & Ha & Hi & Hr)].
  - by left.
  - right. exists v, s1, a, n. done.
Qed.
End Schedule.

(** ** Every run *)

Section Run.
Context `{World} (binding : PeerBinding) (boot : string) (encoded_length : PolicyRecord → Z) (disk : nat → bool)
  (digest : list Tlv → string) (reporter : option Reporter).

(** The clock does not go back between two things asked. *)
Hypothesis clock_monotone : ∀ n m, (n ≤ m)%nat → world_clock n ≤ world_clock m.

(** The schedule of a record starts after every period already reported. *)
Definition schedule_ok (calls : list (nat * Z)) (v : PolicyRecord) : Prop :=
  0 ≤ interval_of (pr_policy v) ∧
  ∀ due, next_due v = Some due → 0 < interval_of (pr_policy v) ∧ Forall (λ c, c.2 < due) calls.

Record policy_ok (bound : nat) (s : PolicyState) : Prop := {
  po_calls : Forall (λ c, (c.1 ≤ asked (rp_io s))%nat ∧ c.2 ≤ world_clock c.1) (rp_periodic s);
  po_sorted : StronglySorted Z.lt (rp_periodic s).*2;
  po_value : ∀ v, rp_value s = Some v → schedule_ok (rp_periodic s) v;
  po_recent : (size (rp_recent s) ≤ bound)%nat
}.

Lemma policy_ok_stable n : stable (policy_ok n).
Proof.
  intros s i [] [Hl _]. split; simpl; auto. eapply Forall_impl; [exact po_calls0|]. simpl in *. intros c [? ?]. split; [lia|done].
Qed.

Lemma sorted_snoc (l : list Z) x : StronglySorted Z.lt l → Forall (λ y, y < x) l → StronglySorted Z.lt (l ++ [x]).
Proof.
  induction 1 as [|y l Hs IH Hy]; intros Hx; simpl; [repeat constructor|]. apply Forall_cons in Hx as [? ?].
  constructor; [by apply IH|]. apply Forall_app. split; [done|]. by repeat constructor.
Qed.

Lemma rp_account_ok bound now v s :
  rp_value s = Some v → (∃ t, now = world_clock t ∧ (t ≤ asked (rp_io s))%nat) → policy_ok bound s →
  policy_ok bound (rp_account reporter now v s).2.
Proof.
  intros Hv (t & Hnow & Ht) Hs. destruct (next_due v) as [due|] eqn:Hd; [|unfold rp_account; by rewrite Hd].
  pose proof (po_value bound s Hs v Hv) as [_ Hdue]. destruct (Hdue due Hd) as [Hi Hc].
  destruct (rp_account_run reporter now v due s Hd Hi Hv) as (v' & k & Hv' & Hp & _ & Hn & Hk & _ & _ & [Hl _] & Hr & H0 & H1).
  destruct (decide (k = 0)) as [->|]; [destruct (H0 eq_refl) as [_ ->]; done|].
  destruct (H1 ltac:(lia)) as [Hreach Hper]. destruct Hs. set (I := seconds (interval_of (pr_policy v))) in *.
  assert (HI : 0 < I) by (unfold I, seconds; lia).
  assert (Hprev : Forall (λ c, c.2 < due + (k - 1) * I) (rp_periodic s)).
  { eapply Forall_impl; [exact Hc|]. simpl. intros c ?. nia. }
  split.
  - rewrite Hper. apply Forall_app. split.
    + eapply Forall_impl; [exact po_calls0|]. intros c [? ?]. split; [lia|done].
    + destruct reporter; [|constructor]. constructor; [|constructor]. simpl. split; [done|].
      etrans; [apply Hreach|]. rewrite Hnow. by apply clock_monotone.
  - rewrite Hper, fmap_app. destruct reporter; [|by rewrite app_nil_r]. apply sorted_snoc; [done|].
    by apply Forall_fmap.
  - intros w Hw. rewrite Hv' in Hw. injection Hw as <-. split; [rewrite Hp; lia|]. rewrite Hn, Hp. intros d [= <-].
    split; [done|]. rewrite Hper. apply Forall_app. split; [eapply Forall_impl; [exact Hprev|]; simpl; intros; nia|].
    destruct reporter; [|constructor]. constructor; [simpl; nia|constructor].
  - by rewrite Hr.
Qed.

(** Reading the clock: the answer is of a thing asked before. *)
Lemma clock_read (J : PolicyState → Prop) :
  stable J → hoare J (on_io clock) (λ now s, J s ∧ ∃ t, now = world_clock t ∧ (t ≤ asked (rp_io s))%nat) (λ _, J).
Proof.
  intros HJ s Hs. unfold on_io, clock. simpl. split; [apply (HJ s); [done|]; split; simpl; [lia|done]|].
  exists (asked (rp_io s)). split; [done|]. simpl. lia.
Qed.

Lemma rp_schedule_ok bound now :
  hoare (λ s, policy_ok bound s ∧ ∃ t, now = world_clock t ∧ (t ≤ asked (rp_io s))%nat) (rp_schedule binding reporter now)
    (λ _, policy_ok bound) (λ _, policy_ok bound).
Proof.
  unfold rp_schedule. apply hoare_get_bind. intros s0 [Hs (t & Hnow & Ht)].
  destruct (rp_value s0) as [v|] eqn:Hv; [|apply hoare_ret; by intros s ->].
  destruct (rp_closed s0); [apply hoare_ret; by intros s ->|].
  set (J := λ s, policy_ok bound s ∧ (t ≤ asked (rp_io s))%nat ∧ rp_value s = Some v).
  assert (HJ : stable J).
  { intros s i (? & ? & ?) Hl. split; [by apply policy_ok_stable|]. destruct Hl. simpl in *. split; [lia|done]. }
  assert (Hw : ∀ s, J s → policy_ok bound s) by (by intros s []).
  eapply hoare_try with (R := λ _, J) (F := λ _, J).
  - apply hoare_pre with (P := J); [|by intros s ->]. apply keeps_get. intros s. apply keeps_on; [done|apply forward_rp_snapshot].
  - intros a. apply hoare_bind with (R := λ _, J); [apply hoare_lift; auto|]. intros identity.
    destruct (negb _); [by apply hoare_ret|]. intros s (Hok & Hl & Hval).
    pose proof (rp_account_ok bound now v s Hval ltac:(eauto) Hok) as Hr. by destruct (rp_account _ _ _ s) as [[] ?].
  - intros e. by apply hoare_ret.
Qed.

Lemma rp_tick_ok bound : keeps (policy_ok bound) (rp_tick binding reporter).
Proof.
  unfold rp_tick. eapply hoare_bind; [apply clock_read, policy_ok_stable|]. intros now.
  set (P := λ s, policy_ok bound s ∧ ∃ t, now = world_clock t ∧ (t ≤ asked (rp_io s))%nat).
  apply hoare_bind with (R := λ _, P); [|intros _; apply rp_schedule_ok].
  apply hoare_modify. intros s [[] ?]. split; [|done]. split; simpl; auto.
  etrans; [apply map_subseteq_size, map_filter_subseteq|done].
Qed.

Lemma keeps_rp_snapshot J : stable J → keeps J (rp_snapshot binding).
Proof. intros HJ. apply keeps_get. intros s. apply keeps_on; [done|apply forward_rp_snapshot]. Qed.
Lemma keeps_rp_record bound key : keeps (policy_ok bound) (rp_record key).
Proof. apply keeps_bind; [|intros; apply keeps_mret]. apply keeps_modify. intros s []. by split. Qed.

Lemma interval_merge old update :
  0 ≤ interval_of old → 0 ≤ interval_of update → 0 ≤ interval_of (merge_policy old update).
Proof. unfold interval_of, merge_policy. simpl. by destruct (p_metrics update), (p_metrics old). Qed.

Lemma rp_base_ok bound a :
  hoare (policy_ok bound) (rp_base binding boot a) (λ v s, policy_ok bound s ∧ schedule_ok (rp_periodic s) v) (λ _, policy_ok bound).
Proof.
  unfold rp_base. apply hoare_get_bind. intros s0 Hs.
  apply hoare_bind with (R := λ _ s, s = s0); [apply hoare_lift; [done|by intros ? s _ ->]|]. intros identity.
  assert (Hf : ∀ calls, schedule_ok calls (fresh_record boot identity)) by (intros calls; split; [done|by intros due]).
  destruct (rp_value s0) as [v|] eqn:Hv; [|apply hoare_ret; by intros s ->].
  case_bool_decide; [apply hoare_ret; intros s ->; split; [done|by apply (po_value bound)]|].
  apply hoare_bind with (R := λ _, policy_ok bound); [|intros _; by apply hoare_ret].
  eapply hoare_pre; [apply keeps_rp_record|by intros s ->].
Qed.

Lemma due_after_Some now interval due : due_after now interval = Some due → interval ≠ 0 ∧ due = now + seconds interval.
Proof. unfold due_after. case_bool_decide; [done|]. by intros [= <-]. Qed.

Lemma rp_due_ok bound v policy :
  0 ≤ interval_of policy →
  hoare (λ s, policy_ok bound s ∧ schedule_ok (rp_periodic s) v) (rp_due v policy)
    (λ due s, policy_ok bound s ∧ ∀ d, due = Some d → 0 < interval_of policy ∧ Forall (λ c, c.2 < d) (rp_periodic s))
    (λ _, policy_ok bound).
Proof.
  intros Hp. unfold rp_due. case_bool_decide as He.
  - apply hoare_ret. intros s [Hs [_ Hd]]. split; [done|]. unfold interval_of. rewrite He. intros d E.
    by destruct (Hd d E).
  - unfold interval_of in *. destruct (p_metrics policy) as [m|]; [|by apply hoare_lift; [|intros ? s _ []]].
    simpl in *. case_bool_decide; [apply hoare_ret; intros s [? _]; split; [done|by intros d]|].
    intros s [Hs _]. unfold mbind, M_mbind, on_io, clock. cbn iota beta. unfold mret, M_mret.
    split; [apply (policy_ok_stable bound s); [done|]; split; simpl; [lia|done]|]. intros d [_ ->]%due_after_Some.
    split; [lia|]. destruct Hs. eapply Forall_impl; [exact po_calls0|]. intros [n c] [Hn Hc]. simpl in *.
    pose proof (clock_monotone _ _ Hn). unfold seconds. lia.
Qed.

Lemma rp_persist_ok bound value :
  hoare (λ s, policy_ok bound s ∧ schedule_ok (rp_periodic s) value) (rp_persist encoded_length disk value)
    (λ _, policy_ok bound) (λ _, policy_ok bound).
Proof.
  unfold rp_persist. set (J := λ s, policy_ok bound s ∧ schedule_ok (rp_periodic s) value).
  apply hoare_bind with (R := λ _, J); [apply hoare_lift; [done|by intros ? s _ []]|]. intros _.
  apply hoare_get_bind. intros s0 [Hs Hv]. assert (Hl : later (rp_io s0) (rp_io s0 <| asked := S (asked (rp_io s0)) |>))
    by (split; simpl; [lia|done]). pose proof (policy_ok_stable bound s0 _ Hs Hl) as Hs1.
  destruct (disk _).
  - apply hoare_put. intros s ->. destruct Hs1. split; simpl; auto. by intros v [= <-].
  - apply hoare_bind with (R := λ _, policy_ok bound); [by apply hoare_put|]. intros _. by apply hoare_raise.
Qed.

Lemma policy_ok_mono n m s : (n ≤ m)%nat → policy_ok n s → policy_ok m s.
Proof. intros Hn []. split; auto. lia. Qed.

Lemma rp_merge_ok message update a v :
  0 ≤ interval_of update →
  hoare (λ s, policy_ok 63 s ∧ schedule_ok (rp_periodic s) v)
    (rp_merge binding encoded_length disk digest message update a v) (λ _, policy_ok 64) (λ _, policy_ok 63).
Proof.
  intros Hu s0 [Hs0 Hv0].
  assert (Hp : 0 ≤ interval_of (merge_policy (pr_policy v) update)) by (apply interval_merge; [apply Hv0|done]).
  revert s0 Hs0 Hv0. cut (hoare (λ s, policy_ok 63 s ∧ schedule_ok (rp_periodic s) v)
    (rp_merge binding encoded_length disk digest message update a v) (λ _, policy_ok 64) (λ _, policy_ok 63));
    [by intros Hc s Hs Hv; apply Hc|].
  unfold rp_merge. cbv zeta. eapply hoare_bind; [by apply (rp_due_ok 63)|]. intros due.
  set (J := λ s, policy_ok 63 s ∧ ∀ d, due = Some d → 0 < interval_of (merge_policy (pr_policy v) update) ∧
    Forall (λ c, c.2 < d) (rp_periodic s)).
  assert (HJ : stable J) by (intros s i [? ?] Hl; split; [by apply policy_ok_stable|done]).
  assert (HE : ∀ A (m : M PolicyState A), keeps J m → hoare J m (λ _, J) (λ _, policy_ok 63)).
  { intros A m Hm. eapply hoare_weaken; [exact Hm|done|done|by intros e s []]. }
  eapply hoare_bind; [by apply HE, keeps_rp_snapshot|]. intros current.
  eapply hoare_bind; [by apply HE, keeps_clock|]. intros now. eapply hoare_bind; [apply HE, keeps_lift|]. intros u.
  apply hoare_bind with (R := λ _, policy_ok 63).
  { eapply hoare_pre; [apply (rp_persist_ok 63)|]. intros s [Hs Hd]. split; [done|]. by split. }
  intros u2. eapply hoare_bind; [apply (keeps_clock (policy_ok 63)), policy_ok_stable|].
  intros now2. apply hoare_modify. intros s []. split; simpl; auto.
  destruct (rp_recent s !! m_mid message) eqn:El; [rewrite map_size_insert_Some by eauto|rewrite map_size_insert_None by done]; lia.
Qed.

Lemma rp_receive_ok message update a :
  0 ≤ interval_of update →
  keeps (policy_ok 64) (rp_receive binding boot encoded_length disk digest message update a).
Proof.
  intros Hu. unfold rp_receive. apply hoare_get_bind. intros s0 Hs0.
  apply hoare_bind with (R := λ _, policy_ok 63).
  { apply hoare_lift; [|by intros ? s _ ->]. intros _ s Hb%raise_if_Ok ->. bools. destruct Hs0. split; auto. lia. }
  assert (HE : ∀ (e : EmosaError) s, policy_ok 63 s → policy_ok 64 s) by (intros e s; apply policy_ok_mono; lia).
  intros _. eapply hoare_weaken with (E := λ _, policy_ok 63); [|done|intros u s Hs; exact Hs|exact HE].
  eapply hoare_bind; [apply (rp_base_ok 63)|]. intros v. by apply rp_merge_ok.
Qed.

Lemma decoded_interval tlvs ruids p : decode_policy tlvs ruids = Ok p → 0 ≤ interval_of p.
Proof.
  intros Hd%decode_policy_decodes. unfold interval_of. destruct (p_metrics p) as [m|] eqn:Hm; [|done]. simpl.
  destruct (decoded_metrics _ _ _ _ Hd Hm) as [? _]. lia.
Qed.

Lemma keeps_rp_admit J message at_ : stable J → keeps J (rp_admit binding message at_).
Proof.
  intros HJ. unfold rp_admit. apply keeps_bind; [apply keeps_lift|]. intros _. apply keeps_bind; [by apply keeps_clock|].
  intros now. apply keeps_bind; [apply keeps_lift|]. intros _. apply keeps_lift.
Qed.

Lemma rp_answer_ok message at_ :
  keeps (policy_ok 64) (rp_answer binding boot encoded_length disk digest message at_).
Proof.
  unfold rp_answer. assert (HJ := policy_ok_stable 64).
  apply keeps_bind; [by apply keeps_rp_snapshot|]. intros a. apply keeps_bind; [by apply keeps_rp_admit|]. intros _.
  apply hoare_bind with (R := λ u s, policy_ok 64 s ∧ 0 ≤ interval_of u).
  { apply hoare_lift; [|done]. intros u s Hu Hs. split; [done|]. by eapply decoded_interval. }
  intros update s [Hs Hu]. revert s Hs. apply keeps_get. intros s0. apply keeps_bind.
  { destruct (rp_recent s0 !! m_mid message) as [[d x]|]; [apply keeps_lift|by apply rp_receive_ok]. }
  intros _. apply keeps_get. intros s1. apply keeps_bind; [|intros _; apply keeps_rp_record].
  apply keeps_on; [done|apply forward_deliver, forward_rp_snapshot].
Qed.

Lemma rp_handle_ok message at_ :
  keeps (policy_ok 64) (rp_handle binding boot encoded_length disk digest reporter message at_).
Proof.
  unfold rp_handle. destruct (negb _); [apply keeps_mret|]. apply keeps_bind; [apply rp_tick_ok|]. intros _.
  apply keeps_fmap, rp_answer_ok.
Qed.

Inductive policy_input := PHandle (message : Message) (received_at : Z) | PTick | PClose.

Definition rp_serve (s : PolicyState) (i : policy_input) : PolicyState :=
  match i with
  | PHandle message at_ => (rp_handle binding boot encoded_length disk digest reporter message at_ s).2
  | PTick => (rp_tick binding reporter s).2
  | PClose => rp_close s
  end.

Lemma rp_serve_ok s i : policy_ok 64 s → policy_ok 64 (rp_serve s i).
Proof.
  intros Hs. destruct i; simpl.
  - apply keeps_snd, Hs; apply rp_handle_ok.
  - apply keeps_snd, Hs; apply rp_tick_ok.
  - destruct Hs. split; simpl; auto. rewrite map_size_empty. lia.
Qed.
Lemma rp_serve_all_ok s l : policy_ok 64 s → policy_ok 64 (foldl rp_serve s l).
Proof. revert s. induction l as [|i l IH]; intros s Hs; [done|]. apply IH. by apply rp_serve_ok. Qed.

Lemma rp_init_ok io held :
  (∀ v, held = Some v → 0 ≤ interval_of (pr_policy v)) → policy_ok 64 (rp_init boot io held).
Proof.
  intros Hh. unfold rp_init, rp_started. destruct held as [v|]; [|split; simpl; try constructor; try done; rewrite map_size_empty; lia].
  specialize (Hh v eq_refl). unfold mbind, M_mbind, mret, M_mret, clock. case_bool_decide as Hi.
  - split; simpl; [constructor|constructor| |rewrite map_size_empty; lia]. intros w [= <-]. split; [done|]. by intros due.
  - split; simpl; [constructor|constructor| |rewrite map_size_empty; lia]. intros w [= <-]. split; [done|]. simpl.
    intros due [Hne _]%due_after_Some. split; [lia|constructor].
Qed.
End Run.

(** ** What is stored before the acknowledgment leaves *)

Section Stored.
Context `{World} (binding : PeerBinding) (boot : string) (encoded_length : PolicyRecord → Z) (disk : nat → bool)
  (digest : list Tlv → string).

(** The receipt of the request is in the store, with its policies merged into a policy. *)
Definition receipt_stored (message : Message) (update : ReceivedPolicy) (s : PolicyState) : Prop :=
  ∃ v old, rp_stored s = Some v ∧ rp_value s = Some v ∧ latest_mid v = Some (m_mid message) ∧
    latest_request v = Some (m_tlvs message) ∧ pr_policy v = merge_policy old update.

Definition nothing_sent (sigma : list (nat * bytes)) (s : PolicyState) : Prop := sent (rp_io s) = sigma.

Lemma nothing_sent_io {A} sigma (m : M Io A) : silent m → keeps (nothing_sent sigma) (on_io m).
Proof.
  intros Hm s Hs. specialize (Hm (rp_io s)). unfold on_io. unfold nothing_sent in *. simpl.
  destruct (m (rp_io s)) as [[a|e] i]; simpl in *; congruence.
Qed.
Lemma nothing_sent_record sigma key : keeps (nothing_sent sigma) (rp_record key).
Proof. apply keeps_bind; [by apply keeps_modify|intros; apply keeps_mret]. Qed.
Lemma silent_now : silent clock.
Proof. by intros io. Qed.

Lemma rp_merge_stores sigma message update a v :
  hoare (nothing_sent sigma) (rp_merge binding encoded_length disk digest message update a v)
    (λ _ s, nothing_sent sigma s ∧ receipt_stored message update s) (λ _, nothing_sent sigma).
Proof.
  unfold rp_merge. cbv zeta. apply hoare_bind with (R := λ _, nothing_sent sigma).
  { unfold rp_due. destruct (bool_decide _); [apply keeps_mret|]. destruct (p_metrics _); [|apply keeps_lift].
    destruct (bool_decide _); [apply keeps_mret|]. apply keeps_bind; [apply nothing_sent_io, silent_now|intros; apply keeps_mret]. }
  intros due. apply hoare_bind with (R := λ _, nothing_sent sigma).
  { apply keeps_get. intros s. apply nothing_sent_io, silent_rp_snapshot. }
  intros current. apply hoare_bind with (R := λ _, nothing_sent sigma); [apply nothing_sent_io, silent_now|]. intros now.
  apply hoare_bind with (R := λ _, nothing_sent sigma); [apply keeps_lift|]. intros _.
  set (w := v <| pr_policy := _ |> <| latest_mid := _ |> <| latest_request := _ |> <| receipt_count := _ |> <| next_due := _ |>).
  set (J := λ s, nothing_sent sigma s ∧ rp_stored s = Some w ∧ rp_value s = Some w).
  apply hoare_bind with (R := λ _, J).
  { unfold rp_persist. apply hoare_bind with (R := λ _, nothing_sent sigma); [apply keeps_lift|]. intros _.
    apply hoare_get_bind. intros s1 Hs1 s ->. by destruct (disk _). }
  intros _. apply hoare_bind with (R := λ _, J); [by intros s (Hs & ? & ?)|].
  intros t. apply hoare_modify. intros s (Hs & Hst & Hv). split; [done|]. by exists w, (pr_policy v).
Qed.

Lemma rp_receive_stores sigma message update a :
  hoare (nothing_sent sigma) (rp_receive binding boot encoded_length disk digest message update a)
    (λ _ s, nothing_sent sigma s ∧ receipt_stored message update s) (λ _, nothing_sent sigma).
Proof.
  unfold rp_receive. apply hoare_bind with (R := λ _, nothing_sent sigma); [by intros s|]. intros s0.
  apply hoare_bind with (R := λ _, nothing_sent sigma); [apply keeps_lift|]. intros _.
  apply hoare_bind with (R := λ _, nothing_sent sigma); [|intros v; apply rp_merge_stores].
  unfold rp_base. apply keeps_get. intros s. apply keeps_bind; [apply keeps_lift|]. intros i.
  destruct (rp_value s); [|apply keeps_mret]. destruct (bool_decide _); [apply keeps_mret|].
  apply keeps_bind; [apply nothing_sent_record|intros; apply keeps_mret].
Qed.

(** The request is recorded, now or under its identifier in the last five seconds. *)
Definition receipt_known (message : Message) (update : ReceivedPolicy) (s : PolicyState) : Prop :=
  receipt_stored message update s ∨ ∃ t, rp_recent s !! m_mid message = Some (digest (m_tlvs message), t).

Lemma rp_acknowledge_stores sigma message at_ update a :
  hoare (nothing_sent sigma) (rp_acknowledge binding boot encoded_length disk digest message at_ update a)
    (λ _, receipt_known message update) (λ _ s, nothing_sent sigma s ∨ receipt_known message update s).
Proof.
  unfold rp_acknowledge. set (J := receipt_known message update).
  apply hoare_get_bind. intros s3 Hs3. apply hoare_bind with (R := λ _, J).
  { destruct (rp_recent s3 !! m_mid message) as [[d t]|] eqn:Er.
    - apply hoare_lift; [|intros e s _ ->; by left]. intros [] s Hb%raise_if_Ok ->. bools. right. exists t. congruence.
    - eapply hoare_pre; [|intros s ->; exact Hs3].
      eapply hoare_weaken; [apply rp_receive_stores|done|by intros u s [_ ?]; left|by left]. }
  intros u4. eapply hoare_weaken with (E := λ _, J); [|done|intros u s Hs; exact Hs|by right].
  apply keeps_get. intros s4. apply keeps_bind; [|intros _; apply keeps_bind; [by apply keeps_modify|intros; apply keeps_mret]].
  intros s Hs. unfold on_io. simpl. by destruct (deliver _ _ _ _ _ _ _ _) as [[] ?].
Qed.

Definition answered_known (message : Message) (s : PolicyState) : Prop :=
  ∃ a update, (∃ n, world_source n = Some a) ∧
    decode_policy (m_tlvs message) ((λ r, basic_ruid (basic r)) <$> cap_radios (capabilities a)) = Ok update ∧
    receipt_known message update s.

Lemma rp_answer_stores sigma message at_ :
  hoare (nothing_sent sigma) (rp_answer binding boot encoded_length disk digest message at_)
    (λ _, answered_known message) (λ _ s, nothing_sent sigma s ∨ answered_known message s).
Proof.
  unfold rp_answer. apply hoare_bind with (R := λ a s, nothing_sent sigma s ∧ ∃ n, world_source n = Some a).
  { apply hoare_get_bind. intros s0 Hs0 s ->. pose proof (silent_rp_snapshot binding (rp_closed s0) (rp_io s0)) as Hsil.
    unfold on_io. simpl. destruct (rp_snapshot_of _ _ _) as [[a|e] i] eqn:E; simpl in Hsil.
    - apply rp_snapshot_run in E as [_ Ha]. split; [|eauto]. unfold nothing_sent in *. simpl. congruence.
    - left. unfold nothing_sent in *. simpl. congruence. }
  intros a. apply hoare_bind with (R := λ _ s, nothing_sent sigma s ∧ ∃ n, world_source n = Some a).
  { intros s [Hs Ha]. assert (Hk : keeps (nothing_sent sigma) (rp_admit binding message at_)).
    { unfold rp_admit. apply keeps_bind; [apply keeps_lift|]. intros _. apply keeps_bind; [apply nothing_sent_io, silent_now|].
      intros now. apply keeps_bind; [apply keeps_lift|]. intros _. apply keeps_lift. }
    specialize (Hk s Hs). destruct (rp_admit _ _ _ s) as [[] ?]; [done|by left]. }
  intros u s [Hs Ha]. unfold mbind at 1, M_mbind at 1, lift.
  destruct (decode_policy _ _) as [update|e] eqn:Ed; [|by left].
  pose proof (rp_acknowledge_stores sigma message at_ update a s Hs) as Hr.
  destruct (rp_acknowledge _ _ _ _ _ _ _ _ _ s) as [[] ?]; [by exists a, update|].
  destruct Hr as [?|?]; [by left|right; by exists a, update].
Qed.
End Stored.

(** ** A session that receives a policy of five seconds and reports twice *)

Definition pex_snapshot : ReportSnapshot :=
  mkReportSnapshot (mkReportStamp "i/0/1/1" 0 2000) example_caps example_facts "i/0/1" [] None None (Some 1) [].
Definition pex_world : World :=
  {| world_clock := λ n, if bool_decide (n < 30)%nat then 10 * Z.of_nat n else 300 + 1000 * Z.of_nat (n - 30);
     world_binding := λ _, example_binding; world_source := λ _, Some pex_snapshot; world_link := λ _, true |}.
Definition pex_tlv : Tlv := mkTlv 0x8A (octets [5; 1; 2; 0; 0; 0; 0; 1; 100; 4; 80; 0x80]).
Definition pex_request : Message :=
  mkMessage (octets [2; 0; 0; 0; 0; 9]) (octets [2; 0; 0; 0; 0; 8]) 0x8003 33 false [pex_tlv; mkTlv 0xB5 []] 1.
Definition pex_reporter : Reporter := {| periodic := λ _ _, mret tt; periodic_forward := λ _ _, forward_mret tt |}.
Definition pex_digest (tlvs : list Tlv) : string := pretty (Z.to_N (raw_length tlvs)).
Definition pex_inputs : list policy_input := PHandle pex_request 0 :: replicate 10 PTick.

(** A policy is stored before its receipt is acknowledged. When answering a request has put any
    frame on the link, whether the handler then returned or failed, or has returned at all, the
    request was decoded whole against the radios of a snapshot the source showed, and it is recorded:
    the store and the session hold a record with its identifier, its TLVs and its policies merged into
    the earlier ones, or the same request under the same identifier was recorded within the last five
    seconds. *)
Theorem policy_stored_first `{World} binding boot encoded_length disk digest message at_ s r s' :
  rp_answer binding boot encoded_length disk digest message at_ s = (r, s') →
  sent (rp_io s') ≠ sent (rp_io s) ∨ is_ok r = true →
  answered_known digest message s'.
Proof.
  intros Hr Hs. pose proof (rp_answer_stores binding boot encoded_length disk digest (sent (rp_io s)) message at_ s eq_refl) as Hp.
  rewrite Hr in Hp. destruct r as [x|e]; [done|]. destruct Hp as [Hn|Hk]; [|done]. destruct Hs; [by destruct Hn|done].
Qed.

Lemma policy_stored_first_witness :
  let run := @rp_answer pex_world example_binding "boot" (λ _, 100) (λ _, true) pex_digest pex_request 0
    (@rp_init pex_world "boot" (mkIo 0 []) None) in
  run.1 = Ok "policy_receipt_ack_sent" ∧ length (sent (rp_io run.2)) = 1%nat ∧
  @answered_known pex_world pex_digest pex_request run.2.
Proof.
  intros run. assert (E : run.1 = Ok "policy_receipt_ack_sent") by (vm_compute; reflexivity).
  split; [exact E|]. split; [vm_compute; reflexivity|].
  apply (@policy_stored_first pex_world example_binding "boot" (λ _, 100) (λ _, true) pex_digest pex_request 0
    (@rp_init pex_world "boot" (mkIo 0 []) None) run.1 run.2); [exact (surjective_pairing run)|].
  right. rewrite E. reflexivity.
Defined.

(** C18: periods are conserved. A tick of a scheduled record advances the due time by a whole number
    of intervals, and exactly that many periods are added to those missed and those transmitted: none
    is lost, none counted twice. When it advances, the new due time is the first one after now, the
    source has shown the very controller, agent and radio the record is for, and a reporter is asked
    for one report, of the last period due, however many fell due; otherwise nothing is asked. The
    policy is never changed. *)
Theorem schedule_conserved `{World} binding reporter s v due :
  rp_value s = Some v → next_due v = Some due → 0 < interval_of (pr_policy v) →
  let I := seconds (interval_of (pr_policy v)) in
  let now := world_clock (asked (rp_io s)) in
  let s' := (rp_tick binding reporter s).2 in
  ∃ v' k, rp_value s' = Some v' ∧ pr_policy v' = pr_policy v ∧ next_due v' = Some (due + k * I) ∧ 0 ≤ k ∧
    periods_total v' = periods_total v + k ∧ periods_due_without_report v ≤ periods_due_without_report v' ∧
    (k = 0 → rp_periodic s' = rp_periodic s) ∧
    (0 < k → due + (k - 1) * I ≤ now < due + k * I ∧
       (rp_periodic s').*2 = (rp_periodic s).*2 ++ (match reporter with Some _ => [due + (k - 1) * I] | None => [] end) ∧
       ∃ n a, world_source n = Some a ∧ rp_identity binding a = Ok (pr_identity v)).
Proof.
  intros Hv Hd Hi I now s'. destruct (rp_tick_run binding reporter s) as [(Ev & Ep & _)|(w & s1 & a & n & Hw & (Ev & Ep & _) & _ & Ha & Hid & Hr)].
  - exists v, 0. fold s' in Ev, Ep. rewrite Ev, Z.mul_0_l, !Z.add_0_r. do 6 (split; [done|]). split; [done|]. intros; lia.
  - rewrite Hv in Hw. injection Hw as <-. rewrite Hv in Ev.
    destruct (rp_account_run reporter now v due s1 Hd Hi Ev)
      as (v' & k & Hv' & Hp & _ & Hn & Hk & Ht & Hm & _ & _ & H0 & H1).
    assert (Es : s' = (rp_account reporter now v s1).2) by (unfold s'; by rewrite Hr).
    rewrite <- Es in *. exists v', k. do 6 (split; [done|]). split.
    + intros Hz. destruct (H0 Hz) as [_ ->]. exact Ep.
    + intros Hp0. destruct (H1 Hp0) as [Hb Hc]. split; [done|]. split; [|eauto].
      rewrite Hc, fmap_app, Ep. by destruct reporter.
Qed.

(** The kept record of a policy with reports every five seconds. *)
Definition pex_held : PolicyRecord :=
  mkPolicyRecord (mkPolicyIdentity (octets [2; 0; 0; 0; 0; 8]) (octets [2; 0; 0; 0; 0; 9]) (octets [2; 0; 0; 0; 0; 1]))
    (mkReceivedPolicy (Some (mkMetricPolicy 5 [])) None None None) 3 None 0 None "boot" 0 (Some 7) None None None.
(** Seventeen seconds after the first report fell due. *)
Definition pex_late : PolicyState :=
  mkPolicyState (mkIo 52 []) false ∅ ∅ (Some (pex_held <| next_due := Some 5000 |>)) (Some pex_held) [].

Lemma schedule_conserved_witness :
  ∃ v' k, rp_value (@rp_tick pex_world example_binding (Some pex_reporter) pex_late).2 = Some v' ∧
    next_due v' = Some (5000 + k * 5000) ∧ periods_total v' = k ∧ k = 4.
Proof.
  destruct (@schedule_conserved pex_world example_binding (Some pex_reporter) pex_late
    (pex_held <| next_due := Some 5000 |>) 5000) as (v' & k & Hv & _ & Hn & Hk & Ht & _);
    [reflexivity|reflexivity|reflexivity|].
  change (periods_total v' = k) in Ht. exists v', k. split; [exact Hv|]. split; [exact Hn|]. split; [exact Ht|].
  rewrite <- Ht. vm_compute in Hv. injection Hv as <-. reflexivity.
Defined.

(** No period is reported twice and no backlog is replayed. In any run, through requests that
    change the policy and its interval, with a clock that does not go back: the periods the reporter
    was asked to report strictly increase, each was due when it was asked for, and the next one of the
    session is later than all of them. At most 64 requests are remembered. *)
Theorem reported_periods_increase `{World} binding boot encoded_length disk digest reporter io held inputs :
  (∀ n m, (n ≤ m)%nat → world_clock n ≤ world_clock m) →
  (∀ v, held = Some v → 0 ≤ interval_of (pr_policy v)) →
  let s := foldl (rp_serve binding boot encoded_length disk digest reporter) (rp_init boot io held) inputs in
  StronglySorted Z.lt (rp_periodic s).*2 ∧
  Forall (λ c, c.2 ≤ world_clock c.1) (rp_periodic s) ∧
  (∀ v due, rp_value s = Some v → next_due v = Some due → Forall (λ c, c.2 < due) (rp_periodic s)) ∧
  (size (rp_recent s) ≤ 64)%nat.
Proof.
  intros Hm Hh s. assert (Hok : policy_ok 64 s) by (by apply rp_serve_all_ok, rp_init_ok).
  destruct Hok as [Hc Hs Hv Hr]. split; [done|]. split; [by eapply Forall_impl; [exact Hc|]; intros c []|]. split; [|done].
  intros v due Ev Ed. by destruct (Hv v Ev) as [_ Hd]; destruct (Hd due Ed).
Qed.

Lemma reported_periods_increase_witness :
  let s := foldl (@rp_serve pex_world example_binding "boot" (λ _, 100) (λ _, true) pex_digest (Some pex_reporter))
    (@rp_init pex_world "boot" (mkIo 0 []) (Some pex_held)) pex_inputs in
  (2 ≤ length (rp_periodic s))%nat ∧ StronglySorted Z.lt (rp_periodic s).*2.
Proof.
  intros s. split; [vm_compute; lia|].
  apply (@reported_periods_increase pex_world example_binding "boot" (λ _, 100) (λ _, true) pex_digest (Some pex_reporter)
    (mkIo 0 []) (Some pex_held) pex_inputs).
  - intros n m Hnm. simpl. repeat case_bool_decide; lia.
  - intros v [= <-]. vm_compute. discriminate.
Defined.

(** C38: a policy request is decoded whole or not at all. When it is decoded, every TLV of it is
    accounted for, in order: at most one metric and one steering policy, each as its value says, every
    QoS policy, and every TLV the agent does not interpret, with its length. What is decoded is well
    formed: radios are the agent's own, each named once; thresholds are in range; stations are
    unicast and named once in their list. *)
Theorem policy_decoded_sound tlvs ruids p :
  decode_policy tlvs ruids = Ok p →
  decodes ruids tlvs p ∧ (∀ m, p_metrics p = Some m → metrics_wf ruids m) ∧
  (∀ m, p_steering p = Some m → steering_wf ruids m) ∧ Forall qos_wf (default [] (p_qos p)).
Proof.
  intros Hd%decode_policy_decodes. split; [done|]. split; [intros m; by eapply decoded_metrics|]. destruct Hd as [_ Hs Hq _]. split.
  - intros m Hm. rewrite Hm in Hs. simpl in Hs. destruct (of_kind 0x89 tlvs) as [|t [|]]; [done| |done].
    injection Hs as Hs. by eapply steering_policy_wf.
  - revert Hq. generalize (default [] (p_qos p)), (of_kind 0xDB tlvs). induction l as [|q l IH]; intros [|t k]; try done.
    simpl. intros [= Hq Hr]. constructor; [by eapply qos_policy_wf|by eapply IH].
Qed.

Lemma policy_decoded_sound_witness :
  ∃ p, decode_policy [pex_tlv; mkTlv 0xB5 []] [octets [2; 0; 0; 0; 0; 1]] = Ok p ∧ not_applied p = Some [(0xB5, 0)] ∧
    decodes [octets [2; 0; 0; 0; 0; 1]] [pex_tlv; mkTlv 0xB5 []] p.
Proof.
  eexists. split; [vm_compute; reflexivity|]. split; [reflexivity|].
  apply (policy_decoded_sound [pex_tlv; mkTlv 0xB5 []] [octets [2; 0; 0; 0; 0; 1]]). vm_compute. reflexivity.
Defined.
