(* ===== verification/Secrets.v ===== *)
(** * Secrets by reference: [SecretStore] of [src/emosa/secrets.py]

    The policy over a backend of files. The state is what the backend holds: a value per reference;
    modes and owners of files are not modelled. [FileSecrets.create] refuses an existing reference with
    [FileExistsError]; a write that fails removes what it wrote, so it changes nothing: whether the
    disk takes a write is an argument. [redact] of the same file is in [Store]. *)

From S2P Require Import Prelude Bytes Lifecycle Session.

(** ** Text *)

(** A number in lower-case hexadecimal of at least [width] digits, for values that fit them. *)
Definition hex_digit (z : Z) : string :=
  default "?" (["0"; "1"; "2"; "3"; "4"; "5"; "6"; "7"; "8"; "9"; "a"; "b"; "c"; "d"; "e"; "f"] !! Z.to_nat (z mod 16)).
Fixpoint hex (width : nat) (z : Z) : string :=
  match width with O => "" | S w => hex w (z / 16) +:+ hex_digit z end.

(** [b.hex()] *)
Definition hex_octets (b : bytes) : string := String.concat "" ((λ x, hex 2 (byte_to_Z x)) <$> b).

(** [bytes.decode("utf-8")] succeeds: RFC 3629, no surrogates, no overlong forms. *)
Definition within (lo hi : Z) (b : byte) : bool := bool_decide (lo ≤ byte_to_Z b ≤ hi).
Definition trailing : byte → bool := within 0x80 0xBF.

Fixpoint utf8 (l : bytes) : bool :=
  match l with
  | [] => true
  | b :: l =>
      if within 0 0x7F b then utf8 l
      else if within 0xC2 0xDF b then
        match l with y :: l => trailing y && utf8 l | _ => false end
      else if within 0xE0 0xEF b then
        match l with
        | y :: z :: l =>
            within (if within 0xE0 0xE0 b then 0xA0 else 0x80) (if within 0xED 0xED b then 0x9F else 0xBF) y
            && trailing z && utf8 l
        | _ => false
        end
      else if within 0xF0 0xF4 b then
        match l with
        | y :: z :: w :: l =>
            within (if within 0xF0 0xF0 b then 0x90 else 0x80) (if within 0xF4 0xF4 b then 0x8F else 0xBF) y
            && trailing z && trailing w && utf8 l
        | _ => false
        end
      else false
  end.

Definition ascii (l : bytes) : bool := forallb (within 0 0x7F) l.


(** The octets of a string, and back. *)
Abbreviation encode := String.list_byte_of_string.
Abbreviation decode := String.string_of_list_byte.

(** ** References *)

Definition char_in (ranges : list (Z * Z)) (c : byte) : bool := existsb (λ r, within r.1 r.2 c) ranges.
Definition UPPER : Z * Z := (65, 90).
Definition LOWER : Z * Z := (97, 122).
Definition DIGIT : Z * Z := (48, 57).
Definition HYPHEN : Z * Z := (45, 45).

(** [REFERENCE.fullmatch(ref)]: a letter or a digit, then at most 95 letters, digits, [_], [.] or [-]. *)
Definition REFERENCE (ref : string) : bool :=
  match encode ref with
  | [] => false
  | c :: l => char_in [UPPER; LOWER; DIGIT] c && bool_decide (length l ≤ 95)%nat
              && forallb (char_in [UPPER; LOWER; DIGIT; (95, 95); (46, 46); HYPHEN]) l
  end.

(** [RECEIVED.fullmatch(ref)]: [wsc-] and 32 hexadecimal digits, then nothing or a hyphen and 1 to 7. *)
Definition RECEIVED (ref : string) : bool :=
  let l := encode ref in
  bool_decide (take 4 l = encode "wsc-") && forallb (char_in [DIGIT; (97, 102)]) (slice 4 36 l)
  && bool_decide (36 ≤ length l)%nat
  && match drop 36 l with [] => true | [h; n] => char_in [HYPHEN] h && within 49 55 n | _ => false end.

(** [GENERATED.fullmatch(ref)] *)
Definition GENERATED (ref : string) : bool :=
  let l := encode ref in
  bool_decide (take 6 l = encode "emosa-") && bool_decide (1 ≤ length (drop 6 l) ≤ 32)%nat
  && forallb (char_in [LOWER; DIGIT; HYPHEN]) (drop 6 l).

(** ** The backend: [FileSecrets] *)

Abbreviation Secrets := (gmap string bytes).

Definition file_exists : EmosaError := mkEmosaError NOT_FOUND "FileExistsError".

(** [read(ref)] *)
Definition read_secret (ref : string) (s : Secrets) : result bytes :=
  match s !! ref with
  | None => Raise (mkEmosaError MISSING_PREREQUISITE "secret reference unavailable")
  | Some v => _ ← raise_if (bool_decide (4096 < len v)) INVALID_INPUT "secret file exceeds limit"; Ok v
  end.

(** [create(ref, value)]; [disk] is whether the write succeeds. *)
Definition create_secret (disk : bool) (ref : string) (v : bytes) : M Secrets unit := λ s,
  match s !! ref with
  | Some _ => (Raise file_exists, s)
  | None => if disk then (Ok tt, <[ref := v]> s) else (Raise os_error, s)
  end.

(** [remove(ref)] *)
Definition remove_secret (ref : string) : M Secrets unit := modify (delete ref).

(** ** The store *)

(** [8 <= len(value) <= 63 and value.isascii() and value.isprintable()] *)
Definition usable (v : bytes) : bool :=
  bool_decide (8 ≤ len v ≤ 63) && forallb (within 0x20 0x7E) v.

(** [resolve(ref)] *)
Definition resolve_secret (ref : string) (s : Secrets) : result string :=
  _ ← raise_if (negb (REFERENCE ref)) INVALID_INPUT "invalid secret reference";
  v ← read_secret ref s;
  _ ← raise_if (negb (utf8 v)) INVALID_INPUT "secret must be UTF-8";
  _ ← raise_if (negb (usable v)) INVALID_INPUT "qualified PSK is 8–63 printable ASCII bytes";
  Ok (decode v).

(** [write_simulated(ref, value)]; its [ValueError] is outside the errors of the adapter. *)
Definition write_simulated (disk : bool) (ref value : string) : M Secrets unit :=
  if REFERENCE ref then create_secret disk ref (encode value)
  else lift (Raise (mkEmosaError INVALID_INPUT "invalid simulated secret reference")).

(** [persist_received(ref, value)] *)
Definition persist_received (disk : bool) (ref value : string) : M Secrets unit :=
  if negb (RECEIVED ref) || negb (usable (encode value))
  then raise INVALID_INPUT "invalid received credential reference/value"
  else create_secret disk ref (encode value).

(** What others create between two steps. *)
Definition arrive (meanwhile : list (string * bytes)) (s : Secrets) : Secrets :=
  foldl (λ s rv, (create_secret true rv.1 rv.2 s).2) s meanwhile.

(** [generated(ref)]; [random] is the random text, [meanwhile] what others create between its read and
    its write. *)
Definition generated (disk : bool) (random : string) (meanwhile : list (string * bytes)) (ref : string) : M Secrets string :=
  if negb (GENERATED ref) then raise INVALID_INPUT "invalid generated credential reference"
  else λ s,
    match resolve_secret ref s with
    | Ok v => (Ok v, s)
    | Raise e =>
        if negb (bool_decide (code e = MISSING_PREREQUISITE)) then (Raise e, s)
        else
          let '(r, s) := create_secret disk ref (encode random) (arrive meanwhile s) in
          match r with
          | Raise e => if bool_decide (e = file_exists) then (resolve_secret ref s, s) else (Raise e, s)
          | Ok _ => (resolve_secret ref s, s)
          end
    end.

(** [forget(ref)] *)
Definition forget (ref : string) : M Secrets unit :=
  if REFERENCE ref then remove_secret ref else mret tt.

(** The vault the engine resolves intents against. *)
Definition vault_of (fingerprint : value → string) (s : Secrets) : Vault :=
  mkVault (λ ref, resolve_secret ref s) fingerprint.

(** * Theory *)

Lemma usable_ascii v : forallb (within 0x20 0x7E) v = true → utf8 v = true.
Proof.
  induction v as [|b v IH]; [done|]. simpl. rewrite andb_true_iff. intros [Hb Hv].
  replace (within 0 0x7F b) with true by (unfold within in *; bools; symmetry; apply bool_decide_eq_true; lia). by apply IH.
Qed.

Lemma usable_resolved ref s v :
  REFERENCE ref = true → s !! ref = Some v → usable v = true → resolve_secret ref s = Ok (decode v).
Proof.
  intros Hr Hs Hu. pose proof Hu as [Hl Ha]%andb_prop. bools. unfold resolve_secret, read_secret.
  rewrite Hr, Hs, bool_decide_eq_false_2 by lia. cbn. by rewrite usable_ascii, Hu.
Qed.

(** What is resolved depends on the stored value only. *)
Lemma resolve_stored ref s v : resolve_secret ref s = Ok v → ∃ b, s !! ref = Some b ∧ ∀ s', s' !! ref = Some b → resolve_secret ref s' = Ok v.
Proof.
  unfold resolve_secret, read_secret. intros H. destruct (s !! ref) as [b|] eqn:E; [|by destruct (REFERENCE ref)].
  exists b. split; [done|]. by intros s' ->.
Qed.

Lemma forallb_weaken {A} (f g : A → bool) l : (∀ x, f x = true → g x = true) → forallb f l = true → forallb g l = true.
Proof. intros Hfg. induction l; simpl; [done|]. rewrite !andb_true_iff. naive_solver. Qed.

(** The characters of received and of generated references are characters of references. *)
Definition reference_char : byte → bool := char_in [UPPER; LOWER; DIGIT; (95, 95); (46, 46); HYPHEN].

Lemma reference_chars_sub ranges : forallb (λ n, implb (char_in ranges (Z_to_byte n)) (reference_char (Z_to_byte n))) (seqZ 0 256) = true →
  ∀ c, char_in ranges c = true → reference_char c = true.
Proof.
  intros Hall c Hc. rewrite forallb_forall in Hall. specialize (Hall (byte_to_Z c)).
  rewrite Z_to_byte_to_Z, Hc in Hall. apply Hall, list_elem_of_In, elem_of_seqZ. pose proof (byte_to_Z_range c). lia.
Qed.

Lemma REFERENCE_intro ref c l :
  encode ref = c :: l → char_in [UPPER; LOWER; DIGIT] c = true → (length l ≤ 95)%nat → forallb reference_char l = true →
  REFERENCE ref = true.
Proof. intros E Hc Hl Hf. unfold REFERENCE. rewrite E, Hc, bool_decide_eq_true_2 by done. done. Qed.

Lemma prefix_intro (p l : bytes) n : take n l = p → l = p ++ drop n l.
Proof. intros <-. symmetry. apply take_drop. Qed.

Lemma GENERATED_REFERENCE ref : GENERATED ref = true → REFERENCE ref = true.
Proof.
  unfold GENERATED. intros H. bools. eapply REFERENCE_intro.
  - rewrite (prefix_intro _ _ _ H). reflexivity.
  - done.
  - simpl. lia.
  - simpl. eapply forallb_weaken; [apply reference_chars_sub|eassumption]. vm_compute. reflexivity.
Qed.

Lemma RECEIVED_REFERENCE ref : RECEIVED ref = true → REFERENCE ref = true.
Proof.
  unfold RECEIVED. intros H. apply andb_prop in H as [H Hd]. bools.
  assert (E : encode ref = Byte.x77 :: [Byte.x73; Byte.x63; Byte.x2d] ++ slice 4 36 (encode ref) ++ drop 36 (encode ref)).
  { rewrite (prefix_intro _ _ _ H) at 1. change (encode "wsc-") with [Byte.x77; Byte.x73; Byte.x63; Byte.x2d]. simpl. do 4 f_equal. unfold slice. rewrite <- (take_drop 32 (drop 4 (encode ref))) at 1. by rewrite drop_drop. }
  assert (Hs : length (slice 4 36 (encode ref)) = 32%nat) by (apply slice_length; lia).
  assert (Hlen : (length (drop 36 (encode ref)) ≤ 2)%nat) by (destruct (drop 36 _) as [|? [|? [|]]]; simpl; [lia|done|lia|done]).
  eapply REFERENCE_intro; [exact E|done| |].
  - rewrite !length_app. simpl length. lia.
  - rewrite !forallb_app. apply andb_true_intro. split; [done|]. apply andb_true_intro. split.
    + eapply forallb_weaken; [apply reference_chars_sub|eassumption]. vm_compute. reflexivity.
    + destruct (drop 36 _) as [|h [|n [|]]]; [done|done| |done]. apply andb_prop in Hd as [Hh Hn]. simpl.
      rewrite (reference_chars_sub [HYPHEN]) by (done || (vm_compute; reflexivity)).
      rewrite (reference_chars_sub [(49, 55)] ltac:(vm_compute; reflexivity) n); [done|]. unfold char_in. simpl. by rewrite Hn.
Qed.

(** ** Runs of the store *)

Inductive secret_op :=
  | Persist (disk : bool) (ref value : string)
  | Simulate (disk : bool) (ref value : string)
  | Generate (disk : bool) (random : string) (meanwhile : list (string * bytes)) (ref : string)
  | Forget (ref : string).

Definition perform (o : secret_op) (s : Secrets) : Secrets :=
  match o with
  | Persist disk ref v => (persist_received disk ref v s).2
  | Simulate disk ref v => (write_simulated disk ref v s).2
  | Generate disk random meanwhile ref => (generated disk random meanwhile ref s).2
  | Forget ref => (forget ref s).2
  end.
Definition perform_all (ops : list secret_op) (s : Secrets) : Secrets := foldl (flip perform) s ops.

(** [m] leaves what is stored as it is: it only adds references. *)
Definition only_adds (f : Secrets → Secrets) : Prop := ∀ s ref v, s !! ref = Some v → f s !! ref = Some v.

Lemma create_adds disk ref v : only_adds (λ s, (create_secret disk ref v s).2).
Proof.
  intros s r w Hr. unfold create_secret. destruct (s !! ref) eqn:E; [done|]. destruct disk; [|done]. simpl.
  rewrite lookup_insert_ne; [done|congruence].
Qed.
Lemma arrive_adds meanwhile : only_adds (arrive meanwhile).
Proof.
  unfold arrive. induction meanwhile as [|[r v] l IH]; intros s ref w Hw; [done|]. simpl. by apply IH, create_adds.
Qed.
Lemma generated_adds disk random meanwhile ref : only_adds (λ s, (generated disk random meanwhile ref s).2).
Proof.
  intros s r w Hw. unfold generated. destruct (negb _); [done|]. destruct (resolve_secret ref s) as [|e]; [done|].
  destruct (negb _); [done|]. pose proof (create_adds disk ref (encode random) _ _ _ (arrive_adds meanwhile _ _ _ Hw)) as Hc.
  cbn beta in Hc. destruct (create_secret _ _ _ _) as [[[]|e'] s1]; [exact Hc|]. by destruct (bool_decide _).
Qed.

Lemma perform_keeps o ref s v : o ≠ Forget ref → s !! ref = Some v → perform o s !! ref = Some v.
Proof.
  intros Ho Hs. destruct o; simpl.
  - unfold persist_received. destruct (_ || _)%bool; [done|]. by apply create_adds.
  - unfold write_simulated. destruct (REFERENCE _); [|done]. by apply create_adds.
  - by apply generated_adds.
  - unfold forget. destruct (REFERENCE _); [|done]. simpl. rewrite lookup_delete_ne; [done|congruence].
Qed.

Lemma perform_all_keeps ops ref s v : Forget ref ∉ ops → s !! ref = Some v → perform_all ops s !! ref = Some v.
Proof.
  revert s; induction ops as [|o ops IH]; intros s Hn Hs; [done|]. apply not_elem_of_cons in Hn as [Ho Hn]. simpl.
  apply IH; [done|]. apply perform_keeps; congruence.
Qed.

(** What [create_secret] stored is there. *)
Lemma persisted disk ref v s s' :
  persist_received disk ref v s = (Ok tt, s') →
  RECEIVED ref = true ∧ usable (encode v) = true ∧ s !! ref = None ∧ s' = <[ref := encode v]> s.
Proof.
  unfold persist_received. destruct (_ || _)%bool eqn:E; [done|]. bools. unfold create_secret.
  destruct (s !! ref) eqn:Es; [done|]. destruct disk; [|done]. by intros [= <-].
Qed.

Lemma generated_resolved disk random meanwhile ref s v s' :
  generated disk random meanwhile ref s = (Ok v, s') → GENERATED ref = true ∧ resolve_secret ref s' = Ok v.
Proof.
  unfold generated. destruct (GENERATED ref) eqn:Hg; [|done]. simpl. destruct (resolve_secret ref s) as [|e] eqn:Er.
  { by intros [= -> ->]. }
  destruct (negb _); [done|]. destruct (create_secret _ _ _ _) as [[[]|e'] s1]; [by intros [= ? <-]|].
  destruct (bool_decide _); [by intros [= ? <-]|done].
Qed.

(** * Properties *)

(** A credential is never overwritten. What [persist_received] stored, and what [generated] returned,
    is what [resolve] returns after any further run of the store in which the reference is not forgotten,
    whatever others store meanwhile and whichever writes fail; [generated] then returns it again. *)
Theorem credentials_stable (ops : list secret_op) (ref v : string) (s s' : Secrets) :
  ((∃ disk, persist_received disk ref v s = (Ok tt, s'))
   ∨ (∃ disk random meanwhile, generated disk random meanwhile ref s = (Ok v, s'))) →
  Forget ref ∉ ops →
  resolve_secret ref (perform_all ops s') = Ok v
  ∧ (GENERATED ref = true → ∀ disk random meanwhile,
       generated disk random meanwhile ref (perform_all ops s') = (Ok v, perform_all ops s')).
Proof.
  intros Hmade Hn. assert (Hr : resolve_secret ref (perform_all ops s') = Ok v).
  { destruct Hmade as [[disk Hp]|(disk & random & meanwhile & Hg)].
    - apply persisted in Hp as (Href & Hu & _ & ->).
      rewrite (usable_resolved ref _ (encode v)); [by rewrite String.string_of_list_byte_of_string|by apply RECEIVED_REFERENCE| |done].
      apply perform_all_keeps; [done|]. apply lookup_insert_eq.
    - apply generated_resolved in Hg as [_ Hg]. destruct (resolve_stored _ _ _ Hg) as (b & Hb & Hall).
      by apply Hall, perform_all_keeps. }
  split; [done|]. intros Hg disk random meanwhile. unfold generated. rewrite Hg. cbn [negb]. cbv beta. by rewrite Hr.
Qed.

Lemma credentials_stable_witness :
  let ref := "emosa-legacy-1" in
  let s := (generated true "abcdefghijklmnopqrstuvwxyz012345" [] ref ∅).2 in
  generated true "other random text of thirty-two." [] ref
    (perform_all [Persist true "wsc-00112233445566778899aabbccddeeff-1" "correct horse"; Forget "other"] s)
  = (Ok "abcdefghijklmnopqrstuvwxyz012345",
     perform_all [Persist true "wsc-00112233445566778899aabbccddeeff-1" "correct horse"; Forget "other"] s).
Proof.
  simpl. apply (credentials_stable
    [Persist true "wsc-00112233445566778899aabbccddeeff-1" "correct horse"; Forget "other"]
    "emosa-legacy-1" "abcdefghijklmnopqrstuvwxyz012345" ∅
    (generated true "abcdefghijklmnopqrstuvwxyz012345" [] "emosa-legacy-1" ∅).2).
  - right. exists true, "abcdefghijklmnopqrstuvwxyz012345", []. vm_compute. reflexivity.
  - by rewrite !elem_of_cons, elem_of_nil; intros [|[|]].
  - vm_compute. reflexivity.
Defined.
