(* ===== verification/Digest.v ===== *)
(** * Digests: [hashlib.sha256] and [hmac.digest] of Python's standard library

    What is proved of code that hashes holds for any function with the length of a digest ([Hash]);
    [fips_sha256] is the function of FIPS 180-4, the instance the code runs with, checked on the
    standard's examples. [hmac_digest] is RFC 2104 over a block of 64 octets. *)

From S2P Require Import Prelude Bytes.

Class Hash := { sha256 : bytes → bytes; sha256_length : ∀ b, length (sha256 b) = 32%nat }.

(** ** HMAC *)

Definition xor_octets (z : Z) (b : bytes) : bytes := (λ x, Z_to_byte (Z.lxor (byte_to_Z x) z)) <$> b.

(** [b.rjust(n, NUL)] and its mirror [b.ljust(n, NUL)] *)
Definition rjust (n : nat) (b : bytes) : bytes := replicate (n - length b) (Z_to_byte 0) ++ b.
Definition ljust (n : nat) (b : bytes) : bytes := b ++ replicate (n - length b) (Z_to_byte 0).

(** [hmac.digest(key, data, "sha256")] *)
Definition hmac_digest `{Hash} (key data : bytes) : bytes :=
  let block := ljust 64 (if bool_decide (64 < length key)%nat then sha256 key else key) in
  sha256 (xor_octets 0x5c block ++ sha256 (xor_octets 0x36 block ++ data)).

Lemma hmac_length `{Hash} key data : length (hmac_digest key data) = 32%nat.
Proof. apply sha256_length. Qed.

Lemma rjust_length n b : (length b ≤ n)%nat → length (rjust n b) = n.
Proof. intros. unfold rjust. rewrite length_app, length_replicate. lia. Qed.

(** ** SHA-256 *)

Definition word (z : Z) : Z := Z.land z 0xFFFFFFFF.
Definition rotr (n x : Z) : Z := Z.lor (Z.shiftr x n) (word (Z.shiftl x (32 - n))).
Definition sigma (a b c x : Z) : Z := Z.lxor (rotr a x) (Z.lxor (rotr b x) (rotr c x)).
Definition sigma_shift (a b c x : Z) : Z := Z.lxor (rotr a x) (Z.lxor (rotr b x) (Z.shiftr x c)).
Definition choose (x y z : Z) : Z := Z.lxor (Z.land x y) (Z.land (Z.lxor x 0xFFFFFFFF) z).
Definition majority (x y z : Z) : Z := Z.lxor (Z.land x y) (Z.lxor (Z.land x z) (Z.land y z)).

(** The first 64 primes; the constants of the rounds are the first 32 bits of the fractional parts of their
    cube roots, the initial words those of the square roots of the first eight. *)
Fixpoint primes_from (n : nat) (z : Z) (found : list Z) : list Z :=
  match n with
  | O => reverse found
  | S n => primes_from n (z + 1) (if forallb (λ p, negb (bool_decide (z mod p = 0))) found then z :: found else found)
  end.
Definition primes : list Z := Eval vm_compute in primes_from 310 2 [].

(** The largest [r] below [2 ^ bits] above [acc] with [r ^ 3 <= n]. *)
Fixpoint cube_root (bits : nat) (acc n : Z) : Z :=
  match bits with
  | O => acc
  | S bits =>
      let r := acc + 2 ^ Z.of_nat bits in
      cube_root bits (if bool_decide (r ^ 3 ≤ n) then r else acc) n
  end.

Definition round_constants : list Z :=
  Eval vm_compute in (λ p, word (cube_root 36 0 (p * 2 ^ 96))) <$> primes.
Definition initial_words : list Z := Eval vm_compute in (λ p, word (Z.sqrt (p * 2 ^ 64))) <$> take 8 primes.

Record Hashing := mkHashing { h0 : Z; h1 : Z; h2 : Z; h3 : Z; h4 : Z; h5 : Z; h6 : Z; h7 : Z }.

Definition initial : Hashing :=
  let h i := default 0 (initial_words !! i) in
  mkHashing (h 0%nat) (h 1%nat) (h 2%nat) (h 3%nat) (h 4%nat) (h 5%nat) (h 6%nat) (h 7%nat).

(** The words of a block, and the words the schedule adds: the latest first. *)
Fixpoint block_words (n : nat) (b : bytes) : list Z :=
  match n with O => [] | S n => be_int (take 4 b) :: block_words n (drop 4 b) end.

Fixpoint schedule (n : nat) (latest : list Z) : list Z :=
  match n with
  | O => latest
  | S n =>
      let w i := default 0 (latest !! i) in
      schedule n (word (sigma_shift 17 19 10 (w 1%nat) + w 6%nat + sigma_shift 7 18 3 (w 14%nat) + w 15%nat)
                  :: latest)
  end.

Definition sha_round (h : Hashing) (kw : Z * Z) : Hashing :=
  let t1 := h7 h + sigma 6 11 25 (h4 h) + choose (h4 h) (h5 h) (h6 h) + kw.1 + kw.2 in
  let t2 := sigma 2 13 22 (h0 h) + majority (h0 h) (h1 h) (h2 h) in
  mkHashing (word (t1 + t2)) (h0 h) (h1 h) (h2 h) (word (h3 h + t1)) (h4 h) (h5 h) (h6 h).

Definition compress (h : Hashing) (block : bytes) : Hashing :=
  let w := reverse (schedule 48 (reverse (block_words 16 block))) in
  let r := foldl sha_round h (zip round_constants w) in
  mkHashing (word (h0 h + h0 r)) (word (h1 h + h1 r)) (word (h2 h + h2 r)) (word (h3 h + h3 r))
    (word (h4 h + h4 r)) (word (h5 h + h5 r)) (word (h6 h + h6 r)) (word (h7 h + h7 r)).

Fixpoint compress_blocks (n : nat) (b : bytes) (h : Hashing) : Hashing :=
  match n with O => h | S n => compress_blocks n (drop 64 b) (compress h (take 64 b)) end.

Definition fips_sha256 (b : bytes) : bytes :=
  let zeros := Z.to_nat ((55 - len b) mod 64) in
  let padded := b ++ Z_to_byte 0x80 :: replicate zeros (Z_to_byte 0) ++ be_bytes 8 (8 * len b) in
  let h := compress_blocks (length padded / 64) padded initial in
  [h0 h; h1 h; h2 h; h3 h; h4 h; h5 h; h6 h; h7 h] ≫= be_bytes 4.

Lemma fips_sha256_length b : length (fips_sha256 b) = 32%nat.
Proof. unfold fips_sha256. cbn zeta. simpl. autorewrite with lens. done. Qed.

(** The digest the code runs with. *)
Definition fips : Hash := {| sha256 := fips_sha256; sha256_length := fips_sha256_length |}.

(** The octets of an ASCII text. *)
Definition text (s : string) : bytes := String.list_byte_of_string s.

(** Examples of the standard (one block, two blocks) and case 2 of RFC 4231. *)
Example sha256_abc : be_int (fips_sha256 (text "abc"))
  = 0xba7816bf8f01cfea414140de5dae2223b00361a396177a9cb410ff61f20015ad.
Proof. vm_compute. reflexivity. Qed.

Example sha256_two_blocks :
  be_int (fips_sha256 (text "abcdbcdecdefdefgefghfghighijhijkijkljklmklmnlmnomnopnopq"))
  = 0x248d6a61d20638b8e5c026930c3e6039a33ce45964ff2167f6ecedd419db06c1.
Proof. vm_compute. reflexivity. Qed.

Example hmac_rfc4231 :
  be_int (hmac_digest (H := fips) (text "Jefe") (text "what do ya want for nothing?"))
  = 0x5bdcc146bf60754e6a042426089575c75a003f089d2739839dec58b964ec3843.
Proof. vm_compute. reflexivity. Qed.

(** A digest that is quick to evaluate: a checksum of 16 bits. *)
Definition checksum : Hash :=
  {| sha256 b := be_bytes 32 (foldl (λ acc x, Z.land (acc * 31 + byte_to_Z x) 0xFFFF) 7 b);
     sha256_length b := be_bytes_length 32 _ |}.
