(* ===== verification/Wsc.v ===== *)
(** * The cryptographic component of WSC: [src/emosa/wsc.py]

    Attributes, session keys, the message authenticator and the encrypted settings. The group of
    the key exchange, AES-CBC and the PKCS #7 padding come from the package [cryptography]: they are
    the operations of [Crypto], with its documented laws in [CryptoLaws]. The modulus of the group is
    a field too, so that what is proved does not depend on its size; the code runs with [MODP_1536]. *)

From Equations Require Import Equations.
From Stdlib Require Import Zpow_facts.
From S2P Require Import Prelude Bytes Cmdu Digest.

Definition MODP_1536 : Z := 0xFFFFFFFFFFFFFFFFC90FDAA22168C234C4C6628B80DC1CD129024E088A67CC74020BBEA63B139B22514A08798E3404DDEF9519B3CD3A431B302B0A6DF25F14374FE1356D6D51C245E485B576625E7EC6F44C42E9A637ED6B0BFF5CB6F406B7EDEE386BFB5A899FA5AE9F24117C4B1FE649286651ECE45B3DC2007CB8A163BF0598DA48361C55D39A69163FA8FD24CF5F83655D23DCA3AD961C62F356208552BB9ED529077096966D670C354E4ABC9804F1746C08CA237327FFFFFFFFFFFFFFFF.
Definition AUTHENTICATOR : Z := 0x1005.
Definition KEY_WRAP_AUTHENTICATOR : Z := 0x101E.
Definition MAX_COMPONENT_BYTES : Z := 1024 * 1024.
Definition MAX_COMPONENT_ATTRIBUTES : Z := 4096.

(** [_invalid()] *)
Definition wsc_invalid {A} : result A := Raise (mkEmosaError INVALID_INPUT "invalid WSC cryptographic input").

Definition wsc_check (ok : bool) : result unit := if ok then Ok tt else wsc_invalid.

(** [_bytes(value, length)] and [_bounded(value)] *)
Definition sized (value : bytes) (n : nat) : result bytes :=
  _ ← wsc_check (bool_decide (length value = n)); Ok value.
Definition bounded (value : bytes) : result bytes :=
  _ ← wsc_check (negb (bool_decide (MAX_COMPONENT_BYTES < len value))); Ok value.

(** ** Attributes *)

Record Attribute := mkAttribute { a_kind : Z; a_value : bytes }.

#[export] Instance Attribute_eq_dec : EqDecision Attribute.
Proof. solve_decision. Defined.

Definition encode_attribute (kind : Z) (value : bytes) : result bytes :=
  _ ← wsc_check (bool_decide (0 ≤ kind ≤ 0xFFFF) && negb (bool_decide (0xFFFF < len value)));
  Ok (be_bytes 2 kind ++ be_bytes 2 (len value) ++ value).

(** The [while offset < len(data)] loop of [decode_attributes]. *)
Equations? decode_attributes_from (data : bytes) (offset : nat) (attributes : list Attribute) :
    result (list Attribute) by wf (length data - offset)%nat lt :=
  decode_attributes_from data offset attributes with decide (offset < length data)%nat => {
    | right _ => Ok attributes;
    | left _ with decide (length data - offset < 4)%nat => {
        | left _ => wsc_invalid;
        | right _ =>
            if bool_decide (len attributes = MAX_COMPONENT_ATTRIBUTES) then wsc_invalid
            else
              let kind := be_int (slice offset (offset + 2) data) in
              let size := Z.to_nat (be_int (slice (offset + 2) (offset + 4) data)) in
              let start := (offset + 4)%nat in
              if bool_decide (length data - start < size)%nat then wsc_invalid
              else decode_attributes_from data (start + size)
                     (attributes ++ [mkAttribute kind (slice start (start + size) data)])
      } }.
Proof. lia. Qed.

Definition decode_attributes (data : bytes) : result (list Attribute) :=
  _ ← bounded data;
  decode_attributes_from data 0 [].

(** ** Session keys *)

Record SessionKeys := mkSessionKeys { auth_key : bytes; key_wrap_key : bytes; emsk : bytes }.

(** [SessionKeys.__post_init__] *)
Definition SessionKeys_init (auth wrap emsk : bytes) : result SessionKeys :=
  _ ← sized auth 32; _ ← sized wrap 16; _ ← sized emsk 32;
  Ok (mkSessionKeys auth wrap emsk).

(** What the package [cryptography] gives. A private key of [modulus] has a public number; an exchange
    or an unpadding that raises [ValueError] is [None]. *)
Class Crypto := {
  modulus : Z;
  private_key : Type;
  public_number : private_key → Z;
  dh_exchange : private_key → Z → option bytes;
  cbc_encrypt : bytes → bytes → bytes → bytes;
  cbc_decrypt : bytes → bytes → bytes → bytes;
  pkcs7_pad : bytes → bytes;
  pkcs7_unpad : bytes → option bytes
}.

Section Wsc.
Context {H : Hash} {C : Crypto}.

(** [KeyPair.public] *)
Definition public (self : private_key) : bytes := be_bytes 192 (public_number self).

(** The values [derive] admits: [2 <= y <= p - 2] in the subgroup of order [(p - 1) // 2]. *)
Definition admitted (y : Z) : bool :=
  bool_decide (2 ≤ y ≤ modulus - 2) && bool_decide (Zpow_mod y ((modulus - 1) / 2) modulus = 1).

Definition LABEL : bytes := text "Wi-Fi Easy and Secure Key Derivation".

(** The 640 bits of key material of a key derivation key. *)
Definition material (kdk : bytes) : bytes :=
  take 80 ([1; 2; 3] ≫= λ i, hmac_digest kdk (be_bytes 4 i ++ LABEL ++ be_bytes 4 640)).

(** [KeyPair.derive] *)
Definition derive (self : private_key) (peer_public enrollee_nonce enrollee_mac registrar_nonce : bytes) :
    result SessionKeys :=
  _ ← sized peer_public 192;
  _ ← sized enrollee_nonce 16;
  _ ← sized enrollee_mac 6;
  _ ← sized registrar_nonce 16;
  let peer_number := be_int peer_public in
  _ ← wsc_check (admitted peer_number);
  match dh_exchange self peer_number with
  | None => wsc_invalid
  | Some secret =>
      let dh_key := sha256 (rjust 192 secret) in
      let kdk := hmac_digest dh_key (enrollee_nonce ++ enrollee_mac ++ registrar_nonce) in
      let m := material kdk in
      SessionKeys_init (slice 0 32 m) (slice 32 48 m) (slice 48 80 m)
  end.

(** ** Authenticators *)

(** [_tag] *)
Definition tag (keys : SessionKeys) (data : bytes) : bytes := take 8 (hmac_digest (auth_key keys) data).

(** [_without_trailer]: [attributes[:-1]] and [attributes[-1]] are the list without its last and the last. *)
Definition without_trailer (data : bytes) (kind : Z) : result (bytes * bytes) :=
  attributes ← decode_attributes data;
  match list.last attributes with
  | None => wsc_invalid
  | Some trailer =>
      _ ← wsc_check (bool_decide (a_kind trailer = kind) && bool_decide (length (a_value trailer) = 8%nat)
                     && negb (existsb (λ a, bool_decide (a_kind a = kind)) (removelast attributes)));
      Ok (take (length data - 12) data, a_value trailer)
  end.

Definition authenticate_message (keys : SessionKeys) (previous current : bytes) : result bytes :=
  _ ← bounded previous;
  attributes ← decode_attributes current;
  _ ← wsc_check (bool_decide (len attributes < MAX_COMPONENT_ATTRIBUTES)
                 && negb (existsb (λ a, bool_decide (a_kind a = AUTHENTICATOR)) attributes));
  trailer ← encode_attribute AUTHENTICATOR (tag keys (previous ++ current));
  bounded (current ++ trailer).

Definition verify_message (keys : SessionKeys) (previous current : bytes) : result bytes :=
  _ ← bounded previous;
  '(unsigned, t) ← without_trailer current AUTHENTICATOR;
  _ ← wsc_check (bool_decide (tag keys (previous ++ unsigned) = t));
  Ok unsigned.

(** ** Encrypted settings *)

(** [encrypt_settings]; [iv] is the fresh [secrets.token_bytes(16)]. *)
Definition encrypt_settings (iv : bytes) (keys : SessionKeys) (plaintext : bytes) : result bytes :=
  attributes ← decode_attributes plaintext;
  _ ← wsc_check (bool_decide (len attributes < MAX_COMPONENT_ATTRIBUTES)
                 && negb (existsb (λ a, bool_decide (a_kind a = KEY_WRAP_AUTHENTICATOR)) attributes));
  _ ← wsc_check (negb (bool_decide (0xFFFF < 16 + ((len plaintext + 12) / 16 + 1) * 16)));
  trailer ← encode_attribute KEY_WRAP_AUTHENTICATOR (tag keys plaintext);
  let padded := pkcs7_pad (plaintext ++ trailer) in
  bounded (iv ++ cbc_encrypt (key_wrap_key keys) iv padded).

Definition decrypt_settings (keys : SessionKeys) (encrypted : bytes) : result bytes :=
  _ ← bounded encrypted;
  _ ← wsc_check (bool_decide (32 ≤ len encrypted ≤ 0xFFFF) && bool_decide (len encrypted mod 16 = 0));
  match pkcs7_unpad (cbc_decrypt (key_wrap_key keys) (take 16 encrypted) (drop 16 encrypted)) with
  | None => wsc_invalid
  | Some authenticated =>
      '(plaintext, t) ← without_trailer authenticated KEY_WRAP_AUTHENTICATOR;
      _ ← wsc_check (bool_decide (tag keys plaintext = t));
      Ok plaintext
  end.

End Wsc.

(** The documented behaviour of [cryptography] the code relies on: the two sides of an exchange agree on
    a shared number of the group; CBC decryption inverts encryption on whole blocks; PKCS #7 fills a
    block of 16. *)
Class CryptoLaws (C : Crypto) : Prop := {
  modulus_fits : modulus ≤ 256 ^ 192;
  dh_agree : ∀ a b, admitted (public_number b) = true →
    is_Some (dh_exchange a (public_number b)) ∧ dh_exchange a (public_number b) = dh_exchange b (public_number a);
  cbc_length : ∀ k iv d, length (cbc_encrypt k iv d) = length d;
  cbc_inverse : ∀ k iv d, length k = 16%nat → length iv = 16%nat → len d mod 16 = 0 →
    cbc_decrypt k iv (cbc_encrypt k iv d) = d;
  pkcs7_length : ∀ d, len (pkcs7_pad d) = (len d / 16 + 1) * 16;
  pkcs7_inverse : ∀ d, pkcs7_unpad (pkcs7_pad d) = Some d
}.

(** * Theory *)

(** ** The grammar of attributes *)

Definition attribute_ok (a : Attribute) : Prop := 0 ≤ a_kind a ≤ 0xFFFF ∧ len (a_value a) ≤ 0xFFFF.
Definition attribute_bytes (a : Attribute) : bytes :=
  be_bytes 2 (a_kind a) ++ be_bytes 2 (len (a_value a)) ++ a_value a.

Lemma wsc_check_Ok b u : wsc_check b = Ok u → b = true.
Proof. by destruct b. Qed.
Lemma wsc_check_bind {A} b (k : unit → result A) a : wsc_check b ≫= k = Ok a ↔ b = true ∧ k tt = Ok a.
Proof. destruct b; simpl; naive_solver. Qed.
Lemma sized_bind {A} v n (k : bytes → result A) a : sized v n ≫= k = Ok a ↔ length v = n ∧ k v = Ok a.
Proof. unfold sized. case_bool_decide; simpl; naive_solver. Qed.
Lemma bounded_bind {A} v (k : bytes → result A) a :
  bounded v ≫= k = Ok a ↔ len v ≤ MAX_COMPONENT_BYTES ∧ k v = Ok a.
Proof. unfold bounded. case_bool_decide; simpl; naive_solver lia. Qed.
Lemma component_bounded v r : bounded v = Ok r ↔ len v ≤ MAX_COMPONENT_BYTES ∧ r = v.
Proof. unfold bounded. case_bool_decide; simpl; naive_solver lia. Qed.

Lemma encode_attribute_Ok k v b :
  encode_attribute k v = Ok b ↔ attribute_ok (mkAttribute k v) ∧ b = attribute_bytes (mkAttribute k v).
Proof.
  unfold encode_attribute, attribute_ok, attribute_bytes; simpl. rewrite wsc_check_bind, andb_true_iff, negb_true_iff.
  rewrite bool_decide_eq_true, bool_decide_eq_false. split; [intros [[? ?] [= <-]]|intros [[? ?] ->]]; repeat split; lia.
Qed.

Lemma attribute_bytes_length a : length (attribute_bytes a) = (4 + length (a_value a))%nat.
Proof. unfold attribute_bytes. len_lia. Qed.

(** One turn of the loop, on the octets from its offset on. *)
Lemma decode_attributes_from_step pre s acc :
  decode_attributes_from (pre ++ s) (length pre) acc =
  match s with
  | [] => Ok acc
  | k1 :: k2 :: n1 :: n2 :: body =>
      let size := Z.to_nat (be_int [n1; n2]) in
      if bool_decide (len acc = MAX_COMPONENT_ATTRIBUTES) then wsc_invalid
      else if bool_decide (length body < size)%nat then wsc_invalid
      else
        let v := take size body in
        decode_attributes_from ((pre ++ k1 :: k2 :: n1 :: n2 :: v) ++ drop size body)
          (length (pre ++ k1 :: k2 :: n1 :: n2 :: v)) (acc ++ [mkAttribute (be_int [k1; k2]) v])
  | _ => wsc_invalid
  end.
Proof.
  rewrite decode_attributes_from_equation_1. unfold decode_attributes_from_unfold_clause_1.
  pose proof (length_app pre s) as Happ. destruct (decide _) as [Hlt|Hge].
  2:{ destruct s; simpl in *; [done|lia]. }
  unfold decode_attributes_from_unfold_clause_1_clause_2. destruct (decide _) as [H4|H4].
  { destruct s as [|? [|? [|? [|]]]]; simpl in *; try done; lia. }
  destruct s as [|k1 [|k2 [|n1 [|n2 body]]]]; try (simpl in Happ; lia).
  replace (slice (length pre) (length pre + 2) _) with [k1; k2].
  2:{ symmetry. apply (slice_app pre [k1; k2] (n1 :: n2 :: body)); len_lia. }
  replace (slice (length pre + 2) (length pre + 4) _) with [n1; n2].
  2:{ symmetry. replace (pre ++ k1 :: k2 :: n1 :: n2 :: body) with ((pre ++ [k1; k2]) ++ [n1; n2] ++ body) by by rewrite <- app_assoc.
      apply slice_app; len_lia. }
  cbv zeta. set (size := Z.to_nat _). destruct (bool_decide (len acc = _)); [done|].
  rewrite (bool_decide_ext (_ < size)%nat (length body < size)%nat) by len_lia.
  case_bool_decide as Hl; [done|]. set (v := take size body).
  assert (Hv : length v = size) by (unfold v; rewrite length_take; lia).
  assert (Hbody : v ++ drop size body = body) by apply take_drop.
  rewrite <- app_assoc. simpl. rewrite Hbody. f_equal; [len_lia|].
  do 3 f_equal. rewrite <- Hbody. change (k1 :: k2 :: n1 :: n2 :: ?x) with ([k1; k2; n1; n2] ++ x). rewrite app_assoc.
  apply slice_app; len_lia.
Qed.

(** The first attribute of an octet string. *)
Lemma attribute_head k1 k2 n1 n2 body a rest :
  k1 :: k2 :: n1 :: n2 :: body = attribute_bytes a ++ rest → attribute_ok a →
  be_int [k1; k2] = a_kind a ∧ Z.to_nat (be_int [n1; n2]) = length (a_value a) ∧ body = a_value a ++ rest.
Proof.
  intros E [Hk Hv]. unfold attribute_bytes in E. destruct a as [k v]; cbn [a_kind a_value] in *.
  pose proof (be_bytes_length 2 k). pose proof (be_bytes_length 2 (len v)).
  assert (E1 : [k1; k2] = be_bytes 2 k) by (destruct (be_bytes 2 k) as [|? [|? [|]]]; simplify_eq/=; done).
  assert (E2 : [n1; n2] = be_bytes 2 (len v) ∧ body = v ++ rest).
  { rewrite <- E1 in E. destruct (be_bytes 2 (len v)) as [|? [|? [|]]]; simplify_eq/=; done. }
  destruct E2 as [-> ->]. rewrite E1, !be_int_be_bytes by (unfold len in *; simpl; lia). unfold len. by rewrite Nat2Z.id.
Qed.

(** An octet string is the encoding of at most one list of attributes. *)
Lemma attributes_inj l l' :
  Forall attribute_ok l → Forall attribute_ok l' → l ≫= attribute_bytes = l' ≫= attribute_bytes → l = l'.
Proof.
  intros Hl. revert l'. induction Hl as [|a l Ha Hl IH]; intros [|a' l'] Hl' E; [done|..].
  1-2: apply (f_equal length) in E; rewrite bind_cons, length_app, attribute_bytes_length in E; simpl in E; lia.
  apply Forall_cons in Hl' as [Ha' Hl']. rewrite !bind_cons in E. pose proof (attribute_bytes_length a) as Hlen.
  destruct (attribute_bytes a ++ _) as [|k1 [|k2 [|n1 [|n2 body]]]] eqn:E1;
    try (apply (f_equal length) in E1; rewrite length_app in E1; simpl in E1; lia).
  symmetry in E1. apply attribute_head in E1 as (Ek & En & ->), E as (Ek' & En' & Eb); [|done..].
  rewrite En in En'. assert (Ev : a_value a = a_value a').
  { apply (f_equal (take (length (a_value a)))) in Eb. rewrite take_app_length in Eb. by rewrite En', take_app_length in Eb. }
  rewrite Ev in Eb. apply app_inv_head in Eb. f_equal; [|by apply IH].
  destruct a, a'; simpl in *. congruence.
Qed.

Lemma attribute_head_ok k1 k2 n1 n2 body size :
  size = Z.to_nat (be_int [n1; n2]) → (size ≤ length body)%nat →
  let a := mkAttribute (be_int [k1; k2]) (take size body) in
  attribute_ok a ∧ k1 :: k2 :: n1 :: n2 :: body = attribute_bytes a ++ drop size body.
Proof.
  intros -> Hl a. pose proof (be_int_range [k1; k2]) as Hk. pose proof (be_int_range [n1; n2]) as Hn.
  change (256 ^ _) with 65536 in Hk, Hn. set (size := Z.to_nat _) in *.
  assert (Hlen : len (take size body) = be_int [n1; n2]) by (unfold len; rewrite length_take; lia).
  split; [split; subst a; cbn [a_kind a_value]; lia|]. unfold attribute_bytes; subst a; cbn [a_kind a_value].
  rewrite Hlen, !be_bytes_be_int by done. simpl. by rewrite take_drop.
Qed.

Lemma decode_attributes_from_exact pre s acc r :
  len acc ≤ MAX_COMPONENT_ATTRIBUTES →
  decode_attributes_from (pre ++ s) (length pre) acc = Ok r ↔
  ∃ l, r = acc ++ l ∧ s = l ≫= attribute_bytes ∧ Forall attribute_ok l ∧ len r ≤ MAX_COMPONENT_ATTRIBUTES.
Proof.
  remember (length s) as m eqn:Hm. assert (Hle : (length s ≤ m)%nat) by lia. clear Hm.
  revert pre s acc r Hle. induction m as [m IH] using lt_wf_ind; intros pre s acc r Hle Hacc.
  rewrite decode_attributes_from_step.
  assert (Hshort : (0 < length s < 4)%nat → ∀ l, s = l ≫= attribute_bytes → False).
  { intros Hs [|a l] ->; [simpl in Hs; lia|]. rewrite bind_cons, length_app, attribute_bytes_length in Hs. lia. }
  destruct s as [|k1 [|k2 [|n1 [|n2 body]]]].
  1:{ split.
    - intros [= <-]. exists []. by rewrite app_nil_r.
    - intros ([|a l] & -> & E & _); [by rewrite app_nil_r|].
      apply (f_equal length) in E. rewrite bind_cons, length_app, attribute_bytes_length in E. simpl in E. lia. }
  1-3: split; [done|]; intros (l & _ & E & _); exfalso; eapply Hshort; [|done]; simpl; lia.
  cbv zeta. set (size := Z.to_nat _). case_bool_decide as Hmax.
  { split; [done|]. intros ([|a l] & -> & E & _ & Hr); [done|]. len_lia. }
  case_bool_decide as Hb.
  { split; [done|]. intros ([|a l] & -> & E & Hl & Hr); [done|].
    rewrite bind_cons in E. apply attribute_head in E as (_ & Hs & ->); [|by apply Forall_cons in Hl as [? _]].
    unfold size in Hb. rewrite Hs in Hb. len_lia. }
  destruct (attribute_head_ok k1 k2 n1 n2 body size eq_refl ltac:(lia)) as [Hok Es].
  rewrite (IH (length (drop size body))); [|simpl in Hle; rewrite length_drop; lia|done|len_lia]. split.
  - intros (l & -> & El & Hl & Hr). exists (mkAttribute (be_int [k1; k2]) (take size body) :: l).
    rewrite <- app_assoc in *. split; [done|]. split; [rewrite Es, El; done|]. split; [by constructor|done].
  - intros ([|a l] & -> & E & Hl & Hr); [done|]. rewrite bind_cons in E.
    apply Forall_cons in Hl as [Ha Hl]. apply attribute_head in E as (Ek & Hs & ->); [|done].
    fold size in Hs. rewrite Hs, Ek, take_app_length, drop_app_length. exists l. rewrite <- app_assoc.
    by destruct a.
Qed.

Lemma decode_attributes_exact data l :
  decode_attributes data = Ok l ↔
  len data ≤ MAX_COMPONENT_BYTES ∧ data = l ≫= attribute_bytes ∧ Forall attribute_ok l
  ∧ len l ≤ MAX_COMPONENT_ATTRIBUTES.
Proof.
  unfold decode_attributes. rewrite bounded_bind. pose proof (decode_attributes_from_exact [] data [] l ltac:(done)) as E.
  simpl in E. rewrite E. naive_solver.
Qed.

Lemma attributes_snoc l a : (l ++ [a]) ≫= attribute_bytes = (l ≫= attribute_bytes) ++ attribute_bytes a.
Proof. rewrite bind_app, bind_cons. simpl. by rewrite app_nil_r. Qed.

(** Octets that parse as attributes none of which is of a kind, with room for one more. *)
Definition open_for (kind : Z) (data : bytes) : Prop :=
  ∃ l, decode_attributes data = Ok l ∧ len l < MAX_COMPONENT_ATTRIBUTES ∧ Forall (λ a, a_kind a ≠ kind) l.

Lemma existsb_kind kind (l : list Attribute) :
  existsb (λ a, bool_decide (a_kind a = kind)) l = false ↔ Forall (λ a, a_kind a ≠ kind) l.
Proof.
  induction l as [|a l IH]; simpl; [by split|].
  rewrite orb_false_iff, bool_decide_eq_false, IH, Forall_cons. done.
Qed.

Lemma without_trailer_exact data kind unsigned t :
  0 ≤ kind ≤ 0xFFFF →
  without_trailer data kind = Ok (unsigned, t) ↔
  open_for kind unsigned ∧ length t = 8%nat ∧ data = unsigned ++ attribute_bytes (mkAttribute kind t)
  ∧ len data ≤ MAX_COMPONENT_BYTES.
Proof.
  intros Hkind. unfold without_trailer. split.
  - intros (l & Hd & E)%result_bind_Ok. destruct (list.last l) as [tr|] eqn:Hlast; [|done].
    apply last_Some in Hlast as [l' ->]. rewrite removelast_last in E.
    apply wsc_check_bind in E as [Hc [= <- <-]]. bools.
    match goal with H : existsb _ _ = false |- _ => apply existsb_kind in H end.
    apply decode_attributes_exact in Hd as (Hb & -> & Hok & Hn). apply Forall_app in Hok as [Hok Htr].
    rewrite attributes_snoc, length_app, attribute_bytes_length.
    rewrite attributes_snoc, len_app in Hb. rewrite len_app in Hn.
    rewrite take_app_exact by lia. split; [|split; [done|split; [destruct tr; simpl in *; by subst|by rewrite len_app]]].
    exists l'. split; [apply decode_attributes_exact; split; [unfold len in *; lia|]|]; [split; [done|split; [done|]]|split];
      [len_lia..|done].
  - intros ((l & Hd & Hn & Hk) & Ht & -> & Hb). apply decode_attributes_exact in Hd as (_ & -> & Hok & _).
    assert (Hd : decode_attributes ((l ≫= attribute_bytes) ++ attribute_bytes (mkAttribute kind t)) = Ok (l ++ [mkAttribute kind t])).
    { apply decode_attributes_exact. split; [done|]. rewrite attributes_snoc. split; [done|].
      split; [|len_lia]. apply Forall_app. split; [done|]. apply Forall_singleton. split; simpl; len_lia. }
    rewrite Hd. cbn [mbind result_mbind]. rewrite last_snoc, removelast_last. cbn [a_kind a_value].
    rewrite !bool_decide_eq_true_2 by done. apply existsb_kind in Hk as ->. simpl.
    rewrite length_app, attribute_bytes_length. simpl. rewrite take_app_exact by lia. done.
Qed.

(** ** Keys and tags *)

Section Theory.
Context {H : Hash} {C : Crypto}.

Lemma tag_length keys data : length (tag keys data) = 8%nat.
Proof. unfold tag. rewrite length_take, hmac_length. done. Qed.

Lemma trailer_Ok kind keys data b :
  0 ≤ kind ≤ 0xFFFF →
  encode_attribute kind (tag keys data) = Ok b ↔ b = attribute_bytes (mkAttribute kind (tag keys data)).
Proof.
  intros Hk. rewrite encode_attribute_Ok. split; [by intros []|]. intros ->. split; [|done].
  split; simpl; [done|]. unfold len. rewrite tag_length. lia.
Qed.

Lemma open_for_checks {A} kind data (k : list Attribute → unit → result A) r :
  (attributes ← decode_attributes data;
   _ ← wsc_check (bool_decide (len attributes < MAX_COMPONENT_ATTRIBUTES)
                  && negb (existsb (λ a, bool_decide (a_kind a = kind)) attributes));
   k attributes tt) = Ok r ↔
  open_for kind data ∧ ∃ attributes, decode_attributes data = Ok attributes ∧ k attributes tt = Ok r.
Proof.
  unfold open_for. rewrite result_bind_Ok. setoid_rewrite wsc_check_bind. setoid_rewrite andb_true_iff.
  setoid_rewrite negb_true_iff. setoid_rewrite bool_decide_eq_true. setoid_rewrite existsb_kind. split.
  - intros (l & Hd & [Hn Hf] & Hk). eauto 10.
  - intros [(l & Hd & Hn & Hf) (l' & Hd' & Hk)]. rewrite Hd in Hd'. injection Hd' as <-. eauto 10.
Qed.

Lemma authenticate_message_Ok keys previous current m :
  authenticate_message keys previous current = Ok m ↔
  len previous ≤ MAX_COMPONENT_BYTES ∧ open_for AUTHENTICATOR current ∧ len m ≤ MAX_COMPONENT_BYTES
  ∧ m = current ++ attribute_bytes (mkAttribute AUTHENTICATOR (tag keys (previous ++ current))).
Proof.
  unfold authenticate_message. rewrite bounded_bind, (open_for_checks _ _ (λ _ _, _)).
  split.
  - intros (Hp & Ho & l & Hl & (t & ->%trailer_Ok & [? ->]%component_bounded)%result_bind_Ok); done.
  - intros (Hp & Ho & Hm & ->). split; [done|]. split; [done|]. destruct Ho as (l & Hl & _). exists l. split; [done|].
    apply result_bind_Ok. eexists. split; [by apply trailer_Ok|by apply component_bounded].
Qed.

Lemma verify_authenticate keys previous current unsigned :
  verify_message keys previous current = Ok unsigned ↔ authenticate_message keys previous unsigned = Ok current.
Proof.
  unfold verify_message. rewrite bounded_bind, authenticate_message_Ok, result_bind_Ok. split.
  - intros (Hp & [u t] & (Ho & Ht & -> & Hb)%without_trailer_exact & (Hc & [= <-])%wsc_check_bind); [|done].
    bools. subst t. done.
  - intros (Hp & Ho & Hm & ->). split; [done|]. eexists (unsigned, _). split.
    + apply without_trailer_exact; [done|]. split; [done|]. split; [|done]. apply tag_length.
    + simpl. by rewrite bool_decide_eq_true_2.
Qed.

Lemma derive_Ok self peer en mac rn keys :
  derive self peer en mac rn = Ok keys →
  length (key_wrap_key keys) = 16%nat ∧ length peer = 192%nat ∧ admitted (be_int peer) = true.
Proof.
  unfold derive. rewrite !sized_bind, wsc_check_bind. intros (Hp & _ & _ & _ & Hy & E).
  destruct (dh_exchange _ _); [|done]. unfold SessionKeys_init in E. rewrite !sized_bind in E.
  destruct E as (_ & Hk & _ & [= <-]). done.
Qed.

Context {L : CryptoLaws C}.

Lemma be_int_public a : admitted (public_number a) = true → be_int (public a) = public_number a.
Proof.
  unfold admitted, public. intros Ha. apply andb_prop in Ha as [Ha _]. apply bool_decide_eq_true in Ha.
  apply be_int_be_bytes. pose proof modulus_fits. change (Z.of_nat 192) with 192. lia.
Qed.

(** Both sides of an exchange derive the same keys. *)
Lemma derive_agree a b en mac rn keys :
  admitted (public_number a) = true → admitted (public_number b) = true →
  derive b (public a) en mac rn = Ok keys → derive a (public b) en mac rn = Ok keys.
Proof.
  intros Ha Hb. destruct (dh_agree a b Hb) as [_ Hagree].
  unfold derive. rewrite !be_int_public, Ha, Hb, Hagree by done.
  unfold public, sized. rewrite !be_bytes_length. done.
Qed.

Lemma decrypt_encrypt keys iv plain encrypted :
  length (key_wrap_key keys) = 16%nat → length iv = 16%nat →
  encrypt_settings iv keys plain = Ok encrypted →
  decrypt_settings keys encrypted = Ok plain ∧ 32 ≤ len encrypted ≤ 0xFFFF.
Proof.
  intros Hk Hiv. unfold encrypt_settings. rewrite (open_for_checks _ _ (λ _ _, _)).
  intros (Ho & _ & _ & (Hsize & (t & ->%trailer_Ok & [Hb ->]%component_bounded)%result_bind_Ok)%wsc_check_bind); [|done].
  bools. set (signed := plain ++ _). assert (Hsigned : len signed = len plain + 12).
  { unfold signed, len. rewrite length_app, attribute_bytes_length. simpl. rewrite tag_length. lia. }
  pose proof (pkcs7_length signed) as Hpad. rewrite Hsigned in Hpad.
  assert (Hlen : len (iv ++ cbc_encrypt (key_wrap_key keys) iv (pkcs7_pad signed)) = 16 + len (pkcs7_pad signed)).
  { unfold len. rewrite length_app, cbc_length, Hiv. lia. }
  assert (Hq : 0 ≤ (len plain + 12) / 16) by (apply Z.div_pos; unfold len; lia).
  fold signed in Hb. split; [|lia]. unfold decrypt_settings. rewrite Hlen in *. rewrite bounded_bind. split; [lia|].
  rewrite wsc_check_bind, andb_true_iff, !bool_decide_eq_true. split.
  { split; [lia|]. rewrite Hpad. replace (16 + _) with ((1 + ((len plain + 12) / 16 + 1)) * 16) by lia. apply Z_mod_mult. }
  rewrite take_app_exact, drop_app_exact by lia. rewrite cbc_inverse, pkcs7_inverse; [|done|done|rewrite Hpad; apply Z_mod_mult].
  rewrite (proj2 (without_trailer_exact signed KEY_WRAP_AUTHENTICATOR plain (tag keys plain) ltac:(done))); simpl.
  - by rewrite bool_decide_eq_true_2.
  - split; [done|]. split; [apply tag_length|]. split; [done|]. unfold MAX_COMPONENT_BYTES.
    pose proof (Z.div_mod (len plain + 12) 16 ltac:(done)). pose proof (Z.mod_pos_bound (len plain + 12) 16 ltac:(done)). lia.
Qed.

End Theory.

(** ** The laws can hold

    A group of eleven elements, a stream in place of the block cipher, and the padding of RFC 5652. *)

Definition toy_pad (d : bytes) : bytes :=
  let n := (16 - len d mod 16) in d ++ replicate (Z.to_nat n) (Z_to_byte n).
Definition toy_unpad (d : bytes) : option bytes :=
  b ← list.last d; Some (take (length d - Z.to_nat (byte_to_Z b)) d).
Definition toy_stream (k iv d : bytes) : bytes := xor_octets (octet_at 0 k) d.

Definition toy_crypto : Crypto := {|
  modulus := 23;
  private_key := nat;
  public_number k := 2 ^ Z.of_nat k mod 23;
  dh_exchange k y := Some (be_bytes 1 (y ^ Z.of_nat k mod 23));
  cbc_encrypt := toy_stream;
  cbc_decrypt := toy_stream;
  pkcs7_pad := toy_pad;
  pkcs7_unpad := toy_unpad |}.

Lemma lxor_octet x z : 0 ≤ x < 256 → 0 ≤ z < 256 → 0 ≤ Z.lxor x z < 256.
Proof.
  intros Hx Hz. assert (H0 : 0 ≤ Z.lxor x z) by (apply Z.lxor_nonneg; lia). split; [done|].
  destruct (decide (Z.lxor x z = 0)) as [->|Hne]; [lia|]. apply (Z.log2_lt_pow2 _ 8); [lia|].
  eapply Z.le_lt_trans; [apply Z.log2_lxor; lia|]. apply Z.max_lub_lt.
  - destruct (decide (x = 0)) as [->|]; [done|]. apply Z.log2_lt_pow2; lia.
  - destruct (decide (z = 0)) as [->|]; [done|]. apply Z.log2_lt_pow2; lia.
Qed.

Lemma xor_octets_twice z b : 0 ≤ z < 256 → xor_octets z (xor_octets z b) = b.
Proof.
  intros Hz. unfold xor_octets. rewrite <- list_fmap_compose. rewrite <- (list_fmap_id b) at 2. apply list_fmap_ext.
  intros _ x _. simpl. rewrite byte_to_Z_to_byte_small by (apply lxor_octet; [apply byte_to_Z_range|done]).
  by rewrite Z.lxor_assoc, Z.lxor_nilpotent, Z.lxor_0_r, Z_to_byte_to_Z.
Qed.

#[export] Instance toy_laws : CryptoLaws toy_crypto.
Proof.
  split; simpl.
  - done.
  - intros a b _. split; [eauto|]. do 2 f_equal. rewrite <- !Zpower_mod by lia. rewrite <- !Z.pow_mul_r by lia.
    by rewrite Z.mul_comm.
  - intros k iv d. apply length_fmap.
  - intros k iv d _ _ _. apply xor_octets_twice, octet_at_range.
  - intros d. unfold toy_pad. rewrite len_app. unfold len at 2. rewrite length_replicate.
    pose proof (Z.div_mod (len d) 16 ltac:(done)). pose proof (Z.mod_pos_bound (len d) 16 ltac:(done)). lia.
  - intros d. unfold toy_pad, toy_unpad. pose proof (Z.mod_pos_bound (len d) 16 ltac:(done)) as Hm.
    set (n := 16 - _). replace (Z.to_nat n) with (S (Z.to_nat n - 1)) by lia.
    rewrite replicate_S_end, app_assoc, last_snoc. simpl. rewrite byte_to_Z_to_byte_small by lia.
    rewrite <- app_assoc, <- replicate_S_end. rewrite length_app, length_replicate.
    f_equal. apply take_app_exact. lia.
Qed.

(** * Properties *)

(** Verification accepts exactly the messages authentication makes: with the same keys and the same
    previous message, [verify_message] returns the octets before the trailer of a message if and only if
    [authenticate_message] makes that message of those octets. *)
Theorem verification_exact `{Hash} `{Crypto} (keys : SessionKeys) (previous current unsigned : bytes) :
  verify_message keys previous current = Ok unsigned ↔ authenticate_message keys previous unsigned = Ok current.
Proof. apply verify_authenticate. Qed.
