(* ===== verification/WscMessages.v ===== *)
(** * M1 and M2: [src/emosa/wsc_messages.py]

    The fields of WSC messages, the M1 an exchange starts with and the authentication of the M2s that
    answer it. Random octets (nonces, key pairs) are arguments; the cryptography is that of [Wsc]. *)

From Equations Require Import Equations.
From S2P Require Import Prelude Bytes Cmdu Digest Wsc.

Definition VERSION : Z := 0x104A.
Definition MESSAGE_TYPE : Z := 0x1022.
Definition ENROLLEE_NONCE : Z := 0x101A.
Definition REGISTRAR_NONCE : Z := 0x1039.
Definition PUBLIC_KEY : Z := 0x1032.
Definition VENDOR_EXTENSION : Z := 0x1049.
Definition ENCRYPTED_SETTINGS : Z := 0x1018.
Definition BSS_INDEX : Z := 0x1BBC.
Definition WFA_ID : bytes := octets [0x00; 0x37; 0x2a].
Definition MAX_M2_PAYLOADS : Z := 16.
Definition MAX_VENDOR_SUBELEMENTS : Z := 4096.

(** The length of a field: bounds, equal where the code has one number. *)
Abbreviation lengths := (gmap Z (Z * Z)).
Definition exactly (n : Z) : Z * Z := (n, n).

Definition COMMON_LENGTHS : lengths := list_to_map [
  (VERSION, exactly 1); (MESSAGE_TYPE, exactly 1); (ENROLLEE_NONCE, exactly 16); (PUBLIC_KEY, exactly 192);
  (0x1004, exactly 2); (0x1010, exactly 2); (0x100D, exactly 1); (0x1008, exactly 2); (0x1054, exactly 8);
  (0x103C, exactly 1); (0x1002, exactly 2); (0x1012, exactly 2); (0x1009, exactly 2); (0x102D, exactly 4)].

Definition DEVICE_STRINGS : gmap Z Z := list_to_map [
  (0x1021, 64); (0x1023, 32); (0x1024, 32); (0x1042, 32); (0x1011, 32)].

(** [_invalid()] and [if not ok: raise _invalid()] *)
Definition msg_invalid {A} : result A := Raise (mkEmosaError INVALID_INPUT "invalid WSC message payload").
Definition msg_check (ok : bool) : result unit := if ok then Ok tt else msg_invalid.

(** [_uint(value, size)] *)
Definition msg_uint (value : Z) (size : nat) : result bytes :=
  _ ← msg_check (bool_decide (0 ≤ value < 2 ^ (8 * Z.of_nat size)));
  Ok (be_bytes size value).

(** [_singletons(attributes, required, optional)] *)
Definition singletons_step (all : lengths) (fields : gmap Z bytes) (a : Attribute) : result (gmap Z bytes) :=
  match all !! a_kind a with
  | None => Ok fields
  | Some bounds =>
      _ ← msg_check (bool_decide (fields !! a_kind a = None));
      _ ← msg_check (bool_decide (bounds.1 ≤ len (a_value a) ≤ bounds.2));
      Ok (<[a_kind a := a_value a]> fields)
  end.

Definition singletons (attributes : list Attribute) (required optional : lengths) : result (gmap Z bytes) :=
  fields ← fold_result (singletons_step (optional ∪ required)) ∅ attributes;
  _ ← msg_check (bool_decide (map_Forall (λ k _, is_Some (fields !! k)) required));
  Ok fields.

(** [fields[kind]] *)
Definition field (kind : Z) (fields : gmap Z bytes) : result bytes :=
  match fields !! kind with Some v => Ok v | None => Raise (key_error "attribute") end.

(** The [while offset < len(value)] loop of [vendor_subelements]. *)
Equations? subelements_from (value : bytes) (offset : nat) (found : list Attribute) :
    result (list Attribute) by wf (length value - offset)%nat lt :=
  subelements_from value offset found with decide (offset < length value)%nat => {
    | right _ => Ok found;
    | left _ with decide (length value - offset < 2)%nat => {
        | left _ => msg_invalid;
        | right _ =>
            let kind := octet_at offset value in
            let size := Z.to_nat (octet_at (offset + 1) value) in
            let start := (offset + 2)%nat in
            if bool_decide (length value - start < size)%nat then msg_invalid
            else if bool_decide (len found = MAX_VENDOR_SUBELEMENTS) then msg_invalid
            else subelements_from value (start + size)
                   (found ++ [mkAttribute kind (slice start (start + size) value)])
      } }.
Proof. lia. Qed.

(** [vendor_subelements(attributes)] *)
Definition vendor_subelements (attributes : list Attribute) : result (list Attribute) :=
  fold_result (λ found a,
    if negb (bool_decide (a_kind a = VENDOR_EXTENSION)) then Ok found
    else
      let value := a_value a in
      _ ← msg_check (bool_decide (4 ≤ len value ≤ 1024));
      if negb (bool_decide (take 3 value = WFA_ID)) then Ok found
      else subelements_from value 3 found) [] attributes.

(** [attributes[-2].kind] of at least two attributes *)
Definition last_but_one (attributes : list Attribute) : option Attribute :=
  attributes !! (length attributes - 2)%nat.

(** The fields an M1 (4) or an M2 (5) must have. *)
Definition required_fields (message_type : Z) : lengths :=
  (if bool_decide (message_type = 4)
   then list_to_map [(0x1047, exactly 16); (0x1020, exactly 6); (0x1044, exactly 1)]
   else list_to_map [(REGISTRAR_NONCE, exactly 16); (0x1048, exactly 16); (AUTHENTICATOR, exactly 8)])
  ∪ ((λ n, (0, n)) <$> DEVICE_STRINGS) ∪ COMMON_LENGTHS.

Definition OPTIONAL_FIELDS : lengths := list_to_map [(BSS_INDEX, exactly 1); (ENCRYPTED_SETTINGS, (32, 65535))].

(** [_message(data, message_type)] *)
Definition wsc_message (data : bytes) (message_type : Z) : result (list Attribute * gmap Z bytes) :=
  attributes ← decode_attributes data;
  fields ← singletons attributes (required_fields message_type) OPTIONAL_FIELDS;
  kind ← field MESSAGE_TYPE fields;
  _ ← msg_check (bool_decide (kind = octets [message_type]));
  subelements ← vendor_subelements attributes;
  let versions := a_value <$> filter (λ a, a_kind a = 0) subelements in
  _ ← msg_check (match versions with [] => true | [v] => bool_decide (length v = 1%nat) | _ => false end);
  _ ← msg_check (negb (bool_decide (is_Some (fields !! BSS_INDEX))
                  && (bool_decide (message_type ≠ 5) || bool_decide (length attributes < 2)%nat
                      || negb (bool_decide (a_kind <$> last_but_one attributes = Some BSS_INDEX)))));
  Ok (attributes, fields).

(** ** The device an M1 represents *)

Record M1Device := mkM1Device {
  uuid : bytes;
  m1_al_mac : bytes;
  authentication_types : Z;
  encryption_types : Z;
  connection_types : Z;
  configuration_methods : Z;
  wps_state : Z;
  manufacturer : bytes;
  model_name : bytes;
  model_number : bytes;
  serial_number : bytes;
  primary_device_type : bytes;
  device_name : bytes;
  rf_band : Z;
  association_state : Z;
  device_password_id : Z;
  configuration_error : Z;
  os_version : Z
}.

(** [M1Device.attributes] *)
Definition device_attributes (self : M1Device) : result (list Attribute) :=
  os ← msg_uint (os_version self) 4;
  let os := Z_to_byte (Z.lor (octet_at 0 os) 0x80) :: drop 1 os in
  at' ← msg_uint (authentication_types self) 2;
  et ← msg_uint (encryption_types self) 2;
  ct ← msg_uint (connection_types self) 1;
  cm ← msg_uint (configuration_methods self) 2;
  ws ← msg_uint (wps_state self) 1;
  rf ← msg_uint (rf_band self) 1;
  as' ← msg_uint (association_state self) 2;
  dp ← msg_uint (device_password_id self) 2;
  ce ← msg_uint (configuration_error self) 2;
  let values := [
    mkAttribute 0x1047 (uuid self); mkAttribute 0x1020 (m1_al_mac self); mkAttribute 0x1004 at';
    mkAttribute 0x1010 et; mkAttribute 0x100D ct; mkAttribute 0x1008 cm; mkAttribute 0x1044 ws;
    mkAttribute 0x1021 (manufacturer self); mkAttribute 0x1023 (model_name self);
    mkAttribute 0x1024 (model_number self); mkAttribute 0x1042 (serial_number self);
    mkAttribute 0x1054 (primary_device_type self); mkAttribute 0x1011 (device_name self);
    mkAttribute 0x103C rf; mkAttribute 0x1002 as'; mkAttribute 0x1012 dp; mkAttribute 0x1009 ce;
    mkAttribute 0x102D os] in
  _ ← msg_check (bool_decide (rf_band self ∈ [1; 2; 4; 8]) && bool_decide (wps_state self ∈ [1; 2]));
  _ ← check_each (λ a, msg_check (negb (bool_decide (is_Some (DEVICE_STRINGS !! a_kind a))
                                        && bool_decide (Z_to_byte 0 ∈ a_value a)))) values;
  Ok values.

(** ** Settings *)

Record APSettings := mkAPSettings {
  s_ssid : bytes;
  authentication_type : Z;
  encryption_type : Z;
  network_key : bytes;
  mac_address : bytes;
  s_attributes : list Attribute
}.

#[export] Instance APSettings_eq_dec : EqDecision APSettings.
Proof. solve_decision. Defined.

Definition SETTINGS_FIELDS : lengths := list_to_map [
  (0x1045, (0, 32)); (0x1003, exactly 2); (0x100F, exactly 2); (0x1027, (0, 64)); (0x1020, exactly 6)].
Definition SETTINGS_OPTIONAL : lengths := list_to_map [
  (0x1028, exactly 1); (0x102A, (0, 64)); (0x1012, exactly 2)].

(** [APSettings.parse] *)
Definition parse_settings (attributes : list Attribute) : result APSettings :=
  settings ← singletons attributes SETTINGS_FIELDS SETTINGS_OPTIONAL;
  _ ← msg_check (negb (bool_decide (is_Some (settings !! 0x102A)) && bool_decide (settings !! 0x1012 = None)));
  ssid ← field 0x1045 settings;
  auth ← field 0x1003 settings;
  encr ← field 0x100F settings;
  key ← field 0x1027 settings;
  mac ← field 0x1020 settings;
  Ok (mkAPSettings ssid (be_int auth) (be_int encr) key mac attributes).

Record AuthenticatedM2 := mkAuthenticatedM2 {
  m2_registrar_nonce : bytes;
  m2_registrar_uuid : bytes;
  m2_bss_index : option Z;
  m2_settings : APSettings;
  m2_attributes : list Attribute
}.

Record AuthenticatedM2Envelope := mkEnvelope {
  registrar_nonce : bytes;
  registrar_uuid : bytes;
  bss_index : option Z;
  config_data : list Attribute;
  e_attributes : list Attribute
}.

(** [AuthenticatedM2Envelope.ap_configuration] *)
Definition ap_configuration (self : AuthenticatedM2Envelope) : result AuthenticatedM2 :=
  settings ← parse_settings (config_data self);
  Ok (mkAuthenticatedM2 (registrar_nonce self) (registrar_uuid self) (bss_index self) settings (e_attributes self)).

(** ** The transcript of one M1 *)

Section Transcript.
Context {H : Hash} {C : Crypto}.

Record M1Transcript := mkM1Transcript { tr_message : bytes; key_pair : private_key }.

Definition encode_attributes (l : list Attribute) : result bytes :=
  @concat byte <$> map_result (λ a, encode_attribute (a_kind a) (a_value a)) l.

(** [M1Transcript.create]; [pair] is [KeyPair.generate()], [nonce] [secrets.token_bytes(16)]. *)
Definition create (device : M1Device) (pair : private_key) (nonce : bytes) : result M1Transcript :=
  facts ← device_attributes device;
  message ← encode_attributes
    ([mkAttribute VERSION (octets [0x10]); mkAttribute MESSAGE_TYPE (octets [0x04])]
     ++ take 2 facts
     ++ [mkAttribute ENROLLEE_NONCE nonce; mkAttribute PUBLIC_KEY (public pair)]
     ++ drop 2 facts
     ++ [mkAttribute VENDOR_EXTENSION (WFA_ID ++ octets [0x00; 0x01; 0x20])]);
  _ ← wsc_message message 4;
  Ok (mkM1Transcript message pair).

(** [authenticate_m2_envelope] *)
Definition authenticate_m2_envelope (self : M1Transcript) (message : bytes) : result AuthenticatedM2Envelope :=
  '(_, enrollee) ← wsc_message (tr_message self) 4;
  '(attributes, registrar) ← wsc_message message 5;
  ours ← field PUBLIC_KEY enrollee;
  en ← field ENROLLEE_NONCE enrollee;
  echoed ← field ENROLLEE_NONCE registrar;
  _ ← msg_check (bool_decide (public (key_pair self) = ours) && bool_decide (en = echoed));
  theirs ← field PUBLIC_KEY registrar;
  mac ← field 0x1020 enrollee;
  rn ← field REGISTRAR_NONCE registrar;
  keys ← derive (key_pair self) theirs en mac rn;
  _ ← verify_message keys (tr_message self) message;
  match registrar !! ENCRYPTED_SETTINGS with
  | None => Raise (mkEmosaError UNSUPPORTED_OPERATION "M2 without AP settings needs another WSC procedure")
  | Some encrypted =>
      plain ← decrypt_settings keys encrypted;
      settings_attributes ← decode_attributes plain;
      _ ← vendor_subelements settings_attributes;
      ruuid ← field 0x1048 registrar;
      Ok (mkEnvelope rn ruuid (octet_at 0 <$> registrar !! BSS_INDEX) settings_attributes attributes)
  end.

(** [authenticate_m2] *)
Definition authenticate_m2 (self : M1Transcript) (message : bytes) : result AuthenticatedM2 :=
  envelope ← authenticate_m2_envelope self message;
  ap_configuration envelope.

(** [len(set(l)) == len(l)] and [len(set(l)) == 1] *)
Definition distinct `{EqDecision A} (l : list A) : bool := bool_decide (NoDup l).
Definition all_one `{Countable A} (l : list A) : bool := bool_decide (size (list_to_set l : gset A) = 1%nat).

(** [authenticate_m2_envelopes] *)
Definition authenticate_m2_envelopes (self : M1Transcript) (messages : list bytes) (max_bss : Z)
    (shared_session : bool) : result (list AuthenticatedM2Envelope) :=
  _ ← msg_check (bool_decide (1 ≤ max_bss ≤ MAX_M2_PAYLOADS));
  _ ← msg_check (bool_decide (1 ≤ len messages ≤ max_bss));
  results ← map_result (authenticate_m2_envelope self) messages;
  let nonces := registrar_nonce <$> results in
  let indexes := omap bss_index results in
  _ ← msg_check
        (if shared_session then
           let publics := a_value <$> filter (λ a, a_kind a = PUBLIC_KEY) (results ≫= e_attributes) in
           all_one nonces && all_one publics && distinct messages
         else distinct nonces);
  _ ← msg_check (distinct indexes);
  Ok results.

(** [authenticate_m2_batch] *)
Definition authenticate_m2_batch (self : M1Transcript) (messages : list bytes) (max_bss : Z) :
    result (list AuthenticatedM2) :=
  envelopes ← authenticate_m2_envelopes self messages max_bss false;
  map_result ap_configuration envelopes.

End Transcript.

(** * Theory *)

Lemma msg_check_bind {A} b (k : unit → result A) a : msg_check b ≫= k = Ok a ↔ b = true ∧ k tt = Ok a.
Proof. destruct b; simpl; naive_solver. Qed.

Lemma field_Ok k fields v : field k fields = Ok v ↔ fields !! k = Some v.
Proof. unfold field. destruct (fields !! k); naive_solver. Qed.

(** The loop of [singletons] keeps, for each consumed kind, the one attribute of that kind. *)
Lemma singletons_loop all l fields :
  fold_result (singletons_step all) ∅ l = Ok fields →
  ∀ k v, fields !! k = Some v ↔ mkAttribute k v ∈ l ∧ is_Some (all !! k).
Proof.
  apply (fold_result_prefix _ (λ l fields, ∀ k v, fields !! k = Some v ↔ mkAttribute k v ∈ l ∧ is_Some (all !! k))).
  { intros k v. rewrite lookup_empty, elem_of_nil. naive_solver. }
  intros l' acc [k0 v0] acc' IH Hstep k v. unfold singletons_step in Hstep. cbn [a_kind a_value] in Hstep.
  rewrite elem_of_app, list_elem_of_singleton. destruct (all !! k0) as [bounds|] eqn:Ek.
  - apply msg_check_bind in Hstep as [Hn Hstep]. apply msg_check_bind in Hstep as [_ [= <-]]. bools.
    destruct (decide (k = k0)) as [->|Hne].
    + rewrite lookup_insert_eq. split; [naive_solver|]. intros [[Hin|[= ->]] _]; [|done].
      assert (Hs : acc !! k0 = Some v) by (apply IH; eauto). congruence.
    + rewrite lookup_insert_ne, IH by done. naive_solver.
  - injection Hstep as <-. rewrite IH. split; [naive_solver|]. intros [[?|[= -> ->]] [b Hb]]; [eauto|congruence].
Qed.

Lemma singletons_Ok l required optional fields :
  singletons l required optional = Ok fields →
  (∀ k v, fields !! k = Some v ↔ mkAttribute k v ∈ l ∧ is_Some ((optional ∪ required) !! k))
  ∧ (∀ k, is_Some (required !! k) → is_Some (fields !! k)).
Proof.
  unfold singletons. intros (f & Hf & E)%result_bind_Ok. apply msg_check_bind in E as [Hr [= ->]]. bools.
  split; [by apply singletons_loop|]. intros k [b Hb]. by apply (Hr k b).
Qed.

(** The fields of an accepted message are its attributes of the consumed kinds. *)
Lemma wsc_message_Ok data t attributes fields :
  wsc_message data t = Ok (attributes, fields) →
  decode_attributes data = Ok attributes
  ∧ (∀ k v, fields !! k = Some v ↔ mkAttribute k v ∈ attributes ∧ is_Some ((OPTIONAL_FIELDS ∪ required_fields t) !! k))
  ∧ (∀ k, is_Some (required_fields t !! k) → is_Some (fields !! k)).
Proof.
  unfold wsc_message. intros (l & Hl & (f & Hf & E)%result_bind_Ok)%result_bind_Ok.
  apply result_bind_Ok in E as (kind & _ & E). apply msg_check_bind in E as [_ E].
  apply result_bind_Ok in E as (subs & _ & E). apply msg_check_bind in E as [_ E].
  apply msg_check_bind in E as [_ [= -> ->]]. split; [done|]. by apply singletons_Ok.
Qed.

Lemma encode_attributes_Ok l b :
  encode_attributes l = Ok b ↔ Forall attribute_ok l ∧ b = l ≫= attribute_bytes.
Proof.
  unfold encode_attributes. rewrite result_fmap_Ok. setoid_rewrite map_result_Ok. split.
  - intros (bs & Hbs & <-). induction Hbs as [|a x l bs Ha _ [IH Eb]]; [done|].
    apply encode_attribute_Ok in Ha as [Ha ->]. destruct a. split; [by constructor|]. simpl. by rewrite Eb.
  - intros [Hl ->]. exists (attribute_bytes <$> l). induction Hl as [|a l Ha _ [IH Eb]]; [by split|].
    rewrite fmap_cons, bind_cons. cbn [concat]. rewrite Eb. split; [|done]. constructor; [|done].
    apply encode_attribute_Ok. by destruct a.
Qed.

(** ** A registrar that follows the procedure

    The peer of an exchange, made of the code's own derivation, encryption and authentication: it
    answers an M1 with the settings [plain], its key [b], its nonce and UUID and other attributes [extra]. *)
Section Registrar.
Context {H : Hash} {C : Crypto}.

Definition registrar_m2 (b : private_key) (m1 : bytes) (rn ruuid : bytes) (extra : list Attribute)
    (iv plain : bytes) : result bytes :=
  '(_, enrollee) ← wsc_message m1 4;
  theirs ← field PUBLIC_KEY enrollee;
  en ← field ENROLLEE_NONCE enrollee;
  mac ← field 0x1020 enrollee;
  keys ← derive b theirs en mac rn;
  encrypted ← encrypt_settings iv keys plain;
  body ← encode_attributes
    ([mkAttribute VERSION (octets [0x10]); mkAttribute MESSAGE_TYPE (octets [0x05]);
      mkAttribute ENROLLEE_NONCE en; mkAttribute REGISTRAR_NONCE rn; mkAttribute 0x1048 ruuid;
      mkAttribute PUBLIC_KEY (public b)] ++ extra ++ [mkAttribute ENCRYPTED_SETTINGS encrypted]);
  m2 ← authenticate_message keys m1 body;
  _ ← wsc_message m2 5;
  Ok m2.

(** What was encoded is what is decoded. *)
Lemma encode_decode l data l' : encode_attributes l = Ok data → decode_attributes data = Ok l' → l' = l.
Proof.
  intros [Hl ->]%encode_attributes_Ok (_ & E & Hl' & _)%decode_attributes_exact. symmetry. by apply attributes_inj.
Qed.

(** What [create] puts into an M1. *)
Lemma create_Ok device pair nonce tr :
  create device pair nonce = Ok tr →
  ∃ attributes enrollee,
    key_pair tr = pair ∧ wsc_message (tr_message tr) 4 = Ok (attributes, enrollee)
    ∧ enrollee !! PUBLIC_KEY = Some (public pair) ∧ enrollee !! ENROLLEE_NONCE = Some nonce.
Proof.
  unfold create. intros (facts & _ & (m & Hm & E)%result_bind_Ok)%result_bind_Ok.
  apply result_bind_Ok in E as ([attributes enrollee] & Hw & [= <-]). exists attributes, enrollee. split; [done|].
  split; [done|]. apply wsc_message_Ok in Hw as (Hd & Hf & _). pose proof (encode_decode _ _ _ Hm Hd) as ->.
  split; apply Hf; (split; [|by eexists]); rewrite !elem_of_app, !elem_of_cons; tauto.
Qed.

(** The attributes of an authenticated message: those that were encoded, and the authenticator. *)
Lemma authenticated_attributes keys m1 l body m2 t attributes fields :
  encode_attributes l = Ok body → authenticate_message keys m1 body = Ok m2 →
  wsc_message m2 t = Ok (attributes, fields) → ∃ trailer, attributes = l ++ [trailer].
Proof.
  intros [Hl ->]%encode_attributes_Ok (_ & _ & Hm & ->)%authenticate_message_Ok (Hd & _ & _)%wsc_message_Ok.
  apply decode_attributes_exact in Hd as (_ & E & Hok & _). exists (mkAttribute AUTHENTICATOR (tag keys (m1 ++ (l ≫= attribute_bytes)))).
  symmetry. apply attributes_inj; [|done|by rewrite <- E, attributes_snoc].
  apply Forall_app. split; [done|]. apply Forall_singleton. split; simpl; [done|]. unfold len. rewrite tag_length. lia.
Qed.

(** An M2 passes when each step of the procedure does. *)
Lemma envelope_run tr m2 at1 enrollee at2 registrar en mac rn theirs ruuid encrypted keys u plain settings subelements :
  wsc_message (tr_message tr) 4 = Ok (at1, enrollee) → wsc_message m2 5 = Ok (at2, registrar) →
  enrollee !! PUBLIC_KEY = Some (public (key_pair tr)) →
  enrollee !! ENROLLEE_NONCE = Some en → registrar !! ENROLLEE_NONCE = Some en → registrar !! PUBLIC_KEY = Some theirs →
  enrollee !! 0x1020 = Some mac → registrar !! REGISTRAR_NONCE = Some rn → registrar !! 0x1048 = Some ruuid →
  registrar !! ENCRYPTED_SETTINGS = Some encrypted → derive (key_pair tr) theirs en mac rn = Ok keys →
  verify_message keys (tr_message tr) m2 = Ok u → decrypt_settings keys encrypted = Ok plain →
  decode_attributes plain = Ok settings → vendor_subelements settings = Ok subelements →
  authenticate_m2_envelope tr m2 = Ok (mkEnvelope rn ruuid (octet_at 0 <$> registrar !! BSS_INDEX) settings at2).
Proof.
  intros H1 H2 E1 E2 R1 R2 E3 R3 R4 R5 Hk Hv Hdec Hset Hsub. unfold authenticate_m2_envelope.
  apply result_bind_Ok; eexists; split; [exact H1|]. apply result_bind_Ok; eexists; split; [exact H2|].
  do 3 (apply result_bind_Ok; eexists; split; [by apply field_Ok|]).
  apply msg_check_bind; split; [by rewrite !bool_decide_eq_true_2|].
  do 3 (apply result_bind_Ok; eexists; split; [by apply field_Ok|]).
  apply result_bind_Ok; eexists; split; [exact Hk|]. apply result_bind_Ok; eexists; split; [exact Hv|]. rewrite R5.
  apply result_bind_Ok; eexists; split; [exact Hdec|]. apply result_bind_Ok; eexists; split; [exact Hset|].
  apply result_bind_Ok; eexists; split; [exact Hsub|]. by apply result_bind_Ok; eexists; split; [by apply field_Ok|].
Qed.

(** The kinds a message of each type consumes. *)
Definition consumed (t k : Z) : bool := bool_decide (is_Some ((OPTIONAL_FIELDS ∪ required_fields t) !! k)).

Lemma wsc_field data t attributes fields k v :
  wsc_message data t = Ok (attributes, fields) → consumed t k = true → mkAttribute k v ∈ attributes → fields !! k = Some v.
Proof. intros (_ & Hf & _)%wsc_message_Ok Hk Hin. apply Hf. by apply bool_decide_eq_true in Hk. Qed.

Lemma m2_consumed :
  forallb (consumed 5) [ENROLLEE_NONCE; PUBLIC_KEY; REGISTRAR_NONCE; 0x1048; ENCRYPTED_SETTINGS] = true.
Proof. vm_compute. reflexivity. Qed.

Context {L : CryptoLaws C}.

Lemma m2_authenticated device a b nonce tr rn ruuid extra iv plain settings subelements m2 :
  create device a nonce = Ok tr → registrar_m2 b (tr_message tr) rn ruuid extra iv plain = Ok m2 →
  admitted (public_number a) = true → admitted (public_number b) = true → length iv = 16%nat →
  decode_attributes plain = Ok settings → vendor_subelements settings = Ok subelements →
  ∃ index attributes,
    authenticate_m2_envelope tr m2 = Ok (mkEnvelope rn ruuid index settings attributes) ∧ decode_attributes m2 = Ok attributes.
Proof.
  intros (at1 & enrollee & <- & Hw1 & Hpub & Hen)%create_Ok Hr Ha Hb Hiv Hset Hsub. unfold registrar_m2 in Hr.
  rewrite Hw1 in Hr. cbn [mbind result_mbind] in Hr. rewrite (proj2 (field_Ok _ _ _) Hpub), (proj2 (field_Ok _ _ _) Hen) in Hr.
  cbn [mbind result_mbind] in Hr. apply result_bind_Ok in Hr as (mac & Hmac & Hr). apply result_bind_Ok in Hr as (keys & Hkeys & Hr).
  apply result_bind_Ok in Hr as (encrypted & Henc & Hr). apply result_bind_Ok in Hr as (body & Hbody & Hr).
  apply result_bind_Ok in Hr as (m2' & Hauth & Hr). apply result_bind_Ok in Hr as ([at2 registrar] & Hw2 & [= ->]).
  destruct (authenticated_attributes _ _ _ _ _ _ _ _ Hbody Hauth Hw2) as [trailer ->].
  pose proof Hw2 as (Hd2 & _)%wsc_message_Ok.
  destruct (decrypt_encrypt keys iv plain encrypted) as [Hdec _]; [by apply derive_Ok in Hkeys as []|done|done|].
  pose proof m2_consumed as Hc. cbn [forallb] in Hc. bools.
  eexists _, _. split; [|exact Hd2].
  eapply envelope_run; [done|done|done|exact Hen|..]; try (eapply wsc_field; [exact Hw2|done|rewrite !elem_of_app, !elem_of_cons; tauto]).
  - by apply field_Ok.
  - by apply derive_agree.
  - by apply verify_authenticate.
  - done.
  - done.
  - done.
Qed.

End Registrar.

(** ** What an accepted M2 shows *)

Section Accepted.
Context {H : Hash} {C : Crypto}.

(** The envelope [e] of the M2 [m2] was authenticated with the keys of this M1's key pair, over this M1 and
    the whole M2; its settings are what those keys decrypt. *)
Record bound_to (tr : M1Transcript) (m2 : bytes) (e : AuthenticatedM2Envelope) : Prop := {
  bound_attributes : decode_attributes m2 = Ok (e_attributes e);
  bound_nonce : ∃ at1 enrollee en, wsc_message (tr_message tr) 4 = Ok (at1, enrollee)
    ∧ enrollee !! ENROLLEE_NONCE = Some en ∧ mkAttribute ENROLLEE_NONCE en ∈ e_attributes e;
  bound_keys : ∃ theirs en mac keys body encrypted plain,
    mkAttribute PUBLIC_KEY theirs ∈ e_attributes e
    ∧ derive (key_pair tr) theirs en mac (registrar_nonce e) = Ok keys
    ∧ authenticate_message keys (tr_message tr) body = Ok m2
    ∧ mkAttribute ENCRYPTED_SETTINGS encrypted ∈ e_attributes e
    ∧ decrypt_settings keys encrypted = Ok plain ∧ decode_attributes plain = Ok (config_data e)
}.

Lemma envelope_bound tr m2 e : authenticate_m2_envelope tr m2 = Ok e → bound_to tr m2 e.
Proof.
  unfold authenticate_m2_envelope. intros ([at1 enrollee] & H1 & E)%result_bind_Ok.
  apply result_bind_Ok in E as ([at2 registrar] & H2 & E). pose proof H2 as (Hd & Hf & _)%wsc_message_Ok.
  apply result_bind_Ok in E as (ours & _ & E). apply result_bind_Ok in E as (en & Hen%field_Ok & E).
  apply result_bind_Ok in E as (echoed & Hec%field_Ok & E). apply msg_check_bind in E as [Hc E]. bools. subst echoed.
  apply result_bind_Ok in E as (theirs & Hth%field_Ok & E). apply result_bind_Ok in E as (mac & _ & E).
  apply result_bind_Ok in E as (rn & _ & E). apply result_bind_Ok in E as (keys & Hk & E).
  apply result_bind_Ok in E as (body & Hv%verify_authenticate & E). destruct (registrar !! ENCRYPTED_SETTINGS) as [enc|] eqn:He; [|done].
  apply result_bind_Ok in E as (plain & Hp & E). apply result_bind_Ok in E as (settings & Hs & E).
  apply result_bind_Ok in E as (subs & _ & E). apply result_bind_Ok in E as (ruuid & _ & [= <-]).
  split; simpl; [done| |]; setoid_rewrite Hf in Hec; setoid_rewrite Hf in Hth; setoid_rewrite Hf in He; [naive_solver|].
  do 7 eexists. split; [by destruct Hth|]. split; [done|]. split; [done|]. split; [by destruct He|]. done.
Qed.

(** An accepted M2 echoes the nonce of the M1. *)
Lemma nonce_echoed device pair nonce tr m2 e :
  create device pair nonce = Ok tr → authenticate_m2_envelope tr m2 = Ok e →
  ∃ at2 registrar, wsc_message m2 5 = Ok (at2, registrar) ∧ registrar !! ENROLLEE_NONCE = Some nonce.
Proof.
  unfold authenticate_m2_envelope. intros (at1 & en1 & _ & Hw & _ & Hn)%create_Ok E.
  rewrite Hw in E. cbn [mbind result_mbind] in E. apply result_bind_Ok in E as ([at2 registrar] & H2 & E).
  apply result_bind_Ok in E as (ours & _ & E). apply result_bind_Ok in E as (en & Hen%field_Ok & E).
  apply result_bind_Ok in E as (echoed & Hec%field_Ok & E). apply msg_check_bind in E as [Hc _]. bools.
  rewrite Hn in Hen. injection Hen as <-. subst echoed. eauto.
Qed.

(** A set of M2s is accepted whole: each on its own, in order, within the budget, no nonce (or, in a
    shared session, no message) and no BSS index twice. *)
Lemma envelopes_Ok tr messages max_bss shared es :
  authenticate_m2_envelopes tr messages max_bss shared = Ok es →
  1 ≤ len messages ≤ max_bss ∧ max_bss ≤ MAX_M2_PAYLOADS
  ∧ Forall2 (λ m e, authenticate_m2_envelope tr m = Ok e) messages es
  ∧ NoDup (omap bss_index es) ∧ (if shared then NoDup messages else NoDup (registrar_nonce <$> es)).
Proof.
  unfold authenticate_m2_envelopes. rewrite !msg_check_bind. intros (Hmax & Hlen & E).
  apply result_bind_Ok in E as (results & Hall%map_result_Ok & E). rewrite !msg_check_bind in E.
  destruct E as (Hn & Hi & [= ->]). unfold distinct in *. bools. do 4 (split; [done || lia|]).
  destruct shared; bools; done.
Qed.

End Accepted.

Lemma ok_inv {A} (r : result A) : is_ok r = true → { a | r = Ok a }.
Proof. destruct r; [eauto|done]. Qed.

(** * Properties *)

(** C23: what a registrar of the same exchange encrypts and authenticates, the enrollee authenticates and
    decrypts: an M2 made from this M1 with any admitted key pair is accepted, and the envelope carries the
    registrar's nonce, its UUID and exactly the settings it encrypted. *)
Theorem m2_roundtrip `{Hash} {C : Crypto} `{!CryptoLaws C} device (a b : private_key) nonce tr rn ruuid extra iv plain
    settings subelements m2 :
  create device a nonce = Ok tr → registrar_m2 b (tr_message tr) rn ruuid extra iv plain = Ok m2 →
  admitted (public_number a) = true → admitted (public_number b) = true → length iv = 16%nat →
  decode_attributes plain = Ok settings → vendor_subelements settings = Ok subelements →
  ∃ e, authenticate_m2_envelope tr m2 = Ok e
    ∧ registrar_nonce e = rn ∧ registrar_uuid e = ruuid ∧ config_data e = settings.
Proof.
  intros Hc Hr Ha Hb Hiv Hset Hsub.
  destruct (m2_authenticated device a b nonce tr rn ruuid extra iv plain settings subelements m2) as (i & l & -> & _); [done..|].
  eauto.
Qed.

(** C24: an accepted M2 is bound to its M1: it is what authentication makes, over this M1 and all of the M2,
    with keys derived from this exchange's key pair, and its settings are what those keys decrypt; the same
    octets are refused by an exchange whose M1 has another nonce. *)
Theorem m2_bound_to_m1 `{Hash} `{Crypto} device pair nonce tr m2 e :
  create device pair nonce = Ok tr → authenticate_m2_envelope tr m2 = Ok e →
  bound_to tr m2 e
  ∧ ∀ device' pair' nonce' tr', create device' pair' nonce' = Ok tr' → nonce' ≠ nonce →
      is_ok (authenticate_m2_envelope tr' m2) = false.
Proof.
  intros Hc He. split; [by apply envelope_bound|]. intros device' pair' nonce' tr' Hc' Hne.
  destruct (authenticate_m2_envelope tr' m2) as [e'|] eqn:He'; [|done]. destruct Hne.
  destruct (nonce_echoed _ _ _ _ _ _ Hc He) as (l & f & Hw & Hf), (nonce_echoed _ _ _ _ _ _ Hc' He') as (l' & f' & Hw' & Hf').
  rewrite Hw in Hw'. injection Hw' as <- <-. congruence.
Qed.

(** A device, its M1, settings of a fronthaul BSS and the M2 that carries them. *)
Definition ex_device : M1Device :=
  mkM1Device (replicate 16 (Z_to_byte 7)) (octets [2; 0; 0; 0; 0; 1]) 0x20 0x08 1 0x280 2 (text "EMOSA") (text "pod")
    (text "1") (text "A1") (octets [0; 6; 0; 0x50; 0xf2; 4; 0; 1]) (text "pod one") 2 0 0 0 1.
Definition ex_nonce (n : Z) : bytes := replicate 16 (Z_to_byte n).
Definition ex_extra : list Attribute :=
  [mkAttribute 0x1004 (octets [0; 0x20]); mkAttribute 0x1010 (octets [0; 8]); mkAttribute 0x100D (octets [1]);
   mkAttribute 0x1008 (octets [2; 0x80]); mkAttribute 0x1054 (octets [0; 6; 0; 0x50; 0xf2; 4; 0; 1]);
   mkAttribute 0x103C (octets [2]); mkAttribute 0x1002 (octets [0; 0]); mkAttribute 0x1012 (octets [0; 0]);
   mkAttribute 0x1009 (octets [0; 0]); mkAttribute 0x102D (octets [0x80; 0; 0; 1]); mkAttribute 0x1021 (text "c");
   mkAttribute 0x1023 (text "c"); mkAttribute 0x1024 (text "c"); mkAttribute 0x1042 (text "c"); mkAttribute 0x1011 (text "c")].
Definition ex_settings (role : Z) : list Attribute :=
  [mkAttribute 0x1045 (text "mesh"); mkAttribute 0x1003 (octets [0; 0x20]); mkAttribute 0x100F (octets [0; 8]);
   mkAttribute 0x1027 (text "correct horse"); mkAttribute 0x1020 (octets [2; 0; 0; 0; 0; 9]);
   mkAttribute VENDOR_EXTENSION (WFA_ID ++ octets [6; 1; role])].
#[local] Existing Instance checksum.
#[local] Existing Instance toy_crypto.
Definition ex_key (n : nat) : private_key (Crypto := toy_crypto) := n.
Definition ex_m1 (n : Z) : result M1Transcript := create ex_device (ex_key 3) (ex_nonce n).
Definition ex_m2 (tr : M1Transcript) (rn role : Z) : result bytes :=
  plain ← encode_attributes (ex_settings role);
  registrar_m2 (ex_key 5) (tr_message tr) (ex_nonce rn) (ex_nonce 8) ex_extra (ex_nonce 9) plain.

Definition ex_exchange : result (M1Transcript * M1Transcript * bytes * AuthenticatedM2Envelope) :=
  tr ← ex_m1 1; other ← ex_m1 2; m2 ← ex_m2 tr 3 0x20; e ← authenticate_m2_envelope tr m2; Ok (tr, other, m2, e).

Lemma ex_exchange_ok : is_ok ex_exchange = true.
Proof. vm_compute. reflexivity. Qed.

Lemma ex_parts :
  ∃ tr other m2 e, ex_m1 1 = Ok tr ∧ ex_m1 2 = Ok other ∧ ex_m2 tr 3 0x20 = Ok m2 ∧ authenticate_m2_envelope tr m2 = Ok e.
Proof.
  destruct (ok_inv _ ex_exchange_ok) as [[[[tr other] m2] e] E]. unfold ex_exchange in E.
  apply result_bind_Ok in E as (tr' & H1 & E). apply result_bind_Ok in E as (other' & H2 & E).
  apply result_bind_Ok in E as (m2' & Hm & E). apply result_bind_Ok in E as (e' & He & E). eauto 10.
Qed.

Lemma m2_roundtrip_witness :
  ∃ (tr : M1Transcript) m2 e, ex_m1 1 = Ok tr ∧ ex_m2 tr 3 0x20 = Ok m2 ∧ authenticate_m2_envelope tr m2 = Ok e
    ∧ config_data e = ex_settings 0x20.
Proof.
  destruct ex_parts as (tr & other & m2 & _ & H1 & _ & Hm & _). pose proof Hm as Hm'. unfold ex_m2 in Hm'.
  apply result_bind_Ok in Hm' as (plain & (_ & ->)%encode_attributes_Ok & Hr).
  destruct (m2_roundtrip ex_device (ex_key 3) (ex_key 5) (ex_nonce 1) tr (ex_nonce 3) (ex_nonce 8) ex_extra (ex_nonce 9)
    (ex_settings 0x20 ≫= attribute_bytes) (ex_settings 0x20) [mkAttribute 6 (octets [0x20])] m2 H1 Hr)
    as (e & He & _ & _ & Hc); [vm_compute; reflexivity..|]. exists tr, m2, e. auto.
Defined.

Lemma m2_bound_to_m1_witness :
  ∃ (tr other : M1Transcript) m2 e, authenticate_m2_envelope tr m2 = Ok e ∧ bound_to tr m2 e
    ∧ is_ok (authenticate_m2_envelope other m2) = false.
Proof.
  destruct ex_parts as (tr & other & m2 & e & H1 & H2 & Hm & He).
  destruct (m2_bound_to_m1 ex_device (ex_key 3) (ex_nonce 1) tr m2 e H1 He) as [Hb Hn].
  exists tr, other, m2, e. split; [done|]. split; [done|].
  apply (Hn ex_device (ex_key 3) (ex_nonce 2) other H2). by vm_compute.
Defined.
