(* ===== verification/WscRadio.v ===== *)
(** * One radio's M2 set: [src/emosa/wsc_radio.py]

    Every M2 of a set is authenticated before the roles inside their encrypted settings are read; a set
    that the adapter can map gives the SSID and the passphrase of each BSS. *)

From stdpp Require Import sorting pretty.
From S2P Require Import Prelude Bytes Cmdu Lifecycle Secrets Digest Wsc WscMessages.

Definition MULTI_AP : Z := 0x06.
Definition BACKHAUL_STA : Z := 0x80.
Definition BACKHAUL_BSS : Z := 0x40.
Definition FRONTHAUL_BSS : Z := 0x20.
Definition TEARDOWN : Z := 0x10.
Definition PROFILE1_DISALLOWED : Z := 0x08.
Definition PROFILE2_DISALLOWED : Z := 0x04.

(** [_invalid()] and [_unsupported(detail)] *)
Definition radio_invalid {A} : result A := Raise (mkEmosaError INVALID_INPUT "invalid radio WSC payload set").
Definition radio_check (ok : bool) : result unit := if ok then Ok tt else radio_invalid.

Definition SCOPE : string := "radio WSC payload set exceeds existing fronthaul PSK scope".
Definition radio_unsupported {A} (detail : option string) : result A :=
  Raise (mkEmosaError UNSUPPORTED_OPERATION
    match detail with None => SCOPE | Some d => SCOPE +:+ ": " +:+ d end).

(** [b.removesuffix(NUL)] *)
Definition strip_nul (b : bytes) : bytes :=
  if bool_decide (list.last b = Some (Z_to_byte 0)) then removelast b else b.

(** ** The set *)

Record BssPayload := mkBssPayload { p_index : option Z; multi_ap_flags : Z; p_settings : APSettings }.
#[export] Instance BssPayload_eq_dec : EqDecision BssPayload.
Proof. solve_decision. Defined.

(** [ExistingBssCandidate]; strings are their UTF-8 octets. *)
Record Candidate := mkCandidate { c_ssid : string; passphrase : string; c_index : option Z }.
#[export] Instance Candidate_eq_dec : EqDecision Candidate.
Proof. solve_decision. Defined.

Record RadioPayloadSet := mkRadioPayloadSet {
  action : string;
  bsses : list BssPayload;
  advertised_authentication_types : Z;
  advertised_encryption_types : Z
}.
#[export] Instance RadioPayloadSet_eq_dec : EqDecision RadioPayloadSet.
Proof. solve_decision. Defined.

(** The mapping limits of [_psk_candidate], each with its reason. *)
Definition limits (raw_ssid key : bytes) : list (bool * string) :=
  [(negb (bool_decide (1 ≤ len raw_ssid ≤ 32)), "SSID length");
   (bool_decide (Z_to_byte 0 ∈ raw_ssid), "SSID with an embedded NUL");
   (bool_decide (Z_to_byte 0 ∈ key), "passphrase with NUL padding");
   (negb (bool_decide (8 ≤ len key ≤ 63)), "passphrase length");
   (existsb (λ b, negb (within 0x20 0x7E b)) key, "passphrase characters")].

(** [_psk_candidate(bss)]: the candidate, or the detail of the refusal. *)
Definition psk_candidate (self : RadioPayloadSet) (bss : BssPayload) : string + Candidate :=
  let settings := p_settings bss in
  if bool_decide (authentication_type settings ≠ 0x20) || bool_decide (encryption_type settings ≠ 0x08)
     || bool_decide (Z.land (advertised_authentication_types self) 0x20 = 0)
     || bool_decide (Z.land (advertised_encryption_types self) 0x08 = 0)
  then inl ("authentication 0x" +:+ hex 4 (authentication_type settings)
            +:+ " encryption 0x" +:+ hex 4 (encryption_type settings))
  else
    let extra := merge_sort Z.le (filter (λ k, k = 0x102A ∨ k = 0x1012) (a_kind <$> s_attributes settings)) in
    if negb (bool_decide (extra = []))
    then inl ("settings attribute " +:+ String.concat "," ((λ k, "0x" +:+ hex 4 k) <$> extra))
    else
      let key := strip_nul (network_key settings) in
      let raw_ssid := strip_nul (s_ssid settings) in
      if negb (utf8 raw_ssid) || negb (ascii key) then inl "SSID or key encoding"
      else match find (λ l : bool * string, l.1) (limits raw_ssid key) with
           | Some l => inl (l.2 +:+ " outside the mapping limits")
           | None => inr (mkCandidate (String.string_of_list_byte raw_ssid) (String.string_of_list_byte key) (p_index bss))
           end.

(** [existing_fronthaul_candidate] *)
Definition existing_fronthaul_candidate (self : RadioPayloadSet) : result Candidate :=
  match bsses self with
  | [bss] =>
      if bool_decide (action self ≠ "configure") then radio_unsupported None
      else if bool_decide (multi_ap_flags bss ≠ FRONTHAUL_BSS) then radio_unsupported None
      else match psk_candidate self bss with inl d => radio_unsupported (Some d) | inr c => Ok c end
  | _ => radio_unsupported None
  end.

(** The role of a BSS of the set, as [radio_candidates] takes it. *)
Definition role_of (flags : Z) : option string :=
  if bool_decide (flags = FRONTHAUL_BSS) then Some "fronthaul"
  else if bool_decide (Z.ldiff flags (Z.lor PROFILE1_DISALLOWED (Z.lor PROFILE2_DISALLOWED BACKHAUL_STA)) = BACKHAUL_BSS)
  then Some "backhaul"
  else None.

(** The body of the loop of [radio_candidates]. *)
Definition candidate_step (self : RadioPayloadSet) (pairs : list (string * Candidate)) (bss : BssPayload) :
    result (list (string * Candidate)) :=
  let name := "BSS " +:+ pretty (length pairs) in
  match role_of (multi_ap_flags bss) with
  | None => radio_unsupported (Some (name +:+ ": Multi-AP role 0x" +:+ hex 2 (multi_ap_flags bss)))
  | Some role =>
      match psk_candidate self bss with
      | inl detail => radio_unsupported (Some (name +:+ " (" +:+ role +:+ "): " +:+ detail))
      | inr c => Ok (pairs ++ [(role, c)])
      end
  end.

(** [radio_candidates] *)
Definition radio_candidates (self : RadioPayloadSet) : result (list (string * Candidate)) :=
  if bool_decide (action self ≠ "configure") || bool_decide (bsses self = []) then radio_unsupported None
  else
    pairs ← fold_result (candidate_step self) [] (bsses self);
    if existsb (λ p, bool_decide (p.1 = "fronthaul")) pairs then Ok pairs else radio_unsupported None.

Section Decode.
Context {H : Hash} {C : Crypto}.

(** The role inside one envelope's encrypted settings. *)
Definition role_flags (envelope : AuthenticatedM2Envelope) : result Z :=
  outer ← vendor_subelements (e_attributes envelope);
  _ ← radio_check (negb (existsb (λ a, bool_decide (a_kind a = MULTI_AP)) outer));
  inner ← vendor_subelements (config_data envelope);
  match a_value <$> filter (λ a, a_kind a = MULTI_AP) inner with
  | [[b]] => Ok (Z.land (byte_to_Z b) 0xFC)
  | _ => radio_invalid
  end.

(** [decode_radio_payloads] *)
Definition decode_radio_payloads (transcript : M1Transcript) (messages : list bytes) (max_bss : Z)
    (shared_session : bool) : result RadioPayloadSet :=
  envelopes ← authenticate_m2_envelopes transcript messages max_bss shared_session;
  attributes ← decode_attributes (tr_message transcript);
  let m1 : gmap Z bytes := list_to_map (reverse ((λ a, (a_kind a, a_value a)) <$> attributes)) in
  auth ← field 0x1004 m1;
  encr ← field 0x1010 m1;
  roles ← map_result role_flags envelopes;
  if existsb (λ flags, negb (bool_decide (Z.land flags TEARDOWN = 0))) roles then
    _ ← radio_check (bool_decide (length envelopes = 1%nat));
    Ok (mkRadioPayloadSet "teardown" [] (be_int auth) (be_int encr))
  else
    bsses ← map_result (λ er,
      m2 ← ap_configuration er.1;
      Ok (mkBssPayload (bss_index er.1) er.2 (m2_settings m2))) (zip envelopes roles);
    Ok (mkRadioPayloadSet "configure" bsses (be_int auth) (be_int encr)).

End Decode.

(** * Theory *)

Lemma radio_check_bind {A} b (k : unit → result A) a : radio_check b ≫= k = Ok a ↔ b = true ∧ k tt = Ok a.
Proof. destruct b; simpl; naive_solver. Qed.

(** ** Octets as strings *)

Lemma decode_ascii l : String.list_ascii_of_string (decode l) = Ascii.ascii_of_byte <$> l.
Proof. unfold String.string_of_list_byte. by rewrite String.list_ascii_of_string_of_list_ascii. Qed.

Lemma decode_length l : String.length (decode l) = length l.
Proof.
  rewrite <- (length_fmap Ascii.ascii_of_byte l), <- decode_ascii. generalize (decode l) as s.
  induction s as [|c s IH]; simpl; [done|by rewrite IH].
Qed.

Lemma has_nul_decode l : has_nul (decode l) = bool_decide (Z_to_byte 0 ∈ l).
Proof.
  unfold has_nul. rewrite decode_ascii. induction l as [|b l IH]; [done|]. cbn [existsb fmap list_fmap].
  rewrite IH. apply eq_true_iff_eq. rewrite orb_true_iff, !bool_decide_eq_true, elem_of_cons. f_equiv.
  split; [|by intros <-]. intros E. rewrite <- (Ascii.byte_of_ascii_of_byte b), E. reflexivity.
Qed.

Lemma encode_decode_bytes l : encode (decode l) = l.
Proof. apply String.list_byte_of_string_of_list_byte. Qed.

(** ** Candidates *)

(** A candidate the adapter can map, of settings that say exactly that: WPA2-PSK with AES, both advertised,
    no other credential; the SSID is one an intent takes, the passphrase one the secret store takes. *)
Record psk_ok (self : RadioPayloadSet) (settings : APSettings) (c : Candidate) : Prop := {
  psk_type : authentication_type settings = 0x20 ∧ encryption_type settings = 0x08;
  psk_advertised : Z.land (advertised_authentication_types self) 0x20 ≠ 0 ∧ Z.land (advertised_encryption_types self) 0x08 ≠ 0;
  psk_only : Forall (λ a, a_kind a ≠ 0x102A ∧ a_kind a ≠ 0x1012) (s_attributes settings);
  psk_ssid : encode (c_ssid c) = strip_nul (s_ssid settings) ∧ utf8 (encode (c_ssid c)) = true ∧ ssid_ok (c_ssid c) = true;
  psk_key : encode (passphrase c) = strip_nul (network_key settings) ∧ usable (encode (passphrase c)) = true
}.

Lemma find_limits raw_ssid key :
  find (λ l : bool * string, l.1) (limits raw_ssid key) = None → ssid_ok (decode raw_ssid) = true ∧ usable key = true.
Proof.
  unfold limits. simpl. repeat (destruct (_ : bool) eqn:? at 1; [done|]). intros _. bools.
  unfold ssid_ok, usable. rewrite decode_length, has_nul_decode. split.
  { by rewrite bool_decide_eq_true_2, bool_decide_eq_false_2. }
  rewrite bool_decide_eq_true_2 by done. simpl. apply forallb_forall. intros b Hb. apply not_false_iff_true. intros Hf.
  match goal with H : existsb _ key = false |- _ => rewrite <- not_true_iff_false, existsb_exists in H; apply H end.
  exists b. by rewrite Hf.
Qed.

Lemma psk_candidate_ok self bss c :
  psk_candidate self bss = inr c → psk_ok self (p_settings bss) c ∧ c_index c = p_index bss.
Proof.
  unfold psk_candidate. destruct (_ || _)%bool eqn:E1; [done|]. destruct (negb _) eqn:E2; [done|].
  bools. destruct (_ || _)%bool eqn:E3; [done|]. destruct (find _ _) eqn:E4; [done|]. intros [= <-]. bools.
  apply find_limits in E4 as [Hs Hk]. split; [|done]. split; cbn [c_ssid passphrase]; rewrite ?encode_decode_bytes; auto.
  - split; by apply dec_stable.
  - apply Forall_forall. intros a Ha.
    assert (Hn : a_kind a ∉ filter (λ k, k = 0x102A ∨ k = 0x1012) (a_kind <$> s_attributes (p_settings bss))).
    { rewrite <- (merge_sort_Permutation Z.le), E2. apply not_elem_of_nil. }
    rewrite list_elem_of_filter in Hn. assert (Hin : a_kind a ∈ a_kind <$> s_attributes (p_settings bss)) by by apply list_elem_of_fmap_2.
    tauto.
Qed.

Lemma candidates_loop self l pairs :
  fold_result (candidate_step self) [] l = Ok pairs →
  Forall2 (λ bss p, role_of (multi_ap_flags bss) = Some p.1 ∧ psk_ok self (p_settings bss) p.2 ∧ c_index p.2 = p_index bss) l pairs.
Proof.
  apply (fold_result_prefix _ (λ l pairs, Forall2 _ l pairs)); [constructor|].
  intros seen acc bss acc' IH Hstep. unfold candidate_step in Hstep. destruct (role_of _) as [role|] eqn:Hrole; [|done].
  destruct (psk_candidate self bss) as [d|c] eqn:Hc; [done|]. injection Hstep as <-. apply Forall2_app; [done|].
  constructor; [|constructor]. simpl. split; [done|]. by apply psk_candidate_ok.
Qed.

(** ** Sets *)

Section Sets.
Context {H : Hash} {C : Crypto}.

(** One BSS of the set, read from its own envelope. *)
Definition bss_of (e : AuthenticatedM2Envelope) (bss : BssPayload) : Prop :=
  p_index bss = bss_index e ∧ role_flags e = Ok (multi_ap_flags bss) ∧ Z.land (multi_ap_flags bss) TEARDOWN = 0
  ∧ parse_settings (config_data e) = Ok (p_settings bss).

Lemma bsses_read es roles bs :
  Forall2 (λ e flags, role_flags e = Ok flags) es roles → Forall (λ flags, Z.land flags TEARDOWN = 0) roles →
  map_result (λ er : AuthenticatedM2Envelope * Z, m2 ← ap_configuration er.1;
    Ok (mkBssPayload (bss_index er.1) er.2 (m2_settings m2))) (zip es roles) = Ok bs →
  Forall2 bss_of es bs.
Proof.
  intros Hr. revert bs. induction Hr as [|e flags es roles He _ IH]; intros bs Hf Hm; simpl in Hm.
  - injection Hm as <-. constructor.
  - apply Forall_cons in Hf as [Hf0 Hf]. inv_ok. constructor; [|by apply IH].
    unfold ap_configuration in *. inv_ok. done.
Qed.

Lemma decode_radio_payloads_Ok tr messages max_bss shared set :
  decode_radio_payloads tr messages max_bss shared = Ok set →
  ∃ es, authenticate_m2_envelopes tr messages max_bss shared = Ok es
    ∧ ((action set = "configure" ∧ Forall2 bss_of es (bsses set))
       ∨ (action set = "teardown" ∧ bsses set = [] ∧ length messages = 1%nat)).
Proof.
  unfold decode_radio_payloads. intros (es & Hes & E)%result_bind_Ok. exists es. split; [done|].
  apply result_bind_Ok in E as (attributes & _ & E). cbv zeta in E. apply result_bind_Ok in E as (auth & _ & E).
  apply result_bind_Ok in E as (encr & _ & E). apply result_bind_Ok in E as (roles & Hroles%map_result_Ok & E).
  destruct (existsb _ roles) eqn:Ht.
  - right. apply radio_check_bind in E as [Hl [= <-]]. bools. split; [done|]. split; [done|].
    apply envelopes_Ok in Hes as (_ & _ & Hall%Forall2_length & _). congruence.
  - left. apply result_bind_Ok in E as (bs & Hbs & [= <-]). split; [done|]. eapply bsses_read; [done| |done].
    apply Forall_forall. intros flags Hin. destruct (decide (Z.land flags TEARDOWN = 0)) as [|Hne]; [done|].
    rewrite <- not_true_iff_false, existsb_exists in Ht. destruct Ht. exists flags.
    by rewrite <- list_elem_of_In, bool_decide_eq_false_2.
Qed.

End Sets.

(** * Properties *)

(** What a pair of [radio_candidates] is read from: the envelope of its M2. *)
Definition read_from (set : RadioPayloadSet) (e : AuthenticatedM2Envelope) (p : string * Candidate) : Prop :=
  ∃ flags settings, role_flags e = Ok flags ∧ role_of flags = Some p.1 ∧ Z.land flags TEARDOWN = 0
    ∧ parse_settings (config_data e) = Ok settings ∧ psk_ok set settings p.2 ∧ c_index p.2 = bss_index e.

(** C25: what is mapped onto a radio is the whole authenticated set: the candidates of an accepted set are, in
    order and one per M2, read from the encrypted settings of that M2, every one of which was authenticated;
    there is a fronthaul BSS among them; each SSID is one an intent takes and each passphrase one the secret
    store takes; no BSS index occurs twice. *)
Theorem radio_set_mapped `{Hash} `{Crypto} tr messages max_bss shared set pairs :
  decode_radio_payloads tr messages max_bss shared = Ok set → radio_candidates set = Ok pairs →
  ∃ es, Forall2 (λ m e, authenticate_m2_envelope tr m = Ok e) messages es
    ∧ Forall2 (read_from set) es pairs
    ∧ NoDup (omap bss_index es) ∧ 1 ≤ len pairs ≤ max_bss ∧ "fronthaul" ∈ pairs.*1.
Proof.
  intros (es & Hes & Hset)%decode_radio_payloads_Ok Hc. unfold radio_candidates in Hc.
  destruct (_ || _)%bool eqn:Ha in Hc; [done|]. bools. apply result_bind_Ok in Hc as (pairs' & Hp & Hc).
  destruct (existsb _ pairs') eqn:Hf; [|done]. injection Hc as <-. apply candidates_loop in Hp.
  destruct Hset as [[_ Hb]|(Ht & _ & _)].
  2:{ match goal with Hn : ¬ (action set ≠ _) |- _ => destruct Hn; by rewrite Ht end. }
  apply envelopes_Ok in Hes as (Hlen & _ & Hall & Hnd & _). exists es. split; [done|].
  assert (Hread : Forall2 (read_from set) es pairs').
  { eapply Forall2_trans; [|exact Hb|exact Hp]. intros e bss p (Hi & Hfl & Ht & Hs) (Hr & Hk & Hci).
    exists (multi_ap_flags bss), (p_settings bss). rewrite Hci. auto 10. }
  split; [done|]. split; [done|]. split.
  - unfold len in *. by rewrite <- (Forall2_length _ _ _ Hread), <- (Forall2_length _ _ _ Hall).
  - apply existsb_exists in Hf as (p & Hin%list_elem_of_In & Hp1). bools. rewrite <- Hp1. by apply list_elem_of_fmap_2.
Qed.

(** A set of two BSSes, a fronthaul and a backhaul one. *)
#[local] Existing Instance checksum.
#[local] Existing Instance toy_crypto.
Definition ex_set : result (M1Transcript * list bytes * RadioPayloadSet * list (string * Candidate)) :=
  tr ← ex_m1 1; front ← ex_m2 tr 3 0x20; back ← ex_m2 tr 4 0x40;
  set ← decode_radio_payloads tr [front; back] 4 false; pairs ← radio_candidates set; Ok (tr, [front; back], set, pairs).

Lemma ex_set_ok :
  match ex_set with Ok (_, _, _, pairs) => bool_decide (pairs.*1 = ["fronthaul"; "backhaul"]) | Raise _ => false end = true.
Proof. vm_compute. reflexivity. Qed.

Lemma radio_set_mapped_witness :
  ∃ (tr : M1Transcript) messages set pairs es, radio_candidates set = Ok pairs ∧ pairs.*1 = ["fronthaul"; "backhaul"]
    ∧ Forall2 (λ m e, authenticate_m2_envelope tr m = Ok e) messages es ∧ Forall2 (read_from set) es pairs.
Proof.
  destruct ex_set as [[[[tr messages] set] pairs]|] eqn:E; [|by pose proof ex_set_ok as Hn; rewrite E in Hn].
  pose proof ex_set_ok as Hp. rewrite E in Hp. bools. unfold ex_set in E.
  apply result_bind_Ok in E as (tr' & _ & E). apply result_bind_Ok in E as (front & _ & E).
  apply result_bind_Ok in E as (back & _ & E). apply result_bind_Ok in E as (set' & Hs & E).
  apply result_bind_Ok in E as (pairs' & Hc & [= -> <- -> ->]).
  destruct (radio_set_mapped _ _ _ _ _ _ Hs Hc) as (es & Hall & Hread & _). exists tr, [front; back], set, pairs, es. auto.
Defined.
