(* ===== verification/Autoconfiguration.v ===== *)
(** * Discovery and WSC exchanges: [src/emosa/wire/autoconfiguration.py]

    Search and Response messages, the lifetime of an exchange, the discovery exchange and the exchange of
    one M1 for one M2 set. A method takes the reading of its clock, in milliseconds. Identifiers come from
    a [MidSequence] that others advance too. [PeerBinding] and the message sets are in [Reports]. *)

From S2P Require Import Prelude Bytes Cmdu Payloads Reports Session Secrets Digest Wsc WscMessages WscRadio.

Definition SEARCH : Z := 0x0007.
Definition RESPONSE : Z := 0x0008.
Definition WSC : Z := 0x0009.
Definition CONFIGURATION_COMPANIONS : list Z := [0xB5; 0xB6; 0xE0; 0xE1; 0xEB; 0xEC].

(** ** Fields of a message *)

(** [_unicast(value)] *)
Definition nonzero_unicast (value : bytes) : result bytes :=
  _ ← mac value;
  _ ← raise_if (bool_decide (value = octets [0; 0; 0; 0; 0; 0]) || negb (bool_decide (Z.land (octet_at 0 value) 1 = 0)))
        INVALID_INPUT "expected a nonzero unicast identity";
  Ok value.

Definition values_of (message : Message) (k : Z) : list bytes := tlv_value <$> filter (λ t, Cmdu.kind t = k) (m_tlvs message).

(** [_one(message, kind)] *)
Definition one (message : Message) (k : Z) : result bytes :=
  match values_of message k with [v] => Ok v | _ => invalid "missing or repeated required EasyMesh TLV" end.

(** [_base(message, kind, length)] *)
Definition base (message : Message) (k : Z) (n : nat) : result bytes :=
  let v := concat (values_of message k) in
  if bool_decide (length v = n) then Ok v else invalid "missing or malformed required IEEE TLV".

(** [_header(message, kind, multicast)] *)
Definition header (message : Message) (k : Z) (multicast : bool) : result unit :=
  _ ← raise_if (bool_decide (m_message_type message ≠ k) || negb (bool_decide (m_relay message = multicast))
                || (multicast && bool_decide (m_destination message ≠ MULTICAST)))
        INVALID_INPUT "unexpected autoconfiguration message addressing or type";
  _ ← nonzero_unicast (m_source message);
  _ ← (if multicast then Ok [] else nonzero_unicast (m_destination message));
  raise_if (existsb (λ t, bool_decide (Cmdu.kind t ∈ SECURITY_ENVELOPES)) (m_tlvs message))
    UNSUPPORTED_OPERATION "DPP security processing is not implemented".

(** The identifiers of a services value that [known_services] keeps, and the octet of a Profile value. *)
Definition known_services (p : Payload) : list Z :=
  match p with
  | SupportedServices s => supported_known s
  | SearchedServices s => searched_known s
  | _ => []
  end.
Definition profile_of (p : Payload) : Z := match p with MultiAPProfile z => z | _ => 0 end.

Definition RESERVED_BAND : string := "reserved autoconfiguration band".

Record Search := mkSearch { s_al_mac : bytes; s_band : Z; s_profile : Z }.

(** [parse_search(message)] *)
Definition parse_search (message : Message) : result Search :=
  _ ← header message SEARCH true;
  al ← base message 0x01 6;
  al ← nonzero_unicast al;
  role ← base message 0x0D 1;
  _ ← raise_if (bool_decide (role ≠ octets [0])) INVALID_INPUT "Search does not request Registrar";
  band ← base message 0x0E 1;
  let band := octet_at 0 band in
  _ ← raise_if (negb (bool_decide (band ∈ [0; 1; 2; 3]))) UNSUPPORTED_OPERATION RESERVED_BAND;
  v ← one message 0x80; p ← decode_value 0x80 v;
  _ ← raise_if (negb (bool_decide (1 ∈ known_services p))) INVALID_INPUT "Search does not advertise Agent service";
  v ← one message 0x81; p ← decode_value 0x81 v;
  _ ← raise_if (negb (bool_decide (0 ∈ known_services p))) INVALID_INPUT "Search does not request Controller service";
  v ← one message 0xB3; p ← decode_value 0xB3 v;
  _ ← (if bool_decide (profile_of p = 1) then v ← one message 0xB4; _ ← decode_value 0xB4 v; Ok tt else Ok tt);
  Ok (mkSearch al band (profile_of p)).

Record ControllerAdvertisement := mkControllerAdvertisement {
  band : Z;
  profile : Z;
  controller_flags : option bytes;
  security_capability_present : bool;
  security_capability : option bytes
}.
#[export] Instance ControllerAdvertisement_eq_dec : EqDecision ControllerAdvertisement.
Proof. solve_decision. Defined.

Definition flag_missing (flags : bytes) (bit : Z) (issue : string) : list string :=
  if bool_decide (Z.land (octet_at 0 flags) bit = 0) then [issue] else [].

(** [ControllerAdvertisement.selected_response_issues] *)
Definition selected_response_issues (self : ControllerAdvertisement) : list string :=
  match controller_flags self with
  | None => ["controller_capability_absent"]
  | Some f => flag_missing f 0x80 "kib_mib_support_absent"
              ++ flag_missing f 0x40 "early_ap_capability_bit_absent_for_non_dpp_search"
  end
  ++ (if negb (security_capability_present self) then ["security_capability_absent"]
      else match security_capability self with
           | None => ["security_capability_length_invalid"]
           | Some s => if negb (bool_decide (length s = 3%nat)) then ["security_capability_length_invalid"]
                       else if negb (bool_decide (s = octets [0; 0; 0])) then ["security_capability_reserved_algorithm"]
                       else []
           end).

(** [ControllerAdvertisement.pending_requirements] *)
Definition pending_requirements (self : ControllerAdvertisement) : list string :=
  ["profile_qualification"; "security_capability_applicability"]
  ++ (if negb (security_capability_present self) then ["security_capability_absent"] else [])
  ++ match controller_flags self with
     | None => ["controller_capability_absent"]
     | Some f => flag_missing f 0x80 "kib_mib_support_absent"
                 ++ ["early_ap_capability_procedure_and_table117_review"]
     end.

(** [parse_response(message, message_set)] *)
Definition parse_response (message : Message) (message_set : string) : result ControllerAdvertisement :=
  _ ← header message RESPONSE false;
  role ← base message 0x0F 1;
  _ ← raise_if (bool_decide (role ≠ octets [0])) INVALID_INPUT "Response does not advertise Registrar";
  band ← base message 0x10 1;
  let band := octet_at 0 band in
  _ ← raise_if (negb (bool_decide (band ∈ [0; 1; 2; 3]))) UNSUPPORTED_OPERATION RESERVED_BAND;
  v ← one message 0x80; p ← decode_value 0x80 v;
  _ ← raise_if (negb (bool_decide (0 ∈ known_services p))) INVALID_INPUT
        "Response does not advertise Controller service";
  profile ← (if bool_decide (message_set = R1) && bool_decide (values_of message 0xB3 = []) then Ok 1
             else v ← one message 0xB3; p ← decode_value 0xB3 v; Ok (profile_of p));
  let flags := values_of message 0xDD in
  let security := values_of message 0xA9 in
  _ ← raise_if (bool_decide (1 < length flags)%nat || bool_decide (head flags = Some [])
                || bool_decide (1 < length security)%nat)
        INVALID_INPUT "ambiguous or empty discovery capability field";
  Ok (mkControllerAdvertisement band profile (head flags) (negb (bool_decide (security = []))) (head security)).

(** ** The lifetime of an exchange: [_Lifetime] *)

Inductive phase := Waiting | Received | Closed.
#[export] Instance phase_eq_dec : EqDecision phase.
Proof. solve_decision. Defined.

Record Lifetime := mkLifetime { deadline : Z; max_transmissions : Z; transmissions : Z; l_state : phase }.
#[export] Instance eta_Lifetime : Eta Lifetime := λ l,
  mkLifetime (deadline l) (max_transmissions l) (transmissions l) (l_state l).

(** [_Lifetime.__init__] at the reading [now] *)
Definition Lifetime_init (now timeout max : Z) : result Lifetime :=
  _ ← raise_if (negb (bool_decide (0 < timeout ≤ seconds 60)) || negb (bool_decide (1 ≤ max ≤ 16)))
        INVALID_INPUT "invalid local exchange budget";
  Ok (mkLifetime (now + timeout) max 0 Waiting).

(** A class with a lifetime, and its own [close]. *)
Class Exchange (E : Type) := { life : E → Lifetime; with_life : Lifetime → E → E; close : E → E }.

Section Lifetime.
Context `{Exchange E}.

Definition set_state (p : phase) (e : E) : E := with_life (life e <| l_state := p |>) e.

(** [_live()] *)
Definition live (now : Z) : M E unit :=
  _ ← modify (λ e, if bool_decide (deadline (life e) ≤ now) then close e else e);
  e ← get;
  lift (raise_if (bool_decide (l_state (life e) = Closed)) NOT_READY
          "exchange closed; restart discovery with fresh M1").

(** [_transmit()] *)
Definition transmit (now : Z) : M E unit :=
  _ ← live now;
  e ← get;
  _ ← lift (raise_if (negb (bool_decide (l_state (life e) = Waiting))
                      || bool_decide (max_transmissions (life e) ≤ transmissions (life e)))
              NOT_READY "exchange transmission budget exhausted");
  modify (λ e, with_life (life e <| transmissions := transmissions (life e) + 1 |>) e).

End Lifetime.

(** ** [DiscoveryExchange] *)

Record DiscoveryExchange := mkDiscoveryExchange {
  d_life : Lifetime;
  d_binding : PeerBinding;
  d_band : Z;
  d_profile : Z;
  d_mids : Z;
  d_message_set : string;
  d_tlvs : list Tlv;
  sent_mids : gset Z;
  response : option ControllerAdvertisement
}.
#[export] Instance eta_DiscoveryExchange : Eta DiscoveryExchange := λ d,
  mkDiscoveryExchange (d_life d) (d_binding d) (d_band d) (d_profile d) (d_mids d) (d_message_set d) (d_tlvs d)
    (sent_mids d) (response d).

#[export] Instance discovery_lifetime : Exchange DiscoveryExchange := {|
  life := d_life;
  with_life l d := d <| d_life := l |>;
  close d := d <| d_life := d_life d <| l_state := Closed |> |> |}.

(** [DiscoveryExchange.__init__]; [mids] is the sequence's previous identifier. *)
Definition DiscoveryExchange_init (now : Z) (binding : PeerBinding) (band profile : Z) (profile2 : Profile2) (mids : Z)
    (timeout max : Z) (message_set : string) : result DiscoveryExchange :=
  l ← Lifetime_init now timeout max;
  message_set ← check_message_set message_set;
  _ ← raise_if (negb (bool_decide (band ∈ [0; 1])) || bool_decide (profile ≠ 1)) UNSUPPORTED_OPERATION
        "discovery emitter supports Profile-1 WSC";
  services ← em (SupportedServices [1]);
  searched ← em (SearchedServices [0]);
  rest ← (if bool_decide (message_set = R1) then Ok []
          else p ← em (MultiAPProfile profile); p2 ← em (profile2_payload profile2); Ok [p; p2]);
  Ok (mkDiscoveryExchange l binding band profile mids message_set
        ([mkTlv 0x01 (local_al binding); mkTlv 0x0D (octets [0]); mkTlv 0x0E (octets [band]); services; searched] ++ rest)
        ∅ None).

(** [self.mids.next()] *)
Definition d_next_mid : M DiscoveryExchange Z := λ d,
  let mid := next_mid (d_mids d) in (Ok mid, d <| d_mids := mid |>).

(** [DiscoveryExchange.request()] *)
Definition d_request (now : Z) : M DiscoveryExchange (list bytes) :=
  _ ← transmit now;
  mid ← d_next_mid;
  _ ← modify (λ d, d <| sent_mids := {[mid]} ∪ sent_mids d |>);
  d ← get;
  lift (fragment_message MULTICAST (local_al (d_binding d)) SEARCH mid (d_tlvs d) true 1500).

(** The checks of [DiscoveryExchange.receive] on a live exchange. *)
Definition d_judge (d : DiscoveryExchange) (message : Message) (ing : string) (gen : Z) : result ControllerAdvertisement :=
  _ ← binding_check (d_binding d) (m_destination message) (m_source message) ing gen;
  a ← parse_response message (d_message_set d);
  _ ← raise_if (negb (bool_decide (m_mid message ∈ sent_mids d)) || bool_decide (band a ≠ d_band d))
        INVALID_INPUT "Response does not match a live Search MID and band";
  effective ← effective_profile (profile a) (d_profile d);
  _ ← raise_if (bool_decide (d_message_set d ≠ R1) && bool_decide (effective ≠ d_profile d))
        INVALID_INPUT "controller profile does not match the discovery request";
  _ ← raise_if (match response d with Some r => bool_decide (a ≠ r) | None => false end)
        INVALID_INPUT "conflicting discovery advertisement in the same exchange";
  Ok a.

(** [DiscoveryExchange.receive] *)
Definition d_receive (now : Z) (message : Message) (ing : string) (gen : Z) : M DiscoveryExchange ControllerAdvertisement :=
  _ ← live now;
  d ← get;
  a ← lift (d_judge d message ing gen);
  _ ← modify (λ d, set_state Received (d <| response := Some a |>));
  mret a.

(** ** [WscExchange] *)

Record ExchangeResult := mkExchangeResult {
  duplicate : bool;
  x_ruid : bytes;
  candidate : option Candidate;
  x_additional : list (string * Candidate)
}.

Section Wsc.
Context {H : Hash} {C : Crypto}.

Record WscExchange := mkWscExchange {
  w_life : Lifetime;
  w_binding : PeerBinding;
  w_basic : Basic;
  w_mids : Z;
  w_message_set : string;
  multi_bss : bool;
  shared_m2_session : bool;
  capabilities : list Tlv;
  transcript : option M1Transcript;
  exchange_id : string;
  m1_sha256 : string;
  w_digest : option bytes;
  w_candidate : option Candidate;
  w_additional : list (string * Candidate);
  configuration : option RadioPayloadSet
}.
#[export] Instance eta_WscExchange : Eta WscExchange := λ w,
  mkWscExchange (w_life w) (w_binding w) (w_basic w) (w_mids w) (w_message_set w) (multi_bss w) (shared_m2_session w)
    (capabilities w) (transcript w) (exchange_id w) (m1_sha256 w) (w_digest w) (w_candidate w) (w_additional w)
    (configuration w).

(** [WscExchange.close()] drops the transcript and what was decoded. *)
Definition w_close (w : WscExchange) : WscExchange :=
  w <| w_life := w_life w <| l_state := Closed |> |> <| transcript := None |> <| w_candidate := None |>
    <| w_digest := None |> <| configuration := None |> <| w_additional := [] |>.

#[export] Instance wsc_lifetime : Exchange WscExchange := {|
  life := w_life; with_life l w := w <| w_life := l |>; close := w_close |}.

(** [WscExchange.__init__]; the key pair, the nonce and the exchange's UUID are random. *)
Definition WscExchange_init (now : Z) (binding : PeerBinding) (device : M1Device) (basic : Basic) (profile2 : Profile2)
    (advanced : Advanced) (mids timeout max : Z) (message_set : string) (multi : bool) (m2_session : string)
    (pair : private_key) (nonce : bytes) (id : string) : result WscExchange :=
  l ← Lifetime_init now timeout max;
  _ ← raise_if (bool_decide (m1_al_mac device ≠ local_al binding) || bool_decide (basic_ruid basic ≠ adv_ruid advanced))
        INVALID_INPUT "M1 identity and capability radio binding differ";
  _ ← nonzero_unicast (basic_ruid basic);
  _ ← raise_if (negb (bool_decide (rf_band device ∈ [1; 2]))) UNSUPPORTED_OPERATION "WSC exchange supports 2.4 or 5 GHz";
  message_set ← check_message_set message_set;
  _ ← raise_if (negb (bool_decide (m2_session ∈ ["distinct"; "shared"]))) INVALID_INPUT "unknown M2 session policy";
  b ← em (basic_payload basic);
  rest ← (if bool_decide (message_set = R1) then Ok []
          else p2 ← em (profile2_payload profile2); a ← em (advanced_payload advanced); Ok [p2; a]);
  tr ← create device pair nonce;
  Ok (mkWscExchange l binding basic mids message_set multi (bool_decide (m2_session = "shared")) (b :: rest) (Some tr) id
        (hex_octets (sha256 (tr_message tr))) None None [] None).

(** [_payload_budget()] *)
Definition payload_budget (w : WscExchange) : Z :=
  if multi_bss w then MAX_M2_PAYLOADS else Z.min (max_bss (w_basic w)) MAX_M2_PAYLOADS.

(** [self._transcript] of an exchange that still has it. *)
Definition held_transcript (w : WscExchange) : result M1Transcript :=
  match transcript w with Some tr => Ok tr | None => Raise (key_error "transcript") end.

(** [WscExchange.request()] *)
Definition w_request (now : Z) : M WscExchange (list bytes) :=
  _ ← transmit now;
  mid ← (λ w, let mid := next_mid (w_mids w) in (Ok mid, w <| w_mids := mid |>));
  w ← get;
  tr ← lift (held_transcript w);
  lift (fragment_message (controller_al (w_binding w)) (local_al (w_binding w)) WSC mid
          (take 1 (capabilities w) ++ [mkTlv 0x11 (tr_message tr)] ++ drop 1 (capabilities w)) false 1500).

(** A check that, when it fails on a waiting exchange, ends it: [except EmosaError]. *)
Definition or_close {A} (r : result A) : M WscExchange A := λ w,
  match r with
  | Ok a => (Ok a, w)
  | Raise e => (Raise e, if bool_decide (l_state (w_life w) = Waiting) then w_close w else w)
  end.

(** The checks of [receive] before its first [try]. *)
Definition w_addressed (w : WscExchange) (message : Message) (ing : string) (gen : Z) : result unit :=
  _ ← binding_check (w_binding w) (m_destination message) (m_source message) ing gen;
  _ ← header message WSC false;
  _ ← raise_if (bool_decide (transmissions (w_life w) = 0)) INVALID_INPUT "M2 received before this exchange sent M1";
  ruid ← one message 0x82;
  raise_if (bool_decide (ruid ≠ basic_ruid (w_basic w))) INVALID_INPUT
    "M2 Radio Identifier differs from the initiating radio".

(** The first [try]: companions and the number of payloads. *)
Definition w_scope (w : WscExchange) (message : Message) : result unit :=
  _ ← raise_if (existsb (λ t, bool_decide (Cmdu.kind t ∈ CONFIGURATION_COMPANIONS)
                              && negb (bool_decide (Cmdu.kind t = 0xE0) && bool_decide (tlv_value t = octets [0])))
                 (m_tlvs message))
        UNSUPPORTED_OPERATION "complete M2 request has unsupported configuration TLVs";
  raise_if (negb (bool_decide (1 ≤ len (values_of message 0x11) ≤ payload_budget w))) INVALID_INPUT
    "WSC payload count exceeds advertised radio scope or local budget".

(** The digest of the WSC occurrences. *)
Definition occurrences (messages : list bytes) : bytes :=
  sha256 (messages ≫= λ v, be_bytes 4 (len v) ++ v).

(** The set, its candidate and the other BSSes. *)
Definition decode_set (tr : M1Transcript) (budget : Z) (shared multi : bool) (messages : list bytes) :
    result (RadioPayloadSet * Candidate * list (string * Candidate)) :=
  radio ← decode_radio_payloads tr messages budget shared;
  if multi then
    pairs ← radio_candidates radio;
    match list_find (λ p : string * Candidate, p.1 = "fronthaul") pairs with
    | Some (i, p) => Ok (radio, p.2, take i pairs ++ drop (S i) pairs)
    | None => Raise (key_error "StopIteration")
    end
  else
    c ← existing_fronthaul_candidate radio;
    Ok (radio, c, []).

(** The second [try] *)
Definition w_decode (w : WscExchange) (messages : list bytes) :
    result (RadioPayloadSet * Candidate * list (string * Candidate)) :=
  tr ← held_transcript w;
  decode_set tr (payload_budget w) (shared_m2_session w) (multi_bss w) messages.

(** [WscExchange.receive] *)
Definition w_receive (now : Z) (message : Message) (ing : string) (gen : Z) : M WscExchange ExchangeResult :=
  _ ← live now;
  w ← get;
  _ ← lift (w_addressed w message ing gen);
  let messages := values_of message 0x11 in
  _ ← or_close (w_scope w message);
  let digest := occurrences messages in
  let ruid := basic_ruid (w_basic w) in
  if bool_decide (l_state (w_life w) = Received) && bool_decide (w_digest w = Some digest) then
    mret (mkExchangeResult true ruid (w_candidate w) [])
  else
    '(radio, c, additional) ← or_close (w_decode w messages);
    if bool_decide (l_state (w_life w) = Received) then
      _ ← lift (raise_if (bool_decide (configuration w ≠ Some radio)) INVALID_INPUT
                  "conflicting M2 after a complete request was already accepted");
      _ ← modify (λ w, w <| w_digest := Some digest |>);
      mret (mkExchangeResult true ruid (w_candidate w) (w_additional w))
    else
      _ ← modify (λ w, set_state Received (w <| w_digest := Some digest |> <| w_candidate := Some c |>
            <| w_additional := additional |> <| configuration := Some radio |>));
      mret (mkExchangeResult false ruid (Some c) additional).

End Wsc.

(** * Theory *)

Lemma live_run `{Exchange E} now (e : E) :
  live now e =
  let e' := if bool_decide (deadline (life e) ≤ now) then close e else e in
  (raise_if (bool_decide (l_state (life e') = Closed)) NOT_READY "exchange closed; restart discovery with fresh M1", e').
Proof. reflexivity. Qed.

Lemma transmit_run `{Exchange E} now (e : E) :
  transmit now e =
  match live now e with
  | (Ok _, e) =>
      match raise_if (negb (bool_decide (l_state (life e) = Waiting))
                      || bool_decide (max_transmissions (life e) ≤ transmissions (life e)))
              NOT_READY "exchange transmission budget exhausted" with
      | Ok _ => (Ok tt, with_life (life e <| transmissions := transmissions (life e) + 1 |>) e)
      | Raise x => (Raise x, e)
      end
  | (Raise x, e) => (Raise x, e)
  end.
Proof.
  unfold transmit. unfold mbind, M_mbind at 1. destruct (live now e) as [[]]; [|done].
  cbn. by destruct (raise_if _ _ _).
Qed.

(** ** Discovery *)

Inductive d_event :=
  | DRequest (now : Z)
  | DReceive (now : Z) (message : Message) (ing : string) (gen : Z)
  | DClose
  | DMids (previous : Z).

(** What an event accepts: the time, the Response and what it says. *)
Definition d_step (d : DiscoveryExchange) (ev : d_event) : list (Z * Message * ControllerAdvertisement) * DiscoveryExchange :=
  match ev with
  | DRequest now => ([], (d_request now d).2)
  | DReceive now message ing gen =>
      match d_receive now message ing gen d with
      | (Ok a, d) => ([(now, message, a)], d)
      | (Raise _, d) => ([], d)
      end
  | DClose => ([], close d)
  | DMids previous => ([], d <| d_mids := previous |>)
  end.

Fixpoint d_run (evs : list d_event) (d : DiscoveryExchange) : list (Z * Message * ControllerAdvertisement) * DiscoveryExchange :=
  match evs with
  | [] => ([], d)
  | ev :: evs => let '(out, d) := d_step d ev in let '(outs, d) := d_run evs d in (out ++ outs, d)
  end.

(** What an exchange asked for, and keeps. *)
Definition d_constants (d : DiscoveryExchange) : Z * Z * Z := (deadline (d_life d), max_transmissions (d_life d), d_band d).

Record discovery_ok (d : DiscoveryExchange) : Prop := {
  d_budget : 0 ≤ transmissions (d_life d) ≤ max_transmissions (d_life d);
  d_searches : Z.of_nat (size (sent_mids d)) ≤ transmissions (d_life d)
}.

(** [d'] continues [d]: nothing asked for changes, no Search and no Response is taken back. *)
Record d_later (d d' : DiscoveryExchange) : Prop := {
  d_same : d_constants d' = d_constants d;
  d_sent : sent_mids d ⊆ sent_mids d';
  d_kept : ∀ a, response d = Some a → response d' = Some a;
  d_final : l_state (d_life d) = Closed → l_state (d_life d') = Closed
}.

#[export] Instance d_later_preorder : PreOrder d_later.
Proof.
  split; [by split|]. intros d1 d2 d3 [] []. split; [congruence|set_solver|auto|auto].
Qed.

Lemma d_live now d :
  d_later d (live now d).2 ∧ (discovery_ok d → discovery_ok (live now d).2)
  ∧ (is_ok (live now d).1 = true → (live now d).2 = d ∧ now < deadline (d_life d) ∧ l_state (d_life d) ≠ Closed).
Proof.
  rewrite live_run. cbv zeta. destruct (bool_decide (deadline (life d) ≤ now)) eqn:Ht; cbn.
  { split; [by split|]. split; [by intros [? ?]; split|done]. }
  split; [by split|]. split; [done|]. bools. cbn in *. destruct (bool_decide (l_state _ = _)) eqn:Hs; [done|]. bools.
  intros _. split; [done|]. split; [lia|done].
Qed.

Lemma d_request_run now d :
  d_request now d =
  match transmit now d with
  | (Ok _, d) =>
      let mid := next_mid (d_mids d) in
      let d := d <| d_mids := mid |> <| sent_mids := {[mid]} ∪ sent_mids d |> in
      (fragment_message MULTICAST (local_al (d_binding d)) SEARCH mid (d_tlvs d) true 1500, d)
  | (Raise x, d) => (Raise x, d)
  end.
Proof. unfold d_request. unfold mbind at 1, M_mbind at 1. by destruct (transmit now d) as [[] ?]. Qed.

Lemma d_request_later now d :
  discovery_ok d → d_later d (d_request now d).2 ∧ discovery_ok (d_request now d).2.
Proof.
  intros Hd. rewrite d_request_run, transmit_run. destruct (d_live now d) as (Hl & Hok & Hlive).
  destruct (live now d) as [[[]|e] d1]; [|by auto]. cbn in Hlive; destruct (Hlive eq_refl) as (-> & _ & _). clear Hlive Hl Hok.
  destruct (raise_if _ _ _) eqn:Hb; [|by auto]. apply raise_if_Ok in Hb. bools. cbn in *. destruct Hd as [Hbud Hs]. cbn in *. split.
  - split; cbn; [done|set_solver|done|done].
  - split; cbn; [lia|]. pose proof (size_union_bound (C := gset Z) {[next_mid (d_mids d)]} (sent_mids d)) as Hu.
    rewrite size_singleton in Hu. lia.
Qed.

(** An accepted Response answers a Search of this exchange, in time, and says what was said before. *)
Lemma d_receive_Ok now message ing gen d a d' :
  d_receive now message ing gen d = (Ok a, d') →
  now < deadline (d_life d) ∧ l_state (d_life d) ≠ Closed ∧ d_judge d message ing gen = Ok a
  ∧ d' = set_state Received (d <| response := Some a |>).
Proof.
  unfold d_receive. intros ([] & d1 & Hl & E)%M_bind_Ok. destruct (d_live now d) as (_ & _ & Hlive). rewrite Hl in Hlive.
  destruct (Hlive eq_refl) as (Hd & Ht & Hs). cbn in Hd. subst d1. cbn in E. unfold mbind, M_mbind, get, lift in E.
  destruct (d_judge d message ing gen) as [a'|]; [|done]. injection E as <- <-. done.
Qed.

Lemma d_judge_Ok d message ing gen a :
  d_judge d message ing gen = Ok a →
  m_mid message ∈ sent_mids d ∧ band a = d_band d ∧ (∀ r, response d = Some r → a = r).
Proof.
  unfold d_judge. intros Hj. apply result_bind_Ok in Hj as ([] & _ & Hj). apply result_bind_Ok in Hj as (a' & _ & Hj).
  apply raise_if_bind_Ok in Hj as [H1 Hj]. apply result_bind_Ok in Hj as (eff & _ & Hj).
  apply raise_if_bind_Ok in Hj as [_ Hj]. apply raise_if_bind_Ok in Hj as [H2 [= ->]]. bools.
  split; [done|]. split; [by apply dec_stable|]. intros r Hr. rewrite Hr in H2. bools. by apply dec_stable.
Qed.

Lemma d_receive_Raise now message ing gen d e d' :
  d_receive now message ing gen d = (Raise e, d') → d' = (live now d).2.
Proof.
  unfold d_receive, mbind, M_mbind, get, lift, modify, mret, M_mret. destruct (live now d) as [[[]|] d1]; [|by intros [= _ <-]].
  destruct (d_judge d1 message ing gen); [done|by intros [= _ <-]].
Qed.

(** What an exchange in the state [d], which becomes [d'], accepted. *)
Definition d_accepted (d d' : DiscoveryExchange) (out : Z * Message * ControllerAdvertisement) : Prop :=
  let '(t, message, a) := out in
  t < deadline (d_life d) ∧ l_state (d_life d) ≠ Closed ∧ m_mid message ∈ sent_mids d' ∧ band a = d_band d ∧ response d' = Some a.

Lemma d_step_later d ev out d' :
  discovery_ok d → d_step d ev = (out, d') → d_later d d' ∧ discovery_ok d' ∧ Forall (d_accepted d d') out.
Proof.
  intros Hd. destruct ev as [now|now message ing gen| |previous]; cbn.
  - intros [= <- <-]. destruct (d_request_later now d Hd). auto.
  - destruct (d_receive now message ing gen d) as [[a|e] d1] eqn:Hr.
    + apply d_receive_Ok in Hr as (Ht & Hs & (Hm & Hb & Hsame)%d_judge_Ok & ->). intros [= <- <-]. cbn. destruct Hd as [H1 H2].
      split; [split; cbn; [done|done| |done]|split; [by split|constructor; [done|constructor]]].
      intros r Hr. f_equal. by apply Hsame.
    + intros [= <- <-]. apply d_receive_Raise in Hr as ->. destruct (d_live now d) as (? & ? & _). auto.
  - intros [= <- <-]. destruct Hd. split; [by split|]. split; [by split|done].
  - intros [= <- <-]. destruct Hd. split; [by split|]. split; [by split|done].
Qed.

Lemma d_accepted_weaken d0 d1 d2 d3 out : d_later d0 d1 → d_later d2 d3 → d_accepted d1 d2 out → d_accepted d0 d3 out.
Proof.
  intros [Hs _ _ Hf] [_ Hm Hk _]. destruct out as [[t message] a]. intros (Ht & Hc & Hmid & Hb & Hr). injection Hs as Hd _ Hband.
  split; [by rewrite <- Hd|]. split; [by intros Hc'; apply Hc, Hf|]. split; [set_solver|]. split; [congruence|auto].
Qed.

Lemma d_run_later evs d outs d' :
  discovery_ok d → d_run evs d = (outs, d') → d_later d d' ∧ discovery_ok d' ∧ Forall (d_accepted d d') outs.
Proof.
  revert d outs. induction evs as [|ev evs IH]; intros d outs Hd; cbn.
  - intros [= <- <-]. split; [reflexivity|]. auto.
  - destruct (d_step d ev) as [out d1] eqn:Hs. destruct (d_run evs d1) as [outs1 d2] eqn:Hr. intros [= <- <-].
    apply d_step_later in Hs as (Hl & Hok & Ho); [|done]. apply IH in Hr as (Hl' & Hok' & Ho'); [|done].
    split; [by etrans|]. split; [done|]. apply Forall_app. split; eapply Forall_impl; [exact Ho| |exact Ho'|]; intros o.
    + by apply d_accepted_weaken.
    + by apply d_accepted_weaken.
Qed.

Lemma DiscoveryExchange_init_ok now binding b p p2 mids timeout max ms d :
  DiscoveryExchange_init now binding b p p2 mids timeout max ms = Ok d →
  discovery_ok d ∧ d_constants d = (now + timeout, max, b) ∧ 1 ≤ max ≤ 16 ∧ 0 < timeout ≤ seconds 60.
Proof.
  unfold DiscoveryExchange_init, Lifetime_init. intros Hi. inv_ok. bools. cbn. split; [|done].
  split; cbn; [lia|]. rewrite size_empty. lia.
Qed.

(** ** The exchange of an M1 *)

Section Pinned.
Context {H : Hash} {C : Crypto}.

Inductive w_event :=
  | WRequest (now : Z)
  | WReceive (now : Z) (message : Message) (ing : string) (gen : Z)
  | WClose
  | WMids (previous : Z).

Definition w_step (w : WscExchange) (ev : w_event) : list (Z * Message * ExchangeResult) * WscExchange :=
  match ev with
  | WRequest now => ([], (w_request now w).2)
  | WReceive now message ing gen =>
      match w_receive now message ing gen w with
      | (Ok r, w) => ([(now, message, r)], w)
      | (Raise _, w) => ([], w)
      end
  | WClose => ([], close w)
  | WMids previous => ([], w <| w_mids := previous |>)
  end.

Fixpoint w_run (evs : list w_event) (w : WscExchange) : list (Z * Message * ExchangeResult) * WscExchange :=
  match evs with
  | [] => ([], w)
  | ev :: evs => let '(out, w) := w_step w ev in let '(outs, w) := w_run evs w in (out ++ outs, w)
  end.

(** What never changes in an exchange. *)
Definition w_constants (w : WscExchange) : Z * bool * bool * Z * Z * bytes :=
  (payload_budget w, shared_m2_session w, multi_bss w, deadline (w_life w), max_transmissions (w_life w),
   basic_ruid (w_basic w)).

(** The M2 set of [message] decodes, with the transcript [tr] and the constants of [w], to this configuration. *)
Definition decodes (tr : M1Transcript) (w : WscExchange) (message : Message)
    (conf : RadioPayloadSet * Candidate * list (string * Candidate)) : Prop :=
  decode_set tr (payload_budget w) (shared_m2_session w) (multi_bss w) (values_of message 0x11) = Ok conf.

(** A result that stands for the configuration [conf]: its candidate is that of [conf], and the occurrences of
    its message have the digest of a set that authenticates and decodes to [conf]. *)
Definition stands_for (tr : M1Transcript) (w : WscExchange) (conf : RadioPayloadSet * Candidate * list (string * Candidate))
    (out : Z * Message * ExchangeResult) : Prop :=
  let '(t, message, r) := out in
  t < deadline (w_life w) ∧ x_ruid r = basic_ruid (w_basic w) ∧ candidate r = Some conf.1.2
  ∧ (x_additional r = conf.2 ∨ x_additional r = [] ∧ duplicate r = true)
  ∧ ∃ m0, decodes tr w m0 conf ∧ occurrences (values_of message 0x11) = occurrences (values_of m0 0x11).

(** The state of an exchange that has accepted [outs]. *)
Record exchange_ok (tr : M1Transcript) (outs : list (Z * Message * ExchangeResult)) (w : WscExchange) : Prop := {
  w_held : l_state (w_life w) ≠ Closed → transcript w = Some tr;
  w_sent : 0 ≤ transmissions (w_life w) ≤ max_transmissions (w_life w);
  w_waiting : l_state (w_life w) = Waiting → outs = [];
  w_pinned : outs = [] ∨ ∃ conf, Forall (stands_for tr w conf) outs
    ∧ (duplicate ∘ snd) <$> outs = false :: replicate (length outs - 1) true
    ∧ (l_state (w_life w) = Received →
       w_candidate w = Some conf.1.2 ∧ w_additional w = conf.2 ∧ configuration w = Some conf.1.1
       ∧ ∃ m0, decodes tr w m0 conf ∧ w_digest w = Some (occurrences (values_of m0 0x11)));
  w_received : l_state (w_life w) = Received → outs ≠ []
}.

Lemma stands_for_same tr w w' conf out : w_constants w' = w_constants w → stands_for tr w conf out → stands_for tr w' conf out.
Proof.
  destruct out as [[t message] r]. unfold stands_for, decodes. intros E. injection E as -> -> -> -> _ ->. done.
Qed.

(** Closing keeps what was accepted. *)
Lemma closed_ok tr outs w : exchange_ok tr outs w → exchange_ok tr outs (w_close w).
Proof.
  intros [_ Hs _ Hp _]. split; [done|done|done| |done]. destruct Hp as [->|(conf & Hf & Hd & _)]; [by left|right].
  exists conf. split; [|done]. eapply Forall_impl; [exact Hf|]. intros o. by apply stands_for_same.
Qed.

Lemma w_live now w tr outs :
  exchange_ok tr outs w →
  exchange_ok tr outs (live now w).2
  ∧ (is_ok (live now w).1 = true → (live now w).2 = w ∧ now < deadline (w_life w) ∧ l_state (w_life w) ≠ Closed)
  ∧ w_constants (live now w).2 = w_constants w ∧ (l_state (w_life w) = Closed → l_state (w_life (live now w).2) = Closed).
Proof.
  intros Hw. rewrite live_run. cbv zeta. destruct (bool_decide (deadline (life w) ≤ now)) eqn:Ht; cbn [fst snd].
  { split; [by apply closed_ok|]. done. }
  split; [done|]. split; [|done]. bools. cbn in Ht. destruct (bool_decide (l_state _ = _)) eqn:Hs; [done|]. bools. cbn in *.
  intros _. split; [done|]. split; [lia|done].
Qed.

Definition closed_if_waiting (w : WscExchange) : WscExchange :=
  if bool_decide (l_state (w_life w) = Waiting) then w_close w else w.

(** [w_receive] on an exchange that is live. *)
Definition w_live_receive (message : Message) (ing : string) (gen : Z) (w : WscExchange) : result ExchangeResult * WscExchange :=
  let messages := values_of message 0x11 in
  let digest := occurrences messages in
  let ruid := basic_ruid (w_basic w) in
  let received := bool_decide (l_state (w_life w) = Received) in
  match w_addressed w message ing gen with
  | Raise e => (Raise e, w)
  | Ok _ =>
      match w_scope w message with
      | Raise e => (Raise e, closed_if_waiting w)
      | Ok _ =>
          if received && bool_decide (w_digest w = Some digest) then (Ok (mkExchangeResult true ruid (w_candidate w) []), w)
          else match w_decode w messages with
               | Raise e => (Raise e, closed_if_waiting w)
               | Ok (radio, c, additional) =>
                   if received then
                     match raise_if (bool_decide (configuration w ≠ Some radio)) INVALID_INPUT
                             "conflicting M2 after a complete request was already accepted" with
                     | Raise e => (Raise e, w)
                     | Ok _ => (Ok (mkExchangeResult true ruid (w_candidate w) (w_additional w)), w <| w_digest := Some digest |>)
                     end
                   else (Ok (mkExchangeResult false ruid (Some c) additional),
                         set_state Received (w <| w_digest := Some digest |> <| w_candidate := Some c |>
                           <| w_additional := additional |> <| configuration := Some radio |>))
               end
      end
  end.

Lemma w_receive_run now message ing gen w :
  w_receive now message ing gen w =
  match live now w with (Ok _, w) => w_live_receive message ing gen w | (Raise e, w) => (Raise e, w) end.
Proof.
  unfold w_receive, w_live_receive, closed_if_waiting. unfold mbind at 1, M_mbind at 1.
  destruct (live now w) as [[]]; [|done]. unfold mbind, M_mbind, get, lift, or_close, mret, M_mret, modify.
  destruct (w_addressed _ _ _ _); [|done]. destruct (w_scope _ _); [|done].
  destruct (bool_decide (l_state (w_life w0) = Received) && bool_decide (w_digest w0 = _)); [done|].
  destruct (w_decode _ _) as [[[radio c] additional]|]; [|done].
  destruct (bool_decide (l_state (w_life w0) = Received)); [|done]. by destruct (raise_if _ _ _).
Qed.

Lemma closed_if_waiting_ok tr outs w : exchange_ok tr outs w → exchange_ok tr outs (closed_if_waiting w).
Proof. unfold closed_if_waiting. destruct (bool_decide _); [apply closed_ok|done]. Qed.

(** Another accepted result of an exchange that has its configuration. *)
Lemma pinned_again tr outs w w' conf m0 now message additional :
  exchange_ok tr outs w → l_state (w_life w) = Received → now < deadline (w_life w) →
  outs ≠ [] → Forall (stands_for tr w conf) outs →
  (duplicate ∘ snd) <$> outs = false :: replicate (length outs - 1) true →
  w_candidate w = Some conf.1.2 → w_additional w = conf.2 → configuration w = Some conf.1.1 →
  decodes tr w m0 conf → occurrences (values_of message 0x11) = occurrences (values_of m0 0x11) →
  (additional = conf.2 ∨ additional = []) →
  w' = w <| w_digest := Some (occurrences (values_of message 0x11)) |> →
  exchange_ok tr (outs ++ [(now, message, mkExchangeResult true (basic_ruid (w_basic w)) (w_candidate w) additional)]) w'.
Proof.
  intros Hw Hs Hnow Hne Hf Hdup Hc Ha Hconf Hm Hocc Hadd ->. pose proof Hw as [Hh Hsent _ _ _].
  split; cbn; [done|done|congruence| |by intros _; destruct outs]. right. exists conf. split; [|split].
  - apply Forall_app. split; [eapply Forall_impl; [exact Hf|]; intros o; by apply stands_for_same|].
    apply Forall_singleton. cbn. split; [done|]. split; [done|]. split; [done|]. split; [destruct Hadd; auto|]. by exists m0.
  - rewrite fmap_app, Hdup, length_app. destruct outs as [|o outs]; [done|]. cbn [length Nat.sub fmap list_fmap app].
    rewrite Nat.sub_0_r. replace (S (length outs) + 1 - 1)%nat with (S (length outs)) by lia. rewrite replicate_S_end. done.
  - intros _. split; [done|]. split; [done|]. split; [done|]. exists m0. by rewrite Hocc.
Qed.

(** The candidate and the other BSSes are a function of the set. *)
Lemma decode_set_same tr budget shared multi messages messages' conf conf' :
  decode_set tr budget shared multi messages = Ok conf → decode_set tr budget shared multi messages' = Ok conf' →
  conf.1.1 = conf'.1.1 → conf = conf'.
Proof.
  unfold decode_set. intros (radio & _ & E)%result_bind_Ok (radio' & _ & E')%result_bind_Ok Hr.
  assert (Hx : radio = conf.1.1 ∧ radio' = conf'.1.1).
  { destruct multi; inv_ok; [|done]. repeat destruct (list_find _ _) as [[]|]; inv_ok; done. }
  destruct Hx as [-> ->]. rewrite <- Hr in E'. congruence.
Qed.

Lemma w_live_receive_ok now message ing gen tr outs w :
  exchange_ok tr outs w → now < deadline (w_life w) → l_state (w_life w) ≠ Closed →
  let '(r, w') := w_live_receive message ing gen w in
  exchange_ok tr (outs ++ match r with Ok x => [(now, message, x)] | Raise _ => [] end) w' ∧ w_constants w' = w_constants w.
Proof.
  intros Hw Hnow Hlive. assert (Hcl : exchange_ok tr (outs ++ []) (closed_if_waiting w) ∧ w_constants (closed_if_waiting w) = w_constants w).
  { rewrite app_nil_r. split; [by apply closed_if_waiting_ok|]. unfold closed_if_waiting. by destruct (bool_decide _). }
  unfold w_live_receive. cbv zeta. destruct (w_addressed _ _ _ _); [|by rewrite app_nil_r].
  destruct (w_scope _ _); [|done]. pose proof Hw as [Hh Hsent Hwait Hp Hrec]. specialize (Hh Hlive).
  assert (Hdec : ∀ conf, w_decode w (values_of message 0x11) = Ok conf → decodes tr w message conf).
  { unfold w_decode, held_transcript. rewrite Hh. done. }
  destruct (bool_decide (l_state (w_life w) = Received)) eqn:Hst; cbn [andb].
  - bools. destruct Hp as [->|(conf & Hf & Hdup & Hfields)]; [by destruct (Hrec Hst)|].
    destruct (Hfields Hst) as (Hc & Ha & Hconf & m0 & Hm0 & Hdig). pose proof (Hrec Hst) as Hne.
    destruct (bool_decide (w_digest w = _)) eqn:Hd; bools.
    + split; [|done]. rewrite Hdig in Hd. injection Hd as Hd. eapply (pinned_again tr outs w w conf m0); auto.
      destruct w; cbn in *. congruence.
    + destruct (w_decode _ _) as [[[radio c] additional]|] eqn:Hdd; [|done]. destruct (raise_if _ _ _) eqn:Hr; [|by rewrite app_nil_r].
      apply raise_if_Ok in Hr. bools. apply dec_stable in Hr. rewrite Hconf in Hr. injection Hr as Hradio.
      split; [|done]. specialize (Hdec _ eq_refl). pose proof (decode_set_same _ _ _ _ _ _ _ _ Hdec Hm0 (eq_sym Hradio)) as <-.
      eapply (pinned_again tr outs w _ (radio, c, additional) message); auto.
  - bools. assert (Hwt : l_state (w_life w) = Waiting) by (destruct (l_state (w_life w)); done).
    rewrite (Hwait Hwt) in *. destruct (w_decode _ _) as [[[radio c] additional]|] eqn:Hdd; [|done]. split; [|done].
    split; cbn; [done|done|done| |done]. right. exists (radio, c, additional). split; [|split; [done|]].
    + apply Forall_singleton. cbn. split; [done|]. split; [done|]. split; [done|]. split; [by left|]. exists message. split; [by apply Hdec|done].
    + intros _. split; [done|]. split; [done|]. split; [done|]. exists message. split; [by apply Hdec|done].
Qed.

Lemma w_request_run now w :
  (w_request now w).2 = match transmit now w with (Ok _, w) => w <| w_mids := next_mid (w_mids w) |> | (Raise _, w) => w end.
Proof.
  unfold w_request. unfold mbind at 1, M_mbind at 1. destruct (transmit now w) as [[] w1]; [|done].
  unfold mbind, M_mbind, get, lift. cbn. by destruct (held_transcript _).
Qed.

Lemma mids_ok tr outs w previous : exchange_ok tr outs w → exchange_ok tr outs (w <| w_mids := previous |>).
Proof.
  intros [Hh Hs Hw Hp Hr]. split; [done|done|done| |done]. destruct Hp as [->|(conf & Hf & Hd & Hx)]; [by left|right].
  exists conf. split; [|split; [done|exact Hx]]. eapply Forall_impl; [exact Hf|]. intros o. by apply stands_for_same.
Qed.

Lemma w_request_ok now tr outs w :
  exchange_ok tr outs w → exchange_ok tr outs (w_request now w).2 ∧ w_constants (w_request now w).2 = w_constants w
  ∧ (l_state (w_life w) = Closed → l_state (w_life (w_request now w).2) = Closed).
Proof.
  intros Hw. rewrite w_request_run, transmit_run. destruct (w_live now w tr outs Hw) as (Hok & Hlive & Hc & Hcl).
  destruct (live now w) as [[[]|e] w1]; [|done]. cbn in Hlive. destruct (Hlive eq_refl) as (-> & _ & Hs). cbn in Hs.
  destruct (raise_if _ _ _) eqn:Hb; [|done]. apply raise_if_Ok in Hb. bools. cbn in *.
  split; [|done]. destruct Hw as [Hh Hsent Hwait Hp Hr]. split; cbn; [done|lia|done| |done].
  left. by apply Hwait.
Qed.

Lemma w_step_ok tr outs w ev out w' :
  exchange_ok tr outs w → w_step w ev = (out, w') →
  exchange_ok tr (outs ++ out) w' ∧ w_constants w' = w_constants w
  ∧ (l_state (w_life w) = Closed → l_state (w_life w') = Closed ∧ out = []).
Proof.
  intros Hw. destruct ev as [now|now message ing gen| |previous]; cbn [w_step].
  - intros [= <- <-]. rewrite app_nil_r. destruct (w_request_ok now tr outs w Hw) as (? & ? & ?). auto.
  - rewrite w_receive_run. destruct (w_live now w tr outs Hw) as (Hok & Hlive & Hc & Hcl).
    destruct (live now w) as [[[]|e] w1]; cbn in *; [|intros [= <- <-]; rewrite app_nil_r; auto].
    destruct (Hlive eq_refl) as (-> & Ht & Hs). pose proof (w_live_receive_ok now message ing gen tr outs w Hw Ht Hs) as Hx.
    destruct (w_live_receive _ _ _ _) as [[r|e] w2]; destruct Hx as [Hx1 Hx2]; intros [= <- <-]; (split; [done|]; split; [done|]; by intros ?).
  - intros [= <- <-]. rewrite app_nil_r. split; [by apply closed_ok|done].
  - intros [= <- <-]. rewrite app_nil_r. split; [by apply mids_ok|done].
Qed.

Lemma w_run_ok tr evs outs w outs' w' :
  exchange_ok tr outs w → w_run evs w = (outs', w') →
  exchange_ok tr (outs ++ outs') w' ∧ w_constants w' = w_constants w
  ∧ (l_state (w_life w) = Closed → outs' = []).
Proof.
  revert outs w outs'. induction evs as [|ev evs IH]; intros outs w outs' Hw; cbn.
  - intros [= <- <-]. by rewrite app_nil_r.
  - destruct (w_step w ev) as [out w1] eqn:Hs. destruct (w_run evs w1) as [outs1 w2] eqn:Hr. intros [= <- <-].
    apply (w_step_ok tr outs) in Hs as (Hok & Hc & Hcl); [|done]. apply (IH (outs ++ out)) in Hr as (Hok' & Hc' & Hcl'); [|done].
    rewrite app_assoc. split; [done|]. split; [congruence|]. intros Hcd. destruct (Hcl Hcd) as [Hcd1 ->]. by rewrite (Hcl' Hcd1).
Qed.

(** A message for the radio of the exchange whose set is out of scope, or fails to authenticate and decode. *)
Definition fails (tr : M1Transcript) (w0 w : WscExchange) (message : Message) (ing : string) (gen : Z) (e : EmosaError) : Prop :=
  w_addressed w message ing gen = Ok tt
  ∧ (w_scope w message = Raise e
     ∨ w_scope w message = Ok tt
       ∧ decode_set tr (payload_budget w0) (shared_m2_session w0) (multi_bss w0) (values_of message 0x11) = Raise e).

(** Before the deadline, the first set that fails ends the exchange; afterwards a set that is refused changes nothing. *)
Lemma failed_closes tr outs w0 w now message ing gen e :
  exchange_ok tr outs w → w_constants w = w_constants w0 → l_state (w_life w) = Waiting → now < deadline (w_life w) →
  fails tr w0 w message ing gen e → w_receive now message ing gen w = (Raise e, w_close w).
Proof.
  intros [Hh _ _ _ _] Hc Hs Ht [Ha Hf]. rewrite w_receive_run, live_run. cbv zeta. cbn [life wsc_lifetime].
  rewrite (bool_decide_eq_false_2 (_ ≤ _)) by lia. cbn [life wsc_lifetime]. rewrite Hs. cbn [raise_if].
  assert (Hw : closed_if_waiting w = w_close w) by (unfold closed_if_waiting; by rewrite Hs).
  unfold w_live_receive. cbv zeta. rewrite Ha, Hs, Hw. destruct Hf as [->|[-> Hd]]; [done|]. cbn [bool_decide andb].
  unfold w_decode, held_transcript. rewrite Hh by congruence. cbn.
  injection Hc as Hc1 Hc2 Hc3 Hc4 Hc5 Hc6. unfold payload_budget in *. rewrite ?Hc1, ?Hc2, ?Hc3, ?Hc4, ?Hc5, ?Hc6. by rewrite Hd.
Qed.

Lemma refused_kept w now message ing gen e w' :
  l_state (w_life w) = Received → now < deadline (w_life w) → w_receive now message ing gen w = (Raise e, w') → w' = w.
Proof.
  intros Hs Ht. rewrite w_receive_run, live_run. cbv zeta. cbn [life wsc_lifetime].
  rewrite (bool_decide_eq_false_2 (_ ≤ _)) by lia. cbn [life wsc_lifetime]. rewrite Hs. cbn [raise_if].
  assert (Hw : closed_if_waiting w = w) by (unfold closed_if_waiting; by rewrite Hs).
  unfold w_live_receive. cbv zeta. rewrite Hs, Hw, (bool_decide_eq_true_2 (Received = Received)) by done. cbn [andb].
  destruct (w_addressed _ _ _ _); [|by intros [= _ <-]]. destruct (w_scope _ _); [|by intros [= _ <-]].
  destruct (bool_decide (w_digest w = _)); [done|]. destruct (w_decode _ _) as [[[radio c] additional]|]; [|by intros [= _ <-]].
  destruct (raise_if _ _ _); [|by intros [= _ <-]]. destruct (raise_if _ _ _); [done|by intros [= _ <-]].
Qed.

Lemma WscExchange_init_ok now binding device basic p2 adv mids timeout max ms multi session pair nonce id w :
  WscExchange_init now binding device basic p2 adv mids timeout max ms multi session pair nonce id = Ok w →
  ∃ tr, create device pair nonce = Ok tr ∧ transcript w = Some tr ∧ exchange_ok tr [] w
    ∧ deadline (w_life w) = now + timeout ∧ max_transmissions (w_life w) = max ∧ 0 < timeout ≤ seconds 60 ∧ 1 ≤ max ≤ 16.
Proof.
  unfold WscExchange_init, Lifetime_init. intros Hi. inv_ok. bools. eexists. split; [eassumption|]. split; [done|].
  split; [|done]. split; cbn; [done|lia|done|by left|done].
Qed.

End Pinned.

(** ** The Search of an exchange *)

(** What the encoder of a value makes is a TLV of its kind that decodes to the value. *)
Lemma em_value p t : em p = Ok t → ∃ v, t = mkTlv (Payloads.kind p) v ∧ decode_value (Payloads.kind p) v = Ok (received p).
Proof.
  intros E. pose proof (em_carries p t E) as Hc. unfold em in E. apply result_bind_Ok in E as (v & _ & [= <-]).
  by exists v.
Qed.

(** * Properties *)

(** The Search an exchange sends reads as what it asks for: its AL address, its band and Profile 1. *)
Theorem search_readable now binding b p p2 mids timeout max d mid n :
  DiscoveryExchange_init now binding b p p2 mids timeout max EASYMESH_61 = Ok d →
  is_ok (nonzero_unicast (local_al binding)) = true →
  parse_search (mkMessage MULTICAST (local_al binding) SEARCH mid true (d_tlvs d) n) = Ok (mkSearch (local_al binding) b 1).
Proof.
  unfold DiscoveryExchange_init. intros Hi Hu. apply result_bind_Ok in Hi as (l & _ & Hi).
  apply result_bind_Ok in Hi as (ms & [= <-] & Hi). apply raise_if_bind_Ok in Hi as [Hb Hi]. bools.
  assert (p = 1) as -> by (by apply dec_stable). apply result_bind_Ok in Hi as (t1 & (v1 & -> & H1)%em_value & Hi).
  apply result_bind_Ok in Hi as (t2 & (v2 & -> & H2)%em_value & Hi). apply result_bind_Ok in Hi as (rest & Hrest & [= <-]).
  cbn [bool_decide] in Hrest. rewrite bool_decide_eq_false_2 in Hrest by done.
  apply result_bind_Ok in Hrest as (t3 & (v3 & -> & H3)%em_value & Hrest).
  apply result_bind_Ok in Hrest as (t4 & (v4 & -> & H4)%em_value & [= <-]).
  destruct (nonzero_unicast (local_al binding)) as [u|] eqn:Hal; [|done].
  assert (Hlen : length (local_al binding) = 6%nat ∧ u = local_al binding).
  { unfold nonzero_unicast in Hal. apply result_bind_Ok in Hal as (? & [_ ?]%mac_Ok & E). by apply raise_if_bind_Ok in E as [_ [= <-]]. }
  destruct Hlen as [Hlen ->]. set (message := mkMessage _ _ _ _ _ _ _).
  assert (Hv : values_of message 0x01 = [local_al binding] ∧ values_of message 0x0D = [octets [0]]
    ∧ values_of message 0x0E = [octets [b]] ∧ values_of message 0x80 = [v1] ∧ values_of message 0x81 = [v2]
    ∧ values_of message 0xB3 = [v3] ∧ values_of message 0xB4 = [v4]).
  { unfold values_of, message. cbn [m_tlvs d_tlvs app]. by rewrite !filter_cons. }
  destruct Hv as (E1 & E2 & E3 & E4 & E5 & E6 & E7). unfold parse_search, base, one.
  apply result_bind_Ok; eexists; split.
  { unfold header, message. cbn [m_source]. rewrite Hal. reflexivity. }
  apply result_bind_Ok; eexists; split; [by rewrite E1; cbn [concat]; rewrite app_nil_r, bool_decide_eq_true_2|].
  apply result_bind_Ok; eexists; split; [exact Hal|]. apply result_bind_Ok; eexists; split; [by rewrite E2|].
  apply raise_if_bind_Ok; split; [done|]. apply result_bind_Ok; exists (octets [b]); split; [by rewrite E3|]. cbv zeta.
  assert (Hband : octet_at 0 (octets [b]) = b) by (match goal with H : b ∈ _ |- _ => revert H end; rewrite !elem_of_cons, elem_of_nil; by intros [->|[->|[]]]).
  rewrite Hband. apply raise_if_bind_Ok; split; [apply negb_false_iff, bool_decide_eq_true; match goal with H : b ∈ _ |- _ => revert H end; rewrite !elem_of_cons; tauto|].
  apply result_bind_Ok; eexists; split; [by rewrite E4|]. apply result_bind_Ok; eexists; split; [exact H1|].
  apply raise_if_bind_Ok; split; [done|]. apply result_bind_Ok; eexists; split; [by rewrite E5|].
  apply result_bind_Ok; eexists; split; [exact H2|]. apply raise_if_bind_Ok; split; [done|].
  apply result_bind_Ok; eexists; split; [by rewrite E6|]. apply result_bind_Ok; eexists; split; [exact H3|].
  apply result_bind_Ok; eexists; split; [|reflexivity]. cbn [profile_of received]. rewrite bool_decide_eq_true_2 by done.
  apply result_bind_Ok; eexists; split; [by rewrite E7|]. apply result_bind_Ok; eexists; split; [exact H4|done].
Qed.

(** One discovery exchange has one answer. In every run of an exchange - Searches, Responses and other
    messages in any order and at any times, identifiers taken by others, a close at any point - each Response
    it accepts came before the deadline, answers a Search of this exchange (its MID) for the band asked for,
    and says the same; at most the budgeted Searches were made; a closed exchange accepts nothing. *)
Theorem discovery_pinned now binding b p p2 mids timeout max ms d0 evs outs d :
  DiscoveryExchange_init now binding b p p2 mids timeout max ms = Ok d0 → d_run evs d0 = (outs, d) →
  Forall (λ out, out.1.1 < now + timeout ∧ m_mid out.1.2 ∈ sent_mids d ∧ band out.2 = b ∧ response d = Some out.2) outs
  ∧ Z.of_nat (size (sent_mids d)) ≤ max ≤ 16
  ∧ (l_state (d_life d) = Closed → ∀ evs', (d_run evs' d).1 = []).
Proof.
  intros (Hd & Hc & Hmax & _)%DiscoveryExchange_init_ok Hr. pose proof (d_run_later _ _ _ _ Hd Hr) as (Hl & Hok & Hout).
  injection Hc as Hdl Hm Hb. pose proof (d_same _ _ Hl) as Hs. injection Hs as Hs1 Hs2 Hs3. split; [|split].
  - eapply Forall_impl; [exact Hout|]. intros [[t m] a]. cbn. rewrite Hdl, Hb. naive_solver.
  - destruct Hok as [H1 H2]. rewrite Hs2, Hm in H1. lia.
  - intros Hcl evs'. destruct (d_run evs' d) as [outs' d'] eqn:Hr'. pose proof (d_run_later _ _ _ _ Hok Hr') as (_ & _ & Ho).
    destruct outs' as [|[[t m] a] outs']; [done|]. apply Forall_cons in Ho as [(_ & Hn & _) _]. done.
Qed.

(** C26: one WSC exchange has one configuration. In every run of an exchange, all M2 sets it accepts came before
    the deadline and stand for one configuration: that of a set which authenticates against this exchange's
    M1, either the set itself or one with the same digest; their results name the exchange's radio and carry
    one candidate; exactly the first is not a duplicate. No more M1s are sent than budgeted. Before the deadline, a
    message for this exchange's radio whose set is out of scope or fails to authenticate closes an exchange that
    has no configuration yet, and drops its transcript; an exchange that has one is left as it is by every message
    it refuses. A closed exchange accepts nothing, whatever comes. *)
Theorem exchange_pinned `{Hash} `{Crypto} now binding device basic p2 adv mids timeout max ms multi session pair nonce id
    w0 evs outs w :
  WscExchange_init now binding device basic p2 adv mids timeout max ms multi session pair nonce id = Ok w0 →
  w_run evs w0 = (outs, w) →
  (∃ tr, create device pair nonce = Ok tr ∧ (outs = [] ∨ ∃ conf, Forall (stands_for tr w0 conf) outs)
    ∧ (∀ t message ing gen e, l_state (w_life w) = Waiting → t < now + timeout → fails tr w0 w message ing gen e →
        w_receive t message ing gen w = (Raise e, w_close w)))
  ∧ (duplicate ∘ snd) <$> outs = match outs with [] => [] | _ :: rest => false :: replicate (length rest) true end
  ∧ transmissions (w_life w) ≤ max ≤ 16
  ∧ (∀ t message ing gen e w', l_state (w_life w) = Received → t < now + timeout →
      w_receive t message ing gen w = (Raise e, w') → w' = w)
  ∧ (l_state (w_life (w_close w)) = Closed ∧ transcript (w_close w) = None)
  ∧ (∀ wc, wc = w_close w ∨ wc = w ∧ l_state (w_life w) = Closed → ∀ evs', (w_run evs' wc).1 = []).
Proof.
  intros (tr & Htr & _ & Hok & Hdl & Hm & _ & Hmax)%WscExchange_init_ok Hr.
  pose proof (w_run_ok tr evs [] w0 outs w Hok Hr) as (Hok' & Hc & _). cbn in Hok'. pose proof Hok' as [_ Hs _ Hp _].
  assert (Hx : outs = [] ∨ ∃ conf, Forall (stands_for tr w0 conf) outs
    ∧ (duplicate ∘ snd) <$> outs = false :: replicate (length outs - 1) true).
  { destruct Hp as [?|(conf & Hf & Hdup & _)]; [by left|right]. exists conf. split; [|done].
    eapply Forall_impl; [exact Hf|]. intros o. by apply stands_for_same. }
  assert (Hdw : deadline (w_life w) = now + timeout) by (injection Hc; congruence).
  split; [exists tr; split; [done|]; split; [naive_solver|]|].
  { intros t message ing gen e Hst Ht Hf. eapply failed_closes; [done..|by rewrite Hdw|done]. }
  split.
  { destruct Hx as [->|(conf & _ & Hdup)]; [done|]. destruct outs; [done|]. rewrite Hdup. cbn. by rewrite Nat.sub_0_r. }
  split; [injection Hc; intros; split; [rewrite <- Hm|]; lia|].
  split; [intros t message ing gen e w' Hst Ht; apply refused_kept; [done|by rewrite Hdw]|]. split; [done|].
  intros wc Hwc evs'. assert (Hcl : exchange_ok tr outs wc ∧ l_state (w_life wc) = Closed).
  { destruct Hwc as [->|[-> ?]]; [|done]. split; [by apply closed_ok|done]. }
  destruct Hcl as [Hokc Hcl]. destruct (w_run evs' wc) as [outs' w'] eqn:Hr'. by pose proof (w_run_ok tr evs' outs wc outs' w' Hokc Hr') as (_ & _ & ->).
Qed.

Definition ex_al : bytes := octets [2; 0; 0; 0; 0; 1].
Definition ex_controller : bytes := octets [2; 0; 0; 0; 0; 0xAA].
Definition ex_peer : PeerBinding := mkPeerBinding "eth0" 1 ex_al ex_controller [ex_controller].
Definition ex_profile2 : Profile2 := mkProfile2 0 0 0 0.
Definition ex_response (mid : Z) : Message :=
  mkMessage ex_al ex_controller RESPONSE mid false
    [mkTlv 0x0F (octets [0]); mkTlv 0x10 (octets [0]); mkTlv 0x80 (octets [1; 0]); mkTlv 0xB3 (octets [1])] 1.
Definition ex_discovery_events : list d_event :=
  [DRequest 100; DReceive 200 (ex_response 9) "eth0" 1; DReceive 300 (ex_response 1) "eth0" 1;
   DMids 7; DReceive 400 (ex_response 1) "eth0" 1; DReceive 6000 (ex_response 1) "eth0" 1].

Lemma discovery_pinned_witness :
  ∃ d outs d', DiscoveryExchange_init 0 ex_peer 0 1 ex_profile2 0 5000 3 EASYMESH_61 = Ok d
    ∧ d_run ex_discovery_events d = (outs, d') ∧ outs.*1.*1 = [300; 400]
    ∧ Forall (λ out, response d' = Some out.2) outs.
Proof.
  destruct (DiscoveryExchange_init 0 ex_peer 0 1 ex_profile2 0 5000 3 EASYMESH_61) as [d|] eqn:Hd.
  2:{ vm_compute in Hd. discriminate Hd. }
  destruct (d_run ex_discovery_events d) as [outs d'] eqn:Hr.
  destruct (discovery_pinned 0 ex_peer 0 1 ex_profile2 0 5000 3 EASYMESH_61 d ex_discovery_events outs d' Hd Hr) as (Hall & _ & _).
  exists d, outs, d'. split; [done|]. split; [done|]. split.
  - vm_compute in Hd. injection Hd as <-. vm_compute in Hr. injection Hr as <- _. vm_compute. reflexivity.
  - eapply Forall_impl; [exact Hall|]. cbn. by intros x (_ & _ & _ & Hx).
Defined.

(** An exchange over the M1 and the M2s of the examples of [WscRadio]. *)
#[local] Existing Instance checksum.
#[local] Existing Instance toy_crypto.
Definition ex_ruid : bytes := octets [2; 0; 0; 0; 0; 0x10].
Definition ex_exchange_of (multi : bool) : result WscExchange :=
  WscExchange_init 0 ex_peer ex_device (mkBasic ex_ruid 4 []) ex_profile2 (mkAdvanced ex_ruid 0) 0 5000 3 R1 multi "distinct"
    (ex_key 3) (ex_nonce 1) "00112233445566778899aabbccddeeff".
Definition ex_m2_message (m2s : list bytes) : Message :=
  mkMessage ex_al ex_controller WSC 9 false (mkTlv 0x82 ex_ruid :: (mkTlv 0x11 <$> m2s)) 1.
(** The same two BSSes twice: the set, the set again, the set encrypted anew. *)
Definition ex_exchange_events : result (list w_event) :=
  tr ← ex_m1 1; front ← ex_m2 tr 3 0x20; back ← ex_m2 tr 4 0x40; front' ← ex_m2 tr 5 0x20; back' ← ex_m2 tr 6 0x40;
  Ok [WRequest 100; WReceive 200 (ex_m2_message [front; back]) "eth0" 1;
      WReceive 300 (ex_m2_message [front; back]) "eth0" 1; WReceive 400 (ex_m2_message [front'; back']) "eth0" 1].
Definition ex_exchange_run : result (list (Z * Message * ExchangeResult) * WscExchange) :=
  w ← ex_exchange_of true; evs ← ex_exchange_events; Ok (w_run evs w).

Definition shape (r : result (list (Z * Message * ExchangeResult) * WscExchange)) : option (list (Z * bool * nat)) :=
  match r with
  | Ok p => Some ((λ o, (o.1.1, duplicate o.2, length (x_additional o.2))) <$> p.1)
  | Raise _ => None
  end.

(** The identical retry of a set of two BSSes is answered without the second, the one encrypted anew with it. *)
Example identical_retry_without_additional :
  shape ex_exchange_run = Some [(200, false, 1%nat); (300, true, 0%nat); (400, true, 1%nat)].
Proof. vm_compute. reflexivity. Qed.

Lemma exchange_pinned_witness :
  ∃ w0 evs outs w, ex_exchange_of true = Ok w0 ∧ w_run evs w0 = (outs, w)
    ∧ (λ o, (o.1.1, duplicate o.2)) <$> outs = [(200, false); (300, true); (400, true)]
    ∧ ∃ tr conf, ex_m1 1 = Ok tr ∧ Forall (stands_for tr w0 conf) outs.
Proof.
  destruct ex_exchange_run as [[outs w]|] eqn:E.
  2:{ pose proof identical_retry_without_additional as Hs. unfold shape in Hs. rewrite E in Hs. discriminate Hs. }
  pose proof identical_retry_without_additional as Hs. unfold shape in Hs. rewrite E in Hs. injection Hs as Hs.
  unfold ex_exchange_run in E. apply result_bind_Ok in E as (w0 & Hw & E). apply result_bind_Ok in E as (evs & _ & E).
  injection E as E. pose proof Hw as Hw'. unfold ex_exchange_of in Hw'.
  destruct (exchange_pinned _ _ _ _ _ _ _ _ _ _ _ _ _ _ _ _ _ _ _ Hw' E) as ((tr & Htr & Hx & _) & _).
  exists w0, evs, outs, w. split; [done|]. split; [done|]. split.
  - apply (f_equal (fmap (λ x : Z * bool * nat, x.1))) in Hs. rewrite <- list_fmap_compose in Hs. exact Hs.
  - destruct Hx as [->|[conf Hf]]; [discriminate Hs|]. exists tr, conf. split; [exact Htr|done].
Defined.
