(* ===== verification/Bridge.v ===== *)
(** * From an authenticated exchange to an operation: [src/emosa/wire/operation_bridge.py]

    [WscComponentBridge]: one live WSC exchange into at most one durable operation. Its coroutines await the
    source of the context and the backend's plan: what happens meanwhile to the engine, the secrets and the
    exchange, which other tasks share, is [interfere]; the answers, the clocks, the disk and the link are
    functions of the number of readings made so far ([Awaits]). *)

From stdpp Require Import pretty.
From S2P Require Import Prelude Bytes Cmdu Lifecycle Store Engine Reports Session Secrets Digest Wsc WscMessages WscRadio.
From S2P Require Import Autoconfiguration.

(** ** What a bridge maps onto *)

Record ComponentTarget := mkComponentTarget {
  t_pod_id : string; t_radio_id : string; t_bss_id : string; t_ruid : bytes; t_bssid : bytes }.

(** [ComponentTarget.__post_init__]; identifiers are text, their lengths those of their characters. *)
Definition ComponentTarget_init (pod radio bss : string) (ruid bssid : bytes) : result ComponentTarget :=
  _ ← check_each (λ s, raise_if (negb (bool_decide (1 ≤ chars s ≤ 128))) INVALID_INPUT
                         "invalid component resource identity") [pod; radio; bss];
  _ ← check_each (λ a, _ ← mac a;
        raise_if (bool_decide (a = octets [0; 0; 0; 0; 0; 0]) || negb (bool_decide (Z.land (octet_at 0 a) 1 = 0)))
          INVALID_INPUT "component target must be unicast") [ruid; bssid];
  Ok (mkComponentTarget pod radio bss ruid bssid).

(** ** [fitted(additional, slots)] *)

Definition Slot : Type := string * string * Z.

(** The slots of each role. *)
Definition free_slots (slots : list Slot) : gmap string Z :=
  foldl (λ free slot, <[slot.1.2 := default 0 (free !! slot.1.2) + 1]> free) ∅ slots.

(** The loop over the BSSes, from [index] on. *)
Fixpoint fit {A} (index : nat) (additional : list (string * A)) (free : gmap string Z) : gset nat :=
  match additional with
  | [] => ∅
  | (role, _) :: rest =>
      let n := default 0 (free !! role) in
      if bool_decide (0 < n) then {[index]} ∪ fit (S index) rest (<[role := n - 1]> free)
      else fit (S index) rest free
  end.

Definition fitted {A} (additional : list (string * A)) (slots : option (list Slot)) : gset nat :=
  match slots with
  | None => list_to_set (seq 0 (length additional))
  | Some slots => fit 0 additional (free_slots slots)
  end.

(** [(pair for n, pair in enumerate(pairs) if n in kept)] *)
Definition select {A} (pairs : list A) (kept : gset nat) : list A :=
  snd <$> filter (λ ip : nat * A, ip.1 ∈ kept) (imap pair pairs).

(** ** Intents of either scope *)

Inductive scope_intent := Primary (i : Intent) | Radio (i : RadioIntent).
#[export] Instance scope_intent_type : IntentType scope_intent := {|
  i_pod_id i := match i with Primary i => i_pod_id i | Radio i => i_pod_id i end;
  i_validate i := match i with Primary i => i_validate i | Radio i => i_validate i end;
  i_target v i := match i with Primary i => i_target v i | Radio i => i_target v i end;
  i_record i := match i with Primary i => i_record i | Radio i => i_record i end |}.

Record ScopeContext := mkScopeContext { sc_generation : Z; sc_schema_fingerprint : string; binding_token : string }.
#[export] Instance ScopeContext_eq_dec : EqDecision ScopeContext.
Proof. solve_decision. Defined.

(** What the constructor reads of the pod's backend. *)
Record Backend := mkBackend {
  mode : string; primary_bss : bool; be_radio_id : string; be_slots : option (list Slot) }.

(** The constants of a bridge. *)
Record BridgeConfig := mkBridgeConfig {
  cf_target : ComponentTarget;
  cf_primary : bool;
  cf_slots : option (list Slot);
  cf_process_id : string;
  cf_run_id : string;
  cf_deadline : Z
}.

(** An exception that is not an [EmosaError], a cancellation included. *)
Definition crash : EmosaError := mkEmosaError NOT_FOUND "BaseException".

Definition settle {A} (a : answer A) : result A :=
  match a with
  | Returned a => Ok a
  | RaisedEmosa e => Raise e
  | RaisedIO => Raise os_error
  | RaisedOther => Raise crash
  end.

Section Bridge.
Context {H : Hash} {C : Crypto}.
Variable validate_operation : Operation scope_intent → result unit.
Variable fingerprint : value → string.
Variable backends : gmap string (option string).
Variable cf : BridgeConfig.

(** What a bridge shares with other tasks. *)
Record Shared := mkShared { engine : Engine scope_intent; vault : Secrets; exchange : WscExchange }.
#[export] Instance eta_Shared : Eta Shared := λ s, mkShared (engine s) (vault s) (exchange s).

(** A bridge; [refs], [created] and [authenticated] are the variables of the [receive] in progress. *)
Record Bridge := mkBridge {
  shared : Shared;
  context : option ScopeContext;
  b_operation : option string;
  receiving : bool;
  ticks : nat;
  sent_frames : list bytes;
  refs : list string;
  created : bool;
  authenticated : bool
}.
#[export] Instance eta_Bridge : Eta Bridge := λ b,
  mkBridge (shared b) (context b) (b_operation b) (receiving b) (ticks b) (sent_frames b) (refs b) (created b)
    (authenticated b).

Class Awaits := {
  aw_context : nat → answer ScopeContext;
  aw_plan : nat → answer unit;
  interfere : nat → Shared → Shared;
  aw_now : nat → Z;
  aw_clock : nat → Clock;
  aw_disk : nat → bool;
  aw_link : nat → bool;
  aw_uuid : nat → string
}.

(** [WscComponentBridge.__init__] *)
Definition WscComponentBridge_init (e : Engine scope_intent) (v : Secrets) (backend : option Backend) (w : WscExchange)
    (target : ComponentTarget) (run : string) (deadline : Z) : result (BridgeConfig * Bridge) :=
  match backend with
  | None => Raise (mkEmosaError UNSUPPORTED_OPERATION "component requires one simulated BSS")
  | Some backend =>
      _ ← raise_if (negb (bool_decide (mode backend ∈ ["model"; "ovsdb-sim"; "opensync-6.6-hwsim"]))
                    || bool_decide (basic_ruid (w_basic w) ≠ t_ruid target)
                    || (bool_decide (max_bss (w_basic w) ≠ 1) && negb (multi_bss w)))
            UNSUPPORTED_OPERATION "component requires one simulated BSS";
      _ ← raise_if (negb (primary_bss backend)
                    && (negb (multi_bss w) || bool_decide (t_radio_id target ≠ be_radio_id backend)
                        || bool_decide (t_bss_id target ≠ t_radio_id target)))
            UNSUPPORTED_OPERATION "a radio scope maps its radio's M2 set";
      Ok (mkBridgeConfig target (primary_bss backend) (be_slots backend) (process_id (store e)) run deadline,
          mkBridge (mkShared e v w) None None false 0 [] [] false false)
  end.

Context `{Awaits}.

Definition tick : M Bridge nat := λ b, (Ok (ticks b), b <| ticks := S (ticks b) |>).

Definition on_vault {A} (m : M Secrets A) : M Bridge A := λ b,
  let '(r, v) := m (vault (shared b)) in (r, b <| shared := shared b <| vault := v |> |>).
Definition on_exchange {A} (m : M WscExchange A) : M Bridge A := λ b,
  let '(r, w) := m (exchange (shared b)) in (r, b <| shared := shared b <| exchange := w |> |>).
Definition on_engine {A} (m : M (Engine scope_intent) A) : M Bridge A := λ b,
  let '(r, e) := m (engine (shared b)) in (r, b <| shared := shared b <| engine := e |> |>).

(** [self.exchange.close()] *)
Definition close_exchange (b : Bridge) : Bridge :=
  b <| shared := shared b <| exchange := w_close (exchange (shared b)) |> |>.

(** [await]: others run, and the awaited call ends. *)
Definition await {A} (answers : nat → answer A) : M Bridge (result A) :=
  n ← tick;
  _ ← modify (λ b, b <| shared := interfere n (shared b) |>);
  mret (settle (answers n)).

(** What makes a context unusable. *)
Definition unbound (b : Bridge) (current : ScopeContext) : bool :=
  bool_decide (sc_generation current < 1) || bool_decide (sc_schema_fingerprint current = "")
  || bool_decide (binding_token current = "")
  || match context b with Some c => bool_decide (current ≠ c) | None => false end.

(** [_bound()] *)
Definition bound : M Bridge ScopeContext :=
  b ← get;
  _ ← lift (raise_if (bool_decide (process_id (store (engine (shared b))) ≠ cf_process_id cf)) NOT_READY
              "component belongs to a previous adapter process");
  r ← await aw_context;
  match r with
  | Raise e => _ ← modify close_exchange; lift (Raise e)
  | Ok current =>
      n ← tick;
      _ ← on_exchange (live (aw_now n));
      b ← get;
      if unbound b current then
        _ ← modify close_exchange;
        raise NOT_READY "component source binding changed"
      else mret current
  end.

(** [send_frame(frame)] *)
Definition b_send (frame : bytes) : M Bridge unit :=
  n ← tick;
  if aw_link n then modify (λ b, b <| sent_frames := sent_frames b ++ [frame] |>) else lift (Raise os_error).

(** The loop of [start] over the frames of the request. *)
Definition send_request : M Bridge unit :=
  n ← tick;
  frames ← on_exchange (w_request (aw_now n));
  for_each (λ frame, _ ← bound; _ ← b_send frame; _ ← bound; mret tt) frames.

(** [start(send_frame)]; the exchange is closed whenever an exception leaves the loop. *)
Definition start : M Bridge unit :=
  c ← bound;
  _ ← modify (λ b, b <| context := Some c |>);
  try_else send_request mret (λ e, _ ← modify close_exchange; lift (Raise e)).

(** ** [receive] *)

Definition source_of (b : Bridge) : string :=
  "wsc-component:" +:+ hex_octets (Reports.controller_al (w_binding (exchange (shared b)))).
Definition key_of (b : Bridge) : string := Autoconfiguration.exchange_id (exchange (shared b)).

(** One credential under a new reference. *)
Definition store_credential (ref : string) (c : Candidate) : M Bridge unit :=
  n ← tick; on_vault (persist_received (aw_disk n) ref (passphrase c)).

(** The further BSSes that are kept, numbered from [index]. *)
Fixpoint store_additional (ref : string) (index : nat) (pairs : list (string * Candidate)) : M Bridge (list Bss) :=
  match pairs with
  | [] => mret []
  | (role, c) :: rest =>
      let extra := ref +:+ "-" +:+ pretty index in
      _ ← store_credential extra c;
      _ ← modify (λ b, b <| refs := refs b ++ [extra] |>);
      bsses ← store_additional ref (S index) rest;
      mret (mkBss role (c_ssid c) extra :: bsses)
  end.

(** The intent of a candidate and the further BSSes. *)
Definition intent_of (ref : string) (c : Candidate) (additional : option (list Bss)) : scope_intent :=
  let t := cf_target cf in
  if cf_primary cf then
    Primary (mkIntent (t_pod_id t) (t_radio_id t) (t_bss_id t) (c_ssid c) ref true "wpa2-psk" additional)
  else Radio (mkRadioIntent (t_pod_id t) (t_radio_id t) (default [] additional)).

(** The fields of the receipt that bind it. *)
Definition receipt_of (b : Bridge) : Receipt :=
  let t := cf_target cf in
  mkReceipt (cf_process_id cf) (key_of b) (t_pod_id t) (t_radio_id t) (t_bss_id t)
    (hex_octets (Reports.controller_al (w_binding (exchange (shared b))))).

(** The credentials and the intent of an accepted result. *)
Definition prepare_intent (r : ExchangeResult) : M Bridge scope_intent :=
  b ← get;
  let w := exchange (shared b) in
  let ref := "wsc-" +:+ key_of b in
  c ← lift (match candidate r with Some c => Ok c | None => Raise (key_error "candidate") end);
  _ ← (if cf_primary cf then
         _ ← modify (λ b, b <| refs := refs b ++ [ref] |>);
         store_credential ref c
       else mret tt);
  _ ← modify (λ b, b <| created := true |>);
  additional ←
    (if multi_bss w then
       let pairs := if cf_primary cf then x_additional r else ("fronthaul", c) :: x_additional r in
       l ← store_additional ref 1 (select pairs (fitted pairs (cf_slots cf)));
       mret (Some l)
     else mret None);
  mret (intent_of ref c additional).

(** From an authenticated result to a new operation. *)
Definition hand_over (r : ExchangeResult) : M Bridge (Operation scope_intent) :=
  intent ← prepare_intent r;
  p ← await aw_plan;
  _ ← lift p;
  _ ← bound;
  b ← get;
  n ← tick;
  op ← on_engine (request_internal validate_operation (vault_of fingerprint (vault (shared b))) backends
         (aw_clock n) (aw_uuid n) intent (source_of b) (key_of b) (cf_run_id cf) (cf_deadline cf)
         "wsc-component" (Some (receipt_of b)));
  _ ← modify (λ b, b <| b_operation := Some (operation_id op) |>);
  _ ← on_engine (modify (λ e, mkEngine (store e) (deadlines e) (busy e) (quiesced e) (instances e) (starts e)
         (last_observations e) ({[operation_id op]} ∪ wsc_guards e)));
  mret op.

(** The body of the [try] of [receive]. *)
Definition handoff (message : Message) (ing : string) (gen : Z) : M Bridge (Operation scope_intent) :=
  b ← get;
  _ ← lift (binding_check (w_binding (exchange (shared b))) (m_destination message) (m_source message) ing gen);
  _ ← lift (raise_if (bool_decide (context b = None)) NOT_READY "component has not sent M1");
  _ ← bound;
  n ← tick;
  r ← on_exchange (w_receive (aw_now n) message ing gen);
  _ ← modify (λ b, b <| authenticated := true |>);
  b ← get;
  match b_operation b with
  | Some id => lift (get_operation id (store (engine (shared b))))
  | None => hand_over r
  end.

(** The handler of [except BaseException]. *)
Definition clean_up (b : Bridge) : Bridge :=
  let b :=
    if created b && bool_decide (b_operation b = None) then
      match lookup_key (source_of b) (t_pod_id (cf_target cf)) (key_of b) (store (engine (shared b))) with
      | None => b <| shared := shared b <| vault := foldl (λ s r, (forget r s).2) (vault (shared b)) (refs b) |> |>
      | Some existing => b <| b_operation := Some (operation_id existing) |>
      end
    else b in
  if authenticated b && bool_decide (b_operation b = None) then close_exchange b else b.

(** [receive(message, ingress, generation)] *)
Definition receive (message : Message) (ing : string) (gen : Z) : M Bridge (Operation scope_intent) := λ b,
  if receiving b then (Raise (mkEmosaError BUSY "one WSC component handoff at a time"), b)
  else
    let '(r, b) := handoff message ing gen
      (b <| receiving := true |> <| refs := [] |> <| created := false |> <| authenticated := false |>) in
    let b := match r with Ok _ => b | Raise _ => clean_up b end in
    (r, b <| receiving := false |>).

(** [close()] *)
Definition b_close : M Bridge unit :=
  _ ← modify close_exchange;
  b ← get;
  match b_operation b with
  | Some id => on_engine (modify (λ e, mkEngine (store e) (deadlines e) (busy e) (quiesced e) (instances e) (starts e)
                 (last_observations e) (wsc_guards e ∖ {[id]})))
  | None => mret tt
  end.

(** * Theory *)

(** The references of an exchange: [wsc-] and its identifier, and what follows. *)
Definition mine (key ref : string) : Prop := ∃ tail, ref = "wsc-" +:+ key +:+ tail.

(** What other tasks leave alone while a bridge waits: the identity of its exchange and the references made
    from it, which no other exchange has. A closed exchange stays closed. *)
Class Polite : Prop := {
  polite_id n s : Autoconfiguration.exchange_id (exchange (interfere n s)) = Autoconfiguration.exchange_id (exchange s);
  polite_refs n s ref : mine (Autoconfiguration.exchange_id (exchange s)) ref → vault (interfere n s) !! ref = vault s !! ref;
  polite_closed n s : l_state (w_life (exchange s)) = Closed → l_state (w_life (exchange (interfere n s))) = Closed
}.

(** A reference no other task writes, and one a bridge can rely on. *)
Definition left_alone (ref : string) : Prop := ∀ n s, vault (interfere n s) !! ref = vault s !! ref.
Definition steady (key ref : string) : Prop := mine key ref ∨ left_alone ref.

Definition secrets (b : Bridge) : Secrets := vault (shared b).
Definition closed (b : Bridge) : Prop := l_state (w_life (exchange (shared b))) = Closed.

(** The references the [receive] in progress has made. *)
Definition made (b : Bridge) : list string := if created b then refs b else [].

(** A reference that resolves. *)
Definition usable_ref (s : Secrets) (ref : string) : Prop :=
  REFERENCE ref = true ∧ ∃ v, s !! ref = Some v ∧ usable v = true.

(** The secrets of the exchange [key], and those no other task writes, against those before: new under the
    references made, which are of the exchange, else the same; the operation is [o]. *)
Record tracked (s0 : Secrets) (key : string) (o : option string) (b : Bridge) : Prop := {
  tr_key : key_of b = key;
  tr_operation : b_operation b = o;
  tr_made ref : ref ∈ made b → mine key ref ∧ s0 !! ref = None ∧ usable_ref (secrets b) ref;
  tr_others ref : steady key ref → ref ∉ made b → secrets b !! ref = s0 !! ref
}.

Lemma usable_ref_same s s' ref : s' !! ref = s !! ref → usable_ref s ref → usable_ref s' ref.
Proof. unfold usable_ref. by intros ->. Qed.

(** What [tracked] depends on. *)
Lemma tracked_frame s0 key o b b' :
  key_of b' = key_of b → b_operation b' = b_operation b → made b' = made b →
  (∀ ref, steady key ref → secrets b' !! ref = secrets b !! ref) → tracked s0 key o b → tracked s0 key o b'.
Proof.
  intros Hk Ho Hm Hs [Tk To Tm Ts]. split; [congruence|congruence| |].
  - rewrite Hm. intros ref Hr. destruct (Tm ref Hr) as (H1 & H2 & H3). split; [done|]. split; [done|].
    eapply usable_ref_same; [apply Hs; by left|done].
  - rewrite Hm. intros ref Hr Hn. rewrite Hs by done. by apply Ts.
Qed.

Lemma mine_app key ref tail : mine key ref → mine key (ref +:+ tail).
Proof.
  intros [t ->]. exists (t +:+ tail). rewrite <- !append_assoc. done.
Qed.

(** A refused credential changes nothing. *)
Lemma persist_Raise disk ref v s e s' : persist_received disk ref v s = (Raise e, s') → s' = s.
Proof.
  unfold persist_received. destruct (_ || _)%bool; [by intros [= _ <-]|]. unfold create_secret.
  destruct (s !! ref); [by intros [= _ <-]|]. destruct disk; [done|by intros [= _ <-]].
Qed.

(** ** Steps of the exchange *)

(** [w'] is [w] later: the same exchange, closed if it was. *)
Definition w_later (w w' : WscExchange) : Prop :=
  Autoconfiguration.exchange_id w' = Autoconfiguration.exchange_id w
  ∧ (l_state (w_life w) = Closed → l_state (w_life w') = Closed).

Lemma live_w_later now w : w_later w (live now w).2.
Proof. rewrite live_run. cbv zeta. by destruct (bool_decide (deadline _ ≤ now)). Qed.

Lemma live_open now w : is_ok (live now w).1 = true → (live now w).2 = w ∧ l_state (w_life w) ≠ Closed.
Proof.
  rewrite live_run. cbv zeta. destruct (bool_decide (deadline _ ≤ now)); [done|]. cbn.
  destruct (bool_decide (l_state _ = _)) eqn:Hs; [done|]. by bools.
Qed.

Lemma w_receive_later now message ing gen w : w_later w (w_receive now message ing gen w).2.
Proof.
  rewrite w_receive_run. pose proof (live_w_later now w) as Hl. pose proof (live_open now w) as Ho.
  destruct (live now w) as [[[]|] w1]; [|done]. destruct (Ho eq_refl) as [E Hn]. cbn in E. subst w1. clear Hl Ho.
  unfold w_live_receive, closed_if_waiting. cbv zeta. repeat case_match; cbn; by split.
Qed.

Lemma w_request_later now w : w_later w (w_request now w).2.
Proof.
  rewrite w_request_run, transmit_run. pose proof (live_w_later now w) as Hl.
  destruct (live now w) as [[[]|] w1]; [|done]. by destruct (raise_if _ _ _).
Qed.

(** ** Steps of the bridge *)

(** Nothing happened to what the handoff in progress has made. *)
Record still (b b' : Bridge) : Prop := {
  still_key : key_of b' = key_of b;
  still_operation : b_operation b' = b_operation b;
  still_created : created b' = created b;
  still_refs : refs b' = refs b;
  still_receiving : receiving b' = receiving b;
  still_secrets ref : steady (key_of b) ref → secrets b' !! ref = secrets b !! ref;
  still_closed : closed b → closed b'
}.
Definition respects (J : Bridge → Prop) : Prop := ∀ b b', still b b' → J b → J b'.

Lemma tracked_respects s0 key o : respects (tracked s0 key o).
Proof.
  intros b b' Hs Hb. eapply tracked_frame; [apply Hs|apply Hs| | |exact Hb].
  - unfold made. by rewrite (still_created _ _ Hs), (still_refs _ _ Hs).
  - rewrite <- (tr_key _ _ _ _ Hb). apply Hs.
Qed.

Section Steps.
Context {HP : Polite}.
Variable J : Bridge → Prop.
Hypothesis HJ : respects J.

Lemma keeps_still {A} (m : M Bridge A) : (∀ b, still b (m b).2) → keeps J m.
Proof. intros Hm b Hb. specialize (Hm b). destruct (m b) as [[] b']; by eapply HJ. Qed.

Lemma still_exchange {A} (m : M WscExchange A) b : (∀ w, w_later w (m w).2) → still b (on_exchange m b).2.
Proof.
  intros Hm. unfold on_exchange. specialize (Hm (exchange (shared b))). destruct (m _) as [r w]. by destruct Hm.
Qed.
Lemma still_engine {A} (m : M (Engine scope_intent) A) b : still b (on_engine m b).2.
Proof. unfold on_engine. by destruct (m _). Qed.
Lemma still_interfere n b : still b (b <| shared := interfere n (shared b) |>).
Proof. split; try done; [apply polite_id|intros ref [Hr|Hr]; [by apply polite_refs|apply Hr]|apply polite_closed]. Qed.

Lemma keeps_tick : keeps J tick.
Proof. by apply keeps_still. Qed.
Lemma keeps_close : keeps J (modify close_exchange).
Proof. by apply keeps_still. Qed.
Lemma keeps_exchange {A} (m : M WscExchange A) : (∀ w, w_later w (m w).2) → keeps J (on_exchange m).
Proof. intros Hm. apply keeps_still. intros b. by apply still_exchange. Qed.
Lemma keeps_engine {A} (m : M (Engine scope_intent) A) : keeps J (on_engine m).
Proof. apply keeps_still. intros b. apply still_engine. Qed.
Lemma keeps_await {A} (answers : nat → answer A) : keeps J (await answers).
Proof.
  apply keeps_bind; [apply keeps_tick|intros n]. apply keeps_bind; [|intros; apply keeps_mret].
  apply keeps_modify. intros b. apply HJ, still_interfere.
Qed.

Lemma keeps_bound : keeps J bound.
Proof.
  apply keeps_get. intros b. apply keeps_bind; [apply keeps_lift|intros _].
  apply keeps_bind; [apply keeps_await|intros [c|e]].
  - apply keeps_bind; [apply keeps_tick|intros n]. apply keeps_bind; [apply keeps_exchange, live_w_later|intros _].
    apply keeps_get. intros b'. destruct (unbound b' c); [|apply keeps_mret].
    apply keeps_bind; [apply keeps_close|intros; apply keeps_raise].
  - apply keeps_bind; [apply keeps_close|intros; apply keeps_lift].
Qed.

Lemma keeps_start : keeps J start.
Proof.
  apply keeps_bind; [apply keeps_bound|intros c]. apply keeps_bind; [by apply keeps_still|intros _].
  apply keeps_try; [|intros; apply keeps_mret|intros e; apply keeps_bind; [apply keeps_close|intros; apply keeps_lift]].
  apply keeps_bind; [apply keeps_tick|intros n]. apply keeps_bind; [apply keeps_exchange, w_request_later|intros frames].
  apply keeps_for_each. intros f. apply keeps_bind; [apply keeps_bound|intros _].
  apply keeps_bind; [|intros _; apply keeps_bind; [apply keeps_bound|intros; apply keeps_mret]].
  apply keeps_bind; [apply keeps_tick|intros m]. destruct (aw_link m); [by apply keeps_still|apply keeps_lift].
Qed.
End Steps.

Section Keeping.
Context {HP : Polite}.
Variables (s0 : Secrets) (key : string) (o : option string).

(** A new credential joins those made. *)
Lemma tracked_made b b' ref v :
  mine key ref → tracked s0 key o b →
  RECEIVED ref = true → usable (encode v) = true → secrets b !! ref = None →
  key_of b' = key_of b → b_operation b' = b_operation b → made b' = made b ++ [ref] →
  secrets b' = <[ref := encode v]> (secrets b) → tracked s0 key o b'.
Proof.
  intros Hmine [Tk To Tm Ts] Hr Hu Hnone Hk Ho Hm Hs.
  assert (Hnew : ref ∉ made b).
  { intros Hin. destruct (Tm ref Hin) as (_ & _ & _ & w & Hw & _). congruence. }
  split; [congruence|congruence| |]; intros x; rewrite Hm, Hs, elem_of_app, list_elem_of_singleton.
  - intros [Hin| ->].
    + destruct (Tm x Hin) as (H1 & H2 & H3). split; [done|]. split; [done|]. eapply usable_ref_same; [|exact H3].
      apply lookup_insert_ne. by intros ->.
    + split; [done|]. split; [rewrite <- Ts; [done|by left|done]|]. split; [by apply RECEIVED_REFERENCE|]. exists (encode v). by rewrite lookup_insert_eq.
  - intros Hx Hn. rewrite lookup_insert_ne; [apply Ts; [done|]|]; [intros Hin; apply Hn; by left|intros ->; apply Hn; by right].
Qed.

Lemma store_credential_run ref c b :
  store_credential ref c b =
  let b := b <| ticks := S (ticks b) |> in
  let '(r, v) := persist_received (aw_disk (ticks b - 1)) ref (passphrase c) (secrets b) in
  (r, b <| shared := shared b <| vault := v |> |>).
Proof. unfold store_credential, mbind, M_mbind, tick, on_vault, secrets. cbn. by rewrite Nat.sub_0_r. Qed.

(** The credential is stored: a state that adds its reference to those made is tracked. *)
Definition joins (ref : string) (b : Bridge) : Prop := ∀ b',
  key_of b' = key_of b → b_operation b' = b_operation b → secrets b' = secrets b → made b' = made b ++ [ref] →
  tracked s0 key o b'.

Lemma store_credential_ok ref c c0 l0 :
  mine key ref →
  hoare (λ b, tracked s0 key o b ∧ created b = c0 ∧ refs b = l0) (store_credential ref c)
    (λ _ b, joins ref b ∧ created b = c0 ∧ refs b = l0) (λ _, tracked s0 key o).
Proof.
  intros Hmine b (Hb & Hc & Hl). rewrite store_credential_run. cbv zeta.
  destruct (persist_received _ _ _ _) as [[[]|e] v] eqn:Hp.
  - apply persisted in Hp as (Hr & Hu & Hn & ->). split; [|done]. intros b' Hk Ho Hs Hm. by eapply (tracked_made b b' ref (passphrase c)).
  - apply persist_Raise in Hp as ->. eapply tracked_frame; [..|exact Hb]; done.
Qed.

Lemma store_additional_ok ref pairs :
  mine key ref → ∀ index,
  hoare (λ b, tracked s0 key o b ∧ created b = true) (store_additional ref index pairs)
    (λ _ b, tracked s0 key o b ∧ created b = true) (λ _, tracked s0 key o).
Proof.
  intros Hmine. induction pairs as [|[role c] pairs IH]; intros index; [by apply hoare_ret|]. cbn [store_additional].
  intros b [Hb Hc]. revert b Hb Hc. enough (Hall : ∀ l0, hoare (λ b, tracked s0 key o b ∧ created b = true ∧ refs b = l0)
    (store_additional ref index ((role, c) :: pairs)) (λ _ b, tracked s0 key o b ∧ created b = true) (λ _, tracked s0 key o)).
  { intros b Hb Hc. by apply (Hall (refs b)). }
  intros l0. cbn [store_additional]. eapply hoare_bind; [by apply store_credential_ok, mine_app|intros []].
  eapply (hoare_bind _ _ _ (λ _ b, tracked s0 key o b ∧ created b = true));
    [|intros []; eapply hoare_bind; [apply (IH (S index))|intros l; by apply hoare_ret]].
  apply hoare_modify. intros b (Hj & Hc & _). split; [|done]. apply Hj; try done. unfold made. cbn. by rewrite Hc.
Qed.

(** The credential of the primary BSS, where there is one, is the first. *)
Lemma store_primary_ok c :
  hoare (λ b, tracked s0 key o b ∧ created b = false ∧ refs b = [])
    (if cf_primary cf then
       _ ← modify (λ b, b <| refs := refs b ++ ["wsc-" +:+ key] |>);
       store_credential ("wsc-" +:+ key) c
     else mret tt)
    (λ _ b, tracked s0 key o (b <| created := true |>)) (λ _, tracked s0 key o).
Proof.
  destruct (cf_primary cf).
  - eapply (hoare_bind _ _ _ (λ _ b, tracked s0 key o b ∧ created b = false ∧ refs b = ["wsc-" +:+ key]));
      [|intros []; eapply hoare_weaken; [apply (store_credential_ok _ c false ["wsc-" +:+ key]); exists ""; by rewrite append_nil|done| |done]].
    + apply hoare_modify. intros b (Hb & Hc & Hr). cbn. rewrite Hr. split; [|done].
      eapply tracked_frame; [..|exact Hb]; try done. unfold made. cbn. by rewrite Hc.
    + intros _ b (Hj & Hc & Hr). apply Hj; try done. unfold made. cbn. by rewrite Hc, Hr.
  - apply hoare_ret. intros b (Hb & Hc & Hr). eapply tracked_frame; [..|exact Hb]; try done. unfold made. cbn. by rewrite Hc, Hr.
Qed.

Lemma prepare_intent_ok r :
  hoare (λ b, tracked s0 key o b ∧ created b = false ∧ refs b = []) (prepare_intent r)
    (λ _, tracked s0 key o) (λ _, tracked s0 key o).
Proof.
  apply hoare_get_bind. intros b0 (Hb & Hc & Hr). rewrite (tr_key _ _ _ _ Hb). cbv zeta.
  apply (hoare_bind _ _ _ (λ _ b, b = b0)); [apply hoare_lift; [done|by intros e b ? ->]|intros c].
  apply (hoare_bind _ _ _ (λ _ b, tracked s0 key o (b <| created := true |>)));
    [eapply hoare_weaken; [apply (store_primary_ok c)|by intros ? ->|done|done]|intros _].
  apply (hoare_bind _ _ _ (λ _ b, tracked s0 key o b ∧ created b = true)); [by apply hoare_modify|intros _].
  apply (hoare_bind _ _ _ (λ _, tracked s0 key o)); [|intros l; by apply hoare_ret]. destruct (multi_bss _).
  - eapply hoare_bind; [apply store_additional_ok; exists ""; by rewrite append_nil|]. intros l. apply hoare_ret. tauto.
  - apply hoare_ret. tauto.
Qed.

(** The handoff before anything is stored. *)
Definition untouched (b : Bridge) : Prop := tracked s0 key o b ∧ created b = false ∧ refs b = [].
Lemma untouched_respects : respects untouched.
Proof.
  intros b b' Hs (Hb & Hc & Hr). split; [by eapply tracked_respects|]. by rewrite (still_created _ _ Hs), (still_refs _ _ Hs).
Qed.

Lemma untouched_next {A B} (m : M Bridge A) (k : A → M Bridge B) Q :
  keeps untouched m → (∀ a, hoare untouched (k a) Q (λ _, tracked s0 key o)) → hoare untouched (m ≫= k) Q (λ _, tracked s0 key o).
Proof.
  intros Hm Hk. eapply hoare_bind; [|exact Hk]. eapply hoare_weaken; [exact Hm|done|done|by intros e b []].
Qed.
Lemma tracked_next {A B} (m : M Bridge A) (k : A → M Bridge B) Q :
  keeps (tracked s0 key o) m → (∀ a, hoare (tracked s0 key o) (k a) Q (λ _, tracked s0 key o)) →
  hoare (tracked s0 key o) (m ≫= k) Q (λ _, tracked s0 key o).
Proof. intros Hm Hk. eapply hoare_bind; [exact Hm|exact Hk]. Qed.

Lemma hand_over_ok r :
  hoare untouched (hand_over r) (λ op, tracked s0 key (Some (operation_id op))) (λ _, tracked s0 key o).
Proof.
  pose proof (tracked_respects s0 key o) as HT.
  apply (hoare_bind _ _ _ (λ _, tracked s0 key o)); [apply prepare_intent_ok|intros i].
  apply tracked_next; [by apply keeps_await|intros p]. apply tracked_next; [by apply keeps_lift|intros _].
  apply tracked_next; [by apply keeps_bound|intros _]. apply hoare_get_bind. intros b0 Hb0.
  apply (hoare_weaken (tracked s0 key o) _ _ (λ op, tracked s0 key (Some (operation_id op))) _ (λ _, tracked s0 key o));
    [|by intros ? ->|done|done]. 
  apply tracked_next; [by apply keeps_tick|intros n]. apply tracked_next; [by apply keeps_engine|intros op].
  apply (hoare_bind _ _ _ (λ _, tracked s0 key (Some (operation_id op)))).
  - apply hoare_modify. intros b [Tk To Tm Ts]. by split.
  - intros _. apply (hoare_bind _ _ _ (λ _, tracked s0 key (Some (operation_id op)))); [|intros _; by apply hoare_ret].
    intros b Hb. apply (tracked_respects _ _ _ b); [by split|exact Hb].
Qed.

(** The whole handoff: on a failure the operation is what it was, on success it is the one returned. *)
Lemma handoff_ok message ing gen :
  hoare untouched (handoff message ing gen)
    (λ op b, tracked s0 key (Some (operation_id op)) b ∧ (o = None ∨ o = Some (operation_id op)))
    (λ _, tracked s0 key o).
Proof.
  pose proof untouched_respects as HU. apply hoare_get_bind. intros b0 Hb0.
  apply (hoare_weaken untouched _ _ (λ op b, tracked s0 key (Some (operation_id op)) b ∧ (o = None ∨ o = Some (operation_id op)))
    _ (λ _, tracked s0 key o)); [|by intros ? ->|done|done]. clear Hb0.
  do 2 (apply untouched_next; [by apply keeps_lift|intros _]).
  apply untouched_next; [by apply keeps_bound|intros _]. apply untouched_next; [by apply keeps_tick|intros n].
  apply untouched_next; [apply (keeps_exchange _ HU), w_receive_later|intros r].
  apply untouched_next; [by apply keeps_still|intros _].
  apply hoare_get_bind. intros b Hb. destruct (b_operation b) as [id|] eqn:Ho.
  2:{ eapply hoare_weaken; [apply (hand_over_ok r)|by intros ? ->| |done]. intros op b' Hb'. split; [done|]. left.
      destruct Hb as [Hb _]. by rewrite (tr_operation _ _ _ _ Hb) in Ho. }
  apply hoare_lift; [|by intros ? ? _ ->; destruct Hb]. intros op s [_ Hid]%get_operation_Ok ->. destruct Hb as [Hb _].
  assert (o = Some (operation_id op)) as Ho' by (by rewrite <- (tr_operation _ _ _ _ Hb), Hid).
  split; [by rewrite <- Ho'|by right].
Qed.

End Keeping.

(** ** The end of a handoff *)

Lemma forget_all l s ref :
  foldl (λ s r, (forget r s).2) s l !! ref = if bool_decide (ref ∈ l ∧ REFERENCE ref = true) then None else s !! ref.
Proof.
  revert s. induction l as [|r l IH]; intros s; [done|]. cbn [foldl]. rewrite IH. clear IH.
  destruct (decide (ref ∈ l ∧ REFERENCE ref = true)) as [Hin|Hin].
  { rewrite !bool_decide_eq_true_2; [done| |done]. destruct Hin. split; [by right|done]. }
  rewrite (bool_decide_eq_false_2 _ Hin). unfold forget. destruct (REFERENCE r) eqn:Hr; cbn.
  - destruct (decide (r = ref)) as [->|Hne].
    + rewrite lookup_delete_eq, bool_decide_eq_true_2; [done|]. split; [by left|done].
    + rewrite lookup_delete_ne, bool_decide_eq_false_2; [done| |done]. rewrite elem_of_cons. intros [[?|?] ?]; [congruence|tauto].
  - rewrite bool_decide_eq_false_2; [done|]. rewrite elem_of_cons. intros [[?|?] ?]; [congruence|tauto].
Qed.

(** What a [receive] leaves: the operation it had; earlier secrets; without an operation, no new secret and,
    after authentication, no exchange. *)
Record ended (s0 : Secrets) (key : string) (o : option string) (b : Bridge) : Prop := {
  end_key : key_of b = key;
  end_operation id : o = Some id → b_operation b = Some id;
  end_kept ref v : steady key ref → s0 !! ref = Some v → secrets b !! ref = Some v;
  end_foreign ref : ¬ mine key ref → left_alone ref → secrets b !! ref = s0 !! ref;
  end_clean ref : b_operation b = None → steady key ref → secrets b !! ref = s0 !! ref;
  end_closed : authenticated b = true → b_operation b = None → closed b
}.

Lemma clean_up_ended s0 key o b : tracked s0 key o b → ended s0 key o (clean_up b).
Proof.
  intros [Tk To Tm Ts]. assert (Hkept : ∀ ref v, steady key ref → s0 !! ref = Some v → secrets b !! ref = Some v).
  { intros ref v Hr Hv. rewrite Ts; [done|done|]. intros Hin. destruct (Tm ref Hin) as (_ & Hn & _). congruence. }
  assert (Hout : ∀ ref, ¬ mine key ref → ref ∉ made b) by (intros ref Hr Hin; by destruct (Tm ref Hin)).
  assert (Hforeign : ∀ ref, ¬ mine key ref → left_alone ref → secrets b !! ref = s0 !! ref) by (intros ref Hr Hl; apply Ts; [by right|auto]).
  assert (Hfin : ∀ b', key_of b' = key → (∀ id, o = Some id → b_operation b' = Some id) →
    (∀ ref v, steady key ref → s0 !! ref = Some v → secrets b' !! ref = Some v) →
    (∀ ref, ¬ mine key ref → left_alone ref → secrets b' !! ref = s0 !! ref) →
    (∀ ref, b_operation b' = None → steady key ref → secrets b' !! ref = s0 !! ref) →
    ended s0 key o (if authenticated b' && bool_decide (b_operation b' = None) then close_exchange b' else b')).
  { intros b' H1 H2 H3 H3' H4. destruct (authenticated b' && _) eqn:E; [by split|]. split; try done.
    intros Ha Hn. rewrite Ha, Hn in E. done. }
  assert (Hm : created b = true → made b = refs b) by (unfold made; by intros ->).
  unfold clean_up. cbv zeta. apply Hfin; clear Hfin.
  all: destruct (created b && bool_decide (b_operation b = None)) eqn:Hc; [destruct (lookup_key _ _ _ _) as [op|]|].
  all: try done; try (by intros id ->); bools.
  - intros id ->. congruence.
  - intros ref v Hr Hv. unfold secrets. cbn. rewrite forget_all, bool_decide_eq_false_2; [by apply Hkept|]. intros [Hin _].
    destruct (Tm ref) as (_ & Hn & _); [by rewrite Hm|congruence].
  - intros ref Hr Hl. unfold secrets. cbn. rewrite forget_all, bool_decide_eq_false_2; [by apply Hforeign|]. intros [Hin _].
    apply (Hout ref Hr). by rewrite Hm.
  - intros ref _ Hr. unfold secrets. cbn. rewrite forget_all.
    rewrite <- Hm by done. destruct (decide (ref ∈ made b)) as [Hin|Hn].
    + destruct (Tm ref Hin) as (_ & -> & Href & _). by rewrite bool_decide_eq_true_2.
    + rewrite bool_decide_eq_false_2 by tauto. by apply Ts.
  - intros ref Hn Hr. apply Ts; [done|]. unfold made. rewrite bool_decide_eq_true_2, andb_true_r in Hc by done.
    rewrite Hc. apply not_elem_of_nil.
Qed.

Lemma receive_ended `{HP : Polite} message ing gen b r b' :
  receiving b = false → receive message ing gen b = (r, b') →
  ended (secrets b) (key_of b) (b_operation b) b'
  ∧ ∀ op, r = Ok op → b_operation b' = Some (operation_id op) ∧ ∀ ref, ref ∈ made b' → usable_ref (secrets b') ref.
Proof.
  intros Hfree. unfold receive. rewrite Hfree. set (b0 := b <| receiving := true |> <| refs := [] |> <| created := false |> <| authenticated := false |>).
  assert (Hb0 : untouched (secrets b) (key_of b) (b_operation b) b0).
  { split; [|done]. split; try done. intros ref. cbn. by rewrite elem_of_nil. }
  pose proof (handoff_ok _ _ _ message ing gen b0 Hb0) as Hh. destruct (handoff message ing gen b0) as [[op|e] b1].
  - intros [= <- <-]. destruct Hh as [[Tk To Tm Ts] Ho]. cbn in *. split.
    + split; try done.
      * cbn. intros id Hid. rewrite To. destruct Ho as [Ho|Ho]; congruence.
      * intros ref v Hr Hv. change (secrets b1 !! ref = Some v). rewrite Ts; [done|done|]. intros Hin.
        destruct (Tm ref Hin) as (_ & Hn & _). congruence.
      * intros ref Hr Hl. change (secrets b1 !! ref = secrets b !! ref). apply Ts; [by right|]. intros Hin. by destruct (Tm ref Hin).
      * cbn. congruence.
      * cbn. congruence.
    + intros op' [= <-]. split; [done|]. intros ref Hin. by apply Tm.
  - intros [= <- <-]. split; [|done]. by destruct (clean_up_ended _ _ _ _ Hh).
Qed.

(** ** A closed exchange *)

Lemma closed_respects : respects closed.
Proof. intros b b' Hs. apply Hs. Qed.

Lemma bound_closed `{HP : Polite} : hoare closed bound (λ _ _, False) (λ _, closed).
Proof.
  pose proof closed_respects as HC. apply hoare_get_bind. intros b0 Hb0.
  apply (hoare_weaken closed _ _ (λ _ _, False) _ (λ _, closed)); [|by intros ? ->|done|done]. clear Hb0.
  apply (hoare_bind _ _ _ (λ _, closed)); [by apply keeps_lift|intros _].
  apply (hoare_bind _ _ _ (λ _, closed)); [by apply keeps_await|intros [c|e]].
  - apply (hoare_bind _ _ _ (λ _, closed)); [by apply keeps_tick|intros n].
    apply (hoare_bind _ _ _ (λ _ _, False)); [|intros u b []].
    intros b Hb. pose proof (live_w_later (aw_now n) (exchange (shared b))) as [_ Hl]. pose proof (live_open (aw_now n) (exchange (shared b))) as Ho.
    unfold on_exchange. destruct (live _ _) as [[[]|e] w]; [by destruct (Ho eq_refl)|]. exact (Hl Hb).
  - apply (hoare_bind _ _ _ (λ _, closed)); [by apply keeps_close|intros _]. by apply hoare_lift.
Qed.

Lemma handoff_closed `{HP : Polite} message ing gen : hoare closed (handoff message ing gen) (λ _ _, False) (λ _, closed).
Proof.
  apply hoare_get_bind. intros b0 Hb0.
  apply (hoare_weaken closed _ _ (λ _ _, False) _ (λ _, closed)); [|by intros ? ->|done|done]. clear Hb0.
  do 2 (apply (hoare_bind _ _ _ (λ _, closed)); [by apply keeps_lift|intros _]).
  apply (hoare_bind _ _ _ (λ _ _, False)); [apply bound_closed|intros c b []].
Qed.

Lemma clean_up_closed b : closed b → closed (clean_up b).
Proof.
  intros Hb. unfold clean_up. cbv zeta. destruct (created b && _); [destruct (lookup_key _ _ _ _)|]; by destruct (authenticated _ && _).
Qed.

Lemma receive_closed `{HP : Polite} message ing gen b r b' :
  closed b → receive message ing gen b = (r, b') → is_ok r = false ∧ closed b'.
Proof.
  intros Hb. unfold receive. destruct (receiving b); [by intros [= <- <-]|].
  set (b0 := b <| receiving := true |> <| refs := [] |> <| created := false |> <| authenticated := false |>).
  pose proof (handoff_closed message ing gen b0 Hb) as Hh. destruct (handoff message ing gen b0) as [[op|e] b1]; [done|].
  intros [= <- <-]. split; [done|]. by apply clean_up_closed.
Qed.

(** ** Runs *)

Inductive b_event :=
  | BStart
  | BReceive (message : Message) (ing : string) (gen : Z)
  | BClose
  | BOthers.

(** The operations an event returns. *)
Definition b_step (b : Bridge) (ev : b_event) : list (Operation scope_intent) * Bridge :=
  match ev with
  | BStart => ([], (start b).2)
  | BReceive message ing gen =>
      match receive message ing gen b with
      | (Ok op, b) => ([op], b)
      | (Raise _, b) => ([], b)
      end
  | BClose => ([], (b_close b).2)
  | BOthers => ([], b <| shared := interfere (ticks b) (shared b) |> <| ticks := S (ticks b) |>)
  end.

Fixpoint b_run (evs : list b_event) (b : Bridge) : list (Operation scope_intent) * Bridge :=
  match evs with
  | [] => ([], b)
  | ev :: evs => let '(out, b) := b_step b ev in let '(outs, b) := b_run evs b in (out ++ outs, b)
  end.

(** [b'] follows [b], idle again, having returned [outs]. *)
Record follows (b b' : Bridge) (outs : list (Operation scope_intent)) : Prop := {
  fo_idle : receiving b' = false;
  fo_key : key_of b' = key_of b;
  fo_operation id : b_operation b = Some id → b_operation b' = Some id;
  fo_outs : Forall (λ op, b_operation b' = Some (operation_id op)) outs;
  fo_secrets ref v : steady (key_of b) ref → secrets b !! ref = Some v → secrets b' !! ref = Some v;
  fo_closed : closed b → closed b' ∧ outs = []
}.

Lemma still_follows b b' : receiving b = false → still b b' → follows b b' [].
Proof.
  intros Hf Hs. split; [by rewrite (still_receiving _ _ Hs)|apply Hs|by rewrite (still_operation _ _ Hs)|done| |].
  - intros ref v Hr. by rewrite (still_secrets _ _ Hs).
  - intros Hc. split; [by apply Hs|done].
Qed.

#[export] Instance still_preorder : PreOrder still.
Proof.
  split; [done|]. intros b1 b2 b3 [] [].
  split; [congruence|congruence|congruence|congruence|congruence| |auto].
  intros ref Hr. rewrite still_secrets1; [by apply still_secrets0|congruence].
Qed.
Lemma still_kept b0 : respects (still b0).
Proof. intros b b' Hs Hb. by etrans. Qed.

Lemma b_step_follows `{HP : Polite} b ev out b' :
  receiving b = false → b_step b ev = (out, b') → follows b b' out.
Proof.
  intros Hf. destruct ev as [|message ing gen| |]; cbn [b_step].
  - intros [= <- <-]. apply still_follows; [done|]. by apply (keeps_snd _ _ b (keeps_start _ (still_kept b))).
  - destruct (receive message ing gen b) as [r b1] eqn:Hr. intros E.
    assert (Ef : receiving b1 = false).
    { unfold receive in Hr. rewrite Hf in Hr. destruct (handoff _ _ _ _). by injection Hr as _ <-. }
    pose proof (receive_ended _ _ _ _ _ _ Hf Hr) as [[Ek Eo Es _ _ _] Hok]. pose proof (λ Hc, receive_closed _ _ _ _ _ _ Hc Hr) as Hcl.
    destruct r as [op|e]; injection E as <- <-; split; try done.
    + apply Forall_singleton. by destruct (Hok op eq_refl).
    + by intros [? ?]%Hcl.
    + by intros [? ?]%Hcl.
  - intros [= <- <-]. apply still_follows; [done|]. unfold b_close, mbind, M_mbind, modify, get.
    destruct (b_operation (close_exchange b)); by split.
  - intros [= <- <-]. apply still_follows; [done|]. etrans; [apply (still_interfere (ticks b))|]. by split.
Qed.

Lemma follows_trans b1 b2 b3 out outs : follows b1 b2 out → follows b2 b3 outs → follows b1 b3 (out ++ outs).
Proof.
  intros [F1 K1 O1 U1 S1 C1] [F2 K2 O2 U2 S2 C2]. split; [done|congruence|auto| | |].
  - apply Forall_app. split; [|done]. eapply Forall_impl; [exact U1|]. cbn. auto.
  - intros ref v Hm Hv. apply S2; [by rewrite K1|auto].
  - intros Hc. destruct (C1 Hc) as [Hc1 ->]. destruct (C2 Hc1) as [Hc2 ->]. done.
Qed.

Lemma b_run_follows `{HP : Polite} evs b outs b' :
  receiving b = false → b_run evs b = (outs, b') → follows b b' outs.
Proof.
  revert b outs. induction evs as [|ev evs IH]; intros b outs Hf; cbn.
  - intros [= <- <-]. by apply still_follows.
  - destruct (b_step b ev) as [out b1] eqn:Hs. destruct (b_run evs b1) as [outs1 b2] eqn:Hr. intros [= <- <-].
    apply b_step_follows in Hs; [|done]. eapply follows_trans; [exact Hs|]. by apply IH; [apply Hs|].
Qed.

End Bridge.

(** ** Slots *)

(** The number of entries of a role. *)
Definition role_count {A} (role_of : A → string) (role : string) (l : list A) : Z := len (filter (λ x, role_of x = role) l).

Lemma role_count_cons {A} (role_of : A → string) role x l :
  role_count role_of role (x :: l) = (if bool_decide (role_of x = role) then 1 else 0) + role_count role_of role l.
Proof.
  unfold role_count. rewrite filter_cons. destruct (decide (role_of x = role)) as [E|E].
  - rewrite bool_decide_eq_true_2 by done. unfold len. cbn. lia.
  - by rewrite bool_decide_eq_false_2.
Qed.
Lemma role_count_nonneg {A} (role_of : A → string) role l : 0 ≤ role_count role_of role l.
Proof. unfold role_count, len. lia. Qed.

Definition slot_role (s : Slot) : string := s.1.2.

Lemma free_slots_count slots role : default 0 (free_slots slots !! role) = role_count slot_role role slots.
Proof.
  unfold free_slots. enough (Hg : ∀ free, default 0 (foldl (λ free slot, <[slot.1.2 := default 0 (free !! slot.1.2) + 1]> free) free slots !! role)
    = default 0 (free !! role) + role_count slot_role role slots) by (rewrite Hg, lookup_empty; done).
  induction slots as [|s slots IH]; intros free; [unfold role_count, len; cbn; lia|]. cbn [foldl]. rewrite IH, role_count_cons.
  unfold slot_role at 2. destruct (decide (s.1.2 = role)) as [<-|E].
  - rewrite lookup_insert_eq, bool_decide_eq_true_2 by done. cbn. lia.
  - rewrite lookup_insert_ne, bool_decide_eq_false_2 by done. lia.
Qed.

Lemma elem_of_fit {A} (pairs : list (string * A)) index free i :
  i ∈ fit index pairs free ↔
  ∃ j role c, i = (index + j)%nat ∧ pairs !! j = Some (role, c)
    ∧ role_count fst role (take j pairs) < default 0 (free !! role).
Proof.
  revert index free. induction pairs as [|[r a] pairs IH]; intros index free; cbn [fit].
  { split; [set_solver|]. by intros (j & role & c & _ & Hj & _). }
  destruct (bool_decide (0 < default 0 (free !! r))) eqn:Hn; bools.
  - rewrite elem_of_union, elem_of_singleton, IH. split.
    + intros [->|(j & role & c & -> & Hj & Hlt)].
      { exists O, r, a. split; [lia|]. split; [done|]. exact Hn. }
      exists (S j), role, c. split; [lia|]. split; [done|]. cbn [take]. rewrite role_count_cons. cbn [fst].
      destruct (decide (r = role)) as [->|E]; [rewrite lookup_insert_eq in Hlt|rewrite lookup_insert_ne in Hlt by done];
        [rewrite bool_decide_eq_true_2 by done; cbn in Hlt; lia|rewrite bool_decide_eq_false_2 by done; lia].
    + intros (j & role & c & -> & Hj & Hlt). destruct j as [|j]; [left; lia|right]. exists j, role, c. split; [lia|]. split; [done|].
      cbn [take] in Hlt. rewrite role_count_cons in Hlt. cbn [fst] in Hlt.
      destruct (decide (r = role)) as [->|E]; [rewrite lookup_insert_eq|rewrite lookup_insert_ne by done];
        [rewrite bool_decide_eq_true_2 in Hlt by done; cbn; lia|rewrite bool_decide_eq_false_2 in Hlt by done; lia].
  - rewrite IH. split.
    + intros (j & role & c & -> & Hj & Hlt). exists (S j), role, c. split; [lia|]. split; [done|]. cbn [take]. rewrite role_count_cons. cbn [fst].
      pose proof (role_count_nonneg fst role (take j pairs)).
      destruct (decide (r = role)) as [->|E]; [lia|]. rewrite bool_decide_eq_false_2 by done. lia.
    + intros (j & role & c & -> & Hj & Hlt). destruct j as [|j]; [injection Hj as <- <-; unfold role_count, len in Hlt; cbn in Hlt; lia|].
      exists j, role, c. split; [lia|]. split; [done|]. cbn [take] in Hlt. rewrite role_count_cons in Hlt.
      destruct (bool_decide _); lia.
Qed.

(** * Properties *)

(** Which BSSes of a set a radio takes. The BSS received at [i] is kept exactly when fewer BSSes of its role
    came before it than the radio has slots of that role; without a profile all are kept. *)
Theorem fitted_exact {A} (pairs : list (string * A)) (slots : option (list Slot)) i :
  i ∈ fitted pairs slots ↔
  ∃ role c, pairs !! i = Some (role, c)
    ∧ match slots with
      | Some slots => role_count fst role (take i pairs) < role_count slot_role role slots
      | None => True
      end.
Proof.
  destruct slots as [slots|]; cbn [fitted].
  - rewrite elem_of_fit. split.
    + intros (j & role & c & -> & Hj & Hlt). rewrite free_slots_count in Hlt. by exists role, c.
    + intros (role & c & Hi & Hlt). exists i, role, c. by rewrite free_slots_count.
  - rewrite elem_of_list_to_set, elem_of_seq. split.
    + intros [_ Hi]. apply lookup_lt_is_Some in Hi as [[role c] Hi]. by exists role, c.
    + intros (role & c & Hi & _). apply lookup_lt_Some in Hi. lia.
Qed.

(** C27: the credentials of a handoff. A [receive], whatever other tasks do to the rest of the engine meanwhile,
    never changes or removes a secret stored before it under a reference of its exchange, also when its references
    exist already; and a reference of another exchange or of anyone else, which the other tasks leave alone, has
    the same secret, or none, afterwards. If it returns an operation, the credentials it stored resolve. If it
    fails and no operation was journaled, nothing of it stays: the secrets under the references of the exchange,
    and under all others the other tasks leave alone, are exactly those before, and if the message had
    authenticated, the exchange is closed. (The other tasks are taken to leave this exchange's references alone, as
    they are made from its random identifier.) *)
Theorem handoff_credentials {H : Hash} {C : Crypto} validate_operation fingerprint backends cf {AW : Awaits} {HP : Polite}
    message ing gen b r b' :
  receiving b = false → receive validate_operation fingerprint backends cf message ing gen b = (r, b') →
  (∀ ref v, steady (key_of b) ref → secrets b !! ref = Some v → secrets b' !! ref = Some v)
  ∧ (∀ ref, ¬ mine (key_of b) ref → left_alone ref → secrets b' !! ref = secrets b !! ref)
  ∧ match r with
    | Ok op => b_operation b' = Some (operation_id op)
               ∧ ∀ ref, ref ∈ made b' → ∃ v, resolve_secret ref (secrets b') = Ok v
    | Raise _ => b_operation b' = None →
                 (∀ ref, steady (key_of b) ref → secrets b' !! ref = secrets b !! ref)
                 ∧ (authenticated b' = true → closed b')
    end.
Proof.
  intros Hf Hr. destruct (receive_ended _ _ _ _ _ _ _ _ _ _ Hf Hr) as [[Ek Eo Es Eg Ec Ecl] Hok]. split; [done|]. split; [done|].
  destruct r as [op|e]; [|by auto]. destruct (Hok op eq_refl) as [Hop Hu]. split; [done|].
  intros ref Hin. destruct (Hu ref Hin) as (Href & v & Hv & Huse). exists (decode v). by apply usable_resolved.
Qed.

(** C28: one exchange, one operation. In every run of a bridge - starts, messages, closes and the work of other
    tasks in any order, with any failures of the source, the backend, the disk and the link - all operations
    it returns are one operation; once it has an operation it keeps it; and after its exchange is closed it
    returns none. *)
Theorem one_operation_per_exchange {H : Hash} {C : Crypto} validate_operation fingerprint backends cf {AW : Awaits} {HP : Polite}
    evs b outs b' :
  receiving b = false → b_run validate_operation fingerprint backends cf evs b = (outs, b') →
  receiving b' = false
  ∧ Forall (λ op, b_operation b' = Some (operation_id op)) outs
  ∧ (∀ id, b_operation b = Some id → b_operation b' = Some id ∧ Forall (λ op, operation_id op = id) outs)
  ∧ (closed b → outs = []).
Proof.
  intros Hf Hr. destruct (b_run_follows _ _ _ _ _ _ _ _ Hf Hr) as [Hi _ Ho Hout _ Hc].
  split; [done|]. split; [done|]. split; [|by intros [_ ?]%Hc].
  intros id Hid%Ho. split; [done|]. eapply Forall_impl; [exact Hout|]. cbn. congruence.
Qed.

#[local] Existing Instance checksum.
#[local] Existing Instance toy_crypto.

(** A pod with one further backhaul slot, whose plan answers [plan]; other tasks store a secret of
    theirs at every await. *)
Definition ex_target : ComponentTarget := mkComponentTarget "pod-1" "radio0" "bss0" ex_ruid (octets [2; 0; 0; 0; 0; 0x11]).
Definition ex_config (slots : list Slot) : BridgeConfig :=
  mkBridgeConfig ex_target true (Some slots) "process-1" "run-1" 30000.
Definition ex_bridge (w : WscExchange) : Bridge :=
  mkBridge (mkShared (mkEngine (mkStore "process-1" 100 1000 [] ∅ ∅ ∅ ∅) ∅ ∅ false ∅ ∅ ∅ ∅) ∅ w) None None false 0 [] [] false false.
Definition ex_awaits (plan : answer unit) : Awaits := {|
  aw_context _ := Returned (mkScopeContext 1 "schema" "token");
  aw_plan _ := plan;
  interfere _ s := mkShared (engine s) (<["emosa-other" := octets [1]]> (vault s)) (exchange s);
  aw_now _ := 100;
  aw_clock _ := mkClock 0 0;
  aw_disk _ := true;
  aw_link _ := true;
  aw_uuid _ := "operation-1"
|}.
Definition ex_pods : gmap string (option string) := {["pod-1" := None]}.
Definition ex_fingerprint (v : value) : string := "fingerprint".

Definition ex_messages : result (list Message) :=
  tr ← ex_m1 1; front ← ex_m2 tr 3 0x20; back ← ex_m2 tr 4 0x40; front' ← ex_m2 tr 5 0x20; back' ← ex_m2 tr 6 0x40;
  Ok [ex_m2_message [front; back]; ex_m2_message [front'; back']].

#[local] Instance ex_polite plan : Polite (H0 := ex_awaits plan).
Proof. split; [done| |done]. intros n s ref [tail ->]. by apply lookup_insert_ne. Qed.

Section Examples.
Variable plan : answer unit.
Definition ex_receive (m : Message) (b : Bridge) : result (Operation scope_intent) * Bridge :=
  receive (H0 := ex_awaits plan) (λ _, Ok tt) ex_fingerprint ex_pods (ex_config [("slot1", "backhaul", 0)]) m "eth0" 1 b.
Definition ex_bridge_run (evs : list b_event) (b : Bridge) : list (Operation scope_intent) * Bridge :=
  b_run (H0 := ex_awaits plan) (λ _, Ok tt) ex_fingerprint ex_pods (ex_config [("slot1", "backhaul", 0)]) evs b.
End Examples.

(** The bridge after [start], and the run over both messages. *)
Definition ex_failed : result (Bridge * (result (Operation scope_intent) * Bridge)) :=
  w ← ex_exchange_of true; ms ← ex_messages;
  let b := (ex_bridge_run RaisedOther [BStart] (ex_bridge w)).2 in
  Ok (b, ex_receive RaisedOther (default (ex_m2_message []) (head ms)) b).
Definition ex_handed : result (Bridge * (list (Operation scope_intent) * Bridge)) :=
  w ← ex_exchange_of true; ms ← ex_messages;
  Ok (ex_bridge w, ex_bridge_run (Returned tt) (BStart :: ((λ m, BReceive m "eth0" 1) <$> ms)) (ex_bridge w)).

Definition failed_shape (x : Bridge * (result (Operation scope_intent) * Bridge)) : bool * bool * option string * bool :=
  (receiving x.1, is_ok x.2.1, b_operation x.2.2, authenticated x.2.2).

(** The plan fails after the credentials were stored: they are gone, and the exchange is closed. *)
Lemma handoff_credentials_witness :
  ∃ b e b', fst <$> ex_failed = Ok b ∧ snd <$> ex_failed = Ok (Raise e, b')
    ∧ authenticated b' = true ∧ closed b' ∧ ∀ ref, ref ≠ "emosa-other" → secrets b' !! ref = secrets b !! ref.
Proof.
  assert (Hs : failed_shape <$> ex_failed = Ok (false, false, None, true)) by (vm_compute; reflexivity).
  destruct ex_failed as [[b [r b']]|] eqn:E; [|discriminate Hs]. injection Hs as Hf Hr Ho Ha. cbn in Hf, Hr, Ho, Ha.
  unfold ex_failed in E. apply result_bind_Ok in E as (w & Hw & E). apply result_bind_Ok in E as (ms & Hms & E). 
  cbv zeta in E. injection E as Eb E. rewrite Eb in E. unfold ex_receive in E.
  destruct (handoff_credentials (λ _, Ok tt) ex_fingerprint ex_pods (ex_config [("slot1", "backhaul", 0)]) (AW := ex_awaits RaisedOther)
    _ _ _ _ _ _ Hf E) as (_ & _ & Hx). destruct r as [op|e]; [discriminate Hr|]. destruct (Hx Ho) as [Hsame Hc].
  exists b, e, b'. split; [done|]. split; [done|]. split; [done|]. split; [auto|]. intros ref Hne. apply Hsame. right.
  intros n s. by apply lookup_insert_ne.
Defined.

Lemma one_operation_per_exchange_witness :
  ∃ b outs b', ex_handed = Ok (b, (outs, b')) ∧ length outs = 2%nat
    ∧ Forall (λ op, b_operation b' = Some (operation_id op)) outs.
Proof.
  assert (Hs : (λ x, (receiving x.1, length x.2.1)) <$> ex_handed = Ok (false, 2%nat)) by (vm_compute; reflexivity).
  destruct ex_handed as [[b [outs b']]|] eqn:E; [|discriminate Hs]. injection Hs as Hf Hl. cbn in Hf, Hl.
  pose proof E as E'. unfold ex_handed in E'. apply result_bind_Ok in E' as (w & Hw & E'). apply result_bind_Ok in E' as (ms & Hms & E').
  injection E' as Eb E'. rewrite Eb in E'. unfold ex_bridge_run in E'.
  destruct (one_operation_per_exchange (λ _, Ok tt) ex_fingerprint ex_pods (ex_config [("slot1", "backhaul", 0)]) (AW := ex_awaits (Returned tt))
    (BStart :: ((λ m, BReceive m "eth0" 1) <$> ms)) b outs b' Hf E') as (_ & Hall & _). exists b, outs, b'. auto.
Defined.
