(* ===== verification/Provisioning.v ===== *)
(** * The packet receiver of a component exchange: [src/emosa/wire/provisioning_session.py]

    [ComponentProvisioningSession] over the bridge. [receive] awaits the bridge and the engine: it is cut
    there, [begin_receive] up to the handoff and [end_receive] from it on, between which other frames
    arrive, the assembly expires and the session is closed. Tokens are in thousandths, as time is in
    milliseconds. *)

From Stdlib Require Import Sorted.
From S2P Require Import Prelude Bytes Cmdu Reassembly Lifecycle Store Engine Reports Session Secrets Digest Wsc.
From S2P Require Import WscMessages WscRadio Autoconfiguration Bridge.

(** What [_record] returns: the status and the other values. *)
Record Outcome := mkOutcome { o_status : string; o_values : list (string * value) }.

(** An exception that [except EmosaError] does not catch. *)
Definition foreign (e : EmosaError) : bool :=
  bool_decide (e ∈ [os_error; file_exists; crash]) || String.prefix "KeyError: " (Prelude.message e).

Section Session.
Context {H : Hash} {C : Crypto}.
Variable validate_operation : Operation scope_intent → result unit.
Variable fingerprint : value → string.
Variable backends : gmap string (option string).
Variable cf : BridgeConfig.
Context {AW : Awaits}.
(** How [execute] of an operation ends; the operations of the engine are in [Engine]. *)
Variable aw_execute : string → nat → answer (Operation scope_intent).

(** [pending] is the message the session awaits the bridge for; [receiving] is that there is one. *)
Record Packets := mkPackets {
  bridge : Bridge;
  p_assembly : Reassembler;
  p_events : list Outcome;
  p_counts : gmap string Z;
  pending : option (Message * string * Z);
  p_closed : bool;
  p_tokens : Z;
  last_token : Z
}.
#[export] Instance eta_Packets : Eta Packets := λ s,
  mkPackets (bridge s) (p_assembly s) (p_events s) (p_counts s) (pending s) (p_closed s) (p_tokens s) (last_token s).

(** [ComponentProvisioningSession.__init__] *)
Definition Packets_init (now : Z) (b : Bridge) : result Packets :=
  r ← Reassembler_init (seconds 5) 2 16384 8192 8;
  Ok (mkPackets b r [] ∅ None false (seconds 32) now).

(** [_record(status, **values)] *)
Definition p_record (status : string) (values : list (string * value)) : M Packets Outcome :=
  let result := mkOutcome status values in
  _ ← modify (λ s, s <| p_counts := count status (p_counts s) |> <| p_events := deque_append 32 (p_events s) result |>);
  mret result.

Definition on_bridge {A} (m : M Bridge A) : M Packets A := λ s,
  let '(r, b) := m (bridge s) in (r, s <| bridge := b |>).
Definition on_assembly {A} (m : M Reassembler A) : M Packets A := λ s,
  let '(r, a) := m (p_assembly s) in (r, s <| p_assembly := a |>).

(** [start()] *)
Definition p_start : M Packets unit :=
  s ← get;
  _ ← lift (raise_if (p_closed s) NOT_READY "component packet session is closed");
  on_bridge (start cf).

(** The handler of [except EmosaError]. *)
Definition rejected (e : EmosaError) : M Packets Outcome :=
  p_record "rejected" [("reason", VStr (reason_name (code e))); ("message", VStr (Prelude.message e))].

(** The [try] of [receive] up to the call of the bridge; no outcome yet when a message is complete. *)
Definition open_frame (now0 now1 : Z) (frame : bytes) (ing : string) (gen : Z) : M Packets (option Outcome) :=
  fragment ← lift (decode_frame frame);
  s ← get;
  _ ← lift (binding_check (w_binding (exchange (shared (bridge s)))) (destination fragment) (source fragment) ing gen);
  if bool_decide (message_type fragment ≠ 9) then Some <$> p_record "unsupported_message" []
  else
    m ← on_assembly (feed now0 now1 frame ing);
    match m with
    | None => Some <$> p_record "incomplete" [("mid", VInt (mid fragment))]
    | Some message => _ ← modify (λ s, s <| pending := Some (message, ing, gen) |>); mret None
    end.

(** [receive] up to the call of the bridge. *)
Definition begin_receive (now now0 now1 : Z) (frame : bytes) (ing : string) (gen : Z) : M Packets (option Outcome) :=
  s ← get;
  if p_closed s then Some <$> p_record "closed" []
  else if negb (bool_decide (pending s = None)) then Some <$> p_record "busy" []
  else
    _ ← modify (λ s, s <| p_tokens := Z.min (seconds 32) (p_tokens s + Z.max 0 (now - last_token s) * 16) |>
                       <| last_token := now |>);
    s ← get;
    if bool_decide (p_tokens s < seconds 1) then Some <$> p_record "rate_limited" []
    else
      _ ← modify (λ s, s <| p_tokens := p_tokens s - seconds 1 |>);
      try_else (open_frame now0 now1 frame ing gen) mret (λ e, Some <$> rejected e).

(** The two awaited calls. *)
Definition hand_message (message : Message) (ing : string) (gen : Z) : M Bridge (Operation scope_intent) :=
  operation ← receive validate_operation fingerprint backends cf message ing gen;
  r ← await (aw_execute (operation_id operation));
  lift r.

(** [receive] from the call of the bridge on, with its [finally]. *)
Definition end_receive : M Packets (option Outcome) := λ s,
  match pending s with
  | None => (Ok None, s)
  | Some (message, ing, gen) =>
      let '(r, s) :=
        try_else (on_bridge (hand_message message ing gen))
          (λ result, p_record "operation" [("mid", VInt (m_mid message)); ("operation_id", VStr (operation_id result));
                                           ("state", VStr (state_name (state result)))])
          (λ e, if foreign e then lift (Raise e) else rejected e) s in
      (Some <$> r, s <| pending := None |>)
  end.

(** [tick()], [close()] *)
Definition p_tick (now : Z) : M Packets Z := on_assembly (expire now).
Definition p_close : M Packets unit :=
  _ ← modify (λ s, s <| p_closed := true |>);
  on_bridge b_close.

(** ** Runs *)

Inductive p_event :=
  | PStart
  | PFrame (now now0 now1 : Z) (frame : bytes) (ing : string) (gen : Z)
  | PHandled
  | PTick (now : Z)
  | PClose
  | POthers.

(** How calls of [receive] end at an event. *)
Definition ends (r : result (option Outcome)) : list (result Outcome) :=
  match r with
  | Ok (Some o) => [Ok o]
  | Ok None => []
  | Raise e => [Raise e]
  end.

Definition p_step (s : Packets) (ev : p_event) : list (result Outcome) * Packets :=
  match ev with
  | PStart => ([], (p_start s).2)
  | PFrame now now0 now1 frame ing gen => let '(r, s) := begin_receive now now0 now1 frame ing gen s in (ends r, s)
  | PHandled => let '(r, s) := end_receive s in (ends r, s)
  | PTick now => ([], (p_tick now s).2)
  | PClose => ([], (p_close s).2)
  | POthers => ([], s <| bridge := (b_step validate_operation fingerprint backends cf (bridge s) BOthers).2 |>)
  end.

Fixpoint p_run (evs : list p_event) (s : Packets) : list (result Outcome) * Packets :=
  match evs with
  | [] => ([], s)
  | ev :: evs => let '(out, s) := p_step s ev in let '(outs, s) := p_run evs s in (out ++ outs, s)
  end.

(** * Theory *)

Definition frame_times (evs : list p_event) : list Z :=
  omap (λ ev, match ev with PFrame now _ _ _ _ _ => Some now | _ => None end) evs.

(** The outcomes among the ends, and the statuses that cost no token. *)
Definition outcomes (outs : list (result Outcome)) : list Outcome :=
  omap (λ r, match r with Ok o => Some o | Raise _ => None end) outs.
Definition free_status (st : string) : bool := bool_decide (st ∈ ["closed"; "busy"; "rate_limited"]).
Definition costs (r : result Outcome) : bool := match r with Ok o => negb (free_status (o_status o)) | Raise _ => true end.
Definition admitted (outs : list (result Outcome)) : Z := len (filter costs outs).

Definition waiting (s : Packets) : Z := if bool_decide (pending s = None) then 0 else 1.
Definition keep_last {A} (n : nat) (l : list A) : list A := drop (length l - n) l.
Definition with_status (st : string) (l : list Outcome) : Z := len (filter (λ o, o_status o = st) l).

(** Events and counts are those of the outcomes. *)
Definition booked (outs : list (result Outcome)) (s : Packets) : Prop :=
  p_events s = keep_last 32 (outcomes outs)
  ∧ ∀ st, default 0 (p_counts s !! st) = with_status st (outcomes outs).

(** Tokens spent, those of a message in progress included. *)
Definition within_rate (t0 : Z) (outs : list (result Outcome)) (s : Packets) : Prop :=
  0 ≤ p_tokens s ∧ seconds (admitted outs + waiting s) + p_tokens s ≤ seconds 32 + 16 * (last_token s - t0).

Definition bounded_memory (s : Packets) : Prop :=
  reassembler_ok (p_assembly s) ∧ max_contexts (p_assembly s) = 2 ∧ max_bytes (p_assembly s) = 16384.

(** The bridge or the assembly was at work. *)
Record aside (s s' : Packets) : Prop := {
  as_events : p_events s' = p_events s;
  as_counts : p_counts s' = p_counts s;
  as_pending : pending s' = pending s;
  as_tokens : p_tokens s' = p_tokens s;
  as_time : last_token s' = last_token s;
  as_memory : bounded_memory s → bounded_memory s'
}.

Definition recorded (o : Outcome) (s : Packets) : Packets :=
  s <| p_counts := count (o_status o) (p_counts s) |> <| p_events := deque_append 32 (p_events s) o |>.

Lemma keep_last_append {A} n (l : list A) x : deque_append n (keep_last n l) x = keep_last n (l ++ [x]).
Proof.
  unfold deque_append, keep_last. rewrite <- drop_app_le by lia. rewrite drop_drop, length_drop, !length_app. simpl. f_equal. lia.
Qed.

Lemma outcomes_app l l' : outcomes (l ++ l') = outcomes l ++ outcomes l'.
Proof. apply omap_app. Qed.
Lemma admitted_app l r : admitted (l ++ [r]) = admitted l + (if costs r then 1 else 0).
Proof. unfold admitted, len. rewrite filter_app, length_app, filter_cons. destruct (costs r); simpl; lia. Qed.
Lemma with_status_app st l o : with_status st (l ++ [o]) = with_status st l + (if bool_decide (o_status o = st) then 1 else 0).
Proof.
  unfold with_status, len. rewrite filter_app, length_app, filter_cons.
  destruct (decide (o_status o = st)) as [E|E]; [rewrite bool_decide_eq_true_2 by done|rewrite bool_decide_eq_false_2 by done]; simpl; lia.
Qed.

Lemma booked_recorded outs s o : booked outs s → booked (outs ++ [Ok o]) (recorded o s).
Proof.
  intros [He Hc]. unfold booked. rewrite outcomes_app. simpl. split; [by rewrite He, keep_last_append|].
  intros st. rewrite with_status_app, <- Hc. unfold count. destruct (decide (o_status o = st)) as [<-|E].
  - rewrite lookup_insert_eq, bool_decide_eq_true_2 by done. done.
  - rewrite lookup_insert_ne, bool_decide_eq_false_2 by done. lia.
Qed.
Lemma booked_aside outs s s' : aside s s' → booked outs s → booked outs s'.
Proof. intros [E1 E2 _ _ _ _] [He Hc]. split; [by rewrite E1|by rewrite E2]. Qed.

(** ** The assembly *)

Lemma feed_limits now0 now1 frame ing r0 : keeps (same_limits r0) (feed now0 now1 frame ing).
Proof.
  assert (Hpoison : ∀ A key st reason, keeps (same_limits r0) (poison (A := A) key st reason)).
  { intros. apply keeps_bind; [by apply keeps_modify|intros; apply keeps_raise]. }
  apply keeps_bind; [by intros r Hr|intros _]. apply keeps_bind; [apply keeps_lift|intros p].
  apply keeps_bind; [apply keeps_lift|intros _]. apply keeps_bind.
  { apply hoare_get_bind. intros r Hr. destruct (contexts r !! _); [by apply hoare_ret; intros ? ->|].
    destruct (bool_decide _); [by apply hoare_raise; intros ? ->|]. eapply (hoare_bind _ _ _ (λ _, same_limits r0)); [by apply hoare_put|intros _; by apply hoare_ret]. }
  intros st. apply keeps_get. intros r. destruct (poisoned st); [apply keeps_raise|]. destruct (_ || _); [apply Hpoison|].
  destruct (parse_tlvs _ _) as [tlvs|]; [|apply Hpoison]. destruct (parts st !! _); [destruct (bool_decide _); [apply Hpoison|apply keeps_mret]|].
  destruct (match a_last st with Some _ => _ | None => _ end); [apply Hpoison|]. destruct (_ && _); [apply Hpoison|].
  destruct (_ || _); [apply Hpoison|]. destruct (bool_decide _); [apply Hpoison|].
  apply keeps_bind; [by apply keeps_modify|intros _]. cbv zeta. destruct (a_last _); [|apply keeps_mret].
  destruct (bool_decide _); [apply keeps_mret|]. apply keeps_bind; [by apply keeps_modify|intros; apply keeps_mret].
Qed.

Lemma assembly_aside {A} (m : M Reassembler A) s :
  (∀ r0, keeps (same_limits r0) m) → keeps reassembler_ok m → aside s (on_assembly m s).2.
Proof.
  intros Hl Hk. unfold on_assembly. pose proof (keeps_snd _ m (p_assembly s) Hk) as H1.
  pose proof (keeps_snd _ m (p_assembly s) (Hl (p_assembly s))) as H2. destruct (m _) as [r a]. split; try done.
  intros (Hok & Hmc & Hmb). destruct H2 as (_ & E1 & E2 & _); [by split_and!|]. split; [by apply H1|]. cbn in *. split; congruence.
Qed.

Lemma feed_keeps now0 now1 frame ing : keeps reassembler_ok (feed now0 now1 frame ing).
Proof. eapply hoare_weaken; [apply feed_ok|done|by intros ? ? []|done]. Qed.

Lemma bridge_aside s b : aside s (s <| bridge := b |>).
Proof. by split. Qed.

#[export] Instance aside_preorder : PreOrder aside.
Proof. split; [by split|]. intros s1 s2 s3 [] []. split; [congruence|congruence|congruence|congruence|congruence|auto]. Qed.

(** ** The calls *)

Lemma record_run st values s : p_record st values s = (Ok (mkOutcome st values), recorded (mkOutcome st values) s).
Proof. reflexivity. Qed.
Lemma some_record_run st values s :
  (Some <$> p_record st values) s = (Ok (Some (mkOutcome st values)), recorded (mkOutcome st values) s).
Proof. reflexivity. Qed.

(** How [open_frame] ends, where [s1] is the state its assembly left. *)
Definition opened (s1 : Packets) (end_ : result (option Outcome) * Packets) : Prop :=
  match end_ with
  | (Ok (Some o), s') => s' = recorded o s1 ∧ free_status (o_status o) = false ∧ o_status o ≠ "operation"
  | (Ok None, s') => ∃ m, s' = s1 <| pending := Some m |>
  | (Raise _, s') => s' = s1
  end.

Lemma open_frame_run now0 now1 frame ing gen s :
  ∃ s1, aside s s1 ∧ bridge s1 = bridge s ∧ opened s1 (open_frame now0 now1 frame ing gen s).
Proof.
  unfold open_frame, mbind, M_mbind, lift, get. destruct (decode_frame frame) as [f|]; [|by exists s].
  destruct (binding_check _ _ _ _ _); [|by exists s]. destruct (bool_decide _); [exists s; by rewrite some_record_run|].
  pose proof (assembly_aside _ s (feed_limits now0 now1 frame ing) (feed_keeps now0 now1 frame ing)) as Ha.
  assert (Hc : bridge (on_assembly (feed now0 now1 frame ing) s).2 = bridge s) by (unfold on_assembly; by destruct (feed _ _ _ _ _)).
  destruct (on_assembly _ s) as [[[m|]|e] s1]; exists s1; (split; [exact Ha|]); (split; [exact Hc|]).
  - by exists (m, ing, gen).
  - by rewrite some_record_run.
  - done.
Qed.

(** A session that has answered [outs] for the [n] frames so far, the last at [last_token]. *)
Record accounted (t0 : Z) (n : nat) (outs : list (result Outcome)) (s : Packets) : Prop := {
  ac_answers : Z.of_nat (length outs) + waiting s = Z.of_nat n;
  ac_booked : booked outs s;
  ac_rate : within_rate t0 outs s;
  ac_memory : bounded_memory s
}.

Lemma waiting_same s s' : pending s' = pending s → waiting s' = waiting s.
Proof. unfold waiting. by intros ->. Qed.

Lemma accounted_aside t0 n outs s s' : aside s s' → accounted t0 n outs s → accounted t0 n outs s'.
Proof.
  intros Ha [H1 H2 [H3 H3'] H4]. pose proof Ha as [_ _ E3 E4 E5 E6]. apply waiting_same in E3. split.
  - by rewrite E3.
  - by eapply booked_aside.
  - unfold within_rate. by rewrite E3, E4, E5.
  - auto.
Qed.

(** The answer to a frame: [k] is the token it took from those of [s]. *)
Lemma accounted_record t0 n outs s o k :
  Z.of_nat (length outs) + waiting s = Z.of_nat n → booked outs s → bounded_memory s → 0 ≤ p_tokens s →
  seconds (admitted outs + waiting s + k) + p_tokens s ≤ seconds 32 + 16 * (last_token s - t0) →
  (if free_status (o_status o) then 0 else 1) ≤ k →
  accounted t0 (S n) (outs ++ [Ok o]) (recorded o s).
Proof.
  intros H1 H2 H3 H4 H5 H6. split; [|by apply booked_recorded| |done].
  - rewrite length_app. change (waiting (recorded o s)) with (waiting s). simpl. lia.
  - split; [done|]. rewrite admitted_app. change (waiting (recorded o s)) with (waiting s). cbn in *.
    unfold seconds in *. destruct (free_status _); cbn in *; lia.
Qed.

(** Neither events nor counts depend on the tokens and the message in progress. *)
Lemma booked_other outs s s' : p_events s' = p_events s → p_counts s' = p_counts s → booked outs s → booked outs s'.
Proof. intros E1 E2 [? ?]. split; [by rewrite E1|by rewrite E2]. Qed.

Definition refreshed (now : Z) (s : Packets) : Packets :=
  s <| p_tokens := Z.min (seconds 32) (p_tokens s + Z.max 0 (now - last_token s) * 16) |> <| last_token := now |>.
Definition charged (s : Packets) : Packets := s <| p_tokens := p_tokens s - seconds 1 |>.

Lemma begin_receive_run now now0 now1 frame ing gen s :
  begin_receive now now0 now1 frame ing gen s =
  if p_closed s then (Ok (Some (mkOutcome "closed" [])), recorded (mkOutcome "closed" []) s)
  else if negb (bool_decide (pending s = None)) then (Ok (Some (mkOutcome "busy" [])), recorded (mkOutcome "busy" []) s)
  else if bool_decide (p_tokens (refreshed now s) < seconds 1)
       then (Ok (Some (mkOutcome "rate_limited" [])), recorded (mkOutcome "rate_limited" []) (refreshed now s))
  else try_else (open_frame now0 now1 frame ing gen) mret (λ e, Some <$> rejected e) (charged (refreshed now s)).
Proof.
  unfold begin_receive. unfold mbind at 1, M_mbind at 1, get. destruct (p_closed s); [done|]. destruct (negb _); [done|].
  unfold mbind, M_mbind, modify. fold (refreshed now s). destruct (bool_decide _); [done|]. done.
Qed.

Lemma within_refreshed t0 now outs s :
  last_token s ≤ now → within_rate t0 outs s → within_rate t0 outs (refreshed now s).
Proof.
  intros Hnow [H1 H2]. unfold within_rate. change (waiting (refreshed now s)) with (waiting s). cbn. unfold seconds in *. lia.
Qed.

Lemma begin_receive_accounted t0 n outs s now now0 now1 frame ing gen :
  accounted t0 n outs s → last_token s ≤ now →
  let '(r, s') := begin_receive now now0 now1 frame ing gen s in
  accounted t0 (S n) (outs ++ ends r) s' ∧ (last_token s' = last_token s ∨ last_token s' = now).
Proof.
  intros Hac Hnow. rewrite begin_receive_run. pose proof Hac as [H1 H2 H3 H4].
  assert (Hfree : ∀ o s1, s1 = s ∨ s1 = refreshed now s → free_status (o_status o) = true → accounted t0 (S n) (outs ++ [Ok o]) (recorded o s1)).
  { intros o s1 Hs Ho. assert (within_rate t0 outs s1) as [H5 H6] by (destruct Hs as [->| ->]; [done|by apply within_refreshed]).
    apply accounted_record with (k := 0); [|by destruct Hs as [->| ->]|by destruct Hs as [->| ->]|done|by rewrite Z.add_0_r|by rewrite Ho].
    destruct Hs as [->| ->]; exact H1. }
  destruct (p_closed s); [split; [by apply Hfree; [left|]|by left]|].
  destruct (bool_decide (pending s = None)) eqn:Hp; cbn [negb]; [|split; [by apply Hfree; [left|]|by left]].
  destruct (bool_decide (_ < _)) eqn:Ht; [split; [by apply Hfree; [right|]|by right]|]. bools.
  set (s0 := charged (refreshed now s)). destruct (within_refreshed t0 now outs s Hnow H3) as [_ Hr].
  assert (Hw : waiting s = 0) by (unfold waiting; by rewrite Hp).
  assert (Hc : 0 ≤ p_tokens s0 ∧ seconds (admitted outs + 0 + 1) + p_tokens s0 ≤ seconds 32 + 16 * (last_token s0 - t0)).
  { change (waiting (refreshed now s)) with (waiting s) in Hr. rewrite Hw in Hr. unfold s0. cbn in *. unfold seconds in *. lia. }
  destruct (open_frame_run now0 now1 frame ing gen s0) as (s1 & Ha & _ & Ho). unfold try_else.
  assert (Hs1 : booked outs s1 ∧ bounded_memory s1 ∧ waiting s1 = 0 ∧ p_tokens s1 = p_tokens s0 ∧ last_token s1 = now).
  { pose proof Ha as [_ _ E3 E4 E5 E6]. split; [eapply booked_aside; [exact Ha|]; exact (booked_other outs s s0 eq_refl eq_refl H2)|]. split; [by apply E6|].
    split; [rewrite (waiting_same _ _ E3); exact Hw|]. done. }
  destruct Hs1 as (B1 & B2 & B3 & B4 & B5). change (last_token s0) with now in Hc.
  assert (Hrec : ∀ o, accounted t0 (S n) (outs ++ [Ok o]) (recorded o s1)).
  { intros o. apply accounted_record with (k := 1); [by rewrite B3, <- Hw|done|done|rewrite B4; apply Hc|rewrite B3, B4, B5; apply Hc|by destruct (free_status _)]. }
  destruct (open_frame _ _ _ _ _ s0) as [[[o|]|e] s'].
  - destruct Ho as [-> _]. split; [apply Hrec|by right].
  - destruct Ho as [m ->]. unfold mret, M_mret. cbn [ends]. rewrite app_nil_r. split; [|by right]. split.
    + cbn. lia.
    + exact (booked_other outs s1 _ eq_refl eq_refl B1).
    + unfold within_rate. cbn. rewrite B4, B5. destruct Hc. split; [done|]. unfold seconds in *. lia.
    + done.
  - cbn in Ho. subst s'. split; [apply Hrec|by right].
Qed.

(** How [end_receive] ends for a message in progress. *)
Definition handled (s : Packets) (end_ : result (option Outcome) * Packets) : Prop :=
  ∃ s1, aside s s1 ∧ match end_ with
  | (Ok (Some o), s') => s' = recorded o s1 <| pending := None |> ∧ free_status (o_status o) = false
  | (Ok None, _) => False
  | (Raise _, s') => s' = s1 <| pending := None |>
  end.

Lemma end_receive_run s : pending s ≠ None → handled s (end_receive s).
Proof.
  intros Hp. unfold end_receive. destruct (pending s) as [[[message ing] gen]|]; [|done]. unfold try_else, on_bridge.
  destruct (hand_message message ing gen (bridge s)) as [[op|e] b].
  - exists (s <| bridge := b |>). split; [apply bridge_aside|done].
  - exists (s <| bridge := b |>). split; [apply bridge_aside|]. by destruct (foreign e).
Qed.

Lemma end_receive_accounted t0 n outs s :
  accounted t0 n outs s →
  let '(r, s') := end_receive s in accounted t0 n (outs ++ ends r) s' ∧ last_token s' = last_token s.
Proof.
  intros Hac. destruct (bool_decide (pending s = None)) eqn:Hp; bools.
  { unfold end_receive. rewrite Hp. cbn. by rewrite app_nil_r. }
  pose proof (end_receive_run s Hp) as (s1 & Ha & Hend).
  pose proof (accounted_aside _ _ _ _ _ Ha Hac) as [H1 H2 [H3 H4] H5]. pose proof (as_time _ _ Ha) as Ht.
  assert (Hw : waiting s1 = 1) by (unfold waiting; rewrite (as_pending _ _ Ha); by destruct (pending s)).
  rewrite Hw in *. destruct (end_receive s) as [[[o|]|e] s']; [destruct Hend as [-> Ho]|done|subst s']; (split; [|exact Ht]); split; cbn [ends]; try done.
  - rewrite length_app. cbn. lia.
  - exact (booked_other _ (recorded o s1) _ eq_refl eq_refl (booked_recorded _ _ o H2)).
  - split; [done|]. rewrite admitted_app. cbn. rewrite Ho. cbn. unfold seconds in *. lia.
  - rewrite length_app. cbn. lia.
  - destruct H2 as [E1 E2]. split; rewrite outcomes_app; cbn; by rewrite app_nil_r.
  - split; [done|]. rewrite admitted_app. cbn. unfold seconds in *. lia.
Qed.

Lemma p_step_accounted t0 n outs s ev out s' :
  accounted t0 n outs s → (∀ now, frame_times [ev] = [now] → last_token s ≤ now) → p_step s ev = (out, s') →
  accounted t0 (n + length (frame_times [ev])) (outs ++ out) s'
  ∧ (last_token s' = last_token s ∨ frame_times [ev] = [last_token s']).
Proof.
  intros Hac Hnow. destruct ev as [|now now0 now1 frame ing gen| |now| |]; cbn [p_step frame_times omap list_omap length]; rewrite ?Nat.add_0_r.
  2:{ pose proof (begin_receive_accounted t0 n outs s now now0 now1 frame ing gen Hac (Hnow now eq_refl)) as Hb.
      destruct (begin_receive _ _ _ _ _ _ s) as [r s1]. intros [= <- <-]. rewrite Nat.add_1_r. destruct Hb as [? [?| ->]]; auto. }
  2:{ pose proof (end_receive_accounted t0 n outs s Hac) as He. destruct (end_receive s) as [r s1]. intros [= <- <-]. destruct He. auto. }
  all: intros [= <- <-]; rewrite app_nil_r.
  all: match goal with |- accounted _ _ _ ?s' ∧ _ => assert (Ha : aside s s'); [|split; [by eapply accounted_aside|left; by rewrite (as_time _ _ Ha)]] end.
  - unfold p_start, mbind, M_mbind, get, lift, on_bridge. destruct (raise_if _ _ _); [|done]. destruct (start _ _). apply bridge_aside.
  - apply (assembly_aside (expire now) s); [by intros r0 r Hr|apply expire_ok].
  - unfold p_close, mbind, M_mbind, modify, on_bridge. destruct (b_close _). by split.
  - apply bridge_aside.
Qed.

Lemma sorted_skip x l l' : StronglySorted Z.le (x :: l ++ l') → StronglySorted Z.le (x :: l').
Proof.
  induction l as [|y l IH]; [done|]. intros [Hs Hf]%StronglySorted_inv. apply StronglySorted_inv in Hs as [Hs _].
  apply IH. constructor; [done|]. by apply Forall_cons in Hf as [_ ?].
Qed.

Lemma p_run_accounted t0 evs : ∀ n outs s outs' s',
  accounted t0 n outs s → StronglySorted Z.le (last_token s :: frame_times evs) → p_run evs s = (outs', s') →
  accounted t0 (n + length (frame_times evs)) (outs ++ outs') s'
  ∧ last_token s' ∈ last_token s :: frame_times evs.
Proof.
  induction evs as [|ev evs IH]; intros n outs s outs' s' Hac Hs; cbn [p_run].
  { intros [= <- <-]. rewrite Nat.add_0_r, app_nil_r. split; [done|by left]. }
  assert (Ht : frame_times (ev :: evs) = frame_times [ev] ++ frame_times evs) by apply (omap_app _ [ev]). rewrite Ht in *.
  destruct (p_step s ev) as [out s1] eqn:Hstep. destruct (p_run evs s1) as [outs1 s2] eqn:Hr. intros [= <- <-].
  apply (p_step_accounted t0 n outs) in Hstep as [H1 H2]; [|done|].
  2:{ intros now E. rewrite E in Hs. by apply StronglySorted_inv in Hs as [_ [? _]%Forall_cons]. }
  apply (IH _ _ s1 outs1 s2 H1) in Hr as [H3 H4].
  2:{ destruct H2 as [-> |E]; [by eapply sorted_skip|rewrite E in Hs; by apply StronglySorted_inv in Hs as [? _]]. }
  rewrite length_app, Nat.add_assoc, app_assoc. split; [done|].
  rewrite elem_of_cons, elem_of_app. apply elem_of_cons in H4 as [->|H4]; [|by auto]. destruct H2 as [->|E]; [by left|].
  right. left. rewrite E. by left.
Qed.

Lemma p_close_closed s : closed (bridge (p_close s).2) ∧ receiving (bridge (p_close s).2) = receiving (bridge s).
Proof.
  unfold p_close, mbind, M_mbind, modify, on_bridge, b_close, get, on_engine, mbind, M_mbind. cbn.
  by destruct (b_operation (bridge s)).
Qed.

(** ** The operation of a session *)

Definition is_operation (r : result Outcome) : Prop := ∃ o, r = Ok o ∧ o_status o = "operation".
(** An outcome that reports an operation names [id]. *)
Definition names (id : option string) (r : result Outcome) : Prop :=
  ∀ o, r = Ok o → o_status o = "operation" → ∃ x, id = Some x ∧ ("operation_id", VStr x) ∈ o_values o.

Section Operation.
Context {HP : Polite}.
(** [execute] returns the operation it was called for. *)
Hypothesis execute_same : ∀ id n op, aw_execute id n = Returned op → operation_id op = id.

(** The operations the bridge returned at an event. *)
Definition reported (out : list (result Outcome)) (ops : list (Operation scope_intent)) : Prop :=
  ∀ o, Ok o ∈ out → o_status o = "operation" → ∃ op, op ∈ ops ∧ ("operation_id", VStr (operation_id op)) ∈ o_values o.

Lemma settle_returned {A} (a : answer A) x : settle a = Ok x → a = Returned x.
Proof. destruct a; try done. by intros [= ->]. Qed.

Lemma hand_message_follows message ing gen b r b' :
  receiving b = false → hand_message message ing gen b = (r, b') →
  ∃ ops, follows b b' ops ∧ ∀ op, r = Ok op → ∃ op', op' ∈ ops ∧ operation_id op' = operation_id op.
Proof.
  intros Hf. unfold hand_message, mbind at 1, M_mbind at 1. destruct (receive _ _ _ _ message ing gen b) as [[op|e] b1] eqn:Hr.
  - assert (F1 : follows b b1 [op]) by (eapply (b_step_follows validate_operation fingerprint backends cf b (BReceive message ing gen)); [done|cbn [b_step]; by rewrite Hr]).
    assert (F2 : follows b1 (b_step validate_operation fingerprint backends cf b1 BOthers).2 []) by (eapply (b_step_follows validate_operation fingerprint backends cf b1 BOthers); [apply F1|done]).
    intros E. exists [op]. pose proof (follows_trans _ _ _ _ _ F1 F2) as F. cbn [app] in F.
    unfold await, mbind, M_mbind, tick, modify, mret, M_mret, lift in E. injection E as Er <-. split; [exact F|].
    intros op' ->. exists op. split; [by left|]. apply settle_returned, execute_same in Er. done.
  - intros [= <- <-]. exists []. split; [|done]. eapply (b_step_follows validate_operation fingerprint backends cf b (BReceive message ing gen)); [done|cbn [b_step]; by rewrite Hr].
Qed.

Lemma begin_receive_bridge now now0 now1 frame ing gen s :
  bridge (begin_receive now now0 now1 frame ing gen s).2 = bridge s ∧ reported (ends (begin_receive now now0 now1 frame ing gen s).1) [].
Proof.
  assert (Hrec : ∀ st values, st ≠ "operation" → reported (ends (Ok (Some (mkOutcome st values)))) []).
  { intros st values Hst o [= ->]%list_elem_of_singleton. done. }
  rewrite begin_receive_run. destruct (p_closed s); [by split; [|apply Hrec]|]. destruct (negb _); [by split; [|apply Hrec]|].
  destruct (bool_decide _); [by split; [|apply Hrec]|]. unfold try_else.
  destruct (open_frame_run now0 now1 frame ing gen (charged (refreshed now s))) as (s1 & _ & Hb & Ho).
  destruct (open_frame _ _ _ _ _ _) as [[[o|]|e] s'].
  - destruct Ho as (-> & _ & Hst). split; [exact Hb|]. by intros o' [= ->]%list_elem_of_singleton.
  - destruct Ho as [m ->]. split; [exact Hb|]. by intros o' Ho'%elem_of_nil.
  - cbn in Ho. subst s'. split; [exact Hb|]. by apply Hrec.
Qed.

Lemma p_step_follows s ev out s' :
  receiving (bridge s) = false → p_step s ev = (out, s') →
  ∃ ops, follows (bridge s) (bridge s') ops ∧ reported out ops.
Proof.
  intros Hf. pose proof (λ ev' out b' E, b_step_follows validate_operation fingerprint backends cf (bridge s) ev' out b' Hf E) as Hb.
  assert (Hnone : ∀ ops, reported [] ops) by (intros ops o Ho; by apply elem_of_nil in Ho).
  destruct ev as [|now now0 now1 frame ing gen| |now| |]; cbn [p_step].
  - intros [= <- <-]. exists []. split; [|done]. unfold p_start, mbind, M_mbind, get, lift, on_bridge.
    destruct (raise_if _ _ _); [|by apply still_follows]. pose proof (Hb BStart _ _ eq_refl) as F. cbn [b_step] in F.
    by destruct (start _ _).
  - pose proof (begin_receive_bridge now now0 now1 frame ing gen s) as [E1 E2]. destruct (begin_receive _ _ _ _ _ _ s) as [r s1].
    intros [= <- <-]. exists []. split; [|done]. cbn in E1. rewrite E1. by apply still_follows.
  - unfold end_receive. destruct (pending s) as [[[message ing] gen]|]; [|intros [= <- <-]; exists []; split; [by apply still_follows|done]].
    unfold try_else, on_bridge. destruct (hand_message message ing gen (bridge s)) as [r b] eqn:Hh.
    apply hand_message_follows in Hh as (ops & F & Hops); [|done]. destruct r as [op|e].
    + intros [= <- <-]. exists ops. split; [exact F|]. intros o [= ->]%list_elem_of_singleton _.
      destruct (Hops op eq_refl) as (op' & Hin & Hid). exists op'. split; [done|]. rewrite Hid. by right; left.
    + destruct (foreign e); intros [= <- <-]; exists ops; (split; [exact F|]); intros o Ho%list_elem_of_singleton; [done|by injection Ho as ->].
  - intros [= <- <-]. exists []. split; [|done]. by apply still_follows.
  - intros [= <- <-]. exists []. split; [|done]. pose proof (Hb BClose _ _ eq_refl) as F. cbn [b_step] in F.
    unfold p_close, mbind, M_mbind, modify, on_bridge. by destruct (b_close _).
  - intros [= <- <-]. exists []. split; [|done]. exact (Hb BOthers _ _ eq_refl).
Qed.

Lemma p_run_follows evs s outs s' :
  receiving (bridge s) = false → p_run evs s = (outs, s') →
  ∃ ops, follows (bridge s) (bridge s') ops ∧ reported outs ops.
Proof.
  revert s outs. induction evs as [|ev evs IH]; intros s outs Hf; cbn [p_run].
  { intros [= <- <-]. exists []. split; [by apply still_follows|]. by intros o Ho%elem_of_nil. }
  destruct (p_step s ev) as [out s1] eqn:Hs. destruct (p_run evs s1) as [outs1 s2] eqn:Hr. intros [= <- <-].
  apply p_step_follows in Hs as (ops & F & Hrep); [|done]. apply IH in Hr as (ops' & F' & Hrep'); [|apply F].
  exists (ops ++ ops'). split; [by eapply follows_trans|]. intros o [Ho|Ho]%elem_of_app Hst.
  - destruct (Hrep o Ho Hst) as (op & ? & ?). exists op. split; [apply elem_of_app; by left|done].
  - destruct (Hrep' o Ho Hst) as (op & ? & ?). exists op. split; [apply elem_of_app; by right|done].
Qed.

End Operation.

End Session.

(** * Properties *)

(** A packet session answers every frame once, within its budgets. In every run of a session - frames, handoffs
    that end or crash, expiry, closes, in any order, with clock readings that do not decrease - each frame has
    exactly one answer, but for the one whose message is being handed over; the counts and the last 32 events
    are those of the answers; at most 32 frames and 16 more for each second are decoded, the others cost
    nothing; and the assembly holds at most two contexts and 16384 octets. *)
Theorem packet_session_accounts {H : Hash} {C : Crypto} validate_operation fingerprint backends cf {AW : Awaits} aw_execute
    t0 b s0 evs outs s :
  Packets_init t0 b = Ok s0 → StronglySorted Z.le (t0 :: frame_times evs) →
  p_run validate_operation fingerprint backends cf aw_execute evs s0 = (outs, s) →
  Z.of_nat (length outs) + waiting s = len (frame_times evs)
  ∧ p_events s = keep_last 32 (outcomes outs)
  ∧ (∀ st, default 0 (p_counts s !! st) = with_status st (outcomes outs))
  ∧ (∀ t, Forall (λ x, x ≤ t) (t0 :: frame_times evs) → 1000 * admitted outs ≤ 32000 + 16 * (t - t0))
  ∧ (size (contexts (p_assembly s)) ≤ 2)%nat ∧ 0 ≤ buffered (p_assembly s) ≤ 16384.
Proof.
  intros Hi Hs Hr. apply result_bind_Ok in Hi as (r & Hinit & [= <-]).
  assert (Hac : accounted t0 0 [] (mkPackets b r [] ∅ None false (seconds 32) t0)).
  { pose proof (Reassembler_init_ok _ _ _ _ _ _ Hinit) as Hok. vm_compute in Hinit. injection Hinit as <-.
    split; [done|split; [done|by intros st; vm_compute]|split; unfold seconds; cbn; unfold admitted, len; cbn; unfold seconds; lia|done]. }
  apply (p_run_accounted _ _ _ _ _ t0 evs 0 [] _ outs s Hac Hs) in Hr as [[H1 [H2 H2'] [H3 H4] (Hok & Hc & Hb)] Ht]. cbn [app] in *.
  split; [exact H1|]. split; [done|]. split; [done|]. split.
  - intros t Hall. rewrite Forall_forall in Hall. specialize (Hall _ Ht). unfold seconds, waiting in *. destruct (bool_decide _); lia.
  - destruct Hok as (_ & Hbuf & Hn & _). rewrite Hc, Hb in *. split; [lia|done].
Qed.

(** A packet session makes one operation. Every frame answered with an operation names the operation of the
    bridge, one for the whole session however many messages were complete; and no frame is, once the session
    is closed. *)
Theorem packet_session_one_operation {H : Hash} {C : Crypto} validate_operation fingerprint backends cf {AW : Awaits} {HP : Polite}
    aw_execute s evs outs s' :
  (∀ id n op, aw_execute id n = Returned op → operation_id op = id) → receiving (bridge s) = false →
  p_run validate_operation fingerprint backends cf aw_execute evs s = (outs, s') →
  Forall (names (b_operation (bridge s'))) outs
  ∧ ∀ evs', Forall (λ r, ¬ is_operation r) (p_run validate_operation fingerprint backends cf aw_execute (PClose :: evs') s').1.
Proof.
  intros He Hf Hr. destruct (p_run_follows _ _ _ _ _ He _ _ _ _ Hf Hr) as (ops & F & Hrep). split.
  - apply Forall_forall. intros r Hin o -> Hst. destruct (Hrep o Hin Hst) as (op & Hop & Hv).
    pose proof (fo_outs _ _ _ F) as Hall. rewrite Forall_forall in Hall. exists (operation_id op). split; [by apply Hall|done].
  - intros evs'. set (s1 := (p_step validate_operation fingerprint backends cf aw_execute s' PClose).2).
    assert (Hc : closed (bridge s1) ∧ receiving (bridge s1) = false).
    { destruct (p_close_closed s') as [? E]. split; [done|]. unfold s1. cbn [p_step snd]. rewrite E. apply F. }
    cbn [p_run p_step]. fold (p_step validate_operation fingerprint backends cf aw_execute s' PClose).
    destruct (p_run _ _ _ _ _ evs' _) as [outs1 s2] eqn:Hr'. destruct (p_run_follows _ _ _ _ _ He evs' s1 _ _ (proj2 Hc) Hr') as (ops' & F' & Hrep').
    destruct (fo_closed _ _ _ F') as [_ ->]; [apply Hc|]. apply Forall_forall. intros r Hin [o [-> Hst]].
    destruct (Hrep' o Hin Hst) as (op & Hop%elem_of_nil & _). done.
Qed.

#[local] Existing Instance checksum.
#[local] Existing Instance toy_crypto.
#[local] Existing Instance ex_polite.

(** The set of the bridge's examples in one frame, twice; the first message is handed over while the second
    arrives; later the second
    arrives again, and then a malformed frame. *)
Definition ex_frames (m : Message) : list bytes :=
  match fragment_message (m_destination m) (m_source m) (m_message_type m) (m_mid m) (m_tlvs m) false 1500 with Ok l => l | Raise _ => [] end.
Definition ex_executed (id : string) (_ : nat) : answer (Operation scope_intent) :=
  Returned (new_operation id "run-1" "source" "wsc-component" (Radio (mkRadioIntent "pod-1" "radio0" [])) "fingerprint" "key" 0 30000).
Definition ex_packet_events (ms : list Message) : list p_event :=
  match ms ≫= ex_frames with
  | [f1; f2] => [PStart; PFrame 100 100 100 f1 "eth0" 1; PFrame 101 101 101 f2 "eth0" 1; PHandled; POthers;
                 PFrame 200 200 200 f2 "eth0" 1; PHandled; PFrame 300 300 300 (octets [1; 2]) "eth0" 1; PTick 9000]
  | _ => []
  end.
Definition ex_packets : result (Packets * list p_event * (list (result Outcome) * Packets)) :=
  w ← ex_exchange_of true; ms ← ex_messages; s ← Packets_init 0 (ex_bridge w);
  let evs := ex_packet_events ms in
  Ok (s, evs, p_run (AW := ex_awaits (Returned tt)) (λ _, Ok tt) ex_fingerprint ex_pods (ex_config [("slot1", "backhaul", 0)]) ex_executed evs s).

Lemma packet_session_accounts_witness :
  ∃ s0 evs outs s, ex_packets = Ok (s0, evs, (outs, s)) ∧ frame_times evs = [100; 101; 200; 300]
    ∧ length outs = 4%nat ∧ p_events s = keep_last 32 (outcomes outs) ∧ 1000 * admitted outs ≤ 32000 + 16 * (300 - 0).
Proof.
  assert (Hs : (λ x : Packets * list p_event * (list (result Outcome) * Packets), (frame_times x.1.2, length x.2.1)) <$> ex_packets
    = Ok ([100; 101; 200; 300], 4%nat)) by (vm_compute; reflexivity).
  destruct ex_packets as [[[s0 evs] [outs s]]|] eqn:E; [|discriminate Hs]. injection Hs as Ht Hl. cbn in Ht, Hl.
  pose proof E as E'. unfold ex_packets in E'. apply result_bind_Ok in E' as (w & _ & E'). apply result_bind_Ok in E' as (ms & _ & E').
  apply result_bind_Ok in E' as (s1 & Hi & E'). cbv zeta in E'. injection E' as -> -> E'.
  destruct (packet_session_accounts (AW := ex_awaits (Returned tt)) (λ _, Ok tt) ex_fingerprint ex_pods
    (ex_config [("slot1", "backhaul", 0)]) ex_executed 0 _ s0 evs outs s Hi) as (_ & He & _ & Hr & _); [|exact E'|].
  - rewrite Ht. repeat constructor; lia.
  - exists s0, evs, outs, s. split; [done|]. split; [done|]. split; [done|]. split; [done|]. apply Hr. rewrite Ht. repeat constructor; lia.
Defined.

Lemma packet_session_one_operation_witness :
  ∃ s0 evs outs s, ex_packets = Ok (s0, evs, (outs, s)) ∧ b_operation (bridge s) = Some "operation-1"
    ∧ with_status "operation" (outcomes outs) = 2 ∧ Forall (names (b_operation (bridge s))) outs.
Proof.
  assert (Hs : (λ x : Packets * list p_event * (list (result Outcome) * Packets),
    (receiving (bridge x.1.1), b_operation (bridge x.2.2), with_status "operation" (outcomes x.2.1))) <$> ex_packets
    = Ok (false, Some "operation-1", 2)) by (vm_compute; reflexivity).
  destruct ex_packets as [[[s0 evs] [outs s]]|] eqn:E; [|discriminate Hs]. injection Hs as Hf Ho Hn. cbn in Hf, Ho, Hn.
  pose proof E as E'. unfold ex_packets in E'. apply result_bind_Ok in E' as (w & _ & E'). apply result_bind_Ok in E' as (ms & _ & E').
  apply result_bind_Ok in E' as (s1 & _ & E'). cbv zeta in E'. injection E' as -> -> E'.
  destruct (packet_session_one_operation (AW := ex_awaits (Returned tt)) (λ _, Ok tt) ex_fingerprint ex_pods
    (ex_config [("slot1", "backhaul", 0)]) ex_executed s0 evs outs s) as [Hall _]; [|done|exact E'|].
  - by intros id n op [= <-].
  - exists s0, evs, outs, s. auto.
Defined.
