(* ===== verification/BackhaulSteering.v ===== *)
(** * Backhaul steering: [src/emosa/wire/backhaul_steering.py]

    The request parser, the response and [BackhaulSteeringCoordinator]. [executor], [outcome] and
    [associated] are the uplink scope's, outside: their answers to the [n]th thing asked are arguments.
    The move under way and the answers given are the agent's: they outlive a session ([renew]). *)

From S2P Require Import Prelude Bytes Cmdu Lifecycle Payloads TopologyValues Reports Channel ReportSource Session.

Definition REQUEST : Z := 0x8019.
Definition RESPONSE : Z := 0x801A.
Definition BACKHAUL_ACK : Z := 0x8000.
Definition REQUEST_TLV : Z := 0x9E.
Definition RESPONSE_TLV : Z := 0x9F.
Definition BACKHAUL_ERROR_TLV : Z := 0xA3.
Definition SUCCESS : Z := 0x00.
Definition FAILURE : Z := 0x01.
Definition CHANNEL_NOT_OPERABLE : Z := 0x04.
Definition ASSOCIATION_FAILED : Z := 0x06.
Definition CHANNEL_REFUSALS : list string := ["no_station_on_band"; "channel_not_operable"].
Definition DEADLINE : Z := seconds 120.

(** [len(value) != 6 or not any(value) or value[0] & 1] *)
Definition not_unicast (value : bytes) : bool :=
  negb (bool_decide (length value = 6%nat)) || forallb (λ b, bool_decide (byte_to_Z b = 0)) value
  || bool_decide (Z.land (octet_at 0 value) 1 ≠ 0).

(** [unicast(value, label)] *)
Definition backhaul_unicast (value : bytes) (label : string) : result bytes :=
  _ ← raise_if (not_unicast value) INVALID_INPUT (label +:+ " must be a unicast MAC address"); Ok value.

Record BackhaulRequest := mkBackhaulRequest { station : bytes; target : bytes; operating_class : Z; channel : Z }.
#[export] Instance BackhaulRequest_eq_dec : EqDecision BackhaulRequest.
Proof. solve_decision. Defined.

(** [record()] *)
Definition request_record (r : BackhaulRequest) : value :=
  VDict [("station", VStr (hex_colon (station r))); ("target", VStr (hex_colon (target r)));
         ("operating_class", VInt (operating_class r)); ("channel", VInt (channel r))].

(** [decode_request(tlvs)] *)
Definition decode_request (tlvs : list Tlv) : result BackhaulRequest :=
  match filter (λ t, Cmdu.kind t = REQUEST_TLV) tlvs with
  | [t] =>
      let value := tlv_value t in
      if bool_decide (length value = 14%nat) then
        s ← backhaul_unicast (take 6 value) "backhaul STA";
        Ok (mkBackhaulRequest s (slice 6 12 value) (octet_at 12 value) (octet_at 13 value))
      else invalid "one Backhaul Steering Request TLV required"
  | _ => invalid "one Backhaul Steering Request TLV required"
  end.

(** [station or request.station] *)
Definition responding_station (r : BackhaulRequest) (st : option bytes) : bytes :=
  match st with Some (b :: l) => b :: l | _ => station r end.

(** [response_tlvs(request, error, station)] *)
Definition response_tlvs (r : BackhaulRequest) (error : Z) (st : option bytes) : list Tlv :=
  let st := responding_station r st in
  mkTlv RESPONSE_TLV (st ++ target r ++ octets [if bool_decide (error = 0) then SUCCESS else FAILURE])
  :: (if bool_decide (error = 0) then [] else [mkTlv BACKHAUL_ERROR_TLV (octets [error] ++ st)]).

(** [refusal(request, stations)] *)
Definition refusal (r : BackhaulRequest) (stations : list bytes) : option string :=
  if negb (bool_decide (station r ∈ stations)) then Some "not_backhaul_station"
  else if not_unicast (target r) then Some "invalid_target"
  else None.

(** ** The coordinator *)

(** [shared["pending"]] and an entry of [shared["answered"]]. *)
Record Move := mkMove { mv_mid : Z; mv_request : BackhaulRequest; mv_deadline : Z }.
Record Answer := mkAnswer { an_request : BackhaulRequest; an_error : Z; an_expiry : Z; an_station : option bytes }.

(** What the coordinator did, in order: a call of the executor with its answer, the end of a move with its
    verdict ([None]: success), a move left unanswered, a Response sent whole. *)
Inductive deed :=
  | Handed (mid : Z) (r : BackhaulRequest) (refused : option string)
  | Concluded (mid : Z) (r : BackhaulRequest) (failed : option string)
  | Abandoned (mid : Z)
  | Responded (mid : Z) (r : BackhaulRequest) (error : Z).

Record Backhaul := mkBackhaul {
  bh_io : Io;
  bh_counts : gmap string Z;
  bh_pending : option Move;
  answered : gmap Z Answer;
  bh_last : option dict;
  bh_closed : bool;
  deeds : list deed
}.
#[export] Instance eta_Backhaul : Eta Backhaul := λ s,
  mkBackhaul (bh_io s) (bh_counts s) (bh_pending s) (answered s) (bh_last s) (bh_closed s) (deeds s).
#[export] Instance Backhaul_io : HasIo Backhaul := {| io_of := bh_io; with_io i s := s <| bh_io := i |> |}.
#[export] Instance Backhaul_io_laws : HasIoLaws Backhaul.
Proof. by split. Qed.

Section Coordinator.
Context `{World} (binding : PeerBinding).
Variable executor : nat → BackhaulRequest → option string.
(** [None] while the move is under way, [Some None] once it is applied, or the reason it failed. *)
Variable outcome : nat → bytes → option (option string).
Variable associated : nat → option bytes.

(** [_record(event)] *)
Definition bh_record (event : string) : M Backhaul string :=
  _ ← modify (λ s, s <| bh_counts := count event (bh_counts s) |>); mret event.

Definition note (d : deed) : M Backhaul unit := modify (λ s, s <| deeds := deeds s ++ [d] |>).

(** [_snapshot()] *)
Definition bh_snapshot : M Io ReportSnapshot :=
  a ← poll;
  match a with
  | Some a => mret a
  | None => raise NOT_READY "the pod's state is not available"
  end.

(** [_send(message_type, mid, tlvs, snapshot, deadline)] *)
Definition bh_send (kind mid : Z) (tlvs : list Tlv) (from : ReportSnapshot) (limit : Z) : M Backhaul unit :=
  on_io (deliver binding bh_snapshot kind mid tlvs from limit).

(** [_respond(mid, request, error, snapshot, station)] *)
Definition respond (mid : Z) (r : BackhaulRequest) (error : Z) (from : ReportSnapshot) (st : option bytes) : M Backhaul unit :=
  now ← on_io clock;
  _ ← bh_send RESPONSE mid (response_tlvs r error st) from (now + seconds 1);
  _ ← note (Responded mid r error);
  modify (λ s, s <| answered := <[mid := mkAnswer r error (now + seconds 30) st]> (answered s) |>).

(** The next thing asked of the uplink scope. *)
Definition ask {A} (f : nat → A) : M Backhaul A := λ s,
  (Ok (f (asked (bh_io s))), s <| bh_io := bh_io s <| asked := S (asked (bh_io s)) |> |>).

(** [self.executor(target, operating_class, channel)]; that of [close] once closed *)
Definition execute (mid : Z) (r : BackhaulRequest) : M Backhaul (option string) :=
  s ← get;
  if bh_closed s then mret (Some "session_closed")
  else
    reason ← ask (λ n, executor n r);
    _ ← note (Handed mid r reason);
    mret reason.

(** What follows the acknowledgment of a new request. *)
Definition carry_out (now mid : Z) (from : ReportSnapshot) (r : BackhaulRequest) : M Backhaul string :=
  s ← get;
  reason ←
    match refusal r (snd <$> backhaul_stations (topology from)) with
    | Some reason => mret (Some reason)
    | None => match bh_pending s with
              | Some _ => mret (Some "move_in_progress")
              | None => execute mid r
              end
    end;
  _ ← modify (λ s, s <| bh_last := Some (list_to_map [("mid", VInt mid); ("request", request_record r);
                                             ("refused", from_option VStr VNone reason)]) |>);
  match reason with
  | Some reason =>
      let code := if bool_decide (reason ∈ CHANNEL_REFUSALS) then CHANNEL_NOT_OPERABLE else ASSOCIATION_FAILED in
      _ ← respond mid r code from None;
      bh_record ("backhaul_steering_refused_" +:+ reason)
  | None =>
      _ ← modify (λ s, s <| bh_pending := Some (mkMove mid r (now + DEADLINE)) |>);
      bh_record "backhaul_steering_started"
  end.

(** What follows the acknowledgment: an answer given before, the acknowledgment alone, or a new request. *)
Definition answer_request (now mid : Z) (from : ReportSnapshot) (r : BackhaulRequest) : M Backhaul string :=
  s ← get;
  match answered s !! mid with
  | Some an =>
      _ ← respond mid (an_request an) (an_error an) from (an_station an);
      bh_record "backhaul_steering_repeated_response_sent"
  | None =>
      if match bh_pending s with Some p => bool_decide (mv_mid p = mid) | None => false end
      then bh_record "backhaul_steering_repeated_ack_sent"
      else carry_out now mid from r
  end.

(** [handle(message, received_at)] *)
Definition handle (message : Message) (received_at : Z) : M Backhaul (option string) :=
  if negb (bool_decide (m_message_type message = REQUEST)) then mret None
  else
    _ ← lift (raise_if (negb (bool_decide (m_source message = controller_al binding))
                        || negb (bool_decide (m_destination message = local_al binding)) || m_relay message)
                INVALID_INPUT "backhaul steering request from an unbound controller or envelope");
    now ← on_io clock;
    _ ← lift (raise_if (bool_decide (received_at + seconds 1 ≤ now)) NOT_READY "backhaul steering Ack deadline expired");
    _ ← modify (λ s, s <| answered := filter (λ ma, now < an_expiry ma.2) (answered s) |>);
    request ← lift (decode_request (m_tlvs message));
    a ← on_io bh_snapshot;
    _ ← bh_send BACKHAUL_ACK (m_mid message) [] a (received_at + seconds 1);
    Some <$> answer_request now (m_mid message) a request.

(** The end of a move whose outcome is known, or whose deadline has passed. *)
Definition conclude (p : Move) (result : option (option string)) (from : ReportSnapshot) : M Backhaul string :=
  let success := bool_decide (result = Some None) in
  let error := if success then 0 else ASSOCIATION_FAILED in
  let failed := match result with
                | Some None => None
                | Some (Some r) => Some (if bool_decide (r = "") then "deadline" else r)
                | None => Some "deadline"
                end in
  _ ← modify (λ s, s <| bh_pending := None |>);
  _ ← note (Concluded (mv_mid p) (mv_request p) failed);
  st ← (if success then ask associated else mret None);
  _ ← respond (mv_mid p) (mv_request p) error from st;
  let name := if success then "succeeded" else "failed" in
  _ ← modify (λ s, s <| bh_last := Some (list_to_map [("mid", VInt (mv_mid p)); ("request", request_record (mv_request p));
                                             ("result", VStr name); ("reason", from_option VStr VNone failed)]) |>);
  bh_record ("backhaul_steering_" +:+ name).

(** [tick()] *)
Definition bh_tick : M Backhaul (option string) :=
  s ← get;
  match bh_pending s with
  | None => mret None
  | Some p =>
      now ← on_io clock;
      result ← ask (λ n, outcome n (target (mv_request p)));
      if bool_decide (result = None) && negb (bool_decide (mv_deadline p ≤ now)) then mret None
      else
        a ← on_io poll;
        match a with
        | None =>
            if bool_decide (now < mv_deadline p + seconds 30) then mret None
            else
              _ ← modify (λ s, s <| bh_pending := None |>);
              _ ← note (Abandoned (mv_mid p));
              _ ← modify (λ s, s <| bh_last := Some (<["result" := VStr "unanswered"]> (<["mid" := VInt (mv_mid p)]>
                                      (default ∅ (bh_last s)))) |>);
              Some <$> bh_record "backhaul_steering_unanswered"
        | Some a => Some <$> conclude p result a
        end
  end.

(** [close()], and the coordinator of the agent's next session. *)
Definition bh_close (s : Backhaul) : Backhaul := s <| bh_closed := true |>.
Definition renew (s : Backhaul) : Backhaul := s <| bh_counts := ∅ |> <| bh_last := None |> <| bh_closed := false |>.

(** * Theory *)

(** ** What steering a backhaul means: one move at a time, and truthful answers *)

(** The uplink scope reported the move applied. *)
Definition reported (r : BackhaulRequest) : Prop := ∃ n, outcome n (target r) = Some None.
(** The request named a backhaul station of the pod, in a snapshot its source showed, and a unicast target. *)
Definition justified (r : BackhaulRequest) : Prop :=
  ∃ n a, world_source n = Some a ∧ station r ∈ (backhaul_stations (topology a)).*2 ∧ not_unicast (target r) = false.

(** The deeds of an agent, and the move they leave under way. *)
Inductive trace : list deed → option (Z * BackhaulRequest) → Prop :=
  | trace_nil : trace [] None
  | trace_refused l mid r reason : trace l None → justified r → trace (l ++ [Handed mid r (Some reason)]) None
  | trace_started l mid r : trace l None → justified r → trace (l ++ [Handed mid r None]) (Some (mid, r))
  | trace_concluded l mid r failed :
      trace l (Some (mid, r)) → (failed = None → reported r) → trace (l ++ [Concluded mid r failed]) None
  | trace_abandoned l mid r : trace l (Some (mid, r)) → trace (l ++ [Abandoned mid]) None
  | trace_responded l m mid r error :
      trace l m → (error = 0 → Concluded mid r None ∈ l) → trace (l ++ [Responded mid r error]) m.

Lemma trace_success l m mid r : trace l m → Responded mid r 0 ∈ l → Concluded mid r None ∈ l.
Proof.
  intros Ht. induction Ht; [by intros ?%elem_of_nil|..]; rewrite !elem_of_app, !list_elem_of_singleton; intros [Hin|E]; auto; try discriminate E.
  injection E as <- <- <-. auto.
Qed.

(** ** The coordinator does that *)

Definition sent_whole (i : Io) (d : deed) : Prop :=
  match d with
  | Responded mid r error => ∃ st fs,
      fragment_message (controller_al binding) (local_al binding) RESPONSE mid (response_tlvs r error st) false MAX_CMDU = Ok fs
      ∧ handed_over i fs
  | _ => True
  end.

(** The deeds so far leave [m] under way; every answer remembered was given. *)
Record tracks (m : option (Z * BackhaulRequest)) (s : Backhaul) : Prop := {
  tk_trace : trace (deeds s) m;
  tk_answered mid an : answered s !! mid = Some an → Responded mid (an_request an) (an_error an) ∈ deeds s;
  tk_sent : Forall (sent_whole (bh_io s)) (deeds s)
}.

Lemma sent_whole_later i i' d : later i i' → sent_whole i d → sent_whole i' d.
Proof.
  intros Hl. destruct d; try done. intros (st & fs & Hf & Hh). exists st, fs. split; [done|]. by eapply handed_over_later.
Qed.

Lemma tracks_frame m s s' :
  deeds s' = deeds s → answered s' ⊆ answered s → later (bh_io s) (bh_io s') → tracks m s → tracks m s'.
Proof.
  intros Hd Ha Hi [T1 T2 T3]. split; rewrite Hd; [done| |].
  - intros mid an Hm. apply T2. by eapply lookup_weaken.
  - eapply Forall_impl; [exact T3|]. intros d. by apply sent_whole_later.
Qed.

(** A deed that is not a Response. *)
Lemma tracks_note m m' d s :
  tracks m s → trace (deeds s ++ [d]) m' → sent_whole (bh_io s) d → tracks m' (s <| deeds := deeds s ++ [d] |>).
Proof.
  intros [T1 T2 T3] Ht Hd. split; cbn; [done| |].
  - intros mid an Hm. apply elem_of_app. left. by apply T2.
  - apply Forall_app. split; [done|]. by apply Forall_singleton.
Qed.

(** The move a pending record stands for. *)
Definition under_way (o : option Move) : option (Z * BackhaulRequest) := (λ p, (mv_mid p, mv_request p)) <$> o.

Definition refines (s : Backhaul) : Prop := tracks (under_way (bh_pending s)) s.

(** What the calls keep while [pending] is [o]. *)
Definition steady (m : option (Z * BackhaulRequest)) (o : option Move) (s : Backhaul) : Prop := tracks m s ∧ bh_pending s = o.

Lemma steady_stable m o : stable (steady m o).
Proof. intros s i [Ht Ho] Hi. split; [|done]. eapply tracks_frame; [..|exact Ht]; done. Qed.

Lemma steady_modify m o f :
  (∀ s, deeds (f s) = deeds s ∧ answered (f s) ⊆ answered s ∧ bh_io (f s) = bh_io s ∧ bh_pending (f s) = bh_pending s) →
  keeps (steady m o) (modify f).
Proof.
  intros Hf. apply keeps_modify. intros s [Ht Ho]. destruct (Hf s) as (E1 & E2 & E3 & E4). split; [|congruence].
  eapply tracks_frame; [done|done| |exact Ht]. by rewrite E3.
Qed.

Lemma forward_snapshot : forward bh_snapshot.
Proof. apply forward_bind; [apply forward_poll|]. intros [a|]; [apply forward_mret|apply forward_lift]. Qed.
Lemma silent_snapshot : silent bh_snapshot.
Proof. intros io. unfold bh_snapshot, mbind, M_mbind, poll. by destruct (world_source _). Qed.

Lemma steady_ask {A} m o (f : nat → A) :
  hoare (steady m o) (ask f) (λ a s, steady m o s ∧ ∃ n, a = f n) (λ _ _, False).
Proof.
  intros s [Ht Ho]. cbn. split; [|by exists (asked (bh_io s))]. split; [|done].
  apply (tracks_frame m s); [done|done|split; [cbn; lia|done]|exact Ht].
Qed.

Lemma steady_record m o event : keeps (steady m o) (bh_record event).
Proof. apply keeps_bind; [by apply steady_modify|intros; apply keeps_mret]. Qed.

Lemma respond_ok m o mid r error from st :
  hoare (λ s, steady m o s ∧ (error = 0 → Concluded mid r None ∈ deeds s)) (respond mid r error from st)
    (λ _, steady m o) (λ _, steady m o).
Proof.
  set (J := λ s, steady m o s ∧ (error = 0 → Concluded mid r None ∈ deeds s)).
  assert (HJ : stable J) by (intros s i [Hs Hc] Hi; split; [by apply steady_stable|done]).
  apply (hoare_bind _ _ _ (λ _, J)).
  { eapply hoare_weaken; [apply (keeps_clock _ HJ)|done|done|by intros e s []]. }
  intros now. eapply hoare_bind.
  { eapply hoare_weaken; [apply (deliver_ok J binding bh_snapshot RESPONSE mid (response_tlvs r error st) from (now + seconds 1) HJ silent_snapshot forward_snapshot)|done| |by intros e s []].
    intros u s Hs. exact Hs. }
  intros [] s [[[Ht Ho] Hc] (fs & Hfs & Hh)]. cbn. split; [|done].
  assert (Hn : tracks m (s <| deeds := deeds s ++ [Responded mid r error] |>)).
  { eapply tracks_note; [exact Ht| |by exists st, fs]. apply trace_responded; [apply Ht|done]. }
  destruct Hn as [T1 T2 T3]. split; cbn in *; [done| |done].
  intros mid' an [[<- <-]|[Hne Hm]]%lookup_insert_Some; [|by apply T2]. apply elem_of_app. right. by apply list_elem_of_singleton.
Qed.

Lemma steady_refines o s : steady (under_way o) o s → refines s.
Proof. intros [Ht <-]. exact Ht. Qed.

Lemma steady_next {A B} m o (c : M Backhaul A) (k : A → M Backhaul B) Q E :
  keeps (steady m o) c → (∀ e s, steady m o s → E e s) → (∀ a, hoare (steady m o) (k a) Q E) → hoare (steady m o) (c ≫= k) Q E.
Proof. intros Hc HE Hk. eapply hoare_bind; [|exact Hk]. eapply hoare_weaken; [exact Hc|done|done|done]. Qed.

(** The executor is called while nothing is under way, and its answer decides. *)
Lemma execute_ok mid r :
  justified r →
  hoare (steady None None) (execute mid r)
    (λ reason, steady (if reason is None then Some (mid, r) else None) None) (λ _ _, False).
Proof.
  intros Hj. apply hoare_get_bind. intros s0 Hs0. destruct (bh_closed s0); [by apply hoare_ret; intros ? ->|].
  eapply hoare_bind; [eapply hoare_pre; [apply steady_ask|by intros ? ->]|]. intros reason.
  eapply (hoare_bind _ _ _ (λ _, steady (if reason is None then Some (mid, r) else None) None)); [|by intros _; apply hoare_ret].
  apply hoare_modify. intros s [[Ht Ho] _]. split; [|done]. eapply tracks_note; [exact Ht| |done].
  destruct reason; [apply trace_refused|apply trace_started]; (apply Ht || done).
Qed.

Lemma refusal_justified n a r :
  world_source n = Some a → refusal r (snd <$> backhaul_stations (topology a)) = None → justified r.
Proof.
  unfold refusal. destruct (bool_decide (station r ∈ _)) eqn:Hs; [|done]. destruct (not_unicast (target r)) eqn:Ht; [done|].
  bools. intros Ha _. by exists n, a.
Qed.

(** The rest of a request that was judged: refused at once, or under way. *)
Lemma carry_out_ok o now mid n from r :
  world_source n = Some from →
  hoare (steady (under_way o) o) (carry_out now mid from r) (λ _, refines) (λ _, refines).
Proof.
  intros Hn. apply hoare_get_bind. intros s0 [Ht0 Ho0]. rewrite Ho0.
  apply (hoare_bind _ _ _ (λ reason s, match reason with
    | Some _ => steady (under_way o) o s | None => steady (Some (mid, r)) None s end)).
  { destruct (refusal r _) as [reason|] eqn:Hr; [apply hoare_ret; by intros ? ->|].
    destruct o as [p|]; [apply hoare_ret; by intros ? ->|].
    eapply hoare_weaken; [apply (execute_ok mid r); by eapply refusal_justified|by intros ? ->| |done].
    intros [reason|] s Hs; exact Hs. }
  intros [reason|].
  - apply steady_next; [by apply steady_modify|intros e s; apply steady_refines|intros []]. 
    apply (hoare_bind _ _ _ (λ _, steady (under_way o) o)).
    + eapply hoare_weaken; [apply (respond_ok (under_way o) o)|intros s Hs; split; [exact Hs|]|done|intros e s; apply steady_refines].
      destruct (bool_decide (reason ∈ CHANNEL_REFUSALS)); discriminate.
    + intros []. eapply hoare_weaken; [apply steady_record|done|intros a s; apply steady_refines|intros e s; apply steady_refines].
  - apply (hoare_bind _ _ _ (λ _, steady (Some (mid, r)) None)); [|intros []].
    { intros s [Ht Ho]. cbn. split; [|done]. apply (tracks_frame _ s); done. }
    apply (hoare_bind _ _ _ (λ _, steady (Some (mid, r)) (Some (mkMove mid r (now + DEADLINE))))).
    { intros s [Ht Ho]. cbn. split; [|done]. apply (tracks_frame _ s); done. }
    intros []. pose proof (steady_refines (Some (mkMove mid r (now + DEADLINE)))) as Href. cbn in Href.
    eapply hoare_weaken; [apply steady_record|done|intros a s; apply Href|intros e s; apply Href].
Qed.

Lemma take_snapshot_ok m o :
  hoare (steady m o) (on_io bh_snapshot) (λ a s, steady m o s ∧ ∃ n, world_source n = Some a) (λ _, steady m o).
Proof.
  intros s Hs. pose proof (keeps_on _ bh_snapshot (steady_stable m o) forward_snapshot s Hs) as Hk. revert Hk.
  unfold on_io, bh_snapshot, mbind, M_mbind, poll. destruct (world_source _) as [a|] eqn:E; cbn; eauto.
Qed.

Lemma hoare_fmap {S A B} (f : A → B) P (m : M S A) (J : S → Prop) (E : EmosaError → S → Prop) :
  hoare P m (λ _, J) E → hoare P (f <$> m) (λ _, J) E.
Proof. intros Hm s Hs. specialize (Hm s Hs). unfold fmap, M_fmap. by destruct (m s) as [[]]. Qed.

Lemma answer_request_ok o now mid n from r :
  world_source n = Some from →
  hoare (steady (under_way o) o) (answer_request now mid from r) (λ _, refines) (λ _, refines).
Proof.
  intros Hn. apply hoare_get_bind. intros s Hs. pose proof (steady_refines o) as HE.
  assert (Hrec : ∀ ev, hoare (steady (under_way o) o) (bh_record ev) (λ _, refines) (λ _, refines)).
  { intros ev. eapply hoare_weaken; [apply steady_record|done|auto|auto]. }
  destruct (answered s !! mid) as [an|] eqn:Ha.
  - apply (hoare_bind _ _ _ (λ _, steady (under_way o) o)); [|intros _; apply Hrec].
    eapply hoare_weaken; [apply (respond_ok (under_way o) o)| |done|auto]. intros ? ->. split; [done|]. intros E.
    destruct Hs as [[T1 T2 _] _]. apply T2 in Ha. rewrite E in Ha. by eapply trace_success.
  - destruct (match bh_pending s with Some _ => _ | None => _ end);
      (eapply hoare_pre; [|by intros ? ->]); [apply Hrec|by eapply carry_out_ok].
Qed.

Lemma handle_ok message received_at : keeps refines (handle message received_at).
Proof.
  enough (Hall : ∀ o, hoare (steady (under_way o) o) (handle message received_at) (λ _, refines) (λ _, refines)).
  { intros s0 H0. by apply (Hall (bh_pending s0)). }
  intros o. unfold handle. destruct (negb _); [apply hoare_ret, steady_refines|].
  pose proof (λ e : EmosaError, steady_refines o) as HE. pose proof (steady_stable (under_way o) o) as Hst.
  apply steady_next; [apply keeps_lift|done|intros _]. apply steady_next; [by apply keeps_clock|done|intros now].
  apply steady_next; [apply keeps_lift|done|intros _].
  apply steady_next; [apply steady_modify; intros s; split; [done|]; split; [apply map_filter_subseteq|done]|done|intros _].
  apply steady_next; [apply keeps_lift|done|intros r].
  eapply hoare_bind; [eapply hoare_weaken; [apply take_snapshot_ok|done|intros a s Hs; exact Hs|done]|].
  intros a s1 [Hs1 [n Hn]]. revert s1 Hs1. apply (steady_next (under_way o) o).
  - apply keeps_on; [done|apply forward_deliver, forward_snapshot].
  - done.
  - intros _. apply hoare_fmap. by eapply answer_request_ok.
Qed.

(** The end of a move: what is concluded is what was under way, a success as reported. *)
Lemma conclude_ok p result from :
  (result = Some None → reported (mv_request p)) →
  hoare (steady (under_way (Some p)) (Some p)) (conclude p result from) (λ _, refines) (λ _, refines).
Proof.
  intros Hrep. unfold conclude. cbv zeta. set (success := bool_decide (result = Some None)).
  set (failed := match result with Some None => None | _ => _ end).
  assert (Hf : failed = None ↔ success = true).
  { unfold failed, success. destruct result as [[]|]; by rewrite bool_decide_eq_true. }
  set (done_ := λ s, steady None None s ∧ (success = true → Concluded (mv_mid p) (mv_request p) None ∈ deeds s)).
  pose proof (steady_refines None) as HE.
  apply (hoare_bind _ _ _ (λ _, steady (under_way (Some p)) None)).
  { apply hoare_modify. intros s [Ht _]. split; [|done]. by apply (tracks_frame _ s). }
  intros _. apply (hoare_bind _ _ _ (λ _, done_)).
  { apply hoare_modify. intros s [Ht Ho]. split.
    - split; [|done]. eapply tracks_note; [exact Ht| |done]. apply trace_concluded; [apply Ht|].
      intros E. apply Hrep. apply Hf in E. unfold success in E. by bools.
    - intros E. cbn. apply elem_of_app. right. apply list_elem_of_singleton. f_equal. symmetry. by apply Hf. }
  intros _. apply (hoare_bind _ _ _ (λ _, done_)).
  { destruct success eqn:Es; [|by apply hoare_ret]. intros s [Hs Hc]. pose proof (steady_ask None None associated s Hs) as Ha.
    cbn in Ha |- *. destruct Ha as [Ha _]. split; [exact Ha|exact Hc]. }
  intros st. apply (hoare_bind _ _ _ (λ _, steady None None)).
  { eapply hoare_weaken; [apply (respond_ok None None)| |done|auto]. intros s [Hs Hc]. split; [done|]. intros E. apply Hc.
    by destruct success. }
  intros _. apply steady_next; [by apply steady_modify|auto|intros _]. eapply hoare_weaken; [apply steady_record|done|auto|auto].
Qed.

Lemma bh_tick_ok : keeps refines bh_tick.
Proof.
  apply hoare_get_bind. intros s0 H0. unfold refines in H0. destruct (bh_pending s0) as [p|] eqn:Hp; [|apply hoare_ret; intros ? ->; unfold refines; by rewrite Hp].
  eapply hoare_pre; [|intros s ->; exact (conj H0 Hp : steady (under_way (Some p)) (Some p) s0)].
  pose proof (λ e : EmosaError, steady_refines (Some p)) as HE. pose proof (steady_stable (under_way (Some p)) (Some p)) as Hst.
  apply steady_next; [by apply keeps_clock|done|intros now].
  eapply hoare_bind; [eapply hoare_weaken; [apply steady_ask|done|intros a s Hs; exact Hs|done]|].
  intros result s1 [Hs1 [n Hn]]. revert s1 Hs1.
  destruct (_ && _); [exact (λ s Hs, HE os_error s Hs)|].
  apply (steady_next (under_way (Some p)) (Some p)); [apply keeps_on; [done|apply forward_poll]|done|intros [a|]].
  - apply hoare_fmap, conclude_ok. intros E. exists n. by rewrite <- Hn.
  - destruct (bool_decide _); [exact (λ s Hs, HE os_error s Hs)|].
    apply (hoare_bind _ _ _ (λ _, steady (under_way (Some p)) None)).
    { apply hoare_modify. intros s [Ht _]. split; [|done]. by apply (tracks_frame _ s). }
    intros _. apply (hoare_bind _ _ _ (λ _, steady None None)).
    { apply hoare_modify. intros s [Ht Ho]. split; [|done]. eapply tracks_note; [exact Ht| |done]. eapply trace_abandoned, Ht. }
    intros _. pose proof (steady_refines None) as HN. apply steady_next; [by apply steady_modify|auto|intros _].
    apply hoare_fmap. eapply hoare_weaken; [apply steady_record|done|auto|auto].
Qed.

(** When [conclude] raises, the Response was not sent, and the move is over. *)
Definition over (s : Backhaul) (p : Move) (s' : Backhaul) : Prop :=
  bh_pending s' = None ∧ answered s' = answered s ∧ ∃ failed, deeds s' = deeds s ++ [Concluded (mv_mid p) (mv_request p) failed].

Lemma conclude_raises p result from s :
  match conclude p result from s with (Ok _, _) => True | (Raise _, s') => over s p s' end.
Proof.
  enough (Hh : hoare (λ x, x = s) (conclude p result from) (λ _ _, True) (λ _, over s p)) by exact (Hh s eq_refl).
  assert (Hst : stable (over s p)) by (by intros s1 i Hs1 _).
  unfold conclude. cbv zeta. set (failed := match result with Some None => None | _ => _ end).
  apply (hoare_bind _ _ _ (λ _ x, x = s <| bh_pending := None |>)); [apply hoare_modify; by intros ? ->|intros _].
  apply (hoare_bind _ _ _ (λ _, over s p)); [apply hoare_modify; intros ? ->; by split_and!; [| |exists failed]|intros _].
  apply (hoare_bind _ _ _ (λ _, over s p)); [destruct (bool_decide _); [by intros x Hx|by apply hoare_ret]|intros st].
  apply (hoare_bind _ _ _ (λ _ _, True)).
  - apply (hoare_bind _ _ _ (λ _, over s p)); [by apply keeps_clock|intros now].
    apply (hoare_bind _ _ _ (λ _ _, True)); [|by intros].
    eapply hoare_weaken; [apply keeps_on; [exact Hst|apply forward_deliver, forward_snapshot]|done|done|done].
  - intros _. by intros x _.
Qed.

(** ** Sequences of inputs *)

Inductive input := Receive (message : Message) (received_at : Z) | Tick | Close | Renew.

Definition serve (s : Backhaul) (i : input) : Backhaul :=
  match i with
  | Receive message received_at => (handle message received_at s).2
  | Tick => (bh_tick s).2
  | Close => bh_close s
  | Renew => renew s
  end.

Lemma bh_serve_ok s i : refines s → refines (serve s i).
Proof.
  intros Hs. destruct i; cbn.
  - by apply keeps_snd; [apply handle_ok|].
  - by apply keeps_snd; [apply bh_tick_ok|].
  - by apply (tracks_frame _ s).
  - by apply (tracks_frame _ s).
Qed.

Lemma bh_serve_all_ok s l : refines s → refines (foldl serve s l).
Proof. revert s. induction l as [|i l IH]; intros s Hs; [done|]. by apply IH, bh_serve_ok. Qed.

End Coordinator.

Definition backhaul_init (n : nat) : Backhaul := mkBackhaul (mkIo n []) ∅ None ∅ None false [].

(** * Properties *)

(** C29: backhaul steering moves one station at a time and answers the truth. Whatever requests arrive, repeated or
    not, and whatever the clock, the source, the link and the uplink scope do, over all sessions of the agent:
    the uplink scope is asked for a move only while none is under way, for a backhaul station the pod's source
    showed and a unicast target; a move ends once, and the one under way is the one recorded; every Response
    was sent whole, and says success only after the scope reported that move applied. *)
Theorem one_backhaul_move `{World} binding executor outcome associated n inputs :
  let s := foldl (serve binding executor outcome associated) (backhaul_init n) inputs in
  trace outcome (deeds s) (under_way (bh_pending s)) ∧ Forall (sent_whole binding (bh_io s)) (deeds s).
Proof.
  intros s. assert (Hr : refines binding outcome s).
  { apply bh_serve_all_ok. split; [apply trace_nil|by intros mid an|constructor]. }
  destruct Hr as [T1 _ T3]. done.
Qed.

Definition ex_sta : bytes := octets [2; 0; 0; 0; 0; 0x21].
Definition ex_upstream : bytes := octets [2; 0; 0; 0; 0; 0x31].
Definition ex_snapshot : ReportSnapshot :=
  mkReportSnapshot (mkReportStamp "i/0/1/1" 0 100000) example_caps (example_facts <| backhaul_stations := [(ex_sta, ex_sta)] |>) "i/0/1" [] None None (Some 1) [].
(** The link takes every frame but the [n]th thing asked. *)
Definition ex_world (broken : option nat) : World :=
  {| world_clock := λ n, 10 * Z.of_nat n; world_binding := λ _, example_binding; world_source := λ _, Some ex_snapshot;
     world_link := λ n, negb (bool_decide (broken = Some n)) |}.
Definition ex_request : Message :=
  mkMessage (octets [2; 0; 0; 0; 0; 9]) (octets [2; 0; 0; 0; 0; 8]) 0x8019 7 false
    [mkTlv 0x9E (ex_sta ++ ex_upstream ++ octets [115; 36])] 1.
Definition ex_run (broken : option nat) (inputs : list input) : Backhaul :=
  foldl (@serve (ex_world broken) example_binding (λ _ _, None) (λ _ _, Some None) (λ _, None)) (backhaul_init 0) inputs.
Definition ex_asked : BackhaulRequest := mkBackhaulRequest ex_sta ex_upstream 115 36.

(** A request, repeated, its move, and the request once more: one move, answered twice. *)
Example repeated_request_moves_once :
  deeds (ex_run None [Receive ex_request 0; Receive ex_request 0; Tick; Receive ex_request 500])
  = [Handed 7 ex_asked None; Concluded 7 ex_asked None; Responded 7 ex_asked 0; Responded 7 ex_asked 0].
Proof. vm_compute. reflexivity. Qed.

(** C30: an answer that cannot be sent is lost. When the Response of an ended move fails to leave - its stamp is no
    longer the source's, or the link refuses the frame - [tick] raises with the move no longer under way and
    no answer remembered: no later tick answers it, of this session or of the next. *)
Theorem unsent_answer_lost `{World} binding outcome associated p s e s' :
  bh_pending s = Some p → bh_tick binding outcome associated s = (Raise e, s') →
  bh_pending s' = None ∧ answered s' = answered s ∧ (∃ failed, deeds s' = deeds s ++ [Concluded (mv_mid p) (mv_request p) failed])
  ∧ ∀ s1, s1 = s' ∨ s1 = renew (bh_close s') → bh_tick binding outcome associated s1 = (Ok None, s1).
Proof.
  intros Hp Ht. enough (Hx : bh_pending s' = None ∧ answered s' = answered s ∧ ∃ failed, deeds s' = deeds s ++ [Concluded (mv_mid p) (mv_request p) failed]).
  { destruct Hx as (H1 & H2 & H3). split; [done|]. split; [done|]. split; [done|]. intros s1 Hs1. assert (Hn : bh_pending s1 = None) by (by destruct Hs1 as [->| ->]).
    unfold bh_tick, mbind, M_mbind, get. by rewrite Hn. }
  unfold bh_tick, mbind at 1, M_mbind at 1, get in Ht. rewrite Hp in Ht. unfold mbind, M_mbind, on_io, clock, ask, poll in Ht. cbn in Ht.
  destruct (_ && _); [done|]. destruct (world_source _) as [a|]; [|by destruct (bool_decide _)].
  unfold fmap, M_fmap in Ht. match type of Ht with context [conclude _ _ _ _ _ ?s1] => pose proof (conclude_raises binding associated p
    (outcome (S (asked (bh_io s))) (target (mv_request p))) a s1) as Hc end.
  destruct (conclude _ _ _ _ _ _) as [[ev|e'] s1]; [done|]. by injection Ht as _ <-.
Qed.

Lemma unsent_answer_lost_witness :
  let s := ex_run (Some 22%nat) [Receive ex_request 0; Receive ex_request 0] in
  ∃ e s', @bh_tick (ex_world (Some 22%nat)) example_binding (λ _ _, Some None) (λ _, None) s = (Raise e, s')
    ∧ bh_pending s' = None ∧ @bh_tick (ex_world (Some 22%nat)) example_binding (λ _ _, Some None) (λ _, None) s' = (Ok None, s').
Proof.
  intros s. assert (Hp : bh_pending s = Some (mkMove 7 ex_asked (seconds 120))) by (vm_compute; reflexivity).
  assert (Hr : is_ok (@bh_tick (ex_world (Some 22%nat)) example_binding (λ _ _, Some None) (λ _, None) s).1 = false) by (vm_compute; reflexivity).
  clearbody s. destruct (bh_tick _ _ _ s) as [[r|e] s'] eqn:Ht; [discriminate Hr|].
  destruct (unsent_answer_lost _ _ _ _ _ _ _ Hp Ht) as (Hn & _ & _ & Hl). exists e, s'. split; [done|]. split; [done|].
  apply Hl. by left.
Defined.

(** The request again after the lost answer: the station is moved a second time. *)
Example lost_answer_moves_again :
  deeds (ex_run (Some 22%nat) [Receive ex_request 0; Receive ex_request 0; Tick; Tick; Receive ex_request 500])
  = [Handed 7 ex_asked None; Concluded 7 ex_asked None; Handed 7 ex_asked None].
Proof. vm_compute. reflexivity. Qed.
