(* ===== verification/ApMetrics.v ===== *)
(** * AP, radio and station metrics: [src/emosa/wire/ap_metrics.py]

    The values of a report and their TLVs, [APMetricSource] (publication and lease of complete
    observations) and [APMetricCoordinator]. The report source, the clock and the link are the [World] of
    [Session]; whether the agent is admitted and the policy in force are outside; times are in milliseconds,
    so [int(age * 1000)] is the age. *)

From S2P Require Import Prelude Bytes Cmdu Reassembly Payloads TopologyValues Reports Channel ReportSource Session.
From S2P Require Import LinkMetrics Disassociation ReportingPolicy.

Definition AP_MAX_STATIONS : nat := 32.
Definition AC_ORDER : list string := ["BE"; "BK"; "VO"; "VI"].

(** ** Values *)

Record APMetrics := mkAPMetrics {
  ap_bssid : bytes; utilization : Z; station_count : Z; esp : list (string * bytes) }.

(** The loop over [esp]. *)
Fixpoint esp_values (l : list (string * bytes)) (values : list (string * bytes)) : result (list (string * bytes)) :=
  match l with
  | [] => Ok values
  | (ac, encoded) :: l =>
      _ ← raise_if (negb (bool_decide (ac ∈ AC_ORDER)) || bool_decide (ac ∈ values.*1)
                    || negb (bool_decide (length encoded = 3%nat)))
            INVALID_INPUT "duplicate, unknown or malformed ESP field";
      esp_values l (values ++ [(ac, encoded)])
  end.

Definition esp_at (values : list (string * bytes)) (ac : string) : option bytes :=
  snd <$> (snd <$> list_find (λ v, v.1 = ac) values).

(** [sum(0x80 >> i for i, ac in enumerate(AC_ORDER) if ac in values)] *)
Definition esp_flags (values : list (string * bytes)) : Z :=
  foldr Z.add 0 (imap (λ i ac, if bool_decide (ac ∈ values.*1) then Z.shiftr 0x80 (Z.of_nat i) else 0) AC_ORDER).

(** [APMetrics.tlv] *)
Definition ap_tlv (m : APMetrics) : result Tlv :=
  _ ← d_unicast (ap_bssid m);
  _ ← uint (utilization m) 8 "channel utilization";
  _ ← uint (station_count m) 16 "associated station count";
  _ ← raise_if (negb (bool_decide (1 ≤ length (esp m) ≤ 4)%nat)) INVALID_INPUT "explicit bounded ESP information required";
  values ← esp_values (esp m) [];
  _ ← raise_if (negb (bool_decide ("BE" ∈ values.*1))) INVALID_INPUT "best-effort ESP is mandatory";
  Ok (mkTlv 0x94 (ap_bssid m ++ be_bytes 1 (utilization m) ++ be_bytes 2 (station_count m) ++ be_bytes 1 (esp_flags values)
                  ++ concat (omap (esp_at values) AC_ORDER))).

Record APExtendedMetrics := mkAPExtendedMetrics { ext_bssid : bytes; byte_counts : list Z; byte_units : Z }.

(** [APExtendedMetrics.tlv] *)
Definition extended_tlv (m : APExtendedMetrics) : result Tlv :=
  _ ← d_unicast (ext_bssid m);
  _ ← raise_if (negb (bool_decide (length (byte_counts m) = 6%nat))) INVALID_INPUT "six explicit AP byte counters required";
  _ ← check_each (λ v, _ ← uint v 32 "encoded AP byte counter"; Ok tt) (byte_counts m);
  _ ← raise_if (negb (bool_decide (byte_units m ∈ [0; 1; 2]))) INVALID_INPUT "explicit AP counter units required";
  Ok (mkTlv 0xC7 (ext_bssid m ++ concat (be_bytes 4 <$> byte_counts m))).

Record RadioMetrics := mkRadioMetrics {
  rm_ruid : bytes; noise_encoded : Z; transmit_encoded : Z; receive_self_encoded : Z; receive_other_encoded : Z }.
Definition radio_values (m : RadioMetrics) : list Z :=
  [noise_encoded m; transmit_encoded m; receive_self_encoded m; receive_other_encoded m].

(** [RadioMetrics.tlv] *)
Definition radio_tlv (m : RadioMetrics) : result Tlv :=
  _ ← d_unicast (rm_ruid m);
  _ ← check_each (λ v, _ ← uint v 8 "encoded radio metric"; Ok tt) (radio_values m);
  Ok (mkTlv 0xC6 (rm_ruid m ++ octets (radio_values m))).

Record StationLinkMetrics := mkStationLinkMetrics {
  earliest_measurement : Z;
  downlink_mac_mbps : Z;
  uplink_mac_mbps : Z;
  sl_rcpi : Z;
  last_downlink_encoded : Z;
  last_uplink_encoded : Z;
  receive_utilization_encoded : Z;
  transmit_utilization_encoded : Z
}.

(** [StationLinkMetrics.tlvs(station, bssid, sent_at)] *)
Definition station_link_tlvs (m : StationLinkMetrics) (station bssid : bytes) (sent_at : Z) : result (list Tlv) :=
  _ ← d_unicast station;
  _ ← d_unicast bssid;
  let age := sent_at - earliest_measurement m in
  _ ← raise_if (negb (bool_decide (0 ≤ age ≤ seconds 12))) NOT_READY
        "STA rate estimate outside the selected measurement-age budget";
  let base := [age; downlink_mac_mbps m; uplink_mac_mbps m] in
  let extended := [last_downlink_encoded m; last_uplink_encoded m; receive_utilization_encoded m; transmit_utilization_encoded m] in
  _ ← check_each (λ v, _ ← uint v 32 "STA link metric"; Ok tt) (base ++ extended);
  _ ← uint (sl_rcpi m) 8 "uplink RCPI";
  _ ← raise_if (bool_decide (220 < sl_rcpi m)) INVALID_INPUT "reserved uplink RCPI";
  let prefix := station ++ octets [1] ++ bssid in
  Ok [mkTlv 0x96 (prefix ++ concat (be_bytes 4 <$> base) ++ be_bytes 1 (sl_rcpi m));
      mkTlv 0xC8 (prefix ++ concat (be_bytes 4 <$> extended))].

Record StationMetrics := mkStationMetrics {
  sta : bytes;
  association_id : string;
  traffic : option TrafficCounters;
  sta_link : option StationLinkMetrics;
  wifi6_queues : option (list (Z * Z))
}.

(** The loop over the queues. *)
Fixpoint queue_octets (l : list (Z * Z)) (seen : list Z) : result (list Z) :=
  match l with
  | [] => Ok []
  | (tid, size) :: l =>
      _ ← uint tid 3 "data TID";
      _ ← uint size 8 "encoded queue size";
      _ ← raise_if (bool_decide (tid ∈ seen)) INVALID_INPUT "duplicate queue TID";
      rest ← queue_octets l (seen ++ [tid]);
      Ok (tid :: size :: rest)
  end.

(** [StationMetrics.wifi6_tlv] *)
Definition wifi6_tlv (m : StationMetrics) : result Tlv :=
  _ ← d_unicast (sta m);
  match wifi6_queues m with
  | None => unavailable "requested Wi-Fi 6 status is unavailable"
  | Some queues =>
      _ ← raise_if (bool_decide (8 < length queues)%nat) INVALID_INPUT "bounded data-TID queue inventory required";
      encoded ← queue_octets queues [];
      Ok (mkTlv 0xB0 (sta m ++ octets [len queues] ++ octets encoded))
  end.

Record APMetricBundle := mkAPMetricBundle {
  b_ap : APMetrics; b_extended : APExtendedMetrics; b_radio : RadioMetrics; b_stations : list StationMetrics }.
#[export] Instance APMetrics_eq_dec : EqDecision APMetrics.
Proof. solve_decision. Defined.
#[export] Instance APExtendedMetrics_eq_dec : EqDecision APExtendedMetrics.
Proof. solve_decision. Defined.
#[export] Instance RadioMetrics_eq_dec : EqDecision RadioMetrics.
Proof. solve_decision. Defined.
#[export] Instance StationLinkMetrics_eq_dec : EqDecision StationLinkMetrics.
Proof. solve_decision. Defined.
#[export] Instance StationMetrics_eq_dec : EqDecision StationMetrics.
Proof. solve_decision. Defined.
#[export] Instance APMetricBundle_eq_dec : EqDecision APMetricBundle.
Proof. solve_decision. Defined.

Record APMetricSample := mkAPMetricSample {
  ms_context : string; control_token : string; ms_epoch : string; ms_stamp : ReportStamp; bundle : APMetricBundle }.

(** ** The source and the coordinator on it *)

(** [watermark]: (observed_at, context, counter_epoch, token, bundle) *)
Record ApState := mkApState {
  ap_io : Io;
  ap_sample : option APMetricSample;
  ap_watermark : option (Z * string * string * string * APMetricBundle);
  ap_counts : gmap string Z;
  ap_closed : bool;
  ap_mids : Z
}.
#[export] Instance eta_ApState : Eta ApState := λ s,
  mkApState (ap_io s) (ap_sample s) (ap_watermark s) (ap_counts s) (ap_closed s) (ap_mids s).
#[export] Instance ApState_io : HasIo ApState := {| io_of := ap_io; with_io i s := s <| ap_io := i |> |}.
#[export] Instance ApState_io_laws : HasIoLaws ApState.
Proof. by split. Qed.

(** The arguments of [publish]. *)
Record Observed := mkObserved {
  ob_context : string; ob_epoch : string; ob_at : Z; ob_bundle : APMetricBundle; ob_complete : bool; ob_lifetime : Z }.

(** The (BSSID, station) pairs of a snapshot. *)
Definition expected_members (a : ReportSnapshot) : gset (bytes * bytes) :=
  list_to_set (tf_clients (topology a) ≫= λ b, (λ c, (bc_bssid b, c_mac c)) <$> clients b).

(** One station of the loop of [publish]; [actual] are those accepted so far. *)
Definition publish_station (o : Observed) (bssid : bytes) (units now : Z) (actual : gset (bytes * bytes)) (m : StationMetrics) :
    result (gset (bytes * bytes)) :=
  _ ← d_unicast (sta m);
  _ ← raise_if (bool_decide ((bssid, sta m) ∈ actual) || negb (bool_decide (1 ≤ String.length (association_id m) ≤ 128)%nat))
        INVALID_INPUT "unique station and bounded association identity required";
  _ ← match traffic m with Some t => _ ← counters_tlv t (sta m) 1 units; Ok tt | None => Ok tt end;
  _ ← match sta_link m with
      | Some l =>
          _ ← raise_if (negb (bool_decide (ob_at o - seconds 10 ≤ earliest_measurement l ≤ ob_at o))) INVALID_INPUT
                "qualified STA link measurement interval required";
          _ ← station_link_tlvs l (sta m) bssid now; Ok tt
      | None => Ok tt
      end;
  _ ← match wifi6_queues m with Some _ => _ ← wifi6_tlv m; Ok tt | None => Ok tt end;
  Ok ({[(bssid, sta m)]} ∪ actual).

(** The checks of [publish], in their order; [now] is its clock reading. *)
Definition publish_checks (o : Observed) (current : option ReportSnapshot) (now : Z) : result ReportSnapshot :=
  match current with
  | None => unavailable "AP measurements lack current control authority"
  | Some a =>
      let bundle := ob_bundle o in
      _ ← raise_if (negb (bool_decide (ob_context o = context_token a))) NOT_READY "AP measurements lack current control authority";
      _ ← raise_if (negb (ob_complete o) || negb (inventory_complete (topology a))) NOT_READY
            "complete current AP/STA membership required";
      _ ← raise_if (negb (bool_decide (0 ≤ ob_at o ≤ now ∧ now < ob_at o + ob_lifetime o))
                    || negb (bool_decide (0 < ob_lifetime o ≤ seconds 2))) NOT_READY "AP measurement lease expired or invalid";
      _ ← raise_if (negb (bool_decide (1 ≤ String.length (ob_epoch o) ≤ 128)%nat)) INVALID_INPUT
            "explicit AP counter epoch required";
      _ ← ap_tlv (b_ap bundle);
      _ ← extended_tlv (b_extended bundle);
      _ ← radio_tlv (b_radio bundle);
      match operational (topology a) with
      | [mkOperationalRadio ruid [mkOperationalBss bssid _]] =>
          _ ← raise_if (negb (bool_decide ((rm_ruid (b_radio bundle), ap_bssid (b_ap bundle), ext_bssid (b_extended bundle)) = (ruid, bssid, bssid))))
                NOT_READY "measurement identity differs from observed radio/BSS";
          let units := units_of a in
          _ ← raise_if (negb (bool_decide (units = 0)) || negb (bool_decide (byte_units (b_extended bundle) = units))) NOT_READY
                "selected Profile-1 source requires consistent byte units";
          _ ← raise_if (bool_decide (AP_MAX_STATIONS < length (b_stations bundle))%nat) INVALID_INPUT
                "STA measurement inventory exceeds local budget";
          actual ← fold_result (publish_station o bssid units now) ∅ (b_stations bundle);
          _ ← raise_if (negb (bool_decide (actual = expected_members a))
                        || negb (bool_decide (station_count (b_ap bundle) = Z.of_nat (size actual)))) NOT_READY
                "metric inventory/count differs from current complete membership";
          Ok a
      | _ => unavailable "selected non-MLD sole-radio/BSS measurement scope required"
      end
  end.

Section Coordinator.
(** [admitted] is what [self.admitted()] answers to the [n]th thing asked. *)
Context `{World} (binding : PeerBinding) (admitted : nat → bool).

(** [APMetricSource.invalidate] *)
Definition withdraw (s : ApState) : ApState := s <| ap_sample := None |>.

(** [APMetricSource.current] *)
Definition ap_current : M ApState (option APMetricSample) :=
  a ← on_io poll;
  s ← get;
  match ap_sample s with
  | None => mret None
  | Some sm =>
      expired ← match a with
                | None => mret true
                | Some a =>
                    if negb (inventory_complete (topology a)) || negb (bool_decide (context_token a = ms_context sm))
                       || negb (bool_decide (token (s_stamp a) = control_token sm))
                    then mret true
                    else now ← on_io clock; mret (bool_decide (valid_until (ms_stamp sm) ≤ now))
                end;
      if expired : bool then _ ← modify withdraw; mret None else mret (Some sm)
  end.

(** The [try] of [publish]; [tok] is the new token. *)
Definition publish_observed (o : Observed) (tok : string) : M ApState (option APMetricSample) :=
  current ← on_io poll;
  now ← on_io clock;
  a ← lift (publish_checks o current now);
  let mark := (ob_at o, ob_context o, ob_epoch o, token (s_stamp a), ob_bundle o) in
  s ← get;
  if match ap_watermark s with Some w => bool_decide (ob_at o ≤ w.1.1.1.1) | None => false end then
    if bool_decide (ap_watermark s = Some mark) && bool_decide (is_Some (ap_sample s)) then ap_current
    else lift (unavailable "replayed or conflicting AP observation")
  else
    _ ← modify (λ s, s <| ap_watermark := Some mark |>);
    st ← lift (stamp_init tok (ob_at o) (ob_at o + ob_lifetime o));
    let sm := mkAPMetricSample (ob_context o) (token (s_stamp a)) (ob_epoch o) st (ob_bundle o) in
    _ ← modify (λ s, s <| ap_sample := Some sm |>);
    mret (Some sm).

(** [APMetricSource.publish] *)
Definition ap_publish (o : Observed) (tok : string) : M ApState (option APMetricSample) :=
  try_else (publish_observed o tok) mret (λ e, _ ← modify withdraw; lift (Raise e)).

(** [record(event)] *)
Definition ap_record (event : string) : M ApState string :=
  _ ← modify (λ s, s <| ap_counts := count event (ap_counts s) |>); mret event.

(** [self.admitted()] *)
Definition is_admitted : M ApState bool := λ s,
  (Ok (admitted (asked (ap_io s))), s <| ap_io := ap_io s <| asked := S (asked (ap_io s)) |> |>).

(** [APMetricCoordinator.stamp] *)
Definition ap_stamp : M ApState (option ReportStamp) :=
  s ← get;
  if ap_closed s then mret None
  else
    ok ← is_admitted;
    if ok : bool then sm ← ap_current; mret (ms_stamp <$> sm) else mret None.

(** [next((r for r in radios if r["ruid"] == ruid), {})] *)
Definition selected_radio (policy : ReceivedPolicy) (ruid : bytes) : option MetricRadio :=
  snd <$> list_find (λ r, mr_ruid r = ruid) (from_option mp_radios [] (p_metrics policy)).
Definition flag_of (f : MetricRadio → bool) (r : option MetricRadio) : bool := from_option f false r.

(** The TLVs of one station that the policy asks for. *)
Definition station_tlvs (selected : option MetricRadio) (bssid : bytes) (m : StationMetrics) : M ApState (list Tlv) :=
  t ← (if flag_of include_traffic selected then
         lift (match traffic m with
               | None => unavailable "requested STA traffic counters are unavailable"
               | Some c => t ← counters_tlv c (sta m) 1 0; Ok [t]
               end)
       else mret []);
  l ← (if flag_of include_link selected then
         match sta_link m with
         | None => lift (unavailable "requested STA link/extended observations are unavailable")
         | Some l => now ← on_io clock; lift (station_link_tlvs l (sta m) bssid now)
         end
       else mret []);
  w ← (if flag_of include_wifi6_status selected then lift (t ← wifi6_tlv m; Ok [t]) else mret []);
  mret (t ++ l ++ w).

Fixpoint all_stations (selected : option MetricRadio) (bssid : bytes) (l : list StationMetrics) : M ApState (list Tlv) :=
  match l with
  | [] => mret []
  | m :: l => ts ← station_tlvs selected bssid m; rest ← all_stations selected bssid l; mret (ts ++ rest)
  end.

(** The TLVs of the report. *)
Definition report_tlvs (b : APMetricBundle) (include_radio : bool) (policy : ReceivedPolicy) : M ApState (list Tlv) :=
  let selected := selected_radio policy (rm_ruid (b_radio b)) in
  t1 ← lift (ap_tlv (b_ap b));
  t2 ← lift (extended_tlv (b_extended b));
  t3 ← (if include_radio then lift (t ← radio_tlv (b_radio b); Ok [t]) else mret []);
  ts ← all_stations selected (ap_bssid (b_ap b)) (b_stations b);
  mret (t1 :: t2 :: t3 ++ ts).

(** [send(mid, deadline, include_radio, policy)] *)
Definition ap_send (mid deadline : Z) (include_radio : bool) (policy : ReceivedPolicy) : M ApState unit :=
  sm ← ap_current;
  st ← ap_stamp;
  match st, sm with
  | Some _, Some sm =>
      tlvs ← report_tlvs (bundle sm) include_radio policy;
      fs ← lift (fragment_message (controller_al binding) (local_al binding) 0x800C mid tlvs false MAX_CMDU);
      _ ← send (λ f, on_io (send_frame f)) ap_stamp (on_io clock)
            (mkPreparedReport 0x800C mid (ms_stamp sm) (Z.min deadline (valid_until (ms_stamp sm))) fs);
      _ ← ap_record "ap_metric_report_transmitted";
      mret tt
  | _, _ => lift (unavailable "complete admitted AP measurement source unavailable")
  end.

(** The query of a message: the BSSID asked for, and the radio. *)
Definition ap_query (message : Message) : result (bytes * option bytes) :=
  let query := tlv_value <$> filter (λ t, Cmdu.kind t = 0x93) (m_tlvs message) in
  let radios := tlv_value <$> filter (λ t, Cmdu.kind t = 0x82) (m_tlvs message) in
  match query with
  | [q] =>
      _ ← raise_if (bool_decide (1 < length radios)%nat
                    || existsb (λ t, negb (bool_decide (Cmdu.kind t ∈ [0x93; 0x82]))) (m_tlvs message))
            INVALID_INPUT "one AP query and at most one selected radio required";
      _ ← raise_if (negb (bool_decide (length q = 7%nat)) || negb (bool_decide (octet_at 0 q = 1))) UNSUPPORTED_OPERATION
            "selected query requires one BSSID";
      _ ← d_unicast (drop 1 q);
      _ ← check_each d_unicast radios;
      Ok (drop 1 q, head radios)
  | _ => invalid "one AP query and at most one selected radio required"
  end.

(** [handle(message, received_at, ingress=ingress, generation=generation)]; [policy] is [self.policy()] *)
Definition ap_handle (policy : ReceivedPolicy) (message : Message) (received_at : Z) (ing : string) (gen : Z) : M ApState (option string) :=
  if negb (bool_decide (m_message_type message = 0x800B)) then mret None
  else
    _ ← lift (binding_check binding (m_destination message) (m_source message) ing gen);
    _ ← lift (raise_if (m_relay message || existsb (λ t, bool_decide (Cmdu.kind t ∈ SECURITY_ENVELOPES)) (m_tlvs message))
                INVALID_INPUT "invalid AP metric query envelope");
    now ← on_io clock;
    _ ← lift (raise_if (negb (bool_decide (received_at ≤ now < received_at + seconds 1))) NOT_READY
                "AP metric response deadline expired");
    '(bssid, radio) ← lift (ap_query message);
    sm ← ap_current;
    match sm with
    | None => Some <$> ap_record "ap_measurements_unavailable"
    | Some sm =>
        _ ← lift (raise_if (negb (bool_decide (bssid = ap_bssid (b_ap (bundle sm))))
                            || match radio with Some r => negb (bool_decide (r = rm_ruid (b_radio (bundle sm)))) | None => false end)
                    NOT_READY "query outside represented AP/radio");
        try_else (ap_send (m_mid message) (received_at + seconds 1) (bool_decide (is_Some radio)) policy)
          (λ _, Some <$> ap_record "ap_metric_query_answered")
          (λ e, if bool_decide (code e = NOT_READY) then Some <$> ap_record "ap_measurements_unavailable" else lift (Raise e))
    end.

(** [periodic(policy, due)] *)
Definition ap_periodic (policy : ReceivedPolicy) (due : Z) : M ApState unit :=
  s ← get;
  let mid := next_mid (ap_mids s) in
  _ ← put (s <| ap_mids := mid |>);
  _ ← ap_send mid (due + seconds 1) true policy;
  _ ← ap_record "periodic_ap_metric_report_transmitted";
  mret tt.

(** [close()] *)
Definition ap_close (s : ApState) : ApState := s <| ap_closed := true |>.

End Coordinator.

(** * Theory *)

(** ** A bundle that shows a topology *)

(** The radio, the BSS and exactly the stations of the topology, which is complete. *)
Record represents (t : TopologyFacts) (b : APMetricBundle) : Prop := {
  re_complete : inventory_complete t = true;
  re_radio : ∃ ssid, operational t = [mkOperationalRadio (rm_ruid (b_radio b)) [mkOperationalBss (ap_bssid (b_ap b)) ssid]];
  re_extended : ext_bssid (b_extended b) = ap_bssid (b_ap b);
  re_stations : NoDup (sta <$> b_stations b);
  re_members : list_to_set ((λ m, (ap_bssid (b_ap b), sta m)) <$> b_stations b)
               =@{gset (bytes * bytes)} list_to_set (tf_clients t ≫= λ c, (λ x, (bc_bssid c, c_mac x)) <$> clients c);
  re_count : station_count (b_ap b) = len (b_stations b)
}.

Lemma publish_stations_Ok o bssid units now l : ∀ actual actual',
  fold_result (publish_station o bssid units now) actual l = Ok actual' →
  actual' = actual ∪ list_to_set ((λ m, (bssid, sta m)) <$> l)
  ∧ NoDup (sta <$> l) ∧ (∀ m, m ∈ l → (bssid, sta m) ∉ actual).
Proof.
  induction l as [|m l IH]; intros actual actual'; cbn [fold_result].
  { intros [= <-]. split; [cbn; set_solver|]. split; [constructor|]. by intros m ?%elem_of_nil. }
  intros (acc & Hm & Hl)%result_bind_Ok. unfold publish_station in Hm. inv_ok. bools.
  apply IH in Hl as (-> & Hnd & Hn). split; [cbn; set_solver|]. split.
  - cbn. constructor; [|done]. intros (m' & E & Hin)%list_elem_of_fmap. apply (Hn m' Hin). rewrite <- E. set_solver.
  - intros m' [->|Hin]%elem_of_cons; [done|]. pose proof (Hn m' Hin). set_solver.
Qed.

Lemma publish_checks_Ok o current now a :
  publish_checks o current now = Ok a →
  current = Some a ∧ ob_context o = context_token a ∧ represents (topology a) (ob_bundle o)
  ∧ 0 < ob_lifetime o ≤ seconds 2 ∧ now < ob_at o + ob_lifetime o.
Proof.
  unfold publish_checks. destruct current as [a'|]; [|done]. intros Hp.
  do 4 (apply raise_if_bind_Ok in Hp as [? Hp]). do 3 (apply result_bind_Ok in Hp as (? & _ & Hp)). cbv zeta in *.
  destruct (operational (topology a')) as [|[ruid [|[bssid ssid] [|]]] [|]] eqn:Hop; try done.
  do 3 (apply raise_if_bind_Ok in Hp as [? Hp]). apply result_bind_Ok in Hp as (actual & Hst & Hp).
  apply raise_if_bind_Ok in Hp as [Hm [= <-]]. apply publish_stations_Ok in Hst as (-> & Hnd & _).
  rewrite (left_id_L ∅ (∪)) in Hm. bools. match goal with E : (_, _, _) = _ |- _ => injection E as <- <- Hext end.
  split; [done|]. split; [done|]. split; [|lia]. split; [done|by exists ssid|done|done|done|].
  match goal with E : station_count _ = _ |- _ => rewrite E end. unfold len. f_equal.
  rewrite size_list_to_set; [by rewrite length_fmap|]. rewrite (list_fmap_compose sta (pair (ap_bssid (b_ap (ob_bundle o))))).
  apply NoDup_fmap; [|done]. by intros ? ? [= ->].
Qed.

(** ** The sample kept *)

Section Sample.
Context `{World} (binding : PeerBinding) (admitted : nat → bool).

(** A sample was published under a snapshot the source showed, and shows its topology. *)
Definition sample_true (sm : APMetricSample) : Prop :=
  ∃ n a, world_source n = Some a ∧ token (s_stamp a) = control_token sm ∧ represents (topology a) (bundle sm)
    ∧ valid_until (ms_stamp sm) ≤ observed_at (ms_stamp sm) + seconds 2.
Definition kept_true (s : ApState) : Prop := ∀ sm, ap_sample s = Some sm → sample_true sm.

Lemma kept_stable : stable kept_true.
Proof. by intros s i Hs _. Qed.

Lemma keeps_kept f : (∀ s, ap_sample (f s) = ap_sample s ∨ ap_sample (f s) = None) → keeps kept_true (modify f).
Proof. intros Hf. apply keeps_modify. intros s Hs sm. destruct (Hf s) as [-> | ->]; [apply Hs|done]. Qed.

(** What [current] returns at the [n]th asking is the sample kept, of the source's present token, and its
    lease runs. *)
Definition shown_at (n : nat) (sm : APMetricSample) : Prop :=
  sample_true sm ∧ (∃ a, world_source n = Some a ∧ token (s_stamp a) = control_token sm)
  ∧ world_clock (S n) < valid_until (ms_stamp sm).

(** The state of [s'] is [s] with the sample or without, later. *)
Definition reads (s s' : ApState) : Prop :=
  (kept_true s → kept_true s') ∧ (asked (ap_io s) ≤ asked (ap_io s'))%nat ∧ sent (ap_io s') = sent (ap_io s).
#[local] Instance reads_preorder : PreOrder reads.
Proof. split; [done|]. intros s1 s2 s3 (?&?&?) (?&?&?). split; [auto|]. split; [lia|congruence]. Qed.

Lemma ap_current_run s :
  ∃ r s', ap_current s = (Ok r, s') ∧ reads s s' ∧ (kept_true s → ∀ sm, r = Some sm → shown_at (asked (ap_io s)) sm).
Proof.
  unfold ap_current, mbind, M_mbind, on_io, poll, get, clock. cbn.
  destruct (ap_sample s) as [sm|] eqn:Esm; [|eexists _, _; split; [done|]; split; [|done]; split; [done|]; split; [cbn; lia|done]].
  assert (Hk : ∀ i, kept_true s → kept_true (mkApState i (Some sm) (ap_watermark s) (ap_counts s) (ap_closed s) (ap_mids s))).
  { intros i Hs sm0 [= <-]. by apply Hs. }
  destruct (world_source (asked (ap_io s))) as [a|] eqn:Ea;
    [|eexists _, _; split; [done|]; split; [|done]; split; [by intros _|]; split; [cbn; lia|done]].
  destruct (_ || _) eqn:Eo; cbn; [eexists _, _; split; [done|]; split; [|done]; split; [by intros _|]; split; [cbn; lia|done]|].
  destruct (bool_decide (_ ≤ _)) eqn:Et; cbn; eexists _, _; (split; [done|]); (split; [split; [|split; [cbn; lia|done]]|]).
  - by intros _.
  - done.
  - apply Hk.
  - bools. intros Hs sm' [= <-]. split; [by apply Hs|]. split; [by exists a|]. lia.
Qed.

Lemma keeps_current : keeps kept_true ap_current.
Proof. intros s Hs. destruct (ap_current_run s) as (r & s' & -> & (Hk & _) & _). by apply Hk. Qed.

Lemma keeps_publish o tok : keeps kept_true (ap_publish o tok).
Proof.
  apply keeps_try; [|intros; apply keeps_mret|intros e; apply keeps_bind; [apply keeps_kept; by right|intros; apply keeps_lift]].
  apply (hoare_bind _ _ _ (λ c s, kept_true s ∧ ∃ n, c = world_source n)); [intros s Hs; by split; [|eexists]|].
  intros current. apply (hoare_bind _ _ _ (λ _ s, kept_true s ∧ ∃ n, current = world_source n)); [by intros s Hs|intros now].
  apply (hoare_bind _ _ _ (λ a s, kept_true s ∧ publish_checks o current now = Ok a ∧ ∃ n, current = world_source n)).
  { apply hoare_lift; [by intros a s E [? ?]|by intros e s _ []]. }
  intros a. apply hoare_get_bind. intros s (Hs & Hp & n & Hn).
  apply (hoare_weaken kept_true _ _ (λ _, kept_true) _ (λ _, kept_true)); [|by intros ? ->|done|done].
  apply publish_checks_Ok in Hp as (Ha & _ & Hre & Hl & _).
  destruct (match ap_watermark s with Some _ => _ | None => _ end).
  { destruct (_ && _); [apply keeps_current|apply keeps_lift]. }
  apply keeps_bind; [apply keeps_kept; by left|intros _].
  apply (hoare_bind _ _ _ (λ st s, kept_true s ∧ stamp_init tok (ob_at o) (ob_at o + ob_lifetime o) = Ok st)); [by apply hoare_lift|].
  intros st. apply (hoare_bind _ _ _ (λ _, kept_true)); [|intros _; apply keeps_mret].
  apply hoare_modify. intros s1 [_ Hst]. cbn. intros sm [= <-]. exists n, a. split; [congruence|]. split; [done|]. split; [done|].
  unfold stamp_init in Hst. inv_ok. cbn. lia.
Qed.

Lemma keeps_ap_record ev : keeps kept_true (ap_record ev).
Proof. apply keeps_bind; [apply keeps_kept; by left|intros; apply keeps_mret]. Qed.

Lemma ap_stamp_run s : ∃ r s', ap_stamp admitted s = (Ok r, s') ∧ reads s s'.
Proof.
  unfold ap_stamp, mbind, M_mbind, get, is_admitted. destruct (ap_closed s); [by eexists _, _|].
  set (s1 := s <| ap_io := _ |>). assert (Hr : reads s s1) by (split; [done|]; split; [cbn; lia|done]).
  destruct (admitted _); [|by eexists _, _]. destruct (ap_current_run s1) as (r & s2 & -> & H2 & _).
  eexists _, s2. split; [done|]. by etrans.
Qed.

Lemma reads_io {A} (m : M Io A) s : silent m → forward m → reads s (on_io m s).2.
Proof.
  intros Hs Hf. specialize (Hs (ap_io s)). destruct (Hf (ap_io s)) as [Ha _]. unfold on_io. cbn. destruct (m (ap_io s)) as [r i].
  by split.
Qed.

(** ** The TLVs of a report *)

(** What the policy asks of a station is among the TLVs. *)
Definition station_reported (selected : option MetricRadio) (bssid : bytes) (tlvs : list Tlv) (m : StationMetrics) : Prop :=
  (flag_of include_traffic selected = true → ∃ c t, traffic m = Some c ∧ counters_tlv c (sta m) 1 0 = Ok t ∧ t ∈ tlvs)
  ∧ (flag_of include_link selected = true → ∃ l now ts, sta_link m = Some l ∧ station_link_tlvs l (sta m) bssid now = Ok ts ∧ ts ⊆ tlvs)
  ∧ (flag_of include_wifi6_status selected = true → ∃ t, wifi6_tlv m = Ok t ∧ t ∈ tlvs).

Record complete_report (b : APMetricBundle) (include_radio : bool) (policy : ReceivedPolicy) (tlvs : list Tlv) : Prop := {
  cr_ap : ∃ t, ap_tlv (b_ap b) = Ok t ∧ t ∈ tlvs;
  cr_extended : ∃ t, extended_tlv (b_extended b) = Ok t ∧ t ∈ tlvs;
  cr_radio : include_radio = true → ∃ t, radio_tlv (b_radio b) = Ok t ∧ t ∈ tlvs;
  cr_stations m : m ∈ b_stations b →
    station_reported (selected_radio policy (rm_ruid (b_radio b))) (ap_bssid (b_ap b)) tlvs m
}.

Lemma station_reported_mono sel bssid ts ts' m : ts ⊆ ts' → station_reported sel bssid ts m → station_reported sel bssid ts' m.
Proof.
  intros Hsub (H1 & H2 & H3). split; [|split].
  - intros E. destruct (H1 E) as (c & t & ? & ? & ?). exists c, t. auto.
  - intros E. destruct (H2 E) as (l & now & l' & ? & ? & ?). exists l, now, l'. split; [done|]. split; [done|]. by etrans.
  - intros E. destruct (H3 E) as (t & ? & ?). exists t. auto.
Qed.

Lemma station_tlvs_run sel bssid m s :
  ∃ r s', station_tlvs sel bssid m s = (r, s') ∧ reads s s' ∧ ∀ ts, r = Ok ts → station_reported sel bssid ts m.
Proof.
  unfold station_tlvs. set (t1 := if flag_of include_traffic sel then _ else _). 
  assert (H1 : ∃ r, t1 s = (r, s) ∧ ∀ ts, r = Ok ts → flag_of include_traffic sel = true →
    ∃ c t, traffic m = Some c ∧ counters_tlv c (sta m) 1 0 = Ok t ∧ ts = [t]).
  { unfold t1. destruct (flag_of include_traffic sel); [|by eexists]. eexists. split; [reflexivity|]. intros ts Hts _.
    destruct (traffic m) as [c|]; [|done]. apply result_bind_Ok in Hts as (t & Ht & [= <-]). by exists c, t. }
  destruct H1 as (r1 & E1 & H1). unfold mbind at 1, M_mbind at 1. rewrite E1. destruct r1 as [ts1|]; [|by eexists _, _].
  set (t2 := if flag_of include_link sel then _ else _).
  assert (H2 : ∃ r s', t2 s = (r, s') ∧ reads s s' ∧ ∀ ts, r = Ok ts → flag_of include_link sel = true →
    ∃ l now, sta_link m = Some l ∧ station_link_tlvs l (sta m) bssid now = Ok ts).
  { unfold t2. destruct (flag_of include_link sel); [|by eexists _, _]. destruct (sta_link m) as [l|]; [|by eexists _, _].
    eexists _, _. split; [reflexivity|]. split; [split; [done|]; split; [cbn; lia|done]|]. intros ts Hts _. by eexists l, _. }
  destruct H2 as (r2 & s2 & E2 & Hr2 & H2). unfold mbind at 1, M_mbind at 1. rewrite E2. destruct r2 as [ts2|]; [|by eexists _, _].
  set (t3 := if flag_of include_wifi6_status sel then _ else _).
  assert (H3 : ∃ r, t3 s2 = (r, s2) ∧ ∀ ts, r = Ok ts → flag_of include_wifi6_status sel = true → ∃ t, wifi6_tlv m = Ok t ∧ ts = [t]).
  { unfold t3. destruct (flag_of include_wifi6_status sel); [|by eexists]. eexists. split; [reflexivity|]. intros ts Hts _.
    apply result_bind_Ok in Hts as (t & Ht & [= <-]). by exists t. }
  destruct H3 as (r3 & E3 & H3). unfold mbind at 1, M_mbind at 1. rewrite E3. destruct r3 as [ts3|]; [|by eexists _, _].
  eexists _, _. split; [reflexivity|]. split; [done|]. intros ts [= <-]. split; [|split].
  - intros E. destruct (H1 ts1 eq_refl E) as (c & t & ? & ? & ->). exists c, t. split; [done|]. split; [done|]. by left.
  - intros E. destruct (H2 ts2 eq_refl E) as (l & now & ? & ?). exists l, now, ts2. split; [done|]. split; [done|]. set_solver.
  - intros E. destruct (H3 ts3 eq_refl E) as (t & ? & ->). exists t. split; [done|]. set_solver.
Qed.

Lemma all_stations_run sel bssid l : ∀ s,
  ∃ r s', all_stations sel bssid l s = (r, s') ∧ reads s s' ∧
    ∀ ts, r = Ok ts → ∀ m, m ∈ l → station_reported sel bssid ts m.
Proof.
  induction l as [|m l IH]; intros s; cbn [all_stations].
  { eexists _, _. split; [reflexivity|]. split; [done|]. by intros ts _ m ?%elem_of_nil. }
  destruct (station_tlvs_run sel bssid m s) as (r1 & s1 & E1 & Hr1 & H1). unfold mbind at 1, M_mbind at 1. rewrite E1.
  destruct r1 as [ts1|]; [|by eexists _, _]. destruct (IH s1) as (r2 & s2 & E2 & Hr2 & H2). unfold mbind at 1, M_mbind at 1. rewrite E2.
  destruct r2 as [ts2|]; [|eexists _, _; split; [reflexivity|]; split; [by etrans|done]].
  eexists _, _. split; [reflexivity|]. split; [by etrans|]. intros ts [= <-] m' [->|Hin]%elem_of_cons.
  - eapply station_reported_mono; [|by apply H1]. set_solver.
  - eapply station_reported_mono; [|by apply (H2 ts2)]. set_solver.
Qed.
Lemma report_tlvs_run b radio policy s :
  ∃ r s', report_tlvs b radio policy s = (r, s') ∧ reads s s' ∧ ∀ ts, r = Ok ts → complete_report b radio policy ts.
Proof.
  unfold report_tlvs. unfold mbind at 1, M_mbind at 1, lift at 1. destruct (ap_tlv (b_ap b)) as [t1|] eqn:E1; [|by eexists _, _].
  unfold mbind at 1, M_mbind at 1, lift at 1. destruct (extended_tlv (b_extended b)) as [t2|] eqn:E2; [|by eexists _, _].
  set (m3 := if radio then _ else _).
  assert (H3 : ∃ r, m3 s = (r, s) ∧ ∀ ts, r = Ok ts → radio = true → ∃ t, radio_tlv (b_radio b) = Ok t ∧ ts = [t]).
  { unfold m3. destruct radio; [|by eexists]. eexists. split; [reflexivity|]. intros ts Hts _.
    apply result_bind_Ok in Hts as (t & Ht & [= <-]). by exists t. }
  destruct H3 as (r3 & E3 & H3). unfold mbind at 1, M_mbind at 1. rewrite E3. destruct r3 as [t3|]; [|by eexists _, _].
  destruct (all_stations_run (selected_radio policy (rm_ruid (b_radio b))) (ap_bssid (b_ap b)) (b_stations b) s) as (r4 & s4 & E4 & Hr4 & H4).
  unfold mbind at 1, M_mbind at 1. rewrite E4. destruct r4 as [ts4|]; [|by eexists _, _].
  eexists _, _. split; [reflexivity|]. split; [done|]. intros ts [= <-]. split.
  - exists t1. split; [done|]. by left.
  - exists t2. split; [done|]. by right; left.
  - intros E. destruct (H3 t3 eq_refl E) as (t & ? & ->). exists t. split; [done|]. by right; right; left.
  - intros m Hm. eapply station_reported_mono; [|by apply (H4 ts4)]. set_solver.
Qed.

(** ** Transmission *)

Definition ap_out (s : ApState) : list bytes := (sent (ap_io s)).*2.

(** The frames of a complete report of a sample shown at an asking from [n0] on. *)
Definition report_frames (n0 : nat) (mid : Z) (radio : bool) (policy : ReceivedPolicy) (fs : list bytes) : Prop :=
  ∃ n sm tlvs, (n0 ≤ n)%nat ∧ shown_at n sm ∧ complete_report (bundle sm) radio policy tlvs
    ∧ fragment_message (controller_al binding) (local_al binding) 0x800C mid tlvs false MAX_CMDU = Ok fs.

(** What a call put on the link: nothing, or frames of such a report, all of them when [whole]. *)
Definition transmits (n0 : nat) (mid : Z) (radio : bool) (policy : ReceivedPolicy) (whole : bool) (s s' : ApState) : Prop :=
  (kept_true s → kept_true s') ∧ (asked (ap_io s) ≤ asked (ap_io s'))%nat
  ∧ ∃ new, ap_out s' = ap_out s ++ new
    ∧ (kept_true s → (whole = false ∧ new = [])
       ∨ ∃ fs, report_frames n0 mid radio policy fs ∧ new `prefix_of` fs ∧ (whole = true → new = fs)).

Lemma reads_transmits n0 mid radio policy s s' : reads s s' → transmits n0 mid radio policy false s s'.
Proof.
  intros (Hk & Ha & Hs). split; [done|]. split; [done|]. exists []. unfold ap_out. rewrite Hs, app_nil_r. split; [done|]. by left.
Qed.

Lemma transmits_after n0 mid radio policy w s s1 s2 :
  reads s s1 → transmits n0 mid radio policy w s1 s2 → transmits n0 mid radio policy w s s2.
Proof.
  intros (Hk & Ha & Hs) (Hk2 & Ha2 & new & Ho & Hn). split; [auto|]. split; [lia|]. exists new. unfold ap_out in *. rewrite Ho, Hs. auto.
Qed.
Lemma transmits_before n0 mid radio policy w s s1 s2 :
  transmits n0 mid radio policy w s s1 → reads s1 s2 → transmits n0 mid radio policy w s s2.
Proof.
  intros (Hk & Ha & new & Ho & Hn) (Hk2 & Ha2 & Hs). split; [auto|]. split; [lia|]. exists new. unfold ap_out in *. rewrite Hs. auto.
Qed.

(** The guarded transmission reads between the frames. *)
Lemma send_transmits report s :
  let '(r, s') := send (λ f, on_io (send_frame f)) (ap_stamp admitted) (on_io clock) report s in
  (kept_true s → kept_true s') ∧ (asked (ap_io s) ≤ asked (ap_io s'))%nat
  ∧ ∃ new, ap_out s' = ap_out s ++ new ∧ new `prefix_of` frames report ∧ (is_ok r = true → new = frames report).
Proof.
  set (J := λ s', (kept_true s → kept_true s') ∧ (asked (ap_io s) ≤ asked (ap_io s'))%nat).
  assert (HJ : keeps J (send (λ f, on_io (send_frame f)) (ap_stamp admitted) (on_io clock) report)).
  { apply keeps_send.
    - intros f s1 [H1 H2]. unfold on_io, send_frame. cbn. destruct (world_link _); (split; [done|cbn; lia]).
    - intros s1 [H1 H2]. destruct (ap_stamp_run s1) as (r & s2 & -> & H3 & H4 & _). split; [auto|lia].
    - intros s1 [H1 H2]. split; [done|cbn; lia]. }
  specialize (HJ s (conj (λ x, x) (Nat.le_refl _))).
  destruct (send_out ap_out (λ f, on_io (send_frame f)) (ap_stamp admitted) (on_io clock)) with (self := report) (s := s) as (new & Hn & Hp & Hk).
  - intros f s1. unfold ap_out, on_io, send_frame. cbn. by rewrite fmap_app.
  - intros s1. destruct (ap_stamp_run s1) as (r & s2 & -> & _ & _ & Hs). unfold ap_out. cbn. by rewrite Hs.
  - done.
  - destruct (send _ _ _ _ s) as [[k|e] s']; destruct HJ as [H1 H2]; (split; [done|]); (split; [done|]); exists new; cbn in Hn, Hk.
    + split; [done|]. split; [done|]. intros _. by apply (Hk k).
    + split; [done|]. split; [done|]. done.
Qed.

Lemma ap_send_run mid deadline radio policy s :
  let '(r, s') := ap_send binding admitted mid deadline radio policy s in
  transmits (asked (ap_io s)) mid radio policy (is_ok r) s s'.
Proof.
  unfold ap_send. destruct (ap_current_run s) as (c & s1 & E1 & R1 & H1). unfold mbind at 1, M_mbind at 1. rewrite E1.
  destruct (ap_stamp_run s1) as (st & s2 & E2 & R2). unfold mbind at 1, M_mbind at 1. rewrite E2.
  assert (R12 : reads s s2) by (by etrans).
  destruct st as [st|]; [|by apply reads_transmits]. destruct c as [sm|]; [|by apply reads_transmits].
  destruct (report_tlvs_run (bundle sm) radio policy s2) as (rt & s3 & E3 & R3 & H3). unfold mbind at 1, M_mbind at 1. rewrite E3.
  assert (R13 : reads s s3) by (by etrans). destruct rt as [tlvs|]; [|by apply reads_transmits].
  unfold mbind at 1, M_mbind at 1, lift. destruct (fragment_message _ _ _ _ _ _ _) as [fs|] eqn:Ef; [|by apply reads_transmits].
  unfold mbind at 1, M_mbind at 1. set (report := mkPreparedReport _ _ _ _ fs). pose proof (send_transmits report s3) as Hs.
  assert (Hf : kept_true s → report_frames (asked (ap_io s)) mid radio policy fs).
  { intros Hk. exists (asked (ap_io s)), sm, tlvs. split; [done|]. split; [by apply H1|]. split; [by apply H3|done]. }
  destruct R13 as (K3 & A3 & S3). destruct (send _ _ _ report s3) as [[k|e] s4]; destruct Hs as (Hk & Ha & new & Ho & Hp & Hw).
  - cbn. split; [intros Hs; by apply Hk, K3|]. split; [cbn; lia|]. exists new. split; [unfold ap_out in *; cbn; by rewrite Ho, S3|].
    intros Hks. right. exists fs. split; [by apply Hf|]. split; [done|]. intros _. by apply Hw.
  - cbn. split; [auto|]. split; [lia|]. exists new. split; [unfold ap_out in *; by rewrite Ho, S3|].
    intros Hks. right. exists fs. split; [by apply Hf|]. done.
Qed.

Lemma reads_record ev s : reads s (ap_record ev s).2.
Proof. done. Qed.
Lemma transmits_from n0 n1 mid radio policy w s s' :
  (n0 ≤ n1)%nat → transmits n1 mid radio policy w s s' → transmits n0 mid radio policy w s s'.
Proof.
  intros Hn (Hk & Ha & new & Ho & Hx). split; [done|]. split; [done|]. exists new. split; [done|]. intros Hs.
  destruct (Hx Hs) as [?|(fs & (n & sm & tlvs & Hle & Hr) & Hp)]; [by left|right]. exists fs. split; [|done].
  exists n, sm, tlvs. split; [lia|done].
Qed.

Lemma ap_handle_run policy message at_ ing gen s :
  let '(r, s') := ap_handle binding admitted policy message at_ ing gen s in
  ∃ radio, transmits (asked (ap_io s)) (m_mid message) radio policy (bool_decide (r = Ok (Some "ap_metric_query_answered"))) s s'.
Proof.
  assert (Hq : ∀ s' r, reads s s' → r ≠ Ok (Some "ap_metric_query_answered") →
    ∃ radio, transmits (asked (ap_io s)) (m_mid message) radio policy (bool_decide (r = Ok (Some "ap_metric_query_answered"))) s s').
  { intros s' r Hr Hne. exists false. rewrite bool_decide_eq_false_2 by done. by apply reads_transmits. }
  unfold ap_handle. destruct (negb _); [by apply (Hq s (Ok None))|].
  unfold mbind at 1, M_mbind at 1, lift at 1. destruct (binding_check _ _ _ _ _); [|by apply Hq].
  unfold mbind at 1, M_mbind at 1, lift at 1. destruct (raise_if _ INVALID_INPUT _); [|by apply Hq].
  unfold mbind at 1, M_mbind at 1. unfold on_io at 1, clock. cbn beta iota zeta.
  set (s1 := with_io _ s). assert (R1 : reads s s1) by (split; [done|]; split; [cbn; lia|done]).
  unfold mbind at 1, M_mbind at 1, lift at 1. destruct (raise_if _ NOT_READY _); [|by apply Hq].
  unfold mbind at 1, M_mbind at 1, lift at 1. destruct (ap_query message) as [[bssid radio]|]; [|by apply Hq].
  destruct (ap_current_run s1) as (c & s2 & E2 & R2 & _). unfold mbind at 1, M_mbind at 1. rewrite E2.
  assert (R12 : reads s s2) by (by etrans). destruct c as [sm|]; [|by apply (Hq _ (Ok (Some "ap_measurements_unavailable")))].
  unfold mbind at 1, M_mbind at 1, lift at 1. destruct (raise_if _ NOT_READY _); [|by apply Hq].
  unfold try_else. pose proof (ap_send_run (m_mid message) (at_ + seconds 1) (bool_decide (is_Some radio)) policy s2) as Hs.
  assert (Hend : ∀ w s3, transmits (asked (ap_io s2)) (m_mid message) (bool_decide (is_Some radio)) policy w s2 s3 →
    ∀ s4, reads s3 s4 → transmits (asked (ap_io s)) (m_mid message) (bool_decide (is_Some radio)) policy w s s4).
  { intros w s3 H3 s4 H4. apply (transmits_from _ (asked (ap_io s2))); [apply R12|].
    eapply transmits_before; [|exact H4]. eapply transmits_after; [exact R12|exact H3]. }
  destruct (ap_send _ _ _ _ _ _ s2) as [[u|e] s3]; [|destruct (bool_decide (code e = NOT_READY))]; exists (bool_decide (is_Some radio)).
  - eapply Hend; [exact Hs|apply reads_record].
  - eapply Hend; [exact Hs|apply reads_record].
  - eapply Hend; [exact Hs|reflexivity].
Qed.

Lemma ap_periodic_run policy due s :
  let '(r, s') := ap_periodic binding admitted policy due s in
  transmits (asked (ap_io s)) (next_mid (ap_mids s)) true policy (is_ok r) s s'.
Proof.
  unfold ap_periodic. unfold mbind at 1, M_mbind at 1, get. cbv zeta. unfold mbind at 1, M_mbind at 1, put.
  set (s1 := s <| ap_mids := _ |>). unfold mbind at 1, M_mbind at 1.
  pose proof (ap_send_run (next_mid (ap_mids s)) (due + seconds 1) true policy s1) as Hs.
  assert (R1 : reads s s1) by done. destruct (ap_send _ _ _ _ _ _ s1) as [[u|e] s2].
  - eapply transmits_before; [eapply transmits_after; [exact R1|exact Hs]|apply reads_record].
  - eapply transmits_after; [exact R1|exact Hs].
Qed.

(** ** Runs *)

Inductive ap_input :=
  | APublish (o : Observed) (tok : string)
  | AInvalidate
  | AQuery (policy : ReceivedPolicy) (message : Message) (at_ : Z) (ing : string) (gen : Z)
  | APeriodic (policy : ReceivedPolicy) (due : Z)
  | AClose.

Definition ap_serve (s : ApState) (i : ap_input) : ApState :=
  match i with
  | APublish o tok => (ap_publish o tok s).2
  | AInvalidate => withdraw s
  | AQuery policy message at_ ing gen => (ap_handle binding admitted policy message at_ ing gen s).2
  | APeriodic policy due => (ap_periodic binding admitted policy due s).2
  | AClose => ap_close s
  end.

Lemma ap_serve_kept s i : kept_true s → kept_true (ap_serve s i).
Proof.
  intros Hs. destruct i; cbn.
  - by apply keeps_snd; [apply keeps_publish|].
  - done.
  - pose proof (ap_handle_run policy message at_ ing gen s) as Hh. destruct (ap_handle _ _ _ _ _ _ _ s) as [r s'].
    destruct Hh as (radio & Hk & _). by apply Hk.
  - pose proof (ap_periodic_run policy due s) as Hh. destruct (ap_periodic _ _ _ _ s) as [r s']. destruct Hh as (Hk & _). by apply Hk.
  - done.
Qed.

Lemma ap_serve_all_kept s l : kept_true s → kept_true (foldl ap_serve s l).
Proof. revert s. induction l as [|i l IH]; intros s Hs; [done|]. by apply IH, ap_serve_kept. Qed.

(** By the laws of the source, a sample shows the topology of the snapshot that shows its token. *)
Lemma shown_represents `{!SourceLaws _} n sm :
  shown_at n sm → ∃ a, world_source n = Some a ∧ represents (topology a) (bundle sm).
Proof.
  intros ((n0 & a0 & H0 & T0 & R0 & _) & (a & Ha & Ta) & _). exists a. split; [done|].
  destruct (source_tokens n0 n a0 a H0 Ha) as (_ & Et & _); [congruence|]. by rewrite <- Et.
Qed.
End Sample.

Definition ap_init (previous : Z) (io : Io) : ApState := mkApState io None None ∅ false previous.

(** * Properties *)

(** AP metrics are reported whole. Whatever was published, withdrawn and asked before, whatever the clock, the
    source, the link and the admission do: the frames a query puts on the link are, in order, those of one
    report, all of them when the query is answered; the report was complete before its first frame left, and
    of a topology the source showed during the call - its radio, its BSS and exactly its stations - with
    every station's traffic, link and Wi-Fi 6 status that the policy asks for. *)
Theorem ap_metrics_whole {W : World} {L : SourceLaws W} binding admitted previous io inputs policy message at_ ing gen r s' :
  let s := foldl (ap_serve binding admitted) (ap_init previous io) inputs in
  ap_handle binding admitted policy message at_ ing gen s = (r, s') →
  ∃ new, ap_out s' = ap_out s ++ new ∧
    ((r ≠ Ok (Some "ap_metric_query_answered") ∧ new = []) ∨
     ∃ n a b radio tlvs fs, (asked (ap_io s) ≤ n)%nat ∧ world_source n = Some a ∧ represents (topology a) b
       ∧ complete_report b radio policy tlvs
       ∧ fragment_message (controller_al binding) (local_al binding) 0x800C (m_mid message) tlvs false MAX_CMDU = Ok fs
       ∧ new `prefix_of` fs ∧ (r = Ok (Some "ap_metric_query_answered") → new = fs)).
Proof.
  intros s Hh. assert (Hs : kept_true s) by (apply ap_serve_all_kept; by intros sm).
  pose proof (ap_handle_run binding admitted policy message at_ ing gen s) as Hr. rewrite Hh in Hr.
  destruct Hr as (radio & _ & _ & new & Ho & Hx). exists new. split; [done|].
  destruct (Hx Hs) as [[Hw ->]|(fs & (n & sm & tlvs & Hn & Hsh & Hc & Hf) & Hp & Hw)]; [left; by bools|right].
  destruct (shown_represents n sm Hsh) as (a & Ha & Hre). exists n, a, (bundle sm), radio, tlvs, fs.
  split_and!; try done. intros E. apply Hw. by apply bool_decide_eq_true.
Qed.

(** A session in which a sample of one station is published and a query for it answered. *)
Definition aex_snapshot : ReportSnapshot :=
  mkReportSnapshot (mkReportStamp "i/0/1/1" 0 2000) (example_caps <| profile2 := mkProfile2 0 0 0 0 |>) example_facts "i/0/1"
    [] None None (Some 1) [].
Definition aex_world : World :=
  {| world_clock := λ _, 500; world_binding := λ _, example_binding;
     world_source := λ _, Some aex_snapshot; world_link := λ _, true |}.
Definition aex_ruid : bytes := octets [2; 0; 0; 0; 0; 1].
Definition aex_bundle : APMetricBundle :=
  mkAPMetricBundle (mkAPMetrics example_bss 40 1 [("BE", octets [1; 2; 3]); ("VO", octets [4; 5; 6])])
    (mkAPExtendedMetrics example_bss [1; 2; 3; 4; 5; 6] 0) (mkRadioMetrics aex_ruid 10 20 30 40)
    [mkStationMetrics (octets [2; 0; 0; 0; 0; 7]) "assoc-1" (Some (mkTrafficCounters 1 2 3 4 5 6 7))
       (Some (mkStationLinkMetrics 100 54 48 120 54000 48000 3 4)) None].
Definition aex_published : Observed := mkObserved "i/0/1" "boot" 400 aex_bundle true (seconds 2).
Definition aex_policy : ReceivedPolicy :=
  mkReceivedPolicy (Some (mkMetricPolicy 0 [mkMetricRadio aex_ruid 0 0 0 true true false])) None None None.
Definition aex_query : Message :=
  mkMessage (octets [2; 0; 0; 0; 0; 9]) (octets [2; 0; 0; 0; 0; 8]) 0x800B 77 false
    [mkTlv 0x93 (octets [1] ++ example_bss); mkTlv 0x82 aex_ruid] 1.

Lemma aex_world_laws : SourceLaws aex_world.
Proof.
  split.
  - intros n a [= <-]. vm_compute. repeat split; discriminate.
  - intros n m a b [= <-] [= <-] _. done.
Qed.

Lemma ap_metrics_whole_witness :
  let s := foldl (@ap_serve aex_world example_binding (λ _, true)) (ap_init 6 (mkIo 0 [])) [APublish aex_published "token"] in
  let run := @ap_handle aex_world example_binding (λ _, true) aex_policy aex_query 500 "eth0" 1 s in
  run.1 = Ok (Some "ap_metric_query_answered") ∧
  ∃ b radio tlvs, complete_report b radio aex_policy tlvs ∧
    fragment_message (controller_al example_binding) (local_al example_binding) 0x800C 77 tlvs false MAX_CMDU = Ok (ap_out run.2).
Proof.
  intros s run. assert (E : run.1 = Ok (Some "ap_metric_query_answered")) by (vm_compute; reflexivity).
  split; [exact E|].
  destruct (@ap_metrics_whole aex_world aex_world_laws example_binding (λ _, true) 6 (mkIo 0 []) [APublish aex_published "token"]
    aex_policy aex_query 500 "eth0" 1 run.1 run.2 (surjective_pairing run))
    as (new & Ho & [[Hn _]|(n & a & b & radio & tlvs & fs & _ & _ & _ & Hc & Hf & _ & Hw)]); [destruct (Hn E)|].
  exists b, radio, tlvs. split; [exact Hc|]. rewrite Ho, (Hw E). exact Hf.
Defined.
