(* ===== verification/Stats.v ===== *)
(** * The pod's statistics: [src/emosa/opensync/stats.py]

    [PodStats]: client reports with their counter epochs, channel surveys, probe requests. The wire format
    of [sts.Report] is generated code: its decoder is a parameter, and a message is the record of its fields,
    optional ones tested with [HasField] as options, the others with their defaults. Times are in
    milliseconds; MAC addresses are ASCII. A [ValueError] or [DecodeError] is an error whose text is
    its message. *)

From stdpp Require Import sorting.
From S2P Require Import Prelude Bytes Cmdu Session.

Definition BANDS (b : Z) : option string :=
  match b with
  | 0 => Some "2.4G" | 1 => Some "5G" | 2 => Some "5GL" | 3 => Some "5GU"
  | 4 => Some "6G" | 5 => Some "6GL" | 6 => Some "6GU"
  | _ => None
  end.
Definition COUNTERS : list string :=
  ["tx_bytes"; "rx_bytes"; "tx_frames"; "rx_frames"; "tx_retries"; "rx_retries"; "tx_errors"; "rx_errors"].
Definition NEVER_IMPLIED : list string := ["tx_retries"].
Definition MAX_PAYLOAD : Z := 65536.
Definition STATS_MAX_STATIONS : nat := 64.
Definition MAX_PROBED : nat := 256.
Definition QM_BATCH : Z := seconds 60.

(** ** Messages *)

(** A double: a fraction, or an infinity or NaN. *)
Inductive Double := Finite (num : Z) (den : positive) | NotFinite.

(** [sts.ClientStats]: its counters by their names *)
Record ClientStats := mkClientStats {
  cs_counters : string → option Z; tx_rate : option Double; rx_rate : option Double; rssi : option Z }.
Record Client := mkClient {
  mac_address : string;
  cl_ssid : string;
  connected : bool;
  cl_stats : option ClientStats;
  connect_count : Z;
  disconnect_count : Z;
  cl_duration : option Z
}.
Record ClientReport := mkClientReport { cr_band : Z; cr_timestamp : option Z; cr_channel : Z; client_list : list Client }.
Record SurveySample := mkSurveySample { sa_channel : Z; busy : option Z; sa_offset : Z; sa_duration : option Z }.
Record Survey := mkSurvey { survey_type : Z; su_band : Z; su_timestamp : option Z; survey_list : list SurveySample }.
Record BsEvent := mkBsEvent { ev_probe : bool; ev_rssi : option Z; ev_offset : Z }.
Record BsBand := mkBsBand { bb_band : Z; ifname : string; event_list : list BsEvent }.
Record BsClient := mkBsClient { bs_mac : string; bs_band_report : list BsBand }.
Record BsReport := mkBsReport { bs_timestamp : option Z; bs_clients : list BsClient }.
Record Report := mkReport { rep_clients : list ClientReport; rep_survey : list Survey; rep_bs : list BsReport }.

(** ** What is kept *)

Record SurveyStats := mkSurveyStats {
  ss_band : string; ss_channel : Z; busy_percent : Z; duration_ms : option Z; ss_measured_at : Z }.
Record ProbeSample := mkProbeSample { ps_band : string; ps_ifname : string; ps_snr : Z; ps_measured_at : Z }.

(** [StationStats]; the eight counters in the order of [COUNTERS] *)
Record StationStats := mkStationStats {
  st_mac : string;
  st_ssid : string;
  st_band : string;
  st_channel : Z;
  st_measured_at : Z;
  st_periods : Z;
  st_epoch_start : Z;
  tx_rate_mbps : option (Z * positive);
  rx_rate_mbps : option (Z * positive);
  st_snr_db : option Z;
  st_counters : list (option Z)
}.

(** [measured_rate(stats, field)] *)
Definition measured_rate (field : option Double) : option (Z * positive) :=
  match field with
  | Some (Finite num den) => if bool_decide (0 ≤ num ∧ num < 2 ^ 32 * Zpos den) then Some (num, den) else None
  | _ => None
  end.

(** [str.lower] *)
Fixpoint lower (s : string) : string :=
  match s with
  | EmptyString => EmptyString
  | String c s =>
      let n := Ascii.nat_of_ascii c in
      String (if bool_decide (65 ≤ n ≤ 90)%nat then Ascii.ascii_of_nat (n + 32) else c) (lower s)
  end.

(** [sorted(l, key=key)], stable *)
Fixpoint insert_on {A} (key : A → Z) (x : A) (l : list A) : list A :=
  match l with
  | [] => [x]
  | y :: l => if bool_decide (key x ≤ key y) then x :: y :: l else y :: insert_on key x l
  end.
Definition sorted_on {A} (key : A → Z) (l : list A) : list A := foldr (insert_on key) [] l.

(** ** Client reports *)

(** What one connected station's entry tells of a reporting period. *)
Record Period := mkPeriod {
  p_mac : string;
  p_ssid : string;
  p_band : string;
  p_channel : Z;
  p_end : Z;
  p_broken : bool;                                    (* a period was missed before it on the band *)
  p_events : bool;                                    (* the station joined or left in it *)
  p_duration : option Z;
  p_tx_rate : option (Z * positive);
  p_rx_rate : option (Z * positive);
  p_snr : option Z;
  p_deltas : list (option Z)
}.

(** [measured |= present - NEVER_IMPLIED] *)
Definition now_measured (stats : ClientStats) (measured : gset string) : gset string :=
  measured ∪ list_to_set (filter (λ n, is_Some (cs_counters stats n) ∧ n ∉ NEVER_IMPLIED) COUNTERS).

(** [deltas] *)
Definition deltas_of (stats : ClientStats) (measured : gset string) : list (option Z) :=
  (λ n, match cs_counters stats n with Some d => Some d | None => if bool_decide (n ∈ measured) then Some 0 else None end)
    <$> COUNTERS.

(** An entry of [client_list], unless it is passed over; and the counters measured after it. *)
Definition client_period (measured : gset string) (band : string) (channel stamp : Z) (broken : bool) (client : Client) :
    option (gset string * Period) :=
  let mac := lower (mac_address client) in
  match cl_stats client with
  | Some stats =>
      if bool_decide (String.length mac = 17%nat) && connected client then
        let measured := now_measured stats measured in
        Some (measured, mkPeriod mac (cl_ssid client) band channel stamp broken
          (negb (bool_decide (connect_count client = 0)) || negb (bool_decide (disconnect_count client = 0)))
          (cl_duration client) (measured_rate (tx_rate stats)) (measured_rate (rx_rate stats)) (rssi stats)
          (deltas_of stats measured))
      else None
  | None => None
  end.

Definition add_known (a b : option Z) : option Z := x ← a; y ← b; Some (x + y).

(** [now_known]: a counter unknown in [old] that the deltas know *)
Definition becomes_known (old deltas : list (option Z)) : bool :=
  existsb (λ '(n, (o, d)), negb (bool_decide (n ∈ NEVER_IMPLIED)) && bool_decide (o = None) && bool_decide (is_Some d))
    (zip COUNTERS (zip old deltas)).

(** [period or self.interval] *)
Definition first_length (interval : Z) (p : Period) : Z :=
  match p_duration p with Some d => if bool_decide (d = 0) then seconds interval else d | None => seconds interval end.

(** The [StationStats] after a period; [interval] is in seconds. *)
Definition station_after (interval : Z) (old : option StationStats) (p : Period) : StationStats :=
  let same := match old with
              | Some o => negb (p_broken p) && negb (p_events p) && negb (becomes_known (st_counters o) (p_deltas p))
                          && bool_decide (st_band o = p_band p) && bool_decide (p_end p - st_measured_at o ≤ 1500 * interval)
              | None => false
              end in
  let '(totals, periods, epoch_start) :=
    match old with
    | Some o => if same then (zip_with add_known (st_counters o) (p_deltas p), st_periods o + 1, st_epoch_start o)
                else (p_deltas p, 1, p_end p - first_length interval p)
    | None => (p_deltas p, 1, p_end p - first_length interval p)
    end in
  mkStationStats (p_mac p) (p_ssid p) (p_band p) (p_channel p) (p_end p) periods epoch_start
    (p_tx_rate p) (p_rx_rate p) (p_snr p) totals.

(** What keeps the stations: a table takes in the periods and lets go of stations. *)
Class StationTable (T : Type) := {
  take_in : Z → Period → T → T;
  let_go : (Z → bool) → T → T                         (* those whose last period ended at such a time *)
}.

(** [self.stations] *)
#[export] Instance stations_dict : StationTable (gmap string StationStats) := {|
  take_in interval p t := <[p_mac p := station_after interval (t !! p_mac p) p]> t;
  let_go stale t := filter (λ ms, stale (st_measured_at ms.2) = false) t
|}.

Record PodStats (T : Type) := mkPodStats {
  last_timestamp : gmap string Z;
  stations : T;
  surveys : gmap Z SurveyStats;
  probes : list (string * ProbeSample);
  measured : gset string;
  accepted : Z;
  rejected : Z;
  gaps : Z;
  last_error : option string;
  last_report_at : option Z
}.
Arguments mkPodStats {T}.
Arguments last_timestamp {T}.
Arguments stations {T}.
Arguments surveys {T}.
Arguments probes {T}.
Arguments measured {T}.
Arguments accepted {T}.
Arguments rejected {T}.
Arguments gaps {T}.
Arguments last_error {T}.
Arguments last_report_at {T}.
#[export] Instance eta_PodStats {T} : Eta (PodStats T) := λ s,
  mkPodStats (last_timestamp s) (stations s) (surveys s) (probes s) (measured s) (accepted s) (rejected s) (gaps s)
    (last_error s) (last_report_at s).

Section PodStats.
Context {T : Type} `{!StationTable T} (topic : string) (interval batch : Z) (decode : bytes → result Report) (initialized : Report → bool).

(** [PodStats(topic, interval=interval, batch=batch)], over an empty table *)
Definition PodStats_init (empty : T) : PodStats T := mkPodStats ∅ empty ∅ [] ∅ 0 0 0 None None.
Definition lifetime : Z := 3 * seconds interval + batch.

(** One entry of the loop of [_client_report]. *)
Definition client_entry (band : string) (channel stamp : Z) (broken : bool) (client : Client) (s : PodStats T) : PodStats T :=
  match client_period (measured s) band channel stamp broken client with
  | Some (m, p) => s <| measured := m |> <| stations := take_in interval p (stations s) |>
  | None => s
  end.

(** [_client_report(radio)] *)
Definition client_report (radio : ClientReport) : M (PodStats T) unit :=
  match BANDS (cr_band radio), cr_timestamp radio with
  | Some band, Some stamp =>
      s ← get;
      let last := last_timestamp s !! band in
      _ ← lift (raise_if (match last with Some l => bool_decide (stamp ≤ l) | None => false end) INVALID_INPUT
                  "duplicate or out-of-order client report");
      let broken := match last with Some l => bool_decide (1500 * interval < stamp - l) | None => true end in
      _ ← (if bool_decide (is_Some last) && broken then modify (λ s, s <| gaps := gaps s + 1 |>) else mret tt);
      _ ← modify (λ s, s <| last_timestamp := <[band := stamp]> (last_timestamp s) |>);
      _ ← lift (raise_if (bool_decide (STATS_MAX_STATIONS < length (client_list radio))%nat) INVALID_INPUT
                  "station inventory exceeds the local bound");
      for_each (λ c, modify (client_entry band (cr_channel radio) stamp broken c)) (client_list radio)
  | _, _ => lift (invalid "client report without band or time")
  end.

(** One sample of [_survey]. *)
Definition survey_sample (band : string) (stamp : Z) (sample : SurveySample) (s : PodStats T) : PodStats T :=
  match busy sample with
  | Some b =>
      if negb (bool_decide (0 ≤ b ≤ 100)) then s
      else
        let at_ := stamp - sa_offset sample in
        if match surveys s !! sa_channel sample with Some old => bool_decide (at_ ≤ ss_measured_at old) | None => false end then s
        else s <| surveys := <[sa_channel sample := mkSurveyStats band (sa_channel sample) b (sa_duration sample) at_]> (surveys s) |>
  | None => s
  end.

(** [_survey(survey)] *)
Definition survey (v : Survey) (s : PodStats T) : PodStats T :=
  match BANDS (su_band v), su_timestamp v with
  | Some band, Some stamp =>
      if bool_decide (survey_type v = 0) then foldl (λ s sample, survey_sample band stamp sample s) s (survey_list v) else s
  | _, _ => s
  end.

Definition probe_at (mac : string) (d : list (string * ProbeSample)) : option ProbeSample :=
  snd <$> (snd <$> list_find (λ kv, kv.1 = mac) d).

(** One event of [_bs_report]. *)
Definition probe_event (mac band ifn : string) (stamp : Z) (d : list (string * ProbeSample)) (e : BsEvent) : list (string * ProbeSample) :=
  match ev_rssi e with
  | Some r =>
      if negb (ev_probe e) then d
      else
        let at_ := stamp - ev_offset e in
        if match probe_at mac d with Some old => bool_decide (at_ ≤ ps_measured_at old) | None => false end then d
        else od_set mac (mkProbeSample band ifn r at_) d
  | None => d
  end.
Definition probe_band (mac : string) (stamp : Z) (d : list (string * ProbeSample)) (b : BsBand) : list (string * ProbeSample) :=
  match BANDS (bb_band b) with
  | Some band => foldl (probe_event mac band (ifname b) stamp) d (event_list b)
  | None => d
  end.
Definition probe_client (stamp : Z) (d : list (string * ProbeSample)) (c : BsClient) : list (string * ProbeSample) :=
  let mac := lower (bs_mac c) in
  if bool_decide (String.length mac = 17%nat) then foldl (probe_band mac stamp) d (bs_band_report c) else d.

(** The oldest go while there are more than [MAX_PROBED]. *)
Definition evict (d : list (string * ProbeSample)) : list (string * ProbeSample) :=
  if bool_decide (MAX_PROBED < length d)%nat then
    let oldest := take (length d - MAX_PROBED) (sorted_on (λ kv, ps_measured_at kv.2) d).*1 in
    foldl (λ d mac, od_pop mac d) d oldest
  else d.

(** [_bs_report(bs)] *)
Definition bs_report (bs : BsReport) (s : PodStats T) : PodStats T :=
  match bs_timestamp bs with
  | Some stamp => s <| probes := evict (foldl (probe_client stamp) (probes s) (bs_clients bs)) |>
  | None => s
  end.

(** [receive(topic, payload, retained=retained)]; [now] is the clock's answer *)
Definition receive (top : string) (payload : bytes) (retained : bool) (now : Z) : M (PodStats T) bool :=
  try_else
    (_ ← lift (raise_if (retained || negb (bool_decide (top = topic)) || negb (bool_decide (1 ≤ len payload ≤ MAX_PAYLOAD)))
                 INVALID_INPUT "not a live report on this pod's topic");
     report ← lift (decode payload);
     _ ← lift (raise_if (negb (initialized report)) INVALID_INPUT "incomplete report");
     _ ← for_each client_report (sorted_on (λ r, default 0 (cr_timestamp r)) (rep_clients report));
     _ ← for_each (λ v, modify (survey v)) (rep_survey report);
     for_each (λ b, modify (bs_report b)) (rep_bs report))
    (λ _, _ ← modify (λ s, s <| accepted := accepted s + 1 |> <| last_report_at := Some now |>); mret true)
    (λ e, _ ← modify (λ s, s <| rejected := rejected s + 1 |> <| last_error := Some (message e) |>); mret false).

(** [probe(mac)] *)
Definition probe (mac : string) (s : PodStats T) : option ProbeSample := probe_at (lower mac) (probes s).

(** [current()]; the stations it returns are those left *)
Definition current_stations (now : Z) (s : PodStats T) : PodStats T :=
  s <| stations := let_go (λ t, bool_decide (lifetime < now - t)) (stations s) |>.

End PodStats.

(** * Theory *)

(** ** A reference: all that was reported

    A table that keeps, of each station, every period since it was last let go, the latest first. *)
#[export] Instance all_periods : StationTable (gmap string (list Period)) := {|
  take_in _ p t := <[p_mac p := p :: default [] (t !! p_mac p)]> t;
  let_go stale t := filter (λ ml, match ml.2 with q :: _ => stale (p_end q) | [] => false end = false) t
|}.

Section Reference.
Context (interval : Z).

Definition counter_of (i : nat) (p : Period) : option Z := mjoin (p_deltas p !! i).

(** The sum of a counter over periods, known when it is in all of them. *)
Definition total (e : list Period) (i : nat) : option Z := foldr (λ p, add_known (counter_of i p)) (Some 0) e.
Definition totals (e : list Period) : list (option Z) := total e <$> seq 0 (length COUNTERS).

(** [q] follows [p] without a missed period, a join, a leave or a change of band. *)
Definition follows (p q : Period) : Prop :=
  p_broken q = false ∧ p_events q = false ∧ p_band p = p_band q ∧ p_end q - p_end p ≤ 1500 * interval.
#[export] Instance follows_dec p q : Decision (follows p q).
Proof. unfold follows. apply _. Defined.

(** The counter epoch of the latest period. *)
Fixpoint counter_epoch (l : list Period) : list Period :=
  match l with
  | [] => []
  | q :: l =>
      let e := counter_epoch l in
      match head e with
      | Some p => if bool_decide (follows p q) && negb (becomes_known (totals e) (p_deltas q)) then q :: e else [q]
      | None => [q]
      end
  end.

(** What is shown of a station whose periods are [l]. *)
Definition summary (l : list Period) : option StationStats :=
  match counter_epoch l with
  | [] => None
  | q :: e =>
      let first := List.last (q :: e) q in
      Some (mkStationStats (p_mac q) (p_ssid q) (p_band q) (p_channel q) (p_end q) (len (q :: e)) (p_end first - first_length interval first)
              (p_tx_rate q) (p_rx_rate q) (p_snr q) (totals (q :: e)))
  end.

Lemma add_known_comm a b : add_known a b = add_known b a.
Proof. destruct a, b; cbn; [f_equal; lia|done..]. Qed.

Lemma totals_cons q e : length (p_deltas q) = length COUNTERS → totals (q :: e) = zip_with add_known (totals e) (p_deltas q).
Proof.
  intros Hl. apply list_eq. intros i. unfold totals. rewrite lookup_zip_with, !list_lookup_fmap.
  destruct (seq 0 (length COUNTERS) !! i) as [j|] eqn:Ej; cbn -[seq]; [|done]. apply lookup_seq in Ej as [-> Hi].
  destruct (lookup_lt_is_Some_2 (p_deltas q) i ltac:(lia)) as [d Hd]. unfold counter_of. cbn. rewrite Hd. cbn. by rewrite add_known_comm.
Qed.

Lemma totals_one q : length (p_deltas q) = length COUNTERS → totals [q] = p_deltas q.
Proof.
  intros Hl. destruct q as [? ? ? ? ? ? ? ? ? ? ? ds]. cbn in Hl.
  destruct ds as [|d0 [|d1 [|d2 [|d3 [|d4 [|d5 [|d6 [|d7 [|]]]]]]]]]; try discriminate Hl.
  unfold totals, total. cbn.
  by destruct d0, d1, d2, d3, d4, d5, d6, d7; cbn; rewrite ?Z.add_0_r.
Qed.

Lemma last_default {A} (l : list A) x d d' : List.last (x :: l) d = List.last (x :: l) d'.
Proof. revert x. induction l as [|y l IH]; intros x; [done|]. apply (IH y). Qed.

Lemma counter_epoch_cons q l : ∃ e, counter_epoch (q :: l) = q :: e ∧ (e = counter_epoch l ∨ e = []).
Proof.
  cbn. destruct (head (counter_epoch l)); [|by eexists; eauto]. destruct (_ && _); eexists; eauto.
Qed.

Lemma summary_end q l : ∃ st, summary (q :: l) = Some st ∧ st_measured_at st = p_end q.
Proof. unfold summary. destruct (counter_epoch_cons q l) as (e & -> & _). by eexists. Qed.

(** The table of the code has exactly what the reference shows. *)
Lemma summary_cons q l : length (p_deltas q) = length COUNTERS → summary (q :: l) = Some (station_after interval (summary l) q).
Proof.
  intros Hl. unfold summary at 1. cbn [counter_epoch]. unfold summary.
  destruct (counter_epoch l) as [|p e] eqn:Ee; cbn [head].
  - unfold station_after. rewrite totals_one by done. done.
  - unfold station_after. cbn [st_counters st_band st_measured_at st_periods st_epoch_start].
    assert (Hs : negb (p_broken q) && negb (p_events q) && negb (becomes_known (totals (p :: e)) (p_deltas q))
       && bool_decide (p_band p = p_band q) && bool_decide (p_end q - p_end p ≤ 1500 * interval)
      = bool_decide (follows p q) && negb (becomes_known (totals (p :: e)) (p_deltas q))).
    { repeat case_bool_decide; unfold follows in *; destruct (p_broken q), (p_events q), (becomes_known _ _); naive_solver. }
    rewrite Hs. destruct (bool_decide (follows p q) && negb (becomes_known (totals (p :: e)) (p_deltas q))); cbv zeta iota.
    2: { rewrite totals_one by done. done. }
    rewrite totals_cons by done. do 2 f_equal.
    + unfold len. cbn [length]. lia.
    + change (List.last (q :: p :: e) q) with (List.last (p :: e) q). by rewrite (last_default e p q p).
Qed.

(** ** What an epoch is made of *)

(** The neighbours of a list, the latest first, are related. *)
Fixpoint chained (R : Period → Period → Prop) (l : list Period) : Prop :=
  match l with
  | q :: l => match l with p :: _ => R p q | [] => True end ∧ chained R l
  | [] => True
  end.

(** The counter at [i] is one whose absence means zero once it is measured. *)
Definition measurable (i : nat) : Prop := ∃ n, COUNTERS !! i = Some n ∧ n ∉ NEVER_IMPLIED.
Definition knows (p : Period) (i : nat) : Prop := is_Some (counter_of i p).

(** A counter that was known stays known. *)
Definition knowing (l : list Period) : Prop :=
  StronglySorted (λ newer older, ∀ i, measurable i → knows older i → knows newer i) l.

Lemma counter_epoch_prefix l : ∃ rest, l = counter_epoch l ++ rest.
Proof.
  induction l as [|q l [rest IH]]; [by exists []|]. destruct (counter_epoch_cons q l) as (e & -> & [-> | ->]).
  - exists rest. cbn. by f_equal.
  - by exists l.
Qed.

Lemma counter_epoch_chained l : chained follows (counter_epoch l).
Proof.
  induction l as [|q l IH]; [done|]. cbn. destruct (counter_epoch l) as [|p e]; cbn [head]; [done|].
  destruct (bool_decide (follows p q)) eqn:Hf; [|done]. destruct (negb _); [|done]. bools. by split.
Qed.

Lemma total_known e i : is_Some (total e i) ↔ ∀ p, p ∈ e → knows p i.
Proof.
  induction e as [|q e IH]; [split; [by intros _ p ?%elem_of_nil|by eexists]|].
  change (total (q :: e) i) with (add_known (counter_of i q) (total e i)). unfold add_known. split.
  - intros [t Ht]. destruct (counter_of i q) as [d|] eqn:Ed; [|discriminate Ht]. destruct (total e i) as [t'|]; [|discriminate Ht].
    intros p [->|Hp]%elem_of_cons; [by exists d|]. by apply IH.
  - intros Hk. destruct (Hk q ltac:(by left)) as [d ->]. destruct (proj2 IH) as [t ->]; [intros p Hp; apply Hk; by right|by eexists].
Qed.

Lemma becomes_known_false old ds i :
  length old = length COUNTERS → length ds = length COUNTERS → becomes_known old ds = false → measurable i →
  mjoin (old !! i) = None → mjoin (ds !! i) = None.
Proof.
  intros Ho Hd Hb (n & Hn & Hm) Hi. pose proof (lookup_lt_Some _ _ _ Hn) as Hlt.
  destruct (lookup_lt_is_Some_2 old i ltac:(lia)) as [o Eo]. destruct (lookup_lt_is_Some_2 ds i ltac:(lia)) as [d Ed].
  rewrite Eo in Hi. cbn in Hi. subst o. rewrite Ed. cbn. destruct d as [d|]; [|done]. exfalso.
  assert (Hx : becomes_known old ds = true); [|congruence]. unfold becomes_known. apply existsb_exists.
  exists (n, (None, Some d)). split.
  - apply list_elem_of_In, list_elem_of_lookup. exists i. rewrite lookup_zip_with, Hn. cbn. by rewrite lookup_zip_with, Eo, Ed.
  - rewrite bool_decide_eq_false_2 by done. done.
Qed.

(** In an epoch each measurable counter is known throughout, or nowhere. *)
Lemma epoch_uniform l i :
  Forall (λ p, length (p_deltas p) = length COUNTERS) l → knowing l → measurable i →
  (∀ p, p ∈ counter_epoch l → knows p i) ∨ (∀ p, p ∈ counter_epoch l → ¬ knows p i).
Proof.
  intros Hl Hk Hi. induction l as [|q l IH]; [by left; intros p ?%elem_of_nil|].
  apply Forall_cons in Hl as [Hq Hl]. apply StronglySorted_inv in Hk as [Hk Hqk]. specialize (IH Hl Hk).
  assert (Hone : (∀ p, p ∈ [q] → knows p i) ∨ (∀ p, p ∈ [q] → ¬ knows p i)).
  { destruct (counter_of i q) as [d|] eqn:Ed; [left|right]; intros p ->%list_elem_of_singleton; unfold knows; rewrite Ed; [by eexists|by intros []]. }
  cbn. destruct (counter_epoch_prefix l) as [rest El]. destruct (counter_epoch l) as [|p e] eqn:Ee; cbn [head]; [done|].
  destruct (_ && _) eqn:Hc; [|done]. bools. destruct IH as [Ha|Hn]; [left|right]; intros x [->|Hx]%elem_of_cons; auto.
  - rewrite Forall_forall in Hqk. apply (Hqk p); [|done|apply Ha; by left]. rewrite El. by left.
  - assert (Hm : mjoin (totals (p :: e) !! i) = None).
    { destruct Hi as (n & Hn0 & _). pose proof (lookup_lt_Some _ _ _ Hn0). unfold totals. rewrite list_lookup_fmap, lookup_seq_lt by done.
      cbn -[total]. destruct (total (p :: e) i) as [t|] eqn:Et; [|done]. exfalso. apply (Hn p); [by left|].
      apply (total_known (p :: e)); [by rewrite Et; eexists|by left]. }
    intros [d Hd]. unfold counter_of in Hd. rewrite (becomes_known_false (totals (p :: e))) in Hd; try done.
Qed.
End Reference.

(** ** The code's table refines the reference *)

Section Refinement.
Context (topic : string) (interval batch : Z) (decode : bytes → result Report) (initialized : Report → bool).
Abbreviation Dict := (PodStats (gmap string StationStats)).
Abbreviation Hist := (PodStats (gmap string (list Period))).

(** What the code keeps when the reference keeps [h]. *)
Definition shown (h : Hist) : Dict :=
  mkPodStats (last_timestamp h) (omap (summary interval) (stations h)) (surveys h) (probes h) (measured h) (accepted h) (rejected h)
    (gaps h) (last_error h) (last_report_at h).

(** A period has all eight counters, and what it knows is measured from then on. *)
Definition period_ok (m : gset string) (p : Period) : Prop :=
  length (p_deltas p) = length COUNTERS ∧
  ∀ i n, COUNTERS !! i = Some n → n ∉ NEVER_IMPLIED → knows p i → n ∈ m.
Definition periods_ok (m : gset string) (l : list Period) : Prop := l ≠ [] ∧ Forall (period_ok m) l ∧ knowing l.
Definition hist_ok (h : Hist) : Prop := map_Forall (λ _, periods_ok (measured h)) (stations h).

Definition simulated {A} (m : M Hist A) (m' : M Dict A) : Prop :=
  ∀ h, hist_ok h → m' (shown h) = ((m h).1, shown (m h).2) ∧ hist_ok (m h).2.

Lemma simulated_lift {A} (r : result A) : simulated (lift r) (lift r).
Proof. by intros h Hh. Qed.
Lemma simulated_ret {A} (a : A) : simulated (mret a) (mret a).
Proof. by intros h Hh. Qed.
Lemma simulated_bind {A B} (m : M Hist A) m' (k : A → M Hist B) k' :
  simulated m m' → (∀ a, simulated (k a) (k' a)) → simulated (m ≫= k) (m' ≫= k').
Proof.
  intros Hm Hk h Hh. destruct (Hm h Hh) as [E H1]. unfold mbind, M_mbind. rewrite E.
  destruct (m h) as [[a|e] h1]; [by apply Hk|done].
Qed.
Lemma simulated_get {B} (k : Hist → M Hist B) k' : (∀ h, simulated (k h) (k' (shown h))) → simulated (get ≫= k) (get ≫= k').
Proof. intros Hk h Hh. by apply Hk. Qed.
Lemma simulated_modify f f' : (∀ h, hist_ok h → f' (shown h) = shown (f h) ∧ hist_ok (f h)) → simulated (modify f) (modify f').
Proof. intros Hf h Hh. destruct (Hf h Hh) as [E Hok]. unfold modify. by rewrite E. Qed.
Lemma simulated_for_each {A} (f : A → M Hist unit) f' l : (∀ x, simulated (f x) (f' x)) → simulated (for_each f l) (for_each f' l).
Proof.
  intros Hf. induction l as [|x l IH]; [apply simulated_ret|]. apply simulated_bind; [apply Hf|by intros _].
Qed.
Lemma simulated_try {A B} (m : M Hist A) m' (k : A → M Hist B) k' g g' :
  simulated m m' → (∀ a, simulated (k a) (k' a)) → (∀ e, simulated (g e) (g' e)) → simulated (try_else m k g) (try_else m' k' g').
Proof.
  intros Hm Hk Hg h Hh. destruct (Hm h Hh) as [E H1]. unfold try_else. rewrite E.
  destruct (m h) as [[a|e] h1]; [by apply Hk|by apply Hg].
Qed.

Lemma now_measured_mono stats m : m ⊆ now_measured stats m.
Proof. unfold now_measured. set_solver. Qed.

Lemma client_period_ok m band channel stamp broken client m' p :
  client_period m band channel stamp broken client = Some (m', p) →
  m ⊆ m' ∧ period_ok m' p ∧ (∀ i n, COUNTERS !! i = Some n → n ∈ m → knows p i).
Proof.
  unfold client_period. destruct (cl_stats client) as [stats|]; [|done]. destruct (_ && _); [|done]. intros [= <- <-].
  pose proof (now_measured_mono stats m) as Hmono.
  assert (Hc : ∀ i n, COUNTERS !! i = Some n → ∀ p, p_deltas p = deltas_of stats (now_measured stats m) → counter_of i p =
    match cs_counters stats n with Some d => Some d | None => if bool_decide (n ∈ now_measured stats m) then Some 0 else None end).
  { intros i n Hn p Hp. unfold counter_of. rewrite Hp. unfold deltas_of. by rewrite list_lookup_fmap, Hn. }
  split; [done|]. split; [split|].
  - apply length_fmap.
  - intros i n Hn Hni. unfold knows. erewrite Hc by done. destruct (cs_counters stats n) as [d|] eqn:Ed.
    + intros _. unfold now_measured. apply elem_of_union_r, elem_of_list_to_set, list_elem_of_filter.
      split; [split; [by rewrite Ed; eexists|done]|]. by eapply list_elem_of_lookup_2.
    + case_bool_decide; [done|]. by intros [].
  - intros i n Hn Hin. unfold knows. erewrite Hc by done. destruct (cs_counters stats n); [by eexists|].
    rewrite bool_decide_eq_true_2 by set_solver. by eexists.
Qed.

Lemma period_ok_mono m m' p : m ⊆ m' → period_ok m p → period_ok m' p.
Proof. intros Hm [Hl Hk]. split; [done|]. intros i n Hi Hn Hp. apply Hm. by eapply Hk. Qed.

Lemma client_entry_sim band channel stamp broken client h :
  hist_ok h →
  client_entry interval band channel stamp broken client (shown h) = shown (client_entry interval band channel stamp broken client h)
  ∧ hist_ok (client_entry interval band channel stamp broken client h).
Proof.
  intros Hh. unfold client_entry. change (measured (shown h)) with (measured h).
  destruct (client_period _ _ _ _ _ _) as [[m p]|] eqn:Ep; [|done].
  apply client_period_ok in Ep as (Hm & Hp & Hk). split.
  - unfold shown at 2. cbn. unfold shown. cbn. f_equal. rewrite omap_insert, summary_cons by apply Hp.
    rewrite lookup_omap. do 2 f_equal. by destruct (stations h !! p_mac p).
  - intros mac l. cbn. rewrite lookup_insert. intros Hl. case_decide.
    + injection Hl as <-. split; [done|]. destruct (stations h !! p_mac p) as [l'|] eqn:El; cbn.
      * destruct (Hh _ _ El) as (_ & Hl' & Hs). split.
        -- constructor; [done|]. eapply Forall_impl; [exact Hl'|]. intros x. by apply period_ok_mono.
        -- constructor; [done|]. eapply Forall_impl; [exact Hl'|]. intros x [_ Hx] i (n & Hn & Hni) Hki. eapply Hk; [done|]. by eapply Hx.
      * split; [by apply Forall_singleton|]. constructor; constructor.
    + destruct (Hh _ _ Hl) as (Hne & Hf & Hs). split; [done|]. split; [|done]. eapply Forall_impl; [exact Hf|]. intros x. by apply period_ok_mono.
Qed.

Lemma client_report_sim radio : simulated (client_report interval radio) (client_report interval radio).
Proof.
  unfold client_report. destruct (BANDS _) as [band|]; [|apply simulated_lift]. destruct (cr_timestamp radio) as [stamp|]; [|apply simulated_lift].
  apply simulated_get. intros h0. cbv zeta. change (last_timestamp (shown h0)) with (last_timestamp h0).
  apply simulated_bind; [apply simulated_lift|intros _].
  apply simulated_bind; [destruct (_ && _); [by apply simulated_modify|apply simulated_ret]|intros _].
  apply simulated_bind; [by apply simulated_modify|intros _].
  apply simulated_bind; [apply simulated_lift|intros _].
  apply simulated_for_each. intros c. apply simulated_modify. intros h Hh. by apply client_entry_sim.
Qed.

(** An operation that leaves the stations and what is measured alone. *)
Lemma simulated_aside f f' : (∀ h, f' (shown h) = shown (f h)) → (∀ h, stations (f h) = stations h ∧ measured (f h) = measured h) →
  simulated (modify f) (modify f').
Proof.
  intros Hs Hk. apply simulated_modify. intros h Hh. split; [done|]. destruct (Hk h) as [E1 E2]. unfold hist_ok. by rewrite E1, E2.
Qed.

Lemma survey_sample_aside band stamp sample (h : Hist) :
  survey_sample band stamp sample (shown h) = shown (survey_sample band stamp sample h)
  ∧ stations (survey_sample band stamp sample h) = stations h ∧ measured (survey_sample band stamp sample h) = measured h.
Proof.
  unfold survey_sample. change (surveys (shown h)) with (surveys h). destruct (busy sample) as [b|]; [|done].
  destruct (negb _); [done|]. by destruct (match surveys h !! sa_channel sample with Some _ => _ | None => _ end).
Qed.

Lemma survey_aside v (h : Hist) :
  survey v (shown h) = shown (survey v h) ∧ stations (survey v h) = stations h ∧ measured (survey v h) = measured h.
Proof.
  unfold survey. destruct (BANDS _) as [band|]; [|done]. destruct (su_timestamp v) as [stamp|]; [|done]. case_bool_decide; [|done].
  revert h. induction (survey_list v) as [|x l IH]; intros h; [done|]. cbn. destruct (survey_sample_aside band stamp x h) as (-> & E1 & E2).
  destruct (IH (survey_sample band stamp x h)) as (-> & E3 & E4). split; [done|]. split; congruence.
Qed.

Lemma receive_sim top payload retained now :
  simulated (receive topic interval decode initialized top payload retained now)
    (receive topic interval decode initialized top payload retained now).
Proof.
  unfold receive. apply simulated_try; [|intros _; apply simulated_bind; [by apply simulated_aside|intros _; apply simulated_ret]
    |intros e; apply simulated_bind; [by apply simulated_aside|intros _; apply simulated_ret]].
  apply simulated_bind; [apply simulated_lift|intros _]. apply simulated_bind; [apply simulated_lift|intros report].
  apply simulated_bind; [apply simulated_lift|intros _].
  apply simulated_bind; [apply simulated_for_each; intros; apply client_report_sim|intros _].
  apply simulated_bind; apply simulated_for_each || intros _.
  - intros v. apply simulated_aside; intros h; apply survey_aside.
  - apply simulated_for_each. intros b. apply simulated_aside; intros h; unfold bs_report; by destruct (bs_timestamp b).
Qed.

Lemma current_sim now h :
  hist_ok h →
  current_stations interval batch now (shown h) = shown (current_stations interval batch now h) ∧ hist_ok (current_stations interval batch now h).
Proof.
  intros Hh. split.
  - unfold current_stations, shown. cbn. f_equal. apply map_eq. intros mac. rewrite map_lookup_filter, !lookup_omap, map_lookup_filter.
    destruct (stations h !! mac) as [l|] eqn:El; cbn; [|done]. destruct (Hh _ _ El) as (Hne & _ & _).
    destruct l as [|q l]; [done|]. destruct (summary_end interval q l) as (st & Es & Em). rewrite Es. cbn. rewrite Em.
    destruct (bool_decide _); by simplify_option_eq.
  - intros mac l. cbn. intros [Hl _]%map_lookup_filter_Some. by apply (Hh mac l).
Qed.

(** ** Runs *)

Inductive stats_input :=
  | SReceive (top : string) (payload : bytes) (retained : bool) (now : Z)
  | SCurrent (now : Z).

Definition stats_serve {T} `{!StationTable T} (s : PodStats T) (i : stats_input) : PodStats T :=
  match i with
  | SReceive top payload retained now => (receive topic interval decode initialized top payload retained now s).2
  | SCurrent now => current_stations interval batch now s
  end.

Lemma stats_serve_sim h i : hist_ok h → stats_serve (shown h) i = shown (stats_serve h i) ∧ hist_ok (stats_serve h i).
Proof.
  intros Hh. destruct i as [top payload retained now|now]; cbn.
  - destruct (receive_sim top payload retained now h Hh) as [-> Hok]. done.
  - by apply current_sim.
Qed.

Lemma stats_run_sim h l : hist_ok h → foldl stats_serve (shown h) l = shown (foldl stats_serve h l) ∧ hist_ok (foldl stats_serve h l).
Proof.
  revert h. induction l as [|i l IH]; intros h Hh; [done|]. cbn. destruct (stats_serve_sim h i Hh) as [-> Hok]. by apply IH.
Qed.

(** ** Probe requests *)

Lemma insert_on_perm {A} (key : A → Z) x l : insert_on key x l ≡ₚ x :: l.
Proof. induction l as [|y l IH]; [done|]. cbn. case_bool_decide; [done|]. rewrite IH. by constructor. Qed.
Lemma sorted_on_perm {A} (key : A → Z) l : sorted_on key l ≡ₚ l.
Proof. unfold sorted_on. induction l as [|x l IH]; [done|]. cbn. by rewrite insert_on_perm, IH. Qed.

Lemma od_pop_there {V} (k : string) (d : list (string * V)) : NoDup d.*1 → k ∈ d.*1 → S (length (od_pop k d)) = length d.
Proof.
  unfold od_pop. induction d as [|[k' v] d IH]; [by intros _ ?%elem_of_nil|]. rewrite fmap_cons. intros [Hk' Hd]%NoDup_cons Hk.
  destruct (decide (k' = k)) as [->|Hne].
  - rewrite filter_cons_False by (cbn; naive_solver). cbn [length]. f_equal. clear - Hk'. induction d as [|[k1 v1] d IH]; [done|].
    cbn in Hk'. apply not_elem_of_cons in Hk' as [? ?]. rewrite filter_cons_True by (cbn; congruence). cbn [length]. f_equal. by apply IH.
  - rewrite filter_cons_True by done. cbn [length]. f_equal. apply IH; [done|]. by apply elem_of_cons in Hk as [->|].
Qed.

Lemma pops_length {V} (ks : list string) (d : list (string * V)) :
  NoDup ks → NoDup d.*1 → (∀ k, k ∈ ks → k ∈ d.*1) →
  NoDup (foldl (λ d mac, od_pop mac d) d ks).*1 ∧ (length (foldl (λ d mac, od_pop mac d) d ks) + length ks = length d)%nat.
Proof.
  revert d. induction ks as [|k ks IH]; intros d Hks Hd Hin; cbn; [split; [done|lia]|].
  apply NoDup_cons in Hks as [Hk Hks]. destruct (IH (od_pop k d) Hks) as [H1 H2].
  - by apply od_pop_NoDup.
  - intros k' Hk'. destruct (proj1 (list_elem_of_fmap fst d k') (Hin k' ltac:(by right))) as (e & -> & He).
    apply list_elem_of_fmap. exists e. split; [done|]. apply od_pop_elem. split; [|done]. intros E. apply Hk. by rewrite <- E.
  - split; [done|]. pose proof (od_pop_there k d Hd ltac:(apply Hin; by left)). lia.
Qed.

Lemma evict_bounded d : NoDup d.*1 → NoDup (evict d).*1 ∧ (length (evict d) ≤ MAX_PROBED)%nat.
Proof.
  intros Hnd. unfold evict. case_bool_decide as Hl; [|split; [done|lia]].
  pose proof (sorted_on_perm (λ kv, ps_measured_at kv.2) d) as Hp. set (keys := (sorted_on _ d).*1).
  assert (Hlen : length keys = length d) by (unfold keys; by rewrite length_fmap, Hp).
  destruct (pops_length (take (length d - MAX_PROBED) keys) d) as [H1 H2]; [|done| |].
  - apply (sublist_NoDup _ keys); [unfold keys; by rewrite Hp|apply sublist_take].
  - intros k Hk%subseteq_take. revert Hk. unfold keys. by rewrite Hp.
  - split; [done|]. rewrite length_take in H2. lia.
Qed.

Definition probes_ok {T} (s : PodStats T) : Prop := NoDup (probes s).*1 ∧ (length (probes s) ≤ MAX_PROBED)%nat.

Lemma probe_client_NoDup stamp d c : NoDup d.*1 → NoDup (probe_client stamp d c).*1.
Proof.
  unfold probe_client. case_bool_decide; [|done]. generalize (lower (bs_mac c)). intros mac. revert d.
  induction (bs_band_report c) as [|b l IH]; intros d Hd; [done|]. cbn. apply IH. unfold probe_band.
  destruct (BANDS (bb_band b)) as [band|]; [|done]. revert d Hd. induction (event_list b) as [|e es IHe]; intros d Hd; [done|].
  cbn. apply IHe. unfold probe_event. destruct (ev_rssi e); [|done]. destruct (negb _); [done|].
  destruct (match probe_at mac d with Some _ => _ | None => _ end); [done|]. by apply od_set_NoDup.
Qed.

Lemma bs_report_probes {T} (s : PodStats T) b : probes_ok s → probes_ok (bs_report b s).
Proof.
  intros [Hnd Hl]. unfold bs_report. destruct (bs_timestamp b) as [stamp|]; [|done]. unfold probes_ok. cbn. apply evict_bounded.
  clear Hl. revert Hnd. generalize (probes s). induction (bs_clients b) as [|c l IH]; intros d Hd; [done|]. cbn. by apply IH, probe_client_NoDup.
Qed.

Lemma receive_probes {T} `{!StationTable T} top payload retained now :
  keeps (probes_ok (T:=T)) (receive topic interval decode initialized top payload retained now).
Proof.
  unfold receive. apply keeps_try; [|intros _; apply keeps_bind; [by apply keeps_modify|intros _; apply keeps_mret]
    |intros e; apply keeps_bind; [by apply keeps_modify|intros _; apply keeps_mret]].
  apply keeps_bind; [apply keeps_lift|intros _]. apply keeps_bind; [apply keeps_lift|intros report].
  apply keeps_bind; [apply keeps_lift|intros _]. apply keeps_bind; [apply keeps_for_each; intros radio|intros _; apply keeps_bind; [apply keeps_for_each|intros _; apply keeps_for_each]].
  - unfold client_report. destruct (BANDS _) as [band|]; [|apply keeps_lift]. destruct (cr_timestamp radio) as [stamp|]; [|apply keeps_lift].
    apply keeps_get. intros s0. cbv zeta. apply keeps_bind; [apply keeps_lift|intros _].
    apply keeps_bind; [destruct (_ && _); [by apply keeps_modify|apply keeps_mret]|intros _]. apply keeps_bind; [by apply keeps_modify|intros _].
    apply keeps_bind; [apply keeps_lift|intros _]. apply keeps_for_each. intros c. apply keeps_modify. intros s Hs. unfold client_entry.
    by destruct (client_period _ _ _ _ _ _) as [[m p]|].
  - intros v. apply keeps_modify. unfold survey. destruct (BANDS (su_band v)) as [band|]; [|done].
    destruct (su_timestamp v) as [stamp|]; [|done]. case_bool_decide; [|done]. induction (survey_list v) as [|x l IH]; intros s Hs; [done|]. cbn. apply IH. unfold survey_sample.
    destruct (busy x); [|done]. destruct (negb _); [done|]. by destruct (match surveys s !! sa_channel x with Some _ => _ | None => _ end).
  - intros b. apply keeps_modify. intros s. apply bs_report_probes.
Qed.

Lemma stats_run_probes {T} `{!StationTable T} (s : PodStats T) l : probes_ok s → probes_ok (foldl stats_serve s l).
Proof.
  revert s. induction l as [|i l IH]; intros s Hs; [done|]. cbn. apply IH. destruct i as [top payload retained now|now]; [|done].
  cbn. by apply keeps_snd; [apply receive_probes|].
Qed.
End Refinement.

(** * Properties *)

(** C31: a counter total of a station never silently lacks a period. In any run, the table of the pod is what
    the reference shows, which keeps every reported period of a station since it was last let go: its counters
    are the sums over its counter epoch, the latest periods that follow each other without a missed
    period, a join, a leave or a change of band; a sum is known exactly when the counter is known in every
    one of these periods, and but for [tx_retries] a counter is known in all of them or in none. *)
Theorem totals_lack_no_period topic interval batch decode initialized inputs :
  let serve := λ T (t : StationTable T), @stats_serve topic interval batch decode initialized T t in
  let s := foldl (serve _ stations_dict) (PodStats_init ∅) inputs in
  let h := foldl (serve _ all_periods) (PodStats_init ∅) inputs in
  s = shown interval h ∧
  ∀ mac l, stations h !! mac = Some l →
    let e := counter_epoch interval l in
    (∃ st, stations s !! mac = Some st ∧ st_counters st = totals e ∧ st_periods st = len e)
    ∧ e ≠ [] ∧ (∃ before, l = e ++ before) ∧ chained (follows interval) e
    ∧ ∀ i, (i < length COUNTERS)%nat →
        (is_Some (total e i) ↔ ∀ p, p ∈ e → knows p i)
        ∧ (measurable i → (∀ p, p ∈ e → knows p i) ∨ (∀ p, p ∈ e → ¬ knows p i)).
Proof.
  intros serve s h. destruct (stats_run_sim topic interval batch decode initialized (PodStats_init ∅) inputs) as [Hs Hok].
  { by intros mac l. }
  assert (E : s = shown interval h) by exact Hs. split; [exact E|]. intros mac l Hl e. destruct (Hok mac l Hl) as (Hne & Hf & Hk).
  destruct l as [|q l]; [done|]. destruct (counter_epoch_cons interval q l) as (e' & Ee & _). split_and!.
  - exists (mkStationStats (p_mac q) (p_ssid q) (p_band q) (p_channel q) (p_end q) (len e)
      (p_end (List.last e q) - first_length interval (List.last e q)) (p_tx_rate q) (p_rx_rate q) (p_snr q) (totals e)).
    split; [|done]. rewrite E. unfold shown. cbn [stations]. rewrite lookup_omap, Hl. change (Some (q :: l) ≫= summary interval) with (summary interval (q :: l)). unfold summary, e. by rewrite Ee.
  - unfold e. by rewrite Ee.
  - apply counter_epoch_prefix.
  - apply counter_epoch_chained.
  - intros i Hi. split; [apply total_known|]. intros Hm. apply epoch_uniform; [|done|done].
    eapply Forall_impl; [exact Hf|]. by intros p [].
Qed.

(** The cache of probe requests is bounded, in any run, with at most one sample per station. *)
Theorem probes_bounded topic interval batch decode initialized inputs :
  let s := foldl (stats_serve topic interval batch decode initialized) (PodStats_init (T:=gmap string StationStats) ∅) inputs in
  NoDup (probes s).*1 ∧ (length (probes s) ≤ MAX_PROBED)%nat.
Proof. apply stats_run_probes. split; [constructor|cbn; lia]. Qed.

(** Two periods of a station are summed; a third, after a missed one, starts anew. *)
Definition sex_client (n : Z) : Client :=
  mkClient "02:00:00:00:00:AA" "net" true
    (Some (mkClientStats (λ c, if bool_decide (c = "tx_bytes") then Some n else None) None None (Some 40))) 0 0 None.
Definition sex_decode (payload : bytes) : result Report :=
  match payload with
  | b :: _ => let n := byte_to_Z b in Ok (mkReport [mkClientReport 0 (Some (seconds (10 * n))) 6 [sex_client n]] [] [])
  | [] => invalid "DecodeError"
  end.
Definition sex_run (l : list Z) : gmap string StationStats :=
  stations (foldl (stats_serve "t" 10 QM_BATCH sex_decode (λ _, true)) (PodStats_init ∅) ((λ n, SReceive "t" (octets [n]) false 0) <$> l)).
Example periods_summed :
  (st_periods <$> sex_run [1; 2] !! "02:00:00:00:00:aa") = Some 2 ∧
  (head ∘ st_counters <$> sex_run [1; 2] !! "02:00:00:00:00:aa") = Some (Some (Some 3)) ∧
  (head ∘ st_counters <$> sex_run [1; 2; 4] !! "02:00:00:00:00:aa") = Some (Some (Some 4)).
Proof. vm_compute. done. Qed.
