(* ===== verification/PodMetrics.v ===== *)
(** * AP metrics from the pod's statistics: [src/emosa/wire/pod_metrics.py]

    What [PodMetricReporter] answers from the cache of [Stats]. The cache as it is at a call ([StatsView]), the wall
    clock, the admission and the policy are outside; the source, the clock and the link are the [World] of
    [Session]. Times are in milliseconds. *)

From S2P Require Import Prelude Bytes Cmdu Reassembly Payloads TopologyValues Reports Channel ReportSource Session.
From S2P Require Import LinkMetrics Disassociation ReportingPolicy Unassociated Stats ApMetrics.

(** Errors that are not an [EmosaError]. *)
Definition attribute_error : EmosaError := mkEmosaError NOT_FOUND "AttributeError".
Definition struct_error : EmosaError := mkEmosaError NOT_FOUND "struct.error".

(** [round(n / d)]: to the nearest, the even one of two *)
Definition round_half_even (n d : Z) : Z :=
  let q := n / d in
  let r := n mod d in
  if bool_decide (2 * r < d) then q
  else if bool_decide (d < 2 * r) then q + 1
  else if Z.even q then q else q + 1.

(** [utilization(busy_percent)] *)
Definition busy_utilization (busy : Z) : Z := Z.max 0 (Z.min 255 (round_half_even (busy * 255) 100)).

(** [bss_channels(topology)] *)
Definition bss_channels (t : TopologyFacts) : gmap bytes Z :=
  list_to_map (reverse (omap (λ i,
    if bool_decide (0x0100 ≤ media_type i ≤ 0x01FF) && bool_decide (10 ≤ length (media_specific i))%nat
    then Some (li_mac i, octet_at 8 (media_specific i)) else None) (device_interfaces (device t)))).

(** [{b.bssid: ... for b in topology.clients.bsses}] *)
Definition clients_of (t : TopologyFacts) : gmap bytes (list bytes) :=
  list_to_map (reverse ((λ b, (bc_bssid b, c_mac <$> clients b)) <$> tf_clients t)).

(** The statistics cache at a call. *)
Record StatsView := mkStatsView { v_surveys : gmap Z SurveyStats; v_stations : gmap string StationStats }.

(** [getattr(station, name)] *)
Definition station_counter (st : StationStats) (name : string) : option Z :=
  '(i, _) ← list_find (λ n, n = name) COUNTERS; mjoin (st_counters st !! i).

(** The seven counters, when all are known. *)
Definition known_counters (st : StationStats) : option TrafficCounters :=
  match station_counter st "tx_bytes", station_counter st "rx_bytes", station_counter st "tx_frames", station_counter st "rx_frames",
        station_counter st "tx_errors", station_counter st "rx_errors", station_counter st "tx_retries" with
  | Some tb, Some rb, Some tf, Some rf, Some te, Some re, Some tr => Some (mkTrafficCounters tb rb tf rf te re tr)
  | _, _, _, _, _, _, _ => None
  end.

(** [int(rate or 0)] *)
Definition whole_rate (rate : option (Z * positive)) : Z :=
  match rate with Some (num, den) => Z.quot num (Zpos den) | None => 0 end.

(** The Associated STA Link Metrics TLV of a station. *)
Definition link_tlv (st : StationStats) (snr : Z) (mac bssid : bytes) (now : Z) : result Tlv :=
  let age_ms := Z.max 0 (now - st_measured_at st) in
  let values := [age_ms; whole_rate (tx_rate_mbps st); whole_rate (rx_rate_mbps st)] in
  if forallb (λ v, bool_decide (0 ≤ v < 2 ^ 32)) values then
    Ok (mkTlv 0x96 (mac ++ octets [1] ++ bssid ++ concat (be_bytes 4 <$> values) ++ be_bytes 1 (rcpi snr)))
  else Raise struct_error.

Record PodReporter := mkPodReporter { pm_io : Io; pm_counts : gmap string Z; pm_closed : bool; pm_mids : Z }.
#[export] Instance eta_PodReporter : Eta PodReporter := λ s, mkPodReporter (pm_io s) (pm_counts s) (pm_closed s) (pm_mids s).
#[export] Instance PodReporter_io : HasIo PodReporter := {| io_of := pm_io; with_io i s := s <| pm_io := i |> |}.

(** [time.time()] at the [n]th asking; [admitted] is what [self.admitted()] answers. *)
Section Reporter.
Context `{World} (binding : PeerBinding) (wall : nat → Z) (admitted : nat → bool) (esp_be : bytes) (freshness : Z).

(** One station of [_radio_tlvs]. *)
Definition pod_station (view : StatsView) (selected : option MetricRadio) (bssid : bytes) (now : Z) (mac : bytes) : result (list Tlv) :=
  match v_stations view !! hex_colon mac with
  | None => Ok []
  | Some st =>
      if bool_decide (freshness < now - st_measured_at st) then Ok []
      else
        t ← (if flag_of include_traffic selected then
               match known_counters st with
               | Some c => c ← TrafficCounters_init c; t ← counters_tlv c mac 1 0; Ok [t]
               | None => Ok []
               end
             else Ok []);
        l ← (if flag_of include_link selected then
               match st_snr_db st with
               | Some snr => t ← link_tlv st snr mac bssid now; Ok [t]
               | None => Ok []
               end
             else Ok []);
        Ok (t ++ l)
  end.

(** One BSS of [_radio_tlvs]. *)
Definition pod_bss (view : StatsView) (selected : option MetricRadio) (util : Z) (macs : gmap bytes (list bytes)) (now : Z) (bss : OperationalBss) :
    result (list Tlv) :=
  let bssid := ap_mac bss in
  let stations := default [] (macs !! bssid) in
  t ← ap_tlv (mkAPMetrics bssid util (len stations) [("BE", esp_be)]);
  ts ← map_result (pod_station view selected bssid now) stations;
  Ok (t :: concat ts).

(** [bssids is not None and bssid not in bssids] *)
Definition queried_bss (bssids : option (list bytes)) (bss : OperationalBss) : bool :=
  match bssids with Some l => bool_decide (ap_mac bss ∈ l) | None => true end.

(** [_radio_tlvs(radio, util, clients, policy, bssids, now)] *)
Definition pod_radio (view : StatsView) (policy : ReceivedPolicy) (bssids : option (list bytes)) (macs : gmap bytes (list bytes)) (now : Z)
    (surveyed : OperationalRadio * Z) : result (list Tlv) :=
  let '(radio, util) := surveyed in
  let selected := selected_radio policy (or_ruid radio) in
  ts ← map_result (pod_bss view selected util macs now) (filter (λ b, queried_bss bssids b = true) (or_bsses radio));
  Ok (concat ts).

(** A radio with its utilization, when the survey of its channel is fresh. *)
Definition surveyed_radio (view : StatsView) (channels : gmap bytes Z) (now : Z) (radio : OperationalRadio) : option (OperationalRadio * Z) :=
  channel ← head (omap (λ b, channels !! ap_mac b) (or_bsses radio));
  survey ← v_surveys view !! channel;
  if bool_decide (now - ss_measured_at survey ≤ freshness) then Some (radio, busy_utilization (busy_percent survey)) else None.

(** [tlvs(policy, bssids)] on a snapshot, at wall time [now] *)
Definition snapshot_tlvs (view : StatsView) (a : ReportSnapshot) (now : Z) (policy : ReceivedPolicy) (bssids : option (list bytes)) :
    result (list Tlv) :=
  let surveyed := omap (surveyed_radio view (bss_channels (topology a)) now) (operational (topology a)) in
  _ ← raise_if (bool_decide (surveyed = [])) NOT_READY "no fresh channel survey from the pod";
  tss ← map_result (pod_radio view policy bssids (clients_of (topology a)) now) surveyed;
  let result := concat tss in
  _ ← raise_if (bool_decide (result = [])) NOT_READY "no queried BSS of the pod";
  Ok result.

(** The check of [__init__]. *)
Definition PodReporter_init (mids : Z) (io : Io) : result PodReporter :=
  _ ← raise_if (negb (bool_decide (length esp_be = 3%nat))) INVALID_INPUT "declared best-effort ESP must be three octets";
  Ok (mkPodReporter io ∅ false mids).

(** [record(event)] *)
Definition pm_record (event : string) : M PodReporter string :=
  _ ← modify (λ s, s <| pm_counts := count event (pm_counts s) |>); mret event.

(** Something asked of the outside: an answer that depends on when. *)
Definition asking {A} (f : nat → A) : M Io A := λ io, (Ok (f (asked io)), io <| asked := S (asked io) |>).

(** [stamp()] *)
Definition pm_stamp : M PodReporter (option ReportStamp) :=
  s ← get;
  if pm_closed s then mret None
  else
    ok ← on_io (asking admitted);
    if ok : bool then a ← on_io poll; mret (s_stamp <$> a) else mret None.

(** [tlvs(policy, bssids)] *)
Definition pm_tlvs (view : StatsView) (policy : ReceivedPolicy) (bssids : option (list bytes)) : M PodReporter (list Tlv) :=
  a ← on_io poll;
  match a with
  | None => lift (unavailable "the pod's state is not available")
  | Some a => now ← on_io (asking wall); lift (snapshot_tlvs view a now policy bssids)
  end.

(** [send(mid, deadline, policy, bssids)] *)
Definition pm_send (view : StatsView) (mid deadline : Z) (policy : ReceivedPolicy) (bssids : option (list bytes)) : M PodReporter unit :=
  st ← pm_stamp;
  match st with
  | None => lift (unavailable "the agent is not admitted or its state is unavailable")
  | Some _ =>
      current ← on_io poll;
      tlvs ← pm_tlvs view policy bssids;
      match current with
      | None => lift (Raise attribute_error)
      | Some a =>
          fs ← lift (fragment_message (controller_al binding) (local_al binding) 0x800C mid tlvs false MAX_CMDU);
          _ ← send (λ f, on_io (send_frame f)) pm_stamp (on_io clock)
                (mkPreparedReport 0x800C mid (s_stamp a) (Z.min deadline (valid_until (s_stamp a))) fs);
          mret tt
      end
  end.

(** The BSSIDs of the query. *)
Definition pm_query (message : Message) : result (list bytes) :=
  match tlv_value <$> filter (λ t, Cmdu.kind t = 0x93) (m_tlvs message) with
  | [q] =>
      _ ← raise_if (bool_decide (length q < 1)%nat || negb (bool_decide (len q = 1 + 6 * octet_at 0 q))) INVALID_INPUT
            "one AP Metric Query TLV required";
      Ok ((λ i, slice (1 + 6 * i) (7 + 6 * i) q) <$> seq 0 (Z.to_nat (octet_at 0 q)))
  | _ => invalid "one AP Metric Query TLV required"
  end.

(** [handle(message, received_at, ingress=ingress, generation=generation)]; [policy] is [self.policy()] *)
Definition pm_handle (view : StatsView) (policy : ReceivedPolicy) (message : Message) (received_at : Z) (ing : string) (gen : Z) :
    M PodReporter (option string) :=
  if negb (bool_decide (m_message_type message = 0x800B)) then mret None
  else
    _ ← lift (binding_check binding (m_destination message) (m_source message) ing gen);
    _ ← lift (raise_if (m_relay message || existsb (λ t, bool_decide (Cmdu.kind t ∈ SECURITY_ENVELOPES)) (m_tlvs message))
                INVALID_INPUT "invalid AP metric query envelope");
    now ← on_io clock;
    _ ← lift (raise_if (negb (bool_decide (received_at ≤ now < received_at + seconds 1))) NOT_READY
                "AP metric response deadline expired");
    bssids ← lift (pm_query message);
    try_else (pm_send view (m_mid message) (received_at + seconds 1) policy (Some bssids))
      (λ _, Some <$> pm_record "ap_metric_query_answered")
      (λ e, if bool_decide (code e = NOT_READY) then Some <$> pm_record "ap_measurements_unavailable" else lift (Raise e)).

(** [periodic(policy, due)] *)
Definition pm_periodic (view : StatsView) (policy : ReceivedPolicy) (due : Z) : M PodReporter unit :=
  s ← get;
  let mid := next_mid (pm_mids s) in
  _ ← put (s <| pm_mids := mid |>);
  now ← on_io clock;
  _ ← pm_send view mid (Z.max due now + seconds 1) policy None;
  _ ← pm_record "periodic_ap_metric_report_transmitted";
  mret tt.

(** [close()] *)
Definition pm_close (s : PodReporter) : PodReporter := s <| pm_closed := true |>.

End Reporter.

(** * Theory *)

Lemma map_result_elem {A B} (f : A → result (list B)) l ys y :
  map_result f l = Ok ys → y ∈ concat ys ↔ ∃ x zs, x ∈ l ∧ f x = Ok zs ∧ y ∈ zs.
Proof.
  intros Hf%map_result_Ok. induction Hf as [|x zs l yss Hx Hf IH]; cbn.
  - split; [by intros ?%elem_of_nil|]. by intros (x & zs & ?%elem_of_nil & _).
  - rewrite elem_of_app, IH. split.
    + intros [Hy|(x' & zs' & ? & ? & ?)]; [exists x, zs|exists x', zs']; split_and!; try done; [by left|by right].
    + intros (x' & zs' & [->|Hin]%elem_of_cons & Hx' & Hy); [left; congruence|right; eauto].
Qed.

Lemma map_result_Ok_elem {A B} (f : A → result B) l ys x : map_result f l = Ok ys → x ∈ l → ∃ y, f x = Ok y.
Proof.
  intros Hf%map_result_Ok Hx. apply list_elem_of_lookup in Hx as [i Hi]. destruct (Forall2_lookup_l _ _ _ _ _ Hf Hi) as (y & _ & Hy). by exists y.
Qed.

Section Measured.
Context `{World} (binding : PeerBinding) (wall : nat → Z) (admitted : nat → bool) (esp_be : bytes) (freshness : Z).

(** The survey of the channel of a radio is fresh. *)
Definition fresh_survey (view : StatsView) (t : TopologyFacts) (now : Z) (radio : OperationalRadio) (sv : SurveyStats) : Prop :=
  ∃ channel, head (omap (λ b, bss_channels t !! ap_mac b) (or_bsses radio)) = Some channel ∧ v_surveys view !! channel = Some sv
    ∧ now - ss_measured_at sv ≤ freshness.

(** What a response says of a BSS and its stations: nothing that was not measured. *)
Definition measured_tlv (view : StatsView) (t : TopologyFacts) (now : Z) (policy : ReceivedPolicy) (bssids : option (list bytes)) (x : Tlv) : Prop :=
  ∃ radio bss sv, radio ∈ operational t ∧ bss ∈ or_bsses radio ∧ queried_bss bssids bss = true ∧ fresh_survey view t now radio sv ∧
    let macs := default [] (clients_of t !! ap_mac bss) in
    let selected := selected_radio policy (or_ruid radio) in
    (ap_tlv (mkAPMetrics (ap_mac bss) (busy_utilization (busy_percent sv)) (len macs) [("BE", esp_be)]) = Ok x ∨
     ∃ mac st, mac ∈ macs ∧ v_stations view !! hex_colon mac = Some st ∧ now - st_measured_at st ≤ freshness ∧
       ((flag_of include_traffic selected = true ∧ ∃ c, known_counters st = Some c ∧ counters_tlv c mac 1 0 = Ok x) ∨
        (flag_of include_link selected = true ∧ ∃ snr, st_snr_db st = Some snr ∧ link_tlv st snr mac (ap_mac bss) now = Ok x))).

Lemma pod_station_elem view selected bssid now mac zs x :
  pod_station freshness view selected bssid now mac = Ok zs →
  x ∈ zs ↔ ∃ st, v_stations view !! hex_colon mac = Some st ∧ now - st_measured_at st ≤ freshness ∧
    ((flag_of include_traffic selected = true ∧ ∃ c, known_counters st = Some c ∧ counters_tlv c mac 1 0 = Ok x) ∨
     (flag_of include_link selected = true ∧ ∃ snr, st_snr_db st = Some snr ∧ link_tlv st snr mac bssid now = Ok x)).
Proof.
  unfold pod_station. destruct (v_stations view !! hex_colon mac) as [st|]; [|intros [= <-]; split; [by intros ?%elem_of_nil|naive_solver]].
  case_bool_decide as Hf; [intros [= <-]; split; [by intros ?%elem_of_nil|intros (? & [= <-] & ? & _); lia]|].
  intros (t & Ht & (l & Hl & [= <-])%result_bind_Ok)%result_bind_Ok. rewrite elem_of_app.
  assert (Et : x ∈ t ↔ flag_of include_traffic selected = true ∧ ∃ c, known_counters st = Some c ∧ counters_tlv c mac 1 0 = Ok x).
  { destruct (flag_of include_traffic selected); [|injection Ht as <-; split; [by intros ?%elem_of_nil|naive_solver]].
    destruct (known_counters st) as [c|]; [|injection Ht as <-; split; [by intros ?%elem_of_nil|naive_solver]].
    apply result_bind_Ok in Ht as (c' & (_ & [= <-])%raise_if_bind_Ok & (y & Hy & [= <-])%result_bind_Ok).
    rewrite list_elem_of_singleton. split; [intros ->; split; [done|by exists c]|]. intros (_ & ? & [= <-] & ?). congruence. }
  assert (El : x ∈ l ↔ flag_of include_link selected = true ∧ ∃ snr, st_snr_db st = Some snr ∧ link_tlv st snr mac bssid now = Ok x).
  { destruct (flag_of include_link selected); [|injection Hl as <-; split; [by intros ?%elem_of_nil|naive_solver]].
    destruct (st_snr_db st) as [snr|]; [|injection Hl as <-; split; [by intros ?%elem_of_nil|naive_solver]].
    apply result_bind_Ok in Hl as (y & Hy & [= <-]).
    rewrite list_elem_of_singleton. split; [intros ->; split; [done|by exists snr]|]. intros (_ & ? & [= <-] & ?). congruence. }
  rewrite Et, El. split; [intros Hx; exists st; split_and!; [done|lia|done]|by intros (? & [= <-] & _ & Hx)].
Qed.

Lemma pod_bss_elem view selected util macs now bss zs x :
  pod_bss esp_be freshness view selected util macs now bss = Ok zs →
  x ∈ zs ↔ ap_tlv (mkAPMetrics (ap_mac bss) util (len (default [] (macs !! ap_mac bss))) [("BE", esp_be)]) = Ok x ∨
    ∃ mac ys, mac ∈ default [] (macs !! ap_mac bss) ∧ pod_station freshness view selected (ap_mac bss) now mac = Ok ys ∧ x ∈ ys.
Proof.
  unfold pod_bss. intros (t & Ht & (ts & Hts & [= <-])%result_bind_Ok)%result_bind_Ok.
  rewrite elem_of_cons, (map_result_elem _ _ _ x Hts), Ht. split; (intros [Hx|Hx]; [left; congruence|by right]).
Qed.

(** The TLVs of a response are exactly what was measured. *)
Lemma snapshot_tlvs_measured view a now policy bssids ts :
  snapshot_tlvs esp_be freshness view a now policy bssids = Ok ts →
  ts ≠ [] ∧ ∀ x, x ∈ ts ↔ measured_tlv view (topology a) now policy bssids x.
Proof.
  unfold snapshot_tlvs. intros (_ & (tss & Hts & (Hne & [= <-])%raise_if_bind_Ok)%result_bind_Ok)%raise_if_bind_Ok. bools.
  split; [done|]. intros x. rewrite (map_result_elem _ _ _ x Hts). split.
  - intros ([radio util] & zs & Hr & Hz & Hx). apply list_elem_of_omap in Hr as (radio' & Hin & Hs).
    unfold surveyed_radio in Hs. apply bind_Some in Hs as (channel & Hch & (sv & Hsv & Hs)%bind_Some).
    case_bool_decide; [|done]. injection Hs as <- <-. cbn in Hz. apply result_bind_Ok in Hz as (yss & Hy & [= <-]).
    apply (map_result_elem _ _ _ x Hy) in Hx as (bss & ys & Hb & Hbs & Hx). apply list_elem_of_filter in Hb as [Hq Hb].
    exists radio', bss, sv. split_and!; try done; [by exists channel|]. apply (pod_bss_elem _ _ _ _ _ _ _ x Hbs) in Hx as [?|Hx]; [by left|right].
    destruct Hx as (mac & zs & Hm & Hz & Hx). apply (pod_station_elem _ _ _ _ _ _ x Hz) in Hx as (st & Hx). exists mac, st. by split.
  - intros (radio & bss & sv & Hr & Hb & Hq & (channel & Hch & Hsv & Hfr) & Hx). cbv zeta in Hx.
    assert (Hs : (radio, busy_utilization (busy_percent sv)) ∈ omap (surveyed_radio freshness view (bss_channels (topology a)) now) (operational (topology a))).
    { apply list_elem_of_omap. exists radio. split; [done|]. unfold surveyed_radio. rewrite Hch. cbn. rewrite Hsv. cbn.
      by rewrite bool_decide_eq_true_2. }
    destruct (map_result_Ok_elem _ _ _ _ Hts Hs) as (zs & Hz). exists (radio, busy_utilization (busy_percent sv)), zs. split; [done|]. split; [done|].
    cbn in Hz. apply result_bind_Ok in Hz as (yss & Hy & [= <-]). apply (map_result_elem _ _ _ x Hy).
    assert (Hbq : bss ∈ filter (λ b, queried_bss bssids b = true) (or_bsses radio)) by by apply list_elem_of_filter.
    destruct (map_result_Ok_elem _ _ _ _ Hy Hbq) as (ys & Hbs). exists bss, ys. split; [done|]. split; [done|].
    apply (pod_bss_elem _ _ _ _ _ _ _ x Hbs). destruct Hx as [?|(mac & st & Hm & Hst)]; [by left|right].
    unfold pod_bss in Hbs. apply result_bind_Ok in Hbs as (t & _ & (ts & Hms & _)%result_bind_Ok).
    destruct (map_result_Ok_elem _ _ _ _ Hms Hm) as (ms & Hps). exists mac, ms. split; [done|]. split; [done|].
    apply (pod_station_elem _ _ _ _ _ _ x Hps). by exists st.
Qed.
End Measured.

(** ** Transmission *)

Section Transmission.
Context `{World} (binding : PeerBinding) (wall : nat → Z) (admitted : nat → bool) (esp_be : bytes) (freshness : Z).

Definition pm_out (s : PodReporter) : list bytes := (sent (pm_io s)).*2.

(** [s'] is [s] later, with nothing sent between. *)
Definition waits (s s' : PodReporter) : Prop := (asked (pm_io s) ≤ asked (pm_io s'))%nat ∧ sent (pm_io s') = sent (pm_io s).
#[local] Instance waits_preorder : PreOrder waits.
Proof. split; [done|]. intros s1 s2 s3 [? ?] [? ?]. split; [lia|congruence]. Qed.

Lemma pm_stamp_run s : ∃ r s', pm_stamp admitted s = (Ok r, s') ∧ waits s s'.
Proof.
  unfold pm_stamp, mbind, M_mbind, get, on_io, asking, poll. cbn. destruct (pm_closed s); [by eexists _, _|].
  destruct (admitted _); (eexists _, _; split; [reflexivity|]; split; [cbn; lia|done]).
Qed.

(** The frames of a response of what was measured, from what the source showed after [n0]. *)
Definition measured_frames (n0 : nat) (view : StatsView) (mid : Z) (policy : ReceivedPolicy) (bssids : option (list bytes)) (fs : list bytes) : Prop :=
  ∃ n a now ts, (n0 ≤ n)%nat ∧ world_source n = Some a ∧ now = wall (S n) ∧ ts ≠ [] ∧
    (∀ x, x ∈ ts ↔ measured_tlv esp_be freshness view (topology a) now policy bssids x) ∧
    fragment_message (controller_al binding) (local_al binding) 0x800C mid ts false MAX_CMDU = Ok fs.

(** What a call put on the link: nothing, or frames of such a response, all of them when [whole]. *)
Definition puts (n0 : nat) (view : StatsView) (mid : Z) (policy : ReceivedPolicy) (bssids : option (list bytes)) (whole : bool) (s s' : PodReporter) : Prop :=
  ∃ new, pm_out s' = pm_out s ++ new ∧
    ((whole = false ∧ new = []) ∨
     ∃ fs, measured_frames n0 view mid policy bssids fs ∧ new `prefix_of` fs ∧ (whole = true → new = fs)).

Lemma waits_puts n0 view mid policy bssids s s' : waits s s' → puts n0 view mid policy bssids false s s'.
Proof. intros [_ Hs]. exists []. unfold pm_out. rewrite Hs, app_nil_r. split; [done|]. by left. Qed.

Lemma puts_after n0 n1 view mid policy bssids w s s1 s2 :
  (n0 ≤ n1)%nat → waits s s1 → puts n1 view mid policy bssids w s1 s2 → puts n0 view mid policy bssids w s s2.
Proof.
  intros Hn [_ Hs] (new & Ho & Hx). exists new. unfold pm_out in *. rewrite Ho, Hs. split; [done|].
  destruct Hx as [?|(fs & (n & a & now & ts & Hle & Hr) & Hp)]; [by left|right]. exists fs. split; [|done]. exists n, a, now, ts. split; [lia|done].
Qed.
Lemma puts_before n0 view mid policy bssids w s s1 s2 :
  puts n0 view mid policy bssids w s s1 → waits s1 s2 → puts n0 view mid policy bssids w s s2.
Proof. intros (new & Ho & Hx) [_ Hs]. exists new. unfold pm_out in *. by rewrite Hs. Qed.

Lemma pm_send_run view mid deadline policy bssids s :
  let '(r, s') := pm_send binding wall admitted esp_be freshness view mid deadline policy bssids s in
  puts (asked (pm_io s)) view mid policy bssids (is_ok r) s s'.
Proof.
  unfold pm_send. destruct (pm_stamp_run s) as (st & s1 & E1 & R1). unfold mbind at 1, M_mbind at 1. rewrite E1.
  destruct st as [st|]; [|by apply waits_puts]. unfold mbind at 1, M_mbind at 1, on_io at 1, poll at 1. cbn beta iota zeta.
  set (s2 := with_io _ s1). assert (R2 : waits s s2) by (etrans; [exact R1|]; split; [cbn; lia|done]).
  unfold pm_tlvs. unfold mbind at 1, M_mbind at 1. unfold mbind at 1, M_mbind at 1, on_io at 1, poll at 1. cbn beta iota zeta.
  set (s3 := with_io _ s2). assert (R3 : waits s s3) by (etrans; [exact R2|]; split; [cbn; lia|done]).
  change (asked (io_of s2)) with (asked (pm_io s2)). destruct (world_source (asked (pm_io s2))) as [a|] eqn:Ea; [|by apply waits_puts].
  unfold mbind at 1, M_mbind at 1, on_io at 1, asking. cbn beta iota zeta.
  set (s4 := with_io _ s3). assert (R4 : waits s s4) by (etrans; [exact R3|]; split; [cbn; lia|done]).
  unfold lift at 1. destruct (snapshot_tlvs _ _ _ _ _ _ _) as [ts|] eqn:Et; [|by apply waits_puts].
  destruct (world_source (asked (io_of s1))) as [b|]; [|by apply waits_puts].
  unfold mbind at 1, M_mbind at 1, lift. destruct (fragment_message _ _ _ _ _ _ _) as [fs|] eqn:Ef; [|by apply waits_puts].
  assert (Hf : measured_frames (asked (pm_io s)) view mid policy bssids fs).
  { apply snapshot_tlvs_measured in Et as [Hne Hx]. eexists (asked (pm_io s2)), a, _, ts. split; [apply R2|]. split; [done|].
    split; [reflexivity|]. by split_and!. }
  unfold mbind at 1, M_mbind at 1. set (report := mkPreparedReport _ _ _ _ fs).
  destruct (send_out pm_out (λ f, on_io (send_frame f)) (pm_stamp admitted) (on_io clock)) with (self := report) (s := s4) as (new & Hn & Hp & Hk).
  - intros f s5. unfold pm_out, on_io, send_frame. cbn. by rewrite fmap_app.
  - intros s5. destruct (pm_stamp_run s5) as (r & s6 & -> & _ & Hs). unfold pm_out. cbn. by rewrite Hs.
  - done.
  - assert (Hs : pm_out s4 = pm_out s) by (unfold pm_out; by destruct R4 as [_ ->]).
    destruct (send _ _ _ report s4) as [[k|e] s5]; cbn in Hn, Hk; exists new; (split; [rewrite <- Hs; exact Hn|]);
      right; exists fs; (split; [done|]); (split; [done|]); [|done]. intros _. by apply (Hk k).
Qed.

Lemma pm_handle_run view policy message at_ ing gen s :
  let '(r, s') := pm_handle binding wall admitted esp_be freshness view policy message at_ ing gen s in
  (r ≠ Ok (Some "ap_metric_query_answered") ∧ waits s s') ∨
  ∃ bssids, pm_query message = Ok bssids ∧
    puts (asked (pm_io s)) view (m_mid message) policy (Some bssids) (bool_decide (r = Ok (Some "ap_metric_query_answered"))) s s'.
Proof.
  unfold pm_handle. destruct (negb _); [by left|].
  unfold mbind at 1, M_mbind at 1, lift at 1. destruct (binding_check _ _ _ _ _); [|by left].
  unfold mbind at 1, M_mbind at 1, lift at 1. destruct (raise_if _ INVALID_INPUT _); [|by left].
  unfold mbind at 1, M_mbind at 1. unfold on_io at 1, clock. cbn beta iota zeta.
  set (s1 := with_io _ s). assert (R1 : waits s s1) by (split; [cbn; lia|done]).
  unfold mbind at 1, M_mbind at 1, lift at 1. destruct (raise_if _ NOT_READY _); [|by left].
  unfold mbind at 1, M_mbind at 1, lift at 1. destruct (pm_query message) as [bssids|]; [|by left].
  unfold try_else.
  pose proof (pm_send_run view (m_mid message) (at_ + seconds 1) policy (Some bssids) s1) as Hs.
  destruct (pm_send _ _ _ _ _ _ _ _ _ _ s1) as [[u|e] s2]; [|destruct (bool_decide (code e = NOT_READY))];
    right; exists bssids; (split; [done|]).
  - eapply puts_before; [eapply puts_after; [|exact R1|exact Hs]; apply R1|done].
  - eapply puts_before; [eapply puts_after; [|exact R1|exact Hs]; apply R1|done].
  - eapply puts_before; [eapply puts_after; [|exact R1|exact Hs]; apply R1|done].
Qed.

Lemma pm_periodic_run view policy due s :
  let '(r, s') := pm_periodic binding wall admitted esp_be freshness view policy due s in
  puts (asked (pm_io s)) view (next_mid (pm_mids s)) policy None (is_ok r) s s'.
Proof.
  unfold pm_periodic. unfold mbind at 1, M_mbind at 1, get. cbv zeta. unfold mbind at 1, M_mbind at 1, put.
  unfold mbind at 1, M_mbind at 1. unfold on_io at 1, clock. cbn beta iota zeta.
  set (s1 := with_io _ _). assert (R1 : waits s s1) by (split; [cbn; lia|done]).
  unfold mbind at 1, M_mbind at 1.
  pose proof (pm_send_run view (next_mid (pm_mids s)) (Z.max due (world_clock (asked (io_of (s <| pm_mids := next_mid (pm_mids s) |>)))) + seconds 1) policy None s1) as Hs.
  destruct (pm_send _ _ _ _ _ _ _ _ _ _ s1) as [[u|e] s2].
  - eapply puts_before; [eapply puts_after; [|exact R1|exact Hs]; apply R1|done].
  - eapply puts_after; [|exact R1|exact Hs]. apply R1.
Qed.
End Transmission.

(** * Properties *)

(** The metrics answered were measured. The frames that a query puts on the link are, in order, those of
    one response, all of them when the query is answered; its TLVs are exactly these, of a topology the
    source showed during the call: for every queried BSS of a radio whose channel has a fresh survey, its
    AP metrics with the measured utilization and its number of stations; for every station of such a BSS
    with a fresh report, its traffic when the policy asks for it and every counter is known, and its link
    when the policy asks for it and the signal is known. Without any such BSS nothing is sent. *)
Theorem pod_metrics_measured {W : World} binding wall admitted esp_be freshness view policy message at_ ing gen s r s' :
  pm_handle binding wall admitted esp_be freshness view policy message at_ ing gen s = (r, s') →
  ∃ new, pm_out s' = pm_out s ++ new ∧
    ((r ≠ Ok (Some "ap_metric_query_answered") ∧ new = []) ∨
     ∃ bssids n a ts fs, pm_query message = Ok bssids ∧ (asked (pm_io s) ≤ n)%nat ∧ world_source n = Some a ∧ ts ≠ []
       ∧ (∀ x, x ∈ ts ↔ measured_tlv esp_be freshness view (topology a) (wall (S n)) policy (Some bssids) x)
       ∧ fragment_message (controller_al binding) (local_al binding) 0x800C (m_mid message) ts false MAX_CMDU = Ok fs
       ∧ new `prefix_of` fs ∧ (r = Ok (Some "ap_metric_query_answered") → new = fs)).
Proof.
  intros Hh. pose proof (pm_handle_run binding wall admitted esp_be freshness view policy message at_ ing gen s) as Hr. rewrite Hh in Hr.
  destruct Hr as [[Hr [_ Hw]]|(bssids & Hq & new & Ho & [[Hb ->]|(fs & (n & a & now & ts & Hn & Ha & -> & Hne & Hx & Hf) & Hp & Hw)])].
  - exists []. unfold pm_out. rewrite Hw, app_nil_r. split; [done|]. by left.
  - exists []. split; [done|]. left. by bools.
  - exists new. split; [done|]. right. exists bssids, n, a, ts, fs. split_and!; try done.
    intros E. apply Hw. by apply bool_decide_eq_true.
Qed.

(** A pod on channel 6 with one station, surveyed and measured. *)
Definition pex_view : StatsView :=
  mkStatsView {[6 := mkSurveyStats "2.4G" 6 10 None 400]}
    {["02:00:00:00:00:07" := mkStationStats "02:00:00:00:00:07" "hi" "2.4G" 6 450 1 0 (Some (54, 1%positive)) None (Some 40)
        [Some 1; Some 2; Some 3; Some 4; Some 7; None; Some 5; Some 6]]}.
Definition pex_query : Message :=
  mkMessage (octets [2; 0; 0; 0; 0; 9]) (octets [2; 0; 0; 0; 0; 8]) 0x800B 77 false [mkTlv 0x93 (octets [1] ++ example_bss)] 1.

Lemma pod_metrics_measured_witness :
  let s := mkPodReporter (mkIo 0 []) ∅ false 6 in
  let run := @pm_handle aex_world example_binding (λ _, 500) (λ _, true) (octets [1; 2; 3]) (seconds 60) pex_view aex_policy pex_query 500 "eth0" 1 s in
  run.1 = Ok (Some "ap_metric_query_answered") ∧
  ∃ ts, (∀ x, x ∈ ts ↔ measured_tlv (octets [1; 2; 3]) (seconds 60) pex_view example_facts 500 aex_policy (Some [example_bss]) x) ∧
    fragment_message (controller_al example_binding) (local_al example_binding) 0x800C 77 ts false MAX_CMDU = Ok (pm_out run.2).
Proof.
  intros s run. assert (E : run.1 = Ok (Some "ap_metric_query_answered")) by (vm_compute; reflexivity).
  split; [exact E|].
  destruct (@pod_metrics_measured aex_world example_binding (λ _, 500) (λ _, true) (octets [1; 2; 3]) (seconds 60) pex_view aex_policy pex_query
    500 "eth0" 1 s run.1 run.2 (surjective_pairing run)) as (new & Ho & [[Hn _]|(bssids & n & a & ts & fs & Hq & _ & Ha & _ & Hx & Hf & _ & Hw)]);
    [destruct (Hn E)|].
  exists ts. injection Ha as <-. assert (Eq : bssids = [example_bss]) by (vm_compute in Hq; injection Hq as <-; reflexivity). subst bssids.
  split; [exact Hx|]. rewrite Ho, (Hw E). exact Hf.
Defined.

(** The response of the example: its utilization, 10% of 255 rounded, and a station's traffic and link. *)
Example pex_response :
  let run := @pm_handle aex_world example_binding (λ _, 500) (λ _, true) (octets [1; 2; 3]) (seconds 60) pex_view aex_policy pex_query 500 "eth0" 1
    (mkPodReporter (mkIo 0 []) ∅ false 6) in
  busy_utilization 10 = 26 ∧ length (pm_out run.2) = 1%nat.
Proof. vm_compute. done. Qed.
