(* ===== verification/Gtp.v ===== *)
(** * The GRE termination point: [src/emosa/gtp.py]

    One gretap per leased pod, through the lease events of dnsmasq and their reconciliation. An IPv4
    address is its 32-bit number, an address text that is none raises before anything happens. The host's links
    are iproute2's: an interface with its laws ([Links]); dnsmasq's lease file and environment are
    arguments, and so is the monotonic clock. A [ConfigError] is an [INVALID_INPUT]; times are in
    milliseconds, lease lengths in seconds. *)

From stdpp Require Import pretty sorting.
From S2P Require Import Prelude Bytes Cmdu Session TopologyBindings.
#[local] Open Scope Z_scope.

Definition GRETAP_OVERHEAD : Z := 38.
Definition EARLY_MARGIN : Z := 60.

Definition config_error {A} (m : string) : result A := Raise (mkEmosaError INVALID_INPUT m).

(** [lease_time]: a number with its unit, or [infinite] *)
Inductive LeaseTime := Infinite | Lasting (number unit : Z).
Record GtpConfig := mkGtpConfig {
  u_address : Z;                                      (* the address of [underlay.address] and its prefix *)
  u_prefix : Z;
  u_first : Z;                                        (* [underlay.dhcp_range] *)
  u_last : Z;
  u_mtu : Z;
  tunnel_mtu : Z;
  lease_time : LeaseTime;
  lan_bridge : string
}.

(** The network of an address with a prefix, and [address in network]. *)
Definition network (address prefix : Z) : Z := Z.shiftl (Z.shiftr address (32 - prefix)) (32 - prefix).
Definition in_network (c : GtpConfig) (ip : Z) : bool :=
  bool_decide (0 ≤ ip < 2 ^ 32) && bool_decide (Z.shiftr ip (32 - u_prefix c) = Z.shiftr (u_address c) (32 - u_prefix c)).
Definition LINK_LOCAL : Z := 0xA9FE0000.

(** [check(config)] *)
Definition gtp_check (c : GtpConfig) : result GtpConfig :=
  let net := network (u_address c) (u_prefix c) in
  _ ← raise_if (negb (bool_decide (16 ≤ u_prefix c) && bool_decide (Z.shiftr net 16 = Z.shiftr LINK_LOCAL 16))) INVALID_INPUT
        "the underlay must be link-local (169.254.0.0/16): OpenSync builds no GRE otherwise";
  _ ← raise_if (negb (bool_decide (u_address c = net + 1))) INVALID_INPUT
        "the GTP must be the first host (.1) of the underlay subnet: OpenSync's GRE remote";
  _ ← raise_if (negb (in_network c (u_first c) && in_network c (u_last c) && bool_decide (u_address c < u_first c ≤ u_last c))) INVALID_INPUT
        "the DHCP range must lie in the underlay subnet, above .1";
  _ ← raise_if (bool_decide (u_mtu c < tunnel_mtu c + GRETAP_OVERHEAD)) INVALID_INPUT
        "underlay MTU too small for the tunnel MTU plus 38 bytes of gretap";
  Ok c.

(** [tunnel_name(ip)] *)
Definition octet_of (ip : Z) (shift : Z) : Z := Z.land (Z.shiftr ip shift) 255.
Definition tunnel_name (ip : Z) : string :=
  "gtp" +:+ pretty (Z.to_N (octet_of ip 8)) +:+ "_" +:+ pretty (Z.to_N (octet_of ip 0)).

(** The text of an address, by which [sorted] orders addresses. *)
Definition dotted (ip : Z) : string :=
  String.concat "." ((λ shift, pretty (Z.to_N (octet_of ip shift))) <$> [24; 16; 8; 0]).

(** ** The host's links *)

(** A gretap: local, remote, and the device it is pinned to. *)
Record Gretap := mkGretap { g_local : Z; g_remote : Z; g_dev : option string }.
#[export] Instance Gretap_eq_dec : EqDecision Gretap.
Proof. solve_decision. Defined.

(** The commands of iproute2 that the code runs; [gretaps] is what [link show] lists. *)
Class Links (H : Type) := {
  gretaps : H → gmap string Gretap;
  link_del : string → M H unit;
  link_add : string → Z → Z → M H unit;               (* [type gretap local .. remote ..] *)
  link_mtu : string → Z → M H unit;
  link_master : string → string → M H unit
}.

(** A command that fails changes nothing; one that returns did what it says. *)
Class LinksLaws (H : Type) `{!Links H} : Prop := {
  del_law n h : gretaps (link_del n h).2 = if is_ok (link_del n h).1 then delete n (gretaps h) else gretaps h;
  add_law n l r h : gretaps (link_add n l r h).2 = if is_ok (link_add n l r h).1 then <[n := mkGretap l r None]> (gretaps h) else gretaps h;
  mtu_law n m h : gretaps (link_mtu n m h).2 = gretaps h;
  master_law n b h : gretaps (link_master n b h).2 = gretaps h
}.

(** ** Lease times *)

(** An entry of [lease-times.json]. *)
Record Lease := mkLease { l_mac : string; l_start : Z; l_length : option Z; l_early : option Z }.

(** The environment of the hook that [lease_length] reads; [wall] is [time.time()] in seconds. *)
Record HookEnv := mkHookEnv { env_length : option Z; env_expires : option Z; env_wall : Z }.

(** [lease_length(config, environ)] *)
Definition lease_length (c : GtpConfig) (e : HookEnv) : option Z :=
  match env_length e with
  | Some n => Some n
  | None =>
      match env_expires e with
      | Some x => if bool_decide (0 < x) then Some (Z.max 0 (x - env_wall e))
                  else match lease_time c with Infinite => None | Lasting n u => Some (n * u) end
      | None => match lease_time c with Infinite => None | Lasting n u => Some (n * u) end
      end
  end.

(** What the hook works on: the links, [LeaseTimes.leases], the file it is saved to, and the questions asked of the clock. *)
Record Gtp (H : Type) := mkGtp {
  g_links : H;
  g_leases : gmap Z Lease;
  g_saved : option (string * gmap Z Lease);           (* boot identifier, leases *)
  g_asked : nat
}.
Arguments mkGtp {H}.
Arguments g_links {H}.
Arguments g_leases {H}.
Arguments g_saved {H}.
Arguments g_asked {H}.
#[export] Instance eta_Gtp {H} : Eta (Gtp H) := λ s, mkGtp (g_links s) (g_leases s) (g_saved s) (g_asked s).

Section Gtp.
Context {H : Type} `{!Links H} (config : GtpConfig) (clock : nat → Z).
Implicit Types s : Gtp H.

Definition on_links {A} (m : M H A) : M (Gtp H) A := λ s, let '(r, h) := m (g_links s) in (r, s <| g_links := h |>).
Definition monotonic : M (Gtp H) Z := λ s, (Ok (clock (g_asked s)), s <| g_asked := S (g_asked s) |>).

(** [LeaseTimes.__init__] *)
Definition times_load (boot : string) : M (Gtp H) unit :=
  modify (λ s, s <| g_leases := match g_saved s with Some (b, l) => if bool_decide (b = boot) then l else ∅ | None => ∅ end |>).

(** [save()] *)
Definition times_save (boot : string) : M (Gtp H) unit := modify (λ s, s <| g_saved := Some (boot, g_leases s) |>).

(** [started(ip, mac, length)] *)
Definition times_started (ip : Z) (mac : string) (length : option Z) : M (Gtp H) unit :=
  now ← monotonic;
  modify (λ s, s <| g_leases := <[ip := mkLease mac now length None]> (g_leases s) |>).

(** The margin of a lease of a length. *)
Definition margin (length : Z) : Z := Z.min EARLY_MARGIN (length / 4).

(** [early(ip)] *)
Definition times_early (ip : Z) : M (Gtp H) (option Z) :=
  s ← get;
  match g_leases s !! ip with
  | Some (mkLease _ start (Some length) _) =>
      now ← monotonic;
      let left := seconds length - (now - start) in
      mret (if bool_decide (seconds (margin length) < left) then Some (Z.quot left 1000) else None)
  | _ => mret None
  end.

(** [keep(ip)]; the entry is there when it is called *)
Definition times_keep (ip : Z) : M (Gtp H) unit :=
  now ← monotonic;
  s ← get;
  match g_leases s !! ip with
  | Some l => put (s <| g_leases := <[ip := mkLease (l_mac l) (l_start l) (l_length l) (Some now)]> (g_leases s) |>)
  | None => lift (Raise (key_error "ip"))
  end.

(** The kept leases whose pods left; an infinite lease is never kept. *)
Definition lease_gone (now : Z) (l : Lease) : bool :=
  match l_early l, l_length l with
  | Some early, Some length => bool_decide (seconds length ≤ now - early)
  | _, _ => false
  end.

(** [gone()] *)
Definition times_gone : M (Gtp H) (list Z) :=
  now ← monotonic;
  s ← get;
  mret (sort_by dotted ((filter (λ kl, lease_gone now kl.2 = true) (map_to_list (g_leases s))).*1)).

(** [kept()] *)
Definition times_kept (s : Gtp H) : gset Z := dom (filter (λ kl, is_Some (l_early kl.2)) (g_leases s)).

(** [ensure(ip)] *)
Definition ensure (ip : Z) : M (Gtp H) string :=
  s ← get;
  let name := tunnel_name ip in
  let current := gretaps (g_links s) !! name in
  if bool_decide (current = Some (mkGretap (u_address config) ip None)) then mret name
  else
    _ ← (if bool_decide (is_Some current) then on_links (link_del name) else mret tt);
    _ ← on_links (link_add name (u_address config) ip);
    _ ← on_links (link_mtu name (tunnel_mtu config));
    _ ← on_links (link_master name (lan_bridge config));
    mret name.

(** [remove(ip)] *)
Definition remove (ip : Z) : M (Gtp H) unit :=
  s ← get;
  if bool_decide (is_Some (gretaps (g_links s) !! tunnel_name ip)) then on_links (link_del (tunnel_name ip)) else mret tt.

(** [self.times.leases.pop(ip, None)] *)
Definition forget (ip : Z) : M (Gtp H) unit := modify (λ s, s <| g_leases := delete ip (g_leases s) |>).

(** [sweep()] *)
Definition sweep (boot : string) : M (Gtp H) unit :=
  ips ← times_gone;
  _ ← for_each (λ ip, _ ← remove ip; forget ip) ips;
  times_save boot.

Inductive Action := Add | Old | Del.

(** [lease(action, mac, ip, environ)]; [mac] in lower case, [mac_ok] is [MAC.fullmatch(mac.lower())] *)
Definition lease (boot : string) (action : Action) (mac : string) (mac_ok : bool) (ip : Z) (e : HookEnv) : M (Gtp H) unit :=
  _ ← lift (raise_if (negb (in_network config ip) || negb mac_ok) INVALID_INPUT "lease outside the underlay");
  _ ← match action with
      | Add | Old => _ ← ensure ip; times_started ip mac (lease_length config e)
      | Del =>
          early ← times_early ip;
          match early with
          | Some _ => times_keep ip
          | None => _ ← remove ip; forget ip
          end
      end;
  sweep boot.

(** A line of dnsmasq's lease file: expiry (0: never), MAC, address. *)
Record LeaseLine := mkLeaseLine { ll_expiry : Z; ll_mac : string; ll_ip : Z }.

(** [leases()]; [wall] is the wall clock *)
Definition file_leases (wall : Z) (file : list LeaseLine) : gmap Z string :=
  foldl (λ m l, if bool_decide (ll_expiry l = 0) || bool_decide (wall < ll_expiry l) then <[ll_ip l := ll_mac l]> m else m) ∅ file.

(** [reconcile()] *)
Definition reconcile (boot : string) (wall : Z) (file : list LeaseLine) : M (Gtp H) unit :=
  _ ← sweep boot;
  s ← get;
  let wanted := dom (file_leases wall file) ∪ times_kept s in
  _ ← for_each (λ ng, if bool_decide (g_remote ng.2 ∈ wanted) then mret tt else on_links (link_del ng.1)) (map_to_list (gretaps (g_links s)));
  for_each (λ ip, _ ← ensure ip; mret tt) (sort_by dotted (elements wanted)).

(** [list()] *)
Definition list_tunnels (wall : Z) (file : list LeaseLine) (s : Gtp H) : gmap string (Z * option string) :=
  (λ g, (g_remote g, file_leases wall file !! g_remote g)) <$> gretaps (g_links s).

(** One run of the hook: its own process, which loads what the last one saved. *)
Inductive command :=
  | CLease (boot : string) (action : Action) (mac : string) (mac_ok : bool) (ip : Z) (e : HookEnv)
  | CReconcile (boot : string) (wall : Z) (file : list LeaseLine).
Definition run_command (c : command) : M (Gtp H) unit :=
  match c with
  | CLease boot action mac mac_ok ip e => _ ← times_load boot; lease boot action mac mac_ok ip e
  | CReconcile boot wall file => _ ← times_load boot; reconcile boot wall file
  end.

End Gtp.

(** * Theory *)

(** ** Names of tunnels *)

Fixpoint no_underscore (s : string) : bool :=
  match s with
  | EmptyString => true
  | String c s => negb (bool_decide (c = Ascii.ascii_of_nat 95)) && no_underscore s
  end.

Lemma split_underscore s1 s2 t1 t2 :
  no_underscore s1 = true → no_underscore s2 = true → s1 +:+ "_" +:+ t1 = s2 +:+ "_" +:+ t2 → s1 = s2 ∧ t1 = t2.
Proof.
  revert s2. induction s1 as [|c s1 IH]; intros [|c2 s2] H1 H2 E; cbn in *.
  - split; [done|]. by injection E.
  - exfalso. injection E as E _. bools. by destruct E.
  - exfalso. injection E as E _. bools. by rewrite E in *.
  - injection E as -> E. bools. destruct (IH s2) as [-> ->]; done.
Qed.

Lemma pretty_octet z : 0 ≤ z < 256 → no_underscore (pretty (Z.to_N z)) = true.
Proof.
  intros Hz. assert (Hall : forallb (λ n, no_underscore (pretty (N.of_nat n))) (seq 0 256) = true) by (vm_compute; reflexivity).
  rewrite forallb_forall in Hall. replace (Z.to_N z) with (N.of_nat (Z.to_nat z)) by lia. apply Hall, in_seq. lia.
Qed.

Lemma octet_of_range ip sh : 0 ≤ octet_of ip sh < 256.
Proof. unfold octet_of. change 255 with (Z.ones 8). rewrite Z.land_ones by lia. apply Z.mod_pos_bound. lia. Qed.

(** The two last octets of an address are in its tunnel's name. *)
Lemma tunnel_name_octets a b :
  tunnel_name a = tunnel_name b → octet_of a 8 = octet_of b 8 ∧ octet_of a 0 = octet_of b 0.
Proof.
  unfold tunnel_name. intros E. injection E as E.
  pose proof (octet_of_range a 8). pose proof (octet_of_range b 8). pose proof (octet_of_range a 0). pose proof (octet_of_range b 0).
  apply split_underscore in E as [E1 E2]; [|by apply pretty_octet..]. apply (inj pretty) in E1, E2. lia.
Qed.

Lemma low_octets ip : ip mod 65536 = 256 * octet_of ip 8 + octet_of ip 0.
Proof.
  unfold octet_of. change 255 with (Z.ones 8). rewrite !Z.land_ones, !Z.shiftr_div_pow2 by lia.
  change (2 ^ 0) with 1. rewrite Z.div_1_r. change (2 ^ 8) with 256. change 65536 with (256 * 256).
  rewrite Z.rem_mul_r by lia. lia.
Qed.

Section Names.
Context (config : GtpConfig) (Hprefix : 16 ≤ u_prefix config ≤ 32).

Lemma in_network_high ip : in_network config ip = true → ip / 65536 = u_address config / 65536.
Proof.
  unfold in_network. intros Hn. bools. set (k := 32 - u_prefix config) in *.
  assert (Hs : ∀ x, x / 65536 = Z.shiftr (Z.shiftr x k) (16 - k)).
  { intros x. rewrite Z.shiftr_shiftr by (unfold k; lia). replace (k + (16 - k)) with 16 by lia. by rewrite Z.shiftr_div_pow2 by lia. }
  rewrite !Hs. by f_equal.
Qed.

(** In a link-local underlay no two addresses share a tunnel name. *)
Lemma tunnel_name_inj a b : in_network config a = true → in_network config b = true → tunnel_name a = tunnel_name b → a = b.
Proof.
  intros Ha%in_network_high Hb%in_network_high [E1 E2]%tunnel_name_octets.
  rewrite (Z.div_mod a 65536), (Z.div_mod b 65536), !low_octets by lia. congruence.
Qed.
End Names.

Lemma gtp_check_prefix c c' : gtp_check c = Ok c' → 16 ≤ u_prefix c.
Proof. unfold gtp_check. cbv zeta. intros (Hc & _)%raise_if_bind_Ok. by bools. Qed.

(** ** What every run keeps *)

Section Host.
Context {H : Type} `{!Links H, !LinksLaws H} (config : GtpConfig) (clock : nat → Z).
Implicit Types s : Gtp H.

Definition tunnels s : gmap string Gretap := gretaps (g_links s).
Definition good (ip : Z) : Gretap := mkGretap (u_address config) ip None.

(** Every tunnel is named after its remote, and every address that is kept is of the underlay. *)
Definition named s : Prop := ∀ n g, tunnels s !! n = Some g → n = tunnel_name (g_remote g) ∧ in_network config (g_remote g) = true.
Definition addresses_ok (m : gmap Z Lease) : Prop := ∀ ip l, m !! ip = Some l → in_network config ip = true.
Record gtp_ok s : Prop := {
  gk_named : named s;
  gk_leases : addresses_ok (g_leases s);
  gk_saved : ∀ b m, g_saved s = Some (b, m) → addresses_ok m
}.

Lemma addresses_insert m ip l : in_network config ip = true → addresses_ok m → addresses_ok (<[ip := l]> m).
Proof. intros Hi Hm ip' l'. rewrite lookup_insert. case_decide as E; [by destruct E|]. apply Hm. Qed.
Lemma addresses_delete m ip : addresses_ok m → addresses_ok (delete ip m).
Proof. intros Hm ip' l' [_ Hl]%lookup_delete_Some. by eapply Hm. Qed.

(** A command on the links whose tunnels stay well named. *)
Lemma keeps_on_links {A} (J : Gtp H → Prop) (m : M H A) :
  (∀ s, J s → J (s <| g_links := (m (g_links s)).2 |>)) → keeps J (on_links m).
Proof. intros Hm s Hs. specialize (Hm s Hs). unfold on_links. by destruct (m (g_links s)) as [[a|e] h]. Qed.

Lemma named_del s n : gtp_ok s → gtp_ok (s <| g_links := (link_del n (g_links s)).2 |>).
Proof.
  intros [Hn Hl Hs]. split; try done. intros n' g. unfold tunnels. cbn. rewrite del_law.
  destruct (is_ok _); [|apply Hn]. intros [_ Hg]%lookup_delete_Some. by apply Hn.
Qed.
Lemma named_add s ip : in_network config ip = true → gtp_ok s → gtp_ok (s <| g_links := (link_add (tunnel_name ip) (u_address config) ip (g_links s)).2 |>).
Proof.
  intros Hi [Hn Hl Hs]. split; try done. intros n' g. unfold tunnels. cbn. rewrite add_law.
  destruct (is_ok _); [|apply Hn]. rewrite lookup_insert. case_decide as E; [|apply Hn]. intros [= <-]. by destruct E.
Qed.
Lemma named_same s h : gretaps h = gretaps (g_links s) → gtp_ok s → gtp_ok (s <| g_links := h |>).
Proof. intros E [Hn Hl Hs]. split; try done. intros n g. unfold tunnels. cbn. rewrite E. apply Hn. Qed.

Lemma keeps_monotonic (J : Gtp H → Prop) : (∀ s n, J s → J (s <| g_asked := n |>)) → keeps J (monotonic clock).
Proof. intros HJ s Hs. cbn. by apply HJ. Qed.

Lemma ok_monotonic : keeps gtp_ok (monotonic clock).
Proof. apply keeps_monotonic. by intros s n []. Qed.

Lemma ok_ensure ip : in_network config ip = true → keeps gtp_ok (ensure config ip).
Proof.
  intros Hi. unfold ensure. apply keeps_get. intros s0. cbv zeta. case_bool_decide; [apply keeps_mret|].
  apply keeps_bind; [case_bool_decide; [apply keeps_on_links; intros s; apply named_del|apply keeps_mret]|intros _].
  apply keeps_bind; [apply keeps_on_links; intros s; by apply named_add|intros _].
  apply keeps_bind; [apply keeps_on_links; intros s; apply named_same, mtu_law|intros _].
  apply keeps_bind; [apply keeps_on_links; intros s; apply named_same, master_law|intros _]. apply keeps_mret.
Qed.

Lemma ok_remove ip : keeps gtp_ok (remove ip).
Proof. unfold remove. apply keeps_get. intros s0. case_bool_decide; [apply keeps_on_links; intros s; apply named_del|apply keeps_mret]. Qed.

Lemma gtp_forget_ok ip : keeps gtp_ok (forget ip).
Proof. apply keeps_modify. intros s [Hn Hl Hs]. split; try done. by apply addresses_delete. Qed.

Lemma ok_sweep boot : keeps gtp_ok (sweep clock boot).
Proof.
  unfold sweep. apply keeps_bind; [unfold times_gone; apply keeps_bind; [apply ok_monotonic|intros now]; apply keeps_get; intros; apply keeps_mret|intros ips].
  apply keeps_bind; [apply keeps_for_each; intros ip; apply keeps_bind; [apply ok_remove|intros _; apply gtp_forget_ok]|intros _].
  apply keeps_modify. intros s [Hn Hl Hs]. split; try done. by intros b m [= <- <-].
Qed.

Lemma ok_early ip : keeps gtp_ok (times_early clock ip).
Proof.
  unfold times_early. apply keeps_get. intros s0. destruct (g_leases s0 !! ip) as [[mac start [length|] early]|]; try apply keeps_mret.
  apply keeps_bind; [apply ok_monotonic|intros now; apply keeps_mret].
Qed.

Lemma ok_put (f : Gtp H → M (Gtp H) unit) : (∀ s, gtp_ok s → gtp_ok (f s s).2) → keeps gtp_ok (get ≫= f).
Proof. intros Hf s Hs. unfold mbind, M_mbind, get. specialize (Hf s Hs). by destruct (f s s) as [[]]. Qed.

Lemma ok_keep ip : keeps gtp_ok (times_keep clock ip).
Proof.
  unfold times_keep. apply keeps_bind; [apply ok_monotonic|intros now]. apply ok_put. intros s [Hn Hl Hs].
  destruct (g_leases s !! ip) as [l|] eqn:El; [|done]. split; try done. apply addresses_insert; [by eapply Hl|done].
Qed.

Lemma ok_load boot : keeps gtp_ok (times_load boot).
Proof.
  apply keeps_modify. intros s [Hn Hl Hs]. split; try done. cbn. destruct (g_saved s) as [[b m]|]; [|by intros ? ?].
  case_bool_decide; [by eapply Hs|by intros ? ?].
Qed.

(** The addresses of dnsmasq's file are of the underlay, as the range it is configured with. *)
Definition command_ok (c : command) : Prop :=
  match c with
  | CLease _ _ _ _ _ _ => True
  | CReconcile _ wall file => ∀ ip, ip ∈ dom (file_leases wall file) → in_network config ip = true
  end.

Lemma kept_in_network s ip : addresses_ok (g_leases s) → ip ∈ times_kept s → in_network config ip = true.
Proof. unfold times_kept. intros Hl (l & [Hlk _]%map_lookup_filter_Some)%elem_of_dom. by eapply Hl. Qed.


Lemma ok_command c : command_ok c → keeps gtp_ok (run_command config clock c).
Proof.
  intros Hc. destruct c as [boot action mac mac_ok ip e|boot wall file]; cbn [run_command].
  - apply keeps_bind; [apply ok_load|intros _]. unfold lease. apply keeps_lift_bind. intros _ Hr%raise_if_Ok. bools.
    assert (Hstart : keeps gtp_ok (_ ← ensure config ip; times_started clock ip mac (lease_length config e))).
    { apply keeps_bind; [by apply ok_ensure|intros _]. unfold times_started. apply keeps_bind; [apply ok_monotonic|intros now].
      apply keeps_modify. intros s [Hn Hl Hs]. split; try done. by apply addresses_insert. }
    apply keeps_bind; [destruct action; [done..|]|intros _; apply ok_sweep].
    apply keeps_bind; [apply ok_early|intros [early|]]; [apply ok_keep|]. apply keeps_bind; [apply ok_remove|intros _; apply gtp_forget_ok].
  - apply keeps_bind; [apply ok_load|intros _]. unfold reconcile. apply keeps_bind; [apply ok_sweep|intros _].
    apply keeps_get_with. intros s Hs. cbv zeta.
    assert (Hw : ∀ ip, ip ∈ dom (file_leases wall file) ∪ times_kept s → in_network config ip = true).
    { intros ip [?|?]%elem_of_union; [by apply Hc|]. eapply kept_in_network; [apply Hs|done]. }
    apply keeps_bind; [apply keeps_for_each; intros [n g]; case_bool_decide; [apply keeps_mret|apply keeps_on_links; intros s'; apply named_del]|intros _].
    apply keeps_for_each_in. intros ip Hip%sort_by_elem%elem_of_elements. apply keeps_bind; [by apply ok_ensure, Hw|intros _; apply keeps_mret].
Qed.

(** ** Reconciliation *)

Lemma on_links_Ok {A} (m : M H A) s a s' :
  on_links m s = (Ok a, s') → ∃ h, m (g_links s) = (Ok a, h) ∧ s' = s <| g_links := h |>.
Proof. unfold on_links. destruct (m (g_links s)) as [[b|e] h]; [|done]. intros [= <- <-]. by exists h. Qed.

Lemma del_Ok n s s' : on_links (link_del n) s = (Ok tt, s') → tunnels s' = delete n (tunnels s) ∧ g_leases s' = g_leases s.
Proof.
  intros (h & E & ->)%on_links_Ok. split; [|done]. unfold tunnels. cbn. pose proof (del_law n (g_links s)) as Hd. by rewrite E in Hd.
Qed.

Lemma ensure_Ok ip s n s' :
  ensure config ip s = (Ok n, s') → tunnels s' = <[tunnel_name ip := good ip]> (tunnels s) ∧ g_leases s' = g_leases s.
Proof.
  unfold ensure. intros (s0 & s1 & [= <- <-] & He)%M_bind_Ok. cbv zeta in He. case_bool_decide as Hc.
  - injection He as _ <-. split; [|done]. symmetry. by apply insert_id.
  - apply M_bind_Ok in He as (u & s2 & Hd & (u1 & s3 & Ha & (u2 & s4 & Hm & (u3 & s5 & Hb & [= _ <-])%M_bind_Ok)%M_bind_Ok)%M_bind_Ok).
    apply on_links_Ok in Ha as (h3 & Ha & ->), Hm as (h4 & Hm & ->), Hb as (h5 & Hb & ->).
    assert (Hd2 : delete (tunnel_name ip) (tunnels s2) = delete (tunnel_name ip) (tunnels s) ∧ g_leases s2 = g_leases s).
    { case_bool_decide; [destruct u; apply del_Ok in Hd as [-> ->]; by rewrite delete_delete_eq|]. by injection Hd as _ <-. }
    destruct Hd2 as [Ed El]. split; [|done]. unfold tunnels at 1. cbn.
    pose proof (add_law (tunnel_name ip) (u_address config) ip (g_links s2)) as La. rewrite Ha in La. cbn in Hm, Hb.
    pose proof (mtu_law (tunnel_name ip) (tunnel_mtu config) h3) as Lm. rewrite Hm in Lm.
    pose proof (master_law (tunnel_name ip) (lan_bridge config) h4) as Lb. rewrite Hb in Lb. cbn in La, Lm, Lb.
    rewrite Lb, Lm, La. fold (tunnels s2). fold (good ip). by rewrite <- (insert_delete_eq (tunnels s2)), Ed, insert_delete_eq.
Qed.

Lemma delete_loop_Ok (W : gset Z) l : ∀ s s',
  for_each (λ ng, if bool_decide (g_remote ng.2 ∈ W) then mret tt else on_links (link_del ng.1)) l s = (Ok tt, s') →
  g_leases s' = g_leases s ∧
  ∀ n g, tunnels s' !! n = Some g ↔ tunnels s !! n = Some g ∧ ¬ ∃ g', (n, g') ∈ l ∧ g_remote g' ∉ W.
Proof.
  induction l as [|[n0 g0] l IH]; intros s s'; cbn [for_each].
  { intros [= <-]. split; [done|]. intros n g. split; [|by intros []]. intros ?. split; [done|]. by intros (g' & ?%elem_of_nil & _). }
  intros (u & s1 & H1 & [El Hl]%IH)%M_bind_Ok. cbn in H1. case_bool_decide as Hw.
  - injection H1 as _ <-. split; [done|]. intros n g. rewrite Hl. f_equiv. split; intros Hn (g' & Hin & Hr); apply Hn; exists g'; [|set_solver].
    apply elem_of_cons in Hin as [[= -> ->]|]; done.
  - destruct u. apply del_Ok in H1 as [Et E1]. split; [congruence|]. intros n g. rewrite Hl, Et, lookup_delete_Some. split.
    + intros [[Hne Hg] Hn]. split; [done|]. intros (g' & [[= -> ->]|Hin]%elem_of_cons & Hr); [done|]. apply Hn. eauto.
    + intros [Hg Hn]. split; [split; [|done]|].
      * intros ->. apply Hn. exists g0. split; [by left|done].
      * intros (g' & Hin & Hr). apply Hn. exists g'. split; [by right|done].
Qed.

(** Each address of the loop has its tunnel in the end, and the other tunnels are as they were. *)
Lemma ensure_loop_Ok l : ∀ s s',
  (∀ a b, a ∈ l → b ∈ l → tunnel_name a = tunnel_name b → a = b) →
  for_each (λ ip, _ ← ensure config ip; mret tt) l s = (Ok tt, s') →
  g_leases s' = g_leases s ∧ (∀ ip, ip ∈ l → tunnels s' !! tunnel_name ip = Some (good ip)) ∧
  (∀ n, (∀ ip, ip ∈ l → n ≠ tunnel_name ip) → tunnels s' !! n = tunnels s !! n).
Proof.
  induction l as [|ip0 l IH]; intros s s' Hinj; cbn [for_each].
  { intros [= <-]. split; [done|]. split; [by intros ip ?%elem_of_nil|done]. }
  intros (u & s1 & (n0 & s0 & [Et E0]%ensure_Ok & [= _ <-])%M_bind_Ok & Hl)%M_bind_Ok.
  apply IH in Hl as (E1 & Hin & Hout); [|intros; apply Hinj; [by right..|done]]. split; [congruence|]. split.
  - intros ip Hip. destruct (decide (ip ∈ l)) as [Hi|Hi]; [by apply Hin|]. apply elem_of_cons in Hip as [->|]; [|done].
    rewrite Hout, Et; [apply lookup_insert_eq|]. intros a Ha E. apply Hi. by rewrite (Hinj ip0 a); [|left|right|].
  - intros n Hn. rewrite Hout by (intros; apply Hn; by right). rewrite Et, lookup_insert_ne; [done|]. intros E. by apply (Hn ip0); [left|].
Qed.

(** The tunnels of a set of addresses. *)
Definition tunnels_of (X : gset Z) : gmap string Gretap := set_to_map (λ ip, (tunnel_name ip, good ip)) X.

Lemma reconcile_Ok boot wall file s s' :
  16 ≤ u_prefix config ≤ 32 → (∀ ip, ip ∈ dom (file_leases wall file) → in_network config ip = true) → gtp_ok s →
  reconcile config clock boot wall file s = (Ok tt, s') →
  tunnels s' = tunnels_of (dom (file_leases wall file) ∪ times_kept s').
Proof.
  intros Hp Hfile Hs (u & s1 & Hsw & (s2 & s3 & [= <- <-] & Hr)%M_bind_Ok)%M_bind_Ok. cbv zeta in Hr.
  assert (Hs1 : gtp_ok s1) by (pose proof (ok_sweep boot s Hs) as Hk; by rewrite Hsw in Hk).
  apply M_bind_Ok in Hr as ([] & s4 & Hd & He). apply delete_loop_Ok in Hd as [E4 Hd].
  set (W := dom (file_leases wall file) ∪ times_kept s1) in *.
  assert (HW : ∀ ip, ip ∈ W → in_network config ip = true).
  { intros ip [?|?]%elem_of_union; [by apply Hfile|]. eapply kept_in_network; [apply Hs1|done]. }
  assert (Hel : ∀ ip, ip ∈ sort_by dotted (elements W) ↔ ip ∈ W) by (intros ip; by rewrite sort_by_elem, elem_of_elements).
  apply ensure_loop_Ok in He as (E5 & Hin & Hout); [|intros a b ?%Hel ?%Hel; apply (tunnel_name_inj config Hp); by apply HW].
  assert (EW : dom (file_leases wall file) ∪ times_kept s' = W) by (unfold W, times_kept; by rewrite E5, E4). rewrite EW.
  assert (Hof : ∀ n g, tunnels_of W !! n = Some g ↔ ∃ ip, ip ∈ W ∧ n = tunnel_name ip ∧ g = good ip).
  { intros n g. unfold tunnels_of. rewrite lookup_set_to_map; [naive_solver|].
    intros a b Ha Hb E. apply (tunnel_name_inj config Hp); [by apply HW..|done]. }
  apply map_eq. intros n. apply option_eq. intros g. rewrite Hof. split.
  - intros Hg. destruct (decide (∃ ip, ip ∈ W ∧ n = tunnel_name ip)) as [(ip & Hip & ->)|Hno].
    + exists ip. rewrite Hin in Hg by by apply Hel. injection Hg as <-. done.
    + exfalso. rewrite Hout in Hg by (intros ip Hip%Hel ->; apply Hno; by exists ip). apply Hd in Hg as [Hg Hn].
      destruct (gk_named _ Hs1 _ _ Hg) as [En _]. apply Hn. exists g. split; [by apply elem_of_map_to_list|].
      intros Hr. apply Hno. by exists (g_remote g).
  - intros (ip & Hip & -> & ->). apply Hin. by apply Hel.
Qed.
End Host.

(** ** A step of the wall clock *)

Section ClockStep.
Context {H : Type} `{!Links H, !LinksLaws H} (config : GtpConfig) (clock : nat → Z).
Context (Hprefix : 16 ≤ u_prefix config ≤ 32).
(** The lease of [ip] started at [t0] for [length] seconds; until the margin before its end, from the [n0]th
    question on, the monotonic clock is before that end. *)
Context (boot : string) (ip : Z) (t0 length : Z) (n0 : nat) (need : Prop) (ended : bool).
Context (Hip : in_network config ip = true) (Hlength : 0 ≤ length)
  (Hclock : ∀ n, (n0 ≤ n)%nat → t0 ≤ clock n < t0 + seconds length - seconds (margin length)).
Implicit Types s : Gtp H.

Definition running (l : Lease) : Prop :=
  l_start l = t0 ∧ l_length l = Some length ∧ (∀ e, l_early l = Some e → t0 ≤ e) ∧ (ended = true → is_Some (l_early l)).
Definition recorded (m : gmap Z Lease) : Prop := ∃ l, m !! ip = Some l ∧ running l.

(** Between commands, and within one; [need]: the record is saved; [ended]: dnsmasq has ended the lease. *)
Record held s : Prop := {
  he_ok : gtp_ok config s;
  he_tunnel : tunnels s !! tunnel_name ip = Some (good config ip);
  he_saved : need → ∃ m, g_saved s = Some (boot, m) ∧ recorded m;
  he_asked : (n0 ≤ g_asked s)%nat
}.
Record held_in s : Prop := { hi_held : held s; hi_lease : recorded (g_leases s) }.

Lemma margin_nonneg : 0 ≤ margin length.
Proof. unfold margin, EARLY_MARGIN. pose proof (Z.div_pos length 4 Hlength). lia. Qed.

(** The lease is neither over nor gone. *)
Lemma running_not_gone n l : (n0 ≤ n)%nat → running l → lease_gone (clock n) l = false.
Proof.
  intros Hn (Hs & Hl & He & _). unfold lease_gone. rewrite Hl. destruct (l_early l) as [e|]; [|done]. apply bool_decide_eq_false.
  pose proof (He e eq_refl). pose proof (Hclock n Hn). pose proof margin_nonneg. unfold seconds in *. lia.
Qed.

Lemma held_links s h :
  held_in s → gtp_ok config (s <| g_links := h |>) → gretaps h !! tunnel_name ip = Some (good config ip) → held_in (s <| g_links := h |>).
Proof. intros [[Hk Ht Hs Ha] Hl] Hok Hh. split; [|done]. split; done. Qed.

Lemma held_monotonic : keeps held_in (monotonic clock).
Proof. intros s [[Hk Ht Hs Ha] Hl]. cbn. split; [|done]. split; try done; [by destruct Hk|cbn; lia]. Qed.

(** Removing the tunnel of another address. *)
Lemma held_remove ip' : in_network config ip' = true → ip' ≠ ip → keeps held_in (remove ip').
Proof.
  intros Hi Hne. unfold remove. apply keeps_get. intros s0. case_bool_decide; [|apply keeps_mret].
  apply keeps_on_links. intros s Hs. apply held_links; [done|apply named_del, Hs|]. rewrite del_law.
  destruct (is_ok _); [|apply Hs]. rewrite lookup_delete_ne; [apply Hs|]. intros E. apply Hne. by apply (tunnel_name_inj config Hprefix).
Qed.

Lemma held_forget ip' : ip' ≠ ip → keeps held_in (forget ip').
Proof.
  intros Hne. apply keeps_modify. intros s [[[Hn Hl Hv] Ht Hs Ha] (l & Hlk & Hr)]. split.
  - split; try done. split; try done. by apply addresses_delete.
  - exists l. cbn. by rewrite lookup_delete_ne.
Qed.

Lemma held_sweep : keeps held_in (sweep clock boot).
Proof.
  intros s Hs. unfold sweep. unfold times_gone at 1. unfold mbind at 1, M_mbind at 1. unfold mbind at 1, M_mbind at 1, monotonic at 1.
  unfold mbind at 1, M_mbind at 1, get at 1. cbv zeta beta iota. unfold mret at 1, M_mret at 1.
  set (s1 := s <| g_asked := _ |>). assert (Hs1 : held_in s1) by apply (held_monotonic s Hs).
  set (ips := sort_by dotted _). assert (Hips : ∀ x, x ∈ ips → in_network config x = true ∧ x ≠ ip).
  { intros x Hx. unfold ips in Hx. apply sort_by_elem, list_elem_of_fmap in Hx as ([k l] & -> & Hk).
    apply list_elem_of_filter in Hk as [Hg Hk%elem_of_map_to_list]. cbn in *. split; [by eapply (gk_leases _ _ (he_ok _ (hi_held _ Hs)))|].
    intros ->. destruct (hi_lease _ Hs) as (l' & El & Hr). assert (l' = l) as -> by (cbn in El; congruence).
    rewrite running_not_gone in Hg; [done| |done]. apply Hs. }
  clearbody ips s1. revert s1 Hs1. clear s Hs. change (keeps held_in (for_each (λ ip, remove ip ≫= λ _, forget ip) ips ≫= λ _, times_save boot)).
  apply keeps_bind.
  - apply keeps_for_each_in. intros x [Hx Hne]%Hips. apply keeps_bind; [by apply held_remove|intros _; by apply held_forget].
  - intros _. apply keeps_modify. intros s [[[Hn Hl Hv] Ht Hs Ha] Hr]. split; [|done]. split; try done.
    + split; try done. by intros b m [= <- <-].
    + by exists (g_leases s).
Qed.

(** The events of other leases, and the end of this one. *)
Definition event_ok (c : command) : Prop :=
  match c with
  | CLease b a _ _ ip' _ => b = boot ∧ (ip' = ip → a = Del)
  | CReconcile b wall file => b = boot ∧ (ended = false → ip ∈ dom (file_leases wall file)) ∧ ∀ x, x ∈ dom (file_leases wall file) → in_network config x = true
  end.

Lemma held_ensure ip' : in_network config ip' = true → keeps held_in (ensure config ip').
Proof.
  intros Hi. destruct (decide (ip' = ip)) as [->|Hne].
  - unfold ensure. apply keeps_get_with. intros s Hs. cbv zeta. rewrite bool_decide_eq_true_2; [apply keeps_mret|]. apply Hs.
  - assert (Hn : tunnel_name ip' ≠ tunnel_name ip) by (intros E; apply Hne; by apply (tunnel_name_inj config Hprefix)).
    unfold ensure. apply keeps_get. intros s0. cbv zeta. case_bool_decide; [apply keeps_mret|].
    apply keeps_bind; [case_bool_decide; [|apply keeps_mret]|intros _; apply keeps_bind; [|intros _; apply keeps_bind; [|intros _; apply keeps_bind; [|intros _; apply keeps_mret]]]];
      apply keeps_on_links; intros s Hs; (apply held_links; [done| |]).
    + apply named_del, Hs.
    + rewrite del_law. destruct (is_ok _); [|apply Hs]. rewrite lookup_delete_ne by done. apply Hs.
    + apply named_add; [done|apply Hs].
    + rewrite add_law. destruct (is_ok _); [|apply Hs]. rewrite lookup_insert_ne by done. apply Hs.
    + apply named_same; [apply mtu_law|apply Hs].
    + rewrite mtu_law. apply Hs.
    + apply named_same; [apply master_law|apply Hs].
    + rewrite master_law. apply Hs.
Qed.

Lemma held_keep ip' : keeps held_in (times_keep clock ip').
Proof.
  unfold times_keep. intros s Hs. unfold mbind at 1, M_mbind at 1, monotonic. unfold mbind, M_mbind, get. cbv zeta beta iota.
  set (s1 := s <| g_asked := _ |>). assert (Hs1 : held_in s1) by apply (held_monotonic s Hs).
  destruct (g_leases s1 !! ip') as [l|] eqn:El; [|done]. destruct Hs1 as [[[Hn Hl Hv] Ht Hsv Ha] (l1 & Hlk & Hr1 & Hr2 & Hr3 & Hr4)]. split.
  - split; try done. split; try done. apply addresses_insert; [by eapply Hl|done].
  - cbn. destruct (decide (ip' = ip)) as [->|Hne]; [|exists l1; by rewrite lookup_insert_ne].
    eexists. split; [apply lookup_insert_eq|]. assert (l = l1) as -> by congruence. split; [done|]. split; [done|]. split; [|by eexists].
    intros e [= <-]. apply Hclock, Hs.
Qed.

(** An end of the lease of [ip] is early, and keeps it. *)
Lemma held_del :
  keeps held_in (early ← times_early clock ip; match early with Some _ => times_keep clock ip | None => _ ← remove ip; forget ip end).
Proof.
  unfold times_early. intros s Hs. unfold mbind at 1, M_mbind at 1. unfold mbind at 1, M_mbind at 1, get at 1. cbv zeta beta iota.
  destruct (hi_lease _ Hs) as ([mac start len early] & El & Hst & Hln & He). rewrite El. cbn in Hst, Hln. subst start len.
  unfold mbind at 1, M_mbind at 1, monotonic at 1. cbv zeta beta iota. unfold mret at 1, M_mret at 1.
  set (s1 := s <| g_asked := _ |>). assert (Hs1 : held_in s1) by apply (held_monotonic s Hs).
  rewrite bool_decide_eq_true_2; [by apply held_keep|]. pose proof (Hclock (g_asked s) (he_asked _ (hi_held _ Hs))). lia.
Qed.

Lemma held_early ip' : keeps held_in (times_early clock ip').
Proof.
  unfold times_early. apply keeps_get. intros s0. destruct (g_leases s0 !! ip') as [[mac start [len|] early]|]; try apply keeps_mret.
  apply keeps_bind; [apply held_monotonic|intros now; apply keeps_mret].
Qed.

Lemma held_started ip' mac len : in_network config ip' = true → ip' ≠ ip → keeps held_in (times_started clock ip' mac len).
Proof.
  intros Hi Hne. unfold times_started. apply keeps_bind; [apply held_monotonic|intros now]. apply keeps_modify.
  intros s [[[Hn Hl Hv] Ht Hs Ha] (l & Hlk & Hr)]. split.
  - split; try done. split; try done. by apply addresses_insert.
  - exists l. cbn. by rewrite lookup_insert_ne.
Qed.

(** A loop that deletes no tunnel of the address. *)
Lemma held_deletes (W : gset Z) l :
  ip ∈ W → (∀ g, (tunnel_name ip, g) ∈ l → g_remote g ∈ W) →
  keeps held_in (for_each (λ ng, if bool_decide (g_remote ng.2 ∈ W) then mret tt else on_links (link_del ng.1)) l).
Proof.
  intros HW Hl. apply keeps_for_each_in. intros [n g] Hin. cbn. case_bool_decide as Hg; [apply keeps_mret|].
  apply keeps_on_links. intros s Hs. apply held_links; [done|apply named_del, Hs|]. rewrite del_law. destruct (is_ok _); [|apply Hs].
  rewrite lookup_delete_ne; [apply Hs|]. intros ->. by apply Hg, Hl.
Qed.

Lemma held_load s : need → held s → held_in (times_load boot s).2.
Proof.
  intros Hneed [[Hn Hl Hv] Ht Hsv Ha]. destruct (Hsv Hneed) as (m & Em & Hm). unfold times_load, modify. cbn. rewrite Em, bool_decide_eq_true_2 by done. split; [|done].
  split; [split; [done|by eapply Hv|intros b' m' [= <- <-]; by eapply Hv]|done|by exists m|done].
Qed.

(** After its load, a command keeps the tunnel and the record. *)
Lemma held_command c s : need → event_ok c → held s → held (run_command config clock c s).2.
Proof.
  intros Hneed Hc Hs. apply hi_held. destruct c as [b action mac mac_ok ip' e|b wall file]; cbn [run_command].
  - destruct Hc as [-> Hc]. unfold mbind at 1, M_mbind at 1. pose proof (held_load s Hneed Hs) as Hl. destruct (times_load boot s) as [[[]|er] s1] eqn:El; [|done].
    apply keeps_snd; [|done]. clear s Hs s1 El Hl. unfold lease. apply keeps_lift_bind. intros _ Hr%raise_if_Ok. bools.
    apply keeps_bind; [|intros _; apply held_sweep]. destruct (decide (ip' = ip)) as [->|Hne].
    + rewrite (Hc eq_refl). apply held_del.
    + assert (Hst : keeps held_in (_ ← ensure config ip'; times_started clock ip' mac (lease_length config e))).
      { apply keeps_bind; [by apply held_ensure|intros _; by apply held_started]. }
      destruct action; [done..|]. apply keeps_bind; [apply held_early|intros [early|]]; [apply held_keep|].
      apply keeps_bind; [by apply held_remove|intros _; by apply held_forget].
  - destruct Hc as (-> & Hin & Hfile). unfold mbind at 1, M_mbind at 1. pose proof (held_load s Hneed Hs) as Hl.
    destruct (times_load boot s) as [[[]|er] s1] eqn:El; [|done]. apply keeps_snd; [|done]. clear s Hs s1 El Hl.
    unfold reconcile. apply keeps_bind; [apply held_sweep|intros _]. apply keeps_get_with. intros s Hs. cbv zeta.
    assert (HW : ip ∈ dom (file_leases wall file) ∪ times_kept s).
    { destruct (decide (ended = true)) as [E|E%not_true_is_false]; [apply elem_of_union_r|apply elem_of_union_l; by apply Hin]. destruct (hi_lease _ Hs) as (l & El & _ & _ & _ & Hk).
      unfold times_kept. apply elem_of_dom. exists l. apply map_lookup_filter_Some. split; [done|by apply Hk]. }
    apply keeps_bind; [apply held_deletes|intros _]; [done| |].
    + intros g Hg%elem_of_map_to_list. pose proof (he_tunnel _ (hi_held _ Hs)) as Ht. unfold tunnels in Ht.
      assert (g = good config ip) as -> by congruence. exact HW.
    + apply keeps_for_each_in. intros x Hx%sort_by_elem%elem_of_elements. apply keeps_bind; [apply held_ensure|intros _; apply keeps_mret].
      apply elem_of_union in Hx as [?|?]; [by apply Hfile|]. eapply kept_in_network; [apply Hs|done].
Qed.

Lemma held_commands cs s : need → Forall event_ok cs → held s → held (foldl (λ s c, (run_command config clock c s).2) s cs).
Proof. intros Hneed. revert s. induction cs as [|c cs IH]; intros s; [done|]. intros [Hc Hcs]%Forall_cons Hs. cbn. apply IH; [done|]. by apply held_command. Qed.
End ClockStep.

(** ** Histories *)

Section Histories.
Context {H : Type} `{!Links H, !LinksLaws H} (config : GtpConfig) (clock : nat → Z).
Implicit Types s : Gtp H.

Definition gtp_run (s : Gtp H) (cs : list command) : Gtp H := foldl (λ s c, (run_command config clock c s).2) s cs.

(** A host without tunnels of this kind, before the first event. *)
Definition gtp_init (h : H) : Gtp H := mkGtp h ∅ None 0.

Lemma gtp_run_ok h cs : gretaps h = ∅ → Forall (command_ok config) cs → gtp_ok config (gtp_run (gtp_init h) cs).
Proof.
  intros Hh Hcs. assert (Hi : gtp_ok config (gtp_init h)).
  { split; [|by intros ? ?|done]. intros n g. unfold tunnels. cbn. by rewrite Hh. }
  revert Hi. generalize (gtp_init h). unfold gtp_run. induction Hcs as [|c cs Hc Hcs IH]; intros s Hs; [done|]. cbn. apply IH.
  apply keeps_snd; [by apply ok_command|done].
Qed.

Lemma ensure_frame ip s n s' : ensure config ip s = (Ok n, s') → g_asked s' = g_asked s.
Proof.
  unfold ensure. intros (s0 & s1 & [= <- <-] & He)%M_bind_Ok. cbv zeta in He. case_bool_decide; [by injection He as _ <-|].
  apply M_bind_Ok in He as (u & s2 & Hd & (u1 & s3 & Ha & (u2 & s4 & Hm & (u3 & s5 & Hb & [= _ <-])%M_bind_Ok)%M_bind_Ok)%M_bind_Ok).
  apply on_links_Ok in Ha as (h3 & _ & ->), Hm as (h4 & _ & ->), Hb as (h5 & _ & ->). cbn.
  case_bool_decide; [by apply on_links_Ok in Hd as (h2 & _ & ->)|by injection Hd as _ <-].
Qed.

Lemma sweep_saves boot s s' : sweep clock boot s = (Ok tt, s') → g_saved s' = Some (boot, g_leases s').
Proof. unfold sweep. intros (ips & s1 & _ & (u & s2 & _ & [= <-])%M_bind_Ok)%M_bind_Ok. done. Qed.

(** After a lease event that started it, the lease is held. *)
Lemma started_held boot mac ip e length s s' :
  16 ≤ u_prefix config ≤ 32 → gtp_ok config s → 0 ≤ length → lease_length config e = Some length →
  (∀ n, (g_asked s ≤ n)%nat → clock (g_asked s) ≤ clock n < clock (g_asked s) + seconds length - seconds (margin length)) →
  run_command config clock (CLease boot Add mac true ip e) s = (Ok tt, s') →
  in_network config ip = true ∧ held config boot ip (clock (g_asked s)) length (g_asked s) True false s'.
Proof.
  intros Hp Hs Hlen He Hclock (u0 & s1 & [= _ <-] & (u1 & s2 & Hr & Hrest)%M_bind_Ok)%M_bind_Ok.
  unfold lift in Hr. injection Hr as Hr <-. apply raise_if_Ok in Hr. bools. split; [done|].
  match type of Hrest with _ ?x = _ => set (s1 := x) in * end. assert (Hs1 : gtp_ok config s1) by apply (ok_load config boot s Hs).
  apply M_bind_Ok in Hrest as (u2 & s3 & Hst & Hsw). apply M_bind_Ok in Hst as (n & s4 & Hen & Hst).
  pose proof (ok_ensure config ip ltac:(done) s1 Hs1) as Hs4. rewrite Hen in Hs4. pose proof (ensure_frame _ _ _ _ Hen) as Ha.
  apply ensure_Ok in Hen as [Et El]. unfold times_started in Hst. apply M_bind_Ok in Hst as (now & s5 & [= <- <-] & [= _ <-]). rewrite He in Hsw.
  match type of Hsw with sweep _ _ ?x = _ => set (s6 := x) in * end.
  assert (H6 : held_in config boot ip (clock (g_asked s)) length (g_asked s) False false s6).
  { split; [split|].
    - destruct Hs4 as [Hn Hl Hv]. split; [done| |done]. by apply addresses_insert.
    - unfold s6, tunnels in *. cbn. rewrite Et. apply lookup_insert_eq.
    - done.
    - unfold s6. cbn. rewrite Ha. cbn. lia.
    - eexists. unfold s6. cbn. split; [apply lookup_insert_eq|]. split; [cbn; by rewrite Ha|]. by split_and!. }
  pose proof (held_sweep config clock Hp boot ip (clock (g_asked s)) length (g_asked s) False false ltac:(done) Hlen Hclock s6 H6) as Hk.
  rewrite Hsw in Hk. destruct Hk as [[Hk Ht _ Hak] Hl]. split; try done. intros _. exists (g_leases s'). split; [by apply (sweep_saves boot s6)|done].
Qed.

(** A lease that is held and that dnsmasq ends is held as ended. *)
Lemma ended_held boot mac mac_ok ip e t0 length n0 s s' :
  16 ≤ u_prefix config ≤ 32 → in_network config ip = true → 0 ≤ length →
  (∀ n, (n0 ≤ n)%nat → t0 ≤ clock n < t0 + seconds length - seconds (margin length)) →
  held config boot ip t0 length n0 True false s →
  run_command config clock (CLease boot Del mac mac_ok ip e) s = (Ok tt, s') → held config boot ip t0 length n0 True true s'.
Proof.
  intros Hp Hip Hlen Hclock Hs (u0 & s1 & Hld & (u1 & s2 & [= _ <-] & (u2 & s3 & Hdel & Hsw)%M_bind_Ok)%M_bind_Ok)%M_bind_Ok.
  pose proof (held_load config boot ip t0 length n0 True false s I Hs) as Hi. rewrite Hld in Hi. cbn in Hi.
  apply M_bind_Ok in Hdel as (early & s4 & He & Hk). unfold times_early in He.
  apply M_bind_Ok in He as (x & x' & [= <- <-] & He). destruct (hi_lease _ _ _ _ _ _ _ _ _ Hi) as ([m0 start len0 e0] & El & Hst & Hln & Hel & _).
  cbn in Hst, Hln. subst start len0. rewrite El in He. apply M_bind_Ok in He as (now & s5 & [= <- <-] & He).
  pose proof (Hclock (g_asked s1) (he_asked _ _ _ _ _ _ _ _ _ (hi_held _ _ _ _ _ _ _ _ _ Hi))) as Hnow.
  rewrite bool_decide_eq_true_2 in He by lia. injection He as <- <-.
  pose proof (held_monotonic config clock boot ip t0 length n0 True false s1 Hi) as Hm. cbn in Hm.
  match type of Hk with _ ?x = _ => set (s6 := x) in * end.
  assert (H7 : held_in config boot ip t0 length n0 False true s3).
  { unfold times_keep in Hk. apply M_bind_Ok in Hk as (now & s7 & [= <- <-] & (x & x' & [= <- <-] & Hk)%M_bind_Ok).
    cbn in Hk. rewrite El in Hk. injection Hk as _ <-. destruct Hm as [[[Hn Hl Hv] Ht _ Ha] _]. split; [split|].
    - split; [done| |done]. by apply addresses_insert.
    - done.
    - done.
    - unfold s6 in *. cbn in *. lia.
    - eexists. cbn. split; [apply lookup_insert_eq|]. split_and!; [done|done| |by eexists].
      intros e1 [= <-]. apply Hclock. unfold s6 in *. cbn in *. lia. }
  pose proof (held_sweep config clock Hp boot ip t0 length n0 False true Hip Hlen Hclock s3 H7) as Hkk. rewrite Hsw in Hkk.
  destruct Hkk as [[Hok Ht _ Ha] Hl]. split; try done. intros _. exists (g_leases s'). split; [by apply (sweep_saves boot s3)|done].
Qed.
End Histories.

(** * Properties *)

(** C32: reconciliation leaves exactly the tunnels that are wanted. In any history of lease events and
    reconciliations on a host that had none of these tunnels, whichever commands of iproute2 failed and
    cut a run short, a reconciliation that returns leaves one tunnel for each address that dnsmasq's
    file leases or that was kept after a clock step - from the underlay's address, not pinned to a device,
    under that address's own name - and no other. *)
Theorem reconciled_exactly {H : Type} `{!Links H, !LinksLaws H} config config' clock (h : H) history boot wall file s' :
  gtp_check config = Ok config' → u_prefix config ≤ 32 → gretaps h = ∅ →
  Forall (command_ok config) history → command_ok config (CReconcile boot wall file) →
  run_command config clock (CReconcile boot wall file) (gtp_run config clock (gtp_init h) history) = (Ok tt, s') →
  tunnels s' = tunnels_of config (dom (file_leases wall file) ∪ times_kept s').
Proof.
  intros Hp%gtp_check_prefix Hp32 Hh Hcs Hc (u & s1 & Hl & Hr)%M_bind_Ok.
  apply (reconcile_Ok config clock boot wall file s1); [lia|done| |done].
  pose proof (ok_load config boot _ (gtp_run_ok config clock h history Hh Hcs)) as Hk. by rewrite Hl in Hk.
Qed.

(** A step of the wall clock cuts no pod off. After a lease event that started the lease of an address, for
    as long as the monotonic clock is before its end less the margin: whatever leases of other addresses
    start, are renewed or end, whenever dnsmasq ends this one early, whatever is reconciled - with the
    lease in dnsmasq's file until dnsmasq has ended it, with or without it from then on - and whichever
    commands fail, the tunnel of the address is there. *)
Theorem clock_step_keeps_tunnel {H : Type} `{!Links H, !LinksLaws H} config config' clock (h : H) history boot mac ip e length s0 s1 before mac' ok' e' s2 after :
  gtp_check config = Ok config' → u_prefix config ≤ 32 → gretaps h = ∅ → Forall (command_ok config) history →
  s0 = gtp_run config clock (gtp_init h) history →
  run_command config clock (CLease boot Add mac true ip e) s0 = (Ok tt, s1) →
  lease_length config e = Some length → 0 ≤ length →
  (∀ n, (g_asked s0 ≤ n)%nat → clock (g_asked s0) ≤ clock n < clock (g_asked s0) + seconds length - seconds (margin length)) →
  Forall (event_ok config boot ip false) before →
  run_command config clock (CLease boot Del mac' ok' ip e') (gtp_run config clock s1 before) = (Ok tt, s2) →
  Forall (event_ok config boot ip true) after →
  tunnels (gtp_run config clock s1 before) !! tunnel_name ip = Some (good config ip) ∧
  tunnels (gtp_run config clock s2 after) !! tunnel_name ip = Some (good config ip) ∧ (ip ∈ times_kept s2).
Proof.
  intros Hp%gtp_check_prefix Hp32 Hh Hcs E0 Hadd Hlen Hpos Hclock Hbefore Hdel Hafter.
  assert (Hs0 : gtp_ok config s0) by (rewrite E0; by apply gtp_run_ok).
  destruct (started_held config clock boot mac ip e length s0 s1 ltac:(lia) Hs0 Hpos Hlen Hclock Hadd) as [Hip H1].
  pose proof (held_commands config clock ltac:(lia) boot ip _ length _ True false Hip Hpos Hclock before s1 I Hbefore H1) as Hb.
  pose proof (ended_held config clock boot mac' ok' ip e' _ length _ _ s2 ltac:(lia) Hip Hpos Hclock Hb Hdel) as H2.
  pose proof (held_commands config clock ltac:(lia) boot ip _ length _ True true Hip Hpos Hclock after s2 I Hafter H2) as Ha.
  split; [apply Hb|]. split; [apply Ha|]. destruct (he_saved _ _ _ _ _ _ _ _ _ H2 I) as (m & Em & l & El & _ & _ & _ & Hk).
  assert (Hg : g_saved s2 = Some (boot, g_leases s2)).
  { clear - Hdel. cbn [run_command] in Hdel. unfold lease in Hdel.
    apply M_bind_Ok in Hdel as (? & ? & _ & (? & ? & _ & (? & s3 & _ & Hsw)%M_bind_Ok)%M_bind_Ok). by apply sweep_saves in Hsw. }
  rewrite Hg in Em. injection Em as <-. unfold times_kept. apply elem_of_dom. exists l. apply map_lookup_filter_Some. split; [done|by apply Hk].
Qed.

(** ** A host whose commands do what they say *)

#[export] Instance plain_links : Links (gmap string Gretap) := {|
  gretaps h := h;
  link_del n h := if bool_decide (is_Some (h !! n)) then (Ok tt, delete n h) else (Raise (mkEmosaError NOT_FOUND "CalledProcessError"), h);
  link_add n l r h := if bool_decide (is_Some (h !! n)) then (Raise (mkEmosaError NOT_FOUND "CalledProcessError"), h) else (Ok tt, <[n := mkGretap l r None]> h);
  link_mtu n m h := (Ok tt, h);
  link_master n b h := (Ok tt, h)
|}.
#[export] Instance plain_links_laws : LinksLaws (gmap string Gretap).
Proof.
  split; [| |done..].
  - intros n h. cbn. by case_bool_decide.
  - intros n l r h. cbn. by case_bool_decide.
Qed.

Definition gex_config : GtpConfig :=
  mkGtpConfig (LINK_LOCAL + 1) 24 (LINK_LOCAL + 10) (LINK_LOCAL + 100) 1600 1500 (Lasting 10 60) "br-lan".
Definition gex_env : HookEnv := mkHookEnv None None 0.
Definition gex_ip : Z := LINK_LOCAL + 17.
Definition gex_add (ip : Z) : command := CLease "boot" Add "02:00:00:00:00:01" true ip gex_env.
Definition gex_del (ip : Z) : command := CLease "boot" Del "02:00:00:00:00:01" true ip gex_env.
Definition gex_clock (n : nat) : Z := Z.min 1000 (Z.of_nat n).

Lemma reconciled_exactly_witness :
  let s := gtp_run gex_config gex_clock (gtp_init ∅) [gex_add gex_ip; gex_add (LINK_LOCAL + 18); gex_del gex_ip] in
  let run := run_command gex_config gex_clock (CReconcile "boot" 5 []) s in
  run.1 = Ok tt ∧ tunnels run.2 = tunnels_of gex_config (∅ ∪ times_kept run.2).
Proof.
  intros s run. assert (E : run.1 = Ok tt) by (vm_compute; reflexivity). split; [exact E|].
  apply (reconciled_exactly gex_config gex_config gex_clock ∅ [gex_add gex_ip; gex_add (LINK_LOCAL + 18); gex_del gex_ip] "boot" 5 []).
  - vm_compute. reflexivity.
  - vm_compute. discriminate.
  - reflexivity.
  - repeat constructor.
  - intros ip Hip. exfalso. revert Hip. apply not_elem_of_empty.
  - rewrite <- E. exact (surjective_pairing run).
Defined.

Lemma clock_step_keeps_tunnel_witness :
  let s1 := gtp_run gex_config gex_clock (gtp_init ∅) [gex_add gex_ip] in
  let s2 := (run_command gex_config gex_clock (gex_del gex_ip) (gtp_run gex_config gex_clock s1 [gex_add (LINK_LOCAL + 18)])).2 in
  tunnels (gtp_run gex_config gex_clock s2 [CReconcile "boot" 5 []]) !! tunnel_name gex_ip = Some (good gex_config gex_ip) ∧
  gex_ip ∈ times_kept s2.
Proof.
  intros s1 s2.
  refine (proj2 (clock_step_keeps_tunnel gex_config gex_config gex_clock ∅ [] "boot" "02:00:00:00:00:01" gex_ip gex_env 600 (gtp_init ∅) s1
    [gex_add (LINK_LOCAL + 18)] "02:00:00:00:00:01" true gex_env s2 [CReconcile "boot" 5 []] _ _ _ _ _ _ _ _ _ _ _ _)).
  - vm_compute. reflexivity.
  - vm_compute. discriminate.
  - reflexivity.
  - constructor.
  - reflexivity.
  - vm_compute. reflexivity.
  - reflexivity.
  - lia.
  - intros n Hn. unfold gex_clock, seconds, margin, EARLY_MARGIN. cbn. lia.
  - constructor; [|constructor]. split; [reflexivity|]. discriminate.
  - vm_compute. reflexivity.
  - constructor; [|constructor]. split; [reflexivity|]. split; [discriminate|]. intros x Hx. exfalso. revert Hx. apply not_elem_of_empty.
Defined.
