(* ===== verification/Onboarding.v ===== *)
(** * The onboarding session: [src/emosa/wire/onboarding.py]

    [OnboardingSession]: discovery, the Early Report, the authenticated WSC exchanges of the radios, and the
    dispatch of the controller's messages to the coordinators; [ClientReannouncement], [non_dpp_admission] and
    [OnboardingRecovery]. The coordinators and the packet sessions, modelled in their own files, are here the
    interface [Parts]: what the session asks of them, over the link, the clock and the message identifiers they
    share with it; nothing is assumed of what they do. The calls of a session follow one another, as the loop of the agent makes them; what
    an exchange asks back while it is awaited, the session's own source, is asked within the call. *)

From S2P Require Import Prelude Bytes Cmdu Reassembly Payloads TopologyValues TopologyBindings Reports Channel ReportSource Session.
From S2P Require Import Disassociation Secrets Autoconfiguration.

(** ** Re-announcement of the clients: [ClientReannouncement] *)

Record Reannounce := mkReannounce { mark : option Z; done : bool }.
#[export] Instance eta_Reannounce : Eta Reannounce := λ r, mkReannounce (mark r) (done r).

(** [provisioned(responses)] *)
Definition provisioned (responses : Z) (r : Reannounce) : Reannounce :=
  match mark r with None => r <| mark := Some responses |> | Some _ => r end.

(** [due(responses)] *)
Definition due (responses : Z) (r : Reannounce) : bool * Reannounce :=
  match mark r with
  | Some m => if done r || bool_decide (responses ≤ m) then (false, r) else (true, r <| done := true |>)
  | None => (false, r)
  end.

(** ** Admission *)

Definition R3_CONTROLLER_FIELDS : list string :=
  ["controller_capability_absent"; "kib_mib_support_absent"; "early_ap_capability_bit_absent_for_non_dpp_search"].

(** [non_dpp_admission(advertisement, message_set=message_set)]; [list.remove] takes the first occurrence *)
Fixpoint remove_first (x : string) (l : list string) : list string :=
  match l with [] => [] | y :: l => if bool_decide (y = x) then l else y :: remove_first x l end.
Definition non_dpp_admission (a : ControllerAdvertisement) (message_set : string) : list string :=
  let issues := remove_first "security_capability_absent" (selected_response_issues a) in
  let issues := if bool_decide (message_set = R1) then filter (λ i, i ∉ R3_CONTROLLER_FIELDS) issues else issues in
  if (bool_decide (message_set ≠ R1) && bool_decide (profile a ≠ 1)) || bool_decide (Autoconfiguration.band a ≠ 0)
  then issues ++ ["outside_profile1_24ghz_contract"] else issues.

(** ** The parts of a session *)

Inductive part :=
  | PReports | PChannels | PPolicy | PDisassociations | PLinks | PApMetrics | PSteering | PBackhaul | PUnassociated.
#[export] Instance part_eq_dec : EqDecision part.
Proof. solve_decision. Defined.

(** The packet session of an exchange: the fronthaul radio's, or a further radio's. *)
Inductive target := Fronthaul | Further (ruid : bytes).
#[export] Instance target_eq_dec : EqDecision target.
Proof. solve_decision. Defined.

(** What the session shares with its parts. *)
Record Shared (P : Type) := mkShared { sh_io : Io; sh_mids : Z; sh_parts : P }.
Arguments mkShared {P}.
Arguments sh_io {P}.
Arguments sh_mids {P}.
Arguments sh_parts {P}.
#[export] Instance eta_Shared {P} : Eta (Shared P) := λ s, mkShared (sh_io s) (sh_mids s) (sh_parts s).

(** What the exchange of a bridge says of itself. *)
Record ExchangeFacts := mkExchangeFacts {
  x_binding : PeerBinding; x_message_set : string; x_basic : Basic; x_profile2 : Profile2; x_advanced : Advanced }.

(** [result["status"]] and [result.get("reason")] of a packet session *)
Record WscOutcome := mkWscOutcome { status : string; wsc_reason : option Reason }.

(** [admitted]: the state of the session is [provisioning], which the AP metrics ask. [ask] is a context the
    exchange asks the session for: [false] when the session had lost its source, which fails the exchange. *)
Class Parts (P : Type) := {
  part_make : part → M (Shared P) unit;
  part_tick : bool → part → M (Shared P) unit;
  part_handle : part → Message → Z → string → Z → M (Shared P) (option string);
  part_ack : part → bytes → string → Z → M (Shared P) (option string);
  part_close : part → P → P;
  reports_receive : bytes → string → Z → M (Shared P) string;
  reports_early : M (Shared P) unit;
  topology_responses : P → Z;
  channels_moved : M (Shared P) unit;
  backhaul_metrics : option (Message → M (Shared P) (option string));
  final_submit : FinalSession → M (Shared P) string;
  bridge_make : nat → ReportSnapshot → M (Shared P) ExchangeFacts;
  bridge_close : nat → P → P;
  wsc_asks : target → P → nat;
  wsc_start : target → bool → M (Shared P) unit;
  wsc_receive : target → bytes → string → Z → bool → M (Shared P) WscOutcome;
  wsc_tick : target → M (Shared P) unit;
  wsc_close : target → P → P
}.

(** ** The session *)

Inductive phase :=
  | waiting_source | discovering | admitting | awaiting_m2 | provisioning | incompatible | failed | source_lost | closed.
#[export] Instance phase_eq_dec : EqDecision phase.
Proof. solve_decision. Defined.

Definition inactive (p : phase) : bool := bool_decide (p ∈ [closed; source_lost; failed; incompatible]).

(** Tokens are in thousandths; [made] are the coordinators there are. *)
Record Onboarding (P : Type) := mkOnboarding {
  o_shared : Shared P;
  o_state : phase;
  o_generation : option Z;
  away_since : option Z;
  notify_due : bool;
  channel_moves : list bytes;
  o_assembly : Reassembler;
  discovery : option DiscoveryExchange;
  made : list part;
  fronthaul : bool;
  o_context : option string;
  o_capabilities : option EarlyCapabilities;
  last_topology : option (list OperationalRadio);
  last_clients : gset (bytes * bytes);
  reannounce : Reannounce;
  next_search : Z;
  o_counts : gmap string Z;
  o_events : list string;
  o_tokens : Z;
  token_time : Z;
  o_issues : list string;
  departures : list ((bytes * bytes) * Z);
  radio_sessions : list bytes;
  radio_awaiting : option bytes;
  next_radio : nat;
  wsc_routes : list ((bytes * Z) * target)
}.
Arguments mkOnboarding {P}.
Arguments o_shared {P}.
Arguments o_state {P}.
Arguments o_generation {P}.
Arguments away_since {P}.
Arguments notify_due {P}.
Arguments channel_moves {P}.
Arguments o_assembly {P}.
Arguments discovery {P}.
Arguments made {P}.
Arguments fronthaul {P}.
Arguments o_context {P}.
Arguments o_capabilities {P}.
Arguments last_topology {P}.
Arguments last_clients {P}.
Arguments reannounce {P}.
Arguments next_search {P}.
Arguments o_counts {P}.
Arguments o_events {P}.
Arguments o_tokens {P}.
Arguments token_time {P}.
Arguments o_issues {P}.
Arguments departures {P}.
Arguments radio_sessions {P}.
Arguments radio_awaiting {P}.
Arguments next_radio {P}.
Arguments wsc_routes {P}.
#[export] Instance eta_Onboarding {P} : Eta (Onboarding P) := λ s,
  mkOnboarding (o_shared s) (o_state s) (o_generation s) (away_since s) (notify_due s) (channel_moves s) (o_assembly s) (discovery s)
    (made s) (fronthaul s) (o_context s) (o_capabilities s) (last_topology s) (last_clients s) (reannounce s) (next_search s)
    (o_counts s) (o_events s) (o_tokens s) (token_time s) (o_issues s) (departures s) (radio_sessions s) (radio_awaiting s)
    (next_radio s) (wsc_routes s).
#[export] Instance Onboarding_io {P} : HasIo (Onboarding P) :=
  {| io_of s := sh_io (o_shared s); with_io i s := s <| o_shared := o_shared s <| sh_io := i |> |> |}.

(** [channel_store], [reporting_policy_store], [steering_executor], [backhaul_steering_executor], [radio_bridge_factory]:
    whether they are given. *)
Record Options := mkOptions {
  has_channels : bool; has_policy : bool; has_steering : bool; has_backhaul : bool; has_further : bool;
  reconnect_window : option Z; message_set : string; inventory : Payload }.

(** An exception that [except (EmosaError, OSError)] does not catch. *)
Definition uncaught (e : EmosaError) : bool := String.prefix "KeyError: " (Prelude.message e) || String.prefix "ValueError: " (Prelude.message e).

(** ["rejected_" + getattr(exc, "code", "send")] *)
Definition rejected_name (e : EmosaError) : string :=
  "rejected_" +:+ if bool_decide (e = os_error) then "send" else reason_value (code e).

(** [dict.fromkeys((..., ...))] *)
Definition add_new (l moved : list bytes) : list bytes :=
  foldl (λ acc x, if bool_decide (x ∈ acc) then acc else acc ++ [x]) l moved.

(** [{(b.bssid, c.mac) for b in bsses for c in b.clients}] *)
Definition clients_in (t : TopologyFacts) : gset (bytes * bytes) :=
  list_to_set (tf_clients t ≫= λ b, (λ c, (bc_bssid b, c_mac c)) <$> clients b).

(** The order of [sorted] on (BSSID, MAC). *)
Definition pair_key (p : bytes * bytes) : string := hex_colon p.1 +:+ " " +:+ hex_colon p.2.

Section Session.
Context `{World} {P : Type} `{!Parts P} (binding : PeerBinding) (opts : Options).
Abbreviation OS := (Onboarding P).

Definition on_shared {A} (m : M (Shared P) A) : M OS A := λ s, let '(r, sh) := m (o_shared s) in (r, s <| o_shared := sh |>).
Definition on_parts (f : P → P) : M OS unit := modify (λ s, s <| o_shared := o_shared s <| sh_parts := f (sh_parts (o_shared s)) |> |>).
Definition on_assembly {A} (m : M Reassembler A) : M OS A := λ s, let '(r, a) := m (o_assembly s) in (r, s <| o_assembly := a |>).

(** An operation of the discovery exchange, on the identifiers shared with it. *)
Definition on_discovery {A} (m : M DiscoveryExchange A) : M OS A := λ s,
  match discovery s with
  | None => (Raise (key_error "discovery"), s)
  | Some d =>
      let '(r, d) := m (d <| d_mids := sh_mids (o_shared s) |>) in
      (r, s <| discovery := Some d |> <| o_shared := o_shared s <| sh_mids := d_mids d |> |>)
  end.

(** [self.mids.next()] *)
Definition take_mid : M OS Z := λ s,
  let mid := next_mid (sh_mids (o_shared s)) in (Ok mid, s <| o_shared := o_shared s <| sh_mids := mid |> |>).

(** [_record(event)] *)
Definition o_record (event : string) : M OS string :=
  _ ← modify (λ s, s <| o_counts := count event (o_counts s) |> <| o_events := deque_append 64 (o_events s) event |>); mret event.
Definition note (event : string) : M OS unit := _ ← o_record event; mret tt.

Definition set_phase (p : phase) : M OS unit := modify (λ s, s <| o_state := p |>).

(** [close()] *)
Definition close_parts (s : OS) (p : P) : P :=
  let p := if bool_decide (PReports ∈ made s) then part_close PReports p else p in
  let p := if fronthaul s then wsc_close Fronthaul p else p in
  let p := foldl (λ p x, if bool_decide (x ∈ made s) then part_close x p else p) p
             [PChannels; PPolicy; PDisassociations; PLinks; PApMetrics; PSteering; PBackhaul; PUnassociated] in
  foldl (λ p r, wsc_close (Further r) p) p (radio_sessions s).
Definition o_close : M OS unit := modify (λ s,
  s <| discovery := Autoconfiguration.close <$> discovery s |>
    <| o_shared := o_shared s <| sh_parts := close_parts s (sh_parts (o_shared s)) |> |>
    <| radio_awaiting := None |> <| departures := [] |> <| o_state := closed |>).

(** [_lost(reason)] *)
Definition o_lost (reason : option string) : M OS (option ReportSnapshot) :=
  _ ← o_close;
  _ ← set_phase source_lost;
  _ ← note "source_lost";
  _ ← match reason with Some r => note r | None => mret tt end;
  mret None.

(** Of [_snapshot]: the source shows nothing. *)
Definition snapshot_away (keeps : bool) : M OS (option ReportSnapshot) :=
  bound ← (if keeps then b ← on_io poll_binding; mret (bool_decide (b = binding)) else mret false);
  match reconnect_window opts with
  | Some window =>
      if negb (bound : bool) then o_lost None
      else
        s ← get;
        _ ← (if bool_decide (away_since s = None) then
               now ← on_io clock; _ ← modify (λ s, s <| away_since := Some now |>); note "reconnection_held"
             else mret tt);
        now ← on_io clock;
        s ← get;
        if bool_decide (now < default 0 (away_since s) + window) then mret None
        else o_lost (Some "reconnection_window_passed")
  | None => o_lost None
  end.

(** Of [_snapshot]: the capabilities of the source are, or remain, the session's. *)
Definition snapshot_capabilities (keeps : bool) (a : ReportSnapshot) : M OS bool :=
  s ← get;
  match o_capabilities s with
  | Some c =>
      if bool_decide (ReportSource.capabilities a = c) then mret true
      else if negb keeps || bool_decide (capabilities_identity (ReportSource.capabilities a) ≠ capabilities_identity c) then mret false
      else
        moved ← lift (operable_channels_moved c (ReportSource.capabilities a));
        _ ← modify (λ s, s <| o_capabilities := Some (ReportSource.capabilities a) |> <| channel_moves := add_new (channel_moves s) moved |>);
        _ ← note "channel_move_kept";
        mret true
  | None => mret false
  end.

(** [_snapshot()] *)
Definition o_snapshot : M OS (option ReportSnapshot) :=
  b ← on_io poll_binding;
  snapshot ← (if bool_decide (b = binding) then on_io poll else mret None);
  s ← get;
  match o_context s with
  | None => mret snapshot
  | Some context =>
      let keeps := bool_decide (o_state s = provisioning) && bool_decide (is_Some (reconnect_window opts)) in
      match snapshot with
      | None => snapshot_away keeps
      | Some a =>
          if negb (bool_decide (context_token a = context)) then o_lost None
          else
            kept ← snapshot_capabilities keeps a;
            if negb (kept : bool) then o_lost None
            else
              s ← get;
              if bool_decide (s_generation a = o_generation s) && bool_decide (away_since s = None) then mret (Some a)
              else if negb keeps then o_lost None
              else
                _ ← modify (λ s, s <| o_generation := s_generation a |> <| away_since := None |> <| notify_due := true |>);
                _ ← note "reconnection_kept";
                mret (Some a)
      end
  end.

(** [_stamp()] *)
Definition o_stamp : M OS (option ReportStamp) := a ← o_snapshot; mret (s_stamp <$> a).

(** [snapshot.stamp.check(self._stamp(), self.clock())] *)
Definition o_check (from : ReportSnapshot) : M OS unit :=
  st ← o_stamp; now ← on_io clock; lift (stamp_check (s_stamp from) st now).

(** A loop that checks the stamp before each frame, and after it when [after]. *)
Definition send_checked (from : ReportSnapshot) (after : bool) (fs : list bytes) : M OS unit :=
  for_each (λ f,
    _ ← o_check from;
    _ ← on_io (send_frame f);
    if after then o_check from else mret tt) fs.

(** ** Discovery *)

(** The state [waiting_source] of [tick]. *)
Definition begin_discovery (a : ReportSnapshot) : M OS unit :=
  _ ← lift (capability_tlvs (ReportSource.capabilities a));
  _ ← lift (raise_if (negb (bool_decide (length (cap_radios (ReportSource.capabilities a)) = 1%nat)) && negb (has_further opts)) UNSUPPORTED_OPERATION
              "one radio required");
  _ ← modify (λ s, s <| o_context := Some (context_token a) |> <| o_capabilities := Some (ReportSource.capabilities a) |>
                     <| o_generation := s_generation a |>);
  now ← on_io clock;
  s ← get;
  d ← lift (DiscoveryExchange_init now binding 0 1 (profile2 (ReportSource.capabilities a)) (sh_mids (o_shared s)) (seconds 5) 3 (message_set opts));
  _ ← modify (λ s, s <| discovery := Some d |>);
  set_phase discovering.

(** One Search. *)
Definition search (a : ReportSnapshot) : M OS unit :=
  try_else
    (now ← on_io clock;
     fs ← on_discovery (d_request now);
     _ ← send_checked a true fs;
     now ← on_io clock;
     _ ← modify (λ s, s <| next_search := now + seconds 1 |>);
     note "search_sent")
    mret
    (λ e, if uncaught e then lift (Raise e)
          else _ ← o_close; _ ← set_phase failed; note "search_send_failed").

(** The state [discovering] of [tick]. *)
Definition discover (a : ReportSnapshot) : M OS unit :=
  now ← on_io clock;
  s ← get;
  match discovery s with
  | None => lift (Raise (key_error "discovery"))
  | Some d =>
      if bool_decide (deadline (d_life d) ≤ now) then
        _ ← set_phase failed; note "discovery_timeout"
      else
        now ← on_io clock;
        if bool_decide (next_search s ≤ now) && bool_decide (transmissions (d_life d) < 3) then search a else mret tt
  end.

(** ** WSC exchanges *)

(** [_check_bridge(bridge, radio)] *)
Definition check_bridge (index : nat) (x : ExchangeFacts) (radio : EarlyRadio) : M OS unit :=
  s ← get;
  if negb (bool_decide (x_binding x = binding)) || negb (bool_decide (x_message_set x = message_set opts))
     || negb (bool_decide (x_basic x = basic radio)) || negb (bool_decide (Some (x_profile2 x) = profile2 <$> o_capabilities s))
     || negb (bool_decide (x_advanced x = Reports.advanced radio))
  then _ ← on_parts (bridge_close index); lift (Raise (mkEmosaError NOT_READY "WSC/report capabilities disagree"))
  else mret tt.

(** The contexts an exchange asks for while it is awaited ([admitted_context] of [_admitted]): it fails at the first
    that the session has no source for. *)
Fixpoint ask_contexts (n : nat) : M OS bool :=
  match n with
  | O => mret true
  | S n => a ← o_snapshot; if bool_decide (is_Some a) then ask_contexts n else mret false
  end.
Definition await_start (t : target) : M OS unit :=
  s ← get; ok ← ask_contexts (wsc_asks t (sh_parts (o_shared s))); on_shared (wsc_start t ok).
Definition await_receive (t : target) (frame : bytes) (ing : string) (gen : Z) : M OS WscOutcome :=
  s ← get; ok ← ask_contexts (wsc_asks t (sh_parts (o_shared s))); on_shared (wsc_receive t frame ing gen ok).

(** [_next_radio(snapshot)] *)
Definition o_next_radio (a : ReportSnapshot) : M OS unit :=
  s ← get;
  let radios := from_option cap_radios [] (o_capabilities s) in
  match radios !! next_radio s with
  | Some radio =>
      if negb (has_further opts) || bool_decide (is_Some (radio_awaiting s)) then mret tt
      else
        let index := next_radio s in
        let ruid := basic_ruid (basic radio) in
        _ ← modify (λ s, s <| next_radio := S index |>);
        try_else
          (x ← on_shared (bridge_make index a);
           _ ← check_bridge index x radio;
           _ ← modify (λ s, s <| radio_sessions := if bool_decide (ruid ∈ radio_sessions s) then radio_sessions s else radio_sessions s ++ [ruid] |>
                              <| radio_awaiting := Some ruid |>);
           _ ← await_start (Further ruid);
           note "radio_m1_sent")
          mret
          (λ e, if uncaught e then lift (Raise e) else _ ← o_close; _ ← set_phase failed; note "radio_m1_failed")
  | None => mret tt
  end.

(** [_wsc_session(fragment)] *)
Definition wsc_session (f : Fragment) : M OS target :=
  s ← get;
  let key := (Cmdu.source f, Cmdu.mid f) in
  t ← (if bool_decide (fid f ≠ 0) then
         mret (default Fronthaul (snd <$> (snd <$> list_find (λ kt, kt.1 = key) (wsc_routes s))))
       else
         let tlvs := match parse_tlvs (payload f) (Cmdu.last f) with Ok l => l | Raise _ => [] end in
         let ruid := tlv_value <$> head (filter (λ t, Cmdu.kind t = 0x82) tlvs) in
         let t := match ruid with Some r => if bool_decide (r ∈ radio_sessions s) then Further r else Fronthaul | None => Fronthaul end in
         _ ← (if Cmdu.last f then mret tt
              else modify (λ s, s <| wsc_routes := od_set key t (drop (length (wsc_routes s) - 3) (wsc_routes s)) |>));
         mret t);
  _ ← (if Cmdu.last f then modify (λ s, s <| wsc_routes := od_pop key (wsc_routes s) |>) else mret tt);
  mret t.

(** [awaiting_m2] *)
Definition is_awaiting_m2 (s : OS) : bool :=
  bool_decide (o_state s = awaiting_m2) || (bool_decide (o_state s = provisioning) && bool_decide (is_Some (radio_awaiting s))).

(** ** [tick] *)

Definition tick_part (p : part) : M OS unit :=
  s ← get;
  if bool_decide (p ∈ made s) then on_shared (part_tick (bool_decide (o_state s = provisioning)) p) else mret tt.

Fixpoint fresh_departures (l : list ((bytes * bytes) * Z)) : M OS (list ((bytes * bytes) * Z)) :=
  match l with
  | [] => mret []
  | (k, at_) :: l =>
      now ← on_io clock;
      rest ← fresh_departures l;
      mret (if bool_decide (now < at_ + seconds 2) then (k, at_) :: rest else rest)
  end.

(** The Channel Preference Report of the radios that moved. *)
Definition report_moves (a : ReportSnapshot) : M OS unit :=
  s ← get;
  if bool_decide (channel_moves s = []) then mret tt
  else
    mid ← take_mid;
    fs ← lift (fragment_message (controller_al binding) (local_al binding) 0x8005 mid
                 (moved_preferences (default (ReportSource.capabilities a) (o_capabilities s)) (channel_moves s) (held_radios a)) false MAX_CMDU);
    _ ← send_checked a false fs;
    _ ← modify (λ s, s <| channel_moves := [] |>);
    _ ← note "channel_preference_report_unsolicited";
    s ← get;
    if bool_decide (PChannels ∈ made s) then on_shared channels_moved else mret tt.

(** The Topology Notification of an observed change, or of a kept reconnection. *)
Definition notify_topology (a : ReportSnapshot) : M OS unit :=
  s ← get;
  if bool_decide (last_topology s = Some (operational (topology a))) && negb (notify_due s) then mret tt
  else
    mid ← take_mid;
    fs ← lift (fragment_message MULTICAST (local_al binding) 1 mid [mkTlv 1 (local_al binding)] true MAX_CMDU);
    _ ← send_checked a false fs;
    _ ← modify (λ s, s <| last_topology := Some (operational (topology a)) |> <| notify_due := false |>);
    note "observed_topology_notification".

(** The notification of one client that joined or left. *)
Definition client_tlvs (joined : bool) (p : bytes * bytes) : list Tlv :=
  [mkTlv 1 (local_al binding); mkTlv 0x92 (p.2 ++ p.1 ++ octets [if joined then 0x80 else 0])].
Definition notify_client (a : ReportSnapshot) (now_there : gset (bytes * bytes)) (p : bytes * bytes) : M OS unit :=
  let joined := bool_decide (p ∈ now_there) in
  mid ← take_mid;
  fs ← lift (fragment_message MULTICAST (local_al binding) 1 mid (client_tlvs joined p) true MAX_CMDU);
  _ ← send_checked a true fs;
  _ ← note (if joined then "client_join_notification" else "client_leave_notification");
  if joined then modify (λ s, s <| departures := od_pop p (departures s) |> <| last_clients := {[p]} ∪ last_clients s |>)
  else
    _ ← note "disassociation_statistics_unavailable";
    s ← get;
    _ ← (if bool_decide (length (departures s) < 64)%nat then
           now ← on_io clock; modify (λ s, s <| departures := od_set p now (departures s) |>)
         else mret tt);
    modify (λ s, s <| last_clients := last_clients s ∖ {[p]} |>).

(** The clients that joined or left since the last notifications. *)
Definition changed_clients (now_there last : gset (bytes * bytes)) : list (bytes * bytes) :=
  sort_by pair_key (elements ((now_there ∖ last) ∪ (last ∖ now_there))).
Definition notify_clients (a : ReportSnapshot) : M OS unit :=
  s ← get;
  let '(again, r) := due (topology_responses (sh_parts (o_shared s))) (reannounce s) in
  _ ← modify (λ s, s <| reannounce := r |>);
  _ ← (if again then _ ← modify (λ s, s <| last_clients := ∅ |>); note "clients_reannounced" else mret tt);
  if inventory_complete (topology a) then
    s ← get;
    let now_there := clients_in (topology a) in
    for_each (notify_client a now_there) (changed_clients now_there (last_clients s))
  else mret tt.

(** What [tick] does once there is a packet session. *)
Definition tick_provisioning (a : ReportSnapshot) : M OS unit :=
  _ ← on_shared (wsc_tick Fronthaul);
  s ← get;
  _ ← for_each (λ r, on_shared (wsc_tick (Further r))) (radio_sessions s);
  s ← get;
  _ ← (if bool_decide (o_state s = provisioning) then o_next_radio a else mret tt);
  s' ← get;
  if bool_decide (o_state s = provisioning) && negb (bool_decide (o_state s' = provisioning)) then mret tt
  else _ ← report_moves a; _ ← notify_topology a; notify_clients a.

(** [tick()] *)
Definition o_tick : M OS unit :=
  s ← get;
  if inactive (o_state s) then mret tt
  else
    snapshot ← o_snapshot;
    now ← on_io clock;
    _ ← on_assembly (expire now);
    match snapshot with
    | None => mret tt
    | Some a =>
        s ← get;
        _ ← (if bool_decide (o_state s = waiting_source) then begin_discovery a else mret tt);
        s ← get;
        _ ← (if bool_decide (o_state s = discovering) then discover a else mret tt);
        _ ← tick_part PReports;
        _ ← tick_part PChannels;
        _ ← tick_part PPolicy;
        s ← get;
        _ ← (if bool_decide (o_state s = provisioning) then tick_part PLinks else mret tt);
        _ ← tick_part PBackhaul;
        _ ← tick_part PDisassociations;
        s ← get;
        fresh ← fresh_departures (departures s);
        _ ← modify (λ s, s <| departures := fresh |>);
        s ← get;
        if fronthaul s then tick_provisioning a else mret tt
    end.

(** ** [receive] *)

(** A WSC frame, once there is a packet session. *)
Definition receive_wsc (f : Fragment) (frame : bytes) (ing : string) (gen : Z) : M OS string :=
  t ← wsc_session f;
  result ← await_receive t frame ing gen;
  match t with
  | Further r =>
      s ← get;
      _ ← (if bool_decide (radio_awaiting s = Some r)
              && (bool_decide (status result = "operation")
                  || bool_decide (wsc_reason result = Some INVALID_INPUT) || bool_decide (wsc_reason result = Some UNSUPPORTED_OPERATION))
           then modify (λ s, s <| radio_awaiting := None |>) else mret tt);
      o_record ("radio_wsc_" +:+ status result)
  | Fronthaul =>
      _ ← (if bool_decide (status result = "operation") then
             _ ← set_phase provisioning;
             s ← get;
             if bool_decide (PReports ∈ made s)
             then modify (λ s, s <| reannounce := provisioned (topology_responses (sh_parts (o_shared s))) (reannounce s) |>)
             else mret tt
           else mret tt);
      o_record ("wsc_" +:+ status result)
  end.

(** An acknowledgment or a topology query, once there is a report coordinator. *)
Definition receive_report (f : Fragment) (frame : bytes) (ing : string) (gen : Z) : M OS string :=
  s ← get;
  let ack p := if bool_decide (message_type f = 0x8000) && bool_decide (p ∈ made s) then on_shared (part_ack p frame ing gen) else mret None in
  r1 ← ack PDisassociations;
  match r1 with
  | Some e => o_record e
  | None =>
      r2 ← ack PChannels;
      match r2 with
      | Some e => o_record e
      | None => on_shared (reports_receive frame ing gen)
      end
  end.

Definition make_part (p : part) : M OS unit :=
  _ ← on_shared (part_make p); modify (λ s, s <| made := made s ++ [p] |>).
Definition make_if (b : bool) (p : part) : M OS unit := if b then make_part p else mret tt.

(** A Response while discovering: the coordinators, the Early Report, then M1. *)
Definition o_admit (a : ReportSnapshot) (message : Message) (ing : string) (gen : Z) : M OS string :=
  now ← on_io clock;
  advertisement ← on_discovery (d_receive now message ing gen);
  let issues := non_dpp_admission advertisement (message_set opts) in
  _ ← modify (λ s, s <| o_issues := issues |>);
  if negb (bool_decide (issues = [])) then _ ← set_phase incompatible; o_record "response_incompatible"
  else
    _ ← set_phase admitting;
    _ ← make_part PReports;
    _ ← make_part PDisassociations;
    _ ← make_part PLinks;
    _ ← make_part PApMetrics;
    _ ← make_if (has_channels opts) PChannels;
    _ ← make_part PUnassociated;
    _ ← make_if (has_steering opts) PSteering;
    _ ← make_if (has_backhaul opts) PBackhaul;
    _ ← make_if (has_policy opts) PPolicy;
    _ ← (if bool_decide (message_set opts = R1) then mret tt else on_shared reports_early);
    x ← on_shared (bridge_make 0 a);
    s ← get;
    match head (from_option cap_radios [] (o_capabilities s)) with
    | None => lift (Raise (key_error "radios[0]"))
    | Some radio =>
        _ ← check_bridge 0 x radio;
        _ ← modify (λ s, s <| fronthaul := true |>);
        _ ← o_snapshot;
        s ← get;
        if bool_decide (o_state s = source_lost) then o_record "source_unavailable"
        else
          _ ← await_start Fronthaul;
          _ ← set_phase awaiting_m2;
          o_record "early_then_m1_sent"
    end.

(** [self.<part>.handle(message, now)] when there is such a part, and the session is far enough. *)
Definition offer (p : part) (provisioned_only : bool) (message : Message) (now : Z) (ing : string) (gen : Z) : M OS (option string) :=
  s ← get;
  if bool_decide (p ∈ made s) && (negb provisioned_only || bool_decide (o_state s = provisioning))
  then on_shared (part_handle p message now ing gen) else mret None.

(** The first part that takes the message. *)
Fixpoint first_taking (l : list (M OS (option string))) : M OS (option string) :=
  match l with
  | [] => mret None
  | m :: l => r ← m; match r with Some e => Some <$> o_record e | None => first_taking l end
  end.

Definition offers (message : Message) (now : Z) (ing : string) (gen : Z) : list (M OS (option string)) :=
  [offer PChannels false message now ing gen;
   offer PPolicy false message now ing gen;
   (s ← get;
    match backhaul_metrics with
    | Some handle => if bool_decide (o_state s = provisioning) then on_shared (handle message) else mret None
    | None => mret None
    end);
   offer PLinks true message now ing gen;
   offer PApMetrics true message now ing gen;
   offer PSteering true message now ing gen;
   (s ← get; if fronthaul s then offer PBackhaul false message now ing gen else mret None);
   offer PUnassociated true message now ing gen].

(** [PreparedReport(...).send(self.send_frame, self._stamp, clock=self.clock)] of a response *)
Definition respond (a : ReportSnapshot) (kind mid now : Z) (tlvs : list Tlv) : M OS unit :=
  fs ← lift (fragment_message (controller_al binding) (local_al binding) kind mid tlvs false MAX_CMDU);
  _ ← send (λ f, on_io (send_frame f)) o_stamp (on_io clock)
        (mkPreparedReport kind mid (s_stamp a) (Z.min (now + seconds 1) (valid_until (s_stamp a))) fs);
  mret tt.

(** The TLVs of the Client Capability Report. *)
Definition client_capability_tlvs (a : ReportSnapshot) (message : Message) : result (list Tlv) :=
  match filter (λ t, Cmdu.kind t = 0x90) (m_tlvs message) with
  | [info] =>
      _ ← raise_if (negb (bool_decide (length (tlv_value info) = 12%nat))) INVALID_INPUT "one complete Client Info TLV required";
      _ ← raise_if (negb (inventory_complete (topology a))) NOT_READY "client inventory unavailable";
      let mac := drop 6 (tlv_value info) in
      let associated := existsb (λ b, existsb (λ c, bool_decide (c_mac c = mac)) (clients b)) (tf_clients (topology a)) in
      Ok [info; mkTlv 0x91 (octets [1]); mkTlv 0xA3 (octets [if associated then 3 else 2] ++ mac)]
  | _ => invalid "one complete Client Info TLV required"
  end.

(** The refusal of a Backhaul Steering Request: the frames of its acknowledgment and of the failure. *)
Definition refuse_steering (message : Message) : M OS unit :=
  match filter (λ t, Cmdu.kind t = 0x9E) (m_tlvs message) with
  | [request] =>
      let r := tlv_value request in
      _ ← lift (raise_if (negb (bool_decide (length r = 14%nat))) INVALID_INPUT "one Backhaul Steering Request TLV");
      let failure := [mkTlv 0x9F (take 12 r ++ octets [1]); mkTlv 0xA3 (octets [6] ++ take 6 r)] in
      for_each (λ kt, fs ← lift (fragment_message (controller_al binding) (local_al binding) kt.1 (m_mid message) kt.2 false MAX_CMDU);
                      for_each (λ f, on_io (send_frame f)) fs) [(0x8000, []); (0x801A, failure)]
  | _ => lift (invalid "one Backhaul Steering Request TLV")
  end.

(** What the session answers itself. *)
Definition answer_itself (a : ReportSnapshot) (message : Message) (now : Z) : M OS string :=
  s ← get;
  let kind := m_message_type message in
  if bool_decide (kind = 0x8001) && fronthaul s then
    tlvs ← lift (capability_tlvs (ReportSource.capabilities a));
    own ← lift (em (inventory opts));
    _ ← respond a 0x8002 (m_mid message) now (filter (λ t, Cmdu.kind t ≠ 0xED) tlvs ++ [own]);
    o_record "ap_capability_report_sent"
  else if bool_decide (kind = 0x8009) && fronthaul s then
    tlvs ← lift (client_capability_tlvs a message);
    _ ← respond a 0x800A (m_mid message) now tlvs;
    o_record "client_capability_unavailable_report"
  else if bool_decide (kind = 0x8027) && fronthaul s then
    _ ← respond a 0x8028 (m_mid message) now
          ((λ rs, mkTlv 0xCB (rs.1 ++ match rs.2 with Some sta => octets [0x80] ++ sta | None => octets [0] end)) <$> backhaul_radios (topology a));
    o_record "backhaul_sta_capability_report_sent"
  else if bool_decide (kind = 0x8019) && fronthaul s then
    _ ← refuse_steering message;
    o_record "backhaul_steering_refused"
  else o_record ("unsupported_message_" +:+ Secrets.hex 4 kind).

(** A complete message. *)
Definition dispatch (a : ReportSnapshot) (message : Message) (now : Z) (ing : string) (gen : Z) : M OS string :=
  _ ← lift (raise_if (m_relay message || existsb (λ t, bool_decide (Cmdu.kind t ∈ SECURITY_ENVELOPES)) (m_tlvs message)) UNSUPPORTED_OPERATION
              "unsupported input envelope");
  s ← get;
  if bool_decide (m_message_type message = 8) && bool_decide (o_state s = discovering) then o_admit a message ing gen
  else
    taken ← first_taking (offers message now ing gen);
    match taken with
    | Some e => mret e
    | None => answer_itself a message now
    end.

(** The [try] of [receive]. *)
Definition receive_bound (f : Fragment) (frame : bytes) (now : Z) (ing : string) (gen : Z) : M OS string :=
  snapshot ← o_snapshot;
  match snapshot with
  | None => o_record "source_unavailable"
  | Some a =>
      s ← get;
      if bool_decide (message_type f = 9) then
        if fronthaul s then receive_wsc f frame ing gen else o_record "wsc_before_admission"
      else if bool_decide (message_type f ∈ [2; 0x8000]) && bool_decide (PReports ∈ made s) then receive_report f frame ing gen
      else
        now0 ← on_io clock;
        now1 ← on_io clock;
        message ← on_assembly (feed now0 now1 frame ing);
        match message with
        | None => mret "incomplete"
        | Some message => dispatch a message now ing gen
        end
  end.

(** [receive(frame, ingress=ingress, generation=generation)] *)
Definition o_receive (frame : bytes) (ing : string) (gen : Z) : M OS string :=
  s ← get;
  if inactive (o_state s) then o_record "inactive_input"
  else
    now ← on_io clock;
    match (f ← decode_frame frame; _ ← binding_check binding (Cmdu.destination f) (Cmdu.source f) ing gen; Ok f) with
    | Raise _ => o_record "foreign_frame"
    | Ok f =>
        _ ← modify (λ s, s <| o_tokens := Z.min (seconds 32) (o_tokens s + Z.max 0 (now - token_time s) * 16) |> <| token_time := now |>);
        s ← get;
        if bool_decide (o_tokens s < seconds 1) then o_record "rate_limited"
        else
          _ ← modify (λ s, s <| o_tokens := o_tokens s - seconds 1 |>);
          try_else (receive_bound f frame now ing gen) mret
            (λ e, if uncaught e then lift (Raise e)
                  else
                    s ← get;
                    _ ← (if bool_decide (o_state s = admitting) then _ ← o_close; set_phase failed else mret tt);
                    o_record (rejected_name e))
    end.

(** [report_final_session(event)] *)
Definition report_final_session (event : FinalSession) : M OS string :=
  s ← get;
  let departed := snd <$> (snd <$> list_find (λ kv, kv.1 = (fs_bssid event, fs_station event)) (departures s)) in
  let no := lift (Raise (mkEmosaError NOT_READY "no fresh admitted client departure")) in
  if negb (bool_decide (o_state s = provisioning)) then no
  else
    a ← o_snapshot;
    match a, departed with
    | Some _, Some at_ =>
        now ← on_io clock;
        if negb (bool_decide (0 ≤ now - at_ < seconds 2)) || bool_decide (fs_observed_at event < at_ - seconds 2) then no
        else r ← on_shared (final_submit event); o_record r
    | _, _ => no
    end.
End Session.

(** ** Inputs *)

Inductive o_input :=
  | OTick
  | OReceive (frame : bytes) (ing : string) (gen : Z)
  | OFinal (event : FinalSession)
  | OClose.

Definition o_serve `{World} {P} `{!Parts P} (binding : PeerBinding) (opts : Options) (s : Onboarding P) (i : o_input) : Onboarding P :=
  match i with
  | OTick => (o_tick binding opts s).2
  | OReceive frame ing gen => (o_receive binding opts frame ing gen s).2
  | OFinal event => (report_final_session binding opts event s).2
  | OClose => (o_close s).2
  end.

(** [OnboardingSession(...)]: the checks of its arguments are made before; [clock] is read once *)
Definition Onboarding_init `{World} {P} (sh : Shared P) : Onboarding P :=
  mkOnboarding (sh <| sh_io := sh_io sh <| asked := S (asked (sh_io sh)) |> |>) waiting_source None None false []
    (mkReassembler (seconds 5) 2 16384 8192 8 ∅ 0) None [] false None None None ∅ (mkReannounce None false) 0 ∅ [] (seconds 32)
    (world_clock (asked (sh_io sh))) [] [] [] None 1 [].
