(* ===== verification/OnboardingReports.v ===== *)
(** * The onboarding session with its report coordinator

    [OnboardingSession] composed with [ReportCoordinator] ([src/emosa/wire/coordinator.py], as modelled in
    Coordinator.v): an instance of [Parts] whose reports are those of the real coordinator, over the link, the clock and
    the message identifiers the session shares with it, and whose other coordinators and packet sessions are any at all.
    [recording] adds to parts a record of two kinds of calls: a [notify_early] that returned, with what was on
    the link, and a call of a packet session. *)

From S2P Require Import Coordinator Prelude Bytes Cmdu Reassembly Payloads TopologyValues Reports ReportSource Session.
From S2P Require Import Autoconfiguration Disassociation Onboarding.

(** ** The report coordinator among other parts *)

Section Reports.
Context `{World} (binding : PeerBinding) (message_set : string) {Q : Type} `{!Parts Q}.
Abbreviation RQ := (option Coordinator.Coordinator * Q)%type.

(** A call of the coordinator, [ReportCoordinator(..., mids=self.mids)], over what is shared. *)
Definition on_reports {A} (m : M Coordinator.Coordinator A) : M (Shared RQ) A := λ sh,
  match (sh_parts sh).1 with
  | None => (Raise (key_error "reports"), sh)
  | Some c =>
      let '(r, c') := m (c <| Coordinator.c_io := sh_io sh |> <| Coordinator.c_mids := sh_mids sh |>) in
      (r, mkShared (Coordinator.c_io c') (Coordinator.c_mids c') (Some c', (sh_parts sh).2))
  end.

Definition make_reports : M (Shared RQ) unit := λ sh,
  let c := Coordinator.c_init (sh_mids sh) (sh_io sh) in
  (Ok tt, mkShared (Coordinator.c_io c) (Coordinator.c_mids c) (Some c, (sh_parts sh).2)).

(** A call of another part. *)
Definition on_rest {A} (m : M (Shared Q) A) : M (Shared RQ) A := λ sh,
  let '(r, sh') := m (mkShared (sh_io sh) (sh_mids sh) (sh_parts sh).2) in
  (r, mkShared (sh_io sh') (sh_mids sh') ((sh_parts sh).1, sh_parts sh')).

(** The parts of a session, the report coordinator [self.reports] and the others. *)
Definition with_reports : Parts RQ := {|
  part_make p := match p with PReports => make_reports | _ => on_rest (part_make p) end;
  part_tick admitted p := match p with PReports => on_reports (Coordinator.tick binding) | _ => on_rest (part_tick admitted p) end;
  part_handle p m now ing gen := on_rest (part_handle p m now ing gen);
  part_ack p f ing gen := on_rest (part_ack p f ing gen);
  part_close p cq := match p with PReports => (Coordinator.c_close <$> cq.1, cq.2) | _ => (cq.1, part_close p cq.2) end;
  reports_receive f ing gen := on_reports (Coordinator.receive binding message_set f ing gen);
  reports_early := on_reports (Coordinator.notify_early binding);
  topology_responses cq := from_option Coordinator.responses 0 cq.1;
  channels_moved := on_rest channels_moved;
  backhaul_metrics := (λ handle m, on_rest (handle m)) <$> backhaul_metrics;
  final_submit e := on_rest (final_submit e);
  bridge_make n a := on_rest (bridge_make n a);
  bridge_close n cq := (cq.1, bridge_close n cq.2);
  wsc_asks t cq := wsc_asks t cq.2;
  wsc_start t ok := on_rest (wsc_start t ok);
  wsc_receive t f ing gen ok := on_rest (wsc_receive t f ing gen ok);
  wsc_tick t := on_rest (wsc_tick t);
  wsc_close t cq := (cq.1, wsc_close t cq.2)
|}.
#[local] Existing Instance with_reports.

(** The Early AP Capability Report, of capabilities the source showed, is the last on the link, whole. *)
Definition early_last (link : list bytes) : Prop :=
  ∃ n a tlvs mid fs pre, world_source n = Some a ∧ capability_tlvs (ReportSource.capabilities a) = Ok tlvs
    ∧ fragment_message (controller_al binding) (local_al binding) EARLY_AP_REPORT mid tlvs false MAX_CMDU = Ok fs ∧ link = pre ++ fs.

Lemma c_early_report_made pending c r c' :
  Coordinator.c_early_report binding pending c = (Ok r, c') → Coordinator.made binding pending r.
Proof.
  unfold Coordinator.c_early_report. intros (now & c1 & _ & E)%M_bind_Ok. apply M_bind_Ok in E as (? & ? & [= <- <-] & E).
  destruct (early_report _ _ _ _ _) as [x m] eqn:Er. apply M_bind_Ok in E as (u & c2 & _ & E). injection E as -> _.
  by eapply Coordinator.early_report_made.
Qed.

(** The report [notify_early] returns of was sent whole, and last. *)
Lemma notify_whole c c' : Coordinator.notify_early binding c = (Ok tt, c') → early_last (sent (Coordinator.c_io c')).*2.
Proof.
  unfold Coordinator.notify_early. intros (? & ? & [= <- <-] & E)%M_bind_Ok. destruct (Coordinator.c_pending c) as [|]; [done|].
  apply M_bind_Ok in E as (a & c1 & Ea & E). apply M_bind_Ok in E as (now & c2 & _ & E). apply M_bind_Ok in E as (? & c3 & _ & E).
  assert (Hshown : ∃ n, world_source n = Some a).
  { unfold Coordinator.c_on_io in Ea. destruct (Coordinator.c_facts _ _ _) as [y i] eqn:Ef. injection Ea as -> _.
    by apply Coordinator.c_facts_shown in Ef as [_ ?]. }
  unfold try_else in E. destruct (Coordinator.transmit_early binding _ c3) as [[[]|e] c4] eqn:Et; [|by apply M_bind_Ok in E as (? & ? & _ & [=])].
  injection E as <-. unfold Coordinator.transmit_early in Et.
  apply M_bind_Ok in Et as (? & c5 & _ & Et). apply M_bind_Ok in Et as (? & c6 & _ & Et). apply M_bind_Ok in Et as (? & c7 & _ & Et).
  apply M_bind_Ok in Et as (r & c8 & Er & Et). apply M_bind_Ok in Et as (k & c9 & Es & Et).
  apply c_early_report_made in Er as (tlvs & Ht & Hf). unfold Coordinator.c_on_io in Es.
  match type of Es with context [send _ _ _ ?rep _] =>
    destruct (send_run (Coordinator.c_stamp binding) rep (Coordinator.c_io c8) (Coordinator.silent_c_stamp binding)) as (x' & n & new & E' & _ & Hk) end.
  rewrite E' in Es. injection Es as -> <-. specialize (Hk k eq_refl). cbn in Hk.
  cbv [Coordinator.c_record Coordinator.c_on_io clock modify mbind M_mbind mret M_mret] in Et. injection Et as <-. cbn.
  destruct Hshown as [m Hm]. exists m, a, tlvs, (pr_mid r), (frames r), (sent (Coordinator.c_io c8)).*2.
  split; [done|]. split; [exact Ht|]. split; [exact Hf|]. by rewrite fmap_app, Hk.
Qed.

Lemma reports_early_whole sh sh' : reports_early sh = (Ok tt, sh') → early_last (sent (sh_io sh')).*2.
Proof.
  cbn. unfold on_reports. destruct (sh_parts sh).1 as [c|]; [|done].
  destruct (Coordinator.notify_early binding _) as [r c'] eqn:E. intros [= -> <-]. cbn. by apply notify_whole in E.
Qed.
End Reports.

(** ** A record of the calls *)

Inductive call := EarlyReturned (link : list bytes) | ExchangeCall (t : target).

Section Recording.
Context {P : Type} `{!Parts P}.
Abbreviation RP := (P * list call)%type.

Definition recorded {A} (seen : result A → Shared P → list call) (m : M (Shared P) A) : M (Shared RP) A := λ sh,
  let '(r, sh') := m (mkShared (sh_io sh) (sh_mids sh) (sh_parts sh).1) in
  (r, mkShared (sh_io sh') (sh_mids sh') (sh_parts sh', (sh_parts sh).2 ++ seen r sh')).
Definition unseen {A} (m : M (Shared P) A) : M (Shared RP) A := recorded (λ _ _, []) m.

#[local] Instance recording : Parts RP := {|
  part_make p := unseen (part_make p);
  part_tick admitted p := unseen (part_tick admitted p);
  part_handle p m now ing gen := unseen (part_handle p m now ing gen);
  part_ack p f ing gen := unseen (part_ack p f ing gen);
  part_close p pc := (part_close p pc.1, pc.2);
  reports_receive f ing gen := unseen (reports_receive f ing gen);
  reports_early := recorded (λ r sh, if is_ok r then [EarlyReturned (sent (sh_io sh)).*2] else []) reports_early;
  topology_responses pc := topology_responses pc.1;
  channels_moved := unseen channels_moved;
  backhaul_metrics := (λ handle m, unseen (handle m)) <$> backhaul_metrics;
  final_submit e := unseen (final_submit e);
  bridge_make n a := unseen (bridge_make n a);
  bridge_close n pc := (bridge_close n pc.1, pc.2);
  wsc_asks t pc := wsc_asks t pc.1;
  wsc_start t ok := recorded (λ _ _, [ExchangeCall t]) (wsc_start t ok);
  wsc_receive t f ing gen ok := recorded (λ _ _, [ExchangeCall t]) (wsc_receive t f ing gen ok);
  wsc_tick t := recorded (λ _ _, [ExchangeCall t]) (wsc_tick t);
  wsc_close t pc := (wsc_close t pc.1, pc.2)
|}.
End Recording.

(** ** The order of the calls *)

Section Order.
Context `{World} {P : Type} `{!Parts P} (binding : PeerBinding) (opts : Options).
Abbreviation OS := (Onboarding (P * list call)).
#[local] Existing Instance recording.

(** What [notify_early] leaves on the link when it returns. *)
Context (R : list bytes → Prop) (Hearly : ∀ sh sh' : Shared P, reports_early sh = (Ok tt, sh') → R (sent (sh_io sh')).*2).

Definition has_early (l : list call) : Prop := ∃ link, EarlyReturned link ∈ l ∧ R link.

(** A packet session is called only after the Early Report. *)
Definition ordered (l : list call) : Prop := ∀ l1 t l2, l = l1 ++ ExchangeCall t :: l2 → has_early l1.

Lemma early_app l new : has_early l → has_early (l ++ new).
Proof. intros (link & Hl & HR). exists link. split; [|done]. apply elem_of_app. by left. Qed.

(** A call of an extended record is of the record, or of the extension. *)
Lemma split_app (l new l1 l2 : list call) c :
  l ++ new = l1 ++ c :: l2 → (∃ k, l = l1 ++ c :: k) ∨ (∃ k, l1 = l ++ k ∧ c ∈ new).
Proof.
  intros [(k & -> & E)|(k & -> & E)]%app_eq_inv.
  - destruct k as [|x k]; [|cbn in E; injection E as <- _; left; by exists k].
    right. exists []. rewrite !app_nil_r. split; [done|]. cbn in E. rewrite <- E. by left.
  - right. exists k. split; [done|]. rewrite E. set_solver.
Qed.

Lemma ordered_early l new : ordered l → has_early l → ordered (l ++ new).
Proof.
  intros Ho He l1 t l2 [(k & E)|(k & -> & _)]%split_app; [by apply (Ho l1 t k)|by apply early_app].
Qed.

Definition calls (s : OS) : list call := (sh_parts (o_shared s)).2.

(** The invariant; [b]: the Early Report was sent. *)
Definition J (b : bool) (s : OS) : Prop :=
  ordered (calls s) ∧ (fronthaul s = true → has_early (calls s)) ∧ (b = true → has_early (calls s)).

Lemma J_true s : J true s → ∀ b, J b s.
Proof. intros (Ho & Hf & He) b. split; [done|]. split; [done|]. intros _. by apply He. Qed.
Lemma J_fronthaul b s : J b s → fronthaul s = true → J true s.
Proof. intros (Ho & Hf & _) Hs. split; [done|]. split; [done|]. intros _. by apply Hf. Qed.

Lemma J_same b s s' : J b s → fronthaul s' = fronthaul s → calls s' = calls s → J b s'.
Proof. unfold J. by intros ? -> ->. Qed.

Lemma keeps_unseen {A} b (m : M (Shared P) A) : keeps (J b) (on_shared (unseen m) : M OS A).
Proof.
  intros s Hs. unfold on_shared, unseen, recorded. destruct (m _) as [[a|e] sh]; (eapply J_same; [exact Hs|done|apply app_nil_r]).
Qed.
Lemma keeps_exchange_call {A} t (m : M (Shared P) A) : keeps (J true) (on_shared (recorded (λ _ _, [ExchangeCall t]) m) : M OS A).
Proof.
  intros s (Ho & Hf & He). unfold on_shared, recorded. specialize (He eq_refl).
  destruct (m _) as [[a|e] sh]; (split; [by apply ordered_early|]; split; intros _; by apply early_app).
Qed.
Lemma keeps_asking {A} b (m : M Io A) : keeps (J b) (on_io m : M OS A).
Proof. intros s Hs. unfold on_io. destruct (m (io_of s)) as [[a|e] i]; by eapply J_same. Qed.
Ltac keeping := keeps_walk ltac:(first [apply keeps_asking|apply keeps_unseen]).

Lemma J_record b e : keeps (J b) (o_record e : M OS string).
Proof. unfold o_record. keeping. Qed.
Lemma J_note b e : keeps (J b) (note e : M OS unit).
Proof. unfold note. pose proof (J_record b e). keeping. Qed.
Lemma J_phase b p : keeps (J b) (set_phase p : M OS unit).
Proof. unfold set_phase. keeping. Qed.
Lemma close_calls s p : (close_parts s p).2 = p.2.
Proof.
  unfold close_parts. assert (Hr : ∀ l (q : P * list call), (foldl (λ p r, wsc_close (Further r) p) q l).2 = q.2)
    by (induction l as [|r l IH]; intros q; [done|]; cbn; by rewrite IH).
  rewrite Hr. cbn. repeat case_bool_decide; by destruct (fronthaul s).
Qed.
Lemma J_close b : keeps (J b) (o_close : M OS unit).
Proof. unfold o_close. apply keeps_modify. intros s Hs. eapply J_same; [exact Hs|done|apply close_calls]. Qed.
Lemma J_bridge_close b n : keeps (J b) (on_parts (bridge_close n) : M OS unit).
Proof. unfold on_parts. keeping. Qed.
Lemma J_assembly {A} b (m : M Reassembler A) : keeps (J b) (on_assembly m : M OS A).
Proof. intros s Hs. unfold on_assembly. by destruct (m (o_assembly s)) as [[a|e] r]. Qed.
Lemma J_discovery {A} b (m : M DiscoveryExchange A) : keeps (J b) (on_discovery m : M OS A).
Proof.
  intros s Hs. unfold on_discovery. destruct (discovery s) as [d|]; [|done]. by destruct (m _) as [[a|e] d'].
Qed.
Lemma J_mid b : keeps (J b) (take_mid : M OS Z).
Proof. intros s Hs. exact Hs. Qed.

Lemma J_lost b r : keeps (J b) (o_lost r : M OS (option ReportSnapshot)).
Proof. unfold o_lost. pose proof (J_close b). pose proof (J_phase b). pose proof (J_note b). keeping; auto. Qed.

Lemma J_snapshot b : keeps (J b) (o_snapshot binding opts).
Proof.
  unfold o_snapshot, snapshot_away, snapshot_capabilities. pose proof (J_lost b). pose proof (J_note b). keeping; auto.
Qed.
Lemma J_check b a : keeps (J b) (o_check binding opts a).
Proof. unfold o_check, o_stamp. pose proof (J_snapshot b). keeping. Qed.

Lemma J_send_checked b a after fs : keeps (J b) (send_checked binding opts a after fs).
Proof. unfold send_checked. pose proof (J_check b a). keeping. Qed.

Lemma J_search b a : keeps (J b) (search binding opts a).
Proof.
  unfold search. pose proof (J_close b). pose proof (J_phase b failed). pose proof (J_note b). pose proof (J_send_checked b a).
  pose proof (λ now, J_discovery b (d_request now)). keeping; auto.
Qed.

Lemma J_begin b a : keeps (J b) (begin_discovery binding opts a).
Proof. unfold begin_discovery. pose proof (J_phase b discovering). keeping. Qed.
Lemma J_discover b a : keeps (J b) (discover binding opts a).
Proof. unfold discover. pose proof (J_phase b failed). pose proof (J_note b). pose proof (J_search b a). keeping; auto. Qed.

(** ** After the Early Report *)

Lemma J_asks b n : keeps (J b) (ask_contexts binding opts n : M OS bool).
Proof. pose proof (J_snapshot b). induction n as [|n IH]; cbn [ask_contexts]; keeping. Qed.
Lemma J_start t : keeps (J true) (await_start binding opts t).
Proof. unfold await_start. pose proof (J_asks true). keeping; auto. apply keeps_exchange_call. Qed.
Lemma J_receive_wsc t f ing gen : keeps (J true) (await_receive binding opts t f ing gen).
Proof. unfold await_receive. pose proof (J_asks true). keeping; auto. apply keeps_exchange_call. Qed.

Lemma J_check_bridge b n x r : keeps (J b) (check_bridge binding opts n x r : M OS unit).
Proof. unfold check_bridge. pose proof (J_bridge_close b). keeping. auto. Qed.

Lemma J_next_radio a : keeps (J true) (o_next_radio binding opts a).
Proof.
  unfold o_next_radio. pose proof (J_start). pose proof (J_check_bridge true). pose proof (J_note true). pose proof (J_close true). pose proof (J_phase true failed).
  keeping; auto.
Qed.

Lemma J_tick_part b p : keeps (J b) (tick_part p : M OS unit).
Proof. unfold tick_part. keeping. Qed.

Lemma J_departures b l : keeps (J b) (fresh_departures l : M OS _).
Proof. induction l as [|[k at_] l IH]; cbn [fresh_departures]; keeping. Qed.

Lemma J_moves b a : keeps (J b) (report_moves binding opts a).
Proof. unfold report_moves. pose proof (J_mid b). pose proof (J_note b). pose proof (J_send_checked b a). keeping; auto. Qed.
Lemma J_topology b a : keeps (J b) (notify_topology binding opts a).
Proof. unfold notify_topology. pose proof (J_mid b). pose proof (J_note b). pose proof (J_send_checked b a). keeping; auto. Qed.
Lemma J_clients b a : keeps (J b) (notify_clients binding opts a).
Proof.
  unfold notify_clients, notify_client. pose proof (J_mid b). pose proof (J_note b). pose proof (J_send_checked b a).
  apply keeps_get. intros s. destruct (due _ _) as [again r]. keeping; auto.
Qed.

Lemma J_tick_provisioning a : keeps (J true) (tick_provisioning binding opts a).
Proof.
  unfold tick_provisioning. pose proof (J_next_radio a). pose proof (J_moves true a). pose proof (J_topology true a). pose proof (J_clients true a).
  keeping; apply keeps_exchange_call.
Qed.

(** A call that needs the packet session. *)
Lemma keeps_at_fronthaul {A} b (m : M OS A) s : keeps (J true) m → J b s → fronthaul s = true → J b (m s).2.
Proof.
  intros Hm Hs Hf. specialize (Hm s (J_fronthaul b s Hs Hf)). destruct (m s) as [[a|e] s']; by apply J_true.
Qed.
Lemma keeps_of_snd {A} b (m : M OS A) : (∀ s, J b s → J b (m s).2) → keeps (J b) m.
Proof. intros Hm s Hs. specialize (Hm s Hs). by destruct (m s) as [[a|e] s']. Qed.

Lemma J_tick b : keeps (J b) (o_tick binding opts).
Proof.
  unfold o_tick. pose proof (J_snapshot b). pose proof (J_tick_part b). pose proof (J_departures b).
  pose proof (J_begin b). pose proof (J_discover b). pose proof (λ n, J_assembly b (expire n)).
  assert (Hend : ∀ a, keeps (J b) (s ← get; if fronthaul s then tick_provisioning binding opts a else mret tt)).
  { intros a. apply keeps_of_snd. intros s Hs. unfold mbind, M_mbind, get. destruct (fronthaul s) eqn:Ef; [|done].
    apply keeps_at_fronthaul; [apply J_tick_provisioning|done|done]. }
  apply keeps_get. intros s. destruct (inactive _); [apply keeps_mret|]. apply keeps_bind; [done|intros snapshot].
  apply keeps_bind; [keeping|intros now]. apply keeps_bind; [auto|intros _]. destruct snapshot as [a|]; [|apply keeps_mret].
  do 14 (first [apply keeps_get; intros ? | apply keeps_bind; [keeping; auto|intros ?]]). apply Hend.
Qed.

Lemma J_receive_report b f frame ing gen : keeps (J b) (receive_report f frame ing gen : M OS string).
Proof. unfold receive_report. pose proof (J_record b). keeping; auto. Qed.

Lemma J_wsc_session b f : keeps (J b) (wsc_session f : M OS target).
Proof. unfold wsc_session. keeping. Qed.

Lemma J_receive_at f frame ing gen : keeps (J true) (receive_wsc binding opts f frame ing gen).
Proof.
  unfold receive_wsc. pose proof (J_wsc_session true f). pose proof (λ t, J_receive_wsc t frame ing gen). pose proof (J_record true).
  pose proof (J_phase true provisioning). keeping; auto.
Qed.

Lemma J_make b p : keeps (J b) (make_part p : M OS unit).
Proof. unfold make_part. keeping. Qed.

(** The Early Report, sent whole. *)
Lemma J_early b : hoare (J b) (on_shared reports_early : M OS unit) (λ _, J true) (λ _, J b).
Proof.
  intros s (Ho & Hf & He). cbn [reports_early recording]. unfold on_shared, recorded.
  destruct (reports_early _) as [[[]|e] sh] eqn:E; [|eapply J_same; [by split|done|apply app_nil_r]].
  assert (Hnew : has_early (calls s ++ [EarlyReturned (sent (sh_io sh)).*2])).
  { exists (sent (sh_io sh)).*2. split; [apply elem_of_app; right; by left|by eapply Hearly]. }
  split; [|by split; intros _]. intros l1 t l2 [(k & E1)|(k & -> & Hin)]%split_app; [by apply (Ho l1 t k)|set_solver].
Qed.

Context (HR1 : message_set opts ≠ R1).

Lemma J_admit b a message ing gen : keeps (J b) (o_admit binding opts a message ing gen).
Proof.
  unfold o_admit. pose proof (J_make b). pose proof (J_record b). pose proof (J_phase b). pose proof (λ n, J_discovery b (d_receive n message ing gen)).
  apply keeps_bind; [keeping|intros now]. apply keeps_bind; [auto|intros advertisement]. cbv zeta. apply keeps_bind; [keeping|intros _].
  destruct (negb _); [keeping; auto|]. apply keeps_bind; [auto|intros _]. unfold make_if.
  do 9 (apply keeps_bind; [keeping; auto|intros _]).
  rewrite bool_decide_eq_false_2 by done. eapply hoare_bind; [apply J_early|]. intros ?. cbv beta.
  assert (Hk : ∀ (m : M OS string), keeps (J true) m → hoare (J true) m (λ _, J b) (λ _, J b)).
  { intros m Hm s Hs. specialize (Hm s Hs). destruct (m s) as [[x|e] s']; by apply J_true. }
  apply Hk. pose proof (J_record true). pose proof (J_phase true awaiting_m2). pose proof (J_start Fronthaul). pose proof (J_snapshot true).
  pose proof (J_check_bridge true). apply keeps_bind; [apply keeps_unseen|intros x]. apply keeps_get. intros s.
  destruct (head _) as [radio|]; [|apply keeps_lift]. apply keeps_bind; [auto|intros _]. apply keeps_bind.
  - apply keeps_modify. intros s0 (Ho & Hf & He). split; [done|]. split; [intros _; by apply He|done].
  - intros _. keeping; auto.
Qed.

Lemma J_offers b message now ing gen m : m ∈ offers message now ing gen → keeps (J b) (m : M OS (option string)).
Proof.
  unfold offers. intros Hm. assert (Ho : ∀ p only, keeps (J b) (offer p only message now ing gen : M OS _)).
  { intros p only. unfold offer. keeping. }
  repeat (apply elem_of_cons in Hm as [->|Hm]); [auto..| |]; try (by apply elem_of_nil in Hm); auto.
  - apply keeps_get. intros s. cbn. destruct (backhaul_metrics (P := P)); cbn; keeping.
  - apply keeps_get. intros s. destruct (fronthaul s); [auto|apply keeps_mret].
Qed.

Lemma J_respond b a kind mid now tlvs : keeps (J b) (respond binding opts a kind mid now tlvs).
Proof. unfold respond, send, send_one, o_stamp. pose proof (J_snapshot b). keeping. Qed.
Lemma J_refuse b message : keeps (J b) (refuse_steering binding message : M OS unit).
Proof. unfold refuse_steering. keeping. Qed.

Lemma J_answer b a message now : keeps (J b) (answer_itself binding opts a message now).
Proof.
  unfold answer_itself. pose proof (J_record b). pose proof (J_refuse b message).
  pose proof (λ k m n t, J_respond b a k m n t). keeping; auto.
Qed.

Lemma J_first_taking b l : (∀ m, m ∈ l → keeps (J b) m) → keeps (J b) (first_taking l).
Proof.
  intros Hl. pose proof (J_record b). induction l as [|m l IH]; cbn [first_taking]; [apply keeps_mret|].
  apply keeps_bind; [apply Hl; by left|]. intros [e|]; [keeping; auto|]. apply IH. intros m' Hm. apply Hl. by right.
Qed.

Lemma J_dispatch b a message now ing gen : keeps (J b) (dispatch binding opts a message now ing gen).
Proof.
  unfold dispatch. pose proof (J_admit b a message ing gen). pose proof (J_answer b a message now).
  pose proof (J_first_taking b _ (J_offers b message now ing gen)). keeping.
Qed.

Lemma J_receive_bound b f frame now ing gen : keeps (J b) (receive_bound binding opts f frame now ing gen).
Proof.
  unfold receive_bound. pose proof (J_record b). pose proof (J_receive_report b f frame ing gen). pose proof (λ a m, J_dispatch b a m now ing gen).
  apply keeps_bind; [apply J_snapshot|]. intros [a|]; [|auto].
  assert (Helse : keeps (J b) (now0 ← on_io clock; now1 ← on_io clock; message ← on_assembly (feed now0 now1 frame ing);
    match message with None => mret "incomplete" | Some message => dispatch binding opts a message now ing gen end)).
  { pose proof (λ n m, J_assembly b (feed n m frame ing)). keeping; auto. }
  apply keeps_of_snd. intros s Hs. unfold mbind at 1, M_mbind at 1, get. destruct (bool_decide (message_type f = 9)).
  - destruct (fronthaul s) eqn:Ef; [by apply keeps_at_fronthaul; [apply J_receive_at| |]|]. by apply keeps_snd.
  - destruct (_ && _); by apply keeps_snd.
Qed.

Lemma J_receive b frame ing gen : keeps (J b) (o_receive binding opts frame ing gen).
Proof.
  unfold o_receive. pose proof (J_record b). pose proof (λ f n, J_receive_bound b f frame n ing gen). pose proof (J_close b). pose proof (J_phase b failed).
  keeping; auto.
Qed.

Lemma J_final b event : keeps (J b) (report_final_session binding opts event).
Proof. unfold report_final_session. pose proof (J_record b). pose proof (J_snapshot b). keeping; auto. Qed.

Lemma J_serve b s i : J b s → J b (o_serve binding opts s i).
Proof.
  intros Hs. destruct i; cbn [o_serve]; (eapply keeps_snd; [|exact Hs]); [apply J_tick|apply J_receive|apply J_final|apply J_close].
Qed.
Lemma J_run b s l : J b s → J b (foldl (o_serve binding opts) s l).
Proof. revert s. induction l as [|i l IH]; intros s Hs; [done|]. by apply IH, J_serve. Qed.
End Order.

(** * Properties *)

(** C33: no exchange before the Early Report. With the message set of EasyMesh 6.1, in any run of a session with its report
    coordinator - whatever it receives, however often it ticks, whatever the clock, the source and the link do, and whatever
    the other coordinators and the packet sessions do, of which nothing is assumed - the session starts, feeds or ticks a packet
    session, which sends the M1s, only after a [notify_early] that returned; and when that returned, the last frames handed to the
    link were the whole Early AP Capability Report, in one run, of capabilities the source had shown. *)
Theorem early_before_m1 {W : World} {Q : Type} {HQ : Parts Q} binding ms opts (sh : Shared (option Coordinator.Coordinator * Q * list call)) inputs l1 t l2 :
  message_set opts ≠ R1 → (sh_parts sh).2 = [] →
  calls (foldl (@o_serve W _ (@recording _ (with_reports binding ms)) binding opts) (Onboarding_init sh) inputs) = l1 ++ ExchangeCall t :: l2 →
  ∃ link, EarlyReturned link ∈ l1 ∧ early_last binding link.
Proof.
  intros HR Hsh Hs.
  assert (Hi : J (P := option Coordinator.Coordinator * Q) (early_last binding) false (Onboarding_init sh)).
  { unfold J, calls. cbn. rewrite Hsh. split; [|done]. intros k1 x k2 E. by destruct k1. }
  destruct (@J_run W _ (with_reports binding ms) binding opts (early_last binding) (reports_early_whole binding ms) HR false _ inputs Hi) as (Ho & _).
  by apply (Ho l1 t l2).
Qed.

(** Parts that are idle, with a packet session that sends a given M1 when it starts. *)
Section Idle.
Context `{World} (binding : PeerBinding) (message_set : string) (m1 : list Tlv).

Definition send_m1 : M (Shared unit) unit := λ sh,
  match fragment_message (controller_al binding) (local_al binding) 9 (sh_mids sh) m1 false MAX_CMDU with
  | Raise e => (Raise e, sh)
  | Ok fs => let '(r, io) := for_each send_frame fs (sh_io sh) in (r, sh <| sh_io := io |>)
  end.

#[local] Instance idle_parts : Parts unit := {|
  part_make _ := mret tt;
  part_tick _ _ := mret tt;
  part_handle _ _ _ _ _ := mret None;
  part_ack _ _ _ _ := mret None;
  part_close _ u := u;
  reports_receive _ _ _ := mret "unsupported";
  reports_early := mret tt;
  topology_responses _ := 0;
  channels_moved := mret tt;
  backhaul_metrics := None;
  final_submit _ := mret "unsupported";
  bridge_make n a :=
    match cap_radios (ReportSource.capabilities a) !! n with
    | Some r => mret (mkExchangeFacts binding message_set (basic r) (profile2 (ReportSource.capabilities a)) (Reports.advanced r))
    | None => lift (Raise (key_error "radio"))
    end;
  bridge_close _ u := u;
  wsc_asks _ _ := 1%nat;
  wsc_start _ ok := if ok then send_m1 else mret tt;
  wsc_receive _ _ _ _ _ := mret (mkWscOutcome "failed" None);
  wsc_tick _ := mret tt;
  wsc_close _ u := u
|}.

#[local] Instance reports_parts : Parts (option Coordinator.Coordinator * unit) := with_reports binding message_set.
End Idle.

(** A session that searches, is answered, reports and starts its exchange. *)
Definition onb_response (mid : Z) : bytes :=
  default [] (head (Coordinator.cex_frames RESPONSE mid
    [mkTlv 0x0F (octets [0]); mkTlv 0x10 (octets [0]); mkTlv 0x80 (octets [1; 0]); mkTlv 0xB3 (octets [1]); mkTlv 0xDD (octets [0xC0; 0])])).
Definition onb_options : Options := mkOptions false false false false false None EASYMESH_61 (MultiAPProfile 1).
Definition onb_inputs : list o_input := [OTick; OTick; OReceive (onb_response 1) "eth0" 1].
Definition onb_parts : Parts (option Coordinator.Coordinator * unit) :=
  @reports_parts Coordinator.cex_world example_binding EASYMESH_61 [mkTlv 0x11 (octets [1; 2])].
Abbreviation onb_run := (
  foldl (@o_serve Coordinator.cex_world _ (@recording _ onb_parts) example_binding onb_options)
    (@Onboarding_init Coordinator.cex_world _ (mkShared (mkIo 0 []) 0 (None, tt, []))) onb_inputs).

(** The frames of the run, by their types. *)
Definition frame_type (nf : nat * bytes) : option Z := match decode_frame nf.2 with Ok f => Some (message_type f) | Raise _ => None end.

Lemma onb_types : frame_type <$> sent (io_of onb_run) = [Some 7; Some EARLY_AP_REPORT; Some 9].
Proof. vm_compute. reflexivity. Qed.

Lemma early_before_m1_witness :
  ∃ l1 t, calls onb_run = l1 ++ [ExchangeCall t] ∧ o_state onb_run = awaiting_m2
    ∧ ∃ link, EarlyReturned link ∈ l1 ∧ @early_last Coordinator.cex_world example_binding link.
Proof.
  assert (Hc : list.last (calls onb_run) = Some (ExchangeCall Fronthaul)) by (vm_compute; reflexivity).
  assert (Hp : o_state onb_run = awaiting_m2) by (vm_compute; reflexivity).
  pose proof (@early_before_m1 Coordinator.cex_world unit (@idle_parts Coordinator.cex_world example_binding EASYMESH_61 [mkTlv 0x11 (octets [1; 2])])
    example_binding EASYMESH_61 onb_options (mkShared (mkIo 0 []) 0 (None, tt, [])) onb_inputs) as He.
  fold (@reports_parts Coordinator.cex_world example_binding EASYMESH_61 [mkTlv 0x11 (octets [1; 2])]) in He. fold onb_parts in He.
  revert Hc Hp He. generalize onb_run. intros run Hc Hp He. apply last_Some in Hc as [l1 Hl].
  exists l1, Fronthaul. split; [exact Hl|]. split; [exact Hp|]. apply (He l1 Fronthaul []); [discriminate|reflexivity|exact Hl].
Defined.
