(* ===== verification/OnboardingClients.v ===== *)
(** * The notifications of clients that join and leave: [OnboardingSession.tick], [src/emosa/wire/onboarding.py]

    What [notify_clients] of Onboarding.v puts on the link and remembers, on every outcome: one Topology
    Notification for each client that joined or left since the last - or, when a re-announcement is due, for
    each client that is there - in order, the client remembered as notified exactly when its frames were
    all sent. *)

From stdpp Require Import sorting.
From S2P Require Import Coordinator Prelude Bytes Cmdu Payloads TopologyValues TopologyBindings Reports ReportSource Session.
From S2P Require Import Disassociation Autoconfiguration Onboarding OnboardingReports.

Section Clients.
Context `{World} {P : Type} `{!Parts P} (binding : PeerBinding) (opts : Options).
Abbreviation OS := (Onboarding P).

(** One notification: a join of a client that is there, a leave of another. *)
Definition notification (now_there : gset (bytes * bytes)) (mid : Z) (p : bytes * bytes) : result (list bytes) :=
  fragment_message MULTICAST (local_al binding) 1 mid (client_tlvs binding (bool_decide (p ∈ now_there)) p) true MAX_CMDU.

(** Its frames; none when it cannot be made. *)
Definition notice (now_there : gset (bytes * bytes)) (mid : Z) (p : bytes * bytes) : list bytes :=
  match notification now_there mid p with Ok fs => fs | Raise _ => [] end.

(** The notifications of a list of clients, under consecutive identifiers, and whether they can all be made. *)
Fixpoint notices (now_there : gset (bytes * bytes)) (mid : Z) (l : list (bytes * bytes)) : list bytes :=
  match l with [] => [] | p :: l => notice now_there (next_mid mid) p ++ notices now_there (next_mid mid) l end.
Fixpoint makeable (now_there : gset (bytes * bytes)) (mid : Z) (l : list (bytes * bytes)) : bool :=
  match l with [] => true | p :: l => is_ok (notification now_there (next_mid mid) p) && makeable now_there (next_mid mid) l end.

(** What is remembered once a client was notified. *)
Definition told (now_there last : gset (bytes * bytes)) (p : bytes * bytes) : gset (bytes * bytes) :=
  if bool_decide (p ∈ now_there) then {[p]} ∪ last else last ∖ {[p]}.

Definition on_link (s : OS) : list bytes := (sent (io_of s)).*2.

(** Nothing of it changes. *)
Definition same (s0 s : OS) : Prop :=
  on_link s = on_link s0 ∧ sh_mids (o_shared s) = sh_mids (o_shared s0) ∧ last_clients s = last_clients s0.

Lemma same_asking {A} s0 (m : M Io A) : (∀ io, sent (m io).2 = sent io) → keeps (same s0) (on_io m : M OS A).
Proof.
  intros Hm s (H1 & H2 & H3). unfold on_io. specialize (Hm (io_of s)). destruct (m (io_of s)) as [[a|e] i]; cbn in Hm;
    (split; [unfold on_link in *; cbn; by rewrite Hm|by split]).
Qed.

Ltac staying := keeps_walk ltac:(apply same_asking; intros ?; reflexivity).

Lemma same_lost s0 r : keeps (same s0) (o_lost r : M OS (option ReportSnapshot)).
Proof. unfold o_lost, o_close, set_phase, note, o_record. staying. Qed.
Lemma same_check s0 a : keeps (same s0) (o_check binding opts a : M OS unit).
Proof.
  unfold o_check, o_stamp, o_snapshot, snapshot_away, snapshot_capabilities, note, o_record. pose proof (same_lost s0). staying; auto.
Qed.

Lemma same_refl s : same s s.
Proof. done. Qed.
Lemma same_run {A} (m : M OS A) s r s' : (∀ s0, keeps (same s0) m) → m s = (r, s') → same s s'.
Proof. intros Hm E. specialize (Hm s s (same_refl s)). rewrite E in Hm. by destruct r. Qed.

Lemma bind_at {A B} (m : M OS A) (f : A → M OS B) s :
  (m ≫= f) s = match m s with (Ok a, s') => f a s' | (Raise e, s') => (Raise e, s') end.
Proof. done. Qed.

(** One frame of a checked transmission. *)
Lemma send_checked_one a (after : bool) f s r s' :
  (_ ← o_check binding opts a; _ ← on_io (send_frame f); if after then o_check binding opts a else mret tt : M OS unit) s = (r, s') →
  ∃ new, on_link s' = on_link s ++ new ∧ (new = [] ∨ new = [f]) ∧ (r = Ok tt → new = [f])
    ∧ sh_mids (o_shared s') = sh_mids (o_shared s) ∧ last_clients s' = last_clients s.
Proof.
  rewrite bind_at. destruct (o_check binding opts a s) as [[[]|e] s1] eqn:E1;
    apply (same_run _ _ _ _ (λ s0, same_check s0 a)) in E1 as (H1 & H2 & H3).
  2:{ intros [= <- <-]. exists []. rewrite app_nil_r, H1, H2, H3. split; [done|]. split; [by left|done]. }
  rewrite bind_at. destruct (on_io (send_frame f) s1) as [r2 s2] eqn:E2.
  assert (H4 : on_link s2 = on_link s ++ [f] ∧ sh_mids (o_shared s2) = sh_mids (o_shared s) ∧ last_clients s2 = last_clients s).
  { rewrite <- H1, <- H2, <- H3. unfold on_io, send_frame in E2. unfold on_link.
    destruct (world_link _); injection E2 as <- <-; cbn; by rewrite fmap_app. }
  destruct H4 as (H4 & H5 & H6). destruct r2 as [[]|e].
  2:{ intros [= <- <-]. exists [f]. split; [done|]. split; [by right|done]. }
  intros E3. assert (same s2 s') as (H7 & H8 & H9).
  { destruct after; [by apply (same_run _ _ _ _ (λ s0, same_check s0 a)) in E3|by injection E3 as _ <-]. }
  exists [f]. rewrite H7, H8, H9. split; [done|]. split; [by right|done].
Qed.

(** A checked transmission sends the frames in order, up to the first that fails. *)
Lemma send_checked_run a after fs s r s' :
  send_checked binding opts a after fs s = (r, s') →
  ∃ new, on_link s' = on_link s ++ new ∧ new `prefix_of` fs ∧ (r = Ok tt → new = fs)
    ∧ sh_mids (o_shared s') = sh_mids (o_shared s) ∧ last_clients s' = last_clients s.
Proof.
  unfold send_checked. revert s. induction fs as [|f fs IH]; intros s; cbn [for_each].
  { intros E. injection E as <- <-. exists []. by rewrite app_nil_r. }
  rewrite bind_at. destruct ((_ ← o_check binding opts a; _ ← on_io (send_frame f); if after then o_check binding opts a else mret tt : M OS unit) s)
    as [r1 s1] eqn:E1. apply send_checked_one in E1 as (n1 & H1 & H2 & H3 & H4 & H5). destruct r1 as [[]|e].
  - intros (new & H6 & H7 & H8 & H9 & H10)%IH. rewrite (H3 eq_refl) in H1. exists (f :: new).
    rewrite H6, H1, <- app_assoc, H9, H10, H4, H5. split; [done|]. split; [by apply prefix_cons|]. split; [|done]. intros Hr. by rewrite (H8 Hr).
  - intros [= <- <-]. exists n1. split; [done|]. split; [|done]. destruct H2 as [->| ->]; [apply prefix_nil|by apply prefix_cons, prefix_nil].
Qed.

(** ** One client *)

(** The frames sent are those of its notification, or a beginning of them; it is remembered when they all were. *)
Definition notified (now_there : gset (bytes * bytes)) (p : bytes * bytes) (r : result unit) (s s' : OS) : Prop :=
  ∃ new, on_link s' = on_link s ++ new ∧ new `prefix_of` notice now_there (next_mid (sh_mids (o_shared s))) p
    ∧ sh_mids (o_shared s') = next_mid (sh_mids (o_shared s))
    ∧ if bool_decide (r = Ok tt)
      then new = notice now_there (next_mid (sh_mids (o_shared s))) p ∧ last_clients s' = told now_there (last_clients s) p
        ∧ is_ok (notification now_there (next_mid (sh_mids (o_shared s))) p) = true
      else last_clients s' = last_clients s.

Lemma notify_client_run a now_there p s r s' : notify_client binding opts a now_there p s = (r, s') → notified now_there p r s s'.
Proof.
  unfold notify_client, notified. cbv zeta. rewrite bind_at. unfold take_mid at 1. cbv zeta.
  set (s0 := s <| o_shared := _ |>). set (mid := next_mid _). rewrite bind_at. unfold lift, notice. unfold notification at 1 2 3.
  destruct (fragment_message _ _ _ _ _ _ _) as [fs|e] eqn:Ef.
  2:{ intros [= <- <-]. exists []. rewrite app_nil_r. split; [done|]. split; [apply prefix_nil|]. by split. }
  rewrite bind_at. destruct (send_checked binding opts a true fs s0) as [r1 s1] eqn:E1.
  apply send_checked_run in E1 as (new & H1 & H2 & H3 & H4 & H5). cbn in H1, H4, H5. destruct r1 as [[]|e].
  2:{ intros [= <- <-]. exists new. split; [exact H1|]. split; [done|]. by split. }
  rewrite (H3 eq_refl) in H1. intros E. exists fs. unfold told.
  destruct (bool_decide (p ∈ now_there)); cbv [note o_record modify mbind M_mbind mret M_mret get on_io clock] in E.
  - injection E as <- <-. cbn. rewrite H5. by repeat split.
  - destruct (bool_decide (length _ < 64)%nat); injection E as <- <-; cbn; rewrite H5; by repeat split.
Qed.

(** ** All of them *)

Lemma notify_each_run a now_there l s r s' :
  for_each (notify_client binding opts a now_there) l s = (r, s') →
  ∃ k part, on_link s' = on_link s ++ notices now_there (sh_mids (o_shared s)) (take k l) ++ part
    ∧ last_clients s' = foldl (told now_there) (last_clients s) (take k l)
    ∧ makeable now_there (sh_mids (o_shared s)) (take k l) = true
    ∧ if bool_decide (r = Ok tt) then k = length l ∧ part = []
      else ∃ p mid, l !! k = Some p ∧ part `prefix_of` notice now_there mid p.
Proof.
  revert s. induction l as [|p l IH]; intros s; cbn [for_each].
  { intros E. injection E as <- <-. exists 0%nat, []. by rewrite !app_nil_r. }
  rewrite bind_at. destruct (notify_client binding opts a now_there p s) as [r1 s1] eqn:E1.
  apply notify_client_run in E1 as (new & H1 & H2 & H3 & H4). destruct r1 as [[]|e].
  - rewrite bool_decide_eq_true_2 in H4 by done. destruct H4 as (-> & H4 & Hm). intros (k & part & H5 & H6 & Hk & H7)%IH.
    exists (S k), part. cbn. rewrite H5, H6, H1, H4, <- !app_assoc. rewrite H3 in Hk |- *. split; [done|]. split; [done|]. split; [by rewrite Hm|].
    destruct (bool_decide _); [|done]. destruct H7 as [-> ->]. done.
  - intros [= <- <-]. exists 0%nat, new. rewrite bool_decide_eq_false_2 in H4 |- * by done. split; [done|]. split; [done|]. split; [done|]. eauto.
Qed.

(** What is remembered of a client that was told, and of another. *)
Lemma told_all now_there l last p :
  p ∈ foldl (told now_there) last l ↔ if bool_decide (p ∈ l) then p ∈ now_there else p ∈ last.
Proof.
  revert last. induction l as [|q l IH]; intros last; cbn; [done|]. rewrite IH. unfold told.
  destruct (decide (p ∈ l)) as [Hl|Hl]; [by rewrite !bool_decide_eq_true_2 by (done || by right)|].
  rewrite (bool_decide_eq_false_2 (p ∈ l)) by done. clear IH. destruct (decide (p = q)) as [->|Hq].
  - rewrite (bool_decide_eq_true_2 (q ∈ q :: l)) by by left. case_bool_decide; set_solver.
  - rewrite (bool_decide_eq_false_2 (p ∈ q :: l)) by set_solver. case_bool_decide; set_solver.
Qed.

Lemma changed_elem now_there last p : p ∈ changed_clients now_there last ↔ ¬ (p ∈ now_there ↔ p ∈ last).
Proof. unfold changed_clients. rewrite sort_by_elem, elem_of_elements. destruct (decide (p ∈ now_there)), (decide (p ∈ last)); set_solver. Qed.
Lemma changed_NoDup now_there last : NoDup (changed_clients now_there last).
Proof. unfold changed_clients, sort_by. rewrite merge_sort_Permutation. apply NoDup_elements. Qed.

(** After the first [k] were told, the others are still those that changed. *)
Lemma changed_rest now_there last k p :
  p ∈ drop k (changed_clients now_there last)
  ↔ ¬ (p ∈ now_there ↔ p ∈ foldl (told now_there) last (take k (changed_clients now_there last))).
Proof.
  rewrite told_all. pose proof (changed_NoDup now_there last) as Hn. pose proof (changed_elem now_there last p) as He.
  rewrite <- (take_drop k (changed_clients now_there last)) in Hn, He. apply NoDup_app in Hn as (_ & Hd & _). rewrite elem_of_app in He.
  specialize (Hd p). case_bool_decide; tauto.
Qed.

(** The clients [notify_clients] starts from: none when they are announced again. *)
Definition remembered (s : OS) : gset (bytes * bytes) :=
  if (due (topology_responses (sh_parts (o_shared s))) (reannounce s)).1 then ∅ else last_clients s.

Lemma notify_clients_each a s r s' :
  inventory_complete (topology a) = true → notify_clients binding opts a s = (r, s') →
  ∃ s1, for_each (notify_client binding opts a (clients_in (topology a))) (changed_clients (clients_in (topology a)) (remembered s)) s1 = (r, s')
    ∧ on_link s1 = on_link s ∧ sh_mids (o_shared s1) = sh_mids (o_shared s) ∧ last_clients s1 = remembered s.
Proof.
  intros Hc. unfold notify_clients, remembered. rewrite bind_at. cbn [get]. destruct (due _ _) as [again d]. rewrite Hc.
  intros E. destruct again; cbv [note o_record modify mbind M_mbind mret M_mret get] in E; eexists; (split; [exact E|done]).
Qed.
End Clients.

(** * Properties *)

(** C34: what [notify_clients] sends for the clients and remembers of them. With an incomplete inventory it sends
    nothing and returns. With a complete one, the clients to notify, each once, are those that joined or left since
    the clients last remembered; but when a re-announcement is due they are the present ones, as if none had
    been remembered (a leave is not among them). Whatever the call comes to - it returns, or the source is lost or the link
    fails in between - there is a number of these clients, from the first on, whose notifications could be made and
    are on the link, each whole and under the next identifier, a join if the client is there now and a leave
    if not; of the next client at most a beginning was sent, and nothing of the rest. The clients that now differ
    from those remembered are exactly those not notified; when the call returns there are none, and the clients
    remembered are the present ones. *)
Theorem clients_notified `{World} {P : Type} `{!Parts P} binding opts a (s : Onboarding P) r s' :
  notify_clients binding opts a s = (r, s') →
  let present := clients_in (topology a) in
  let again := (due (topology_responses (sh_parts (o_shared s))) (reannounce s)).1 in
  let changed := changed_clients present (if again then ∅ else last_clients s) in
  (∀ p, p ∈ changed ↔ if again then p ∈ present else ¬ (p ∈ present ↔ p ∈ last_clients s)) ∧ NoDup changed
  ∧ (inventory_complete (topology a) = false →
      r = Ok tt ∧ on_link s' = on_link s ∧ last_clients s' = if again then ∅ else last_clients s)
  ∧ (inventory_complete (topology a) = true →
      ∃ k part, on_link s' = on_link s ++ notices binding present (sh_mids (o_shared s)) (take k changed) ++ part
        ∧ makeable binding present (sh_mids (o_shared s)) (take k changed) = true
        ∧ (∀ p, p ∈ drop k changed ↔ ¬ (p ∈ present ↔ p ∈ last_clients s'))
        ∧ (r = Ok tt → k = length changed ∧ part = [] ∧ last_clients s' = present)
        ∧ (r ≠ Ok tt → ∃ p mid, changed !! k = Some p ∧ part `prefix_of` notice binding present mid p)).
Proof.
  intros E. cbv zeta. fold (remembered s).
  split; [|split; [apply changed_NoDup|split; intros Hc]].
  - intros p. rewrite changed_elem. unfold remembered. destruct (due _ _).1; [|done]. destruct (decide (p ∈ clients_in (topology a))); set_solver.
  - revert E. unfold notify_clients, remembered. rewrite bind_at. cbn [get]. destruct (due _ _) as [again d]. rewrite Hc.
    destruct again; cbv [note o_record modify mbind M_mbind mret M_mret get]; by intros [= <- <-].
  - apply notify_clients_each in E as (s1 & He & H1 & H2 & H3); [|done].
    apply notify_each_run in He as (k & part & H4 & H5 & Hm & H6). rewrite H1, H2 in H4. rewrite H2 in Hm. rewrite H3 in H5. exists k, part.
    assert (Hd : ∀ p, p ∈ drop k (changed_clients (clients_in (topology a)) (remembered s)) ↔ ¬ (p ∈ clients_in (topology a) ↔ p ∈ last_clients s'))
      by (intros p; rewrite H5; apply changed_rest).
    split; [done|]. split; [done|]. split; [done|]. case_bool_decide as Hr; (split; [intros Hr'|]); try done.
    destruct H6 as [-> ->]. split; [done|]. split; [done|]. apply set_eq. intros p. specialize (Hd p). rewrite drop_all in Hd.
    destruct (decide (p ∈ clients_in (topology a))), (decide (p ∈ last_clients s')); set_solver.
Qed.

(** One client is there, another has left. *)
#[local] Instance exc_parts : Parts (option Coordinator.Coordinator * unit) :=
  @reports_parts Coordinator.cex_world example_binding EASYMESH_61 [].

Definition exc_gone : bytes * bytes := (example_bss, octets [2; 0; 0; 0; 0; 5]).
Definition exc_state (mark : option Z) : Onboarding (option Coordinator.Coordinator * unit) :=
  @Onboarding_init Coordinator.cex_world _ (mkShared (mkIo 0 []) 0
      (Some ((@Coordinator.c_init Coordinator.cex_world 0 (mkIo 0 [])) <| Coordinator.c_counts := {["topology_response_sent" := 1]} |>), tt))
    <| last_clients := {[exc_gone]} |> <| reannounce := mkReannounce mark false |> <| o_state := provisioning |> <| made := [PReports] |>.
Abbreviation exc_run mark := (@notify_clients Coordinator.cex_world _ exc_parts example_binding onb_options Coordinator.cex_snapshot (exc_state mark)).

Lemma clients_notified_witness :
  (exc_run None).1 = Ok tt ∧ length (changed_clients (clients_in example_facts) (last_clients (exc_state None))) = 2%nat
  ∧ (exc_gone ∈ changed_clients (clients_in example_facts) (last_clients (exc_state None)))
  ∧ last_clients (exc_run None).2 = clients_in example_facts.
Proof.
  assert (Hr : (exc_run None).1 = Ok tt) by (vm_compute; reflexivity). split; [exact Hr|]. split; [vm_compute; reflexivity|].
  assert (Hn : exc_gone ∉ clients_in example_facts) by (apply (bool_decide_unpack _); vm_compute; exact Logic.I).
  destruct (exc_run None) as [r s'] eqn:E.
  destruct (clients_notified example_binding onb_options Coordinator.cex_snapshot (exc_state None) r s' E) as (Hch & _ & _ & Hc).
  split; [apply Hch; cbn; rewrite elem_of_singleton; tauto|].
  destruct (Hc eq_refl) as (k & part & _ & _ & _ & Hok & _). by destruct (Hok Hr) as (_ & _ & Hl).
Defined.

(** C35: the re-announcement loses a leave. When the clients are announced again in the same tick in which a client is
    found to have left, no leave is sent for it: everything sent is the joins of the present clients,
    and the client that left is forgotten, so no later tick notifies it either. *)
Theorem reannouncement_drops_leave `{World} {P : Type} `{!Parts P} binding opts a (s : Onboarding P) s' p :
  (due (topology_responses (sh_parts (o_shared s))) (reannounce s)).1 = true →
  inventory_complete (topology a) = true → p ∈ last_clients s → p ∉ clients_in (topology a) →
  notify_clients binding opts a s = (Ok tt, s') →
  on_link s' = on_link s ++ notices binding (clients_in (topology a)) (sh_mids (o_shared s)) (changed_clients (clients_in (topology a)) ∅)
  ∧ (∀ q, q ∈ changed_clients (clients_in (topology a)) ∅ ↔ q ∈ clients_in (topology a))
  ∧ p ∉ last_clients s'.
Proof.
  intros Hdue Hc Hp Hn (s1 & He & H1 & H2 & H3)%notify_clients_each; [|done].
  apply notify_each_run in He as (k & part & H4 & H5 & _ & H6). rewrite bool_decide_eq_true_2 in H6 by done. destruct H6 as [-> ->].
  unfold remembered in *. rewrite Hdue in *. rewrite H1, H2, firstn_all, app_nil_r in H4. split; [done|].
  assert (Hj : ∀ q, q ∈ changed_clients (clients_in (topology a)) ∅ ↔ q ∈ clients_in (topology a)).
  { intros q. rewrite changed_elem. destruct (decide (q ∈ clients_in (topology a))); set_solver. }
  split; [done|]. rewrite H5, H3, firstn_all, told_all. case_bool_decide; set_solver.
Qed.

Lemma reannouncement_drops_leave_witness :
  (exc_run (Some 0)).1 = Ok tt ∧ (exc_gone ∈ last_clients (exc_state (Some 0))) ∧ (exc_gone ∉ last_clients (exc_run (Some 0)).2)
  ∧ on_link (exc_run (Some 0)).2 = notices example_binding (clients_in example_facts) 0 (changed_clients (clients_in example_facts) ∅).
Proof.
  assert (Hr : (exc_run (Some 0)).1 = Ok tt) by (vm_compute; reflexivity). split; [exact Hr|].
  assert (Hg : exc_gone ∈ last_clients (exc_state (Some 0))) by (by apply elem_of_singleton). split; [exact Hg|].
  assert (Hn : exc_gone ∉ clients_in example_facts) by (apply (bool_decide_unpack _); vm_compute; exact Logic.I).
  assert (Hd : (due (topology_responses (sh_parts (o_shared (exc_state (Some 0))))) (reannounce (exc_state (Some 0)))).1 = true)
    by (vm_compute; reflexivity).
  destruct (exc_run (Some 0)) as [r s'] eqn:E. cbn in Hr. rewrite Hr in E.
  destruct (reannouncement_drops_leave example_binding onb_options Coordinator.cex_snapshot (exc_state (Some 0)) s' exc_gone
    Hd eq_refl Hg Hn E) as (H1 & _ & H2). split; [exact H2|exact H1].
Defined.
