(* ===== verification/OnboardingRecovery.v ===== *)
(** * Attempts after a loss: [OnboardingRecovery] of [src/emosa/wire/onboarding.py]

    A recovery makes one onboarding session at a time: it starts one when the source shows something and the wait is
    over, drives it, and drops it when it lost its source or failed, to wait longer after each failure. A session that
    found the controller incompatible stays. What the factory makes, a session on the same link, is a
    parameter: its fresh parts and first message identifier, and whether it is on the same source. When a session ends,
    its [status()] is kept, which asks the sources of the metrics; how many questions it asks is a parameter too, and what it
    shows is left out. *)

From S2P Require Import Coordinator Prelude Bytes Cmdu Reassembly Payloads TopologyValues Reports ReportSource Session.
From S2P Require Import Disassociation Autoconfiguration Onboarding OnboardingReports.

(** The events of [history], without the view of the session that ended. *)
Inductive r_event := attempt_started | ended (p : phase) | renewed.

(** [r_io] is the link and the clock while there is no session; a session has them while there is one. *)
Record Recovery (P : Type) := mkRecovery {
  r_io : Io;
  r_session : option (Onboarding P);
  starts : Z;
  failures : Z;
  next_start : Z;
  r_closed : bool;
  history : list (r_event * Z * Z)
}.
Arguments mkRecovery {P}.
Arguments r_io {P}.
Arguments r_session {P}.
Arguments starts {P}.
Arguments failures {P}.
Arguments next_start {P}.
Arguments r_closed {P}.
Arguments history {P}.
#[export] Instance eta_Recovery {P} : Eta (Recovery P) := λ r,
  mkRecovery (r_io r) (r_session r) (starts r) (failures r) (next_start r) (r_closed r) (history r).
#[export] Instance Recovery_io {P} : HasIo (Recovery P) := {|
  io_of r := match r_session r with Some s => io_of s | None => r_io r end;
  with_io i r := match r_session r with Some s => r <| r_session := Some (with_io i s) |> | None => r <| r_io := i |> end |}.

(** A new session: its identifiers, its parts, and whether it is on the recovery's source. *)
Record Fresh (P : Type) := mkFresh { fresh_mids : Z; fresh_parts : P; same_source : bool }.
Arguments mkFresh {P}.
Arguments fresh_mids {P}.
Arguments fresh_parts {P}.
Arguments same_source {P}.

Section Recovery.
Context `{World} {P : Type} `{!Parts P} (binding : PeerBinding) (opts : Options) (factory : Z → Fresh P).
Context (status_reads : Onboarding P → nat).
Abbreviation RS := (Recovery P).

(** [__init__] *)
Definition Recovery_init (io : Io) : RS := mkRecovery io None 0 0 0 false [].

(** [state] *)
Definition r_state (r : RS) : string :=
  if r_closed r then "closed"
  else match r_session r with
       | Some s => match o_state s with
                   | waiting_source => "waiting_source" | discovering => "discovering" | admitting => "admitting"
                   | awaiting_m2 => "awaiting_m2" | provisioning => "provisioning" | incompatible => "incompatible"
                   | failed => "failed" | source_lost => "source_lost" | closed => "closed"
                   end
       | None => if bool_decide (starts r ≠ 0) then "recovering" else "waiting_source"
       end.

(** A call of the session. *)
Definition on_session {A} (m : M (Onboarding P) A) : M RS A := λ r,
  match r_session r with
  | None => (Raise (key_error "session"), r)
  | Some s => let '(x, s) := m s in (x, r <| r_session := Some s |>)
  end.

(** [self.history.append({"event": e, "attempt": self.starts, "at": self.clock()})] *)
Definition remember (e : r_event) : M RS unit :=
  now ← on_io clock;
  modify (λ r, r <| history := deque_append 32 (history r) (e, starts r, now) |>).

(** [self.session.close(); self.session = None] *)
Definition end_session : M RS unit :=
  _ ← on_session o_close;
  modify (λ r, r <| r_io := io_of r |> <| r_session := None |>).

(** [self.session.status()]: the questions it asks *)
Definition consult : M RS unit :=
  r ← get;
  on_io (λ io, (Ok tt, io <| asked := (asked io + from_option status_reads 0 (r_session r))%nat |>)).

(** [min(30, 2 ** min(failures, 5))], in milliseconds *)
Definition backoff (failures : Z) : Z := seconds (Z.min 30 (2 ^ Z.min failures 5)).

(** The start of an attempt; the session that is made reads the clock once. *)
Definition start_attempt : M RS unit :=
  r ← get;
  let f := factory (starts r) in
  let s := Onboarding_init (mkShared (r_io r) (fresh_mids f) (fresh_parts f)) in
  if negb (same_source f) then
    _ ← modify (λ r, r <| r_io := io_of (o_close s).2 |>);
    raise INVALID_INPUT "recovery factory changed source"
  else
    _ ← modify (λ r, r <| r_session := Some s |> <| starts := starts r + 1 |>);
    remember attempt_started.

(** The end of [tick]: what became of the session. *)
Definition judge_session : M RS unit :=
  r ← get;
  match o_state <$> r_session r with
  | Some provisioning => modify (λ r, r <| failures := 0 |>)
  | Some (source_lost as p) | Some (failed as p) =>
      _ ← remember (ended p);
      _ ← consult;
      _ ← end_session;
      now ← on_io clock;
      modify (λ r, r <| next_start := now + backoff (failures r) |> <| failures := failures r + 1 |>)
  | _ => mret tt
  end.

(** Whether a session may be started: [self.clock() < self.next_start or self.source.current() is None] *)
Definition may_start : M RS bool :=
  now ← on_io clock;
  r ← get;
  if bool_decide (now < next_start r) then mret false
  else a ← on_io poll; mret (bool_decide (is_Some a)).

(** [tick()] *)
Definition r_tick : M RS unit :=
  r ← get;
  if r_closed r then mret tt
  else
    ready ← (if bool_decide (is_Some (r_session r)) then mret true
             else go ← may_start; if go : bool then _ ← start_attempt; mret true else mret false);
    if ready : bool then _ ← on_session (o_tick binding opts); judge_session else mret tt.

(** [receive(frame, ingress=ingress, generation=generation)] *)
Definition r_receive (frame : bytes) (ing : string) (gen : Z) : M RS string :=
  r ← get;
  if bool_decide (r_session r = None) || r_closed r then mret "recovery_waiting_for_fresh_source"
  else on_session (o_receive binding opts frame ing gen).

(** [renew()] *)
Definition renew : M RS unit :=
  r ← get;
  if r_closed r then mret tt
  else
    _ ← remember renewed;
    _ ← (if bool_decide (is_Some (r_session r)) then end_session else mret tt);
    modify (λ r, r <| failures := 0 |> <| next_start := 0 |>).

(** [close()] *)
Definition r_close : M RS unit :=
  r ← get;
  _ ← (if bool_decide (is_Some (r_session r)) then on_session o_close else mret tt);
  modify (λ r, r <| r_closed := true |>).
End Recovery.

(** ** Inputs *)

Inductive r_input :=
  | RTick
  | RReceive (frame : bytes) (ing : string) (gen : Z)
  | RRenew
  | RClose.

Definition r_serve `{World} {P} `{!Parts P} (binding : PeerBinding) (opts : Options) (factory : Z → Fresh P) (status_reads : Onboarding P → nat)
    (r : Recovery P) (i : r_input) : Recovery P :=
  match i with
  | RTick => (r_tick binding opts factory status_reads r).2
  | RReceive frame ing gen => (r_receive binding opts frame ing gen r).2
  | RRenew => (renew r).2
  | RClose => (r_close r).2
  end.

(** * Theory *)

Section Theory.
Context `{World} {P : Type} `{!Parts P} (binding : PeerBinding) (opts : Options) (factory : Z → Fresh P).
Context (status_reads : Onboarding P → nat).
Abbreviation RS := (Recovery P).

(** The wait doubles from one second, and is 30 seconds from the sixth failure on. *)
Lemma backoff_doubles n : 0 ≤ n → backoff n = seconds (if bool_decide (n < 5) then 2 ^ n else 30).
Proof.
  intros Hn. unfold backoff, seconds. case_bool_decide as Hb.
  - rewrite Z.min_l with (n := n) by lia. assert (2 ^ n ≤ 2 ^ 4) by (apply Z.pow_le_mono_r; lia). lia.
  - by rewrite Z.min_r with (n := n) by lia.
Qed.

(** What is known of every recovery: how many attempts it has failed, and what it remembers. *)
Record recovery_ok (r : RS) : Prop := {
  ro_failures : 0 ≤ failures r;
  ro_starts : 0 ≤ starts r;
  ro_history : (length (history r) ≤ 32)%nat
}.

Lemma ok_io {A} (m : M Io A) : keeps recovery_ok (on_io m : M RS A).
Proof.
  intros r [H1 H2 H3]. unfold on_io. destruct (m (io_of r)) as [x i]. unfold with_io, Recovery_io. cbn.
  destruct x, (r_session r); by split.
Qed.
Lemma ok_session {A} (m : M (Onboarding P) A) : keeps recovery_ok (on_session m).
Proof. intros r [H1 H2 H3]. unfold on_session. destruct (r_session r) as [s|]; [|by split]. destruct (m s) as [[x|e] s']; by split. Qed.
Lemma ok_remember e : keeps recovery_ok (remember e : M RS unit).
Proof.
  unfold remember. apply keeps_bind; [apply ok_io|intros now]. apply keeps_modify. intros r [H1 H2 H3]. split; [done|done|].
  by apply deque_append_length.
Qed.
Lemma ok_modify (f : RS → RS) :
  (∀ r, recovery_ok r → 0 ≤ failures (f r) ∧ 0 ≤ starts (f r) ∧ history (f r) = history r) → keeps recovery_ok (modify f).
Proof. intros Hf. apply keeps_modify. intros r Hr. destruct (Hf r Hr) as (? & ? & E). split; [done|done|]. rewrite E. apply Hr. Qed.

Ltac ok_leaf := first
  [apply ok_io|apply ok_session|apply ok_remember
  |apply ok_modify; intros ? []; cbn; repeat split; lia].
Ltac okay := cbv zeta; repeat (first [progress ok_leaf|keeps_step ok_leaf]; cbv zeta).

Lemma ok_end : keeps recovery_ok (end_session : M RS unit).
Proof. unfold end_session. okay. Qed.
Lemma ok_judge : keeps recovery_ok (judge_session status_reads : M RS unit).
Proof. pose proof ok_end. unfold judge_session, consult. okay. Qed.
Lemma ok_start : keeps recovery_ok (start_attempt factory : M RS unit).
Proof. unfold start_attempt. okay. Qed.
Lemma ok_may : keeps recovery_ok (may_start : M RS bool).
Proof. unfold may_start. okay. Qed.
Lemma ok_r_tick : keeps recovery_ok (r_tick binding opts factory status_reads).
Proof. pose proof ok_judge. pose proof ok_start. pose proof ok_may. unfold r_tick. okay. Qed.
Lemma ok_r_serve r i : recovery_ok r → recovery_ok (r_serve binding opts factory status_reads r i).
Proof.
  intros Hr. pose proof ok_end. destruct i; cbn [r_serve]; (eapply keeps_snd; [|exact Hr]);
    [apply ok_r_tick|unfold r_receive; okay|unfold renew; okay|unfold r_close; okay].
Qed.
Lemma ok_r_run l r : recovery_ok r → recovery_ok (foldl (r_serve binding opts factory status_reads) r l).
Proof. revert r. induction l as [|i l IH]; intros r Hr; [done|]. by apply IH, ok_r_serve. Qed.
Lemma ok_r_init io : recovery_ok (Recovery_init io : RS).
Proof. split; cbn; lia. Qed.

(** ** One tick *)

(** The account of attempts, which a call of the session or of the clock leaves as it is. *)
Definition account (r : RS) : Z * Z * Z * bool := (starts r, failures r, next_start r, r_closed r).

Lemma account_io {A} (m : M Io A) r : account (on_io m r).2 = account r ∧ (is_Some (r_session (on_io m r).2) ↔ is_Some (r_session r)).
Proof.
  unfold on_io. destruct (m (io_of r)) as [x i]. unfold with_io, Recovery_io. cbn. unfold is_Some. destruct (r_session r) as [s|]; cbn; naive_solver.
Qed.
Lemma account_session {A} (m : M (Onboarding P) A) r :
  account (on_session m r).2 = account r ∧ (is_Some (r_session (on_session m r).2) ↔ is_Some (r_session r)).
Proof.
  unfold on_session. unfold is_Some. destruct (r_session r) as [s|] eqn:E; [|cbn; naive_solver]. destruct (m s) as [x s']. cbn. naive_solver.
Qed.

(** A session is started only when the wait is over and the source shows something. *)
Lemma may_start_spec r b r' : may_start r = (Ok b, r') →
  account r' = account r ∧ (is_Some (r_session r') ↔ is_Some (r_session r))
  ∧ (b = true → next_start r ≤ world_clock (asked (io_of r)) ∧ is_Some (world_source (1 + asked (io_of r)))).
Proof.
  unfold may_start. intros (now & r1 & E1 & E)%M_bind_Ok. pose proof (account_io clock r) as [H1 H2]. rewrite E1 in H1, H2. cbn in H1, H2.
  assert (now = world_clock (asked (io_of r))) as -> by (unfold on_io, clock in E1; by injection E1).
  apply M_bind_Ok in E as (? & ? & [= <- <-] & E).
  assert (Hn : next_start r1 = next_start r) by (by injection H1). rewrite Hn in E. case_bool_decide as Hw.
  { injection E as <- <-. by split. }
  apply M_bind_Ok in E as (a & r2 & E2 & E). injection E as <- <-. pose proof (account_io poll r1) as [H3 H4]. rewrite E2 in H3, H4. cbn in H3, H4.
  split; [congruence|]. split; [by rewrite H4|]. intros Ha%bool_decide_eq_true_1. split; [lia|].
  assert (a = world_source (asked (io_of r1))) as -> by (unfold on_io, poll in E2; by injection E2).
  replace (1 + asked (io_of r))%nat with (asked (io_of r1)); [done|]. unfold on_io, clock in E1. injection E1 as <-.
  unfold io_of, with_io, Recovery_io. cbn. by destruct (r_session r).
Qed.

Lemma remember_account e r r' x : remember e r = (x, r') →
  x = Ok tt ∧ account r' = account r ∧ (is_Some (r_session r') ↔ is_Some (r_session r)).
Proof.
  unfold remember, mbind, M_mbind. pose proof (account_io clock r) as Ha. unfold on_io, clock in *. cbn in *. intros [= <- <-]. by split.
Qed.

Lemma start_account r r' : r_session r = None → start_attempt factory r = (Ok tt, r') →
  account r' = (starts r + 1, failures r, next_start r, r_closed r) ∧ is_Some (r_session r').
Proof.
  intros Hs. unfold start_attempt. intros (? & ? & [= <- <-] & E)%M_bind_Ok. cbv zeta in E. destruct (negb _).
  { by apply M_bind_Ok in E as (? & ? & _ & [=]). }
  apply M_bind_Ok in E as (u & r1 & Em & E). injection Em as _ <-.
  apply remember_account in E as (_ & Ha & Hb). split; [by rewrite Ha|]. apply Hb. by eexists.
Qed.
Lemma start_raises r e r' : start_attempt factory r = (Raise e, r') → account r' = account r ∧ r_session r' = r_session r.
Proof.
  unfold start_attempt. unfold mbind at 1, M_mbind at 1, get. cbv zeta. destruct (negb _).
  - intros E. by injection E as <- <-.
  - unfold mbind at 1, M_mbind at 1, modify. intros (? & _)%remember_account. done.
Qed.

(** The session ended as lost or failed, which is remembered, and the next may start only so much later than the last
    reading of the clock. *)
Definition waits (r r' : RS) : Prop :=
  r_session r' = None ∧ failures r' = failures r + 1
  ∧ next_start r' = world_clock (asked (io_of r') - 1) + backoff (failures r)
  ∧ ∃ p at_, (p = source_lost ∨ p = failed) ∧ list.last (history r') = Some (ended p, starts r', at_).

Lemma deque_append_last {A} n (l : list A) x : (0 < n)%nat → list.last (deque_append n l x) = Some x.
Proof.
  intros Hn. unfold deque_append. rewrite drop_app_le by lia. apply last_snoc.
Qed.

(** What became of the session after its tick. *)
Lemma judge_spec r x r' s : judge_session status_reads r = (x, r') → r_session r = Some s →
  x = Ok tt ∧ starts r' = starts r
  ∧ (waits r r'
     ∨ r_session r' = Some s ∧ next_start r' = next_start r ∧ o_state s ≠ source_lost ∧ o_state s ≠ failed
       ∧ failures r' = if bool_decide (o_state s = provisioning) then 0 else failures r).
Proof.
  intros E Hs. unfold judge_session in E. unfold mbind at 1, M_mbind at 1, get in E. cbv beta iota in E. rewrite Hs in E. cbn [fmap option_fmap option_map] in E.
  assert (Hend : ∀ p, p = source_lost ∨ p = failed → (_ ← remember (ended p); _ ← consult status_reads; _ ← end_session; now ← on_io clock;
      modify (λ r, r <| next_start := now + backoff (failures r) |> <| failures := failures r + 1 |>)) r = (x, r') →
    x = Ok tt ∧ starts r' = starts r ∧ waits r r').
  { clear E. intros p Hp E. unfold remember, consult, end_session, on_session, on_io, mbind, M_mbind, modify, clock, get in E.
    unfold io_of, with_io, Recovery_io in E. repeat (rewrite Hs in E; cbn in E). injection E as <- <-. unfold waits. cbn. rewrite ?Nat.sub_0_r.
    split; [done|]. split; [done|]. split; [done|]. split; [done|]. split; [done|]. exists p. eexists. split; [done|].
    apply (deque_append_last 32). lia. }
  destruct (o_state s) eqn:Ep; try (apply Hend in E as (-> & -> & Hw); [by auto|by auto]); injection E as <- <-; cbn; rewrite ?Hs; auto 10.
Qed.

(** A tick, by the session that is there after it; a session is begun when there was none. *)
Definition begun (r : RS) : Z := match r_session r with Some _ => starts r | None => starts r + 1 end.
Definition paced (r : RS) (x : result unit) (r' : RS) : Prop :=
  match r_session r' with
  | Some s => starts r' = begun r ∧ next_start r' = next_start r
      ∧ (x = Ok tt → o_state s ≠ source_lost ∧ o_state s ≠ failed)
      ∧ failures r' = if bool_decide (x = Ok tt) && bool_decide (o_state s = provisioning) then 0 else failures r
  | None => r_session r = None ∧ account r' = account r ∨ x = Ok tt ∧ starts r' = begun r ∧ waits r r'
  end.

(** The tick of the session, and what becomes of it. *)
Lemma drive_spec r r1 x r' :
  failures r1 = failures r → next_start r1 = next_start r → starts r1 = begun r → is_Some (r_session r1) →
  (_ ← on_session (o_tick binding opts); judge_session status_reads) r1 = (x, r') → paced r x r'.
Proof.
  intros Hf Hn Hb [s Hs] E. unfold mbind, M_mbind in E. pose proof (account_session (o_tick binding opts) r1) as [Ha _].
  destruct (on_session (o_tick binding opts) r1) as [y r2] eqn:Eo. assert (Hs2 : ∃ s2, r_session r2 = Some s2).
  { unfold on_session in Eo. rewrite Hs in Eo. destruct (o_tick _ _ s) as [z s2]. injection Eo as _ <-. by exists s2. }
  destruct Hs2 as [s2 Hs2]. injection Ha as H1 H2 H3 H4. unfold paced. destruct y as [u|e].
  - destruct (judge_spec _ _ _ _ E Hs2) as (-> & Ht & [Hw|(Hk & Hnx & Hl & Hfl & Hfr)]).
    + pose proof Hw as (-> & Hw2 & Hw3 & Hw4). right. split; [done|]. split; [congruence|]. split; [apply Hw|].
      rewrite <- Hf, <- H2. by split.
    + rewrite Hk. split; [congruence|]. split; [congruence|]. split; [done|]. rewrite Hfr, (bool_decide_eq_true_2 (Ok tt = Ok tt)) by done. cbn [andb].
      destruct (bool_decide (o_state s2 = _)); [done|congruence].
  - injection E as <- <-. rewrite Hs2. split; [congruence|]. split; [congruence|]. split; [done|].
    rewrite (bool_decide_eq_false_2 (Raise e = Ok tt)) by done. cbn [andb]. congruence.
Qed.

Lemma tick_spec r x r' : r_tick binding opts factory status_reads r = (x, r') →
  (r_closed r = true → r' = r)
  ∧ (r_closed r = false → paced r x r')
  ∧ (starts r' ≠ starts r → r_closed r = false ∧ r_session r = None ∧ starts r' = starts r + 1 ∧ next_start r ≤ world_clock (asked (io_of r))
     ∧ is_Some (world_source (1 + asked (io_of r)))).
Proof.
  unfold r_tick. unfold mbind at 1, M_mbind at 1, get. cbv beta iota. destruct (r_closed r) eqn:Ec; [by intros [= <- <-]|].
  unfold mbind at 1, M_mbind at 1. case_bool_decide as Hs.
  { intros E. assert (Hp : paced r x r') by (apply (drive_spec r) in E; [done|done|done| |done]; unfold begun; by destruct Hs as [? ->]).
    split; [done|]. split; [done|]. intros Hne. destruct Hne. unfold paced, begun in Hp. destruct Hs as [s Hs]. rewrite Hs in Hp. destruct (r_session r'); naive_solver. }
  assert (Hs' : r_session r = None) by (by destruct (r_session r); [destruct Hs|]). clear Hs.
  unfold mbind at 1, M_mbind at 1. destruct (may_start r) as [[go|e] r1] eqn:Em.
  2:{ unfold may_start, on_io, clock, poll, mbind, M_mbind, get in Em. cbn in Em. by destruct (bool_decide _). }
  apply may_start_spec in Em as (Ha & Hb & Hgo). assert (Hs1 : r_session r1 = None).
  { destruct (r_session r1); [|done]. rewrite Hs' in Hb. destruct Hb as [Hb _]. by destruct (Hb ltac:(by eexists)). }
  assert (Hidle : ∀ q, account q = account r → r_session q = None → starts q = starts r ∧ paced r x q).
  { intros q Hq Hn. split; [by injection Hq|]. unfold paced. rewrite Hn. by left. }
  destruct go; [|intros [= <- <-]; destruct (Hidle r1 Ha Hs1); naive_solver].
  pose proof Ha as Ha'. injection Ha' as A1 A2 A3 A4. unfold mbind at 1, M_mbind at 1. destruct (start_attempt factory r1) as [[[]|e] r2] eqn:Es.
  - apply start_account in Es as [Es Hi]; [|done]. injection Es as B1 B2 B3 B4. intros E.
    apply (drive_spec r) in E; [|congruence|congruence|unfold begun; rewrite Hs'; congruence|done].
    split; [done|]. split; [done|]. intros Hne. split; [done|]. split; [done|]. split; [|by apply Hgo].
    unfold paced, begun in E. rewrite Hs' in E. destruct (r_session r'); [naive_solver|]. destruct E as [[_ E]|(_ & E & _)]; [|done]. by injection E.
  - apply start_raises in Es as [Es Hn]. intros [= <- <-]. destruct (Hidle r2) as [H1 H2]; [congruence|congruence|]. naive_solver.
Qed.

Lemma renew_spec r : r_closed r = false → account (renew r).2 = (starts r, 0, 0, false) ∧ r_session (renew r).2 = None.
Proof.
  destruct r as [io [s|] st fl nx cl hi]; intros Hc; cbn in Hc; subst cl; cbn; [|done].
  unfold renew, remember, end_session, on_session, on_io, mbind, M_mbind, modify, clock, get, mret, M_mret. cbn. done.
Qed.
Lemma close_spec r : account (r_close r).2 = (starts r, failures r, next_start r, true).
Proof.
  destruct r as [io [s|] st fl nx cl hi]; [|done].
  unfold r_close, on_session, mbind, M_mbind, modify, get. cbn. done.
Qed.

(** A session that found the controller incompatible: the next tick or frame leaves it so, and sends nothing. *)
Definition stuck (r : RS) : Prop := ∃ s, r_session r = Some s ∧ o_state s = incompatible ∧ r_closed r = false.
Lemma stuck_step r i : stuck r → i = RTick ∨ (∃ f ing gen, i = RReceive f ing gen) →
  stuck (r_serve binding opts factory status_reads r i) ∧ sent (io_of (r_serve binding opts factory status_reads r i)) = sent (io_of r)
  ∧ account (r_serve binding opts factory status_reads r i) = account r.
Proof.
  intros (s & Hs & Hp & Hc). destruct r as [io ss st fl nx cl hi]. cbn in Hs, Hc. subst ss cl.
  assert (Hn : inactive (o_state s) = true) by (by rewrite Hp).
  assert (Ht : o_tick binding opts s = (Ok tt, s)) by (unfold o_tick, mbind, M_mbind, get; by rewrite Hn).
  intros [->|(f & ing & gen & ->)]; cbn [r_serve].
  - assert (r_tick binding opts factory status_reads (mkRecovery io (Some s) st fl nx false hi) = (Ok tt, mkRecovery io (Some s) st fl nx false hi)) as ->.
    { unfold r_tick, on_session, mbind at 1 2 3 4, M_mbind at 1 2 3 4, get. cbn. unfold mbind, M_mbind. rewrite Ht. unfold judge_session, mbind, M_mbind, get. cbn. by rewrite Hp. }
    split; [by exists s|done].
  - unfold r_receive, on_session, mbind, M_mbind, get. cbn. unfold o_receive, mbind, M_mbind, get. rewrite Hn. cbn. split; [|done]. by eexists.
Qed.
End Theory.

(** * Properties *)

(** C36: attempts are paced. In any run of a recovery, a tick begins at most one session, and only when none is there, the
    recovery is not closed, the clock at the start of the tick had reached [next_start] and the source, asked next,
    showed something. After a tick of a recovery that is not closed there are three cases. The session is there: then
    [next_start] is as it was, a tick that returned leaves no session that is lost or failed, and the count of failures
    is zero if the tick returned with the session provisioned, else as it was. Or the session ended as lost or
    failed, which is the last event remembered: then the count is one more, and [next_start] is the last reading of the
    clock and a wait that doubles from one second by the failures counted before, and is 30 seconds from five on. Or there was
    none and nothing changed. A tick of a closed recovery changes nothing; frames change none of the account; only a renewal, which
    also ends the session, resets it. *)
Theorem attempts_paced `{World} {P : Type} `{!Parts P} binding opts (factory : Z → Fresh P) status_reads io inputs x r' :
  let r := foldl (r_serve binding opts factory status_reads) (Recovery_init io) inputs in
  r_tick binding opts factory status_reads r = (x, r') →
  (r_closed r = true → r' = r)
  ∧ (r_closed r = false → paced r x r'
     ∧ backoff (failures r) = 1000 * (if bool_decide (failures r < 5) then 2 ^ failures r else 30) ∧ 0 ≤ failures r)
  ∧ (starts r' ≠ starts r → r_closed r = false ∧ r_session r = None ∧ starts r' = starts r + 1 ∧ next_start r ≤ world_clock (asked (io_of r))
     ∧ is_Some (world_source (1 + asked (io_of r))))
  ∧ (∀ frame ing gen, account (r_receive binding opts frame ing gen r).2 = account r)
  ∧ (r_closed r = false → account (renew r).2 = (starts r, 0, 0, false) ∧ r_session (renew r).2 = None)
  ∧ account (r_close r).2 = (starts r, failures r, next_start r, true).
Proof.
  intros r Ht. assert (Hok : recovery_ok r) by (by apply ok_r_run, ok_r_init). apply tick_spec in Ht as (H1 & H2 & H3). split; [done|].
  split; [intros Hc; split; [by apply H2|]; split; [by apply backoff_doubles, Hok|apply Hok]|]. split; [done|]. clear H1 H2 H3. split; [|split].
  - intros frame ing gen. unfold r_receive, mbind, M_mbind, get. destruct (_ || _); [done|]. exact (proj1 (account_session status_reads _ _)).
  - intros Hc. by apply renew_spec.
  - apply close_spec.
Qed.

(** The source shows a snapshot that is no longer valid: the Search fails, and with it the attempt. *)
Definition rec_world : World :=
  {| world_clock := λ n, 3000 * Z.of_nat n; world_binding := λ _, example_binding;
     world_source := λ _, Some Coordinator.cex_snapshot; world_link := λ _, true |}.
Abbreviation rec_tick := (@r_tick rec_world _ (@reports_parts rec_world example_binding EASYMESH_61 []) example_binding onb_options
  (λ _, mkFresh 0 (None, tt) true) (λ _, 2%nat)).

Lemma attempts_paced_witness :
  ∃ x r', rec_tick (Recovery_init (mkIo 0 [])) = (x, r') ∧ starts r' = 1 ∧ failures r' = 1 ∧ r_session r' = None
    ∧ next_start r' = 3000 * Z.of_nat (asked (r_io r') - 1) + 1000.
Proof.
  assert (Hs : starts (rec_tick (Recovery_init (mkIo 0 []))).2 = 1) by (vm_compute; reflexivity).
  assert (Hf : failures (rec_tick (Recovery_init (mkIo 0 []))).2 = 1) by (vm_compute; reflexivity).
  destruct (rec_tick (Recovery_init (mkIo 0 []))) as [x r'] eqn:E. cbn in Hs, Hf. exists x, r'. split; [done|]. split; [done|]. split; [done|].
  destruct (@attempts_paced rec_world _ (@reports_parts rec_world example_binding EASYMESH_61 []) example_binding onb_options
    (λ _, mkFresh 0 (None, tt) true) (λ _, 2%nat) (mkIo 0 []) [] x r' E) as (_ & Hp & _). destruct (Hp eq_refl) as (Hpa & Hb & _).
  unfold paced in Hpa. destruct (r_session r') eqn:Es.
  - destruct Hpa as (_ & _ & _ & Hz). rewrite Hf in Hz. destruct (_ && _) in Hz; discriminate Hz.
  - destruct Hpa as [[_ Ha]|(_ & _ & _ & _ & Hn & _)]; [injection Ha as Ha _ _ _; rewrite Hs in Ha; discriminate Ha|].
    split; [done|]. rewrite Hn, Hb. unfold io_of, Recovery_io. by rewrite Es.
Defined.

(** An incompatible controller ends the attempts: whatever is received and however often the recovery ticks, nothing is
    sent any more and no session is started, until a renewal. *)
Theorem incompatible_final `{World} {P : Type} `{!Parts P} binding opts (factory : Z → Fresh P) status_reads (r : Recovery P) inputs :
  stuck r → Forall (λ i, i ≠ RRenew ∧ i ≠ RClose) inputs →
  let r' := foldl (r_serve binding opts factory status_reads) r inputs in
  stuck r' ∧ sent (io_of r') = sent (io_of r) ∧ account r' = account r.
Proof.
  cbv zeta. intros Hs Hi. revert r Hs. induction Hi as [|i l [Hr Hc] _ IH]; intros r Hs; [done|]. cbn [foldl].
  destruct (stuck_step binding opts factory status_reads r i Hs) as (H1 & H2 & H3); [destruct i; naive_solver|].
  destruct (IH _ H1) as (H4 & H5 & H6). split; [done|]. split; congruence.
Qed.
