(* ===== verification/Peers.v ===== *)
(** * The other agents of the fleet: [src/emosa/agent/peers.py]

    The statuses of the other agents as they are read, [PeerDirectory], and what an agent concludes from them: its
    upstream, its children, whether an AP of the fleet is up, and whether an upstream would close a loop. The files and
    the liveness of processes are what a reading found. *)

From Stdlib Require Import Ascii.
From stdpp Require Import pretty.
From S2P Require Import Prelude Bytes Cmdu Lifecycle TopologyBindings Reports.

(** ** Addresses *)

(** [bytes.fromhex(text)]: pairs of hexadecimal digits, white space between them skipped *)
Definition hex_value (c : ascii) : option Z :=
  let n := Z.of_N (N_of_ascii c) in
  if bool_decide (48 ≤ n ≤ 57) then Some (n - 48)
  else if bool_decide (97 ≤ n ≤ 102) then Some (n - 87)
  else if bool_decide (65 ≤ n ≤ 70) then Some (n - 55)
  else None.
Definition is_space (c : ascii) : bool :=
  let n := Z.of_N (N_of_ascii c) in bool_decide (9 ≤ n ≤ 13) || bool_decide (n = 32).
Fixpoint fromhex (s : string) : option bytes :=
  match s with
  | EmptyString => Some []
  | String c s =>
      if is_space c then fromhex s
      else match s with
           | EmptyString => None
           | String d s =>
               match hex_value c, hex_value d with
               | Some x, Some y => (λ l, Z_to_byte (16 * x + y) :: l) <$> fromhex s
               | _, _ => None
               end
           end
  end.

(** [text.replace(":", "")] *)
Fixpoint no_colons (s : string) : string :=
  match s with
  | EmptyString => EmptyString
  | String c s => if bool_decide (c = ":"%char) then no_colons s else String c (no_colons s)
  end.

(** [mac_bytes(text)] *)
Definition mac_bytes (text : value) : option bytes :=
  match text with
  | VStr s =>
      match fromhex (no_colons s) with
      | Some b => if bool_decide (length b = 6%nat) then Some b else None
      | None => None
      end
  | _ => None
  end.

(** ** Statuses *)

Record Peer := mkPeer {
  p_pod_id : string;
  al : bytes;
  backhaul_bsses : gset bytes;
  station : option bytes;
  parent : option bytes;
  measured : list (string * value);
  parent_aps : gset bytes;
  ap_up : option (gmap bytes bool)
}.

(** [d.get(k)], of a dictionary; of anything else an [AttributeError] *)
Definition attribute_error : EmosaError := mkEmosaError NOT_FOUND "AttributeError: get".
Definition lookup_in (k : string) (d : list (string * value)) : value :=
  default VNone (snd <$> (snd <$> list_find (λ kv, kv.1 = k) d)).
Definition get_in (k : string) (v : value) : result value :=
  match v with VDict d => Ok (lookup_in k d) | _ => Raise attribute_error end.
Definition or_empty (v : value) : value := if truthy v then v else VDict [].

(** [[x for x in v or [] if isinstance(x, dict)]]: a string or a dictionary has no dictionaries among its elements *)
Definition dicts_of (v : value) : result (list (list (string * value))) :=
  if negb (truthy v) then Ok []
  else match v with
       | VList l => Ok (l ≫= λ x, match x with VDict d => [d] | _ => [] end)
       | VStr _ | VDict _ => Ok []
       | _ => Raise (mkEmosaError NOT_FOUND "TypeError: not iterable")
       end.

Section Status.
(** [str] of a list or a dictionary. *)
Context (repr : value → string).

Definition str_of (v : value) : string :=
  match v with
  | VStr s => s
  | VInt z => pretty z
  | VBool b => if b then "True" else "False"
  | VNone => "None"
  | _ => repr v
  end.

(** [peer(pod_id, status)] *)
Definition peer (pod_id : string) (status : list (string * value)) : result (option Peer) :=
  match mac_bytes (lookup_in "agent_al" status) with
  | None => Ok None
  | Some a =>
      let pod := or_empty (lookup_in "pod" status) in
      b ← get_in "backhaul" pod;
      let backhaul := or_empty b in
      bs ← get_in "bsses" pod;
      listed ← dicts_of bs;
      let bsses := list_to_set (omap (λ x, mac_bytes (lookup_in "bssid" x))
                     (filter (λ x, lookup_in "role" x = VStr "backhaul") listed)) in
      ms ← get_in "stations" (or_empty (lookup_in "telemetry" status));
      let gre := or_empty (lookup_in "gre_parent" status) in
      let ap_bssid := match gre with VDict d => lookup_in "ap_bssid" d | _ => VNone end in
      let listed_aps := match ap_bssid with VList l => l | v => [v] end in
      let up := match lookup_in "ap_up" status with
                | VDict d => Some (foldl (λ (m : gmap bytes bool) xy,
                    match mac_bytes (VStr xy.1) with Some b => <[b := bool_decide (xy.2 = VBool true)]> m | None => m end) ∅ d)
                | _ => None
                end in
      mac ← get_in "mac" backhaul;
      par ← get_in "parent" backhaul;
      let own := lookup_in "pod_id" status in
      Ok (Some (mkPeer (str_of (if truthy own then own else VStr pod_id)) a bsses (mac_bytes mac) (mac_bytes par)
                  (match or_empty ms with VDict d => d | _ => [] end) (list_to_set (omap mac_bytes listed_aps)) up))
  end.

(** ** [PeerDirectory] *)

Record PeerDirectory := mkPeerDirectory { read_at : option Z; cache : list Peer }.

(** The peers of the statuses found: [None] is a file that is unreadable or not JSON. *)
Fixpoint found (own : string) (alive : Z → bool) (entries : list (string * option value)) : result (list Peer) :=
  match entries with
  | [] => Ok []
  | (name, status) :: entries =>
      item ← (if bool_decide (name = own) then Ok None
              else match status with
                   | Some (VDict d) =>
                       match lookup_in "worker_pid" d with
                       | VInt pid => if alive pid then peer name d else Ok None
                       | _ => Ok None
                       end
                   | _ => Ok None
                   end);
      rest ← found own alive entries;
      Ok (match item with Some p => p :: rest | None => rest end)
  end.

(** [peers()]; [entries] are the directories beside this agent's that have a status, [now] is the clock *)
Definition peers (own : string) (alive : Z → bool) (entries : list (string * option value)) (now : Z) : M PeerDirectory (list Peer) := λ s,
  if from_option (λ at_, bool_decide (now - at_ < seconds 1)) false (read_at s) then (Ok (cache s), s)
  else match found own alive (sort_by fst entries) with
       | Raise e => (Raise e, s)
       | Ok l => (Ok l, mkPeerDirectory (Some now) l)
       end.
End Status.

(** ** What is concluded *)

(** [parent_bssids(peers)] *)
Definition parent_bssids (ps : list Peer) : gset string := list_to_set (ps ≫= λ p, hex_colon <$> elements (parent_aps p)).

(** [bssid.lower()], of hexadecimal digits and colons *)
Fixpoint lower (s : string) : string :=
  match s with
  | EmptyString => EmptyString
  | String c s =>
      let n := N_of_ascii c in
      String (if bool_decide (65 ≤ Z.of_N n ≤ 90) then ascii_of_N (n + 32) else c) (lower s)
  end.

(** [ap_state(peers, bssid)] *)
Definition ap_state (ps : list Peer) (bssid : value) : option bool :=
  match mac_bytes (match bssid with VStr s => VStr (lower s) | v => v end) with
  | None => None
  | Some target => head (omap (λ p, ap_up p ≫= λ m, m !! target) ps)
  end.

(** [upstream(peers, parent)] *)
Definition upstream (ps : list Peer) (par : option bytes) : option Peer :=
  match par with
  | None => None
  | Some b => snd <$> list_find (λ p, b ∈ backhaul_bsses p) ps
  end.

(** [children(peers, backhaul_stations)] *)
Definition children (ps : list Peer) (stations : gmap bytes (gset bytes)) : list (bytes * Peer) :=
  omap (λ p, b ← parent p; there ← stations !! b; st ← station p; if bool_decide (st ∈ there) then Some (b, p) else None) ps.

(** [loops(peers, own_al, own_bsses, target)]; [n] bounds the rounds of the loop, [None] when they are used up *)
Fixpoint follow (n : nat) (ps : list Peer) (own_al : bytes) (own_bsses : gset bytes) (seen : gset bytes) (bssid : option bytes) : option bool :=
  match n with
  | O => None
  | S n =>
      match bssid with
      | None => Some false
      | Some b =>
          if bool_decide (b ∈ own_bsses) then Some true
          else match upstream ps bssid with
               | None => Some false
               | Some owner =>
                   if bool_decide (al owner = own_al) || bool_decide (al owner ∈ seen) then Some true
                   else follow n ps own_al own_bsses ({[al owner]} ∪ seen) (parent owner)
               end
      end
  end.
Definition loops (ps : list Peer) (own_al : bytes) (own_bsses : gset bytes) (target : option bytes) : option bool :=
  follow (length ps + 2) ps own_al own_bsses ∅ target.

(** * Theory *)

Section Loops.
Context (ps : list Peer) (own_al : bytes) (own_bsses : gset bytes).

(** The chain of upstreams from a BSS ends after [n] hops, without this pod or a BSS of its own in it. *)
Inductive ends : nat → option bytes → Prop :=
  | ends_nowhere : ends 0 None
  | ends_outside b : b ∉ own_bsses → upstream ps (Some b) = None → ends 0 (Some b)
  | ends_after n b owner :
      b ∉ own_bsses → upstream ps (Some b) = Some owner → al owner ≠ own_al → ends n (parent owner) → ends (S n) (Some b).

Lemma ends_unique n m b : ends n b → ends m b → n = m.
Proof.
  intros Hn. revert m. induction Hn as [|b Hb Hu|n b owner Hb Hu Ha Hn IH]; intros m Hm; inversion Hm; subst; try congruence.
  f_equal. apply IH. congruence.
Qed.

Lemma upstream_in b owner : upstream ps b = Some owner → owner ∈ ps.
Proof.
  unfold upstream. destruct b as [b|]; [|done]. intros ([i p] & [Hl _]%list_find_Some & ->)%fmap_Some. by eapply list_elem_of_lookup_2.
Qed.

(** The addresses seen are of peers, so each round takes one of them. *)
Lemma follow_returns n seen b :
  seen ⊆ list_to_set (al <$> ps) → (length ps + 2 ≤ n + size seen)%nat → is_Some (follow n ps own_al own_bsses seen b).
Proof.
  assert (Hsize : ∀ X : gset bytes, X ⊆ list_to_set (al <$> ps) → (size X ≤ length ps)%nat).
  { intros X HX. etrans; [by apply subseteq_size|]. clear. induction ps as [|p l IH]; cbn; [by rewrite size_empty|].
    etrans; [apply size_union_bound|]. rewrite size_singleton. lia. }
  revert seen b. induction n as [|n IH]; intros seen b Hs Hn; [specialize (Hsize _ Hs); lia|]. cbn [follow].
  destruct b as [b|]; [|done]. case_bool_decide; [done|]. destruct (upstream ps (Some b)) as [owner|] eqn:Eu; [|done].
  destruct (bool_decide (al owner = own_al)); [done|]. cbn. case_bool_decide as Hseen; [done|]. apply IH.
  - apply upstream_in in Eu. apply union_least; [|done]. apply singleton_subseteq_l, elem_of_list_to_set. by apply list_elem_of_fmap_2.
  - rewrite size_union by set_solver. rewrite size_singleton. lia.
Qed.

(** No loop is reported only of a chain that ends. *)
Lemma follow_false n seen b : follow n ps own_al own_bsses seen b = Some false → ∃ k, ends k b.
Proof.
  revert seen b. induction n as [|n IH]; intros seen b; cbn [follow]; [done|]. destruct b as [b|]; [|intros _; exists 0%nat; constructor].
  case_bool_decide as Hb; [done|]. destruct (upstream ps (Some b)) as [owner|] eqn:Eu; [|intros _; exists 0%nat; by constructor].
  destruct (bool_decide (al owner = own_al)) eqn:Ea; [done|]. cbn. destruct (bool_decide (al owner ∈ seen)); [done|]. intros (k & Hk)%IH. exists (S k).
  apply bool_decide_eq_false_1 in Ea. by econstructor.
Qed.

(** A chain that ends visits no peer twice, when the peers' addresses differ. *)
Lemma follow_ends n seen b k r :
  NoDup (al <$> ps) → ends k b →
  (∀ a, a ∈ seen → ∃ o k', o ∈ ps ∧ al o = a ∧ ends k' (parent o) ∧ (k ≤ k')%nat) →
  follow n ps own_al own_bsses seen b = Some r → r = false.
Proof.
  intros Hnd He. revert n seen. induction He as [|b Hb Hu|k b owner Hb Hu Ha He IH]; intros [|n] seen Hseen; cbn [follow]; try done.
  - by intros [= <-].
  - rewrite bool_decide_eq_false_2 by done. rewrite Hu. by intros [= <-].
  - rewrite (bool_decide_eq_false_2 (b ∈ own_bsses)) by done. rewrite Hu, (bool_decide_eq_false_2 (al owner = own_al)) by done. cbn.
    case_bool_decide as Hin.
    { destruct (Hseen _ Hin) as (o & k' & Ho & Hal & Hk & Hle). assert (o = owner) as ->.
      { apply list_elem_of_lookup in Ho as [i Hi]. apply upstream_in, list_elem_of_lookup in Hu as [j Hj].
        assert (i = j) as -> by (eapply NoDup_lookup; [exact Hnd|rewrite list_lookup_fmap, Hi; cbn; by rewrite Hal|by rewrite list_lookup_fmap, Hj]).
        congruence. }
      pose proof (ends_unique _ _ _ He Hk). lia. }
    apply IH. intros a [->%elem_of_singleton|Hin']%elem_of_union.
    + exists owner, k. split; [by eapply upstream_in|]. done.
    + destruct (Hseen a Hin') as (o & k' & ? & ? & ? & ?). exists o, k'. naive_solver lia.
Qed.
End Loops.

(** * Properties *)

(** C37: the loop check returns and is exact. It comes to an answer on every set of statuses, circles among them
    included. When it answers that there is no loop, the chain of upstreams from the target ends - at a BSS of no fleet
    pod, or at a pod with no upstream - and neither a BSS of this pod nor this pod's agent is in it; and when the agents'
    addresses differ, it answers so whenever the chain ends like that. *)
Theorem loops_exact ps own_al own_bsses target :
  ∃ r, loops ps own_al own_bsses target = Some r
    ∧ (r = false → ∃ n, ends ps own_al own_bsses n target)
    ∧ (NoDup (al <$> ps) → (∃ n, ends ps own_al own_bsses n target) → r = false).
Proof.
  destruct (follow_returns ps own_al own_bsses (length ps + 2) ∅ target) as [r Hr]; [set_solver|rewrite size_empty; lia|].
  exists r. split; [done|]. split; [intros ->; by eapply follow_false|]. intros Hnd (n & Hn). eapply follow_ends; [done|exact Hn| |exact Hr]. set_solver.
Qed.

(** Two pods that are each other's upstream: a target among them is refused; one beside them is not. *)
Definition ex_peer (pod : string) (a bss : Z) (up : option Z) : Peer :=
  mkPeer pod (be_bytes 6 a) {[be_bytes 6 bss]} None (be_bytes 6 <$> up) [] ∅ None.
Example loops_in_a_circle :
  let ps := [ex_peer "a" 1 11 (Some 12); ex_peer "b" 2 12 (Some 11); ex_peer "c" 3 13 None] in
  let asked own t := loops ps (be_bytes 6 9) own (Some (be_bytes 6 t)) in
  asked ∅ 11 = Some true ∧ asked ∅ 13 = Some false ∧ asked {[be_bytes 6 13]} 13 = Some true.
Proof. vm_compute. done. Qed.
