(* ===== verification/Ovsdb.v ===== *)
(** * The pod's database: rows, guarded writes and their results

    The tables an agent reads and writes through OVSDB, as [Schema.row] of [src/emosa/opensync/schema.py] decodes them: the
    types of the columns are those of the qualified schema ([opensync-2.0.0.ovsschema]: a column of at most one
    value is optional, a set of references a list, a map of strings an ordered dictionary). The operations of
    the guarded transactions, what they look like on the wire, and what RFC 7047 says they do; the judgement of
    their results ([src/emosa/opensync/mapping.py]); the deletion of station rows
    ([src/emosa/opensync/stations.py]). *)

From Stdlib Require Import Ascii.
From stdpp Require Import sorting.
From S2P Require Import Prelude Bytes Lifecycle Session TopologyBindings.

(** ** Rows *)

Record Node := mkNode { serial_number : option string; cloud : string → list (string * string) }.
Record RadioConfig := mkRadioConfig {
  rc_if_name : option string; rc_band : string; rc_enabled : option bool; rc_channel : option Z; rc_ht_mode : option string;
  rc_vifs : list string }.
Record RadioState := mkRadioState {
  rs_if_name : option string; rs_band : string; rs_enabled : option bool; rs_channel : option Z; rs_ht_mode : option string;
  rs_vifs : list string }.
Record VifConfig := mkVifConfig {
  vc_if_name : string; vc_mode : option string; vc_enabled : option bool; vc_ssid : option string; vc_broadcast : option string;
  vc_bridge : option string; vc_security : list (string * string); vc_credentials : list string }.
Record VifState := mkVifState {
  vs_if_name : string; vs_mode : option string; vs_enabled : option bool; vs_parent : option string }.
Record Inet := mkInet { in_if_name : string; in_enabled : bool }.
Record Uplink := mkUplink { up_if_name : string; up_if_type : string; up_is_used : option bool }.
Record StatsConfig := mkStatsConfig { stats_type : string; radio_type : string }.
#[export] Instance eta_Node : Eta Node := λ r, mkNode (serial_number r) (cloud r).
#[export] Instance eta_RadioConfig : Eta RadioConfig := λ r,
  mkRadioConfig (rc_if_name r) (rc_band r) (rc_enabled r) (rc_channel r) (rc_ht_mode r) (rc_vifs r).
#[export] Instance eta_VifConfig : Eta VifConfig := λ r,
  mkVifConfig (vc_if_name r) (vc_mode r) (vc_enabled r) (vc_ssid r) (vc_broadcast r) (vc_bridge r) (vc_security r) (vc_credentials r).
#[export] Instance eta_Inet : Eta Inet := λ r, mkInet (in_if_name r) (in_enabled r).

(** A table: its rows by UUID, in the order of the dictionary. *)
Abbreviation table X := (list (string * X)).

Record Pod := mkPod {
  nodes : table Node;
  radio_configs : table RadioConfig;
  radio_states : table RadioState;
  vif_configs : table VifConfig;
  vif_states : table VifState;
  credentials : table (option string);   (* the SSID of a Wifi_Credential_Config row *)
  inets : table Inet;
  uplinks : table Uplink;
  stats_configs : table StatsConfig
}.
#[export] Instance eta_Pod : Eta Pod := λ p,
  mkPod (nodes p) (radio_configs p) (radio_states p) (vif_configs p) (vif_states p) (credentials p) (inets p) (uplinks p) (stats_configs p).

(** [d.get(u)], and the change of one row *)
Definition row {X} (u : string) (t : table X) : option X := snd <$> (snd <$> list_find (λ kv, kv.1 = u) t).
Definition on_row {X} (u : string) (f : X → X) (t : table X) : table X := (λ kv, if bool_decide (kv.1 = u) then (kv.1, f kv.2) else kv) <$> t.

(** ** Operations *)

(** [MQTT] columns of [AWLAN_Node] that point at a broker *)
Definition CLOUD : list string := ["mqtt_headers"; "mqtt_settings"; "mqtt_topics"].

(** The operations of the transactions; a wait names the row and what it must be. *)
Inductive operation :=
  | WaitSerial (u serial : string)
  | WaitAp (u name : string)
  | Neutralize (u key : string)
  | WaitInet (u name : string)
  | InetOff (u : string)
  | WaitRadio (u : string) (was : RadioConfig)
  | SetRadio (u : string) (channel : Z) (ht_mode : string)
  | WaitDark (u : string) (was : RadioConfig)
  | RadioOn (u : string) (channel : Z) (ht_mode : string)
  | WaitCloud (u : string) (was : string → list (string * string))
  | ClearCloud (u : string)
  | WaitStats (u : string) (was : StatsConfig)
  | DeleteStats (u : string)
  | WaitStation (u : string) (was : VifConfig)
  | DropReference (radio vif : string)
  | DeleteVif (u : string)
  | DeleteCredential (u : string)
  | DeleteInet (u : string).

(** *** On the wire *)

(** [where_uuid(row_id)] *)
Definition where_uuid (u : string) : value := VList [VList [VStr "_uuid"; VStr "=="; VList [VStr "uuid"; VStr u]]].

(** [optional(value)]: a wait row's value, or the empty set *)
Definition optional (v : option value) : value := default (VList [VStr "set"; VList []]) v.

(** [ovs_map(value)] *)
Definition ovs_map (d : list (string * string)) : value :=
  VList [VStr "map"; VList ((λ kv, VList [VStr kv.1; VStr kv.2]) <$> sort_by fst d)].

Definition wait_op (t u : string) (row : list (string * value)) : value :=
  VDict [("op", VStr "wait"); ("table", VStr t); ("where", where_uuid u); ("columns", VList (VStr <$> row.*1)); ("until", VStr "==");
         ("rows", VList [VDict row]); ("timeout", VInt 0)].
Definition update_op (t u : string) (row : list (string * value)) : value :=
  VDict [("op", VStr "update"); ("table", VStr t); ("where", where_uuid u); ("row", VDict row)].
Definition delete_op (t u : string) : value := VDict [("op", VStr "delete"); ("table", VStr t); ("where", where_uuid u)].

(** [neutral_row(key)] of [radio_plan.py] *)
Definition neutral_row (key : string) : list (string * value) :=
  [("security", VList [VStr "map"; VList [VList [VStr "encryption"; VStr "WPA-PSK"]; VList [VStr "key"; VStr key]]]);
   ("ssid_broadcast", VStr "disabled"); ("bridge", VStr "")].

Definition on_wire (o : operation) : value :=
  match o with
  | WaitSerial u s => wait_op "AWLAN_Node" u [("serial_number", VStr s)]
  | WaitAp u n => wait_op "Wifi_VIF_Config" u [("if_name", VStr n); ("mode", VStr "ap")]
  | Neutralize u k => update_op "Wifi_VIF_Config" u (neutral_row k)
  | WaitInet u n => wait_op "Wifi_Inet_Config" u [("if_name", VStr n); ("enabled", VBool true)]
  | InetOff u => update_op "Wifi_Inet_Config" u [("enabled", VBool false)]
  | WaitRadio u r => wait_op "Wifi_Radio_Config" u
      [("if_name", default VNone (VStr <$> rc_if_name r)); ("channel", optional (VInt <$> rc_channel r)); ("ht_mode", optional (VStr <$> rc_ht_mode r))]
  | SetRadio u c h => update_op "Wifi_Radio_Config" u [("channel", VInt c); ("ht_mode", VStr h)]
  | WaitDark u r => wait_op "Wifi_Radio_Config" u
      [("if_name", default VNone (VStr <$> rc_if_name r)); ("enabled", optional (VBool <$> rc_enabled r));
       ("channel", optional (VInt <$> rc_channel r)); ("ht_mode", optional (VStr <$> rc_ht_mode r))]
  | RadioOn u c h => update_op "Wifi_Radio_Config" u [("enabled", VBool true); ("channel", VInt c); ("ht_mode", VStr h)]
  | WaitCloud u w => wait_op "AWLAN_Node" u ((λ c, (c, ovs_map (w c))) <$> CLOUD)
  | ClearCloud u => update_op "AWLAN_Node" u ((λ c, (c, VList [VStr "map"; VList []])) <$> CLOUD)
  | WaitStats u w => wait_op "Wifi_Stats_Config" u [("stats_type", VStr (stats_type w)); ("radio_type", VStr (radio_type w))]
  | DeleteStats u => delete_op "Wifi_Stats_Config" u
  | WaitStation u r => wait_op "Wifi_VIF_Config" u [("if_name", VStr (vc_if_name r)); ("mode", VStr "sta"); ("ssid", optional (VStr <$> vc_ssid r))]
  | DropReference r v =>
      VDict [("op", VStr "mutate"); ("table", VStr "Wifi_Radio_Config"); ("where", where_uuid r);
             ("mutations", VList [VList [VStr "vif_configs"; VStr "delete"; VList [VStr "set"; VList [VList [VStr "uuid"; VStr v]]]]])]
  | DeleteVif u => delete_op "Wifi_VIF_Config" u
  | DeleteCredential u => delete_op "Wifi_Credential_Config" u
  | DeleteInet u => delete_op "Wifi_Inet_Config" u
  end.

(** *** What they do: RFC 7047, 5.2. A wait with timeout 0 fails the transaction unless the row is there and is so; a write
    changes the rows it names, and says how many they were. *)

Definition matched {X} (u : string) (t : table X) : Z := Z.of_nat (length (filter (λ kv, kv.1 = u) t)).
Definition without {X} (u : string) (t : table X) : table X := filter (λ kv, kv.1 ≠ u) t.
Definition is_row {X} (u : string) (t : table X) (P : X → bool) : bool := from_option P false (row u t).

Definition same_cloud (a b : string → list (string * string)) : bool :=
  forallb (λ c, bool_decide (list_to_map (a c) = (list_to_map (b c) : gmap string string))) CLOUD.

(** The pod after the operation with the rows matched, or nothing when a wait fails. *)
Definition perform (o : operation) (p : Pod) : option (Pod * option Z) :=
  let wait (b : bool) := if b then Some (p, None) else None in
  match o with
  | WaitSerial u s => wait (is_row u (nodes p) (λ n, bool_decide (serial_number n = Some s)))
  | WaitAp u n => wait (is_row u (vif_configs p) (λ r, bool_decide (vc_if_name r = n) && bool_decide (vc_mode r = Some "ap")))
  | Neutralize u k =>
      Some (p <| vif_configs := on_row u (λ r, r <| vc_security := [("encryption", "WPA-PSK"); ("key", k)] |>
                                                 <| vc_broadcast := Some "disabled" |> <| vc_bridge := Some "" |>) (vif_configs p) |>,
            Some (matched u (vif_configs p)))
  | WaitInet u n => wait (is_row u (inets p) (λ r, bool_decide (in_if_name r = n) && in_enabled r))
  | InetOff u => Some (p <| inets := on_row u (λ r, r <| in_enabled := false |>) (inets p) |>, Some (matched u (inets p)))
  | WaitRadio u w => wait (is_row u (radio_configs p) (λ r, bool_decide (rc_if_name r = rc_if_name w) && bool_decide (rc_channel r = rc_channel w)
                                                          && bool_decide (rc_ht_mode r = rc_ht_mode w)))
  | SetRadio u c h =>
      Some (p <| radio_configs := on_row u (λ r, r <| rc_channel := Some c |> <| rc_ht_mode := Some h |>) (radio_configs p) |>,
            Some (matched u (radio_configs p)))
  | WaitDark u w => wait (is_row u (radio_configs p) (λ r, bool_decide (rc_if_name r = rc_if_name w) && bool_decide (rc_enabled r = rc_enabled w)
                                                         && bool_decide (rc_channel r = rc_channel w) && bool_decide (rc_ht_mode r = rc_ht_mode w)))
  | RadioOn u c h =>
      Some (p <| radio_configs := on_row u (λ r, r <| rc_enabled := Some true |> <| rc_channel := Some c |> <| rc_ht_mode := Some h |>) (radio_configs p) |>,
            Some (matched u (radio_configs p)))
  | WaitCloud u w => wait (is_row u (nodes p) (λ n, same_cloud (cloud n) w))
  | ClearCloud u => Some (p <| nodes := on_row u (λ n, n <| cloud := λ _, [] |>) (nodes p) |>, Some (matched u (nodes p)))
  | WaitStats u w => wait (is_row u (stats_configs p) (λ r, bool_decide (stats_type r = stats_type w) && bool_decide (radio_type r = radio_type w)))
  | DeleteStats u => Some (p <| stats_configs := without u (stats_configs p) |>, Some (matched u (stats_configs p)))
  | WaitStation u w => wait (is_row u (vif_configs p) (λ r, bool_decide (vc_if_name r = vc_if_name w) && bool_decide (vc_mode r = Some "sta")
                                                          && bool_decide (vc_ssid r = vc_ssid w)))
  | DropReference r v =>
      Some (p <| radio_configs := on_row r (λ x, x <| rc_vifs := filter (λ u, u ≠ v) (rc_vifs x) |>) (radio_configs p) |>,
            Some (matched r (radio_configs p)))
  | DeleteVif u => Some (p <| vif_configs := without u (vif_configs p) |>, Some (matched u (vif_configs p)))
  | DeleteCredential u => Some (p <| credentials := without u (credentials p) |>, Some (matched u (credentials p)))
  | DeleteInet u => Some (p <| inets := without u (inets p) |>, Some (matched u (inets p)))
  end.

(** A transaction, applied whole or not at all; its counts. *)
Fixpoint transact (ops : list operation) (p : Pod) : option (Pod * list (option Z)) :=
  match ops with
  | [] => Some (p, [])
  | o :: ops => '(p, n) ← perform o p; '(p, ns) ← transact ops p; Some (p, n :: ns)
  end.

(** ** Results: [mapping.py] *)

(** [error[:64]], in characters *)
Fixpoint take_chars (n : nat) (s : string) : string :=
  match s with
  | EmptyString => EmptyString
  | String c s =>
      if continues c then String c (take_chars n s)
      else match n with O => EmptyString | S n => String c (take_chars n s) end
  end.

(** [d.get(k)], of a dictionary *)
Definition field (k : string) (d : list (string * value)) : value := default VNone (row k d).
Definition error_of (v : value) : value := match v with VDict d => field "error" d | _ => VNone end.

(** [database_error(results)] *)
Definition database_error (results : list value) : option string :=
  head (omap (λ r, match error_of r with VStr e => if bool_decide (e = "") then None else Some (take_chars 64 e) | _ => None end) results).

(** [result.get("count") != count]; in Python [True == 1] *)
Definition count_is (v : value) (n : Z) : bool :=
  match v with VInt z => bool_decide (z = n) | VBool b => bool_decide ((if b then 1 else 0) = n) | _ => false end.

(** An error, with its detail [database_error]. *)
Abbreviation failure := (EmosaError * option string)%type.

(** The loop of [check_results] *)
Fixpoint check_counts (results : list value) (counts : list (option Z)) : option failure :=
  match results, counts with
  | r :: results, c :: counts =>
      match r with
      | VDict d =>
          if truthy (field "error" d) then
            Some (mkEmosaError (if bool_decide (field "error" d = VStr "timed out") then PRECONDITION_FAILED else INVALID_INPUT)
                    "transaction rejected by server", database_error [r])
          else match c with
               | Some n => if count_is (field "count" d) n then check_counts results counts
                           else Some (mkEmosaError OUTCOME_UNKNOWN "unexpected matched-row count", None)
               | None => check_counts results counts
               end
      | _ => Some (mkEmosaError OUTCOME_UNKNOWN "missing transaction operation result", None)
      end
  | _, _ => None
  end.

(** The refusal of the commit: every operation done, and one result more, an error. *)
Definition commit_refused (results : list value) (n : nat) : bool :=
  bool_decide (length results = S n)
  && match last results with Some (VDict d) => match field "error" d with VStr _ => true | _ => false end | _ => false end
  && forallb (λ r, match r with VDict d => negb (truthy (field "error" d)) | _ => false end) (take n results).

(** [check_results(results, expected_counts)]: [None] when it passes *)
Definition check_results (results : value) (counts : list (option Z)) : option failure :=
  match results with
  | VList l =>
      if commit_refused l (length counts)
      then Some (mkEmosaError INVALID_INPUT "transaction not committed by server", database_error (drop (length counts) l))
      else if negb (bool_decide (length l = length counts)) then Some (mkEmosaError OUTCOME_UNKNOWN "incomplete transaction result", None)
      else check_counts l counts
  | _ => Some (mkEmosaError OUTCOME_UNKNOWN "incomplete transaction result", None)
  end.

(** [failed_check(exc)] *)
Definition failed_check (f : failure) : SubmitResult :=
  let evidence : dict := match f.2 with
                         | Some e => if bool_decide (e = "") then ∅ else {["attribution" := VStr "reply"; "database_error" := VStr e]}
                         | None => ∅
                         end in
  mkSubmitResult (if bool_decide (code f.1 = PRECONDITION_FAILED) then "conflict"
                  else if bool_decide (code f.1 = OUTCOME_UNKNOWN) then "unknown" else "rejected")
    evidence (Some (reason_value (code f.1))).

(** ** Deleting stations: [stations.py] *)

(** [sorted(..., key=lambda u: (vifs[u].get("if_name") or "", u))] *)
Definition station_key (vifs : table VifConfig) (u : string) : string := from_option vc_if_name "" (row u vifs) +:+ String (ascii_of_N 0) u.

Section Deletion.
Context (p : Pod) (uuids : list string).

Definition vifs_of : table VifConfig := vif_configs p.
(** [gone], [kept] *)
Definition gone : list string := elements (list_to_set (filter (λ u, u ∈ vifs_of.*1) uuids) : gset string).
Definition kept : list VifConfig := snd <$> filter (λ kv, kv.1 ∉ gone) vifs_of.
Definition kept_credentials : gset string := list_to_set (kept ≫= vc_credentials).
Definition kept_names : gset string := list_to_set (vc_if_name <$> kept).
Definition gone_rows : list VifConfig := omap (λ u, row u vifs_of) gone.
Definition gone_credentials : list string :=
  sort_by id (elements (list_to_set (filter (λ c, c ∈ (credentials p).*1 ∧ c ∉ kept_credentials) (gone_rows ≫= vc_credentials)) : gset string)).
Definition gone_inets : list string :=
  sort_by id (filter (λ kv, in_if_name kv.2 ∈ vc_if_name <$> gone_rows ∧ in_if_name kv.2 ∉ kept_names) (inets p)).*1.
Definition gone_references : list (string * string) :=
  sort_by (λ rv, rv.1 +:+ String (ascii_of_N 0) rv.2)
    (radio_configs p ≫= λ kv, (λ v, (kv.1, v)) <$> filter (λ v, v ∈ gone) (rc_vifs kv.2)).

(** [deletion(decoded, uuids)]: the operations with the counts they must match *)
Definition deletion : list (operation * option Z) :=
  let order := sort_by (station_key vifs_of) gone in
  omap (λ u, (λ r, (WaitStation u r, None)) <$> row u vifs_of) order
  ++ ((λ rv, (DropReference rv.1 rv.2, Some 1)) <$> gone_references)
  ++ ((λ u, (DeleteVif u, Some 1)) <$> order)
  ++ ((λ u, (DeleteCredential u, Some 1)) <$> gone_credentials)
  ++ ((λ u, (DeleteInet u, Some 1)) <$> gone_inets).
End Deletion.

(** * Theory *)

(** ** Tables changed row by row *)

Section Rows.
Context {X : Type}.
Implicit Types (t : table X) (u : string).

Definition rowwise (h : string → X → X) (t : table X) : table X := (λ kv, (kv.1, h kv.1 kv.2)) <$> t.

Lemma on_row_rowwise u f t : on_row u f t = rowwise (λ k r, if bool_decide (k = u) then f r else r) t.
Proof. unfold on_row, rowwise. apply list_fmap_ext. intros _ [k r] _. cbn. by destruct (bool_decide _). Qed.
Lemma rowwise_rowwise g h t : rowwise g (rowwise h t) = rowwise (λ u r, g u (h u r)) t.
Proof. unfold rowwise. by rewrite <- list_fmap_compose. Qed.
Lemma rowwise_id t : rowwise (λ _ r, r) t = t.
Proof. unfold rowwise. rewrite <- (list_fmap_id t) at 2. apply list_fmap_ext. by intros _ [] _. Qed.
Lemma rowwise_keys h t : (rowwise h t).*1 = t.*1.
Proof. unfold rowwise. by rewrite <- list_fmap_compose. Qed.
Lemma rowwise_elem h t u r' : (u, r') ∈ rowwise h t ↔ ∃ r, r' = h u r ∧ (u, r) ∈ t.
Proof.
  unfold rowwise. rewrite list_elem_of_fmap. split.
  - intros ([k r] & [= -> ->] & Hr). by exists r.
  - intros (r & -> & Hr). by exists (u, r).
Qed.
Lemma row_cons u k r t : row u ((k, r) :: t) = if decide (k = u) then Some r else row u t.
Proof. unfold row. cbn. case_decide; [done|]. by destruct (list_find _ t) as [[i x]|]. Qed.
Lemma row_rowwise h t u : row u (rowwise h t) = h u <$> row u t.
Proof. induction t as [|[k r] t IH]; [done|]. change (rowwise h ((k, r) :: t)) with ((k, h k r) :: rowwise h t). rewrite !row_cons. case_decide; [by subst|done]. Qed.
Lemma matched_rowwise h t u : matched u (rowwise h t) = matched u t.
Proof.
  unfold matched. f_equal. induction t as [|[k r] t IH]; [done|]. change (rowwise h ((k, r) :: t)) with ((k, h k r) :: rowwise h t).
  rewrite !filter_cons. cbn [fst]. case_decide; cbn [length]; lia.
Qed.

Lemma row_elem t u r : row u t = Some r → (u, r) ∈ t.
Proof.
  unfold row. intros (? & ([i x] & [Hl [Hk _]]%list_find_Some & ->)%fmap_Some & ->)%fmap_Some. apply list_elem_of_lookup_2 in Hl. cbn in Hk.
  destruct x as [k y]. cbn in *. by subst.
Qed.
Lemma elem_row t u r : NoDup t.*1 → (u, r) ∈ t → row u t = Some r.
Proof.
  intros Hd Hin. induction t as [|[k x] t IH]; [by apply elem_of_nil in Hin|]. rewrite row_cons. apply NoDup_cons in Hd as [Hk Hd].
  apply elem_of_cons in Hin as [[= -> ->]|Hin]; [by rewrite decide_True|].
  rewrite decide_False; [by apply IH|]. intros ->. apply Hk, list_elem_of_fmap. by exists (u, r).
Qed.
Lemma key_row t u : u ∈ t.*1 → is_Some (row u t).
Proof.
  intros ([k r] & -> & Hin)%list_elem_of_fmap. unfold row. destruct (list_find _ t) as [[i x]|] eqn:E; [by eexists|].
  by eapply list_find_None, Forall_forall in E; [|exact Hin].
Qed.

Lemma matched_one t u : NoDup t.*1 → u ∈ t.*1 → matched u t = 1.
Proof.
  intros Hd Hu. unfold matched. assert (length (filter (λ kv : string * X, kv.1 = u) t) = 1%nat) as ->; [|done].
  induction t as [|[k r] t IH]; [by apply elem_of_nil in Hu|]. cbn in Hd, Hu. apply NoDup_cons in Hd as [Hk Hd]. rewrite filter_cons. cbn. case_decide as E.
  - subst. cbn. f_equal. clear -Hk. induction t as [|[k' r'] t IH]; [done|]. rewrite filter_cons. cbn. rewrite decide_False by set_solver. apply IH. set_solver.
  - apply elem_of_cons in Hu as [->|Hu]; [done|]. by apply IH.
Qed.

(** Rows taken away. *)
Definition without_all (us : list string) (t : table X) : table X := filter (λ kv, kv.1 ∉ us) t.

Lemma without_all_nil t : without_all [] t = t.
Proof. unfold without_all. induction t as [|[k r] t IH]; [done|]. rewrite filter_cons_True by set_solver. by rewrite IH. Qed.
Lemma without_all_cons u us t : without_all us (without u t) = without_all (u :: us) t.
Proof.
  unfold without_all, without. rewrite list_filter_filter. apply list_filter_iff. intros [k r]. cbn. set_solver.
Qed.
Lemma without_all_keys us t u : u ∈ (without_all us t).*1 ↔ (u ∈ t.*1) ∧ (u ∉ us).
Proof.
  unfold without_all. rewrite !list_elem_of_fmap. split.
  - intros ([k r] & -> & [Hk Hin]%list_elem_of_filter). split; [by exists (k, r)|done].
  - intros [([k r] & -> & Hin) Hu]. exists (k, r). split; [done|]. by apply list_elem_of_filter.
Qed.
Lemma without_keys u t : without u t = without_all [u] t.
Proof. unfold without, without_all. apply list_filter_iff. intros [k r]. cbn. set_solver. Qed.
Lemma without_all_NoDup us t : NoDup t.*1 → NoDup (without_all us t).*1.
Proof. intros Hd. eapply sublist_NoDup; [exact Hd|]. apply fmap_sublist, sublist_filter. Qed.
Lemma without_all_elem us t u r : (u, r) ∈ without_all us t ↔ (u ∉ us) ∧ ((u, r) ∈ t).
Proof. unfold without_all. by rewrite list_elem_of_filter. Qed.
Lemma row_without us t u : u ∉ us → row u (without_all us t) = row u t.
Proof.
  intros Hu. unfold without_all in *. induction t as [|[k r] t IH]; [done|]. rewrite filter_cons, row_cons. cbn. case_decide as Hk.
  - rewrite row_cons. by rewrite IH.
  - rewrite IH. rewrite decide_False; [done|]. naive_solver.
Qed.
End Rows.

(** ** Transactions *)

Lemma transact_app a b p p1 n1 p2 n2 :
  transact a p = Some (p1, n1) → transact b p1 = Some (p2, n2) → transact (a ++ b) p = Some (p2, n1 ++ n2).
Proof.
  revert p n1. induction a as [|o a IH]; intros p n1; cbn; [intros [= <- <-]; done|].
  destruct (perform o p) as [[q n]|]; [|done]. cbn. destruct (transact a q) as [[q' ns]|] eqn:E; [|done]. cbn. intros [= <- <-] Hb.
  by rewrite (IH q ns E Hb).
Qed.

(** A part of a transaction, with the counts it must match, does what it should. *)
Definition does (ops : list (operation * option Z)) (p p' : Pod) : Prop := transact ops.*1 p = Some (p', ops.*2).

Lemma does_nil p : does [] p p.
Proof. done. Qed.
Lemma does_app a b p q r : does a p q → does b q r → does (a ++ b) p r.
Proof. unfold does. intros Ha Hb. rewrite !fmap_app. by eapply transact_app. Qed.
Lemma does_cons o n ops p q r : perform o p = Some (q, n) → does ops q r → does ((o, n) :: ops) p r.
Proof. unfold does. intros Ho Hr. cbn. rewrite Ho. cbn. by rewrite Hr. Qed.

(** What a list of writes makes of a row. *)
Section Written.
Context {X A : Type} (u : A → string) (f : A → X → X).

Definition written (l : list A) (k : string) (r : X) : X := foldl (λ r x, if bool_decide (k = u x) then f x r else r) r l.

Lemma written_other l k r : k ∉ u <$> l → written l k r = r.
Proof.
  unfold written. revert r. induction l as [|x l IH]; intros r Hk; [done|]. cbn in *. rewrite bool_decide_eq_false_2 by set_solver. apply IH. set_solver.
Qed.

(** A write that would not change the row again, when it is of one of the rows. *)
Lemma written_in g l k r : (∀ x, x ∈ l → u x = k → ∀ r, f x r = g r) → (∀ r, g (g r) = g r) → k ∈ u <$> l → written l k r = g r.
Proof.
  intros Hf Hg Hin. unfold written. assert (Hgr : ∀ l r, (∀ x, x ∈ l → u x = k → ∀ r, f x r = g r) →
    foldl (λ r x, if bool_decide (k = u x) then f x r else r) (g r) l = g r).
  { clear -Hg. induction l as [|x l IH]; intros r Hf; [done|]. cbn. case_bool_decide as E; [|by apply IH; intros y Hy; apply Hf; right].
    rewrite (Hf x) by (by left || done). rewrite Hg. apply IH. intros y Hy. apply Hf. by right. }
  induction l as [|x l IH] in r, Hf, Hin |- *; [by apply elem_of_nil in Hin|]. cbn. case_bool_decide as E.
  - rewrite (Hf x) by (by left || done). apply Hgr. intros y Hy. apply Hf. by right.
  - apply IH; [intros y Hy; apply Hf; by right|]. cbn in Hin. apply elem_of_cons in Hin as [?|?]; done.
Qed.
End Written.

(** Guarded writes of rows: each waits for the row it then changes. *)
Section Guarded.
Context {X A : Type} (get : Pod → table X) (set : table X → Pod → Pod) (u : A → string) (W Wr : A → operation) (ok : A → X → bool) (f : A → X → X).
Hypotheses (get_set : ∀ t p, get (set t p) = t) (set_set : ∀ t t' p, set t (set t' p) = set t p) (set_get : ∀ p, set (get p) p = p)
  (HW : ∀ x p, perform (W x) p = if is_row (u x) (get p) (ok x) then Some (p, None) else None)
  (HWr : ∀ x p, perform (Wr x) p = Some (set (on_row (u x) (f x) (get p)) p, Some (matched (u x) (get p)))).

Definition guarded (l : list A) : list (operation * option Z) := l ≫= λ x, [(W x, None); (Wr x, Some 1)].
Lemma guarded_does l p :
  NoDup (get p).*1 → NoDup (u <$> l) → (∀ x, x ∈ l → ∃ r, row (u x) (get p) = Some r ∧ ok x r = true) →
  does (guarded l) p (set (rowwise (written u f l) (get p)) p).
Proof.
  intros Hd. revert p Hd. induction l as [|x l IH]; intros p Hd Hu Hok.
  { unfold guarded, written. cbn. rewrite rowwise_id, set_get. apply does_nil. }
  unfold guarded. cbn. apply NoDup_cons in Hu as [Hx Hu]. destruct (Hok x ltac:(by left)) as (r & Hr & Hor).
  eapply does_cons; [rewrite HW; unfold is_row; rewrite Hr; cbn; by rewrite Hor|].
  assert (Hk : u x ∈ (get p).*1) by (apply row_elem in Hr; apply list_elem_of_fmap; by exists (u x, r)).
  eapply does_cons; [rewrite HWr, (matched_one _ _ Hd Hk); reflexivity|].
  set (p1 := set (on_row (u x) (f x) (get p)) p). assert (E1 : get p1 = on_row (u x) (f x) (get p)) by apply get_set.
  assert (Hp1 : does (guarded l) p1 (set (rowwise (written u f l) (get p1)) p1)).
  { apply IH; [by rewrite E1, on_row_rowwise, rowwise_keys|done|]. intros y Hy. destruct (Hok y ltac:(by right)) as (r' & Hr' & Ho').
    exists r'. split; [|done]. rewrite E1, on_row_rowwise, row_rowwise, Hr'. cbn. rewrite bool_decide_eq_false_2; [done|].
    intros Heq. apply Hx. rewrite <- Heq. by apply list_elem_of_fmap_2. }
  assert (set (rowwise (written u f (x :: l)) (get p)) p = set (rowwise (written u f l) (get p1)) p1) as ->; [|exact Hp1].
  unfold p1. rewrite get_set, set_set, on_row_rowwise, rowwise_rowwise. done.
Qed.
End Guarded.

Lemma does_waits ops p : (∀ on, on ∈ ops → perform on.1 p = Some (p, on.2)) → does ops p p.
Proof.
  induction ops as [|[o n] ops IH]; intros Hw; [apply does_nil|]. eapply does_cons; [apply (Hw (o, n)); by left|]. apply IH. intros on Hon. apply Hw. by right.
Qed.

(** Deletions of rows that are there. *)
Section Deletes.
Context {X : Type} (get : Pod → table X) (set : table X → Pod → Pod) (D : string → operation).
Hypotheses (get_set : ∀ t p, get (set t p) = t) (set_set : ∀ t t' p, set t (set t' p) = set t p) (set_get : ∀ p, set (get p) p = p)
  (HD : ∀ u p, perform (D u) p = Some (set (without u (get p)) p, Some (matched u (get p)))).

Lemma deletes_do us p :
  NoDup (get p).*1 → NoDup us → (∀ u, u ∈ us → u ∈ (get p).*1) → does ((λ u, (D u, Some 1)) <$> us) p (set (without_all us (get p)) p).
Proof.
  revert p. induction us as [|u us IH]; intros p Hd Hu Hin.
  { cbn. rewrite without_all_nil, set_get. apply does_nil. }
  apply NoDup_cons in Hu as [Hnu Hu]. cbn. eapply does_cons; [rewrite HD, matched_one; [reflexivity|done|apply Hin; by left]|].
  replace (set (without_all (u :: us) (get p)) p) with (set (without_all us (get (set (without u (get p)) p))) (set (without u (get p)) p))
    by (by rewrite get_set, set_set, without_all_cons).
  apply IH; [rewrite get_set, without_keys; by apply without_all_NoDup|done|]. intros v Hv. rewrite get_set, without_keys. apply without_all_keys.
  split; [apply Hin; by right|]. set_solver.
Qed.
End Deletes.

Lemma sort_by_NoDup {A} (key : A → string) (l : list A) : NoDup l → NoDup (sort_by key l).
Proof. unfold sort_by. by rewrite merge_sort_Permutation. Qed.

(** References dropped from radios that are there; nothing else of a radio changes. *)
Definition drops (l : list (string * string)) (u : string) (r : RadioConfig) : RadioConfig :=
  foldl (λ r rv, if bool_decide (u = rv.1) then r <| rc_vifs := filter (λ v, v ≠ rv.2) (rc_vifs r) |> else r) r l.

Lemma drops_rest l u r : ∃ vs, drops l u r = r <| rc_vifs := vs |>.
Proof.
  unfold drops. revert r. induction l as [|[k v] l IH]; intros r; cbn; [exists (rc_vifs r); by destruct r|]. destruct (bool_decide (u = k)); [|apply IH].
  destruct (IH (r <| rc_vifs := filter (λ x, x ≠ v) (rc_vifs r) |>)) as [vs Hvs]. exists vs. exact Hvs.
Qed.

Lemma drops_do l p :
  NoDup (radio_configs p).*1 → (∀ rv, rv ∈ l → rv.1 ∈ (radio_configs p).*1) →
  does ((λ rv, (DropReference rv.1 rv.2, Some 1)) <$> l) p (p <| radio_configs := rowwise (drops l) (radio_configs p) |>).
Proof.
  revert p. induction l as [|[u v] l IH]; intros p Hd Hin; cbn [fmap list_fmap].
  { unfold drops. cbn. rewrite rowwise_id. destruct p. apply does_nil. }
  eapply does_cons; [cbn; rewrite matched_one; [reflexivity|done|apply (Hin (u, v)); by left]|].
  set (p1 := p <| radio_configs := on_row u (λ x, x <| rc_vifs := filter (λ w, w ≠ v) (rc_vifs x) |>) (radio_configs p) |>). assert (Hk : (radio_configs p1).*1 = (radio_configs p).*1) by (cbn; by rewrite on_row_rowwise, rowwise_keys).
  specialize (IH p1). rewrite Hk in IH. specialize (IH Hd ltac:(intros rv Hrv; apply Hin; by right)).
  assert (p <| radio_configs := rowwise (drops ((u, v) :: l)) (radio_configs p) |> = p1 <| radio_configs := rowwise (drops l) (radio_configs p1) |>) as ->;
    [|exact IH].
  assert (radio_configs p1 = rowwise (λ k r, if bool_decide (k = u) then r <| rc_vifs := filter (λ w, w ≠ v) (rc_vifs r) |> else r) (radio_configs p)) as ->
    by apply on_row_rowwise.
  rewrite rowwise_rowwise. done.
Qed.

(** ** The deletion of stations *)

Record pod_ok (p : Pod) : Prop := {
  ok_vifs : NoDup (vif_configs p).*1;
  ok_radios : NoDup (radio_configs p).*1;
  ok_inets : NoDup (inets p).*1;
  ok_credentials : NoDup (credentials p).*1;
  ok_stats : NoDup (stats_configs p).*1
}.

Lemma gone_elem p l u : u ∈ gone p l ↔ (u ∈ l) ∧ (u ∈ (vif_configs p).*1).
Proof. unfold gone. rewrite elem_of_elements, elem_of_list_to_set, list_elem_of_filter. unfold vifs_of. tauto. Qed.
Lemma gone_NoDup p l : NoDup (gone p l).
Proof. apply NoDup_elements. Qed.

(** The pod without them. *)
Definition deleted (p : Pod) (l : list string) (q : Pod) : Pod :=
  q <| radio_configs := rowwise (drops (gone_references p l)) (radio_configs q) |>
    <| vif_configs := without_all (sort_by (station_key (vifs_of p)) (gone p l)) (vif_configs q) |>
    <| credentials := without_all (gone_credentials p l) (credentials q) |>
    <| inets := without_all (gone_inets p l) (inets q) |>.

(** [deletion] was planned for [p] and runs on [q], which has the same rows, the stations' unchanged. *)
Lemma deletion_does p l q :
  pod_ok p → (∀ u r, u ∈ l → row u (vif_configs p) = Some r → vc_mode r = Some "sta" ∧ row u (vif_configs q) = Some r) →
  (vif_configs q).*1 = (vif_configs p).*1 → (radio_configs q).*1 = (radio_configs p).*1 → (inets q).*1 = (inets p).*1 →
  (credentials q).*1 = (credentials p).*1 → does (deletion p l) q (deleted p l q).
Proof.
  intros [Hv Hr Hi Hc _] Hsta Ev Er Ei Ec. unfold deletion, deleted.
  eapply does_app; [apply does_waits|]. 
  { intros on (u & Hu & Hon)%list_elem_of_omap. apply sort_by_elem, gone_elem in Hu as [Hu _]. apply fmap_Some in Hon as (r & Hrow & ->).
    destruct (Hsta u r Hu Hrow) as [Hm Hq]. cbn. unfold is_row. rewrite Hq. cbn. by rewrite Hm, !bool_decide_eq_true_2. }
  eapply does_app; [apply drops_do; [by rewrite Er|]|].
  { intros rv Hrv. unfold gone_references in Hrv. apply sort_by_elem, list_elem_of_bind in Hrv as ([k r] & Hin & Hk). cbn in Hin.
    apply list_elem_of_fmap in Hin as (v & -> & _). rewrite Er. apply list_elem_of_fmap. by exists (k, r). }
  eapply does_app; [apply (deletes_do vif_configs (λ t p, p <| vif_configs := t |>)); try done; cbn|].
  { by intros []. }
  { by rewrite Ev. }
  { apply sort_by_NoDup, gone_NoDup. }
  { intros u [_ Hu]%sort_by_elem%gone_elem. by rewrite Ev. }
  eapply does_app; [apply (deletes_do credentials (λ t p, p <| credentials := t |>)); try done; cbn|].
  { by intros []. }
  { by rewrite Ec. }
  { apply sort_by_NoDup, NoDup_elements. }
  { intros u Hu. apply sort_by_elem, elem_of_elements, elem_of_list_to_set, list_elem_of_filter in Hu as [[Hu _] _]. by rewrite Ec. }
  match goal with |- does _ ?q0 _ =>
    refine (deletes_do inets (λ t p, p <| inets := t |>) DeleteInet _ _ _ _ (gone_inets p l) q0 _ _ _) end; try done; cbn.
  { by intros []. }
  { by rewrite Ei. }
  { apply sort_by_NoDup. eapply sublist_NoDup; [exact Hi|]. apply fmap_sublist, sublist_filter. }
  { intros u Hu. apply sort_by_elem, list_elem_of_fmap in Hu as ([k r] & -> & [_ Hin]%list_elem_of_filter). rewrite Ei. apply list_elem_of_fmap. by exists (k, r). }
Qed.

(** ** Results *)

(** A result without error, with the count that must match. *)
Definition accepted (r : value) (c : option Z) : Prop :=
  ∃ d, r = VDict d ∧ truthy (field "error" d) = false ∧ ∀ n, c = Some n → count_is (field "count" d) n = true.

Lemma check_counts_pass l counts : length l = length counts → check_counts l counts = None → Forall2 accepted l counts.
Proof.
  revert counts. induction l as [|r l IH]; intros [|c counts] Hl; try done. cbn. intros E. destruct r as [| | | | |d]; try done.
  destruct (truthy (field "error" d)) eqn:Ee; [done|]. constructor.
  - exists d. split; [done|]. split; [done|]. intros n ->. by destruct (count_is _ _).
  - apply IH; [by injection Hl|]. destruct c; [by destruct (count_is _ _)|done].
Qed.
Lemma check_results_pass v counts : check_results v counts = None → ∃ l, v = VList l ∧ Forall2 accepted l counts.
Proof.
  unfold check_results. destruct v as [| | | |l|]; try done. destruct (commit_refused _ _); [done|]. case_bool_decide as Hl; [|done]. cbn.
  intros E. exists l. split; [done|]. by apply check_counts_pass.
Qed.
