(* ===== verification/RadioPlan.v ===== *)
(** * The radio plan of a legacy pod: [src/emosa/opensync/radio_plan.py], [src/emosa/agent/radio_plan.py]

    What the plan writes into a pod's database ([changes], [transaction]), when it is applied ([configured] against
    [target]), the scope's [plan] and [submit]; and the agent's follow of a station that holds the radio. The
    passphrase of the vault, the start of the pod's OpenSync ([start_instance], a digest) and the answer of the
    database are given. *)

From stdpp Require Import sorting.
From S2P Require Import Prelude Bytes Cmdu Lifecycle Session TopologyBindings Ovsdb.

(** ** Intents *)

Record Idle := mkIdle { idle_band : string; idle_channel : Z; idle_ht_mode : string }.

Record RadioPlanIntent := mkRadioPlanIntent {
  rpi_pod_id : string;
  claimed : list string;
  band : string;
  channel : Z;
  ht_mode : string;
  neutral_ref : string;
  gtp_ssid : option string;
  idle_radios : list Idle;
  follows : bool
}.
#[export] Instance eta_RadioPlanIntent : Eta RadioPlanIntent := λ i,
  mkRadioPlanIntent (rpi_pod_id i) (claimed i) (band i) (channel i) (ht_mode i) (neutral_ref i) (gtp_ssid i) (idle_radios i) (follows i).

(** [record()] *)
Definition record (i : RadioPlanIntent) : list (string * value) :=
  [("pod_id", VStr (rpi_pod_id i)); ("claimed", VList (VStr <$> claimed i)); ("band", VStr (band i)); ("channel", VInt (channel i));
   ("ht_mode", VStr (ht_mode i)); ("neutral_ref", VStr (neutral_ref i))]
  ++ (if given (gtp_ssid i) then [("gtp_ssid", default VNone (VStr <$> gtp_ssid i))] else [])
  ++ (if bool_decide (idle_radios i = []) then [] else
        [("idle_radios", VList ((λ r, VDict [("band", VStr (idle_band r)); ("channel", VInt (idle_channel r)); ("ht_mode", VStr (idle_ht_mode r))])
                                <$> idle_radios i))])
  ++ (if follows i then [("follows", VBool true)] else []).

(** [validate()]; what it says of types holds here *)
Definition validate (i : RadioPlanIntent) : result unit :=
  _ ← raise_if (bool_decide (rpi_pod_id i = "")) INVALID_INPUT "explicit pod required";
  _ ← raise_if (bool_decide (claimed i = []) || existsb (λ n, bool_decide (n = "")) (claimed i)) INVALID_INPUT "the profile's VIF names are required";
  _ ← raise_if (from_option (λ s, negb (bool_decide (1 ≤ chars s ≤ 32))) false (gtp_ssid i)) INVALID_INPUT "the GTP's SSID is 1 to 32 characters";
  raise_if (existsb (λ r, bool_decide (idle_band r = band i)) (idle_radios i) || negb (bool_decide (NoDup (idle_band <$> idle_radios i))))
    INVALID_INPUT "an idle radio is a band, channel and ht_mode".

(** [target()] *)
Definition target : dict :=
  {["unclaimed_inet_on" := VList []; "unclaimed_exposed" := VList []; "operator_cloud" := VList []; "foreign_stations" := VList [];
    "dark_radios" := VList []; "radio_planned" := VBool true]}.

(** ** What the plan writes *)

(** [credential_key(row)] of [opensync/uplink.py] *)
Definition credential_key (r : VifConfig) : option string :=
  if bool_decide (row "encryption" (vc_security r) = Some "WPA-PSK") then row "key" (vc_security r) else None.

(** [neutral(row, key)] *)
Definition neutral (r : VifConfig) (key : string) : bool :=
  bool_decide (vc_broadcast r = Some "disabled") && bool_decide (vc_bridge r = None ∨ vc_bridge r = Some "")
  && bool_decide (credential_key r = Some key).

(** [kept_station(row, intent, credentials)] *)
Definition kept_station (r : VifConfig) (i : RadioPlanIntent) (creds : table (option string)) : bool :=
  match gtp_ssid i with
  | None => true
  | Some s => bool_decide (vc_ssid r = Some s) || existsb (λ c, bool_decide (row c creds = Some (Some s))) (vc_credentials r)
  end.

(** A name and a UUID in the order of [sorted]. *)
Definition name_key (nu : string * string) : string := nu.1 +:+ String (Ascii.ascii_of_N 0) nu.2.
Definition by_name (l : list (string * string)) : list (string * string) := sort_by name_key l.

Record Changes := mkChanges {
  exposed : list (string * string);
  inets_on : list (string * string);
  radio : option (string * RadioConfig);
  cloud_left : option (string → list (string * string));
  stats : list (string * StatsConfig);
  stations : option (list string);
  dark : list (string * RadioConfig * Idle)
}.

Section Changes.
Context (p : Pod) (i : RadioPlanIntent) (key : string).

(** [aps]: (name, UUID) of the APs the profile does not name *)
Definition aps : list (string * string) :=
  by_name ((λ kv, (vc_if_name kv.2, kv.1)) <$> filter (λ kv, vc_mode kv.2 = Some "ap" ∧ vc_if_name kv.2 ∉ claimed i) (vif_configs p)).
Definition inet_rows : list (string * string) :=
  by_name ((λ kv, (in_if_name kv.2, kv.1)) <$> filter (λ kv, in_if_name kv.2 ∈ aps.*1 ∧ in_enabled kv.2 = true) (inets p)).
Definition exposed_aps : list (string * string) :=
  filter (λ nu, from_option (λ r, negb (neutral r key)) false (row nu.2 (vif_configs p)) = true) aps.

(** The radio of the band, when there is exactly one. *)
Definition plan_radio : option (string * RadioConfig) :=
  match filter (λ kv, rc_band kv.2 = band i) (radio_configs p) with [r] => Some r | _ => None end.
Definition wired : bool :=
  match filter (λ kv, up_is_used kv.2 = Some true) (uplinks p) with [u] => bool_decide (up_if_type u.2 = "eth") | _ => false end.
Definition on_plan : bool :=
  match plan_radio with Some r => bool_decide (rc_channel r.2 = Some (channel i)) && bool_decide (rc_ht_mode r.2 = Some (ht_mode i)) | None => false end.
Definition radio_state : option RadioState := snd <$> head (filter (λ kv, rs_band kv.2 = band i) (radio_states p)).
Definition held : bool :=
  match radio_state with
  | Some r => bool_decide (is_Some (rs_channel r))
      && existsb (λ u, from_option (λ v, bool_decide (vs_mode v = Some "sta") && bool_decide (vs_enabled v = Some true) && given (vs_parent v)) false
                         (row u (vif_states p))) (rs_vifs r)
  | None => false
  end.

(** Of a wired pod: (name, UUID) of the stations that are not the GTP's *)
Definition is_foreign (r : VifConfig) : bool :=
  wired && bool_decide (vc_mode r = Some "sta") && negb (kept_station r i (credentials p)).
Definition foreign : list (string * string) :=
  by_name ((λ kv, (vc_if_name kv.2, kv.1)) <$> filter (λ kv, is_foreign kv.2 = true) (vif_configs p)).

Definition node_cloud (c : string) : list (string * string) := from_option (λ n, cloud n.2 c) [] (head (nodes p)).
Definition cloud_set : bool := existsb (λ c, negb (bool_decide (node_cloud c = []))) CLOUD.
Definition stats_rows : list (string * StatsConfig) := sort_by fst (stats_configs p).

(** [idle]: of radios of the same band the last stands *)
Definition idle_of (b : string) : option Idle := list.last (filter (λ r, idle_band r = b) (idle_radios i)).
(** [shown.get(if_name)]: of states of the same name the last stands *)
Definition shown (n : option string) : bool :=
  from_option (λ r, bool_decide (rs_enabled r = Some true) && bool_decide (is_Some (rs_channel r))) false
    (list.last (filter (λ r, rs_if_name r = n) (radio_states p).*2)).
Definition carries_ap (r : RadioConfig) : bool :=
  existsb (λ v, from_option (λ c, bool_decide (vc_mode c = Some "ap") && bool_decide (vc_enabled c = Some true)) false (row v (vif_configs p))) (rc_vifs r).
Definition is_dark (r : RadioConfig) : option Idle :=
  match idle_of (rc_band r) with
  | Some d => if negb (shown (rc_if_name r)) && carries_ap r then Some d else None
  | None => None
  end.
Definition dark_rows : list (string * RadioConfig * Idle) :=
  sort_by (λ x, name_key (default "" (rc_if_name x.1.2), x.1.1)) (omap (λ kv, (λ d, (kv, d)) <$> is_dark kv.2) (radio_configs p)).

Definition swap (l : list (string * string)) : list (string * string) := (λ nu, (nu.2, nu.1)) <$> l.

(** [_changes(decoded, intent)]: what is written *)
Definition changes : Changes :=
  let r := if (follows i || (wired && negb held)) && negb on_plan then plan_radio else None in
  if follows i then mkChanges [] [] r None [] None []
  else mkChanges (swap exposed_aps) (swap inet_rows) r (if cloud_set then Some node_cloud else None) stats_rows
         (if bool_decide (foreign = []) then None else Some foreign.*2) dark_rows.

Definition no_changes (c : Changes) : bool :=
  bool_decide (exposed c = []) && bool_decide (inets_on c = []) && negb (bool_decide (is_Some (radio c)))
  && negb (bool_decide (is_Some (cloud_left c))) && bool_decide (stats c = []) && negb (bool_decide (is_Some (stations c))) && bool_decide (dark c = []).

Definition names (l : list string) : value := VList (VStr <$> sort_by id (elements (list_to_set l : gset string))).

(** The configured view. *)
Definition configured : dict :=
  let enabled_configs := (filter (λ nu, from_option (λ r, bool_decide (vc_enabled r = Some true)) false (row nu.2 (vif_configs p)) = true) aps).*1 in
  let enabled_states := vs_if_name <$> filter (λ r, vs_if_name r ∈ aps.*1 ∧ vs_enabled r = Some true) (vif_states p).*2 in
  list_to_map
    [("unclaimed", names aps.*1);
     ("unclaimed_enabled", names (enabled_configs ++ enabled_states));
     ("unclaimed_inet_on", VList (VStr <$> sort_by id inet_rows.*1));
     ("unclaimed_exposed", VList (VStr <$> sort_by id exposed_aps.*1));
     ("operator_cloud", VList (VStr <$> (filter (λ c, node_cloud c ≠ []) CLOUD ++ (if bool_decide (stats_rows = []) then [] else ["Wifi_Stats_Config"]))));
     ("foreign_stations", names foreign.*1);
     ("dark_radios", VList ((λ x, VStr (default "" (rc_if_name x.1.2))) <$> dark_rows));
     ("channel", default VNone (VInt <$> (plan_radio ≫= λ r, rc_channel r.2)));
     ("ht_mode", default VNone (VStr <$> (plan_radio ≫= λ r, rc_ht_mode r.2)));
     ("wired", VBool wired);
     ("station_channel", if held then default VNone (VInt <$> (radio_state ≫= rs_channel)) else VNone);
     ("station_ht_mode", if held then default VNone (VStr <$> (radio_state ≫= rs_ht_mode)) else VNone);
     ("follows", VBool (follows i));
     ("radio_planned", VBool (if follows i then on_plan else negb wired || on_plan || held));
     ("pending", VBool (negb (no_changes changes)))].
End Changes.

(** ** The guarded write *)

(** [transaction(intent, decoded, node_uuid)]: the operations with the counts they must match; [None] when nothing is written *)
Definition transaction (p : Pod) (i : RadioPlanIntent) (key serial node_uuid : string) : option (list (operation * option Z)) :=
  let c := changes p i key in
  if no_changes c then None
  else Some (
    [(WaitSerial node_uuid serial, None)]
    ++ (exposed c ≫= λ un, [(WaitAp un.1 un.2, None); (Neutralize un.1 key, Some 1)])
    ++ (inets_on c ≫= λ un, [(WaitInet un.1 un.2, None); (InetOff un.1, Some 1)])
    ++ match radio c with
       | Some (u, r) => [(WaitRadio u r, None); (SetRadio u (channel i) (ht_mode i), Some 1)]
       | None => []
       end
    ++ (dark c ≫= λ urd, [(WaitDark urd.1.1 urd.1.2, None); (RadioOn urd.1.1 (idle_channel urd.2) (idle_ht_mode urd.2), Some 1)])
    ++ match cloud_left c with
       | Some w => [(WaitCloud node_uuid w, None); (ClearCloud node_uuid, Some 1)]
       | None => []
       end
    ++ (stats c ≫= λ ur, [(WaitStats ur.1 ur.2, None); (DeleteStats ur.1, Some 1)])
    ++ match stations c with
       | Some l => deletion p l
       | None => []
       end).

(** ** The scope: [RadioPlanBackend] *)

(** Its intents are intents of the engine. *)
#[export] Instance RadioPlan_type : IntentType RadioPlanIntent :=
  {| i_pod_id := rpi_pod_id; i_validate := validate; i_target := λ _ i, _ ← validate i; Ok target; i_record := record |}.

(** The answer to a transaction: the connection or the time is lost, the session refuses it, or there are results. *)
Inductive Answer := Lost | Refused (f : failure) | Results (v : value).

(** What a session shows of the pod's database. *)
Record Raw := mkRaw { raw_pod : Pod; raw_ready : bool; raw_generation : Z; raw_revision : Z; raw_fingerprint : string }.

Definition MODE : string := "opensync-2.0-radio-plan".
Definition PROVENANCE : string := "opensync-wm:Wifi_VIF_State+Wifi_Radio_Config".

(** [start_instance(decoded)] of [opensync/uplink.py], and [vault.generated(intent.neutral_ref)], as the calls find them. *)
Class Outside := { start_instance : Pod → result string; neutral_key : string → result string }.

Record RadioPlanBackend := mkRadioPlanBackend {
  b_pod_id : string; expected_serial : string; b_intent : RadioPlanIntent; b_instance : option string; b_last : option Snapshot; write_count : Z }.
#[export] Instance eta_RadioPlanBackend : Eta RadioPlanBackend := λ b,
  mkRadioPlanBackend (b_pod_id b) (expected_serial b) (b_intent b) (b_instance b) (b_last b) (write_count b).

Section Backend.
Context `{Outside}.

(** [_binding(raw)]: the UUID of the pod's node; the start it is on is kept *)
Definition binding (raw : Raw) : M RadioPlanBackend string :=
  b ← get;
  match nodes (raw_pod raw) with
  | [(u, n)] =>
      if bool_decide (serial_number n = Some (expected_serial b)) then
        s ← lift (start_instance (raw_pod raw));
        _ ← modify (λ b, b <| b_instance := Some s |>);
        mret u
      else raise NOT_READY "pod identity absent or not the bound serial"
  | _ => raise NOT_READY "pod identity absent or not the bound serial"
  end.

(** [snapshot()]; [raw] is what the session shows, or its failure, all of which are caught *)
Definition b_snapshot (raw : result Raw) (utc : Z) : M RadioPlanBackend Snapshot :=
  try_else
    (raw ← lift raw;
     _ ← binding raw;
     b ← get;
     key ← lift (neutral_key (neutral_ref (b_intent b)));
     let view := configured (raw_pod raw) (b_intent b) key in
     let s := mkSnapshot view (mkObservation view "ovsdb" utc (raw_ready raw) PROVENANCE (raw_revision raw)) (raw_ready raw) (raw_generation raw)
                (raw_fingerprint raw) None in
     _ ← modify (λ b, b <| b_last := Some s |>);
     mret s)
    mret
    (λ e, b ← get;
          match b_last b with
          | None => lift (Raise e)
          | Some s =>
              let s := mkSnapshot (config s) (mkObservation (values (observed s)) (o_source (observed s)) (received_at (observed s)) false
                         (provenance (observed s)) (revision (observed s))) false (generation s) (s_schema_fingerprint s) (instance s) in
              _ ← modify (λ b, b <| b_last := Some s |>);
              mret s
          end).

(** [plan(intent)]: what is refused; the plan's description *)
Definition b_plan (i : RadioPlanIntent) (raw : result Raw) : M RadioPlanBackend dict :=
  _ ← lift (validate i);
  b ← get;
  _ ← lift (raise_if (negb (bool_decide (rpi_pod_id i = b_pod_id b))) UNSUPPORTED_OPERATION "request exceeds the bound pod");
  raw ← lift raw;
  _ ← binding raw;
  _ ← lift (raise_if (negb (raw_ready raw)) NOT_READY "the pod's database is not ready");
  key ← lift (neutral_key (neutral_ref i));
  let c := changes (raw_pod raw) i key in
  let view := configured (raw_pod raw) i key in
  b ← get;
  mret (list_to_map
    [("mapping", VStr MODE); ("action", VStr "radio-plan"); ("neutralize", VList (VStr <$> (exposed c).*2)); ("inet_off", VList (VStr <$> (inets_on c).*2));
     ("channel", match radio c with None => VNone | Some _ => VInt (channel i) end); ("cloud_cleared", default VNone (view !! "operator_cloud"));
     ("stations_removed", default VNone (view !! "foreign_stations")); ("radios_on", default VNone (view !! "dark_radios"));
     ("instance", default VNone (VStr <$> b_instance b));
     ("fields", VList (VStr <$> (["Wifi_VIF_Config.security"; "Wifi_VIF_Config.ssid_broadcast"; "Wifi_VIF_Config.bridge"; "Wifi_Inet_Config.enabled";
        "Wifi_Radio_Config.channel"; "Wifi_Radio_Config.ht_mode"; "Wifi_Radio_Config.enabled"] ++ ((λ c, "AWLAN_Node." +:+ c) <$> CLOUD)
        ++ ["Wifi_Stats_Config"; "Wifi_VIF_Config (stations)"; "Wifi_Credential_Config"; "Wifi_Inet_Config (stations)"])));
     ("guard", VStr "pod serial and each changed row as it is")]).

(** [submit(intent, attempt)]: [raw1] is shown to its [plan], [raw2] to itself; [answer] is given the operations *)
Definition b_submit (i : RadioPlanIntent) (gen : Z) (tid : string) (raw1 raw2 : result Raw) (answer : list value → Answer) :
    M RadioPlanBackend SubmitResult :=
  _ ← b_plan i raw1;
  raw ← lift raw2;
  node ← binding raw;
  if negb (bool_decide (raw_generation raw = gen)) then mret (mkSubmitResult "rejected" ∅ (Some (reason_value NOT_READY)))
  else
    key ← lift (neutral_key (neutral_ref i));
    b ← get;
    match transaction (raw_pod raw) i key (expected_serial b) node with
    | None => mret (mkSubmitResult "rejected" ∅ (Some (reason_value NOT_READY)))
    | Some ops =>
        _ ← modify (λ b, b <| write_count := write_count b + 1 |>);
        match answer (on_wire <$> ops.*1) with
        | Lost => mret (mkSubmitResult "unknown" {["attribution" := VStr "unknown"]} (Some (reason_value OUTCOME_UNKNOWN)))
        | Refused f => mret (failed_check f)
        | Results results =>
            match check_results results ops.*2 with
            | Some f => mret (failed_check f)
            | None =>
                b ← get;
                mret (mkSubmitResult "committed"
                  (list_to_map [("attribution", VStr "reply"); ("transaction_validated", VBool true); ("transaction_id", VStr tid);
                     ("session_generation", VInt (raw_generation raw)); ("action", VStr "radio-plan");
                     ("instance", default VNone (VStr <$> b_instance b)); ("results", results)]) None)
            end
        end
    end.
End Backend.

(** ** The agent's follow: [RadioPlan._follow] of [agent/radio_plan.py] *)

Definition FOLLOW_HOLD : Z := seconds 20.

Record Follow := mkFollow {
  base : RadioPlanIntent;
  followed : option (Z * string);           (* self.follow *)
  wanted : option (Z * string);
  followed_at : option Z;
  follow_start : option string;
  follow_count : Z;
  intent : RadioPlanIntent
}.
#[export] Instance eta_Follow : Eta Follow := λ f,
  mkFollow (base f) (followed f) (wanted f) (followed_at f) (follow_start f) (follow_count f) (intent f).

(** What [_follow] reads of the configured view. *)
Record View := mkView { station_channel : option Z; station_ht_mode : option string; v_channel : option Z; v_ht_mode : option string }.

(** [_follow(config)] *)
Definition follow (start : option string) (now : Z) (v : View) (f : Follow) : Follow :=
  let f := if bool_decide (start ≠ follow_start f)
           then f <| followed := None |> <| wanted := None |> <| followed_at := None |> <| follow_start := start |> else f in
  let f := match station_channel v with
           | None => f
           | Some st =>
               let width := if given (station_ht_mode v) then default "" (station_ht_mode v)
                            else if given (v_ht_mode v) then default "" (v_ht_mode v) else ht_mode (base f) in
               f <| wanted := if bool_decide (Some st ≠ v_channel v) then Some (st, width) else None |>
           end in
  let free := from_option (λ at_, bool_decide (FOLLOW_HOLD ≤ now - at_)) true (followed_at f) in
  let f := match wanted f with
           | Some w => if bool_decide (Some w ≠ followed f) && free
                       then f <| followed := Some w |> <| followed_at := Some now |> <| wanted := None |> <| follow_count := follow_count f + 1 |>
                       else f
           | None => f
           end in
  f <| intent := match followed f with
                 | Some (ch, ht) => base f <| channel := ch |> <| ht_mode := ht |> <| follows := true |>
                 | None => base f
                 end |>.

(** * Theory *)

Lemma by_name_elem l x : x ∈ by_name l ↔ x ∈ l.
Proof. apply sort_by_elem. Qed.
Lemma by_name_perm l : by_name l ≡ₚ l.
Proof. apply merge_sort_Permutation. Qed.

Section Lists.
Context (p : Pod) (i : RadioPlanIntent) (key : string).
Hypothesis Hok : pod_ok p.

(** The rows the lists of the plan name. *)
Lemma aps_elem n u : (n, u) ∈ aps p i ↔ ∃ r, (u, r) ∈ vif_configs p ∧ vc_if_name r = n ∧ vc_mode r = Some "ap" ∧ n ∉ claimed i.
Proof.
  unfold aps. rewrite by_name_elem, list_elem_of_fmap. split.
  - intros ([k r] & [= -> ->] & [[Hm Hc] Hin]%list_elem_of_filter). by exists r.
  - intros (r & Hin & <- & Hm & Hc). exists (u, r). split; [done|]. by apply list_elem_of_filter.
Qed.
Lemma ap_names n : n ∈ (aps p i).*1 ↔ ∃ u r, (u, r) ∈ vif_configs p ∧ vc_if_name r = n ∧ vc_mode r = Some "ap" ∧ n ∉ claimed i.
Proof.
  rewrite list_elem_of_fmap. split.
  - intros ([n' u] & -> & (r & ?)%aps_elem). by exists u, r.
  - intros (u & r & Hr). exists (n, u). split; [done|]. apply aps_elem. by exists r.
Qed.
Lemma aps_uuids : NoDup (aps p i).*2.
Proof.
  unfold aps. rewrite by_name_perm, <- list_fmap_compose. eapply sublist_NoDup; [apply Hok|]. apply fmap_sublist, sublist_filter.
Qed.

Lemma exposed_elem u n : (u, n) ∈ swap (exposed_aps p i key) ↔
  ∃ r, row u (vif_configs p) = Some r ∧ vc_if_name r = n ∧ vc_mode r = Some "ap" ∧ (n ∉ claimed i) ∧ neutral r key = false.
Proof.
  unfold swap, exposed_aps. rewrite list_elem_of_fmap. split.
  - intros ([n' u'] & [= -> ->] & [Hn (r & Hin & ? & ? & ?)%aps_elem]%list_elem_of_filter). cbn in Hn.
    apply elem_row in Hin; [|apply Hok]. exists r. rewrite Hin in Hn. cbn in Hn. apply negb_true_iff in Hn. done.
  - intros (r & Hr & ? & ? & ? & Hn). exists (n, u). split; [done|]. apply list_elem_of_filter. cbn. rewrite Hr. cbn. rewrite Hn. split; [done|].
    apply aps_elem. exists r. split; [by apply row_elem|done].
Qed.
Lemma exposed_uuids : NoDup (swap (exposed_aps p i key)).*1.
Proof.
  unfold swap. rewrite <- list_fmap_compose. eapply sublist_NoDup; [apply aps_uuids|]. apply fmap_sublist, sublist_filter.
Qed.

Lemma inets_elem u n : (u, n) ∈ swap (inet_rows p i) ↔
  ∃ r, row u (inets p) = Some r ∧ in_if_name r = n ∧ in_enabled r = true ∧ n ∈ (aps p i).*1.
Proof.
  unfold swap, inet_rows. rewrite list_elem_of_fmap. split.
  - intros ([n' u'] & [= -> ->] & Hin). apply by_name_elem, list_elem_of_fmap in Hin as ([k r] & [= -> ->] & [[Ha He] Hin]%list_elem_of_filter).
    exists r. split; [apply elem_row; [apply Hok|done]|done].
  - intros (r & Hr%row_elem & <- & He & Ha). exists (in_if_name r, u). split; [done|]. apply by_name_elem, list_elem_of_fmap. exists (u, r). split; [done|].
    by apply list_elem_of_filter.
Qed.
Lemma inets_uuids : NoDup (swap (inet_rows p i)).*1.
Proof.
  unfold swap, inet_rows. rewrite <- list_fmap_compose, by_name_perm, <- list_fmap_compose.
  eapply sublist_NoDup; [apply (ok_inets _ Hok)|]. apply fmap_sublist, sublist_filter.
Qed.

Lemma foreign_elem u : u ∈ (foreign p i).*2 ↔ ∃ r, (u, r) ∈ vif_configs p ∧ is_foreign p i r = true.
Proof.
  unfold foreign. rewrite list_elem_of_fmap. split.
  - intros ([n u'] & -> & Hin). apply by_name_elem, list_elem_of_fmap in Hin as ([k r] & [= -> ->] & [Hf Hin]%list_elem_of_filter). by exists r.
  - intros (r & Hin & Hf). exists (vc_if_name r, u). split; [done|]. apply by_name_elem, list_elem_of_fmap. exists (u, r). split; [done|].
    by apply list_elem_of_filter.
Qed.

Lemma dark_elem u r d : (u, r, d) ∈ dark_rows p i ↔ (u, r) ∈ radio_configs p ∧ is_dark p i r = Some d.
Proof.
  unfold dark_rows. rewrite sort_by_elem, list_elem_of_omap. split.
  - intros ([k x] & Hin & (d' & Hd & [= -> -> ->])%fmap_Some). done.
  - intros [Hin Hd]. exists (u, r). split; [done|]. cbn. by rewrite Hd.
Qed.
Lemma omap_sublist {X Y} (f : X → option Y) (t : list (string * X)) : (omap (λ kv, (λ d, (kv, d)) <$> f kv.2) t).*1 `sublist_of` t.
Proof. induction t as [|[u r] t IH]; cbn; [done|]. destruct (f r); cbn; [by apply sublist_skip|by apply sublist_cons]. Qed.
Lemma dark_uuids : NoDup (dark_rows p i).*1.*1.
Proof.
  unfold dark_rows, sort_by. rewrite merge_sort_Permutation. eapply sublist_NoDup; [apply (ok_radios _ Hok)|]. apply fmap_sublist, omap_sublist.
Qed.
End Lists.

(** ** The write, part by part *)

Definition neutralized (key : string) (r : VifConfig) : VifConfig :=
  r <| vc_security := [("encryption", "WPA-PSK"); ("key", key)] |> <| vc_broadcast := Some "disabled" |> <| vc_bridge := Some "" |>.

(** What each part does to a row. *)
Definition on_vif (key : string) (l : list (string * string)) : string → VifConfig → VifConfig := written fst (λ _, neutralized key) l.
Definition on_inet (l : list (string * string)) : string → Inet → Inet := written fst (λ _ r, r <| in_enabled := false |>) l.
Definition on_radio (i : RadioPlanIntent) (l : list (string * RadioConfig)) : string → RadioConfig → RadioConfig :=
  written fst (λ _ r, r <| rc_channel := Some (channel i) |> <| rc_ht_mode := Some (ht_mode i) |>) l.
Definition on_dark (l : list (string * RadioConfig * Idle)) : string → RadioConfig → RadioConfig :=
  written (λ x, x.1.1) (λ x r, r <| rc_enabled := Some true |> <| rc_channel := Some (idle_channel x.2) |> <| rc_ht_mode := Some (idle_ht_mode x.2) |>) l.
Definition on_node (w : option (string → list (string * string))) (n : Node) : Node := match w with Some _ => n <| cloud := λ _, [] |> | None => n end.

(** The pod after the write. *)
Definition after (p : Pod) (i : RadioPlanIntent) (key : string) : Pod :=
  let c := changes p i key in
  deleted p (default [] (stations c))
    (p <| vif_configs := rowwise (on_vif key (exposed c)) (vif_configs p) |>
       <| inets := rowwise (on_inet (inets_on c)) (inets p) |>
       <| radio_configs := rowwise (on_dark (dark c)) (rowwise (on_radio i (option_list (radio c))) (radio_configs p)) |>
       <| nodes := (λ kn, (kn.1, on_node (cloud_left c) kn.2)) <$> nodes p |>
       <| stats_configs := without_all (stats c).*1 (stats_configs p) |>).

Lemma stats_do l p :
  NoDup (stats_configs p).*1 → NoDup l.*1 → (∀ ur, ur ∈ l → row ur.1 (stats_configs p) = Some ur.2) →
  does (l ≫= λ ur, [(WaitStats ur.1 ur.2, None); (DeleteStats ur.1, Some 1)]) p (p <| stats_configs := without_all l.*1 (stats_configs p) |>).
Proof.
  revert p. induction l as [|[u r] l IH]; intros p Hd Hl Hin; cbn [mbind list_bind fmap list_fmap app].
  { rewrite without_all_nil. destruct p. apply does_nil. }
  apply NoDup_cons in Hl as [Hu Hl]. pose proof (Hin (u, r) ltac:(by left)) as Hr. cbn in Hr.
  eapply does_cons; [cbn; unfold is_row; rewrite Hr; cbn; by rewrite !bool_decide_eq_true_2|].
  assert (Hk : u ∈ (stats_configs p).*1) by (apply row_elem in Hr; apply list_elem_of_fmap; by exists (u, r)).
  eapply does_cons; [cbn; by rewrite (matched_one _ _ Hd Hk)|].
  set (p1 := p <| stats_configs := without u (stats_configs p) |>).
  assert (E1 : stats_configs p1 = without_all [u] (stats_configs p)) by apply without_keys.
  assert (Hp : does (l ≫= λ ur, [(WaitStats ur.1 ur.2, None); (DeleteStats ur.1, Some 1)]) p1 (p1 <| stats_configs := without_all l.*1 (stats_configs p1) |>)).
  { apply IH; [rewrite E1; by apply without_all_NoDup|done|]. intros ur Hur. rewrite E1, row_without; [apply Hin; by right|].
    intros Hx%list_elem_of_singleton. apply Hu, list_elem_of_fmap. by exists ur. }
  assert (Heq : p1 <| stats_configs := without_all l.*1 (stats_configs p1) |> = p <| stats_configs := without_all ((u, r) :: l).*1 (stats_configs p) |>).
  { change (p <| stats_configs := without_all l.*1 (without u (stats_configs p)) |> = p <| stats_configs := without_all ((u, r) :: l).*1 (stats_configs p) |>).
    by rewrite without_all_cons. }
  rewrite Heq in Hp. exact Hp.
Qed.

Section Applies.
Context (p : Pod) (i : RadioPlanIntent) (key serial nu : string) (n : Node).
Hypotheses (Hok : pod_ok p) (Hval : validate i = Ok tt) (Hnodes : nodes p = [(nu, n)]) (Hserial : serial_number n = Some serial).

Lemma idle_not_band r d : is_dark p i r = Some d → rc_band r ≠ band i.
Proof.
  unfold is_dark, idle_of. destruct (list.last (filter _ _)) as [d'|] eqn:El; [|done]. intros _.
  apply last_Some_elem_of, list_elem_of_filter in El as [Hb Hin]. unfold validate in Hval.
  repeat (apply result_bind_Ok in Hval as (? & ? & Hval)). intros Hr. apply raise_if_Ok, orb_false_iff in Hval as [Ee _].
  rewrite <- not_true_iff_false, existsb_exists in Ee. apply Ee. exists d'.
  split; [by apply list_elem_of_In|]. rewrite Hb. by apply bool_decide_eq_true_2.
Qed.

Lemma radio_row u r : radio (changes p i key) = Some (u, r) → plan_radio p i = Some (u, r) ∧ (u, r) ∈ radio_configs p ∧ rc_band r = band i.
Proof.
  unfold changes. cbv zeta. intros Hr. assert (Hp : plan_radio p i = Some (u, r)) by (destruct (follows i); cbn in Hr; by case_match).
  split; [done|]. unfold plan_radio in Hp. destruct (filter _ _) as [|x [|]] eqn:Ef; try done. injection Hp as ->.
  assert (Hin : (u, r) ∈ filter (λ kv : string * RadioConfig, rc_band kv.2 = band i) (radio_configs p)) by (rewrite Ef; by left).
  apply list_elem_of_filter in Hin as [? ?]. done.
Qed.

(** What is written is there. *)
Lemma exposed_there un : un ∈ exposed (changes p i key) → ∃ r, row un.1 (vif_configs p) = Some r ∧ vc_if_name r = un.2 ∧ vc_mode r = Some "ap" ∧ un.2 ∉ claimed i.
Proof.
  unfold changes. cbv zeta. destruct (follows i); cbn; [by intros ?%elem_of_nil|]. destruct un as [u m]. intros (r & ? & ? & ? & ? & _)%exposed_elem; [|done]. by exists r.
Qed.
Lemma inets_there un : un ∈ inets_on (changes p i key) → ∃ r, row un.1 (inets p) = Some r ∧ in_if_name r = un.2 ∧ in_enabled r = true.
Proof.
  unfold changes. cbv zeta. destruct (follows i); cbn; [by intros ?%elem_of_nil|]. destruct un as [u m]. intros (r & ? & ? & ? & _)%inets_elem; [|done]. by exists r.
Qed.
Lemma dark_there x : x ∈ dark (changes p i key) → (x.1 ∈ radio_configs p) ∧ rc_band x.1.2 ≠ band i.
Proof.
  unfold changes. cbv zeta. destruct (follows i); cbn; [by intros ?%elem_of_nil|]. destruct x as [[u r] d]. intros [? ?]%dark_elem. split; [done|].
  by eapply idle_not_band.
Qed.
Lemma stations_there u : u ∈ default [] (stations (changes p i key)) → ∃ r, row u (vif_configs p) = Some r ∧ is_foreign p i r = true.
Proof.
  unfold changes. cbv zeta. destruct (follows i); cbn; [by intros ?%elem_of_nil|]. case_bool_decide; cbn; [by intros ?%elem_of_nil|].
  intros (r & Hin & Hf)%foreign_elem. exists r. split; [|done]. apply elem_row; [apply Hok|done].
Qed.

Lemma lists_NoDup :
  NoDup (exposed (changes p i key)).*1 ∧ NoDup (inets_on (changes p i key)).*1 ∧ NoDup (dark (changes p i key)).*1.*1 ∧ NoDup (stats (changes p i key)).*1.
Proof.
  unfold changes. cbv zeta. destruct (follows i); cbn; [repeat split; constructor|].
  split; [by apply exposed_uuids|]. split; [by apply inets_uuids|]. split; [by apply dark_uuids|].
  unfold stats_rows, sort_by. rewrite merge_sort_Permutation. apply Hok.
Qed.
Lemma stats_there ur : ur ∈ stats (changes p i key) → row ur.1 (stats_configs p) = Some ur.2.
Proof.
  unfold changes. cbv zeta. destruct (follows i); cbn; [by intros ?%elem_of_nil|]. intros Hin%sort_by_elem. destruct ur. apply elem_row; [apply Hok|done].
Qed.

(** The stations' rows are not among those made neutral. *)
Lemma station_kept u r : u ∈ default [] (stations (changes p i key)) → row u (vif_configs p) = Some r →
  vc_mode r = Some "sta" ∧ on_vif key (exposed (changes p i key)) u r = r.
Proof.
  intros (r' & Hr' & Hf)%stations_there Hr. assert (r' = r) as -> by congruence.
  assert (Hm : vc_mode r = Some "sta").
  { unfold is_foreign in Hf. apply andb_true_iff in Hf as [[_ Hf]%andb_true_iff _]. by apply bool_decide_eq_true_1 in Hf. }
  split; [done|]. apply written_other. intros ([u' m] & -> & (r0 & Hr0 & _ & Ha & _)%exposed_there)%list_elem_of_fmap. cbn in *. congruence.
Qed.

Lemma deletion_nil q : deletion p [] = [] ∧ deleted p [] q = q.
Proof.
  assert (Hg : gone p [] = []) by (unfold gone; cbn; by rewrite elements_empty).
  assert (Hs : ∀ A (k : A → string), sort_by k [] = []) by done.
  assert (Hr : gone_references p [] = []).
  { unfold gone_references. rewrite Hg. assert ((radio_configs p ≫= λ kv, (λ v, (kv.1, v)) <$> filter (λ v, v ∈ []) (rc_vifs kv.2)) = []) as ->; [|apply Hs].
    induction (radio_configs p) as [|[u r] t IH]; [done|]. cbn. rewrite IH, app_nil_r. induction (rc_vifs r) as [|v vs IHv]; [done|].
    rewrite filter_cons_False by set_solver. exact IHv. }
  assert (Hgr : gone_rows p [] = []) by (unfold gone_rows; by rewrite Hg).
  assert (Hc : gone_credentials p [] = []) by (unfold gone_credentials; rewrite Hgr; cbn; by rewrite elements_empty).
  assert (Hi : gone_inets p [] = []).
  { unfold gone_inets. rewrite Hgr. assert (filter (λ kv : string * Inet, in_if_name kv.2 ∈ vc_if_name <$> [] ∧ in_if_name kv.2 ∉ kept_names p []) (inets p) = []) as ->; [|apply Hs].
    induction (inets p) as [|kv t IH]; [done|]. rewrite filter_cons_False by (cbn; set_solver). exact IH. }
  unfold deletion, deleted. rewrite Hg, Hr, Hc, Hi, Hs, !without_all_nil. cbn. split; [done|]. unfold drops. cbn.
  rewrite rowwise_id. by destruct q.
Qed.

Lemma deletion_part q :
  (∀ u r, u ∈ default [] (stations (changes p i key)) → row u (vif_configs p) = Some r → row u (vif_configs q) = Some r) →
  (vif_configs q).*1 = (vif_configs p).*1 → (radio_configs q).*1 = (radio_configs p).*1 → (inets q).*1 = (inets p).*1 →
  (credentials q).*1 = (credentials p).*1 →
  does match stations (changes p i key) with Some l => deletion p l | None => [] end q (deleted p (default [] (stations (changes p i key))) q).
Proof.
  intros Hrow Ev Er Ei Ec. pose proof station_kept as Hs. destruct (stations (changes p i key)) as [l|]; cbn in *.
  - apply deletion_does; try done. intros u r Hu Hr. destruct (Hs u r Hu Hr). split; [done|]. by apply Hrow.
  - destruct (deletion_nil q) as [_ ->]. apply does_nil.
Qed.

Abbreviation c := (changes p i key).

Lemma vif_part q : vif_configs q = vif_configs p →
  does (exposed c ≫= λ un, [(WaitAp un.1 un.2, None); (Neutralize un.1 key, Some 1)]) q (q <| vif_configs := rowwise (on_vif key (exposed c)) (vif_configs q) |>).
Proof.
  intros E. refine (guarded_does vif_configs (λ t p, p <| vif_configs := t |>) fst (λ un, WaitAp un.1 un.2) (λ un, Neutralize un.1 key)
    (λ un r, bool_decide (vc_if_name r = un.2) && bool_decide (vc_mode r = Some "ap")) (λ _, neutralized key) _ _ _ _ _ (exposed c) q _ _ _); try done.
  - by intros [].
  - rewrite E. apply Hok.
  - apply lists_NoDup.
  - intros un (r & Hr & <- & Hm & _)%exposed_there. exists r. rewrite E, Hm. split; [done|]. by rewrite !bool_decide_eq_true_2.
Qed.

Lemma inet_part q : inets q = inets p →
  does (inets_on c ≫= λ un, [(WaitInet un.1 un.2, None); (InetOff un.1, Some 1)]) q (q <| inets := rowwise (on_inet (inets_on c)) (inets q) |>).
Proof.
  intros E. refine (guarded_does inets (λ t p, p <| inets := t |>) fst (λ un, WaitInet un.1 un.2) (λ un, InetOff un.1)
    (λ un r, bool_decide (in_if_name r = un.2) && in_enabled r) (λ _ r, r <| in_enabled := false |>) _ _ _ _ _ (inets_on c) q _ _ _); try done.
  - by intros [].
  - rewrite E. apply Hok.
  - apply lists_NoDup.
  - intros un (r & Hr & <- & He)%inets_there. exists r. rewrite E, He. split; [done|]. by rewrite bool_decide_eq_true_2.
Qed.

Lemma radio_part q : radio_configs q = radio_configs p →
  does match radio c with Some (u, r) => [(WaitRadio u r, None); (SetRadio u (channel i) (ht_mode i), Some 1)] | None => [] end q
    (q <| radio_configs := rowwise (on_radio i (option_list (radio c))) (radio_configs q) |>).
Proof.
  intros E. assert (match radio c with Some (u, r) => [(WaitRadio u r, None); (SetRadio u (channel i) (ht_mode i), Some 1)] | None => [] end
    = guarded (λ ur, WaitRadio ur.1 ur.2) (λ ur, SetRadio ur.1 (channel i) (ht_mode i)) (option_list (radio c))) as -> by (by destruct (radio c) as [[u r]|]).
  refine (guarded_does radio_configs (λ t p, p <| radio_configs := t |>) fst (λ ur, WaitRadio ur.1 ur.2) (λ ur, SetRadio ur.1 (channel i) (ht_mode i))
    (λ ur r, bool_decide (rc_if_name r = rc_if_name ur.2) && bool_decide (rc_channel r = rc_channel ur.2) && bool_decide (rc_ht_mode r = rc_ht_mode ur.2))
    (λ _ r, r <| rc_channel := Some (channel i) |> <| rc_ht_mode := Some (ht_mode i) |>) _ _ _ _ _ (option_list (radio c)) q _ _ _); try done.
  - by intros [].
  - rewrite E. apply Hok.
  - destruct (radio c); cbn; [apply NoDup_singleton|constructor].
  - destruct (radio c) as [[u r]|] eqn:Er; cbn; [|by intros x ?%elem_of_nil]. intros x ->%list_elem_of_singleton.
    apply radio_row in Er as (_ & Hin & _). exists r. rewrite E. split; [apply elem_row; [apply Hok|done]|]. cbn. by rewrite !bool_decide_eq_true_2.
Qed.

Lemma dark_part q : (radio_configs q).*1 = (radio_configs p).*1 →
  (∀ u r, row u (radio_configs p) = Some r → rc_band r ≠ band i → row u (radio_configs q) = Some r) →
  does (dark c ≫= λ urd, [(WaitDark urd.1.1 urd.1.2, None); (RadioOn urd.1.1 (idle_channel urd.2) (idle_ht_mode urd.2), Some 1)]) q
    (q <| radio_configs := rowwise (on_dark (dark c)) (radio_configs q) |>).
Proof.
  intros E Hrow. refine (guarded_does radio_configs (λ t p, p <| radio_configs := t |>) (λ x, x.1.1) (λ x, WaitDark x.1.1 x.1.2)
    (λ x, RadioOn x.1.1 (idle_channel x.2) (idle_ht_mode x.2))
    (λ x r, bool_decide (rc_if_name r = rc_if_name x.1.2) && bool_decide (rc_enabled r = rc_enabled x.1.2) && bool_decide (rc_channel r = rc_channel x.1.2)
            && bool_decide (rc_ht_mode r = rc_ht_mode x.1.2))
    (λ x r, r <| rc_enabled := Some true |> <| rc_channel := Some (idle_channel x.2) |> <| rc_ht_mode := Some (idle_ht_mode x.2) |>) _ _ _ _ _ (dark c) q _ _ _); try done.
  - by intros [].
  - rewrite E. apply Hok.
  - destruct lists_NoDup as (_ & _ & Hd & _). by rewrite <- list_fmap_compose in Hd.
  - intros [[u r] d] [Hin Hb]%dark_there. cbn in *. exists r. split; [|by rewrite !bool_decide_eq_true_2]. apply Hrow; [|done]. apply elem_row; [apply Hok|done].
Qed.

Lemma cloud_part q : nodes q = nodes p →
  does match cloud_left c with Some w => [(WaitCloud nu w, None); (ClearCloud nu, Some 1)] | None => [] end q
    (q <| nodes := (λ kn, (kn.1, on_node (cloud_left c) kn.2)) <$> nodes q |>).
Proof.
  intros E. destruct (cloud_left c) as [w|] eqn:Ec.
  - assert (Hw : same_cloud (cloud n) w = true).
    { unfold changes in Ec. cbv zeta in Ec. destruct (follows i); cbn [cloud_left] in Ec; [done|]. destruct (cloud_set p); [|done]. injection Ec as <-.
      unfold same_cloud, node_cloud. rewrite Hnodes. cbn. by rewrite !bool_decide_eq_true_2. }
    assert (Hi : is_row nu (nodes q) (λ n, same_cloud (cloud n) w) = true) by (rewrite E, Hnodes; unfold is_row; rewrite row_cons, decide_True by done; exact Hw).
    eapply does_cons; [cbn [perform]; by rewrite Hi|].
    assert (Hm : matched nu (nodes q) = 1) by (rewrite E, Hnodes; apply matched_one; [apply NoDup_singleton|by left]).
    eapply does_cons; [cbn; rewrite Hm; reflexivity|]. rewrite E, Hnodes. unfold on_row. cbn. rewrite bool_decide_eq_true_2 by done. cbn. apply does_nil.
  - rewrite E, Hnodes. cbn. rewrite <- Hnodes, <- E. destruct q. apply does_nil.
Qed.

(** A row of another band is not the plan's. *)
Lemma on_radio_other u r : row u (radio_configs p) = Some r → rc_band r ≠ band i → on_radio i (option_list (radio c)) u r = r.
Proof.
  intros Hr Hb. apply written_other. destruct (radio c) as [[u' r']|] eqn:Er; cbn; [|by intros ?%elem_of_nil].
  intros ->%list_elem_of_singleton. apply radio_row in Er as (_ & Hin & Hb'). apply elem_row in Hin; [|apply Hok]. congruence.
Qed.

Lemma plan_does ops : transaction p i key serial nu = Some ops → does ops p (after p i key).
Proof.
  unfold transaction. cbv zeta. destruct (no_changes c); [done|]. intros E. apply (inj Some) in E as <-. unfold after. cbv zeta.
  eapply does_app.
  { eapply does_cons; [|apply does_nil]. cbn [perform]. rewrite Hnodes. unfold is_row. rewrite row_cons, decide_True by done. cbn.
    by rewrite Hserial, bool_decide_eq_true_2. }
  eapply does_app; [by apply vif_part|]. eapply does_app; [by apply inet_part|]. eapply does_app; [by apply radio_part|].
  eapply does_app; [apply dark_part; [cbn; apply rowwise_keys|]|].
  { intros u r Hr Hb. etrans; [apply (row_rowwise (on_radio i (option_list (radio c))) (radio_configs p) u)|]. rewrite Hr. cbn. f_equal. by apply on_radio_other. }
  eapply does_app; [by apply cloud_part|]. eapply does_app; [apply stats_do; [apply Hok|apply lists_NoDup|apply stats_there]|].
  apply deletion_part; [|apply rowwise_keys| |apply rowwise_keys|done].
  - intros u r Hu Hr. etrans; [apply (row_rowwise (on_vif key (exposed c)) (vif_configs p) u)|]. rewrite Hr. cbn. f_equal. by apply station_kept.
  - etrans; [apply rowwise_keys|]. apply rowwise_keys.
Qed.

(** ** The pod after it *)

Abbreviation p' := (after p i key).
Abbreviation l := (default [] (stations c)).

(** A VIF of it: one that was there, changed only if it was exposed. *)
Lemma vif_after u r' : (u, r') ∈ vif_configs p' → ∃ r, ((u, r) ∈ vif_configs p) ∧ (u ∉ gone p l) ∧ vc_if_name r' = vc_if_name r ∧ vc_mode r' = vc_mode r
  ∧ (r' = r ∧ (u ∉ (exposed c).*1) ∨ neutral r' key = true ∧ u ∈ (exposed c).*1).
Proof.
  intros [Hg Hin]%without_all_elem. apply rowwise_elem in Hin as (r & -> & Hin). exists r. split; [done|]. split; [by rewrite sort_by_elem in Hg|].
  destruct (decide (u ∈ (exposed c).*1)) as [Hu|Hu].
  - assert (Hw : on_vif key (exposed c) u r = neutralized key r) by (apply written_in; [done| |done]; by intros []).
    rewrite Hw. split; [done|]. split; [done|]. right. split; [|done]. unfold neutral, credential_key, row. cbn. by rewrite !bool_decide_eq_true_2 by (done || by right).
  - assert (Hw : on_vif key (exposed c) u r = r) by (by apply written_other). rewrite Hw. split; [done|]. split; [done|]. by left.
Qed.

Lemma ap_names_after m : m ∈ (aps p' i).*1 → m ∈ (aps p i).*1.
Proof.
  intros (u & r' & (r & Hin & _ & En & Em & _)%vif_after & <- & Hm & Hc)%ap_names. apply ap_names. exists u, r. rewrite <- En, <- Em. done.
Qed.

(** Nothing it shows of the radios and of its uplink is changed. *)
Lemma shown_after : wired p' = wired p ∧ held p' i = held p i.
Proof. done. Qed.

(** *** The radio *)

Definition on_radios (u : string) (r : RadioConfig) : RadioConfig :=
  drops (gone_references p l) u (on_dark (dark c) u (on_radio i (option_list (radio c)) u r)).
Lemma radios_after : radio_configs p' = rowwise on_radios (radio_configs p).
Proof. unfold on_radios. by rewrite <- (rowwise_rowwise (drops _)), <- (rowwise_rowwise (on_dark _)). Qed.

Lemma written_band {A} (u : A → string) (f : A → RadioConfig → RadioConfig) ls k r :
  (∀ x r, rc_band (f x r) = rc_band r) → rc_band (written u f ls k r) = rc_band r.
Proof.
  intros Hfb. unfold written. revert r. induction ls as [|x ls IH]; intros r; [done|]. cbn. rewrite IH. by destruct (bool_decide _).
Qed.
Lemma on_radios_band u r : rc_band (on_radios u r) = rc_band r.
Proof.
  unfold on_radios. destruct (drops_rest (gone_references p l) u (on_dark (dark c) u (on_radio i (option_list (radio c)) u r))) as [vs ->]. cbn.
  unfold on_dark, on_radio. by rewrite !written_band.
Qed.

Lemma filter_rowwise {X} (Q : string * X → Prop) `{!∀ x, Decision (Q x)} (h : string → X → X) (t : table X) :
  (∀ u r, Q (u, h u r) ↔ Q (u, r)) → filter Q (rowwise h t) = rowwise h (filter Q t).
Proof.
  intros HQ. induction t as [|[u r] t IH]; [done|]. change (rowwise h ((u, r) :: t)) with ((u, h u r) :: rowwise h t). rewrite !filter_cons.
  destruct (decide (Q (u, r))) as [Hr|Hr]; [rewrite decide_True by (by apply HQ); by rewrite IH|rewrite decide_False by (by rewrite HQ); done].
Qed.

Lemma plan_radio_after : plan_radio p' i = (λ ur, (ur.1, on_radios ur.1 ur.2)) <$> plan_radio p i.
Proof.
  assert (E : filter (λ kv : string * RadioConfig, rc_band kv.2 = band i) (rowwise on_radios (radio_configs p))
    = rowwise on_radios (filter (λ kv : string * RadioConfig, rc_band kv.2 = band i) (radio_configs p)))
    by (apply filter_rowwise; intros u r; cbn; by rewrite on_radios_band).
  unfold plan_radio. rewrite radios_after, E. generalize (filter (λ kv : string * RadioConfig, rc_band kv.2 = band i) (radio_configs p)).
  by intros [|x [|y t]].
Qed.

Lemma radio_after : radio (changes p' i key) = None.
Proof.
  destruct shown_after as [Ew Eh]. assert (Hr : ∀ q, radio (changes q i key) = if (follows i || (wired q && negb (held q i))) && negb (on_plan q i) then plan_radio q i else None)
    by (intros q; unfold changes; cbv zeta; by destruct (follows i)).
  rewrite Hr, Ew, Eh. destruct (follows i || (wired p && negb (held p i))) eqn:Eg; [|done]. cbn.
  destruct (plan_radio p i) as [[u r]|] eqn:Ep; [|rewrite plan_radio_after, Ep; by destruct (on_plan p' i)].
  assert (Hon : on_plan p' i = true); [|by rewrite Hon]. unfold on_plan. rewrite plan_radio_after, Ep. cbn [fmap option_fmap option_map fst snd].
  assert (Hb : (u, r) ∈ radio_configs p ∧ rc_band r = band i).
  { unfold plan_radio in Ep. destruct (filter _ _) as [|x [|]] eqn:Ef; try done. injection Ep as ->.
    assert (Hin : (u, r) ∈ filter (λ kv : string * RadioConfig, rc_band kv.2 = band i) (radio_configs p)) by (rewrite Ef; by left).
    by apply list_elem_of_filter in Hin as [? ?]. }
  destruct Hb as [Hin Hb]. unfold on_radios.
  destruct (drops_rest (gone_references p l) u (on_dark (dark c) u (on_radio i (option_list (radio c)) u r))) as [vs ->].
  assert (Hd : ∀ x, on_dark (dark c) u x = x).
  { intros x. apply written_other. intros ([[u' r'] d] & -> & [Hin' Hb']%dark_there)%list_elem_of_fmap. cbn in *.
    apply (elem_row _ _ _ (ok_radios _ Hok)) in Hin, Hin'. congruence. }
  rewrite Hd. cbn [rc_channel rc_ht_mode]. specialize (Hr p). rewrite Eg in Hr. cbn [andb] in Hr. destruct (on_plan p i) eqn:Eo.
  - rewrite Hr. cbn. unfold on_plan in Eo. rewrite Ep in Eo. exact Eo.
  - rewrite Hr, Ep. assert (Hw : on_radio i (option_list (Some (u, r))) u r = r <| rc_channel := Some (channel i) |> <| rc_ht_mode := Some (ht_mode i) |>).
    { apply (written_in _ _ (λ r, r <| rc_channel := Some (channel i) |> <| rc_ht_mode := Some (ht_mode i) |>)); [done|by intros []|by left]. }
    cbn [negb]. rewrite Hw. cbn. by rewrite !bool_decide_eq_true_2.
Qed.

(** The write of a plan that follows a station: the channel and the width of its radio, nothing else. *)
Lemma follow_after ops :
  follows i = true → transaction p i key serial nu = Some ops →
  ∃ u r, plan_radio p i = Some (u, r) ∧ on_plan p i = false ∧
    after p i key = p <| radio_configs := on_row u (λ r, r <| rc_channel := Some (channel i) |> <| rc_ht_mode := Some (ht_mode i) |>) (radio_configs p) |>.
Proof.
  intros Hf. unfold transaction. cbv zeta. destruct (no_changes (changes p i key)) eqn:En; [done|]. intros _.
  assert (Ec : changes p i key = mkChanges [] [] (if negb (on_plan p i) then plan_radio p i else None) None [] None [])
    by (unfold changes; cbv zeta; by rewrite Hf).
  unfold after. cbv zeta. rewrite Ec in *. destruct (on_plan p i); [by vm_compute in En|]. cbn [negb] in *.
  destruct (plan_radio p i) as [[u r]|]; [|by vm_compute in En]. exists u, r. split; [done|]. split; [done|].
  cbn [stations exposed inets_on radio dark cloud_left stats default option_list fmap list_fmap]. rewrite (proj2 (deletion_nil _)).
  unfold on_vif, on_inet, on_dark, written. cbn [foldl]. rewrite !rowwise_id, without_all_nil, on_row_rowwise.
  assert (Hn : (λ kn, (kn.1, on_node None kn.2)) <$> nodes p = nodes p) by (rewrite <- (list_fmap_id (nodes p)) at 2; apply list_fmap_ext; by intros _ [] _).
  rewrite Hn. by destruct p.
Qed.

Lemma followed_on_plan u r : follows i = true → plan_radio p i = Some (u, r) → on_plan p' i = true.
Proof.
  intros Hf Hp. pose proof radio_after as Hr. unfold changes in Hr. cbv zeta in Hr. rewrite Hf in Hr. cbn [radio orb andb] in Hr.
  destruct (on_plan p' i); [done|]. cbn in Hr. by rewrite plan_radio_after, Hp in Hr.
Qed.

(** An AP stays, enabled as it was, and as it was altogether when the profile names it. *)
Lemma ap_after u r : row u (vif_configs p) = Some r → vc_mode r = Some "ap" →
  ∃ r', row u (vif_configs p') = Some r' ∧ vc_enabled r' = vc_enabled r ∧ (vc_if_name r ∈ claimed i → r' = r).
Proof.
  intros Hr Hm. exists (on_vif key (exposed c) u r).
  assert (Hg : u ∉ sort_by (station_key (vifs_of p)) (gone p l)).
  { intros [Hu _]%sort_by_elem%gone_elem. destruct (station_kept u r Hu Hr) as [Hs _]. congruence. }
  split; [|split].
  - change (row u (without_all (sort_by (station_key (vifs_of p)) (gone p l)) (rowwise (on_vif key (exposed c)) (vif_configs p))) = Some (on_vif key (exposed c) u r)).
    by rewrite row_without, row_rowwise, Hr.
  - unfold on_vif, written. clear. revert r. induction (exposed c) as [|x t IH]; intros r; [done|]. cbn. rewrite IH. by destruct (bool_decide _).
  - intros Hc. apply written_other. intros ([u' m] & -> & (r0 & Hr0 & <- & _ & Hn)%exposed_there)%list_elem_of_fmap. cbn in *. congruence.
Qed.

(** A station the plan keeps stays as it was. *)
Lemma station_after u r : row u (vif_configs p) = Some r → vc_mode r = Some "sta" → is_foreign p i r = false → row u (vif_configs p') = Some r.
Proof.
  intros Hr Hm Hk.
  assert (Hg : u ∉ sort_by (station_key (vifs_of p)) (gone p l)).
  { intros [(r' & Hr' & Hf)%stations_there _]%sort_by_elem%gone_elem. congruence. }
  change (row u (without_all (sort_by (station_key (vifs_of p)) (gone p l)) (rowwise (on_vif key (exposed c)) (vif_configs p))) = Some r).
  rewrite row_without, row_rowwise, Hr by done. cbn. f_equal. apply written_other.
  intros ([u' m] & -> & (r0 & Hr0 & _ & Ha & _)%exposed_there)%list_elem_of_fmap. cbn in *. congruence.
Qed.

Hypothesis Hf : follows i = false.

Lemma after_ok_vifs : NoDup (vif_configs p').*1.
Proof.
  change (NoDup (without_all (sort_by (station_key (vifs_of p)) (gone p l)) (rowwise (on_vif key (exposed c)) (vif_configs p))).*1).
  apply without_all_NoDup. rewrite rowwise_keys. apply Hok.
Qed.

Lemma exposed_after : exposed_aps p' i key = [].
Proof.
  apply elem_of_nil_inv. intros [m u] [Hn (r' & Hin' & En & Em & Hc)%aps_elem]%list_elem_of_filter.
  change (from_option (λ r, negb (neutral r key)) false (row u (vif_configs p')) = true) in Hn.
  rewrite (elem_row _ u r' after_ok_vifs Hin') in Hn. apply negb_true_iff in Hn.
  apply vif_after in Hin' as (r & Hin & _ & En' & Em' & [[-> Hu]|[Hn' _]]); [|congruence].
  apply Hu, list_elem_of_fmap. exists (u, m). split; [done|]. unfold changes. cbv zeta. rewrite Hf. cbn. apply exposed_elem; [done|].
  exists r. split; [apply elem_row; [apply Hok|done]|done].
Qed.

Lemma inets_after : inet_rows p' i = [].
Proof.
  apply elem_of_nil_inv. intros [m u] Hin. apply by_name_elem, list_elem_of_fmap in Hin as ([k x'] & [= -> ->] & [[Ha He] Hin]%list_elem_of_filter). cbn in Ha, He.
  apply without_all_elem in Hin as [_ (x & -> & Hin)%rowwise_elem]. destruct (decide (k ∈ (inets_on c).*1)) as [Hk|Hk].
  - assert (Hw : on_inet (inets_on c) k x = x <| in_enabled := false |>) by (apply written_in; [done| |done]; by intros []). rewrite Hw in He. done.
  - assert (Hw : on_inet (inets_on c) k x = x) by (by apply written_other). rewrite Hw in He, Ha. apply Hk, list_elem_of_fmap. exists (k, in_if_name x).
    split; [done|]. unfold changes. cbv zeta. rewrite Hf. cbn. apply inets_elem; [done|]. exists x.
    split; [apply elem_row; [apply Hok|done]|]. split; [done|]. split; [done|]. by apply ap_names_after.
Qed.

Lemma cloud_after : cloud_set p' = false.
Proof.
  unfold cloud_set, node_cloud. cbn [after]. assert (En : nodes p' = [(nu, on_node (cloud_left c) n)]) by (unfold after, deleted; cbn; by rewrite Hnodes).
  rewrite En. cbn. assert (Hc : cloud_left c = if cloud_set p then Some (node_cloud p) else None) by (unfold changes; cbv zeta; by rewrite Hf).
  rewrite Hc. destruct (cloud_set p) eqn:Es; [done|]. cbn. unfold cloud_set, node_cloud in Es. rewrite Hnodes in Es. exact Es.
Qed.

Lemma stats_after : stats_rows p' = [].
Proof.
  assert (Es : stats_configs p' = []).
  { apply elem_of_nil_inv. intros [u r] Hin. assert (Hin' : (u, r) ∈ without_all (stats c).*1 (stats_configs p)) by exact Hin.
    apply without_all_elem in Hin' as [Hu Hin']. apply Hu, list_elem_of_fmap. exists (u, r). split; [done|]. unfold changes. cbv zeta. rewrite Hf. cbn.
    by apply sort_by_elem. }
  unfold stats_rows. by rewrite Es.
Qed.

Lemma foreign_after : foreign p' i = [].
Proof.
  assert (Hl : l = (foreign p i).*2) by (unfold changes; cbv zeta; rewrite Hf; cbn [stations]; case_bool_decide as E; [by rewrite E|done]).
  apply elem_of_nil_inv. intros [m u] Hin. apply by_name_elem, list_elem_of_fmap in Hin as ([k r'] & [= -> ->] & [Hfor Hin]%list_elem_of_filter).
  change (is_foreign p' i r' = true) in Hfor. unfold is_foreign in Hfor. apply andb_true_iff in Hfor as [[Hw Hm]%andb_true_iff Hk].
  apply bool_decide_eq_true_1 in Hm. apply vif_after in Hin as (r & Hin & Hg & _ & Em & [[-> _]|[_ Hu]]).
  2:{ apply list_elem_of_fmap in Hu as ([u' m] & -> & (r0 & Hr0 & _ & Ha & _)%exposed_there). cbn in *. apply (elem_row _ _ _ (ok_vifs _ Hok)) in Hin. congruence. }
  assert (Hkept : kept_station r i (credentials p) = true).
  { destruct (kept_station r i (credentials p)) eqn:Eks; [done|]. destruct Hg. apply gone_elem. split; [|apply list_elem_of_fmap; by exists (k, r)].
    rewrite Hl. apply foreign_elem. exists r. split; [done|]. unfold is_foreign. destruct shown_after as [<- _].
    rewrite Hw, Eks, Hm. cbn. by rewrite bool_decide_eq_true_2. }
  apply negb_true_iff in Hk. rewrite <- not_true_iff_false in Hk. apply Hk. unfold kept_station in *. destruct (gtp_ssid i) as [g|]; [|done].
  apply orb_true_iff. apply orb_true_iff in Hkept as [->|Hc]; [by left|right]. apply existsb_exists in Hc as (x & Hx%list_elem_of_In & Hg').
  apply existsb_exists. exists x. split; [by apply list_elem_of_In|]. 
  assert (row x (credentials p') = row x (credentials p)) as ->; [|done].
  change (row x (without_all (gone_credentials p l) (credentials p)) = row x (credentials p)). apply row_without.
  intros Hx'. apply sort_by_elem, elem_of_elements, elem_of_list_to_set, list_elem_of_filter in Hx' as [[_ Hn] _]. apply Hn.
  apply elem_of_list_to_set, list_elem_of_bind. exists r. split; [done|]. apply list_elem_of_fmap. exists (k, r). split; [done|]. by apply list_elem_of_filter.
Qed.

Lemma planned_after : is_Some (plan_radio p i) → negb (wired p') || on_plan p' i || held p' i = true.
Proof.
  intros [[u r] Hp]. destruct (wired p') eqn:Ew; [|done]. destruct (held p' i) eqn:Eh; [by rewrite orb_true_r|]. rewrite orb_false_r. cbn.
  pose proof radio_after as Hr. unfold changes in Hr. cbv zeta in Hr. rewrite Hf in Hr. cbn [radio] in Hr. rewrite Ew, Eh in Hr. cbn in Hr.
  destruct (on_plan p' i); [done|]. cbn in Hr. by rewrite plan_radio_after, Hp in Hr.
Qed.

Lemma applied_after : is_Some (plan_radio p i) → dark_rows p' i = [] → matches (configured p' i key) target = true.
Proof.
  intros Hp Hd. pose proof (planned_after Hp) as Hplan. pose proof exposed_after as He. pose proof inets_after as Hi. pose proof cloud_after as Hc.
  pose proof stats_after as Hs. pose proof foreign_after as Hfo.
  assert (Hcl : filter (λ c, node_cloud p' c ≠ []) CLOUD = []).
  { apply elem_of_nil_inv. intros x [Hx Hin]%list_elem_of_filter. unfold cloud_set in Hc. rewrite <- not_true_iff_false in Hc. apply Hc, existsb_exists.
    exists x. split; [by apply list_elem_of_In|]. apply negb_true_iff, bool_decide_eq_false_2, Hx. }
  unfold matches. apply bool_decide_eq_true_2. intros k v. unfold target, configured. cbv zeta. rewrite He, Hi, Hs, Hfo, Hd, Hcl, Hf, Hplan.
  rewrite !lookup_insert_Some, lookup_singleton_Some. intros Hk.
  repeat (destruct Hk as [[<- <-]|[_ Hk]]; [reflexivity|]). destruct Hk as [<- <-]. reflexivity.
Qed.
End Applies.

(** ** A commit *)

(** A write is reported committed only when every operation has its result, without error and with the count it must match. *)
Theorem commit_judged `{Outside} i gen tid raw1 raw2 answer b r b' :
  b_submit i gen tid raw1 raw2 answer b = (Ok r, b') → status r = "committed" →
  ∃ raw key node ops l, raw2 = Ok raw ∧ raw_generation raw = gen ∧ transaction (raw_pod raw) i key (expected_serial b) node = Some ops
    ∧ answer (on_wire <$> ops.*1) = Results (VList l) ∧ Forall2 accepted l ops.*2 ∧ write_count b' = write_count b + 1.
Proof.
  assert (Hb : ∀ raw b u b1, binding raw b = (Ok u, b1) → expected_serial b1 = expected_serial b ∧ write_count b1 = write_count b).
  { intros raw b0 u b1. unfold binding. intros (? & ? & [= <- <-] & E)%M_bind_Ok. destruct (nodes (raw_pod raw)) as [|[u' n] [|]]; try done.
    destruct (bool_decide _); [|done]. apply M_bind_Ok in E as (st & b2 & E2 & E). unfold lift in E2. injection E2 as _ <-.
    apply M_bind_Ok in E as (? & b3 & [= <- <-] & E). by injection E as _ <-. }
  unfold b_submit. intros E Hs. apply M_bind_Ok in E as (d & b1 & Ep & E). apply M_bind_Ok in E as (raw & b2 & Er & E). unfold lift in Er. injection Er as -> <-.
  assert (Hb1 : expected_serial b1 = expected_serial b ∧ write_count b1 = write_count b).
  { unfold b_plan in Ep. apply M_bind_Ok in Ep as (? & ? & [= _ <-] & Ep). apply M_bind_Ok in Ep as (? & ? & [= <- <-] & Ep).
    apply M_bind_Ok in Ep as (? & ? & [= _ <-] & Ep). apply M_bind_Ok in Ep as (raw' & ? & [= _ <-] & Ep).
    apply M_bind_Ok in Ep as (u & b3 & Eb%Hb & Ep). apply M_bind_Ok in Ep as (? & ? & [= _ <-] & Ep). apply M_bind_Ok in Ep as (? & ? & [= _ <-] & Ep).
    cbv zeta in Ep. apply M_bind_Ok in Ep as (? & ? & [= <- <-] & Ep). by injection Ep as _ <-. }
  apply M_bind_Ok in E as (node & b2 & [Hb2 Hw2]%Hb & E). case_bool_decide as Hg; cbn in E; [|injection E as <- _; done].
  apply M_bind_Ok in E as (key & b3 & Ek & E). unfold lift in Ek. injection Ek as _ <-. apply M_bind_Ok in E as (? & ? & [= <- <-] & E).
  destruct (transaction _ _ _ _ _) as [ops|] eqn:Et; [|injection E as <- _; done].
  apply M_bind_Ok in E as (? & b4 & [= <- <-] & E). exists raw, key, node, ops. destruct Hb1 as [Hb1 Hw1]. rewrite Hb2, Hb1 in Et.
  destruct (answer _) as [|f|results] eqn:Ea; [injection E as <- _; done| |].
  { injection E as <- _. unfold failed_check in Hs. cbn in Hs. destruct (bool_decide _); [done|]. by destruct (bool_decide _). }
  destruct (check_results results ops.*2) as [f|] eqn:Ec.
  { injection E as <- _. unfold failed_check in Hs. cbn in Hs. destruct (bool_decide _); [done|]. by destruct (bool_decide _). }
  apply check_results_pass in Ec as (l & -> & Hl). exists l. apply M_bind_Ok in E as (? & ? & [= <- <-] & E). injection E as _ <-. cbn.
  repeat (split; [done|]). lia.
Qed.

(** ** The follow *)

Definition views := list (Z * View).
Definition follow_all (start : option string) (l : views) (f : Follow) : Follow := foldl (λ f tv, follow start tv.1 tv.2 f) f l.

Lemma follow_step start now v f : let f' := follow start now v f in
  follow_start f' = start ∧ base f' = base f
  ∧ (follow_count f' = follow_count f ∧ (start = follow_start f → followed_at f' = followed_at f)
     ∨ follow_count f' = follow_count f + 1 ∧ followed_at f' = Some now
       ∧ (start = follow_start f → from_option (λ at_, FOLLOW_HOLD ≤ now - at_) True (followed_at f))).
Proof.
  unfold follow. set (f1 := if bool_decide (start ≠ follow_start f) then _ else f).
  assert (H1 : follow_start f1 = start ∧ base f1 = base f ∧ follow_count f1 = follow_count f ∧ (start = follow_start f → followed_at f1 = followed_at f)).
  { unfold f1. case_bool_decide as E; cbn; done. }
  destruct H1 as (H1 & H2 & H3 & H4). set (f2 := match station_channel v with None => f1 | Some _ => _ end).
  assert (H5 : follow_start f2 = start ∧ base f2 = base f ∧ follow_count f2 = follow_count f ∧ followed_at f2 = followed_at f1).
  { unfold f2. by destruct (station_channel v). }
  destruct H5 as (H5 & H6 & H7 & H8). cbv zeta. destruct (wanted f2) as [w|]; [|cbn; naive_solver congruence].
  destruct (bool_decide (Some w ≠ followed f2)); [|cbn; naive_solver congruence]. cbn [andb]. destruct (from_option _ true (followed_at f2)) eqn:Ef; [|cbn; naive_solver congruence].
  cbn. split; [done|]. split; [done|]. right. split; [lia|]. split; [done|]. intros Hst. rewrite <- (H4 Hst), <- H8. destruct (followed_at f2); cbn in *; [|done].
  by apply bool_decide_eq_true_1 in Ef.
Qed.

(** After a follow at [t], each further one takes the hold. *)
Lemma follow_since start l f t :
  follow_start f = start → followed_at f = Some t → StronglySorted Z.le (t :: l.*1) →
  (follow_count (follow_all start l f) - follow_count f) * FOLLOW_HOLD ≤ default t (list.last l.*1) - t.
Proof.
  revert f t. induction l as [|[now v] l IH]; intros f t Hs Ht Hl; cbn; [lia|].
  destruct (follow_step start now v f) as (S1 & S2 & S3). cbn in Hl. apply StronglySorted_inv in Hl as [Hl Hle]. apply Forall_cons in Hle as [Hle Hle'].
  assert (Hlast : default now (list.last l.*1) = default t (list.last (now :: l.*1))) by (by destruct l.*1 using rev_ind; rewrite ?last_cons, ?last_snoc).
  destruct S3 as [(Hc & Ha)|(Hc & Ha & Hh)].
  - specialize (IH (follow start now v f) t S1). rewrite (Ha (eq_sym Hs)) in IH. specialize (IH Ht). rewrite Hc in IH.
    assert (Hsl : StronglySorted Z.le (t :: l.*1)) by (apply StronglySorted_inv in Hl as [? ?]; by constructor).
    specialize (IH Hsl). fold (follow_all start l (follow start now v f)). cbn in Hlast. rewrite <- Hlast. destruct (list.last l.*1); cbn in *; lia.
  - specialize (IH (follow start now v f) now S1 Ha Hl). specialize (Hh (eq_sym Hs)). rewrite Ht in Hh. cbn in Hh.
    fold (follow_all start l (follow start now v f)). cbn in Hlast. rewrite <- Hlast. lia.
Qed.

(** On one start of the pod's OpenSync, from any state of the agent, the station is followed at most once per hold. *)
Theorem follow_paced start now v l f :
  StronglySorted Z.le (now :: l.*1) →
  (follow_count (follow_all start ((now, v) :: l) f) - follow_count f - 1) * FOLLOW_HOLD ≤ default now (list.last l.*1) - now.
Proof.
  intros Hl. change (follow_all start ((now, v) :: l) f) with (follow_all start l (follow start now v f)).
  destruct (follow_step start now v f) as (S1 & _ & [(Hc & _)|(Hc & Ha & _)]); [|rewrite Z.add_comm in Hc; pose proof (follow_since start l _ now S1 Ha Hl); lia].
  cut ((follow_count (follow_all start l (follow start now v f)) - follow_count (follow start now v f) - 1) * FOLLOW_HOLD ≤ default now (list.last l.*1) - now); [lia|].
  clear Hc. revert S1. generalize (follow start now v f) as g. clear f v. revert now Hl.
  induction l as [|[now' v] l IH]; intros now Hl g S1; [cbn; unfold FOLLOW_HOLD, seconds; lia|].
  cbn in Hl. apply StronglySorted_inv in Hl as [Hl Hle]. apply Forall_cons in Hle as [Hle _].
  assert (Hlast : default now' (list.last l.*1) = default now (list.last (now' :: l.*1))) by (by destruct l.*1 using rev_ind; rewrite ?last_cons, ?last_snoc).
  change (follow_all start ((now', v) :: l) g) with (follow_all start l (follow start now' v g)). cbn [fmap list_fmap fst]. rewrite <- Hlast.
  destruct (follow_step start now' v g) as (S2 & _ & [(Hc & _)|(Hc & Ha & _)]).
  - specialize (IH now' Hl _ S2). lia.
  - pose proof (follow_since start l _ now' S2 Ha Hl). lia.
Qed.

(** * Properties *)

(** C21: one write settles the plan. For an intent that validates, on a pod whose tables have no UUID twice and whose one node
    row has the bound serial, the guarded transaction, when the plan has one, applies to the database it was made from: every wait
    holds, every write matches the one row it names. On the database it leaves the radio needs no write. Of a plan that follows no
    station, on that database no AP outside the profile is exposed or has its Inet row on, nothing of the operator's
    cloud or of its statistics is left, and no foreign station; and once no idle radio is dark (the pod's own to show) and the plan has its
    radio, the plan is applied. A plan that follows a station has its radio off the channel or the width, and writes these two
    fields of this radio and nothing else of the pod. In both cases the APs the profile names are as they were, and no
    AP is disabled; every station of a pod that is not wired, and every station on the GTP's SSID, is as it was. *)
Theorem plan_settles p i key serial nu n ops :
  pod_ok p → validate i = Ok tt → nodes p = [(nu, n)] → serial_number n = Some serial → transaction p i key serial nu = Some ops →
  ∃ p', transact ops.*1 p = Some (p', ops.*2)
    ∧ radio (changes p' i key) = None
    ∧ (follows i = false →
        exposed_aps p' i key = [] ∧ inet_rows p' i = [] ∧ cloud_set p' = false ∧ stats_rows p' = [] ∧ foreign p' i = []
        ∧ (is_Some (plan_radio p i) → dark_rows p' i = [] → matches (configured p' i key) target = true))
    ∧ (follows i = true → ∃ u r, plan_radio p i = Some (u, r) ∧ on_plan p i = false ∧ on_plan p' i = true ∧
        p' = p <| radio_configs := on_row u (λ r, r <| rc_channel := Some (channel i) |> <| rc_ht_mode := Some (ht_mode i) |>) (radio_configs p) |>)
    ∧ (∀ u r, row u (vif_configs p) = Some r → vc_mode r = Some "ap" →
         ∃ r', row u (vif_configs p') = Some r' ∧ vc_enabled r' = vc_enabled r ∧ (vc_if_name r ∈ claimed i → r' = r))
    ∧ (∀ u r, row u (vif_configs p) = Some r → vc_mode r = Some "sta" → wired p = false ∨ kept_station r i (credentials p) = true →
         row u (vif_configs p') = Some r).
Proof.
  intros Hok Hval Hn Hs Ht. exists (after p i key). split; [by eapply plan_does|]. split; [by apply radio_after|]. split; [|split; [|split]].
  - intros Hf. split; [by eapply exposed_after|]. split; [by eapply inets_after|]. split; [by eapply cloud_after|].
    split; [by eapply stats_after|]. split; [by eapply foreign_after|]. intros Hp Hd. by eapply applied_after.
  - intros Hf. destruct (follow_after p i key serial nu n Hok Hval Hn Hs ops Hf Ht) as (u & r & Hp & Ho & Ha). exists u, r. split; [done|]. split; [done|].
    split; [|done]. by eapply followed_on_plan.
  - intros u r Hr Hm. by apply ap_after.
  - intros u r Hr Hm Hk. apply station_after; [done..|]. unfold is_foreign. destruct Hk as [-> | ->]; [done|]. by rewrite andb_false_r.
Qed.

(** A pod of its vendor's seed: an operator's AP with its address, a station of the operator's, the cloud and a statistics row; wired, its radio on
    another channel. *)
Definition ex_intent : RadioPlanIntent := mkRadioPlanIntent "pod" ["home-ap-24"] "2.4G" 6 "HT20" "emosa-unclaimed" (Some "gtp") [mkIdle "5GU" 149 "HT80"] false.
Definition ex_node : Node := mkNode (Some "SN1") (λ c, if bool_decide (c = "mqtt_settings") then [("broker", "cloud")] else []).
Definition ex_pod : Pod :=
  mkPod [("n", ex_node)]
    [("r1", mkRadioConfig (Some "wifi0") "2.4G" (Some true) (Some 1) (Some "HT40") ["v1"; "v2"; "v3"])]
    [("s1", mkRadioState (Some "wifi0") "2.4G" (Some true) (Some 1) (Some "HT40") [])]
    [("v1", mkVifConfig "home-ap-24" (Some "ap") (Some true) (Some "home") (Some "enabled") (Some "br-home") [("encryption", "WPA-PSK"); ("key", "k")] []);
     ("v2", mkVifConfig "svc-d-ap-24" (Some "ap") (Some true) (Some "operator") (Some "enabled") (Some "br") [("encryption", "WPA-PSK"); ("key", "o")] []);
     ("v3", mkVifConfig "bhaul-sta-24" (Some "sta") (Some true) None None None [] ["c1"])]
    [] [("c1", Some "operator.onboard")]
    [("i1", mkInet "home-ap-24" true); ("i2", mkInet "svc-d-ap-24" true); ("i3", mkInet "bhaul-sta-24" true)]
    [("u1", mkUplink "eth0" "eth" (Some true))] [("t1", mkStatsConfig "client" "2.4G")].

Lemma plan_settles_witness :
  ∃ ops p', transaction ex_pod ex_intent "secret" "SN1" "n" = Some ops ∧ length ops = 16%nat ∧ transact ops.*1 ex_pod = Some (p', ops.*2)
    ∧ exposed_aps p' ex_intent "secret" = [] ∧ foreign p' ex_intent = [].
Proof.
  assert (Hok : pod_ok ex_pod) by (split; apply (bool_decide_unpack _); vm_compute; exact Logic.I).
  assert (Hl : length <$> transaction ex_pod ex_intent "secret" "SN1" "n" = Some 16%nat) by (vm_compute; reflexivity).
  destruct (transaction ex_pod ex_intent "secret" "SN1" "n") as [ops|] eqn:Et; [|discriminate Hl]. injection Hl as Hl.
  destruct (plan_settles ex_pod ex_intent "secret" "SN1" "n" ex_node ops Hok eq_refl eq_refl eq_refl Et) as (p' & Ha & _ & H & _).
  destruct (H eq_refl) as (H1 & _ & _ & _ & H2 & _). exists ops, p'. done.
Defined.
