(* ===== verification/RadioPlanAgent.v ===== *)
(** * The agent of the radio plan: [RadioPlan] of [src/emosa/agent/radio_plan.py]

    The agent's tick over the scope of [RadioPlan] and an engine of its own ([Engine]): it settles the latest
    operation itself, follows the station, and writes the plan at most once per start of the pod's OpenSync and
    plan. A tick is a coroutine: the answer of the database comes first, and what follows runs without an
    await up to the first one of the execution it begins; the log lines are not modelled. *)

From stdpp Require Import pretty.
From S2P Require Import Prelude Bytes Cmdu Lifecycle Store Engine EngineSafety Session TopologyBindings Ovsdb Peers RadioPlan.

Definition DEADLINE : Z := seconds 30.
Definition SOURCE : string := "radio-plan-policy".

Abbreviation Op := (Operation RadioPlanIntent).

Record Agent := mkAgent {
  a_backend : RadioPlanBackend;
  a_engine : Engine RadioPlanIntent;
  a_follow : Follow;
  waiting : option string;
  a_key : option string
}.
#[export] Instance eta_Agent : Eta Agent := λ a, mkAgent (a_backend a) (a_engine a) (a_follow a) (waiting a) (a_key a).

Section Agent.
Context `{Outside}.
Context (validate_operation : Op → result unit) (vault : Vault).
Context (pod run : string).

(** [Engine(store, vault, {pod_id: backend}, ...)]; the scope has no [mapping]. *)
Definition scopes : gmap string (option string) := {[pod := None]}.

Definition on_engine {A} (m : M (Engine RadioPlanIntent) A) : M Agent A := λ a,
  let '(r, e) := m (a_engine a) in (r, a <| a_engine := e |>).
Definition on_backend {A} (m : M RadioPlanBackend A) : M Agent A := λ a,
  let '(r, b) := m (a_backend a) in (r, a <| a_backend := b |>).

(** [__init__]: the journal is recovered; [m] is a new process on it *)
Definition Agent_init (clk : Clock) (b : RadioPlanBackend) (m : Engine RadioPlanIntent) : result unit * Agent :=
  let '(r, e) := recover validate_operation clk m in
  (r, mkAgent b e (mkFollow (b_intent b) None None None None 0 (b_intent b)) None None).

(** [latest()] *)
Definition latest (a : Agent) : option Op := list.last (operations (store (a_engine a))).

Definition instance_value (b : RadioPlanBackend) : value := default VNone (VStr <$> b_instance b).

(** Whether the snapshot shows the operation applied, on the start it was planned on. *)
Definition shows_applied (b : RadioPlanBackend) (op : Op) (snap : option Snapshot) (target : dict) : result bool :=
  match snap with
  | None => Ok false
  | Some s =>
      match plan op with
      | None => Raise attribute_error
      | Some p => Ok (bool_decide (instance_value b = default VNone (p !! "instance")) && ready s
                      && satisfies (observed s) target && matches (config s) target)
      end
  end.

(** The operation is applied: the evidence is the snapshot's. *)
Definition mark_applied (clk : Clock) (op : Op) (s : Snapshot) : M Agent unit :=
  a ← get;
  let ev := evidence_of s {["instance" := instance_value (a_backend a)]} in
  let ev := if bool_decide (state op = INDETERMINATE) then <["attribution" := VStr "current_condition_only"]> ev else ev in
  op ← lift (transition op OBSERVED_APPLIED ev);
  _ ← on_engine (save_op validate_operation clk (op <| application_evidence := Some ev |> <| reason := None |>) []);
  mret tt.
(** It is not: past its deadline it has timed out. *)
Definition mark_late (clk : Clock) (op : Op) : M Agent unit :=
  late ← on_engine (expired clk op);
  if late : bool then
    op ← lift (transition (op <| original_outcome := Some (state op) |> <| deadline_elapsed := true |>) TIMED_OUT ∅);
    _ ← on_engine (save_op validate_operation clk (op <| reason := reason_of APPLY_TIMEOUT |>) []);
    mret tt
  else mret tt.

(** [_settle(op, snap)] *)
Definition settle (clk : Clock) (op : Op) (snap : option Snapshot) : M Agent unit :=
  if negb (bool_decide (state op = CONFIG_COMMITTED ∨ state op = INDETERMINATE)) then mret tt
  else
    target ← lift (i_target vault (Lifecycle.intent op));
    a ← get;
    applied ← lift (shows_applied (a_backend a) op snap target);
    match snap, applied with
    | Some s, true => mark_applied clk op s
    | _, _ => mark_late clk op
    end.

(** What [_follow] reads of the snapshot's view, and its assignment to the scope *)
Definition int_at (k : string) (d : dict) : option Z := match d !! k with Some (VInt z) => Some z | _ => None end.
Definition str_at (k : string) (d : dict) : option string := match d !! k with Some (VStr z) => Some z | _ => None end.
Definition view_of (d : dict) : View :=
  mkView (int_at "station_channel" d) (str_at "station_ht_mode" d) (int_at "channel" d) (str_at "ht_mode" d).
Definition follow_station (mono : Z) (s : Snapshot) : M Agent unit :=
  modify (λ a,
    let f := RadioPlan.follow (b_instance (a_backend a)) mono (view_of (config s)) (a_follow a) in
    a <| a_follow := f |> <| a_backend := a_backend a <| b_intent := RadioPlan.intent f |> |>).

(** [start_write()]: the prefix of a start's keys, the tag of the plan wanted, the operation that stands for it or the key *)
Definition prefix_of (b : RadioPlanBackend) : string := default "None" (b_instance b) +:+ ":radio-plan:".
Definition plan_print (i : RadioPlanIntent) : string := String.substring 0 16 (fingerprint vault (VDict (record i))).
Definition a_start_write (a : Agent) : option Op * option string :=
  let prefix := prefix_of (a_backend a) in
  start_write (start_latest SOURCE pod prefix (store (a_engine a))) (prefix +:+ plan_print (RadioPlan.intent (a_follow a))) None.

(** [_wanted(op, snap)] *)
Definition wait_for (text : option string) : M Agent unit := modify (λ a, a <| waiting := text |>).
Definition is_wanted (op : option Op) (s : Snapshot) : M Agent bool :=
  if negb (ready s) then _ ← wait_for (Some "pod not bound"); mret false
  else
    a ← get;
    if owned_truth (ownership pod (store (a_engine a))) then _ ← wait_for (Some "another manager changed the plan: admit the pod anew"); mret false
    else if from_option (λ op, ACTIVE (state op)) false op then _ ← wait_for (Some "write in progress"); mret false
    else
      let '(done, key) := a_start_write a in
      _ ← modify (λ a, a <| a_key := key |>);
      match done with
      | Some op =>
          _ ← wait_for (if bool_decide (state op = OBSERVED_APPLIED) then None
                        else Some ("not written on this start: " +:+ state_name (state op)
                                   +:+ (if given (reason op) then " " +:+ default "" (reason op) else "")));
          mret false
      | None => _ ← wait_for None; mret (from_option truthy false (config s !! "pending"))
      end.

(** [tick()]: [raw] and [utc] are what the database and the wall clock give its snapshot, [mono] the reading of [_follow], [id] the new
    operation's identifier; the execution it begins, with how far it came *)
Definition tick (raw : result Raw) (utc : Z) (mono : Z) (clk : Clock) (id : string) : M Agent (option (progress RadioPlanIntent)) :=
  snap ← try_else (on_backend (b_snapshot raw utc)) (λ s, mret (Some s)) (λ _, mret None);
  a ← get;
  _ ← match latest a with Some op => settle clk op snap | None => mret tt end;
  match snap with
  | None => mret None
  | Some s =>
      _ ← (if ready s then follow_station mono s else mret tt);
      a ← get;
      wanted ← is_wanted (latest a) s;
      if wanted : bool then
        a ← get;
        op ← on_engine (request validate_operation vault scopes clk id (RadioPlan.intent (a_follow a)) SOURCE (default "" (a_key a)) run DEADLINE "semantic");
        if bool_decide (state op = REQUESTED)
        then p ← on_engine (start_execute validate_operation scopes clk (operation_id op)); mret (Some p)
        else mret None
      else mret None
  end.
End Agent.

(** * Theory *)

(** ** Keys of writes *)

(** Text without a hash sign is not split. *)
Lemma rpartition_hash_right s t : rpartition_hash t = None → rpartition_hash (s +:+ t) = (λ bn, (bn.1, bn.2 +:+ t)) <$> rpartition_hash s.
Proof.
  intros Ht. induction s as [|c s IH]; [by cbn|]. change (String c s +:+ t) with (String c (s +:+ t)). cbn [rpartition_hash]. rewrite IH.
  destruct (rpartition_hash s) as [[base n]|]; [done|]. cbn. by case_bool_decide.
Qed.

Lemma digits_value_colon acc s t : digits_value acc (s +:+ ":" +:+ t) = None.
Proof.
  revert acc. induction s as [|c s IH]; intros acc; [done|]. change (digits_value acc (String c (s +:+ ":" +:+ t)) = None). cbn [digits_value].
  destruct (digit c); [apply IH|done].
Qed.

(** The key of a first write is its tag. *)
Lemma split_tag s f : rpartition_hash f = None → split_key ((s +:+ ":radio-plan:") +:+ f) = ((s +:+ ":radio-plan:") +:+ f, 0%N).
Proof.
  intros Hf. unfold split_key. rewrite rpartition_hash_right by done. rewrite rpartition_hash_right by done.
  destruct (rpartition_hash s) as [[base n]|]; [|done]. cbn.
  assert (parse_digits ((n +:+ ":radio-plan:") +:+ f) = None) as ->; [|done].
  unfold parse_digits. case_bool_decide; [done|]. rewrite append_assoc. apply (digits_value_colon 0 n ("radio-plan:" +:+ f)).
Qed.

Lemma prefix_app p q : String.prefix p (p +:+ q) = true.
Proof. induction p as [|c p IH]; [by destruct q|]. change (String.prefix (String c p) (String c (p +:+ q)) = true). cbn. by destruct (Ascii.ascii_dec c c). Qed.

Section Keys.
Context (pod : string).

(** The latest key of the start, of the keys in the journal's order. *)
Definition latest_key (prefix : string) (keys : list (string * string * string)) : option string :=
  snd ∘ snd <$> list_find (λ k, k.1.1 = SOURCE ∧ k.1.2 = pod ∧ String.prefix prefix k.2 = true) (reverse keys).

Lemma start_latest_key prefix (s : Store RadioPlanIntent) :
  idempotency_key <$> start_latest SOURCE pod prefix s = latest_key prefix (op_key <$> rows s).
Proof.
  unfold start_latest, latest_key. rewrite <- fmap_reverse, list_find_fmap. unfold compose, op_key. cbn.
  destruct (list_find _ (reverse (rows s))) as [[? ?]|]; done.
Qed.

Lemma latest_key_last prefix l q : latest_key prefix (l ++ [(SOURCE, pod, prefix +:+ q)]) = Some (prefix +:+ q).
Proof.
  unfold latest_key. rewrite reverse_app. cbn. rewrite decide_True; [done|]. cbn. by rewrite prefix_app.
Qed.

(** What a scope asks: nothing when the latest key stands for the plan, else a key that does. *)
Lemma start_write_keys prefix f (s : Store RadioPlanIntent) :
  rpartition_hash (prefix +:+ f) = None ∨ split_key (prefix +:+ f) = (prefix +:+ f, 0%N) →
  match start_write (start_latest SOURCE pod prefix s) (prefix +:+ f) None with
  | (Some _, _) => True
  | (None, key) => (∃ q, key = Some (prefix +:+ q) ∧ (split_key (prefix +:+ q)).1 = prefix +:+ f)
                   ∧ ∀ k, latest_key prefix (op_key <$> rows s) = Some k → (split_key k).1 ≠ prefix +:+ f
  end.
Proof.
  intros Ht. rewrite <- start_latest_key. destruct (start_latest SOURCE pod prefix s) as [o|]; cbn.
  - destruct (split_key (idempotency_key o)) as [base n] eqn:E. case_bool_decide as Hb; [done|]. split.
    + exists (f +:+ "#" +:+ pretty (n + 1)%N). split; [by rewrite append_assoc|]. by rewrite <- append_assoc, split_key_numbered.
    + intros k [= <-]. by rewrite E.
  - split; [|done]. exists f. split; [done|]. destruct Ht as [Ht| ->]; [|done]. unfold split_key. by rewrite Ht.
Qed.
End Keys.

(** ** The agent and its journal *)

Section Journal.
Context `{Outside}.
Context (validate_operation : Op → result unit) `{!OperationSchema validate_operation} (vault : Vault).
Context (pod run : string).
Abbreviation scopes := (scopes pod).
Abbreviation engine_fine := (engine_ok validate_operation scopes None).
Abbreviation world_fine := (world_ok validate_operation scopes).

(** What a call does to the engine, the scope and the follow kept. *)
Definition engine_only (Q : Engine RadioPlanIntent → Engine RadioPlanIntent → Prop) {A} (m : M Agent A) (a : Agent) : Prop :=
  Q (a_engine a) (a_engine (m a).2) ∧ a_backend (m a).2 = a_backend a ∧ a_follow (m a).2 = a_follow a.

Lemma engine_only_get Q {A} (k : Agent → M Agent A) a : engine_only Q (k a) a → engine_only Q (get ≫= k) a.
Proof. done. Qed.
Lemma engine_only_lift Q {A B} (r : result A) (k : A → M Agent B) a :
  Q (a_engine a) (a_engine a) → (∀ x, r = Ok x → engine_only Q (k x) a) → engine_only Q (lift r ≫= k) a.
Proof. intros Hq Hk. destruct r as [x|err]; [by apply Hk|]. done. Qed.

(** The agent's own settling writes at most the row of that operation, along the lifecycle. *)
Section Settle.
Context (t : Z) (clk : Clock) (op : Op) (a : Agent).
Hypothesis Hok : engine_fine t (a_engine a).
Hypothesis Hop : op ∈ rows (store (a_engine a)).
Hypothesis Hst : state op = CONFIG_COMMITTED ∨ state op = INDETERMINATE.
Abbreviation writes := (edits validate_operation scopes (λ x, x = op)).

Lemma save_writes op' a' :
  a_backend a' = a_backend a → a_follow a' = a_follow a → quiet (a_engine a) (a_engine a') →
  identity op' = identity op → state op' ∈ TRANSITIONS (state op) → row_shape scopes op' →
  let a2 := ((on_engine (save_op validate_operation clk op' []) ≫= λ _, mret ()) a').2 in
  writes (a_engine a) (a_engine a2) ∧ a_backend a2 = a_backend a ∧ a_follow a2 = a_follow a.
Proof.
  intros Hb Hf Hq Hid Hm Hs'. cbv zeta.
  assert (Hed : writes (a_engine a) (save_op validate_operation clk op' [] (a_engine a')).2).
  { etrans; [by apply quiet_edits|]. destruct Hq as [_ Hq]. apply (save_op_edits _ _ _ _ op); [by rewrite Hq|done|done|by right; left|done]. }
  unfold mbind, M_mbind, on_engine. destruct (save_op _ clk op' [] (a_engine a')) as [[?|?] e']; cbn in *; done.
Qed.

Lemma op_shape : row_shape scopes op ∧ attempts op ≠ [].
Proof.
  destruct (row_of _ _ _ _ _ _ Hok Hop) as [_ Hs]. split; [done|]. apply (row_attempted _ _ Hs). destruct Hst as [-> | ->]; set_solver.
Qed.

Lemma mark_applied_writes s : engine_only writes (mark_applied validate_operation clk op s) a.
Proof.
  unfold mark_applied. apply engine_only_get. cbv zeta. apply engine_only_lift; [done|]. intros op' (-> & Hin & _ & _ & Hev & _)%transition_Ok.
  apply save_writes; [done..|]. destruct op_shape as [Hs Hatt]. destruct Hs. split; try done; [naive_solver| |set_solver].
  intros _. eexists. split; [done|]. destruct Hev as (? & ? & _); [done|]. split; [done|]. split; [done|]. by left.
Qed.

Lemma mark_late_writes : engine_only writes (mark_late validate_operation clk op) a.
Proof.
  unfold mark_late, engine_only. destruct (expired clk op (a_engine a)) as [r e1] eqn:Ee.
  assert (Hq : quiet (a_engine a) e1 ∧ ∃ b, r = Ok b) by (unfold expired in Ee; injection Ee as <- <-; split; [done|by eexists]).
  destruct Hq as [Hq [b ->]]. set (a1 := a <| a_engine := e1 |>).
  assert (on_engine (expired clk op) a = (Ok b, a1)) as Hrun by (unfold on_engine; by rewrite Ee).
  rewrite (M_bind_run _ _ _ _ _ Hrun). destruct b; [|split; [by apply quiet_edits|done]].
  set (op1 := op <| original_outcome := Some (state op) |> <| deadline_elapsed := true |>).
  unfold lift, mbind at 1 3 5, M_mbind at 1 3 5. fold op1.
  destruct (transition op1 TIMED_OUT ∅) as [op2|] eqn:Et; [|split; [by apply quiet_edits|done]].
  apply transition_Ok in Et as (-> & Hin & _). cbn in Hin.
  apply (save_writes (op1 <| state := TIMED_OUT |> <| reason := reason_of APPLY_TIMEOUT |>) a1); [done..|].
  destruct op_shape as [Hs Hatt]. destruct Hs. split; try done; [naive_solver|set_solver].
Qed.
End Settle.

Lemma settle_edits t clk op snap a :
  engine_fine t (a_engine a) → op ∈ rows (store (a_engine a)) →
  engine_only (edits validate_operation scopes (λ x, x = op)) (settle validate_operation vault clk op snap) a.
Proof.
  intros Hok Hop. unfold settle. destruct (bool_decide _) eqn:Hst; cbn [negb]; [|done]. apply bool_decide_eq_true in Hst.
  apply engine_only_lift; [done|]. intros target _. apply engine_only_get, engine_only_lift; [done|]. intros applied _.
  destruct snap as [s|], applied; [by eapply mark_applied_writes|by eapply mark_late_writes..].
Qed.

(** What is wanted is decided from the journal as it is. *)
Lemma is_wanted_run op s a r a' :
  is_wanted vault pod op s a = (r, a') →
  a_engine a' = a_engine a ∧ a_backend a' = a_backend a ∧ a_follow a' = a_follow a
  ∧ (r = Ok true → a_start_write vault pod a = (None, a_key a')).
Proof.
  unfold is_wanted, wait_for, mbind, M_mbind, get, modify, mret, M_mret. destruct (ready s); cbn [negb]; [|by intros [= <- <-]].
  destruct (owned_truth _); [by intros [= <- <-]|]. destruct (from_option _ false op); [by intros [= <- <-]|].
  destruct (a_start_write vault pod a) as [[o|] key] eqn:E; by intros [= <- <-].
Qed.

(** The tasks of a tick that has ended or waits. *)
Definition under_way (r : result (option (progress RadioPlanIntent))) : list (Task RadioPlanIntent) :=
  match r with Ok (Some (Waits tk)) => [tk] | _ => [] end.

(** The rows keep their identities, or a wanted write is the last of them. *)
Definition asks (id : string) (a a' : Agent) : Prop :=
  identity <$> rows (store (a_engine a')) = identity <$> rows (store (a_engine a)) ∨
  ∃ rs (o : Op) k s0, identity <$> rows (store (a_engine a')) = identity <$> rs ++ [o] ∧ op_key o = (SOURCE, pod, k) ∧ operation_id o = id
    ∧ identity <$> rows s0 = identity <$> rows (store (a_engine a))
    ∧ start_write (start_latest SOURCE pod (prefix_of (a_backend a')) s0)
        (prefix_of (a_backend a') +:+ plan_print vault (RadioPlan.intent (a_follow a'))) None = (None, Some k).

(** The end of a tick, once a write is wanted. *)
Lemma write_run a0 a t clk id r a' :
  world_fine (mkWorld (a_engine a) [] t) → t ≤ monotonic clk → id ∉ operation_id <$> rows (store (a_engine a)) →
  identity <$> rows (store (a_engine a)) = identity <$> rows (store (a_engine a0)) →
  a_start_write vault pod a = (None, a_key a) →
  (op ← on_engine (request validate_operation vault scopes clk id (RadioPlan.intent (a_follow a)) SOURCE (default "" (a_key a)) run DEADLINE "semantic");
   if bool_decide (state op = REQUESTED)
   then p ← on_engine (start_execute validate_operation scopes clk (operation_id op)); mret (Some p)
   else mret None) a = (r, a') →
  world_fine (mkWorld (a_engine a') (under_way r) (monotonic clk)) ∧ asks id a0 a'.
Proof.
  intros Hw Ht Hid Hids Hkey. set (i := RadioPlan.intent (a_follow a)). set (key := default "" (a_key a)).
  assert (Ek : a_key a = Some key).
  { unfold key, a_start_write, start_write in *. destruct (start_latest _ _ _ _) as [o|]; [|by injection Hkey as <-].
    destruct (split_key _) as [base n]. case_bool_decide; [done|]. by injection Hkey as <-. }
  destruct (request_internal validate_operation vault scopes clk id i SOURCE key run DEADLINE "semantic" None (a_engine a)) as [rq e1] eqn:Eq.
  assert (Erun : on_engine (request validate_operation vault scopes clk id i SOURCE key run DEADLINE "semantic") a = (rq, a <| a_engine := e1 |>)).
  { unfold on_engine, request. rewrite (M_bind_run _ _ _ tt (a_engine a)) by done. by rewrite Eq. }
  pose proof (request_world _ vault _ _ clk id i SOURCE key run DEADLINE "semantic" None Hw Ht Hid) as [Hw1 _]; [apply not_elem_of_nil|].
  cbv zeta in Hw1. cbn [engine tasks now] in Hw1. rewrite Eq in Hw1. cbn [snd] in Hw1.
  assert (Hask : ∀ e', identity <$> rows (store e') = identity <$> rows (store e1) → asks id a0 (a <| a_engine := e' |>)).
  { intros e' He. unfold asks. cbn. rewrite He. pose proof (request_identities validate_operation vault scopes t clk id i SOURCE key run DEADLINE "semantic" None (a_engine a)) as Hq.
    cbv zeta in Hq. rewrite Eq in Hq. cbn [snd] in Hq. destruct Hq as [Hq|(Hp & l & fp & Hq)]; [apply Hw|done|done|left; congruence|right].
    eexists l, _, key, (store (a_engine a)). split; [exact Hq|]. split; [|split; [done|split; [done|by rewrite <- Ek]]].
    unfold op_key. cbn. f_equal. f_equal. unfold op_pod. cbn in *.
    destruct (decide (rpi_pod_id i = pod)) as [->|Hne]; [done|]. destruct Hp. unfold RadioPlanAgent.scopes. by rewrite lookup_singleton_ne. }
  unfold mbind, M_mbind. rewrite Erun. destruct rq as [op|err]; [|intros [= <- <-]; split; [done|by apply Hask]].
  case_bool_decide; [|intros [= <- <-]; split; [done|by apply Hask]].
  unfold on_engine. cbn. destruct (start_execute validate_operation scopes clk (operation_id op) e1) as [rx e2] eqn:Ex.
  destruct (execute_world _ _ _ clk (operation_id op) rx e2 Hw1) as [Hw2 _]; [cbn; lia|done|].
  pose proof (execute_identities _ _ _ clk (operation_id op) rx e2 Hw1 ltac:(cbn; lia) Ex) as Hx. cbn in Hx.
  destruct rx as [pr|err]; intros [= <- <-]; (split; [|by apply Hask]); cbn in *; [by destruct pr|done].
Qed.

(** The first part of a tick: the journal settled. *)
Lemma settled_run a t clk snap :
  world_fine (mkWorld (a_engine a) [] t) → t ≤ monotonic clk →
  let m := match latest a with Some op => settle validate_operation vault clk op snap | None => mret tt end in
  world_fine (mkWorld (a_engine (m a).2) [] (monotonic clk))
  ∧ identity <$> rows (store (a_engine (m a).2)) = identity <$> rows (store (a_engine a)).
Proof.
  intros Hw Ht. cbv zeta. pose proof (ok_engine _ _ _ Hw) as Hok. cbn in Hok.
  assert (Hed : ∃ P, edits validate_operation scopes P (a_engine a)
    (a_engine (match latest a with Some op => settle validate_operation vault clk op snap | None => mret tt end a).2)).
  { destruct (latest a) as [op|] eqn:El; [|exists (λ _, True); done]. eexists. eapply settle_edits; [exact Hok|].
    unfold latest in El. apply last_Some in El as [l El]. unfold operations in El. rewrite El. set_solver. }
  destruct Hed as [P Hed]. split; [|by apply (edits_identities _ _ _ _ _ (ok_store _ _ _ _ _ Hok) Hed)].
  apply (edits_world _ _ P _ _ _ Hw Ht Hed). by intros tk Htk%not_elem_of_nil.
Qed.

Lemma tick_run a t raw u mono clk id r a' :
  world_fine (mkWorld (a_engine a) [] t) → t ≤ monotonic clk → id ∉ operation_id <$> rows (store (a_engine a)) →
  tick validate_operation vault pod run raw u mono clk id a = (r, a') →
  world_fine (mkWorld (a_engine a') (under_way r) (monotonic clk)) ∧ asks id a a'.
Proof.
  intros Hw Ht Hid. unfold tick.
  assert (Hsnap : ∃ snap a1, (try_else (on_backend (b_snapshot raw u)) (λ s, mret (Some s)) (λ _, mret None)) a = (Ok snap, a1) ∧ a_engine a1 = a_engine a).
  { unfold try_else, on_backend. destruct (b_snapshot raw u (a_backend a)) as [[s|err] b]; by eexists _, _. }
  destruct Hsnap as (snap & a1 & Es & He1). rewrite (M_bind_run _ _ _ _ _ Es), (M_bind_run get _ a1 a1 a1 eq_refl). clear Es.
  rewrite <- He1 in Hw, Hid. destruct (settled_run a1 t clk snap Hw Ht) as [Hw2 Hi2].
  match goal with |- (?m ≫= _) a1 = _ → _ => destruct (m a1) as [[[]|err] a2] eqn:Em end; cbn [snd] in Hw2, Hi2.
  2:{ unfold mbind, M_mbind. rewrite Em. intros [= <- <-]. split; [done|]. left. by rewrite Hi2, He1. }
  rewrite (M_bind_run _ _ _ _ _ Em). destruct snap as [s|]; [|intros [= <- <-]; split; [done|]; left; by rewrite Hi2, He1].
  assert (Hf : ∃ a3, (if ready s then follow_station mono s else mret tt) a2 = (Ok tt, a3) ∧ a_engine a3 = a_engine a2) by (destruct (ready s); by eexists).
  destruct Hf as (a3 & Ef & He3). rewrite (M_bind_run _ _ _ _ _ Ef), (M_bind_run get _ a3 a3 a3 eq_refl). clear Ef.
  rewrite <- He3 in Hw2, Hi2. destruct (is_wanted vault pod (latest a3) s a3) as [rw a4] eqn:Ew.
  destruct (is_wanted_run _ _ _ _ _ Ew) as (He4 & Hb4 & Hf4 & Hkey). rewrite <- He4 in Hw2, Hi2.
  assert (Hsame : asks id a a4) by (left; by rewrite Hi2, He1).
  destruct rw as [[]|err]; [|unfold mbind, M_mbind; rewrite Ew; by intros [= <- <-]..].
  rewrite (M_bind_run _ _ _ _ _ Ew), (M_bind_run get _ a4 a4 a4 eq_refl).
  apply (write_run a a4 (monotonic clk)); [done|done| |by rewrite Hi2, He1|].
  - rewrite (identities_fmap operation_id _ _ identity_id Hi2). done.
  - specialize (Hkey eq_refl). unfold a_start_write in *. by rewrite He4, Hb4, Hf4.
Qed.

(** ** The agent's life: ticks, the answers its execution waits for, and restarts *)

Record Life := mkLife { l_agent : Agent; l_tasks : list (Task RadioPlanIntent); l_now : Z }.
Definition l_world (w : Life) : EngineSafety.World RadioPlanIntent := mkWorld (a_engine (l_agent w)) (l_tasks w) (l_now w).
Definition journal_keys (w : Life) : list (string * string * string) := op_key <$> rows (store (a_engine (l_agent w))).

(** A step while the pod is on the start [start] and the plan wanted is [print] at every tick; whether it enters an operation in the journal. *)
Inductive life_step (start print : string) : Life → bool → Life → Prop :=
  | life_tick a t raw u mono clk id r a' :
      t ≤ monotonic clk → id ∉ operation_id <$> rows (store (a_engine a)) →
      tick validate_operation vault pod run raw u mono clk id a = (r, a') →
      default "None" (b_instance (a_backend a')) = start → plan_print vault (RadioPlan.intent (a_follow a')) = print →
      life_step start print (mkLife a [] t) (bool_decide (id ∈ operation_id <$> rows (store (a_engine a')))) (mkLife a' (under_way r) (monotonic clk))
  | life_answer a tk t clk aid tid rep m r e :
      t ≤ monotonic clk → resume validate_operation vault scopes clk aid tid tk rep = Some m → m (a_engine a) = (r, e) →
      life_step start print (mkLife a [tk] t) false (mkLife (a <| a_engine := e |>) (continue r []) (monotonic clk))
  | life_restart a ts t clk pid b r a' :
      pid ≠ "" → Agent_init validate_operation clk b (new_process pid (store (a_engine a))) = (r, a') →
      life_step start print (mkLife a ts t) false (mkLife a' [] (monotonic clk)).

(** A run, with the number of operations entered. *)
Inductive life (start print : string) : Life → nat → Life → Prop :=
  | life_nil w : life start print w 0 w
  | life_cons w b w1 n w2 : life_step start print w b w1 → life start print w1 n w2 → life start print w ((if b then 1 else 0) + n) w2.

(** The latest key of the start stands for the plan. *)
Definition stands (start print : string) (w : Life) : Prop :=
  ∃ k, latest_key pod (start +:+ ":radio-plan:") (journal_keys w) = Some k ∧ (split_key k).1 = (start +:+ ":radio-plan:") +:+ print.

Lemma life_step_run start print w b w' :
  rpartition_hash print = None → world_fine (l_world w) → life_step start print w b w' →
  world_fine (l_world w') ∧ (b = true → stands start print w' ∧ ¬ stands start print w) ∧ (stands start print w → stands start print w').
Proof.
  intros Hp Hw Hs. destruct Hs as [a t raw u mono clk id r a' Ht Hid Et Hst Hpr|a tk t clk aid tid rep m r e Ht Em Er|a ts t clk pid b r a' Hpid Ei]; unfold l_world in *; cbn in *.
  - destruct (tick_run a t raw u mono clk id r a' Hw Ht Hid Et) as [Hw' Hask]. split; [done|].
    destruct Hask as [Hsame|(l & o & k & s0 & Hl & Hk & Hoid & Hs0 & Hsw)].
    + assert (Hkeys : journal_keys (mkLife a' (under_way r) (monotonic clk)) = journal_keys (mkLife a [] t)) by (by apply (identities_fmap op_key _ _ identity_key)).
      unfold stands. rewrite Hkeys. split; [|done]. intros Hin%bool_decide_eq_true. destruct Hid. by rewrite <- (identities_fmap operation_id _ _ identity_id Hsame).
    + assert (Hkeys : journal_keys (mkLife a [] t) = op_key <$> rows s0) by (symmetry; by apply (identities_fmap op_key _ _ identity_key)).
      pose proof (start_write_keys pod (start +:+ ":radio-plan:") print s0 (or_intror (split_tag start print Hp))) as Hkey.
      unfold prefix_of in Hsw. rewrite Hst, Hpr in Hsw. rewrite Hsw in Hkey. destruct Hkey as [(q & [= ->] & Hq) Hno].
      assert (Hnew : stands start print (mkLife a' (under_way r) (monotonic clk))).
      { eexists. split; [|exact Hq]. unfold journal_keys. cbn.
        rewrite (identities_fmap op_key _ _ identity_key Hl), fmap_app. cbn. rewrite Hk. apply latest_key_last. }
      split; [|done]. intros _. split; [done|]. intros (k & Hk1 & Hk2). rewrite Hkeys in Hk1. by apply (Hno k).
  - destruct (resume_world _ vault _ _ clk aid tid [] tk [] rep m r e Hw Ht eq_refl Em Er) as [Hw' _]. split; [done|]. split; [done|].
    pose proof (ok_tasks _ _ _ Hw) as [Htk _]%Forall_cons.
    pose proof (resume_identities validate_operation vault scopes t clk aid tid tk rep m (a_engine a) (ok_engine _ _ _ Hw) Htk Ht Em) as Hi.
    rewrite Er in Hi. unfold stands, journal_keys. cbn in *. by rewrite (identities_fmap op_key _ _ identity_key Hi).
  - destruct (restart_world _ _ _ clk pid Hw Hpid) as [Hw' _]. set (e := new_process pid (store (a_engine a))) in *. cbn in Hw'. fold e in Hw'.
    unfold Agent_init in Ei. destruct (recover validate_operation clk e) as [r0 e'] eqn:Er. injection Ei as <- <-. cbn in *.
    split; [done|]. split; [done|].
    assert (Hok : engine_fine (monotonic clk) e) by (destruct (ok_engine _ _ _ Hw); by split).
    pose proof (recover_edits _ _ _ _ clk e Hok) as Hed. rewrite Er in Hed. pose proof (edits_identities _ _ _ _ _ (ok_store _ _ _ _ _ Hok) Hed) as Hi.
    unfold stands, journal_keys. cbn in *. by rewrite (identities_fmap op_key _ _ identity_key Hi).
Qed.

Lemma life_run start print w n w' :
  rpartition_hash print = None → world_fine (l_world w) → life start print w n w' →
  world_fine (l_world w') ∧ (n ≤ 1)%nat ∧ (stands start print w → n = 0%nat).
Proof.
  intros Hp Hw Hl. revert Hw. induction Hl as [w|w b w1 n w2 Hs Hl IH]; intros Hw; [split; [done|lia]|].
  destruct (life_step_run _ _ _ _ _ Hp Hw Hs) as (Hw1 & Hb & Hst). destruct (IH Hw1) as (Hw2 & Hn & Hn0). split; [done|].
  destruct b; [|naive_solver]. destruct (Hb eq_refl) as [Hs1 Hs0]. split; [rewrite (Hn0 Hs1); lia|done].
Qed.
End Journal.

(** * Properties *)

(** C20: one operation per start and plan. Whatever the pod's database shows, whatever the clocks read, however its writes end and
    whenever its process is restarted on the journal, while the pod's OpenSync stays on one start and the plan wanted at
    each tick is one plan, the agent enters at most one operation in its journal - none when the start's latest write
    already stands for the plan. All along, its own settling of operations respects the engine's invariant: at most one
    operation is active, an applied one has fresh evidence, and the executions under way are those of the journal. The
    fingerprints of plans have no hash sign (they are hexadecimal). *)
Theorem one_write_per_plan `{Outside} (validate_operation : Op → result unit) `{!OperationSchema validate_operation} vault pod run start print w n w' :
  rpartition_hash print = None → world_ok validate_operation (scopes pod) (l_world w) →
  life validate_operation vault pod run start print w n w' →
  (n ≤ 1)%nat ∧ (stands pod start print w → n = 0%nat) ∧ world_ok validate_operation (scopes pod) (l_world w').
Proof. intros Hp Hw Hl. destruct (life_run _ _ _ _ _ _ _ _ _ Hp Hw Hl) as (? & ? & ?). done. Qed.

(** A wired pod of its vendor's seed: the first tick enters the write; the pod is found not ready when it is planned, which ends it; the second
    tick, though the plan is still pending, enters nothing. *)
Definition ex_outside : Outside := {| start_instance := λ _, Ok "s1"; neutral_key := λ _, Ok "secret" |}.
Definition ex_valid : Op → result unit := operation_contract (λ _, true).
Definition ex_raw : result Raw := Ok (mkRaw ex_pod true 1 1 "schema").
Definition ex_engine : Engine RadioPlanIntent := new_process "p" (mkStore "p" 100 100 [] ∅ ∅ ∅ ∅).
Definition ex_agent : Agent := mkAgent (mkRadioPlanBackend "pod" "SN1" ex_intent None None 0) ex_engine (mkFollow ex_intent None None None None 0 ex_intent) None None.
Definition ex_tick (id : string) (t : Z) (a : Agent) : result (option (progress RadioPlanIntent)) * Agent :=
  @tick ex_outside ex_valid ex_vault "pod" "run" ex_raw t t (ex_clock t) id a.
Definition ex_life (t : Z) (ra : result (option (progress RadioPlanIntent)) * Agent) : Life := mkLife ra.2 (under_way ra.1) t.
Definition ex_asked : Life := ex_life 1 (ex_tick "op-1" 1 ex_agent).
Definition ex_refused : Life :=
  match l_tasks ex_asked with
  | [tk] =>
      match resume ex_valid ex_vault (scopes "pod") (ex_clock 2) "a" "t" tk (RPlan (RaisedEmosa (mkEmosaError NOT_READY ""))) with
      | Some m => let '(r, e) := m (a_engine (l_agent ex_asked)) in mkLife (l_agent ex_asked <| a_engine := e |>) (continue r []) 2
      | None => ex_asked
      end
  | _ => ex_asked
  end.
Definition ex_again : Life := ex_life 3 (ex_tick "op-2" 3 (l_agent ex_refused)).

(** The plan is still pending. *)
Definition still_pending (a : Agent) : bool :=
  from_option (λ s, from_option truthy false (config s !! "pending")) false (b_last (a_backend a)).

Lemma ex_tick_step id t t' a b :
  t ≤ t' → id ∉ operation_id <$> rows (store (a_engine a)) →
  default "None" (b_instance (a_backend (ex_tick id t' a).2)) = "s1" →
  plan_print ex_vault (RadioPlan.intent (a_follow (ex_tick id t' a).2)) = plan_print ex_vault ex_intent →
  bool_decide (id ∈ operation_id <$> rows (store (a_engine (ex_tick id t' a).2))) = b →
  @life_step ex_outside ex_valid ex_vault "pod" "run" "s1" (plan_print ex_vault ex_intent) (mkLife a [] t) b (ex_life t' (ex_tick id t' a)).
Proof.
  intros Ht Hid Hs Hp <-. destruct (ex_tick id t' a) as [r a'] eqn:E.
  apply (life_tick ex_valid ex_vault "pod" "run" "s1" _ a t ex_raw t' t' (ex_clock t') id r a'); done.
Qed.

Lemma ex_lived : @life ex_outside ex_valid ex_vault "pod" "run" "s1" (plan_print ex_vault ex_intent) (mkLife ex_agent [] 0) 1 ex_again.
Proof.
  apply (life_cons _ _ _ _ _ _ _ true ex_asked 0 _); [|apply (life_cons _ _ _ _ _ _ _ false ex_refused 0 _); [|apply (life_cons _ _ _ _ _ _ _ false ex_again 0 _); [|constructor]]].
  - apply ex_tick_step; [later|apply (bool_decide_unpack _); vm_compute; exact Logic.I|vm_compute; reflexivity..].
  - assert (Ht : ∃ tk, l_tasks ex_asked = [tk] ∧ t_pc tk = PPlan) by (vm_compute; by eexists).
    destruct Ht as (tk & Ht & Hpc). unfold ex_refused. rewrite Ht. unfold resume. rewrite Hpc. cbn [fmap option_fmap option_map].
    destruct (finally _ _ _) as [r e] eqn:E.
    replace ex_asked with (mkLife (l_agent ex_asked) [tk] 1) at 1 by (rewrite <- Ht; vm_compute; reflexivity).
    eapply (life_answer _ _ _ _ _ _ (l_agent ex_asked) tk 1 (ex_clock 2) "a" "t" (RPlan (RaisedEmosa (mkEmosaError NOT_READY "")))); [later|unfold resume; rewrite Hpc; reflexivity|exact E].
  - assert (ex_refused = mkLife (l_agent ex_refused) [] 2) as -> by (vm_compute; reflexivity).
    apply ex_tick_step; [later|apply (bool_decide_unpack _); vm_compute; exact Logic.I|vm_compute; reflexivity..].
Qed.

Lemma one_write_per_plan_witness :
  still_pending (l_agent ex_again) = true ∧ length (rows (store (a_engine (l_agent ex_again)))) = 1%nat ∧ (1 ≤ 1)%nat ∧ world_ok ex_valid (scopes "pod") (l_world ex_again).
Proof.
  split; [vm_compute; reflexivity|]. split; [vm_compute; reflexivity|].
  assert (Hw : world_ok ex_valid (scopes "pod") (l_world (mkLife ex_agent [] 0))).
  { apply (reachable_ok ex_valid ex_vault (scopes "pod")). eexists. split; [|apply rtc_refl]. by exists "p", 100, 100, 0. }
  destruct (@one_write_per_plan ex_outside ex_valid _ ex_vault "pod" "run" "s1" (plan_print ex_vault ex_intent) (mkLife ex_agent [] 0) 1 ex_again
    ltac:(vm_compute; reflexivity) Hw ex_lived) as (Hn & _ & Hw'). done.
Defined.
