(* ===== verification/Capabilities.v ===== *)
(** * Declared radio capabilities: [src/emosa/capability_extensions.py], [_radio] of [src/emosa/radio_capabilities.py]

    The values a capability report has beyond what the pod shows, from an operator's profile: the profile's facts are checked against
    each other and against the observed radios, and become EasyMesh values. The profile is as its JSON schema
    ([radio-capabilities.schema.json]) types it. The descriptions and digests that go with a value are not modelled. *)

From stdpp Require Import sorting.
From S2P Require Import Prelude Bytes Payloads TopologyBindings Peers.

(** ** The profile and what is observed *)

(** A Python string, by its code points: surrogates, which JSON lets in, are among them. It is used where a string is encoded; the
    other strings are only compared, and are octets. *)
Definition pystr := list Z.

Inductive support (A : Type) := Unknown | Unsupported | Supported (a : A).
Arguments Unknown {A}. Arguments Unsupported {A}. Arguments Supported {A} a.

Record Ht := mkHt { h_tx : Z; h_rx : Z; short_gi_20 : bool; short_gi_40 : bool; ht40 : bool }.
Record Vht := mkVht {
  v_tx : Z; v_rx : Z; tx_mcs_codes : list Z; rx_mcs_codes : list Z;
  short_gi_80 : bool; short_gi_160 : bool; vht8080 : bool; vht160 : bool; v_su_beamformer : bool; v_mu_beamformer : bool }.
Record Technology := mkTechnology { t_radio_id : string; t_evidence_id : string; t_ht : support Ht; t_vht : support Vht; t_he : option bool }.
Record Limits := mkLimits { dl_mu_mimo_tx : Z; ul_mu_mimo_rx : Z; dl_ofdma_tx : Z; ul_ofdma_rx : Z }.
Record RoleFacts := mkRoleFacts { rf_role : string; rf_mcs : HESupportedMCS; features : string → bool; ap_user_limits : Limits }.
Record Wifi6Facts := mkWifi6Facts { w6_radio_id : string; w6_evidence_id : string; complete_role_inventory : bool; w6_roles : list RoleFacts }.
Record InventoryFacts := mkInventoryFacts {
  d_evidence_id : string; d_serial_number : pystr; d_software_version : pystr; d_execution_env : pystr;
  d_radios : list (string * pystr) (* radio, chipset vendor *) }.
Record RadioFacts := mkRadioFacts { f_radio_id : string; f_ruid : string; f_max_bss : Z; f_classes : list BasicOperatingClass }.
Record Profile := mkProfile {
  p_evidence : list (string * list string); (* identifier, covers *)
  p_radios : list RadioFacts;
  p_technology : option (list Technology);
  p_inventory : option InventoryFacts;
  p_wifi6 : option (list Wifi6Facts) }.

Record ObservedInterface := mkObservedInterface { oi_mode : string; oi_enabled : bool }.
Record ObservedRadio := mkObservedRadio {
  o_radio_id : string; o_ruid : string; o_enabled : bool; o_freq_band : option string; o_channel : option Z; o_interfaces : list ObservedInterface }.

(** ** How a builder ends: with a value, [Unavailable(reason)], an [EmosaError], a [UnicodeError], or another exception (a
    [StopIteration], a [ValueError] that is none) *)

Inductive outcome (A : Type) := Built (a : A) | Missing (why : string) | Refused | Unencodable | Crashed.
Arguments Built {A} a. Arguments Missing {A} why. Arguments Refused {A}. Arguments Unencodable {A}. Arguments Crashed {A}.
#[export] Instance outcome_mret : MRet outcome := λ A a, Built a.
#[export] Instance outcome_mbind : MBind outcome := λ A B f m,
  match m with Built a => f a | Missing r => Missing r | Refused => Refused | Unencodable => Unencodable | Crashed => Crashed end.
#[export] Instance outcome_fmap : FMap outcome := λ A B f m,
  match m with Built a => Built (f a) | Missing r => Missing r | Refused => Refused | Unencodable => Unencodable | Crashed => Crashed end.

(** [require(condition, reason)] *)
Definition demand (b : bool) (why : string) : outcome unit := if b then Built tt else Missing why.
(** [next(x for x in l if ...)] *)
Definition the_first {A} (f : A → bool) (l : list A) : outcome A := match filter (λ x, f x = true) l with x :: _ => Built x | [] => Crashed end.
(** [[f(x) for x in l]] *)
Fixpoint each {A B} (f : A → outcome B) (l : list A) : outcome (list B) :=
  match l with [] => Built [] | x :: l => y ← f x; ys ← each f l; Built (y :: ys) end.

(** [bytes.fromhex(ruid.replace(":", ""))] *)
Definition ruid_of (s : string) : outcome bytes := match fromhex (no_colons s) with Some b => Built b | None => Crashed end.

(** [_value(payload)]: its type and its octets *)
Definition value_of (p : Payload) : outcome (Z * bytes) := match encode_value p with Ok b => Built (kind p, b) | Raise _ => Refused end.

(** [_evidence(profile, identifier, scope)] *)
Definition has_evidence (p : Profile) (id scope : string) : outcome unit :=
  demand (existsb (λ e, bool_decide (e.1 = id) && bool_decide (scope ∈ e.2)) (p_evidence p)) "extension_evidence_scope_missing".

(** [_inventory(rows, observed)], of the identifiers *)
Definition same_radios (ids : list string) (observed : list ObservedRadio) : bool :=
  bool_decide (NoDup ids) && bool_decide ((list_to_set ids : gset string) = list_to_set (o_radio_id <$> observed)).
Definition inventory (ids : list string) (observed : list ObservedRadio) : outcome unit :=
  demand (same_radios ids observed) "extension_radio_inventory_mismatch".

(** [_streams(value, maximum)] *)
Definition streams (v maximum : Z) : outcome Z := _ ← demand (bool_decide (1 ≤ v ≤ maximum)) "invalid_stream_count"; Built (v - 1).

(** [_bits(facts, names)] *)
Definition bits (l : list (bool * Z)) : Z := foldr (λ fb acc, Z.shiftl (Z.b2z fb.1) fb.2 + acc) 0 l.

(** [max((n + 1 for n, c in enumerate(codes) if c != 3), default=0)] *)
Fixpoint highest (n : Z) (codes : list Z) : Z :=
  match codes with [] => 0 | c :: codes => Z.max (if bool_decide (c = 3) then 0 else n + 1) (highest (n + 1) codes) end.

Definition codes_valid (codes : list Z) : bool := bool_decide (length codes = 8%nat) && forallb (λ c, bool_decide (0 ≤ c ≤ 3)) codes.

(** [_mcs(codes, streams)] *)
Definition mcs_map (codes : list Z) (n : Z) : outcome Z :=
  _ ← demand (codes_valid codes) "invalid_vht_mcs_codes";
  _ ← demand (bool_decide (highest 0 codes = n)) "vht_mcs_stream_count_mismatch";
  Built (sum_codes 0 codes).

(** ** HT and VHT: [_technology] *)

Definition ht_value (ruid : bytes) (classes : list Z) (h : Ht) : outcome (Z * bytes) :=
  tx ← streams (h_tx h) 4;
  rx ← streams (h_rx h) 4;
  let flags := Z.lor (Z.lor (Z.shiftl tx 6) (Z.shiftl rx 4)) (bits [(short_gi_20 h, 3); (short_gi_40 h, 2); (ht40 h, 1)]) in
  _ ← demand (negb (short_gi_40 h) || ht40 h) "ht_width_flag_mismatch";
  _ ← demand (negb (ht40 h) || existsb (λ c, bool_decide (c ∈ [83; 84; 116; 117])) classes) "ht_width_class_missing";
  value_of (APHTCapabilities ruid flags).

Definition vht_value (ruid : bytes) (classes : list Z) (v : Vht) : outcome (Z * bytes) :=
  _ ← demand (bool_decide (128 ∈ classes)) "vht_80mhz_class_missing";
  _ ← demand (negb (vht160 v) && negb (vht8080 v)) "vht_wider_class_review_pending";
  tx ← streams (v_tx v) 8;
  rx ← streams (v_rx v) 8;
  let flags := Z.lor (Z.lor (Z.shiftl tx 5) (Z.shiftl rx 2)) (bits [(short_gi_80 v, 1); (short_gi_160 v, 0)]) in
  let features := bits [(vht8080 v, 7); (vht160 v, 6); (v_su_beamformer v, 5); (v_mu_beamformer v, 4)] in
  _ ← demand (negb (short_gi_160 v) || vht160 v || vht8080 v) "vht_width_flag_mismatch";
  t ← mcs_map (tx_mcs_codes v) (v_tx v);
  r ← mcs_map (rx_mcs_codes v) (v_rx v);
  value_of (APVHTCapabilities ruid t r flags features).

Definition is_known {A} (s : support A) : bool := match s with Unknown => false | _ => true end.
Definition when_supported {A B} (s : support A) (f : A → outcome B) : outcome (list B) :=
  match s with Supported a => b ← f a; Built [b] | _ => Built [] end.

(** One iteration of [_technology] *)
Definition technology_row (p : Profile) (observed : list ObservedRadio) (row : Technology) : outcome (list (Z * bytes)) :=
  _ ← has_evidence p (t_evidence_id row) "technology";
  basic ← the_first (λ r, bool_decide (f_radio_id r = t_radio_id row)) (p_radios p);
  let classes := operating_class <$> f_classes basic in
  radio ← the_first (λ r, bool_decide (o_radio_id r = t_radio_id row)) observed;
  ruid ← ruid_of (o_ruid radio);
  _ ← demand (is_known (t_ht row) && is_known (t_vht row) && bool_decide (is_Some (t_he row))) "technology_support_unknown";
  _ ← demand (bool_decide (t_he row = Some false)) "he_and_wifi6_mapping_pending";
  ht ← when_supported (t_ht row) (ht_value ruid classes);
  vht ← when_supported (t_vht row) (vht_value ruid classes);
  Built (ht ++ vht).

(** [_technology(profile, observed)] *)
Definition technology (p : Profile) (observed : list ObservedRadio) : outcome (list (Z * bytes)) :=
  match p_technology p with
  | None => Missing "technology_input_not_configured"
  | Some rows =>
      _ ← inventory (t_radio_id <$> rows) observed;
      values ← each (technology_row p observed) (sort_by t_radio_id rows);
      Built (concat values)
  end.

(** ** Wi-Fi 6: [_wifi6_role], [_wifi6] *)

Definition WIFI6_BEAMFORMING_BITS : list (string * Z) :=
  [("su_beamformer", 7); ("su_beamformee", 6); ("mu_beamformer", 5); ("beamformee_sts_le_80", 4); ("beamformee_sts_gt_80", 3);
   ("ul_mu_mimo", 2); ("ul_ofdma", 1); ("dl_ofdma", 0)].
Definition WIFI6_FEATURE_BITS : list (string * Z) :=
  [("rts", 7); ("mu_rts", 6); ("multi_bssid", 5); ("mu_edca", 4); ("twt_requester", 3); ("twt_responder", 2); ("spatial_reuse", 1);
   ("anticipated_channel_usage", 0)].
Definition named_bits (f : string → bool) (names : list (string * Z)) : Z := bits ((λ nb, (f nb.1, nb.2)) <$> names).

Definition limits_valid (l : Limits) : bool :=
  bool_decide (0 ≤ dl_mu_mimo_tx l ≤ 15) && bool_decide (0 ≤ ul_mu_mimo_rx l ≤ 15) && bool_decide (0 ≤ dl_ofdma_tx l ≤ 255)
  && bool_decide (0 ≤ ul_ofdma_rx l ≤ 255).

(** The limits of a station are zero; an AP's are positive exactly for the features it has. *)
Definition limits_match (role : string) (l : Limits) (f : string → bool) : outcome unit :=
  if bool_decide (role = "non_ap_sta") then
    demand (forallb (λ n, bool_decide (n = 0)) [dl_mu_mimo_tx l; ul_mu_mimo_rx l; dl_ofdma_tx l; ul_ofdma_rx l]) "wifi6_sta_ap_limits_not_zero"
  else
    demand (forallb (λ nf, Bool.eqb (bool_decide (0 < nf.1)) (f nf.2))
      [(dl_mu_mimo_tx l, "mu_beamformer"); (ul_mu_mimo_rx l, "ul_mu_mimo"); (dl_ofdma_tx l, "dl_ofdma"); (ul_ofdma_rx l, "ul_ofdma")])
      "wifi6_ap_limit_feature_mismatch".

Definition role_codes (codes : list Z) : outcome unit :=
  _ ← demand (codes_valid codes) "invalid_wifi6_mcs_codes";
  demand (existsb (λ c, negb (bool_decide (c = 3))) codes) "wifi6_direction_has_no_supported_nss".

(** [_wifi6_role(row)]; [{"ap": 0, "non_ap_sta": 1}[role]] *)
Definition role_number (role : string) : outcome Z :=
  if bool_decide (role = "ap") then Built 0 else if bool_decide (role = "non_ap_sta") then Built 1 else Crashed.
Definition wifi6_role (row : RoleFacts) : outcome Wifi6Role :=
  let m := rf_mcs row in
  let f := features row in
  let l := ap_user_limits row in
  _ ← demand (bool_decide (mhz160 m = None) && bool_decide (mhz80plus80 m = None)) "wifi6_wider_context_review_pending";
  _ ← role_codes (rx (up_to_80 m));
  _ ← role_codes (tx (up_to_80 m));
  let beamforming := named_bits f WIFI6_BEAMFORMING_BITS in
  let general := named_bits f WIFI6_FEATURE_BITS in
  _ ← demand (negb (f "beamformee_sts_gt_80")) "wifi6_width_feature_mismatch";
  _ ← demand (negb (f "spatial_reuse") && negb (f "anticipated_channel_usage")) "wifi6_adapter_feature_unimplemented";
  _ ← demand (limits_valid l) "invalid_wifi6_user_limit";
  _ ← limits_match (rf_role row) l f;
  role ← role_number (rf_role row);
  Built (mkWifi6Role role (mkHESupportedMCS (up_to_80 m) None None) beamforming
           (Z.lor (Z.shiftl (dl_mu_mimo_tx l) 4) (ul_mu_mimo_rx l)) (dl_ofdma_tx l) (ul_ofdma_rx l) general).

(** One iteration of [_wifi6] *)
Definition wifi6_row (p : Profile) (observed : list ObservedRadio) (row : Wifi6Facts) : outcome (Z * bytes) :=
  _ ← has_evidence p (w6_evidence_id row) "wifi6";
  _ ← demand (complete_role_inventory row) "wifi6_role_inventory_incomplete";
  let ids := rf_role <$> w6_roles row in
  _ ← demand (bool_decide (NoDup ids)) "wifi6_duplicate_role";
  radio ← the_first (λ r, bool_decide (o_radio_id r = w6_radio_id row)) observed;
  let modes := oi_mode <$> o_interfaces radio in
  _ ← demand (negb (bool_decide ("ap" ∈ modes)) || bool_decide ("ap" ∈ ids)) "wifi6_observed_ap_role_missing";
  _ ← demand (negb (bool_decide ("sta" ∈ modes)) || bool_decide ("non_ap_sta" ∈ ids)) "wifi6_observed_sta_role_missing";
  ruid ← ruid_of (o_ruid radio);
  roles ← each wifi6_role (sort_by rf_role (w6_roles row));
  value_of (APWifi6Capabilities ruid roles).

(** [_wifi6(profile, observed)] *)
Definition wifi6 (p : Profile) (observed : list ObservedRadio) : outcome (list (Z * bytes)) :=
  match p_technology p with
  | None => Missing "technology_input_not_configured"
  | Some tech =>
      _ ← inventory (t_radio_id <$> tech) observed;
      _ ← each (λ row, _ ← has_evidence p (t_evidence_id row) "technology"; demand (bool_decide (is_Some (t_he row))) "wifi6_he_support_unknown") tech;
      let he := t_radio_id <$> filter (λ r, t_he r = Some true) tech in
      match p_wifi6 p with
      | None => _ ← demand (bool_decide (he = [])) "wifi6_input_not_configured"; Built []
      | Some rows =>
          _ ← demand (bool_decide (NoDup (w6_radio_id <$> rows)) && bool_decide ((list_to_set (w6_radio_id <$> rows) : gset string) = list_to_set he))
                "wifi6_radio_inventory_mismatch";
          each (wifi6_row p observed) (sort_by w6_radio_id rows)
      end
  end.

(** ** Device inventory: [_text], [_device] *)

(** The octets of a code point; a surrogate has none. *)
Definition utf8_point (c : Z) : option bytes :=
  let tail n := Z.lor 0x80 (Z.land (Z.shiftr c n) 0x3F) in
  if bool_decide (0xD800 ≤ c ≤ 0xDFFF) then None
  else if bool_decide (c < 0x80) then Some [Z_to_byte c]
  else if bool_decide (c < 0x800) then Some (Z_to_byte <$> [Z.lor 0xC0 (Z.shiftr c 6); tail 0])
  else if bool_decide (c < 0x10000) then Some (Z_to_byte <$> [Z.lor 0xE0 (Z.shiftr c 12); tail 6; tail 0])
  else Some (Z_to_byte <$> [Z.lor 0xF0 (Z.shiftr c 18); tail 12; tail 6; tail 0]).
(** [value.encode("utf-8")] *)
Definition encode_utf8 (s : pystr) : option bytes := (λ l, concat l) <$> mapM utf8_point s.

(** [_text(value)] *)
Definition text (s : pystr) : outcome bytes :=
  raw ← match encode_utf8 s with Some raw => Built raw | None => Unencodable end;
  _ ← demand (bool_decide (1 ≤ len raw ≤ 64)) "inventory_string_octet_limit";
  Built raw.

Definition inventory_radio (vendors : list (string * pystr)) (r : ObservedRadio) : outcome InventoryRadio :=
  ruid ← ruid_of (o_ruid r);
  v ← the_first (λ i, bool_decide (i.1 = o_radio_id r)) vendors;
  t ← text v.2;
  Built (mkInventoryRadio ruid t).

(** [_device(profile, observed, node)]; [serial] and [firmware] are the node's *)
Definition device (p : Profile) (observed : list ObservedRadio) (serial firmware : option pystr) : outcome (list (Z * bytes)) :=
  match p_inventory p with
  | None => Missing "device_inventory_input_not_configured"
  | Some data =>
      _ ← has_evidence p (d_evidence_id data) "device_inventory";
      _ ← inventory (d_radios data).*1 observed;
      _ ← demand (bool_decide (Some (d_serial_number data) = serial)) "inventory_serial_mismatch";
      _ ← demand (bool_decide (Some (d_software_version data) = firmware)) "inventory_firmware_mismatch";
      radios ← each (inventory_radio (d_radios data)) (sort_by o_radio_id observed);
      s ← text (d_serial_number data);
      v ← text (d_software_version data);
      e ← text (d_execution_env data);
      x ← value_of (DeviceInventory s v e radios);
      Built [x]
  end.

(** ** [project(profile, observed, node)]: each part with its values or the reason it has none; [None] when an exception leaves *)

Inductive part := Ready (values : list (Z * bytes)) | Blocked (reason : string).
Definition part_of (o : outcome (list (Z * bytes))) : option part :=
  match o with Built v => Some (Ready v) | Missing r => Some (Blocked r) | Refused | Unencodable => Some (Blocked "invalid_extension_value") | Crashed => None end.
Definition project (p : Profile) (observed : list ObservedRadio) (serial firmware : option pystr) : option (part * part * part) :=
  t ← part_of (technology p observed);
  d ← part_of (device p observed serial firmware);
  w ← part_of (wifi6 p observed);
  Some (t, d, w).

(** ** Basic capabilities: [_radio] of [radio_capabilities.py] *)

Definition class_loop (op : BasicOperatingClass) : outcome (list (string * Z)) :=
  match GLOBAL_OPERATING_CLASSES (operating_class op) with
  | None => Missing "operating_class_not_audited"
  | Some (band, all_channels) =>
      _ ← demand (forallb (λ c, bool_decide (c ∈ all_channels)) (non_operable_channels op)) "non_operable_channel_outside_class";
      let channels := filter (λ c, c ∉ non_operable_channels op) all_channels in
      _ ← demand (negb (bool_decide (channels = []))) "supported_class_has_no_operable_channels";
      Built (if bool_decide (operating_class op ∈ CENTER_CHANNEL_CLASSES) then [] else (λ c, (band, c)) <$> channels)
  end.

Definition class_le (a b : BasicOperatingClass) : Prop := operating_class a ≤ operating_class b.
#[export] Instance class_le_dec : RelDecision class_le.
Proof. intros a b. unfold class_le. apply _. Defined.
Definition sort_classes (l : list BasicOperatingClass) : list BasicOperatingClass := merge_sort class_le l.
Definition sorted_channels (op : BasicOperatingClass) : BasicOperatingClass :=
  mkBasicOperatingClass (operating_class op) (max_eirp_dbm op) (merge_sort Z.le (non_operable_channels op)).

Definition basic_radio (facts : RadioFacts) (observed : ObservedRadio) : outcome (Z * bytes) :=
  _ ← demand (bool_decide (NoDup (operating_class <$> f_classes facts))) "duplicate_operating_class";
  capable ← each class_loop (sort_classes (f_classes facts));
  let active := len (filter (λ v, oi_mode v = "ap" ∧ oi_enabled v = true) (o_interfaces observed)) in
  _ ← demand (bool_decide (active ≤ f_max_bss facts)) "observed_bsses_exceed_claimed_capacity";
  _ ← demand (negb (o_enabled observed)
              || match o_freq_band observed, o_channel observed with
                 | Some b, Some c => bool_decide ((b, c) ∈ concat capable)
                 | _, _ => false
                 end) "observed_channel_not_supported_by_input";
  ruid ← ruid_of (f_ruid facts);
  value_of (APRadioBasicCapabilities ruid (f_max_bss facts) (sorted_channels <$> sort_classes (f_classes facts))).

(** * Theory *)

Lemma outcome_bind_Built {A B} (m : outcome A) (f : A → outcome B) b : m ≫= f = Built b ↔ ∃ a, m = Built a ∧ f a = Built b.
Proof. destruct m; cbn; naive_solver. Qed.
Lemma demand_Built b why u : demand b why = Built u ↔ b = true.
Proof. destruct b, u; cbn; naive_solver. Qed.
Lemma each_Built {A B} (f : A → outcome B) l ys : each f l = Built ys ↔ Forall2 (λ x y, f x = Built y) l ys.
Proof.
  revert ys. induction l as [|x l IH]; intros ys; cbn; [split; [by intros [= <-]|by inversion 1]|].
  rewrite outcome_bind_Built. setoid_rewrite outcome_bind_Built. setoid_rewrite IH. split.
  - intros (y & Hy & ys' & Hys & [= <-]). by constructor.
  - inversion 1; subst. eauto.
Qed.
Lemma the_first_Built {A} (f : A → bool) l x : the_first f l = Built x → x ∈ l ∧ f x = true.
Proof.
  unfold the_first. destruct (filter _ l) as [|y ys] eqn:E; [done|]. intros [= ->].
  assert (Hx : x ∈ filter (λ x, f x = true) l) by (rewrite E; by left). by apply list_elem_of_filter in Hx as [? ?].
Qed.
Lemma value_of_Built p k v : value_of p = Built (k, v) → k = kind p ∧ decode_value (kind p) v = Ok (received p).
Proof. unfold value_of. destruct (encode_value p) as [b|] eqn:E; [|done]. intros [= <- <-]. split; [done|]. by apply payload_read. Qed.
Lemma ruid_of_Built s b : ruid_of s = Built b ↔ fromhex (no_colons s) = Some b.
Proof. unfold ruid_of. destruct (fromhex _); naive_solver. Qed.

(** Invert a builder that built. *)
Ltac built H :=
  repeat (apply outcome_bind_Built in H; let x := fresh "x" in let Hx := fresh "Hx" in destruct H as (x & Hx & H);
          try (apply demand_Built in Hx; clear x)).

(** ** What the octets say *)

Definition ht_says (h : Ht) (flags : Z) : Prop :=
  Z.land (Z.shiftr flags 6) 3 = h_tx h - 1 ∧ Z.land (Z.shiftr flags 4) 3 = h_rx h - 1
  ∧ Z.testbit flags 3 = short_gi_20 h ∧ Z.testbit flags 2 = short_gi_40 h ∧ Z.testbit flags 1 = ht40 h ∧ Z.testbit flags 0 = false.

Definition vht_says (v : Vht) (t r flags feats : Z) : Prop :=
  codes_of t = tx_mcs_codes v ∧ codes_of r = rx_mcs_codes v
  ∧ Z.land (Z.shiftr flags 5) 7 = v_tx v - 1 ∧ Z.land (Z.shiftr flags 2) 7 = v_rx v - 1
  ∧ Z.testbit flags 1 = short_gi_80 v ∧ Z.testbit flags 0 = short_gi_160 v
  ∧ Z.testbit feats 7 = vht8080 v ∧ Z.testbit feats 6 = vht160 v ∧ Z.testbit feats 5 = v_su_beamformer v ∧ Z.testbit feats 4 = v_mu_beamformer v.

Definition role_says (f : RoleFacts) (r : Wifi6Role) : Prop :=
  (rf_role f = "ap" ∧ w_role r = 0 ∨ rf_role f = "non_ap_sta" ∧ w_role r = 1)
  ∧ up_to_80 (w_mcs r) = up_to_80 (rf_mcs f) ∧ mhz160 (rf_mcs f) = None ∧ mhz80plus80 (rf_mcs f) = None
  ∧ mhz160 (w_mcs r) = None ∧ mhz80plus80 (w_mcs r) = None
  ∧ (∀ nb, nb ∈ WIFI6_BEAMFORMING_BITS → Z.testbit (beamforming_flags r) nb.2 = features f nb.1)
  ∧ (∀ nb, nb ∈ WIFI6_FEATURE_BITS → Z.testbit (w_feature_flags r) nb.2 = features f nb.1)
  ∧ Z.shiftr (mu_mimo_users r) 4 = dl_mu_mimo_tx (ap_user_limits f) ∧ Z.land (mu_mimo_users r) 15 = ul_mu_mimo_rx (ap_user_limits f)
  ∧ max_dl_ofdma_tx r = dl_ofdma_tx (ap_user_limits f) ∧ max_ul_ofdma_rx r = ul_ofdma_rx (ap_user_limits f).

Lemma up_to_four x : 1 ≤ x ≤ 4 → x = 1 ∨ x = 2 ∨ x = 3 ∨ x = 4.
Proof. lia. Qed.
Lemma up_to_eight x : 1 ≤ x ≤ 8 → x = 1 ∨ x = 2 ∨ x = 3 ∨ x = 4 ∨ x = 5 ∨ x = 6 ∨ x = 7 ∨ x = 8.
Proof. lia. Qed.

Lemma ht_flags h : 1 ≤ h_tx h ≤ 4 → 1 ≤ h_rx h ≤ 4 →
  ht_says h (Z.lor (Z.lor (Z.shiftl (h_tx h - 1) 6) (Z.shiftl (h_rx h - 1) 4)) (bits [(short_gi_20 h, 3); (short_gi_40 h, 2); (ht40 h, 1)])).
Proof.
  intros Ht%up_to_four Hr%up_to_four. destruct h as [t r a b c]; cbn [h_tx h_rx short_gi_20 short_gi_40 ht40] in *. unfold ht_says. cbn [h_tx h_rx short_gi_20 short_gi_40 ht40].
  destruct Ht as [->|[->|[->| ->]]], Hr as [->|[->|[->| ->]]], a, b, c; vm_compute; done.
Qed.

Lemma streams_Built v m x : streams v m = Built x ↔ 1 ≤ v ≤ m ∧ x = v - 1.
Proof.
  unfold streams. rewrite outcome_bind_Built. split.
  - intros ([] & Hx%demand_Built%bool_decide_eq_true & [= <-]). done.
  - intros [Hx ->]. exists tt. split; [|done]. by apply demand_Built, bool_decide_eq_true.
Qed.

Lemma codes_valid_true codes : codes_valid codes = true → length codes = 8%nat ∧ Forall (λ c, 0 ≤ c ≤ 3) codes.
Proof.
  unfold codes_valid. intros [Hl%bool_decide_eq_true Ha]%andb_true_iff. split; [done|]. rewrite forallb_forall in Ha.
  apply Forall_forall. intros c Hc%list_elem_of_In. specialize (Ha c Hc). by apply bool_decide_eq_true in Ha.
Qed.

Lemma mcs_map_Built codes n m : mcs_map codes n = Built m → codes_of m = codes ∧ 0 ≤ m ≤ 65535.
Proof.
  unfold mcs_map. intros H. apply outcome_bind_Built in H as ([] & [Hl Ha]%demand_Built%codes_valid_true & H).
  apply outcome_bind_Built in H as (? & _ & [= <-]). rewrite sum_codes_base4, Z.mul_1_l by lia. split; [by apply codes_of_base4|].
  pose proof (base4_range codes Ha) as Hr. rewrite Hl in Hr. change (4 ^ Z.of_nat 8) with 65536 in Hr. lia.
Qed.

(** One requirement met. *)
Ltac met H := let Hx := fresh "Hx" in apply outcome_bind_Built in H as ([] & Hx%demand_Built & H).

Lemma ht_value_told ruid classes h k v :
  ht_value ruid classes h = Built (k, v) → k = 0x86 ∧ ∃ flags, decode_value 0x86 v = Ok (APHTCapabilities ruid flags) ∧ ht_says h flags.
Proof.
  unfold ht_value. intros H. apply outcome_bind_Built in H as (tx & [Ht ->]%streams_Built & H). apply outcome_bind_Built in H as (rx & [Hr ->]%streams_Built & H).
  cbv zeta in H. met H. met H. apply value_of_Built in H as [-> H]. split; [done|]. eexists. split; [exact H|]. by apply ht_flags.
Qed.

Lemma vht_stream_flags t r a b : 1 ≤ t ≤ 8 → 1 ≤ r ≤ 8 →
  let flags := Z.lor (Z.lor (Z.shiftl (t - 1) 5) (Z.shiftl (r - 1) 2)) (bits [(a, 1); (b, 0)]) in
  Z.land (Z.shiftr flags 5) 7 = t - 1 ∧ Z.land (Z.shiftr flags 2) 7 = r - 1 ∧ Z.testbit flags 1 = a ∧ Z.testbit flags 0 = b ∧ 0 ≤ flags ≤ 255.
Proof.
  intros Ht%up_to_eight Hr%up_to_eight. cbv zeta.
  destruct Ht as [->|[->|[->|[->|[->|[->|[->| ->]]]]]]], Hr as [->|[->|[->|[->|[->|[->|[->| ->]]]]]]], a, b; vm_compute; repeat split; discriminate.
Qed.

Lemma vht_value_told ruid classes v k x :
  vht_value ruid classes v = Built (k, x) →
  k = 0x87 ∧ ∃ t r flags feats, decode_value 0x87 x = Ok (APVHTCapabilities ruid t r flags feats) ∧ vht_says v t r flags feats.
Proof.
  unfold vht_value. intros H. met H. met H. apply outcome_bind_Built in H as (tx & [Ht ->]%streams_Built & H).
  apply outcome_bind_Built in H as (rx & [Hr ->]%streams_Built & H). cbv zeta in H. met H.
  apply outcome_bind_Built in H as (t & [Ct _]%mcs_map_Built & H). apply outcome_bind_Built in H as (r & [Cr _]%mcs_map_Built & H).
  apply value_of_Built in H as [-> H]. split; [done|]. do 4 eexists. split; [exact H|].
  destruct (vht_stream_flags _ _ (short_gi_80 v) (short_gi_160 v) Ht Hr) as (? & ? & ? & ? & _). unfold vht_says.
  do 6 (split; [done|]). clear. destruct v as [? ? ? ? ? ? c d e f]. destruct c, d, e, f; vm_compute; done.
Qed.

(** ** Wi-Fi 6 roles *)

(** Eight flags are an octet, each read back at its place. *)
Lemma octet_bits a b c d e f g h :
  let z := bits [(a, 7); (b, 6); (c, 5); (d, 4); (e, 3); (f, 2); (g, 1); (h, 0)] in
  0 ≤ z ≤ 255 ∧ Z.testbit z 7 = a ∧ Z.testbit z 6 = b ∧ Z.testbit z 5 = c ∧ Z.testbit z 4 = d ∧ Z.testbit z 3 = e ∧ Z.testbit z 2 = f ∧ Z.testbit z 1 = g
  ∧ Z.testbit z 0 = h.
Proof. destruct a, b, c, d, e, f, g, h; vm_compute; repeat split; discriminate. Qed.

Lemma named_octet (f : string → bool) names :
  names.*2 = [7; 6; 5; 4; 3; 2; 1; 0] →
  0 ≤ named_bits f names ≤ 255 ∧ ∀ nb, nb ∈ names → Z.testbit (named_bits f names) nb.2 = f nb.1.
Proof.
  intros Hn. do 8 (destruct names as [|[? ?] names]; [done|]). destruct names; [|done]. cbn in Hn. injection Hn as -> -> -> -> -> -> -> ->.
  unfold named_bits. cbn [fmap list_fmap fst snd]. destruct (octet_bits (f s) (f s0) (f s1) (f s2) (f s3) (f s4) (f s5) (f s6)) as (H0 & H). split; [exact H0|].
  intros nb Hnb. rewrite !elem_of_cons, elem_of_nil in Hnb. naive_solver.
Qed.

Lemma limits_octet l : limits_valid l = true →
  let z := Z.lor (Z.shiftl (dl_mu_mimo_tx l) 4) (ul_mu_mimo_rx l) in
  Z.shiftr z 4 = dl_mu_mimo_tx l ∧ Z.land z 15 = ul_mu_mimo_rx l ∧ 0 ≤ z ≤ 255 ∧ 0 ≤ dl_ofdma_tx l ≤ 255 ∧ 0 ≤ ul_ofdma_rx l ≤ 255.
Proof.
  unfold limits_valid. rewrite !andb_true_iff, !bool_decide_eq_true. intros (((Hd & Hu) & Ho) & Ho'). cbv zeta.
  set (z := Z.lor _ _).
  assert (Hs : Z.shiftr z 4 = dl_mu_mimo_tx l).
  { unfold z. rewrite Z.shiftr_lor, Z.shiftr_shiftl_l by lia. change (4 - 4) with 0. rewrite Z.shiftl_0_r, (Z.shiftr_div_pow2 (ul_mu_mimo_rx l)) by lia.
    rewrite Z.div_small by lia. apply Z.lor_0_r. }
  assert (Hl : Z.land z 15 = ul_mu_mimo_rx l).
  { unfold z. change 15 with (Z.ones 4). rewrite Z.land_lor_distr_l, !Z.land_ones, Z.shiftl_mul_pow2, Z.mod_mul, Z.mod_small by lia. apply Z.lor_0_l. }
  split; [done|]. split; [done|]. split; [|done]. rewrite Z.shiftr_div_pow2 in Hs by lia. change 15 with (Z.ones 4) in Hl. rewrite Z.land_ones in Hl by lia.
  pose proof (Z.div_mod z (2 ^ 4)). lia.
Qed.

Lemma role_codes_Built codes u : role_codes codes = Built u → length codes = 8%nat ∧ Forall (λ c, 0 ≤ c ≤ 3) codes.
Proof. unfold role_codes. intros H. met H. by apply codes_valid_true. Qed.

(** A role that is built says its facts, and can be encoded. *)
Lemma wifi6_role_told f r : wifi6_role f = Built r →
  role_says f r ∧ (w_role r = 0 ∨ w_role r = 1) ∧ (∃ m, encode_he_mcs (w_mcs r) = Ok m ∧ length m = 4%nat)
  ∧ Forall (λ z, 0 ≤ z ≤ 255) [beamforming_flags r; mu_mimo_users r; max_dl_ofdma_tx r; max_ul_ofdma_rx r; w_feature_flags r].
Proof.
  unfold wifi6_role. cbv zeta. intros H. met H. apply andb_true_iff in Hx as [H1%bool_decide_eq_true H2%bool_decide_eq_true].
  apply outcome_bind_Built in H as (? & [Lr Fr]%role_codes_Built & H). apply outcome_bind_Built in H as (? & [Lt Ft]%role_codes_Built & H).
  met H. met H. met H. destruct (limits_octet _ Hx1) as (U1 & U2 & U3 & U4 & U5). apply outcome_bind_Built in H as (? & _ & H).
  apply outcome_bind_Built in H as (n & Hn & [= <-]). destruct (named_octet (features f) WIFI6_BEAMFORMING_BITS eq_refl) as [B1 B2].
  destruct (named_octet (features f) WIFI6_FEATURE_BITS eq_refl) as [G1 G2].
  assert (Hrole : rf_role f = "ap" ∧ n = 0 ∨ rf_role f = "non_ap_sta" ∧ n = 1) by (unfold role_number in Hn; repeat case_bool_decide; naive_solver).
  assert (Hm : ∀ codes, length codes = 8%nat → Forall (λ c, 0 ≤ c ≤ 3) codes → map_bytes codes = Ok (le_bytes 2 (sum_codes 0 codes))).
  { intros codes Hl Ha. unfold map_bytes. rewrite bool_decide_eq_true_2 by done. cbn. destruct (existsb _ codes) eqn:E; [|done].
    apply existsb_exists in E as (c & Hc%list_elem_of_In & Hb%negb_true_iff%bool_decide_eq_false). rewrite Forall_forall in Ha. by destruct (Hb (Ha c Hc)). }
  split; [|split; [cbn; naive_solver|split]].
  - unfold role_says. cbn. done.
  - unfold encode_he_mcs. cbn. rewrite (Hm _ Lr Fr), (Hm _ Lt Ft). cbn. eexists. split; [done|]. done.
  - cbn. by rewrite !Forall_cons, Forall_nil.
Qed.

(** ** What is told of each row *)

Section Told.
Context (observed : list ObservedRadio).

(** The identifier of an observed radio, as octets. *)
Definition radio_octets (id : string) (ruid : bytes) : Prop :=
  ∃ r, r ∈ observed ∧ o_radio_id r = id ∧ fromhex (no_colons (o_ruid r)) = Some ruid.

Definition told_technology (row : Technology) (values : list (Z * bytes)) : Prop :=
  t_he row = Some false ∧ ∃ ruid ht vht, radio_octets (t_radio_id row) ruid ∧ values = ht ++ vht
  ∧ match t_ht row with
    | Unknown => False
    | Unsupported => ht = []
    | Supported h => ∃ v flags, ht = [(0x86, v)] ∧ decode_value 0x86 v = Ok (APHTCapabilities ruid flags) ∧ ht_says h flags
    end
  ∧ match t_vht row with
    | Unknown => False
    | Unsupported => vht = []
    | Supported x => ∃ v t r flags feats, vht = [(0x87, v)] ∧ decode_value 0x87 v = Ok (APVHTCapabilities ruid t r flags feats) ∧ vht_says x t r flags feats
    end.

Definition told_wifi6 (row : Wifi6Facts) (value : Z * bytes) : Prop :=
  ∃ ruid roles, radio_octets (w6_radio_id row) ruid ∧ value.1 = 0xAA ∧ decode_value 0xAA value.2 = Ok (APWifi6Capabilities ruid roles)
    ∧ Forall2 role_says (sort_by rf_role (w6_roles row)) roles.

Definition told_radio (vendors : list (string * pystr)) (r : ObservedRadio) (i : InventoryRadio) : Prop :=
  fromhex (no_colons (o_ruid r)) = Some (ir_ruid i) ∧ ∃ v, (o_radio_id r, v) ∈ vendors ∧ encode_utf8 v = Some (chipset_vendor i).

Lemma found_radio id x : the_first (λ r, bool_decide (o_radio_id r = id)) observed = Built x → ∀ ruid, ruid_of (o_ruid x) = Built ruid → radio_octets id ruid.
Proof. intros [Hx Hid%bool_decide_eq_true]%the_first_Built ruid Hr%ruid_of_Built. by exists x. Qed.

Lemma technology_row_told p row values : technology_row p observed row = Built values → told_technology row values.
Proof.
  unfold technology_row. intros H. apply outcome_bind_Built in H as (? & _ & H). apply outcome_bind_Built in H as (basic & _ & H). cbv zeta in H.
  apply outcome_bind_Built in H as (radio & Hr & H). apply outcome_bind_Built in H as (ruid & Hru & H). met H. met H.
  apply outcome_bind_Built in H as (ht & Hh & H). apply outcome_bind_Built in H as (vht & Hv & [= <-]).
  apply andb_true_iff in Hx as [[Kh Kv]%andb_true_iff _]. apply bool_decide_eq_true in Hx0. split; [done|]. exists ruid, ht, vht.
  split; [by eapply found_radio|]. split; [done|]. split.
  - destruct (t_ht row) as [| |h]; [done|by injection Hh as <-|]. cbn in Hh. apply outcome_bind_Built in Hh as ([k v] & Hv' & [= <-]).
    apply ht_value_told in Hv' as (-> & flags & ? & ?). by exists v, flags.
  - destruct (t_vht row) as [| |vh]; [done|by injection Hv as <-|]. cbn in Hv. apply outcome_bind_Built in Hv as ([k v] & Hv' & [= <-]).
    apply vht_value_told in Hv' as (-> & t & r & flags & feats & ? & ?). by exists v, t, r, flags, feats.
Qed.

Lemma wifi6_row_told p row value : wifi6_row p observed row = Built value → told_wifi6 row value.
Proof.
  unfold wifi6_row. intros H. apply outcome_bind_Built in H as (? & _ & H). met H. cbv zeta in H. met H.
  apply outcome_bind_Built in H as (radio & Hr & H). met H. met H. apply outcome_bind_Built in H as (ruid & Hru & H).
  apply outcome_bind_Built in H as (roles & Hro%each_Built & H). destruct value as [k v]. apply value_of_Built in H as [-> H].
  exists ruid, roles. split; [by eapply found_radio|]. split; [done|]. split; [exact H|].
  eapply Forall2_impl; [exact Hro|]. intros f r Hf. by apply wifi6_role_told.
Qed.

Lemma text_Built s b : text s = Built b → encode_utf8 s = Some b ∧ len b ≤ 64.
Proof.
  unfold text. destruct (encode_utf8 s) as [raw|]; [|done]. cbn [mbind outcome_mbind]. intros H. met H. injection H as <-.
  apply bool_decide_eq_true in Hx. split; [done|lia].
Qed.

Lemma inventory_radio_told vendors r i : inventory_radio vendors r = Built i → told_radio vendors r i.
Proof.
  unfold inventory_radio. intros H. apply outcome_bind_Built in H as (ruid & Hr%ruid_of_Built & H).
  apply outcome_bind_Built in H as ([n v] & [Hv Hn%bool_decide_eq_true]%the_first_Built & H). cbn in Hn. subst n.
  apply outcome_bind_Built in H as (t & [Ht _]%text_Built & [= <-]). split; [done|]. by exists v.
Qed.
End Told.

(** ** Nothing that passes its checks is refused by the encoder *)

Section Fine.
(** A string that has no encoding is met only if [Q]. *)
Variable Q : Prop.

Definition fine {A} (o : outcome A) : Prop :=
  match o with Built _ => True | Missing why => why ≠ "invalid_extension_value" | Unencodable => Q | Refused | Crashed => False end.

Lemma fine_bind {A B} (m : outcome A) (f : A → outcome B) : fine m → (∀ a, m = Built a → fine (f a)) → fine (m ≫= f).
Proof. destruct m; cbn; auto. Qed.
Lemma fine_demand b why : why ≠ "invalid_extension_value" → fine (demand b why).
Proof. by destruct b. Qed.
Lemma fine_each {A B} (f : A → outcome B) l : (∀ x, x ∈ l → fine (f x)) → fine (each f l).
Proof.
  induction l as [|x l IH]; intros Hl; [done|]. cbn. apply fine_bind; [apply Hl; by left|]. intros y _.
  apply fine_bind; [apply IH; intros; apply Hl; by right|done].
Qed.
Lemma fine_first {A} (f : A → bool) l x : x ∈ l → f x = true → fine (the_first f l).
Proof.
  intros Hx Hf. unfold the_first. destruct (filter _ l) eqn:E; [|done].
  assert (Hin : x ∈ filter (λ x, f x = true) l) by by apply list_elem_of_filter. rewrite E in Hin. by apply not_elem_of_nil in Hin.
Qed.
Lemma fine_value p b : encode_value p = Ok b → fine (value_of p).
Proof. unfold value_of. by intros ->. Qed.

Lemma fine_mcs codes n : fine (mcs_map codes n).
Proof. unfold mcs_map. by do 2 (apply fine_bind; [by apply fine_demand|intros _ _]). Qed.
Lemma fine_streams v m : fine (streams v m).
Proof. unfold streams. apply fine_bind; [by apply fine_demand|done]. Qed.
Lemma fine_codes codes : fine (role_codes codes).
Proof. unfold role_codes. apply fine_bind; [by apply fine_demand|intros _ _; by apply fine_demand]. Qed.

Lemma encode_small p b : encode_body p = Ok b → len b ≤ MAX_VALUE_BYTES → encode_value p = Ok b.
Proof. unfold encode_value. intros -> Hl. by apply bounded_Ok. Qed.

Lemma enc_octet_fits z : 0 ≤ z ≤ 255 → enc_octet z = Ok [Z_to_byte z].
Proof. intros. by apply enc_octet_Ok. Qed.

Lemma ht_value_fine ruid classes h : length ruid = 6%nat → fine (ht_value ruid classes h).
Proof.
  intros Hr. unfold ht_value. apply fine_bind; [apply fine_streams|]. intros tx [Ht ->]%streams_Built.
  apply fine_bind; [apply fine_streams|]. intros rx [Hx ->]%streams_Built. cbv zeta. do 2 (apply fine_bind; [by apply fine_demand|intros _ _]).
  set (flags := Z.lor _ _). assert (Hf : 0 ≤ flags ≤ 255 ∧ Z.land flags 1 = 0).
  { unfold flags. clear -Ht Hx. destruct h as [t r a b c]; cbn in *. apply up_to_four in Ht, Hx.
    destruct Ht as [->|[->|[->| ->]]], Hx as [->|[->|[->| ->]]], a, b, c; vm_compute; repeat split; discriminate. }
  destruct Hf as [Hf H1]. eapply fine_value, encode_small.
  - cbn. assert (enc_octets 6 ruid = Ok ruid) as -> by by apply enc_octets_Ok. rewrite (enc_octet_fits _ Hf), H1. cbn. reflexivity.
  - unfold len. rewrite length_app, Hr. cbn. done.
Qed.


Lemma vht_value_fine ruid classes v : length ruid = 6%nat → fine (vht_value ruid classes v).
Proof.
  intros Hr. unfold vht_value. do 2 (apply fine_bind; [by apply fine_demand|intros _ _]).
  apply fine_bind; [apply fine_streams|]. intros tx [Ht ->]%streams_Built. apply fine_bind; [apply fine_streams|]. intros rx [Hx ->]%streams_Built.
  cbv zeta. apply fine_bind; [by apply fine_demand|intros _ _]. apply fine_bind; [apply fine_mcs|]. intros t [_ Hmt]%mcs_map_Built.
  apply fine_bind; [apply fine_mcs|]. intros r [_ Hmr]%mcs_map_Built. destruct (vht_stream_flags _ _ (short_gi_80 v) (short_gi_160 v) Ht Hx) as (_ & _ & _ & _ & Hf).
  set (feats := bits [(vht8080 v, 7); _; _; _]). assert (Hg : 0 ≤ feats ≤ 255 ∧ Z.land feats 15 = 0).
  { unfold feats. clear. destruct v as [? ? ? ? ? ? c d e f]; cbn [vht8080 vht160 v_su_beamformer v_mu_beamformer]. 
    destruct c, d, e, f; vm_compute; intuition discriminate. }
  set (flags := Z.lor _ (bits [(short_gi_80 v, 1); _])) in *. clearbody flags feats. destruct Hg as [Hg H15]. eapply fine_value, encode_small.
  - cbn. assert (enc_octets 6 ruid = Ok ruid) as -> by by apply enc_octets_Ok. cbn.
    assert (enc_u16 t = Ok (be_bytes 2 t)) as -> by by apply enc_u16_Ok. assert (enc_u16 r = Ok (be_bytes 2 r)) as -> by by apply enc_u16_Ok. cbn.
    rewrite (enc_octet_fits _ Hf), (enc_octet_fits _ Hg), H15. cbn. reflexivity.
  - unfold len. rewrite !length_app, Hr. cbn. done.
Qed.

(** The encoding of a role takes ten octets. *)
Lemma role_encoded f r v : wifi6_role f = Built r → len v + 10 ≤ MAX_VALUE_BYTES → ∃ v', extend_wifi6_role v r = Ok v' ∧ len v' = len v + 10.
Proof.
  intros ((_ & _ & _ & _ & H1 & H2 & _) & Hr & (m & Hm & Lm) & Hb)%wifi6_role_told Hl. unfold extend_wifi6_role.
  rewrite !Forall_cons in Hb. destruct Hb as (B1 & B2 & B3 & B4 & B5 & _).
  assert (R1 : 0 ≤ w_role r ≤ 255) by lia. rewrite (enc_octet_fits _ R1), H1, H2, Hm. cbn [mbind result_mbind].
  rewrite (bool_decide_eq_true_2 (w_role r ∈ [0; 1])) by (destruct Hr as [-> | ->]; set_solver). cbn [negb refuse_if mbind result_mbind].
  assert (Hfl : 0 ≤ Z.lor (Z.lor (Z.lor (Z.shiftl (w_role r) 6) 0) 0) (len m) ≤ 255) by (unfold len; rewrite Lm; destruct Hr as [-> | ->]; vm_compute; split; discriminate).
  rewrite (enc_octet_fits _ Hfl). cbn [mbind result_mbind fold_result]. unfold extend_octet.
  rewrite (enc_octet_fits _ B1), (enc_octet_fits _ B2), (enc_octet_fits _ B3), (enc_octet_fits _ B4), (enc_octet_fits _ B5). cbn.
  eexists. split; [apply bounded_Ok; split; [reflexivity|]|]; unfold len in *; rewrite !length_app, Lm; cbn; lia.
Qed.

Lemma roles_encoded fs rs v :
  Forall2 (λ f r, wifi6_role f = Built r) fs rs → len v + 10 * len rs ≤ MAX_VALUE_BYTES →
  ∃ v', fold_result extend_wifi6_role v rs = Ok v' ∧ len v' = len v + 10 * len rs.
Proof.
  intros Hf. revert v. induction Hf as [|f r fs rs Hr Hf IH]; intros v Hl; [exists v; cbn in *; split; [done|unfold len; cbn; lia]|].
  unfold len in Hl |- *. cbn [length] in *. rewrite Nat2Z.inj_succ in *.
  destruct (role_encoded f r v Hr) as (v1 & E1 & L1); [unfold len; lia|]. unfold len in *.
  destruct (IH v1) as (v2 & E2 & L2); [unfold len; lia|]. exists v2. cbn. rewrite E1. cbn. unfold len in *. split; [done|lia].
Qed.

Lemma same_elements (l k : list string) : (list_to_set l : gset string) = list_to_set k → ∀ id, id ∈ l ↔ id ∈ k.
Proof. intros Hs id. rewrite <- (elem_of_list_to_set (C := gset string) id l), <- (elem_of_list_to_set (C := gset string) id k). by rewrite Hs. Qed.

(** What the schema and the basic gate have established of profile and radios. *)
Record profile_fits (p : Profile) (observed : list ObservedRadio) : Prop := {
  fits_ruid : ∀ r, r ∈ observed → ∃ b, fromhex (no_colons (o_ruid r)) = Some b ∧ length b = 6%nat;
  fits_basic : ∀ r, r ∈ observed → ∃ f, f ∈ p_radios p ∧ f_radio_id f = o_radio_id r;
  fits_count : (1 ≤ length observed ≤ 64)%nat;
  fits_roles : ∀ rows row f, p_wifi6 p = Some rows → row ∈ rows → f ∈ w6_roles row → rf_role f = "ap" ∨ rf_role f = "non_ap_sta"
}.

Section Total.
Context (p : Profile) (observed : list ObservedRadio).
Hypothesis Hfits : profile_fits p observed.

Lemma fine_radio id : id ∈ o_radio_id <$> observed → fine (the_first (λ r, bool_decide (o_radio_id r = id)) observed).
Proof. intros (r & -> & Hr)%list_elem_of_fmap. apply (fine_first _ _ r Hr). by apply bool_decide_eq_true. Qed.
Lemma radio_ruid id r : the_first (λ r, bool_decide (o_radio_id r = id)) observed = Built r → ∃ b, ruid_of (o_ruid r) = Built b ∧ length b = 6%nat.
Proof. intros [Hr _]%the_first_Built. destruct (fits_ruid _ _ Hfits r Hr) as (b & Hb & Hl). exists b. split; [by apply ruid_of_Built|done]. Qed.
Lemma inventory_Built ids u : inventory ids observed = Built u → ∀ id, id ∈ ids ↔ id ∈ o_radio_id <$> observed.
Proof. intros [_ Hs%bool_decide_eq_true]%demand_Built%andb_true_iff id. by apply same_elements. Qed.

Lemma technology_row_fine row : t_radio_id row ∈ o_radio_id <$> observed → fine (technology_row p observed row).
Proof.
  intros Hid. unfold technology_row. apply fine_bind; [by apply fine_demand|intros _ _]. apply fine_bind.
  { apply list_elem_of_fmap in Hid as (r & Hr & Hin). destruct (fits_basic _ _ Hfits r Hin) as (f & Hf & Heq). apply (fine_first _ _ f Hf). apply bool_decide_eq_true. congruence. }
  intros basic _. cbv zeta. apply fine_bind; [by apply fine_radio|]. intros radio Hr. destruct (radio_ruid _ _ Hr) as (ruid & -> & Hl). cbn [mbind outcome_mbind].
  do 2 (apply fine_bind; [by apply fine_demand|intros _ _]). apply fine_bind; [|intros ht _; apply fine_bind; [|done]].
  - destruct (t_ht row); [done|done|]. cbn. apply fine_bind; [by apply ht_value_fine|done].
  - destruct (t_vht row); [done|done|]. cbn. apply fine_bind; [by apply vht_value_fine|done].
Qed.

Lemma technology_fine : fine (technology p observed).
Proof.
  unfold technology. destruct (p_technology p) as [rows|]; [|done]. apply fine_bind; [by apply fine_demand|]. intros ? Hi.
  pose proof (inventory_Built _ _ Hi) as Hids. apply fine_bind; [|done]. apply fine_each. intros row Hrow%sort_by_elem. apply technology_row_fine, Hids. by apply list_elem_of_fmap_2.
Qed.

Lemma fine_role f : rf_role f = "ap" ∨ rf_role f = "non_ap_sta" → fine (wifi6_role f).
Proof.
  intros Hf. unfold wifi6_role. cbv zeta. apply fine_bind; [by apply fine_demand|intros _ _].
  do 2 (apply fine_bind; [apply fine_codes|intros _ _]). do 3 (apply fine_bind; [by apply fine_demand|intros _ _]).
  apply fine_bind; [unfold limits_match; case_bool_decide; by apply fine_demand|intros _ _]. apply fine_bind; [|done].
  unfold role_number. destruct Hf as [-> | ->]; done.
Qed.

Lemma wifi6_row_fine rows row : p_wifi6 p = Some rows → row ∈ rows → w6_radio_id row ∈ o_radio_id <$> observed → fine (wifi6_row p observed row).
Proof.
  intros Hrows Hrow Hid. unfold wifi6_row. apply fine_bind; [by apply fine_demand|intros _ _]. apply fine_bind; [by apply fine_demand|intros _ _]. cbv zeta.
  apply fine_bind; [by apply fine_demand|]. intros _ Hnd%demand_Built%bool_decide_eq_true. apply fine_bind; [by apply fine_radio|]. intros radio Hr.
  do 2 (apply fine_bind; [by apply fine_demand|intros _ _]). destruct (radio_ruid _ _ Hr) as (ruid & -> & Hl). cbn [mbind outcome_mbind].
  assert (Hroles : ∀ f, f ∈ sort_by rf_role (w6_roles row) → rf_role f = "ap" ∨ rf_role f = "non_ap_sta").
  { intros f Hf%sort_by_elem. by eapply (fits_roles _ _ Hfits). }
  apply fine_bind; [apply fine_each; intros f Hf; by apply fine_role, Hroles|]. intros roles Hro%each_Built.
  assert (Hn : len roles ≤ 2).
  { unfold len. rewrite <- (Forall2_length _ _ _ Hro).
    assert (Hp : sort_by rf_role (w6_roles row) ≡ₚ w6_roles row) by apply merge_sort_Permutation.
    assert (Hsub : rf_role <$> sort_by rf_role (w6_roles row) ⊆+ ["ap"; "non_ap_sta"]).
    { apply NoDup_submseteq; [by rewrite Hp|]. intros x (f & -> & Hf)%list_elem_of_fmap. destruct (Hroles f Hf) as [-> | ->]; set_solver. }
    apply submseteq_length in Hsub. rewrite length_fmap in Hsub. cbn in Hsub. lia. }
  destruct (roles_encoded _ _ (ruid ++ [Z_to_byte (len roles)]) Hro) as (v & Ev & Lv).
  { unfold len in *. rewrite length_app, Hl. cbn. unfold MAX_VALUE_BYTES. lia. }
  eapply fine_value, encode_small.
  - cbn. assert (enc_octets 6 ruid = Ok ruid) as -> by by apply enc_octets_Ok. cbn. assert (enc_count roles = Ok [Z_to_byte (len roles)]) as -> by (apply enc_count_Ok; split; [done|lia]).
    cbn. exact Ev.
  - rewrite Lv. unfold len in *. rewrite length_app, Hl. cbn. unfold MAX_VALUE_BYTES. lia.
Qed.

Lemma wifi6_fine : fine (wifi6 p observed).
Proof.
  unfold wifi6. destruct (p_technology p) as [tech|]; [|done]. apply fine_bind; [by apply fine_demand|]. intros ? Hi. pose proof (inventory_Built _ _ Hi) as Hids.
  apply fine_bind; [apply fine_each; intros row _; apply fine_bind; [by apply fine_demand|intros _ _; by apply fine_demand]|]. intros _ _. cbv zeta.
  destruct (p_wifi6 p) as [rows|] eqn:Er; [|apply fine_bind; [by apply fine_demand|done]]. apply fine_bind; [by apply fine_demand|]. intros _ [_ Hs%bool_decide_eq_true]%demand_Built%andb_true_iff.
  apply fine_each. intros row Hrow%sort_by_elem. apply (wifi6_row_fine rows); [done..|]. apply Hids.
  assert (H : w6_radio_id row ∈ (list_to_set (w6_radio_id <$> rows) : gset string)) by (apply elem_of_list_to_set; by apply list_elem_of_fmap_2).
  rewrite Hs, elem_of_list_to_set in H. apply list_elem_of_fmap in H as (t & -> & [_ Ht]%list_elem_of_filter). by apply list_elem_of_fmap_2.
Qed.

Lemma fine_text s : (encode_utf8 s = None → Q) → fine (text s).
Proof.
  intros Hs. unfold text. destruct (encode_utf8 s); [|by apply Hs]. cbn [mbind outcome_mbind]. apply fine_bind; [by apply fine_demand|done].
Qed.
Lemma inventory_string_fits b : len b ≤ 64 → enc_inventory_string b = Ok ([Z_to_byte (len b)] ++ b).
Proof.
  intros Hb. unfold enc_inventory_string. rewrite bool_decide_eq_false_2 by lia. rewrite enc_octet_fits by (unfold len in *; lia). done.
Qed.

(** A radio of the inventory takes at most 71 octets. *)
Lemma radios_encoded vendors rs irs v :
  Forall2 (λ r i, inventory_radio vendors r = Built i) rs irs → (∀ r, r ∈ rs → r ∈ observed) → len v + 71 * len irs ≤ MAX_VALUE_BYTES →
  ∃ v', fold_result extend_inventory_radio v irs = Ok v' ∧ len v' ≤ len v + 71 * len irs.
Proof.
  intros Hf. revert v. induction Hf as [|r i rs irs Hr Hf IH]; intros v Hin Hl; [exists v; cbn in *; split; [done|unfold len; cbn; lia]|].
  unfold inventory_radio in Hr. apply outcome_bind_Built in Hr as (ruid & Hru & Hr). apply outcome_bind_Built in Hr as (w & _ & Hr).
  apply outcome_bind_Built in Hr as (t & [_ Ht]%text_Built & [= <-]).
  assert (Lr : length ruid = 6%nat).
  { destruct (fits_ruid _ _ Hfits r) as (b & Hb & Lb); [apply Hin; by left|]. apply ruid_of_Built in Hru. congruence. }
  unfold len in *. cbn [length] in *. rewrite Nat2Z.inj_succ in *.
  assert (E1 : extend_inventory_radio v (mkInventoryRadio ruid t) = Ok (v ++ ruid ++ [Z_to_byte (len t)] ++ t)).
  { unfold extend_inventory_radio. cbn [ir_ruid chipset_vendor]. assert (enc_octets 6 ruid = Ok ruid) as -> by by apply enc_octets_Ok.
    cbn [mbind result_mbind]. rewrite (inventory_string_fits t Ht). cbn [mbind result_mbind]. apply bounded_Ok. split; [done|]. unfold len. rewrite !length_app, Lr. cbn [length]. lia. }
  destruct (IH (v ++ ruid ++ [Z_to_byte (len t)] ++ t)) as (v2 & E2 & L2).
  { intros r' Hr'. apply Hin. by right. }
  { unfold len. rewrite !length_app, Lr. cbn [length]. lia. }
  exists v2. cbn [fold_result]. rewrite E1. cbn [mbind result_mbind]. split; [done|]. unfold len in *. rewrite !length_app, Lr in L2. cbn [length] in L2. lia.
Qed.

(** The strings of the inventory. *)
Definition inventory_strings (data : InventoryFacts) : list pystr :=
  (d_radios data).*2 ++ [d_serial_number data; d_software_version data; d_execution_env data].

Lemma device_fine serial firmware :
  (∀ data x, p_inventory p = Some data → x ∈ inventory_strings data → encode_utf8 x = None → Q) → fine (device p observed serial firmware).
Proof.
  unfold device. destruct (p_inventory p) as [data|]; [|done]. intros HQ.
  assert (Htext : ∀ x, x ∈ inventory_strings data → fine (text x)) by (intros x Hx; apply fine_text; by eapply HQ). apply fine_bind; [by apply fine_demand|intros _ _]. apply fine_bind; [by apply fine_demand|].
  intros ? Hi. pose proof (inventory_Built _ _ Hi) as Hids. do 2 (apply fine_bind; [by apply fine_demand|intros _ _]).
  assert (Hsort : ∀ r, r ∈ sort_by o_radio_id observed → r ∈ observed) by (intros r Hr; by apply sort_by_elem in Hr).
  apply fine_bind.
  { apply fine_each. intros r Hr%Hsort. unfold inventory_radio. destruct (fits_ruid _ _ Hfits r Hr) as (b & Hb%ruid_of_Built & _). rewrite Hb. cbn [mbind outcome_mbind].
    apply fine_bind; [|intros v [Hv _]%the_first_Built; apply fine_bind; [apply Htext, elem_of_app; left; by apply list_elem_of_fmap_2|done]].
    assert (Hid : o_radio_id r ∈ (d_radios data).*1) by (apply Hids; by apply list_elem_of_fmap_2).
    apply list_elem_of_fmap in Hid as ([n v] & Hn & Hv). apply (fine_first _ _ (n, v) Hv). by apply bool_decide_eq_true. }
  intros radios Hra%each_Built. apply fine_bind; [apply Htext, elem_of_app; right; set_solver|]. intros s [_ Hs]%text_Built. apply fine_bind; [apply Htext, elem_of_app; right; set_solver|]. intros v [_ Hv]%text_Built.
  apply fine_bind; [apply Htext, elem_of_app; right; set_solver|]. intros e [_ He]%text_Built. apply fine_bind; [|done].
  assert (Hn : length radios = length observed).
  { rewrite <- (Forall2_length _ _ _ Hra). apply Permutation_length. apply merge_sort_Permutation. }
  pose proof (fits_count _ _ Hfits) as Hc.
  set (head := (([Z_to_byte (len s)] ++ s) ++ ([Z_to_byte (len v)] ++ v) ++ ([Z_to_byte (len e)] ++ e) ++ [Z_to_byte (len radios)])).
  assert (Lh : len head ≤ 196) by (unfold head, len in *; rewrite !length_app; cbn [length]; lia).
  destruct (radios_encoded _ _ _ head Hra Hsort) as (x & Ex & Lx); [unfold len in *; rewrite Hn; unfold MAX_VALUE_BYTES; lia|].
  eapply fine_value, encode_small.
  - cbn [encode_body]. rewrite (inventory_string_fits s Hs), (inventory_string_fits v Hv), (inventory_string_fits e He).
    cbn [mbind result_mbind]. assert (enc_count radios = Ok [Z_to_byte (len radios)]) as -> by (apply enc_count_Ok; split; [done|unfold len; rewrite Hn; lia]).
    cbn [mbind result_mbind]. rewrite bool_decide_eq_false_2 by lia. cbn [refuse_if]. exact Ex.
  - unfold len in *. rewrite Hn in Lx. unfold MAX_VALUE_BYTES. lia.
Qed.
End Total.
End Fine.

(** A part that is fine, with what makes it ready. *)
Lemma part_fine Q o : fine Q o → ∃ x, part_of o = Some x ∧ (x = Blocked "invalid_extension_value" → Q) ∧ ∀ vs, x = Ready vs → o = Built vs.
Proof. destruct o as [v|why| | |]; cbn; intros H; try done; eexists; (split; [done|]); split; congruence. Qed.

Lemma technology_told p observed vs : technology p observed = Built vs →
  ∃ rows ls, p_technology p = Some rows ∧ vs = concat ls ∧ Forall2 (told_technology observed) (sort_by t_radio_id rows) ls.
Proof.
  unfold technology. destruct (p_technology p) as [rows|]; [|done]. intros H. apply outcome_bind_Built in H as (? & _ & H).
  apply outcome_bind_Built in H as (ls & Hl%each_Built & [= <-]). exists rows, ls. split; [done|]. split; [done|].
  eapply Forall2_impl; [exact Hl|]. intros row l. apply technology_row_told.
Qed.

(** The rows of a ready Wi-Fi 6 part are those of the radios that declare HE. *)
Definition covers_he (tech : list Technology) (rows : list Wifi6Facts) : Prop :=
  ∀ id, id ∈ w6_radio_id <$> rows ↔ ∃ r, r ∈ tech ∧ t_radio_id r = id ∧ t_he r = Some true.

Lemma he_radios (tech : list Technology) (id : string) : id ∈ t_radio_id <$> filter (λ r, t_he r = Some true) tech ↔ ∃ r, r ∈ tech ∧ t_radio_id r = id ∧ t_he r = Some true.
Proof.
  rewrite list_elem_of_fmap. split.
  - intros (r & -> & [He Hr]%list_elem_of_filter). by exists r.
  - intros (r & Hr & <- & He). exists r. split; [done|]. by apply list_elem_of_filter.
Qed.

Lemma wifi6_told p observed vs : wifi6 p observed = Built vs →
  ∃ tech, p_technology p = Some tech ∧ covers_he tech (default [] (p_wifi6 p))
    ∧ Forall2 (told_wifi6 observed) (sort_by w6_radio_id (default [] (p_wifi6 p))) vs.
Proof.
  unfold wifi6. destruct (p_technology p) as [tech|]; [|done]. intros H. apply outcome_bind_Built in H as (? & _ & H). apply outcome_bind_Built in H as (? & _ & H).
  cbv zeta in H. exists tech. split; [done|]. destruct (p_wifi6 p) as [rows|]; apply outcome_bind_Built in H as (? & Hd%demand_Built & H); cbn [default from_option].
  - apply andb_true_iff in Hd as [_ Hs%bool_decide_eq_true]. split.
    + intros id. rewrite <- he_radios. by apply same_elements.
    + apply each_Built in H. eapply Forall2_impl; [exact H|]. intros row v. apply wifi6_row_told.
  - apply bool_decide_eq_true in Hd. injection H as <-. split; [|constructor]. intros id. rewrite <- he_radios, Hd. done.
Qed.

Lemma device_told p observed serial firmware vs : device p observed serial firmware = Built vs →
  ∃ data v sn sw env radios, p_inventory p = Some data ∧ vs = [(0xD4, v)] ∧ decode_value 0xD4 v = Ok (DeviceInventory sn sw env radios)
    ∧ encode_utf8 (d_serial_number data) = Some sn ∧ encode_utf8 (d_software_version data) = Some sw ∧ encode_utf8 (d_execution_env data) = Some env
    ∧ Forall2 (told_radio (d_radios data)) (sort_by o_radio_id observed) radios.
Proof.
  unfold device. destruct (p_inventory p) as [data|]; [|done]. intros H. apply outcome_bind_Built in H as (? & _ & H). apply outcome_bind_Built in H as (? & _ & H).
  met H. met H. apply outcome_bind_Built in H as (radios & Hr%each_Built & H).
  apply outcome_bind_Built in H as (sn & [Hsn _]%text_Built & H). apply outcome_bind_Built in H as (sw & [Hsw _]%text_Built & H).
  apply outcome_bind_Built in H as (env & [Henv _]%text_Built & H). apply outcome_bind_Built in H as ([k oct] & [-> Hoct]%value_of_Built & [= <-]).
  exists data, oct, sn, sw, env, radios. do 6 (split; [done|]).
  eapply Forall2_impl; [exact Hr|]. intros r i. apply inventory_radio_told.
Qed.

(** * Properties *)

(** C39: the declared capabilities are told as they are declared. When the profile fits the radios - what its schema and the gate before have
    established - no builder is refused by its encoder or leaves by another exception: each part is ready, or blocked for one of its named
    reasons; only the inventory can be blocked for an invalid value, and only when one of its strings has no UTF-8 encoding (a
    surrogate). The values of a ready part are octets that decode to what the profile says: for each radio, in the order of their
    identifiers, an HT and a VHT value exactly when it supports them (and it does not support HE), with its streams, MCS codes and
    features at their places; for each radio that declares HE, and no other, the roles with their MCS codes, features and limits; and one
    inventory, with the encodings of its strings, and every radio and its vendor. *)
Theorem extensions_told p observed serial firmware :
  profile_fits p observed →
  ∃ t d w, project p observed serial firmware = Some (t, d, w)
  ∧ t ≠ Blocked "invalid_extension_value" ∧ w ≠ Blocked "invalid_extension_value"
  ∧ (d = Blocked "invalid_extension_value" → ∃ data x, p_inventory p = Some data ∧ x ∈ inventory_strings data ∧ encode_utf8 x = None)
  ∧ (∀ vs, t = Ready vs → ∃ rows ls, p_technology p = Some rows ∧ vs = concat ls ∧ Forall2 (told_technology observed) (sort_by t_radio_id rows) ls)
  ∧ (∀ vs, w = Ready vs → ∃ tech, p_technology p = Some tech ∧ covers_he tech (default [] (p_wifi6 p))
       ∧ Forall2 (told_wifi6 observed) (sort_by w6_radio_id (default [] (p_wifi6 p))) vs)
  ∧ (∀ vs, d = Ready vs → ∃ data v sn sw env radios, p_inventory p = Some data ∧ vs = [(0xD4, v)]
       ∧ decode_value 0xD4 v = Ok (DeviceInventory sn sw env radios)
       ∧ encode_utf8 (d_serial_number data) = Some sn ∧ encode_utf8 (d_software_version data) = Some sw ∧ encode_utf8 (d_execution_env data) = Some env
       ∧ Forall2 (told_radio (d_radios data)) (sort_by o_radio_id observed) radios).
Proof.
  intros Hfits. destruct (part_fine _ _ (technology_fine False p observed Hfits)) as (t & Et & Nt & Ht).
  destruct (part_fine _ _ (device_fine (∃ data x, p_inventory p = Some data ∧ x ∈ inventory_strings data ∧ encode_utf8 x = None)
    p observed Hfits serial firmware ltac:(eauto))) as (d & Ed & Nd & Hd).
  destruct (part_fine _ _ (wifi6_fine False p observed Hfits)) as (w & Ew & Nw & Hw).
  exists t, d, w. split; [unfold project; by rewrite Et, Ed, Ew|]. do 3 (split; [done|]).
  split; [intros vs Hv; by apply technology_told, Ht|]. split; [intros vs Hv; by apply wifi6_told, Hw|intros vs Hv; by apply (device_told _ _ serial firmware), Hd].
Qed.

(** Two radios: one with HT and VHT, one with HE, whose AP role is declared. *)
Definition ex_features (n : string) : bool := bool_decide (n ∈ ["mu_beamformer"; "ul_ofdma"; "rts"]).
Definition ex_codes : list Z := [2; 2; 3; 3; 3; 3; 3; 3].
Definition ex_role : RoleFacts := mkRoleFacts "ap" (mkHESupportedMCS (mkHEMCSPair ex_codes ex_codes) None None) ex_features (mkLimits 4 0 0 8).
Definition ascii_text (s : string) : pystr := (λ b, Z.of_N (Byte.to_N b)) <$> String.list_byte_of_string s.
Definition ex_profile_in (env : pystr) (he : bool) : Profile :=
  mkProfile [("e", ["technology"; "wifi6"; "device_inventory"])]
    [mkRadioFacts "r1" "02:00:00:00:00:01" 4 [mkBasicOperatingClass 115 20 []; mkBasicOperatingClass 116 20 []; mkBasicOperatingClass 128 20 []];
     mkRadioFacts "r2" "02:00:00:00:00:02" 4 [mkBasicOperatingClass 81 20 []]]
    (Some [mkTechnology "r2" "e" Unsupported Unsupported (Some he);
           mkTechnology "r1" "e" (Supported (mkHt 2 3 true true true)) (Supported (mkVht 2 2 ex_codes ex_codes true false false false true false)) (Some false)])
    (Some (mkInventoryFacts "e" (ascii_text "SN1") (ascii_text "2.0") env [("r1", ascii_text "acme"); ("r2", ascii_text "acme")]))
    (Some (if he then [mkWifi6Facts "r2" "e" true [ex_role]] else [])).
Definition ex_profile : bool → Profile := ex_profile_in (ascii_text "OpenSync").
Definition ex_observed : list ObservedRadio :=
  [mkObservedRadio "r1" "02:00:00:00:00:01" true (Some "5G") (Some 36) [mkObservedInterface "ap" true];
   mkObservedRadio "r2" "02:00:00:00:00:02" true (Some "2.4G") (Some 6) [mkObservedInterface "ap" true]].

Lemma ex_fits env he : profile_fits (ex_profile_in env he) ex_observed.
Proof.
  split.
  - intros r Hr. unfold ex_observed in Hr. rewrite !elem_of_cons, elem_of_nil in Hr. destruct Hr as [->|[->|[]]]; eexists; split; vm_compute; reflexivity.
  - intros r Hr. unfold ex_observed in Hr. rewrite !elem_of_cons, elem_of_nil in Hr.
    destruct Hr as [->|[->|[]]]; [eexists; split; [left|reflexivity]|eexists; split; [right; left|reflexivity]].
  - cbn. lia.
  - intros rows row f [= <-] Hrow Hf. destruct he; cbn in Hrow; [|set_solver]. apply list_elem_of_singleton in Hrow as ->. cbn in Hf. apply list_elem_of_singleton in Hf as ->. by left.
Qed.

Lemma extensions_told_witness :
  ∃ vs ds ws, project (ex_profile false) ex_observed (Some (ascii_text "SN1")) (Some (ascii_text "2.0")) = Some (Ready vs, Ready ds, Ready ws) ∧ length vs = 2%nat ∧ length ds = 1%nat
    ∧ ∃ rows ls, p_technology (ex_profile false) = Some rows ∧ vs = concat ls ∧ Forall2 (told_technology ex_observed) (sort_by t_radio_id rows) ls.
Proof.
  destruct (extensions_told (ex_profile false) ex_observed (Some (ascii_text "SN1")) (Some (ascii_text "2.0")) (ex_fits _ false)) as (t & d & w & E & _ & _ & _ & Ht & _ & _).
  assert (Hshape : ∃ vs ds ws, project (ex_profile false) ex_observed (Some (ascii_text "SN1")) (Some (ascii_text "2.0")) = Some (Ready vs, Ready ds, Ready ws) ∧ length vs = 2%nat ∧ length ds = 1%nat)
    by (do 3 eexists; split; [vm_compute; reflexivity|split; reflexivity]).
  destruct Hshape as (vs & ds & ws & E' & L1 & L2). exists vs, ds, ws. rewrite E in E'. injection E' as -> -> ->. split; [done|]. split; [done|]. split; [done|]. by apply Ht.
Defined.

(** With HE the technology set is blocked, and the Wi-Fi 6 companion is ready. *)
Example he_told_by_companion :
  ∃ v ds, project (ex_profile true) ex_observed (Some (ascii_text "SN1")) (Some (ascii_text "2.0")) = Some (Blocked "he_and_wifi6_mapping_pending", Ready ds, Ready [(0xAA, v)]).
Proof. eexists _, _. vm_compute. reflexivity. Qed.

(** A surrogate in the inventory blocks that part, and no other. *)
Example surrogate_blocks_inventory :
  ∃ vs ws, project (ex_profile_in [0xD800] false) ex_observed (Some (ascii_text "SN1")) (Some (ascii_text "2.0"))
    = Some (Ready vs, Blocked "invalid_extension_value", Ready ws).
Proof. eexists _, _. vm_compute. reflexivity. Qed.

(** A radio's basic capabilities are told as declared, and fit what is observed: its enabled APs are within the declared number, and the channel
    it is on is an operable one of a declared class of its band. *)
Theorem basic_told facts observed k v :
  basic_radio facts observed = Built (k, v) →
  k = 0x85 ∧ ∃ ruid, fromhex (no_colons (f_ruid facts)) = Some ruid
  ∧ decode_value 0x85 v = Ok (APRadioBasicCapabilities ruid (f_max_bss facts) (sorted_channels <$> sort_classes (f_classes facts)))
  ∧ len (filter (λ i, oi_mode i = "ap" ∧ oi_enabled i = true) (o_interfaces observed)) ≤ f_max_bss facts
  ∧ (o_enabled observed = true → ∃ b c op chs, o_freq_band observed = Some b ∧ o_channel observed = Some c ∧ op ∈ f_classes facts
       ∧ GLOBAL_OPERATING_CLASSES (operating_class op) = Some (b, chs) ∧ c ∈ chs ∧ c ∉ non_operable_channels op).
Proof.
  unfold basic_radio. intros H. met H. apply outcome_bind_Built in H as (capable & Hc%each_Built & H). cbv zeta in H. met H. met H.
  apply outcome_bind_Built in H as (ruid & Hr%ruid_of_Built & H). apply value_of_Built in H as [-> H]. split; [done|]. exists ruid. split; [done|].
  split; [exact H|]. apply bool_decide_eq_true in Hx0. split; [done|]. intros He. rewrite He in Hx1. cbn in Hx1.
  destruct (o_freq_band observed) as [b|]; [|done]. destruct (o_channel observed) as [c|]; [|done]. apply bool_decide_eq_true in Hx1.
  apply list_elem_of_In, in_concat in Hx1 as (l & Hl%list_elem_of_In & Hbc%list_elem_of_In).
  apply list_elem_of_lookup in Hl as [n Hl]. destruct (Forall2_lookup_r _ _ _ _ _ Hc Hl) as (op & Hop%list_elem_of_lookup_2 & Hb).
  assert (Hin : op ∈ f_classes facts) by (unfold sort_classes in Hop; by rewrite merge_sort_Permutation in Hop).
  unfold class_loop in Hb. destruct (GLOBAL_OPERATING_CLASSES (operating_class op)) as [[band chs]|] eqn:Eg; [|done].
  met Hb. cbv zeta in Hb. met Hb. injection Hb as <-. destruct (bool_decide _) in Hbc; [by apply not_elem_of_nil in Hbc|].
  apply list_elem_of_fmap in Hbc as (c' & [= -> ->] & [Hno Hch]%list_elem_of_filter). by exists band, c', op, chs.
Qed.

Lemma basic_told_witness :
  ∃ v c op, o_channel (mkObservedRadio "r1" "02:00:00:00:00:01" true (Some "5G") (Some 36) []) = Some c
    ∧ op ∈ f_classes (mkRadioFacts "r1" "02:00:00:00:00:01" 4 [mkBasicOperatingClass 115 20 [40]])
    ∧ basic_radio (mkRadioFacts "r1" "02:00:00:00:00:01" 4 [mkBasicOperatingClass 115 20 [40]])
        (mkObservedRadio "r1" "02:00:00:00:00:01" true (Some "5G") (Some 36) []) = Built (0x85, v).
Proof.
  set (f := mkRadioFacts _ _ _ _). set (o := mkObservedRadio _ _ _ _ _ _).
  assert (E : ∃ v, basic_radio f o = Built (0x85, v)) by (eexists; vm_compute; reflexivity). destruct E as [v E].
  destruct (basic_told f o 0x85 v E) as (_ & ruid & _ & _ & _ & H). destruct (H eq_refl) as (b & c & op & chs & _ & Hc & Hop & _). by exists v, c, op.
Defined.
