(* ===== verification/EasymeshView.v ===== *)
(** * The pod as EasyMesh sees it: [src/emosa/opensync/easymesh_view.py]

    The translation of the pod's State tables: decoded rows become a view of the pod (device, radios, BSSs, stations), and a view becomes
    the contents of the reports an agent sends. Columns are typed as the qualified schema types them ([opensync.ovsschema]). Strings are
    their UTF-8 octets; ages and association times are in milliseconds. *)

From stdpp Require Import sorting.
From S2P Require Import Prelude Bytes Cmdu Payloads TopologyValues Reports TopologyBindings Peers Ovsdb.

(** ** Rows *)

Record NodeRow := mkNodeRow { n_serial : option string; n_id : option string; n_model : option string; n_firmware : option string }.
Record RadioRow := mkRadioRow {
  rr_mac : option string; rr_if_name : option string; rr_band : option string; rr_channel : option Z; rr_tx_power : option Z;
  rr_enabled : option bool; rr_vifs : list string }.
Record VifRow := mkVifRow {
  vr_if_name : string; vr_mac : option string; vr_mode : option string; vr_enabled : option bool; vr_ssid : option string;
  vr_multi_ap : option string; vr_wds : option bool; vr_parent : option string; vr_clients : list string }.
Record ClientRow := mkClientRow { cl_mac : string; cl_state : option string }.
Record Rows := mkRows {
  t_nodes : table NodeRow;
  t_radios : table RadioRow;
  t_vifs : table VifRow;
  t_clients : table ClientRow;
  t_radio_configs : table (option string * list string); (* if_name, vif_configs *)
  t_vif_configs : table (string * option string)         (* if_name, mode *) }.

(** ** Constants *)

Definition FRONTHAUL : string := "fronthaul".
Definition BACKHAUL : string := "backhaul".
Definition REPORT_FLAGS (role : string) : result Z :=
  if bool_decide (role = FRONTHAUL) then Ok 0x40 else if bool_decide (role = BACKHAUL) then Ok 0x80 else Raise (key_error role).

Definition OPERATING_CLASSES (band : string) : option (list (Z * list Z)) :=
  if bool_decide (band = "2.4G") then Some [(81, seqZ 1 13)]
  else if bool_decide (band = "5G") then
    Some [(115, [36; 40; 44; 48]); (124, [149; 153; 157; 161]); (125, [149; 153; 157; 161; 165; 169; 173; 177])]
  else None.

(** [operating_class(band, channel)]; [None] is in no tuple of channels *)
Definition class_of (band : string) (channel : option Z) : option Z :=
  list.last (fst <$> filter (λ c : Z * list Z, from_option (λ n, bool_decide (n ∈ c.2)) false channel = true) (default [] (OPERATING_CLASSES band))).

Definition IEEE_802_11N_24 : Z := 0x0103.
Definition MEDIA (band : string) : option Z :=
  if bool_decide (band = "2.4G") then Some IEEE_802_11N_24 else if bool_decide (band = "5G") then Some 0x0104 else None.
Definition AP_ROLE : Z := 0.
Definition STA_ROLE : Z := 0x40.

(** An exception of [bytes]: not hexadecimal, or not an octet. *)
Definition value_error (what : string) : EmosaError := mkEmosaError INVALID_INPUT ("ValueError: " +:+ what).

(** [mac(text)] *)
Definition mac_of (text : string) : result bytes :=
  match fromhex (no_colons text) with
  | None => Raise (value_error "non-hexadecimal number found in fromhex() arg")
  | Some b => if bool_decide (length b = 6%nat) then Ok b else invalid "not a MAC address"
  end.

(** [role(multi_ap, parent)] *)
Definition role_of (multi_ap : option string) (parent : bool) : string :=
  if parent || bool_decide (multi_ap = Some "backhaul_bss") then BACKHAUL else FRONTHAUL.

(** ** Views *)

Record BssView := mkBssView { b_if_name : string; bssid : bytes; b_ssid : string; b_role : string; stations : list bytes; b_vif : VifRow }.
Record UplinkView := mkUplinkView { u_if_name : string; u_mac : bytes; u_ssid : string; u_parent : option bytes; u_multi_ap : bool }.
Record BackhaulView := mkBackhaulView { bh_ruid : bytes; bh_band : string; bh_channel : Z; bh_station : UplinkView }.
Record RadioView := mkRadioView {
  rv_ruid : bytes; rv_if_name : string; rv_band : string; rv_channel : option Z; rv_tx_power : option Z; rv_enabled : bool;
  rv_bsses : list BssView; rv_uplinks : list UplinkView }.
Record DeviceView := mkDeviceView {
  dv_serial : string; dv_node_id : option string; dv_model : option string; dv_firmware : option string; dv_radios : list RadioView }.

(** [BssView.report_flags], [RadioView.bss(if_name)], [DeviceView.radio(ruid)] *)
Definition report_flags (b : BssView) : result Z := REPORT_FLAGS (b_role b).
Definition bss_named (name : string) (r : RadioView) : option BssView := head (filter (λ b, b_if_name b = name) (rv_bsses r)).
Definition radio_with (ruid : bytes) (d : DeviceView) : option RadioView := head (filter (λ r, rv_ruid r = ruid) (dv_radios d)).

(** The order of octet strings, as the order of the strings they spell. *)
Definition octet_key (b : bytes) : string := String.string_of_list_byte b.
Definition sort_octets (l : list bytes) : list bytes := sort_by octet_key l.

(** [x] of an optional string column that is not empty: [if x] *)
Definition given (s : option string) : option string := match s with Some EmptyString => None | _ => s end.

(** ** From rows to a view: [device_view] *)

(** The stations of an AP: its clients that are rows, and active. *)
Definition active_clients (clients : table ClientRow) (vif : VifRow) : list ClientRow :=
  filter (λ c, cl_state c = Some "active") (omap (λ u, row u clients) (vr_clients vif)).

Definition uplink_view (vif : VifRow) (m : string) : result UplinkView :=
  a ← mac_of m;
  p ← match given (vr_parent vif) with Some t => b ← mac_of t; Ok (Some b) | None => Ok None end;
  Ok (mkUplinkView (vr_if_name vif) a (default "" (vr_ssid vif)) p
        (bool_decide (vr_multi_ap vif = Some "backhaul_sta") && bool_decide (vr_wds vif = Some true))).

Definition bss_view (parent_aps : gset string) (clients : table ClientRow) (vif : VifRow) (m : string) : result BssView :=
  macs ← map_result (λ c, mac_of (cl_mac c)) (active_clients clients vif);
  a ← mac_of m;
  Ok (mkBssView (vr_if_name vif) a (default "" (vr_ssid vif)) (role_of (vr_multi_ap vif) (bool_decide (vr_if_name vif ∈ parent_aps)))
        (sort_octets macs) vif).

(** One interface of a radio: the body of the inner loop. *)
Definition add_vif (parent_aps : gset string) (clients : table ClientRow) (vifs : table VifRow)
    (acc : list BssView * list UplinkView) (u : string) : result (list BssView * list UplinkView) :=
  match row u vifs with
  | None => Ok acc
  | Some vif =>
      match given (vr_mac vif) with
      | Some m =>
          if negb (bool_decide (vr_enabled vif = Some true)) then Ok acc
          else if bool_decide (vr_mode vif = Some "sta") then v ← uplink_view vif m; Ok (acc.1, acc.2 ++ [v])
          else if bool_decide (vr_mode vif = Some "ap") then b ← bss_view parent_aps clients vif m; Ok (acc.1 ++ [b], acc.2)
          else Ok acc
      | None => Ok acc
      end
  end.

(** One radio: the body of the outer loop. *)
Definition radio_view (parent_aps : gset string) (rows : Rows) (radio : RadioRow) (m : string) : result RadioView :=
  bu ← fold_result (add_vif parent_aps (t_clients rows) (t_vifs rows)) ([], []) (rr_vifs radio);
  a ← mac_of m;
  Ok (mkRadioView a (default "" (rr_if_name radio)) (default "" (rr_band radio)) (rr_channel radio) (rr_tx_power radio)
        (bool_decide (rr_enabled radio = Some true)) (sort_by b_if_name bu.1) bu.2).

(** The radio rows that have a MAC address, with it. *)
Definition radios_with_mac (rows : Rows) : list (RadioRow * string) :=
  omap (λ kr, (λ m, (kr.2, m)) <$> given (rr_mac kr.2)) (t_radios rows).

Definition device_view (rows : Rows) (parent_aps : gset string) : result DeviceView :=
  match t_nodes rows with
  | [(_, node)] =>
      match given (n_serial node) with
      | Some serial =>
          radios ← map_result (λ rm, radio_view parent_aps rows rm.1 rm.2) (radios_with_mac rows);
          Ok (mkDeviceView serial (n_id node) (n_model node) (n_firmware node) (sort_by (λ r, octet_key (rv_ruid r)) radios))
      | None => Raise (mkEmosaError NOT_READY "pod identity absent")
      end
  | _ => Raise (mkEmosaError NOT_READY "pod identity absent")
  end.

(** ** Backhaul stations *)

(** A dictionary by [if_name]: of two rows with a name, the later. *)
Definition named_last {X} (name : X → option string) (n : option string) (t : table X) : option X :=
  snd <$> list.last (filter (λ kv, name kv.2 = n) t).

(** One radio of [backhaul_radios]: its entries, with the order they are sorted in. *)
Definition backhaul_entries (rows : Rows) (names : list string) (in_use : option string) (radio : option string * list string) :
    result (list (string * (bytes * option bytes))) :=
  match given (named_last rr_if_name radio.1 (t_radios rows) ≫= rr_mac) with
  | None => Ok []
  | Some ruid =>
      map_result (λ name,
        let sta := filter (λ kv : string * VifRow, vr_mode kv.2 = Some "sta") (t_vifs rows) in
        r ← mac_of ruid;
        s ← match given (named_last (λ v, Some (vr_if_name v)) (Some name) sta ≫= vr_mac) with
            | Some m => b ← mac_of m; Ok (Some b)
            | None => Ok None
            end;
        Ok ((if bool_decide (Some name = in_use) then "0" else "1") +:+ octet_key r, (r, s)))
        (omap (λ u, v ← row u (t_vif_configs rows);
                    if bool_decide (v.1 ∈ names) && bool_decide (v.2 = Some "sta") then Some v.1 else None) radio.2)
  end.

(** [backhaul_radios(decoded, stations, in_use)] *)
Definition backhaul_radios_of (rows : Rows) (names : list string) (in_use : option string) : result (list (bytes * option bytes)) :=
  found ← map_result (λ kr, backhaul_entries rows names in_use kr.2) (t_radio_configs rows);
  Ok (snd <$> sort_by fst (concat found)).

(** [backhaul(device, station)] *)
Definition backhaul_of (d : DeviceView) (station : string) : option BackhaulView :=
  head (dv_radios d ≫= λ r, rv_uplinks r ≫= λ u,
    if bool_decide (u_if_name u = station) && bool_decide (is_Some (u_parent u)) && bool_decide (is_Some (MEDIA (rv_band r)))
    then match rv_channel r with Some c => [mkBackhaulView (rv_ruid r) (rv_band r) c u] | None => [] end
    else []).

(** ** Capabilities *)

Definition DEFAULT_MAX_EIRP : Z := 20.

(** [advertised_eirp(kept, reported)] *)
Definition advertised_eirp (kept reported : option Z) : Z :=
  let power := match reported with Some p => if bool_decide (0 < p ≤ 127) then Some p else None | None => None end in
  match kept with
  | None => default DEFAULT_MAX_EIRP power
  | Some k => match power with Some p => if bool_decide (k < p) then p else k | None => k end
  end.

(** [_early_radio(radio, channel, max_bss, max_eirp)] *)
Definition early_radio (r : RadioView) (channel bss eirp : Z) : result EarlyRadio :=
  match OPERATING_CLASSES (rv_band r), class_of (rv_band r) (Some channel) with
  | Some classes, Some _ =>
      Ok (mkEarlyRadio
            (mkBasic (rv_ruid r) bss
               ((λ c, mkBasicOperatingClass c.1 eirp (filter (λ n, n ≠ channel) c.2)) <$> classes))
            (HtCapabilities (rv_ruid r) 0) (mkAdvanced (rv_ruid r) 0) false false false)
  | _, _ => Raise (mkEmosaError UNSUPPORTED_OPERATION "radio band or channel not mapped")
  end.

(** [_capabilities(early_radios)] *)
Definition device_capabilities (radios : list EarlyRadio) : EarlyCapabilities :=
  mkEarlyCapabilities radios 0 (mkProfile2 0 0 0 0) (mkAkm [] [PSK]) [CCMP128] true.

(** [radio_capabilities], [radios_capabilities] *)
Definition radio_capabilities (r : RadioView) (channel bss eirp : Z) : result EarlyCapabilities :=
  e ← early_radio r channel bss eirp; Ok (device_capabilities [e]).
Definition radios_capabilities (specs : list (RadioView * Z * Z * Z)) : result EarlyCapabilities :=
  es ← map_result (λ s, early_radio s.1.1.1 s.1.1.2 s.1.2 s.2) specs; Ok (device_capabilities es).

(** ** The radios an agent binds: [bound_radios] *)

(** A further radio of the profile: its band, and its channel when the profile places it. *)
Record Further := mkFurther { x_band : string; x_channel : option Z }.

(** [dict(slot_bands).get(name)] *)
Definition slot_band (slot_bands : list (string * string)) (name : string) : option string :=
  snd <$> list.last (filter (λ nb, nb.1 = name) slot_bands).

(** The body of the loop: the radio of one entry, if it is reported. *)
Definition bind_further (radios : list RadioView) (fronthaul : RadioView) (slots : list string) (slot_bands : list (string * string))
    (held : gmap bytes Z) (extra : Further) : option (RadioView * Z * Z) :=
  radio ← head (filter (λ r, rv_band r = x_band extra ∧ rv_ruid r ≠ rv_ruid fronthaul) radios);
  let on := match rv_channel radio with Some c => Some c | None => held !! rv_ruid radio end in
  on ← (match x_channel extra with Some c => Some c | None => on end);
  _ ← class_of (x_band extra) (Some on);
  Some (radio, on, Z.max 1 (len (filter (λ name, slot_band slot_bands name = Some (x_band extra)) slots))).

Definition bound_radios (radios : list RadioView) (fronthaul : RadioView) (channel : Z) (additional : list Further) (slots : list string)
    (slot_bands : list (string * string)) (held : gmap bytes Z) : list (RadioView * Z * Z) :=
  (fronthaul, channel, 1 + len (filter (λ name, slot_band slot_bands name = None) slots))
  :: omap (bind_further radios fronthaul slots slot_bands held) additional.

(** ** Inventory and topology *)

(** [inventory(device, radio, chipset)] *)
Definition inventory_of (d : DeviceView) (r : RadioView) (chipset : bytes) : Payload :=
  DeviceInventory (take 64 (String.list_byte_of_string (dv_serial d)))
    (take 64 (String.list_byte_of_string (default "unknown" (given (dv_firmware d)))))
    (String.list_byte_of_string "OpenSync pod via EMOSA") [mkInventoryRadio (rv_ruid r) chipset].

(** [neighbors_1905(agent_al, controller_al, peers)] *)
Definition peers_at (peers : list (bytes * bytes)) (local : bytes) : gset bytes := list_to_set (snd <$> filter (λ p, p.1 = local) peers).
Definition neighbors_1905 (agent controller : bytes) (peers : list (bytes * bytes)) : list (bytes * list Neighbor) :=
  (agent, [mkNeighbor controller false])
  :: ((λ local, (local, (λ a, mkNeighbor a false) <$> sort_octets (elements (peers_at peers local))))
      <$> sort_octets (elements (list_to_set peers.*1 : gset bytes))).

(** [bytes([role, 0, channel, 0])] *)
Definition media_octets (role channel : Z) : result bytes :=
  if bool_decide (0 ≤ channel ≤ 255) then Ok (octets [role; 0; channel; 0]) else Raise (value_error "bytes must be in range(0, 256)").
Definition media_of (band : string) : result Z := match MEDIA band with Some m => Ok m | None => Raise (key_error band) end.

(** The interface of one BSS, and of the backhaul station. *)
Definition bss_interface (r : RadioView) (channel : Z) (b : BssView) : result LocalInterface :=
  m ← media_of (rv_band r); o ← media_octets AP_ROLE channel; Ok (mkLocalInterface (bssid b) m (bssid b ++ o)).
Definition station_interface (up : BackhaulView) : result LocalInterface :=
  m ← media_of (bh_band up);
  p ← (match u_parent (bh_station up) with Some p => Ok p | None => Raise (key_error "parent") end);
  o ← media_octets STA_ROLE (bh_channel up);
  Ok (mkLocalInterface (u_mac (bh_station up)) m (p ++ o)).

Definition bss_octets (b : BssView) : bytes := String.list_byte_of_string (b_ssid b).
Definition configured_bss (b : BssView) : result ConfiguredBss := f ← report_flags b; Ok (mkConfiguredBss (bssid b) f (bss_octets b)).
Definition bss_clients (ages : gmap bytes Z) (b : BssView) : result BssClients :=
  cs ← map_result (λ m, match ages !! m with
                        | Some t => Ok (mkAssociatedClient m (Z.min 65535 (Z.quot t 1000)))
                        | None => Raise (key_error "age")
                        end) (stations b);
  Ok (mkBssClients (bssid b) cs).

(** What [topology] is called with. *)
Record TopologyInput := mkTopologyInput {
  ti_agent : bytes; ti_controller : bytes; ti_radio : RadioView * list BssView * Z; ti_ages : gmap bytes Z;
  ti_uplink : option BackhaulView; ti_associated : gmap bytes Z; ti_peers : list (bytes * bytes);
  ti_backhaul : list (bytes * option bytes); ti_extra : list (RadioView * list BssView * Z) }.

Definition ti_radios (i : TopologyInput) : list (RadioView * list BssView * Z) := ti_radio i :: ti_extra i.
Definition ti_bsses (i : TopologyInput) : list BssView := ti_radios i ≫= λ x, x.1.2.

(** The local interfaces: the agent's port, every BSS, the backhaul station. *)
Definition topology_interfaces (i : TopologyInput) : result (list LocalInterface) :=
  bs ← map_result (λ x : RadioView * list BssView * Z, map_result (bss_interface x.1.1 x.2) x.1.2) (ti_radios i);
  up ← (match ti_uplink i with Some up => s ← station_interface up; Ok [s] | None => Ok [] end);
  Ok (mkLocalInterface (ti_agent i) 1 [] :: concat bs ++ up).

(** [topology(...)] *)
Definition topology_facts (i : TopologyInput) : result TopologyFacts :=
  interfaces ← topology_interfaces i;
  configured ← map_result (λ x : RadioView * list BssView * Z, bs ← map_result configured_bss x.1.2; Ok (mkConfiguredRadio (rv_ruid x.1.1) bs)) (ti_radios i);
  clients ← map_result (bss_clients (ti_ages i)) (ti_bsses i);
  Ok (mkTopologyFacts (mkDevice (ti_agent i) interfaces) [li_mac <$> interfaces] [] (neighbors_1905 (ti_agent i) (ti_controller i) (ti_peers i))
        ((λ x : RadioView * list BssView * Z, mkOperationalRadio (rv_ruid x.1.1) ((λ b, mkOperationalBss (bssid b) (bss_octets b)) <$> x.1.2)) <$> ti_radios i)
        configured clients true true true true
        (match ti_uplink i with Some up => [(bh_ruid up, u_mac (bh_station up))] | None => [] end)
        (ti_backhaul i) (sort_by (λ mt, octet_key mt.1) (map_to_list (ti_associated i)))).

(** * Theory *)

(** ** Generic steps *)

Lemma map_result_pure {A B} (f : A → result B) (g : A → B) l : (∀ x, x ∈ l → f x = Ok (g x)) → map_result f l = Ok (g <$> l).
Proof.
  intros H. apply map_result_Ok. induction l as [|x l IH]; [constructor|]. constructor; [apply H; by left|]. apply IH. intros y Hy. apply H. by right.
Qed.

Lemma check_unique_intro l : NoDup l → Forall (λ v, unicast_mac v = true) l → check_unique l = Ok tt.
Proof.
  intros Hn Hu. unfold check_unique. assert (E : check_each check_identity l = Ok tt).
  { apply check_each_Ok. eapply Forall_impl; [exact Hu|]. intros v Hv. unfold check_identity. by rewrite Hv. }
  rewrite E. cbn. unfold need. by rewrite bool_decide_eq_true_2.
Qed.

Lemma same_set_refl l : same_set l l = true.
Proof. by apply bool_decide_eq_true. Qed.

Lemma unicast_six v : unicast_mac v = true → length v = 6%nat.
Proof. unfold unicast_mac. intros [[H%bool_decide_eq_true _]%andb_true_iff _]%andb_true_iff. done. Qed.
Lemma unicast_sixes l : Forall (λ v, unicast_mac v = true) l → Forall (λ v, length v = 6%nat) l.
Proof. intros H. eapply Forall_impl; [exact H|]. apply unicast_six. Qed.

(** The octets a loop adds, and that a loop with room for them succeeds. *)
Definition total {A} (sz : A → Z) (l : list A) : Z := foldr (λ x a, sz x + a) 0 l.

Lemma total_cons {A} (sz : A → Z) x l : total sz (x :: l) = sz x + total sz l.
Proof. done. Qed.
Lemma total_le {A} (sz : A → Z) (l : list A) b : (∀ x, x ∈ l → sz x ≤ b) → total sz l ≤ b * len l.
Proof.
  intros H. induction l as [|x l IH]; [unfold len; cbn; lia|]. rewrite total_cons. pose proof (H x ltac:(by left)).
  specialize (IH (λ y Hy, H y ltac:(by right))). unfold len in *. cbn [length]. lia.
Qed.
Lemma total_nonneg {A} (sz : A → Z) (l : list A) : (∀ x, x ∈ l → 0 ≤ sz x) → 0 ≤ total sz l.
Proof. induction l as [|x l IH]; [done|]. intros H. rewrite total_cons. pose proof (H x ltac:(by left)). specialize (IH (λ y Hy, H y ltac:(by right))). lia. Qed.

Lemma fold_result_fits {A} (f : bytes → A → result bytes) (sz : A → Z) (limit : Z) l v :
  (∀ v x, x ∈ l → len v + sz x ≤ limit → ∃ r, f v x = Ok r ∧ len r = len v + sz x) →
  (∀ x, x ∈ l → 0 ≤ sz x) → len v + total sz l ≤ limit →
  ∃ r, fold_result f v l = Ok r ∧ len r = len v + total sz l.
Proof.
  revert v. induction l as [|x l IH]; intros v Hf Hp Hl; [exists v; cbn; split; [done|lia]|]. rewrite total_cons in Hl |- *.
  pose proof (total_nonneg sz l (λ y Hy, Hp y ltac:(by right))).
  destruct (Hf v x ltac:(by left)) as (v1 & E1 & L1); [lia|].
  destruct (IH v1) as (r & E & L); [intros; apply Hf; [by right|done]|intros; apply Hp; by right|lia|].
  exists r. cbn. rewrite E1. cbn. split; [done|lia].
Qed.

(** ** The encoders have room for what a report carries *)

Lemma len_nonneg {A} (l : list A) : 0 ≤ len l.
Proof. unfold len. lia. Qed.
Lemma enc_octet_intro z : 0 ≤ z ≤ 255 → enc_octet z = Ok [Z_to_byte z].
Proof. intros H. by apply enc_octet_Ok. Qed.
Lemma enc_octets_intro n b : length b = n → enc_octets n b = Ok b.
Proof. intros H. by apply enc_octets_Ok. Qed.
Lemma enc_count_intro {A} (l : list A) : len l ≤ 255 → enc_count l = Ok [Z_to_byte (len l)].
Proof. intros H. by apply enc_count_Ok. Qed.
Lemma bounded_intro v : len v ≤ 16384 → bounded v = Ok v.
Proof. intros H. by apply bounded_Ok. Qed.

Lemma operational_bss_fits v b : length (ap_mac b) = 6%nat → len (ob_ssid b) ≤ 32 → len v + (7 + len (ob_ssid b)) ≤ 16384 →
  ∃ r, extend_operational_bss v b = Ok r ∧ len r = len v + (7 + len (ob_ssid b)).
Proof.
  intros Hm Hs Hl. pose proof (len_nonneg (ob_ssid b)). unfold extend_operational_bss. rewrite enc_octets_intro by done. cbn [mbind result_mbind].
  rewrite bool_decide_eq_false_2 by lia. cbn. rewrite enc_octet_intro by lia. cbn.
  assert (L : len (v ++ ap_mac b ++ Z_to_byte (len (ob_ssid b)) :: ob_ssid b) = len v + (7 + len (ob_ssid b))) by (unfold len in *; rewrite !length_app; cbn; lia).
  eexists. split; [apply bounded_intro; lia|done].
Qed.

Lemma configured_bss_fits v b : length (cb_bssid b) = 6%nat → len (cb_ssid b) ≤ 32 → cb_flags b ∈ [0x40; 0x80] → len v + (9 + len (cb_ssid b)) ≤ 16384 →
  ∃ r, extend_configured_bss v b = Ok r ∧ len r = len v + (9 + len (cb_ssid b)).
Proof.
  intros Hm Hs Hf Hl. pose proof (len_nonneg (cb_ssid b)). unfold extend_configured_bss. rewrite (bool_decide_eq_false_2 (32 < len (cb_ssid b))) by lia. cbn.
  assert (F : enc_octet (cb_flags b) = Ok [Z_to_byte (cb_flags b)] ∧ Z.land (cb_flags b) 3 = 0).
  { rewrite !elem_of_cons, elem_of_nil in Hf. destruct Hf as [->|[->|[]]]; split; reflexivity. }
  destruct F as [-> ->]. cbn. rewrite enc_octets_intro by done. cbn.
  match goal with |- context [bounded ?x] => assert (L : len x = len v + (9 + len (cb_ssid b))) by len_lia end.
  eexists. split; [apply bounded_intro; lia|done].
Qed.

Lemma client_fits v c : length (c_mac c) = 6%nat → 0 ≤ association_seconds c → len v + 8 ≤ 16384 →
  ∃ r, extend_client v c = Ok r ∧ len r = len v + 8.
Proof.
  intros Hm Hs Hl. unfold extend_client. rewrite bool_decide_eq_false_2 by lia. cbn. rewrite enc_octets_intro by done. cbn [mbind result_mbind].
  assert (E : enc_u16 (Z.min (association_seconds c) 65535) = Ok (be_bytes 2 (Z.min (association_seconds c) 65535))) by (apply enc_u16_Ok; split; [done|lia]).
  rewrite E. cbn [mbind result_mbind]. match goal with |- context [bounded ?x] => assert (L : len x = len v + 8) by len_lia end.
  eexists. split; [apply bounded_intro; lia|done].
Qed.

Lemma total_app {A} (sz : A → Z) l k : total sz (l ++ k) = total sz l + total sz k.
Proof. induction l as [|x l IH]; [done|]. cbn [app]. rewrite !total_cons, IH. lia. Qed.
Lemma total_bind {A B} (c : Z) (g : B → Z) (h : A → list B) (l : list A) : total (λ x, c + total g (h x)) l = c * len l + total g (l ≫= h).
Proof. induction l as [|x l IH]; [unfold len; cbn; lia|]. rewrite bind_cons, total_cons, total_app, IH. unfold len. cbn [length]. lia. Qed.

(** A list of radios, each with a header of seven octets and its BSSs: the shape of two of the values. *)
Lemma radios_fit {R B} (f : bytes → R → result bytes) (g : bytes → B → result bytes) (ruid : R → bytes) (bsses : R → list B) (sz : B → Z) (rs : list R) (n : bytes) :
  (∀ v r, f v r = (m ← enc_octets 6 (ruid r); c ← enc_count (bsses r); fold_result g (v ++ m ++ c) (bsses r))) →
  (∀ v b, b ∈ rs ≫= bsses → len v + sz b ≤ 16384 → ∃ r, g v b = Ok r ∧ len r = len v + sz b) →
  (∀ b, b ∈ rs ≫= bsses → 0 ≤ sz b ≤ 50) → (∀ r, r ∈ rs → length (ruid r) = 6%nat) →
  len n = 1 → len rs ≤ 32 → len (rs ≫= bsses) ≤ 64 →
  ∃ r, fold_result f n rs = Ok r ∧ len r ≤ 16384.
Proof.
  intros Hf Hg Hsz Hr Hn Hrs Hbs. assert (Hin : ∀ r b, r ∈ rs → b ∈ bsses r → b ∈ rs ≫= bsses) by (intros; apply list_elem_of_bind; eauto).
  assert (T : 0 ≤ total sz (rs ≫= bsses) ≤ 50 * 64).
  { split; [apply total_nonneg; intros b Hb; apply Hsz in Hb; lia|]. pose proof (total_le sz _ 50 (λ b Hb, proj2 (Hsz b Hb))). lia. }
  destruct (fold_result_fits f (λ r, 7 + total sz (bsses r)) 16384 rs n) as (r & E & L).
  - intros v r Hr' Hl. rewrite Hf, enc_octets_intro by by apply Hr. cbn [mbind result_mbind].
    assert (C : len (bsses r) ≤ 255).
    { assert (len (bsses r) ≤ len (rs ≫= bsses)); [|lia]. unfold len. apply inj_le. apply submseteq_length. apply list_elem_of_split in Hr' as (l1 & l2 & ->).
      rewrite bind_app, bind_cons. apply submseteq_inserts_l, submseteq_inserts_r. done. }
    rewrite enc_count_intro by done. cbn [mbind result_mbind].
    destruct (fold_result_fits g sz 16384 (bsses r) (v ++ ruid r ++ [Z_to_byte (len (bsses r))])) as (w & E & L).
    + intros v' b Hb. apply Hg. by eapply Hin.
    + intros b Hb. by apply (Hsz b), (Hin r).
    + rewrite !len_app. specialize (Hr r Hr'). unfold len in *. cbn [length]. lia.
    + exists w. split; [done|]. rewrite L, !len_app. specialize (Hr r Hr'). unfold len in *. cbn [length]. lia.
  - intros r Hr'. assert (0 ≤ total sz (bsses r)); [|lia]. apply total_nonneg. intros b Hb. by apply (Hsz b), (Hin r).
  - rewrite total_bind. lia.
  - exists r. split; [done|]. rewrite L, total_bind. lia.
Qed.

Lemma em_intro p b : encode_body p = Ok b → len b ≤ 16384 → em p = Ok (mkTlv (Payloads.kind p) b).
Proof. intros E L. unfold em, encode_value. rewrite E. cbn. by rewrite bounded_intro. Qed.

Lemma operational_fits rs : len rs ≤ 32 → len (rs ≫= or_bsses) ≤ 64 → (∀ r, r ∈ rs → length (or_ruid r) = 6%nat) →
  (∀ b, b ∈ rs ≫= or_bsses → length (ap_mac b) = 6%nat ∧ len (ob_ssid b) ≤ 32) → ∃ t, em (APOperationalBss rs) = Ok t.
Proof.
  intros Hr Hb Hm Hs. destruct (radios_fit extend_operational_radio extend_operational_bss or_ruid or_bsses (λ b, 7 + len (ob_ssid b)) rs [Z_to_byte (len rs)]) as (r & E & L);
    [done| | |done|done|done|done|].
  - intros v b Hin Hl. destruct (Hs b Hin). by apply operational_bss_fits.
  - intros b Hin. destruct (Hs b Hin). pose proof (len_nonneg (ob_ssid b)). lia.
  - eexists. apply em_intro; [|exact L]. cbn. rewrite enc_count_intro by lia. cbn. exact E.
Qed.

Lemma configured_fits rs : len rs ≤ 32 → len (rs ≫= cr_bsses) ≤ 64 → (∀ r, r ∈ rs → length (cr_ruid r) = 6%nat) →
  (∀ b, b ∈ rs ≫= cr_bsses → length (cb_bssid b) = 6%nat ∧ len (cb_ssid b) ≤ 32 ∧ cb_flags b ∈ [0x40; 0x80]) → ∃ t, em (BssConfigurationReport rs) = Ok t.
Proof.
  intros Hr Hb Hm Hs. destruct (radios_fit extend_configured_radio extend_configured_bss cr_ruid cr_bsses (λ b, 9 + len (cb_ssid b)) rs [Z_to_byte (len rs)]) as (r & E & L);
    [done| | |done|done|done|done|].
  - intros v b Hin Hl. destruct (Hs b Hin) as (? & ? & ?). by apply configured_bss_fits.
  - intros b Hin. destruct (Hs b Hin) as (? & ? & ?). pose proof (len_nonneg (cb_ssid b)). lia.
  - eexists. apply em_intro; [|exact L]. cbn. rewrite enc_count_intro by lia. cbn. exact E.
Qed.

Lemma clients_fit bs : len bs ≤ 64 → len (bs ≫= clients) ≤ 256 → (∀ b, b ∈ bs → length (bc_bssid b) = 6%nat) →
  (∀ c, c ∈ bs ≫= clients → length (c_mac c) = 6%nat ∧ 0 ≤ association_seconds c) → ∃ t, em (AssociatedClients bs) = Ok t.
Proof.
  intros Hb Hc Hm Hs. assert (Hin : ∀ b c, b ∈ bs → c ∈ clients b → c ∈ bs ≫= clients) by (intros; apply list_elem_of_bind; eauto).
  assert (T : total (λ _, 8) (bs ≫= clients) ≤ 8 * 256) by (pose proof (total_le (λ _, 8) (bs ≫= clients) 8 ltac:(done)); lia).
  assert (L1 : ∀ b, b ∈ bs → len (clients b) ≤ 256).
  { intros b Hb'. assert (len (clients b) ≤ len (bs ≫= clients)); [|lia]. unfold len. apply inj_le, submseteq_length. apply list_elem_of_split in Hb' as (l1 & l2 & ->).
    rewrite bind_app, bind_cons. apply submseteq_inserts_l, submseteq_inserts_r. done. }
  destruct (fold_result_fits extend_bss_clients (λ b, 8 + total (λ _, 8) (clients b)) 16384 bs [Z_to_byte (len bs)]) as (r & E & L).
  - intros v b Hb' Hl. specialize (L1 b Hb'). unfold extend_bss_clients. rewrite enc_octets_intro by by apply Hm. cbn [mbind result_mbind].
    assert (Eu : enc_u16 (len (clients b)) = Ok (be_bytes 2 (len (clients b)))) by (apply enc_u16_Ok; split; [done|pose proof (len_nonneg (clients b)); lia]).
    rewrite Eu. cbn [mbind result_mbind]. specialize (Hm b Hb').
    destruct (fold_result_fits extend_client (λ _, 8) 16384 (clients b) (v ++ bc_bssid b ++ be_bytes 2 (len (clients b)))) as (w & E & L).
    + intros v' c Hc'. destruct (Hs c (Hin b c Hb' Hc')). by apply client_fits.
    + lia.
    + rewrite !len_app. unfold len in *. rewrite be_bytes_length, Hm. lia.
    + exists w. split; [done|]. rewrite L, !len_app. unfold len in *. rewrite be_bytes_length, Hm. lia.
  - intros b Hb'. assert (0 ≤ total (λ _, 8) (clients b)) by (by apply total_nonneg). lia.
  - rewrite total_bind. unfold len in *. cbn [length]. lia.
  - eexists. apply (em_intro _ r); [|rewrite L, total_bind; unfold len in *; cbn [length]; lia]. cbn. rewrite enc_count_intro by lia. cbn. exact E.
Qed.

(** Topology values. *)
Lemma mac_intro a : length a = 6%nat → Cmdu.mac a = Ok a.
Proof. intros H. unfold Cmdu.mac. by rewrite bool_decide_eq_true_2. Qed.
Lemma topology_count_intro {A} (l : list A) : len l ≤ 255 → topology_count l = Ok [Z_to_byte (len l)].
Proof. intros H. unfold topology_count, uint. pose proof (len_nonneg l). rewrite bool_decide_eq_true_2 by (change (2 ^ 8) with 256; lia). done. Qed.

(** An interface whose media value may be sent. *)
Definition sendable (i : LocalInterface) : Prop := length (li_mac i) = 6%nat ∧ media i true = Ok tt ∧ len (media_specific i) ≤ 10.

Lemma encode_topology_intro v d : match v with
    | DeviceInformation al_mac interfaces => m ← Cmdu.mac al_mac; n ← topology_count interfaces; fold_result extend_interface (m ++ n) interfaces
    | BridgingCapability tuples => n ← topology_count tuples; fold_result extend_group n tuples
    | Non1905Neighbors local neighbors => m ← Cmdu.mac local; _ ← neighbor_budget 6 neighbors; fold_result extend_mac m neighbors
    | Neighbors1905 local neighbors => m ← Cmdu.mac local; _ ← neighbor_budget 7 neighbors; fold_result extend_neighbor m neighbors
    end = Ok d → len d ≤ MAX_VALUE → encode_topology v = Ok d.
Proof. intros E L. unfold encode_topology. rewrite E. cbn [mbind result_mbind]. rewrite bool_decide_eq_false_2 by lia. done. Qed.

Lemma device_fits al ifs : length al = 6%nat → len ifs ≤ 64 → (∀ i, i ∈ ifs → sendable i) → ∃ d, encode_topology (DeviceInformation al ifs) = Ok d.
Proof.
  intros Ha Hn Hi. destruct (fold_result_fits extend_interface (λ i, 9 + len (media_specific i)) MAX_VALUE ifs (al ++ [Z_to_byte (len ifs)])) as (d & E & L).
  - intros v i (Hm & Hmed & Hl)%Hi _. unfold extend_interface. rewrite Hmed. cbn [mbind result_mbind]. rewrite mac_intro by done. cbn [mbind result_mbind].
    eexists. split; [done|]. len_lia.
  - intros i _. pose proof (len_nonneg (media_specific i)). lia.
  - pose proof (total_le (λ i, 9 + len (media_specific i)) ifs 19 ltac:(intros i (_ & _ & ?)%Hi; lia)).
    rewrite len_app. unfold len in *. rewrite Ha. cbn [length]. unfold MAX_VALUE. lia.
  - exists d. apply encode_topology_intro.
    + rewrite mac_intro by done. cbn [mbind result_mbind]. rewrite topology_count_intro by lia. exact E.
    + pose proof (total_le (λ i, 9 + len (media_specific i)) ifs 19 ltac:(intros i (_ & _ & ?)%Hi; lia)).
      rewrite L, len_app. unfold len in *. rewrite Ha. cbn [length]. unfold MAX_VALUE. lia.
Qed.

Lemma bridge_fits ms : len ms ≤ 64 → (∀ m, m ∈ ms → length m = 6%nat) → ∃ d, encode_topology (BridgingCapability [ms]) = Ok d.
Proof.
  intros Hn Hm. destruct (fold_result_fits extend_mac (λ _, 6) MAX_VALUE ms ([Z_to_byte 1] ++ [Z_to_byte (len ms)])) as (d & E & L).
  - intros v m Hin%Hm _. unfold extend_mac. rewrite mac_intro by done. cbn. eexists. split; [done|]. len_lia.
  - lia.
  - pose proof (total_le (λ _, 6) ms 6 ltac:(done)). unfold len in *. cbn. unfold MAX_VALUE. lia.
  - pose proof (total_le (λ _, 6) ms 6 ltac:(done)). exists d. apply encode_topology_intro.
    + rewrite (topology_count_intro [ms]) by done. cbn [mbind result_mbind fold_result]. unfold extend_group.
      rewrite topology_count_intro by lia. cbn [mbind result_mbind]. change (Z_to_byte (len [ms])) with (Z_to_byte 1). rewrite E. done.
    + rewrite L. unfold len in *. cbn. unfold MAX_VALUE. lia.
Qed.

Lemma neighbors_fit local ns : length local = 6%nat → len ns ≤ 256 → (∀ n, n ∈ ns → length (n_al_mac n) = 6%nat) → ∃ d, encode_topology (Neighbors1905 local ns) = Ok d.
Proof.
  intros Hl Hn Hm. destruct (fold_result_fits extend_neighbor (λ _, 7) MAX_VALUE ns local) as (d & E & L).
  - intros v m Hin%Hm _. unfold extend_neighbor. rewrite mac_intro by done. cbn [mbind result_mbind]. eexists. split; [done|]. len_lia.
  - lia.
  - pose proof (total_le (λ _, 7) ns 7 ltac:(done)). unfold len in *. rewrite Hl. unfold MAX_VALUE. lia.
  - pose proof (total_le (λ _, 7) ns 7 ltac:(done)). exists d. apply encode_topology_intro.
    + rewrite mac_intro by done. cbn [mbind result_mbind]. unfold neighbor_budget. rewrite bool_decide_eq_false_2; [exact E|].
      change ((MAX_VALUE - 6) / 7) with 2339. lia.
    + rewrite L. unfold len in *. rewrite Hl. unfold MAX_VALUE. lia.
Qed.

(** ** What a view must be for its report to be accepted *)

Definition uplink_macs (i : TopologyInput) : list bytes := from_option (λ up, [u_mac (bh_station up)]) [] (ti_uplink i).
Definition local_macs (i : TopologyInput) : list bytes := ti_agent i :: (bssid <$> ti_bsses i) ++ uplink_macs i.
Definition all_stations (i : TopologyInput) : list bytes := ti_bsses i ≫= stations.

Record reportable (i : TopologyInput) : Prop := {
  (** addresses: every interface its own, every radio its own *)
  rp_macs : NoDup (local_macs i);
  rp_unicast : Forall (λ v, unicast_mac v = true) (local_macs i);
  rp_count : (length (local_macs i) ≤ 64)%nat;
  rp_ruids : NoDup ((λ x, rv_ruid x.1.1) <$> ti_radios i);
  rp_ruids_unicast : Forall (λ v, unicast_mac v = true) ((λ x, rv_ruid x.1.1) <$> ti_radios i);
  rp_radios : (length (ti_radios i) ≤ 32)%nat;
  (** radios with a BSS, and the backhaul station's, on a mapped band and a channel *)
  rp_radio : ∀ x, x ∈ ti_radios i → x.1.2 ≠ [] → is_Some (MEDIA (rv_band x.1.1)) ∧ 0 ≤ x.2 ≤ 255;
  rp_uplink : ∀ up, ti_uplink i = Some up → is_Some (MEDIA (bh_band up)) ∧ 0 ≤ bh_channel up ≤ 255 ∧ ∃ p, u_parent (bh_station up) = Some p ∧ length p = 6%nat;
  (** BSSs with the roles and names a report knows *)
  rp_bss : ∀ b, b ∈ ti_bsses i → len (bss_octets b) ≤ 32 ∧ b_role b ∈ [FRONTHAUL; BACKHAUL];
  (** a station is in one BSS, and its age is known *)
  rp_stations : NoDup (all_stations i);
  rp_stations_unicast : Forall (λ v, unicast_mac v = true) (all_stations i);
  rp_stations_count : (length (all_stations i) ≤ 256)%nat;
  rp_ages : ∀ m, m ∈ all_stations i → ∃ t, ti_ages i !! m = Some t ∧ 0 ≤ t;
  (** neighbours are behind a BSS or the backhaul station *)
  rp_controller : unicast_mac (ti_controller i) = true;
  rp_peers : ∀ p, p ∈ ti_peers i → p.1 ∈ (bssid <$> ti_bsses i) ++ uplink_macs i ∧ unicast_mac p.2 = true;
  rp_peers_count : (length (ti_peers i) ≤ 256)%nat
}.

(** ** The facts of a reportable view *)

Section Facts.
Context (i : TopologyInput).

Definition the_interface (x : RadioView * list BssView * Z) (b : BssView) : LocalInterface :=
  mkLocalInterface (bssid b) (default 0 (MEDIA (rv_band x.1.1))) (bssid b ++ octets [AP_ROLE; 0; x.2; 0]).
Definition the_station (up : BackhaulView) : LocalInterface :=
  mkLocalInterface (u_mac (bh_station up)) (default 0 (MEDIA (bh_band up))) (default [] (u_parent (bh_station up)) ++ octets [STA_ROLE; 0; bh_channel up; 0]).
Definition the_interfaces : list LocalInterface :=
  mkLocalInterface (ti_agent i) 1 [] :: (ti_radios i ≫= λ x, the_interface x <$> x.1.2) ++ from_option (λ up, [the_station up]) [] (ti_uplink i).
Definition the_flags (b : BssView) : Z := if bool_decide (b_role b = FRONTHAUL) then 0x40 else 0x80.
Definition the_configured (x : RadioView * list BssView * Z) : ConfiguredRadio :=
  mkConfiguredRadio (rv_ruid x.1.1) ((λ b, mkConfiguredBss (bssid b) (the_flags b) (bss_octets b)) <$> x.1.2).
Definition the_operational (x : RadioView * list BssView * Z) : OperationalRadio :=
  mkOperationalRadio (rv_ruid x.1.1) ((λ b, mkOperationalBss (bssid b) (bss_octets b)) <$> x.1.2).
Definition the_clients (b : BssView) : BssClients :=
  mkBssClients (bssid b) ((λ m, mkAssociatedClient m (Z.min 65535 (Z.quot (default 0 (ti_ages i !! m)) 1000))) <$> stations b).
Definition the_facts : TopologyFacts :=
  mkTopologyFacts (mkDevice (ti_agent i) the_interfaces) [li_mac <$> the_interfaces] [] (neighbors_1905 (ti_agent i) (ti_controller i) (ti_peers i))
    (the_operational <$> ti_radios i) (the_configured <$> ti_radios i) (the_clients <$> ti_bsses i) true true true true
    (match ti_uplink i with Some up => [(bh_ruid up, u_mac (bh_station up))] | None => [] end)
    (ti_backhaul i) (sort_by (λ mt, octet_key mt.1) (map_to_list (ti_associated i))).

Lemma local_macs_interfaces : li_mac <$> the_interfaces = local_macs i.
Proof.
  unfold the_interfaces, local_macs, uplink_macs, ti_bsses. cbn [fmap list_fmap li_mac]. f_equal. rewrite fmap_app. f_equal; [|by destruct (ti_uplink i)].
  induction (ti_radios i) as [|x l IH]; [done|]. rewrite !bind_cons, !fmap_app, IH. f_equal. by rewrite <- list_fmap_compose.
Qed.
Lemma operational_bsses_facts cs : operational_bsses (the_facts <| tf_clients := cs |>) = bssid <$> ti_bsses i.
Proof.
  unfold operational_bsses, ti_bsses. change (operational _) with (the_operational <$> ti_radios i). induction (ti_radios i) as [|x l IH]; [done|].
  rewrite fmap_cons, !bind_cons, fmap_app, IH. f_equal. cbn. by rewrite <- list_fmap_compose.
Qed.
Lemma ssids_facts cs : operational_ssids (the_facts <| tf_clients := cs |>) = configured_ssids (the_facts <| tf_clients := cs |>).
Proof.
  unfold operational_ssids, configured_ssids.
  change (operational (the_facts <| tf_clients := cs |>)) with (the_operational <$> ti_radios i).
  change (configuration (the_facts <| tf_clients := cs |>)) with (the_configured <$> ti_radios i). induction (ti_radios i) as [|x l IH]; [done|].
  rewrite !fmap_cons, !bind_cons, IH. f_equal. cbn. by rewrite <- !list_fmap_compose.
Qed.
Lemma configured_bsses_facts cs : configured_bsses (the_facts <| tf_clients := cs |>) = bssid <$> ti_bsses i.
Proof. by rewrite <- ssids_bsses_configured, <- ssids_facts, ssids_bsses_operational, operational_bsses_facts. Qed.

Lemma elem_ti_bsses b : b ∈ ti_bsses i ↔ ∃ x, x ∈ ti_radios i ∧ b ∈ x.1.2.
Proof. unfold ti_bsses. rewrite list_elem_of_bind. naive_solver. Qed.

Hypothesis Hi : reportable i.

Lemma the_interface_run x b : x ∈ ti_radios i → b ∈ x.1.2 → bss_interface x.1.1 x.2 b = Ok (the_interface x b).
Proof.
  intros Hx Hb. destruct (rp_radio _ Hi x Hx) as [[m Hm] Hc]; [intros E; rewrite E in Hb; by apply not_elem_of_nil in Hb|].
  unfold bss_interface, media_of, media_octets, the_interface. rewrite Hm. cbn [mbind result_mbind]. by rewrite bool_decide_eq_true_2.
Qed.

Lemma concat_bind {A B} (f : A → list B) (l : list A) : concat (f <$> l) = l ≫= f.
Proof. induction l as [|x l IH]; [done|]. rewrite bind_cons, fmap_cons. cbn. by rewrite IH. Qed.

Lemma interfaces_run : topology_interfaces i = Ok the_interfaces.
Proof.
  unfold topology_interfaces. rewrite (map_result_pure _ (λ x, the_interface x <$> x.1.2)).
  2:{ intros x Hx. apply map_result_pure. intros b Hb. by apply the_interface_run. }
  cbn [mbind result_mbind]. rewrite concat_bind. unfold the_interfaces. destruct (ti_uplink i) as [up|] eqn:Eu; [|done].
  destruct (rp_uplink _ Hi up Eu) as ([m Hm] & Hc & p & Hp & _).
  unfold station_interface, media_of, media_octets, the_station. rewrite Hm. cbn [mbind result_mbind]. rewrite Hp. cbn [mbind result_mbind].
  rewrite bool_decide_eq_true_2 by done. cbn [mbind result_mbind from_option]. by rewrite Hm, Hp.
Qed.

(** The facts are built. *)
Lemma topology_facts_run : topology_facts i = Ok the_facts.
Proof.
  unfold topology_facts. rewrite interfaces_run. cbn [mbind result_mbind].
  rewrite (map_result_pure _ the_configured).
  2:{ intros x Hx. rewrite (map_result_pure _ (λ b, mkConfiguredBss (bssid b) (the_flags b) (bss_octets b))); [done|]. intros b Hb.
      destruct (rp_bss _ Hi b) as [_ Hr]; [apply elem_ti_bsses; eauto|]. unfold configured_bss, report_flags, REPORT_FLAGS, the_flags.
      rewrite !elem_of_cons, elem_of_nil in Hr. by destruct Hr as [->|[->|[]]]. }
  cbn [mbind result_mbind]. rewrite (map_result_pure _ the_clients); [done|].
  intros b Hb. unfold bss_clients. rewrite (map_result_pure _ (λ m, mkAssociatedClient m (Z.min 65535 (Z.quot (default 0 (ti_ages i !! m)) 1000)))); [done|].
  intros m Hm. destruct (rp_ages _ Hi m) as (t & Et & _); [apply list_elem_of_bind; by exists b|]. by rewrite Et.
Qed.

Lemma size_set_le (l : list bytes) : (size (list_to_set l : gset bytes) ≤ length l)%nat.
Proof. induction l as [|x l IH]; [done|]. cbn [list_to_set length]. etransitivity; [apply size_union_bound|]. rewrite size_singleton. lia. Qed.
Lemma octet_keys_perm (l : list bytes) : sort_octets l ≡ₚ l.
Proof. apply merge_sort_Permutation. Qed.

(** The rows of neighbours: one for the agent's port and one for each local interface with a peer. *)
Lemma neighbors_elem row : row ∈ neighbors_1905 (ti_agent i) (ti_controller i) (ti_peers i) →
  row = (ti_agent i, [mkNeighbor (ti_controller i) false])
  ∨ (row.1 ∈ (bssid <$> ti_bsses i) ++ uplink_macs i ∧ ∃ ns, row.2 = (λ a, mkNeighbor a false) <$> ns ∧ NoDup ns ∧ (length ns ≤ 256)%nat ∧ Forall (λ v, unicast_mac v = true) ns).
Proof.
  unfold neighbors_1905. intros [->|Hr]%elem_of_cons; [by left|right]. apply list_elem_of_fmap in Hr as (local & -> & Hl).
  rewrite octet_keys_perm, elem_of_elements, elem_of_list_to_set in Hl. apply list_elem_of_fmap in Hl as (p & -> & Hp). destruct (rp_peers _ Hi p Hp) as [Hin _].
  split; [done|]. eexists. split; [done|]. assert (Hsub : ∀ a, a ∈ peers_at (ti_peers i) p.1 → ∃ q, q ∈ ti_peers i ∧ a = q.2).
  { unfold peers_at. intros a (q & -> & [_ Hq]%list_elem_of_filter)%elem_of_list_to_set%list_elem_of_fmap. by exists q. }
  split; [rewrite octet_keys_perm; apply NoDup_elements|]. split.
  - rewrite octet_keys_perm. change (length (elements ?x)) with (size x). unfold peers_at.
    etransitivity; [apply size_set_le|]. rewrite length_fmap. etransitivity; [apply length_filter|]. apply (rp_peers_count _ Hi).
  - rewrite octet_keys_perm. apply Forall_forall. intros a Ha%elem_of_elements. destruct (Hsub a Ha) as (q & Hq & ->). by apply (rp_peers _ Hi q).
Qed.

Lemma neighbors_checked : check_neighbor_rows (li_mac <$> the_interfaces)
    ((λ row : bytes * list Neighbor, (row.1, n_al_mac <$> row.2)) <$> neighbors_1905 (ti_agent i) (ti_controller i) (ti_peers i)) = Ok tt.
Proof.
  pose proof (rp_macs _ Hi) as Hnd. pose proof (rp_unicast _ Hi) as Hun. rewrite local_macs_interfaces. unfold local_macs in *. rewrite NoDup_cons in Hnd. destruct Hnd as [Hag Hnd].
  rewrite Forall_cons in Hun. destruct Hun as [Hag' Hun].
  assert (Hlocals : ∀ l, l ∈ sort_octets (elements (list_to_set (ti_peers i).*1 : gset bytes)) → l ∈ (bssid <$> ti_bsses i) ++ uplink_macs i).
  { intros l. rewrite octet_keys_perm, elem_of_elements, elem_of_list_to_set. intros (p & -> & Hp)%list_elem_of_fmap. by apply (rp_peers _ Hi p). }
  unfold check_neighbor_rows. rewrite check_unique_intro.
  - cbn [mbind result_mbind]. apply check_each_Ok, Forall_forall. intros row (r & -> & Hr)%list_elem_of_fmap. cbn [fst snd].
    apply neighbors_elem in Hr as [->|(Hin & ns & Ens & Hns & Hlen & Hu)].
    + cbn [fst snd fmap list_fmap n_al_mac]. unfold need. rewrite (bool_decide_eq_true_2 (_ ∈ _)) by left. cbn [negb raise_if mbind result_mbind].
      rewrite check_unique_intro; [cbn; by rewrite bool_decide_eq_true_2 by lia|by apply NoDup_singleton|constructor; [apply (rp_controller _ Hi)|constructor]].
    + rewrite Ens, <- list_fmap_compose. unfold need. rewrite (bool_decide_eq_true_2 (_ ∈ _)) by by right. cbn [negb raise_if mbind result_mbind].
      assert (E : n_al_mac ∘ (λ a, mkNeighbor a false) <$> ns = ns) by (rewrite <- (list_fmap_id ns) at 2; done). rewrite E.
      rewrite check_unique_intro by done. cbn [mbind result_mbind]. by rewrite bool_decide_eq_true_2.
  - rewrite <- list_fmap_compose. unfold neighbors_1905. rewrite fmap_cons, <- list_fmap_compose. cbn [fst compose].
    replace (_ <$> sort_octets _) with (sort_octets (elements (list_to_set (ti_peers i).*1 : gset bytes))) by (symmetry; apply list_fmap_id).
    apply NoDup_cons. split; [intros Hl%Hlocals; done|]. rewrite octet_keys_perm. apply NoDup_elements.
  - rewrite <- list_fmap_compose. unfold neighbors_1905. rewrite fmap_cons, <- list_fmap_compose. cbn [fst compose].
    replace (_ <$> sort_octets _) with (sort_octets (elements (list_to_set (ti_peers i).*1 : gset bytes))) by (symmetry; apply list_fmap_id).
    constructor; [done|]. apply Forall_forall. intros l Hl%Hlocals. rewrite Forall_forall in Hun. by apply Hun.
Qed.

Lemma then_Ok {A} (m : result unit) (k : unit → result A) a : m = Ok tt → k tt = Ok a → m ≫= k = Ok a.
Proof. by intros -> ?. Qed.
Lemma need_intro b d : b = true → need b d = Ok tt.
Proof. by intros ->. Qed.

Lemma the_interfaces_elem x b : x ∈ ti_radios i → b ∈ x.1.2 → the_interface x b ∈ the_interfaces.
Proof. intros Hx Hb. right. apply elem_of_app. left. apply list_elem_of_bind. exists x. split; [by apply list_elem_of_fmap_2|done]. Qed.

(** Of interfaces with distinct addresses, the one with an address is the only one. *)
Lemma filter_singleton {A} (f : A → bytes) (l : list A) x : NoDup (f <$> l) → x ∈ l → filter (λ y, f y = f x) l = [x].
Proof.
  induction l as [|y l IH]; [by intros _ ?%not_elem_of_nil|]. rewrite fmap_cons, NoDup_cons. intros [Hy Hnd] [->|Hx]%elem_of_cons.
  - rewrite filter_cons_True by done. f_equal. apply elem_of_nil_inv. intros z [Hz Hin]%list_elem_of_filter. exfalso. apply Hy. rewrite <- Hz. by apply list_elem_of_fmap_2.
  - rewrite filter_cons_False; [by apply IH|]. intros E. apply Hy. rewrite E. by apply list_elem_of_fmap_2.
Qed.

Lemma media_wifi band m : MEDIA band = Some m → 0x100 ≤ m ≤ 0x107.
Proof. unfold MEDIA. repeat case_bool_decide; intros [= <-]; unfold IEEE_802_11N_24; lia. Qed.

Lemma bss_checked cs b : b ∈ bssid <$> ti_bsses i → check_bss_interface (the_facts <| tf_clients := cs |>) b = Ok tt.
Proof.
  intros (v & -> & (x & Hx & Hv)%elem_ti_bsses)%list_elem_of_fmap. unfold check_bss_interface. apply need_intro.
  change (device_interfaces (device (the_facts <| tf_clients := cs |>))) with the_interfaces.
  pose proof (filter_singleton li_mac the_interfaces (the_interface x v)) as F. rewrite local_macs_interfaces in F.
  specialize (F (rp_macs _ Hi) (the_interfaces_elem x v Hx Hv)). cbn [li_mac the_interface] in F. rewrite F.
  destruct (rp_radio _ Hi x Hx) as [[m Hm] Hc]; [intros E; rewrite E in Hv; by apply not_elem_of_nil in Hv|]. cbn. rewrite Hm. cbn. apply media_wifi in Hm.
  assert (Hl : length (bssid v) = 6%nat).
  { apply unicast_six. pose proof (rp_unicast _ Hi) as Hu. rewrite Forall_forall in Hu. apply Hu. right. apply elem_of_app. left.
    apply list_elem_of_fmap_2, elem_ti_bsses. eauto. }
  rewrite !andb_true_iff. repeat split; apply bool_decide_eq_true.
  - lia.
  - len_lia.
  - by apply take_app_exact.
  - unfold octet_at. rewrite lookup_app_r by lia. by rewrite Hl.
Qed.

Lemma facts_checked cs binding : ti_agent i = local_al binding → bc_bssid <$> cs = bssid <$> ti_bsses i →
  (cs ≫= λ b, c_mac <$> clients b) = all_stations i → check_topology (the_facts <| tf_clients := cs |>) binding = Ok tt.
Proof.
  intros Hag Hcs Hst. pose proof (rp_macs _ Hi) as Hnd. pose proof (rp_unicast _ Hi) as Hun. pose proof (rp_count _ Hi) as Hcnt.
  assert (Hb : NoDup (bssid <$> ti_bsses i) ∧ Forall (λ v, unicast_mac v = true) (bssid <$> ti_bsses i)).
  { unfold local_macs in Hnd, Hun. apply NoDup_cons in Hnd as [_ Hnd]. apply NoDup_app in Hnd as [? _]. apply Forall_cons in Hun as [_ Hun]. by apply Forall_app in Hun as [? _]. }
  destruct Hb as [Hbn Hbu]. unfold check_topology. rewrite operational_bsses_facts, configured_bsses_facts, ssids_facts. cbv zeta.
  change (device_interfaces (device (the_facts <| tf_clients := cs |>))) with the_interfaces.
  change (tf_clients (the_facts <| tf_clients := cs |>)) with cs. change (bridges (the_facts <| tf_clients := cs |>)) with [li_mac <$> the_interfaces].
  change (operational (the_facts <| tf_clients := cs |>)) with (the_operational <$> ti_radios i).
  change (configuration (the_facts <| tf_clients := cs |>)) with (the_configured <$> ti_radios i).
  change (neighbors1905 (the_facts <| tf_clients := cs |>)) with (neighbors_1905 (ti_agent i) (ti_controller i) (ti_peers i)).
  rewrite Hcs, Hst. assert (Ec : concat [li_mac <$> the_interfaces] = local_macs i) by (cbn; rewrite app_nil_r; apply local_macs_interfaces).
  assert (Eo : or_ruid <$> (the_operational <$> ti_radios i) = (λ x, rv_ruid x.1.1) <$> ti_radios i) by by rewrite <- list_fmap_compose.
  assert (Ek : cr_ruid <$> (the_configured <$> ti_radios i) = (λ x, rv_ruid x.1.1) <$> ti_radios i) by by rewrite <- list_fmap_compose.
  rewrite Ec, Eo, Ek. pose proof neighbors_checked as Hnei. rewrite local_macs_interfaces in Hnei |- *.
  apply then_Ok; [done|]. apply then_Ok; [apply need_intro; by apply bool_decide_eq_true|].
  apply then_Ok; [apply need_intro; apply bool_decide_eq_true; cbn [local_macs length] in Hcnt |- *; lia|].
  do 2 (apply then_Ok; [by apply check_unique_intro|]).
  apply then_Ok. { apply need_intro, forallb_forall. intros m Hm%list_elem_of_In. by apply bool_decide_eq_true. }
  apply then_Ok; [done|]. apply then_Ok; [exact Hnei|].
  apply then_Ok. { apply need_intro. rewrite !length_fmap. apply andb_true_iff. split; apply bool_decide_eq_true; [|done]. pose proof (rp_radios _ Hi). cbn [ti_radios length] in *. lia. }
  do 2 (apply then_Ok; [apply check_unique_intro; [apply (rp_ruids _ Hi)|apply (rp_ruids_unicast _ Hi)]|]).
  do 2 (apply then_Ok; [by apply check_unique_intro|]).
  apply then_Ok. { apply need_intro. rewrite same_set_refl, andb_true_r. by apply bool_decide_eq_true. }
  apply then_Ok.
  { apply need_intro, forallb_forall. intros r Hr%list_elem_of_In. apply list_elem_of_fmap in Hr as (x & -> & _). apply forallb_forall.
    intros c Hc%list_elem_of_In. apply list_elem_of_fmap in Hc as (b & -> & _). cbn. unfold the_flags. by destruct (bool_decide (b_role b = FRONTHAUL)). }
  apply then_Ok. { apply check_each_Ok, Forall_forall. intros b Hb. by apply bss_checked. }
  apply then_Ok; [by apply check_unique_intro|]. apply then_Ok; [apply need_intro, same_set_refl|].
  apply then_Ok; [apply check_unique_intro; [apply (rp_stations _ Hi)|apply (rp_stations_unicast _ Hi)]|].
  apply need_intro, bool_decide_eq_true, (rp_stations_count _ Hi).
Qed.

Lemma clients_of_facts : bc_bssid <$> (the_clients <$> ti_bsses i) = bssid <$> ti_bsses i
  ∧ ((the_clients <$> ti_bsses i) ≫= λ b, c_mac <$> clients b) = all_stations i.
Proof.
  split; [by rewrite <- list_fmap_compose|]. unfold all_stations. induction (ti_bsses i) as [|b l IH]; [done|].
  rewrite fmap_cons, !bind_cons, IH. f_equal. cbn. rewrite <- list_fmap_compose. apply list_fmap_id.
Qed.

Lemma aged_bssids f now : bc_bssid <$> aged_clients f now = bc_bssid <$> tf_clients f.
Proof. unfold aged_clients. by rewrite <- list_fmap_compose. Qed.
Lemma aged_macs f now : (aged_clients f now ≫= λ b, c_mac <$> clients b) = (tf_clients f ≫= λ b, c_mac <$> clients b).
Proof.
  unfold aged_clients. cbv zeta. induction (tf_clients f) as [|b l IH]; [done|]. rewrite fmap_cons, !bind_cons, IH. f_equal. cbn. rewrite <- list_fmap_compose.
  apply list_fmap_ext. intros _ c _. cbn. by destruct (_ !! c_mac c).
Qed.
Lemma aged_seconds f now c : c ∈ aged_clients f now ≫= clients → (∀ d, d ∈ tf_clients f ≫= clients → 0 ≤ association_seconds d) → 0 ≤ association_seconds c.
Proof.
  unfold aged_clients. cbv zeta. intros (b & Hc & Hb)%list_elem_of_bind H. apply list_elem_of_fmap in Hb as (b' & -> & Hb). cbn in Hc.
  apply list_elem_of_fmap in Hc as (d & -> & Hd). destruct (_ !! c_mac d); [cbn; lia|]. apply H, list_elem_of_bind. by exists b'.
Qed.

(** The clients of the report at any time: the facts with their ages. *)
Lemma aged_the_facts now : ∃ cs, aged the_facts now = the_facts <| tf_clients := cs |> ∧ bc_bssid <$> cs = bssid <$> ti_bsses i
  ∧ (cs ≫= λ b, c_mac <$> clients b) = all_stations i ∧ ∀ c, c ∈ cs ≫= clients → 0 ≤ association_seconds c.
Proof.
  destruct clients_of_facts as [Hb Hm].
  assert (Hs : ∀ c, c ∈ (the_clients <$> ti_bsses i) ≫= clients → 0 ≤ association_seconds c).
  { intros c (b & Hc & Hb')%list_elem_of_bind. apply list_elem_of_fmap in Hb' as (v & -> & Hv). cbn in Hc. apply list_elem_of_fmap in Hc as (m & -> & Hm'). cbn.
    destruct (rp_ages _ Hi m) as (t & Et & Ht); [apply list_elem_of_bind; by exists v|]. rewrite Et. cbn. pose proof (Z.quot_pos t 1000). lia. }
  assert (E0 : aged the_facts now = the_facts ∨ ∃ t, aged the_facts now = the_facts <| tf_clients := aged_clients the_facts t |>)
    by (unfold aged; destruct (associated_at the_facts), now; eauto).
  destruct E0 as [->|[t ->]].
  - exists (the_clients <$> ti_bsses i). done.
  - exists (aged_clients the_facts t). split; [done|]. rewrite aged_bssids, aged_macs. split; [done|]. split; [done|]. intros c Hc. by eapply aged_seconds.
Qed.

Lemma media_sent a role m p ch : unicast_mac a = true → 0x100 ≤ m ≤ 0x107 → length p = 6%nat → role ∈ [AP_ROLE; STA_ROLE] →
  media (mkLocalInterface a m (p ++ octets [role; 0; ch; 0])) true = Ok tt ∧ len (p ++ octets [role; 0; ch; 0]) = 10.
Proof.
  intros _ Hm Hp Hr. assert (L : len (p ++ octets [role; 0; ch; 0]) = 10) by len_lia. split; [|done]. unfold media. cbn [media_type media_specific].
  assert (U : uint m 16 "media type" = Ok m) by (unfold uint; rewrite bool_decide_eq_true_2; [done|change (2 ^ 16) with 65536; lia]). rewrite U. cbn [mbind result_mbind].
  assert (ML : media_lengths m = Some 10).
  { unfold media_lengths. rewrite bool_decide_eq_false_2 by (rewrite !elem_of_cons, elem_of_nil; lia).
    rewrite bool_decide_eq_false_2 by (rewrite !elem_of_cons, elem_of_nil; lia). by rewrite bool_decide_eq_true_2 by lia. }
  rewrite ML, L. rewrite (bool_decide_eq_true_2 (10 = 10)) by done. cbn [negb raise_if mbind result_mbind]. rewrite (bool_decide_eq_true_2 (256 ≤ m ≤ 263)) by lia.
  assert (O : octet_at 6 (p ++ octets [role; 0; ch; 0]) = byte_to_Z (Z_to_byte role)) by (unfold octet_at; rewrite lookup_app_r by lia; by rewrite Hp).
  rewrite O. rewrite !elem_of_cons, elem_of_nil in Hr. by destruct Hr as [->|[->|[]]].
Qed.

Lemma the_interface_media j : j ∈ the_interfaces → media j true = Ok tt ∧ len (media_specific j) ≤ 10.
Proof.
  pose proof (rp_unicast _ Hi) as Hun. rewrite Forall_forall in Hun.
  unfold the_interfaces. intros [->|[Hj|Hj]%elem_of_app]%elem_of_cons; [by split| |].
  - apply list_elem_of_bind in Hj as (x & Hj & Hx). apply list_elem_of_fmap in Hj as (b & -> & Hb).
    destruct (rp_radio _ Hi x Hx) as [[m Hm] Hc]; [intros E; rewrite E in Hb; by apply not_elem_of_nil in Hb|].
    assert (Hu : unicast_mac (bssid b) = true) by (apply Hun; right; apply elem_of_app; left; apply list_elem_of_fmap_2, elem_ti_bsses; eauto).
    unfold the_interface. rewrite Hm. cbn [default from_option id]. destruct (media_sent (bssid b) AP_ROLE m (bssid b) x.2 Hu (media_wifi _ _ Hm)) as [? L]; [by apply unicast_six|left|].
    split; [done|]. cbn [media_specific]. lia.
  - destruct (ti_uplink i) as [up|] eqn:Eu; [|by apply not_elem_of_nil in Hj]. apply list_elem_of_singleton in Hj as ->.
    destruct (rp_uplink _ Hi up Eu) as ([m Hm] & _ & p & Hp & Hl). unfold the_station. rewrite Hm, Hp. cbn [default from_option id].
    assert (Hu : unicast_mac (u_mac (bh_station up)) = true) by (apply Hun; right; apply elem_of_app; right; unfold uplink_macs; rewrite Eu; left).
    destruct (media_sent (u_mac (bh_station up)) STA_ROLE m p (bh_channel up) Hu (media_wifi _ _ Hm) Hl) as [? L]; [right; left|]. split; [done|]. cbn [media_specific]. lia.
Qed.

(** Every part of the report is encoded. *)
Lemma values_encoded cs : ∃ ts, map_result (λ v, d ← encode_topology v; Ok (mkTlv (topology_kind v) d)) (topology_values (the_facts <| tf_clients := cs |>)) = Ok ts.
Proof.
  pose proof (rp_unicast _ Hi) as Hun. pose proof (rp_count _ Hi) as Hcnt. pose proof (unicast_sixes _ Hun) as Hlen. rewrite Forall_forall in Hlen.
  assert (Hen : ∀ v, v ∈ topology_values (the_facts <| tf_clients := cs |>) → ∃ d, encode_topology v = Ok d).
  { intros v. unfold topology_values. change (device_interfaces (device (the_facts <| tf_clients := cs |>))) with the_interfaces.
    change (Reports.al_mac (device (the_facts <| tf_clients := cs |>))) with (ti_agent i). change (bridges (the_facts <| tf_clients := cs |>)) with [li_mac <$> the_interfaces].
    change (non1905 (the_facts <| tf_clients := cs |>)) with (@nil (bytes * list bytes)).
    change (neighbors1905 (the_facts <| tf_clients := cs |>)) with (neighbors_1905 (ti_agent i) (ti_controller i) (ti_peers i)).
    rewrite !elem_of_app. intros [Hv|[Hv|[Hv|Hv]]].
    - apply list_elem_of_singleton in Hv as ->. apply device_fits; [apply Hlen; by left| |].
      + unfold len. rewrite <- (length_fmap li_mac), local_macs_interfaces. lia.
      + intros j Hj. assert (Hm : length (li_mac j) = 6%nat) by (apply Hlen; rewrite <- local_macs_interfaces; by apply list_elem_of_fmap_2).
        split; [done|]. by apply the_interface_media.
    - rewrite orb_true_r in Hv. apply list_elem_of_singleton in Hv as ->. rewrite local_macs_interfaces. apply bridge_fits; [unfold len; lia|done].
    - by apply not_elem_of_nil in Hv.
    - apply list_elem_of_fmap in Hv as (row & -> & Hr). apply neighbors_elem in Hr as [->|(Hin & ns & Ens & _ & Hl & Hu)].
      + apply neighbors_fit; [apply Hlen; by left|done|]. intros n ->%list_elem_of_singleton. apply unicast_six, (rp_controller _ Hi).
      + apply neighbors_fit; [apply Hlen; by right|rewrite Ens; unfold len; rewrite length_fmap; lia|]. rewrite Ens.
        intros n (a & -> & Ha)%list_elem_of_fmap. rewrite Forall_forall in Hu. by apply unicast_six, Hu. }
  induction (topology_values _) as [|v l IH]; [by exists []|]. destruct (Hen v ltac:(by left)) as [d Ed].
  destruct IH as [ts Ets]; [intros w Hw; apply Hen; by right|]. exists (mkTlv (topology_kind v) d :: ts). cbn [map_result]. rewrite Ed. cbn [mbind result_mbind]. by rewrite Ets.
Qed.

Lemma operational_bind : (the_operational <$> ti_radios i) ≫= or_bsses = (λ b, mkOperationalBss (bssid b) (bss_octets b)) <$> ti_bsses i.
Proof. unfold ti_bsses. induction (ti_radios i) as [|x l IH]; [done|]. by rewrite fmap_cons, !bind_cons, fmap_app, IH. Qed.
Lemma configured_bind : (the_configured <$> ti_radios i) ≫= cr_bsses = (λ b, mkConfiguredBss (bssid b) (the_flags b) (bss_octets b)) <$> ti_bsses i.
Proof. unfold ti_bsses. induction (ti_radios i) as [|x l IH]; [done|]. by rewrite fmap_cons, !bind_cons, fmap_app, IH. Qed.

Lemma bss_length b : b ∈ ti_bsses i → length (bssid b) = 6%nat.
Proof.
  intros Hb. apply unicast_six. pose proof (rp_unicast _ Hi) as Hun. rewrite Forall_forall in Hun. apply Hun. right. apply elem_of_app. left.
  by apply list_elem_of_fmap_2.
Qed.
Lemma ruid_length x : x ∈ ti_radios i → length (rv_ruid x.1.1) = 6%nat.
Proof.
  intros Hx. apply unicast_six. pose proof (rp_ruids_unicast _ Hi) as Hun. rewrite Forall_forall in Hun. apply Hun. apply list_elem_of_fmap. by exists x.
Qed.
Lemma bss_count : len (ti_bsses i) ≤ 64.
Proof. pose proof (rp_count _ Hi) as H. unfold local_macs in H. cbn [length] in H. rewrite length_app, length_fmap in H. unfold len. lia. Qed.

Lemma operational_encoded : ∃ t, em (APOperationalBss (the_operational <$> ti_radios i)) = Ok t.
Proof.
  apply operational_fits; rewrite ?operational_bind.
  - unfold len. rewrite length_fmap. pose proof (rp_radios _ Hi). lia.
  - pose proof bss_count. unfold len in *. by rewrite length_fmap.
  - intros r (x & -> & Hx)%list_elem_of_fmap. by apply ruid_length.
  - intros o (b & -> & Hb)%list_elem_of_fmap. cbn. split; [by apply bss_length|apply (rp_bss _ Hi b Hb)].
Qed.
Lemma configured_encoded : ∃ t, em (BssConfigurationReport (the_configured <$> ti_radios i)) = Ok t.
Proof.
  apply configured_fits; rewrite ?configured_bind.
  - unfold len. rewrite length_fmap. pose proof (rp_radios _ Hi). lia.
  - pose proof bss_count. unfold len in *. by rewrite length_fmap.
  - intros r (x & -> & Hx)%list_elem_of_fmap. by apply ruid_length.
  - intros o (b & -> & Hb)%list_elem_of_fmap. cbn. split; [by apply bss_length|]. split; [apply (rp_bss _ Hi b Hb)|].
    unfold the_flags. case_bool_decide; [left|right; left].
Qed.

Lemma fmap_bind {A B C} (f : B → C) (g : A → list B) (l : list A) : f <$> (l ≫= g) = l ≫= λ x, f <$> g x.
Proof. induction l as [|x l IH]; [done|]. by rewrite !bind_cons, fmap_app, IH. Qed.

Lemma clients_encoded cs : bc_bssid <$> cs = bssid <$> ti_bsses i → (cs ≫= λ b, c_mac <$> clients b) = all_stations i →
  (∀ c, c ∈ cs ≫= clients → 0 ≤ association_seconds c) → ∃ t, em (AssociatedClients cs) = Ok t.
Proof.
  intros Hb Hm Hs. rewrite <- fmap_bind in Hm. apply clients_fit.
  - unfold len. rewrite <- (length_fmap bc_bssid), Hb, length_fmap. apply bss_count.
  - unfold len. rewrite <- (length_fmap c_mac), Hm. pose proof (rp_stations_count _ Hi). lia.
  - intros b Hin%(list_elem_of_fmap_2 bc_bssid). rewrite Hb in Hin. apply list_elem_of_fmap in Hin as (v & -> & Hv). by apply bss_length.
  - intros c Hc. split; [|by apply Hs]. apply unicast_six. pose proof (rp_stations_unicast _ Hi) as Hu. rewrite Forall_forall in Hu. apply Hu. rewrite <- Hm. by apply list_elem_of_fmap_2.
Qed.

Lemma tlvs_built binding ms now : ti_agent i = local_al binding → ∃ tlvs, topology_tlvs the_facts binding ms now = Ok tlvs.
Proof.
  intros Hag. unfold topology_tlvs. fold (aged the_facts now). destruct (aged_the_facts now) as (cs & -> & Hb & Hm & Hs).
  rewrite facts_checked by done. cbn [mbind result_mbind]. destruct (values_encoded cs) as [ts ->]. cbn [mbind result_mbind].
  change (em (SupportedServices [1])) with (Ok (mkTlv 0x80 (octets [1; 1]))). cbn [mbind result_mbind].
  change (operational (the_facts <| tf_clients := cs |>)) with (the_operational <$> ti_radios i). destruct operational_encoded as [o ->]. cbn [mbind result_mbind].
  change (configuration (the_facts <| tf_clients := cs |>)) with (the_configured <$> ti_radios i). destruct configured_encoded as [c ->].
  change (tf_clients (the_facts <| tf_clients := cs |>)) with cs. destruct (clients_encoded cs) as [a ->]; [done..|].
  change (em (MultiAPProfile 1)) with (Ok (mkTlv 0xB3 (octets [1]))).
  destruct (bool_decide (ms = R1)); cbn [mbind result_mbind]; eauto.
Qed.
End Facts.

(** What a receiver reads of the clients: the BSSs with their stations. *)
Definition told (b : BssClients) : bytes * list bytes := (bc_bssid b, c_mac <$> clients b).

Lemma told_aged f now : told <$> tf_clients (aged f now) = told <$> tf_clients f.
Proof.
  assert (H : ∀ t, told <$> aged_clients f t = told <$> tf_clients f).
  { intros t. unfold aged_clients. cbv zeta. rewrite <- list_fmap_compose. apply list_fmap_ext. intros _ b _. unfold told, compose. cbn. f_equal.
    rewrite <- list_fmap_compose. apply list_fmap_ext. intros _ c _. cbn. by destruct (_ !! c_mac c). }
  unfold aged. destruct (associated_at f), now; [done|done|apply H|done].
Qed.
Lemma told_saturated b : told (saturated_bss b) = told b.
Proof. unfold told, saturated_bss. cbn. f_equal. rewrite <- list_fmap_compose. apply list_fmap_ext. done. Qed.

(** The TLVs of the operational BSSs and of the clients, in a report that was built. *)
Lemma report_parts facts binding ms now tlvs : topology_tlvs facts binding ms now = Ok tlvs →
  (∃ t, t ∈ tlvs ∧ carries t (APOperationalBss (operational facts)))
  ∧ ∃ t bs, t ∈ tlvs ∧ carries t (AssociatedClients bs) ∧ told <$> bs = told <$> tf_clients facts.
Proof.
  intros (_ & ts & s & o & c & a & p & -> & _ & Hc)%topology_tlvs_Ok.
  assert (Hin : ∀ x, x ∈ topology_payloads (aged facts now) ms → ∃ t, t ∈ ts ++ ([s; o] ++ c ++ [a]) ++ backhaul_tlvs (aged facts now) ++ p ∧ carries t x).
  { intros x [k Hx]%list_elem_of_lookup. destruct (Forall2_lookup_r _ _ _ _ _ Hc Hx) as (t & Ht%list_elem_of_lookup_2 & Hcar). exists t. split; [|done].
    rewrite !elem_of_app in *. naive_solver. }
  split.
  - destruct (Hin (APOperationalBss (operational (aged facts now)))) as (t & Ht & Hcar); [right; left|]. exists t. split; [done|].
    assert (E : operational (aged facts now) = operational facts) by (unfold aged; by destruct (associated_at facts), now). by rewrite E in Hcar.
  - destruct (Hin (AssociatedClients (saturated_bss <$> tf_clients (aged facts now)))) as (t & Ht & Hcar).
    { unfold topology_payloads. cbv zeta. rewrite !elem_of_app. right. right. left. by left. }
    exists t, (saturated_bss <$> tf_clients (aged facts now)). split; [done|]. split; [done|].
    rewrite <- told_aged with (now := now), <- list_fmap_compose. apply list_fmap_ext. intros _ b _. apply told_saturated.
Qed.

Lemma told_facts i : told <$> tf_clients (the_facts i) = (λ b, (bssid b, stations b)) <$> ti_bsses i.
Proof.
  change (tf_clients (the_facts i)) with (the_clients i <$> ti_bsses i). rewrite <- list_fmap_compose. apply list_fmap_ext. intros _ b _. unfold told, compose. cbn. f_equal.
  rewrite <- list_fmap_compose. apply list_fmap_id.
Qed.

(** ** Capabilities *)

Lemma extend_channels_run allowed l v : (∀ c, c ∈ l → c ∈ allowed ∧ 0 ≤ c ≤ 255) → fold_result (extend_channel allowed) v l = Ok (v ++ (Z_to_byte <$> l)).
Proof.
  revert v. induction l as [|c l IH]; intros v H; [by rewrite app_nil_r|]. cbn [fold_result]. destruct (H c ltac:(by left)) as [Hin Hr].
  assert (E : extend_channel allowed v c = Ok (v ++ [Z_to_byte c])) by (unfold extend_channel; rewrite enc_octet_intro by done; cbn [mbind result_mbind]; by rewrite bool_decide_eq_true_2).
  rewrite E. cbn [mbind result_mbind].
  rewrite IH; [by rewrite <- app_assoc|]. intros d Hd. apply H. by right.
Qed.

Lemma basic_class_fits v op band allowed : GLOBAL_OPERATING_CLASSES (operating_class op) = Some (band, allowed) → 0 ≤ operating_class op ≤ 255 →
  -128 ≤ max_eirp_dbm op ≤ 127 → len (non_operable_channels op) ≤ 20 → (∀ c, c ∈ non_operable_channels op → c ∈ allowed ∧ 0 ≤ c ≤ 255) → len v + 23 ≤ 16384 →
  ∃ r, extend_basic_class v op = Ok r ∧ len r ≤ len v + 23.
Proof.
  intros Hg Hc He Hl Hn Hv. unfold extend_basic_class. rewrite enc_octet_intro by done. cbn [mbind result_mbind]. rewrite Hg.
  rewrite bool_decide_eq_true_2 by done. cbn [negb refuse_if mbind result_mbind]. rewrite enc_count_intro by lia. cbn [mbind result_mbind].
  rewrite extend_channels_run by done. cbn [mbind result_mbind].
  match goal with |- context [bounded ?x] => assert (L : len x ≤ len v + 23) by len_lia end.
  eexists. split; [apply bounded_intro; lia|done].
Qed.

(** The classes of a band are classes of the audited table, with its channels. *)
Definition audited (band : string) (c : Z * list Z) : Prop :=
  GLOBAL_OPERATING_CLASSES c.1 = Some (band, c.2) ∧ c.1 ∈ [81; 82; 83; 84; 115; 124; 125] ∧ 0 ≤ c.1 ≤ 255 ∧ len c.2 ≤ 20 ∧ ∀ n, n ∈ c.2 → 0 ≤ n ≤ 255.

Lemma band_audited band classes : OPERATING_CLASSES band = Some classes → (1 ≤ length classes ≤ 3)%nat ∧ ∀ c, c ∈ classes → audited band c.
Proof.
  assert (H : ∀ b cs, forallb (λ c : Z * list Z, bool_decide (GLOBAL_OPERATING_CLASSES c.1 = Some (b, c.2)) && bool_decide (c.1 ∈ [81; 82; 83; 84; 115; 124; 125])
     && bool_decide (0 ≤ c.1 ≤ 255) && bool_decide (len c.2 ≤ 20) && forallb (λ n, bool_decide (0 ≤ n ≤ 255)) c.2) cs = true → ∀ c, c ∈ cs → audited b c).
  { intros b cs Hf c Hc. rewrite forallb_forall in Hf. apply list_elem_of_In, Hf in Hc. rewrite !andb_true_iff, !bool_decide_eq_true in Hc. destruct Hc as ((((? & ?) & ?) & ?) & Hn).
    do 4 (split; [done|]). intros n Hin. rewrite forallb_forall in Hn. apply list_elem_of_In, Hn in Hin. by apply bool_decide_eq_true in Hin. }
  unfold OPERATING_CLASSES. case_bool_decide as E1; [|case_bool_decide as E2; [|done]]; intros [= <-]; subst; (split; [cbn; lia|apply H; reflexivity]).
Qed.

Lemma class_of_Some band ch k : class_of band (Some ch) = Some k → ∃ classes c, OPERATING_CLASSES band = Some classes ∧ c ∈ classes ∧ ch ∈ c.2.
Proof.
  unfold class_of. destruct (OPERATING_CLASSES band) as [classes|]; [|done]. cbn [default from_option id]. intros Hl. apply last_Some in Hl as [l Hl].
  assert (Hk : k ∈ fst <$> filter (λ c : Z * list Z, bool_decide (ch ∈ c.2) = true) classes) by (rewrite Hl; apply elem_of_app; right; by left).
  apply list_elem_of_fmap in Hk as (c & _ & [Hc%bool_decide_eq_true Hin]%list_elem_of_filter). by exists classes, c.
Qed.

Lemma basic_classes_fit band cls v :
  (∀ op, op ∈ cls → ∃ c, audited band c ∧ operating_class op = c.1 ∧ -128 ≤ max_eirp_dbm op ≤ 127 ∧ len (non_operable_channels op) ≤ len c.2 ∧ ∀ n, n ∈ non_operable_channels op → n ∈ c.2) →
  len v + 23 * len cls ≤ 16384 → ∃ r, fold_result extend_basic_class v cls = Ok r ∧ len r ≤ len v + 23 * len cls.
Proof.
  revert v. induction cls as [|op cls IH]; intros v H Hl; [exists v; split; [done|unfold len; cbn; lia]|].
  destruct (H op ltac:(by left)) as (c & (Hg & _ & Hc & Hn & Hr) & Eo & He & Hno & Hsub). unfold len in Hl. cbn [length] in Hl.
  destruct (basic_class_fits v op band c.2) as (w & Ew & Lw); [by rewrite Eo|by rewrite Eo|done|lia|auto|unfold len in *; lia|].
  destruct (IH w) as (r & Er & Lr); [intros o Ho; apply H; by right|unfold len in *; lia|]. exists r. cbn [fold_result]. rewrite Ew. cbn [mbind result_mbind].
  split; [done|]. unfold len in *. cbn [length]. lia.
Qed.

(** A radio is reported operable on its channel and no other. *)
Definition operable_on (r : RadioView) (ch : Z) (e : EarlyRadio) : Prop :=
  basic_ruid (basic e) = rv_ruid r ∧ (∃ op, op ∈ basic_classes (basic e) ∧ ∃ band all, GLOBAL_OPERATING_CLASSES (operating_class op) = Some (band, all) ∧ ch ∈ all ∧ ch ∉ non_operable_channels op)
  ∧ ∀ op band all n, op ∈ basic_classes (basic e) → GLOBAL_OPERATING_CLASSES (operating_class op) = Some (band, all) → n ∈ all → n ∉ non_operable_channels op → n = ch.

Lemma early_radio_run r ch bss eirp : is_Some (class_of (rv_band r) (Some ch)) → unicast_mac (rv_ruid r) = true → 1 ≤ bss ≤ 255 → -128 ≤ eirp ≤ 127 →
  ∃ e, early_radio r ch bss eirp = Ok e ∧ operable_on r ch e ∧ max_bss (basic e) = bss ∧ (∀ op, op ∈ basic_classes (basic e) → max_eirp_dbm op = eirp)
    ∧ ∀ tlvs, ∃ more, radio_tlvs tlvs e = Ok (tlvs ++ more).
Proof.
  intros [k Hk] Hu Hb He. pose proof (unicast_six _ Hu) as Hl. pose proof (class_of_Some _ _ _ Hk) as (classes & c & Hcl & Hc & Hch).
  destruct (band_audited _ _ Hcl) as [Hlen Haud]. unfold early_radio. rewrite Hcl, Hk. eexists. split; [done|]. cbn [basic basic_ruid basic_classes max_bss].
  set (cls := (λ c, mkBasicOperatingClass c.1 eirp (filter (λ n, n ≠ ch) c.2)) <$> classes).
  assert (Hcls : ∀ op, op ∈ cls → ∃ c, c ∈ classes ∧ op = mkBasicOperatingClass c.1 eirp (filter (λ n, n ≠ ch) c.2)) by (intros op (d & -> & Hd)%list_elem_of_fmap; eauto).
  split; [split; [done|split]|].
  - exists (mkBasicOperatingClass c.1 eirp (filter (λ n, n ≠ ch) c.2)). split; [by apply list_elem_of_fmap; exists c|]. destruct (Haud c Hc) as [Hg _].
    exists (rv_band r), c.2. split; [exact Hg|]. split; [done|]. cbn. rewrite list_elem_of_filter. naive_solver.
  - intros op band all n (d & Hd & ->)%Hcls Hg Hn Hno. destruct (Haud d Hd) as [Hg' _]. cbn in Hg, Hno. rewrite Hg' in Hg. injection Hg as <- <-.
    rewrite list_elem_of_filter in Hno. destruct (decide (n = ch)); naive_solver.
  - split; [done|]. split; [by intros op (d & _ & ->)%Hcls|]. intros tlvs. unfold radio_tlvs. cbn [vht he eht basic basic_classes advanced adv_ruid basic_ruid adv_flags ht negb andb].
    assert (Hcount : length cls = length classes) by apply length_fmap.
    rewrite (bool_decide_eq_false_2 (length cls = 0%nat)) by lia. cbn [negb andb need raise_if mbind result_mbind].
    assert (Hf : forallb (λ op, bool_decide (operating_class op ∈ [81; 82; 83; 84; 115; 124; 125])) cls = true).
    { apply forallb_forall. intros op Hop%list_elem_of_In. destruct (Hcls op Hop) as (d & Hd & ->). apply bool_decide_eq_true. apply (Haud d Hd). }
    unfold need. rewrite Hf. cbn [negb raise_if mbind result_mbind]. rewrite !bool_decide_eq_true_2 by done. cbn [negb raise_if mbind result_mbind andb].
    destruct (basic_classes_fit (rv_band r) cls (rv_ruid r ++ [Z_to_byte bss] ++ [Z_to_byte (len cls)])) as (w & Ew & Lw).
    { intros op Hop. destruct (Hcls op Hop) as (d & Hd & ->). exists d. split; [by apply Haud|]. split; [done|]. split; [done|]. cbn. split.
      - unfold len. apply inj_le, length_filter.
      - intros n [_ Hn]%list_elem_of_filter. done. }
    { unfold len in *. rewrite !length_app. cbn [length]. lia. }
    assert (Eb : em (basic_payload (mkBasic (rv_ruid r) bss cls)) = Ok (mkTlv 0x85 w)).
    { apply em_intro; [|unfold len in *; rewrite !length_app in Lw; cbn [length] in Lw; lia]. cbn [basic_payload encode_body basic_ruid max_bss basic_classes].
      rewrite enc_octets_intro by done. cbn [mbind result_mbind]. rewrite enc_octet_intro by lia. cbn [mbind result_mbind].
      rewrite (bool_decide_eq_false_2 (bss = 0)) by lia. cbn [refuse_if mbind result_mbind]. rewrite enc_count_intro by (unfold len; lia). cbn [mbind result_mbind]. exact Ew. }
    rewrite Eb. cbn [mbind result_mbind].
    assert (Eh : em (APHTCapabilities (rv_ruid r) 0) = Ok (mkTlv 0x86 (rv_ruid r ++ [Z_to_byte 0]))).
    { apply em_intro; [cbn; by rewrite enc_octets_intro|]. unfold len. rewrite length_app, Hl. cbn. lia. }
    rewrite Eh. cbn [mbind result_mbind].
    assert (Ea : em (advanced_payload (mkAdvanced (rv_ruid r) 0)) = Ok (mkTlv 0xBE (rv_ruid r ++ [Z_to_byte 0]))).
    { apply em_intro; [cbn; by rewrite enc_octets_intro|]. unfold len. rewrite length_app, Hl. cbn. lia. }
    rewrite Ea. cbn [mbind result_mbind]. eexists. reflexivity.
Qed.

Lemma advertised_range kept reported : (∀ k, kept = Some k → -128 ≤ k ≤ 127) → -128 ≤ advertised_eirp kept reported ≤ 127.
Proof.
  intros H. unfold advertised_eirp, DEFAULT_MAX_EIRP. destruct kept as [k|]; [specialize (H k eq_refl)|]; destruct reported as [p|]; try case_bool_decide; cbn; try case_bool_decide; lia.
Qed.

Definition spec_ok (s : RadioView * Z * Z * Z) : Prop :=
  is_Some (class_of (rv_band s.1.1.1) (Some s.1.1.2)) ∧ unicast_mac (rv_ruid s.1.1.1) = true ∧ 1 ≤ s.1.2 ≤ 255 ∧ -128 ≤ s.2 ≤ 127.

(** What the capabilities say of one radio: its channel, its BSSs and its power. *)
Definition says (s : RadioView * Z * Z * Z) (e : EarlyRadio) : Prop :=
  operable_on s.1.1.1 s.1.1.2 e ∧ max_bss (basic e) = s.1.2 ∧ ∀ op, op ∈ basic_classes (basic e) → max_eirp_dbm op = s.2.

Lemma specs_run specs : Forall spec_ok specs → ∃ es, map_result (λ s : RadioView * Z * Z * Z, early_radio s.1.1.1 s.1.1.2 s.1.2 s.2) specs = Ok es
  ∧ Forall2 says specs es ∧ ∀ tlvs, ∃ more, fold_result radio_tlvs tlvs es = Ok (tlvs ++ more).
Proof.
  induction 1 as [|s specs (Hc & Hu & Hb & He) _ (es & Ees & Hes & Ht)]; [exists []; split; [done|]; split; [constructor|]; intros tlvs; exists []; by rewrite app_nil_r|].
  destruct (early_radio_run _ _ _ _ Hc Hu Hb He) as (e & Ee & Hop & Hm & Hp & Hr). exists (e :: es). cbn [map_result]. rewrite Ee. cbn [mbind result_mbind]. rewrite Ees.
  split; [done|]. split; [by constructor|]. intros tlvs. cbn [fold_result]. destruct (Hr tlvs) as [m1 ->]. cbn [mbind result_mbind]. destruct (Ht (tlvs ++ m1)) as [m2 ->].
  exists (m1 ++ m2). by rewrite app_assoc.
Qed.

Lemma says_ruids specs es : Forall2 says specs es → (λ r, basic_ruid (basic r)) <$> es = (λ s, rv_ruid s.1.1.1) <$> specs.
Proof. induction 1 as [|s e specs es [[Hr _] _] _ IH]; [done|]. by rewrite !fmap_cons, IH, Hr. Qed.

Lemma capabilities_run specs : Forall spec_ok specs → NoDup ((λ s, rv_ruid s.1.1.1) <$> specs) → (1 ≤ length specs ≤ 32)%nat →
  ∃ caps tlvs, radios_capabilities specs = Ok caps ∧ capability_tlvs caps = Ok tlvs ∧ Forall2 says specs (cap_radios caps).
Proof.
  intros Hs Hn Hl. destruct (specs_run specs Hs) as (es & Ees & Hes & Ht). exists (device_capabilities es). unfold radios_capabilities. rewrite Ees. cbn [mbind result_mbind].
  pose proof (Forall2_length _ _ _ Hes) as Hlen. pose proof (says_ruids _ _ Hes) as Hru.
  unfold capability_tlvs, device_capabilities. cbn [cap_complete cap_radios ap profile2 akm ciphers max_prioritization_rules max_vids p2_flags reserved_octet].
  unfold need at 1. cbn [negb raise_if mbind result_mbind]. rewrite need_intro by (apply bool_decide_eq_true; lia). cbn [mbind result_mbind].
  rewrite need_intro by reflexivity. cbn [mbind result_mbind]. rewrite Hru, check_unique_intro; [|done|].
  - cbn [mbind result_mbind]. change (em (APCapability 0)) with (Ok (mkTlv 0xA1 (octets [0]))). cbn [mbind result_mbind].
    destruct (Ht [mkTlv 0xA1 (octets [0])]) as [more ->]. cbn [mbind result_mbind].
    eexists. split; [done|]. split; [vm_compute (em _); cbn [mbind result_mbind]; reflexivity|done].
  - apply Forall_fmap. eapply Forall_impl; [exact Hs|]. by intros s (_ & Hu & _).
Qed.

Lemma bound_radio radios fronthaul channel additional slots slot_bands held r ch n :
  is_Some (class_of (rv_band fronthaul) (Some channel)) → (length slots ≤ 254)%nat →
  (r, ch, n) ∈ bound_radios radios fronthaul channel additional slots slot_bands held → is_Some (class_of (rv_band r) (Some ch)) ∧ 1 ≤ n ≤ 255.
Proof.
  intros Hf Hs. assert (Hn : ∀ P (HP : ∀ x : string, Decision (P x)), 0 ≤ len (filter P slots) ≤ 254) by (intros P HP; unfold len; pose proof (length_filter P slots); lia).
  unfold bound_radios. intros [[= -> -> ->]|Hin]%elem_of_cons; [split; [done|specialize (Hn (λ name, slot_band slot_bands name = None) _); lia]|].
  apply list_elem_of_omap in Hin as (x & _ & Hx). unfold bind_further in Hx. apply bind_Some in Hx as (radio & Hr & Hx). cbv zeta in Hx.
  apply bind_Some in Hx as (on & _ & Hx). apply bind_Some in Hx as (k & Hk & [= <- <- <-]).
  apply head_Some_elem_of in Hr. apply list_elem_of_filter in Hr as [[-> _] _]. split; [by exists k|].
  specialize (Hn (λ name, slot_band slot_bands name = Some (x_band x)) _). lia.
Qed.

(** ** What the view shows *)

(** A BSS the pod operates: an enabled AP row with its address, listed by its radio. *)
Definition operates (rows : Rows) (parent_aps : gset string) (radio : RadioRow) (b : BssView) : Prop :=
  ∃ u vif m, u ∈ rr_vifs radio ∧ row u (t_vifs rows) = Some vif ∧ given (vr_mac vif) = Some m ∧ vr_enabled vif = Some true ∧ vr_mode vif = Some "ap"
    ∧ bss_view parent_aps (t_clients rows) vif m = Ok b.

Lemma add_vifs_bsses rows aps us acc bu : fold_result (add_vif aps (t_clients rows) (t_vifs rows)) acc us = Ok bu →
  ∀ b, b ∈ bu.1 ↔ b ∈ acc.1 ∨ ∃ u vif m, u ∈ us ∧ row u (t_vifs rows) = Some vif ∧ given (vr_mac vif) = Some m ∧ vr_enabled vif = Some true
    ∧ vr_mode vif = Some "ap" ∧ bss_view aps (t_clients rows) vif m = Ok b.
Proof.
  revert acc. induction us as [|u us IH]; intros acc; cbn [fold_result].
  - intros [= <-] b. split; [by left|]. intros [?|(u & ? & ? & []%not_elem_of_nil & _)]; done.
  - intros (acc' & Ha & H)%result_bind_Ok b. rewrite (IH _ H b). clear IH H. setoid_rewrite elem_of_cons.
    assert (Hacc : b ∈ acc'.1 ↔ b ∈ acc.1 ∨ ∃ vif m, row u (t_vifs rows) = Some vif ∧ given (vr_mac vif) = Some m ∧ vr_enabled vif = Some true
      ∧ vr_mode vif = Some "ap" ∧ bss_view aps (t_clients rows) vif m = Ok b); [|rewrite Hacc; naive_solver].
    unfold add_vif in Ha. destruct (row u (t_vifs rows)) as [vif|]; [|injection Ha as <-; naive_solver].
    destruct (given (vr_mac vif)) as [m|] eqn:Em; [|injection Ha as <-; naive_solver].
    case_bool_decide as Een; cbn [negb] in Ha; [|injection Ha as <-; naive_solver].
    case_bool_decide as Esta; [apply result_bind_Ok in Ha as (v & _ & [= <-]); cbn [fst]; naive_solver|].
    case_bool_decide as Eap; [|injection Ha as <-; naive_solver].
    apply result_bind_Ok in Ha as (b' & Hb & [= <-]). cbn [fst]. rewrite elem_of_app, list_elem_of_singleton.
    split; [intros [?| ->]; [by left|right; by exists vif, m]|intros [?|(vif' & m' & [= <-] & Hm' & _ & _ & Hb')]; [by left|right]].
    rewrite Em in Hm'. injection Hm' as <-. congruence.
Qed.

Lemma bss_stations aps clients vif m b : bss_view aps clients vif m = Ok b →
  mac_of m = Ok (bssid b) ∧ b_vif b = vif ∧ ∀ s, s ∈ stations b ↔ ∃ u c, u ∈ vr_clients vif ∧ row u clients = Some c ∧ cl_state c = Some "active" ∧ mac_of (cl_mac c) = Ok s.
Proof.
  unfold bss_view. intros (macs & Hm%map_result_Ok & (a & Ha & [= <-])%result_bind_Ok)%result_bind_Ok. cbn [bssid b_vif stations]. split; [done|]. split; [done|]. intros s.
  unfold sort_octets, sort_by. rewrite merge_sort_Permutation. split.
  - intros [k Hk]%list_elem_of_lookup. destruct (Forall2_lookup_r _ _ _ _ _ Hm Hk) as (c & Hc%list_elem_of_lookup_2 & Hs). unfold active_clients in Hc.
    apply list_elem_of_filter in Hc as [Hst (u & Hu & Hr)%list_elem_of_omap]. by exists u, c.
  - intros (u & c & Hu & Hr & Hst & Hs). assert (Hc : c ∈ active_clients clients vif) by (apply list_elem_of_filter; split; [done|]; apply list_elem_of_omap; by exists u).
    apply list_elem_of_lookup in Hc as [k Hk]. destruct (Forall2_lookup_l _ _ _ _ _ Hm Hk) as (s' & Hs'%list_elem_of_lookup_2 & E). rewrite Hs in E. by injection E as <-.
Qed.

(** * Properties *)

(** The view shows what the pod operates, and nothing else: it has one radio for every radio row with an address, under that address; the BSSs of
    the radio are those of its rows that are enabled APs with an address; and the stations of a BSS are the addresses of its active
    clients. *)
Theorem view_exact rows aps d : device_view rows aps = Ok d →
  length (dv_radios d) = length (radios_with_mac rows) ∧
  ∀ radio m, (radio, m) ∈ radios_with_mac rows → ∃ r, r ∈ dv_radios d ∧ mac_of m = Ok (rv_ruid r) ∧ rv_channel r = rr_channel radio
    ∧ (∀ b, b ∈ rv_bsses r ↔ operates rows aps radio b)
    ∧ ∀ b s, b ∈ rv_bsses r → s ∈ stations b ↔
        ∃ u c, u ∈ vr_clients (b_vif b) ∧ row u (t_clients rows) = Some c ∧ cl_state c = Some "active" ∧ mac_of (cl_mac c) = Ok s.
Proof.
  unfold device_view. destruct (t_nodes rows) as [|[u node] [|]]; [done| |done]. destruct (given (n_serial node)) as [serial|]; [|done].
  intros (radios & Hr%map_result_Ok & [= <-])%result_bind_Ok. cbn [dv_radios]. split.
  { unfold sort_by. rewrite merge_sort_Permutation. symmetry. by eapply Forall2_length. }
  intros radio m [k Hk]%list_elem_of_lookup. destruct (Forall2_lookup_l _ _ _ _ _ Hr Hk) as (r & Hin%list_elem_of_lookup_2 & Hv). cbn [fst snd] in Hv.
  exists r. split; [by apply sort_by_elem|]. unfold radio_view in Hv. apply result_bind_Ok in Hv as (bu & Hbu & (a & Ha & [= <-])%result_bind_Ok). cbn [rv_ruid rv_bsses rv_channel].
  split; [done|]. split; [done|]. assert (Hops : ∀ b, b ∈ sort_by b_if_name bu.1 ↔ operates rows aps radio b).
  { intros b. rewrite sort_by_elem, (add_vifs_bsses _ _ _ _ _ Hbu b). unfold operates. cbn [fst]. split; [intros [?%not_elem_of_nil|]; done|by right]. }
  split; [exact Hops|]. intros b s (w & vif & x & _ & _ & _ & _ & _ & Hb)%Hops. apply bss_stations in Hb as (_ & -> & Hs). apply Hs.
Qed.

(** The advertised power of a source never falls, is what the pod reports when that is more, and is stable while the pod reports the same. *)
Theorem eirp_never_falls k reported :
  k ≤ advertised_eirp (Some k) reported ∧ (∀ p, reported = Some p → 0 < p ≤ 127 → p ≤ advertised_eirp (Some k) reported)
  ∧ ∀ kept, advertised_eirp (Some (advertised_eirp kept reported)) reported = advertised_eirp kept reported.
Proof.
  unfold advertised_eirp. split; [|split].
  - destruct reported; try case_bool_decide; try case_bool_decide; lia.
  - intros p -> Hp. rewrite (bool_decide_eq_true_2 (0 < p ≤ 127)) by done. case_bool_decide; lia.
  - intros [q|]; destruct reported as [p|]; try case_bool_decide; cbn; try case_bool_decide; try case_bool_decide; (done || lia).
Qed.

Lemma view_exact_witness : ∃ d, device_view (mkRows [("n", mkNodeRow (Some "SN1") None None None)] [] [] [] [] []) ∅ = Ok d ∧ length (dv_radios d) = 0%nat.
Proof. eexists. split; [reflexivity|]. by destruct (view_exact (mkRows [("n", mkNodeRow (Some "SN1") None None None)] [] [] [] [] []) ∅ _ eq_refl). Defined.

(** The radios an agent binds are reported as they are. When the fronthaul is on a mapped channel, and the radios have addresses of their own,
    the capability report of the bound radios is built and encoded, whatever the further radios of the pod do; it says of every
    bound radio that it operates on its channel and on no other, the number of BSSs it takes, and the maximum power
    it advertises. *)
Theorem bound_reported radios fronthaul channel additional slots slot_bands held (kept : bytes → option Z) :
  let bound := bound_radios radios fronthaul channel additional slots slot_bands held in
  let specs := (λ x, (x, advertised_eirp (kept (rv_ruid x.1.1)) (rv_tx_power x.1.1))) <$> bound in
  is_Some (class_of (rv_band fronthaul) (Some channel)) → (length slots ≤ 254)%nat → (length bound ≤ 32)%nat →
  NoDup ((λ x, rv_ruid x.1.1) <$> bound) → Forall (λ x, unicast_mac (rv_ruid x.1.1) = true) bound → (∀ r k, kept r = Some k → -128 ≤ k ≤ 127) →
  ∃ caps tlvs, radios_capabilities specs = Ok caps ∧ capability_tlvs caps = Ok tlvs ∧ Forall2 says specs (cap_radios caps).
Proof.
  intros bound specs Hf Hs Hl Hn Hu Hk. apply capabilities_run.
  - apply Forall_fmap, Forall_forall. intros [[r ch] n] Hin. rewrite Forall_forall in Hu. specialize (Hu _ Hin).
    destruct (bound_radio _ _ _ _ _ _ _ _ _ _ Hf Hs Hin) as [Hc Hb]. split; [done|]. split; [done|]. split; [done|]. apply advertised_range. intros k. apply Hk.
  - unfold specs. by rewrite <- list_fmap_compose.
  - unfold specs. rewrite length_fmap. split; [|done]. unfold bound, bound_radios. cbn [length]. lia.
Qed.

(** C40: a view becomes a report its receiver reads as the view. For every view with addresses and counts a report can carry (the record
    [reportable]), whatever its radios, BSSs, stations, uplink and neighbours: the facts are built, they pass every check of the report
    builder at any time and in both message sets, the report is encoded, and the receiver decodes from it the radios with their BSSs and SSIDs, and
    for every BSS its stations. *)
Theorem view_reported i binding ms now : reportable i → ti_agent i = local_al binding →
  ∃ facts tlvs, topology_facts i = Ok facts ∧ topology_tlvs facts binding ms now = Ok tlvs
  ∧ consistent (aged facts now) binding
  ∧ (∃ t, t ∈ tlvs ∧ carries t (APOperationalBss ((λ x, mkOperationalRadio (rv_ruid x.1.1) ((λ b, mkOperationalBss (bssid b) (bss_octets b)) <$> x.1.2)) <$> ti_radios i)))
  ∧ ∃ t bs, t ∈ tlvs ∧ carries t (AssociatedClients bs) ∧ told <$> bs = (λ b, (bssid b, stations b)) <$> ti_bsses i.
Proof.
  intros Hi Hag. destruct (tlvs_built i Hi binding ms now Hag) as [tlvs Et]. exists (the_facts i), tlvs. split; [by apply topology_facts_run|]. split; [done|].
  pose proof (topology_tlvs_Ok _ _ _ _ _ Et) as [Hc _]. split; [exact Hc|]. pose proof (report_parts _ _ _ _ _ Et) as [Ho (t & bs & Ht & Hcar & Hbs)].
  split; [exact Ho|]. exists t, bs. by rewrite told_facts in Hbs.
Qed.

(** A pod with a fronthaul AP and a station behind it, and a second radio with the pod's backhaul station. *)
Definition ex_rows : Rows :=
  mkRows [("n", mkNodeRow (Some "SN1") (Some "id") None (Some "6.6"))]
    [("r1", mkRadioRow (Some "02:00:00:00:01:01") (Some "phy0") (Some "2.4G") (Some 6) (Some 23) (Some true) ["v1"]);
     ("r2", mkRadioRow (Some "02:00:00:00:01:02") (Some "phy1") (Some "5G") (Some 44) None (Some true) ["v2"])]
    [("v1", mkVifRow "home-ap-24" (Some "02:00:00:00:02:01") (Some "ap") (Some true) (Some "home") None None None ["c1"; "c2"]);
     ("v2", mkVifRow "b-sta-50" (Some "02:00:00:00:02:02") (Some "sta") (Some true) (Some "backhaul") (Some "backhaul_sta") (Some true) (Some "02:00:00:00:03:01") [])]
    [("c1", mkClientRow "02:00:00:00:04:01" (Some "active")); ("c2", mkClientRow "02:00:00:00:04:02" (Some "idle"))]
    [("rc2", (Some "phy1", ["vc2"]))] [("vc2", ("b-sta-50", Some "sta"))].
Definition ex_station : VifRow := mkVifRow "home-ap-24" (Some "02:00:00:00:02:01") (Some "ap") (Some true) (Some "home") None None None ["c1"; "c2"].
Definition ex_octets (a b : Z) : bytes := octets [2; 0; 0; 0; a; b].
Definition ex_bss : BssView := mkBssView "home-ap-24" (ex_octets 2 1) "home" FRONTHAUL [ex_octets 4 1] ex_station.
Definition ex_uplink : UplinkView := mkUplinkView "b-sta-50" (ex_octets 2 2) "backhaul" (Some (ex_octets 3 1)) true.
Definition ex_radio1 : RadioView := mkRadioView (ex_octets 1 1) "phy0" "2.4G" (Some 6) (Some 23) true [ex_bss] [].
Definition ex_radio2 : RadioView := mkRadioView (ex_octets 1 2) "phy1" "5G" (Some 44) None true [] [ex_uplink].

Example ex_viewed : device_view ex_rows ∅ = Ok (mkDeviceView "SN1" (Some "id") None (Some "6.6") [ex_radio1; ex_radio2])
  ∧ backhaul_of (mkDeviceView "SN1" (Some "id") None (Some "6.6") [ex_radio1; ex_radio2]) "b-sta-50" = Some (mkBackhaulView (ex_octets 1 2) "5G" 44 ex_uplink)
  ∧ backhaul_radios_of ex_rows ["b-sta-50"] (Some "b-sta-50") = Ok [(ex_octets 1 2, Some (ex_octets 2 2))].
Proof. vm_compute. done. Qed.

Definition ex_input : TopologyInput :=
  mkTopologyInput (local_al example_binding) (Reports.controller_al example_binding) (ex_radio1, [ex_bss], 6) {[ex_octets 4 1 := 5000]}
    (Some (mkBackhaulView (ex_octets 1 2) "5G" 44 ex_uplink)) {[ex_octets 4 1 := 1000]} [(ex_octets 2 2, ex_octets 5 1)] [(ex_octets 1 2, Some (ex_octets 2 2))] [(ex_radio2, [], 44)].

Lemma ex_reportable : reportable ex_input.
Proof.
  split.
  - apply (bool_decide_unpack _). vm_compute. exact I.
  - apply (bool_decide_unpack _). vm_compute. exact I.
  - cbn. lia.
  - apply (bool_decide_unpack _). vm_compute. exact I.
  - apply (bool_decide_unpack _). vm_compute. exact I.
  - cbn. lia.
  - intros x Hx. change (ti_radios ex_input) with [(ex_radio1, [ex_bss], 6); (ex_radio2, [], 44)] in Hx. rewrite !elem_of_cons, elem_of_nil in Hx. destruct Hx as [->|[->|[]]]; intros _; (split; [by eexists|cbn; lia]).
  - intros up [= <-]. split; [by eexists|]. split; [cbn; lia|]. by exists (ex_octets 3 1).
  - intros b Hb. change (ti_bsses ex_input) with [ex_bss] in Hb. apply list_elem_of_singleton in Hb as ->. split; [by vm_compute|left].
  - apply (bool_decide_unpack _). vm_compute. exact I.
  - apply (bool_decide_unpack _). vm_compute. exact I.
  - cbn. lia.
  - intros m Hm. change (all_stations ex_input) with [ex_octets 4 1] in Hm. apply list_elem_of_singleton in Hm as ->. exists 5000. by vm_compute.
  - reflexivity.
  - intros p Hp. change (ti_peers ex_input) with [(ex_octets 2 2, ex_octets 5 1)] in Hp. apply list_elem_of_singleton in Hp as ->. split; [apply (bool_decide_unpack _); vm_compute; exact I|reflexivity].
  - cbn. lia.
Qed.

Lemma view_reported_witness :
  ∃ facts tlvs t bs, topology_facts ex_input = Ok facts ∧ topology_tlvs facts example_binding EASYMESH_61 (Some 9000) = Ok tlvs
    ∧ t ∈ tlvs ∧ carries t (AssociatedClients bs) ∧ told <$> bs = [(ex_octets 2 1, [ex_octets 4 1])].
Proof.
  destruct (view_reported ex_input example_binding EASYMESH_61 (Some 9000) ex_reportable eq_refl) as (facts & tlvs & Ef & Et & _ & _ & t & bs & Ht & Hc & Hb).
  by exists facts, tlvs, t, bs.
Defined.

Lemma bound_reported_witness :
  ∃ caps tlvs, radios_capabilities [(ex_radio1, 6, 2, 23); (ex_radio2, 44, 1, 20)] = Ok caps ∧ capability_tlvs caps = Ok tlvs
    ∧ Forall2 says [(ex_radio1, 6, 2, 23); (ex_radio2, 44, 1, 20)] (cap_radios caps).
Proof.
  apply (bound_reported [ex_radio1; ex_radio2] ex_radio1 6 [mkFurther "5G" None] ["slot"] [] ∅ (λ _, None)).
  - by eexists.
  - cbn. lia.
  - vm_compute. lia.
  - apply (bool_decide_unpack _). vm_compute. exact I.
  - apply (bool_decide_unpack _). vm_compute. exact I.
  - done.
Defined.
